(* ===== verification/_CoqProject ===== *)
-Q . S2P
Prelude.v
Bytes.v
ABIArgInfo.v
FfiTypes.v
Layout.v
Placement.v
AAPrepCif.v
HFA.v
AAAlloc.v
XXPrepCif.v
XXClass.v
XXAlloc.v
CrossABI.v
DyBridge.v
DyEntry.v
DyStep.v
DyCorrect.v
DyExit.v
CString.v
TypesParser.v
TypesSpec.v
FmtStr.v
FmtSpec.v
Handlers.v
HandlerSpec.v
Registry.v
JsonParser.v
Callbacks.v
Memory.v
X86.v
Encoder.v
Machine.v
A2XCode.v
A2XSim.v
A2XStep.v
A2XArg.v
A2XFloat.v
A2XEntry.v
A2XCall.v
A2XExit.v
A2XValid.v
A2XTramp.v
A2XBridge.v
A2XCorrect.v
X2ACode.v
X2ASim.v
X2AArg.v
X2AEntry.v
X2AExit.v
X2AValid.v
X2ABridge.v
X2ACorrect.v
Runs.v
Prologue.v
XLoopTramp.v
DyCall.v
TbEntry.v
Pages.v
PagesSpec.v
PagesInv.v
Fault.v
XLoop.v
SigState.v
Setjmp.v
XLoopSpec.v
Signals.v
SigSpec.v
SigCorrect.v
Traps.v
Loader.v
LoaderSpec.v
Hooks.v
Patch.v
