(* ===== verification/Prelude.v ===== *)
(** * The bridge between guest and host of iqemu64

    iqemu64 runs AArch64 iOS programs on x86-64 macOS.  Only the program is
    emulated; the system libraries run natively, so every call from the
    program into a library crosses from the AArch64 procedure call standard
    (with the rules Apple adds) to the System V x86-64 convention, and every
    callback in the other direction.  This development models that bridge,
    [src/tcg/abibridge], its callers, the code the bridge is entered and left
    through, and the parts of the emulator that guest and host share: the pages
    of memory and the signals.

    ** The parts and how they work together

    A call is described twice, once per convention, by an [ABIFnInfo]: for the
    return value and for each argument, the registers or the stack slot it is
    in.  Descriptions come from three sources: a type encoding of the
    Objective-C run time ([typesParser.c]), a format string, which is turned
    into a type encoding first ([fmtstrParser.c]), or a generated table
    ([jsonParser.c]).  The first two compute them with one function per
    convention ([aa_prep_cif.c], [xx_prep_cif.c]).  Given the descriptions,
    the dynamic bridge ([abi_dy_a2x_entry_translation] and
    [abi_dy_a2x_exit_translation] of [AArch64tox64.inc.c]) moves arguments and
    return value between the register file of the emulated processor and an
    argument space that a trampoline ([tcg-target.inc.c]) loads into the real
    registers.  Handlers for the variadic functions of the libraries drive
    this, and [register_important_funcs] ([translate-all.c]) installs them.
    A function whose prototype is known gets a trampoline of its own
    ([abi_a2x_gen_trampoline_for_name] and [_for_types]): the static bridge
    makes the same translations by emitting host instructions once, with the
    encoder of [tcg-target.inc.c].

    The other direction starts with a fault.  Pages of guest code are never
    executable for the host ([page_set_flags]), so that a host function that
    calls a guest function faults; the handler sends the call through
    [code_gen_xloop_trampoline] into the emulator.  The arguments are moved by a
    generated function for the prototype ([x64toAArch64.inc.c]), the guest
    runs in translated blocks, which C code enters and leaves through
    [code_gen_prologue] and [code_gen_epilogue], and a second generated function
    moves the return value back.  Pages with translated code are not writable,
    so that a guest that writes code faults too and its old translation is
    dropped ([page_unprotect]).  All other signals of the host are recorded by
    [host_signal_handler] and delivered to the guest between blocks
    ([process_pending_signals]).

    ** The files

    - [Prelude]: outcomes of C code as a monad, machine integers, lists.
    - [Bytes]: objects as arrays of bytes, little-endian numbers.
    - [ABIArgInfo]: [include/tcg/ABIArgInfo.h], the packed locations.
    - [FfiTypes]: [te_ffi.h], [types.c], [initialize_aggregate].
    - [Layout]: the C types [cty], their reference layout, and that
      [initialize_aggregate] computes it.
    - [Placement]: abstract places ([place]) and what describes them.
    - [AAPrepCif]: [aa_prep_cif.c].  [HFA]: its test for homogeneous
      floating-point aggregates.  [AAAlloc]: the AAPCS64 allocator as an
      abstract machine, and the refinement.
    - [XXPrepCif]: [xx_prep_cif.c].  [XXClass]: classification of eightbytes.
      [XXAlloc]: the System V allocator as an abstract machine, and the
      refinement.
    - [CrossABI]: how the two conventions place the same type.
    - [DyBridge]: the dynamic bridge.  [DyEntry], [DyStep], [DyCorrect]: the
      entry translation, for one argument and for whole prototypes.
      [DyExit]: the exit translation.
    - [CString]: C strings and the functions of the C library used on them.
    - [TypesParser], [TypesSpec]: [typesParser.c], and the syntax and meaning
      of type encodings.
    - [FmtStr], [FmtSpec]: [fmtstrParser.c], and the syntax and meaning of
      formats.
    - [Handlers], [HandlerSpec]: the [my_..._family] functions of
      [AArch64tox64.inc.c] and the trampoline, and what a callee sees.
    - [Registry]: [register_important_funcs] and the stubs it installs.
    - [JsonParser]: [get_fn_info_from_name].
    - [Callbacks]: the types of callbacks ([x64toAArch64.inc.c]) and the
      structures with function pointers.
    - [Memory], [X86]: the host processor: memory, registers, the instructions
      the bridge emits with their effect, and a decoder for their bytes.
    - [Encoder]: the encoder functions of [tcg-target.inc.c] and that the
      decoder reads their bytes back; [Machine]: runs of emitted code, as calls
      of the encoder and as bytes.
    - [A2XCode]: [abi_a2x_entry_translation], [abi_a2x_exit_translation] and
      the trampoline, as the calls of the encoder they make.  [A2XSim] relates
      the host state to the register file and argument space of the dynamic
      bridge; [A2XStep], [A2XArg], [A2XFloat], [A2XEntry] are the code of
      one argument and of all, [A2XCall] the state of the callee, [A2XExit] the
      return value, [A2XValid] that everything emitted has an encoding,
      [A2XTramp], [A2XBridge], [A2XCorrect] the whole trampoline.
    - [X2ACode]: [abi_x2a_entry_translation] and [abi_x2a_exit_translation] of
      [x64toAArch64.inc.c] in the same way; [X2ASim], [X2AArg], [X2AEntry],
      [X2AExit], [X2AValid], [X2ABridge], [X2ACorrect] are its simulation, the
      code of one argument, of all, of the return value, its encodings and the
      generated functions.
    - [Runs]: runs of code at its place in memory.  [Prologue]: what
      [tcg_target_qemu_prologue] emits.  [XLoopTramp]: the trampoline from a host
      caller into the emulator.  [DyCall]: the trampoline of the handlers.
      [TbEntry]: entry and exit of translated code.
    - [Pages]: flags of pages ([translate-all.c]) and mappings
      ([bsd-user/mmap.c]); [PagesSpec]: what the operations do; [PagesInv]: the
      invariant that guards guest code and translated code.
    - [SigState], [Signals]: [bsd-user/signal.c], state and conversions, arrival
      and delivery; [SigSpec], [SigCorrect]: the well-formed states and the
      properties.

    Definitions have the names of the C functions; loop bodies and branches
    that have no name in C are definitions of their own, named after what they
    do.  C structures are records.  Values that C code changes in place
    (descriptors, descriptions, the register file, the argument space) are
    passed and returned.

    ** What is shown

    - Both conventions: for every prototype over proper types the code writes
      the description of the abstract allocator; arguments never overlap, stay
      within the frame and are aligned; types without members are rejected
      ([AAAlloc], [XXAlloc]).  The classifier agrees with the ABI rule except
      on nested structures that straddle an eightbyte ([XXClass]).
    - The bridge: every argument of every prototype has the same bytes for
      the callee as for the caller, and every return value for the caller as
      for the callee; the one excluded combination is shown to go wrong
      ([DyCorrect], [DyExit]).
    - The parsers: a printed type encoding is parsed to its type, a signature
      and a format to the descriptions of the call they denote, a table entry
      to the descriptions it was made from.  Inputs on which a parser aborts,
      reads past its input or does not end are described by theorems too
      ([TypesSpec], [FmtSpec], [JsonParser]).
    - Whole calls: a guest that jumps to a registered function of the printf
      family, with an argument list or with a [va_list], has the host function
      called with its arguments and continues behind the call ([Registry]);
      scanf and nil-terminated lists are treated in [HandlerSpec].
    - The static bridge: the bytes the encoder emits are decoded as the
      instruction that is meant; the bytes of a trampoline, run by the
      processor, call the host function with its arguments and give the
      return value back, for every prototype outside three combinations that
      are shown to trap or to lose a value ([Encoder], [A2XCorrect]).
      In the other direction the bytes of the two generated functions bring
      the arguments of the host caller to the guest function and its value
      back ([X2ACorrect]).
    - The fixed trampolines: the bytes of [code_gen_dy_call_x64_trampoline] make
      the call that the handlers rely on ([DyCall]); translated code called as a
      C function gives the caller its registers and stack back ([TbEntry]).
    - Callbacks: the pointers of a structure are registered under names that
      tell them apart ([Callbacks]).
    - Pages: whatever is mapped, unmapped, translated and written, no page of
      guest code is executable for the host and no page with translated code is
      writable ([PagesInv], by induction on the steps); [target_mprotect] and
      [page_check_range] in every case.  Two theorems are about what goes wrong:
      guest code cannot be mapped over, and translations outlive their page.
    - Signals: masks, sets and dispositions in every case; the loop that
      delivers signals ends and leaves only blocked ones pending; two theorems
      are about signals that wait too long ([SigCorrect]).

    ** Bounds

    The model stops with [OutOfFuel] where a bound on recursion is used up.
    Layout and classification recurse on the descriptor.  The type parser is
    bounded by the length of the string, which [types_parser_terminates] shows
    to be enough on every string.  The loops of the format parsers need one
    round per conversion, and on some formats no bound is enough
    ([parse_fmtstr_diverges]).  Reading a string or a nil-terminated list from
    guest memory needs as many steps as there are characters or elements; the
    bound of a handler is a parameter and its theorems ask for that much.
    Generated code has no backward jumps: a run is bounded by the number of its
    instructions, which the theorems show to be enough.  [target_mmap] calls
    itself once, and [target_mmap_rec] is given a depth of 2; the search
    of [mmap_find_vma] has a bound that its callers choose, and the invariant
    holds for every bound.  A scan for pending signals delivers each at most
    once: 33 rounds are enough, which [process_pending_signals_settles] shows;
    the outer loop goes on while host signals arrive, and the arrivals are given
    as a list.

    ** Assumptions about the environment

    The build is that of the Xcode project: [__APPLE__] is defined, assertions
    are enabled, [REPLACE_VALIST_WITH_ELLIPSIS] is 1.  Host functions, the
    Objective-C run time, the memory that [alloca] returns, addresses of host
    functions and the MessagePack library are parameters.  The processor has
    the documented behaviour of the instructions in [X86]; the callee of a
    trampoline keeps the registers and the stack the x86-64 convention makes it
    keep, which [host_returned] of [A2XBridge] spells out.  The calls of the
    host kernel that change mappings follow the laws of [HostVMLaws], and a host
    page is a target page, as on macOS; [setup_rt_frame] and the debugger are
    parameters of the delivery of signals, with the laws of [FrameSetupLaws].
    Both classes have an instance, with which the theorems are evaluated.

    ** What is not modelled

    - The copies of blocks and the caches of generated trampolines.
    - The handlers that work on host objects only
      ([my_AudioUnitSetProperty], [my__Block_object_assign],
      [my_class_replaceMethod], [my_NSObject_methodForSelector]).
    - [handleRet] of [typesParser.c], which has no caller.
    - Loader and hooks ([src/bsd-user]): calls of the host system.  Guest
      system calls: [do_syscall] is empty in this fork.
    - The translator, the devices and the libraries inherited from QEMU. *)

From Stdlib Require Import ZArith Lia Ascii.
From stdpp Require Export prelude.

#[global] Open Scope Z_scope.

(** ** Outcomes of C code

    A C function either returns a value or stops: it calls [abort] (directly
    or through a failing [assert]; the repository does not build with
    [NDEBUG]), it runs into undefined behaviour (a read outside an object, a
    null dereference), or, in the model only, the recursion bound is used up.
    Every bounded definition comes with a theorem that excludes the last.
    Generated machine code can also trap: an exception of the processor. *)

Inductive fault : Set := Aborted | Undefined | OutOfFuel | Trapped.

Inductive outcome (A : Type) : Type :=
| Ret (a : A)
| Stop (f : fault).
Arguments Ret {A} _.
Arguments Stop {A} _.

#[export] Instance fault_eq_dec : EqDecision fault.
Proof. solve_decision. Defined.

#[export] Instance outcome_ret : MRet outcome := @Ret.
#[export] Instance outcome_bind : MBind outcome := λ A B f m,
  match m with Ret a => f a | Stop e => Stop e end.
#[export] Instance outcome_fmap : FMap outcome := λ A B f m,
  match m with Ret a => Ret (f a) | Stop e => Stop e end.

(** [assert(b)] *)
Definition c_assert (b : bool) : outcome unit :=
  if b then Ret tt else Stop Aborted.

(** Reading [l[i]]: outside the array the behaviour is undefined. *)
Definition c_index {A} (l : list A) (i : nat) : outcome A :=
  match l !! i with Some x => Ret x | None => Stop Undefined end.

(** Read, modify and write back [l[i]]. *)
Definition c_update {A} (l : list A) (i : nat) (f : A → outcome A) : outcome (list A) :=
  x ← c_index l i; y ← f x; Ret (<[i := y]> l).

Lemma bind_Ret {A B} (m : outcome A) (f : A → outcome B) b :
  m ≫= f = Ret b ↔ ∃ a, m = Ret a ∧ f a = Ret b.
Proof.
  destruct m; simpl; split.
  - eauto.
  - by intros (? & [= ->] & ?).
  - done.
  - by intros (? & ? & ?).
Qed.

Lemma fmap_Ret {A B} (m : outcome A) (f : A → B) b :
  f <$> m = Ret b ↔ ∃ a, m = Ret a ∧ f a = b.
Proof. destruct m; simpl; naive_solver. Qed.

Lemma c_assert_Ret b u : c_assert b = Ret u ↔ b = true.
Proof. destruct b, u; simpl; naive_solver. Qed.

Lemma c_index_Ret {A} (l : list A) i x : c_index l i = Ret x ↔ l !! i = Some x.
Proof. unfold c_index. destruct (l !! i); naive_solver. Qed.

Lemma c_update_Ret {A} (l l' : list A) i f :
  c_update l i f = Ret l' ↔ ∃ x y, l !! i = Some x ∧ f x = Ret y ∧ l' = <[i := y]> l.
Proof.
  unfold c_update. rewrite bind_Ret. setoid_rewrite bind_Ret.
  setoid_rewrite c_index_Ret. naive_solver.
Qed.

Lemma c_update_length {A} (l l' : list A) i f :
  c_update l i f = Ret l' → length l' = length l.
Proof. intros (? & ? & ? & ? & ->)%c_update_Ret. apply length_insert. Qed.

Lemma c_update_Some {A} (l : list A) i f x y :
  l !! i = Some x → f x = Ret y → c_update l i f = Ret (<[i := y]> l).
Proof. intros. apply c_update_Ret. eauto. Qed.

Lemma Ret_inj {A} (a b : A) : Ret a = Ret b → a = b.
Proof. by intros [= ->]. Qed.

(** ** Machine integers: values in [Z] with the wrap-around written out. *)

Definition wrap (w z : Z) : Z := z mod 2 ^ w.
Abbreviation u8 := (wrap 8).
Abbreviation u16 := (wrap 16).
Abbreviation u32 := (wrap 32).
Abbreviation u64 := (wrap 64).

(** The value of the low [w] bits read as a two's complement number. *)
Definition sext (w z : Z) : Z :=
  let m := wrap w z in if m <? 2 ^ (w - 1) then m else m - 2 ^ w.

(** An unsigned integer of [w] bits. *)
Definition in_u (w z : Z) : Prop := 0 ≤ z < 2 ^ w.

Lemma wrap_range w z : 0 ≤ w → in_u w (wrap w z).
Proof. intros. unfold in_u, wrap. apply Z.mod_pos_bound. lia. Qed.

Lemma wrap_small w z : in_u w z → wrap w z = z.
Proof. intros. by apply Z.mod_small. Qed.

Lemma wrap_wrap w z : 0 ≤ w → wrap w (wrap w z) = wrap w z.
Proof. intros. apply wrap_small, wrap_range. lia. Qed.

Lemma sext_small w z : 0 < w → 0 ≤ z < 2 ^ (w - 1) → sext w z = z.
Proof.
  intros Hw Hz. assert (2 ^ w = 2 * 2 ^ (w - 1)) by (rewrite <- Z.pow_succ_r by lia; f_equal; lia).
  unfold sext. rewrite wrap_small by (unfold in_u; lia). by rewrite (proj2 (Z.ltb_lt _ _)) by lia.
Qed.

Lemma sext_signed w z : 0 < w → - 2 ^ (w - 1) ≤ z < 2 ^ (w - 1) → sext w z = z.
Proof.
  intros Hw Hz. destruct (Z_lt_le_dec z 0); [|by apply sext_small; [|lia]].
  assert (2 ^ w = 2 * 2 ^ (w - 1)) by (rewrite <- Z.pow_succ_r by lia; f_equal; lia).
  assert (wrap w z = z + 2 ^ w) as Hm by (symmetry; apply (Z.mod_unique _ _ (-1)); [left|]; lia).
  unfold sext. rewrite Hm. by rewrite (proj2 (Z.ltb_ge _ _)), Z.add_simpl_r by lia.
Qed.

Lemma wrap_testbit w z i : 0 ≤ w → 0 ≤ i →
  Z.testbit (wrap w z) i = (i <? w) && Z.testbit z i.
Proof.
  intros. unfold wrap. destruct (Z.ltb_spec i w).
  - by rewrite Z.mod_pow2_bits_low.
  - by rewrite Z.mod_pow2_bits_high by lia.
Qed.

(** A non-negative number all of whose bits from [w] on are zero fits [w] bits. *)
Lemma in_u_bits w z : 0 ≤ w → 0 ≤ z →
  (∀ i, w ≤ i → Z.testbit z i = false) → in_u w z.
Proof.
  intros Hw Hz Hb. split; [lia|].
  replace z with (wrap w z); [by apply wrap_range|].
  apply Z.bits_inj'. intros i Hi. rewrite wrap_testbit by lia.
  destruct (Z.ltb_spec i w); [done|]. by rewrite Hb.
Qed.

Lemma in_u_testbit w z i : 0 ≤ w → in_u w z → w ≤ i → Z.testbit z i = false.
Proof.
  intros Hw Hz Hi. rewrite <- (wrap_small w z Hz), wrap_testbit by lia.
  by destruct (Z.ltb_spec i w); [lia|].
Qed.

(** ** Byte access to a little-endian integer, as the code does by casting
    the address of the integer to [uint8_t *], [uint16_t *] or [uint32_t *]. *)

(** The [w]-bit piece number [i]. *)
Definition get_piece (w v i : Z) : Z := wrap w (Z.shiftr v (w * i)).

Definition set_piece (w v i x : Z) : Z :=
  Z.lor (Z.ldiff v (Z.shiftl (Z.ones w) (w * i))) (Z.shiftl (wrap w x) (w * i)).

Lemma get_piece_testbit w v i k : 0 ≤ w → 0 ≤ i → 0 ≤ k →
  Z.testbit (get_piece w v i) k = (k <? w) && Z.testbit v (k + w * i).
Proof.
  intros. unfold get_piece. rewrite wrap_testbit by lia.
  rewrite Z.shiftr_spec by lia. done.
Qed.

Lemma set_piece_testbit w v i x k : 0 ≤ w → 0 ≤ i → 0 ≤ k →
  Z.testbit (set_piece w v i x) k =
    if (w * i <=? k) && (k <? w * i + w) then Z.testbit x (k - w * i) else Z.testbit v k.
Proof.
  intros. unfold set_piece.
  rewrite Z.lor_spec, Z.ldiff_spec, !Z.shiftl_spec by lia.
  destruct (Z.leb_spec (w * i) k); simpl.
  - rewrite Z.testbit_ones_nonneg by lia. rewrite wrap_testbit by lia.
    destruct (Z.ltb_spec (k - w * i) w), (Z.ltb_spec k (w * i + w)); try lia; simpl.
    + by rewrite andb_false_r.
    + by rewrite andb_true_r, orb_false_r.
  - rewrite !(Z.testbit_neg_r _ (k - w * i)) by lia.
    by rewrite andb_true_r, orb_false_r.
Qed.

Lemma get_set_piece_eq w v i x : 0 ≤ w → 0 ≤ i →
  get_piece w (set_piece w v i x) i = wrap w x.
Proof.
  intros. apply Z.bits_inj'. intros k Hk.
  rewrite get_piece_testbit, set_piece_testbit, wrap_testbit by nia.
  destruct (Z.ltb_spec k w); [|done]. simpl.
  rewrite (proj2 (Z.leb_le _ _)), (proj2 (Z.ltb_lt _ _)) by lia. simpl.
  f_equal. lia.
Qed.

Lemma get_set_piece_ne w v i j x : 0 ≤ w → 0 ≤ i → 0 ≤ j → i ≠ j →
  get_piece w (set_piece w v i x) j = get_piece w v j.
Proof.
  intros. apply Z.bits_inj'. intros k Hk.
  rewrite !get_piece_testbit by lia.
  destruct (Z.ltb_spec k w); [|done]. simpl.
  rewrite set_piece_testbit by nia.
  destruct (Z.leb_spec (w * i) (k + w * j)), (Z.ltb_spec (k + w * j) (w * i + w));
    simpl; try done. exfalso. nia.
Qed.

Lemma set_piece_range W w v i x : 0 ≤ w → 0 ≤ i → w * i + w ≤ W →
  in_u W v → in_u W (set_piece w v i x).
Proof.
  intros Hw Hi HW Hv. assert (0 ≤ w * i) by nia. apply in_u_bits; [lia| |].
  - unfold set_piece. apply Z.lor_nonneg. split.
    + apply Z.ldiff_nonneg. left. apply Hv.
    + apply Z.shiftl_nonneg, wrap_range. lia.
  - intros k Hk. rewrite set_piece_testbit by lia.
    destruct (Z.leb_spec (w * i) k), (Z.ltb_spec k (w * i + w)); simpl; try lia;
      apply (in_u_testbit W); auto; lia.
Qed.

(** ** Proof automation *)

(** Decompose hypotheses that say a computation returned. *)
Ltac inv_outcome :=
  repeat match goal with
  | H : _ ≫= _ = Ret _ |- _ => apply bind_Ret in H as (? & ? & ?)
  | H : _ <$> _ = Ret _ |- _ => apply fmap_Ret in H as (? & ? & ?)
  | H : c_assert _ = Ret _ |- _ => apply c_assert_Ret in H
  | H : c_index _ _ = Ret _ |- _ => apply c_index_Ret in H
  | H : Ret _ = Ret _ |- _ => injection H as H
  | H : Stop _ = Ret _ |- _ => discriminate H
  | H : mret _ = Ret _ |- _ => injection H as H
  end.

(** Case analysis on every boolean test of the goal and the hypotheses,
    with the comparisons on [Z] and [nat] turned into propositions. *)
Ltac btests :=
  repeat match goal with
  | H : (_ <? _) = true |- _ => apply Z.ltb_lt in H
  | H : (_ <? _) = false |- _ => apply Z.ltb_ge in H
  | H : (_ <=? _) = true |- _ => apply Z.leb_le in H
  | H : (_ <=? _) = false |- _ => apply Z.leb_gt in H
  | H : (_ =? _) = true |- _ => apply Z.eqb_eq in H
  | H : (_ =? _) = false |- _ => apply Z.eqb_neq in H
  | H : _ && _ = true |- _ => apply andb_prop in H as [? ?]
  | H : _ || _ = false |- _ => apply orb_false_elim in H as [? ?]
  | H : negb _ = true |- _ => apply negb_true_iff in H
  | H : negb _ = false |- _ => apply negb_false_iff in H
  end.

Create HintDb iqemu.
#[export] Hint Resolve wrap_range wrap_small : iqemu.
