(* ===== verification/Bytes.v ===== *)
(** * Byte arrays

    Objects the bridge copies between ([CPUARMState], the argument space, the
    guest memory) as arrays of bytes.  Access outside an object is undefined
    behaviour. *)

From S2P Require Import Prelude.

(** [n] bytes at [off]. *)
Definition rd (l : list Z) (off n : Z) : outcome (list Z) :=
  if (0 <=? off) && (off + n <=? Z.of_nat (length l))
  then Ret (take (Z.to_nat n) (drop (Z.to_nat off) l)) else Stop Undefined.

(** Overwrite the bytes from [off] on. *)
Definition wr (l : list Z) (off : Z) (bs : list Z) : outcome (list Z) :=
  if (0 <=? off) && (off + Z.of_nat (length bs) <=? Z.of_nat (length l))
  then Ret (take (Z.to_nat off) l ++ bs ++ drop (Z.to_nat off + length bs) l) else Stop Undefined.

(** Memory by address; [None] is not mapped. *)
Abbreviation memory := (Z → option Z).

Definition rd_mem (m : memory) (addr n : Z) : outcome (list Z) :=
  match mapM m (seqZ addr n) with Some bs => Ret bs | None => Stop Undefined end.

(** Little-endian integers. *)
Fixpoint le_bytes (n : nat) (v : Z) : list Z :=
  match n with
  | O => []
  | S n => v mod 256 :: le_bytes n (v / 256)
  end.

Fixpoint le_val (bs : list Z) : Z :=
  match bs with
  | [] => 0
  | b :: bs => b + 256 * le_val bs
  end.

Definition bytes_ok (bs : list Z) : Prop := Forall (λ b, 0 ≤ b < 256) bs.

(** ** Laws *)

Lemma rd_ok l off n : 0 ≤ off → off + n ≤ Z.of_nat (length l) →
  rd l off n = Ret (take (Z.to_nat n) (drop (Z.to_nat off) l)).
Proof.
  intros. unfold rd. by rewrite (proj2 (Z.leb_le _ _)), (proj2 (Z.leb_le _ _)) by lia.
Qed.

Lemma rd_inv l off n bs : rd l off n = Ret bs →
  0 ≤ off ∧ off + n ≤ Z.of_nat (length l) ∧ bs = take (Z.to_nat n) (drop (Z.to_nat off) l).
Proof. unfold rd. destruct (_ && _) eqn:H; [|done]. intros [= <-]. btests. done. Qed.

Lemma rd_length l off n bs : 0 ≤ n → rd l off n = Ret bs → Z.of_nat (length bs) = n.
Proof.
  intros Hn (? & ? & ->)%rd_inv. rewrite length_take, length_drop. lia.
Qed.

Lemma mapM_app_option {A B} (f : A → option B) l1 l2 :
  mapM f (l1 ++ l2) = (x ← mapM f l1; y ← mapM f l2; Some (x ++ y)).
Proof.
  induction l1 as [|a l1 IH]; simpl; [by destruct (mapM f l2)|].
  destruct (f a); simpl; [|done]. rewrite IH. destruct (mapM f l1); simpl; [|done].
  by destruct (mapM f l2).
Qed.

Lemma rd_mem_length m addr n bs : 0 ≤ n → rd_mem m addr n = Ret bs → Z.of_nat (length bs) = n.
Proof.
  intros Hn. unfold rd_mem. case_match eqn:H; [|done]. intros [= <-].
  apply length_mapM in H. rewrite length_seqZ in H. lia.
Qed.

Lemma wr_ok l off bs : 0 ≤ off → off + Z.of_nat (length bs) ≤ Z.of_nat (length l) →
  wr l off bs = Ret (take (Z.to_nat off) l ++ bs ++ drop (Z.to_nat off + length bs) l).
Proof.
  intros. unfold wr. by rewrite (proj2 (Z.leb_le _ _)), (proj2 (Z.leb_le _ _)) by lia.
Qed.

Lemma wr_inv l off bs l' : wr l off bs = Ret l' →
  0 ≤ off ∧ off + Z.of_nat (length bs) ≤ Z.of_nat (length l) ∧
  l' = take (Z.to_nat off) l ++ bs ++ drop (Z.to_nat off + length bs) l.
Proof. unfold wr. destruct (_ && _) eqn:H; [|done]. intros [= <-]. btests. done. Qed.

Lemma wr_length l off bs l' : wr l off bs = Ret l' → length l' = length l.
Proof.
  intros (? & ? & ->)%wr_inv. rewrite !length_app, length_take, length_drop. lia.
Qed.

Lemma wr_lookup l off bs l' k : wr l off bs = Ret l' →
  l' !! k = if decide (off ≤ Z.of_nat k < off + Z.of_nat (length bs))
            then bs !! (k - Z.to_nat off)%nat else l !! k.
Proof.
  intros (? & ? & ->)%wr_inv. case_decide.
  - rewrite lookup_app_r by (rewrite length_take; lia). rewrite length_take.
    rewrite lookup_app_l by lia. f_equal. lia.
  - destruct (decide (Z.of_nat k < off)).
    + rewrite lookup_app_l by (rewrite length_take; lia). by rewrite lookup_take_lt by lia.
    + rewrite lookup_app_r by (rewrite length_take; lia).
      rewrite lookup_app_r by (rewrite length_take; lia).
      rewrite lookup_drop, length_take. f_equal. lia.
Qed.

Lemma rd_ext l l' off n : length l = length l' →
  (∀ k, off ≤ Z.of_nat k < off + n → l !! k = l' !! k) → rd l off n = rd l' off n.
Proof.
  intros Hlen Hk. unfold rd. rewrite Hlen. destruct (_ && _) eqn:Hb; [|done]. btests. f_equal.
  apply list_eq. intros k. destruct (decide (k < Z.to_nat n)%nat).
  - rewrite !lookup_take_lt, !lookup_drop by done. apply Hk. lia.
  - by rewrite !lookup_ge_None_2 by (rewrite length_take; lia).
Qed.

(** Bytes outside the written range are untouched. *)
Lemma rd_wr_other l off bs l' off' n : wr l off bs = Ret l' →
  off' + n ≤ off ∨ off + Z.of_nat (length bs) ≤ off' → rd l' off' n = rd l off' n.
Proof.
  intros Hw Hd. apply rd_ext; [by eapply wr_length|]. intros k Hk.
  rewrite (wr_lookup _ _ _ _ k Hw). by rewrite decide_False by lia.
Qed.

(** Reading inside the written range. *)
Lemma rd_wr_same l off bs l' k n : wr l off bs = Ret l' → 0 ≤ k → 0 ≤ n →
  k + n ≤ Z.of_nat (length bs) →
  rd l' (off + k) n = Ret (take (Z.to_nat n) (drop (Z.to_nat k) bs)).
Proof.
  intros Hw Hk Hn Hb. pose proof (wr_length _ _ _ _ Hw) as Hl.
  pose proof Hw as (? & ? & _)%wr_inv. rewrite rd_ok by lia. f_equal.
  apply list_eq. intros i. destruct (decide (i < Z.to_nat n)%nat).
  - rewrite !lookup_take_lt, !lookup_drop by done. rewrite (wr_lookup _ _ _ _ _ Hw).
    rewrite decide_True by lia. f_equal. lia.
  - by rewrite !lookup_ge_None_2 by (rewrite length_take; lia).
Qed.

(** A prefix of what is read. *)
Lemma rd_take l off n m bs : rd l off n = Ret bs → 0 ≤ m ≤ n →
  rd l off m = Ret (take (Z.to_nat m) bs).
Proof.
  intros (? & ? & ->)%rd_inv Hm. rewrite rd_ok by lia. f_equal. rewrite take_take. f_equal. lia.
Qed.

(** Two adjacent reads. *)
Lemma rd_app l off n m bs cs : 0 ≤ n → 0 ≤ m →
  rd l off n = Ret bs → rd l (off + n) m = Ret cs → rd l off (n + m) = Ret (bs ++ cs).
Proof.
  intros Hn Hm (? & ? & ->)%rd_inv (? & ? & ->)%rd_inv. rewrite rd_ok by lia. f_equal.
  rewrite !Z2Nat.inj_add by lia. rewrite <- drop_drop, <- take_take_drop. done.
Qed.

Lemma length_le_bytes n v : length (le_bytes n v) = n.
Proof. revert v. induction n as [|n IH]; intros v; simpl; [done|]. by rewrite IH. Qed.

Lemma le_bytes_ok n v : bytes_ok (le_bytes n v).
Proof.
  revert v. induction n as [|n IH]; intros v; simpl; [constructor|].
  constructor; [|apply IH]. apply Z.mod_pos_bound. lia.
Qed.

Lemma le_words_ok n l : bytes_ok (concat (le_bytes n <$> l)).
Proof. induction l as [|w l IH]; [constructor|]. apply Forall_app. split; [apply le_bytes_ok|exact IH]. Qed.

Lemma mod_bytes_ok k a n : 0 < k ≤ 256 → bytes_ok ((λ i, i mod k) <$> seqZ a n).
Proof. intros Hk. apply Forall_fmap, Forall_true. intros i. cbn. pose proof (Z.mod_pos_bound i k ltac:(lia)). lia. Qed.

(** Solves [bytes_ok] for the byte patterns that examples are made of. *)
Ltac solve_bytes_ok :=
  first [apply le_words_ok | apply mod_bytes_ok; lia | apply le_bytes_ok | apply Forall_replicate; lia | apply Forall_app; split; solve_bytes_ok].

Lemma le_val_range bs : bytes_ok bs → 0 ≤ le_val bs < 256 ^ Z.of_nat (length bs).
Proof.
  induction 1 as [|b bs Hb _ IH]; [done|]. cbn [le_val length].
  rewrite Nat2Z.inj_succ, Z.pow_succ_r by lia. lia.
Qed.

Lemma le_bytes_val bs : bytes_ok bs → le_bytes (length bs) (le_val bs) = bs.
Proof.
  induction 1 as [|b bs Hb _ IH]; [done|]. cbn [length le_bytes le_val].
  replace (b + 256 * le_val bs) with (b + le_val bs * 256) by lia.
  rewrite Z.mod_add, Z.div_add, Z.mod_small, Z.div_small by lia. by rewrite Z.add_0_l, IH.
Qed.

Lemma le_val_bytes n v : le_val (le_bytes n v) = v mod 256 ^ Z.of_nat n.
Proof.
  revert v. induction n as [|n IH]; intros v; [by rewrite Z.mod_1_r|].
  cbn [le_bytes le_val]. rewrite IH, Nat2Z.inj_succ, Z.pow_succ_r by lia.
  assert (0 < 256 ^ Z.of_nat n) by (apply Z.pow_pos_nonneg; lia).
  rewrite Z.rem_mul_r by lia. lia.
Qed.

(** The first bytes of an integer only depend on its low part. *)
Lemma le_bytes_take n m v : (m ≤ n)%nat → take m (le_bytes n v) = le_bytes m v.
Proof.
  revert n v. induction m as [|m IH]; intros n v Hm; [done|].
  destruct n as [|n]; [lia|]. cbn [le_bytes take]. by rewrite IH by lia.
Qed.

Lemma le_bytes_ext n v w : v mod 256 ^ Z.of_nat n = w mod 256 ^ Z.of_nat n →
  le_bytes n v = le_bytes n w.
Proof.
  intros H. rewrite <- !le_val_bytes in H.
  rewrite <- (le_bytes_val (le_bytes n v)) by apply le_bytes_ok.
  rewrite <- (le_bytes_val (le_bytes n w)) by apply le_bytes_ok.
  by rewrite !length_le_bytes, H.
Qed.
