(* ===== verification/ABIArgInfo.v ===== *)
(** * [include/tcg/ABIArgInfo.h]: where one argument or return value lives

    An [ABIArgInfo] packs, in one 64-bit word [val], either up to four
    (register, location info) byte pairs or a (stack offset, location info)
    pair of 32-bit words; [mask] says which.  [ABIFnInfo] describes a function
    in one calling convention.  The file models the accessors at the byte
    level and proves the read-after-write laws every other component relies
    on. *)

From S2P Require Import Prelude.

(** ** Constants *)

Definition STFP_LIST_TERMINATOR : Z := 2 ^ 32 - 1.
Definition TE_MAX_REGS_FOR_ONE_ARG : Z := 4.

Definition TE_MASK_INDIRECT : Z := Z.shiftl 1 0.
Definition TE_MASK_ISMEM : Z := Z.shiftl 1 1.
Definition TE_MASK_CALLBACK : Z := Z.shiftl 1 2.
Definition TE_MASK_BLOCK : Z := Z.shiftl 1 3.
Definition TE_MASK_STFP : Z := Z.shiftl 1 4.

Definition TE_NO_LOC_INFO : Z := 0.
Definition TE_Full : Z := 1.
Definition TE_BCvt : Z := 2.
Definition TE_AExt : Z := 3.
Definition TE_SExt8_32 : Z := 4.
Definition TE_SExt16_32 : Z := 5.
Definition TE_ZExt8_32 : Z := 6.
Definition TE_ZExt16_32 : Z := 7.

(** ** One argument *)

Record ABIArgInfo := mkABIArgInfo { val : Z; size : Z; mask : Z }.

#[export] Instance ABIArgInfo_eq_dec : EqDecision ABIArgInfo.
Proof. solve_decision. Defined.

(** The state after [g_malloc0] or [memset(.., 0, ..)]. *)
Definition zero_arg_info : ABIArgInfo := mkABIArgInfo 0 0 0.

Definition te_is_mem (x : ABIArgInfo) : bool := negb (Z.land (mask x) TE_MASK_ISMEM =? 0).
Definition te_is_indirect (x : ABIArgInfo) : bool := negb (Z.land (mask x) TE_MASK_INDIRECT =? 0).
Definition te_is_block (x : ABIArgInfo) : bool := negb (Z.land (mask x) TE_MASK_BLOCK =? 0).
Definition te_is_callback (x : ABIArgInfo) : bool := negb (Z.land (mask x) TE_MASK_CALLBACK =? 0).
Definition te_is_stfp (x : ABIArgInfo) : bool := negb (Z.land (mask x) TE_MASK_STFP =? 0).

(** [x.mask |= m] *)
Definition or_mask (m : Z) (x : ABIArgInfo) : ABIArgInfo :=
  mkABIArgInfo (val x) (size x) (Z.lor (mask x) m).

(** The loop counts 16-bit pieces of [val] until one is zero or four were
    counted.  The C condition [*reg && cnt < 4] reads the piece after the last
    one when all four are in use; its value does not matter, so the bound of
    the recursion stands for the second conjunct. *)
Fixpoint te_num_of_reg_from (n : nat) (v cnt : Z) : Z :=
  match n with
  | O => cnt
  | S n => if get_piece 16 v cnt =? 0 then cnt else te_num_of_reg_from n v (cnt + 1)
  end.
Definition te_num_of_reg (x : ABIArgInfo) : Z :=
  te_num_of_reg_from (Z.to_nat TE_MAX_REGS_FOR_ONE_ARG) (val x) 0.

Definition te_get_reg_locinfo (x : ABIArgInfo) (idx : Z) : Z :=
  get_piece 8 (val x) (idx * 2 + 1).

Definition te_get_reg (x : ABIArgInfo) (idx : Z) : outcome Z :=
  _ ← c_assert (idx <? TE_MAX_REGS_FOR_ONE_ARG);
  Ret (get_piece 8 (val x) (idx * 2)).

Definition te_set_reg (idx v info : Z) (x : ABIArgInfo) : outcome ABIArgInfo :=
  _ ← c_assert (idx <? TE_MAX_REGS_FOR_ONE_ARG);
  let reg := set_piece 8 (val x) (idx * 2) v in
  let reg := set_piece 8 reg (idx * 2 + 1) info in
  Ret (mkABIArgInfo reg (size x) (mask x)).

Definition te_get_mem_locinfo (x : ABIArgInfo) : Z := get_piece 32 (val x) 1.
Definition te_get_mem (x : ABIArgInfo) : Z := get_piece 32 (val x) 0.

Definition te_set_mem (v info : Z) (x : ABIArgInfo) : ABIArgInfo :=
  let mem := set_piece 32 (val x) 0 v in
  let mem := set_piece 32 mem 1 info in
  mkABIArgInfo mem (size x) (mask x).

Definition te_get_arg_size (x : ABIArgInfo) : Z := size x.
Definition te_set_arg_size (v : Z) (x : ABIArgInfo) : ABIArgInfo :=
  mkABIArgInfo (val x) (u32 v) (mask x).

(** ** One function *)

Record ABIFnInfo := mkABIFnInfo {
  ainfo : list ABIArgInfo;
  rinfo : ABIArgInfo;
  argStfpOffsetLists : option (list (option (list Z)));
  retStfpOffsetList : option (list Z);
  nargs : Z;
  bytes : Z;
  ssecount : Z;
  isCxxStructor : Z;
  variadic : Z
}.

#[export] Instance ABIFnInfo_eq_dec : EqDecision ABIFnInfo.
Proof. solve_decision. Defined.

(** [memset(info, 0, sizeof(ABIFnInfo))] followed by the allocation of
    [n] zeroed argument slots. *)
Definition zero_fn_info (n : nat) : ABIFnInfo :=
  mkABIFnInfo (replicate n zero_arg_info) zero_arg_info None None (Z.of_nat n) 0 0 0 0.

Definition set_ainfo (a : list ABIArgInfo) (f : ABIFnInfo) : ABIFnInfo :=
  mkABIFnInfo a (rinfo f) (argStfpOffsetLists f) (retStfpOffsetList f) (nargs f)
    (bytes f) (ssecount f) (isCxxStructor f) (variadic f).
Definition set_rinfo (r : ABIArgInfo) (f : ABIFnInfo) : ABIFnInfo :=
  mkABIFnInfo (ainfo f) r (argStfpOffsetLists f) (retStfpOffsetList f) (nargs f)
    (bytes f) (ssecount f) (isCxxStructor f) (variadic f).
Definition set_bytes (b : Z) (f : ABIFnInfo) : ABIFnInfo :=
  mkABIFnInfo (ainfo f) (rinfo f) (argStfpOffsetLists f) (retStfpOffsetList f) (nargs f)
    b (ssecount f) (isCxxStructor f) (variadic f).
Definition set_ssecount (n : Z) (f : ABIFnInfo) : ABIFnInfo :=
  mkABIFnInfo (ainfo f) (rinfo f) (argStfpOffsetLists f) (retStfpOffsetList f) (nargs f)
    (bytes f) n (isCxxStructor f) (variadic f).

(** Updates through a pointer [ABIFnInfo *fnInfo] that may be null, guarded
    by [if (fnInfo)] at every use. *)
Definition upd_arg (fi : option ABIFnInfo) (i : nat)
    (f : ABIArgInfo → outcome ABIArgInfo) : outcome (option ABIFnInfo) :=
  match fi with
  | None => Ret None
  | Some fi => a ← c_update (ainfo fi) i f; Ret (Some (set_ainfo a fi))
  end.

Definition upd_ret (fi : option ABIFnInfo)
    (f : ABIArgInfo → outcome ABIArgInfo) : outcome (option ABIFnInfo) :=
  match fi with
  | None => Ret None
  | Some fi => r ← f (rinfo fi); Ret (Some (set_rinfo r fi))
  end.

(** ** Laws *)

(** The word, the size and the mask fit their C types. *)
Definition arg_info_wf (x : ABIArgInfo) : Prop :=
  in_u 64 (val x) ∧ in_u 32 (size x) ∧ in_u 32 (mask x).

Lemma zero_arg_info_wf : arg_info_wf zero_arg_info.
Proof. repeat split; vm_compute; congruence. Qed.

Lemma te_set_reg_ok idx v info x : idx < 4 →
  te_set_reg idx v info x =
    Ret (mkABIArgInfo (set_piece 8 (set_piece 8 (val x) (idx * 2) v) (idx * 2 + 1) info)
           (size x) (mask x)).
Proof.
  intros H. unfold te_set_reg, TE_MAX_REGS_FOR_ONE_ARG.
  by rewrite (proj2 (Z.ltb_lt _ _) H).
Qed.

Lemma te_get_reg_ok idx x : idx < 4 → te_get_reg x idx = Ret (get_piece 8 (val x) (idx * 2)).
Proof.
  intros H. unfold te_get_reg, TE_MAX_REGS_FOR_ONE_ARG.
  by rewrite (proj2 (Z.ltb_lt _ _) H).
Qed.

Lemma te_set_reg_wf idx v info x y : 0 ≤ idx →
  arg_info_wf x → te_set_reg idx v info x = Ret y → arg_info_wf y.
Proof.
  intros Hi (Hv & Hs & Hm) H. unfold te_set_reg in H. inv_outcome. subst.
  unfold TE_MAX_REGS_FOR_ONE_ARG in *. btests.
  split; [|done]. simpl. do 2 (apply set_piece_range; try lia). done.
Qed.

Lemma te_set_mem_wf v info x : arg_info_wf x → arg_info_wf (te_set_mem v info x).
Proof.
  intros (Hv & Hs & Hm). split; [|done].
  unfold te_set_mem. simpl. do 2 (apply set_piece_range; try lia). done.
Qed.

(** What is read back from the pair that was written. *)
Lemma te_set_reg_get_eq idx v info x y : 0 ≤ idx →
  te_set_reg idx v info x = Ret y →
  te_get_reg y idx = Ret (u8 v) ∧ te_get_reg_locinfo y idx = u8 info.
Proof.
  intros Hi H. unfold te_set_reg in H. inv_outcome. subst.
  unfold TE_MAX_REGS_FOR_ONE_ARG in *. btests.
  rewrite te_get_reg_ok by lia. unfold te_get_reg_locinfo. simpl.
  rewrite get_set_piece_ne, !get_set_piece_eq by lia. done.
Qed.

(** The other pairs are not touched. *)
Lemma te_set_reg_get_ne idx j v info x y : 0 ≤ idx → 0 ≤ j → idx ≠ j →
  te_set_reg idx v info x = Ret y →
  te_get_reg y j = te_get_reg x j ∧ te_get_reg_locinfo y j = te_get_reg_locinfo x j.
Proof.
  intros Hi Hj Hne H. unfold te_set_reg in H. inv_outcome. subst.
  unfold te_get_reg, te_get_reg_locinfo. simpl.
  by rewrite !get_set_piece_ne by lia.
Qed.

Lemma te_set_mem_get v info x :
  te_get_mem (te_set_mem v info x) = u32 v ∧
  te_get_mem_locinfo (te_set_mem v info x) = u32 info.
Proof.
  unfold te_get_mem, te_get_mem_locinfo, te_set_mem. simpl.
  by rewrite get_set_piece_ne, !get_set_piece_eq by lia.
Qed.

(** ** Register lists

    [pack l] is the word that holds the (register, location info) pairs [l]
    from the first on, as a sequence of [te_set_reg] on a zeroed word
    produces it. *)

Fixpoint pack (l : list (Z * Z)) : Z :=
  match l with
  | [] => 0
  | (r, i) :: l => r + 2 ^ 8 * i + 2 ^ 16 * pack l
  end.

(** Pairs whose components fit a byte, with a real register. *)
Definition pairs_ok (l : list (Z * Z)) : Prop :=
  Forall (λ p, 0 < p.1 < 2 ^ 8 ∧ 0 ≤ p.2 < 2 ^ 8) l.

Lemma pack_range l : pairs_ok l → 0 ≤ pack l < 2 ^ (16 * Z.of_nat (length l)).
Proof.
  induction 1 as [|[r i] l [Hr Hi] Hl IH]; [done|]. cbn [pack length] in *. simpl in *.
  replace (2 ^ (16 * Z.of_nat (S (length l)))) with (2 ^ 16 * 2 ^ (16 * Z.of_nat (length l)))
    by (rewrite <- Z.pow_add_r by lia; f_equal; lia).
  change (2 ^ 8) with 256 in *. change (2 ^ 16) with 65536 in *. lia.
Qed.

Lemma set_piece_append w v i x : 0 ≤ w → 0 ≤ i → 0 ≤ v < 2 ^ (w * i) →
  set_piece w v i x = v + wrap w x * 2 ^ (w * i).
Proof.
  intros Hw Hi Hv. rewrite <- Z.shiftl_mul_pow2 by nia.
  assert (∀ k, w * i ≤ k → Z.testbit v k = false) as Hhigh.
  { intros k Hk. apply (in_u_testbit (w * i)); [nia|exact Hv|done]. }
  rewrite Z.add_nocarry_lxor.
  - apply Z.bits_inj'. intros k Hk. rewrite set_piece_testbit, Z.lxor_spec, Z.shiftl_spec by lia.
    destruct (Z.leb_spec (w * i) k); simpl.
    + rewrite Hhigh by lia. rewrite wrap_testbit by lia.
      destruct (Z.ltb_spec k (w * i + w)), (Z.ltb_spec (k - w * i) w); try lia; simpl.
      * by destruct (Z.testbit x _).
      * done.
    + rewrite (Z.testbit_neg_r _ (k - w * i)) by lia. by destruct (Z.testbit v k).
  - apply Z.bits_inj'. intros k Hk. rewrite Z.land_spec, Z.bits_0, Z.shiftl_spec by lia.
    destruct (decide (w * i ≤ k)).
    + by rewrite Hhigh by lia.
    + rewrite (Z.testbit_neg_r _ (k - w * i)) by lia. apply andb_false_r.
Qed.

Lemma pack_app l l' : pack (l ++ l') = pack l + 2 ^ (16 * Z.of_nat (length l)) * pack l'.
Proof.
  induction l as [|[r i] l IH]; [simpl; lia|]. cbn [pack app length]. rewrite IH.
  replace (2 ^ (16 * Z.of_nat (S (length l)))) with (2 ^ 16 * 2 ^ (16 * Z.of_nat (length l)))
    by (rewrite <- Z.pow_add_r by lia; f_equal; lia).
  lia.
Qed.

(** Writing the pair after the last one appends it. *)
Lemma te_set_reg_pack l r i s m :
  pairs_ok l → (length l < 4)%nat → in_u 8 r → in_u 8 i →
  te_set_reg (Z.of_nat (length l)) r i (mkABIArgInfo (pack l) s m) =
    Ret (mkABIArgInfo (pack (l ++ [(r, i)])) s m).
Proof.
  intros Hl Hlen Hr Hi. rewrite te_set_reg_ok by lia. simpl. do 2 f_equal.
  pose proof (pack_range l Hl) as Hp. set (n := Z.of_nat (length l)) in *.
  rewrite pack_app. fold n. cbn [pack].
  assert (8 * (n * 2) = 16 * n) as H16 by lia.
  rewrite (set_piece_append 8 (pack l) (n * 2)) by (rewrite ?H16; lia).
  rewrite (wrap_small 8 r), H16 by done.
  assert (2 ^ (8 * (n * 2 + 1)) = 2 ^ (16 * n) * 2 ^ 8) as Hpow
    by (rewrite <- Z.pow_add_r by lia; f_equal; lia).
  rewrite set_piece_append; [|lia..|].
  - rewrite (wrap_small 8 i), Hpow by done. lia.
  - rewrite Hpow. unfold in_u in *. change (2 ^ 8) with 256 in *.
    assert (0 < 2 ^ (16 * n)) by (apply Z.pow_pos_nonneg; lia). nia.
Qed.

Lemma te_set_reg_first r i s m : in_u 8 r → in_u 8 i →
  te_set_reg 0 r i (mkABIArgInfo 0 s m) = Ret (mkABIArgInfo (pack [(r, i)]) s m).
Proof. intros. apply (te_set_reg_pack []); [constructor|simpl; lia|done..]. Qed.

(** The pairs read back from a packed word. *)
Lemma pack_get l j r i : pairs_ok l → l !! j = Some (r, i) →
  get_piece 8 (pack l) (Z.of_nat j * 2) = r ∧ get_piece 8 (pack l) (Z.of_nat j * 2 + 1) = i ∧
  get_piece 16 (pack l) (Z.of_nat j) = r + 256 * i.
Proof.
  intros Hl. revert j. induction Hl as [|[r0 i0] l [Hr Hi] Hl IH]; intros j Hj; [done|].
  simpl in Hr, Hi. pose proof (pack_range l Hl) as Hp. cbn [pack].
  unfold get_piece in *. destruct j as [|j]; simplify_eq/=.
  - rewrite Z.shiftr_0_r, !Z.shiftr_div_pow2 by lia. unfold wrap.
    change (8 * (0 + 1)) with 8. change (2 ^ 8) with 256 in *. change (2 ^ 16) with 65536 in *.
    change (Z.pow_pos 2 16) with 65536. change (Z.pow_pos 2 8) with 256.
    split_and!.
    + replace (r + 256 * i + 65536 * pack l) with (r + (i + 256 * pack l) * 256) by lia.
      rewrite Z.mod_add by lia. apply Z.mod_small. lia.
    + replace (r + 256 * i + 65536 * pack l) with (r + (i + 256 * pack l) * 256) by lia.
      rewrite Z.div_add by lia. rewrite Z.div_small by lia.
      replace (0 + (i + 256 * pack l)) with (i + pack l * 256) by lia.
      rewrite Z.mod_add by lia. apply Z.mod_small. lia.
    + replace (r + 256 * i + 65536 * pack l) with (r + 256 * i + pack l * 65536) by lia.
      change (2 ^ (16 * Z.of_nat 0)) with 1. rewrite Z.div_1_r, Z.mod_add by lia. apply Z.mod_small. lia.
  - destruct (IH j Hj) as (H1 & H2 & H3).
    assert (∀ k, 0 ≤ k → Z.shiftr (r0 + 2 ^ 8 * i0 + 2 ^ 16 * pack l) (16 + k) =
              Z.shiftr (pack l) k) as Hsh.
    { intros k Hk. rewrite !Z.shiftr_div_pow2 by lia. rewrite Z.pow_add_r by lia.
      rewrite <- Z.div_div by lia. f_equal.
      replace (r0 + 2 ^ 8 * i0 + 2 ^ 16 * pack l) with (r0 + 2 ^ 8 * i0 + pack l * 2 ^ 16) by lia.
      rewrite Z.div_add by lia. rewrite Z.div_small; [lia|].
      change (2 ^ 8) with 256 in *. change (2 ^ 16) with 65536. lia. }
    replace (8 * (Z.of_nat (S j) * 2)) with (16 + 8 * (Z.of_nat j * 2)) by lia.
    replace (8 * (Z.of_nat (S j) * 2 + 1)) with (16 + 8 * (Z.of_nat j * 2 + 1)) by lia.
    replace (16 * Z.of_nat (S j)) with (16 + 16 * Z.of_nat j) by lia.
    rewrite !Hsh by lia. done.
Qed.

Lemma pack_get_end l : pairs_ok l → get_piece 16 (pack l) (Z.of_nat (length l)) = 0.
Proof.
  intros Hl. pose proof (pack_range l Hl). unfold get_piece.
  rewrite Z.shiftr_div_pow2 by lia. by rewrite Z.div_small by lia.
Qed.

Lemma te_num_of_reg_from_pack l n k : pairs_ok l →
  (k + n = 4)%nat → (k ≤ length l ≤ 4)%nat →
  te_num_of_reg_from n (pack l) (Z.of_nat k) = Z.of_nat (length l).
Proof.
  intros Hl. revert k. induction n as [|n IH]; intros k Hkn Hk; simpl; [f_equal; lia|].
  destruct (decide (k = length l)) as [->|Hne].
  - by rewrite pack_get_end.
  - destruct (lookup_lt_is_Some_2 l k) as [[r i] Hj]; [lia|].
    destruct (pack_get l k r i Hl Hj) as (_ & _ & ->).
    pose proof (proj1 (Forall_lookup _ _) Hl k _ Hj) as [? ?]. simpl in *.
    rewrite (proj2 (Z.eqb_neq _ _)) by lia.
    replace (Z.of_nat k + 1) with (Z.of_nat (S k)) by lia. apply IH; lia.
Qed.

Lemma te_num_of_reg_pack l s m : pairs_ok l → (length l ≤ 4)%nat →
  te_num_of_reg (mkABIArgInfo (pack l) s m) = Z.of_nat (length l).
Proof. intros. apply (te_num_of_reg_from_pack l 4 0); [done|lia..]. Qed.

Lemma te_get_reg_pack l s m j r i : pairs_ok l → (length l ≤ 4)%nat → l !! j = Some (r, i) →
  te_get_reg (mkABIArgInfo (pack l) s m) (Z.of_nat j) = Ret r ∧
  te_get_reg_locinfo (mkABIArgInfo (pack l) s m) (Z.of_nat j) = i.
Proof.
  intros Hl Hlen Hj. pose proof (lookup_lt_Some _ _ _ Hj).
  destruct (pack_get l j r i Hl Hj) as (H1 & H2 & _).
  rewrite te_get_reg_ok by lia. unfold te_get_reg_locinfo. simpl. by rewrite H1, H2.
Qed.
