(* ===== verification/Layout.v ===== *)
(** * Reference layout of C types

    [cty] is the abstract syntax of the types the bridge handles: the basic
    types of [types.c] and structures of them (an array inside a structure is
    a structure of equal members, as in [getArrayType]).  [csize] and [calign]
    are the C layout rules on unbounded integers.  [fresh] is the descriptor a
    parser builds, [laid] the initialized one; the main results say that
    [initialize_aggregate] turns one into the other, and fails exactly on a
    type that contains an empty structure. *)

From S2P Require Import Prelude FfiTypes.

(** ** Alignment *)

Definition align_up (v a : Z) : Z := (v + a - 1) / a * a.

(** The alignments of the basic types. *)
Definition pow2_align (a : Z) : Prop := ∃ k, 0 ≤ k ≤ 16 ∧ a = 2 ^ k.

Lemma align_up_spec v a : 0 < a →
  v ≤ align_up v a < v + a ∧ (a | align_up v a).
Proof.
  intros Ha. unfold align_up. split; [|apply Z.divide_factor_r].
  pose proof (Z.div_mod (v + a - 1) a). pose proof (Z.mod_pos_bound (v + a - 1) a). nia.
Qed.

Lemma align_up_le v a : 0 < a → v ≤ align_up v a.
Proof. intros. apply align_up_spec. lia. Qed.

Lemma align_up_divide v a : 0 < a → (a | v) → align_up v a = v.
Proof.
  intros Ha [q ->]. unfold align_up. f_equal.
  replace (q * a + a - 1) with (a - 1 + q * a) by lia.
  rewrite Z.div_add by lia. rewrite Z.div_small by lia. lia.
Qed.

(** Nothing smaller is a multiple of [a] that is at least [v]. *)
Lemma align_up_least v a m : 0 < a → v ≤ m → (a | m) → align_up v a ≤ m.
Proof.
  intros Ha Hv [q ->]. unfold align_up. apply Z.mul_le_mono_nonneg_r; [lia|].
  apply Z.lt_succ_r, Z.div_lt_upper_bound; nia.
Qed.

Lemma pow2_align_pos a : pow2_align a → 0 < a.
Proof. intros (k & ? & ->). apply Z.pow_pos_nonneg; lia. Qed.

Lemma pow2_align_range a : pow2_align a → 1 ≤ a ≤ 2 ^ 16.
Proof.
  intros (k & ? & ->). split.
  - apply (Z.pow_le_mono_r 2 0); lia.
  - apply Z.pow_le_mono_r; lia.
Qed.

Lemma pow2_align_max a b : pow2_align a → pow2_align b → pow2_align (Z.max a b).
Proof. intros. destruct (Z.max_spec a b) as [[_ ->]|[_ ->]]; done. Qed.

Lemma pow2_align_divide a b : pow2_align a → pow2_align b → a ≤ b → (a | b).
Proof.
  intros (k & Hk & ->) (l & Hl & ->) Hle.
  assert (k ≤ l) by (apply (Z.pow_le_mono_r_iff 2); lia).
  exists (2 ^ (l - k)). rewrite <- Z.pow_add_r by lia. f_equal. lia.
Qed.

Lemma lor_ones x k : 0 ≤ x → 0 ≤ k → Z.lor x (Z.ones k) = x / 2 ^ k * 2 ^ k + (2 ^ k - 1).
Proof.
  intros Hx Hk. rewrite <- Z.shiftr_div_pow2, <- Z.shiftl_mul_pow2 by lia.
  replace (2 ^ k - 1) with (Z.ones k) by (rewrite Z.ones_equiv; lia).
  rewrite Z.add_nocarry_lxor.
  - apply Z.bits_inj'. intros i Hi.
    rewrite Z.lor_spec, Z.lxor_spec, Z.shiftl_spec by lia.
    rewrite Z.testbit_ones_nonneg by lia. destruct (Z.ltb_spec i k).
    + rewrite (Z.testbit_neg_r _ (i - k)) by lia. by rewrite orb_true_r.
    + rewrite Z.shiftr_spec by lia. rewrite orb_false_r, xorb_false_r. f_equal. lia.
  - apply Z.bits_inj'. intros i Hi. rewrite Z.land_spec, Z.shiftl_spec, Z.bits_0 by lia.
    rewrite Z.testbit_ones_nonneg by lia. destruct (Z.ltb_spec i k).
    + by rewrite Z.testbit_neg_r by lia.
    + by rewrite andb_false_r.
Qed.

(** The macro computes the least multiple of a power of two, also at 0, where
    the subtraction wraps around. *)
Lemma FFI_ALIGN_align_up v a : pow2_align a → 0 ≤ v → v + a ≤ 2 ^ 64 →
  FFI_ALIGN v a = u64 (align_up v a).
Proof.
  intros Ha Hv Hb. pose proof (pow2_align_range a Ha). destruct Ha as (k & Hk & ->).
  unfold FFI_ALIGN. rewrite (wrap_small 64 (2 ^ k - 1)) by (unfold in_u; lia).
  replace (2 ^ k - 1) with (Z.ones k) at 1 by (rewrite Z.ones_equiv; lia).
  destruct (decide (v = 0)) as [->|Hv0].
  - unfold align_up. rewrite Z.div_small by lia.
    replace (u64 (0 - 1)) with (Z.ones 64) by reflexivity.
    replace (Z.lor (Z.ones 64) (Z.ones k)) with (Z.ones 64); [reflexivity|].
    apply Z.bits_inj'. intros i Hi. rewrite Z.lor_spec, !Z.testbit_ones_nonneg by lia.
    destruct (Z.ltb_spec i 64), (Z.ltb_spec i k); simpl; lia || done.
  - rewrite (wrap_small 64 (v - 1)) by (unfold in_u; lia).
    rewrite lor_ones by lia. f_equal. unfold align_up.
    replace (v + 2 ^ k - 1) with (v - 1 + 1 * 2 ^ k) by lia.
    rewrite Z.div_add by lia. lia.
Qed.

Lemma FFI_ALIGN_ok v a : pow2_align a → 0 ≤ v < 2 ^ 63 → FFI_ALIGN v a = align_up v a.
Proof.
  intros Ha Hv. pose proof (pow2_align_range a Ha).
  rewrite FFI_ALIGN_align_up by (done || lia).
  pose proof (align_up_spec v a). apply wrap_small. unfold in_u. lia.
Qed.

(** ** Abstract types *)

Inductive scalar : Set :=
| SVoid | SU8 | SS8 | SU16 | SS16 | SU32 | SS32 | SU64 | SS64 | SPtr | SFloat | SDouble.

#[export] Instance scalar_eq_dec : EqDecision scalar.
Proof. solve_decision. Defined.

Definition scalar_ffi (s : scalar) : ffi_type :=
  match s with
  | SVoid => ffi_type_void | SU8 => ffi_type_uint8 | SS8 => ffi_type_sint8
  | SU16 => ffi_type_uint16 | SS16 => ffi_type_sint16 | SU32 => ffi_type_uint32
  | SS32 => ffi_type_sint32 | SU64 => ffi_type_uint64 | SS64 => ffi_type_sint64
  | SPtr => ffi_type_pointer | SFloat => ffi_type_float | SDouble => ffi_type_double
  end.

Definition scalar_size (s : scalar) : Z :=
  match s with
  | SVoid | SU8 | SS8 => 1
  | SU16 | SS16 => 2
  | SU32 | SS32 | SFloat => 4
  | SU64 | SS64 | SPtr | SDouble => 8
  end.

Definition scalar_code (s : scalar) : ffi_tycode := ty_type (scalar_ffi s).

Inductive cty : Set :=
| CScalar (s : scalar)
| CStruct (fs : list cty).

Section cty_ind'.
Context (P : cty → Prop).
Context (Hs : ∀ s, P (CScalar s)).
Context (Hst : ∀ fs, Forall P fs → P (CStruct fs)).

Fixpoint cty_ind' (c : cty) : P c :=
  match c with
  | CScalar s => Hs s
  | CStruct fs => Hst fs ((fix go l : Forall P l :=
      match l with
      | [] => Forall_nil_2 P
      | y :: l => Forall_cons_2 P y l (cty_ind' y) (go l)
      end) fs)
  end.
End cty_ind'.

(** Offset after the fields [l], the first of them placed at or after [off]. *)
Definition fields_end {A} (sz al : A → Z) : list A → Z → Z :=
  fix go l off :=
    match l with
    | [] => off
    | c :: l => go l (align_up off (al c) + sz c)
    end.

Fixpoint field_offsets {A} (sz al : A → Z) (l : list A) (off : Z) : list Z :=
  match l with
  | [] => []
  | c :: l => align_up off (al c) :: field_offsets sz al l (align_up off (al c) + sz c)
  end.

Fixpoint calign (c : cty) : Z :=
  match c with
  | CScalar s => scalar_size s
  | CStruct fs => foldr (λ c m, Z.max (calign c) m) 0 fs
  end.

Fixpoint csize (c : cty) : Z :=
  match c with
  | CScalar s => scalar_size s
  | CStruct fs => align_up (fields_end csize calign fs 0) (calign (CStruct fs))
  end.

(** No structure without members, at any depth. *)
Fixpoint cty_wf (c : cty) : bool :=
  match c with
  | CScalar _ => true
  | CStruct fs => negb (bool_decide (fs = [])) && forallb cty_wf fs
  end.

(** The descriptor the parsers allocate. *)
Fixpoint fresh (c : cty) : ffi_type :=
  match c with
  | CScalar s => scalar_ffi s
  | CStruct fs => mk_ffi_type 0 0 FFI_TYPE_STRUCT (Some (map fresh fs))
  end.

(** The descriptor with its layout. *)
Fixpoint laid (c : cty) : ffi_type :=
  match c with
  | CScalar s => scalar_ffi s
  | CStruct fs => mk_ffi_type (csize c) (calign c) FFI_TYPE_STRUCT (Some (map laid fs))
  end.

(** ** Facts on the reference layout *)

Lemma scalar_ffi_eta s :
  scalar_ffi s = mk_ffi_type (scalar_size s) (scalar_size s) (scalar_code s) None.
Proof. by destruct s. Qed.

Lemma scalar_size_range s : 1 ≤ scalar_size s ≤ 8.
Proof. destruct s; simpl; lia. Qed.

Lemma scalar_size_pow2 s : pow2_align (scalar_size s).
Proof.
  destruct s;
    solve [by exists 0 | by exists 1 | by exists 2 | by exists 3].
Qed.

Lemma cty_wf_struct fs : cty_wf (CStruct fs) = true ↔ fs ≠ [] ∧ Forall (λ c, cty_wf c = true) fs.
Proof.
  simpl. rewrite andb_true_iff, negb_true_iff, bool_decide_eq_false.
  apply and_iff_compat_l. induction fs as [|c fs IH]; simpl; [by split; [constructor|]|].
  rewrite andb_true_iff, Forall_cons. tauto.
Qed.

Lemma calign_struct_cons c fs : calign (CStruct (c :: fs)) = Z.max (calign c) (calign (CStruct fs)).
Proof. reflexivity. Qed.

Lemma calign_nonneg c : 0 ≤ calign c.
Proof.
  induction c as [s|fs IH] using cty_ind'; [pose proof (scalar_size_range s); simpl; lia|].
  induction IH; [done|]. rewrite calign_struct_cons. lia.
Qed.

Lemma calign_struct_pow2 fs : fs ≠ [] →
  Forall (λ c, pow2_align (calign c)) fs → pow2_align (calign (CStruct fs)).
Proof.
  intros Hne H. destruct H as [|c fs Hc Hfs]; [done|]. clear Hne.
  revert c Hc. induction Hfs as [|d fs Hd Hfs IH]; intros c Hc; rewrite calign_struct_cons.
  - rewrite Z.max_l; [done|]. pose proof (pow2_align_pos _ Hc). simpl. lia.
  - apply pow2_align_max; [done|]. by apply IH.
Qed.

Lemma calign_pow2 c : cty_wf c = true → pow2_align (calign c).
Proof.
  induction c as [s|fs IH] using cty_ind'; intros H; [apply scalar_size_pow2|].
  apply cty_wf_struct in H as [Hne Hfs]. apply calign_struct_pow2; [done|].
  eapply Forall_impl; [apply Forall_and; split; [exact IH|exact Hfs]|].
  simpl. intros c [Hc Hw]. auto.
Qed.

Lemma calign_pos c : cty_wf c = true → 0 < calign c.
Proof. intros. by apply pow2_align_pos, calign_pow2. Qed.

Lemma fields_end_ge {A} (sz al : A → Z) l off :
  Forall (λ c, 0 < al c ∧ 0 ≤ sz c) l → off ≤ fields_end sz al l off.
Proof.
  intros H. revert off. induction H as [|c l [Ha Hs] Hl IH]; intros off; simpl; [lia|].
  etrans; [|apply IH]. pose proof (align_up_le off (al c) Ha). lia.
Qed.

Lemma csize_pos_divide c : cty_wf c = true → 0 < csize c ∧ (calign c | csize c).
Proof.
  induction c as [s|fs IH] using cty_ind'; intros H.
  - pose proof (scalar_size_range s). simpl. split; [lia|done].
  - pose proof (calign_pos _ H) as Hap. apply cty_wf_struct in H as [Hne Hfs].
    split; [|apply align_up_spec; exact Hap].
    cbn [csize]. destruct fs as [|c fs]; [done|]. simpl in *. inv Hfs. inv IH.
    eapply Z.lt_le_trans; [|apply align_up_le; exact Hap].
    eapply Z.lt_le_trans; [|apply fields_end_ge].
    + pose proof (align_up_le 0 (calign c) (calign_pos _ ltac:(done))). naive_solver lia.
    + rewrite Forall_forall in *. intros d Hd.
      split; [by apply calign_pos; auto|]. apply Z.lt_le_incl. naive_solver.
Qed.

Lemma csize_pos c : cty_wf c = true → 0 < csize c.
Proof. apply csize_pos_divide. Qed.

Lemma wf_fields fs : Forall (λ c, cty_wf c = true) fs →
  Forall (λ c, 0 < calign c ∧ 0 ≤ csize c) fs.
Proof.
  intros Hfs. eapply Forall_impl; [exact Hfs|]. intros c H. split; [by apply calign_pos|].
  apply Z.lt_le_incl, csize_pos, H.
Qed.

Lemma laid_size c : ty_size (laid c) = csize c.
Proof. destruct c as [s|fs]; [by destruct s|done]. Qed.
Lemma laid_alignment c : ty_alignment (laid c) = calign c.
Proof. destruct c as [s|fs]; [by destruct s|done]. Qed.

Lemma init_type_scalar s : init_type (scalar_ffi s) = Some (scalar_ffi s).
Proof. by destruct s. Qed.

(** An initialized descriptor is left alone by later calls. *)
Lemma init_type_laid c : cty_wf c = true → init_type (laid c) = Some (laid c).
Proof.
  intros H. unfold init_type. rewrite laid_size. pose proof (csize_pos c H).
  by rewrite (proj2 (Z.eqb_neq _ _)) by lia.
Qed.

(** ** [initialize_aggregate] computes the layout *)

Lemma init_loop_cons e ptr size alignment :
  init_loop (e :: ptr) size alignment =
    match init_type e with
    | Some e' =>
        let offset := FFI_ALIGN size (ty_alignment e') in
        let '(st, es, size, alignment, offsets) :=
          init_loop ptr (u64 (offset + ty_size e'))
            (if ty_alignment e' <? alignment then alignment else ty_alignment e') in
        (st, e' :: es, size, alignment, offset :: offsets)
    | None =>
        (FFI_BAD_TYPEDEF,
         (if ty_size e =? 0 then (initialize_aggregate e).1.2 else e) :: ptr,
         size, alignment, [])
    end.
Proof.
  simpl. unfold init_type. destruct (ty_size e =? 0); [|done].
  by destruct (initialize_aggregate e) as [[[] e'] offs].
Qed.

Lemma init_loop_laid fs off al :
  Forall (λ c, cty_wf c = true ∧ (csize c < 2 ^ 62 → init_type (fresh c) = Some (laid c))) fs →
  0 ≤ off → fields_end csize calign fs off < 2 ^ 62 →
  init_loop (map fresh fs) off al =
    (FFI_OK, map laid fs, fields_end csize calign fs off,
     foldr (λ c m, Z.max (calign c) m) al (rev fs), field_offsets csize calign fs off).
Proof.
  intros H. revert off al. induction H as [|c fs [Hw Hi] Hfs IH]; intros off al Hoff Hb; [done|].
  cbn [map]. rewrite init_loop_cons. simpl in Hb.
  pose proof (calign_pos c Hw) as Ha. pose proof (csize_pos c Hw) as Hs.
  pose proof (align_up_spec off (calign c) Ha) as [[??] _].
  assert (align_up off (calign c) + csize c ≤ fields_end csize calign fs
            (align_up off (calign c) + csize c)).
  { apply fields_end_ge, wf_fields. eapply Forall_impl; [exact Hfs|]. naive_solver. }
  rewrite Hi by lia. cbv zeta.
  rewrite laid_alignment, laid_size.
  rewrite FFI_ALIGN_ok by (by apply calign_pow2 || lia).
  rewrite wrap_small by (unfold in_u; lia).
  rewrite IH by lia. simpl. rewrite foldr_app. simpl.
  do 2 f_equal. f_equal. destruct (Z.ltb_spec (calign c) al); f_equal; lia.
Qed.

Lemma foldr_max_rev fs : foldr (λ c m, Z.max (calign c) m) 0 (rev fs) = calign (CStruct fs).
Proof.
  simpl. induction fs as [|c fs IH]; [done|]. simpl. rewrite foldr_app. simpl.
  rewrite <- IH. clear IH. pose proof (calign_nonneg c).
  induction (rev fs) as [|d l IH]; simpl; lia.
Qed.

Lemma init_fresh_struct fs :
  Forall (λ c, cty_wf c = true ∧ (csize c < 2 ^ 62 → init_type (fresh c) = Some (laid c))) fs →
  cty_wf (CStruct fs) = true → csize (CStruct fs) < 2 ^ 62 →
  initialize_aggregate (fresh (CStruct fs)) =
    (FFI_OK, laid (CStruct fs), field_offsets csize calign fs 0).
Proof.
  intros Hfs Hw Hb. pose proof (calign_pos _ Hw) as Ha. pose proof (csize_pos _ Hw) as Hp.
  pose proof (align_up_le (fields_end csize calign fs 0) _ Ha) as Hle.
  change (align_up (fields_end csize calign fs 0) (calign (CStruct fs)))
    with (csize (CStruct fs)) in Hle.
  assert (0 ≤ fields_end csize calign fs 0).
  { apply fields_end_ge, wf_fields. eapply Forall_impl; [exact Hfs|]. naive_solver. }
  cbn [fresh]. rewrite initialize_aggregate_unfold, init_loop_laid by (done || lia).
  rewrite foldr_max_rev. cbv zeta.
  rewrite FFI_ALIGN_ok by (by apply calign_pow2 || lia).
  change (align_up (fields_end csize calign fs 0) (calign (CStruct fs)))
    with (csize (CStruct fs)).
  by rewrite (proj2 (Z.eqb_neq _ _)) by lia.
Qed.

Lemma init_fresh c : cty_wf c = true → csize c < 2 ^ 62 → init_type (fresh c) = Some (laid c).
Proof.
  induction c as [s|fs IH] using cty_ind'; intros Hw Hb; [apply init_type_scalar|].
  unfold init_type. rewrite init_fresh_struct; [done| |done..].
  apply cty_wf_struct in Hw as [_ Hfs].
  eapply Forall_impl; [apply Forall_and; split; [exact Hfs|exact IH]|]. naive_solver.
Qed.

Lemma init_loop_bad fs off al :
  Exists (λ c, init_type (fresh c) = None) fs →
  (init_loop (map fresh fs) off al).1.1.1.1 = FFI_BAD_TYPEDEF.
Proof.
  revert off al. induction fs as [|c fs IH]; intros off al H; [by inv H|].
  cbn [map]. rewrite init_loop_cons. destruct (init_type (fresh c)) as [e|] eqn:E; [|done].
  apply Exists_cons in H as [H|H]; [congruence|].
  specialize (IH (u64 (FFI_ALIGN off (ty_alignment e) + ty_size e))
    (if ty_alignment e <? al then al else ty_alignment e) ltac:(done)).
  cbv zeta. by destruct (init_loop _ _ _) as [[[[??]?]?]?].
Qed.

Lemma init_fresh_bad c : cty_wf c = false → init_type (fresh c) = None.
Proof.
  induction c as [s|fs IH] using cty_ind'; intros Hw; [done|].
  unfold init_type. cbn [fresh ty_size]. rewrite initialize_aggregate_unfold.
  change (0 =? 0) with true. cbv iota. destruct fs as [|c fs]; [done|].
  assert (Exists (λ c, init_type (fresh c) = None) (c :: fs)) as Hex.
  { destruct (decide (Forall (λ c, cty_wf c = true) (c :: fs))) as [Hall|Hall].
    - rewrite (proj2 (cty_wf_struct (c :: fs))) in Hw by done. done.
    - apply not_Forall_Exists in Hall; [|apply _]. apply Exists_exists in Hall as (d & Hd & Hdw).
      apply Exists_exists. exists d. split; [done|]. rewrite Forall_forall in IH.
      apply IH; [done|]. by apply not_true_iff_false. }
  pose proof (init_loop_bad _ 0 0 Hex) as Hbad.
  by destruct (init_loop (map fresh (c :: fs)) 0 0) as [[[[[] ?]?]?]?].
Qed.

(** Offsets of the fields: aligned, in order without overlap, and inside. *)
Lemma field_offsets_spec {A} (sz al : A → Z) l off i c o :
  Forall (λ c, 0 < al c ∧ 0 ≤ sz c) l →
  l !! i = Some c → field_offsets sz al l off !! i = Some o →
  (al c | o) ∧ off ≤ o ∧ o + sz c ≤ fields_end sz al l off ∧
  ∀ j o', (i < j)%nat → field_offsets sz al l off !! j = Some o' → o + sz c ≤ o'.
Proof.
  intros H. revert off i c o. induction H as [|d l [Ha Hs] Hl IH]; intros off i c o Hi Ho; [done|].
  pose proof (align_up_spec off (al d) Ha) as [[??] Hdv].
  assert (∀ off j o', field_offsets sz al l off !! j = Some o' → off ≤ o') as Hge.
  { clear -Hl IH. intros off j o' Hj.
    destruct (lookup_lt_is_Some_2 l j) as [c Hc].
    { clear IH. apply lookup_lt_Some in Hj. revert off Hj.
      assert (∀ off, length (field_offsets sz al l off) = length l) as Hlen.
      { induction l; intros; simpl; [done|]. inv Hl. auto. }
      intros. by rewrite <- (Hlen off). }
    by destruct (IH off j c o' Hc Hj) as (_ & ? & _). }
  destruct i as [|i]; simplify_eq/=.
  - split_and!; [done|lia|by apply fields_end_ge|].
    intros [|j] o' Hj Ho'; [lia|]. by eapply Hge.
  - destruct (IH _ _ _ _ Hi Ho) as (? & ? & ? & Hn). split_and!; [done|lia|done|].
    intros [|j] o' Hj Ho'; [lia|]. eapply Hn; [|done]. lia.
Qed.
