(* ===== verification/Placement.v ===== *)
(** * Where an argument lives, abstractly

    A [place] is a list of registers or a stack offset; [slot_info] is the
    packed [ABIArgInfo] that describes it.  The calling-convention components
    are shown to produce exactly such words, and their clients read them back
    with the accessors of [ABIArgInfo.h]. *)

From S2P Require Import Prelude ABIArgInfo.

(** Registers and stack slots carry their location info. *)
Inductive place : Type :=
| InRegs (rs : list (Z * Z))
| OnStack (off info : Z).

Definition place_is_mem (p : place) : bool := match p with OnStack _ _ => true | _ => false end.

Definition slot_mask (p : place) (ind : bool) : Z :=
  (if place_is_mem p then 2 else 0) + (if ind then 1 else 0).

Definition slot_val (p : place) : Z :=
  match p with
  | InRegs rs => pack rs
  | OnStack off info => off + 2 ^ 32 * info
  end.

Definition slot_info (p : place) (ind : bool) (sz : Z) : ABIArgInfo :=
  mkABIArgInfo (slot_val p) sz (slot_mask p ind).

(** At most four real registers, or an offset that fits its field. *)
Definition place_ok (p : place) : Prop :=
  match p with
  | InRegs rs => pairs_ok rs ∧ (length rs ≤ 4)%nat
  | OnStack off info => in_u 32 off ∧ in_u 32 info
  end.

(** What the accessors say of a word. *)
Definition decodes (x : ABIArgInfo) (p : place) (ind : bool) (sz : Z) : Prop :=
  te_get_arg_size x = sz ∧ te_is_indirect x = ind ∧ te_is_mem x = place_is_mem p ∧
  match p with
  | InRegs rs =>
      te_num_of_reg x = Z.of_nat (length rs) ∧
      ∀ j r i, rs !! j = Some (r, i) →
        te_get_reg x (Z.of_nat j) = Ret r ∧ te_get_reg_locinfo x (Z.of_nat j) = i
  | OnStack off info => te_get_mem x = off ∧ te_get_mem_locinfo x = info
  end.

Lemma slot_mem_pieces off info : in_u 32 off → in_u 32 info →
  get_piece 32 (off + 2 ^ 32 * info) 0 = off ∧ get_piece 32 (off + 2 ^ 32 * info) 1 = info.
Proof.
  intros Ho Hi. unfold get_piece, wrap, in_u in *. rewrite !Z.shiftr_div_pow2 by lia.
  change (2 ^ (32 * 0)) with 1. change (2 ^ (32 * 1)) with (2 ^ 32). rewrite Z.div_1_r.
  replace (off + 2 ^ 32 * info) with (off + info * 2 ^ 32) by lia.
  rewrite Z.mod_add, Z.div_add, (Z.div_small off) by lia.
  rewrite !Z.mod_small by lia. split; lia.
Qed.

Lemma slot_info_decodes p ind sz : place_ok p → decodes (slot_info p ind sz) p ind sz.
Proof.
  intros Hp. split_and!; [done|by destruct p, ind|by destruct p, ind|].
  destruct p as [rs|off info]; simpl in Hp.
  - destruct Hp as [Hrs Hlen]. unfold slot_info. simpl. split.
    + by apply te_num_of_reg_pack.
    + intros. by apply te_get_reg_pack.
  - destruct Hp as [Ho Hi]. unfold te_get_mem, te_get_mem_locinfo. simpl.
    by destruct (slot_mem_pieces off info Ho Hi) as [-> ->].
Qed.

Lemma te_set_mem_zero off info s m : in_u 32 off → in_u 32 info →
  te_set_mem off info (mkABIArgInfo 0 s m) = mkABIArgInfo (off + 2 ^ 32 * info) s m.
Proof.
  intros Ho Hi. unfold te_set_mem. simpl. f_equal.
  rewrite (set_piece_append 32 0 0), (wrap_small 32 off) by (done || lia).
  change (2 ^ (32 * 0)) with 1. rewrite Z.add_0_l, Z.mul_1_r.
  rewrite set_piece_append by (unfold in_u in *; change (32 * 1) with 32; lia).
  rewrite wrap_small by done. change (32 * 1) with 32. lia.
Qed.

(** ** Updates of one argument slot *)

(** [fi] with [x] in slot [i]. *)
Definition fi_at (fi : ABIFnInfo) (i : nat) (x : ABIArgInfo) : ABIFnInfo :=
  set_ainfo (<[i := x]> (ainfo fi)) fi.

Lemma fi_at_id fi i x : ainfo fi !! i = Some x → fi_at fi i x = fi.
Proof. intros H. unfold fi_at. rewrite list_insert_id by done. by destruct fi. Qed.

Lemma upd_arg_at fi i x f : (i < length (ainfo fi))%nat →
  upd_arg (Some (fi_at fi i x)) i f = (λ y, Some (fi_at fi i y)) <$> f x.
Proof.
  intros Hi. unfold upd_arg, fi_at. simpl. unfold c_update, c_index.
  rewrite list_lookup_insert_eq by done. simpl. destruct (f x); [|done].
  simpl. by rewrite list_insert_insert_eq.
Qed.

(** Two places occupy no common register and no common stack byte; [n1], [n2]
    are the sizes of the stack slots. *)
Definition place_disjoint (p1 : place) (n1 : Z) (p2 : place) (n2 : Z) : Prop :=
  match p1, p2 with
  | InRegs rs1, InRegs rs2 => ∀ r, r ∈ rs1.*1 → r ∉ rs2.*1
  | OnStack o1 _, OnStack o2 _ => o1 + n1 ≤ o2 ∨ o2 + n2 ≤ o1
  | _, _ => True
  end.

Lemma place_disjoint_sym p1 n1 p2 n2 : place_disjoint p1 n1 p2 n2 → place_disjoint p2 n2 p1 n1.
Proof. destruct p1, p2; simpl; try done; [|tauto]. intros H r Hr Hr'. by eapply H. Qed.

(** The same in terms of the accessors. *)
Definition slots_disjoint (x : ABIArgInfo) (n1 : Z) (y : ABIArgInfo) (n2 : Z) : Prop :=
  match te_is_mem x, te_is_mem y with
  | true, true => te_get_mem x + n1 ≤ te_get_mem y ∨ te_get_mem y + n2 ≤ te_get_mem x
  | false, false => ∀ a b r, 0 ≤ a < te_num_of_reg x → 0 ≤ b < te_num_of_reg y →
      te_get_reg x a = Ret r → te_get_reg y b ≠ Ret r
  | _, _ => True
  end.

Lemma decodes_reg x rs ind sz a : decodes x (InRegs rs) ind sz → 0 ≤ a < te_num_of_reg x →
  ∃ r, r ∈ rs.*1 ∧ te_get_reg x a = Ret r.
Proof.
  intros (_ & _ & _ & Hn & Hget) Ha. destruct (lookup_lt_is_Some_2 rs (Z.to_nat a)) as [[r i] Hr]; [lia|].
  destruct (Hget _ _ _ Hr) as [Hg _]. rewrite Z2Nat.id in Hg by lia. exists r. split; [|done].
  apply list_elem_of_fmap. exists (r, i). split; [done|]. by eapply list_elem_of_lookup_2.
Qed.

Lemma decodes_disjoint x p i1 n1 s1 y q i2 n2 s2 :
  decodes x p i1 s1 → decodes y q i2 s2 → place_disjoint p n1 q n2 → slots_disjoint x n1 y n2.
Proof.
  intros Hx Hy Hd. pose proof Hx as (_ & _ & Hmx & Hpx). pose proof Hy as (_ & _ & Hmy & Hpy).
  unfold slots_disjoint. rewrite Hmx, Hmy. destruct p as [rs|o1 l1], q as [rs'|o2 l2]; simpl in *; try done.
  - intros a b r Ha Hb Hr Hr'. destruct (decodes_reg _ _ _ _ a Hx Ha) as (r1 & Hin1 & H1).
    destruct (decodes_reg _ _ _ _ b Hy Hb) as (r2 & Hin2 & H2). simplify_eq.
    rewrite Hr in H1. rewrite Hr' in H2. simplify_eq. by eapply Hd.
  - by destruct Hpx as [-> _], Hpy as [-> _].
Qed.
