(* ===== verification/AAPrepCif.v ===== *)
(** * [aa_prep_cif.c]: the iOS AArch64 calling convention

    [my_aa_fi_prep_cif] assigns each argument and the return value of a
    function to AArch64 registers or stack slots (AAPCS64 with Apple's rules:
    stack arguments take their natural alignment, variadic arguments always go
    to the stack in 8-byte slots).  The configuration modelled is the one the
    repository builds: [__APPLE__] defined, [_M_ARM64] not, so
    [AA_FI_TARGET_SPECIFIC_VARIADIC] and [AA_FI_TARGET_HAS_COMPLEX_TYPE] are
    defined and [AA_FI_TARGET_SPECIFIC_STACK_SPACE_ALLOCATION] is not. *)

From S2P Require Import Prelude ABIArgInfo FfiTypes.

(** ** Registers: [aa_reg.h] *)
Definition NoRegister : Z := 0.
Definition TE_S0 : Z := 1.
Definition TE_S4 : Z := 5.
Definition TE_S5 : Z := 6.
Definition TE_S6 : Z := 7.
Definition TE_S7 : Z := 8.
Definition TE_D0 : Z := 9.
Definition TE_D7 : Z := 16.
Definition TE_Q0 : Z := 17.
Definition TE_Q7 : Z := 24.
Definition TE_W0 : Z := 25.
Definition TE_W7 : Z := 32.
Definition TE_X0 : Z := 33.
Definition TE_X1 : Z := 34.
Definition TE_X7 : Z := 40.
Definition TE_X8 : Z := 41.

(** ** Return kinds: [aa_internal.h] *)
Definition AARCH64_RET_VOID : Z := 0.
Definition AARCH64_RET_INT64 : Z := 1.
Definition AARCH64_RET_INT128 : Z := 2.
Definition AARCH64_RET_S4 : Z := 8.
Definition AARCH64_RET_S1 : Z := 11.
Definition AARCH64_RET_D4 : Z := 12.
Definition AARCH64_RET_D1 : Z := 15.
Definition AARCH64_RET_Q4 : Z := 16.
Definition AARCH64_RET_Q1 : Z := 19.
Definition AARCH64_RET_UINT8 : Z := 20.
Definition AARCH64_RET_UINT16 : Z := 22.
Definition AARCH64_RET_UINT32 : Z := 24.
Definition AARCH64_RET_SINT8 : Z := 26.
Definition AARCH64_RET_SINT16 : Z := 28.
Definition AARCH64_RET_SINT32 : Z := 30.
Definition AARCH64_RET_IN_MEM : Z := Z.shiftl 1 5.
Definition N_X_ARG_REG : Z := 8.
Definition N_V_ARG_REG : Z := 8.

Definition fakeLocInfo : Z := TE_NO_LOC_INFO.

Definition AA_FI_FIRST_ABI : Z := 0.
Definition AA_FI_SYSV : Z := 1.
Definition AA_FI_LAST_ABI : Z := 2.
Definition AA_FI_DEFAULT_ABI : Z := AA_FI_SYSV.

Record aa_fi_cif := mk_aa_fi_cif {
  aa_abi : Z;
  aa_nargs : Z;
  aa_arg_types : list ffi_type;
  aa_rtype : ffi_type;
  aa_bytes : Z;
  aa_flags : Z;
  aarch64_nfixedargs : Z
}.

(** ** Homogeneous floating-point aggregates *)

Definition is_nested (t : ffi_tycode) : bool :=
  match t with FFI_TYPE_STRUCT | FFI_TYPE_COMPLEX => true | _ => false end.

(** [None] is the C result -1. *)
Fixpoint is_hfa0 (ty : ffi_type) : option ffi_tycode :=
  match ty with
  | mk_ffi_type _ _ _ None => None
  | mk_ffi_type _ _ _ (Some elements) =>
      let fix loop (l : list ffi_type) :=
        match l with
        | [] => None
        | e :: l' =>
            if is_nested (ty_type e)
            then match is_hfa0 e with None => loop l' | Some ret => Some ret end
            else Some (ty_type e)
        end in
      loop elements
  end.

Fixpoint is_hfa1 (ty : ffi_type) (candidate : ffi_tycode) : bool :=
  match ty with
  | mk_ffi_type _ _ _ None => true
  | mk_ffi_type _ _ _ (Some elements) =>
      let fix loop (l : list ffi_type) :=
        match l with
        | [] => true
        | e :: l' =>
            if is_nested (ty_type e)
            then if is_hfa1 e candidate then loop l' else false
            else if decide (ty_type e = candidate) then loop l' else false
        end in
      loop elements
  end.

(** [for (i = 0;; ++i) { candidate = is_hfa0(elements[i]); if (candidate >= 0) break; }]:
    the loop has no bound, at the terminating null pointer [is_hfa0]
    dereferences it. *)
Fixpoint first_hfa0 (elements : list ffi_type) : outcome ffi_tycode :=
  match elements with
  | [] => Stop Undefined
  | e :: l => match is_hfa0 e with Some c => Ret c | None => first_hfa0 l end
  end.

(** [ty->elements], read at index 0 by the callers: the pointer must not be
    null and the first element must be there. *)
Definition first_element (ty : ffi_type) : outcome ffi_type :=
  match ty_elements ty with
  | Some (e :: _) => Ret e
  | _ => Stop Undefined
  end.

Definition encode_hfa (candidate : ffi_tycode) (ele_count : Z) : Z :=
  tycode_val candidate * 4 + (4 - ele_count).

(** The element size of the second switch, [None] in its [default]. *)
Definition hfa_elem_size (candidate : ffi_tycode) : option Z :=
  match candidate with
  | FFI_TYPE_FLOAT => Some 4
  | FFI_TYPE_DOUBLE => Some 8
  | FFI_TYPE_LONGDOUBLE => Some 16
  | _ => None
  end.

Definition is_vfp_type (ty : ffi_type) : outcome Z :=
  match ty_type ty with
  | FFI_TYPE_FLOAT | FFI_TYPE_DOUBLE | FFI_TYPE_LONGDOUBLE =>
      Ret (encode_hfa (ty_type ty) 1)
  | FFI_TYPE_COMPLEX =>
      e ← first_element ty;
      match ty_type e with
      | FFI_TYPE_FLOAT | FFI_TYPE_DOUBLE | FFI_TYPE_LONGDOUBLE => Ret (encode_hfa (ty_type e) 2)
      | _ => Ret 0
      end
  | FFI_TYPE_STRUCT =>
      let size := ty_size ty in
      if (size <? 4) || (64 <? size) then Ret 0 else
      e ← first_element ty;
      candidate ← (if is_nested (ty_type e) then first_hfa0 (elements_of ty)
                   else Ret (ty_type e));
      match hfa_elem_size candidate with
      | None => Ret 0
      | Some es =>
          let ele_count := size / es in
          if negb (size =? ele_count * es) then Ret 0 else
          if 4 <? ele_count then Ret 0 else
          (* the final loop over [elements] is the body of [is_hfa1] *)
          if is_hfa1 ty candidate then Ret (encode_hfa candidate ele_count) else Ret 0
      end
  | _ => Ret 0
  end.

(** ** The machine dependent part *)

(** State of the loop over the arguments. *)
Record aa_state := mk_aa_state {
  aa_gprcount : Z;
  aa_ssecount : Z;
  aa_stack_offset : Z;
  allocating_variadic : bool;
  aa_fnInfo : option ABIFnInfo
}.

Definition aa_with_info (st : aa_state) (fi : option ABIFnInfo) : aa_state :=
  mk_aa_state (aa_gprcount st) (aa_ssecount st) (aa_stack_offset st) (allocating_variadic st) fi.
Definition aa_with_gpr (st : aa_state) (n : Z) : aa_state :=
  mk_aa_state n (aa_ssecount st) (aa_stack_offset st) (allocating_variadic st) (aa_fnInfo st).
Definition aa_with_sse (st : aa_state) (n : Z) : aa_state :=
  mk_aa_state (aa_gprcount st) n (aa_stack_offset st) (allocating_variadic st) (aa_fnInfo st).

Definition pass_in_memory (alignment ty_size : Z) (argIdx : nat) (st : aa_state) :
    outcome aa_state :=
  let alignment := if allocating_variadic st && (alignment <? 8) then 8 else alignment in
  let stack_offset := FFI_ALIGN (aa_stack_offset st) alignment in
  fi ← upd_arg (aa_fnInfo st) argIdx (λ a,
         Ret (te_set_mem stack_offset fakeLocInfo (or_mask TE_MASK_ISMEM a)));
  Ret (mk_aa_state (aa_gprcount st) (aa_ssecount st) (u64 (stack_offset + ty_size))
         (allocating_variadic st) fi).

Definition gprcnt2reg : list Z := [TE_X0; TE_X0 + 1; TE_X0 + 2; TE_X0 + 3;
                                   TE_X0 + 4; TE_X0 + 5; TE_X0 + 6; TE_X0 + 7].
Definition ssecnt2reg : list Z := [TE_Q0; TE_Q0 + 1; TE_Q0 + 2; TE_Q0 + 3;
                                   TE_Q0 + 4; TE_Q0 + 5; TE_Q0 + 6; TE_Q0 + 7].

(** [for (idxElem = 0; idxElem < n; ++idxElem)
       te_set_reg(&fnInfo->ainfo[i], idxElem, tbl[base + idxElem], fakeLocInfo);] *)
Fixpoint set_regs_from (tbl : list Z) (base idxElem : Z) (n : nat) (a : ABIArgInfo) :
    outcome ABIArgInfo :=
  match n with
  | O => Ret a
  | S n =>
      r ← c_index tbl (Z.to_nat (base + idxElem));
      a ← te_set_reg idxElem r fakeLocInfo a;
      set_regs_from tbl base (idxElem + 1) n a
  end.

(** One general register, or memory when they are used up. *)
Definition alloc_one_gpr (alignment s : Z) (i : nat) (st : aa_state) : outcome aa_state :=
  if aa_gprcount st <? N_X_ARG_REG then
    fi ← upd_arg (aa_fnInfo st) i (λ a,
           r ← c_index gprcnt2reg (Z.to_nat (aa_gprcount st)); te_set_reg 0 r fakeLocInfo a);
    Ret (aa_with_gpr (aa_with_info st fi) (aa_gprcount st + 1))
  else
    st ← pass_in_memory alignment s i st;
    Ret (aa_with_gpr st N_X_ARG_REG).

(** The cases [FFI_TYPE_FLOAT] to [FFI_TYPE_COMPLEX] of the argument switch. *)
Definition alloc_composite (ty : ffi_type) (i : nat) (st : aa_state) : outcome aa_state :=
  let s := ty_size ty in
  h ← is_vfp_type ty;
  if negb (h =? 0) then
    let elems := 4 - Z.land h 3 in
    if aa_ssecount st + elems <=? N_V_ARG_REG then
      fi ← upd_arg (aa_fnInfo st) i (set_regs_from ssecnt2reg (aa_ssecount st) 0 (Z.to_nat elems));
      Ret (aa_with_sse (aa_with_info st fi) (aa_ssecount st + elems))
    else
      pass_in_memory (ty_alignment ty) s i (aa_with_sse st N_V_ARG_REG)
  else if 16 <? s then
    st ← alloc_one_gpr (ty_alignment ty) 8 i st;
    fi ← upd_arg (aa_fnInfo st) i (λ a, Ret (or_mask TE_MASK_INDIRECT a));
    Ret (aa_with_info st fi)
  else
    let n := (s + 7) / 8 in
    if aa_gprcount st + n <=? N_X_ARG_REG then
      fi ← upd_arg (aa_fnInfo st) i (set_regs_from gprcnt2reg (aa_gprcount st) 0 (Z.to_nat n));
      Ret (aa_with_gpr (aa_with_info st fi) (aa_gprcount st + n))
    else
      pass_in_memory (ty_alignment ty) s i (aa_with_gpr st N_X_ARG_REG).

(** One iteration of the loop over the arguments. *)
Definition aa_arg (nfixed : Z) (i : nat) (ty : ffi_type) (st : aa_state) : outcome aa_state :=
  fi ← upd_arg (aa_fnInfo st) i (λ a, Ret (te_set_arg_size (ty_size ty) a));
  let st := aa_with_info st fi in
  st ← match ty_type ty with
       | FFI_TYPE_VOID => Stop Aborted
       | FFI_TYPE_INT | FFI_TYPE_UINT8 | FFI_TYPE_SINT8 | FFI_TYPE_UINT16 | FFI_TYPE_SINT16
       | FFI_TYPE_UINT32 | FFI_TYPE_SINT32 | FFI_TYPE_UINT64 | FFI_TYPE_SINT64
       | FFI_TYPE_POINTER => alloc_one_gpr (ty_alignment ty) (ty_size ty) i st
       | FFI_TYPE_FLOAT | FFI_TYPE_DOUBLE | FFI_TYPE_LONGDOUBLE | FFI_TYPE_STRUCT
       | FFI_TYPE_COMPLEX => alloc_composite ty i st
       end;
  Ret (if Z.of_nat i + 1 =? nfixed
       then mk_aa_state N_X_ARG_REG N_V_ARG_REG (aa_stack_offset st) true (aa_fnInfo st)
       else st).

Fixpoint aa_args (nfixed : Z) (i : nat) (tys : list ffi_type) (st : aa_state) :
    outcome aa_state :=
  match tys with
  | [] => Ret st
  | ty :: tys => st ← aa_arg nfixed i ty st; aa_args nfixed (S i) tys st
  end.

(** The switch on [rtype->type]: the flags and whether the return value needs
    space for its address. *)
Definition aa_ret_flags (rtype : ffi_type) : outcome (Z * bool) :=
  match ty_type rtype with
  | FFI_TYPE_VOID => Ret (AARCH64_RET_VOID, false)
  | FFI_TYPE_UINT8 => Ret (AARCH64_RET_UINT8, false)
  | FFI_TYPE_UINT16 => Ret (AARCH64_RET_UINT16, false)
  | FFI_TYPE_UINT32 => Ret (AARCH64_RET_UINT32, false)
  | FFI_TYPE_SINT8 => Ret (AARCH64_RET_SINT8, false)
  | FFI_TYPE_SINT16 => Ret (AARCH64_RET_SINT16, false)
  | FFI_TYPE_INT | FFI_TYPE_SINT32 => Ret (AARCH64_RET_SINT32, false)
  | FFI_TYPE_SINT64 | FFI_TYPE_UINT64 => Ret (AARCH64_RET_INT64, false)
  | FFI_TYPE_POINTER => Ret (AARCH64_RET_INT64, false)
  | FFI_TYPE_FLOAT | FFI_TYPE_DOUBLE | FFI_TYPE_LONGDOUBLE | FFI_TYPE_STRUCT
  | FFI_TYPE_COMPLEX =>
      flags ← is_vfp_type rtype;
      if flags =? 0 then
        let s := ty_size rtype in
        if 16 <? s then Ret (Z.lor AARCH64_RET_VOID AARCH64_RET_IN_MEM, true)
        else if s =? 16 then Ret (AARCH64_RET_INT128, false)
        else if s =? 8 then Ret (AARCH64_RET_INT64, false)
        else Ret (AARCH64_RET_INT128, false)
      else Ret (flags, false)
  end.

(** The macro [FNR_INFO]: four cases that fall through; [ret1] is the flag of
    one register, [ret1 - 3] the flag of four. *)
Definition FNR_INFO (ret1 reg0 flags : Z) (r : ABIArgInfo) : outcome ABIArgInfo :=
  r ← (if flags <=? ret1 - 3 then te_set_reg 3 (reg0 + 3) fakeLocInfo r else Ret r);
  r ← (if flags <=? ret1 - 2 then te_set_reg 2 (reg0 + 2) fakeLocInfo r else Ret r);
  r ← (if flags <=? ret1 - 1 then te_set_reg 1 (reg0 + 1) fakeLocInfo r else Ret r);
  te_set_reg 0 reg0 fakeLocInfo r.

Definition in_case (lo hi flags : Z) : bool := (lo <=? flags) && (flags <=? hi).

(** The second switch: where the return value is. *)
Definition aa_set_ret (flags : Z) (r : ABIArgInfo) : outcome ABIArgInfo :=
  if flags =? AARCH64_RET_VOID then te_set_reg 0 NoRegister TE_NO_LOC_INFO r
  else if flags =? AARCH64_RET_INT64 then te_set_reg 0 TE_X0 fakeLocInfo r
  else if flags =? AARCH64_RET_INT128 then
    r ← te_set_reg 0 TE_X0 fakeLocInfo r; te_set_reg 1 TE_X1 fakeLocInfo r
  else if in_case AARCH64_RET_S4 AARCH64_RET_S1 flags then FNR_INFO AARCH64_RET_S1 TE_S0 flags r
  else if in_case AARCH64_RET_D4 AARCH64_RET_D1 flags then FNR_INFO AARCH64_RET_D1 TE_D0 flags r
  else if in_case AARCH64_RET_Q4 AARCH64_RET_Q1 flags then FNR_INFO AARCH64_RET_Q1 TE_Q0 flags r
  else if bool_decide (flags ∈ [AARCH64_RET_UINT8; AARCH64_RET_UINT16; AARCH64_RET_UINT32;
                                AARCH64_RET_SINT8; AARCH64_RET_SINT16; AARCH64_RET_SINT32])
  then te_set_reg 0 TE_W0 fakeLocInfo r
  else
    _ ← c_assert (flags =? Z.lor AARCH64_RET_VOID AARCH64_RET_IN_MEM);
    te_set_reg 0 TE_X8 fakeLocInfo (or_mask TE_MASK_INDIRECT r).

Definition my_aa_fi_prep_cif_machdep (cif : aa_fi_cif) (fnInfo : option ABIFnInfo) :
    outcome (ffi_status * aa_fi_cif * option ABIFnInfo) :=
  '(flags, in_mem) ← aa_ret_flags (aa_rtype cif);
  let nbytes := if (in_mem : bool) then u64 (aa_bytes cif + 8) else aa_bytes cif in
  fi ← upd_ret fnInfo (aa_set_ret flags);
  st ← aa_args (aarch64_nfixedargs cif) 0 (aa_arg_types cif) (mk_aa_state 0 0 0 false fi);
  let fi := set_bytes (sext 32 (aa_stack_offset st)) <$> aa_fnInfo st in
  Ret (FFI_OK,
       mk_aa_fi_cif (aa_abi cif) (aa_nargs cif) (aa_arg_types cif) (aa_rtype cif)
         (u32 (FFI_ALIGN nbytes 16)) flags 0,
       fi).

Definition my_aa_fi_prep_cif_machdep_var (cif : aa_fi_cif) (nfixedargs ntotalargs : Z)
    (fnInfo : option ABIFnInfo) : outcome (ffi_status * aa_fi_cif * option ABIFnInfo) :=
  my_aa_fi_prep_cif_machdep
    (mk_aa_fi_cif (aa_abi cif) (aa_nargs cif) (aa_arg_types cif) (aa_rtype cif)
       (aa_bytes cif) (aa_flags cif) nfixedargs) fnInfo.

(** ** The machine independent part *)

(** [STACK_ARG_SIZE(x)] *)
Definition STACK_ARG_SIZE (x : Z) : Z := FFI_ALIGN x 8.

(** The loop over the argument types: initialize each, and count the bytes
    they would take on the stack.  [None] is the early return with
    [FFI_BAD_TYPEDEF]. *)
Fixpoint aa_core_args (tys : list ffi_type) (nbytes : Z) : option (list ffi_type * Z) :=
  match tys with
  | [] => Some ([], nbytes)
  | ty :: tys =>
      match init_type ty with
      | None => None
      | Some ty =>
          let nbytes := if negb (Z.land (ty_alignment ty - 1) nbytes =? 0)
                        then u32 (FFI_ALIGN nbytes (ty_alignment ty)) else nbytes in
          let nbytes := u32 (nbytes + u32 (STACK_ARG_SIZE (ty_size ty))) in
          match aa_core_args tys nbytes with
          | None => None
          | Some (tys, nbytes) => Some (ty :: tys, nbytes)
          end
      end
  end.

(** The first [n] entries of an argument type array. *)
Definition arg_array (atypes : list ffi_type) (n : Z) : outcome (list ffi_type) :=
  if n <=? Z.of_nat (length atypes) then Ret (take (Z.to_nat n) atypes) else Stop Undefined.

Definition my_aa_fi_prep_cif_core (abi : Z) (isvariadic : bool) (nfixedargs ntotalargs : Z)
    (rtype : ffi_type) (atypes : list ffi_type) (fnInfo : option ABIFnInfo) :
    outcome (ffi_status * aa_fi_cif * option ABIFnInfo) :=
  _ ← c_assert (negb isvariadic || (1 <=? nfixedargs));
  _ ← c_assert (nfixedargs <=? ntotalargs);
  let cif := mk_aa_fi_cif abi ntotalargs atypes rtype 0 0 0 in
  if negb ((AA_FI_FIRST_ABI <? abi) && (abi <? AA_FI_LAST_ABI)) then Ret (FFI_BAD_ABI, cif, fnInfo)
  else match init_type rtype with
  | None => Ret (FFI_BAD_TYPEDEF, cif, fnInfo)
  | Some rtype =>
      let nbytes := match ty_type rtype with FFI_TYPE_STRUCT => u32 (STACK_ARG_SIZE 8) | _ => 0 end in
      tys ← arg_array atypes ntotalargs;
      match aa_core_args tys nbytes with
      | None => Ret (FFI_BAD_TYPEDEF, cif, fnInfo)
      | Some (tys, nbytes) =>
          let cif := mk_aa_fi_cif abi ntotalargs tys rtype nbytes 0 0 in
          if isvariadic
          then my_aa_fi_prep_cif_machdep_var cif nfixedargs ntotalargs fnInfo
          else my_aa_fi_prep_cif_machdep cif fnInfo
      end
  end.

Definition my_aa_fi_prep_cif (abi nargs : Z) (rtype : ffi_type) (atypes : list ffi_type)
    (fnInfo : option ABIFnInfo) : outcome (ffi_status * aa_fi_cif * option ABIFnInfo) :=
  my_aa_fi_prep_cif_core abi false nargs nargs rtype atypes fnInfo.

Definition my_aa_fi_prep_cif_var (abi nfixed ntotal : Z) (rtype : ffi_type)
    (atypes : list ffi_type) (fnInfo : option ABIFnInfo) :
    outcome (ffi_status * aa_fi_cif * option ABIFnInfo) :=
  my_aa_fi_prep_cif_core abi true nfixed ntotal rtype atypes fnInfo.
