(* ===== verification/HFA.v ===== *)
(** * Homogeneous floating-point aggregates

    [is_vfp_type] decides from sizes and type codes whether a type is a
    floating-point scalar or an HFA, and how many registers it takes.  The
    reference definition [hfa] flattens the type to its scalar members: one to
    four members, all [float] or all [double].  The two agree on every
    well-formed type. *)

From S2P Require Import Prelude FfiTypes Layout AAPrepCif.

Fixpoint flatten (c : cty) : list scalar :=
  match c with
  | CScalar s => [s]
  | CStruct fs => concat (map flatten fs)
  end.

Definition is_fp (s : scalar) : bool := bool_decide (s = SFloat ∨ s = SDouble).

(** The member type and the number of members. *)
Definition hfa (c : cty) : option (scalar * Z) :=
  match flatten c with
  | [] => None
  | s :: l =>
      if is_fp s && forallb (λ s', bool_decide (s' = s)) l && (Z.of_nat (length (s :: l)) <=? 4)
      then Some (s, Z.of_nat (length (s :: l)))
      else None
  end.

(** The result the comment of [is_vfp_type] promises. *)
Definition hfa_code (c : cty) : Z :=
  match hfa c with Some (s, n) => encode_hfa (scalar_code s) n | None => 0 end.

Lemma scalar_code_inj s s' : scalar_code s = scalar_code s' → s = s'.
Proof. by destruct s, s'. Qed.

Lemma scalar_code_not_nested s : is_nested (scalar_code s) = false.
Proof. by destruct s. Qed.

Lemma laid_type_nested c :
  is_nested (ty_type (laid c)) = match c with CScalar _ => false | CStruct _ => true end.
Proof. destruct c; [by destruct s|done]. Qed.

Lemma flatten_cons c fs : flatten (CStruct (c :: fs)) = flatten c ++ flatten (CStruct fs).
Proof. reflexivity. Qed.

Lemma flatten_nonempty c : cty_wf c = true → flatten c ≠ [].
Proof.
  induction c as [s|fs IH] using cty_ind'; intros H; [done|].
  apply cty_wf_struct in H as [Hne H]. destruct fs as [|c fs]; [done|].
  inv IH. inv H. rewrite flatten_cons. intros [??]%app_eq_nil. by apply H2.
Qed.

Lemma is_hfa0_cons e l s a t :
  is_hfa0 (mk_ffi_type s a t (Some (e :: l))) =
    if is_nested (ty_type e)
    then match is_hfa0 e with None => is_hfa0 (mk_ffi_type s a t (Some l)) | Some r => Some r end
    else Some (ty_type e).
Proof. reflexivity. Qed.

Lemma is_hfa1_cons e l s a t k :
  is_hfa1 (mk_ffi_type s a t (Some (e :: l))) k =
    (if is_nested (ty_type e) then is_hfa1 e k else bool_decide (ty_type e = k)) &&
    is_hfa1 (mk_ffi_type s a t (Some l)) k.
Proof.
  simpl. destruct (is_nested (ty_type e)); [by destruct (is_hfa1 e k)|].
  case_decide; [by rewrite bool_decide_true|by rewrite bool_decide_false].
Qed.

(** The first scalar member of a structure. *)
Lemma is_hfa0_laid fs : cty_wf (CStruct fs) = true →
  is_hfa0 (laid (CStruct fs)) = scalar_code <$> head (flatten (CStruct fs)).
Proof.
  intros H. remember (CStruct fs) as c eqn:Hc. revert fs Hc H.
  induction c as [s|fs' IH] using cty_ind'; intros fs [=->] H.
  apply cty_wf_struct in H as [Hne H]. destruct fs as [|c fs]; [done|].
  inv IH. inv H. cbn [laid map]. rewrite is_hfa0_cons, laid_type_nested, flatten_cons.
  destruct c as [s|gs]; [by destruct s|].
  erewrite H2 by done. pose proof (flatten_nonempty _ H4).
  by destruct (flatten (CStruct gs)).
Qed.

(** All scalar members have the candidate type. *)
Lemma is_hfa1_laid fs k :
  is_hfa1 (laid (CStruct fs)) k =
    forallb (λ s, bool_decide (scalar_code s = k)) (flatten (CStruct fs)).
Proof.
  remember (CStruct fs) as c eqn:Hc. revert fs Hc.
  induction c as [s|fs' IH] using cty_ind'; intros fs [=->].
  cbn [laid]. generalize (csize (CStruct fs)), (calign (CStruct fs)). intros sz al.
  induction IH as [|c fs Hc IH IHl]; [done|].
  cbn [map]. rewrite is_hfa1_cons, laid_type_nested, flatten_cons, forallb_app, IHl.
  f_equal. destruct c as [s|gs]; [|by eapply Hc].
  simpl. rewrite andb_true_r. by destruct s.
Qed.

(** The layout of a type whose members are all the same scalar. *)
Lemma homogeneous_layout c s : cty_wf c = true → Forall (λ s', s' = s) (flatten c) →
  calign c = scalar_size s ∧ csize c = scalar_size s * Z.of_nat (length (flatten c)).
Proof.
  pose proof (scalar_size_range s) as Hs.
  induction c as [s'|fs IH] using cty_ind'; intros Hw Hf.
  { inv Hf. simpl. lia. }
  pose proof (calign_pos _ Hw) as Hap.
  apply cty_wf_struct in Hw as [Hne Hw].
  assert (Forall (λ c, calign c = scalar_size s ∧
            csize c = scalar_size s * Z.of_nat (length (flatten c))) fs) as Hfs.
  { clear Hne Hap. induction fs as [|c fs IHfs]; constructor;
      inv IH; inv Hw; rewrite flatten_cons in Hf; apply Forall_app in Hf as [??]; auto. }
  assert (calign (CStruct fs) = scalar_size s) as Hal.
  { clear -Hne Hfs Hs. destruct Hfs as [|c fs [Hc _] Hfs]; [done|].
    rewrite calign_struct_cons, Hc. clear Hne.
    enough (calign (CStruct fs) ≤ scalar_size s) by lia.
    induction Hfs as [|d fs [Hd _] Hfs IHf]; [simpl; lia|].
    rewrite calign_struct_cons. lia. }
  split; [done|].
  assert (∀ off, (scalar_size s | off) → fields_end csize calign fs off =
            off + scalar_size s * Z.of_nat (length (flatten (CStruct fs)))) as Hend.
  { clear -Hfs Hs. induction Hfs as [|c fs [Ha Hc] Hfs IHf]; intros off Hoff; [simpl; lia|].
    cbn [fields_end]. rewrite Ha, align_up_divide by (done || lia).
    rewrite flatten_cons, length_app. rewrite Hc.
    etrans; [apply IHf|lia].
    apply Z.divide_add_r; [done|]. apply Z.divide_factor_l. }
  cbn [csize]. rewrite Hal, (Hend 0) by apply Z.divide_0_r.
  apply align_up_divide; [lia|]. apply Z.divide_factor_l.
Qed.

Lemma hfa_elem_size_fp s es :
  hfa_elem_size (scalar_code s) = Some es → is_fp s = true ∧ es = scalar_size s.
Proof. by destruct s; intros [=]. Qed.

Lemma hfa_elem_size_not_fp s : hfa_elem_size (scalar_code s) = None → is_fp s = false.
Proof. by destruct s. Qed.

(** [forallb] over a non-empty member list against its head. *)
Lemma homogeneous_head s l :
  forallb (λ s', bool_decide (scalar_code s' = scalar_code s)) (s :: l) =
    forallb (λ s', bool_decide (s' = s)) l.
Proof.
  simpl. rewrite bool_decide_true by done. simpl.
  induction l as [|s' l IH]; [done|]. simpl. rewrite IH. f_equal.
  apply bool_decide_ext. split; [apply scalar_code_inj|congruence].
Qed.

Lemma is_fp_size s : is_fp s = true → 4 ≤ scalar_size s.
Proof. by destruct s. Qed.

Lemma first_hfa0_cons e l :
  first_hfa0 (e :: l) = match is_hfa0 e with Some c => Ret c | None => first_hfa0 l end.
Proof. reflexivity. Qed.

Lemma is_vfp_type_struct fs s l :
  cty_wf (CStruct fs) = true → flatten (CStruct fs) = s :: l →
  is_vfp_type (laid (CStruct fs)) =
    let size := csize (CStruct fs) in
    if (size <? 4) || (64 <? size) then Ret 0 else
    match hfa_elem_size (scalar_code s) with
    | None => Ret 0
    | Some es =>
        if negb (size =? size / es * es) then Ret 0 else
        if 4 <? size / es then Ret 0 else
        if forallb (λ s', bool_decide (s' = s)) l
        then Ret (encode_hfa (scalar_code s) (size / es)) else Ret 0
    end.
Proof.
  intros Hw Hfl. rewrite <- homogeneous_head, <- Hfl, <- is_hfa1_laid.
  unfold is_vfp_type. cbn [laid ty_type ty_size]. cbv zeta.
  destruct (_ || _); [done|].
  assert ((e ← first_element (laid (CStruct fs));
           if is_nested (ty_type e) then first_hfa0 (elements_of (laid (CStruct fs)))
           else Ret (ty_type e)) = Ret (scalar_code s)) as Hcand.
  { destruct fs as [|c fs]; [done|]. apply cty_wf_struct in Hw as [_ Hw]. inv Hw.
    cbn [laid map first_element ty_elements elements_of default mbind outcome_bind].
    rewrite laid_type_nested. destruct c as [s'|gs]; [by destruct s'; simplify_eq/=|].
    unfold id. rewrite first_hfa0_cons, is_hfa0_laid by done.
    pose proof (flatten_nonempty _ H1). rewrite flatten_cons in Hfl.
    destruct (flatten (CStruct gs)); by simplify_eq/=. }
  cbn [laid] in Hcand |- *.
  destruct (first_element _) as [e|]; [|done]. simpl in Hcand |- *.
  by rewrite Hcand.
Qed.

Lemma is_vfp_type_scalar s : is_vfp_type (scalar_ffi s) = Ret (hfa_code (CScalar s)).
Proof. by destruct s. Qed.

Lemma is_vfp_type_laid c : cty_wf c = true → is_vfp_type (laid c) = Ret (hfa_code c).
Proof.
  intros Hw. destruct c as [s|fs]; [apply is_vfp_type_scalar|].
  pose proof (flatten_nonempty _ Hw) as Hne.
  destruct (flatten (CStruct fs)) as [|s l] eqn:Hfl; [done|]. clear Hne.
  rewrite (is_vfp_type_struct fs s l) by done. unfold hfa_code, hfa. rewrite Hfl.
  destruct (hfa_elem_size (scalar_code s)) as [es|] eqn:Hes.
  2:{ rewrite (hfa_elem_size_not_fp _ Hes). simpl. by case_match. }
  apply hfa_elem_size_fp in Hes as [Hfp ->]. rewrite Hfp, andb_true_l.
  destruct (forallb _ l) eqn:Hall; [|cbv zeta; simpl; repeat case_match; done].
  assert (Forall (λ s', s' = s) (flatten (CStruct fs))) as Hhom.
  { rewrite Hfl. constructor; [done|]. apply Is_true_eq_left, forallb_True in Hall.
    eapply Forall_impl; [exact Hall|]. intros s'. by rewrite bool_decide_spec. }
  destruct (homogeneous_layout _ _ Hw Hhom) as [_ Hsz]. rewrite Hfl in Hsz.
  rewrite Hsz. pose proof (scalar_size_range s). set (n := Z.of_nat (length (s :: l))).
  assert (1 ≤ n) by (unfold n; simpl; lia).
  pose proof (is_fp_size s Hfp).
  cbv zeta. rewrite Z.mul_comm, Z.div_mul, Z.eqb_refl by lia. simpl negb. cbv iota.
  destruct (Z.leb_spec n 4), (Z.ltb_spec 4 n), (Z.ltb_spec (n * scalar_size s) 4),
    (Z.ltb_spec 64 (n * scalar_size s)); simpl; done || nia.
Qed.
