(* ===== verification/AAAlloc.v ===== *)
(** * Argument allocation of [aa_prep_cif.c] against the AAPCS64 rules

    The abstract allocator keeps the next general register, the next vector
    register and the next stack address (NGRN, NSRN and NSAA of the procedure
    call standard) and places one abstract type at a time.  The loop of
    [my_aa_fi_prep_cif_machdep] is shown to write exactly the words that
    describe those places; the rules then give that no two arguments share a
    register or a stack byte. *)

From S2P Require Import Prelude ABIArgInfo FfiTypes Layout Placement AAPrepCif HFA.

(** ** The abstract allocator *)

Record alloc := mk_alloc { ngrn : Z; nsrn : Z; nsaa : Z; va : bool }.

Definition alloc0 : alloc := mk_alloc 0 0 0 false.

(** [n] registers from [r0], without location info. *)
Definition reg_seq (r0 n : Z) : list (Z * Z) := (λ r, (r, 0)) <$> seqZ r0 n.

Definition push_stack (al sz : Z) (a : alloc) : place * alloc :=
  let al := if va a && (al <? 8) then 8 else al in
  let off := align_up (nsaa a) al in
  (OnStack off 0, mk_alloc (ngrn a) (nsrn a) (off + sz) (va a)).

(** All of the value in general registers, or all of it on the stack, which
    ends the use of general registers. *)
Definition place_gprs (n al sz : Z) (a : alloc) : place * alloc :=
  if ngrn a + n <=? N_X_ARG_REG
  then (InRegs (reg_seq (TE_X0 + ngrn a) n), mk_alloc (ngrn a + n) (nsrn a) (nsaa a) (va a))
  else push_stack al sz (mk_alloc N_X_ARG_REG (nsrn a) (nsaa a) (va a)).

Definition place_vregs (n al sz : Z) (a : alloc) : place * alloc :=
  if nsrn a + n <=? N_V_ARG_REG
  then (InRegs (reg_seq (TE_Q0 + nsrn a) n), mk_alloc (ngrn a) (nsrn a + n) (nsaa a) (va a))
  else push_stack al sz (mk_alloc (ngrn a) N_V_ARG_REG (nsaa a) (va a)).

(** A composite of more than 16 bytes that is no HFA is replaced by its
    address. *)
Definition by_reference (c : cty) : bool :=
  match hfa c with Some _ => false | None => 16 <? csize c end.

Definition place_arg (c : cty) (a : alloc) : place * alloc :=
  match hfa c with
  | Some (_, n) => place_vregs n (calign c) (csize c) a
  | None =>
      if 16 <? csize c then place_gprs 1 (calign c) 8 a
      else place_gprs ((csize c + 7) / 8) (calign c) (csize c) a
  end.

(** After the last named argument of a variadic function every register is
    considered used. *)
Definition after_arg (nfixed : Z) (i : nat) (a : alloc) : alloc :=
  if Z.of_nat i + 1 =? nfixed then mk_alloc N_X_ARG_REG N_V_ARG_REG (nsaa a) true else a.

Fixpoint place_args (nfixed : Z) (i : nat) (cs : list cty) (a : alloc) : list place * alloc :=
  match cs with
  | [] => ([], a)
  | c :: cs =>
      let '(p, a) := place_arg c a in
      let '(ps, a) := place_args nfixed (S i) cs (after_arg nfixed i a) in
      (p :: ps, a)
  end.

(** The bytes the argument itself takes on the stack. *)
Definition stack_size (c : cty) : Z := if by_reference c then 8 else csize c.

(** A type an argument can have. *)
Definition arg_type_ok (c : cty) : Prop := cty_wf c = true ∧ c ≠ CScalar SVoid.

(** ** Refinement *)

Definition alloc_ok (a : alloc) : Prop := 0 ≤ ngrn a ≤ 8 ∧ 0 ≤ nsrn a ≤ 8 ∧ 0 ≤ nsaa a.

(** The C state that represents an abstract one. *)
Definition conc (a : alloc) (fi : option ABIFnInfo) : aa_state :=
  mk_aa_state (ngrn a) (nsrn a) (nsaa a) (va a) fi.

Lemma seqZ_S r n : seqZ r (Z.of_nat (S n)) = r :: seqZ (r + 1) (Z.of_nat n).
Proof.
  rewrite seqZ_cons by lia. f_equal. unfold Z.succ.
  by replace (Z.pred (Z.of_nat (S n))) with (Z.of_nat n) by lia.
Qed.

Lemma reg_seq_S r n : reg_seq r (Z.of_nat (S n)) = (r, 0) :: reg_seq (r + 1) (Z.of_nat n).
Proof. unfold reg_seq. by rewrite seqZ_S. Qed.

Lemma reg_seq_length r n : 0 ≤ n → Z.of_nat (length (reg_seq r n)) = n.
Proof. intros. unfold reg_seq. rewrite length_fmap, length_seqZ. lia. Qed.

Lemma reg_seq_ok r n : 0 < r → r + n ≤ 2 ^ 8 → pairs_ok (reg_seq r n).
Proof.
  intros. unfold pairs_ok, reg_seq. apply Forall_fmap, Forall_seqZ. simpl. lia.
Qed.

Lemma set_regs_from_pack tbl r0 base n k l s m :
  (∀ j, 0 ≤ j < 8 → tbl !! Z.to_nat j = Some (r0 + j)) →
  0 < r0 → r0 + 8 ≤ 2 ^ 8 → 0 ≤ base → base + k + Z.of_nat n ≤ 8 →
  pairs_ok l → k = Z.of_nat (length l) → k + Z.of_nat n ≤ 4 →
  set_regs_from tbl base k n (mkABIArgInfo (pack l) s m) =
    Ret (mkABIArgInfo (pack (l ++ reg_seq (r0 + base + k) (Z.of_nat n))) s m).
Proof.
  intros Htbl Hr0 Hr8 Hb. revert k l. induction n as [|n IH]; intros k l Hn Hl -> Hk.
  - simpl. unfold reg_seq. simpl. by rewrite app_nil_r.
  - cbn [set_regs_from]. unfold c_index. rewrite Htbl by lia.
    cbn [mbind outcome_bind]. rewrite te_set_reg_pack by (unfold in_u, fakeLocInfo, TE_NO_LOC_INFO; done || lia).
    cbn [mbind outcome_bind].
    assert (pairs_ok (l ++ [(r0 + (base + Z.of_nat (length l)), fakeLocInfo)])) as Hl'.
    { apply Forall_app. split; [done|]. apply Forall_singleton. unfold fakeLocInfo, TE_NO_LOC_INFO.
      simpl. lia. }
    rewrite IH; [|lia|done|rewrite length_app; simpl; lia|lia].
    rewrite reg_seq_S, <- app_assoc. simpl.
    replace (r0 + base + Z.of_nat (length l) + 1) with (r0 + base + (Z.of_nat (length l) + 1)) by lia.
    by replace (r0 + (base + Z.of_nat (length l))) with (r0 + base + Z.of_nat (length l)) by lia.
Qed.

Lemma gprcnt2reg_lookup j : 0 ≤ j < 8 → gprcnt2reg !! Z.to_nat j = Some (TE_X0 + j).
Proof.
  intros. assert (j = 0 ∨ j = 1 ∨ j = 2 ∨ j = 3 ∨ j = 4 ∨ j = 5 ∨ j = 6 ∨ j = 7) as Hj by lia.
  by destruct_or! Hj; subst.
Qed.

Lemma ssecnt2reg_lookup j : 0 ≤ j < 8 → ssecnt2reg !! Z.to_nat j = Some (TE_Q0 + j).
Proof.
  intros. assert (j = 0 ∨ j = 1 ∨ j = 2 ∨ j = 3 ∨ j = 4 ∨ j = 5 ∨ j = 6 ∨ j = 7) as Hj by lia.
  by destruct_or! Hj; subst.
Qed.

Lemma calign_le_8 c : calign c ≤ 8.
Proof.
  induction c as [s|fs IH] using cty_ind'; [by destruct s|].
  induction IH; [simpl; lia|]. rewrite calign_struct_cons. lia.
Qed.

(** An argument slot whose size was set and nothing else. *)
Definition sized (sz : Z) : ABIArgInfo := mkABIArgInfo 0 sz 0.

Lemma or_mask_indirect p sz : or_mask TE_MASK_INDIRECT (slot_info p false sz) = slot_info p true sz.
Proof. by destruct p. Qed.

Lemma hfa_inv c s n : hfa c = Some (s, n) → is_fp s = true ∧ 1 ≤ n ≤ 4.
Proof.
  unfold hfa. destruct (flatten c) as [|s' l]; [done|]. intros H. case_match; [|done].
  btests. simplify_eq. split; [done|]. simpl in *. lia.
Qed.

Lemma hfa_code_elems c s n : hfa c = Some (s, n) →
  (hfa_code c =? 0) = false ∧ 4 - Z.land (hfa_code c) 3 = n.
Proof.
  intros H. destruct (hfa_inv c s n H) as [Hs Hn]. unfold hfa_code. rewrite H.
  assert (n = 1 ∨ n = 2 ∨ n = 3 ∨ n = 4) as Hn' by lia.
  destruct_or! Hn'; subst n; by destruct s.
Qed.

Lemma regs_of_table tbl r0 base n sz :
  (∀ j, 0 ≤ j < 8 → tbl !! Z.to_nat j = Some (r0 + j)) →
  0 < r0 → r0 + 8 ≤ 2 ^ 8 → 0 ≤ base → base + n ≤ 8 → 0 ≤ n ≤ 4 →
  set_regs_from tbl base 0 (Z.to_nat n) (sized sz) =
    Ret (slot_info (InRegs (reg_seq (r0 + base) n)) false sz).
Proof.
  intros Htbl Hr0 Hr8 Hb Hbn Hn. change (sized sz) with (mkABIArgInfo (pack []) sz 0).
  rewrite (set_regs_from_pack tbl r0 base (Z.to_nat n) 0 []) by (done || lia || constructor).
  rewrite Z2Nat.id by lia. by rewrite Z.add_0_r.
Qed.

Lemma place_reg_bounds c : cty_wf c = true → hfa c = None → csize c ≤ 16 →
  1 ≤ (csize c + 7) / 8 ≤ 2.
Proof.
  intros Hw _ Hs. pose proof (csize_pos c Hw). split.
  - apply Z.div_le_lower_bound; lia.
  - apply Z.lt_succ_r, Z.div_lt_upper_bound; lia.
Qed.

Section step.
Context (fi : ABIFnInfo) (i : nat) (Hi : (i < length (ainfo fi))%nat).

Abbreviation at_slot a x := (conc a (Some (fi_at fi i x))).

Lemma pass_in_memory_refines al n sz a :
  alloc_ok a → pow2_align al → al ≤ 8 → 0 ≤ n → nsaa a + 8 + n < 2 ^ 32 →
  pass_in_memory al n i (at_slot a (sized sz)) =
    let '(p, a') := push_stack al n a in Ret (at_slot a' (slot_info p false sz)).
Proof.
  intros (? & ? & ?) Hal Hal8 Hn Hb. unfold pass_in_memory, push_stack.
  cbn [conc allocating_variadic aa_stack_offset aa_fnInfo aa_gprcount aa_ssecount].
  set (al' := if va a && (al <? 8) then 8 else al).
  assert (pow2_align al' ∧ al' ≤ 8) as [Hp Hle].
  { unfold al'. case_match; [|done]. split; [by exists 3|done]. }
  pose proof (pow2_align_pos _ Hp). pose proof (align_up_spec (nsaa a) al').
  rewrite FFI_ALIGN_ok by (done || lia). rewrite upd_arg_at by done.
  unfold or_mask. simpl. rewrite te_set_mem_zero; [|unfold in_u; lia|by unfold in_u].
  unfold conc. simpl. rewrite wrap_small by (unfold in_u; lia).
  done.
Qed.

Lemma alloc_one_gpr_refines al n sz a :
  alloc_ok a → pow2_align al → al ≤ 8 → 0 ≤ n → nsaa a + 8 + n < 2 ^ 32 →
  alloc_one_gpr al n i (at_slot a (sized sz)) =
    let '(p, a') := place_gprs 1 al n a in Ret (at_slot a' (slot_info p false sz)).
Proof.
  intros Ha Hal Hal8 Hn Hb. pose proof Ha as (? & ? & ?).
  unfold alloc_one_gpr, place_gprs, N_X_ARG_REG. cbn [conc aa_gprcount].
  destruct (Z.ltb_spec (ngrn a) 8).
  - rewrite (proj2 (Z.leb_le _ _)) by lia. cbn [conc aa_fnInfo]. rewrite upd_arg_at by done.
    unfold c_index. rewrite gprcnt2reg_lookup by lia. cbn [mbind outcome_bind].
    unfold sized. rewrite te_set_reg_first by (unfold in_u, TE_X0, fakeLocInfo, TE_NO_LOC_INFO; lia).
    done.
  - rewrite (proj2 (Z.leb_gt _ _)) by lia. rewrite pass_in_memory_refines by done.
    unfold push_stack. simpl. unfold aa_with_gpr, conc. simpl. done.
Qed.

Lemma alloc_composite_refines c a :
  cty_wf c = true → alloc_ok a → nsaa a + 8 + csize c + 8 < 2 ^ 32 →
  alloc_composite (laid c) i (at_slot a (sized (csize c))) =
    let '(p, a') := place_arg c a in Ret (at_slot a' (slot_info p (by_reference c) (csize c))).
Proof.
  intros Hw Ha Hb. pose proof Ha as (? & ? & ?).
  pose proof (calign_pow2 c Hw). pose proof (calign_le_8 c). pose proof (csize_pos c Hw).
  unfold alloc_composite, place_arg, by_reference.
  rewrite laid_size, laid_alignment, is_vfp_type_laid by done. cbn [mbind outcome_bind].
  destruct (hfa c) as [[s n]|] eqn:Hh.
  - destruct (hfa_code_elems _ _ _ Hh) as [-> ->]. destruct (hfa_inv _ _ _ Hh) as [_ Hn].
    cbn [negb]. cbv zeta. unfold place_vregs, N_V_ARG_REG. cbn [conc aa_ssecount].
    destruct (Z.leb_spec (nsrn a + n) 8).
    + cbn [aa_fnInfo conc]. rewrite upd_arg_at by done.
      rewrite (regs_of_table ssecnt2reg TE_Q0)
        by (intros; (by apply ssecnt2reg_lookup) || (unfold TE_Q0; lia)).
      done.
    + apply (pass_in_memory_refines _ _ _ (mk_alloc (ngrn a) 8 (nsaa a) (va a)));
        (done || (unfold alloc_ok; simpl; lia)).
  - unfold hfa_code. rewrite Hh. cbn [negb Z.eqb].
    destruct (Z.ltb_spec 16 (csize c)).
    + rewrite alloc_one_gpr_refines by (done || lia).
      destruct (place_gprs 1 (calign c) 8 a) as [p a']. cbn [mbind outcome_bind].
      cbn [conc aa_fnInfo]. rewrite upd_arg_at by done. simpl. by rewrite or_mask_indirect.
    + destruct (place_reg_bounds c Hw Hh) as [Hn1 Hn2]; [lia|].
      cbv zeta. unfold place_gprs, N_X_ARG_REG. cbn [conc aa_gprcount].
      destruct (Z.leb_spec (ngrn a + (csize c + 7) / 8) 8).
      * cbn [aa_fnInfo conc]. rewrite upd_arg_at by done.
        rewrite (regs_of_table gprcnt2reg TE_X0)
          by (intros; (by apply gprcnt2reg_lookup) || (unfold TE_X0; lia)).
        done.
      * apply (pass_in_memory_refines _ _ _ (mk_alloc 8 (nsrn a) (nsaa a) (va a)));
          (done || (unfold alloc_ok; simpl; lia)).
Qed.

Lemma aa_arg_refines nfixed c a :
  arg_type_ok c → alloc_ok a → nsaa a + 8 + csize c + 8 < 2 ^ 32 →
  aa_arg nfixed i (laid c) (at_slot a zero_arg_info) =
    let '(p, a') := place_arg c a in
    Ret (at_slot (after_arg nfixed i a') (slot_info p (by_reference c) (csize c))).
Proof.
  intros [Hw Hv] Ha Hb. pose proof Ha as (? & ? & ?). pose proof (csize_pos c Hw).
  unfold aa_arg. cbn [conc aa_fnInfo]. rewrite upd_arg_at by done.
  cbn [fmap outcome_fmap mbind outcome_bind]. unfold te_set_arg_size. simpl val. simpl mask.
  rewrite laid_size, laid_alignment. rewrite wrap_small by (unfold in_u; lia).
  change (aa_with_info _ _) with (at_slot a (sized (csize c))).
  assert (∀ st, st = (let '(p, a') := place_arg c a in
              Ret (at_slot a' (slot_info p (by_reference c) (csize c)))) →
            st ≫= (λ st, Ret (if Z.of_nat i + 1 =? nfixed
               then mk_aa_state N_X_ARG_REG N_V_ARG_REG (aa_stack_offset st) true (aa_fnInfo st)
               else st)) =
            (let '(p, a') := place_arg c a in
             Ret (at_slot (after_arg nfixed i a') (slot_info p (by_reference c) (csize c)))))
    as Hend.
  { intros st ->. destruct (place_arg c a) as [p a']. simpl. unfold after_arg.
    by destruct (_ =? nfixed). }
  apply Hend. clear Hend.
  destruct c as [s|fs].
  - assert (scalar_size s < 17) by (pose proof (scalar_size_range s); lia).
    destruct s; try done;
      first [by apply alloc_composite_refines | by apply alloc_one_gpr_refines; try done; try lia;
        apply scalar_size_pow2 | idtac].
  - by apply alloc_composite_refines.
Qed.
End step.

(** ** Where the allocator puts things *)

(** [p] takes only registers and stack bytes that [a] has free and [a'] has
    not. *)
Definition within (a : alloc) (p : place) (n al : Z) (a' : alloc) : Prop :=
  match p with
  | InRegs rs =>
      nsaa a' = nsaa a ∧ pairs_ok rs ∧ (1 ≤ length rs ≤ 4)%nat ∧
      ∀ r, r ∈ rs.*1 → TE_X0 + ngrn a ≤ r < TE_X0 + ngrn a' ∨ TE_Q0 + nsrn a ≤ r < TE_Q0 + nsrn a'
  | OnStack off info =>
      info = 0 ∧ nsaa a ≤ off < nsaa a + 8 ∧ off + n = nsaa a' ∧ (al | off) ∧ (va a = true → (8 | off))
  end.

Definition alloc_le (a a' : alloc) : Prop :=
  ngrn a ≤ ngrn a' ∧ nsrn a ≤ nsrn a' ∧ nsaa a ≤ nsaa a'.

#[export] Instance alloc_le_preorder : PreOrder alloc_le.
Proof. split; [intros ?; unfold alloc_le; lia|intros ???; unfold alloc_le; lia]. Qed.

Lemma reg_seq_elem r0 n r : r ∈ (reg_seq r0 n).*1 ↔ r0 ≤ r < r0 + n.
Proof.
  unfold reg_seq. rewrite <- list_fmap_compose.
  rewrite (list_fmap_ext _ id) by done. by rewrite list_fmap_id, elem_of_seqZ.
Qed.

Lemma push_stack_spec al n a p a' :
  pow2_align al → al ≤ 8 → 0 ≤ n → push_stack al n a = (p, a') →
  within a p n al a' ∧ place_is_mem p = true ∧
  a' = mk_alloc (ngrn a) (nsrn a) (nsaa a') (va a) ∧ nsaa a ≤ nsaa a'.
Proof.
  intros Hal Hal8 Hn [= <- <-]. simpl.
  set (al' := if va a && (al <? 8) then 8 else al).
  assert (pow2_align al' ∧ al' ≤ 8 ∧ al ≤ al' ∧ (va a = true → al' = 8)) as (Hp & Hle & Hle' & Hva).
  { unfold al'. destruct (va a), (Z.ltb_spec al 8); simpl; split_and!; try done; try lia;
      by exists 3. }
  pose proof (pow2_align_pos _ Hp) as Hpos.
  destruct (align_up_spec (nsaa a) al' Hpos) as [? Hdiv].
  split_and!; try done; try lia.
  - etrans; [by apply pow2_align_divide|done].
  - intros Hv. by rewrite <- (Hva Hv).
Qed.

Lemma place_gprs_spec k al n a p a' :
  alloc_ok a → 1 ≤ k ≤ 4 → pow2_align al → al ≤ 8 → 0 ≤ n → place_gprs k al n a = (p, a') →
  within a p n al a' ∧ alloc_ok a' ∧ alloc_le a a' ∧ va a' = va a.
Proof.
  intros (Hg & Hv & Hs) Hk Hal Hal8 Hn H. unfold place_gprs, N_X_ARG_REG in H.
  destruct (Z.leb_spec (ngrn a + k) 8).
  - injection H as <- <-. simpl. split_and!; unfold alloc_ok, alloc_le; simpl; try lia; try done.
    + apply reg_seq_ok; unfold TE_X0; lia.
    + pose proof (reg_seq_length (TE_X0 + ngrn a) k). lia.
    + pose proof (reg_seq_length (TE_X0 + ngrn a) k). lia.
    + intros r Hr%reg_seq_elem. lia.
  - apply push_stack_spec in H as (Hw & Hm & -> & Hle); [|done..].
    split_and!; unfold alloc_ok, alloc_le; simpl in *; try lia; try done.
    destruct p; [done|]. naive_solver.
Qed.

Lemma place_vregs_spec k al n a p a' :
  alloc_ok a → 1 ≤ k ≤ 4 → pow2_align al → al ≤ 8 → 0 ≤ n → place_vregs k al n a = (p, a') →
  within a p n al a' ∧ alloc_ok a' ∧ alloc_le a a' ∧ va a' = va a.
Proof.
  intros (Hg & Hv & Hs) Hk Hal Hal8 Hn H. unfold place_vregs, N_V_ARG_REG in H.
  destruct (Z.leb_spec (nsrn a + k) 8).
  - injection H as <- <-. simpl. split_and!; unfold alloc_ok, alloc_le; simpl; try lia; try done.
    + apply reg_seq_ok; unfold TE_Q0; lia.
    + pose proof (reg_seq_length (TE_Q0 + nsrn a) k). lia.
    + pose proof (reg_seq_length (TE_Q0 + nsrn a) k). lia.
    + intros r Hr%reg_seq_elem. lia.
  - apply push_stack_spec in H as (Hw & Hm & -> & Hle); [|done..].
    split_and!; unfold alloc_ok, alloc_le; simpl in *; try lia; try done.
    destruct p; [done|]. naive_solver.
Qed.

Lemma place_arg_spec c a p a' :
  cty_wf c = true → alloc_ok a → place_arg c a = (p, a') →
  within a p (stack_size c) (calign c) a' ∧ alloc_ok a' ∧ alloc_le a a' ∧ va a' = va a.
Proof.
  intros Hw Ha H. pose proof (calign_pow2 c Hw). pose proof (calign_le_8 c).
  pose proof (csize_pos c Hw). unfold place_arg in H. unfold stack_size, by_reference.
  destruct (hfa c) as [[s n]|] eqn:Hh.
  - destruct (hfa_inv _ _ _ Hh). eapply place_vregs_spec; [..|exact H]; (done || lia).
  - destruct (Z.ltb_spec 16 (csize c)).
    + eapply place_gprs_spec; [..|exact H]; (done || lia).
    + destruct (place_reg_bounds c Hw Hh) as [? ?]; [lia|].
      eapply place_gprs_spec; [..|exact H]; (done || lia).
Qed.

Lemma after_arg_le nfixed i a : alloc_ok a → alloc_le a (after_arg nfixed i a).
Proof.
  intros (? & ? & ?). unfold after_arg, alloc_le. case_match; simpl; [|lia].
  unfold N_X_ARG_REG, N_V_ARG_REG. lia.
Qed.

Lemma after_arg_ok nfixed i a : alloc_ok a → alloc_ok (after_arg nfixed i a).
Proof.
  intros Ha. pose proof Ha as (? & ? & ?). unfold after_arg, alloc_ok.
  case_match; simpl; [unfold N_X_ARG_REG, N_V_ARG_REG; lia|done].
Qed.

Lemma after_arg_nsaa nfixed i a : nsaa (after_arg nfixed i a) = nsaa a.
Proof. unfold after_arg. by case_match. Qed.

#[export] Hint Resolve after_arg_ok after_arg_le : iqemu.

(** ** All arguments *)

(** The stack bytes the arguments can take with their padding. *)
Definition stack_room (cs : list cty) : Z := foldr (λ c n, csize c + 16 + n) 0 cs.

Definition arg_infos (cs : list cty) (ps : list place) : list ABIArgInfo :=
  zip_with (λ c p, slot_info p (by_reference c) (csize c)) cs ps.

Lemma place_arg_room c a p a' :
  cty_wf c = true → alloc_ok a → place_arg c a = (p, a') → nsaa a' ≤ nsaa a + csize c + 16.
Proof.
  intros Hw Ha H. destruct (place_arg_spec _ _ _ _ Hw Ha H) as (Hwi & _).
  pose proof (csize_pos c Hw). assert (stack_size c ≤ csize c + 8).
  { unfold stack_size. case_match; lia. }
  destruct p; simpl in Hwi; [lia|naive_solver lia].
Qed.

Lemma stack_room_nonneg cs : Forall arg_type_ok cs → 0 ≤ stack_room cs.
Proof.
  induction 1 as [|c cs [Hw _] _ IH]; simpl; [lia|]. pose proof (csize_pos c Hw). lia.
Qed.

Lemma aa_args_refines nfixed cs i a fi pre :
  Forall arg_type_ok cs → alloc_ok a → i = length pre →
  ainfo fi = pre ++ replicate (length cs) zero_arg_info →
  nsaa a + stack_room cs < 2 ^ 32 →
  aa_args nfixed i (map laid cs) (conc a (Some fi)) =
    let '(ps, a') := place_args nfixed i cs a in
    Ret (conc a' (Some (set_ainfo (pre ++ arg_infos cs ps) fi))).
Proof.
  intros Hcs. revert i a fi pre.
  induction Hcs as [|c cs Hc Hcs IH]; intros i a fi pre Ha -> Hfi Hroom.
  - simpl in *. rewrite <- Hfi. by destruct fi.
  - cbn [map aa_args place_args]. pose proof Hc as [Hw _].
    pose proof (stack_room_nonneg _ Hcs). cbn [stack_room foldr] in Hroom.
    fold (stack_room cs) in Hroom. simpl in Hfi.
    assert (ainfo fi !! length pre = Some zero_arg_info) as Hz
      by (rewrite Hfi; by apply list_lookup_middle).
    rewrite <- (fi_at_id fi (length pre) zero_arg_info Hz) at 1.
    rewrite aa_arg_refines by (done || lia || by eapply lookup_lt_Some).
    destruct (place_arg c a) as [p a1] eqn:Hp. cbn [mbind outcome_bind].
    destruct (place_arg_spec _ _ _ _ Hw Ha Hp) as (_ & Ha1 & _ & _).
    pose proof (place_arg_room _ _ _ _ Hw Ha Hp).
    erewrite (IH _ _ _ (pre ++ [slot_info p (by_reference c) (csize c)]));
      [|auto with iqemu|rewrite length_app; simpl; lia| |rewrite after_arg_nsaa; lia].
    + destruct (place_args _ _ cs _) as [ps a2]. unfold fi_at. simpl. by rewrite <- app_assoc.
    + unfold fi_at. simpl. rewrite Hfi.
      rewrite insert_app_r_alt, Nat.sub_diag by lia. simpl. by rewrite <- app_assoc.
Qed.

Lemma place_args_length nfixed cs i a : length (place_args nfixed i cs a).1 = length cs.
Proof.
  revert i a. induction cs as [|c cs IH]; intros i a; simpl; [done|].
  destruct (place_arg c a) as [p a1]. specialize (IH (S i) (after_arg nfixed i a1)).
  destruct (place_args _ _ cs _). simpl in *. by rewrite IH.
Qed.

(** What is still free in [a]. *)
Definition beyond (a : alloc) (p : place) : Prop :=
  match p with
  | InRegs rs => ∀ r, r ∈ rs.*1 →
      TE_X0 + ngrn a ≤ r < TE_X0 + 8 ∨ TE_Q0 + nsrn a ≤ r < TE_Q0 + 8
  | OnStack off _ => nsaa a ≤ off
  end.

Lemma within_beyond a b p n al b' :
  alloc_ok b' → alloc_le a b → within b p n al b' → beyond a p.
Proof.
  intros (? & ? & ?) (? & ? & ?) Hwi. destruct p; simpl in *; [|lia].
  intros r Hr. apply Hwi in Hr. lia.
Qed.

Lemma beyond_le a a' p : alloc_le a a' → beyond a' p → beyond a p.
Proof.
  intros (? & ? & ?). destruct p; simpl; [|lia]. intros Hin r Hr. apply Hin in Hr. lia.
Qed.

Lemma within_beyond_disjoint a p n al a' p' n' :
  alloc_ok a → alloc_ok a' → within a p n al a' → beyond a' p' → place_disjoint p n p' n'.
Proof.
  intros (? & ? & ?) (? & ? & ?). destruct p, p'; simpl; try done; [|lia].
  intros (_ & _ & _ & Hin) Hin' r Hr%Hin Hr'%Hin'. unfold TE_X0, TE_Q0 in *. lia.
Qed.

(** One step of the allocation, for inductions over [place_args]. *)
Lemma place_args_step nfixed c cs i a :
  arg_type_ok c → alloc_ok a →
  ∃ p a1, place_args nfixed i (c :: cs) a =
      (p :: (place_args nfixed (S i) cs (after_arg nfixed i a1)).1,
       (place_args nfixed (S i) cs (after_arg nfixed i a1)).2) ∧
    place_arg c a = (p, a1) ∧ within a p (stack_size c) (calign c) a1 ∧ alloc_ok a1 ∧
    alloc_le a a1 ∧ va a1 = va a ∧ alloc_ok (after_arg nfixed i a1) ∧
    alloc_le a1 (after_arg nfixed i a1).
Proof.
  intros [Hw _] Ha. destruct (place_arg c a) as [p a1] eqn:Hp. exists p, a1.
  destruct (place_arg_spec _ _ _ _ Hw Ha Hp) as (? & ? & ? & ?).
  simpl. rewrite Hp. destruct (place_args _ _ cs _). split_and!; auto with iqemu.
Qed.

Lemma place_args_ok nfixed cs i a :
  Forall arg_type_ok cs → alloc_ok a →
  alloc_ok (place_args nfixed i cs a).2 ∧ alloc_le a (place_args nfixed i cs a).2 ∧
  Forall (beyond a) (place_args nfixed i cs a).1.
Proof.
  intros Hcs. revert i a. induction Hcs as [|c cs Hc Hcs IH]; intros i a Ha; [done|].
  destruct (place_args_step nfixed c cs i a Hc Ha)
    as (p & a1 & -> & _ & Hwi & Ha1 & Hle1 & _ & Ha2 & Hle2).
  destruct (IH (S i) _ Ha2) as (? & ? & Hb). simpl. split_and!; [done|by etrans; [|etrans]|].
  constructor; [by eapply (within_beyond a a); [exact Ha1|reflexivity|]|].
  eapply Forall_impl; [exact Hb|]. intros p'. apply beyond_le. by etrans.
Qed.

Lemma place_args_room nfixed cs i a :
  Forall arg_type_ok cs → alloc_ok a →
  nsaa (place_args nfixed i cs a).2 ≤ nsaa a + stack_room cs.
Proof.
  intros Hcs. revert i a. induction Hcs as [|c cs Hc Hcs IH]; intros i a Ha; [simpl; lia|].
  destruct (place_args_step nfixed c cs i a Hc Ha)
    as (p & a1 & -> & Hp & _ & Ha1 & _ & _ & Ha2 & _). destruct Hc as [Hw _].
  pose proof (place_arg_room _ _ _ _ Hw Ha Hp). specialize (IH (S i) _ Ha2).
  rewrite after_arg_nsaa in IH. simpl. fold (stack_room cs). lia.
Qed.

(** Each argument takes what is free at its turn. *)
Lemma place_args_at nfixed cs i a j c p :
  Forall arg_type_ok cs → alloc_ok a →
  cs !! j = Some c → (place_args nfixed i cs a).1 !! j = Some p →
  ∃ b b', alloc_le a b ∧ alloc_le b' (place_args nfixed i cs a).2 ∧
    alloc_ok b ∧ alloc_ok b' ∧ within b p (stack_size c) (calign c) b'.
Proof.
  intros Hcs. revert i a j. induction Hcs as [|c0 cs Hc Hcs IH]; intros i a j Ha Hj Hp; [done|].
  destruct (place_args_step nfixed c0 cs i a Hc Ha)
    as (p0 & a1 & Heq & _ & Hwi & Ha1 & Hle1 & _ & Ha2 & Hle2).
  destruct (place_args_ok nfixed cs (S i) _ Hcs Ha2) as (? & ? & _).
  rewrite Heq in Hp |- *. destruct j as [|j]; simpl in *; simplify_eq.
  - exists a, a1. split_and!; try done. by etrans.
  - destruct (IH (S i) _ j Ha2 Hj Hp) as (b & b' & ? & ? & ? & ? & ?).
    exists b, b'. split_and!; try done. by etrans; [|etrans].
Qed.

Lemma place_args_disjoint nfixed cs i a j k c c' p p' :
  Forall arg_type_ok cs → alloc_ok a → (j < k)%nat →
  cs !! j = Some c → (place_args nfixed i cs a).1 !! j = Some p →
  cs !! k = Some c' → (place_args nfixed i cs a).1 !! k = Some p' →
  place_disjoint p (stack_size c) p' (stack_size c').
Proof.
  intros Hcs. revert i a j k.
  induction Hcs as [|c0 cs Hc Hcs IH]; intros i a j k Ha Hjk Hj Hp Hk Hp'; [done|].
  destruct (place_args_step nfixed c0 cs i a Hc Ha)
    as (p0 & a1 & Heq & _ & Hwi & Ha1 & Hle1 & _ & Ha2 & Hle2).
  rewrite Heq in Hp, Hp'. destruct k as [|k]; [lia|]. destruct j as [|j]; simpl in *; simplify_eq.
  - destruct (place_args_ok nfixed cs (S i) _ Hcs Ha2) as (_ & _ & Hb).
    eapply within_beyond_disjoint; [exact Ha|exact Ha1|done|].
    eapply beyond_le; [exact Hle2|]. by eapply Forall_lookup_1.
  - eapply (IH (S i) _ j k); eauto. lia.
Qed.

(** No register is left and the variadic rules apply. *)
Definition exhausted (a : alloc) : Prop := va a = true ∧ ngrn a = 8 ∧ nsrn a = 8.

Lemma place_arg_exhausted c a p a' : arg_type_ok c → alloc_ok a → exhausted a →
  place_arg c a = (p, a') → exhausted a' ∧ ∃ off, p = OnStack off 0 ∧ (8 | off).
Proof.
  intros [Hw _] Ha (Hva & Hg & Hs) H.
  destruct (place_arg_spec _ _ _ _ Hw Ha H) as (Hwi & (? & ? & _) & (? & ? & _) & Hva').
  split; [split_and!; [congruence|lia..]|].
  destruct p as [rs|off info]; simpl in Hwi.
  - destruct Hwi as (_ & _ & Hlen & Hr). destruct rs as [|[r x] rs]; [simpl in Hlen; lia|].
    assert (r ∈ ((r, x) :: rs).*1) as Hin by (simpl; left).
    apply Hr in Hin. lia.
  - destruct Hwi as (-> & _ & _ & _ & H8). eauto.
Qed.

Lemma place_args_exhausted nfixed cs i a :
  Forall arg_type_ok cs → alloc_ok a → exhausted a →
  Forall (λ p, ∃ off, p = OnStack off 0 ∧ (8 | off)) (place_args nfixed i cs a).1.
Proof.
  intros Hcs. revert i a. induction Hcs as [|c cs Hc Hcs IH]; intros i a Ha Hex; [constructor|].
  destruct (place_args_step nfixed c cs i a Hc Ha)
    as (p & a1 & -> & Hp & _ & Ha1 & _ & _ & Ha2 & _).
  destruct (place_arg_exhausted _ _ _ _ Hc Ha Hex Hp) as [Hex1 ?]. simpl.
  constructor; [done|]. apply IH; [done|]. unfold after_arg. by case_match.
Qed.

Lemma place_args_variadic nfixed cs i a j p :
  Forall arg_type_ok cs → alloc_ok a → Z.of_nat i < nfixed ≤ Z.of_nat (i + j) →
  (place_args nfixed i cs a).1 !! j = Some p → ∃ off, p = OnStack off 0 ∧ (8 | off).
Proof.
  intros Hcs. revert i a j. induction Hcs as [|c cs Hc Hcs IH]; intros i a j Ha Hn Hj; [done|].
  destruct (place_args_step nfixed c cs i a Hc Ha)
    as (p0 & a1 & Heq & Hp & _ & Ha1 & _ & _ & Ha2 & _).
  rewrite Heq in Hj. destruct j as [|j]; [lia|]. simpl in Hj.
  destruct (decide (nfixed = Z.of_nat i + 1)) as [->|Hne].
  - pose proof (place_args_exhausted (Z.of_nat i + 1) cs (S i) _ Hcs Ha2) as Hall.
    rewrite Forall_lookup in Hall. eapply Hall; [|exact Hj].
    unfold after_arg. by rewrite Z.eqb_refl.
  - apply (IH (S i) _ j Ha2); [lia|done].
Qed.

(** ** The return value *)

Definition aa_ret_place (c : cty) : place :=
  match hfa c with
  | Some (SFloat, n) => InRegs (reg_seq TE_S0 n)
  | Some (_, n) => InRegs (reg_seq TE_D0 n)
  | None =>
      if 16 <? csize c then InRegs (reg_seq TE_X8 1) else
      match c with
      | CScalar SVoid => InRegs []
      | CScalar _ => InRegs (reg_seq (if csize c <? 8 then TE_W0 else TE_X0) 1)
      | CStruct _ => InRegs (reg_seq TE_X0 (if csize c =? 8 then 1 else 2))
      end
  end.

Lemma aa_set_ret_hfa s n : is_fp s = true → 1 ≤ n ≤ 4 →
  aa_set_ret (encode_hfa (scalar_code s) n) zero_arg_info =
    Ret (slot_info (InRegs (reg_seq (if decide (s = SFloat) then TE_S0 else TE_D0) n)) false 0).
Proof.
  intros Hs Hn. assert (n = 1 ∨ n = 2 ∨ n = 3 ∨ n = 4) as Hn' by lia.
  destruct_or! Hn'; subst n; by destruct s.
Qed.

Lemma aa_ret_refines c : cty_wf c = true →
  ∃ flags, aa_ret_flags (laid c) = Ret (flags, by_reference c) ∧
    aa_set_ret flags zero_arg_info = Ret (slot_info (aa_ret_place c) (by_reference c) 0).
Proof.
  intros Hw. destruct c as [s|fs]; [destruct s; eexists; split; vm_compute; reflexivity|].
  unfold aa_ret_flags, by_reference, aa_ret_place.
  rewrite is_vfp_type_laid, laid_size by done. cbn [laid ty_type mbind outcome_bind].
  unfold hfa_code. destruct (hfa (CStruct fs)) as [[s n]|] eqn:Hh.
  - destruct (hfa_inv _ _ _ Hh) as [Hs Hn]. pose proof (hfa_code_elems _ _ _ Hh) as [Hnz _].
    unfold hfa_code in Hnz. rewrite Hh in Hnz. rewrite Hnz.
    eexists. split; [done|]. rewrite aa_set_ret_hfa by done. by destruct s.
  - simpl (0 =? 0). cbv iota. destruct (16 <? _); [by eexists|].
    destruct (Z.eqb_spec (csize (CStruct fs)) 16) as [->|]; [by eexists|].
    by destruct (csize (CStruct fs) =? 8); eexists.
Qed.

(** ** The whole of [my_aa_fi_prep_cif] *)

(** The description of a function in the AArch64 convention. *)
Definition aa_fn_info (nfixed : Z) (rt : cty) (cs : list cty) : ABIFnInfo :=
  let '(ps, a) := place_args nfixed 0 cs alloc0 in
  mkABIFnInfo (arg_infos cs ps) (slot_info (aa_ret_place rt) (by_reference rt) 0)
    None None (Z.of_nat (length cs)) (nsaa a) 0 0 0.

(** A prototype whose types are proper and whose arguments fit the 32-bit
    offsets of the description. *)
Definition proto_ok (rt : cty) (cs : list cty) : Prop :=
  cty_wf rt = true ∧ csize rt < 2 ^ 62 ∧ Forall arg_type_ok cs ∧ stack_room cs < 2 ^ 31.

Lemma stack_room_elem cs c : Forall arg_type_ok cs → c ∈ cs → csize c ≤ stack_room cs.
Proof.
  intros Hcs. induction Hcs as [|d cs Hd Hcs IH]; intros Hin; [by apply not_elem_of_nil in Hin|].
  pose proof (stack_room_nonneg _ Hcs). destruct Hd as [Hw _]. pose proof (csize_pos d Hw).
  apply elem_of_cons in Hin as [->|Hin]; simpl; fold (stack_room cs); [lia|].
  specialize (IH Hin). lia.
Qed.

Lemma aa_core_args_fresh cs n : Forall (λ c, cty_wf c = true ∧ csize c < 2 ^ 62) cs →
  ∃ n', aa_core_args (map fresh cs) n = Some (map laid cs, n').
Proof.
  intros Hcs. revert n. induction Hcs as [|c cs [Hw Hs] _ IH]; intros n; [by eexists|].
  simpl. rewrite init_fresh by done.
  match goal with |- context [aa_core_args _ ?n] => destruct (IH n) as [n' ->] end. by eexists.
Qed.

Lemma aa_core_args_bad cs n : Exists (λ c, cty_wf c = false) cs →
  aa_core_args (map fresh cs) n = None.
Proof.
  intros H. revert n. induction H as [c cs Hc|c cs _ IH]; intros n; simpl.
  - by rewrite init_fresh_bad.
  - destruct (init_type (fresh c)); [|done]. by rewrite IH.
Qed.

Lemma aa_machdep_refines nfixed rt cs cif :
  proto_ok rt cs → aa_rtype cif = laid rt → aa_arg_types cif = map laid cs →
  aarch64_nfixedargs cif = nfixed →
  ∃ cif', my_aa_fi_prep_cif_machdep cif (Some (zero_fn_info (length cs))) =
      Ret (FFI_OK, cif', Some (aa_fn_info nfixed rt cs)) ∧
    aa_arg_types cif' = map laid cs ∧ aa_rtype cif' = laid rt.
Proof.
  intros (Hrt & _ & Hcs & Hroom) Hr Hat Hnf. unfold my_aa_fi_prep_cif_machdep, aa_fn_info.
  destruct (aa_ret_refines rt Hrt) as (flags & Hfl & Hset).
  rewrite Hr, Hfl, Hat, Hnf. cbn [mbind outcome_bind upd_ret zero_fn_info rinfo]. rewrite Hset.
  cbn [mbind outcome_bind]. change (mk_aa_state 0 0 0 false) with (conc alloc0).
  assert (alloc_ok alloc0) as Ha0 by (unfold alloc_ok; simpl; lia).
  destruct (place_args_ok nfixed cs 0 alloc0 Hcs Ha0) as ((_ & _ & Hok) & _ & _).
  pose proof (place_args_room nfixed cs 0 alloc0 Hcs Ha0) as Hb.
  rewrite (aa_args_refines nfixed cs 0 alloc0 _ []) by (done || simpl; lia).
  destruct (place_args nfixed 0 cs alloc0) as [ps a]. simpl in *. eexists.
  rewrite sext_small by (simpl; lia). split; [done|]. split; [done|]. done.
Qed.

Lemma proto_types_ok rt cs : proto_ok rt cs →
  Forall (λ c, cty_wf c = true ∧ csize c < 2 ^ 62) cs.
Proof.
  intros (_ & _ & Hcs & Hroom). apply Forall_forall. intros c Hc.
  pose proof (stack_room_elem cs c Hcs Hc). rewrite Forall_forall in Hcs.
  destruct (Hcs c Hc) as [Hw _]. split; [done|lia].
Qed.

Lemma aa_core_refines (isvariadic : bool) nfixed rt cs :
  proto_ok rt cs → (if isvariadic then 1 else 0) ≤ nfixed ≤ Z.of_nat (length cs) →
  ∃ cif, my_aa_fi_prep_cif_core AA_FI_DEFAULT_ABI isvariadic nfixed (Z.of_nat (length cs))
           (fresh rt) (map fresh cs) (Some (zero_fn_info (length cs))) =
      Ret (FFI_OK, cif, Some (aa_fn_info (if isvariadic then nfixed else 0) rt cs)) ∧
    aa_arg_types cif = map laid cs ∧ aa_rtype cif = laid rt.
Proof.
  intros Hok Hn. pose proof Hok as (Hrt & Hrs & _ & _). unfold my_aa_fi_prep_cif_core.
  rewrite (proj2 (Z.leb_le nfixed _)) by lia.
  assert (negb isvariadic || (1 <=? nfixed) = true) as ->
    by (destruct isvariadic; [apply Z.leb_le; lia|done]).
  cbn [c_assert mbind outcome_bind]. change (negb _) with false. cbv iota.
  rewrite init_fresh by done. unfold arg_array. rewrite length_map, (proj2 (Z.leb_le _ _)) by lia.
  rewrite take_ge by (rewrite length_map; lia). cbn [mbind outcome_bind]. cbv zeta.
  match goal with |- context [aa_core_args _ ?n] =>
    destruct (aa_core_args_fresh cs n (proto_types_ok rt cs Hok)) as [n' ->] end.
  destruct isvariadic; [unfold my_aa_fi_prep_cif_machdep_var|]; by apply aa_machdep_refines.
Qed.

(** The same on descriptors that already have their layout. *)
Lemma aa_core_args_laid cs n : Forall (λ c, cty_wf c = true ∧ csize c < 2 ^ 62) cs →
  aa_core_args (map laid cs) n = aa_core_args (map fresh cs) n.
Proof.
  intros Hcs. revert n. induction Hcs as [|c cs [Hw Hs] _ IH]; intros n; [done|]. simpl.
  rewrite init_fresh, init_type_laid by done. by rewrite IH.
Qed.

Lemma aa_core_laid isvariadic nfixed rt cs fi cif r : proto_ok rt cs →
  my_aa_fi_prep_cif_core AA_FI_DEFAULT_ABI isvariadic nfixed (Z.of_nat (length cs))
    (fresh rt) (map fresh cs) fi = Ret (FFI_OK, cif, r) →
  my_aa_fi_prep_cif_core AA_FI_DEFAULT_ABI isvariadic nfixed (Z.of_nat (length cs))
    (laid rt) (map laid cs) fi = Ret (FFI_OK, cif, r).
Proof.
  intros Hok. pose proof Hok as (Hrt & Hrs & _ & _). unfold my_aa_fi_prep_cif_core.
  destruct (c_assert _); [|done]. destruct (c_assert _); [|done]. cbn [mbind outcome_bind].
  change (negb _) with false. cbv iota. rewrite init_fresh, init_type_laid by done. unfold arg_array.
  rewrite !length_map, Z.leb_refl, !take_ge by (rewrite length_map; lia). cbn [mbind outcome_bind]. cbv zeta.
  rewrite aa_core_args_laid by (by eapply proto_types_ok). by destruct (aa_core_args _ _) as [[]|].
Qed.

(** The arguments of a description, place by place. *)
Lemma aa_fn_info_lookup nfixed rt cs j c :
  proto_ok rt cs → cs !! j = Some c →
  ∃ p b b', ainfo (aa_fn_info nfixed rt cs) !! j = Some (slot_info p (by_reference c) (csize c)) ∧
    (place_args nfixed 0 cs alloc0).1 !! j = Some p ∧ place_ok p ∧
    within b p (stack_size c) (calign c) b' ∧ alloc_ok b ∧
    nsaa b' ≤ bytes (aa_fn_info nfixed rt cs).
Proof.
  intros (_ & _ & Hcs & Hroom) Hj. unfold aa_fn_info.
  assert (alloc_ok alloc0) as Ha0 by (unfold alloc_ok; simpl; lia).
  pose proof (place_args_length nfixed cs 0 alloc0) as Hlen.
  pose proof (place_args_room nfixed cs 0 alloc0 Hcs Ha0) as Hr.
  destruct (lookup_lt_is_Some_2 (place_args nfixed 0 cs alloc0).1 j) as [p Hp];
    [rewrite Hlen; by eapply lookup_lt_Some|].
  destruct (place_args_at nfixed cs 0 alloc0 j c p Hcs Ha0 Hj Hp)
    as (b & b' & _ & (_ & _ & Hb') & Hb & (_ & _ & Hb0) & Hwi).
  destruct (place_args nfixed 0 cs alloc0) as [ps a]. simpl in *.
  exists p, b, b'. split_and!; try done.
  - unfold arg_infos. by rewrite lookup_zip_with, Hj, Hp.
  - assert (0 ≤ stack_size c).
    { unfold stack_size. destruct (by_reference c); [lia|]. rewrite Forall_lookup in Hcs.
      destruct (Hcs _ _ Hj) as [Hw _]. pose proof (csize_pos c Hw). lia. }
    destruct Hb as (_ & _ & ?). destruct p; simpl in Hwi |- *; [naive_solver lia|].
    unfold in_u. naive_solver lia.
Qed.

(** What [my_aa_fi_prep_cif] and [my_aa_fi_prep_cif_var] return is that
    description. *)
Definition aa_prepared (isvariadic : bool) (nfixed : Z) (rt : cty) (cs : list cty)
    (fi : ABIFnInfo) : Prop :=
  (if isvariadic then 1 else 0) ≤ nfixed ≤ Z.of_nat (length cs) ∧
  ∃ cif, my_aa_fi_prep_cif_core AA_FI_DEFAULT_ABI isvariadic nfixed (Z.of_nat (length cs))
    (fresh rt) (map fresh cs) (Some (zero_fn_info (length cs))) = Ret (FFI_OK, cif, Some fi).

Lemma aa_prepared_eq isvariadic nfixed rt cs fi :
  proto_ok rt cs → aa_prepared isvariadic nfixed rt cs fi →
  fi = aa_fn_info (if isvariadic then nfixed else 0) rt cs.
Proof.
  intros H [Hn [cif Hcif]]. destruct (aa_core_refines isvariadic nfixed rt cs H Hn) as (? & Heq & _).
  rewrite Hcif in Heq. by injection Heq.
Qed.

(** ** Properties *)

Ltac solve_proto := unfold proto_ok, arg_type_ok; split_and!; try done; repeat constructor; done.


(** C34.  With [nfixed] named arguments, [my_aa_fi_prep_cif_var] writes the
    allocator's description and every argument after the named ones is
    described as a stack slot at a multiple of 8, none in a register. *)
Theorem aa_prep_cif_var_refines nfixed rt cs :
  proto_ok rt cs → 1 ≤ nfixed ≤ Z.of_nat (length cs) →
  ∃ cif fi, my_aa_fi_prep_cif_var AA_FI_DEFAULT_ABI nfixed (Z.of_nat (length cs)) (fresh rt)
      (map fresh cs) (Some (zero_fn_info (length cs))) = Ret (FFI_OK, cif, Some fi) ∧
    fi = aa_fn_info nfixed rt cs ∧
    ∀ j x, nfixed ≤ Z.of_nat j → ainfo fi !! j = Some x →
      te_is_mem x = true ∧ (8 | te_get_mem x).
Proof.
  intros H Hn. destruct (aa_core_refines true nfixed rt cs H Hn) as (cif & Hcif & _).
  exists cif, (aa_fn_info nfixed rt cs). split; [exact Hcif|]. split; [done|]. intros j x Hj Hx.
  destruct (cs !! j) as [c|] eqn:Hc.
  - destruct (aa_fn_info_lookup nfixed rt cs j c H Hc) as (p & b & b' & Hx' & Hp & Hok & _).
    rewrite Hx in Hx'. injection Hx' as ->. destruct H as (_ & _ & Hcs & _).
    destruct (place_args_variadic nfixed cs 0 alloc0 j p Hcs) as (off & -> & Hoff);
      [unfold alloc_ok; simpl; lia|simpl; lia|done|].
    destruct (slot_info_decodes _ (by_reference c) (csize c) Hok) as (_ & _ & -> & -> & _). done.
  - exfalso. apply lookup_lt_Some in Hx. apply lookup_ge_None in Hc.
    pose proof (place_args_length nfixed cs 0 alloc0) as Hl. unfold aa_fn_info in Hx.
    destruct (place_args _ _ _ _). simpl in *. unfold arg_infos in Hx.
    rewrite length_zip_with in Hx. lia.
Qed.

(** C25.  In the description that the variadic or the ordinary entry point
    writes, two different arguments never share a register or a stack byte. *)
Theorem aa_arguments_disjoint isvariadic nfixed rt cs fi j k c c' x y :
  proto_ok rt cs → aa_prepared isvariadic nfixed rt cs fi →
  j ≠ k → cs !! j = Some c → cs !! k = Some c' →
  ainfo fi !! j = Some x → ainfo fi !! k = Some y →
  slots_disjoint x (stack_size c) y (stack_size c').
Proof.
  intros H ->%aa_prepared_eq Hjk Hc Hc' Hx Hy; [|done]. revert Hx Hy.
  set (nf := if isvariadic then nfixed else 0). intros Hx Hy.
  destruct (aa_fn_info_lookup nf rt cs j c H Hc) as (p & ? & ? & Hx' & Hp & Hok & _).
  destruct (aa_fn_info_lookup nf rt cs k c' H Hc') as (q & ? & ? & Hy' & Hq & Hok' & _).
  rewrite Hx in Hx'. rewrite Hy in Hy'. simplify_eq. destruct H as (_ & _ & Hcs & _).
  assert (alloc_ok alloc0) as Ha0 by (unfold alloc_ok; simpl; lia).
  eapply decodes_disjoint; [by apply slot_info_decodes..|].
  destruct (decide (j < k)%nat).
  - by eapply (place_args_disjoint nf cs 0 alloc0 j k).
  - apply place_disjoint_sym. eapply (place_args_disjoint nf cs 0 alloc0 k j); eauto. lia.
Qed.

(** C40.  Each argument is described with its size, and either by one to four
    registers or by a stack slot that is aligned for its type and ends within
    the [bytes] of the description; exactly the arguments of more than 16
    bytes that are no HFA are marked indirect. *)
Theorem aa_arguments_in_bounds isvariadic nfixed rt cs fi j c x :
  proto_ok rt cs → aa_prepared isvariadic nfixed rt cs fi →
  cs !! j = Some c → ainfo fi !! j = Some x →
  te_get_arg_size x = csize c ∧ te_is_indirect x = by_reference c ∧
  if te_is_mem x
  then (calign c | te_get_mem x) ∧ 0 ≤ te_get_mem x ∧ te_get_mem x + stack_size c ≤ bytes fi
  else 1 ≤ te_num_of_reg x ≤ 4.
Proof.
  intros H ->%aa_prepared_eq Hc Hx; [|done].
  destruct (aa_fn_info_lookup (if isvariadic then nfixed else 0) rt cs j c H Hc)
    as (p & b & b' & Hx' & Hp & Hok & Hwi & (_ & _ & Hb) & Hle).
  rewrite Hx in Hx'. injection Hx' as ->.
  destruct (slot_info_decodes _ (by_reference c) (csize c) Hok) as (-> & -> & -> & Hd).
  split_and!; [done..|]. destruct p as [rs|off info]; simpl in Hd, Hwi |- *.
  - destruct Hd as [-> _]. lia.
  - destruct Hd as [-> _], Hwi as (_ & ? & ? & ? & _). split_and!; [done|lia..].
Qed.

(** A prototype that mentions a structure without members is rejected
    with [FFI_BAD_TYPEDEF], whether it is the return type or an argument. *)
Theorem aa_prep_cif_bad_typedef rt cs fi :
  csize rt < 2 ^ 62 → cty_wf rt = false ∨ Exists (λ c, cty_wf c = false) cs →
  ∃ cif, my_aa_fi_prep_cif AA_FI_DEFAULT_ABI (Z.of_nat (length cs)) (fresh rt) (map fresh cs) fi =
    Ret (FFI_BAD_TYPEDEF, cif, fi).
Proof.
  intros Hs H. unfold my_aa_fi_prep_cif, my_aa_fi_prep_cif_core.
  rewrite Z.leb_refl. cbn [c_assert mbind outcome_bind negb orb]. change (negb _) with false.
  cbv iota. destruct (cty_wf rt) eqn:Hrt.
  - destruct H as [?|H]; [done|]. rewrite init_fresh by done.
    unfold arg_array. rewrite length_map, Z.leb_refl. cbn [mbind outcome_bind].
    rewrite take_ge by (rewrite length_map; lia). cbv zeta. rewrite aa_core_args_bad by done. eauto.
  - rewrite init_fresh_bad by done. eauto.
Qed.

(** ** Concrete prototypes *)

(** [void f(int, struct {float, float}, struct {long, long, long}, char)] *)
Definition example_args : list cty :=
  [CScalar SS32; CStruct [CScalar SFloat; CScalar SFloat];
   CStruct [CScalar SS64; CScalar SS64; CScalar SS64]; CScalar SS8].

Lemma example_proto : proto_ok (CScalar SVoid) example_args.
Proof. solve_proto. Qed.


Lemma aa_prep_cif_var_refines_witness :
  ∃ x, ainfo (aa_fn_info 1 (CScalar SVoid) example_args) !! 3%nat = Some x ∧
    te_is_mem x = true ∧ te_get_mem x = 16.
Proof.
  destruct (aa_prep_cif_var_refines 1 (CScalar SVoid) example_args example_proto)
    as (_ & ? & _ & -> & H).
  - simpl. lia.
  - eexists. split; [reflexivity|]. split; [|reflexivity].
    refine (proj1 (H 3%nat _ _ eq_refl)). lia.
Defined.

Lemma example_prepared : aa_prepared true 1 (CScalar SVoid) example_args
  (aa_fn_info 1 (CScalar SVoid) example_args).
Proof. split; [simpl; lia|]. eexists. vm_compute. reflexivity. Qed.

Lemma aa_arguments_disjoint_witness :
  ∃ x y, ainfo (aa_fn_info 1 (CScalar SVoid) example_args) !! 2%nat = Some x ∧
    ainfo (aa_fn_info 1 (CScalar SVoid) example_args) !! 3%nat = Some y ∧ slots_disjoint x 8 y 1.
Proof.
  do 2 eexists. split; [reflexivity|]. split; [reflexivity|].
  apply (aa_arguments_disjoint true 1 (CScalar SVoid) example_args
    (aa_fn_info 1 (CScalar SVoid) example_args) 2 3
    (CStruct [CScalar SS64; CScalar SS64; CScalar SS64]) (CScalar SS8));
    [exact example_proto|exact example_prepared|done..].
Defined.

Lemma aa_arguments_in_bounds_witness :
  ∃ x, ainfo (aa_fn_info 1 (CScalar SVoid) example_args) !! 2%nat = Some x ∧
    te_is_indirect x = true ∧ te_is_mem x = true.
Proof.
  eexists. split; [reflexivity|].
  destruct (aa_arguments_in_bounds true 1 (CScalar SVoid) example_args _ 2
    (CStruct [CScalar SS64; CScalar SS64; CScalar SS64]) _ example_proto example_prepared
    eq_refl eq_refl) as (_ & H & _).
  split; [exact H|reflexivity].
Defined.

Lemma aa_prep_cif_bad_typedef_witness :
  ∃ cif, my_aa_fi_prep_cif AA_FI_DEFAULT_ABI 1 ffi_type_void [fresh (CStruct [])] None =
    Ret (FFI_BAD_TYPEDEF, cif, None).
Proof.
  apply (aa_prep_cif_bad_typedef (CScalar SVoid) [CStruct []]); [done|].
  right. by constructor.
Defined.
