(* ===== verification/XXPrepCif.v ===== *)
(** * [xx_prep_cif.c]: the System V x86-64 calling convention

    [my_xx_fi_prep_cif] classifies each argument and the return value into
    register classes per eightbyte and assigns them to registers or to the
    stack.  The arrays [classes] and [subclasses] are automatic variables; an
    entry that was not written yet is [None], combining it gives [None], and a
    decision taken on it is undefined behaviour. *)

From S2P Require Import Prelude ABIArgInfo FfiTypes AAPrepCif.

(** ** Registers: [xx_reg.h] *)
Definition xNoRegister : Z := 0.
Definition TE_RAX : Z := 1.
Definition TE_EAX : Z := 2.
Definition TE_AX : Z := 3.
Definition TE_AL : Z := 4.
Definition TE_RDI : Z := 5.
Definition TE_RSI : Z := 7.
Definition TE_RDX : Z := 9.
Definition TE_RCX : Z := 12.
Definition TE_R8 : Z := 14.
Definition TE_R9 : Z := 16.
Definition TE_XMM0 : Z := 18.
Definition TE_XMM1 : Z := 19.
Definition TE_XMM7 : Z := 25.
Definition TE_ST0 : Z := 26.
Definition TE_ST1 : Z := 27.

(** ** Return kinds: [xx_internal.h] *)
Definition UNIX64_RET_VOID : Z := 0.
Definition UNIX64_RET_UINT8 : Z := 1.
Definition UNIX64_RET_UINT16 : Z := 2.
Definition UNIX64_RET_UINT32 : Z := 3.
Definition UNIX64_RET_SINT8 : Z := 4.
Definition UNIX64_RET_SINT16 : Z := 5.
Definition UNIX64_RET_SINT32 : Z := 6.
Definition UNIX64_RET_INT64 : Z := 7.
Definition UNIX64_RET_XMM32 : Z := 8.
Definition UNIX64_RET_XMM64 : Z := 9.
Definition UNIX64_RET_X87 : Z := 10.
Definition UNIX64_RET_X87_2 : Z := 11.
Definition UNIX64_RET_ST_XMM0_RAX : Z := 12.
Definition UNIX64_RET_ST_RAX_XMM0 : Z := 13.
Definition UNIX64_RET_ST_XMM0_XMM1 : Z := 14.
Definition UNIX64_RET_ST_RAX_RDX : Z := 15.
Definition UNIX64_FLAG_RET_IN_MEM : Z := Z.shiftl 1 10.
Definition UNIX64_FLAG_XMM_ARGS : Z := Z.shiftl 1 11.

Definition MAX_GPR_REGS : Z := 6.
Definition MAX_SSE_REGS : Z := 8.
Definition MAX_CLASSES : nat := 4.

(** [te_ffitarget.h] *)
Definition XX_FI_FIRST_ABI : Z := 1.
Definition XX_FI_UNIX64 : Z := 2.
Definition XX_FI_EFI64 : Z := 3.
Definition XX_FI_GNUW64 : Z := 4.
Definition XX_FI_LAST_ABI : Z := 5.
Definition XX_FI_DEFAULT_ABI : Z := XX_FI_UNIX64.

Record xx_fi_cif := mk_xx_fi_cif {
  xx_abi : Z;
  xx_nargs : Z;
  xx_arg_types : list ffi_type;
  xx_rtype : ffi_type;
  xx_bytes : Z;
  xx_flags : Z
}.

(** ** Register classes *)

Inductive x86_64_reg_class : Set :=
| X86_64_NO_CLASS | X86_64_INTEGER_CLASS | X86_64_INTEGERSI_CLASS | X86_64_SSE_CLASS
| X86_64_SSESF_CLASS | X86_64_SSEDF_CLASS | X86_64_SSEUP_CLASS | X86_64_X87_CLASS
| X86_64_X87UP_CLASS | X86_64_COMPLEX_X87_CLASS | X86_64_MEMORY_CLASS.

#[export] Instance reg_class_eq_dec : EqDecision x86_64_reg_class.
Proof. solve_decision. Defined.

Definition SSE_CLASS_P (c : x86_64_reg_class) : bool :=
  match c with
  | X86_64_SSE_CLASS | X86_64_SSESF_CLASS | X86_64_SSEDF_CLASS | X86_64_SSEUP_CLASS => true
  | _ => false
  end.

Abbreviation is_class a b := (bool_decide (a = b)).

Definition merge_classes (class1 class2 : x86_64_reg_class) : x86_64_reg_class :=
  if is_class class1 class2 then class1 else
  if is_class class1 X86_64_NO_CLASS then class2 else
  if is_class class2 X86_64_NO_CLASS then class1 else
  if is_class class1 X86_64_MEMORY_CLASS || is_class class2 X86_64_MEMORY_CLASS
  then X86_64_MEMORY_CLASS else
  if (is_class class1 X86_64_INTEGERSI_CLASS && is_class class2 X86_64_SSESF_CLASS) ||
     (is_class class2 X86_64_INTEGERSI_CLASS && is_class class1 X86_64_SSESF_CLASS)
  then X86_64_INTEGERSI_CLASS else
  if is_class class1 X86_64_INTEGER_CLASS || is_class class1 X86_64_INTEGERSI_CLASS ||
     is_class class2 X86_64_INTEGER_CLASS || is_class class2 X86_64_INTEGERSI_CLASS
  then X86_64_INTEGER_CLASS else
  if is_class class1 X86_64_X87_CLASS || is_class class1 X86_64_X87UP_CLASS ||
     is_class class1 X86_64_COMPLEX_X87_CLASS || is_class class2 X86_64_X87_CLASS ||
     is_class class2 X86_64_X87UP_CLASS || is_class class2 X86_64_COMPLEX_X87_CLASS
  then X86_64_MEMORY_CLASS else X86_64_SSE_CLASS.

(** An entry of a class array. *)
Abbreviation slot := (option x86_64_reg_class).

Definition uninit_classes : list slot := replicate MAX_CLASSES None.

Definition merge_slot (s1 s2 : slot) : slot :=
  match s1, s2 with Some a, Some b => Some (merge_classes a b) | _, _ => None end.

(** [classes[i] = c] *)
Definition set_class (classes : list slot) (i : nat) (c : x86_64_reg_class) : outcome (list slot) :=
  c_update classes i (λ _, Ret (Some c)).

(** Reading [classes[i]] to decide on it. *)
Definition get_class (classes : list slot) (i : nat) : outcome x86_64_reg_class :=
  s ← c_index classes i; match s with Some c => Ret c | None => Stop Undefined end.

(** The label [do_integer]. *)
Definition do_integer (tsize byte_offset : Z) (classes : list slot) : outcome (Z * list slot) :=
  let size := u64 (byte_offset + tsize) in
  if size <=? 4 then
    classes ← set_class classes 0 X86_64_INTEGERSI_CLASS; Ret (1, classes)
  else if size <=? 8 then
    classes ← set_class classes 0 X86_64_INTEGER_CLASS; Ret (1, classes)
  else if size <=? 12 then
    classes ← set_class classes 0 X86_64_INTEGER_CLASS;
    classes ← set_class classes 1 X86_64_INTEGERSI_CLASS; Ret (2, classes)
  else if size <=? 16 then
    classes ← set_class classes 0 X86_64_INTEGER_CLASS;
    classes ← set_class classes 1 X86_64_INTEGER_CLASS; Ret (2, classes)
  else Stop Aborted.

(** [for (i = 0; i < words; i++) classes[i] = X86_64_NO_CLASS;] *)
Fixpoint clear_classes (i words : nat) (classes : list slot) : outcome (list slot) :=
  match words with
  | O => Ret classes
  | S words => classes ← set_class classes i X86_64_NO_CLASS; clear_classes (S i) words classes
  end.

(** [for (i = 0; i < num; i++) { size_t pos = byte_offset / 8;
       classes[i + pos] = merge_classes(subclasses[i], classes[i + pos]); }] *)
Fixpoint merge_field (sub : list slot) (pos i num : nat) (classes : list slot) :
    outcome (list slot) :=
  match num with
  | O => Ret classes
  | S num =>
      s ← c_index sub i;
      classes ← c_update classes (i + pos) (λ old, Ret (merge_slot s old));
      merge_field sub pos (S i) num classes
  end.

(** [for (i = 1; i < words; i++) if (classes[i] != X86_64_SSEUP_CLASS) return 0;]
    [true] is the return. *)
Fixpoint not_all_sseup (classes : list slot) (i n : nat) : outcome bool :=
  match n with
  | O => Ret false
  | S n =>
      c ← get_class classes i;
      if is_class c X86_64_SSEUP_CLASS then not_all_sseup classes (S i) n else Ret true
  end.

(** The final merger cleanup; [true] is the return of 0. *)
Fixpoint cleanup (classes : list slot) (i n : nat) : outcome (bool * list slot) :=
  match n with
  | O => Ret (false, classes)
  | S n =>
      c ← get_class classes i;
      if is_class c X86_64_MEMORY_CLASS then Ret (true, classes) else
      if (1 <? Z.of_nat i) then
        if is_class c X86_64_SSEUP_CLASS then
          p ← get_class classes (i - 1);
          classes ← (if is_class p X86_64_SSE_CLASS || is_class p X86_64_SSEUP_CLASS
                     then Ret classes else set_class classes i X86_64_SSE_CLASS);
          cleanup classes (S i) n
        else if is_class c X86_64_X87UP_CLASS then
          p ← get_class classes (i - 1);
          if is_class p X86_64_X87_CLASS then cleanup classes (S i) n else Ret (true, classes)
        else cleanup classes (S i) n
      else cleanup classes (S i) n
  end.

(** The part of the [FFI_TYPE_STRUCT] case after the loop over the fields. *)
Definition finish_struct (words : Z) (classes : list slot) : outcome (Z * list slot) :=
  mem ← (if 2 <? words then
           c ← get_class classes 0;
           if is_class c X86_64_SSE_CLASS then not_all_sseup classes 1 (Z.to_nat words - 1)
           else Ret true
         else Ret false);
  if (mem : bool) then Ret (0, classes) else
  '(mem, classes) ← cleanup classes 0 (Z.to_nat words);
  Ret (if (mem : bool) then 0 else words, classes).

Definition is_complex_int (t : ffi_tycode) : bool :=
  match t with
  | FFI_TYPE_INT | FFI_TYPE_UINT8 | FFI_TYPE_SINT8 | FFI_TYPE_UINT16 | FFI_TYPE_SINT16
  | FFI_TYPE_UINT32 | FFI_TYPE_SINT32 | FFI_TYPE_UINT64 | FFI_TYPE_SINT64 => true
  | _ => false
  end.

(** The [FFI_TYPE_COMPLEX] case. *)
Definition classify_complex (inner : ffi_tycode) (tsize byte_offset : Z) (classes : list slot) :
    outcome (Z * list slot) :=
  if is_complex_int inner then do_integer tsize byte_offset classes else
  match inner with
  | FFI_TYPE_FLOAT =>
      classes ← set_class classes 0 X86_64_SSE_CLASS;
      if negb (byte_offset mod 8 =? 0)
      then classes ← set_class classes 1 X86_64_SSESF_CLASS; Ret (2, classes)
      else Ret (1, classes)
  | FFI_TYPE_DOUBLE =>
      classes ← set_class classes 1 X86_64_SSEDF_CLASS;
      classes ← set_class classes 0 X86_64_SSEDF_CLASS; Ret (2, classes)
  | _ => Stop Aborted
  end.

(** The number of classes, 0 for memory, and the array as left.  The nested
    loop returns [true] when a field is passed in memory. *)
Fixpoint classify_argument (ty : ffi_type) (classes : list slot) (byte_offset : Z) :
    outcome (Z * list slot) :=
  match ty with
  | mk_ffi_type tsize _ t els =>
      match t with
      | FFI_TYPE_UINT8 | FFI_TYPE_SINT8 | FFI_TYPE_UINT16 | FFI_TYPE_SINT16 | FFI_TYPE_UINT32
      | FFI_TYPE_SINT32 | FFI_TYPE_UINT64 | FFI_TYPE_SINT64 | FFI_TYPE_POINTER =>
          do_integer tsize byte_offset classes
      | FFI_TYPE_FLOAT =>
          classes ← set_class classes 0
            (if byte_offset mod 8 =? 0 then X86_64_SSESF_CLASS else X86_64_SSE_CLASS);
          Ret (1, classes)
      | FFI_TYPE_DOUBLE =>
          classes ← set_class classes 0 X86_64_SSEDF_CLASS; Ret (1, classes)
      | FFI_TYPE_VOID =>
          classes ← set_class classes 0 X86_64_NO_CLASS; Ret (1, classes)
      | FFI_TYPE_STRUCT =>
          let words := u64 (tsize + 8 - 1) / 8 in
          if 32 <? tsize then Ret (0, classes) else
          classes ← clear_classes 0 (Z.to_nat words) classes;
          if words =? 0 then classes ← set_class classes 0 X86_64_NO_CLASS; Ret (1, classes) else
          match els with
          | None => Stop Undefined
          | Some elements =>
              let fix loop (l : list ffi_type) (classes sub : list slot) (byte_offset : Z) :=
                match l with
                | [] => Ret (false, classes)
                | e :: l =>
                    let byte_offset := FFI_ALIGN byte_offset (ty_alignment e) in
                    '(num, sub) ← classify_argument e sub (byte_offset mod 8);
                    if num =? 0 then Ret (true, classes) else
                    classes ← merge_field sub (Z.to_nat (byte_offset / 8)) 0 (Z.to_nat num) classes;
                    loop l classes sub (u64 (byte_offset + ty_size e))
                end in
              '(mem, classes) ← loop elements classes uninit_classes byte_offset;
              if (mem : bool) then Ret (0, classes) else finish_struct words classes
          end
      | FFI_TYPE_COMPLEX =>
          match els with
          | Some (inner :: _) => classify_complex (ty_type inner) tsize byte_offset classes
          | _ => Stop Undefined
          end
      | FFI_TYPE_INT | FFI_TYPE_LONGDOUBLE => Stop Aborted
      end
  end.

(** ** Register counts *)

(** The registers of one class: general, SSE; [None] for the x87 classes. *)
Definition count_class (c : x86_64_reg_class) : outcome (option (Z * Z)) :=
  match c with
  | X86_64_INTEGER_CLASS | X86_64_INTEGERSI_CLASS => Ret (Some (1, 0))
  | X86_64_SSE_CLASS | X86_64_SSESF_CLASS | X86_64_SSEDF_CLASS => Ret (Some (0, 1))
  | X86_64_NO_CLASS | X86_64_SSEUP_CLASS => Ret (Some (0, 0))
  | X86_64_X87_CLASS | X86_64_X87UP_CLASS | X86_64_COMPLEX_X87_CLASS => Ret None
  | X86_64_MEMORY_CLASS => Stop Aborted
  end.

Fixpoint count_classes (classes : list slot) (i n : nat) (ngpr nsse : Z) :
    outcome (option (Z * Z)) :=
  match n with
  | O => Ret (Some (ngpr, nsse))
  | S n =>
      c ← get_class classes i;
      k ← count_class c;
      match k with
      | None => Ret None
      | Some (g, s) => count_classes classes (S i) n (ngpr + g) (nsse + s)
      end
  end.

(** The result, the class array, and [*pngpr], [*pnsse] when they were
    written. *)
Definition examine_argument (ty : ffi_type) (classes : list slot) (in_return : bool) :
    outcome (Z * list slot * option (Z * Z)) :=
  '(n, classes) ← classify_argument ty classes 0;
  if n =? 0 then Ret (0, classes, None) else
  counts ← count_classes classes 0 (Z.to_nat n) 0 0;
  match counts with
  | None => Ret (if in_return then 1 else 0, classes, None)
  | Some c => Ret (n, classes, Some c)
  end.

(** ** The return value *)

(** The [FFI_TYPE_STRUCT] case: the flags and whether the value is returned
    through a hidden pointer. *)
Definition xx_ret_struct (rtype : ffi_type) (classes : list slot) :
    outcome (Z * bool * list slot) :=
  let rtype_size := ty_size rtype in
  '(n, classes, _) ← examine_argument rtype classes true;
  if n =? 0 then Ret (Z.lor UNIX64_RET_VOID UNIX64_FLAG_RET_IN_MEM, true, classes) else
  c0 ← get_class classes 0;
  let sse0 := SSE_CLASS_P c0 in
  if (rtype_size =? 4) && sse0 then Ret (UNIX64_RET_XMM32, false, classes)
  else if rtype_size =? 8 then
    Ret (if sse0 then UNIX64_RET_XMM64 else UNIX64_RET_INT64, false, classes)
  else
    sse1 ← (if n =? 2 then c1 ← get_class classes 1; Ret (SSE_CLASS_P c1) else Ret false);
    Ret (if sse0 && sse1 then UNIX64_RET_ST_XMM0_XMM1
         else if sse0 then UNIX64_RET_ST_XMM0_RAX
         else if (sse1 : bool) then UNIX64_RET_ST_RAX_XMM0
         else UNIX64_RET_ST_RAX_RDX, false, classes).

(** The switch on [rtype->type]; [None] is the return of [FFI_BAD_TYPEDEF]. *)
Definition xx_ret_flags (rtype : ffi_type) (classes : list slot) :
    outcome (option (Z * bool * list slot)) :=
  let plain f := Ret (Some (f, false, classes)) in
  match ty_type rtype with
  | FFI_TYPE_VOID => plain UNIX64_RET_VOID
  | FFI_TYPE_UINT8 => plain UNIX64_RET_UINT8
  | FFI_TYPE_SINT8 => plain UNIX64_RET_SINT8
  | FFI_TYPE_UINT16 => plain UNIX64_RET_UINT16
  | FFI_TYPE_SINT16 => plain UNIX64_RET_SINT16
  | FFI_TYPE_UINT32 => plain UNIX64_RET_UINT32
  | FFI_TYPE_INT | FFI_TYPE_SINT32 => plain UNIX64_RET_SINT32
  | FFI_TYPE_UINT64 | FFI_TYPE_SINT64 => plain UNIX64_RET_INT64
  | FFI_TYPE_POINTER => plain UNIX64_RET_INT64
  | FFI_TYPE_FLOAT => plain UNIX64_RET_XMM32
  | FFI_TYPE_DOUBLE => plain UNIX64_RET_XMM64
  | FFI_TYPE_STRUCT => Some <$> xx_ret_struct rtype classes
  | FFI_TYPE_COMPLEX =>
      e ← first_element rtype;
      if is_complex_int (ty_type e) then plain UNIX64_RET_ST_RAX_RDX else
      match ty_type e with
      | FFI_TYPE_FLOAT => plain UNIX64_RET_XMM64
      | FFI_TYPE_DOUBLE => plain UNIX64_RET_ST_XMM0_XMM1
      | _ => Ret None
      end
  | FFI_TYPE_LONGDOUBLE => Ret None
  end.

Definition xx_set_ret (flags : Z) (r : ABIArgInfo) : outcome ABIArgInfo :=
  let two a b r := r ← te_set_reg 0 a TE_Full r; te_set_reg 1 b TE_Full r in
  if flags =? UNIX64_RET_VOID then te_set_reg 0 xNoRegister TE_NO_LOC_INFO r
  else if flags =? UNIX64_RET_UINT8 then te_set_reg 0 TE_AL TE_ZExt8_32 r
  else if flags =? UNIX64_RET_SINT8 then te_set_reg 0 TE_AL TE_SExt8_32 r
  else if flags =? UNIX64_RET_UINT16 then te_set_reg 0 TE_AX TE_ZExt16_32 r
  else if flags =? UNIX64_RET_SINT16 then te_set_reg 0 TE_AX TE_SExt16_32 r
  else if (flags =? UNIX64_RET_UINT32) || (flags =? UNIX64_RET_SINT32) then
    te_set_reg 0 TE_EAX TE_Full r
  else if flags =? UNIX64_RET_INT64 then te_set_reg 0 TE_RAX TE_Full r
  else if (flags =? UNIX64_RET_XMM32) || (flags =? UNIX64_RET_XMM64) then
    te_set_reg 0 TE_XMM0 TE_Full r
  else if flags =? UNIX64_RET_X87 then te_set_reg 0 TE_ST0 TE_Full r
  else if flags =? UNIX64_RET_X87_2 then two TE_ST0 TE_ST1 r
  else if flags =? UNIX64_RET_ST_XMM0_RAX then two TE_XMM0 TE_RAX r
  else if flags =? UNIX64_RET_ST_RAX_XMM0 then two TE_RAX TE_XMM0 r
  else if flags =? UNIX64_RET_ST_XMM0_XMM1 then two TE_XMM0 TE_XMM1 r
  else if flags =? UNIX64_RET_ST_RAX_RDX then two TE_RAX TE_RDX r
  else
    _ ← c_assert (flags =? Z.lor UNIX64_RET_VOID UNIX64_FLAG_RET_IN_MEM);
    te_set_reg 0 TE_RDI TE_Full (or_mask TE_MASK_INDIRECT r).

(** ** The arguments *)

Record xx_state := mk_xx_state {
  xx_gprcount : Z;
  xx_ssecount : Z;
  xx_stack_bytes : Z;
  xx_classes : list slot;
  xx_fnInfo : option ABIFnInfo
}.

Definition xx_gprcnt2reg : list Z := [TE_RDI; TE_RSI; TE_RDX; TE_RCX; TE_R8; TE_R9].
Definition xx_ssecnt2reg : list Z :=
  [TE_XMM0; TE_XMM0 + 1; TE_XMM0 + 2; TE_XMM0 + 3; TE_XMM0 + 4; TE_XMM0 + 5; TE_XMM0 + 6; TE_XMM0 + 7].

(** How a narrow integer sits in its 32-bit location; the same switch on the
    type is used for stack slots and for registers. *)
Definition xx_loc_info (t : ffi_tycode) : Z :=
  match t with
  | FFI_TYPE_SINT8 => TE_SExt8_32
  | FFI_TYPE_SINT16 => TE_SExt16_32
  | FFI_TYPE_UINT8 => TE_ZExt8_32
  | FFI_TYPE_UINT16 => TE_ZExt16_32
  | _ => TE_Full
  end.

Definition xx_pass_in_memory (ty : ffi_type) (i : nat) (st : xx_state) : outcome xx_state :=
  let align := if ty_alignment ty <? 8 then 8 else ty_alignment ty in
  let bytes := FFI_ALIGN (xx_stack_bytes st) align in
  fi ← upd_arg (xx_fnInfo st) i (λ a,
         Ret (te_set_mem bytes (xx_loc_info (ty_type ty)) (or_mask TE_MASK_ISMEM a)));
  Ret (mk_xx_state (xx_gprcount st) (xx_ssecount st) (u64 (bytes + ty_size ty)) (xx_classes st) fi).

(** The loop over the classes of an argument passed in registers. *)
Fixpoint xx_pass_in_regs (t : ffi_tycode) (i j n : nat) (idxReg : Z) (st : xx_state) :
    outcome xx_state :=
  match n with
  | O => Ret st
  | S n =>
      c ← get_class (xx_classes st) j;
      match c with
      | X86_64_NO_CLASS | X86_64_SSEUP_CLASS => xx_pass_in_regs t i (S j) n idxReg st
      | X86_64_INTEGER_CLASS | X86_64_INTEGERSI_CLASS =>
          fi ← upd_arg (xx_fnInfo st) i (λ a,
                 _ ← c_assert (idxReg <? 4);
                 r ← c_index xx_gprcnt2reg (Z.to_nat (xx_gprcount st));
                 te_set_reg idxReg r (xx_loc_info t) a);
          xx_pass_in_regs t i (S j) n (idxReg + 1)
            (mk_xx_state (xx_gprcount st + 1) (xx_ssecount st) (xx_stack_bytes st) (xx_classes st) fi)
      | X86_64_SSE_CLASS | X86_64_SSEDF_CLASS | X86_64_SSESF_CLASS =>
          fi ← upd_arg (xx_fnInfo st) i (λ a,
                 _ ← c_assert (idxReg <? 4);
                 r ← c_index xx_ssecnt2reg (Z.to_nat (xx_ssecount st));
                 te_set_reg idxReg r TE_Full a);
          xx_pass_in_regs t i (S j) n (idxReg + 1)
            (mk_xx_state (xx_gprcount st) (xx_ssecount st + 1) (xx_stack_bytes st) (xx_classes st) fi)
      | _ => Stop Aborted
      end
  end.

(** One iteration of the loop over the arguments. *)
Definition xx_arg (i : nat) (ty : ffi_type) (st : xx_state) : outcome xx_state :=
  fi ← upd_arg (xx_fnInfo st) i (λ a, Ret (te_set_arg_size (ty_size ty) a));
  '(n, classes, counts) ← examine_argument ty (xx_classes st) false;
  let st := mk_xx_state (xx_gprcount st) (xx_ssecount st) (xx_stack_bytes st) classes fi in
  if n =? 0 then xx_pass_in_memory ty i st else
  match counts with
  | None => Stop Undefined
  | Some (ngpr, nsse) =>
      if (MAX_GPR_REGS <? xx_gprcount st + ngpr) || (MAX_SSE_REGS <? xx_ssecount st + nsse)
      then xx_pass_in_memory ty i st
      else xx_pass_in_regs (ty_type ty) i 0 (Z.to_nat n) 0 st
  end.

Fixpoint xx_args (i : nat) (tys : list ffi_type) (st : xx_state) : outcome xx_state :=
  match tys with
  | [] => Ret st
  | ty :: tys => st ← xx_arg i ty st; xx_args (S i) tys st
  end.

Definition my_xx_fi_prep_cif_machdep (cif : xx_fi_cif) (fnInfo : option ABIFnInfo) :
    outcome (ffi_status * xx_fi_cif * option ABIFnInfo) :=
  if (xx_abi cif =? XX_FI_EFI64) || (xx_abi cif =? XX_FI_GNUW64) then Stop Aborted else
  if negb (xx_abi cif =? XX_FI_UNIX64) then Ret (FFI_BAD_ABI, cif, fnInfo) else
  ret ← xx_ret_flags (xx_rtype cif) uninit_classes;
  match ret with
  | None => Ret (FFI_BAD_TYPEDEF, cif, fnInfo)
  | Some (flags, in_mem, classes) =>
      fi ← upd_ret fnInfo (xx_set_ret flags);
      st ← xx_args 0 (xx_arg_types cif)
             (mk_xx_state (if (in_mem : bool) then 1 else 0) 0 0 classes fi);
      let flags := if xx_ssecount st =? 0 then flags else Z.lor flags UNIX64_FLAG_XMM_ARGS in
      let bytes := u32 (FFI_ALIGN (xx_stack_bytes st) 8) in
      Ret (FFI_OK,
           mk_xx_fi_cif (xx_abi cif) (xx_nargs cif) (xx_arg_types cif) (xx_rtype cif) bytes flags,
           (λ fi, set_ssecount (xx_ssecount st) (set_bytes (sext 32 bytes) fi)) <$> xx_fnInfo st)
  end.

(** The loop that initializes the argument types. *)
Fixpoint xx_core_args (tys : list ffi_type) : option (list ffi_type) :=
  match tys with
  | [] => Some []
  | ty :: tys =>
      match init_type ty with
      | None => None
      | Some ty => match xx_core_args tys with None => None | Some tys => Some (ty :: tys) end
      end
  end.

Definition my_xx_fi_prep_cif_core (abi : Z) (isvariadic : bool) (nfixedargs ntotalargs : Z)
    (rtype : ffi_type) (atypes : list ffi_type) (fnInfo : option ABIFnInfo) :
    outcome (ffi_status * xx_fi_cif * option ABIFnInfo) :=
  _ ← c_assert (negb isvariadic || (1 <=? nfixedargs));
  _ ← c_assert (nfixedargs <=? ntotalargs);
  let cif := mk_xx_fi_cif abi ntotalargs atypes rtype 0 0 in
  if negb ((XX_FI_FIRST_ABI <? abi) && (abi <? XX_FI_LAST_ABI)) then Ret (FFI_BAD_ABI, cif, fnInfo)
  else match init_type rtype with
  | None => Ret (FFI_BAD_TYPEDEF, cif, fnInfo)
  | Some rtype =>
      tys ← arg_array atypes ntotalargs;
      match xx_core_args tys with
      | None => Ret (FFI_BAD_TYPEDEF, cif, fnInfo)
      | Some tys => my_xx_fi_prep_cif_machdep (mk_xx_fi_cif abi ntotalargs tys rtype 0 0) fnInfo
      end
  end.

Definition my_xx_fi_prep_cif (abi nargs : Z) (rtype : ffi_type) (atypes : list ffi_type)
    (fnInfo : option ABIFnInfo) : outcome (ffi_status * xx_fi_cif * option ABIFnInfo) :=
  my_xx_fi_prep_cif_core abi false nargs nargs rtype atypes fnInfo.
