(* ===== verification/XXClass.v ===== *)
(** * Classification of arguments in [xx_prep_cif.c]

    [code_class] is what [classify_argument] computes on a type of at most 16
    bytes, as a pure function; larger types always go to memory.  [eightbytes]
    is the rule of the System V ABI: every eightbyte gets the merge of the
    classes of the scalars in it.  The two agree on the types without a nested
    structure that straddles an eightbyte boundary it does not fill, and a
    straddling example shows that they do not agree in general. *)

From S2P Require Import Prelude ABIArgInfo FfiTypes Layout AAPrepCif XXPrepCif.

(** ** The classes the code produces *)

Definition simple (c : x86_64_reg_class) : bool :=
  match c with
  | X86_64_NO_CLASS | X86_64_INTEGER_CLASS | X86_64_INTEGERSI_CLASS | X86_64_SSE_CLASS
  | X86_64_SSESF_CLASS | X86_64_SSEDF_CLASS => true
  | _ => false
  end.

Lemma merge_simple a b : simple a = true → simple b = true → simple (merge_classes a b) = true.
Proof. by destruct a, b. Qed.

Lemma merge_comm a b : merge_classes a b = merge_classes b a.
Proof. by destruct a, b. Qed.

Lemma merge_unit_l a : merge_classes X86_64_NO_CLASS a = a.
Proof. by destruct a. Qed.

Lemma merge_unit_r a : merge_classes a X86_64_NO_CLASS = a.
Proof. by destruct a. Qed.

Lemma merge_assoc a b c : simple a = true → simple b = true → simple c = true →
  merge_classes a (merge_classes b c) = merge_classes (merge_classes a b) c.
Proof. by destruct a, b, c. Qed.

#[export] Hint Resolve merge_simple : iqemu.

(** ** What the code computes *)

Definition words (c : cty) : nat := Z.to_nat ((csize c + 7) / 8).

(** The class of a scalar at offset [r] in its eightbyte. *)
Definition scalar_class (s : scalar) (r : Z) : x86_64_reg_class :=
  match s with
  | SVoid => X86_64_NO_CLASS
  | SFloat => if r =? 0 then X86_64_SSESF_CLASS else X86_64_SSE_CLASS
  | SDouble => X86_64_SSEDF_CLASS
  | _ => if r + scalar_size s <=? 4 then X86_64_INTEGERSI_CLASS else X86_64_INTEGER_CLASS
  end.

(** Merge [sub] into [acc] from position [pos] on; what does not fit is
    dropped. *)
Fixpoint merge_at {A} (m : A → A → A) (pos : nat) (sub acc : list A) : list A :=
  match acc with
  | [] => []
  | a :: acc =>
      match pos with
      | S pos => a :: merge_at m pos sub acc
      | O => match sub with
             | [] => a :: acc
             | s :: sub => m s a :: merge_at m 0 sub acc
             end
      end
  end.

Definition fields_class (F : cty → Z → list x86_64_reg_class) :
    list cty → list x86_64_reg_class → Z → list x86_64_reg_class :=
  fix go l acc b :=
    match l with
    | [] => acc
    | f :: l =>
        let b := align_up b (calign f) in
        go l (merge_at merge_classes (Z.to_nat (b / 8)) (F f (b mod 8)) acc) (b + csize f)
    end.

Fixpoint code_class (c : cty) (r : Z) : list x86_64_reg_class :=
  match c with
  | CScalar s => [scalar_class s r]
  | CStruct fs => fields_class code_class fs (replicate (words c) X86_64_NO_CLASS) r
  end.

Lemma length_merge_at {A} (m : A → A → A) pos sub acc :
  length (merge_at m pos sub acc) = length acc.
Proof.
  revert pos sub. induction acc as [|a acc IH]; intros pos sub; [done|].
  destruct pos, sub; simpl; by rewrite ?IH.
Qed.

Lemma merge_at_simple pos sub acc :
  Forall (λ c, simple c = true) sub → Forall (λ c, simple c = true) acc →
  Forall (λ c, simple c = true) (merge_at merge_classes pos sub acc).
Proof.
  intros Hs Ha. revert pos sub Hs. induction Ha as [|a acc Ha Hacc IH]; intros pos sub Hs; [done|].
  destruct pos; simpl; [|constructor; auto].
  destruct Hs; constructor; auto with iqemu.
Qed.

Lemma scalar_class_simple s r : simple (scalar_class s r) = true.
Proof. unfold scalar_class. destruct s; simpl; repeat case_match; done. Qed.

Lemma fields_class_spec F l acc b :
  Forall (λ f, ∀ r, Forall (λ c, simple c = true) (F f r)) l → Forall (λ c, simple c = true) acc →
  length (fields_class F l acc b) = length acc ∧
  Forall (λ c, simple c = true) (fields_class F l acc b).
Proof.
  intros Hl. revert acc b. induction Hl as [|f l Hf Hl IH]; intros acc b Ha; [done|].
  simpl. destruct (IH (merge_at merge_classes (Z.to_nat (align_up b (calign f) / 8))
    (F f (align_up b (calign f) mod 8)) acc) (align_up b (calign f) + csize f)) as [-> ?];
    [by apply merge_at_simple|].
  by rewrite length_merge_at.
Qed.

Lemma code_class_simple c r : Forall (λ c, simple c = true) (code_class c r).
Proof.
  revert r. induction c as [s|fs IH] using cty_ind'; intros r.
  - apply Forall_singleton, scalar_class_simple.
  - apply fields_class_spec; [done|]. by apply Forall_replicate.
Qed.

Lemma words_scalar s : words (CScalar s) = 1%nat.
Proof. by destruct s. Qed.

Lemma code_class_length c r : length (code_class c r) = words c.
Proof.
  destruct c as [s|fs]; [by rewrite words_scalar|].
  cbn [code_class]. destruct (fields_class_spec code_class fs
    (replicate (words (CStruct fs)) X86_64_NO_CLASS) r) as [-> _].
  - apply Forall_forall. intros. apply code_class_simple.
  - by apply Forall_replicate.
  - by rewrite length_replicate.
Qed.

(** ** The loops of [classify_argument] *)

(** The loop over the fields. *)
Fixpoint classify_fields (l : list ffi_type) (classes sub : list slot) (byte_offset : Z) :
    outcome (bool * list slot) :=
  match l with
  | [] => Ret (false, classes)
  | e :: l =>
      let byte_offset := FFI_ALIGN byte_offset (ty_alignment e) in
      '(num, sub) ← classify_argument e sub (byte_offset mod 8);
      if num =? 0 then Ret (true, classes) else
      classes ← merge_field sub (Z.to_nat (byte_offset / 8)) 0 (Z.to_nat num) classes;
      classify_fields l classes sub (u64 (byte_offset + ty_size e))
  end.

Lemma classify_struct tsize al els classes byte_offset :
  classify_argument (mk_ffi_type tsize al FFI_TYPE_STRUCT (Some els)) classes byte_offset =
    let words := u64 (tsize + 8 - 1) / 8 in
    if 32 <? tsize then Ret (0, classes) else
    classes ← clear_classes 0 (Z.to_nat words) classes;
    if words =? 0 then classes ← set_class classes 0 X86_64_NO_CLASS; Ret (1, classes) else
    '(mem, classes) ← classify_fields els classes uninit_classes byte_offset;
    if (mem : bool) then Ret (0, classes) else finish_struct words classes.
Proof. reflexivity. Qed.

(** [classes] starts with the classes [L]. *)
Definition starts (classes : list slot) (L : list x86_64_reg_class) : Prop :=
  ∃ t, classes = (Some <$> L) ++ t.

Lemma starts_get classes L i c : starts classes L → L !! i = Some c → get_class classes i = Ret c.
Proof.
  intros [t ->] Hi. unfold get_class, c_index.
  rewrite lookup_app_l by (rewrite length_fmap; by eapply lookup_lt_Some).
  by rewrite list_lookup_fmap, Hi.
Qed.

Lemma set_class_0 classes c : classes ≠ [] →
  ∃ classes', set_class classes 0 c = Ret classes' ∧ length classes' = length classes ∧
    starts classes' [c].
Proof. intros H. destruct classes as [|x t]; [done|]. eexists. split_and!; [done..|by exists t]. Qed.

Lemma clear_classes_spec pre n rest : (n ≤ length rest)%nat →
  clear_classes (length pre) n (pre ++ rest) =
    Ret (pre ++ (Some <$> replicate n X86_64_NO_CLASS) ++ drop n rest).
Proof.
  revert pre rest. induction n as [|n IH]; intros pre rest Hn; [done|].
  destruct rest as [|x rest]; [simpl in Hn; lia|]. cbn [clear_classes].
  unfold set_class, c_update, c_index. rewrite list_lookup_middle by done. simpl.
  rewrite insert_app_r_alt, Nat.sub_diag by lia. simpl.
  specialize (IH (pre ++ [Some X86_64_NO_CLASS]) rest). rewrite length_app in IH. simpl in IH, Hn.
  rewrite Nat.add_1_r, <- app_assoc in IH. simpl in IH. rewrite IH by lia. by rewrite <- app_assoc.
Qed.

Lemma merge_at_cons {A} (m : A → A → A) p s L acc old : acc !! p = Some old →
  merge_at m p (s :: L) acc = merge_at m (S p) L (<[p := m s old]> acc).
Proof.
  revert p. induction acc as [|a acc IH]; intros p Hp; [done|].
  destruct p as [|p]; simpl in *; [by simplify_eq|]. f_equal. by apply IH.
Qed.

Lemma merge_at_nil {A} (m : A → A → A) p acc : merge_at m p [] acc = acc.
Proof. revert p. induction acc as [|a acc IH]; intros p; [done|]. destruct p; simpl; by rewrite ?IH. Qed.

Lemma merge_field_at sub pos i num classes :
  (i + num ≤ length sub)%nat → (i + pos + num ≤ length classes)%nat →
  merge_field sub pos i num classes =
    Ret (merge_at merge_slot (i + pos) (take num (drop i sub)) classes).
Proof.
  revert i classes. induction num as [|num IH]; intros i classes Hs Hc.
  - cbn [merge_field]. by rewrite take_0, merge_at_nil.
  - destruct (lookup_lt_is_Some_2 sub i) as [s Hi]; [lia|].
    destruct (lookup_lt_is_Some_2 classes (i + pos)) as [old Ho]; [lia|].
    cbn [merge_field]. unfold c_update, c_index. rewrite Hi. simpl. rewrite Ho. simpl.
    rewrite IH by (rewrite ?length_insert; lia).
    rewrite (drop_S sub s i Hi). simpl. by rewrite (merge_at_cons _ _ _ _ _ _ Ho).
Qed.

Lemma merge_at_starts pos L acc t :
  ∃ t', merge_at merge_slot pos (Some <$> L) ((Some <$> acc) ++ t) =
        (Some <$> merge_at merge_classes pos L acc) ++ t' ∧ length t' = length t.
Proof.
  revert pos L. induction acc as [|a acc IH]; intros pos L.
  - eexists. split; [done|]. by rewrite length_merge_at.
  - destruct pos as [|pos]; [destruct L as [|s L]|]; simpl.
    + by eexists.
    + destruct (IH 0%nat L) as (t' & Heq & ?). exists t'. split; [|done]. by f_equal.
    + destruct (IH pos L) as (t' & Heq & ?). exists t'. split; [|done]. by f_equal.
Qed.

Lemma merge_field_starts sub L classes acc pos :
  starts sub L → starts classes acc → (pos + length L ≤ length classes)%nat →
  ∃ classes', merge_field sub pos 0 (length L) classes = Ret classes' ∧
    length classes' = length classes ∧ starts classes' (merge_at merge_classes pos L acc).
Proof.
  intros [t ->] [u ->] Hlen. rewrite merge_field_at by (rewrite ?length_app, ?length_fmap in *; lia).
  rewrite drop_0, take_app_length' by (by rewrite length_fmap).
  destruct (merge_at_starts pos L acc u) as (t' & Heq & Hl). simpl.
  eexists. split; [done|]. split; [by rewrite length_merge_at|]. rewrite Heq. by exists t'.
Qed.

Lemma cleanup_simple classes L i n :
  starts classes L → Forall (λ c, simple c = true) L → (i + n ≤ length L)%nat → (i + n ≤ 2)%nat →
  cleanup classes i n = Ret (false, classes).
Proof.
  intros Hst HL. revert i. induction n as [|n IH]; intros i Hi Hi2; [done|].
  destruct (lookup_lt_is_Some_2 L i) as [c Hc]; [lia|]. cbn [cleanup].
  rewrite (starts_get _ _ _ _ Hst Hc). cbn [mbind outcome_bind].
  pose proof (Forall_lookup_1 _ _ _ _ HL Hc) as Hsc. simpl in Hsc.
  rewrite bool_decide_eq_false_2 by (by intros ->). rewrite (proj2 (Z.ltb_ge _ _)) by lia.
  apply IH; lia.
Qed.

Lemma finish_struct_small classes L :
  starts classes L → Forall (λ c, simple c = true) L → (length L ≤ 2)%nat →
  finish_struct (Z.of_nat (length L)) classes = Ret (Z.of_nat (length L), classes).
Proof.
  intros Hst HL Hlen. unfold finish_struct. rewrite (proj2 (Z.ltb_ge _ _)) by lia.
  cbn [mbind outcome_bind]. rewrite Nat2Z.id.
  by rewrite (cleanup_simple _ _ _ _ Hst HL) by lia.
Qed.

Lemma finish_struct_large classes L :
  starts classes L → Forall (λ c, simple c = true) L → (2 < length L)%nat →
  finish_struct (Z.of_nat (length L)) classes = Ret (0, classes).
Proof.
  intros Hst HL Hlen. unfold finish_struct. rewrite (proj2 (Z.ltb_lt _ _)) by lia.
  destruct L as [|c0 [|c1 L]]; simpl in Hlen; [lia..|].
  rewrite (starts_get classes _ 0 c0 Hst) by done. cbn [mbind outcome_bind].
  case_bool_decide; [|done]. rewrite Nat2Z.id. simpl length.
  replace (S (S (length L)) - 1)%nat with (S (length L)) by lia. cbn [not_all_sseup].
  rewrite (starts_get classes _ 1 c1 Hst) by done. cbn [mbind outcome_bind].
  rewrite bool_decide_eq_false_2; [done|]. intros ->. by decompose_Forall_hyps.
Qed.

(** ** [classify_argument] computes [code_class] *)

Lemma align_up_shift r o a : 0 < a → (a | r) → align_up (r + o) a = r + align_up o a.
Proof.
  intros Ha [q ->]. unfold align_up.
  replace (q * a + o + a - 1) with (o + a - 1 + q * a) by lia. rewrite Z.div_add by lia. lia.
Qed.

Lemma fields_end_shift l r o :
  Forall (λ f, 0 < calign f ∧ (calign f | r)) l →
  fields_end csize calign l (r + o) = r + fields_end csize calign l o.
Proof.
  intros Hl. revert o. induction Hl as [|f l [Hp Hd] _ IH]; intros o; [done|].
  simpl. rewrite align_up_shift by done. by rewrite <- Z.add_assoc, IH.
Qed.

Lemma calign_field_divide fs f : cty_wf (CStruct fs) = true → f ∈ fs →
  (calign f | calign (CStruct fs)).
Proof.
  intros Hw Hf. pose proof (calign_pow2 _ Hw). apply cty_wf_struct in Hw as [_ Hfs].
  apply pow2_align_divide; [|done|].
  - apply calign_pow2. rewrite Forall_forall in Hfs. by apply Hfs.
  - clear -Hf. induction fs as [|g fs IH]; [by apply not_elem_of_nil in Hf|].
    rewrite calign_struct_cons. apply elem_of_cons in Hf as [->|Hf]; [lia|].
    specialize (IH Hf). lia.
Qed.

Lemma calign_divide_8 c : cty_wf c = true → (calign c | 8).
Proof.
  intros Hw. apply pow2_align_divide; [by apply calign_pow2|by exists 3|].
  clear Hw. induction c as [s|fs IH] using cty_ind'; [by destruct s|].
  induction IH; [simpl; lia|]. rewrite calign_struct_cons. lia.
Qed.

Lemma divide_mod_8 a b : (a | 8) → (a | b) → (a | b mod 8).
Proof. intros H8 Hb. rewrite Z.mod_eq by lia. apply Z.divide_sub_r; [done|]. by apply Z.divide_mul_l. Qed.

Lemma words_bounds c : cty_wf c = true →
  8 * (Z.of_nat (words c) - 1) < csize c ≤ 8 * Z.of_nat (words c) ∧ (1 ≤ words c)%nat.
Proof.
  intros Hw. pose proof (csize_pos c Hw). unfold words.
  assert (0 ≤ (csize c + 7) / 8) by (apply Z.div_pos; lia).
  pose proof (Z.div_mod (csize c + 7) 8). pose proof (Z.mod_pos_bound (csize c + 7) 8). lia.
Qed.

(** What the classification of [c] at offset [r] of an eightbyte returns. *)
Definition classified (c : cty) : Prop := ∀ classes r,
  length classes = 4%nat → 0 ≤ r < 8 → (calign c | r) → r + csize c ≤ 32 →
  ∃ classes', length classes' = 4%nat ∧
    if 16 <? csize c then classify_argument (laid c) classes r = Ret (0, classes')
    else classify_argument (laid c) classes r = Ret (Z.of_nat (words c), classes') ∧
         starts classes' (code_class c r).

Lemma scalar_fits s r : 0 ≤ r < 8 → (scalar_size s | r) → r + scalar_size s ≤ 8.
Proof.
  intros Hr [q ->]. assert (scalar_size s = 1 ∨ scalar_size s = 2 ∨ scalar_size s = 4 ∨ scalar_size s = 8)
    as Hs by (destruct s; simpl; lia).
  destruct_or! Hs; rewrite Hs in *; lia.
Qed.

Lemma classified_scalar s : classified (CScalar s).
Proof.
  intros classes r Hlen Hr Hd _. simpl in Hd. pose proof (scalar_fits s r Hr Hd).
  assert (classes ≠ []) as Hne by (by destruct classes).
  rewrite words_scalar. cbn [code_class csize].
  rewrite (proj2 (Z.ltb_ge 16 _)) by (pose proof (scalar_size_range s); lia).
  destruct (set_class_0 classes (scalar_class s r) Hne) as (classes' & Hset & Hl & Hst).
  exists classes'. split; [congruence|]. split; [|done].
  cbn [laid]. rewrite scalar_ffi_eta.
  assert (r mod 8 = r) as Hmod by (apply Z.mod_small; lia).
  destruct s; simpl in *; unfold do_integer; rewrite ?(wrap_small 64) by (unfold in_u; lia);
    rewrite ?Hmod; try (rewrite Hset; done);
    match goal with |- context [r + ?k <=? 4] => revert Hset; destruct (Z.leb_spec (r + k) 4) end;
    intros Hset; rewrite ?(proj2 (Z.leb_le _ 8)) by lia; by rewrite Hset.
Qed.

Lemma classify_fields_laid l acc classes sub b :
  Forall (λ f, cty_wf f = true ∧ classified f) l → length classes = 4%nat → length sub = 4%nat →
  starts classes acc → 0 ≤ b → fields_end csize calign l b ≤ 32 →
  ∃ classes', length classes' = 4%nat ∧
    if existsb (λ f, 16 <? csize f) l
    then classify_fields (map laid l) classes sub b = Ret (true, classes')
    else classify_fields (map laid l) classes sub b = Ret (false, classes') ∧
         starts classes' (fields_class code_class l acc b).
Proof.
  intros Hl. revert acc classes sub b.
  induction Hl as [|f l [Hw Hf] Hl IH]; intros acc classes sub b Hc Hs Hst Hb He; [by exists classes|].
  pose proof (calign_pow2 f Hw) as Hp2. pose proof (pow2_align_pos _ Hp2) as Hpos.
  cbn [map classify_fields fields_end] in *. cbn [existsb fields_class].
  rewrite laid_alignment, laid_size. destruct (align_up_spec b (calign f) Hpos) as [? Hdiv].
  pose proof (csize_pos f Hw). set (b' := align_up b (calign f)) in *.
  assert (b' + csize f ≤ 32) as Hb'.
  { etrans; [apply (fields_end_ge csize calign l)|exact He].
    apply wf_fields. eapply Forall_impl; [exact Hl|]. by intros ? [? _]. }
  rewrite FFI_ALIGN_ok by (done || lia). fold b'.
  pose proof (Z.mod_pos_bound b' 8) as Hm. pose proof (Z.div_mod b' 8) as Hdm.
  destruct (Hf sub (b' mod 8) Hs) as (sub' & Hs' & Hres);
    [lia|apply divide_mod_8; [by apply calign_divide_8|done]|lia|].
  destruct (16 <? csize f) eqn:H16; cbn [orb].
  - rewrite Hres. by exists classes.
  - destruct Hres as [-> Hst']. cbn [mbind outcome_bind].
    destruct (words_bounds f Hw) as [? ?]. rewrite (proj2 (Z.eqb_neq _ _)) by lia.
    rewrite Nat2Z.id, wrap_small by (unfold in_u; lia).
    destruct (merge_field_starts sub' (code_class f (b' mod 8)) classes acc (Z.to_nat (b' / 8)))
      as (classes' & Hm' & Hl' & Hst2); [done|done|rewrite code_class_length; lia|].
    rewrite code_class_length in Hm'. rewrite Hm'. cbn [mbind outcome_bind].
    apply IH; [congruence|done|done|lia|done].
Qed.

Lemma fields_end_le_csize fs : cty_wf (CStruct fs) = true →
  fields_end csize calign fs 0 ≤ csize (CStruct fs).
Proof. intros Hw. cbn [csize]. apply align_up_le. by apply (calign_pos (CStruct fs)). Qed.

Lemma fields_end_elem l f b : Forall (λ c, cty_wf c = true) l → f ∈ l → 0 ≤ b →
  csize f ≤ fields_end csize calign l b.
Proof.
  intros Hl. revert b. induction Hl as [|g l Hg Hl IH]; intros b Hf Hb; [by apply not_elem_of_nil in Hf|].
  pose proof (align_up_le b (calign g) (calign_pos g Hg)). pose proof (csize_pos g Hg). simpl.
  apply elem_of_cons in Hf as [->|Hf]; [|apply IH; [done|lia]].
  pose proof (fields_end_ge csize calign l (align_up b (calign g) + csize g) (wf_fields l Hl)). lia.
Qed.

Lemma classified_struct fs : Forall (λ f, cty_wf f = true ∧ classified f) fs →
  cty_wf (CStruct fs) = true → classified (CStruct fs).
Proof.
  intros Hfs Hw classes r Hlen Hr Hd Hb. pose proof (csize_pos _ Hw) as Hpos.
  destruct (words_bounds _ Hw) as [Hwb Hw1].
  assert (Forall (λ c, cty_wf c = true) fs) as Hwfs by (by apply cty_wf_struct in Hw as [_ ?]).
  cbn [laid]. rewrite classify_struct. cbv zeta. rewrite (proj2 (Z.ltb_ge 32 _)) by lia.
  rewrite wrap_small by (unfold in_u; lia).
  assert ((csize (CStruct fs) + 8 - 1) / 8 = Z.of_nat (words (CStruct fs))) as ->.
  { unfold words. rewrite Z2Nat.id by (apply Z.div_pos; lia). f_equal. lia. }
  rewrite Nat2Z.id. pose proof (clear_classes_spec [] (words (CStruct fs)) classes) as Hclr.
  simpl length in Hclr. simpl app in Hclr. rewrite Hclr by lia. clear Hclr.
  cbn [mbind outcome_bind]. rewrite (proj2 (Z.eqb_neq _ 0)) by lia.
  assert (fields_end csize calign fs r ≤ 32) as Hfe.
  { rewrite <- (Z.add_0_r r), fields_end_shift.
    - pose proof (fields_end_le_csize fs Hw). lia.
    - apply Forall_forall. intros f Hf. rewrite Forall_forall in Hwfs. split; [by apply calign_pos, Hwfs|].
      etrans; [by apply (calign_field_divide fs)|done]. }
  set (cleared := (Some <$> replicate _ _) ++ _).
  assert (length cleared = 4%nat) as Hcleared
    by (unfold cleared; rewrite length_app, length_fmap, length_replicate, length_drop; lia).
  destruct (classify_fields_laid fs (replicate (words (CStruct fs)) X86_64_NO_CLASS) cleared
    uninit_classes r Hfs Hcleared) as (classes' & Hl' & Hres); [done|by eexists|lia|exact Hfe|].
  destruct (existsb _ fs) eqn:Hex.
  - rewrite Hres. apply existsb_exists in Hex as (f & Hf%list_elem_of_In & H16%Z.ltb_lt).
    pose proof (fields_end_elem fs f 0 Hwfs Hf). pose proof (fields_end_le_csize fs Hw).
    rewrite (proj2 (Z.ltb_lt 16 _)) by lia. by exists classes'.
  - destruct Hres as [-> Hst]. cbn [mbind outcome_bind]. exists classes'. split; [done|].
    pose proof (code_class_length (CStruct fs) r) as Hcl.
    pose proof (code_class_simple (CStruct fs) r) as Hcs. cbn [code_class] in Hcl, Hcs.
    destruct (Z.ltb_spec 16 (csize (CStruct fs))).
    + rewrite <- Hcl at 1. rewrite (finish_struct_large _ _ Hst Hcs) by lia. done.
    + rewrite <- Hcl. rewrite (finish_struct_small _ _ Hst Hcs) by lia. done.
Qed.

Lemma classify_laid c : cty_wf c = true → classified c.
Proof.
  induction c as [s|fs IH] using cty_ind'; intros Hw; [apply classified_scalar|].
  apply classified_struct; [|done]. apply cty_wf_struct in Hw as [_ Hfs].
  apply Forall_forall. intros f Hf. rewrite Forall_forall in IH, Hfs. auto.
Qed.

(** At the top level, for a type of any size. *)
Lemma classify_top c classes : cty_wf c = true → length classes = 4%nat →
  ∃ classes', length classes' = 4%nat ∧
    if 16 <? csize c then classify_argument (laid c) classes 0 = Ret (0, classes')
    else classify_argument (laid c) classes 0 = Ret (Z.of_nat (words c), classes') ∧
         starts classes' (code_class c 0).
Proof.
  intros Hw Hl. destruct (Z.leb_spec (csize c) 32).
  - apply classify_laid; [done|done|lia|apply Z.divide_0_r|lia].
  - rewrite (proj2 (Z.ltb_lt 16 _)) by lia. destruct c as [s|fs].
    + pose proof (scalar_size_range s). simpl in *. lia.
    + exists classes. split; [done|]. cbn [laid]. rewrite classify_struct. cbv zeta.
      by rewrite (proj2 (Z.ltb_lt 32 _)) by lia.
Qed.

(** ** Register counts *)

Definition is_gpr_class (c : x86_64_reg_class) : bool :=
  match c with X86_64_INTEGER_CLASS | X86_64_INTEGERSI_CLASS => true | _ => false end.
Definition is_sse_class (c : x86_64_reg_class) : bool :=
  match c with X86_64_SSE_CLASS | X86_64_SSESF_CLASS | X86_64_SSEDF_CLASS => true | _ => false end.

Definition ngpr_of (L : list x86_64_reg_class) : Z := Z.of_nat (length (filter is_gpr_class L)).
Definition nsse_of (L : list x86_64_reg_class) : Z := Z.of_nat (length (filter is_sse_class L)).

Lemma ngpr_of_cons c L : ngpr_of (c :: L) = (if is_gpr_class c then 1 else 0) + ngpr_of L.
Proof. unfold ngpr_of. rewrite filter_cons. destruct (is_gpr_class c); simpl; lia. Qed.
Lemma nsse_of_cons c L : nsse_of (c :: L) = (if is_sse_class c then 1 else 0) + nsse_of L.
Proof. unfold nsse_of. rewrite filter_cons. destruct (is_sse_class c); simpl; lia. Qed.

Lemma reg_counts_le L : 0 ≤ ngpr_of L ∧ 0 ≤ nsse_of L ∧ ngpr_of L + nsse_of L ≤ Z.of_nat (length L).
Proof.
  induction L as [|c L IH]; [done|]. rewrite ngpr_of_cons, nsse_of_cons. destruct c; simpl; lia.
Qed.

Lemma count_classes_starts classes L i g s :
  starts classes L → Forall (λ c, simple c = true) L → (i ≤ length L)%nat →
  count_classes classes i (length L - i) g s =
    Ret (Some (g + ngpr_of (drop i L), s + nsse_of (drop i L))).
Proof.
  intros Hst HL Hi. remember (length L - i)%nat as n eqn:Hn. revert i g s Hi Hn.
  induction n as [|n IH]; intros i g s Hi Hn.
  - rewrite drop_ge by lia. unfold ngpr_of, nsse_of. simpl. by rewrite !Z.add_0_r.
  - destruct (lookup_lt_is_Some_2 L i) as [c Hc]; [lia|]. cbn [count_classes].
    rewrite (starts_get _ _ _ _ Hst Hc). cbn [mbind outcome_bind].
    rewrite (drop_S L c i Hc), ngpr_of_cons, nsse_of_cons, !Z.add_assoc.
    pose proof (Forall_lookup_1 _ _ _ _ HL Hc) as Hsc. simpl in Hsc.
    destruct c; try done; simpl; rewrite IH by lia; repeat f_equal; lia.
Qed.

Lemma examine_laid c classes ret : cty_wf c = true → length classes = 4%nat →
  ∃ classes', length classes' = 4%nat ∧
    if 16 <? csize c then examine_argument (laid c) classes ret = Ret (0, classes', None)
    else examine_argument (laid c) classes ret =
           Ret (Z.of_nat (words c), classes',
                Some (ngpr_of (code_class c 0), nsse_of (code_class c 0))) ∧
         starts classes' (code_class c 0).
Proof.
  intros Hw Hl. destruct (classify_top c classes Hw Hl) as (classes' & Hl' & Hres).
  exists classes'. split; [done|]. unfold examine_argument. destruct (16 <? csize c).
  - by rewrite Hres.
  - destruct Hres as [-> Hst]. split; [|done]. cbn [mbind outcome_bind].
    destruct (words_bounds c Hw) as [_ ?]. rewrite (proj2 (Z.eqb_neq _ 0)) by lia.
    pose proof (count_classes_starts classes' (code_class c 0) 0 0 0 Hst (code_class_simple c 0)) as Hcnt.
    rewrite code_class_length, Nat.sub_0_r in Hcnt. rewrite Nat2Z.id, Hcnt by lia. done.
Qed.

(** ** The rule of the ABI: one class per eightbyte *)

(** The scalars of a type that starts at [off], with their offsets. *)
Definition field_leaves (F : cty → Z → list (Z * scalar)) : list cty → Z → list (Z * scalar) :=
  fix go l b :=
    match l with
    | [] => []
    | f :: l => let b := align_up b (calign f) in F f b ++ go l (b + csize f)
    end.

Fixpoint leaves (c : cty) (off : Z) : list (Z * scalar) :=
  match c with
  | CScalar s => [(off, s)]
  | CStruct fs => field_leaves leaves fs off
  end.

(** The merge of the classes of the scalars in eightbyte [k]. *)
Definition class_at (L : list (Z * scalar)) (k : Z) : x86_64_reg_class :=
  foldr (λ p acc, if p.1 / 8 =? k then merge_classes (scalar_class p.2 (p.1 mod 8)) acc else acc)
    X86_64_NO_CLASS L.

Definition eightbytes_from (c : cty) (off : Z) : list x86_64_reg_class :=
  (λ k : nat, class_at (leaves c off) (Z.of_nat k)) <$> seq 0 (words c).
Definition eightbytes (c : cty) : list x86_64_reg_class := eightbytes_from c 0.

(** No nested structure at offset [r] of an eightbyte reaches into one more
    eightbyte than its size alone takes. *)
Definition fields_fit (F : cty → Z → bool) : list cty → Z → bool :=
  fix go l b :=
    match l with
    | [] => true
    | f :: l => let b := align_up b (calign f) in F f (b mod 8) && go l (b + csize f)
    end.

Fixpoint fits (c : cty) (r : Z) : bool :=
  match c with
  | CScalar _ => true
  | CStruct fs => (r + csize c <=? 8 * Z.of_nat (words c)) && fields_fit fits fs r
  end.

(** The rule of the ABI itself: an eightbyte with an integer or a pointer in it
    is of class INTEGER, one with only floating-point scalars of class SSE. *)
Inductive abi_class : Set := AbiNone | AbiInteger | AbiSSE.

Definition abi_of_class (c : x86_64_reg_class) : option abi_class :=
  match c with
  | X86_64_NO_CLASS => Some AbiNone
  | X86_64_INTEGER_CLASS | X86_64_INTEGERSI_CLASS => Some AbiInteger
  | X86_64_SSE_CLASS | X86_64_SSESF_CLASS | X86_64_SSEDF_CLASS => Some AbiSSE
  | _ => None
  end.

Definition fp_scalar (s : scalar) : bool := match s with SFloat | SDouble => true | _ => false end.

Definition abi_eightbyte (L : list (Z * scalar)) (k : Z) : abi_class :=
  let here := filter (λ p, p.1 / 8 = k ∧ p.2 ≠ SVoid) L in
  if existsb (λ p, negb (fp_scalar p.2)) here then AbiInteger
  else if existsb (λ p, fp_scalar p.2) here then AbiSSE else AbiNone.

Lemma class_at_simple L k : simple (class_at L k) = true.
Proof.
  induction L as [|[o s] L IH]; [done|]. simpl. case_match; [|done].
  apply merge_simple; [apply scalar_class_simple|done].
Qed.

Lemma abi_of_merge a b : simple a = true → simple b = true →
  abi_of_class (merge_classes a b) =
    match abi_of_class a, abi_of_class b with
    | Some AbiInteger, _ | _, Some AbiInteger => Some AbiInteger
    | Some AbiSSE, _ | _, Some AbiSSE => Some AbiSSE
    | _, _ => Some AbiNone
    end.
Proof. by destruct a, b. Qed.

Lemma abi_of_class_at L k : abi_of_class (class_at L k) = Some (abi_eightbyte L k).
Proof.
  induction L as [|[o s] L IH]; [done|]. unfold abi_eightbyte in *. cbn [class_at foldr fst snd]. fold (class_at L k).
  rewrite filter_cons. destruct (Z.eqb_spec (o / 8) k) as [Hk|Hk]; [|by rewrite decide_False by (intros [? _]; done)].
  rewrite abi_of_merge, IH by (apply scalar_class_simple || apply class_at_simple).
  destruct (decide (s = SVoid)) as [->|Hs]; [rewrite decide_False by (intros [_ ?]; done); cbn; by repeat case_match|].
  rewrite decide_True by done. cbn [existsb fst snd].
  destruct s; try done; cbn [scalar_class fp_scalar negb orb]; repeat case_match; done.
Qed.

Lemma class_at_app L1 L2 k :
  class_at (L1 ++ L2) k = merge_classes (class_at L1 k) (class_at L2 k).
Proof.
  induction L1 as [|[o s] L1 IH]; [symmetry; apply merge_unit_l|]. simpl. rewrite IH.
  case_match; [|done]. apply merge_assoc; [apply scalar_class_simple|apply class_at_simple..].
Qed.

Lemma class_at_none L k : Forall (λ p, p.1 / 8 ≠ k) L → class_at L k = X86_64_NO_CLASS.
Proof.
  induction 1 as [|[o s] L Ho _ IH]; [done|]. simpl in *. by rewrite (proj2 (Z.eqb_neq _ _) Ho).
Qed.

Lemma class_at_cons p L k : class_at (p :: L) k =
  if p.1 / 8 =? k then merge_classes (scalar_class p.2 (p.1 mod 8)) (class_at L k) else class_at L k.
Proof. reflexivity. Qed.

Definition shift (d : Z) (p : Z * scalar) : Z * scalar := (p.1 + d, p.2).

Lemma class_at_shift q L k : class_at (shift (8 * q) <$> L) k = class_at L (k - q).
Proof.
  induction L as [|[o s] L IH]; [done|]. rewrite fmap_cons, !class_at_cons, IH. simpl.
  replace (o + 8 * q) with (o + q * 8) by lia. rewrite Z.div_add, Z.mod_add by lia.
  destruct (Z.eqb_spec (o / 8 + q) k), (Z.eqb_spec (o / 8) (k - q)); (done || lia).
Qed.

Lemma align_up_shift_8 c b q : cty_wf c = true →
  align_up (b + 8 * q) (calign c) = align_up b (calign c) + 8 * q.
Proof.
  intros Hw. replace (b + 8 * q) with (8 * q + b) by lia.
  rewrite align_up_shift; [lia|by apply calign_pos|].
  apply Z.divide_mul_l. by apply calign_divide_8.
Qed.

Lemma leaves_shift c off q : cty_wf c = true →
  leaves c (off + 8 * q) = shift (8 * q) <$> leaves c off.
Proof.
  revert off. induction c as [s|fs IH] using cty_ind'; intros off Hw; [done|].
  apply cty_wf_struct in Hw as [_ Hfs]. cbn [leaves]. revert off Hfs.
  induction IH as [|f fs Hf _ IH]; intros off Hfs; [done|]. apply Forall_cons in Hfs as [Hw Hfs].
  simpl. rewrite fmap_app, align_up_shift_8, Hf by done. f_equal.
  rewrite <- IH by done. f_equal. lia.
Qed.

Lemma leaves_range c off : cty_wf c = true → (calign c | off) →
  Forall (λ p, off ≤ p.1 < off + csize c) (leaves c off).
Proof.
  revert off. induction c as [s|fs IH] using cty_ind'; intros off Hw Hd.
  - apply Forall_singleton. simpl. pose proof (scalar_size_range s). lia.
  - assert (Forall (λ p, off ≤ p.1 < fields_end csize calign fs off) (leaves (CStruct fs) off)) as H.
    + clear Hd. apply cty_wf_struct in Hw as [_ Hfs]. cbn [leaves]. revert off Hfs.
      induction IH as [|f fs Hf _ IH]; intros off Hfs; [done|]. apply Forall_cons in Hfs as [Hw Hfs].
      pose proof (calign_pos f Hw) as Hp. destruct (align_up_spec off (calign f) Hp) as [? Hdiv].
      pose proof (csize_pos f Hw). simpl. apply Forall_app. split.
      * eapply Forall_impl; [by apply Hf|]. intros [o s] ?. simpl in *.
        pose proof (fields_end_ge csize calign fs (align_up off (calign f) + csize f) (wf_fields fs Hfs)). lia.
      * eapply Forall_impl; [by apply IH|]. intros [o s] ?. simpl in *. lia.
    + eapply Forall_impl; [exact H|]. intros [o s] ?. simpl fst in *.
      enough (fields_end csize calign fs off ≤ off + csize (CStruct fs)) by lia.
      rewrite <- (Z.add_0_r off) at 1. rewrite fields_end_shift.
      * pose proof (fields_end_le_csize fs Hw). lia.
      * apply Forall_forall. intros f Hf. split.
        -- apply cty_wf_struct in Hw as [_ Hfs]. rewrite Forall_forall in Hfs. by apply calign_pos, Hfs.
        -- etrans; [by apply (calign_field_divide fs)|done].
Qed.

Lemma merge_at_lookup {A} (m : A → A → A) pos sub acc k :
  merge_at m pos sub acc !! k =
    match acc !! k with
    | None => None
    | Some a => Some (if bool_decide (k < pos)%nat then a else
                      match sub !! (k - pos)%nat with Some s => m s a | None => a end)
    end.
Proof.
  revert pos sub k. induction acc as [|a acc IH]; intros pos sub k; [done|].
  destruct pos as [|pos]; [destruct sub as [|s sub]|]; destruct k as [|k]; try done; cbn [merge_at].
  - simpl. by destruct (acc !! k).
  - simpl. rewrite IH. rewrite Nat.sub_0_r. destruct (acc !! k); [|done].
    by rewrite !bool_decide_eq_false_2 by lia.
  - simpl. rewrite IH. destruct (acc !! k); [|done]. f_equal.
    rewrite (bool_decide_ext (k < pos)%nat (S k < S pos)%nat) by lia. done.
Qed.

(** A field merged at its place. *)
Lemma merge_at_field f b done W : cty_wf f = true → 0 ≤ b → (calign f | b) →
  b mod 8 + csize f ≤ 8 * Z.of_nat (words f) →
  merge_at merge_classes (Z.to_nat (b / 8)) (eightbytes_from f (b mod 8))
      ((λ k : nat, class_at done (Z.of_nat k)) <$> seq 0 W) =
    (λ k : nat, class_at (done ++ leaves f b) (Z.of_nat k)) <$> seq 0 W.
Proof.
  intros Hw Hb Hd Hfit. apply list_eq. intros k. rewrite merge_at_lookup, !list_lookup_fmap.
  destruct (seq 0 W !! k) as [k'|] eqn:Hk; [|done]. apply lookup_seq in Hk as [-> _]. simpl. f_equal.
  assert (leaves f b = shift (8 * (b / 8)) <$> leaves f (b mod 8)) as Hsh.
  { rewrite <- leaves_shift by done. f_equal. pose proof (Z.div_mod b 8). lia. }
  rewrite class_at_app, Hsh, class_at_shift.
  assert (0 ≤ b / 8) by (apply Z.div_pos; lia).
  assert ((calign f | b mod 8)) as Hd8 by (apply divide_mod_8; [by apply calign_divide_8|done]).
  pose proof (leaves_range f (b mod 8) Hw Hd8) as Hr. pose proof (Z.mod_pos_bound b 8).
  assert (∀ i, i < 0 ∨ Z.of_nat (words f) ≤ i → class_at (leaves f (b mod 8)) i = X86_64_NO_CLASS) as Hout.
  { intros i Hi. apply class_at_none. eapply Forall_impl; [exact Hr|]. intros [o s] Ho. simpl in *.
    pose proof (Z.div_mod o 8). pose proof (Z.mod_pos_bound o 8). lia. }
  case_bool_decide; [by rewrite Hout, merge_unit_r by lia|].
  unfold eightbytes_from. rewrite list_lookup_fmap.
  destruct (seq 0 (words f) !! (k - Z.to_nat (b / 8))%nat) as [i|] eqn:Hi; simpl.
  - apply lookup_seq in Hi as [-> ?]. rewrite merge_comm. f_equal. f_equal. lia.
  - apply lookup_ge_None in Hi. rewrite length_seq in Hi. by rewrite Hout, merge_unit_r by lia.
Qed.

Lemma fits_covers c r : cty_wf c = true → 0 ≤ r < 8 → (calign c | r) → fits c r = true →
  r + csize c ≤ 8 * Z.of_nat (words c).
Proof.
  intros Hw Hr Hd Hf. destruct c as [s|fs].
  - rewrite words_scalar. pose proof (scalar_fits s r Hr Hd). simpl. lia.
  - cbn [fits] in Hf. apply andb_prop in Hf as [Hf _]. by apply Z.leb_le in Hf.
Qed.

(** On a type that fits, the code computes the rule of the ABI. *)
Lemma code_class_fits c r : cty_wf c = true → 0 ≤ r < 8 → (calign c | r) → fits c r = true →
  code_class c r = eightbytes_from c r.
Proof.
  revert r. induction c as [s|fs IH] using cty_ind'; intros r Hw Hr Hd Hf.
  - unfold eightbytes_from. rewrite words_scalar. simpl. rewrite Z.mod_small, Z.div_small by lia.
    simpl. by rewrite merge_unit_r.
  - cbn [fits] in Hf. apply andb_prop in Hf as [_ Hf]. apply cty_wf_struct in Hw as [_ Hfs].
    unfold eightbytes_from. cbn [code_class leaves].
    generalize (words (CStruct fs)) as W. intros W.
    assert (replicate W X86_64_NO_CLASS = (λ k : nat, class_at [] (Z.of_nat k)) <$> seq 0 W) as ->.
    { apply list_eq. intros k. rewrite list_lookup_fmap.
      destruct (decide (k < W)%nat).
      - rewrite lookup_replicate_2, lookup_seq_lt by lia. done.
      - by rewrite !lookup_ge_None_2 by (rewrite ?length_replicate, ?length_seq; lia). }
    change (field_leaves leaves fs r) with ([] ++ field_leaves leaves fs r).
    generalize (@nil (Z * scalar)) as L. assert (0 ≤ r) as Hr0 by lia. clear Hr Hd.
    revert r Hr0 Hf. induction IH as [|f fs HfI _ IH]; intros r Hr0 Hf L.
    + cbn [fields_class field_leaves]. by rewrite app_nil_r.
    + apply Forall_cons in Hfs as [Hw Hfs]. cbn [fields_fit] in Hf. apply andb_prop in Hf as [Hf1 Hf2].
      cbn [fields_class field_leaves]. pose proof (calign_pos f Hw) as Hp.
      destruct (align_up_spec r (calign f) Hp) as [? Hdiv]. pose proof (csize_pos f Hw).
      pose proof (Z.mod_pos_bound (align_up r (calign f)) 8).
      assert ((calign f | align_up r (calign f) mod 8)) as Hd8
        by (apply divide_mod_8; [by apply calign_divide_8|done]).
      rewrite HfI by (done || lia). rewrite merge_at_field; [|done|lia|done|].
      * rewrite app_assoc. apply IH; [done|lia|done].
      * apply fits_covers; (done || lia).
Qed.

(** ** Properties *)

(** [merge_classes] is commutative, and on the classes the classifier
    produces it is associative and idempotent with [NO_CLASS] as unit, so the
    class of an eightbyte does not depend on the order of the fields. *)
Theorem merge_classes_semilattice a b c :
  simple a = true → simple b = true → simple c = true →
  merge_classes a b = merge_classes b a ∧
  merge_classes a (merge_classes b c) = merge_classes (merge_classes a b) c ∧
  merge_classes a a = a ∧ merge_classes a X86_64_NO_CLASS = a ∧
  simple (merge_classes a b) = true.
Proof.
  intros Ha Hb Hc. split_and!; [apply merge_comm|by apply merge_assoc|by destruct a|
    apply merge_unit_r|by apply merge_simple].
Qed.

(** On every proper type the classifier runs to completion, without a
    failing assertion and without deciding on an uninitialized class; it
    answers "memory" exactly for the types of more than 16 bytes, and
    otherwise one class per eightbyte. *)
Theorem classify_argument_total c classes :
  cty_wf c = true → length classes = 4%nat →
  ∃ n classes', classify_argument (laid c) classes 0 = Ret (n, classes') ∧
    (n = 0 ↔ 16 < csize c) ∧
    (n ≠ 0 → n = (csize c + 7) / 8 ∧
       ∀ k, 0 ≤ k < n → ∃ x, get_class classes' (Z.to_nat k) = Ret x ∧ simple x = true).
Proof.
  intros Hw Hl. destruct (classify_top c classes Hw Hl) as (classes' & _ & Hres).
  destruct (words_bounds c Hw) as [Hb H1]. pose proof (csize_pos c Hw).
  destruct (Z.ltb_spec 16 (csize c)).
  - exists 0, classes'. split; [done|]. split; [|done]. lia.
  - destruct Hres as [-> Hst]. eexists _, _. split; [done|]. split; [lia|]. intros _.
    split; [unfold words; rewrite Z2Nat.id; [done|apply Z.div_pos; lia]|]. intros k Hk.
    destruct (lookup_lt_is_Some_2 (code_class c 0) (Z.to_nat k)) as [x Hx];
      [rewrite code_class_length; lia|].
    exists x. split; [by eapply starts_get|].
    by apply (Forall_lookup_1 _ _ _ _ (code_class_simple c 0) Hx).
Qed.

(** C24.  On a type of at most 16 bytes none of whose nested structures
    straddles an eightbyte boundary, the classifier gives each eightbyte the
    class the System V ABI prescribes: INTEGER if there is an integer or a
    pointer in it, SSE if there are only floating-point scalars. *)
Theorem classify_argument_abi c classes :
  cty_wf c = true → length classes = 4%nat → csize c ≤ 16 → fits c 0 = true →
  ∃ classes', classify_argument (laid c) classes 0 = Ret (Z.of_nat (words c), classes') ∧
    ∀ k, (k < words c)%nat → ∃ x, get_class classes' k = Ret x ∧
      abi_of_class x = Some (abi_eightbyte (leaves c 0) (Z.of_nat k)).
Proof.
  intros Hw Hl Hs Hf. destruct (classify_top c classes Hw Hl) as (classes' & _ & Hres).
  rewrite (proj2 (Z.ltb_ge 16 _)) in Hres by lia. destruct Hres as [Hc Hst].
  exists classes'. split; [done|]. intros k Hk. eexists. split; [|apply abi_of_class_at].
  eapply starts_get; [exact Hst|].
  rewrite code_class_fits by (done || lia || apply Z.divide_0_r).
  unfold eightbytes_from. rewrite list_lookup_fmap, lookup_seq_lt by done. done.
Qed.

(** [struct { float; struct { float; float; } }] *)
Definition straddling : cty :=
  CStruct [CScalar SFloat; CStruct [CScalar SFloat; CScalar SFloat]].

(** For [struct { float a; struct { float b, c; } s; }] the classifier
    gives the second eightbyte no class, though it holds the float [c]: the
    number of eightbytes of a nested structure is computed from its size
    alone, not from where it starts. *)
Theorem classify_argument_straddling :
  ∃ classes', classify_argument (laid straddling) uninit_classes 0 = Ret (2, classes') ∧
    get_class classes' 1 = Ret X86_64_NO_CLASS ∧
    class_at (leaves straddling 0) 1 = X86_64_SSESF_CLASS.
Proof. eexists. split; [vm_compute; reflexivity|]. split; vm_compute; reflexivity. Qed.

Lemma merge_classes_semilattice_witness :
  merge_classes X86_64_INTEGERSI_CLASS (merge_classes X86_64_SSESF_CLASS X86_64_SSEDF_CLASS) =
  merge_classes (merge_classes X86_64_INTEGERSI_CLASS X86_64_SSESF_CLASS) X86_64_SSEDF_CLASS.
Proof.
  exact (proj1 (proj2 (merge_classes_semilattice X86_64_INTEGERSI_CLASS X86_64_SSESF_CLASS
    X86_64_SSEDF_CLASS eq_refl eq_refl eq_refl))).
Defined.

Lemma classify_argument_total_witness :
  ∃ n classes', classify_argument (laid straddling) uninit_classes 0 = Ret (n, classes') ∧ n ≠ 0.
Proof.
  destruct (classify_argument_total straddling uninit_classes eq_refl eq_refl) as (n & cl & H & Hn & _).
  exists n, cl. split; [exact H|]. intros H0. apply Hn in H0. vm_compute in H0. discriminate H0.
Defined.

(** [struct { float; int; double; }] *)
Lemma classify_argument_abi_witness :
  ∃ classes' x y, get_class classes' 0 = Ret x ∧ abi_of_class x = Some AbiInteger ∧
    get_class classes' 1 = Ret y ∧ abi_of_class y = Some AbiSSE ∧
    classify_argument (laid (CStruct [CScalar SFloat; CScalar SS32; CScalar SDouble]))
      uninit_classes 0 = Ret (2, classes').
Proof.
  destruct (classify_argument_abi (CStruct [CScalar SFloat; CScalar SS32; CScalar SDouble])
    uninit_classes) as (cl & H & Hk); [reflexivity|reflexivity|vm_compute; discriminate|reflexivity|].
  destruct (Hk 0%nat (le_S _ _ (le_n _))) as (x & Hx & Ax).
  destruct (Hk 1%nat (le_n _)) as (y & Hy & Ay).
  exists cl, x, y. split; [exact Hx|]. split; [exact Ax|]. split; [exact Hy|]. split; [exact Ay|exact H].
Defined.
