(* ===== verification/XXAlloc.v ===== *)
(** * Argument allocation of [xx_prep_cif.c] against the System V rules

    The abstract allocator keeps the number of general and SSE registers in
    use and the stack bytes; an argument goes to the registers of its classes
    when they all fit and to the stack otherwise.  [my_xx_fi_prep_cif] is shown
    to write the words that describe those places, for every proper
    prototype. *)

From S2P Require Import Prelude ABIArgInfo FfiTypes Layout Placement AAPrepCif HFA AAAlloc XXPrepCif XXClass.

(** ** The abstract allocator *)

Record xalloc := mk_xalloc { xg : Z; xs : Z; xb : Z }.

(** The registers of a class list from the first free ones; narrow integers
    carry how they are extended. *)
Fixpoint regs_of (li : Z) (L : list x86_64_reg_class) (g s : Z) : list (Z * Z) :=
  match L with
  | [] => []
  | c :: L =>
      if is_gpr_class c then
        (nth (Z.to_nat g) xx_gprcnt2reg 0, li) :: regs_of li L (g + 1) s
      else if is_sse_class c then (TE_XMM0 + s, TE_Full) :: regs_of li L g (s + 1)
      else regs_of li L g s
  end.

Definition loc_info (c : cty) : Z := xx_loc_info (ty_type (laid c)).

(** Whether the argument goes to the stack. *)
Definition x_in_memory (c : cty) (a : xalloc) : bool :=
  (16 <? csize c) || ((6 <? xg a + ngpr_of (code_class c 0)) || (8 <? xs a + nsse_of (code_class c 0))).

Definition xplace (c : cty) (a : xalloc) : place * xalloc :=
  if x_in_memory c a
  then (OnStack (align_up (xb a) 8) (loc_info c), mk_xalloc (xg a) (xs a) (align_up (xb a) 8 + csize c))
  else (InRegs (regs_of (loc_info c) (code_class c 0) (xg a) (xs a)),
        mk_xalloc (xg a + ngpr_of (code_class c 0)) (xs a + nsse_of (code_class c 0)) (xb a)).

Fixpoint xplaces (cs : list cty) (a : xalloc) : list place * xalloc :=
  match cs with
  | [] => ([], a)
  | c :: cs =>
      let '(p, a) := xplace c a in
      let '(ps, a) := xplaces cs a in
      (p :: ps, a)
  end.

Definition xalloc_ok (a : xalloc) : Prop := 0 ≤ xg a ≤ 6 ∧ 0 ≤ xs a ≤ 8 ∧ 0 ≤ xb a.

Definition xconc (a : xalloc) (classes : list slot) (fi : option ABIFnInfo) : xx_state :=
  mk_xx_state (xg a) (xs a) (xb a) classes fi.

(** ** The registers of the classes *)

Lemma gpr_table_range g : 0 ≤ g < 6 →
  ∃ r, xx_gprcnt2reg !! Z.to_nat g = Some r ∧ nth (Z.to_nat g) xx_gprcnt2reg 0 = r ∧ 0 < r < TE_XMM0.
Proof.
  intros Hg. assert (g = 0 ∨ g = 1 ∨ g = 2 ∨ g = 3 ∨ g = 4 ∨ g = 5) as H by lia.
  destruct_or! H; subst; eexists; (split; [reflexivity|]); split; (reflexivity || (vm_compute; split; reflexivity)).
Qed.

Lemma gpr_table_inj g h : 0 ≤ g < 6 → 0 ≤ h < 6 →
  nth (Z.to_nat g) xx_gprcnt2reg 0 = nth (Z.to_nat h) xx_gprcnt2reg 0 → g = h.
Proof.
  intros Hg Hh. assert (g = 0 ∨ g = 1 ∨ g = 2 ∨ g = 3 ∨ g = 4 ∨ g = 5) as H by lia.
  assert (h = 0 ∨ h = 1 ∨ h = 2 ∨ h = 3 ∨ h = 4 ∨ h = 5) as H' by lia.
  destruct_or! H; destruct_or! H'; subst; vm_compute; congruence.
Qed.

Lemma sse_table s : 0 ≤ s < 8 → xx_ssecnt2reg !! Z.to_nat s = Some (TE_XMM0 + s).
Proof.
  intros Hs. assert (s = 0 ∨ s = 1 ∨ s = 2 ∨ s = 3 ∨ s = 4 ∨ s = 5 ∨ s = 6 ∨ s = 7) as H by lia.
  by destruct_or! H; subst.
Qed.

Lemma loc_info_range c : 0 ≤ loc_info c < 2 ^ 8.
Proof. unfold loc_info, xx_loc_info. by case_match. Qed.

Lemma regs_of_length li L g s : Z.of_nat (length (regs_of li L g s)) = ngpr_of L + nsse_of L.
Proof.
  revert g s. induction L as [|c L IH]; intros g s; [done|].
  rewrite ngpr_of_cons, nsse_of_cons. simpl.
  destruct c; simpl; rewrite ?Nat2Z.inj_succ, IH; lia.
Qed.

Lemma regs_of_spec li L g s : 0 ≤ li < 2 ^ 8 → 0 ≤ g → 0 ≤ s →
  g + ngpr_of L ≤ 6 → s + nsse_of L ≤ 8 →
  Forall (λ p, 0 < p.1 < 2 ^ 8 ∧ 0 ≤ p.2 < 2 ^ 8 ∧
    ((∃ j, g ≤ j < g + ngpr_of L ∧ p.1 = nth (Z.to_nat j) xx_gprcnt2reg 0) ∨
     TE_XMM0 + s ≤ p.1 < TE_XMM0 + s + nsse_of L)) (regs_of li L g s).
Proof.
  intros Hli. revert g s. induction L as [|c L IH]; intros g s Hg Hs Hgb Hsb; [constructor|].
  destruct (reg_counts_le L) as (? & ? & _). rewrite ngpr_of_cons, nsse_of_cons in *.
  cbn [regs_of]. destruct (is_gpr_class c) eqn:Hgc; [|destruct (is_sse_class c) eqn:Hsc].
  - assert (is_sse_class c = false) as Hsc by (by destruct c). rewrite Hsc in *.
    destruct (gpr_table_range g) as (r & _ & Hr & Hrr); [lia|]. unfold TE_XMM0 in Hrr.
    constructor.
    + cbn [fst snd]. rewrite Hr. split_and!; try lia. left. exists g. split; [lia|done].
    + eapply Forall_impl; [apply IH; lia|]. simpl. intros p (? & ? & [(j & ? & ?)|?]); split_and!; try lia.
      left. exists j. split; [lia|done].
  - constructor.
    + simpl. unfold TE_XMM0, TE_Full. split_and!; try lia.
    + eapply Forall_impl; [apply IH; lia|]. simpl. intros p (? & ? & [(j & ? & ?)|?]); split_and!; try lia.
      left. exists j. split; [lia|done].
  - apply IH; lia.
Qed.

Lemma regs_of_ok li L g s : 0 ≤ li < 2 ^ 8 → 0 ≤ g → 0 ≤ s →
  g + ngpr_of L ≤ 6 → s + nsse_of L ≤ 8 → pairs_ok (regs_of li L g s).
Proof.
  intros. eapply Forall_impl; [by apply regs_of_spec|]. simpl. intros p (? & ? & _). done.
Qed.

(** ** Refinement of one argument *)

(** The body of the register loop by the kind of class. *)
Lemma xx_pass_class t i j n k st c : get_class (xx_classes st) j = Ret c → simple c = true →
  xx_pass_in_regs t i j (S n) k st =
    if is_gpr_class c then
      fi ← upd_arg (xx_fnInfo st) i (λ a,
             _ ← c_assert (k <? 4); r ← c_index xx_gprcnt2reg (Z.to_nat (xx_gprcount st));
             te_set_reg k r (xx_loc_info t) a);
      xx_pass_in_regs t i (S j) n (k + 1)
        (mk_xx_state (xx_gprcount st + 1) (xx_ssecount st) (xx_stack_bytes st) (xx_classes st) fi)
    else if is_sse_class c then
      fi ← upd_arg (xx_fnInfo st) i (λ a,
             _ ← c_assert (k <? 4); r ← c_index xx_ssecnt2reg (Z.to_nat (xx_ssecount st));
             te_set_reg k r TE_Full a);
      xx_pass_in_regs t i (S j) n (k + 1)
        (mk_xx_state (xx_gprcount st) (xx_ssecount st + 1) (xx_stack_bytes st) (xx_classes st) fi)
    else xx_pass_in_regs t i (S j) n k st.
Proof. intros Hc Hs. cbn [xx_pass_in_regs]. rewrite Hc. by destruct c. Qed.

Section step.
Context (fi : ABIFnInfo) (i : nat) (Hi : (i < length (ainfo fi))%nat).

Abbreviation x_slot a classes x := (xconc a classes (Some (fi_at fi i x))).

Lemma put_reg tbl n r li pre sz :
  tbl !! n = Some r → 0 < r < 2 ^ 8 → 0 ≤ li < 2 ^ 8 → pairs_ok pre → (length pre < 4)%nat →
  upd_arg (Some (fi_at fi i (mkABIArgInfo (pack pre) sz 0))) i (λ a,
      _ ← c_assert (Z.of_nat (length pre) <? 4); r ← c_index tbl n;
      te_set_reg (Z.of_nat (length pre)) r li a) =
    Ret (Some (fi_at fi i (mkABIArgInfo (pack (pre ++ [(r, li)])) sz 0))).
Proof.
  intros Hn Hr Hli Hpre Hlen. rewrite upd_arg_at by done. rewrite (proj2 (Z.ltb_lt _ 4)) by lia.
  cbn [c_assert mbind outcome_bind]. unfold c_index. rewrite Hn. cbn [mbind outcome_bind].
  by rewrite te_set_reg_pack by (done || unfold in_u; lia).
Qed.

Lemma xx_pass_in_regs_refines t sz classes L a j n pre :
  starts classes L → Forall (λ c, simple c = true) L → xalloc_ok a → pairs_ok pre →
  (j + n = length L)%nat → (length pre + n ≤ 4)%nat →
  xg a + ngpr_of (drop j L) ≤ 6 → xs a + nsse_of (drop j L) ≤ 8 →
  0 ≤ xx_loc_info t < 2 ^ 8 →
  xx_pass_in_regs t i j n (Z.of_nat (length pre)) (x_slot a classes (mkABIArgInfo (pack pre) sz 0)) =
    Ret (x_slot (mk_xalloc (xg a + ngpr_of (drop j L)) (xs a + nsse_of (drop j L)) (xb a)) classes
           (mkABIArgInfo (pack (pre ++ regs_of (xx_loc_info t) (drop j L) (xg a) (xs a))) sz 0)).
Proof.
  intros Hst HL Ha Hpre Hjn. revert a Ha j pre Hpre Hjn.
  induction n as [|n IH]; intros a (Hg & Hs & Hb) j pre Hpre Hjn Hlen Hgb Hsb Hli.
  - rewrite drop_ge by lia. simpl. unfold ngpr_of, nsse_of. simpl. rewrite app_nil_r, !Z.add_0_r.
    by destruct a.
  - destruct (lookup_lt_is_Some_2 L j) as [c Hc]; [lia|].
    pose proof (Forall_lookup_1 _ _ _ _ HL Hc) as Hsc. simpl in Hsc.
    rewrite (xx_pass_class _ _ _ _ _ _ c) by (done || by eapply starts_get).
    rewrite (drop_S L c j Hc) in Hgb, Hsb |- *. rewrite ngpr_of_cons in Hgb |- *.
    rewrite nsse_of_cons in Hsb |- *. destruct (reg_counts_le (drop (S j) L)) as (? & ? & _).
    cbn [regs_of xconc xx_classes xx_gprcount xx_ssecount xx_stack_bytes xx_fnInfo].
    destruct (is_gpr_class c) eqn:Hgc; [|destruct (is_sse_class c) eqn:Hsc'].
    + destruct (gpr_table_range (xg a)) as (r & Hr & -> & ?); [lia|]. unfold TE_XMM0 in *.
      assert (is_sse_class c = false) as Hsc' by (by destruct c). rewrite Hsc' in *.
      rewrite (put_reg _ _ r) by (done || lia). cbn [mbind outcome_bind].
      replace (Z.of_nat (length pre) + 1) with (Z.of_nat (length (pre ++ [(r, xx_loc_info t)])))
        by (rewrite length_app; simpl; lia).
      etrans; [apply (IH (mk_xalloc (xg a + 1) (xs a) (xb a))); simpl; try lia; try (rewrite length_app; simpl; lia)|].
      * unfold xalloc_ok. simpl. lia.
      * apply Forall_app. split; [done|]. apply Forall_singleton. simpl. lia.
      * cbn [xg xs xb]. rewrite <- app_assoc. by rewrite !Z.add_assoc, ?Z.add_0_r.
    + rewrite (put_reg _ _ _ _ _ _ (sse_table (xs a) ltac:(lia)))
        by (unfold TE_XMM0, TE_Full; done || lia). cbn [mbind outcome_bind].
      replace (Z.of_nat (length pre) + 1) with (Z.of_nat (length (pre ++ [(TE_XMM0 + xs a, TE_Full)])))
        by (rewrite length_app; simpl; lia).
      etrans; [apply (IH (mk_xalloc (xg a) (xs a + 1) (xb a))); simpl; try lia; try (rewrite length_app; simpl; lia)|].
      * unfold xalloc_ok. simpl. lia.
      * apply Forall_app. split; [done|]. apply Forall_singleton. unfold TE_XMM0, TE_Full. simpl. lia.
      * cbn [xg xs xb]. rewrite <- app_assoc. by rewrite !Z.add_assoc, ?Z.add_0_r.
    + by apply (IH a); (done || lia).
Qed.

Lemma xx_pass_in_memory_refines c classes a :
  cty_wf c = true → xalloc_ok a → xb a + 8 + csize c < 2 ^ 32 →
  xx_pass_in_memory (laid c) i (x_slot a classes (sized (csize c))) =
    Ret (x_slot (mk_xalloc (xg a) (xs a) (align_up (xb a) 8 + csize c)) classes
           (slot_info (OnStack (align_up (xb a) 8) (loc_info c)) false (csize c))).
Proof.
  intros Hw (_ & _ & Hb) Hbound. unfold xx_pass_in_memory. rewrite laid_alignment, laid_size.
  pose proof (calign_le_8 c). pose proof (csize_pos c Hw).
  assert ((if calign c <? 8 then 8 else calign c) = 8) as -> by (case_match; btests; lia).
  pose proof (align_up_spec (xb a) 8). cbn [xconc xx_stack_bytes xx_fnInfo].
  rewrite FFI_ALIGN_ok; [|by exists 3|lia]. rewrite upd_arg_at by done.
  unfold or_mask, sized. simpl val. simpl size. simpl mask. fold (loc_info c).
  pose proof (loc_info_range c).
  rewrite te_set_mem_zero by (unfold in_u; lia). cbn [fmap outcome_fmap mbind outcome_bind].
  rewrite wrap_small by (unfold in_u; lia). done.
Qed.

Lemma xx_arg_refines c classes a :
  arg_type_ok c → xalloc_ok a → length classes = 4%nat → xb a + 8 + csize c < 2 ^ 32 →
  ∃ classes', length classes' = 4%nat ∧
    xx_arg i (laid c) (x_slot a classes zero_arg_info) =
      let '(p, a') := xplace c a in Ret (x_slot a' classes' (slot_info p false (csize c))).
Proof.
  intros [Hw _] Ha Hl Hb. pose proof Ha as (? & ? & ?). pose proof (csize_pos c Hw).
  destruct (examine_laid c classes false Hw Hl) as (classes' & Hl' & Hex).
  exists classes'. split; [done|]. unfold xx_arg. cbn [xconc xx_fnInfo xx_classes].
  rewrite upd_arg_at by done. cbn [fmap outcome_fmap mbind outcome_bind].
  unfold te_set_arg_size. simpl val. simpl mask. rewrite laid_size, wrap_small by (unfold in_u; lia).
  fold (sized (csize c)). unfold xplace, x_in_memory.
  destruct (16 <? csize c) eqn:H16; cbn [orb].
  - rewrite Hex. by apply xx_pass_in_memory_refines.
  - destruct Hex as [-> Hst]. cbn [mbind outcome_bind].
    destruct (words_bounds c Hw) as [? ?]. rewrite (proj2 (Z.eqb_neq _ 0)) by lia.
    cbn [xconc xx_gprcount xx_ssecount xx_stack_bytes]. unfold MAX_GPR_REGS, MAX_SSE_REGS.
    destruct ((6 <? _) || (8 <? _)) eqn:Hfit; [by apply xx_pass_in_memory_refines|]. btests.
    rewrite Nat2Z.id. pose proof (code_class_length c 0) as Hcl.
    apply (xx_pass_in_regs_refines _ _ classes' (code_class c 0) a 0 (words c) []); try done.
    + apply code_class_simple.
    + constructor.
    + simpl. lia.
    + apply loc_info_range.
Qed.
End step.

(** ** All arguments *)

Definition x_arg_infos (cs : list cty) (ps : list place) : list ABIArgInfo :=
  zip_with (λ c p, slot_info p false (csize c)) cs ps.

(** Registers and stack bytes of [p] are free in [a] and used in [a']. *)
Definition xwithin (a : xalloc) (p : place) (n : Z) (a' : xalloc) : Prop :=
  match p with
  | InRegs rs =>
      xb a' = xb a ∧ pairs_ok rs ∧ (length rs ≤ 2)%nat ∧
      ∀ r, r ∈ rs.*1 →
        (∃ j, xg a ≤ j < xg a' ∧ r = nth (Z.to_nat j) xx_gprcnt2reg 0) ∨
        TE_XMM0 + xs a ≤ r < TE_XMM0 + xs a'
  | OnStack off info =>
      xb a ≤ off < xb a + 8 ∧ (8 | off) ∧ off + n = xb a' ∧ 0 ≤ info < 2 ^ 8
  end.

Definition xalloc_le (a a' : xalloc) : Prop := xg a ≤ xg a' ∧ xs a ≤ xs a' ∧ xb a ≤ xb a'.

#[export] Instance xalloc_le_preorder : PreOrder xalloc_le.
Proof. split; [intros ?; unfold xalloc_le; lia|intros ???; unfold xalloc_le; lia]. Qed.

Lemma xplace_spec c a p a' : cty_wf c = true → xalloc_ok a → xplace c a = (p, a') →
  xwithin a p (csize c) a' ∧ xalloc_ok a' ∧ xalloc_le a a' ∧ xb a' ≤ xb a + csize c + 16.
Proof.
  intros Hw (? & ? & ?) Hxp. pose proof (csize_pos c Hw). unfold xplace in Hxp.
  destruct (reg_counts_le (code_class c 0)) as (? & ? & Hle). rewrite code_class_length in Hle.
  pose proof (loc_info_range c). destruct (x_in_memory c a) eqn:Hm; injection Hxp as <- <-.
  - destruct (align_up_spec (xb a) 8) as [? Hd]; [done|].
    unfold xwithin, xalloc_ok, xalloc_le. simpl. split_and!; (done || lia).
  - unfold x_in_memory in Hm. btests. destruct (words_bounds c Hw) as [? ?].
    pose proof (regs_of_spec (loc_info c) (code_class c 0) (xg a) (xs a)) as Hspec.
    pose proof (regs_of_length (loc_info c) (code_class c 0) (xg a) (xs a)).
    unfold xwithin, xalloc_ok, xalloc_le. cbn [xg xs xb]. split_and!; try lia; try done.
    + apply regs_of_ok; lia.
    + intros r ([? li] & -> & Hin)%list_elem_of_fmap. rewrite Forall_forall in Hspec.
      destruct (Hspec ltac:(lia) ltac:(lia) ltac:(lia) ltac:(lia) ltac:(lia) _ Hin) as (_ & _ & Hr).
      simpl in *. destruct Hr as [(j & ? & ?)|?]; [left; exists j; split; [lia|done]|right; lia].
Qed.

Lemma xplaces_step c cs a : arg_type_ok c → xalloc_ok a →
  ∃ p a1, xplaces (c :: cs) a = (p :: (xplaces cs a1).1, (xplaces cs a1).2) ∧
    xplace c a = (p, a1) ∧ xwithin a p (csize c) a1 ∧ xalloc_ok a1 ∧ xalloc_le a a1 ∧
    xb a1 ≤ xb a + csize c + 16.
Proof.
  intros [Hw _] Ha. destruct (xplace c a) as [p a1] eqn:Hp. exists p, a1.
  destruct (xplace_spec _ _ _ _ Hw Ha Hp) as (? & ? & ? & ?).
  simpl. rewrite Hp. destruct (xplaces cs a1). split_and!; auto.
Qed.

(** What is still free in [a]. *)
Definition xbeyond (a : xalloc) (p : place) : Prop :=
  match p with
  | InRegs rs => ∀ r, r ∈ rs.*1 →
      (∃ j, xg a ≤ j < 6 ∧ r = nth (Z.to_nat j) xx_gprcnt2reg 0) ∨
      TE_XMM0 + xs a ≤ r < TE_XMM0 + 8
  | OnStack off _ => xb a ≤ off
  end.

Lemma xwithin_beyond a p n a' : xalloc_ok a' → xwithin a p n a' → xbeyond a p.
Proof.
  intros (? & ? & ?) Hwi. destruct p as [rs|]; cbn [xwithin xbeyond] in *; [|lia].
  intros r Hr. apply Hwi in Hr as [(j & ? & ?)|?]; [left; exists j; split; [lia|done]|right; lia].
Qed.

Lemma xbeyond_le a a' p : xalloc_le a a' → xbeyond a' p → xbeyond a p.
Proof.
  intros (? & ? & ?) Hb. destruct p as [rs|]; cbn [xbeyond] in *; [|lia].
  intros r Hr. apply Hb in Hr as [(j & ? & ?)|?]; [left; exists j; split; [lia|done]|right; lia].
Qed.

Lemma xwithin_beyond_disjoint a p n a' p' n' :
  xalloc_ok a → xalloc_ok a' → xwithin a p n a' → xbeyond a' p' → place_disjoint p n p' n'.
Proof.
  intros (? & ? & ?) (? & ? & ?) Hwi Hb. destruct p as [rs|], p' as [rs'|];
    cbn [xwithin xbeyond place_disjoint] in *; try done; [|lia].
  intros r Hr Hr'. apply Hwi in Hr. apply Hb in Hr'.
  destruct Hr as [(j & ? & Hj)|?], Hr' as [(k & ? & Hk)|?].
  - assert (j = k) by (apply gpr_table_inj; [lia..|congruence]). lia.
  - destruct (gpr_table_range j) as (? & _ & ? & ?); [lia|]. subst. lia.
  - destruct (gpr_table_range k) as (? & _ & ? & ?); [lia|]. subst. lia.
  - lia.
Qed.

Lemma xplaces_ok cs a : Forall arg_type_ok cs → xalloc_ok a →
  xalloc_ok (xplaces cs a).2 ∧ xalloc_le a (xplaces cs a).2 ∧
  xb (xplaces cs a).2 ≤ xb a + stack_room cs ∧ Forall (xbeyond a) (xplaces cs a).1.
Proof.
  intros Hcs. revert a. induction Hcs as [|c cs Hc Hcs IH]; intros a Ha.
  - simpl. split_and!; try done; lia.
  - destruct (xplaces_step c cs a Hc Ha) as (p & a1 & -> & _ & Hwi & Ha1 & Hle & Hr).
    destruct (IH a1 Ha1) as (? & ? & ? & Hb). simpl. fold (stack_room cs).
    split_and!; [done|by etrans|lia|]. constructor; [by apply (xwithin_beyond a p (csize c) a1)|].
    eapply Forall_impl; [exact Hb|]. intros q. by apply xbeyond_le.
Qed.

Lemma xplaces_at cs a j c p : Forall arg_type_ok cs → xalloc_ok a →
  cs !! j = Some c → (xplaces cs a).1 !! j = Some p →
  ∃ b b', xwithin b p (csize c) b' ∧ xalloc_ok b ∧ xalloc_ok b' ∧ xalloc_le b' (xplaces cs a).2.
Proof.
  intros Hcs. revert a j. induction Hcs as [|d cs Hd Hcs IH]; intros a j Ha Hj Hp; [done|].
  destruct (xplaces_step d cs a Hd Ha) as (q & a1 & Heq & _ & Hwi & Ha1 & Hle & _).
  destruct (xplaces_ok cs a1 Hcs Ha1) as (? & ? & _). rewrite Heq in Hp |- *.
  destruct j as [|j]; simpl in *; simplify_eq; [by exists a, a1|]. by apply (IH a1 j).
Qed.

Lemma xplaces_disjoint cs a j k c c' p p' :
  Forall arg_type_ok cs → xalloc_ok a → (j < k)%nat →
  cs !! j = Some c → (xplaces cs a).1 !! j = Some p →
  cs !! k = Some c' → (xplaces cs a).1 !! k = Some p' →
  place_disjoint p (csize c) p' (csize c').
Proof.
  intros Hcs. revert a j k. induction Hcs as [|d cs Hd Hcs IH]; intros a j k Ha Hjk Hj Hp Hk Hp'; [done|].
  destruct (xplaces_step d cs a Hd Ha) as (q & a1 & Heq & _ & Hwi & Ha1 & Hle & _).
  rewrite Heq in Hp, Hp'. destruct k as [|k]; [lia|]. destruct j as [|j]; simpl in *; simplify_eq.
  - destruct (xplaces_ok cs a1 Hcs Ha1) as (_ & _ & _ & Hb).
    eapply xwithin_beyond_disjoint; [exact Ha|exact Ha1|done|]. by eapply Forall_lookup_1.
  - eapply (IH a1 j k); eauto. lia.
Qed.

Lemma xplaces_large cs a j c p : cs !! j = Some c → (xplaces cs a).1 !! j = Some p →
  place_is_mem p = false → csize c ≤ 16.
Proof.
  revert a j. induction cs as [|d cs IH]; intros a j Hj Hp Hm; [done|].
  simpl in Hp. destruct (xplace d a) as [q a1] eqn:Hq. specialize (IH a1).
  destruct (xplaces cs a1) as [ps a2]. destruct j as [|j]; simpl in *; simplify_eq; [|by eapply IH].
  unfold xplace in Hq. destruct (x_in_memory c a) eqn:Hx; simplify_eq/=.
  unfold x_in_memory in Hx. btests. lia.
Qed.

Lemma xplaces_length cs a : length (xplaces cs a).1 = length cs.
Proof.
  revert a. induction cs as [|c cs IH]; intros a; [done|]. simpl.
  destruct (xplace c a) as [p a1]. specialize (IH a1). destruct (xplaces cs a1). simpl in *. by rewrite IH.
Qed.

Lemma xx_args_refines cs i a classes fi pre :
  Forall arg_type_ok cs → xalloc_ok a → length classes = 4%nat → i = length pre →
  ainfo fi = pre ++ replicate (length cs) zero_arg_info → xb a + stack_room cs < 2 ^ 32 →
  ∃ classes', xx_args i (map laid cs) (xconc a classes (Some fi)) =
    Ret (xconc (xplaces cs a).2 classes'
           (Some (set_ainfo (pre ++ x_arg_infos cs (xplaces cs a).1) fi))).
Proof.
  intros Hcs. revert i a classes fi pre.
  induction Hcs as [|c cs Hc Hcs IH]; intros i a classes fi pre Ha Hl -> Hfi Hroom.
  - exists classes. simpl in *. rewrite <- Hfi. by destruct fi.
  - pose proof (stack_room_nonneg _ Hcs). cbn [stack_room foldr] in Hroom. fold (stack_room cs) in Hroom.
    simpl in Hfi. cbn [map xx_args].
    assert (ainfo fi !! length pre = Some zero_arg_info) as Hz
      by (rewrite Hfi; by apply list_lookup_middle).
    destruct (xx_arg_refines fi (length pre) (lookup_lt_Some _ _ _ Hz) c classes a Hc Ha Hl)
      as (classes1 & Hl1 & Heq1); [lia|].
    rewrite (fi_at_id _ _ _ Hz) in Heq1.
    destruct (xplaces_step c cs a Hc Ha) as (p & a1 & -> & Hp & _ & Ha1 & _ & Hr).
    rewrite Heq1, Hp. cbn [mbind outcome_bind].
    edestruct (IH (S (length pre)) a1 classes1 (fi_at fi (length pre) (slot_info p false (csize c)))
      (pre ++ [slot_info p false (csize c)])) as (classes2 & ->);
      [done|done|rewrite length_app; simpl; lia| |lia|].
    + unfold fi_at. simpl. rewrite Hfi.
      rewrite insert_app_r_alt, Nat.sub_diag by lia. simpl. by rewrite <- app_assoc.
    + exists classes2. unfold fi_at. simpl. by rewrite <- app_assoc.
Qed.

(** ** The return value *)

Definition sse_at (L : list x86_64_reg_class) (k : nat) : bool :=
  match L !! k with Some c => is_sse_class c | None => false end.

Definition xx_ret_struct_regs (c : cty) : list (Z * Z) :=
  let L := code_class c 0 in
  if (csize c =? 4) && sse_at L 0 then [(TE_XMM0, TE_Full)] else
  if csize c =? 8 then [(if sse_at L 0 then TE_XMM0 else TE_RAX, TE_Full)] else
  match sse_at L 0, sse_at L 1 with
  | true, true => [(TE_XMM0, TE_Full); (TE_XMM1, TE_Full)]
  | true, false => [(TE_XMM0, TE_Full); (TE_RAX, TE_Full)]
  | false, true => [(TE_RAX, TE_Full); (TE_XMM0, TE_Full)]
  | false, false => [(TE_RAX, TE_Full); (TE_RDX, TE_Full)]
  end.

Definition xx_ret_regs (c : cty) : list (Z * Z) :=
  if 16 <? csize c then [(TE_RDI, TE_Full)] else
  match c with
  | CScalar s =>
      match s with
      | SVoid => []
      | SU8 => [(TE_AL, TE_ZExt8_32)]
      | SS8 => [(TE_AL, TE_SExt8_32)]
      | SU16 => [(TE_AX, TE_ZExt16_32)]
      | SS16 => [(TE_AX, TE_SExt16_32)]
      | SU32 | SS32 => [(TE_EAX, TE_Full)]
      | SU64 | SS64 | SPtr => [(TE_RAX, TE_Full)]
      | SFloat | SDouble => [(TE_XMM0, TE_Full)]
      end
  | CStruct _ => xx_ret_struct_regs c
  end.

Lemma sse_class_simple c : simple c = true → SSE_CLASS_P c = is_sse_class c.
Proof. by destruct c. Qed.

Lemma xx_ret_struct_refines fs classes : cty_wf (CStruct fs) = true → length classes = 4%nat →
  ∃ flags classes', length classes' = 4%nat ∧
    xx_ret_struct (laid (CStruct fs)) classes = Ret (flags, 16 <? csize (CStruct fs), classes') ∧
    xx_set_ret flags zero_arg_info =
      Ret (slot_info (InRegs (xx_ret_regs (CStruct fs))) (16 <? csize (CStruct fs)) 0).
Proof.
  intros Hw Hl. destruct (examine_laid _ classes true Hw Hl) as (classes' & Hl' & Hex).
  unfold xx_ret_struct, xx_ret_regs, xx_ret_struct_regs. rewrite laid_size.
  pose proof (code_class_simple (CStruct fs) 0) as Hsim.
  pose proof (code_class_length (CStruct fs) 0) as Hcl.
  destruct (words_bounds _ Hw) as [Hwb Hw1]. set (c := CStruct fs) in *.
  destruct (Z.ltb_spec 16 (csize c)).
  - rewrite Hex. eexists _, classes'. split; [done|]. split; [reflexivity|]. by vm_compute.
  - destruct Hex as [-> Hst]. cbn [mbind outcome_bind]. rewrite (proj2 (Z.eqb_neq _ 0)) by lia.
    destruct (code_class c 0) as [|c0 L] eqn:HL; [simpl in Hcl; lia|].
    apply Forall_cons in Hsim as [Hs0 Hsim].
    rewrite (starts_get classes' _ 0 c0 Hst) by done. cbn [mbind outcome_bind].
    rewrite (sse_class_simple c0 Hs0). unfold sse_at at 1 2. cbn [lookup list_lookup].
    destruct ((csize c =? 4) && is_sse_class c0);
      [eexists _, classes'; split; [done|]; split; [reflexivity|by vm_compute]|].
    destruct (csize c =? 8);
      [eexists _, classes'; split; [done|]; split; [reflexivity|];
       destruct (is_sse_class c0); by vm_compute|].
    assert ((if Z.of_nat (words c) =? 2
             then c1 ← get_class classes' 1; Ret (SSE_CLASS_P c1) else Ret false) =
            Ret (sse_at (c0 :: L) 1)) as ->.
    { destruct (Z.eqb_spec (Z.of_nat (words c)) 2) as [H2|H2]; destruct L as [|c1 L];
        simpl in Hcl; try lia; [|done].
      rewrite (starts_get classes' _ 1 c1 Hst) by done. cbn [mbind outcome_bind].
      apply Forall_cons in Hsim as [Hs1 _]. by rewrite sse_class_simple. }
    cbn [mbind outcome_bind]. eexists _, classes'. split; [done|]. split; [reflexivity|].
    unfold sse_at at 3. cbn [lookup list_lookup].
    by destruct (is_sse_class c0), (sse_at (c0 :: L) 1); vm_compute.
Qed.

Lemma xx_ret_refines c classes : cty_wf c = true → length classes = 4%nat →
  ∃ flags classes', length classes' = 4%nat ∧
    xx_ret_flags (laid c) classes = Ret (Some (flags, 16 <? csize c, classes')) ∧
    xx_set_ret flags zero_arg_info = Ret (slot_info (InRegs (xx_ret_regs c)) (16 <? csize c) 0).
Proof.
  intros Hw Hl. destruct c as [s|fs].
  - destruct s; eexists _, classes; (split; [done|]); split; (reflexivity || (vm_compute; reflexivity)).
  - destruct (xx_ret_struct_refines fs classes Hw Hl) as (flags & classes' & ? & Hr & ?).
    exists flags, classes'. split_and!; try done.
    unfold xx_ret_flags. change (ty_type (laid (CStruct fs))) with FFI_TYPE_STRUCT. by rewrite Hr.
Qed.

(** ** The whole of [my_xx_fi_prep_cif] *)

Definition xalloc0 (rt : cty) : xalloc := mk_xalloc (if 16 <? csize rt then 1 else 0) 0 0.

Definition xx_fn_info (rt : cty) (cs : list cty) : ABIFnInfo :=
  let '(ps, a) := xplaces cs (xalloc0 rt) in
  mkABIFnInfo (x_arg_infos cs ps) (slot_info (InRegs (xx_ret_regs rt)) (16 <? csize rt) 0)
    None None (Z.of_nat (length cs)) (align_up (xb a) 8) (xs a) 0 0.

Lemma xalloc0_ok rt : xalloc_ok (xalloc0 rt).
Proof. unfold xalloc_ok, xalloc0. case_match; simpl; lia. Qed.

Lemma xx_core_args_fresh cs : Forall (λ c, cty_wf c = true ∧ csize c < 2 ^ 62) cs →
  xx_core_args (map fresh cs) = Some (map laid cs).
Proof.
  induction 1 as [|c cs [Hw Hs] _ IH]; [done|]. simpl. by rewrite init_fresh, IH by done.
Qed.

Lemma xx_core_args_bad cs : Exists (λ c, cty_wf c = false) cs → xx_core_args (map fresh cs) = None.
Proof.
  induction 1 as [c cs Hc|c cs _ IH]; simpl.
  - by rewrite init_fresh_bad.
  - destruct (init_type (fresh c)); [|done]. by rewrite IH.
Qed.

Lemma xx_machdep_refines rt cs :
  proto_ok rt cs → stack_room cs + 8 < 2 ^ 31 →
  ∃ cif, my_xx_fi_prep_cif_machdep
           (mk_xx_fi_cif XX_FI_UNIX64 (Z.of_nat (length cs)) (map laid cs) (laid rt) 0 0)
           (Some (zero_fn_info (length cs))) = Ret (FFI_OK, cif, Some (xx_fn_info rt cs)) ∧
    xx_arg_types cif = map laid cs ∧ xx_rtype cif = laid rt.
Proof.
  intros (Hrt & _ & Hcs & _) Hroom. unfold my_xx_fi_prep_cif_machdep, xx_fn_info.
  cbn [xx_abi xx_rtype xx_arg_types xx_nargs]. change (_ || _) with false. change (negb _) with false.
  cbv iota. destruct (xx_ret_refines rt uninit_classes Hrt eq_refl) as (flags & cl & Hcl & -> & Hset).
  cbn [mbind outcome_bind upd_ret zero_fn_info rinfo]. rewrite Hset. cbn [mbind outcome_bind].
  change (mk_xx_state (if 16 <? csize rt then 1 else 0) 0 0 cl) with (xconc (xalloc0 rt) cl).
  destruct (xplaces_ok cs (xalloc0 rt) Hcs (xalloc0_ok rt)) as ((_ & _ & Hb0) & _ & Hb & _).
  edestruct (xx_args_refines cs 0 (xalloc0 rt) cl) as (cl' & ->);
    [done|apply xalloc0_ok|done|exact (eq_refl : 0%nat = length [])|reflexivity|simpl; lia|].
  destruct (xplaces cs (xalloc0 rt)) as [ps a]. cbn [snd fst mbind outcome_bind] in *. simpl xb in Hb.
  cbn [xconc xx_stack_bytes xx_ssecount xx_fnInfo]. pose proof (align_up_spec (xb a) 8).
  rewrite FFI_ALIGN_ok; [|by exists 3|lia].
  rewrite (wrap_small 32) by (unfold in_u; lia). rewrite sext_small by (simpl; lia).
  by eexists.
Qed.

Lemma xx_core_refines rt cs :
  proto_ok rt cs → stack_room cs + 8 < 2 ^ 31 →
  ∃ cif, my_xx_fi_prep_cif XX_FI_DEFAULT_ABI (Z.of_nat (length cs)) (fresh rt) (map fresh cs)
           (Some (zero_fn_info (length cs))) = Ret (FFI_OK, cif, Some (xx_fn_info rt cs)) ∧
    xx_arg_types cif = map laid cs ∧ xx_rtype cif = laid rt.
Proof.
  intros Hok Hroom. pose proof Hok as (Hrt & Hrs & _ & _).
  unfold my_xx_fi_prep_cif, my_xx_fi_prep_cif_core. rewrite Z.leb_refl.
  cbn [c_assert mbind outcome_bind negb orb]. change (negb _) with false. cbv iota.
  rewrite init_fresh by done. unfold arg_array. rewrite length_map, Z.leb_refl.
  rewrite take_ge by (rewrite length_map; lia). cbn [mbind outcome_bind].
  rewrite (xx_core_args_fresh cs (proto_types_ok rt cs Hok)). by apply xx_machdep_refines.
Qed.

Lemma xx_fn_info_lookup rt cs j c : proto_ok rt cs → cs !! j = Some c →
  ∃ p b b', ainfo (xx_fn_info rt cs) !! j = Some (slot_info p false (csize c)) ∧
    (xplaces cs (xalloc0 rt)).1 !! j = Some p ∧ place_ok p ∧ xwithin b p (csize c) b' ∧
    xalloc_ok b ∧ xb b' ≤ bytes (xx_fn_info rt cs).
Proof.
  intros (_ & _ & Hcs & Hroom) Hj. unfold xx_fn_info.
  pose proof (xplaces_length cs (xalloc0 rt)) as Hlen.
  destruct (xplaces_ok cs (xalloc0 rt) Hcs (xalloc0_ok rt)) as (_ & _ & Hb & _).
  destruct (lookup_lt_is_Some_2 (xplaces cs (xalloc0 rt)).1 j) as [p Hp];
    [rewrite Hlen; by eapply lookup_lt_Some|].
  destruct (xplaces_at cs (xalloc0 rt) j c p Hcs (xalloc0_ok rt) Hj Hp)
    as (b & b' & Hwi & Hbo & (_ & _ & Hbo') & (_ & _ & Hle)).
  rewrite Forall_lookup in Hcs. destruct (Hcs _ _ Hj) as [Hw _]. pose proof (csize_pos c Hw).
  destruct (xplaces cs (xalloc0 rt)) as [ps a]. simpl in *. pose proof (align_up_spec (xb a) 8).
  destruct Hbo as (? & ? & ?). exists p, b, b'. split_and!; try done; [| |lia].
  - unfold x_arg_infos. by rewrite lookup_zip_with, Hj, Hp.
  - destruct p; simpl in *; [|unfold in_u; lia]. split; [naive_solver|lia].
Qed.

(** [fi] is what [my_xx_fi_prep_cif] leaves for the prototype. *)
Definition xx_prepared (rt : cty) (cs : list cty) (fi : ABIFnInfo) : Prop :=
  ∃ cif, my_xx_fi_prep_cif XX_FI_DEFAULT_ABI (Z.of_nat (length cs)) (fresh rt) (map fresh cs)
    (Some (zero_fn_info (length cs))) = Ret (FFI_OK, cif, Some fi).

Lemma xx_prepared_eq rt cs fi : proto_ok rt cs → stack_room cs + 8 < 2 ^ 31 →
  xx_prepared rt cs fi → fi = xx_fn_info rt cs.
Proof.
  intros H Hr [cif Hcif]. destruct (xx_core_refines rt cs H Hr) as (? & Heq & _).
  rewrite Hcif in Heq. by injection Heq.
Qed.

(** ** Properties *)


(** C26.  In the description [my_xx_fi_prep_cif] writes, two different arguments
    never share a register or a stack byte. *)
Theorem xx_arguments_disjoint rt cs fi j k c c' x y :
  proto_ok rt cs → stack_room cs + 8 < 2 ^ 31 → xx_prepared rt cs fi →
  j ≠ k → cs !! j = Some c → cs !! k = Some c' →
  ainfo fi !! j = Some x → ainfo fi !! k = Some y →
  slots_disjoint x (csize c) y (csize c').
Proof.
  intros H Hr ->%xx_prepared_eq Hjk Hc Hc' Hx Hy; [|done..].
  destruct (xx_fn_info_lookup rt cs j c H Hc) as (p & ? & ? & Hx' & Hp & Hok & _).
  destruct (xx_fn_info_lookup rt cs k c' H Hc') as (q & ? & ? & Hy' & Hq & Hok' & _).
  rewrite Hx in Hx'. rewrite Hy in Hy'. simplify_eq. destruct H as (_ & _ & Hcs & _).
  eapply decodes_disjoint; [by apply slot_info_decodes..|].
  destruct (decide (j < k)%nat).
  - by eapply (xplaces_disjoint cs (xalloc0 rt) j k); eauto using xalloc0_ok.
  - apply place_disjoint_sym. eapply (xplaces_disjoint cs (xalloc0 rt) k j); eauto using xalloc0_ok. lia.
Qed.

(** Each argument is described with its size, never as indirect, and
    either by at most two registers or by an 8-byte aligned stack slot inside
    [bytes]; an argument of more than 16 bytes is always on the stack; the
    number of SSE registers in use is at most 8. *)
Theorem xx_arguments_in_bounds rt cs fi j c x :
  proto_ok rt cs → stack_room cs + 8 < 2 ^ 31 → xx_prepared rt cs fi →
  cs !! j = Some c → ainfo fi !! j = Some x →
  te_get_arg_size x = csize c ∧ te_is_indirect x = false ∧ 0 ≤ ssecount fi ≤ 8 ∧ (8 | bytes fi) ∧
  (if te_is_mem x
   then (8 | te_get_mem x) ∧ 0 ≤ te_get_mem x ∧ te_get_mem x + csize c ≤ bytes fi
   else te_num_of_reg x ≤ 2 ∧ csize c ≤ 16).
Proof.
  intros H Hr ->%xx_prepared_eq Hc Hx; [|done..].
  destruct (xx_fn_info_lookup rt cs j c H Hc)
    as (p & b & b' & Hx' & Hp & Hok & Hwi & (_ & _ & Hb) & Hle).
  rewrite Hx in Hx'. injection Hx' as ->.
  destruct (slot_info_decodes _ false (csize c) Hok) as (-> & -> & -> & Hd).
  destruct H as (_ & _ & Hcs & _).
  destruct (xplaces_ok cs (xalloc0 rt) Hcs (xalloc0_ok rt)) as ((_ & Hxs & _) & _).
  pose proof (xplaces_large cs (xalloc0 rt) j c p Hc Hp) as Hlarge.
  unfold xx_fn_info in *. destruct (xplaces cs (xalloc0 rt)) as [ps a]. simpl in *.
  split_and!; [done|done|lia|lia|by apply align_up_spec|].
  destruct p as [rs|off info]; simpl in *.
  - destruct Hd as [-> _], Hwi as (_ & _ & ? & _). split; [lia|by apply Hlarge].
  - destruct Hd as [-> _]. split_and!; [naive_solver|lia..].
Qed.

(** A prototype that mentions a structure without members is rejected
    with [FFI_BAD_TYPEDEF]. *)
Theorem xx_prep_cif_bad_typedef rt cs fi :
  csize rt < 2 ^ 62 → cty_wf rt = false ∨ Exists (λ c, cty_wf c = false) cs →
  ∃ cif, my_xx_fi_prep_cif XX_FI_DEFAULT_ABI (Z.of_nat (length cs)) (fresh rt) (map fresh cs) fi =
    Ret (FFI_BAD_TYPEDEF, cif, fi).
Proof.
  intros Hs H. unfold my_xx_fi_prep_cif, my_xx_fi_prep_cif_core. rewrite Z.leb_refl.
  cbn [c_assert mbind outcome_bind negb orb]. change (negb _) with false. cbv iota.
  destruct (cty_wf rt) eqn:Hrt.
  - destruct H as [?|H]; [done|]. rewrite init_fresh by done.
    unfold arg_array. rewrite length_map, Z.leb_refl. cbn [mbind outcome_bind].
    rewrite take_ge by (rewrite length_map; lia). rewrite xx_core_args_bad by done. eauto.
  - rewrite init_fresh_bad by done. eauto.
Qed.


Lemma example_xx_prepared :
  xx_prepared (CScalar SVoid) example_args (xx_fn_info (CScalar SVoid) example_args).
Proof. eexists. vm_compute. reflexivity. Qed.

Lemma xx_arguments_disjoint_witness :
  ∃ x y, ainfo (xx_fn_info (CScalar SVoid) example_args) !! 0%nat = Some x ∧
    ainfo (xx_fn_info (CScalar SVoid) example_args) !! 3%nat = Some y ∧ slots_disjoint x 4 y 1.
Proof.
  do 2 eexists. split; [reflexivity|]. split; [reflexivity|].
  apply (xx_arguments_disjoint (CScalar SVoid) example_args
    (xx_fn_info (CScalar SVoid) example_args) 0 3 (CScalar SS32) (CScalar SS8));
    [exact example_proto|done|exact example_xx_prepared|done..].
Defined.

Lemma xx_arguments_in_bounds_witness :
  ∃ x, ainfo (xx_fn_info (CScalar SVoid) example_args) !! 2%nat = Some x ∧
    te_is_indirect x = false ∧ te_is_mem x = true.
Proof.
  eexists. split; [reflexivity|].
  destruct (xx_arguments_in_bounds (CScalar SVoid) example_args _ 2
    (CStruct [CScalar SS64; CScalar SS64; CScalar SS64]) _ example_proto eq_refl example_xx_prepared
    eq_refl eq_refl) as (_ & H & _).
  split; [exact H|reflexivity].
Defined.

Lemma xx_prep_cif_bad_typedef_witness :
  ∃ cif, my_xx_fi_prep_cif XX_FI_DEFAULT_ABI 1 (fresh (CStruct [])) [ffi_type_double] None =
    Ret (FFI_BAD_TYPEDEF, cif, None).
Proof.
  apply (xx_prep_cif_bad_typedef (CStruct []) [CScalar SDouble]); [done|]. by left.
Defined.
