(* ===== verification/CrossABI.v ===== *)
(** * How the two conventions classify the same type

    The bridge moves a value between registers that the two conventions choose
    independently.  For types whose scalars are all real values and that fit
    their eightbytes, this file relates the choices: the number of x86-64
    registers, their kind, and the number of AArch64 registers. *)

From S2P Require Import Prelude ABIArgInfo FfiTypes Layout Placement AAPrepCif HFA AAAlloc XXPrepCif XXClass XXAlloc.

(** A type of values: proper, without [void] in it, classified by the rule
    of the ABI. *)
Definition no_void (c : cty) : bool := forallb (λ s, bool_decide (s ≠ SVoid)) (flatten c).
Definition value_type (c : cty) : bool := cty_wf c && no_void c && fits c 0.

Lemma value_type_inv c : value_type c = true →
  cty_wf c = true ∧ Forall (λ s, s ≠ SVoid) (flatten c) ∧ fits c 0 = true.
Proof.
  unfold value_type, no_void. rewrite !andb_true_iff. intros ((? & Hv) & ?). split_and!; try done.
  apply Forall_forall. intros s Hs. rewrite forallb_forall in Hv.
  apply list_elem_of_In in Hs. by apply Hv, bool_decide_eq_true in Hs.
Qed.

(** ** The scalars of a type with their offsets *)

Lemma leaves_flatten c off : (leaves c off).*2 = flatten c.
Proof.
  revert off. induction c as [s|fs IH] using cty_ind'; intros off; [done|].
  cbn [leaves]. revert off. induction IH as [|f fs Hf _ IH]; intros off; [done|].
  rewrite flatten_cons. simpl field_leaves. by rewrite fmap_app, Hf, IH.
Qed.

Lemma leaves_aligned c off : cty_wf c = true → (calign c | off) →
  Forall (λ p, (scalar_size p.2 | p.1)) (leaves c off).
Proof.
  revert off. induction c as [s|fs IH] using cty_ind'; intros off Hw Hd; [by apply Forall_singleton|].
  apply cty_wf_struct in Hw as [_ Hfs]. clear Hd. cbn [leaves]. revert off Hfs.
  induction IH as [|f fs Hf _ IH]; intros off Hfs; [done|]. apply Forall_cons in Hfs as [Hw Hfs].
  simpl. apply Forall_app. split; [|by apply IH].
  apply Hf; [done|]. by apply align_up_spec, calign_pos.
Qed.

(** Some scalar reaches into the last alignment unit. *)
Lemma leaves_last c off : cty_wf c = true → (calign c | off) →
  ∃ o s, (o, s) ∈ leaves c off ∧ off + csize c - calign c < o + scalar_size s.
Proof.
  revert off. induction c as [s|fs IH] using cty_ind'; intros off Hw Hd.
  - exists off, s. split; [by apply list_elem_of_singleton|]. simpl.
    pose proof (scalar_size_range s). lia.
  - pose proof (calign_pos _ Hw) as HA. pose proof Hw as [Hne Hfs]%cty_wf_struct.
    assert (∃ o s f, (o, s) ∈ leaves (CStruct fs) off ∧ f ∈ fs ∧
      (calign f | fields_end csize calign fs off) ∧
      fields_end csize calign fs off - calign f < o + scalar_size s) as (o & s & f & Hin & Hf & Hdiv & Hlt).
    { clear Hw Hd HA. cbn [leaves]. revert off Hfs Hne.
      induction IH as [|f fs Hf _ IH]; intros off Hfs Hne; [done|]. apply Forall_cons in Hfs as [Hw Hfs].
      destruct (align_up_spec off (calign f) (calign_pos f Hw)) as [_ Hal]. cbn [field_leaves fields_end].
      destruct fs as [|g fs].
      - destruct (Hf (align_up off (calign f)) Hw Hal) as (o & s & Hin & Hlt). exists o, s, f.
        simpl. rewrite app_nil_r. split_and!; [done|by left|by apply Z.divide_add_r; [|apply csize_pos_divide]|lia].
      - destruct (IH (align_up off (calign f) + csize f) Hfs) as (o & s & h & Hin & Hh & ? & ?); [done|].
        exists o, s, h. split_and!; [apply elem_of_app; by right|by right|done..]. }
    exists o, s. split; [done|]. rewrite Forall_forall in Hfs.
    assert (Forall (λ f, 0 < calign f ∧ (calign f | off)) fs) as Hoff.
    { apply Forall_forall. intros g Hg. split; [by apply calign_pos, Hfs|].
      etrans; [by apply (calign_field_divide fs)|done]. }
    pose proof (fields_end_shift fs off 0 Hoff) as Hsh. rewrite Z.add_0_r in Hsh.
    destruct (align_up_spec (fields_end csize calign fs 0) (calign (CStruct fs)) HA) as [Hup Hdu].
    change (align_up (fields_end csize calign fs 0) (calign (CStruct fs))) with (csize (CStruct fs)) in *.
    assert ((calign f | off + csize (CStruct fs) - calign (CStruct fs))) as Hd'.
    { assert ((calign f | calign (CStruct fs))) by (by apply (calign_field_divide fs)).
      apply Z.divide_sub_r; [apply Z.divide_add_r|done]; by etrans. }
    destruct Hdiv as [p Hp], Hd' as [q Hq]. pose proof (calign_pos f (Hfs f Hf)) as Hpos.
    assert (q < p) by (apply (Z.mul_lt_mono_pos_r (calign f)); lia).
    assert (q * calign f ≤ (p - 1) * calign f) by (apply Z.mul_le_mono_nonneg_r; lia). lia.
Qed.

Lemma first_leaf c off : cty_wf c = true → (calign c | off) → ∃ s, (off, s) ∈ leaves c off.
Proof.
  revert off. induction c as [s|fs IH] using cty_ind'; intros off Hw Hd.
  - exists s. by apply list_elem_of_singleton.
  - pose proof Hw as [Hne Hfs]%cty_wf_struct. destruct fs as [|f fs]; [done|].
    apply Forall_cons in Hfs as [Hf _]. apply Forall_cons in IH as [IH _].
    assert ((calign f | off)) as Hdf by (etrans; [apply (calign_field_divide (f :: fs)); [done|by left]|done]).
    destruct (IH off Hf Hdf) as [s Hin]. exists s. cbn [leaves field_leaves].
    rewrite (align_up_divide off) by (done || by apply calign_pos). apply elem_of_app. by left.
Qed.

(** Every eightbyte of a value type holds a scalar. *)
Lemma eightbyte_inhabited c k : cty_wf c = true → csize c ≤ 16 → (k < words c)%nat →
  ∃ o s, (o, s) ∈ leaves c 0 ∧ o / 8 = Z.of_nat k.
Proof.
  intros Hw Hs Hk. destruct (words_bounds c Hw) as [Hb _].
  pose proof (leaves_range c 0 Hw (Z.divide_0_r _)) as Hr.
  pose proof (leaves_aligned c 0 Hw (Z.divide_0_r _)) as Hal.
  destruct (leaves_last c 0 Hw (Z.divide_0_r _)) as (o & s & Hin & Hlt).
  rewrite Forall_forall in Hr, Hal. pose proof (Hr _ Hin) as Ho. pose proof (Hal _ Hin) as Ha.
  simpl in Ho, Ha. pose proof (calign_divide_8 c Hw) as [a Ha8].
  destruct (csize_pos_divide c Hw) as [Hpos [b Hcb]]. pose proof (calign_pos c Hw).
  destruct (decide (k = 1)%nat) as [->|].
  - exists o, s. split; [done|].
    assert (a < b) by (apply (Z.mul_lt_mono_pos_r (calign c)); lia).
    assert ((a + 1) * calign c ≤ b * calign c) by (apply Z.mul_le_mono_nonneg_r; lia).
    assert (8 < o + scalar_size s) by lia.
    assert (8 ≤ o). { destruct (decide (8 ≤ o)); [done|].
      pose proof (scalar_fits s o ltac:(lia) Ha). lia. }
    pose proof (Z.div_mod o 8). pose proof (Z.mod_pos_bound o 8). lia.
  - assert (k = 0)%nat as -> by lia. destruct (first_leaf c 0 Hw (Z.divide_0_r _)) as [s0 Hin0].
    exists 0, s0. done.
Qed.

(** ** No eightbyte of a value type is without a register *)

Lemma merge_no_class a b : merge_classes a b = X86_64_NO_CLASS ↔
  a = X86_64_NO_CLASS ∧ b = X86_64_NO_CLASS.
Proof. destruct a, b; vm_compute; naive_solver. Qed.

Lemma scalar_class_some s r : s ≠ SVoid → scalar_class s r ≠ X86_64_NO_CLASS.
Proof. intros. unfold scalar_class. destruct s; simpl; repeat case_match; done. Qed.

Lemma class_at_some L o s k : (o, s) ∈ L → o / 8 = k → s ≠ SVoid → class_at L k ≠ X86_64_NO_CLASS.
Proof.
  intros Hin Hk Hs. induction L as [|[o' s'] L IH]; [by apply not_elem_of_nil in Hin|].
  rewrite class_at_cons. simpl. apply elem_of_cons in Hin as [[= <- <-]|Hin].
  - rewrite (proj2 (Z.eqb_eq _ _) Hk). intros [Hn _]%merge_no_class. by eapply scalar_class_some.
  - case_match; [|by apply IH]. intros [_ Hn]%merge_no_class. by apply IH.
Qed.

Definition reg_class (x : x86_64_reg_class) : Prop := is_gpr_class x = true ∨ is_sse_class x = true.

Lemma value_classes c : value_type c = true → csize c ≤ 16 → Forall reg_class (code_class c 0).
Proof.
  intros (Hw & Hv & Hf)%value_type_inv Hs.
  pose proof (code_class_simple c 0) as Hsim. revert Hsim.
  rewrite code_class_fits by (done || lia || apply Z.divide_0_r). unfold eightbytes_from. intros Hsim.
  apply Forall_lookup. intros i x Hx. pose proof (Forall_lookup_1 _ _ _ _ Hsim Hx) as Hxs. simpl in Hxs.
  apply list_lookup_fmap_Some in Hx as (k & -> & [-> Hk]%lookup_seq). simpl in *.
  destruct (eightbyte_inhabited c i Hw Hs Hk) as (o & s & Hin & Ho).
  assert (s ≠ SVoid) as Hsv.
  { rewrite <- (leaves_flatten c 0), Forall_forall in Hv. apply Hv, list_elem_of_fmap. by exists (o, s). }
  pose proof (class_at_some _ _ _ _ Hin Ho Hsv). unfold reg_class. by destruct (class_at _ _); auto.
Qed.

Lemma reg_class_counts L : Forall reg_class L → ngpr_of L + nsse_of L = Z.of_nat (length L).
Proof.
  induction 1 as [|x L [Hx|Hx] _ IH]; [done|..]; rewrite ngpr_of_cons, nsse_of_cons; simpl length;
    destruct x; simpl in *; (done || lia).
Qed.

(** ** Homogeneous aggregates *)

Lemma leaves_homogeneous c s off : cty_wf c = true → Forall (λ s', s' = s) (flatten c) →
  (scalar_size s | off) →
  leaves c off = (λ k, (off + scalar_size s * k, s)) <$> seqZ 0 (Z.of_nat (length (flatten c))).
Proof.
  pose proof (scalar_size_range s) as Hsz.
  revert off. induction c as [s'|fs IH] using cty_ind'; intros off Hw Hall Hd.
  - apply Forall_singleton in Hall as ->. simpl. do 2 f_equal. lia.
  - apply cty_wf_struct in Hw as [_ Hfs]. cbn [leaves]. revert off Hfs Hall Hd.
    induction IH as [|f fs Hf _ IH]; intros off Hfs Hall Hd; [done|].
    apply Forall_cons in Hfs as [Hw Hfs]. rewrite flatten_cons in Hall |- *.
    apply Forall_app in Hall as [Hall1 Hall2].
    destruct (homogeneous_layout f s Hw Hall1) as [Hca Hcs]. cbn [field_leaves].
    rewrite Hca, (align_up_divide off) by (done || lia). rewrite Hf, Hcs by done.
    rewrite IH by (done || by apply Z.divide_add_r; [|apply Z.divide_factor_l]).
    rewrite length_app, Nat2Z.inj_add, seqZ_app, fmap_app by lia. f_equal.
    rewrite Z.add_0_l. apply list_eq. intros i. rewrite !list_lookup_fmap.
    destruct (decide (Z.of_nat i < Z.of_nat (length (flatten (CStruct fs))))).
    + rewrite !lookup_seqZ_lt by lia. simpl. do 2 f_equal. lia.
    + by rewrite !lookup_ge_None_2 by (rewrite length_seqZ; lia).
Qed.

Definition hfa_classes (s : scalar) (n : Z) : list x86_64_reg_class :=
  (λ k, class_at ((λ k, (scalar_size s * k, s)) <$> seqZ 0 n) k) <$>
    seqZ 0 ((scalar_size s * n + 7) / 8).

Lemma hfa_flatten c s n : hfa c = Some (s, n) →
  Forall (λ s', s' = s) (flatten c) ∧ n = Z.of_nat (length (flatten c)).
Proof.
  unfold hfa. destruct (flatten c) as [|s' l] eqn:Hfl; [done|]. intros H. case_match eqn:Hb; [|done].
  injection H as -> <-. split; [|done]. apply andb_prop in Hb as [[_ Hb]%andb_prop _].
  constructor; [done|]. rewrite forallb_forall in Hb. apply Forall_forall.
  intros x Hx%list_elem_of_In. by apply Hb, bool_decide_eq_true in Hx.
Qed.

Lemma hfa_size c s n : cty_wf c = true → hfa c = Some (s, n) →
  csize c = scalar_size s * n ∧ calign c = scalar_size s.
Proof.
  intros Hw [Hall ->]%hfa_flatten. destruct (homogeneous_layout c s Hw Hall). done.
Qed.

Lemma hfa_code_class c s n : value_type c = true → hfa c = Some (s, n) →
  code_class c 0 = hfa_classes s n.
Proof.
  intros (Hw & _ & Hf)%value_type_inv Hh. destruct (hfa_size c s n Hw Hh) as [Hs _].
  destruct (hfa_flatten c s n Hh) as [Hall ->]. pose proof (csize_pos c Hw).
  rewrite code_class_fits by (done || lia || apply Z.divide_0_r).
  unfold eightbytes_from, hfa_classes, words. rewrite <- Hs.
  rewrite (leaves_homogeneous c s 0 Hw Hall (Z.divide_0_r _)).
  apply list_eq. intros i. rewrite !list_lookup_fmap.
  destruct (decide (i < Z.to_nat ((csize c + 7) / 8))%nat).
  - rewrite lookup_seq_lt, lookup_seqZ_lt by lia. simpl. f_equal.
  - by rewrite !lookup_ge_None_2 by (rewrite ?length_seq, ?length_seqZ; lia).
Qed.
