(* ===== verification/DyBridge.v ===== *)
(** * [AArch64tox64.inc.c]: the dynamic translation of calls

    When AArch64 code calls an x86-64 function whose prototype is only known
    at run time (a variadic call, a format string), the bridge fills an
    argument space (the x86-64 argument registers followed by the stack
    arguments) from the emulated CPU state and the guest memory, calls, and
    moves the return value back.  [CPUARMState] is modelled by the bytes of
    its general and vector registers, the argument space and the return buffer
    by byte arrays. *)

From S2P Require Import Prelude Bytes ABIArgInfo FfiTypes AAPrepCif XXPrepCif.

(** ** The emulated registers *)

(** [uint64_t xregs[32]] and [ARMVectorReg zregs[32]] of 256 bytes each. *)
Record CPUARMState := mk_env { xregs : list Z; zregs : list Z }.

Definition ZREG_SIZE : Z := 256.
Definition REG_SP_NUM : Z := 31.

Definition env_ok (env : CPUARMState) : Prop :=
  Z.of_nat (length (xregs env)) = 32 * 8 ∧ Z.of_nat (length (zregs env)) = 32 * ZREG_SIZE ∧
  bytes_ok (xregs env) ∧ bytes_ok (zregs env).

(** A pointer into the CPU state: byte offset in [xregs] or [zregs]. *)
Inductive a64_ptr : Set := XPtr (off : Z) | ZPtr (off : Z).

Definition in_range (lo hi num : Z) : bool := (lo <=? num) && (num <=? hi).

(** [None] is the null pointer. *)
Definition a64_enum_2_ptr (num : Z) : option a64_ptr :=
  if in_range TE_S0 TE_S7 num then Some (ZPtr ((num - TE_S0) * ZREG_SIZE))
  else if in_range TE_D0 TE_D7 num then Some (ZPtr ((num - TE_D0) * ZREG_SIZE))
  else if in_range TE_Q0 TE_Q7 num then Some (ZPtr ((num - TE_Q0) * ZREG_SIZE))
  else if in_range TE_W0 TE_W7 num then Some (XPtr ((num - TE_W0) * 8))
  else if in_range TE_X0 TE_X8 num then Some (XPtr ((num - TE_X0) * 8))
  else None.

Definition rd_a64 (env : CPUARMState) (num n : Z) : outcome (list Z) :=
  match a64_enum_2_ptr num with
  | Some (XPtr off) => rd (xregs env) off n
  | Some (ZPtr off) => rd (zregs env) off n
  | None => Stop Undefined
  end.

Definition wr_a64 (env : CPUARMState) (num : Z) (bs : list Z) : outcome CPUARMState :=
  match a64_enum_2_ptr num with
  | Some (XPtr off) => l ← wr (xregs env) off bs; Ret (mk_env l (zregs env))
  | Some (ZPtr off) => l ← wr (zregs env) off bs; Ret (mk_env (xregs env) l)
  | None => Stop Undefined
  end.

(** [env->xregs[k]] *)
Definition xreg (env : CPUARMState) (k : Z) : outcome Z := le_val <$> rd (xregs env) (k * 8) 8.

(** ** The argument space *)

(** [register_args]: [gpr[6]], [sse[16]], [rax]. *)
Definition OFF_SSE : Z := 48.
Definition OFF_RAX : Z := 176.
Definition SIZEOF_REGISTER_ARGS : Z := 184.

Definition TE_EDI : Z := 6.
Definition TE_ESI : Z := 8.
Definition TE_EDX : Z := 10.
Definition TE_DL : Z := 11.
Definition TE_ECX : Z := 13.
Definition TE_R8D : Z := 15.
Definition TE_R9D : Z := 17.
Definition TE_XMM6 : Z := 24.

Definition one_of (num : Z) (l : list Z) : bool := existsb (Z.eqb num) l.

(** The offset in the argument space. *)
Definition x64_enum_2_ptr (num : Z) : Z :=
  if one_of num [TE_RAX; TE_EAX; TE_AX; TE_AL] then OFF_RAX
  else if one_of num [TE_RDI; TE_EDI] then 0
  else if one_of num [TE_RSI; TE_ESI] then 8
  else if one_of num [TE_RDX; TE_EDX; TE_DL] then 16
  else if one_of num [TE_RCX; TE_ECX] then 24
  else if one_of num [TE_R8; TE_R8D] then 32
  else if one_of num [TE_R9; TE_R9D] then 40
  else OFF_SSE + (num - TE_XMM0) * 16.

Definition is_xmm (num : Z) : bool := in_range TE_XMM0 TE_XMM7 num.

(** ** Extension of narrow integers in place *)

(** Read [n] bytes at [dst], extend them to 32 bits and write these back. *)
Definition extend_in_place (n : Z) (signed : bool) (l : list Z) (dst : Z) : outcome (list Z) :=
  bs ← rd l dst n;
  let x := le_val bs in
  let y := if signed then sext (8 * n) x else x in
  wr l dst (le_bytes 4 y).

Definition extend_arg_by_loc_info (l : list Z) (dst locInfo : Z) : outcome (list Z) :=
  if locInfo =? TE_SExt8_32 then extend_in_place 1 true l dst
  else if locInfo =? TE_SExt16_32 then extend_in_place 2 true l dst
  else if locInfo =? TE_ZExt8_32 then extend_in_place 1 false l dst
  else if locInfo =? TE_ZExt16_32 then extend_in_place 2 false l dst
  else Ret l.

Definition extend_ret_by_reg_loc_info (l : list Z) (dst x64Reg locInfo : Z) : outcome (list Z) :=
  if (x64Reg =? TE_AL) || (x64Reg =? TE_DL) then
    if locInfo =? TE_SExt8_32 then extend_in_place 1 true l dst
    else _ ← c_assert ((locInfo =? TE_ZExt8_32) || (locInfo =? TE_Full));
         extend_in_place 1 false l dst
  else if x64Reg =? TE_AX then
    if locInfo =? TE_SExt16_32 then extend_in_place 2 true l dst
    else _ ← c_assert ((locInfo =? TE_ZExt16_32) || (locInfo =? TE_Full));
         extend_in_place 2 false l dst
  else Ret l.

(** ** Entry: AArch64 arguments to x86-64 arguments *)

Section entry.
Context (env : CPUARMState) (mem : memory) (AARCH64_SP : Z).

(** Copy [n] bytes of an AArch64 register into the argument space. *)
Definition copy_reg (args : list Z) (dst : Z) (aaReg n : Z) : outcome (list Z) :=
  bs ← rd_a64 env aaReg n; wr args dst bs.

(** Copy [n] bytes of memory into the argument space. *)
Definition copy_mem (args : list Z) (dst addr n : Z) : outcome (list Z) :=
  bs ← rd_mem mem addr n; wr args dst bs.

(** Case [0b0000] with as many registers on both sides. *)
Fixpoint regs_one_by_one (xx aa : ABIArgInfo) (j : Z) (n : nat) (args : list Z) :
    outcome (list Z) :=
  match n with
  | O => Ret args
  | S n =>
      xr ← te_get_reg xx j; ar ← te_get_reg aa j;
      let dst := x64_enum_2_ptr xr in
      args ← (if is_xmm xr then copy_reg args dst ar 16
              else args ← copy_reg args dst ar 8;
                   extend_arg_by_loc_info args dst (te_get_reg_locinfo xx j));
      regs_one_by_one xx aa (j + 1) n args
  end.

(** One XMM register from two S registers. *)
Definition regs_two_to_one (xx aa : ABIArgInfo) (args : list Z) : outcome (list Z) :=
  x0 ← te_get_reg xx 0; a0 ← te_get_reg aa 0; a1 ← te_get_reg aa 1;
  _ ← c_assert (in_range TE_XMM0 TE_XMM7 x0);
  _ ← c_assert (a0 + 1 =? a1);
  let xPtr := x64_enum_2_ptr x0 in
  args ← copy_reg args xPtr a0 4;
  copy_reg args (xPtr + 4) a1 4.

(** Two XMM registers from three or four S registers. *)
Definition regs_many_to_two (xx aa : ABIArgInfo) (aaRegCnt : Z) (args : list Z) :
    outcome (list Z) :=
  x0 ← te_get_reg xx 0; x1 ← te_get_reg xx 1;
  a0 ← te_get_reg aa 0; a1 ← te_get_reg aa 1; a2 ← te_get_reg aa 2;
  _ ← c_assert (in_range TE_XMM0 TE_XMM6 x0);
  _ ← c_assert (x0 + 1 =? x1);
  _ ← c_assert ((3 =? aaRegCnt) || (4 =? aaRegCnt));
  _ ← c_assert (a0 + 1 =? a1);
  _ ← c_assert (a1 + 1 =? a2);
  let xPtr := x64_enum_2_ptr x0 in
  args ← copy_reg args xPtr a0 4;
  args ← copy_reg args (xPtr + 4) a1 4;
  let xPtr := x64_enum_2_ptr x1 in
  args ← copy_reg args xPtr a2 4;
  if 4 =? aaRegCnt then a3 ← te_get_reg aa 3; copy_reg args (xPtr + 4) a3 4 else Ret args.

Definition arg_reg_reg (xx aa : ABIArgInfo) (args : list Z) : outcome (list Z) :=
  let xxRegCnt := te_num_of_reg xx in let aaRegCnt := te_num_of_reg aa in
  if xxRegCnt =? aaRegCnt then regs_one_by_one xx aa 0 (Z.to_nat xxRegCnt) args
  else if xxRegCnt <? aaRegCnt then
    if (1 =? xxRegCnt) && (2 =? aaRegCnt) then regs_two_to_one xx aa args
    else if 2 =? xxRegCnt then regs_many_to_two xx aa aaRegCnt args
    else Stop Aborted
  else Stop Aborted.

(** Case [0b0001]: registers from the AArch64 stack, [sz] bytes each. *)
Fixpoint regs_from_mem (xx : ABIArgInfo) (sz offset j : Z) (n : nat) (args : list Z) :
    outcome (list Z) :=
  match n with
  | O => Ret args
  | S n =>
      xr ← te_get_reg xx j;
      let dst := x64_enum_2_ptr xr in
      args ← copy_mem args dst (AARCH64_SP + offset) sz;
      args ← (if sz =? 16 then Ret args
              else extend_arg_by_loc_info args dst (te_get_reg_locinfo xx j));
      regs_from_mem xx sz (u32 (offset + sz)) (j + 1) n args
  end.

Definition arg_reg_mem (xx aa : ABIArgInfo) (args : list Z) : outcome (list Z) :=
  let xxRegCnt := te_num_of_reg xx in
  let sz := if xxRegCnt * 16 =? te_get_arg_size aa then 16 else 8 in
  regs_from_mem xx sz (te_get_mem aa) 0 (Z.to_nat xxRegCnt) args.

(** Case [0b0100]: the x86-64 stack from registers, [sz] bytes each. *)
Fixpoint mem_from_regs (xx aa : ABIArgInfo) (sz offset j : Z) (n : nat) (args : list Z) :
    outcome (list Z) :=
  match n with
  | O => Ret args
  | S n =>
      ar ← te_get_reg aa j;
      let dst := SIZEOF_REGISTER_ARGS + offset in
      args ← copy_reg args dst ar sz;
      args ← (if sz =? 16 then Ret args
              else extend_arg_by_loc_info args dst (te_get_mem_locinfo xx));
      mem_from_regs xx aa sz (u32 (offset + sz)) (j + 1) n args
  end.

Definition arg_mem_reg (xx aa : ABIArgInfo) (args : list Z) : outcome (list Z) :=
  let aaRegCnt := te_num_of_reg aa in
  let sz := if aaRegCnt * 16 =? te_get_arg_size xx then 16 else 8 in
  mem_from_regs xx aa sz (te_get_mem xx) 0 (Z.to_nat aaRegCnt) args.

(** Case [0b0101] *)
Definition arg_mem_mem (xx aa : ABIArgInfo) (args : list Z) : outcome (list Z) :=
  let arg_size := te_get_arg_size aa in
  _ ← c_assert (arg_size =? te_get_arg_size xx);
  let dst := SIZEOF_REGISTER_ARGS + te_get_mem xx in
  args ← copy_mem args dst (AARCH64_SP + te_get_mem aa) arg_size;
  if arg_size <=? 2 then extend_arg_by_loc_info args dst (te_get_mem_locinfo xx) else Ret args.

(** Cases [0b0110] and [0b0111], with the address already loaded. *)
Definition arg_mem_indirect (xx : ABIArgInfo) (aPtr : Z) (args : list Z) : outcome (list Z) :=
  let arg_size := te_get_arg_size xx in
  args ← copy_mem args (SIZEOF_REGISTER_ARGS + te_get_mem xx) aPtr arg_size;
  _ ← c_assert (2 <? arg_size);
  Ret args.

(** One argument. *)
Definition entry_arg (xx aa : ABIArgInfo) (args : list Z) : outcome (list Z) :=
  let xxRegCnt := te_num_of_reg xx in let aaRegCnt := te_num_of_reg aa in
  if (negb (te_is_mem xx) && (0 =? xxRegCnt)) || (negb (te_is_mem aa) && (0 =? aaRegCnt))
  then Ret args else
  match te_is_indirect xx, te_is_mem xx, te_is_indirect aa, te_is_mem aa with
  | false, false, false, false => arg_reg_reg xx aa args
  | false, false, false, true => arg_reg_mem xx aa args
  | false, false, true, _ => Stop Aborted
  | false, true, false, false => arg_mem_reg xx aa args
  | false, true, false, true => arg_mem_mem xx aa args
  | false, true, true, false =>
      ar ← te_get_reg aa 0; bs ← rd_a64 env ar 8; arg_mem_indirect xx (le_val bs) args
  | false, true, true, true =>
      bs ← rd_mem mem (AARCH64_SP + te_get_mem aa) 8; arg_mem_indirect xx (le_val bs) args
  | true, _, _, _ => Stop Aborted
  end.

Fixpoint entry_args (xxs aas : list ABIArgInfo) (i : nat) (n : nat) (args : list Z) :
    outcome (list Z) :=
  match n with
  | O => Ret args
  | S n =>
      xx ← c_index xxs i; aa ← c_index aas i;
      args ← entry_arg xx aa args;
      entry_args xxs aas (S i) n args
  end.

(** The hidden pointer to the return value. *)
Definition entry_ret (xxRet aaRet : ABIArgInfo) (sret : Z) (args : list Z) : outcome (list Z) :=
  match te_is_indirect xxRet, te_is_indirect aaRet with
  | true, false => r ← te_get_reg xxRet 0; wr args (x64_enum_2_ptr r) (le_bytes 8 sret)
  | true, true =>
      r ← te_get_reg xxRet 0; bs ← rd (xregs env) (8 * 8) 8; wr args (x64_enum_2_ptr r) bs
  | false, _ => Ret args
  end.

Definition abi_dy_a2x_entry_trans_internal (aaInfo xxInfo : ABIFnInfo) (args : list Z) (sret : Z) :
    outcome (list Z) :=
  args ← entry_ret (rinfo xxInfo) (rinfo aaInfo) sret args;
  args ← entry_args (ainfo xxInfo) (ainfo aaInfo) 0 (Z.to_nat (nargs xxInfo)) args;
  wr args OFF_RAX (le_bytes 8 (ssecount xxInfo)).
End entry.

Definition abi_dy_a2x_entry_translation (env : CPUARMState) (mem : memory)
    (aaInfo xxInfo : ABIFnInfo) (args : list Z) (sret : Z) : outcome (list Z) :=
  sp ← xreg env REG_SP_NUM;
  abi_dy_a2x_entry_trans_internal env mem sp aaInfo xxInfo args sret.

(** The variadic part of a [va_list]: the stack area is where the [va_list]
    argument points. *)
Definition abi_valist_a2x_prepare_args (env : CPUARMState) (mem : memory)
    (aaInfo xxInfo : ABIFnInfo) (args : list Z) (sret idxOfValist : Z) : outcome (list Z) :=
  _ ← c_assert (idxOfValist <=? 7);
  sp ← xreg env idxOfValist;
  abi_dy_a2x_entry_trans_internal env mem sp aaInfo xxInfo args sret.

(** ** Exit: the x86-64 return value to the AArch64 one *)

(** Copy [n] bytes at [src] of an array into an AArch64 register. *)
Definition copy_to_a64 (env : CPUARMState) (aaReg : Z) (l : list Z) (src n : Z) :
    outcome CPUARMState :=
  bs ← rd l src n; wr_a64 env aaReg bs.

Definition extend_ret_a64 (env : CPUARMState) (aaReg x64Reg locInfo : Z) : outcome CPUARMState :=
  match a64_enum_2_ptr aaReg with
  | Some (XPtr off) =>
      l ← extend_ret_by_reg_loc_info (xregs env) off x64Reg locInfo; Ret (mk_env l (zregs env))
  | Some (ZPtr off) =>
      l ← extend_ret_by_reg_loc_info (zregs env) off x64Reg locInfo; Ret (mk_env (xregs env) l)
  | None => Stop Undefined
  end.

Section exit.
Context (args sret : list Z).

Fixpoint ret_one_by_one (xx aa : ABIArgInfo) (j : Z) (n : nat) (env : CPUARMState) :
    outcome CPUARMState :=
  match n with
  | O => Ret env
  | S n =>
      xr ← te_get_reg xx j; ar ← te_get_reg aa j;
      env ← (if is_xmm xr then copy_to_a64 env ar args (x64_enum_2_ptr xr) 16
             else env ← copy_to_a64 env ar args (x64_enum_2_ptr xr) 8;
                  extend_ret_a64 env ar xr (te_get_reg_locinfo xx j));
      ret_one_by_one xx aa (j + 1) n env
  end.

Definition ret_one_to_two (xx aa : ABIArgInfo) (env : CPUARMState) : outcome CPUARMState :=
  x0 ← te_get_reg xx 0; a0 ← te_get_reg aa 0; a1 ← te_get_reg aa 1;
  _ ← c_assert (TE_XMM0 =? x0);
  _ ← c_assert (TE_S0 =? a0);
  _ ← c_assert (a0 + 1 =? a1);
  let xPtr := x64_enum_2_ptr x0 in
  env ← copy_to_a64 env a0 args xPtr 4;
  copy_to_a64 env a1 args (xPtr + 4) 4.

Definition ret_two_to_many (xx aa : ABIArgInfo) (aaRegCnt : Z) (env : CPUARMState) :
    outcome CPUARMState :=
  x0 ← te_get_reg xx 0; x1 ← te_get_reg xx 1;
  a0 ← te_get_reg aa 0; a1 ← te_get_reg aa 1; a2 ← te_get_reg aa 2;
  _ ← c_assert (TE_XMM0 =? x0);
  _ ← c_assert (x0 + 1 =? x1);
  _ ← c_assert ((3 =? aaRegCnt) || (4 =? aaRegCnt));
  _ ← c_assert (TE_S0 =? a0);
  _ ← c_assert (a0 + 1 =? a1);
  _ ← c_assert (a1 + 1 =? a2);
  let xPtr := x64_enum_2_ptr x0 in
  env ← copy_to_a64 env a0 args xPtr 4;
  env ← copy_to_a64 env a1 args (xPtr + 4) 4;
  let xPtr := x64_enum_2_ptr x1 in
  env ← copy_to_a64 env a2 args xPtr 4;
  if 4 =? aaRegCnt then a3 ← te_get_reg aa 3; copy_to_a64 env a3 args (xPtr + 4) 4 else Ret env.

Definition ret_direct (xx aa : ABIArgInfo) (env : CPUARMState) : outcome CPUARMState :=
  let xxRegCnt := te_num_of_reg xx in let aaRegCnt := te_num_of_reg aa in
  if xxRegCnt =? aaRegCnt then ret_one_by_one xx aa 0 (Z.to_nat xxRegCnt) env
  else if xxRegCnt <? aaRegCnt then
    if (1 =? xxRegCnt) && (2 =? aaRegCnt) then ret_one_to_two xx aa env
    else if 2 =? xxRegCnt then ret_two_to_many xx aa aaRegCnt env
    else Stop Aborted
  else Stop Aborted.

(** [for (j = 1; j < aaRegCnt; ++j) assert(te_get_reg(aa, j - 1) + 1 == te_get_reg(aa, j));] *)
Fixpoint consecutive (aa : ABIArgInfo) (j : Z) (n : nat) : outcome unit :=
  match n with
  | O => Ret tt
  | S n =>
      a ← te_get_reg aa (j - 1); b ← te_get_reg aa j;
      _ ← c_assert (a + 1 =? b);
      consecutive aa (j + 1) n
  end.

(** [sz] bytes of the buffer into each register. *)
Fixpoint regs_from_sret (aa : ABIArgInfo) (sz offset j : Z) (n : nat) (env : CPUARMState) :
    outcome CPUARMState :=
  match n with
  | O => Ret env
  | S n =>
      ar ← te_get_reg aa j;
      env ← copy_to_a64 env ar sret offset sz;
      regs_from_sret aa sz (offset + sz) (j + 1) n env
  end.

(** x86-64 returned in memory, AArch64 expects vector registers. *)
Definition ret_from_sret (aa : ABIArgInfo) (env : CPUARMState) : outcome CPUARMState :=
  let aaRegCnt := te_num_of_reg aa in
  _ ← consecutive aa 1 (Z.to_nat aaRegCnt - 1);
  a0 ← te_get_reg aa 0;
  if TE_D0 =? a0 then regs_from_sret aa 8 0 0 (Z.to_nat aaRegCnt) env
  else if TE_Q0 =? a0 then regs_from_sret aa 16 0 0 (Z.to_nat aaRegCnt) env
  else Stop Aborted.

Definition abi_dy_a2x_exit_translation (aaInfo xxInfo : ABIFnInfo) (env : CPUARMState) :
    outcome CPUARMState :=
  let xx := rinfo xxInfo in let aa := rinfo aaInfo in
  let xxRegCnt := te_num_of_reg xx in let aaRegCnt := te_num_of_reg aa in
  let structor := negb (isCxxStructor xxInfo =? 0) in
  if structor && (0 =? xxRegCnt) && (1 =? aaRegCnt) then Ret env
  else if structor && (1 =? xxRegCnt) && (0 =? aaRegCnt) then Ret env
  else match te_is_indirect xx, te_is_indirect aa with
  | false, false => ret_direct xx aa env
  | false, true => Stop Aborted
  | true, false => ret_from_sret aa env
  | true, true => Ret env
  end.
End exit.
