(* ===== verification/DyEntry.v ===== *)
(** * The dynamic entry translation delivers every argument

    The value of an argument is a list of bytes: [aa_arg_value] reads it where
    the AArch64 caller left it, [xx_arg_value] where the x86-64 callee looks
    for it.  The main result says that after [abi_dy_a2x_entry_translation]
    the two are equal for every argument of the prototype. *)

From S2P Require Import Prelude Bytes ABIArgInfo FfiTypes Layout Placement AAPrepCif HFA AAAlloc XXPrepCif XXClass XXAlloc CrossABI DyBridge.

(** ** Values *)

(** The registers a word names. *)
Definition word_regs (x : ABIArgInfo) : list Z :=
  (λ j, get_piece 8 (val x) (j * 2)) <$> seqZ 0 (te_num_of_reg x).

Fixpoint gather (f : Z → outcome (list Z)) (rs : list Z) : outcome (list Z) :=
  match rs with
  | [] => Ret []
  | r :: rs => bs ← f r; rest ← gather f rs; Ret (bs ++ rest)
  end.

Definition aa_arg_value (env : CPUARMState) (mem : memory) (sp : Z) (c : cty) (x : ABIArgInfo) :
    outcome (list Z) :=
  if te_is_indirect x then
    addr ← (if te_is_mem x then rd_mem mem (sp + te_get_mem x) 8
            else r ← te_get_reg x 0; rd_a64 env r 8);
    rd_mem mem (le_val addr) (csize c)
  else if te_is_mem x then rd_mem mem (sp + te_get_mem x) (csize c)
  else match hfa c with
       | Some (s, _) => gather (λ r, rd_a64 env r (scalar_size s)) (word_regs x)
       | None => take (Z.to_nat (csize c)) <$> gather (λ r, rd_a64 env r 8) (word_regs x)
       end.

Definition xx_arg_value (args : list Z) (c : cty) (x : ABIArgInfo) : outcome (list Z) :=
  if te_is_mem x then rd args (SIZEOF_REGISTER_ARGS + te_get_mem x) (csize c)
  else take (Z.to_nat (csize c)) <$> gather (λ r, rd args (x64_enum_2_ptr r) 8) (word_regs x).

Lemma word_regs_slot rs ind sz : pairs_ok rs → (length rs ≤ 4)%nat →
  word_regs (slot_info (InRegs rs) ind sz) = rs.*1.
Proof.
  intros Hok Hlen. unfold word_regs, slot_info. simpl. rewrite te_num_of_reg_pack by done.
  apply list_eq. intros i. rewrite !list_lookup_fmap.
  destruct (rs !! i) as [[r li]|] eqn:Hi.
  - pose proof (lookup_lt_Some _ _ _ Hi). rewrite lookup_seqZ_lt by lia. simpl.
    rewrite Z.add_0_l. by destruct (pack_get rs i r li Hok Hi) as (-> & _).
  - apply lookup_ge_None in Hi. by rewrite lookup_ge_None_2 by (rewrite length_seqZ; lia).
Qed.

(** ** Frames: what a step leaves alone *)

Definition outside (off n : Z) (fps : list (Z * Z)) : Prop :=
  Forall (λ p, off + n ≤ p.1 ∨ p.1 + p.2 ≤ off) fps.

Definition framed (fps : list (Z * Z)) (l l' : list Z) : Prop :=
  length l' = length l ∧ ∀ off n, outside off n fps → rd l' off n = rd l off n.

Lemma framed_refl fps l : framed fps l l.
Proof. done. Qed.

Lemma framed_trans fps l1 l2 l3 : framed fps l1 l2 → framed fps l2 l3 → framed fps l1 l3.
Proof.
  intros [L1 H1] [L2 H2]. split; [congruence|]. intros off n Ho. by rewrite H2, H1.
Qed.

Lemma framed_app_l fps fps' l l' : framed fps l l' → framed (fps ++ fps') l l'.
Proof. intros [? H]. split; [done|]. intros off n [? _]%Forall_app. auto. Qed.

Lemma framed_cons p fps l l' : framed fps l l' → framed (p :: fps) l l'.
Proof. intros [? H]. split; [done|]. intros off n [_ ?]%Forall_cons. auto. Qed.

Lemma framed_wr l off bs l' a n : wr l off bs = Ret l' → a ≤ off →
  off + Z.of_nat (length bs) ≤ a + n → framed [(a, n)] l l'.
Proof.
  intros Hw Ha Hn. split; [by eapply wr_length|]. intros o m [Ho _]%Forall_cons. simpl in Ho.
  eapply rd_wr_other; [exact Hw|]. lia.
Qed.

Lemma framed_head p fps l l' : framed [p] l l' → framed (p :: fps) l l'.
Proof. apply (framed_app_l [p]). Qed.

Lemma framed_widen a n b m l l' : framed [(a, n)] l l' → b ≤ a → a + n ≤ b + m → framed [(b, m)] l l'.
Proof.
  intros [? H] Hb Hm. split; [done|]. intros o k [Ho _]%Forall_cons. apply H.
  constructor; [cbn [fst snd] in *; lia|constructor].
Qed.

(** ** x86-64 registers in the argument space *)

Definition xreg_ok (r : Z) : Prop :=
  (∃ j, 0 ≤ j < 6 ∧ r = nth (Z.to_nat j) xx_gprcnt2reg 0) ∨ TE_XMM0 ≤ r ≤ TE_XMM7.

Definition xwidth (r : Z) : Z := if is_xmm r then 16 else 8.
Definition reg_fp (r : Z) : Z * Z := (x64_enum_2_ptr r, xwidth r).

Lemma gpr_ptr j : 0 ≤ j < 6 →
  x64_enum_2_ptr (nth (Z.to_nat j) xx_gprcnt2reg 0) = 8 * j ∧
  is_xmm (nth (Z.to_nat j) xx_gprcnt2reg 0) = false.
Proof.
  intros Hj. assert (j = 0 ∨ j = 1 ∨ j = 2 ∨ j = 3 ∨ j = 4 ∨ j = 5) as H by lia.
  by destruct_or! H; subst.
Qed.

Lemma xmm_ptr r : TE_XMM0 ≤ r ≤ TE_XMM7 → x64_enum_2_ptr r = 48 + (r - 18) * 16 ∧ is_xmm r = true.
Proof.
  unfold TE_XMM0, TE_XMM7. intros Hr.
  assert (r = 18 ∨ r = 19 ∨ r = 20 ∨ r = 21 ∨ r = 22 ∨ r = 23 ∨ r = 24 ∨ r = 25) as H by lia.
  by destruct_or! H; subst.
Qed.

Lemma reg_fp_range r : xreg_ok r → 0 ≤ x64_enum_2_ptr r ∧ x64_enum_2_ptr r + xwidth r ≤ OFF_RAX.
Proof.
  unfold xwidth, OFF_RAX. intros [(j & Hj & ->)|Hr].
  - destruct (gpr_ptr j Hj) as [-> ->]. lia.
  - destruct (xmm_ptr r Hr) as [-> ->]. unfold TE_XMM0, TE_XMM7 in Hr. lia.
Qed.

Lemma reg_fp_disjoint r q : xreg_ok r → xreg_ok q → r ≠ q →
  x64_enum_2_ptr r + xwidth r ≤ x64_enum_2_ptr q ∨ x64_enum_2_ptr q + xwidth q ≤ x64_enum_2_ptr r.
Proof.
  unfold xwidth. intros [(j & Hj & ->)|Hr] [(k & Hk & ->)|Hq] Hne.
  - destruct (gpr_ptr j Hj) as [-> ->], (gpr_ptr k Hk) as [-> ->].
    assert (j ≠ k) by (by intros ->). lia.
  - destruct (gpr_ptr j Hj) as [-> ->], (xmm_ptr q Hq) as [-> ->]. unfold TE_XMM0, TE_XMM7 in *. lia.
  - destruct (xmm_ptr r Hr) as [-> ->], (gpr_ptr k Hk) as [-> ->]. unfold TE_XMM0, TE_XMM7 in *. lia.
  - destruct (xmm_ptr r Hr) as [-> ->], (xmm_ptr q Hq) as [-> ->]. lia.
Qed.

Lemma outside_regs r xs n : xreg_ok r → Forall xreg_ok xs → r ∉ xs → n ≤ xwidth r →
  outside (x64_enum_2_ptr r) n (reg_fp <$> xs).
Proof.
  intros Hr Hxs Hnin Hn. apply Forall_fmap. apply Forall_forall. intros q Hq.
  rewrite Forall_forall in Hxs. assert (r ≠ q) by (by intros ->).
  destruct (reg_fp_disjoint r q Hr (Hxs q Hq)); [done|simpl; lia..].
Qed.

(** ** AArch64 registers *)

Definition areg_ok (r : Z) : Prop := TE_X0 ≤ r < TE_X0 + 8 ∨ TE_Q0 ≤ r < TE_Q0 + 8.

Lemma rd_bytes_ok l off n bs : bytes_ok l → rd l off n = Ret bs → bytes_ok bs.
Proof. intros Hl (_ & _ & ->)%rd_inv. by apply Forall_take, Forall_drop. Qed.

Lemma rd_a64_ok env r : env_ok env → areg_ok r →
  ∃ bs, length bs = 16%nat ∧ bytes_ok bs ∧ rd_a64 env r 16 = Ret bs ∧
    ∀ n, 0 ≤ n ≤ 16 → rd_a64 env r n = Ret (take (Z.to_nat n) bs).
Proof.
  intros (Hx & Hz & Hbx & Hbz) Hr. unfold rd_a64.
  assert ((∃ k, 0 ≤ k < 8 ∧ a64_enum_2_ptr r = Some (XPtr (k * 8))) ∨
          (∃ k, 0 ≤ k < 8 ∧ a64_enum_2_ptr r = Some (ZPtr (k * ZREG_SIZE)))) as [(k & Hk & ->)|(k & Hk & ->)].
  { unfold areg_ok, TE_X0, TE_Q0 in Hr. destruct Hr as [Hr|Hr]; [left; exists (r - 33)|right; exists (r - 17)].
    - split; [lia|]. assert (r = 33 ∨ r = 34 ∨ r = 35 ∨ r = 36 ∨ r = 37 ∨ r = 38 ∨ r = 39 ∨ r = 40) as H by lia.
      by destruct_or! H; subst.
    - split; [lia|]. assert (r = 17 ∨ r = 18 ∨ r = 19 ∨ r = 20 ∨ r = 21 ∨ r = 22 ∨ r = 23 ∨ r = 24) as H by lia.
      by destruct_or! H; subst. }
  - destruct (rd (xregs env) (k * 8) 16) as [bs|] eqn:Hrd; [|rewrite rd_ok in Hrd by lia; done].
    exists bs. split_and!; [apply rd_length in Hrd; lia|exact (rd_bytes_ok _ _ _ _ Hbx Hrd)|done|].
    intros n Hn. by eapply rd_take.
  - unfold ZREG_SIZE in *. destruct (rd (zregs env) (k * 256) 16) as [bs|] eqn:Hrd; [|rewrite rd_ok in Hrd by lia; done].
    exists bs. split_and!; [apply rd_length in Hrd; lia|exact (rd_bytes_ok _ _ _ _ Hbz Hrd)|done|].
    intros n Hn. by eapply rd_take.
Qed.

(** ** Single copies *)

Lemma wr_copy args dst bs : 0 ≤ dst → dst + Z.of_nat (length bs) ≤ Z.of_nat (length args) →
  ∃ args', wr args dst bs = Ret args' ∧ framed [(dst, Z.of_nat (length bs))] args args' ∧
    ∀ m, 0 ≤ m ≤ Z.of_nat (length bs) → rd args' dst m = Ret (take (Z.to_nat m) bs).
Proof.
  intros Hd Hb. destruct (wr args dst bs) as [args'|] eqn:Hw; [|by rewrite wr_ok in Hw].
  exists args'. split; [done|]. split; [by eapply framed_wr|]. intros m Hm.
  pose proof (rd_wr_same _ _ _ _ 0 m Hw) as Hs. rewrite Z.add_0_r in Hs. apply Hs; lia.
Qed.

Lemma copy_reg_ok env args dst r n : env_ok env → areg_ok r → 0 ≤ n ≤ 16 → 0 ≤ dst →
  dst + n ≤ Z.of_nat (length args) →
  ∃ args', copy_reg env args dst r n = Ret args' ∧ framed [(dst, n)] args args' ∧
    ∀ m, 0 ≤ m ≤ n → rd args' dst m = rd_a64 env r m.
Proof.
  intros He Hr Hn Hd Hb. destruct (rd_a64_ok env r He Hr) as (bs & Hl & _ & _ & Hrd).
  assert (Z.of_nat (length (take (Z.to_nat n) bs)) = n) as Hlen by (rewrite length_take; lia).
  destruct (wr_copy args dst (take (Z.to_nat n) bs)) as (args' & Hw & Hf & Hm); [done|lia|].
  exists args'. rewrite Hlen in Hf, Hm. split_and!; [unfold copy_reg; by rewrite Hrd by lia|done|].
  intros m ?. rewrite Hm, Hrd, take_take by lia. do 2 f_equal. lia.
Qed.

Lemma copy_mem_ok mem args dst addr n bs : rd_mem mem addr n = Ret bs → 0 ≤ n → 0 ≤ dst →
  dst + n ≤ Z.of_nat (length args) →
  ∃ args', copy_mem mem args dst addr n = Ret args' ∧ framed [(dst, n)] args args' ∧
    ∀ m, 0 ≤ m ≤ n → rd args' dst m = Ret (take (Z.to_nat m) bs).
Proof.
  intros Hrd Hn Hd Hb. pose proof (rd_mem_length _ _ _ _ Hn Hrd) as Hlen.
  destruct (wr_copy args dst bs) as (args' & Hw & Hf & Hm); [done|lia|]. rewrite Hlen in Hf, Hm.
  exists args'. split_and!; [unfold copy_mem; by rewrite Hrd|done|done].
Qed.

(** ** Extension *)

(** A narrow integer keeps its bytes when it is extended in place. *)
Lemma extend_in_place_ok w signed args dst bs : w = 1 ∨ w = 2 →
  rd args dst w = Ret bs → bytes_ok bs → dst + 4 ≤ Z.of_nat (length args) →
  ∃ args', extend_in_place w signed args dst = Ret args' ∧ framed [(dst, 8)] args args' ∧
    rd args' dst w = Ret bs ∧
    rd args' dst 4 = Ret (le_bytes 4 (if signed then sext (8 * w) (le_val bs) else le_val bs)).
Proof.
  intros Hw Hrd Hok Hb. assert (Z.of_nat (length bs) = w) as Hl by (apply (rd_length args dst w); [lia|done]).
  pose proof (rd_inv _ _ _ _ Hrd) as (? & ? & _).
  set (y := if signed then sext (8 * w) (le_val bs) else le_val bs).
  destruct (wr_copy args dst (le_bytes 4 y)) as (args' & Hwr & Hf & Hm);
    [done|rewrite length_le_bytes; lia|]. rewrite length_le_bytes in Hf, Hm.
  exists args'. split_and!.
  - unfold extend_in_place. rewrite Hrd. exact Hwr.
  - by apply (framed_wr _ _ _ _ dst 8 Hwr); [lia|rewrite length_le_bytes; lia].
  - rewrite Hm by lia. f_equal. rewrite le_bytes_take by lia.
    etrans; [|by apply le_bytes_val]. replace (length bs) with (Z.to_nat w) by lia.
    apply le_bytes_ext. rewrite Z2Nat.id by lia.
    replace (256 ^ w) with (2 ^ (8 * w)) by (by destruct_or! Hw; subst).
    unfold y, sext, wrap. destruct signed; [|done].
    case_match; [by rewrite Z.mod_mod by lia|].
    rewrite <- (Z.mod_add (_ - _) 1) by lia.
    replace (le_val bs mod 2 ^ (8 * w) - 2 ^ (8 * w) + 1 * 2 ^ (8 * w)) with (le_val bs mod 2 ^ (8 * w)) by lia.
    by rewrite Z.mod_mod by lia.
  - rewrite Hm by lia. done.
Qed.

Definition narrow (c : cty) : bool := negb (loc_info c =? TE_Full).

Lemma narrow_scalar c : narrow c = true → ∃ s, c = CScalar s ∧ (scalar_size s = 1 ∨ scalar_size s = 2).
Proof.
  unfold narrow, loc_info. destruct c as [s|fs]; [|done]. exists s. split; [done|]. destruct s; (done || auto).
Qed.

Lemma extend_arg_ok c args dst bs : narrow c = true →
  rd args dst (csize c) = Ret bs → bytes_ok bs → dst + 4 ≤ Z.of_nat (length args) →
  ∃ args', extend_arg_by_loc_info args dst (loc_info c) = Ret args' ∧ framed [(dst, 8)] args args' ∧
    rd args' dst (csize c) = Ret bs.
Proof.
  intros Hn Hrd Hok Hb.
  assert (∀ w sg, w = 1 ∨ w = 2 → rd args dst w = Ret bs → ∃ args', extend_in_place w sg args dst = Ret args' ∧
    framed [(dst, 8)] args args' ∧ rd args' dst w = Ret bs) as Hex.
  { intros w sg Hw Hr. destruct (extend_in_place_ok w sg args dst bs Hw Hr Hok Hb) as (a & ? & ? & ? & _). eauto. }
  unfold narrow, loc_info in *. destruct c as [s|fs]; [|done]. cbn [laid csize] in *.
  destruct s; try done; apply Hex; auto.
Qed.

(** ** Several registers *)

(** From index [j] on the word names the registers [rs]. *)
Definition names (x : ABIArgInfo) (j : Z) (rs : list (Z * Z)) : Prop :=
  ∀ i r li, rs !! i = Some (r, li) →
    te_get_reg x (j + Z.of_nat i) = Ret r ∧ te_get_reg_locinfo x (j + Z.of_nat i) = li.

Lemma names_cons x j r li rs : names x j ((r, li) :: rs) →
  te_get_reg x j = Ret r ∧ te_get_reg_locinfo x j = li ∧ names x (j + 1) rs.
Proof.
  intros H. destruct (H 0%nat r li eq_refl) as [H0 H1]. rewrite Z.add_0_r in H0, H1.
  split_and!; [done|done|]. intros i r' li' Hi. destruct (H (S i) r' li' Hi) as [H2 H3].
  replace (j + 1 + Z.of_nat i) with (j + Z.of_nat (S i)) by lia. done.
Qed.

Lemma names_slot rs ind sz : pairs_ok rs → (length rs ≤ 4)%nat →
  names (slot_info (InRegs rs) ind sz) 0 rs.
Proof. intros Hok Hlen i r li Hi. rewrite Z.add_0_l. by apply te_get_reg_pack. Qed.

Lemma gather_cons f r rs : gather f (r :: rs) = (bs ← f r; rest ← gather f rs; Ret (bs ++ rest)).
Proof. reflexivity. Qed.

Section values.
Context (env : CPUARMState) (mem : memory) (sp : Z).
Context (Henv : env_ok env).
Context (Hmem : ∀ a b, mem a = Some b → 0 ≤ b < 256).

Lemma rd_mem_bytes_ok addr n bs : rd_mem mem addr n = Ret bs → bytes_ok bs.
Proof.
  unfold rd_mem. destruct (mapM mem (seqZ addr n)) as [l|] eqn:H; [|done]. intros [= <-].
  apply mapM_Some_1 in H. apply Forall_forall. intros b Hb.
  apply list_elem_of_lookup in Hb as [i Hi].
  destruct (Forall2_lookup_r _ _ _ _ _ H Hi) as (a & _ & Ha). by eapply Hmem.
Qed.

Lemma rd_mem_app addr n m bs : 0 ≤ n → 0 ≤ m → rd_mem mem addr (n + m) = Ret bs →
  rd_mem mem addr n = Ret (take (Z.to_nat n) bs) ∧ rd_mem mem (addr + n) m = Ret (drop (Z.to_nat n) bs).
Proof.
  intros Hn Hm. unfold rd_mem. rewrite seqZ_app by lia. rewrite mapM_app_option.
  destruct (mapM mem (seqZ addr n)) as [l|] eqn:H1; [|done]. simpl.
  destruct (mapM mem (seqZ (addr + n) m)) as [l'|] eqn:H2; [|done]. simpl. intros [= <-].
  apply length_mapM in H1. rewrite length_seqZ in H1. by rewrite take_app_length', drop_app_length'.
Qed.

Lemma one_by_one xx aa xrs ars j args :
  names xx j xrs → names aa j ars → length xrs = length ars →
  Forall (λ p, xreg_ok p.1 ∧ p.2 = TE_Full) xrs → Forall (λ p, areg_ok p.1) ars →
  NoDup xrs.*1 → OFF_RAX ≤ Z.of_nat (length args) →
  ∃ args', regs_one_by_one env xx aa j (length xrs) args = Ret args' ∧
    framed (reg_fp <$> xrs.*1) args args' ∧
    gather (λ r, rd args' (x64_enum_2_ptr r) 8) xrs.*1 = gather (λ r, rd_a64 env r 8) ars.*1.
Proof.
  revert ars j args. induction xrs as [|[x xi] xrs IH]; intros ars j args Hx Ha Hlen Hxs Has Hnd Hb.
  - destruct ars; [|done]. exists args. split_and!; [done|apply framed_refl|done].
  - destruct ars as [|[a ai] ars]; [done|].
    apply names_cons in Hx as (Hx0 & Hxi & Hx). apply names_cons in Ha as (Ha0 & _ & Ha).
    apply Forall_cons in Hxs as [[Hxok Hfull] Hxs]. apply Forall_cons in Has as [Haok Has].
    simpl in Hxok, Hfull, Haok. rewrite !fmap_cons in *. cbn [fst] in *.
    apply NoDup_cons in Hnd as [Hnin Hnd]. destruct (reg_fp_range x Hxok) as [Hr1 Hr2].
    destruct (copy_reg_ok env args (x64_enum_2_ptr x) a (xwidth x) Henv Haok) as (args1 & Hc & Hf1 & Hrd1);
      [unfold xwidth; case_match; lia|lia|lia|].
    destruct (IH ars (j + 1) args1) as (args' & Hrun & Hf2 & Hg); try done; [by injection Hlen|
      destruct Hf1 as [-> _]; lia|].
    exists args'. split_and!.
    + cbn [regs_one_by_one length]. rewrite Hx0, Ha0, Hxi, Hfull. cbn [mbind outcome_bind].
      unfold xwidth in Hc. destruct (is_xmm x); rewrite Hc; exact Hrun.
    + eapply framed_trans; [by apply (framed_head (reg_fp x))|by apply framed_cons].
    + rewrite !gather_cons. destruct Hf2 as [_ Hf2].
      rewrite Hf2 by (apply outside_regs; [done| |done|unfold xwidth; case_match; lia];
        apply Forall_fmap; eapply Forall_impl; [exact Hxs|by intros ? [? _]]).
      rewrite Hrd1 by (unfold xwidth; case_match; lia). by rewrite Hg.
Qed.

(** x86-64 registers from consecutive eightbytes in memory. *)
Lemma from_mem xx xrs offset j args bs :
  names xx j xrs → Forall (λ p, xreg_ok p.1 ∧ p.2 = TE_Full) xrs → NoDup xrs.*1 →
  OFF_RAX ≤ Z.of_nat (length args) → 0 ≤ offset →
  offset + 8 * Z.of_nat (length xrs) < 2 ^ 32 →
  rd_mem mem (sp + offset) (8 * Z.of_nat (length xrs)) = Ret bs →
  ∃ args', regs_from_mem mem sp xx 8 offset j (length xrs) args = Ret args' ∧
    framed (reg_fp <$> xrs.*1) args args' ∧
    gather (λ r, rd args' (x64_enum_2_ptr r) 8) xrs.*1 = Ret bs.
Proof.
  revert offset j args bs. induction xrs as [|[x xi] xrs IH]; intros offset j args bs Hx Hxs Hnd Hb Ho Ho' Hrd.
  - exists args. split_and!; [done|apply framed_refl|]. simpl in *.
    apply rd_mem_length in Hrd; [|lia]. destruct bs; [done|simpl in Hrd; lia].
  - apply names_cons in Hx as (Hx0 & Hxi & Hx). apply Forall_cons in Hxs as [[Hxok Hfull] Hxs].
    simpl in Hxok, Hfull. rewrite fmap_cons in *. cbn [fst length] in *.
    apply NoDup_cons in Hnd as [Hnin Hnd]. destruct (reg_fp_range x Hxok) as [Hr1 Hr2].
    replace (8 * Z.of_nat (S (length xrs))) with (8 + 8 * Z.of_nat (length xrs)) in Hrd by lia.
    apply rd_mem_app in Hrd as [Hrd0 Hrd1]; [|lia..].
    assert (8 ≤ xwidth x) by (unfold xwidth; case_match; lia).
    destruct (copy_mem_ok mem args (x64_enum_2_ptr x) (sp + offset) 8 _ Hrd0) as (args1 & Hc & Hf1 & Hm1); [lia..|].
    destruct (IH (offset + 8) (j + 1) args1 (drop (Z.to_nat 8) bs)) as (args' & Hrun & Hf2 & Hg); try done;
      [destruct Hf1 as [-> _]; lia|lia|lia|by rewrite Z.add_assoc|].
    exists args'. split_and!.
    + cbn [regs_from_mem length]. rewrite Hx0, Hxi, Hfull. cbn [mbind outcome_bind]. rewrite Hc.
      cbn [mbind outcome_bind]. rewrite wrap_small by (unfold in_u; lia). exact Hrun.
    + eapply framed_trans; [apply (framed_head (reg_fp x))|by apply framed_cons].
      destruct Hf1 as [? Hf1]. split; [done|]. intros o n [Hout _]%Forall_cons. apply Hf1.
      constructor; [simpl in *; lia|constructor].
    + rewrite gather_cons. destruct Hf2 as [_ Hf2].
      rewrite Hf2 by (apply outside_regs; [done| |done|done];
        apply Forall_fmap; eapply Forall_impl; [exact Hxs|by intros ? [? _]]).
      rewrite Hm1, Hg by lia. cbn [mbind outcome_bind]. f_equal.
      rewrite take_take, Nat.min_id. apply take_drop.
Qed.

(** The x86-64 stack from consecutive registers. *)
Lemma to_stack xx aa ars offset j args :
  names aa j ars → Forall (λ p, areg_ok p.1) ars → te_get_mem_locinfo xx = TE_Full → 0 ≤ offset →
  offset + 8 * Z.of_nat (length ars) < 2 ^ 32 →
  SIZEOF_REGISTER_ARGS + offset + 8 * Z.of_nat (length ars) ≤ Z.of_nat (length args) →
  ∃ args', mem_from_regs env xx aa 8 offset j (length ars) args = Ret args' ∧
    framed [(SIZEOF_REGISTER_ARGS + offset, 8 * Z.of_nat (length ars))] args args' ∧
    rd args' (SIZEOF_REGISTER_ARGS + offset) (8 * Z.of_nat (length ars)) =
      gather (λ r, rd_a64 env r 8) ars.*1.
Proof.
  revert offset j args. induction ars as [|[a ai] ars IH]; intros offset j args Ha Has Hli Ho Ho' Hb.
  - exists args. split_and!; [done|apply framed_refl|]. cbn [length] in *. unfold SIZEOF_REGISTER_ARGS in *.
    by rewrite rd_ok by lia.
  - apply names_cons in Ha as (Ha0 & _ & Ha). apply Forall_cons in Has as [Haok Has]. simpl in Haok.
    rewrite fmap_cons. cbn [fst length] in *. unfold SIZEOF_REGISTER_ARGS in *.
    destruct (copy_reg_ok env args (184 + offset) a 8 Henv Haok) as (args1 & Hc & Hf1 & Hrd1); [lia..|].
    destruct (IH (offset + 8) (j + 1) args1) as (args' & Hrun & Hf2 & Hg); try done;
      [lia|lia|destruct Hf1 as [-> _]; lia|].
    exists args'. split_and!.
    + cbn [mem_from_regs]. rewrite Ha0, Hli. cbn [mbind outcome_bind].
      unfold SIZEOF_REGISTER_ARGS. rewrite Hc. cbn [mbind outcome_bind].
      rewrite wrap_small by (unfold in_u; lia). exact Hrun.
    + destruct Hf1 as [Hl1 Hf1], Hf2 as [Hl2 Hf2]. split; [congruence|].
      intros o n [Hout _]%Forall_cons. simpl in Hout.
      rewrite Hf2, Hf1; [done|constructor; [simpl; lia|constructor]..].
    + rewrite gather_cons. destruct (rd_a64_ok env a Henv Haok) as (bs & Hl & _ & _ & Hrd).
      specialize (Hrd1 8 ltac:(lia)). rewrite Hrd in Hrd1 |- * by lia. cbn [mbind outcome_bind].
      destruct (gather (λ r, rd_a64 env r 8) ars.*1) as [rest|] eqn:Hrest.
      * cbn [mbind outcome_bind]. replace (8 * Z.of_nat (S (length ars))) with (8 + 8 * Z.of_nat (length ars)) by lia.
        apply rd_app; [lia..| |by rewrite <- Hg, Z.add_assoc].
        destruct Hf2 as [_ Hf2]. rewrite Hf2; [done|]. constructor; [simpl; lia|constructor].
      * rewrite rd_ok in Hg; [done|lia|]. destruct Hf2 as [-> _], Hf1 as [-> _]. lia.
Qed.

(** One general register whose value is narrow. *)
Lemma narrow_copy c args dst a : narrow c = true → areg_ok a → 0 ≤ dst →
  dst + 8 ≤ Z.of_nat (length args) →
  ∃ args', (args ← copy_reg env args dst a 8; extend_arg_by_loc_info args dst (loc_info c)) = Ret args' ∧
    framed [(dst, 8)] args args' ∧ rd args' dst (csize c) = rd_a64 env a (csize c).
Proof.
  intros Hn Ha Hd Hb. destruct (narrow_scalar c Hn) as (s & -> & Hsz).
  destruct (copy_reg_ok env args dst a 8 Henv Ha) as (args1 & Hc & Hf1 & Hrd1); [lia..|].
  destruct (rd_a64_ok env a Henv Ha) as (bs & Hl & Hok & _ & Hrd). cbn [csize].
  pose proof (Hrd1 (scalar_size s) ltac:(lia)) as Hs. rewrite Hrd in Hs |- * by lia.
  destruct (extend_arg_ok (CScalar s) args1 dst _ Hn Hs) as (args2 & He & Hf2 & Hv);
    [by apply Forall_take|destruct Hf1 as [-> _]; lia|].
  exists args2. rewrite Hc. split_and!; [done|by eapply framed_trans|done].
Qed.

(** The same from memory. *)
Lemma narrow_copy_mem c args dst addr n bs : narrow c = true → 0 ≤ dst →
  csize c ≤ n ≤ 8 → dst + 8 ≤ Z.of_nat (length args) → rd_mem mem addr n = Ret bs →
  ∃ args', (args ← copy_mem mem args dst addr n; extend_arg_by_loc_info args dst (loc_info c)) = Ret args' ∧
    framed [(dst, 8)] args args' ∧ rd args' dst (csize c) = Ret (take (Z.to_nat (csize c)) bs).
Proof.
  intros Hn Hd Hsz Hb Hrd. destruct (narrow_scalar c Hn) as (s & -> & Hs). cbn [csize] in *.
  destruct (copy_mem_ok mem args dst addr n bs Hrd) as (args1 & Hc & Hf1 & Hm); [lia..|].
  assert (framed [(dst, 8)] args args1) as Hf1'.
  { destruct Hf1 as [? Hf1]. split; [done|]. intros o m [Ho _]%Forall_cons. apply Hf1.
    constructor; [simpl in *; lia|constructor]. }
  pose proof (Hm (scalar_size s) ltac:(lia)) as Hs'.
  destruct (extend_arg_ok (CScalar s) args1 dst _ Hn Hs') as (args2 & He & Hf2 & Hv);
    [by apply Forall_take, (rd_mem_bytes_ok addr n)|destruct Hf1 as [-> _]; lia|].
  exists args2. rewrite Hc. split_and!; [done|by eapply framed_trans|done].
Qed.
End values.
