(* ===== verification/DyStep.v ===== *)
(** * One argument of the dynamic entry translation

    For every combination of places the two conventions can choose, one
    iteration of the loop of [abi_dy_a2x_entry_trans_internal] moves the value
    and touches nothing outside the place of the argument.  The one
    combination that does not is an HFA of several floats that is in S
    registers on AArch64 and on the stack on x86-64: the eight bytes copied per
    register overlap the wrong members. *)

From S2P Require Import Prelude Bytes ABIArgInfo FfiTypes Layout Placement AAPrepCif HFA AAAlloc XXPrepCif XXClass XXAlloc CrossABI DyBridge DyEntry.

(** ** The places the conventions choose *)

Definition aa_shape (c : cty) (p : place) : Prop :=
  match p with
  | OnStack off info => 0 ≤ off ∧ info = 0
  | InRegs rs => ∃ k n, 0 ≤ k ∧ 1 ≤ n ≤ 4 ∧ k + n ≤ 8 ∧
      match hfa c with
      | Some (_, m) => n = m ∧ rs = reg_seq (TE_Q0 + k) n
      | None => n = (if by_reference c then 1 else Z.of_nat (words c)) ∧ rs = reg_seq (TE_X0 + k) n
      end
  end.

(** [room] bytes of stack arguments. *)
Definition xx_shape (c : cty) (p : place) (room : Z) : Prop :=
  match p with
  | OnStack off info =>
      0 ≤ off ∧ (8 | off) ∧ off + align_up (csize c) 8 ≤ room ∧ info = loc_info c ∧ room < 2 ^ 31
  | InRegs rs => csize c ≤ 16 ∧ ∃ g s, 0 ≤ g ∧ 0 ≤ s ∧
      g + ngpr_of (code_class c 0) ≤ 6 ∧ s + nsse_of (code_class c 0) ≤ 8 ∧
      rs = regs_of (loc_info c) (code_class c 0) g s
  end.

Definition footprint (c : cty) (p : place) : list (Z * Z) :=
  match p with
  | InRegs rs => reg_fp <$> rs.*1
  | OnStack off _ => [(SIZEOF_REGISTER_ARGS + off, align_up (csize c) 8)]
  end.

Lemma place_arg_shape c a p a' : cty_wf c = true → alloc_ok a → place_arg c a = (p, a') → aa_shape c p.
Proof.
  intros Hw Ha H. destruct (place_arg_spec _ _ _ _ Hw Ha H) as (Hwi & _). pose proof Ha as (? & ? & ?).
  unfold place_arg, place_vregs, place_gprs, by_reference in *.
  destruct p as [rs|off info]; simpl; [|simpl in Hwi; destruct Hwi as (-> & ? & _); lia].
  destruct (hfa c) as [[s n]|] eqn:Hh.
  - destruct (hfa_inv _ _ _ Hh) as [_ ?]. unfold N_V_ARG_REG in H.
    destruct (Z.leb_spec (nsrn a + n) 8); [|by unfold push_stack in H].
    injection H as <- <-. exists (nsrn a), n. split_and!; (done || lia).
  - unfold by_reference. rewrite Hh. destruct (Z.ltb_spec 16 (csize c)); unfold N_X_ARG_REG in H.
    + destruct (Z.leb_spec (ngrn a + 1) 8); [|by unfold push_stack in H].
      injection H as <- <-. exists (ngrn a), 1. split_and!; (done || lia).
    + destruct (Z.leb_spec (ngrn a + (csize c + 7) / 8) 8); [|by unfold push_stack in H].
      injection H as <- <-. destruct (place_reg_bounds c Hw Hh) as [? ?]; [lia|].
      exists (ngrn a), ((csize c + 7) / 8). split_and!; try done; try lia.
      unfold words. rewrite Z2Nat.id; lia.
Qed.

Lemma xplace_shape c a p a' room : cty_wf c = true → xalloc_ok a → xplace c a = (p, a') →
  align_up (xb a') 8 ≤ room → room < 2 ^ 31 → xx_shape c p room.
Proof.
  intros Hw (? & ? & ?) Hxp Hr Hr'. pose proof (csize_pos c Hw). unfold xplace in Hxp.
  destruct (x_in_memory c a) eqn:Hm; injection Hxp as <- <-; simpl in *.
  - destruct (align_up_spec (xb a) 8) as [? Hd]; [done|]. split_and!; try done; [lia|].
    etrans; [|exact Hr]. destruct Hd as [q Hq]. rewrite Hq.
    rewrite (align_up_shift (q * 8) (csize c) 8); [done|done|apply Z.divide_factor_r].
  - unfold x_in_memory in Hm. btests. split; [lia|]. exists (xg a), (xs a). split_and!; (done || lia).
Qed.

(** ** Registers *)

Lemma regs_of_xreg_ok li L g s : 0 ≤ li < 2 ^ 8 → 0 ≤ g → 0 ≤ s →
  g + ngpr_of L ≤ 6 → s + nsse_of L ≤ 8 → Forall (λ p, xreg_ok p.1) (regs_of li L g s).
Proof.
  intros. eapply Forall_impl; [by apply regs_of_spec|]. simpl. intros p (_ & _ & [(j & ? & ?)|?]).
  - left. exists j. split; [lia|done].
  - right. unfold TE_XMM0, TE_XMM7 in *. lia.
Qed.

Lemma regs_of_full L g s : Forall (λ p, p.2 = TE_Full) (regs_of TE_Full L g s).
Proof.
  revert g s. induction L as [|c L IH]; intros g s; [constructor|]. simpl.
  repeat case_match; try constructor; (done || apply IH).
Qed.

Lemma regs_of_NoDup li L g s : 0 ≤ li < 2 ^ 8 → 0 ≤ g → 0 ≤ s →
  g + ngpr_of L ≤ 6 → s + nsse_of L ≤ 8 → NoDup (regs_of li L g s).*1.
Proof.
  intros Hli. revert g s. induction L as [|c L IH]; intros g s Hg Hs Hgb Hsb; [constructor|].
  destruct (reg_counts_le L) as (? & ? & _). rewrite ngpr_of_cons in Hgb. rewrite nsse_of_cons in Hsb.
  cbn [regs_of]. destruct (is_gpr_class c) eqn:Hgc; [|destruct (is_sse_class c) eqn:Hsc].
  - rewrite fmap_cons. constructor; [|apply IH; destruct (is_sse_class c); lia].
    intros ([r i] & Heq & Hin)%list_elem_of_fmap. cbn [fst] in Heq. subst r.
    pose proof (regs_of_spec li L (g + 1) s Hli) as Hsp. rewrite Forall_forall in Hsp.
    destruct (Hsp ltac:(lia) ltac:(lia) ltac:(lia) ltac:(destruct (is_sse_class c); lia) _ Hin) as (_ & _ & Hc).
    cbn [fst] in Hc. destruct Hc as [(j & ? & Heq)|Hc].
    + apply gpr_table_inj in Heq; lia.
    + destruct (gpr_table_range g) as (? & _ & Heq & ?); [lia|]. rewrite Heq in Hc. lia.
  - rewrite fmap_cons. constructor; [|apply IH; lia].
    intros ([r i] & Heq & Hin)%list_elem_of_fmap. cbn [fst] in Heq. subst r.
    pose proof (regs_of_spec li L g (s + 1) Hli) as Hsp. rewrite Forall_forall in Hsp.
    destruct (Hsp ltac:(lia) ltac:(lia) ltac:(lia) ltac:(lia) _ Hin) as (_ & _ & Hc).
    cbn [fst] in Hc. destruct Hc as [(j & ? & Heq)|Hc]; [|lia].
    destruct (gpr_table_range j) as (? & _ & Heq' & ?); [lia|]. rewrite <- Heq in Heq'. lia.
  - apply IH; lia.
Qed.

Lemma reg_seq_areg r n : TE_X0 ≤ r ∧ r + n ≤ TE_X0 + 8 ∨ TE_Q0 ≤ r ∧ r + n ≤ TE_Q0 + 8 →
  Forall (λ p, areg_ok p.1) (reg_seq r n).
Proof.
  intros H. apply Forall_forall. intros p Hp. assert (p.1 ∈ (reg_seq r n).*1) as Hin
    by (apply list_elem_of_fmap; eauto). apply reg_seq_elem in Hin. unfold areg_ok. lia.
Qed.

Lemma reg_seq_1 r : reg_seq r 1 = [(r, 0)].
Proof. done. Qed.

Lemma reg_seq_2 r : reg_seq r 2 = [(r, 0); (r + 1, 0)].
Proof. change 2 with (Z.of_nat 2). by rewrite !reg_seq_S. Qed.

Lemma reg_seq_3 r : reg_seq r 3 = [(r, 0); (r + 1, 0); (r + 1 + 1, 0)].
Proof. change 3 with (Z.of_nat 3). by rewrite !reg_seq_S. Qed.

Lemma reg_seq_4 r : reg_seq r 4 = [(r, 0); (r + 1, 0); (r + 1 + 1, 0); (r + 1 + 1 + 1, 0)].
Proof. change 4 with (Z.of_nat 4). by rewrite !reg_seq_S. Qed.

Lemma loc_info_full c : narrow c = false → loc_info c = TE_Full.
Proof. unfold narrow. intros H. by btests. Qed.

Lemma gather_length env rs bs : env_ok env → Forall areg_ok rs →
  gather (λ r, rd_a64 env r 8) rs = Ret bs → Z.of_nat (length bs) = 8 * Z.of_nat (length rs).
Proof.
  intros He Hrs. revert bs. induction Hrs as [|r rs Hr Hrs IH]; intros bs; [by intros [= <-]|].
  rewrite gather_cons. destruct (rd_a64_ok env r He Hr) as (b16 & Hl & _ & _ & Hrd). rewrite Hrd by lia.
  cbn [mbind outcome_bind]. destruct (gather _ rs) as [rest|]; [|done]. intros [= <-].
  rewrite length_app, length_take, Nat2Z.inj_add, (IH _ eq_refl). cbn [length]. lia.
Qed.

(** ** Reading the words back *)

Lemma slot_regs_num rs ind sz : pairs_ok rs → (length rs ≤ 4)%nat →
  te_num_of_reg (slot_info (InRegs rs) ind sz) = Z.of_nat (length rs).
Proof. intros. by apply te_num_of_reg_pack. Qed.

Lemma slot_get rs ind sz i r li z : pairs_ok rs → (length rs ≤ 4)%nat → rs !! i = Some (r, li) →
  z = Z.of_nat i → te_get_reg (slot_info (InRegs rs) ind sz) z = Ret r.
Proof. intros Hok Hl Hi ->. by eapply te_get_reg_pack. Qed.

Lemma slot_regs_flags rs ind sz :
  te_is_mem (slot_info (InRegs rs) ind sz) = false ∧ te_is_indirect (slot_info (InRegs rs) ind sz) = ind.
Proof. by destruct ind. Qed.

Lemma slot_stack_flags off li ind sz :
  te_is_mem (slot_info (OnStack off li) ind sz) = true ∧
  te_is_indirect (slot_info (OnStack off li) ind sz) = ind.
Proof. by destruct ind. Qed.

Lemma slot_stack_mem off li ind sz : in_u 32 off → in_u 32 li →
  te_get_mem (slot_info (OnStack off li) ind sz) = off ∧
  te_get_mem_locinfo (slot_info (OnStack off li) ind sz) = li.
Proof. intros. by apply slot_mem_pieces. Qed.

Lemma xx_value_regs args c rs sz : pairs_ok rs → (length rs ≤ 4)%nat →
  xx_arg_value args c (slot_info (InRegs rs) false sz) =
    take (Z.to_nat (csize c)) <$> gather (λ r, rd args (x64_enum_2_ptr r) 8) rs.*1.
Proof.
  intros Hok Hl. unfold xx_arg_value. destruct (slot_regs_flags rs false sz) as [-> _].
  by rewrite word_regs_slot.
Qed.

Lemma xx_value_stack args c off li sz : in_u 32 off → in_u 32 li →
  xx_arg_value args c (slot_info (OnStack off li) false sz) = rd args (SIZEOF_REGISTER_ARGS + off) (csize c).
Proof.
  intros Ho Hli. unfold xx_arg_value. destruct (slot_stack_flags off li false sz) as [-> _].
  by destruct (slot_stack_mem off li false sz Ho Hli) as [-> _].
Qed.

Lemma aa_value_regs env mem sp c rs sz : pairs_ok rs → (length rs ≤ 4)%nat →
  aa_arg_value env mem sp c (slot_info (InRegs rs) false sz) =
    match hfa c with
    | Some (s, _) => gather (λ r, rd_a64 env r (scalar_size s)) rs.*1
    | None => take (Z.to_nat (csize c)) <$> gather (λ r, rd_a64 env r 8) rs.*1
    end.
Proof.
  intros Hok Hl. unfold aa_arg_value. destruct (slot_regs_flags rs false sz) as [-> ->].
  by rewrite word_regs_slot.
Qed.

Lemma aa_value_stack env mem sp c off sz : in_u 32 off →
  aa_arg_value env mem sp c (slot_info (OnStack off 0) false sz) = rd_mem mem (sp + off) (csize c).
Proof.
  intros Ho. unfold aa_arg_value. destruct (slot_stack_flags off 0 false sz) as [-> ->].
  by destruct (slot_stack_mem off 0 false sz Ho ltac:(by unfold in_u)) as [-> _].
Qed.

Section step.
Context (env : CPUARMState) (mem : memory) (sp : Z).
Context (Henv : env_ok env).
Context (Hmem : ∀ a b, mem a = Some b → 0 ≤ b < 256).
Context (c : cty) (Hval : value_type c = true).

(** The argument was moved, and nothing else was touched. *)
Definition delivered (px pa : place) (args : list Z) : Prop :=
  ∃ args', entry_arg env mem sp (slot_info px false (csize c))
             (slot_info pa (by_reference c) (csize c)) args = Ret args' ∧
    framed (footprint c px) args args' ∧
    xx_arg_value args' c (slot_info px false (csize c)) =
      aa_arg_value env mem sp c (slot_info pa (by_reference c) (csize c)).

Lemma value_wf : cty_wf c = true.
Proof. by apply value_type_inv. Qed.

Lemma xx_regs_facts g s : csize c ≤ 16 → 0 ≤ g → 0 ≤ s →
  g + ngpr_of (code_class c 0) ≤ 6 → s + nsse_of (code_class c 0) ≤ 8 →
  let rs := regs_of (loc_info c) (code_class c 0) g s in
  pairs_ok rs ∧ length rs = words c ∧ (1 ≤ words c ≤ 2)%nat ∧ Forall (λ p, xreg_ok p.1) rs ∧ NoDup rs.*1.
Proof.
  intros Hs Hg Hs0 Hgb Hsb rs. pose proof (loc_info_range c).
  destruct (words_bounds c value_wf) as [? ?].
  pose proof (regs_of_length (loc_info c) (code_class c 0) g s) as Hlen.
  rewrite reg_class_counts, code_class_length in Hlen by (by apply value_classes).
  split_and!; [by apply regs_of_ok|unfold rs; lia|lia|lia|by apply regs_of_xreg_ok|by apply regs_of_NoDup].
Qed.

Lemma aa_regs_facts base n : (base = TE_X0 ∨ base = TE_Q0) → ∀ k, 0 ≤ k → 1 ≤ n ≤ 4 → k + n ≤ 8 →
  let rs := reg_seq (base + k) n in
  pairs_ok rs ∧ Z.of_nat (length rs) = n ∧ Forall (λ p, areg_ok p.1) rs.
Proof.
  intros Hbase k Hk Hn Hkn rs. unfold rs. split_and!.
  - apply reg_seq_ok; destruct Hbase as [->| ->]; unfold TE_X0, TE_Q0; lia.
  - apply reg_seq_length. lia.
  - apply reg_seq_areg. destruct Hbase as [->| ->]; lia.
Qed.

(** [by_reference] is for types without HFA of more than 16 bytes. *)
Lemma by_reference_small : csize c ≤ 16 → by_reference c = false.
Proof. intros. unfold by_reference. destruct (hfa c); [done|]. apply Z.ltb_ge. lia. Qed.

Lemma by_reference_hfa s n : hfa c = Some (s, n) → by_reference c = false.
Proof. intros H. unfold by_reference. by rewrite H. Qed.

(** Both in registers, one by one, the x86-64 side complete eightbytes. *)
Lemma deliver_one_by_one xrs ars args :
  narrow c = false → by_reference c = false → csize c ≤ 16 →
  pairs_ok xrs → (1 ≤ length xrs ≤ 4)%nat → Forall (λ p, xreg_ok p.1) xrs → NoDup xrs.*1 →
  Forall (λ p, p.2 = TE_Full) xrs →
  pairs_ok ars → length xrs = length ars → Forall (λ p, areg_ok p.1) ars →
  OFF_RAX ≤ Z.of_nat (length args) →
  ∃ args', entry_arg env mem sp (slot_info (InRegs xrs) false (csize c))
             (slot_info (InRegs ars) (by_reference c) (csize c)) args = Ret args' ∧
    framed (footprint c (InRegs xrs)) args args' ∧
    gather (λ r, rd args' (x64_enum_2_ptr r) 8) xrs.*1 = gather (λ r, rd_a64 env r 8) ars.*1.
Proof.
  intros Hn Href Hsz Hxok Hxl Hxr Hnd Hfull Haok Hlen Har Hargs. rewrite Href.
  destruct (one_by_one env Henv (slot_info (InRegs xrs) false (csize c))
    (slot_info (InRegs ars) false (csize c)) xrs ars 0 args) as (args' & Hrun & Hf & Hg); try done.
  - apply names_slot; (done || lia).
  - apply names_slot; (done || lia).
  - apply Forall_and. done.
  - exists args'. split_and!; [|done|done]. unfold entry_arg, arg_reg_reg.
    destruct (slot_regs_flags xrs false (csize c)) as [-> ->].
    destruct (slot_regs_flags ars false (csize c)) as [-> ->].
    rewrite !slot_regs_num by (done || lia). rewrite <- Hlen.
    rewrite (proj2 (Z.eqb_neq 0 _)), Z.eqb_refl by lia. cbn [andb orb negb]. by rewrite Nat2Z.id.
Qed.

(** One narrow integer in registers on both sides. *)
Lemma deliver_narrow x li a args :
  narrow c = true → by_reference c = false → xreg_ok x → is_xmm x = false → li = loc_info c →
  pairs_ok [(x, li)] → pairs_ok [(a, 0)] → areg_ok a → OFF_RAX ≤ Z.of_nat (length args) →
  hfa c = None → delivered (InRegs [(x, li)]) (InRegs [(a, 0)]) args.
Proof.
  intros Hn Href Hx Hxmm -> Hxok Haok Ha Hargs Hh. destruct (reg_fp_range x Hx) as [Hr1 Hr2].
  unfold xwidth in Hr2. rewrite Hxmm in Hr2.
  destruct (narrow_copy env Henv c args (x64_enum_2_ptr x) a Hn Ha) as (args' & Hrun & Hf & Hv); [lia..|].
  destruct (narrow_scalar c Hn) as (s & Hc & Hss).
  exists args'. rewrite Href. split_and!.
  - unfold entry_arg, arg_reg_reg.
    destruct (slot_regs_flags [(x, loc_info c)] false (csize c)) as [-> ->].
    destruct (slot_regs_flags [(a, 0)] false (csize c)) as [-> ->].
    rewrite !slot_regs_num by (done || simpl; lia). simpl length. cbn [andb orb negb Z.of_nat Z.eqb].
    change (Z.to_nat (Z.of_nat 1)) with 1%nat. cbn [regs_one_by_one].
    destruct (names_cons _ _ _ _ _ (names_slot [(x, loc_info c)] false (csize c) Hxok ltac:(simpl; lia)))
      as (-> & -> & _).
    destruct (names_cons _ _ _ _ _ (names_slot [(a, 0)] false (csize c) Haok ltac:(simpl; lia)))
      as (-> & _ & _).
    cbn [mbind outcome_bind]. rewrite Hxmm. destruct (copy_reg env args _ a 8) as [args1|]; [|done].
    cbn [mbind outcome_bind] in Hrun |- *. by rewrite Hrun.
  - simpl. unfold reg_fp, xwidth. rewrite Hxmm. done.
  - rewrite xx_value_regs, aa_value_regs, Hh by (done || simpl; lia).
    cbn [gather fmap list_fmap fst].
    destruct (rd_a64_ok env a Henv Ha) as (bs & Hl & _ & _ & Hrd).
    rewrite Hrd in Hv |- * by (subst c; simpl; lia).
    destruct (rd args' (x64_enum_2_ptr x) 8) as [b8|] eqn:H8.
    + pose proof (rd_take _ _ _ (csize c) _ H8 ltac:(subst c; simpl; lia)) as Hv'.
      rewrite Hv in Hv'. injection Hv' as Hv'. cbn [mbind outcome_bind fmap outcome_fmap].
      rewrite !app_nil_r, take_take. f_equal. rewrite <- Hv'. subst c. simpl csize. f_equal. lia.
    + rewrite rd_ok in H8; [done|lia|]. destruct Hf as [-> _]. lia.
Qed.

(** The low bytes of a register. *)
Lemma rd_a64_low a n bs : areg_ok a → 0 ≤ n ≤ 8 → rd_a64 env a 8 = Ret bs →
  rd_a64 env a n = Ret (take (Z.to_nat n) bs).
Proof.
  intros Ha Hn H8. destruct (rd_a64_ok env a Henv Ha) as (b & Hl & _ & _ & Hrd).
  rewrite Hrd in H8 |- * by lia. injection H8 as <-. rewrite take_take. do 2 f_equal. lia.
Qed.

Lemma rd_a64_8 a : areg_ok a → ∃ bs, rd_a64 env a 8 = Ret bs ∧ length bs = 8%nat.
Proof.
  intros Ha. destruct (rd_a64_ok env a Henv Ha) as (b & Hl & _ & _ & Hrd).
  exists (take 8 b). rewrite Hrd by lia. split; [done|]. rewrite length_take. lia.
Qed.

Lemma deliver_reg_reg_int xrs ars args room :
  hfa c = None → xx_shape c (InRegs xrs) room → aa_shape c (InRegs ars) →
  OFF_RAX ≤ Z.of_nat (length args) → delivered (InRegs xrs) (InRegs ars) args.
Proof.
  intros Hh (Hsz & g & s0 & Hg & Hs0 & Hgb & Hsb & ->) (k & n & Hk & Hn & Hkn & Haa) Hargs.
  rewrite Hh in Haa. pose proof (by_reference_small Hsz) as Href. rewrite Href in Haa.
  destruct Haa as [-> ->]. destruct (xx_regs_facts g s0 Hsz Hg Hs0 Hgb Hsb) as (Hxok & Hxl & Hw & Hxr & Hnd).
  destruct (aa_regs_facts TE_X0 _ (or_introl eq_refl) k Hk Hn Hkn) as (Haok & Hal & Har).
  destruct (narrow c) eqn:Hnar.
  - destruct (narrow_scalar c Hnar) as (s & Hc & Hss).
    assert (words c = 1%nat) as Hw1 by (rewrite Hc; apply words_scalar).
    revert Hxok Hxr Haok Har. rewrite Hw1.
    assert (∃ cl, code_class c 0 = [cl] ∧ is_gpr_class cl = true) as (cl & Hcl & Hgcl).
    { rewrite Hc in Hnar |- *. exists (scalar_class s 0). split; [done|]. by destruct s. }
    rewrite Hcl in *. cbn [regs_of]. rewrite Hgcl. change (Z.of_nat 1) with 1. rewrite reg_seq_1.
    rewrite ngpr_of_cons, Hgcl in Hgb. destruct (reg_counts_le []) as (? & _).
    intros Hxok [Hx _]%Forall_cons Haok [Ha _]%Forall_cons. destruct (gpr_ptr g) as [_ Hxmm]; [lia|].
    by apply deliver_narrow.
  - rewrite (loc_info_full c Hnar) in *.
    destruct (deliver_one_by_one (regs_of TE_Full (code_class c 0) g s0) (reg_seq (TE_X0 + k) (Z.of_nat (words c))) args)
      as (args' & Hrun & Hf & Hgat); try done; [lia|apply regs_of_full|lia|].
    exists args'. split_and!; [done|done|]. rewrite Href.
    rewrite xx_value_regs, aa_value_regs, Hh by (done || lia). by rewrite Hgat.
Qed.

(** Two S registers into one eightbyte. *)
Lemma two_floats a0 a1 dst args b0 b1 :
  areg_ok a0 → areg_ok a1 → 0 ≤ dst → dst + 8 ≤ Z.of_nat (length args) →
  rd_a64 env a0 8 = Ret b0 → rd_a64 env a1 8 = Ret b1 →
  ∃ args', (args ← copy_reg env args dst a0 4; copy_reg env args (dst + 4) a1 4) = Ret args' ∧
    framed [(dst, 8)] args args' ∧ rd args' dst 8 = Ret (take 4 b0 ++ take 4 b1).
Proof.
  intros Ha0 Ha1 Hd Hb H0 H1.
  destruct (copy_reg_ok env args dst a0 4 Henv Ha0) as (args1 & Hc1 & Hf1 & Hr1); [lia..|].
  destruct (copy_reg_ok env args1 (dst + 4) a1 4 Henv Ha1) as (args2 & Hc2 & Hf2 & Hr2);
    [lia..|destruct Hf1 as [-> _]; lia|].
  exists args2. rewrite Hc1. cbn [mbind outcome_bind]. split_and!; [done| |].
  - destruct Hf1 as [L1 F1], Hf2 as [L2 F2]. split; [congruence|]. intros o n [Ho _]%Forall_cons. simpl in Ho.
    rewrite F2, F1; [done|constructor; [simpl; lia|constructor]..].
  - apply (rd_app _ _ 4 4); [lia..| |].
    + destruct Hf2 as [_ F2]. rewrite F2 by (constructor; [simpl; lia|constructor]).
      rewrite Hr1 by lia. by rewrite (rd_a64_low _ 4 _ Ha0 ltac:(lia) H0).
    + rewrite Hr2 by lia. by rewrite (rd_a64_low _ 4 _ Ha1 ltac:(lia) H1).
Qed.

Lemma arg_reg_reg_21 xx aa args : te_num_of_reg xx = 1 → te_num_of_reg aa = 2 →
  arg_reg_reg env xx aa args = regs_two_to_one env xx aa args.
Proof. intros Hx Ha. unfold arg_reg_reg. by rewrite Hx, Ha. Qed.

Lemma arg_reg_reg_2n xx aa n args : te_num_of_reg xx = 2 → te_num_of_reg aa = n → n = 3 ∨ n = 4 →
  arg_reg_reg env xx aa args = regs_many_to_two env xx aa n args.
Proof. intros Hx Ha Hn. unfold arg_reg_reg. rewrite Hx, Ha. by destruct Hn as [->| ->]. Qed.

(** The head of [entry_arg] when both sides are in registers. *)
Lemma entry_regs xrs ars args : by_reference c = false → pairs_ok xrs → pairs_ok ars →
  (1 ≤ length xrs ≤ 4)%nat → (1 ≤ length ars ≤ 4)%nat →
  entry_arg env mem sp (slot_info (InRegs xrs) false (csize c))
    (slot_info (InRegs ars) (by_reference c) (csize c)) args =
  arg_reg_reg env (slot_info (InRegs xrs) false (csize c)) (slot_info (InRegs ars) false (csize c)) args.
Proof.
  intros Href Hx Ha Hxl Hal. rewrite Href. unfold entry_arg.
  destruct (slot_regs_flags xrs false (csize c)) as [-> ->].
  destruct (slot_regs_flags ars false (csize c)) as [-> ->].
  rewrite !slot_regs_num by (done || lia). by rewrite !(proj2 (Z.eqb_neq 0 _)) by lia.
Qed.

Lemma deliver_float_2 x a0 a1 args :
  hfa c = Some (SFloat, 2) → csize c = 8 → pairs_ok [(x, TE_Full)] → TE_XMM0 ≤ x ≤ TE_XMM7 →
  pairs_ok [(a0, 0); (a1, 0)] → areg_ok a0 → areg_ok a1 → a1 = a0 + 1 →
  OFF_RAX ≤ Z.of_nat (length args) →
  delivered (InRegs [(x, TE_Full)]) (InRegs [(a0, 0); (a1, 0)]) args.
Proof.
  intros Hh Hsz Hxok Hx Haok Ha0 Ha1 Heq Hargs. pose proof (by_reference_hfa _ _ Hh) as Href.
  destruct (rd_a64_8 a0 Ha0) as (b0 & Hb0 & Hl0), (rd_a64_8 a1 Ha1) as (b1 & Hb1 & Hl1).
  assert (xreg_ok x) as Hxr by (by right). destruct (reg_fp_range x Hxr) as [Hr1 Hr2].
  destruct (xmm_ptr x Hx) as [_ Hxmm]. unfold xwidth in Hr2. rewrite Hxmm in Hr2.
  destruct (two_floats a0 a1 (x64_enum_2_ptr x) args b0 b1) as (args' & Hrun & Hf & Hrd); [done|done|lia|lia|done|done|].
  exists args'. split_and!.
  - rewrite entry_regs by (done || simpl; lia).
    rewrite arg_reg_reg_21 by (apply slot_regs_num; (done || simpl; lia)). unfold regs_two_to_one.
    rewrite (slot_get [(x, _)] _ _ 0 x TE_Full 0), (slot_get [(a0, _); _] _ _ 0 a0 0 0),
      (slot_get [(a0, _); _] _ _ 1 a1 0 1) by (done || simpl; lia).
    cbn [mbind outcome_bind]. unfold is_xmm in Hxmm. rewrite Hxmm, Heq, Z.eqb_refl.
    cbn [c_assert mbind outcome_bind]. by rewrite <- Heq.
  - simpl. unfold reg_fp, xwidth. rewrite Hxmm. destruct Hf as [? Hf]. split; [done|].
    intros o n [Ho _]%Forall_cons. apply Hf. constructor; [simpl in *; lia|constructor].
  - rewrite Href, xx_value_regs, aa_value_regs, Hh, Hsz by (done || simpl; lia).
    cbn [gather fmap list_fmap fst scalar_size]. rewrite Hrd.
    rewrite (rd_a64_low a0 4 b0 Ha0 ltac:(lia) Hb0), (rd_a64_low a1 4 b1 Ha1 ltac:(lia) Hb1).
    cbn [mbind outcome_bind fmap outcome_fmap]. rewrite !app_nil_r.
    f_equal. by rewrite take_ge by (rewrite length_app, !length_take; lia).
Qed.

(** The last one or two of three or four S registers. *)
Lemma last_floats a2 dst n args b2 :
  n = 3 ∨ n = 4 → areg_ok a2 → (n = 4 → areg_ok (a2 + 1)) → 0 ≤ dst →
  dst + 8 ≤ Z.of_nat (length args) → rd_a64 env a2 8 = Ret b2 →
  ∃ args' b3, (args ← copy_reg env args dst a2 4;
               if n =? 4 then copy_reg env args (dst + 4) (a2 + 1) 4 else Ret args) = Ret args' ∧
    framed [(dst, 8)] args args' ∧ rd args' dst 8 = Ret (take 4 b2 ++ b3) ∧ length b3 = 4%nat ∧
    (n = 4 → rd_a64 env (a2 + 1) 4 = Ret b3).
Proof.
  intros Hn Ha2 Ha3 Hd Hb Hb2. destruct Hn as [->| ->].
  - destruct (copy_reg_ok env args dst a2 4 Henv Ha2) as (args2 & Hc & Hf & Hr); [lia..|].
    destruct (rd args2 (dst + 4) 4) as [b3|] eqn:Hb3;
      [|rewrite rd_ok in Hb3; [done|lia|destruct Hf as [-> _]; lia]].
    exists args2, b3. rewrite Hc. pose proof (rd_length _ _ 4 _ ltac:(lia) Hb3). split_and!; [done| | |lia|done].
    + destruct Hf as [L F]. split; [done|]. intros o m [Ho _]%Forall_cons. apply F.
      constructor; [simpl in *; lia|constructor].
    + apply (rd_app _ _ 4 4); [lia..| |done]. rewrite Hr by lia. by rewrite (rd_a64_low a2 4 b2 Ha2 ltac:(lia) Hb2).
  - destruct (rd_a64_8 (a2 + 1) (Ha3 eq_refl)) as (b3 & Hb3 & Hl3).
    destruct (two_floats a2 (a2 + 1) dst args b2 b3) as (args2 & ? & ? & ?); [done|auto|lia|lia|done|done|].
    exists args2, (take 4 b3). split_and!; try done; [rewrite length_take; lia|].
    intros _. by apply (rd_a64_low (a2 + 1) 4 b3 (Ha3 eq_refl) ltac:(lia) Hb3).
Qed.

(** Three or four S registers into two XMM registers. *)
Lemma deliver_float_34 x ars a0 a1 a2 n args :
  hfa c = Some (SFloat, n) → csize c = 4 * n → n = 3 ∨ n = 4 →
  pairs_ok [(x, TE_Full); (x + 1, TE_Full)] → TE_XMM0 ≤ x → x + 1 ≤ TE_XMM7 →
  ars = (a0, 0) :: (a1, 0) :: (a2, 0) :: (if n =? 4 then [(a2 + 1, 0)] else []) →
  pairs_ok ars → Forall (λ p, areg_ok p.1) ars → a1 = a0 + 1 → a2 = a1 + 1 →
  OFF_RAX ≤ Z.of_nat (length args) →
  delivered (InRegs [(x, TE_Full); (x + 1, TE_Full)]) (InRegs ars) args.
Proof.
  intros Hh Hsz Hn Hxok Hx0 Hx1 Hars Haok Har Heq1 Heq2 Hargs.
  pose proof (by_reference_hfa _ _ Hh) as Href.
  assert (areg_ok a0 ∧ areg_ok a1 ∧ areg_ok a2 ∧ (n = 4 → areg_ok (a2 + 1))) as (Ha0 & Ha1 & Ha2 & Ha3).
  { subst ars. repeat (apply Forall_cons in Har as [? Har]). split_and!; try done. intros ->.
    by apply Forall_cons in Har as [? _]. }
  destruct (rd_a64_8 a0 Ha0) as (b0 & Hb0 & Hl0), (rd_a64_8 a1 Ha1) as (b1 & Hb1 & Hl1).
  destruct (rd_a64_8 a2 Ha2) as (b2 & Hb2 & Hl2).
  assert (xreg_ok x ∧ xreg_ok (x + 1)) as [Hxr Hxr1] by (split; right; unfold TE_XMM0, TE_XMM7 in *; lia).
  destruct (reg_fp_range x Hxr) as [Hr1 Hr2], (reg_fp_range (x + 1) Hxr1) as [Hs1 Hs2].
  destruct (xmm_ptr x) as [Hp Hxmm]; [lia|]. destruct (xmm_ptr (x + 1)) as [Hp1 Hxmm1]; [lia|].
  unfold xwidth in Hr2, Hs2. rewrite Hxmm in Hr2. rewrite Hxmm1 in Hs2.
  destruct (two_floats a0 a1 (x64_enum_2_ptr x) args b0 b1) as (args1 & Hrun1 & Hf1 & Hrd1); [done|done|lia|lia|done|done|].
  destruct (last_floats a2 (x64_enum_2_ptr (x + 1)) n args1 b2) as (args' & b3 & Hrun2 & Hf2 & Hrd2 & Hlb3 & Hb3);
    [done..|lia|destruct Hf1 as [-> _]; lia|done|].
  exists args'. split_and!.
  - rewrite entry_regs by (done || subst ars; destruct Hn as [->| ->]; simpl; lia).
    rewrite (arg_reg_reg_2n _ _ n) by first [done | rewrite slot_regs_num by (done || subst ars;
      destruct Hn as [->| ->]; simpl; lia); subst ars; by destruct Hn as [->| ->]].
    assert ((length ars ≤ 4)%nat) as Hle by (subst ars; destruct Hn as [->| ->]; simpl; lia).
    unfold regs_many_to_two.
    rewrite (slot_get [(x, _); _] _ _ 0 x TE_Full 0), (slot_get [(x, _); _] _ _ 1 (x + 1) TE_Full 1)
      by (done || simpl; lia).
    rewrite (slot_get ars _ _ 0 a0 0 0), (slot_get ars _ _ 1 a1 0 1), (slot_get ars _ _ 2 a2 0 2)
      by (done || by subst ars).
    cbn [mbind outcome_bind]. assert (in_range TE_XMM0 TE_XMM6 x = true) as ->
      by (apply andb_true_intro; split; apply Z.leb_le; unfold TE_XMM0, TE_XMM6, TE_XMM7 in *; lia).
    rewrite Z.eqb_refl, <- Heq1, <- Heq2, !Z.eqb_refl.
    assert ((3 =? n) || (4 =? n) = true) as -> by (by destruct Hn as [->| ->]).
    cbn [c_assert mbind outcome_bind]. cbv zeta.
    destruct (copy_reg env args (x64_enum_2_ptr x) a0 4) as [args01|]; [|done].
    cbn [mbind outcome_bind] in Hrun1 |- *. rewrite Hrun1. cbn [mbind outcome_bind].
    destruct (copy_reg env args1 (x64_enum_2_ptr (x + 1)) a2 4) as [args02|]; [|done].
    cbn [mbind outcome_bind] in Hrun2 |- *. rewrite (Z.eqb_sym 4 n).
    destruct (Z.eqb_spec n 4) as [->|]; [|done].
    by rewrite (slot_get ars _ _ 3 (a2 + 1) 0 3) by (done || by subst ars).
  - simpl. unfold reg_fp, xwidth. rewrite Hxmm, Hxmm1. destruct Hf1 as [L1 F1], Hf2 as [L2 F2].
    split; [congruence|]. intros o m [Ho [Ho1 _]%Forall_cons]%Forall_cons. simpl in Ho, Ho1.
    rewrite F2, F1; [done|constructor; [simpl; lia|constructor]..].
  - rewrite Href, xx_value_regs, aa_value_regs, Hh, Hsz
      by (done || subst ars; destruct Hn as [->| ->]; simpl; lia).
    cbn [gather fmap list_fmap fst]. destruct Hf2 as [_ F2].
    rewrite (F2 (x64_enum_2_ptr x) 8) by (constructor; [cbn [fst snd]; lia|constructor]). rewrite Hrd1, Hrd2. cbn [mbind outcome_bind].
    subst ars. cbn [gather fmap list_fmap fst scalar_size].
    rewrite (rd_a64_low a0 4 b0 Ha0 ltac:(lia) Hb0), (rd_a64_low a1 4 b1 Ha1 ltac:(lia) Hb1),
      (rd_a64_low a2 4 b2 Ha2 ltac:(lia) Hb2). cbn [mbind outcome_bind].
    destruct Hn as [->| ->]; cbn [Z.eqb Pos.eqb fmap list_fmap gather mbind outcome_bind outcome_fmap].
    + f_equal. rewrite !app_nil_r, !app_assoc. rewrite take_app_length'; [done|].
      rewrite !length_app, !length_take. lia.
    + simpl fst. rewrite (Hb3 eq_refl). cbn [mbind outcome_bind]. f_equal. rewrite !app_nil_r, <- !app_assoc.
      apply take_ge. rewrite !length_app, !length_take. lia.
Qed.

Lemma hfa_loc_info s n : hfa c = Some (s, n) → loc_info c = TE_Full.
Proof.
  intros H. unfold loc_info. destruct c as [s'|fs]; [|done]. by destruct s'.
Qed.

(** A floating-point value or HFA as one or two complete registers. *)
Lemma deliver_hfa_plain s n xrs ars args room :
  hfa c = Some (s, n) → (s = SFloat ∧ n = 1) ∨ s = SDouble →
  xx_shape c (InRegs xrs) room → aa_shape c (InRegs ars) →
  OFF_RAX ≤ Z.of_nat (length args) → delivered (InRegs xrs) (InRegs ars) args.
Proof.
  intros Hh Hsn (Hsz & g & s0 & Hg & Hs0 & Hgb & Hsb & ->) (k & n' & Hk & Hn & Hkn & Haa) Hargs.
  rewrite Hh in Haa. destruct Haa as [-> ->].
  destruct (xx_regs_facts g s0 Hsz Hg Hs0 Hgb Hsb) as (Hxok & Hxl & Hw & Hxr & Hnd).
  destruct (aa_regs_facts TE_Q0 _ (or_intror eq_refl) k Hk Hn Hkn) as (Haok & Hal & Har).
  destruct (hfa_size c s n value_wf Hh) as [Hcs _].
  assert (words c = Z.to_nat n) as Hwn.
  { unfold words. rewrite Hcs. destruct Hsn as [[-> ->]| ->]; [done|]. simpl scalar_size.
    replace (8 * n + 7) with (7 + n * 8) by lia. by rewrite Z.div_add by lia. }
  pose proof (hfa_loc_info _ _ Hh) as Hli. rewrite Hli in *.
  assert (narrow c = false) as Hnar by (unfold narrow; by rewrite Hli).
  pose proof (by_reference_hfa _ _ Hh) as Href.
  destruct (deliver_one_by_one (regs_of TE_Full (code_class c 0) g s0) (reg_seq (TE_Q0 + k) n) args)
    as (args' & Hrun & Hf & Hgat); try done; [lia|apply regs_of_full|lia|].
  exists args'. split_and!; [done|done|]. rewrite (by_reference_hfa _ _ Hh).
  rewrite xx_value_regs, aa_value_regs, Hh, Hgat, Hcs by (done || lia).
  assert (Forall areg_ok (reg_seq (TE_Q0 + k) n).*1) as Har' by (by apply Forall_fmap).
  destruct Hsn as [[-> ->]| ->].
  - rewrite reg_seq_1 in Har' |- *. apply Forall_cons in Har' as [Ha _].
    destruct (rd_a64_8 _ Ha) as (b & Hb & Hlb). cbn [gather fmap list_fmap fst scalar_size] in *.
    rewrite Hb, (rd_a64_low _ 4 b Ha ltac:(lia) Hb). cbn [mbind outcome_bind fmap outcome_fmap].
    by rewrite !app_nil_r.
  - change (scalar_size SDouble) with 8. destruct (gather (λ r : Z, rd_a64 env r 8) _) as [bs|] eqn:Hgg; [|done]. cbn [fmap outcome_fmap].
    pose proof (gather_length env _ bs Henv Har' Hgg) as Hlb. rewrite length_fmap in Hlb.
    f_equal. apply take_ge. lia.
Qed.

Lemma deliver_reg_reg s n xrs ars args room :
  hfa c = Some (s, n) → xx_shape c (InRegs xrs) room → aa_shape c (InRegs ars) →
  OFF_RAX ≤ Z.of_nat (length args) → delivered (InRegs xrs) (InRegs ars) args.
Proof.
  intros Hh Hx Ha Hargs. destruct (hfa_inv _ _ _ Hh) as [Hfp Hn].
  destruct (hfa_size c s n value_wf Hh) as [Hcs _].
  destruct (decide ((s = SFloat ∧ n = 1) ∨ s = SDouble)) as [|Hns]; [by eapply deliver_hfa_plain|].
  assert (s = SFloat ∧ n ≠ 1) as [-> Hn1]
    by (destruct s; try done; [by split; [|intros ->; apply Hns; left]|by exfalso; apply Hns; right]).
  destruct Hx as (Hsz & g & s0 & Hg & Hs0 & Hgb & Hsb & ->). destruct Ha as (k & n' & Hk & _ & Hkn & Haa).
  rewrite Hh in Haa. destruct Haa as [-> ->].
  destruct (xx_regs_facts g s0 Hsz Hg Hs0 Hgb Hsb) as (Hxok & _ & _ & _ & _).
  destruct (aa_regs_facts TE_Q0 n (or_intror eq_refl) k Hk Hn Hkn) as (Haok & _ & Har).
  rewrite (hfa_code_class c SFloat n Hval Hh), (hfa_loc_info _ _ Hh) in *.
  assert (n = 2 ∨ n = 3 ∨ n = 4) as Hn' by lia.
  destruct_or! Hn'; subst n.
  - change (regs_of _ _ g s0) with [(TE_XMM0 + s0, TE_Full)] in *.
    change (nsse_of _) with 1 in Hsb.
    rewrite reg_seq_2 in *.
    apply Forall_cons in Har as [? [? _]%Forall_cons].
    apply deliver_float_2; try done. unfold TE_XMM0, TE_XMM7. lia.
  - change (regs_of _ _ g s0) with [(TE_XMM0 + s0, TE_Full); (TE_XMM0 + (s0 + 1), TE_Full)] in *.
    change (nsse_of _) with 2 in Hsb. rewrite Z.add_assoc, reg_seq_3 in *.
    apply (deliver_float_34 _ _ (TE_Q0 + k) (TE_Q0 + k + 1) (TE_Q0 + k + 1 + 1) 3);
      try done; unfold TE_XMM0, TE_XMM7; lia.
  - change (regs_of _ _ g s0) with [(TE_XMM0 + s0, TE_Full); (TE_XMM0 + (s0 + 1), TE_Full)] in *.
    change (nsse_of _) with 2 in Hsb. rewrite Z.add_assoc, reg_seq_4 in *.
    apply (deliver_float_34 _ _ (TE_Q0 + k) (TE_Q0 + k + 1) (TE_Q0 + k + 1 + 1) 4);
      try done; unfold TE_XMM0, TE_XMM7; lia.
Qed.

(** The size of a type in eightbytes. *)
Lemma words_align : 8 * Z.of_nat (words c) = align_up (csize c) 8.
Proof.
  pose proof (csize_pos c value_wf). unfold words, align_up.
  rewrite Z2Nat.id by (apply Z.div_pos; lia). replace (csize c + 8 - 1) with (csize c + 7) by lia. lia.
Qed.

Lemma narrow_words : narrow c = true → words c = 1%nat ∧ 1 ≤ csize c ≤ 2 ∧ align_up (csize c) 8 = 8.
Proof.
  intros (s & Hc & Hs)%narrow_scalar. rewrite <- words_align. rewrite Hc, words_scalar. simpl. lia.
Qed.

Lemma from_mem_narrow xrs off args bs : narrow c = true →
  pairs_ok xrs → length xrs = words c → Forall (λ p, xreg_ok p.1) xrs →
  (∃ x, xrs = [(x, loc_info c)] ∧ is_xmm x = false) → OFF_RAX ≤ Z.of_nat (length args) →
  rd_mem mem (sp + off) (8 * Z.of_nat (length xrs)) = Ret bs →
  ∃ args', regs_from_mem mem sp (slot_info (InRegs xrs) false (csize c)) 8 off 0 (length xrs) args =
      Ret args' ∧ framed (reg_fp <$> xrs.*1) args args' ∧
    xx_arg_value args' c (slot_info (InRegs xrs) false (csize c)) = Ret (take (Z.to_nat (csize c)) bs).
Proof.
  intros Hnar Hok Hl Hxr (x & -> & Hxmm) Hargs Hrd. apply Forall_cons in Hxr as [Hx _]. simpl in Hx.
  destruct (narrow_words Hnar) as (_ & Hsz & _). destruct (reg_fp_range x Hx) as [Hr1 Hr2].
  unfold xwidth in Hr2. rewrite Hxmm in Hr2. change (8 * Z.of_nat (length [(x, loc_info c)])) with 8 in Hrd.
  destruct (narrow_copy_mem mem Hmem c args (x64_enum_2_ptr x) (sp + off) 8 bs Hnar)
    as (args' & Hrun & Hf & Hv); [lia..|done|].
  exists args'. split_and!.
  - cbn [length regs_from_mem].
    destruct (names_cons _ _ _ _ _ (names_slot [(x, loc_info c)] false (csize c) Hok ltac:(simpl; lia)))
      as (-> & -> & _). cbn [mbind outcome_bind].
    destruct (copy_mem mem args _ _ 8) as [args1|]; [|done]. cbn [mbind outcome_bind] in Hrun |- *.
    change (8 =? 16) with false. cbv iota. by rewrite Hrun.
  - simpl. unfold reg_fp, xwidth. by rewrite Hxmm.
  - rewrite xx_value_regs by (done || simpl; lia). cbn [gather fmap list_fmap fst].
    destruct (rd args' (x64_enum_2_ptr x) 8) as [b8|] eqn:H8.
    + cbn [mbind outcome_bind fmap outcome_fmap]. rewrite app_nil_r.
      pose proof (rd_take _ _ _ (csize c) _ H8 ltac:(lia)) as Hv'. by rewrite Hv in Hv'.
    + rewrite rd_ok in H8; [done|lia|]. destruct Hf as [-> _]. lia.
Qed.

(** x86-64 registers, AArch64 stack. *)
Lemma deliver_reg_mem xrs off args room bs :
  xx_shape c (InRegs xrs) room → 0 ≤ off → off + 16 < 2 ^ 32 →
  rd_mem mem (sp + off) (align_up (csize c) 8) = Ret bs → OFF_RAX ≤ Z.of_nat (length args) →
  delivered (InRegs xrs) (OnStack off 0) args.
Proof.
  intros (Hsz & g & s0 & Hg & Hs0 & Hgb & Hsb & ->) Ho Ho' Hrd Hargs.
  pose proof (by_reference_small Hsz) as Href.
  destruct (xx_regs_facts g s0 Hsz Hg Hs0 Hgb Hsb) as (Hxok & Hxl & Hw & Hxr & Hnd).
  set (xrs := regs_of _ _ g s0) in *. rewrite <- words_align, <- Hxl in Hrd.
  destruct (words_bounds c value_wf) as [Hwb _]. assert (in_u 32 off) as Hou by (unfold in_u; lia).
  assert (∃ args', regs_from_mem mem sp (slot_info (InRegs xrs) false (csize c)) 8 off 0 (length xrs) args =
      Ret args' ∧ framed (reg_fp <$> xrs.*1) args args' ∧
      xx_arg_value args' c (slot_info (InRegs xrs) false (csize c)) = Ret (take (Z.to_nat (csize c)) bs))
    as (args' & Hrun & Hf & Hv).
  { destruct (narrow c) eqn:Hnar.
    - apply (from_mem_narrow xrs off args bs); try done.
      destruct (narrow_scalar c Hnar) as (s & Hc & _). exists (nth (Z.to_nat g) xx_gprcnt2reg 0).
      assert (code_class c 0 = [scalar_class s 0] ∧ is_gpr_class (scalar_class s 0) = true) as [Hcl Hgcl]
        by (rewrite Hc in Hnar |- *; split; [done|by destruct s]).
      unfold xrs. rewrite Hcl in Hgb |- *. cbn [regs_of]. rewrite ngpr_of_cons, Hgcl in Hgb. rewrite Hgcl.
      destruct (reg_counts_le []) as (? & _). split; [done|]. apply gpr_ptr. lia.
    - assert (Forall (λ p, p.2 = TE_Full) xrs) as Hfull
        by (unfold xrs; rewrite (loc_info_full c Hnar); apply regs_of_full).
      destruct (from_mem mem sp (slot_info (InRegs xrs) false (csize c)) xrs off 0 args bs)
        as (args' & Hrun & Hf & Hgat); try done; [apply names_slot; (done || lia)|by apply Forall_and|lia|].
      exists args'. split_and!; [done|done|]. by rewrite xx_value_regs, Hgat by (done || lia). }
  exists args'. rewrite Href. split_and!; [|done|].
  - unfold entry_arg, arg_reg_mem. destruct (slot_regs_flags xrs false (csize c)) as [-> ->].
    destruct (slot_stack_flags off 0 false (csize c)) as [-> ->].
    rewrite !slot_regs_num by (done || lia). rewrite (proj2 (Z.eqb_neq 0 _)) by lia. cbn [andb orb negb].
    destruct (slot_stack_mem off 0 false (csize c) Hou ltac:(by unfold in_u)) as [-> _].
    change (te_get_arg_size _) with (csize c). rewrite (proj2 (Z.eqb_neq _ (csize c))) by lia.
    by rewrite Nat2Z.id.
  - rewrite Hv, aa_value_stack by done. symmetry.
    replace (8 * Z.of_nat (length xrs)) with (csize c + (8 * Z.of_nat (length xrs) - csize c)) in Hrd by lia.
    by apply (rd_mem_app mem) in Hrd as [? _]; [|pose proof (csize_pos c value_wf); lia|lia].
Qed.

(** Several floats in S registers that x86-64 wants on its stack. *)
Definition spread_floats : bool := match hfa c with Some (SFloat, n) => 2 <=? n | _ => false end.

(** The AArch64 registers of a direct value: how many, and what they hold. *)
Lemma aa_regs_value ars : aa_shape c (InRegs ars) → by_reference c = false → spread_floats = false →
  pairs_ok ars ∧ (1 ≤ length ars ≤ 4)%nat ∧ Forall (λ p, areg_ok p.1) ars ∧
  8 * Z.of_nat (length ars) = align_up (csize c) 8 ∧ (narrow c = true → length ars = 1%nat) ∧
  ∀ bs, gather (λ r, rd_a64 env r 8) ars.*1 = Ret bs →
    aa_arg_value env mem sp c (slot_info (InRegs ars) false (csize c)) = Ret (take (Z.to_nat (csize c)) bs).
Proof.
  intros (k & n & Hk & Hn & Hkn & Haa) Href Hsp. unfold spread_floats in Hsp. pose proof words_align as Hwa.
  destruct (hfa c) as [[s m]|] eqn:Hh; destruct Haa as [Hnn ->].
  - subst m. destruct (aa_regs_facts TE_Q0 n (or_intror eq_refl) k Hk Hn Hkn) as (Hok & Hl & Har).
    destruct (hfa_size c s n value_wf Hh) as [Hcs _].
    assert (s = SFloat ∧ n = 1 ∨ s = SDouble) as Hsn.
    { destruct (hfa_inv _ _ _ Hh) as [Hfp _]. destruct s; try done; [|by right]. left. simpl in Hsp. btests. split; [done|lia]. }
    split_and!; try done; try lia.
    + rewrite Hl, <- Hwa. unfold words. rewrite Hcs. destruct Hsn as [[-> ->]| ->]; [done|].
      simpl scalar_size. replace (8 * n + 7) with (7 + n * 8) by lia. rewrite Z.div_add by lia.
      rewrite Z2Nat.id; [done|]. change (7 / 8) with 0. lia.
    + unfold narrow. by rewrite (hfa_loc_info _ _ Hh).
    + intros bs Hg. rewrite aa_value_regs, Hh, Hcs by (done || lia). destruct Hsn as [[-> ->]| ->].
      * rewrite reg_seq_1 in *. apply Forall_cons in Har as [Ha _].
        destruct (rd_a64_8 _ Ha) as (b & Hb & Hlb). cbn [gather fmap list_fmap fst scalar_size] in *.
        rewrite Hb in Hg. cbn [mbind outcome_bind] in Hg. rewrite app_nil_r in Hg. injection Hg as <-.
        rewrite (rd_a64_low _ 4 b Ha ltac:(lia) Hb). cbn [mbind outcome_bind]. by rewrite app_nil_r.
      * change (scalar_size SDouble) with 8. rewrite Hg. f_equal. symmetry. apply take_ge.
        assert (Forall areg_ok (reg_seq (TE_Q0 + k) n).*1) as Har' by (by apply Forall_fmap).
        pose proof (gather_length env _ bs Henv Har' Hg) as Hlb. rewrite length_fmap in Hlb. lia.
  - rewrite Href in Hnn. subst n.
    destruct (aa_regs_facts TE_X0 _ (or_introl eq_refl) k Hk Hn Hkn) as (Hok & Hl & Har).
    split_and!; try done; try lia.
    + intros Hnar. destruct (narrow_words Hnar) as [? _]. lia.
    + intros bs Hg. by rewrite aa_value_regs, Hh, Hg by (done || lia).
Qed.

(** x86-64 stack, AArch64 registers. *)
Lemma deliver_mem_reg off ars args room :
  xx_shape c (OnStack off (loc_info c)) room → aa_shape c (InRegs ars) → by_reference c = false →
  spread_floats = false → SIZEOF_REGISTER_ARGS + room ≤ Z.of_nat (length args) →
  delivered (OnStack off (loc_info c)) (InRegs ars) args.
Proof.
  intros (Ho & _ & Hroom & _ & Hrm) Ha Href Hsp Hargs.
  destruct (aa_regs_value ars Ha Href Hsp) as (Hok & Hl & Har & Hlen & Hnl & Hval').
  pose proof (csize_pos c value_wf). pose proof (align_up_spec (csize c) 8 ltac:(lia)).
  pose proof (loc_info_range c). unfold SIZEOF_REGISTER_ARGS in *.
  assert (in_u 32 off ∧ in_u 32 (loc_info c)) as [Hou Hlu] by (unfold in_u; lia).
  assert (∃ args', mem_from_regs env (slot_info (OnStack off (loc_info c)) false (csize c))
      (slot_info (InRegs ars) false (csize c)) 8 off 0 (length ars) args = Ret args' ∧
      framed [(184 + off, align_up (csize c) 8)] args args' ∧
      rd args' (184 + off) (csize c) = aa_arg_value env mem sp c (slot_info (InRegs ars) false (csize c)))
    as (args' & Hrun & Hf & Hv).
  { destruct (slot_stack_mem off (loc_info c) false (csize c) Hou Hlu) as [Hm Hml].
    destruct (narrow c) eqn:Hnar.
    - destruct (narrow_words Hnar) as (_ & Hsz & ->). specialize (Hnl eq_refl).
      destruct ars as [|[a ai] [|]]; try done. apply Forall_cons in Har as [Haok _]. simpl in Haok.
      destruct (narrow_copy env Henv c args (184 + off) a Hnar Haok) as (args' & Hrun & Hf & Hv); [lia..|].
      exists args'. split_and!; [|done|].
      + cbn [length mem_from_regs]. rewrite (slot_get [(a, ai)] _ _ 0 a ai 0) by (done || simpl; lia).
        cbn [mbind outcome_bind]. unfold SIZEOF_REGISTER_ARGS. rewrite Hml.
        destruct (copy_reg env args _ _ 8) as [args1|]; [|done]. cbn [mbind outcome_bind] in Hrun |- *.
        change (8 =? 16) with false. cbv iota. by rewrite Hrun.
      + destruct (rd_a64_8 a Haok) as (b & Hb & Hlb).
        rewrite (Hval' b) by (cbn [gather fmap list_fmap fst]; rewrite Hb; cbn [mbind outcome_bind]; by rewrite app_nil_r).
        rewrite Hv. by apply rd_a64_low; [|lia|].
    - rewrite (loc_info_full c Hnar) in *.
      destruct (to_stack env Henv (slot_info (OnStack off TE_Full) false (csize c))
        (slot_info (InRegs ars) false (csize c)) ars off 0 args) as (args' & Hrun & Hf & Hg); try done;
        [apply names_slot; (done || lia)|lia|unfold SIZEOF_REGISTER_ARGS; lia|].
      unfold SIZEOF_REGISTER_ARGS in *. exists args'. rewrite Hlen in Hf, Hg. split_and!; [done|done|].
      destruct (gather _ _) as [bs|] eqn:Hgg.
      + rewrite (Hval' bs eq_refl). eapply rd_take; [exact Hg|lia].
      + rewrite rd_ok in Hg; [done|lia|]. destruct Hf as [-> _]. lia. }
  exists args'. rewrite Href. split_and!; [|done|].
  - unfold entry_arg, arg_mem_reg. destruct (slot_stack_flags off (loc_info c) false (csize c)) as [-> ->].
    destruct (slot_regs_flags ars false (csize c)) as [-> ->].
    rewrite !slot_regs_num by (done || lia). rewrite (proj2 (Z.eqb_neq 0 (Z.of_nat (length ars)))) by lia.
    cbn [andb orb negb]. destruct (slot_stack_mem off (loc_info c) false (csize c) Hou Hlu) as [-> _].
    change (te_get_arg_size _) with (csize c). rewrite (proj2 (Z.eqb_neq _ (csize c))) by lia.
    by rewrite Nat2Z.id.
  - by rewrite xx_value_stack.
Qed.

(** Both on the stack. *)
Lemma deliver_mem_mem off off' args room v :
  xx_shape c (OnStack off (loc_info c)) room → 0 ≤ off' < 2 ^ 32 → by_reference c = false →
  rd_mem mem (sp + off') (csize c) = Ret v → SIZEOF_REGISTER_ARGS + room ≤ Z.of_nat (length args) →
  delivered (OnStack off (loc_info c)) (OnStack off' 0) args.
Proof.
  intros (Ho & _ & Hroom & _ & Hrm) Ho' Href Hrd Hargs.
  pose proof (csize_pos c value_wf). pose proof (align_up_spec (csize c) 8 ltac:(lia)).
  pose proof (loc_info_range c). unfold SIZEOF_REGISTER_ARGS in *.
  assert (in_u 32 off ∧ in_u 32 (loc_info c)) as [Hou Hlu] by (unfold in_u; lia).
  assert (∃ args', (args ← copy_mem mem args (184 + off) (sp + off') (csize c);
      if csize c <=? 2 then extend_arg_by_loc_info args (184 + off) (loc_info c) else Ret args) = Ret args' ∧
      framed [(184 + off, align_up (csize c) 8)] args args' ∧ rd args' (184 + off) (csize c) = Ret v)
    as (args' & Hrun & Hf & Hv).
  { pose proof (rd_mem_length mem (sp + off') (csize c) v ltac:(lia) Hrd) as Hlv. destruct (narrow c) eqn:Hnar.
    - destruct (narrow_words Hnar) as (_ & Hsz & Hal). rewrite Hal in *. rewrite (proj2 (Z.leb_le (csize c) 2)) by lia.
      destruct (narrow_copy_mem mem Hmem c args (184 + off) (sp + off') (csize c) v Hnar)
        as (args' & Hrun & Hf & Hv); [lia..|done|].
      exists args'. split_and!; [done|done|]. rewrite Hv. by rewrite take_ge by lia.
    - rewrite (loc_info_full c Hnar). destruct (copy_mem_ok mem args (184 + off) (sp + off') (csize c) v Hrd)
        as (args' & Hc & Hf & Hr); [lia..|].
      exists args'. rewrite Hc. split_and!; [by case_match| |].
      + eapply framed_widen; [exact Hf|lia..].
      + rewrite Hr by lia. by rewrite take_ge by lia. }
  exists args'. rewrite Href. split_and!; [|done|].
  - unfold entry_arg, arg_mem_mem. destruct (slot_stack_flags off (loc_info c) false (csize c)) as [-> ->].
    destruct (slot_stack_flags off' 0 false (csize c)) as [-> ->]. cbn [andb orb negb].
    destruct (slot_stack_mem off (loc_info c) false (csize c) Hou Hlu) as [-> ->].
    destruct (slot_stack_mem off' 0 false (csize c)) as [-> _]; [done..|].
    change (te_get_arg_size _) with (csize c). change (te_get_arg_size _) with (csize c).
    rewrite Z.eqb_refl. cbn [c_assert mbind outcome_bind]. exact Hrun.
  - rewrite xx_value_stack, aa_value_stack by (done || unfold in_u; lia). unfold SIZEOF_REGISTER_ARGS. by rewrite Hv.
Qed.

(** AArch64 passes the address. *)
Lemma deliver_indirect off pa args room v :
  xx_shape c (OnStack off (loc_info c)) room → aa_shape c pa → by_reference c = true →
  match pa with OnStack off' _ => off' < 2 ^ 32 | _ => True end →
  aa_arg_value env mem sp c (slot_info pa true (csize c)) = Ret v →
  SIZEOF_REGISTER_ARGS + room ≤ Z.of_nat (length args) →
  delivered (OnStack off (loc_info c)) pa args.
Proof.
  intros (Ho & _ & Hroom & _ & Hrm) Ha Href Hpa Hv Hargs.
  assert (16 < csize c) as Hbig by (unfold by_reference in Href; destruct (hfa c); [done|by btests]).
  pose proof (align_up_spec (csize c) 8 ltac:(lia)). pose proof (loc_info_range c).
  unfold SIZEOF_REGISTER_ARGS in *.
  assert (in_u 32 off ∧ in_u 32 (loc_info c)) as [Hou Hlu] by (unfold in_u; lia).
  assert (∃ addr, entry_arg env mem sp (slot_info (OnStack off (loc_info c)) false (csize c))
      (slot_info pa true (csize c)) args =
      arg_mem_indirect mem (slot_info (OnStack off (loc_info c)) false (csize c)) addr args ∧
      rd_mem mem addr (csize c) = Ret v) as (addr & Hrun & Hrd).
  { unfold aa_arg_value in Hv. unfold entry_arg.
    destruct (slot_stack_flags off (loc_info c) false (csize c)) as [-> ->]. destruct pa as [ars|off' i].
    - destruct (slot_regs_flags ars true (csize c)) as [Hm Hi]. rewrite Hm, Hi in *.
      destruct Ha as (k & n & Hk & Hn & Hkn & Haa).
      destruct (hfa c) as [[s m]|] eqn:Hh; [by rewrite (by_reference_hfa s m Hh) in Href|]. rewrite Href in Haa.
      destruct Haa as [-> ->].
      destruct (aa_regs_facts TE_X0 1 (or_introl eq_refl) k Hk Hn Hkn) as (Hok & Hl & _).
      rewrite slot_regs_num by (done || lia). cbn [andb orb negb].
      rewrite (proj2 (Z.eqb_neq 0 (Z.of_nat _))) by lia.
      destruct (te_get_reg _ 0) as [r|]; [|done]. cbn [mbind outcome_bind] in Hv |- *.
      destruct (rd_a64 env r 8) as [bs|]; [|done]. cbn [mbind outcome_bind] in Hv |- *.
      by exists (le_val bs).
    - destruct (slot_stack_flags off' i true (csize c)) as [Hm Hi]. rewrite Hm, Hi in *. cbn [andb orb negb].
      destruct (rd_mem mem (sp + te_get_mem _) 8) as [bs|]; [|done]. cbn [mbind outcome_bind] in Hv |- *.
      by exists (le_val bs). }
  destruct (copy_mem_ok mem args (184 + off) addr (csize c) v Hrd) as (args' & Hc & Hf & Hr); [lia..|].
  exists args'. rewrite Href. split_and!.
  - rewrite Hrun. unfold arg_mem_indirect. destruct (slot_stack_mem off (loc_info c) false (csize c) Hou Hlu) as [-> _].
    change (te_get_arg_size _) with (csize c). unfold SIZEOF_REGISTER_ARGS. rewrite Hc. cbn [mbind outcome_bind].
    by rewrite (proj2 (Z.ltb_lt 2 (csize c))) by lia.
  - simpl footprint. unfold SIZEOF_REGISTER_ARGS. eapply framed_widen; [exact Hf|lia..].
  - rewrite xx_value_stack by done. unfold SIZEOF_REGISTER_ARGS. rewrite Hr, Hv by lia.
    pose proof (rd_mem_length mem addr (csize c) v ltac:(lia) Hrd). by rewrite take_ge by lia.
Qed.

(** The AArch64 value can be read, and the rest of its last eightbyte too. *)
Definition readable (pa : place) : Prop :=
  (∃ v, aa_arg_value env mem sp c (slot_info pa (by_reference c) (csize c)) = Ret v) ∧
  match pa with
  | OnStack off _ => off + 16 < 2 ^ 32 ∧ (by_reference c = false → csize c ≤ 16 →
      ∃ bs, rd_mem mem (sp + off) (align_up (csize c) 8) = Ret bs)
  | InRegs _ => True
  end.

(** Every combination the conventions produce, but for spread floats. *)
Lemma deliver px pa room args :
  xx_shape c px room → aa_shape c pa → readable pa →
  (spread_floats = true → place_is_mem px = true → place_is_mem pa = true) →
  SIZEOF_REGISTER_ARGS + room ≤ Z.of_nat (length args) → 0 ≤ room → delivered px pa args.
Proof.
  intros Hx Ha [[v Hv] Hrd] Hsp Hargs Hroom.
  assert (OFF_RAX ≤ Z.of_nat (length args)) by (unfold OFF_RAX, SIZEOF_REGISTER_ARGS in *; lia).
  destruct px as [xrs|off li].
  - assert (csize c ≤ 16) as Hsz by (by destruct Hx). destruct pa as [ars|off' i].
    + destruct (hfa c) as [[s n]|] eqn:Hh; [by eapply deliver_reg_reg|by eapply deliver_reg_reg_int].
    + destruct Ha as [Ho ->], Hrd as [Ho' Hrd]. destruct Hrd as [bs Hrd]; [by apply by_reference_small|done|].
      by eapply deliver_reg_mem.
  - assert (li = loc_info c) as -> by (by destruct Hx as (_ & _ & _ & -> & _)).
    destruct (by_reference c) eqn:Href.
    + eapply deliver_indirect; try done. destruct pa; [done|]. destruct Hrd. lia.
    + destruct pa as [ars|off' i].
      * eapply deliver_mem_reg; try done. destruct spread_floats; [|done]. by specialize (Hsp eq_refl eq_refl).
      * destruct Ha as [Ho ->], Hrd as [Ho' _]. rewrite aa_value_stack in Hv by (unfold in_u; lia).
        eapply deliver_mem_mem; try done. lia.
Qed.
End step.
