(* ===== verification/DyCorrect.v ===== *)
(** * The dynamic entry translation, for whole prototypes

    The steps of [DyStep] composed over the argument list: the places the two
    calling conventions chose have the shapes a step wants, the x86-64
    footprints of different arguments are disjoint, so what one step delivers
    no later step disturbs. *)

From S2P Require Import Prelude Bytes ABIArgInfo FfiTypes Layout Placement AAPrepCif HFA AAAlloc XXPrepCif XXClass XXAlloc CrossABI DyBridge DyEntry DyStep.

(** ** Disjoint footprints *)

Definition fps_disjoint (f g : list (Z * Z)) : Prop := Forall (λ p, outside p.1 p.2 g) f.

Lemma fps_disjoint_elem f g p q : fps_disjoint f g → p ∈ f → q ∈ g →
  p.1 + p.2 ≤ q.1 ∨ q.1 + q.2 ≤ p.1.
Proof. unfold fps_disjoint, outside. rewrite Forall_forall. intros H Hp Hq. specialize (H p Hp). rewrite Forall_forall in H. by apply H. Qed.

Lemma fps_disjoint_sym f g : fps_disjoint f g → fps_disjoint g f.
Proof.
  intros H. apply Forall_forall. intros q Hq. apply Forall_forall. intros p Hp.
  destruct (fps_disjoint_elem f g p q H Hp Hq); lia.
Qed.

Lemma fps_disjoint_app f g h : fps_disjoint f g → fps_disjoint f h → fps_disjoint f (g ++ h).
Proof. unfold fps_disjoint. rewrite !Forall_forall. intros H1 H2 p Hp. apply Forall_app. split; [by apply H1|by apply H2]. Qed.

Lemma framed_app_r fps fps' l l' : framed fps' l l' → framed (fps ++ fps') l l'.
Proof. intros [? H]. split; [done|]. intros off n [_ ?]%Forall_app. auto. Qed.

(** Registers of an argument are argument registers, all of them real. *)
Lemma xx_shape_regs c rs room : xx_shape c (InRegs rs) room → Forall (λ p, xreg_ok p.1) rs.
Proof.
  intros (_ & g & s & Hg & Hs & Hgb & Hsb & ->). apply regs_of_xreg_ok; try done. apply loc_info_range.
Qed.

Lemma xx_shape_fp c p room q : xx_shape c p room → q ∈ footprint c p →
  0 ≤ q.1 ∧ (q.1 + q.2 ≤ OFF_RAX ∨ SIZEOF_REGISTER_ARGS ≤ q.1).
Proof.
  destruct p as [rs|off li].
  - intros Hsh%xx_shape_regs Hq. simpl in Hq. apply list_elem_of_fmap in Hq as (r & -> & Hr).
    apply list_elem_of_fmap in Hr as (z & -> & Hz). rewrite Forall_forall in Hsh.
    destruct (reg_fp_range z.1 (Hsh z Hz)). simpl. split; [done|by left].
  - intros (? & _) ->%list_elem_of_singleton. unfold SIZEOF_REGISTER_ARGS. simpl. lia.
Qed.

Lemma footprints_disjoint c p c' p' room : xx_shape c p room → xx_shape c' p' room →
  place_disjoint p (csize c) p' (csize c') → fps_disjoint (footprint c p) (footprint c' p').
Proof.
  intros Hs Hs' Hd. apply Forall_forall. intros q Hq. apply Forall_forall. intros q' Hq'.
  destruct (xx_shape_fp _ _ _ _ Hs Hq) as [? _], (xx_shape_fp _ _ _ _ Hs' Hq') as [? _].
  unfold SIZEOF_REGISTER_ARGS, OFF_RAX in *. destruct p as [rs|off li], p' as [rs'|off' li']; simpl in Hq, Hq', Hd.
  - apply xx_shape_regs in Hs, Hs'. apply list_elem_of_fmap in Hq as (r & -> & Hr), Hq' as (r' & -> & Hr').
    assert (r ≠ r') by (intros ->; by eapply Hd). apply reg_fp_disjoint; [| |done].
    + apply list_elem_of_fmap in Hr as (z & -> & Hz). rewrite Forall_forall in Hs. by apply Hs.
    + apply list_elem_of_fmap in Hr' as (z & -> & Hz). rewrite Forall_forall in Hs'. by apply Hs'.
  - apply xx_shape_regs in Hs. apply list_elem_of_fmap in Hq as (r & -> & Hr).
    apply list_elem_of_fmap in Hr as (z & -> & Hz). rewrite Forall_forall in Hs.
    destruct (reg_fp_range z.1 (Hs z Hz)). apply list_elem_of_singleton in Hq' as ->.
    destruct Hs' as (? & _).
    unfold OFF_RAX, SIZEOF_REGISTER_ARGS in *. unfold reg_fp. cbn [fst snd].
    lia.
  - apply xx_shape_regs in Hs'. apply list_elem_of_fmap in Hq' as (r & -> & Hr).
    apply list_elem_of_fmap in Hr as (z & -> & Hz). rewrite Forall_forall in Hs'.
    destruct (reg_fp_range z.1 (Hs' z Hz)). apply list_elem_of_singleton in Hq as ->.
    destruct Hs as (? & _). unfold OFF_RAX, SIZEOF_REGISTER_ARGS in *. unfold reg_fp. cbn [fst snd]. lia.
  - apply list_elem_of_singleton in Hq as ->, Hq' as ->. destruct Hs as (? & D & _), Hs' as (? & D' & _). cbn [fst snd].
    destruct Hd as [Hd|Hd]; [left|right].
    + pose proof (align_up_least (csize c) 8 (off' - off) ltac:(lia) ltac:(lia) ltac:(by apply Z.divide_sub_r)). lia.
    + pose proof (align_up_least (csize c') 8 (off - off') ltac:(lia) ltac:(lia) ltac:(by apply Z.divide_sub_r)). lia.
Qed.

(** A later step that stays clear of a place leaves its value. *)
Lemma xx_value_framed c p room fps args args' : value_type c = true → xx_shape c p room → framed fps args args' →
  fps_disjoint (footprint c p) fps →
  xx_arg_value args' c (slot_info p false (csize c)) = xx_arg_value args c (slot_info p false (csize c)).
Proof.
  intros Hval Hs [_ Hf] Hd. destruct p as [rs|off li].
  - pose proof (xx_shape_regs _ _ _ Hs) as Hok. destruct Hs as (Hsz & g & s & Hg & Hs & Hgb & Hsb & ->).
    destruct (xx_regs_facts c Hval g s Hsz Hg Hs Hgb Hsb) as (Hp & Hl & Hw & _).
    rewrite !xx_value_regs by (done || lia). f_equal.
    simpl in Hd. revert Hd Hok. generalize (regs_of (loc_info c) (code_class c 0) g s). clear -Hf.
    intros rs. induction rs as [|[r i] rs IH]; intros Hd Hok; [done|].
    apply Forall_cons in Hd as [Hr Hd]. apply Forall_cons in Hok as [Hx Hok]. cbn [gather fmap list_fmap fst].
    rewrite IH by done. rewrite Hf; [done|]. eapply Forall_impl; [exact Hr|]. simpl. intros q.
    unfold xwidth. case_match; lia.
  - destruct Hs as (? & ? & ? & -> & ?). pose proof (loc_info_range c).
    pose proof (csize_pos c (value_wf c Hval)). pose proof (align_up_spec (csize c) 8 ltac:(lia)).
    rewrite !xx_value_stack by (unfold in_u; lia). apply Hf.
    apply Forall_cons in Hd as [Hd _]. eapply Forall_impl; [exact Hd|]. cbn [fst snd]. intros q. lia.
Qed.

(** ** The argument loop *)

(** An argument with its two places. *)
Definition job : Type := cty * place * place.
Definition job_x (b : job) : ABIArgInfo := let '(c, px, _) := b in slot_info px false (csize c).
Definition job_a (b : job) : ABIArgInfo := let '(c, _, pa) := b in slot_info pa (by_reference c) (csize c).
Definition job_fp (b : job) : list (Z * Z) := let '(c, px, _) := b in footprint c px.

Section loop.
Context (env : CPUARMState) (mem : memory) (sp room : Z).
Hypothesis Henv : env_ok env.
Hypothesis Hmem : ∀ a b, mem a = Some b → 0 ≤ b < 256.
Hypothesis Hroom : 0 ≤ room.

Definition job_ok (b : job) : Prop :=
  let '(c, px, pa) := b in
  value_type c = true ∧ xx_shape c px room ∧ aa_shape c pa ∧ readable env mem sp c pa ∧
  (spread_floats c = true → place_is_mem px = true → place_is_mem pa = true).

Definition job_done (args : list Z) (b : job) : Prop :=
  let '(c, _, _) := b in xx_arg_value args c (job_x b) = aa_arg_value env mem sp c (job_a b).

Lemma entry_arg_job b args : job_ok b → SIZEOF_REGISTER_ARGS + room ≤ Z.of_nat (length args) →
  ∃ args', entry_arg env mem sp (job_x b) (job_a b) args = Ret args' ∧
    framed (job_fp b) args args' ∧ job_done args' b.
Proof.
  destruct b as [[c px] pa]. intros (Hv & Hx & Ha & Hr & Hsp) Hargs.
  by apply (deliver env mem sp Henv Hmem c Hv px pa room args).
Qed.

Lemma job_done_framed b fps args args' : job_ok b → framed fps args args' →
  fps_disjoint (job_fp b) fps → job_done args b → job_done args' b.
Proof.
  destruct b as [[c px] pa]. intros (Hv & Hx & _) Hf Hd Hdone. unfold job_done, job_x in *.
  by rewrite (xx_value_framed c px room fps args args').
Qed.

Lemma entry_args_ok L i xxs aas args :
  Forall job_ok L → (∀ j k b b', (j < k)%nat → L !! j = Some b → L !! k = Some b' →
    fps_disjoint (job_fp b) (job_fp b')) →
  (∀ j b, L !! j = Some b → xxs !! (i + j)%nat = Some (job_x b) ∧ aas !! (i + j)%nat = Some (job_a b)) →
  SIZEOF_REGISTER_ARGS + room ≤ Z.of_nat (length args) →
  ∃ args', entry_args env mem sp xxs aas i (length L) args = Ret args' ∧
    framed (mjoin (job_fp <$> L)) args args' ∧ Forall (job_done args') L.
Proof.
  intros Hok. revert i args. induction Hok as [|b L Hb Hok IH]; intros i args Hd Hl Hargs.
  { exists args. split_and!; [done|apply framed_refl|constructor]. }
  destruct (Hl 0%nat b eq_refl) as [Hx Ha]. rewrite Nat.add_0_r in Hx, Ha.
  destruct (entry_arg_job b args Hb Hargs) as (args1 & Hrun & Hf1 & Hdone).
  destruct (IH (S i) args1) as (args2 & Hrun2 & Hf2 & Hall).
  - intros j k x y Hjk. apply (Hd (S j) (S k)). lia.
  - intros j x Hj. replace (S i + j)%nat with (i + S j)%nat by lia. by apply (Hl (S j)).
  - destruct Hf1 as [-> _]. done.
  - exists args2. simpl. unfold c_index. rewrite Hx, Ha. simpl. rewrite Hrun. simpl. split_and!; [done| |].
    + eapply framed_trans; [by apply framed_app_l|by apply framed_app_r].
    + constructor; [|done]. eapply job_done_framed; [done|exact Hf2| |done].
      apply Forall_forall. intros p Hp. apply Forall_forall. intros q Hq.
      apply list_elem_of_join in Hq as (fp & Hq & Hfp). apply list_elem_of_fmap in Hfp as (b' & -> & Hb').
      apply list_elem_of_lookup in Hb' as [k Hk].
      by eapply fps_disjoint_elem; [apply (Hd 0%nat (S k) b b'); [lia|done|done]|..].
Qed.
End loop.

(** ** The places of a prototype *)

Lemma align_up_mono v w : v ≤ w → align_up v 8 ≤ align_up w 8.
Proof.
  intros H. apply align_up_least; [lia| |by apply align_up_spec]. pose proof (align_up_spec w 8). lia.
Qed.

Lemma xplaces_shape cs a room : Forall arg_type_ok cs → xalloc_ok a →
  align_up (xb (xplaces cs a).2) 8 ≤ room → room < 2 ^ 31 →
  Forall2 (λ c p, xx_shape c p room) cs (xplaces cs a).1.
Proof.
  intros Hcs. revert a. induction Hcs as [|c cs Hc Hcs IH]; intros a Ha Hr Hr'; [constructor|].
  destruct (xplaces_step c cs a Hc Ha) as (p & a1 & Heq & Hp & _ & Ha1 & _). rewrite Heq in Hr |- *. simpl in *.
  constructor; [|by apply IH]. destruct (xplaces_ok cs a1 Hcs Ha1) as (_ & (_ & _ & Hle) & _).
  destruct Hc as [Hw _]. eapply xplace_shape; [done|exact Ha|exact Hp| |done].
  pose proof (align_up_mono _ _ Hle). lia.
Qed.

Lemma place_args_shape nf cs i a : Forall arg_type_ok cs → alloc_ok a →
  Forall2 aa_shape cs (place_args nf i cs a).1.
Proof.
  intros Hcs. revert i a. induction Hcs as [|c cs Hc Hcs IH]; intros i a Ha; [constructor|].
  destruct (place_args_step nf c cs i a Hc Ha) as (p & a1 & -> & Hp & _ & _ & _ & _ & Ha2 & _).
  simpl. constructor; [|by apply IH]. destruct Hc as [Hw _]. exact (place_arg_shape c a p a1 Hw Ha Hp).
Qed.

Definition jobs (nf : Z) (rt : cty) (cs : list cty) : list job :=
  zip (zip cs (xplaces cs (xalloc0 rt)).1) (place_args nf 0 cs alloc0).1.

Lemma alloc0_ok : alloc_ok alloc0.
Proof. unfold alloc_ok. simpl. lia. Qed.

Lemma jobs_length nf rt cs : length (jobs nf rt cs) = length cs.
Proof. unfold jobs. rewrite !length_zip_with, xplaces_length, place_args_length. lia. Qed.

Lemma jobs_lookup nf rt cs j c px pa : jobs nf rt cs !! j = Some (c, px, pa) →
  cs !! j = Some c ∧ (xplaces cs (xalloc0 rt)).1 !! j = Some px ∧ (place_args nf 0 cs alloc0).1 !! j = Some pa.
Proof.
  unfold jobs. intros (cp & pa' & Heq & Hcp & Hpa)%lookup_zip_with_Some.
  apply lookup_zip_with_Some in Hcp as (c' & px' & -> & Hc & Hpx). by simplify_eq.
Qed.

Lemma jobs_infos nf rt cs :
  ainfo (xx_fn_info rt cs) = job_x <$> jobs nf rt cs ∧ ainfo (aa_fn_info nf rt cs) = job_a <$> jobs nf rt cs.
Proof.
  unfold jobs, xx_fn_info, aa_fn_info, x_arg_infos, arg_infos.
  pose proof (xplaces_length cs (xalloc0 rt)) as Hx. pose proof (place_args_length nf cs 0 alloc0) as Ha.
  destruct (xplaces cs _) as [xps ax], (place_args nf 0 cs _) as [pas aa]. simpl in *.
  revert cs pas Hx Ha. induction xps as [|px xps IH]; intros [|c cs] [|p pas] Hx Ha; try done.
  simpl in *. destruct (IH cs pas) as [-> ->]; [lia..|]. done.
Qed.

Lemma jobs_infos_lookup nf rt cs j c x a : cs !! j = Some c →
  ainfo (xx_fn_info rt cs) !! j = Some x → ainfo (aa_fn_info nf rt cs) !! j = Some a →
  ∃ px pa, jobs nf rt cs !! j = Some (c, px, pa) ∧ x = job_x (c, px, pa) ∧ a = job_a (c, px, pa).
Proof.
  intros Hc Hx Ha. destruct (jobs_infos nf rt cs) as [E1 E2].
  rewrite E1, list_lookup_fmap in Hx. rewrite E2, list_lookup_fmap in Ha.
  destruct (jobs nf rt cs !! j) as [[[c' px] pa]|] eqn:Hj; [|done].
  destruct (jobs_lookup _ _ _ _ _ _ _ Hj) as (Hc' & _). 
  injection Hx as <-. injection Ha as <-. rewrite Hc in Hc'. injection Hc' as <-. by exists px, pa.
Qed.

Lemma jobs_disjoint nf rt cs room : Forall arg_type_ok cs →
  align_up (xb (xplaces cs (xalloc0 rt)).2) 8 ≤ room → room < 2 ^ 31 →
  ∀ j k b b', (j < k)%nat → jobs nf rt cs !! j = Some b → jobs nf rt cs !! k = Some b' →
  fps_disjoint (job_fp b) (job_fp b').
Proof.
  intros Hcs Hr Hr' j k [[c px] pa] [[c' px'] pa'] Hjk Hj Hk.
  destruct (jobs_lookup _ _ _ _ _ _ _ Hj) as (Hc & Hp & _), (jobs_lookup _ _ _ _ _ _ _ Hk) as (Hc' & Hp' & _).
  pose proof (xplaces_shape cs _ room Hcs (xalloc0_ok rt) Hr Hr') as Hsh. rewrite Forall2_lookup in Hsh.
  pose proof (Hsh j) as Hsj. pose proof (Hsh k) as Hsk. rewrite Hc, Hp in Hsj. rewrite Hc', Hp' in Hsk.
  inversion Hsj; inversion Hsk; subst. simpl. eapply footprints_disjoint; [done..|].
  by eapply (xplaces_disjoint cs (xalloc0 rt) j k); [|apply xalloc0_ok|..].
Qed.

(** ** The guest's side *)

(** The argument area can be read, up to the end of its last eightbyte, and so
    can the objects passed by reference. *)
Definition guest_readable (env : CPUARMState) (mem : memory) (sp : Z) (cs : list cty) (aaInfo : ABIFnInfo) : Prop :=
  (∀ i, 0 ≤ i < bytes aaInfo + 8 → is_Some (mem (sp + i))) ∧
  ∀ j c a, cs !! j = Some c → ainfo aaInfo !! j = Some a → te_is_indirect a = true →
    ∃ v, aa_arg_value env mem sp c a = Ret v.

(** No several floats that are in S registers and wanted on the stack. *)
Definition no_spread (cs : list cty) (aaInfo xxInfo : ABIFnInfo) : Prop :=
  ∀ j c x a, cs !! j = Some c → ainfo xxInfo !! j = Some x → ainfo aaInfo !! j = Some a →
    spread_floats c = true → te_is_mem x = true → te_is_mem a = true.

Lemma rd_mem_readable (mem : memory) addr n : (∀ i, 0 ≤ i < n → is_Some (mem (addr + i))) →
  ∃ bs, rd_mem mem addr n = Ret bs.
Proof.
  intros H. unfold rd_mem. destruct (mapM mem (seqZ addr n)) as [bs|] eqn:Hm; [by exists bs|].
  apply eq_None_not_Some in Hm. destruct Hm. apply mapM_is_Some_2, Forall_forall. intros a Ha%elem_of_seqZ.
  replace a with (addr + (a - addr)) by lia. apply H. lia.
Qed.

Lemma gather_readable env n rs : env_ok env → 0 ≤ n ≤ 16 → Forall areg_ok rs →
  ∃ bs, gather (λ r, rd_a64 env r n) rs = Ret bs.
Proof.
  intros He Hn Hrs. induction Hrs as [|r rs Hr Hrs [bs IH]]; [by exists []|].
  destruct (rd_a64_ok env r He Hr) as (b & _ & _ & _ & Hb). rewrite gather_cons, Hb, IH by done. by eexists.
Qed.

Lemma aa_regs_readable env mem sp c rs : env_ok env → aa_shape c (InRegs rs) → by_reference c = false →
  ∃ v, aa_arg_value env mem sp c (slot_info (InRegs rs) false (csize c)) = Ret v.
Proof.
  intros He (k & n & Hk & Hn & Hkn & Haa) Href. rewrite Href in Haa.
  assert (pairs_ok rs ∧ (length rs ≤ 4)%nat ∧ Forall areg_ok rs.*1) as (Hok & Hl & Har).
  { destruct (hfa c) as [[s m]|]; destruct Haa as [_ ->];
      [destruct (aa_regs_facts TE_Q0 n (or_intror eq_refl) k Hk Hn Hkn) as (? & ? & ?)
      |destruct (aa_regs_facts TE_X0 n (or_introl eq_refl) k Hk Hn Hkn) as (? & ? & ?)];
      (split_and!; [done|lia|by apply Forall_fmap]). }
  rewrite aa_value_regs by done. destruct (hfa c) as [[s m]|].
  - apply gather_readable; [done|destruct s; simpl; lia|done].
  - destruct (gather_readable env 8 rs.*1 He) as [bs ->]; [lia|done|]. by eexists.
Qed.

Lemma jobs_readable nf rt cs env mem sp j c px pa : proto_ok rt cs → env_ok env →
  guest_readable env mem sp cs (aa_fn_info nf rt cs) → jobs nf rt cs !! j = Some (c, px, pa) →
  readable env mem sp c pa.
Proof.
  intros H He [Hstack Hind] Hj. destruct (jobs_lookup _ _ _ _ _ _ _ Hj) as (Hc & _ & Hp).
  destruct (aa_fn_info_lookup nf rt cs j c H Hc) as (p & b & b' & Hi & Hp' & _ & Hwi & (_ & _ & Hb) & Hle).
  rewrite Hp in Hp'. injection Hp' as <-. destruct H as (_ & _ & Hcs & Hroom).
  pose proof (place_args_shape nf cs 0 alloc0 Hcs alloc0_ok) as Hsh. rewrite Forall2_lookup in Hsh.
  specialize (Hsh j). rewrite Hc, Hp in Hsh. inversion Hsh as [? ? Hshape|]; subst.
  assert (bytes (aa_fn_info nf rt cs) < 2 ^ 31) as Hby.
  { pose proof (place_args_room nf cs 0 alloc0 Hcs alloc0_ok) as Hpr. unfold aa_fn_info.
    destruct (place_args nf 0 cs alloc0). simpl in *. lia. }
  rewrite Forall_lookup in Hcs. destruct (Hcs j c Hc) as [Hw _]. pose proof (csize_pos c Hw). split.
  - destruct (by_reference c) eqn:Href.
    + apply (Hind j); [done..|]. by destruct pa.
    + destruct pa as [rs|off i]; [by apply aa_regs_readable|]. destruct Hshape as [? ->].
      destruct Hwi as (_ & Ho & Hn & _). unfold stack_size in Hn. rewrite Href in Hn.
      rewrite aa_value_stack by (unfold in_u; lia). apply rd_mem_readable. intros i Hi0.
      rewrite <- Z.add_assoc. apply Hstack. lia.
  - destruct pa as [rs|off i]; [done|]. destruct Hshape as [? ->]. destruct Hwi as (_ & Ho & Hn & _).
    split; [unfold stack_size in Hn; case_match; lia|]. intros Href Hsz. unfold stack_size in Hn. rewrite Href in Hn.
    apply rd_mem_readable. intros i Hi0. rewrite <- Z.add_assoc. apply Hstack.
    pose proof (align_up_spec (csize c) 8 ltac:(lia)). lia.
Qed.

(** ** The translation *)

(** Where the x86-64 callee shall store a return value in memory: the buffer
    of the bridge, or what the caller put in X8. *)
Definition hidden_pointer (env : CPUARMState) (rt : cty) (sret : Z) : outcome (list Z) :=
  if by_reference rt then rd (xregs env) (8 * 8) 8 else Ret (le_bytes 8 sret).

Lemma xx_ret_large rt : 16 < csize rt → xx_ret_regs rt = [(TE_RDI, TE_Full)].
Proof. intros H. unfold xx_ret_regs. by rewrite (proj2 (Z.ltb_lt 16 (csize rt)) H). Qed.

Lemma xx_fn_info_ret rt cs : rinfo (xx_fn_info rt cs) = slot_info (InRegs (xx_ret_regs rt)) (16 <? csize rt) 0.
Proof. unfold xx_fn_info. by destruct (xplaces _ _). Qed.

Lemma aa_fn_info_ret nf rt cs : rinfo (aa_fn_info nf rt cs) = slot_info (aa_ret_place rt) (by_reference rt) 0.
Proof. unfold aa_fn_info. by destruct (place_args _ _ _ _). Qed.

Lemma aa_ret_indirect rt : te_is_indirect (slot_info (aa_ret_place rt) (by_reference rt) 0) = by_reference rt.
Proof. by destruct (aa_ret_place rt), (by_reference rt). Qed.

Lemma entry_ret_ok nf rt cs env sret args : env_ok env → SIZEOF_REGISTER_ARGS ≤ Z.of_nat (length args) →
  ∃ args', entry_ret env (rinfo (xx_fn_info rt cs)) (rinfo (aa_fn_info nf rt cs)) sret args = Ret args' ∧
    length args' = length args ∧ (16 < csize rt → rd args' 0 8 = hidden_pointer env rt sret).
Proof.
  intros (Hxl & _) Hargs. unfold SIZEOF_REGISTER_ARGS in Hargs.
  rewrite xx_fn_info_ret, aa_fn_info_ret.
  unfold entry_ret, hidden_pointer. destruct (slot_regs_flags (xx_ret_regs rt) (16 <? csize rt) 0) as [_ ->].
  rewrite aa_ret_indirect.
  destruct (Z.ltb_spec 16 (csize rt)) as [Hbig|]; [|exists args; split_and!; (done || lia)].
  rewrite xx_ret_large by done. change (te_get_reg _ 0) with (Ret TE_RDI). cbn [mbind outcome_bind]. change (x64_enum_2_ptr _) with 0.
  destruct (by_reference rt).
  - destruct (rd (xregs env) (8 * 8) 8) as [bs|] eqn:Hx8; [|by rewrite rd_ok in Hx8 by lia].
    pose proof (rd_length (xregs env) (8 * 8) 8 bs ltac:(lia) Hx8) as Hl. cbn [mbind outcome_bind].
    destruct (wr_copy args 0 bs) as (args' & -> & [? _] & Hrd); [lia..|]. exists args'. split_and!; [done..|].
    intros _. rewrite Hrd by lia. by rewrite take_ge by lia.
  - destruct (wr_copy args 0 (le_bytes 8 sret)) as (args' & -> & [? _] & Hrd); [lia|rewrite length_le_bytes; lia|].
    exists args'. split_and!; [done..|]. intros _. rewrite Hrd by (rewrite length_le_bytes; lia). done.
Qed.

(** No argument is in RDI when it holds the hidden pointer. *)
Lemma jobs_spare_rdi nf rt cs b : Forall arg_type_ok cs → 16 < csize rt → b ∈ jobs nf rt cs →
  outside 0 8 (job_fp b).
Proof.
  intros Hcs Hbig Hb. apply list_elem_of_lookup in Hb as [j Hj]. destruct b as [[c px] pa].
  destruct (jobs_lookup _ _ _ _ _ _ _ Hj) as (_ & Hp & _).
  destruct (xplaces_ok cs (xalloc0 rt) Hcs (xalloc0_ok rt)) as (_ & _ & _ & Hbe). rewrite Forall_lookup in Hbe.
  specialize (Hbe j px Hp). unfold xalloc0 in Hbe. rewrite (proj2 (Z.ltb_lt 16 (csize rt)) Hbig) in Hbe.
  apply Forall_forall. intros q Hq. destruct px as [rs|off li]; cbn [xbeyond xg xs xb] in Hbe; simpl job_fp in Hq.
  - apply list_elem_of_fmap in Hq as (r & -> & Hr). unfold reg_fp. cbn [fst snd].
    destruct (Hbe r Hr) as [(k & Hk & ->)|Hx].
    + destruct (gpr_ptr k) as [-> _]; lia.
    + destruct (xmm_ptr r) as [-> _]; unfold TE_XMM0, TE_XMM7 in *; lia.
  - apply list_elem_of_singleton in Hq as ->. unfold SIZEOF_REGISTER_ARGS. cbn [fst snd]. lia.
Qed.

Lemma xx_fn_info_bytes rt cs : proto_ok rt cs → stack_room cs + 8 < 2 ^ 31 →
  bytes (xx_fn_info rt cs) = align_up (xb (xplaces cs (xalloc0 rt)).2) 8 ∧
  0 ≤ bytes (xx_fn_info rt cs) < 2 ^ 31 ∧ nargs (xx_fn_info rt cs) = Z.of_nat (length cs).
Proof.
  intros (_ & _ & Hcs & _) Hr. destruct (xplaces_ok cs (xalloc0 rt) Hcs (xalloc0_ok rt)) as ((_ & _ & ?) & _ & Hb & _).
  unfold xx_fn_info. destruct (xplaces cs (xalloc0 rt)) as [ps a]. simpl in *.
  pose proof (align_up_spec (xb a) 8 ltac:(lia)).
  split_and!; (done || lia).
Qed.

Lemma jobs_ok nf rt cs env mem sp : proto_ok rt cs → stack_room cs + 8 < 2 ^ 31 → env_ok env →
  Forall (λ c, value_type c = true) cs → guest_readable env mem sp cs (aa_fn_info nf rt cs) →
  no_spread cs (aa_fn_info nf rt cs) (xx_fn_info rt cs) →
  Forall (job_ok env mem sp (bytes (xx_fn_info rt cs))) (jobs nf rt cs).
Proof.
  intros H Hr He Hval Hg Hs. apply Forall_lookup. intros j [[c px] pa] Hj.
  destruct (jobs_lookup _ _ _ _ _ _ _ Hj) as (Hc & Hpx & Hpa).
  destruct (xx_fn_info_bytes rt cs H Hr) as (Hb & Hb2 & _). pose proof H as (_ & _ & Hcs & _).
  pose proof (xplaces_shape cs (xalloc0 rt) (bytes (xx_fn_info rt cs)) Hcs (xalloc0_ok rt)) as Hxs.
  pose proof (place_args_shape nf cs 0 alloc0 Hcs alloc0_ok) as Has.
  rewrite Forall2_lookup in Hxs, Has. specialize (Hxs ltac:(lia) ltac:(lia) j). specialize (Has j).
  rewrite Hc, Hpx in Hxs. rewrite Hc, Hpa in Has. inversion Hxs; inversion Has; subst.
  destruct (jobs_infos nf rt cs) as [E1 E2]. split_and!; [|done..| |].
  - rewrite Forall_lookup in Hval. by apply (Hval j).
  - by eapply jobs_readable.
  - intros Hsp Hm. specialize (Hs j c (job_x (c, px, pa)) (job_a (c, px, pa)) Hc).
    rewrite E1, E2, !list_lookup_fmap, Hj in Hs. specialize (Hs eq_refl eq_refl Hsp).
    destruct px; [done|]. destruct pa; [|done].
    destruct (slot_stack_flags off info false (csize c)) as [E3 _].
    destruct (slot_regs_flags rs (by_reference c) (csize c)) as [E4 _]. unfold job_x, job_a in Hs.
    rewrite E3, E4 in Hs. by apply Hs.
Qed.

Lemma entry_internal_ok nf rt cs env mem sp args sret :
  proto_ok rt cs → stack_room cs + 8 < 2 ^ 31 → env_ok env →
  (∀ a b, mem a = Some b → 0 ≤ b < 256) →
  Forall (λ c, value_type c = true) cs → guest_readable env mem sp cs (aa_fn_info nf rt cs) →
  no_spread cs (aa_fn_info nf rt cs) (xx_fn_info rt cs) →
  Z.of_nat (length args) = SIZEOF_REGISTER_ARGS + bytes (xx_fn_info rt cs) →
  ∃ args', abi_dy_a2x_entry_trans_internal env mem sp (aa_fn_info nf rt cs) (xx_fn_info rt cs) args sret = Ret args' ∧
    length args' = length args ∧ Forall (job_done env mem sp args') (jobs nf rt cs) ∧
    (16 < csize rt → rd args' 0 8 = hidden_pointer env rt sret) ∧
    rd args' OFF_RAX 8 = Ret (le_bytes 8 (ssecount (xx_fn_info rt cs))).
Proof.
  intros H Hr He Hm Hval Hg Hs Hlen. pose proof (jobs_ok nf rt cs env mem sp H Hr He Hval Hg Hs) as Hjobs.
  destruct (xx_fn_info_bytes rt cs H Hr) as (Hb & Hb2 & Hn). pose proof H as (_ & _ & Hcs & _).
  destruct (jobs_infos nf rt cs) as [E1 E2]. unfold abi_dy_a2x_entry_trans_internal.
  destruct (entry_ret_ok nf rt cs env sret args He) as (args1 & -> & Hl1 & Hret); [lia|]. cbn [mbind outcome_bind].
  destruct (entry_args_ok env mem sp (bytes (xx_fn_info rt cs)) He Hm ltac:(lia) (jobs nf rt cs) 0
    (ainfo (xx_fn_info rt cs)) (ainfo (aa_fn_info nf rt cs)) args1 Hjobs) as (args2 & Hrun & Hf & Hdone).
  - intros. eapply (jobs_disjoint nf rt cs (bytes (xx_fn_info rt cs))); [done|lia|lia|done..].
  - intros j b Hj. rewrite E1, E2, !list_lookup_fmap. simpl. by rewrite Hj.
  - rewrite Hl1. lia.
  - rewrite Hn, Nat2Z.id. rewrite jobs_length in Hrun. rewrite Hrun. cbn [mbind outcome_bind].
    pose proof Hf as [Hl2 Hf2]. unfold OFF_RAX, SIZEOF_REGISTER_ARGS in *.
    destruct (wr_copy args2 176 (le_bytes 8 (ssecount (xx_fn_info rt cs)))) as (args3 & Hw & Hf3 & Hrd);
      [lia|rewrite length_le_bytes; lia|]. rewrite length_le_bytes in Hf3, Hrd. exists args3. split_and!; [done| | | |].
    + destruct Hf3 as [-> _]. congruence.
    + rewrite Forall_lookup in Hdone, Hjobs |- *. intros j b Hj. eapply job_done_framed; [by eapply Hjobs|exact Hf3| |by eapply Hdone].
      apply Forall_forall. intros q Hq. specialize (Hjobs j b Hj). destruct b as [[c px] pa].
      destruct Hjobs as (_ & Hsh & _). destruct (xx_shape_fp _ _ _ _ Hsh Hq) as [? Hq2].
      unfold OFF_RAX, SIZEOF_REGISTER_ARGS in Hq2. constructor; [cbn [fst snd]; lia|constructor].
    + intros Hbig. rewrite <- Hret by done. destruct Hf3 as [_ Hf3].
      rewrite Hf3, Hf2; [done| |constructor; [cbn [fst snd]; lia|constructor]].
      apply Forall_forall. intros q Hq. apply list_elem_of_join in Hq as (fp & Hq & Hfp).
      apply list_elem_of_fmap in Hfp as (b & -> & Hb'). pose proof (jobs_spare_rdi nf rt cs b Hcs Hbig Hb') as Ho.
      unfold outside in Ho. rewrite Forall_forall in Ho. by apply Ho.
    + rewrite Hrd by lia. done.
Qed.

(** ** Properties *)


(** ** Witnesses *)

(** A guest whose registers and memory hold recognisable bytes; SP is 4096. *)
Definition example_env : CPUARMState :=
  mk_env (((λ i, i mod 251) <$> seqZ 0 248) ++ le_bytes 8 4096) ((λ i, i mod 253) <$> seqZ 0 (32 * ZREG_SIZE)).
Definition example_mem : memory := λ a, Some (a mod 256).
Definition example_ret : cty := CStruct [CScalar SS64; CScalar SS64; CScalar SS64].
Definition example_aa : ABIFnInfo := aa_fn_info 0 example_ret example_args.
Definition example_xx : ABIFnInfo := xx_fn_info example_ret example_args.

Lemma example_env_ok : env_ok example_env.
Proof. split_and!; [done|done|..]; solve_bytes_ok. Qed.

Lemma example_mem_ok a b : example_mem a = Some b → 0 ≤ b < 256.
Proof. intros [= <-]. by apply Z.mod_pos_bound. Qed.

Lemma example_mem_rd addr n : ∃ v, rd_mem example_mem addr n = Ret v.
Proof. apply rd_mem_readable. intros. by eexists. Qed.


(** ** Several floats between S registers and the x86-64 stack *)

Definition spread_args : list cty :=
  replicate 6 (CStruct [CScalar SDouble; CScalar SS64]) ++
  [CStruct [CScalar SDouble; CScalar SDouble]; CStruct [CScalar SFloat; CScalar SFloat]].

(** The excluded combination is reachable and goes wrong: after six
    [{double, int64_t}] and one [{double, double}], a [{float, float}] is in S
    registers on AArch64 and on the stack on x86-64, and the translation, which
    copies eight bytes per register, writes past the end of the argument
    space. *)
Theorem dy_entry_spread_floats :
  let aa := aa_fn_info 0 (CScalar SVoid) spread_args in
  let xx := xx_fn_info (CScalar SVoid) spread_args in
  aa_prepared false 8 (CScalar SVoid) spread_args aa ∧ xx_prepared (CScalar SVoid) spread_args xx ∧
  guest_readable example_env example_mem 4096 spread_args aa ∧
  abi_dy_a2x_entry_translation example_env example_mem aa xx
    (replicate (Z.to_nat (SIZEOF_REGISTER_ARGS + bytes xx)) 0) 0 = Stop Undefined.
Proof.
  intros aa xx. split_and!; [| | |by vm_compute].
  - split; [simpl; lia|]. eexists. vm_compute. reflexivity.
  - eexists. vm_compute. reflexivity.
  - split; [intros; by eexists|]. intros j c a Hc Ha Hi. unfold aa in Ha. vm_compute in Ha.
    do 8 (destruct j as [|j]; [by simplify_eq/=|]). done.
Qed.
