(* ===== verification/DyExit.v ===== *)
(** * The dynamic exit translation delivers the return value

    [abi_dy_a2x_exit_translation] takes the return value out of the x86-64
    return registers (saved in the argument space) or of the return buffer and
    puts it where the AArch64 caller looks for it. *)

From S2P Require Import Prelude Bytes ABIArgInfo FfiTypes Layout Placement AAPrepCif HFA AAAlloc XXPrepCif XXClass XXAlloc CrossABI DyBridge DyEntry DyStep DyCorrect.

(** ** Values *)

(** The x86-64 return value: in the buffer or in the registers of the word. *)
Definition xx_ret_value (args sret : list Z) (c : cty) (x : ABIArgInfo) : outcome (list Z) :=
  if te_is_indirect x then rd sret 0 (csize c)
  else take (Z.to_nat (csize c)) <$> gather (λ r, rd args (x64_enum_2_ptr r) 8) (word_regs x).

(** The AArch64 one, when it is not in memory. *)
Definition aa_ret_value (env : CPUARMState) (c : cty) (a : ABIArgInfo) : outcome (list Z) :=
  match hfa c with
  | Some (s, _) => gather (λ r, rd_a64 env r (scalar_size s)) (word_regs a)
  | None => take (Z.to_nat (csize c)) <$> gather (λ r, rd_a64 env r 8) (word_regs a)
  end.

(** What the exit may change: X0 to X2 and the low parts of V0 to V3. *)
Definition ret_frame (env env' : CPUARMState) : Prop :=
  framed [(0, 24)] (xregs env) (xregs env') ∧
  framed ((λ k, (k * ZREG_SIZE, 16)) <$> [0; 1; 2; 3]) (zregs env) (zregs env').

Lemma ret_frame_refl env : ret_frame env env.
Proof. split; apply framed_refl. Qed.

Lemma ret_frame_trans e1 e2 e3 : ret_frame e1 e2 → ret_frame e2 e3 → ret_frame e1 e3.
Proof. intros [? ?] [? ?]. split; by eapply framed_trans. Qed.

(** ** Types of one float are HFAs *)

Lemma flatten_align c : Forall (λ s, scalar_size s ≤ calign c) (flatten c).
Proof.
  induction c as [s|fs IH] using cty_ind'; [by apply Forall_singleton|].
  induction IH as [|f fs Hf _ IH]; [constructor|]. rewrite flatten_cons, calign_struct_cons.
  apply Forall_app. split; eapply Forall_impl; [exact Hf| |exact IH|]; simpl; intros; lia.
Qed.

Lemma class_at_sse L k o s : is_sse_class (class_at L k) = true → (o, s) ∈ L → o / 8 = k → s ≠ SVoid → is_fp s = true.
Proof.
  intros Hc Hin Hk Hs. induction L as [|[o' s'] L IH]; [by apply not_elem_of_nil in Hin|].
  rewrite class_at_cons in Hc. simpl in Hc. apply elem_of_cons in Hin as [[= <- <-]|Hin].
  - rewrite (proj2 (Z.eqb_eq _ _) Hk) in Hc. revert Hc. unfold scalar_class.
    destruct s; try done; simpl; repeat case_match; destruct (class_at L k); by vm_compute.
  - destruct (o' / 8 =? k); [|by apply IH]. apply IH; [|done]. revert Hc.
    pose proof (class_at_some L o s k Hin Hk Hs) as Hn. pose proof (class_at_simple L k) as Hsim.
    destruct (scalar_class s' (o' mod 8)), (class_at L k); by vm_compute.
Qed.

Lemma one_float c : value_type c = true → csize c = 4 → sse_at (code_class c 0) 0 = true → hfa c = Some (SFloat, 1).
Proof.
  intros (Hw & Hv & Hf)%value_type_inv Hsz Hsse.
  rewrite code_class_fits in Hsse by (done || lia || apply Z.divide_0_r).
  assert (Forall (λ s, s = SFloat) (flatten c)) as Hall.
  { apply Forall_forall. intros s Hin. rewrite <- (leaves_flatten c 0) in Hin.
    apply list_elem_of_fmap in Hin as ([o s'] & -> & Hin). simpl.
    pose proof (leaves_range c 0 Hw (Z.divide_0_r _)) as Hr. rewrite Forall_forall in Hr. specialize (Hr _ Hin).
    assert (s' ∈ flatten c) as Hin'
      by (rewrite <- (leaves_flatten c 0); apply list_elem_of_fmap; by exists (o, s')).
    rewrite Forall_forall in Hv. specialize (Hv _ Hin').
    pose proof (flatten_align c) as Ha. rewrite Forall_forall in Ha. specialize (Ha _ Hin'). simpl in Ha.
    destruct (csize_pos_divide c Hw) as [? Hd]. apply Z.divide_pos_le in Hd; [|lia].
    unfold sse_at, eightbytes_from, words in Hsse. rewrite Hsz in Hsse. simpl in Hsse, Hr.
    assert (is_fp s' = true) as Hfp by (eapply class_at_sse; [exact Hsse|exact Hin| |done]; simpl; apply Z.div_small; lia).
    destruct s'; try done. simpl in Ha. lia. }
  destruct (homogeneous_layout c SFloat Hw Hall) as [_ Hl]. simpl scalar_size in Hl.
  assert (length (flatten c) = 1%nat) as Hl1 by lia. unfold hfa. destruct (flatten c) as [|s [|]]; try done.
  by apply Forall_cons in Hall as [-> _].
Qed.

(** ** Writes to the emulated registers *)

Lemma wr_bytes_ok l off bs l' : bytes_ok l → bytes_ok bs → wr l off bs = Ret l' → bytes_ok l'.
Proof.
  intros Hl Hbs (_ & _ & ->)%wr_inv. apply Forall_app. split; [by apply Forall_take|].
  apply Forall_app. split; [done|by apply Forall_drop].
Qed.

Section copies.
Context (args : list Z).
Hypothesis Hargs : bytes_ok args.

(** A copy of [n] bytes, to a general or to a vector register. *)
Lemma copy_x env a off src n bs : env_ok env → a64_enum_2_ptr a = Some (XPtr off) → 0 ≤ off → off + n ≤ 24 →
  0 ≤ n → rd args src n = Ret bs →
  ∃ env', copy_to_a64 env a args src n = Ret env' ∧ env_ok env' ∧ zregs env' = zregs env ∧
    framed [(off, n)] (xregs env) (xregs env') ∧ ∀ m, 0 ≤ m ≤ n → rd (xregs env') off m = Ret (take (Z.to_nat m) bs).
Proof.
  intros (Hx & Hz & Hbx & Hbz) Ha Hoff Hn Hn0 Hrd. pose proof (rd_length _ _ _ _ Hn0 Hrd) as Hl.
  destruct (wr_copy (xregs env) off bs) as (l & Hw & Hf & Hm); [done|lia|]. rewrite Hl in Hf, Hm.
  exists (mk_env l (zregs env)). unfold copy_to_a64, wr_a64. rewrite Hrd, Ha. cbn [mbind outcome_bind]. rewrite Hw.
  split_and!; try done. pose proof Hf as [Hll _]. split_and!; [simpl; lia|done| |done].
  eapply wr_bytes_ok; [|exact (rd_bytes_ok _ _ _ _ Hargs Hrd)|exact Hw]. done.
Qed.

Lemma copy_z env a k src n bs : env_ok env → a64_enum_2_ptr a = Some (ZPtr (k * ZREG_SIZE)) → 0 ≤ k < 4 → n ≤ 16 →
  0 ≤ n → rd args src n = Ret bs →
  ∃ env', copy_to_a64 env a args src n = Ret env' ∧ env_ok env' ∧ xregs env' = xregs env ∧
    framed [(k * ZREG_SIZE, 16)] (zregs env) (zregs env') ∧
    ∀ m, 0 ≤ m ≤ n → rd (zregs env') (k * ZREG_SIZE) m = Ret (take (Z.to_nat m) bs).
Proof.
  intros (Hx & Hz & Hbx & Hbz) Ha Hk Hn Hn0 Hrd. pose proof (rd_length _ _ _ _ Hn0 Hrd) as Hl.
  unfold ZREG_SIZE in *.
  destruct (wr_copy (zregs env) (k * 256) bs) as (l & Hw & Hf & Hm); [lia|lia|]. rewrite Hl in Hf, Hm.
  exists (mk_env (xregs env) l). unfold copy_to_a64, wr_a64. rewrite Hrd, Ha. cbn [mbind outcome_bind]. rewrite Hw.
  split_and!; try done. 2: { apply (framed_wr _ _ _ _ _ _ Hw); lia. }
  pose proof Hf as [Hll _]. split_and!; [done|simpl; unfold ZREG_SIZE; lia|done|].
  eapply wr_bytes_ok; [|exact (rd_bytes_ok _ _ _ _ Hargs Hrd)|exact Hw]. done.
Qed.

(** Consecutive vector registers from the given sources, [n] bytes each. *)
Fixpoint put_all (base n k : Z) (srcs : list Z) (env : CPUARMState) : outcome CPUARMState :=
  match srcs with
  | [] => Ret env
  | s :: srcs => env ← copy_to_a64 env (base + k) args s n; put_all base n (k + 1) srcs env
  end.

Lemma vreg_ptr base k : base = TE_S0 ∨ base = TE_D0 → 0 ≤ k < 4 →
  a64_enum_2_ptr (base + k) = Some (ZPtr (k * ZREG_SIZE)).
Proof.
  intros Hb Hk. assert (k = 0 ∨ k = 1 ∨ k = 2 ∨ k = 3) as H by lia. destruct Hb as [->| ->]; by destruct_or! H; subst.
Qed.

Lemma vreg_keep k k' m l l' : framed [(k * ZREG_SIZE, 16)] l l' → k ≠ k' → 0 ≤ m ≤ 16 →
  rd l' (k' * ZREG_SIZE) m = rd l (k' * ZREG_SIZE) m.
Proof.
  intros [_ Hf] Hk Hm. apply Hf. constructor; [|constructor]. unfold ZREG_SIZE. cbn [fst snd].
  assert (k < k' ∨ k' < k) by lia. lia.
Qed.

Lemma vreg_frame k l l' : 0 ≤ k < 4 → framed [(k * ZREG_SIZE, 16)] l l' →
  framed ((λ k, (k * ZREG_SIZE, 16)) <$> [0; 1; 2; 3]) l l'.
Proof.
  intros Hk [? Hf]. split; [done|]. intros off n Ho. apply Hf. constructor; [|constructor].
  unfold outside in Ho. rewrite Forall_fmap, Forall_forall in Ho. apply (Ho k).
  assert (k = 0 ∨ k = 1 ∨ k = 2 ∨ k = 3) as Hk4 by lia. destruct_or! Hk4; subst; set_solver.
Qed.

Lemma put_all_ok base n srcs k env : base = TE_S0 ∨ base = TE_D0 → 0 ≤ n ≤ 16 → env_ok env →
  0 ≤ k → k + Z.of_nat (length srcs) ≤ 4 → Forall (λ s, ∃ bs, rd args s n = Ret bs) srcs →
  ∃ env', put_all base n k srcs env = Ret env' ∧ env_ok env' ∧ ret_frame env env' ∧
    (∀ k' m, 0 ≤ k' < k → 0 ≤ m ≤ 16 → rd (zregs env') (k' * ZREG_SIZE) m = rd (zregs env) (k' * ZREG_SIZE) m) ∧
    ∀ m, 0 ≤ m ≤ n → gather (λ r, rd_a64 env' r m) (seqZ (base + k) (Z.of_nat (length srcs))) =
      gather (λ s, rd args s m) srcs.
Proof.
  intros Hbase Hn. revert k env. induction srcs as [|s srcs IH]; intros k env He Hk Hlen Hall.
  { exists env. split_and!; [done|done|apply ret_frame_refl|done|done]. }
  apply Forall_cons in Hall as [[bs Hbs] Hall]. simpl length in Hlen |- *.
  pose proof (vreg_ptr base k Hbase ltac:(lia)) as Hp.
  destruct (copy_z env (base + k) k s n bs He Hp) as (env1 & Hc & He1 & Hx1 & Hf1 & Hr1); [lia|lia|lia|done|].
  destruct (IH (k + 1) env1 He1) as (env2 & Hrun & He2 & Hf2 & Hold & Hnew); [lia|lia|done|].
  exists env2. cbn [put_all]. rewrite Hc. cbn [mbind outcome_bind]. split_and!; [done|done| | |].
  - eapply ret_frame_trans; [|exact Hf2]. split; [rewrite Hx1; apply framed_refl|]. by apply (vreg_frame k); [lia|].
  - intros k' m Hk' Hm. rewrite Hold by lia. apply (vreg_keep k k' m _ _ Hf1); lia.
  - intros m Hm. rewrite seqZ_S. cbn [gather]. replace (base + k + 1) with (base + (k + 1)) by lia.
    rewrite Hnew by done. unfold rd_a64 at 1. rewrite Hp, Hold, Hr1 by lia.
    by rewrite (rd_take args s n m bs Hbs) by lia.
Qed.
End copies.

(** ** The cases of the return value *)

Section exit_cases.
Context (args sret : list Z).
Hypothesis Hargs : bytes_ok args.
Hypothesis Hsret : bytes_ok sret.
Hypothesis Hlen : SIZEOF_REGISTER_ARGS ≤ Z.of_nat (length args).

Definition ret_moved (c : cty) (x a : ABIArgInfo) (env env' : CPUARMState) : Prop :=
  env_ok env' ∧ ret_frame env env' ∧
  ∃ v, xx_ret_value args sret c x = Ret v ∧ aa_ret_value env' c a = Ret v.

Lemma args_readable off n : 0 ≤ off → 0 ≤ n → off + n ≤ 184 → ∃ bs, rd args off n = Ret bs.
Proof. intros. unfold SIZEOF_REGISTER_ARGS in Hlen. rewrite rd_ok by lia. by eexists. Qed.

(** One general register from a complete x86-64 register. *)
Definition wide_reg (x : Z) : Prop :=
  x = TE_RAX ∨ x = TE_EAX ∨ x = TE_RDX ∨ x = TE_XMM0 ∨ x = TE_XMM1.

Definition ret_step (env : CPUARMState) (x li a : Z) : outcome CPUARMState :=
  if is_xmm x then copy_to_a64 env a args (x64_enum_2_ptr x) 16
  else env ← copy_to_a64 env a args (x64_enum_2_ptr x) 8; extend_ret_a64 env a x li.

Lemma ret_step_x env x li a off : env_ok env → a64_enum_2_ptr a = Some (XPtr off) → off = 0 ∨ off = 8 → wide_reg x →
  ∃ env', ret_step env x li a = Ret env' ∧ env_ok env' ∧ zregs env' = zregs env ∧
    framed [(off, 16)] (xregs env) (xregs env') ∧ rd (xregs env') off 8 = rd args (x64_enum_2_ptr x) 8.
Proof.
  intros He Ha Hoff Hx.
  assert (0 ≤ x64_enum_2_ptr x ∧ x64_enum_2_ptr x + (if is_xmm x then 16 else 8) ≤ 184) as [H0 H1]
    by (destruct_or! Hx; subst x; vm_compute; split; congruence).
  unfold ret_step. destruct (is_xmm x) eqn:Hxmm.
  - destruct (args_readable (x64_enum_2_ptr x) 16) as [bs Hbs]; [lia..|].
    destruct (copy_x args Hargs env a off (x64_enum_2_ptr x) 16 bs He Ha) as (env' & Hc & He' & Hz & Hf & Hr); [lia..|done|].
    exists env'. split_and!; try done. rewrite Hr by lia. symmetry. by apply (rd_take args _ 16).
  - destruct (args_readable (x64_enum_2_ptr x) 8) as [bs Hbs]; [lia..|].
    destruct (copy_x args Hargs env a off (x64_enum_2_ptr x) 8 bs He Ha) as (env' & Hc & He' & Hz & Hf & Hr); [lia..|done|].
    exists env'. rewrite Hc. cbn [mbind outcome_bind]. split_and!; try done.
    + unfold extend_ret_a64. rewrite Ha. destruct env'. by destruct_or! Hx; subst x.
    + eapply framed_widen; [exact Hf|lia..].
    + rewrite Hr, Hbs by lia. pose proof (rd_length _ _ 8 _ ltac:(lia) Hbs). by rewrite take_ge by lia.
Qed.

Lemma x_frame env env' off : off = 0 ∨ off = 8 → zregs env' = zregs env →
  framed [(off, 16)] (xregs env) (xregs env') → ret_frame env env'.
Proof.
  intros Hoff Hz Hf. split; [|rewrite Hz; apply framed_refl]. eapply framed_widen; [exact Hf|lia..].
Qed.

(** One complete register. *)
Lemma ret_one_x c x li a env : hfa c = None → env_ok env → wide_reg x → a = TE_W0 ∨ a = TE_X0 →
  pairs_ok [(x, li)] → ∃ env', ret_direct args (slot_info (InRegs [(x, li)]) false 0) (slot_info (InRegs [(a, 0)]) false 0) env = Ret env' ∧
    ret_moved c (slot_info (InRegs [(x, li)]) false 0) (slot_info (InRegs [(a, 0)]) false 0) env env'.
Proof.
  intros Hh He Hx Ha Hok. assert (a64_enum_2_ptr a = Some (XPtr 0)) as Hp by (destruct Ha; by subst a).
  assert (pairs_ok [(a, 0)]) as Haok by (destruct Ha; subst a; by repeat constructor).
  destruct (ret_step_x env x li a 0 He Hp (or_introl eq_refl) Hx) as (env' & Hs & He' & Hz & Hf & Hr).
  exists env'. split.
  - unfold ret_direct. rewrite !slot_regs_num by (done || simpl; lia). cbn [length]. rewrite Z.eqb_refl, Nat2Z.id.
    cbn [ret_one_by_one].
    destruct (names_cons _ _ _ _ _ (names_slot [(x, li)] false 0 Hok ltac:(simpl; lia))) as (-> & -> & _).
    destruct (names_cons _ _ _ _ _ (names_slot [(a, 0)] false 0 Haok ltac:(simpl; lia))) as (-> & _ & _).
    cbn [mbind outcome_bind]. unfold ret_step in Hs. by rewrite Hs.
  - split_and!; [done|by eapply x_frame; [left|..]|]. unfold xx_ret_value, aa_ret_value. rewrite Hh.
    destruct (slot_regs_flags [(x, li)] false 0) as [_ ->]. rewrite !word_regs_slot by (done || simpl; lia).
    cbn [gather fmap list_fmap fst]. unfold rd_a64. rewrite Hp, Hr.
    destruct (args_readable (x64_enum_2_ptr x) 8) as [bs Hbs]; [destruct_or! Hx; subst x; vm_compute; congruence..|].
    rewrite Hbs. by eexists.
Qed.

(** Two complete registers. *)
Lemma ret_two_x c x y env : hfa c = None → env_ok env → wide_reg x → wide_reg y →
  pairs_ok [(x, TE_Full); (y, TE_Full)] →
  let xx := slot_info (InRegs [(x, TE_Full); (y, TE_Full)]) false 0 in
  let aa := slot_info (InRegs [(TE_X0, 0); (TE_X1, 0)]) false 0 in
  ∃ env', ret_direct args xx aa env = Ret env' ∧ ret_moved c xx aa env env'.
Proof.
  intros Hh He Hx Hy Hok xx aa. assert (pairs_ok [(TE_X0, 0); (TE_X1, 0)]) as Haok by (by repeat constructor).
  destruct (ret_step_x env x TE_Full TE_X0 0 He eq_refl (or_introl eq_refl) Hx) as (env1 & Hs & He1 & Hz & Hf & Hr).
  destruct (ret_step_x env1 y TE_Full TE_X1 8 He1 eq_refl (or_intror eq_refl) Hy) as (env2 & Hs2 & He2 & Hz2 & Hf2 & Hr2).
  exists env2. split.
  - unfold ret_direct, xx, aa. rewrite !slot_regs_num by (done || simpl; lia). cbn [length]. rewrite Z.eqb_refl, Nat2Z.id.
    cbn [ret_one_by_one].
    destruct (names_cons _ _ _ _ _ (names_slot [(x, TE_Full); (y, TE_Full)] false 0 Hok ltac:(simpl; lia))) as (-> & -> & Hn).
    destruct (names_cons _ _ _ _ _ Hn) as (-> & -> & _).
    destruct (names_cons _ _ _ _ _ (names_slot [(TE_X0, 0); (TE_X1, 0)] false 0 Haok ltac:(simpl; lia))) as (-> & _ & Hna).
    destruct (names_cons _ _ _ _ _ Hna) as (-> & _ & _).
    cbn [mbind outcome_bind]. unfold ret_step in Hs, Hs2. rewrite Hs. cbn [mbind outcome_bind]. by rewrite Hs2.
  - split_and!; [done|eapply ret_frame_trans; [by eapply x_frame; [left|..]|by eapply x_frame; [right|..]]|].
    unfold xx_ret_value, aa_ret_value, xx, aa. rewrite Hh.
    destruct (slot_regs_flags [(x, TE_Full); (y, TE_Full)] false 0) as [_ ->]. rewrite !word_regs_slot by (done || simpl; lia).
    cbn [gather fmap list_fmap fst]. unfold rd_a64. change (a64_enum_2_ptr TE_X0) with (Some (XPtr 0)).
    change (a64_enum_2_ptr TE_X1) with (Some (XPtr 8)). cbv beta iota. rewrite Hr2.
    destruct Hf2 as [_ Hf2]. rewrite Hf2, Hr by (constructor; [cbn [fst snd]; lia|constructor]).
    destruct (args_readable (x64_enum_2_ptr x) 8) as [bs ->]; [destruct_or! Hx; subst x; vm_compute; congruence..|].
    destruct (args_readable (x64_enum_2_ptr y) 8) as [cs ->]; [destruct_or! Hy; subst y; vm_compute; congruence..|].
    by eexists.
Qed.

(** A narrow integer is extended to 32 bits on the way. *)
Definition narrow_ret (s : scalar) : Prop := s = SU8 ∨ s = SS8 ∨ s = SU16 ∨ s = SS16.

(** The four bytes a narrow value [bs] is extended to. *)
Definition extended (s : scalar) (bs : list Z) : list Z :=
  le_bytes 4 (if bool_decide (s = SS8 ∨ s = SS16) then sext (8 * scalar_size s) (le_val bs) else le_val bs).

Lemma ret_narrow s env : narrow_ret s → env_ok env →
  let xx := slot_info (InRegs (xx_ret_regs (CScalar s))) false 0 in
  let aa := slot_info (InRegs [(TE_W0, 0)]) false 0 in
  ∃ env', ret_direct args xx aa env = Ret env' ∧ ret_moved (CScalar s) xx aa env env' ∧
    ∃ v, rd args OFF_RAX (scalar_size s) = Ret v ∧ rd_a64 env' TE_W0 4 = Ret (extended s v).
Proof.
  intros Hs He xx aa. destruct (args_readable 176 8) as [bs Hbs]; [lia..|].
  destruct (copy_x args Hargs env TE_W0 0 176 8 bs He eq_refl) as (env1 & Hc & He1 & Hz & Hf & Hr); [lia..|done|].
  set (w := scalar_size s). assert (w = 1 ∨ w = 2) as Hw by (destruct_or! Hs; subst s; auto).
  pose proof He1 as (Hxl & Hzl & Hbx & Hbz). pose proof (rd_length _ _ 8 _ ltac:(lia) Hbs) as Hl8.
  assert (bytes_ok (take (Z.to_nat w) bs)) as Hbt by (apply Forall_take; exact (rd_bytes_ok _ _ _ _ Hargs Hbs)).
  destruct (extend_in_place_ok w (bool_decide (s = SS8 ∨ s = SS16)) (xregs env1) 0 (take (Z.to_nat w) bs) Hw)
    as (l & Hex & Hfl & Hrl & Hrl4); [apply Hr; lia|done|lia|].
  exists (mk_env l (zregs env1)). split_and!.
  - unfold xx, aa. assert (∃ x li, xx_ret_regs (CScalar s) = [(x, li)] ∧ pairs_ok [(x, li)] ∧ is_xmm x = false ∧
      x64_enum_2_ptr x = 176 ∧ extend_ret_by_reg_loc_info (xregs env1) 0 x li = Ret l) as (x & li & -> & Hok & Hxmm & Hpx & Hxt).
    { destruct_or! Hs; subst s; do 2 eexists; (split; [reflexivity|]); (split; [by repeat constructor|]);
        (split; [done|]); (split; [done|]); exact Hex. }
    assert (pairs_ok [(TE_W0, 0)]) as Haok by (by repeat constructor).
    unfold ret_direct. rewrite !slot_regs_num by (done || simpl; lia). cbn [length]. rewrite Z.eqb_refl, Nat2Z.id.
    cbn [ret_one_by_one].
    destruct (names_cons _ _ _ _ _ (names_slot [(x, li)] false 0 Hok ltac:(simpl; lia))) as (-> & -> & _).
    destruct (names_cons _ _ _ _ _ (names_slot [(TE_W0, 0)] false 0 Haok ltac:(simpl; lia))) as (-> & _ & _).
    cbn [mbind outcome_bind]. rewrite Hxmm, Hpx, Hc. cbn [mbind outcome_bind]. unfold extend_ret_a64.
    change (a64_enum_2_ptr TE_W0) with (Some (XPtr 0)). cbv iota. by rewrite Hxt.
  - split_and!; [split_and!; [simpl; destruct Hfl as [-> _]; lia|done| |done]|split|].
    + simpl. unfold extend_in_place in Hex. destruct (rd (xregs env1) 0 w); [|done].
      exact (wr_bytes_ok _ _ _ _ Hbx (le_bytes_ok _ _) Hex).
    + eapply framed_trans; [eapply (framed_widen 0 8); [exact Hf|lia..]|].
      eapply (framed_widen 0 8); [exact Hfl|lia..].
    + simpl zregs. rewrite Hz. apply framed_refl.
    + unfold xx_ret_value, aa_ret_value, xx, aa.
      assert (∃ x li, xx_ret_regs (CScalar s) = [(x, li)] ∧ pairs_ok [(x, li)] ∧ x64_enum_2_ptr x = 176 ∧
        hfa (CScalar s) = None) as (x & li & -> & Hok & Hpx & ->).
      { destruct_or! Hs; subst s; do 2 eexists; (split; [reflexivity|]); split_and!; try done; by repeat constructor. }
      destruct (slot_regs_flags [(x, li)] false 0) as [_ ->]. rewrite !word_regs_slot by (done || simpl; lia || by repeat constructor).
      cbn [gather fmap list_fmap fst]. rewrite Hpx, Hbs. unfold rd_a64. change (a64_enum_2_ptr TE_W0) with (Some (XPtr 0)).
      cbn [xregs]. destruct (rd l 0 8) as [b8|] eqn:H8; [|rewrite rd_ok in H8; [done|lia|destruct Hfl as [-> _]; lia]].
      pose proof (rd_take l 0 8 w b8 H8 ltac:(lia)) as H8w. rewrite Hrl in H8w. injection H8w as H8w.
      cbn [mbind outcome_bind fmap outcome_fmap]. rewrite !app_nil_r. exists (take (Z.to_nat w) bs).
      split; [done|]. by rewrite H8w.
  - exists (take (Z.to_nat w) bs). split; [by apply (rd_take args 176 8); [|lia]|]. exact Hrl4.
Qed.

(** Vector registers, from the saved SSE registers or from the buffer [l]. *)
Lemma ret_vector run l c s n base w srcs xx aa env v : run = put_all l base w 0 srcs env → bytes_ok l → env_ok env →
  hfa c = Some (s, n) → base = TE_S0 ∨ base = TE_D0 → scalar_size s ≤ w ≤ 16 → (length srcs ≤ 4)%nat →
  word_regs aa = seqZ (base + 0) (Z.of_nat (length srcs)) → Forall (λ o, ∃ bs, rd l o w = Ret bs) srcs →
  xx_ret_value args sret c xx = Ret v → gather (λ o, rd l o (scalar_size s)) srcs = Ret v →
  ∃ env', run = Ret env' ∧ ret_moved c xx aa env env'.
Proof.
  intros -> Hl He Hh Hb Hw Hlen4 Haa Hall Hx Hv. pose proof (scalar_size_range s).
  destruct (put_all_ok l Hl base w srcs 0 env Hb ltac:(lia) He) as (env' & Hrun & He' & Hf & _ & Hg); [lia|lia|done|].
  exists env'. split; [done|]. split_and!; [done|done|]. exists v. split; [done|].
  unfold aa_ret_value. by rewrite Hh, Haa, Hg by lia.
Qed.

Lemma rd_halves (l : list Z) off n m bs : 0 ≤ n → 0 ≤ m → rd l off (n + m) = Ret bs →
  rd l off n = Ret (take (Z.to_nat n) bs) ∧ rd l (off + n) m = Ret (drop (Z.to_nat n) bs).
Proof.
  intros Hn Hm Hrd. split; [by apply (rd_take l off (n + m)); [|lia]|].
  pose proof (rd_inv _ _ _ _ Hrd) as (H0 & H1 & ->). rewrite rd_ok by lia. f_equal.
  rewrite skipn_firstn_comm, drop_drop. f_equal; [lia|]. f_equal. lia.
Qed.

Lemma sse_pair : ∃ b0 b1, rd args 48 8 = Ret b0 ∧ rd args 64 8 = Ret b1 ∧ length b0 = 8%nat ∧ length b1 = 8%nat ∧
  rd args 48 4 = Ret (take 4 b0) ∧ rd args 52 4 = Ret (drop 4 b0) ∧
  rd args 64 4 = Ret (take 4 b1) ∧ rd args 68 4 = Ret (drop 4 b1).
Proof.
  destruct (args_readable 48 8) as [b0 H0]; [lia..|]. destruct (args_readable 64 8) as [b1 H1]; [lia..|].
  pose proof (rd_length _ _ 8 _ ltac:(lia) H0). pose proof (rd_length _ _ 8 _ ltac:(lia) H1).
  destruct (rd_halves args 48 4 4 b0 ltac:(lia) ltac:(lia) H0) as [? ?].
  destruct (rd_halves args 64 4 4 b1 ltac:(lia) ltac:(lia) H1) as [? ?].
  exists b0, b1. split_and!; (done || lia).
Qed.

Lemma sse_readable n : 0 ≤ n ≤ 16 → Forall (λ o, ∃ bs, rd args o n = Ret bs) [48; 52; 64; 68].
Proof. intros Hn. repeat constructor; apply args_readable; lia. Qed.

(** The return registers of a small HFA. *)
Lemma hfa_ret_regs c s n : value_type c = true → hfa c = Some (s, n) → csize c ≤ 16 →
  csize c = scalar_size s * n ∧ (s = SFloat ∧ (n = 1 ∨ n = 2 ∨ n = 3 ∨ n = 4) ∨ s = SDouble ∧ (n = 1 ∨ n = 2)) ∧
  xx_ret_regs c = (if csize c <=? 8 then [(TE_XMM0, TE_Full)] else [(TE_XMM0, TE_Full); (TE_XMM1, TE_Full)]) ∧
  aa_ret_place c = InRegs (reg_seq (if decide (s = SFloat) then TE_S0 else TE_D0) n).
Proof.
  intros Hval Hh Hsz. destruct (hfa_inv _ _ _ Hh) as [Hfp Hn].
  destruct (hfa_size c s n (value_wf c Hval) Hh) as [Hcs _].
  assert (s = SFloat ∧ (n = 1 ∨ n = 2 ∨ n = 3 ∨ n = 4) ∨ s = SDouble ∧ (n = 1 ∨ n = 2)) as Hcase.
  { destruct s; try done; simpl in Hcs; [left|right]; split; (done || lia). }
  split_and!; [done|done| |unfold aa_ret_place; rewrite Hh; by destruct s].
  unfold xx_ret_regs. rewrite (proj2 (Z.ltb_ge 16 (csize c))) by lia.
  destruct c as [s'|fs]; [by destruct s'; simplify_eq/=|].
  unfold xx_ret_struct_regs. rewrite (hfa_code_class _ s n Hval Hh), Hcs.
  destruct Hcase as [[-> Hn']|[-> Hn']]; destruct_or! Hn'; subst n; by vm_compute.
Qed.

Lemma bind_ret_r {A} (m : outcome A) : m ≫= Ret = m.
Proof. by destruct m. Qed.

(** The runs of the direct case, as sequences of copies. *)
Lemma ret_direct_runs env :
  let x1 := slot_info (InRegs [(TE_XMM0, TE_Full)]) false 0 in
  let x2 := slot_info (InRegs [(TE_XMM0, TE_Full); (TE_XMM1, TE_Full)]) false 0 in
  let a b n := slot_info (InRegs (reg_seq b n)) false 0 in
  ret_direct args x1 (a TE_S0 1) env = put_all args TE_S0 16 0 [48] env ∧
  ret_direct args x1 (a TE_S0 2) env = put_all args TE_S0 4 0 [48; 52] env ∧
  ret_direct args x2 (a TE_S0 3) env = put_all args TE_S0 4 0 [48; 52; 64] env ∧
  ret_direct args x2 (a TE_S0 4) env = put_all args TE_S0 4 0 [48; 52; 64; 68] env ∧
  ret_direct args x1 (a TE_D0 1) env = put_all args TE_D0 16 0 [48] env ∧
  ret_direct args x2 (a TE_D0 2) env = put_all args TE_D0 16 0 [48; 64] env.
Proof.
  assert (∀ (f : CPUARMState → outcome CPUARMState) m m', m = m' → m ≫= f = m' ≫= (λ e, f e ≫= Ret)) as Hlast.
  { intros f m m' ->. destruct m'; [|done]. cbn [mbind outcome_bind]. by rewrite bind_ret_r. }
  assert (∀ (f g : CPUARMState → outcome CPUARMState) m, (∀ e, f e = g e) → m ≫= f = m ≫= g) as Hext.
  { intros f g m Hfg. destruct m; [|done]. apply Hfg. }
  intros x1 x2 a. split_and!; try reflexivity.
  - exact (Hlast (λ env, copy_to_a64 env (TE_S0 + 1) args 52 4) (copy_to_a64 env TE_S0 args 48 4) _ eq_refl).
  - apply (Hext (λ env, copy_to_a64 env (TE_S0 + 1) args 52 4 ≫= λ env, copy_to_a64 env (TE_S0 + 2) args 64 4 ≫=
      λ env, copy_to_a64 env (TE_S0 + 3) args 68 4) _ (copy_to_a64 env TE_S0 args 48 4)). intros e1.
    apply (Hext (λ env, copy_to_a64 env (TE_S0 + 2) args 64 4 ≫= λ env, copy_to_a64 env (TE_S0 + 3) args 68 4)).
    intros e2. exact (Hlast (λ env, copy_to_a64 env (TE_S0 + 3) args 68 4) _ _ eq_refl).
Qed.

Lemma xx_value_small c rs : pairs_ok rs → (length rs ≤ 4)%nat →
  xx_ret_value args sret c (slot_info (InRegs rs) false 0) =
    take (Z.to_nat (csize c)) <$> gather (λ r, rd args (x64_enum_2_ptr r) 8) rs.*1.
Proof.
  intros Hok Hl. unfold xx_ret_value. destruct (slot_regs_flags rs false 0) as [_ ->]. by rewrite word_regs_slot.
Qed.

Lemma ret_hfa_case c s n base w srcs rs env v : hfa c = Some (s, n) → env_ok env → base = TE_S0 ∨ base = TE_D0 →
  scalar_size s ≤ w ≤ 16 → (length srcs ≤ 4)%nat → Forall (λ o, 0 ≤ o ≤ 68) srcs → pairs_ok rs → (length rs ≤ 4)%nat →
  let xx := slot_info (InRegs rs) false 0 in let aa := slot_info (InRegs (reg_seq base n)) false 0 in
  ret_direct args xx aa env = put_all args base w 0 srcs env → word_regs aa = seqZ (base + 0) (Z.of_nat (length srcs)) →
  take (Z.to_nat (csize c)) <$> gather (λ r, rd args (x64_enum_2_ptr r) 8) rs.*1 = Ret v →
  gather (λ o, rd args o (scalar_size s)) srcs = Ret v →
  ∃ env', ret_direct args xx aa env = Ret env' ∧ ret_moved c xx aa env env'.
Proof.
  intros Hh He Hb Hw Hl Hs Hok Hl4 xx aa Hrun Haa Hx Hv. pose proof (scalar_size_range s).
  eapply ret_vector; try done; [|by unfold xx; rewrite xx_value_small].
  eapply Forall_impl; [exact Hs|]. simpl. intros o Ho. apply args_readable; lia.
Qed.

Lemma ret_hfa_small c s n env : value_type c = true → hfa c = Some (s, n) → csize c ≤ 16 → env_ok env →
  let xx := slot_info (InRegs (xx_ret_regs c)) false 0 in
  let aa := slot_info (aa_ret_place c) false 0 in
  ∃ env', ret_direct args xx aa env = Ret env' ∧ ret_moved c xx aa env env'.
Proof.
  intros Hval Hh Hsz He. destruct (hfa_ret_regs c s n Hval Hh Hsz) as (Hcs & Hcase & -> & ->).
  destruct sse_pair as (b0 & b1 & H0 & H1 & L0 & L1 & H48 & H52 & H64 & H68).
  destruct (ret_direct_runs env) as (R1 & R2 & R3 & R4 & R5 & R6). cbv zeta in *.
  assert (pairs_ok [(TE_XMM0, TE_Full)] ∧ pairs_ok [(TE_XMM0, TE_Full); (TE_XMM1, TE_Full)]) as [P1 P2]
    by (split; by repeat constructor).
  assert (∀ l, take 4 b0 ++ drop 4 b0 ++ l = b0 ++ l) as T0 by (intros l; by rewrite (assoc _), take_drop).
  assert (take 4 b1 ++ drop 4 b1 = b1) as T1 by (by rewrite take_drop).
  destruct Hcase as [[-> Hn]|[-> Hn]]; destruct_or! Hn; subst n; rewrite Hcs;
    [refine (ret_hfa_case c SFloat 1 TE_S0 16 [48] _ env (take 4 b0) Hh He (or_introl eq_refl) _ _ _ P1 _ R1 _ _ _)
    |refine (ret_hfa_case c SFloat 2 TE_S0 4 [48; 52] _ env b0 Hh He (or_introl eq_refl) _ _ _ P1 _ R2 _ _ _)
    |refine (ret_hfa_case c SFloat 3 TE_S0 4 [48; 52; 64] _ env (b0 ++ take 4 b1) Hh He (or_introl eq_refl) _ _ _ P2 _ R3 _ _ _)
    |refine (ret_hfa_case c SFloat 4 TE_S0 4 [48; 52; 64; 68] _ env (b0 ++ b1) Hh He (or_introl eq_refl) _ _ _ P2 _ R4 _ _ _)
    |refine (ret_hfa_case c SDouble 1 TE_D0 16 [48] _ env b0 Hh He (or_intror eq_refl) _ _ _ P1 _ R5 _ _ _)
    |refine (ret_hfa_case c SDouble 2 TE_D0 16 [48; 64] _ env (b0 ++ b1) Hh He (or_intror eq_refl) _ _ _ P2 _ R6 _ _ _)].
  all: lazymatch goal with
    | |- _ ≤ _ ≤ _ => simpl; lia
    | |- (_ <= _)%nat => simpl; lia
    | |- Forall _ _ => repeat constructor; lia
    | |- word_regs _ = _ => by vm_compute
    | |- gather _ _ = _ => cbn [gather scalar_size]; rewrite ?H48, ?H52, ?H64, ?H68, ?H0, ?H1; cbn [mbind outcome_bind]
    | |- _ <$> _ = _ => cbn [gather fmap list_fmap fst]; change (x64_enum_2_ptr TE_XMM0) with 48;
        change (x64_enum_2_ptr TE_XMM1) with 64; rewrite H0, ?H1, Hcs; cbn [mbind outcome_bind fmap outcome_fmap]
    end; rewrite !app_nil_r, ?T0, ?T1; try reflexivity; f_equal.
  - by rewrite take_ge by (simpl; lia).
  - by rewrite take_drop.
  - rewrite take_app_ge by (simpl; lia). by rewrite L0.
  - by rewrite take_ge by (rewrite length_app; simpl; lia).
  - by rewrite take_ge by (simpl; lia).
  - by rewrite take_ge by (rewrite length_app; simpl; lia).
Qed.

(** Three or four doubles come back in the buffer. *)
Lemma ret_hfa_large c s n env : value_type c = true → hfa c = Some (s, n) → 16 < csize c → env_ok env →
  csize c ≤ Z.of_nat (length sret) →
  let xx := slot_info (InRegs (xx_ret_regs c)) true 0 in
  let aa := slot_info (aa_ret_place c) false 0 in
  ∃ env', ret_from_sret sret aa env = Ret env' ∧ ret_moved c xx aa env env'.
Proof.
  intros Hval Hh Hsz He Hsl xx aa. destruct (hfa_inv _ _ _ Hh) as [Hfp Hn].
  destruct (hfa_size c s n (value_wf c Hval) Hh) as [Hcs _].
  assert (s = SDouble ∧ (n = 3 ∨ n = 4)) as [-> Hn34] by (destruct s; try done; simpl in Hcs; split; (done || lia)).
  change (scalar_size SDouble) with 8 in Hcs.
  destruct (rd sret 0 (csize c)) as [v|] eqn:Hv; [|by rewrite rd_ok in Hv by lia].
  assert (xx_ret_value args sret c xx = Ret v) as Hx
    by (unfold xx_ret_value, xx; by destruct (slot_regs_flags (xx_ret_regs c) true 0) as [_ ->]).
  assert (∀ o, 0 ≤ o → o + 8 ≤ csize c → rd sret o 8 = Ret (take 8 (drop (Z.to_nat o) v))) as Hw.
  { intros o Ho Ho8. destruct (rd_halves sret 0 o (csize c - o) v) as [_ H2]; [lia..|by rewrite <- Hv; f_equal; lia|].
    apply (rd_take sret o (csize c - o)); [|lia]. by rewrite <- H2. }
  pose proof (rd_length sret 0 (csize c) v ltac:(lia) Hv) as Hvl.
  assert (aa_ret_place c = InRegs (reg_seq TE_D0 n)) as Ha by (unfold aa_ret_place; by rewrite Hh).
  unfold aa. rewrite Ha.
  destruct Hn34; subst n;
    [refine (ret_vector _ sret c SDouble 3 TE_D0 8 [0; 8; 16] _ _ env v eq_refl Hsret He Hh (or_intror eq_refl) _ _ _ _ Hx _)
    |refine (ret_vector _ sret c SDouble 4 TE_D0 8 [0; 8; 16; 24] _ _ env v eq_refl Hsret He Hh (or_intror eq_refl) _ _ _ _ Hx _)].
  all: lazymatch goal with
    | |- _ ≤ _ ≤ _ => simpl; lia
    | |- (_ <= _)%nat => simpl; lia
    | |- Forall _ _ => repeat constructor; eexists; apply Hw; lia
    | |- word_regs _ = _ => by vm_compute
    | |- gather _ _ = _ => cbn [gather scalar_size]; rewrite !Hw by lia; cbn [mbind outcome_bind]; f_equal
    end.
  all: rewrite app_nil_r; do 24 (destruct v as [|? v]; [simpl in Hvl; lia|]).
  - destruct v; [done|simpl in Hvl; lia].
  - do 8 (destruct v as [|? v]; [simpl in Hvl; lia|]). destruct v; [done|simpl in Hvl; lia].
Qed.

(** A type a function can return. *)
Definition return_type (c : cty) : Prop := value_type c = true ∨ c = CScalar SVoid.

Lemma ret_scalar s env : hfa (CScalar s) = None → env_ok env →
  let xx := slot_info (InRegs (xx_ret_regs (CScalar s))) false 0 in
  let aa := slot_info (aa_ret_place (CScalar s)) false 0 in
  ∃ env', ret_direct args xx aa env = Ret env' ∧ ret_moved (CScalar s) xx aa env env'.
Proof.
  intros Hh He xx aa. unfold xx, aa.
  destruct (decide (s = SVoid)) as [->|Hv].
  { exists env. split; [done|]. split_and!; [done|apply ret_frame_refl|]. by exists []. }
  destruct (decide (narrow_ret s)) as [Hn|Hn].
  { destruct (ret_narrow s env Hn He) as (env' & Hrun & Hm & _). exists env'.
    by destruct_or! Hn; subst s. }
  destruct s; try done; try (by destruct Hn; unfold narrow_ret; auto);
    apply ret_one_x; (done || (by unfold wide_reg; auto) || (by left) || (by right) || by repeat constructor).
Qed.

Lemma ret_struct fs env : value_type (CStruct fs) = true → hfa (CStruct fs) = None → csize (CStruct fs) ≤ 16 → env_ok env →
  let xx := slot_info (InRegs (xx_ret_regs (CStruct fs))) false 0 in
  let aa := slot_info (aa_ret_place (CStruct fs)) false 0 in
  ∃ env', ret_direct args xx aa env = Ret env' ∧ ret_moved (CStruct fs) xx aa env env'.
Proof.
  intros Hval Hh Hsz He. unfold xx_ret_regs, aa_ret_place, xx_ret_struct_regs.
  rewrite Hh, (proj2 (Z.ltb_ge 16 _)) by lia. cbv iota.
  destruct ((csize (CStruct fs) =? 4) && sse_at (code_class (CStruct fs) 0) 0) eqn:H4.
  { apply andb_prop in H4 as [H4 Hs]. apply Z.eqb_eq in H4. by rewrite (one_float _ Hval H4 Hs) in Hh. }
  destruct (csize (CStruct fs) =? 8).
  - change (reg_seq TE_X0 1) with [(TE_X0, 0)].
    apply ret_one_x; [done|done|unfold wide_reg; case_match; auto 6|by right|case_match; by repeat constructor].
  - change (reg_seq TE_X0 2) with [(TE_X0, 0); (TE_X1, 0)].
    destruct (sse_at _ 0), (sse_at _ 1); apply ret_two_x; try done; try (unfold wide_reg; by auto 6); by repeat constructor.
Qed.

Lemma exit_ok rt nf cs env : return_type rt → env_ok env → csize rt ≤ Z.of_nat (length sret) →
  ∃ env', abi_dy_a2x_exit_translation args sret (aa_fn_info nf rt cs) (xx_fn_info rt cs) env = Ret env' ∧
    if by_reference rt then env' = env
    else ret_moved rt (rinfo (xx_fn_info rt cs)) (rinfo (aa_fn_info nf rt cs)) env env'.
Proof.
  intros Hrt He Hsl.
  pose proof (xx_fn_info_ret rt cs) as Hx. pose proof (aa_fn_info_ret nf rt cs) as Ha.
  assert (isCxxStructor (xx_fn_info rt cs) = 0) as Hc by (unfold xx_fn_info; by destruct (xplaces _ _)).
  unfold abi_dy_a2x_exit_translation. rewrite Hc, Hx, Ha. cbn [Z.eqb negb andb].
  destruct (slot_regs_flags (xx_ret_regs rt) (16 <? csize rt) 0) as [_ ->].
  rewrite aa_ret_indirect.
  destruct (hfa rt) as [[s n]|] eqn:Hh.
  - rewrite (by_reference_hfa rt s n Hh). destruct Hrt as [Hval| ->]; [|done].
    destruct (Z.ltb_spec 16 (csize rt)); [by eapply ret_hfa_large|by eapply ret_hfa_small].
  - unfold by_reference. rewrite Hh. destruct (Z.ltb_spec 16 (csize rt)); [by exists env|].
    destruct rt as [s|fs]; [by apply ret_scalar|]. destruct Hrt as [Hval|]; [by apply ret_struct|done].
Qed.
End exit_cases.

(** ** Properties *)

(** C2.  For every prepared prototype whose return type is a value type or
    [void], [abi_dy_a2x_exit_translation] does not fail; unless the value was
    written through the caller's X8, its bytes end up where the AArch64 caller
    reads them, and only X0 to X2 and the low halves of V0 to V3 change. *)
Theorem dy_exit_correct isvariadic nfixed rt cs aaInfo xxInfo env args sret :
  proto_ok rt cs → stack_room cs + 8 < 2 ^ 31 →
  aa_prepared isvariadic nfixed rt cs aaInfo → xx_prepared rt cs xxInfo →
  return_type rt → env_ok env → bytes_ok args → bytes_ok sret →
  SIZEOF_REGISTER_ARGS ≤ Z.of_nat (length args) → csize rt ≤ Z.of_nat (length sret) →
  ∃ env', abi_dy_a2x_exit_translation args sret aaInfo xxInfo env = Ret env' ∧
    if te_is_indirect (rinfo aaInfo) then env' = env
    else env_ok env' ∧ ret_frame env env' ∧
      ∃ v, xx_ret_value args sret rt (rinfo xxInfo) = Ret v ∧ aa_ret_value env' rt (rinfo aaInfo) = Ret v.
Proof.
  intros H Hr ->%aa_prepared_eq ->%xx_prepared_eq Hrt He Hba Hbs Hl Hsl; [|done..].
  set (nf := if isvariadic then nfixed else 0) in *.
  destruct (exit_ok args sret Hba Hbs Hl rt nf cs env Hrt He Hsl) as (env' & Hrun & Hm). exists env'. split; [done|].
  rewrite aa_fn_info_ret in Hm |- *. by rewrite aa_ret_indirect.
Qed.

(** An integer return value of 8 or 16 bits reaches W0 extended to 32 bits
    according to its signedness, whatever the upper bits of RAX are. *)
Theorem dy_exit_extends s cs aaInfo xxInfo env args sret :
  narrow_ret s → proto_ok (CScalar s) cs → stack_room cs + 8 < 2 ^ 31 →
  aa_prepared false (Z.of_nat (length cs)) (CScalar s) cs aaInfo → xx_prepared (CScalar s) cs xxInfo →
  env_ok env → bytes_ok args → bytes_ok sret → SIZEOF_REGISTER_ARGS ≤ Z.of_nat (length args) →
  ∃ env' v, abi_dy_a2x_exit_translation args sret aaInfo xxInfo env = Ret env' ∧
    rd args OFF_RAX (scalar_size s) = Ret v ∧ rd_a64 env' TE_W0 4 = Ret (extended s v).
Proof.
  intros Hs H Hr ->%aa_prepared_eq ->%xx_prepared_eq He Hba Hbs Hl; [|done..].
  destruct (ret_narrow args sret Hba Hl s env Hs He) as (env' & Hrun & _ & v & Hv & Hw).
  exists env', v. split_and!; [|done|done]. rewrite <- Hrun.
  unfold abi_dy_a2x_exit_translation, xx_fn_info, aa_fn_info.
  destruct (xplaces _ _), (place_args _ _ _ _). by destruct_or! Hs; subst s.
Qed.

(** ** Witnesses *)

Definition example_space : list Z := (λ i, (7 * i + 3) mod 256) <$> seqZ 0 184.
Definition example_rt : cty := CStruct [CScalar SFloat; CScalar SFloat; CScalar SFloat].

Lemma example_space_ok : bytes_ok example_space.
Proof. unfold bytes_ok. apply (bool_decide_unpack _). by vm_compute. Qed.

Lemma dy_exit_correct_witness :
  ∃ env' v, abi_dy_a2x_exit_translation example_space (replicate 12 0) (aa_fn_info 0 example_rt [])
      (xx_fn_info example_rt []) example_env = Ret env' ∧
    xx_ret_value example_space (replicate 12 0) example_rt (rinfo (xx_fn_info example_rt [])) = Ret v ∧
    aa_ret_value env' example_rt (rinfo (aa_fn_info 0 example_rt [])) = Ret v.
Proof.
  destruct (dy_exit_correct false 0 example_rt [] (aa_fn_info 0 example_rt []) (xx_fn_info example_rt [])
    example_env example_space (replicate 12 0)) as (env' & Hrun & _ & _ & v & Hx & Ha).
  - solve_proto.
  - done.
  - split; [simpl; lia|]. eexists. vm_compute. reflexivity.
  - eexists. vm_compute. reflexivity.
  - by left.
  - exact example_env_ok.
  - exact example_space_ok.
  - by repeat constructor.
  - by vm_compute.
  - by vm_compute.
  - exists env', v. split; [exact Hrun|]. split; [exact Hx|exact Ha].
Defined.

Lemma dy_exit_extends_witness :
  ∃ env' v, abi_dy_a2x_exit_translation example_space [] (aa_fn_info 0 (CScalar SS8) [])
      (xx_fn_info (CScalar SS8) []) example_env = Ret env' ∧
    rd example_space OFF_RAX 1 = Ret v ∧ rd_a64 env' TE_W0 4 = Ret (extended SS8 v).
Proof.
  apply (dy_exit_extends SS8 [] (aa_fn_info 0 (CScalar SS8) []) (xx_fn_info (CScalar SS8) [])
    example_env example_space []).
  - right. by left.
  - solve_proto.
  - done.
  - split; [simpl; lia|]. eexists. vm_compute. reflexivity.
  - eexists. vm_compute. reflexivity.
  - exact example_env_ok.
  - exact example_space_ok.
  - constructor.
  - by vm_compute.
Defined.
