(* ===== verification/CString.v ===== *)
(** * C strings

    A pointer into a string is the list of the characters from there to the
    end of the array, the terminating NUL included; reading where nothing is
    left is reading past the array.  The file has the functions of the C
    library the parsers use. *)

From Stdlib Require Export Ascii.
From stdpp Require Export strings.
From S2P Require Import Prelude.

Abbreviation cstr := (list ascii).

Definition NUL : ascii := "000"%char.
Definition QUOTE : ascii := "034"%char.

(** [*str] *)
Definition peek (s : cstr) : outcome ascii :=
  match s with [] => Stop Undefined | c :: _ => Ret c end.

(** The characters of a literal, without its NUL. *)
Fixpoint chars (s : string) : list ascii :=
  match s with EmptyString => [] | String c s => c :: chars s end.

Definition c_string (s : string) : cstr := chars s ++ [NUL].

(** [strchr(set, c) != NULL]: the terminator of [set] is found too. *)
Definition strchr (set : list ascii) (c : ascii) : bool :=
  Ascii.eqb c NUL || existsb (Ascii.eqb c) set.

(** The loop that advances [*str] to the first [c]. *)
Fixpoint skip_to (c : ascii) (s : cstr) : outcome cstr :=
  match s with
  | [] => Stop Undefined
  | d :: s' => if Ascii.eqb d c then Ret s else skip_to c s'
  end.

(** [str + 1], for a pointer into the array. *)
Definition next (s : cstr) : outcome cstr :=
  match s with [] => Stop Undefined | _ :: s => Ret s end.

Fixpoint strlen (s : cstr) : outcome Z :=
  match s with
  | [] => Stop Undefined
  | c :: s => if Ascii.eqb c NUL then Ret 0 else n ← strlen s; Ret (n + 1)
  end.

(** ** [isdigit], [isspace], [strtol] *)

Definition code (c : ascii) : Z := Z.of_N (N_of_ascii c).

Definition isdigit (c : ascii) : bool := (48 <=? code c) && (code c <=? 57).
Definition isspace (c : ascii) : bool := ((9 <=? code c) && (code c <=? 13)) || (code c =? 32).

(** A run of digits: its value and what follows. *)
Fixpoint digits (s : cstr) (acc : Z) : outcome (Z * cstr) :=
  match s with
  | [] => Stop Undefined
  | c :: s' => if isdigit c then digits s' (acc * 10 + (code c - 48)) else Ret (acc, s)
  end.

Fixpoint skip_spaces (s : cstr) : outcome cstr :=
  match s with
  | [] => Stop Undefined
  | c :: s' => if isspace c then skip_spaces s' else Ret s
  end.

(** A value out of the range of [long] saturates. *)
Definition clamp_long (v : Z) : Z := Z.max (- 2 ^ 63) (Z.min v (2 ^ 63 - 1)).

(** [strtol(s, &end, 10)]: the value and [end], which is [s] when there is no
    number. *)
Definition strtol (s : cstr) : outcome (Z * cstr) :=
  s1 ← skip_spaces s;
  c ← peek s1;
  let neg := Ascii.eqb c "-" in
  s2 ← (if neg || Ascii.eqb c "+" then next s1 else Ret s1);
  c ← peek s2;
  if isdigit c then
    '(v, s3) ← digits s2 0;
    Ret (clamp_long (if neg then - v else v), s3)
  else Ret (0, s).

(** ** Decimal numerals *)

Definition digit (d : Z) : ascii := ascii_of_N (Z.to_N (48 + d)).

(** The digits of [n], the last [k] of them. *)
Fixpoint numeral_aux (k : nat) (n : Z) : list ascii :=
  match k with
  | O => []
  | S k => if n <? 10 then [digit n] else numeral_aux k (n / 10) ++ [digit (n mod 10)]
  end.

(** [n] below [2 ^ 64] has at most 20 digits. *)
Definition numeral (n : Z) : list ascii := numeral_aux 20 n.

Lemma code_digit d : 0 ≤ d < 10 → code (digit d) = 48 + d.
Proof.
  intros Hd. assert (d = 0 ∨ d = 1 ∨ d = 2 ∨ d = 3 ∨ d = 4 ∨ d = 5 ∨ d = 6 ∨ d = 7 ∨ d = 8 ∨ d = 9) as H by lia.
  by destruct_or! H; subst.
Qed.

Lemma isdigit_digit d : 0 ≤ d < 10 → isdigit (digit d) = true.
Proof. intros Hd. unfold isdigit. rewrite code_digit by done. apply andb_true_intro. split; apply Z.leb_le; lia. Qed.

Lemma code_range c : 0 ≤ code c < 256.
Proof. unfold code. pose proof (N_ascii_bounded c). lia. Qed.

(** A run of digits read from [acc]. *)
Lemma digits_numeral k n acc s : 0 ≤ n < 10 ^ Z.of_nat k → (1 ≤ k)%nat →
  digits (numeral_aux k n ++ s) acc = digits s (acc * 10 ^ Z.of_nat (length (numeral_aux k n)) + n).
Proof.
  revert n acc s. induction k as [|k IH]; intros n acc s Hn Hk; [lia|]. cbn [numeral_aux].
  destruct (Z.ltb_spec n 10).
  - cbn [app digits length]. rewrite isdigit_digit, code_digit by lia. f_equal. change (Z.of_nat 1) with 1. lia.
  - rewrite <- app_assoc, IH.
    + cbn [app digits]. pose proof (Z.mod_pos_bound n 10). rewrite isdigit_digit, code_digit by lia.
      rewrite length_app, Nat2Z.inj_add, Z.pow_add_r by lia. f_equal. change (10 ^ Z.of_nat (length [_])) with 10.
      pose proof (Z.div_mod n 10). lia.
    + rewrite Nat2Z.inj_succ, Z.pow_succ_r in Hn by lia. split; [apply Z.div_pos; lia|apply Z.div_lt_upper_bound; lia].
    + destruct k; [simpl in Hn; lia|lia].
Qed.

Lemma numeral_head n : 0 ≤ n < 10 ^ 20 → ∃ c l, numeral n = c :: l ∧ isdigit c = true.
Proof.
  unfold numeral. assert (∀ k n, 0 ≤ n < 10 ^ Z.of_nat (S k) → ∃ c l, numeral_aux (S k) n = c :: l ∧ isdigit c = true) as H.
  { intros k. induction k as [|k IH]; intros m Hm; cbn [numeral_aux].
    - rewrite (proj2 (Z.ltb_lt m 10)) by (simpl in Hm; lia). eexists _, []. split; [done|]. apply isdigit_digit. simpl in Hm. lia.
    - destruct (Z.ltb_spec m 10); [eexists _, []; split; [done|apply isdigit_digit; lia]|].
      destruct (IH (m / 10)) as (c & l & Heq & Hc).
      { rewrite Nat2Z.inj_succ, Z.pow_succ_r in Hm by lia. split; [apply Z.div_pos; lia|apply Z.div_lt_upper_bound; lia]. }
      cbn [numeral_aux] in Heq. rewrite Heq. by eexists _, _. }
  apply (H 19%nat).
Qed.
