(* ===== verification/TypesParser.v ===== *)
(** * [typesParser.c]: Objective-C type encodings

    The parser walks a type encoding, builds a descriptor for every type it
    meets and hands them to the two calling conventions.  The recursion is
    bounded by the length of the string: every call of [getType] consumes a
    character. *)

From S2P Require Import CString Prelude ABIArgInfo FfiTypes AAPrepCif XXPrepCif.

Definition InvalidValue : Z := 2 ^ 32 - 1.
Definition smplType : list ascii := chars "cislqCISLQfdBv*#:?".
Definition aggrType : list ascii := chars "{}[]()".
Definition aggrOpen : list ascii := chars "{[(".
Definition qualifiers : list ascii := chars "rnNoORV".

(** ** Skipping a type *)

(** The character after the first [c]. *)
Fixpoint char_after (c : ascii) (l : list ascii) : ascii :=
  match l with
  | d :: ((e :: _) as l') => if Ascii.eqb d c then e else char_after c l'
  | _ => NUL
  end.

(** [left] is a [uint8_t]. *)
Fixpoint aggregate_loop (openBrace closeBrace : ascii) (left : Z) (s : cstr) : outcome cstr :=
  if left =? 0 then Ret s else
  match s with
  | [] => Stop Undefined
  | c :: s =>
      let left := if Ascii.eqb c openBrace then u8 (left + 1)
                  else if Ascii.eqb c closeBrace then u8 (left - 1) else left in
      aggregate_loop openBrace closeBrace left s
  end.

Definition moveFwdAggregate (openBrace : ascii) (s : cstr) : outcome cstr :=
  aggregate_loop openBrace (char_after openBrace aggrType) 1 s.

(** What follows an [@]: a quoted class name, or [?] and a nested encoding for
    a block; says whether it was a block. *)
Definition skip_object (s : cstr) : outcome (bool * cstr) :=
  c ← peek s;
  if Ascii.eqb c QUOTE then
    s ← next s; s ← skip_to QUOTE s; s ← next s; Ret (false, s)
  else if Ascii.eqb c "?" then
    s ← next s;
    c ← peek s;
    if Ascii.eqb c "<" then s ← skip_to ">" s; s ← next s; Ret (true, s) else Ret (true, s)
  else Ret (false, s).

Fixpoint moveFwdAType (s : cstr) : outcome cstr :=
  match s with
  | [] => Stop Undefined
  | c :: s =>
      if strchr smplType c then Ret s
      else if strchr aggrOpen c then moveFwdAggregate c s
      else if Ascii.eqb c "^" then moveFwdAType s
      else if strchr qualifiers c then moveFwdAType s
      else if Ascii.eqb c "@" then snd <$> skip_object s
      else Stop Aborted
  end.

(** ** Building a type *)

(** A descriptor, whether it is a block, and the rest of the string. *)
Abbreviation parsed := (ffi_type * bool * cstr)%type.

(** The characters that stand for a basic type. *)
Definition simple_type (ch : ascii) : option ffi_type :=
  match ch with
  | "c"%char => Some ffi_type_sint8
  | "i"%char => Some ffi_type_sint32
  | "s"%char => Some ffi_type_sint16
  | "l"%char => Some ffi_type_sint32
  | "q"%char => Some ffi_type_sint64
  | "C"%char => Some ffi_type_uint8
  | "I"%char => Some ffi_type_uint32
  | "S"%char => Some ffi_type_uint16
  | "L"%char => Some ffi_type_uint32
  | "Q"%char => Some ffi_type_uint64
  | "f"%char => Some ffi_type_float
  | "d"%char => Some ffi_type_double
  | "B"%char => Some ffi_type_uint8
  | "v"%char => Some ffi_type_void
  | "*"%char | "#"%char | ":"%char => Some ffi_type_pointer
  | _ => None
  end.

(** A new [ffi_type] for an aggregate: size and alignment still 0. *)
Definition new_aggregate (els : list ffi_type) : ffi_type := mk_ffi_type 0 0 FFI_TYPE_STRUCT (Some els).

Section aggregates.
(** [getType(str, arrAsAggr, ..)] *)
Context (getType : bool → cstr → outcome parsed).

(** [mycalloc(nelmt + 1, ..)] asserts that the allocation is not null, and
    [g_malloc0(0)] is. *)
Definition getArrayType (arrAsAggr : bool) (s : cstr) : outcome (ffi_type * cstr) :=
  if negb arrAsAggr then s ← moveFwdAggregate "[" s; Ret (ffi_type_pointer, s) else
  '(n, s) ← strtol s;
  let nelmt := u32 n in
  '(elmt_ty, _, s) ← getType true s;
  c ← peek s;
  _ ← c_assert (Ascii.eqb c "]");
  s ← next s;
  _ ← c_assert (negb (u32 (nelmt + 1) =? 0));
  Ret (new_aggregate (replicate (Z.to_nat nelmt) elmt_ty), s).

(** The members up to [close], which is consumed. *)
Fixpoint members (close : ascii) (n : nat) (s : cstr) : outcome (list ffi_type * cstr) :=
  c ← peek s;
  if Ascii.eqb c close then s ← next s; Ret ([], s) else
  match n with
  | O => Stop OutOfFuel
  | S n =>
      '(ty, _, s) ← getType true s;
      '(tys, s) ← members close n s;
      Ret (ty :: tys, s)
  end.

Definition getStructType (n : nat) (s : cstr) : outcome (ffi_type * cstr) :=
  s ← skip_to "=" s; s ← next s;
  '(els, s) ← members "}" n s;
  Ret (new_aggregate els, s).

(** The loop over the members is [for (ffi_type *i = elmts[0]; i != NULL; ++i)]:
    it starts at the descriptor of the first member and steps to the memory
    after it, which it dereferences. *)
Definition getUnionType (n : nat) (s : cstr) : outcome (ffi_type * cstr) :=
  s ← skip_to "=" s; s ← next s;
  '(els, s) ← members ")" n s;
  match els with
  | [] => Ret (new_aggregate [mk_ffi_type 0 0 FFI_TYPE_VOID None], s)
  | _ :: _ => Stop Undefined
  end.
End aggregates.

Fixpoint getType (fuel : nat) (arrAsAggr : bool) (s : cstr) : outcome parsed :=
  ch ← peek s; s ← next s;
  match fuel with
  | O => Stop OutOfFuel
  | S fuel =>
      match simple_type ch with
      | Some ty => Ret (ty, false, s)
      | None =>
          if Ascii.eqb ch "@" then '(blk, s) ← skip_object s; Ret (ffi_type_pointer, blk, s)
          else if Ascii.eqb ch "^" then s ← moveFwdAType s; Ret (ffi_type_pointer, false, s)
          else if Ascii.eqb ch "[" then '(ty, s) ← getArrayType (getType fuel) arrAsAggr s; Ret (ty, false, s)
          else if Ascii.eqb ch "{" then '(ty, s) ← getStructType (getType fuel) fuel s; Ret (ty, false, s)
          else if Ascii.eqb ch "(" then '(ty, s) ← getUnionType (getType fuel) fuel s; Ret (ty, false, s)
          else if existsb (Ascii.eqb ch) qualifiers then getType fuel arrAsAggr s
          else Stop Aborted
      end
  end.

(** ** A whole signature *)

(** [(uint64_t)1 << n] *)
Definition bit64 (n : Z) : outcome Z := if n <? 64 then Ret (Z.shiftl 1 n) else Stop Undefined.

(** The arguments, and the mask of those that are blocks. *)
Fixpoint parse_args (fuel n : nat) (arg_cnt blkMask : Z) (s : cstr) : outcome (list ffi_type * Z) :=
  c ← peek s;
  if Ascii.eqb c NUL then Ret ([], blkMask) else
  match n with
  | O => Stop OutOfFuel
  | S n =>
      '(ty, argIsBlock, s) ← getType fuel false s;
      '(_, s) ← strtol s;
      blkMask ← (if argIsBlock : bool then b ← bit64 arg_cnt; Ret (Z.lor blkMask b) else Ret blkMask);
      '(tys, blkMask) ← parse_args fuel n (u32 (arg_cnt + 1)) blkMask s;
      Ret (ty :: tys, blkMask)
  end.

Fixpoint mark_args (blkMask : Z) (i n : nat) (l : list ABIArgInfo) : outcome (list ABIArgInfo) :=
  match n with
  | O => Ret l
  | S n =>
      b ← bit64 (Z.of_nat i);
      l ← (if Z.land blkMask b =? 0 then Ret l
           else c_update l i (λ a, Ret (or_mask TE_MASK_BLOCK a)));
      mark_args blkMask (S i) n l
  end.

(** The block masks of the return value and the arguments. *)
Definition mark_blocks (blkMask : Z) (n : nat) (fi : ABIFnInfo) : outcome ABIFnInfo :=
  let fi := if Z.land blkMask (Z.shiftl 1 63) =? 0 then fi
            else set_rinfo (or_mask TE_MASK_BLOCK (rinfo fi)) fi in
  l ← mark_args blkMask 0 n (ainfo fi);
  Ret (set_ainfo l fi).

(** After [g_free(info->ainfo)] there are no argument slots. *)
Definition free_ainfo (fi : ABIFnInfo) : ABIFnInfo := set_ainfo [] fi.

(** The x86-64 description; initializes the types in place. *)
Definition handle_xx (xxInfo : option ABIFnInfo) (blkMask : Z) (rtype : ffi_type) (atypes : list ffi_type) :
    outcome (bool * option ABIFnInfo * ffi_type * list ffi_type) :=
  match xxInfo with
  | None => Ret (true, None, rtype, atypes)
  | Some _ =>
      let n := length atypes in
      '(st, cif, fi) ← my_xx_fi_prep_cif XX_FI_DEFAULT_ABI (Z.of_nat n) rtype atypes (Some (zero_fn_info n));
      match st, fi with
      | FFI_OK, Some fi => fi ← mark_blocks blkMask n fi; Ret (true, Some fi, xx_rtype cif, xx_arg_types cif)
      | _, _ => Ret (false, free_ainfo <$> fi, rtype, atypes)
      end
  end.

Definition handle_aa (aaInfo : option ABIFnInfo) (nfixed blkMask : Z) (rtype : ffi_type) (atypes : list ffi_type) :
    outcome (bool * option ABIFnInfo) :=
  match aaInfo with
  | None => Ret (true, None)
  | Some _ =>
      let n := length atypes in
      '(st, _, fi) ←
        (if nfixed =? InvalidValue
         then my_aa_fi_prep_cif AA_FI_DEFAULT_ABI (Z.of_nat n) rtype atypes (Some (zero_fn_info n))
         else my_aa_fi_prep_cif_var AA_FI_DEFAULT_ABI nfixed (Z.of_nat n) rtype atypes (Some (zero_fn_info n)));
      match st, fi with
      | FFI_OK, Some fi => fi ← mark_blocks blkMask n fi; Ret (true, Some fi)
      | _, _ => Ret (false, free_ainfo <$> fi)
      end
  end.

(** The result, [*aaInfo] and [*xxInfo]; either pointer may be null. *)
Definition handle (types : cstr) (aaInfo xxInfo : option ABIFnInfo) (nfixed : Z) :
    outcome (bool * option ABIFnInfo * option ABIFnInfo) :=
  c ← peek types;
  if Ascii.eqb c NUL then Ret (false, aaInfo, xxInfo) else
  let fuel := length types in
  '(rtype, retIsBlock, s) ← getType fuel false types;
  '(_, s) ← strtol s;
  let blkMask := if retIsBlock : bool then Z.shiftl 1 63 else 0 in
  '(atypes, blkMask) ← parse_args fuel fuel 0 blkMask s;
  '(ok, xxInfo, rtype, atypes) ← handle_xx xxInfo blkMask rtype atypes;
  if negb ok then Ret (false, aaInfo, xxInfo) else
  '(ok, aaInfo) ← handle_aa aaInfo nfixed blkMask rtype atypes;
  Ret (ok, aaInfo, xxInfo).

Definition get_fn_info_from_types (types : cstr) (aaInfo xxInfo : option ABIFnInfo) :=
  handle types aaInfo xxInfo InvalidValue.

Definition get_vari_fn_info_from_types (types : cstr) (nfixed : Z) (aaInfo xxInfo : option ABIFnInfo) :=
  handle types aaInfo xxInfo nfixed.

Fixpoint count_types (fuel n : nat) (arg_cnt : Z) (s : cstr) : outcome Z :=
  c ← peek s;
  if Ascii.eqb c NUL then Ret arg_cnt else
  match n with
  | O => Stop OutOfFuel
  | S n => '(_, _, s) ← getType fuel false s; count_types fuel n (u32 (arg_cnt + 1)) s
  end.

Definition getNumTypes (types : cstr) : outcome Z := count_types (length types) (length types) 0 types.

(** [final_types] is filled and not used.  Its declaration is undefined when
    its length wraps to 0. *)
Definition parse_type_codes (types : cstr) (nfixed : Z) (aaInfo xxInfo : option ABIFnInfo) :=
  nvari ← getNumTypes types;
  let len := u32 (1 + nfixed + nvari) in
  if u32 (len + 1) =? 0 then Stop Undefined else handle types aaInfo xxInfo nfixed.
