(* ===== verification/TypesSpec.v ===== *)
(** * Type encodings: syntax, meaning, and the parser against them

    [enc] is the abstract syntax of the type encodings of the Objective-C
    runtime, [print] their text and [denote] the C type they stand for.  The
    parser of [typesParser.c] is shown to read every printed encoding back as
    its meaning, to terminate on every string, and to produce, for a whole
    signature, the descriptions of the two calling conventions. *)

From S2P Require Import CString Prelude ABIArgInfo FfiTypes Layout Placement AAPrepCif HFA AAAlloc XXPrepCif XXClass XXAlloc TypesParser.

(** ** Syntax *)

Inductive enc : Set :=
| ELetter (ch : ascii)
| EUnknown
| EId (name : option (list ascii))
| EBlock (sig : option (list ascii))
| EPtr (e : enc)
| EArr (n : Z) (e : enc)
| EStruct (name : list ascii) (fs : list enc)
| EUnion (name : list ascii) (fs : list enc)
| EQual (q : ascii) (e : enc).

Section enc_ind'.
Context (P : enc → Prop).
Context (Hletter : ∀ ch, P (ELetter ch)) (Hunknown : P EUnknown) (Hid : ∀ n, P (EId n)) (Hblock : ∀ s, P (EBlock s)).
Context (Hptr : ∀ e, P e → P (EPtr e)) (Harr : ∀ n e, P e → P (EArr n e)).
Context (Hstruct : ∀ n fs, Forall P fs → P (EStruct n fs)) (Hunion : ∀ n fs, Forall P fs → P (EUnion n fs)).
Context (Hqual : ∀ q e, P e → P (EQual q e)).

Fixpoint enc_ind' (e : enc) : P e :=
  let go := fix go l : Forall P l :=
    match l with [] => Forall_nil_2 P | x :: l => Forall_cons_2 P x l (enc_ind' x) (go l) end in
  match e with
  | ELetter ch => Hletter ch
  | EUnknown => Hunknown
  | EId n => Hid n
  | EBlock s => Hblock s
  | EPtr e => Hptr e (enc_ind' e)
  | EArr n e => Harr n e (enc_ind' e)
  | EStruct n fs => Hstruct n fs (go fs)
  | EUnion n fs => Hunion n fs (go fs)
  | EQual q e => Hqual q e (enc_ind' e)
  end.
End enc_ind'.

Fixpoint print (e : enc) : list ascii :=
  match e with
  | ELetter ch => [ch]
  | EUnknown => ["?"%char]
  | EId None => ["@"%char]
  | EId (Some name) => "@"%char :: QUOTE :: name ++ [QUOTE]
  | EBlock None => ["@"; "?"]%char
  | EBlock (Some sig) => "@"%char :: "?"%char :: "<"%char :: sig ++ [">"%char]
  | EPtr e => "^"%char :: print e
  | EArr n e => "["%char :: numeral n ++ print e ++ ["]"%char]
  | EStruct name fs => "{"%char :: name ++ "="%char :: flat_map print fs ++ ["}"%char]
  | EUnion name fs => "("%char :: name ++ "="%char :: flat_map print fs ++ [")"%char]
  | EQual q e => q :: print e
  end.

(** ** Meaning *)

Definition letter (ch : ascii) : option scalar :=
  match ch with
  | "c"%char => Some SS8 | "C"%char | "B"%char => Some SU8
  | "s"%char => Some SS16 | "S"%char => Some SU16
  | "i"%char | "l"%char => Some SS32 | "I"%char | "L"%char => Some SU32
  | "q"%char => Some SS64 | "Q"%char => Some SU64
  | "f"%char => Some SFloat | "d"%char => Some SDouble
  | "v"%char => Some SVoid
  | "*"%char | "#"%char | ":"%char => Some SPtr
  | _ => None
  end.

(** An array is a pointer as a parameter and an aggregate elsewhere. *)
Fixpoint denote (arrAsAggr : bool) (e : enc) : cty :=
  match e with
  | ELetter ch => CScalar (default SVoid (letter ch))
  | EArr n e => if arrAsAggr then CStruct (replicate (Z.to_nat n) (denote true e)) else CScalar SPtr
  | EStruct _ fs => CStruct (map (denote true) fs)
  | EQual _ e => denote arrAsAggr e
  | _ => CScalar SPtr
  end.

Fixpoint is_block (e : enc) : bool :=
  match e with EBlock _ => true | EQual _ e => is_block e | _ => false end.

(** ** Well-formed encodings *)

Definition free_of (set l : list ascii) : bool := forallb (λ c, negb (existsb (Ascii.eqb c) set)) l.

Definition count_ok (n : Z) : bool := (0 <=? n) && (n <? 2 ^ 32 - 1).

(** Aggregates within aggregates. *)
Fixpoint nest (e : enc) : Z :=
  match e with
  | EPtr e | EQual _ e => nest e
  | EArr _ e => 1 + nest e
  | EStruct _ fs | EUnion _ fs => 1 + foldr (λ f m, Z.max (nest f) m) 0 fs
  | _ => 0
  end.

(** What can be behind a pointer. *)
Fixpoint skippable (e : enc) : bool :=
  match e with
  | ELetter ch => bool_decide (is_Some (letter ch))
  | EUnknown => true
  | EId name => free_of (QUOTE :: aggrType) (default [] name)
  | EBlock sig => free_of (">"%char :: aggrType) (default [] sig)
  | EPtr e => skippable e
  | EArr n e => count_ok n && skippable e
  | EStruct name fs | EUnion name fs => free_of ("="%char :: aggrType) name && forallb skippable fs
  | EQual q e => existsb (Ascii.eqb q) qualifiers && skippable e
  end.

Definition can_skip (e : enc) : bool := skippable e && (nest e <=? 255).

(** What can be the type of a member, an argument or a return value: no
    unions. *)
Fixpoint buildable (arrAsAggr : bool) (e : enc) : bool :=
  match e with
  | ELetter ch => bool_decide (is_Some (letter ch))
  | EUnknown => false
  | EId name => free_of [QUOTE] (default [] name)
  | EBlock sig => free_of [">"%char] (default [] sig)
  | EPtr e => can_skip e
  | EArr n e' => if arrAsAggr then count_ok n && buildable true e' else can_skip e
  | EStruct name fs => free_of ["="%char] name && forallb (buildable true) fs
  | EUnion _ _ => false
  | EQual q e => existsb (Ascii.eqb q) qualifiers && buildable arrAsAggr e
  end.

(** The next character cannot be taken for a part of an object type. *)
Definition sep (s : cstr) : bool :=
  match s with c :: _ => negb (existsb (Ascii.eqb c) [QUOTE; "?"; "<"]%char) | [] => false end.

(** ** Skipping *)

(** A pair of braces. *)
Definition brace (o c : ascii) : Prop :=
  (o, c) ∈ [("{", "}"); ("[", "]"); ("(", ")")]%char.

Lemma brace_cases o c : brace o c → o = "{"%char ∧ c = "}"%char ∨ o = "["%char ∧ c = "]"%char ∨ o = "("%char ∧ c = ")"%char.
Proof. unfold brace. rewrite !elem_of_cons, elem_of_nil. naive_solver. Qed.

(** Text that leaves the count alone as long as there is room for [d] more. *)
Definition neutral (o c : ascii) (d : Z) (l : list ascii) : Prop :=
  ∀ left rest, 1 ≤ left → left + d ≤ 255 → aggregate_loop o c left (l ++ rest) = aggregate_loop o c left rest.

Lemma neutral_nil o c : neutral o c 0 [].
Proof. done. Qed.

Lemma neutral_app o c d d' l l' : neutral o c d l → neutral o c d' l' → neutral o c (Z.max d d') (l ++ l').
Proof. intros H H' left rest Hl Hd. rewrite <- app_assoc, H by lia. apply H'; lia. Qed.

Lemma neutral_le o c d d' l : neutral o c d l → d ≤ d' → neutral o c d' l.
Proof. intros H Hd left rest Hl Hb. apply H; lia. Qed.

Lemma aggregate_step o c left ch s : 1 ≤ left ≤ 255 → aggregate_loop o c left (ch :: s) =
  aggregate_loop o c (if Ascii.eqb ch o then u8 (left + 1) else if Ascii.eqb ch c then u8 (left - 1) else left) s.
Proof. intros Hl. cbn [aggregate_loop]. by rewrite (proj2 (Z.eqb_neq left 0)) by lia. Qed.

Lemma neutral_char o c ch : ch ≠ o → ch ≠ c → neutral o c 0 [ch].
Proof.
  intros Ho Hc left rest Hl Hd. cbn [app]. rewrite aggregate_step by lia.
  by rewrite (proj2 (Ascii.eqb_neq ch o) Ho), (proj2 (Ascii.eqb_neq ch c) Hc).
Qed.

Lemma neutral_braces o c d l : o ≠ c → 0 ≤ d → neutral o c d l → neutral o c (1 + d) (o :: l ++ [c]).
Proof.
  intros Hne Hd0 H left rest Hl Hd. rewrite <- app_comm_cons, <- app_assoc. rewrite aggregate_step by lia.
  rewrite Ascii.eqb_refl, (wrap_small 8) by (unfold in_u; lia). rewrite H by lia. cbn [app].
  rewrite aggregate_step by lia. rewrite (proj2 (Ascii.eqb_neq c o)), Ascii.eqb_refl by congruence.
  by rewrite (wrap_small 8), Z.add_simpl_r by (unfold in_u; lia).
Qed.

Lemma neutral_free o c l : brace o c → free_of aggrType l = true → neutral o c 0 l.
Proof.
  intros Hb. induction l as [|ch l IH]; [intros; apply neutral_nil|]. cbn [free_of forallb].
  rewrite andb_true_iff, negb_true_iff. intros [Hch Hl].
  apply (neutral_app o c 0 0 [ch] l); [|by apply IH].
  apply neutral_char; intros ->; apply brace_cases in Hb; destruct_or! Hb; destruct Hb as [-> ->]; done.
Qed.

Lemma free_of_cons c set l : free_of (c :: set) l = true → free_of [c] l = true ∧ free_of set l = true.
Proof.
  unfold free_of. induction l as [|d l IH]; [done|]. cbn [forallb existsb]. rewrite !andb_true_iff, !negb_true_iff, !orb_false_iff.
  naive_solver.
Qed.

Lemma numeral_aux_digits k n : 0 ≤ n → Forall (λ c, isdigit c = true) (numeral_aux k n).
Proof.
  revert n. induction k as [|k IH]; intros n Hn; [constructor|]. cbn [numeral_aux]. destruct (Z.ltb_spec n 10).
  - apply Forall_singleton. apply isdigit_digit. lia.
  - apply Forall_app. split; [apply IH, Z.div_pos; lia|]. apply Forall_singleton, isdigit_digit.
    pose proof (Z.mod_pos_bound n 10). lia.
Qed.

Lemma digits_free l : Forall (λ c, isdigit c = true) l → free_of aggrType l = true.
Proof.
  induction 1 as [|c l Hc _ IH]; [done|]. cbn [free_of forallb]. rewrite andb_true_iff. split; [|done].
  destruct (existsb (Ascii.eqb c) aggrType) eqn:He; [|done]. apply existsb_exists in He as (d & Hin & Hd).
  apply Ascii.eqb_eq in Hd as <-. simpl in Hin. destruct_or! Hin; subst; done.
Qed.

Lemma nest_nonneg e : 0 ≤ nest e.
Proof.
  assert (∀ fs, 0 ≤ foldr (λ f m, Z.max (nest f) m) 0 fs) as H by (intros fs; induction fs; simpl; lia).
  induction e using enc_ind'; simpl; try lia; specialize (H fs); lia.
Qed.

Lemma neutral_aggregate o c o' c' d l : brace o c → brace o' c' → 0 ≤ d →
  neutral o c d l → neutral o c (1 + d) (o' :: l ++ [c']).
Proof.
  intros Hb Hb' Hd H. destruct (decide (o' = o)) as [->|Hne].
  - assert (c' = c ∧ o ≠ c) as [-> ?] by (apply brace_cases in Hb, Hb'; destruct_or! Hb; destruct_or! Hb'; naive_solver).
    by apply neutral_braces.
  - assert (o' ≠ c ∧ c' ≠ o ∧ c' ≠ c) as (H1 & H2 & H3)
      by (apply brace_cases in Hb, Hb'; destruct_or! Hb; destruct_or! Hb'; naive_solver).
    apply (neutral_le _ _ (Z.max 0 (Z.max d 0))); [|lia].
    apply (neutral_app o c 0 _ [o']); [by apply neutral_char|]. apply neutral_app; [done|by apply neutral_char].
Qed.

Lemma neutral_cons o c d ch l : brace o c → free_of aggrType [ch] = true → 0 ≤ d → neutral o c d l → neutral o c d (ch :: l).
Proof.
  intros Hb Hch Hd H. apply (neutral_le _ _ (Z.max 0 d)); [|lia]. apply (neutral_app o c 0 d [ch]); [|done].
  by apply neutral_free.
Qed.

Lemma neutral_fields o c fs : Forall (λ e, skippable e = true → neutral o c (nest e) (print e)) fs →
  forallb skippable fs = true → neutral o c (foldr (λ f m, Z.max (nest f) m) 0 fs) (flat_map print fs).
Proof.
  induction 1 as [|f fs Hf _ IH]; [intros; apply neutral_nil|]. cbn [forallb flat_map foldr].
  rewrite andb_true_iff. intros [? ?]. apply neutral_app; auto.
Qed.

Lemma letter_free ch : is_Some (letter ch) → free_of aggrType [ch] = true ∧ strchr smplType ch = true ∧
  simple_type ch = scalar_ffi <$> letter ch.
Proof. destruct ch as [[] [] [] [] [] [] [] []]; intros [? H]; try discriminate H; by vm_compute. Qed.

Lemma qualifier_free q : existsb (Ascii.eqb q) qualifiers = true →
  free_of aggrType [q] = true ∧ strchr smplType q = false ∧ strchr aggrOpen q = false ∧ q ≠ "^"%char ∧
  strchr qualifiers q = true ∧ simple_type q = None ∧ Ascii.eqb q "@" = false ∧ Ascii.eqb q "[" = false ∧
  Ascii.eqb q "{" = false ∧ Ascii.eqb q "(" = false.
Proof. destruct q as [[] [] [] [] [] [] [] []]; intros H; try discriminate H; by vm_compute. Qed.

(** The inside of a structure or union, and of an array. *)
Lemma neutral_named o c name fs : brace o c → free_of ("="%char :: aggrType) name = true →
  Forall (λ e, skippable e = true → neutral o c (nest e) (print e)) fs → forallb skippable fs = true →
  neutral o c (foldr (λ f m, Z.max (nest f) m) 0 fs) (name ++ "="%char :: flat_map print fs).
Proof.
  intros Hb Hn IH Hs. pose proof (neutral_fields o c fs IH Hs) as Hf. apply free_of_cons in Hn as [_ Hn].
  assert (0 ≤ foldr (λ f m, Z.max (nest f) m) 0 fs) as H0 by (clear; induction fs; simpl; lia).
  apply (neutral_le _ _ (Z.max 0 (foldr (λ f m, Z.max (nest f) m) 0 fs))); [|lia].
  apply neutral_app; [by apply neutral_free|]. by apply neutral_cons.
Qed.

Lemma neutral_numbered o c n e : brace o c → 0 ≤ n → neutral o c (nest e) (print e) →
  neutral o c (nest e) (numeral n ++ print e).
Proof.
  intros Hb Hn He. pose proof (nest_nonneg e). apply (neutral_le _ _ (Z.max 0 (nest e))); [|lia].
  apply neutral_app; [|done]. by apply neutral_free, digits_free, numeral_aux_digits.
Qed.

Lemma fields_nest_nonneg fs : 0 ≤ foldr (λ f m, Z.max (nest f) m) 0 fs.
Proof. induction fs; simpl; lia. Qed.

(** How an aggregate is written. *)
Lemma print_arr n e : print (EArr n e) = "["%char :: (numeral n ++ print e) ++ ["]"%char].
Proof. cbn [print]. by rewrite (assoc app). Qed.

Lemma print_named o c name fs :
  o :: name ++ "="%char :: flat_map print fs ++ [c] = o :: (name ++ "="%char :: flat_map print fs) ++ [c].
Proof. by rewrite <- (assoc app). Qed.

Lemma neutral_print o c e : brace o c → skippable e = true → neutral o c (nest e) (print e).
Proof.
  intros Hb. induction e as [ch| |name|sig|e IH|n e IH|name fs IH|name fs IH|q e IH] using enc_ind'; intros Hs;
    cbn [nest print skippable] in *.
  - apply bool_decide_eq_true in Hs. by apply neutral_free, letter_free.
  - by apply neutral_free.
  - destruct name as [name|]; [|by apply neutral_free]. apply free_of_cons in Hs as [_ Hs]. simpl in Hs.
    do 2 (apply neutral_cons; [done|done|lia|]). apply (neutral_app o c 0 0); by apply neutral_free.
  - destruct sig as [sig|]; [|by apply neutral_free]. apply free_of_cons in Hs as [_ Hs]. simpl in Hs.
    do 3 (apply neutral_cons; [done|done|lia|]). apply (neutral_app o c 0 0); by apply neutral_free.
  - apply neutral_cons; [done|done|apply nest_nonneg|auto].
  - apply andb_prop in Hs as [Hn Hs]. rewrite (assoc app). unfold count_ok in Hn. btests.
    apply (neutral_aggregate o c "["%char "]"%char); [done|by right; left|apply nest_nonneg|].
    apply neutral_numbered; auto.
  - apply andb_prop in Hs as [Hn Hs]. rewrite print_named.
    apply (neutral_aggregate o c "{"%char "}"%char); [done|by left|apply fields_nest_nonneg|by apply neutral_named].
  - apply andb_prop in Hs as [Hn Hs]. rewrite print_named.
    apply (neutral_aggregate o c "("%char ")"%char); [done|by right; right; left|apply fields_nest_nonneg|by apply neutral_named].
  - apply andb_prop in Hs as [Hq Hs]. apply neutral_cons; [done|by apply qualifier_free|apply nest_nonneg|auto].
Qed.

(** *** [moveFwdAggregate] and [moveFwdAType] *)

Lemma brace_close o c : brace o c → char_after o aggrType = c.
Proof. intros Hb. apply brace_cases in Hb. by destruct_or! Hb; destruct Hb as [-> ->]. Qed.

Lemma moveFwdAggregate_ok o c d l rest : brace o c → 0 ≤ d ≤ 254 → neutral o c d l →
  moveFwdAggregate o (l ++ c :: rest) = Ret rest.
Proof.
  intros Hb Hd Hl. unfold moveFwdAggregate. rewrite (brace_close o c Hb), Hl, aggregate_step by lia.
  assert (c ≠ o) by (apply brace_cases in Hb; destruct_or! Hb; naive_solver).
  rewrite (proj2 (Ascii.eqb_neq c o)), Ascii.eqb_refl by done. by destruct rest.
Qed.

Lemma skip_to_ok c l rest : free_of [c] l = true → skip_to c (l ++ c :: rest) = Ret (c :: rest).
Proof.
  induction l as [|d l IH]; cbn [free_of forallb existsb app skip_to].
  - by rewrite Ascii.eqb_refl.
  - rewrite andb_true_iff, orb_false_r, negb_true_iff. intros [-> ?]. by apply IH.
Qed.

Lemma skip_object_id name rest : free_of [QUOTE] (default [] name) = true → sep rest = true →
  skip_object (match name with None => rest | Some name => QUOTE :: name ++ QUOTE :: rest end) = Ret (false, rest).
Proof.
  intros Hn Hr. unfold skip_object. destruct name as [name|].
  - simpl. rewrite skip_to_ok by done. done.
  - destruct rest as [|c rest]; [done|]. simpl in Hr |- *. rewrite !negb_orb, !andb_true_iff, !negb_true_iff in Hr.
    destruct Hr as (-> & -> & _). done.
Qed.

Lemma skip_object_block sig rest : free_of [">"%char] (default [] sig) = true → sep rest = true →
  skip_object ("?"%char :: match sig with None => rest | Some sig => "<"%char :: sig ++ ">"%char :: rest end) = Ret (true, rest).
Proof.
  intros Hn Hr. unfold skip_object. destruct sig as [sig|].
  - simpl. rewrite skip_to_ok by done. done.
  - destruct rest as [|c rest]; [done|]. simpl in Hr |- *. rewrite !negb_orb, !andb_true_iff, !negb_true_iff in Hr.
    destruct Hr as (_ & _ & -> & _). done.
Qed.

Lemma moveFwdAType_object s : moveFwdAType ("@"%char :: s) = snd <$> skip_object s.
Proof. reflexivity. Qed.

Lemma moveFwdAType_aggregate o c s : brace o c → moveFwdAType (o :: s) = moveFwdAggregate o s.
Proof. intros Hb. apply brace_cases in Hb. by destruct_or! Hb; destruct Hb as [-> ->]. Qed.

Lemma moveFwdAType_ok e rest : skippable e = true → nest e ≤ 255 → sep rest = true →
  moveFwdAType (print e ++ rest) = Ret rest.
Proof.
  intros Hs Hn Hr.
  assert (∀ o c d l e, brace o c → print e = o :: l ++ [c] → nest e = 1 + d → 0 ≤ d → nest e ≤ 255 → neutral o c d l →
    moveFwdAType (print e ++ rest) = Ret rest) as Hagg.
  { intros o c d l e' Hb -> Hd H0 H255 Hl. rewrite <- app_comm_cons, <- app_assoc.
    rewrite (moveFwdAType_aggregate o c) by done. apply (moveFwdAggregate_ok o c d); [done|lia|done]. }
  induction e as [ch| |name|sig|e IH|n e IH|name fs _|name fs _|q e IH] using enc_ind'.
  - apply bool_decide_eq_true, letter_free in Hs as (_ & Hs & _). simpl. by rewrite Hs.
  - done.
  - apply free_of_cons in Hs as [Hs _]. pose proof (skip_object_id name rest Hs Hr) as Ho.
    destruct name as [name|]; cbn [print app]; rewrite moveFwdAType_object, <- ?app_assoc; cbn [app]; by rewrite Ho.
  - apply free_of_cons in Hs as [Hs _]. pose proof (skip_object_block sig rest Hs Hr) as Ho.
    destruct sig as [sig|]; cbn [print app]; rewrite moveFwdAType_object, <- ?app_assoc; cbn [app]; by rewrite Ho.
  - by apply IH.
  - apply andb_prop in Hs as [Hc Hs]. unfold count_ok in Hc. btests.
    apply (Hagg "["%char "]"%char (nest e) (numeral n ++ print e)); [by right; left|apply print_arr|done|apply nest_nonneg|done|].
    apply neutral_numbered; [by right; left|done|apply neutral_print; [by right; left|done]].
  - apply andb_prop in Hs as [Hc Hs].
    eapply (Hagg "{"%char "}"%char); [by left|apply print_named|done|apply fields_nest_nonneg|done|].
    apply neutral_named; [by left|done| |done]. apply Forall_true. intros e. apply neutral_print. by left.
  - apply andb_prop in Hs as [Hc Hs].
    eapply (Hagg "("%char ")"%char); [by right; right; left|apply print_named|done|apply fields_nest_nonneg|done|].
    apply neutral_named; [by right; right; left|done| |done]. apply Forall_true. intros e. apply neutral_print. by right; right; left.
  - apply andb_prop in Hs as [Hq Hs]. destruct (qualifier_free q Hq) as (_ & H1 & H2 & H3 & H4 & _).
    cbn [print app moveFwdAType]. rewrite H1, H2, (proj2 (Ascii.eqb_neq q "^") H3), H4. by apply IH.
Qed.

(** ** Building *)

(** The first character of a type. *)
Definition head_ok (c : ascii) : bool := existsb (Ascii.eqb c) (chars "cislqCISLQfdBv*#:@^[{rnNoORV").

Lemma head_ok_facts c : head_ok c = true →
  negb (existsb (Ascii.eqb c) [QUOTE; "?"; "<"]%char) = true ∧ Ascii.eqb c "}" = false ∧ Ascii.eqb c NUL = false ∧
  isdigit c = false ∧ isspace c = false ∧ Ascii.eqb c "-" = false ∧ Ascii.eqb c "+" = false ∧ Ascii.eqb c ")" = false.
Proof. destruct c as [[] [] [] [] [] [] [] []]; intros H; try discriminate H; by vm_compute. Qed.

Lemma print_head arr e : buildable arr e = true → ∃ c l, print e = c :: l ∧ head_ok c = true.
Proof.
  destruct e as [ch| |[]|[]|e|n e|name fs|name fs|q e]; cbn [buildable print]; intros Hb; try done; try (by do 2 eexists).
  - apply bool_decide_eq_true in Hb. do 2 eexists. split; [done|].
    destruct ch as [[] [] [] [] [] [] [] []]; destruct Hb as [? H]; try discriminate H; by vm_compute.
  - apply andb_prop in Hb as [Hq _]. do 2 eexists. split; [done|].
    destruct q as [[] [] [] [] [] [] [] []]; try discriminate Hq; by vm_compute.
Qed.

Lemma print_sep arr e s : buildable arr e = true → sep (print e ++ s) = true.
Proof. intros (c & l & -> & Hc)%print_head. by apply head_ok_facts. Qed.

(** A number followed by something else. *)
Lemma skip_spaces_head c s : isspace c = false → skip_spaces (c :: s) = Ret (c :: s).
Proof. intros H. simpl. by rewrite H. Qed.

Lemma isdigit_facts c : isdigit c = true → isspace c = false ∧ Ascii.eqb c "-" = false ∧ Ascii.eqb c "+" = false.
Proof. destruct c as [[] [] [] [] [] [] [] []]; intros H; try discriminate H; by vm_compute. Qed.

Lemma strtol_numeral n c s : 0 ≤ n < 2 ^ 63 → isdigit c = false → strtol (numeral n ++ c :: s) = Ret (n, c :: s).
Proof.
  intros Hn Hc. destruct (numeral_head n) as (d & l & Hd & Hdig); [lia|].
  destruct (isdigit_facts d Hdig) as (Hsp & Hm & Hp). unfold strtol. rewrite Hd at 1. cbn [app].
  rewrite skip_spaces_head by done. cbn [peek mbind outcome_bind]. rewrite Hm, Hp. cbn [orb mbind outcome_bind peek].
  rewrite Hdig. rewrite app_comm_cons, <- Hd. unfold numeral. rewrite digits_numeral by lia.
  cbn [digits]. rewrite Hc. cbn [mbind outcome_bind]. rewrite Z.mul_0_l, Z.add_0_l. unfold clamp_long.
  do 2 f_equal. lia.
Qed.

Lemma strtol_none c s : isdigit c = false → isspace c = false → Ascii.eqb c "-" = false → Ascii.eqb c "+" = false →
  strtol (c :: s) = Ret (0, c :: s).
Proof.
  intros Hd Hs Hm Hp. unfold strtol. rewrite skip_spaces_head by done. cbn [peek mbind outcome_bind].
  rewrite Hm, Hp. cbn [orb mbind outcome_bind peek]. by rewrite Hd.
Qed.

Lemma map_fresh_replicate n c : replicate n (fresh c) = map fresh (replicate n c).
Proof. by rewrite map_replicate || (induction n; simpl; congruence). Qed.

Definition reads (arr : bool) (e : enc) : Prop := ∀ fuel rest, buildable arr e = true → sep rest = true →
  (length (print e) ≤ fuel)%nat → getType fuel arr (print e ++ rest) = Ret (fresh (denote arr e), is_block e, rest).

Lemma members_ok close fs fuel n rest : close = "}"%char ∨ close = ")"%char →
  Forall (reads true) fs → forallb (buildable true) fs = true →
  (length (flat_map print fs) ≤ n)%nat → (length (flat_map print fs) ≤ fuel)%nat →
  members (getType fuel) close n (flat_map print fs ++ close :: rest) = Ret (map fresh (map (denote true) fs), rest).
Proof.
  intros Hclose Hfs. revert n. induction Hfs as [|f fs Hf Hfs IH]; intros n Hb Hn Hfuel.
  { destruct n; cbn; by rewrite Ascii.eqb_refl. }
  cbn [forallb flat_map map] in *. apply andb_prop in Hb as [Hb Hbs]. rewrite length_app in *.
  destruct (print_head true f Hb) as (c & l & Hc & Hok). destruct (head_ok_facts c Hok) as (_ & Hcl1 & _ & _ & _ & _ & _ & Hcl2).
  assert (Ascii.eqb c close = false) as Hcl by (by destruct Hclose; subst close).
  assert (1 ≤ length (print f))%nat by (rewrite Hc; simpl; lia). destruct n as [|n]; [lia|]. rewrite <- app_assoc.
  assert (peek (print f ++ flat_map print fs ++ close :: rest) = Ret c) as Hpk by (by rewrite Hc).
  cbn [members]. rewrite Hpk. cbn [mbind outcome_bind]. rewrite Hcl.
  rewrite Hf; [|done| |lia].
  - cbn [mbind outcome_bind]. rewrite IH by (done || lia). done.
  - destruct fs as [|g fs]; [by destruct Hclose; subst close|]. apply andb_prop in Hbs as [Hg _]. cbn [flat_map]. rewrite <- app_assoc.
    by apply (print_sep true).
Qed.

Lemma getType_reads e arr : reads arr e.
Proof.
  revert arr. induction e as [ch| |name|sig|e IH|n e IH|name fs IH|name fs _|q e IH] using enc_ind';
    intros arr fuel rest Hb Hr Hf; (destruct fuel as [|fuel]; [by destruct (print_head _ _ Hb) as (? & ? & H & _); rewrite H in Hf; simpl in Hf; lia|]);
    cbn [buildable] in Hb.
  - apply bool_decide_eq_true in Hb. destruct (letter_free ch Hb) as (_ & _ & Hs). destruct Hb as [s Hl].
    cbn [print app getType peek next mbind outcome_bind denote is_block]. by rewrite Hs, Hl.
  - done.
  - pose proof (skip_object_id name rest Hb Hr) as Ho. destruct name as [name|]; cbn [print app getType peek next mbind outcome_bind];
      change (simple_type "@") with (@None ffi_type); rewrite <- ?app_assoc; cbn [Ascii.eqb Bool.eqb app]; by rewrite Ho.
  - pose proof (skip_object_block sig rest Hb Hr) as Ho. destruct sig as [sig|]; cbn [print app getType peek next mbind outcome_bind];
      change (simple_type "@") with (@None ffi_type); rewrite <- ?app_assoc; cbn [Ascii.eqb Bool.eqb app]; by rewrite Ho.
  - unfold can_skip in Hb. apply andb_prop in Hb as [Hs Hn]. apply Z.leb_le in Hn.
    cbn [print app getType peek next mbind outcome_bind]. change (simple_type "^") with (@None ffi_type).
    cbn [Ascii.eqb Bool.eqb]. by rewrite moveFwdAType_ok.
  - rewrite print_arr in Hf |- *. cbn [app getType peek next mbind outcome_bind]. change (simple_type "[") with (@None ffi_type).
    cbn [Ascii.eqb Bool.eqb]. simpl length in Hf. rewrite !length_app in Hf. rewrite <- !app_assoc. unfold getArrayType.
    destruct arr; cbn [negb].
    + apply andb_prop in Hb as [Hc Hb]. unfold count_ok in Hc. btests.
      destruct (print_head true e Hb) as (c & l & Hpe & Hok). destruct (head_ok_facts c Hok) as (_ & _ & _ & Hd & _).
      replace (print e ++ ["]"%char] ++ rest) with (c :: l ++ ["]"%char] ++ rest) by (by rewrite Hpe).
      rewrite strtol_numeral by (done || lia). cbn [mbind outcome_bind].
      replace (c :: l ++ ["]"%char] ++ rest) with (print e ++ ["]"%char] ++ rest) by (by rewrite Hpe).
      rewrite IH by (done || lia). cbn [mbind outcome_bind app peek next]. rewrite !(wrap_small 32) by (unfold in_u; lia).
      rewrite (proj2 (Z.eqb_neq (n + 1) 0)) by lia. cbn [c_assert negb mbind outcome_bind Ascii.eqb Bool.eqb].
      do 3 f_equal. unfold new_aggregate. cbn [denote fresh]. by rewrite map_fresh_replicate.
    + unfold can_skip in Hb. apply andb_prop in Hb as [Hs Hn]. apply Z.leb_le in Hn. cbn [nest skippable] in *.
      apply andb_prop in Hs as [Hc Hs]. unfold count_ok in Hc. btests. rewrite (assoc app). cbn [app].
      rewrite (moveFwdAggregate_ok "["%char "]"%char (nest e)); [done|by right; left| |].
      * pose proof (nest_nonneg e). lia.
      * apply neutral_numbered; [by right; left|done|]. apply neutral_print; [by right; left|done].
  - apply andb_prop in Hb as [Hn Hb]. cbn [print] in Hf |- *. rewrite print_named. cbn [app getType peek next mbind outcome_bind].
    change (simple_type "{") with (@None ffi_type). cbn [Ascii.eqb Bool.eqb]. rewrite <- !app_assoc. unfold getStructType.
    cbn [app]. rewrite skip_to_ok by done. cbn [mbind outcome_bind next].
    simpl length in Hf. rewrite length_app in Hf. simpl length in Hf. rewrite length_app in Hf.
    rewrite members_ok; [done|by left| |done|lia|lia]. eapply Forall_impl; [exact IH|]. simpl. auto.
  - done.
  - apply andb_prop in Hb as [Hq Hb]. destruct (qualifier_free q Hq) as (_ & _ & _ & H3 & _ & Hs & H4 & H5 & H6 & H7).
    cbn [print app getType peek next mbind outcome_bind] in Hf |- *. simpl length in Hf.
    rewrite Hs, H4, (proj2 (Ascii.eqb_neq q "^") H3), H5, H6, H7, Hq. apply IH; [done|done|lia].
Qed.

(** ** Termination *)

(** The computation does not run out of fuel, and the string it leaves,
    [f a], is at least [k] characters shorter than [s]. *)
Definition consumes {A} (f : A → cstr) (k : nat) (s : cstr) (m : outcome A) : Prop :=
  match m with
  | Ret a => (length (f a) + k ≤ length s)%nat
  | Stop OutOfFuel => False
  | Stop _ => True
  end.

Lemma consumes_bind {A B} (f : A → cstr) (g : B → cstr) j k n s (m : outcome A) (h : A → outcome B) :
  consumes f j s m → (∀ a, m = Ret a → consumes g k (f a) (h a)) → (n ≤ j + k)%nat → consumes g n s (m ≫= h).
Proof.
  intros Hm Hh Hn. destruct m as [a|[]]; simpl in *; try done. specialize (Hh a eq_refl).
  destruct (h a) as [b|[]]; simpl in *; (done || lia).
Qed.

Lemma consumes_le {A} (f : A → cstr) j k s (m : outcome A) : consumes f k s m → (j ≤ k)%nat → consumes f j s m.
Proof. intros H Hj. destruct m as [a|[]]; simpl in *; (done || lia). Qed.

Lemma consumes_check {A B} (m : outcome A) (h : A → outcome B) (g : B → cstr) k s :
  m ≠ Stop OutOfFuel → (∀ a, m = Ret a → consumes g k s (h a)) → consumes g k s (m ≫= h).
Proof. intros Hm Hh. destruct m as [a|[]]; simpl in *; (done || auto). Qed.

Lemma peek_fuel s : peek s ≠ Stop OutOfFuel.
Proof. by destruct s. Qed.

Lemma c_assert_fuel b : c_assert b ≠ Stop OutOfFuel.
Proof. by destruct b. Qed.

Lemma next_consumes s : consumes id 1 s (next s).
Proof. destruct s; simpl; [done|lia]. Qed.

Lemma skip_to_consumes c s : consumes id 0 s (skip_to c s).
Proof.
  induction s as [|d s IH]; [done|]. cbn [skip_to]. destruct (Ascii.eqb d c); [simpl; lia|].
  destruct (skip_to c s) as [s'|[]]; simpl in *; (done || lia).
Qed.

Lemma aggregate_consumes o c left s : consumes id 0 s (aggregate_loop o c left s).
Proof.
  revert left. induction s as [|d s IH]; intros left; cbn [aggregate_loop]; destruct (left =? 0); [simpl; lia|done|simpl; lia|].
  cbv zeta. match goal with |- context [aggregate_loop o c ?l s] => specialize (IH l) end.
  destruct (aggregate_loop o c _ s) as [s'|[]]; simpl in *; (done || lia).
Qed.

Lemma skip_object_consumes s : consumes snd 0 s (skip_object s).
Proof.
  unfold skip_object. apply consumes_check; [apply peek_fuel|]. intros c _. destruct (Ascii.eqb c QUOTE); [|destruct (Ascii.eqb c "?")].
  - eapply consumes_bind with (k := 0%nat); [apply next_consumes| |lia]. intros s1 _.
    eapply consumes_bind with (k := 0%nat); [apply skip_to_consumes| |lia]. intros s2 _.
    eapply consumes_bind with (k := 0%nat); [apply next_consumes| |lia]. intros s3 _. simpl. lia.
  - eapply consumes_bind with (k := 0%nat); [apply next_consumes| |lia]. intros s1 _.
    apply consumes_check; [apply peek_fuel|]. intros d _. destruct (Ascii.eqb d "<"); [|simpl; lia].
    eapply consumes_bind with (k := 0%nat); [apply skip_to_consumes| |lia]. intros s2 _.
    eapply consumes_bind with (k := 0%nat); [apply next_consumes| |lia]. intros s3 _. simpl. lia.
  - simpl. lia.
Qed.

Lemma moveFwdAType_consumes s : consumes id 1 s (moveFwdAType s).
Proof.
  induction s as [|c s IH]; [done|]. cbn [moveFwdAType].
  assert (∀ m, consumes id 0 s m → consumes id 1 (c :: s) m) as Hc.
  { intros m Hm. destruct m as [s'|[]]; simpl in *; (done || lia). }
  repeat case_match; try done; try (simpl; lia); apply Hc.
  - apply aggregate_consumes.
  - apply (consumes_le _ 0 1); [done|lia].
  - apply (consumes_le _ 0 1); [done|lia].
  - pose proof (skip_object_consumes s) as Ho. by destruct (skip_object s) as [[]|[]].
Qed.

Lemma digits_consumes s acc : consumes snd 0 s (digits s acc).
Proof.
  revert acc. induction s as [|c s IH]; intros acc; [done|]. cbn [digits]. destruct (isdigit c); [|simpl; lia].
  specialize (IH (acc * 10 + (code c - 48))). destruct (digits s _) as [[]|[]]; simpl in *; (done || lia).
Qed.

Lemma skip_spaces_consumes s : consumes id 0 s (skip_spaces s).
Proof.
  induction s as [|c s IH]; [done|]. cbn [skip_spaces]. destruct (isspace c); [|simpl; lia].
  destruct (skip_spaces s) as [|[]]; simpl in *; (done || lia).
Qed.

Lemma strtol_consumes s : consumes snd 0 s (strtol s).
Proof.
  unfold strtol. pose proof (skip_spaces_consumes s) as Hs. destruct (skip_spaces s) as [s1|[]]; try done.
  cbn [mbind outcome_bind]. apply consumes_check; [apply peek_fuel|]. intros c _. simpl in Hs.
  assert (∀ (b : bool), consumes id 0 s1 (if b then next s1 else Ret s1)) as Hn.
  { intros []; [|simpl; lia]. apply (consumes_le _ 0 1); [apply next_consumes|lia]. }
  specialize (Hn (Ascii.eqb c "-" || Ascii.eqb c "+")).
  destruct (if Ascii.eqb c "-" || Ascii.eqb c "+" then next s1 else Ret s1) as [s2|[]]; try done.
  cbn [mbind outcome_bind]. apply consumes_check; [apply peek_fuel|]. intros d _. destruct (isdigit d); [|simpl; lia].
  pose proof (digits_consumes s2 0) as Hd. destruct (digits s2 0) as [[]|[]]; simpl in *; (done || lia).
Qed.

(** [getType] with enough fuel. *)
Definition fueled (fuel : nat) : Prop := ∀ arr (s : cstr), (length s ≤ fuel)%nat → consumes snd 1 s (getType fuel arr s).

Lemma members_consumes fuel close n s : fueled fuel → (length s ≤ fuel)%nat → (length s ≤ n)%nat →
  consumes snd 1 s (members (getType fuel) close n s).
Proof.
  intros Hf. revert s. induction n as [|n IH]; intros s Hs Hn; (destruct s as [|c s]; [done|]); cbn [members peek mbind outcome_bind].
  - simpl in Hn. lia.
  - destruct (Ascii.eqb c close); [simpl; lia|].
    eapply consumes_bind with (f := snd) (j := 1%nat) (k := 0%nat); [by apply Hf| |lia]. intros [[ty b] s1] Hg.
    pose proof (Hf true (c :: s) Hs) as Hlen. rewrite Hg in Hlen. simpl in Hlen, Hn, Hs. cbn [snd].
    specialize (IH s1 ltac:(lia) ltac:(lia)). destruct (members _ _ n s1) as [[]|[]]; simpl in *; (done || lia).
Qed.

Lemma getArrayType_consumes fuel arr s : fueled fuel → (length s ≤ fuel)%nat →
  consumes snd 0 s (getArrayType (getType fuel) arr s).
Proof.
  intros Hf Hs. unfold getArrayType. destruct (negb arr).
  - eapply consumes_bind with (k := 0%nat); [apply aggregate_consumes| |lia]. intros s1 _. simpl. lia.
  - pose proof (strtol_consumes s) as Hst. destruct (strtol s) as [[v s1]|[]]; try done. simpl in Hst. cbn [mbind outcome_bind].
    pose proof (Hf true s1 ltac:(lia)) as Hg. destruct (getType fuel true s1) as [[[ty b] s2]|[]]; try done. simpl in Hg.
    cbn [mbind outcome_bind]. apply consumes_check; [apply peek_fuel|]. intros c _.
    apply consumes_check; [apply c_assert_fuel|]. intros _ _.
    pose proof (next_consumes s2) as Hn. destruct (next s2) as [s3|[]]; try done. simpl in Hn. cbn [mbind outcome_bind].
    apply consumes_check; [apply c_assert_fuel|]. intros _ _. simpl. lia.
Qed.

Lemma named_consumes {A} fuel close s (h : list ffi_type → cstr → outcome (A * cstr)) : fueled fuel → (length s ≤ fuel)%nat →
  (∀ l s', consumes snd 0 s' (h l s')) →
  consumes snd 0 s (s ← skip_to "=" s; s ← next s; '(els, s) ← members (getType fuel) close fuel s; h els s).
Proof.
  intros Hf Hs Hh. pose proof (skip_to_consumes "=" s) as H1. destruct (skip_to "=" s) as [s1|[]]; try done.
  simpl in H1. cbn [mbind outcome_bind]. pose proof (next_consumes s1) as H2. destruct (next s1) as [s2|[]]; try done.
  simpl in H2. cbn [mbind outcome_bind]. pose proof (members_consumes fuel close fuel s2 Hf ltac:(lia) ltac:(lia)) as H3.
  destruct (members _ close fuel s2) as [[els s3]|[]]; try done. simpl in H3. cbn [mbind outcome_bind].
  specialize (Hh els s3). destruct (h els s3) as [[]|[]]; simpl in *; (done || lia).
Qed.

Lemma getType_fueled fuel : fueled fuel.
Proof.
  induction fuel as [|fuel IH]; intros arr s Hs; (destruct s as [|c s]; [done|]); cbn [getType peek next mbind outcome_bind].
  { simpl in Hs. lia. }
  simpl in Hs. assert (length s ≤ fuel)%nat as Hs' by lia.
  assert (∀ A (m : outcome A) (f : A → cstr) (h : A → outcome parsed), consumes f 0 s m →
    (∀ a, ∃ ty b, h a = Ret (ty, b, f a)) → consumes snd 1 (c :: s) (m ≫= h)) as Hret.
  { intros A m f h Hm Hh. destruct m as [a|[]]; try done. cbn [mbind outcome_bind]. destruct (Hh a) as (ty & b & ->). simpl in *. lia. }
  repeat case_match; try done; try (simpl; lia).
  - eapply Hret; [apply skip_object_consumes|]. intros [b s1]. by do 2 eexists.
  - eapply (Hret _ _ id); [apply (consumes_le _ 0 1); [apply moveFwdAType_consumes|lia]|]. intros s1. by do 2 eexists.
  - eapply Hret; [by apply getArrayType_consumes|]. intros [ty s1]. by do 2 eexists.
  - eapply Hret; [unfold getStructType; apply named_consumes; [done|done|]|intros [ty s1]; by do 2 eexists]. intros l s'. simpl. lia.
  - eapply Hret; [unfold getUnionType; apply named_consumes; [done|done|]|intros [ty s1]; by do 2 eexists].
    intros l s'. destruct l; simpl; (done || lia).
  - specialize (IH arr s Hs'). destruct (getType fuel arr s) as [[[]]|[]]; simpl in *; (done || lia).
Qed.

Lemma parse_args_fuel fuel n cnt mask s : (length s ≤ fuel)%nat → (length s ≤ n)%nat →
  parse_args fuel n cnt mask s ≠ Stop OutOfFuel.
Proof.
  revert cnt mask s. induction n as [|n IH]; intros cnt mask s Hs Hn; (destruct s as [|c s]; [done|]);
    cbn [parse_args peek mbind outcome_bind]; [simpl in Hn; lia|]. destruct (Ascii.eqb c NUL); [done|].
  pose proof (getType_fueled fuel false (c :: s) Hs) as Hg. destruct (getType fuel false (c :: s)) as [[[ty b] s1]|[]]; try done.
  cbn [mbind outcome_bind]. pose proof (strtol_consumes s1) as Hst. destruct (strtol s1) as [[v s2]|[]]; try done.
  simpl in Hg, Hst, Hn, Hs. cbn [mbind outcome_bind]. unfold bit64.
  assert (∀ cnt mask, parse_args fuel n cnt mask s2 ≠ Stop OutOfFuel) as HIH by (intros; apply IH; lia).
  destruct b; [destruct (cnt <? 64); [|done]|]; cbn [mbind outcome_bind];
    match goal with |- context [parse_args fuel n ?c ?m s2] => specialize (HIH c m); destruct (parse_args fuel n c m s2) as [[]|[]] end; done.
Qed.

(** ** Signatures *)

(** A type and the frame offset that may follow it. *)
Abbreviation item := (enc * option Z)%type.

Definition print_item (i : item) : list ascii :=
  print i.1 ++ match i.2 with Some n => numeral n | None => [] end.

Definition item_ok (i : item) : Prop :=
  buildable false i.1 = true ∧ match i.2 with Some n => 0 ≤ n < 2 ^ 63 | None => True end.

(** The return type and the arguments. *)
Definition signature (ret : item) (args : list item) : cstr :=
  print_item ret ++ flat_map print_item args ++ [NUL].

(** The character that ends an item. *)
Definition item_end (s : cstr) : Prop :=
  ∃ c l, s = c :: l ∧ sep s = true ∧ isdigit c = false ∧ isspace c = false ∧ Ascii.eqb c "-" = false ∧ Ascii.eqb c "+" = false.

Lemma items_end args : Forall item_ok args → item_end (flat_map print_item args ++ [NUL]).
Proof.
  intros [|i l [Hb _] _]; [by exists NUL, []|]. cbn [flat_map]. unfold print_item. rewrite <- !app_assoc.
  destruct (print_head false i.1 Hb) as (c & t & -> & Hc). destruct (head_ok_facts c Hc) as (? & _ & _ & ? & ? & ? & ? & _).
  by exists c, (t ++ (match i.2 with Some n => numeral n | None => [] end) ++ flat_map print_item l ++ [NUL]).
Qed.

Lemma item_reads fuel i s : item_ok i → item_end s → (length (print_item i ++ s) ≤ fuel)%nat →
  ∃ s', getType fuel false (print_item i ++ s) = Ret (fresh (denote false i.1), is_block i.1, s') ∧ ∃ v, strtol s' = Ret (v, s).
Proof.
  intros [Hb Ho] (c & l & -> & Hs & Hd & Hsp & Hm & Hp) Hf. unfold print_item in *. rewrite <- app_assoc.
  eexists. split; [apply getType_reads; [done| |rewrite !length_app in Hf; lia]|].
  - destruct i.2 as [n|]; [|done]. destruct (numeral_head n) as (d & t & -> & Hdig); [lia|]. simpl.
    destruct d as [[] [] [] [] [] [] [] []]; try discriminate Hdig; by vm_compute.
  - destruct i.2 as [n|]; eexists; [by apply strtol_numeral|by apply strtol_none].
Qed.

(** The mask with the bits of the blocks among the arguments. *)
Fixpoint add_blocks (cnt mask : Z) (args : list item) : Z :=
  match args with
  | [] => mask
  | i :: args => add_blocks (cnt + 1) (if is_block i.1 then Z.lor mask (Z.shiftl 1 cnt) else mask) args
  end.

Lemma parse_args_ok fuel n cnt mask args : Forall item_ok args → 0 ≤ cnt → cnt + Z.of_nat (length args) ≤ 64 →
  (length (flat_map print_item args ++ [NUL]) ≤ fuel)%nat → (length (flat_map print_item args ++ [NUL]) ≤ n)%nat →
  parse_args fuel n cnt mask (flat_map print_item args ++ [NUL]) =
    Ret (map (λ i, fresh (denote false i.1)) args, add_blocks cnt mask args).
Proof.
  intros Hok. revert n cnt mask. induction Hok as [|i args Hi Hok IH]; intros n cnt mask Hc Hlen Hf Hn; [by destruct n|].
  pose proof Hi as [Hb _]. destruct (print_head false i.1 Hb) as (c & t & Ht & Hh).
  destruct (head_ok_facts c Hh) as (_ & _ & Hnul & _). cbn [flat_map] in *. rewrite <- app_assoc in *.
  assert (1 ≤ length (print_item i))%nat by (unfold print_item; rewrite Ht, length_app; simpl; lia).
  destruct (item_reads fuel i _ Hi (items_end args Hok) Hf) as (s' & Hg & v & Hst).
  rewrite length_app in Hf, Hn. destruct n as [|n]; [lia|]. cbn [parse_args].
  assert (peek (print_item i ++ flat_map print_item args ++ [NUL]) = Ret c) as ->
    by (unfold print_item; by rewrite <- app_assoc, Ht).
  cbn [mbind outcome_bind]. rewrite Hnul, Hg. cbn [mbind outcome_bind]. rewrite Hst. cbn [mbind outcome_bind].
  simpl length in Hlen. rewrite (wrap_small 32) by (unfold in_u; lia). cbn [map add_blocks].
  unfold bit64. rewrite (proj2 (Z.ltb_lt cnt 64)) by lia.
  destruct (is_block i.1); cbn [mbind outcome_bind]; by rewrite IH by lia.
Qed.

Lemma add_blocks_testbit args cnt mask k : 0 ≤ cnt → 0 ≤ k →
  Z.testbit (add_blocks cnt mask args) k =
    Z.testbit mask k || (if cnt <=? k then match args !! Z.to_nat (k - cnt) with Some i => is_block i.1 | None => false end else false).
Proof.
  revert cnt mask. induction args as [|i args IH]; intros cnt mask Hc Hk; cbn [add_blocks].
  { rewrite lookup_nil. by destruct (cnt <=? k); rewrite orb_false_r. }
  rewrite IH by lia. assert (Z.testbit (if is_block i.1 then Z.lor mask (Z.shiftl 1 cnt) else mask) k =
    Z.testbit mask k || (is_block i.1 && (cnt =? k))) as ->.
  { destruct (is_block i.1); [|by rewrite orb_false_r]. rewrite Z.lor_spec, Z.shiftl_spec by lia. f_equal.
    destruct (Z.eqb_spec cnt k) as [->|Hne]; [by rewrite Z.sub_diag|].
    destruct (Z.lt_ge_cases k cnt); [by rewrite Z.testbit_neg_r by lia|].
    rewrite Z.testbit_odd, Z.shiftr_div_pow2, Z.div_small; [done| |lia]. split; [done|]. apply Z.pow_gt_1; lia. }
  rewrite <- orb_assoc. f_equal. destruct (Z.eqb_spec cnt k) as [->|Hne].
  - rewrite (proj2 (Z.leb_gt (k + 1) k)), Z.leb_refl, Z.sub_diag by lia. cbn. by rewrite andb_true_r, orb_false_r.
  - rewrite andb_false_r. cbn [orb]. destruct (Z.leb_spec (cnt + 1) k), (Z.leb_spec cnt k); try lia.
    by replace (Z.to_nat (k - cnt)) with (S (Z.to_nat (k - (cnt + 1)))) by lia.
Qed.

Definition mark (b : bool) (x : ABIArgInfo) : ABIArgInfo := if b then or_mask TE_MASK_BLOCK x else x.

(** A description with the blocks marked. *)
Definition with_blocks (ret : enc) (args : list enc) (fi : ABIFnInfo) : ABIFnInfo :=
  set_ainfo (zip_with (λ e x, mark (is_block e) x) args (ainfo fi)) (set_rinfo (mark (is_block ret) (rinfo fi)) fi).

Lemma land_bit m i : 0 ≤ i → (Z.land m (Z.shiftl 1 i) =? 0) = negb (Z.testbit m i).
Proof.
  intros Hi. rewrite Z.shiftl_1_l. destruct (Z.testbit m i) eqn:Hb; cbn [negb].
  - apply Z.eqb_neq. intros H. assert (Z.testbit (Z.land m (2 ^ i)) i = false) as Hc by (by rewrite H, Z.bits_0).
    by rewrite Z.land_spec, Hb, Z.pow2_bits_true in Hc.
  - apply Z.eqb_eq, Z.bits_inj'. intros k Hk. rewrite Z.land_spec, Z.bits_0, Z.pow2_bits_eqb by done.
    destruct (Z.eqb_spec i k) as [->|]; [by rewrite Hb|by rewrite andb_false_r].
Qed.

Lemma mark_args_ok m pre suf es : Z.of_nat (length pre + length suf) ≤ 64 → length es = length suf →
  (∀ j e, es !! j = Some e → Z.testbit m (Z.of_nat (length pre + j)) = is_block e) →
  mark_args m (length pre) (length suf) (pre ++ suf) = Ret (pre ++ zip_with (λ e x, mark (is_block e) x) es suf).
Proof.
  revert pre es. induction suf as [|x suf IH]; intros pre es Hl Hes Hbit; [by destruct es|].
  destruct es as [|e es]; [done|]. simpl length in *. cbn [mark_args]. unfold bit64.
  rewrite (proj2 (Z.ltb_lt _ 64)) by lia. cbn [mbind outcome_bind]. rewrite land_bit by lia.
  pose proof (Hbit 0%nat e eq_refl) as H0. rewrite Nat.add_0_r in H0. rewrite H0.
  assert (mark_args m (S (length pre)) (length suf) (pre ++ mark (is_block e) x :: suf) =
    Ret (pre ++ mark (is_block e) x :: zip_with (λ e x, mark (is_block e) x) es suf)) as Hrec.
  { specialize (IH (pre ++ [mark (is_block e) x]) es). rewrite length_app in IH. simpl length in IH.
    rewrite <- !app_assoc in IH. replace (length pre + 1)%nat with (S (length pre)) in IH by lia. apply IH; [lia|lia|].
    intros j e' Hj. replace (S (length pre) + j)%nat with (length pre + S j)%nat by lia. by apply (Hbit (S j)). }
  cbn [zip_with]. rewrite <- Hrec. destruct (is_block e); cbn [negb mark mbind outcome_bind]; [|done].
  unfold c_update, c_index. rewrite list_lookup_middle by done. cbn [mbind outcome_bind].
  by rewrite insert_app_r_alt, Nat.sub_diag by lia.
Qed.

Lemma mark_blocks_ok (retb : bool) ret args fi : length (ainfo fi) = length args → (length args ≤ 63)%nat → is_block ret = retb →
  mark_blocks (add_blocks 0 (if retb then Z.shiftl 1 63 else 0) args) (length args) fi = Ret (with_blocks ret args.*1 fi).
Proof.
  intros Hl H63 <-. unfold mark_blocks. rewrite land_bit by lia. rewrite add_blocks_testbit by lia.
  assert (args !! Z.to_nat (63 - 0) = None) as -> by (apply lookup_ge_None; lia).
  assert (∀ k, 0 ≤ k < 63 → Z.testbit (if is_block ret then Z.shiftl 1 63 else 0) k = false) as Hlow.
  { intros k Hk. destruct (is_block ret); [|apply Z.bits_0]. rewrite Z.shiftl_1_l. apply Z.pow2_bits_false. lia. }
  set (fi' := if negb _ then fi else _). assert (ainfo fi' = ainfo fi) as Hai by (unfold fi'; by case_match).
  rewrite Hai, <- Hl. pose proof (mark_args_ok (add_blocks 0 (if is_block ret then Z.shiftl 1 63 else 0) args) [] (ainfo fi) args.*1) as Hm.
  simpl in Hm. rewrite Hm; clear Hm; [|lia|by rewrite length_fmap|].
  - cbn [mbind outcome_bind]. unfold with_blocks, fi'. f_equal. by destruct (is_block ret).
  - intros j e Hj. apply list_lookup_fmap_Some in Hj as (i & -> & Hj). pose proof (lookup_lt_Some _ _ _ Hj).
    rewrite add_blocks_testbit, Hlow by lia. cbn [orb]. rewrite (proj2 (Z.leb_le 0 _)) by lia.
    by rewrite Z.sub_0_r, Nat2Z.id, Hj.
Qed.

(** *** The descriptions *)

Lemma fn_info_lengths nf rt cs : length (ainfo (xx_fn_info rt cs)) = length cs ∧ length (ainfo (aa_fn_info nf rt cs)) = length cs.
Proof.
  unfold xx_fn_info, aa_fn_info. pose proof (xplaces_length cs (xalloc0 rt)) as Hx.
  pose proof (place_args_length nf cs 0 alloc0) as Ha. destruct (xplaces _ _), (place_args _ _ _ _). simpl in *.
  unfold x_arg_infos, arg_infos. rewrite !length_zip_with. lia.
Qed.

Lemma handle_ok ret args nfixed aa0 xx0 :
  item_ok ret → Forall item_ok args → (length args ≤ 63)%nat →
  let rt := denote false ret.1 in let cs := map (λ i : item, denote false i.1) args in
  proto_ok rt cs → stack_room cs + 8 < 2 ^ 31 → nfixed = InvalidValue ∨ 1 ≤ nfixed ≤ Z.of_nat (length args) →
  handle (signature ret args) (Some aa0) (Some xx0) nfixed =
    Ret (true, Some (with_blocks ret.1 args.*1 (aa_fn_info (if nfixed =? InvalidValue then 0 else nfixed) rt cs)),
         Some (with_blocks ret.1 args.*1 (xx_fn_info rt cs))).
Proof.
  intros Hret Hargs H63 rt cs Hp Hroom Hnf. set (s := signature ret args).
  destruct (item_reads (length s) ret _ Hret (items_end args Hargs) ltac:(done)) as (s' & Hg & v & Hst).
  destruct (print_head false ret.1 (proj1 Hret)) as (c & t & Ht & Hh). destruct (head_ok_facts c Hh) as (_ & _ & Hnul & _).
  assert (peek s = Ret c) as Hpk by (unfold s, signature, print_item; by rewrite <- !app_assoc, Ht).
  assert (length cs = length args) as Hl by (unfold cs; by rewrite length_map).
  assert (map (λ i : item, fresh (denote false i.1)) args = map fresh cs) as Hfr by (unfold cs; by rewrite map_map).
  destruct (fn_info_lengths (if nfixed =? InvalidValue then 0 else nfixed) rt cs) as [Hlx Hla].
  destruct (xx_core_refines rt cs Hp Hroom) as (xcif & Hxx & Hxt & Hxr).
  unfold handle. rewrite Hpk. cbn [mbind outcome_bind]. rewrite Hnul.
  change (print_item ret ++ flat_map print_item args ++ [NUL]) with s in Hg. rewrite Hg. cbn [mbind outcome_bind]. rewrite Hst.
  cbn [mbind outcome_bind]. rewrite (parse_args_ok (length s)); [|done|lia|lia|unfold s, signature; rewrite !length_app; lia..].
  cbn [mbind outcome_bind]. unfold handle_xx. fold rt. rewrite Hfr, length_map, Hxx. cbn [mbind outcome_bind].
  rewrite Hl, (mark_blocks_ok _ ret.1) by (done || lia || congruence). cbn [mbind outcome_bind negb]. rewrite Hxt, Hxr.
  unfold handle_aa. rewrite length_map.
  assert (∃ cif, (if nfixed =? InvalidValue
    then my_aa_fi_prep_cif AA_FI_DEFAULT_ABI (Z.of_nat (length cs)) (laid rt) (map laid cs) (Some (zero_fn_info (length cs)))
    else my_aa_fi_prep_cif_var AA_FI_DEFAULT_ABI nfixed (Z.of_nat (length cs)) (laid rt) (map laid cs) (Some (zero_fn_info (length cs)))) =
    Ret (FFI_OK, cif, Some (aa_fn_info (if nfixed =? InvalidValue then 0 else nfixed) rt cs))) as [cif ->].
  { destruct (Z.eqb_spec nfixed InvalidValue) as [->|Hne].
    - destruct (aa_core_refines false (Z.of_nat (length cs)) rt cs Hp ltac:(lia)) as (cif & Hc & _). exists cif. by apply aa_core_laid.
    - destruct (aa_core_refines true nfixed rt cs Hp ltac:(destruct Hnf; [done|lia])) as (cif & Hc & _). exists cif. by apply aa_core_laid. }
  cbn [mbind outcome_bind]. rewrite Hl, (mark_blocks_ok _ ret.1) by (done || lia || congruence). done.
Qed.

(** ** Properties *)

(** C21.  Parsing a printed type encoding gives the descriptor of its C type,
    says whether it is a block, and stops right behind it, with as much fuel
    as the text is long: pointers, qualifiers, objects, nested structures and
    arrays included. *)
Theorem getType_roundtrip arr e rest : buildable arr e = true → sep rest = true →
  getType (length (print e)) arr (print e ++ rest) = Ret (fresh (denote arr e), is_block e, rest).
Proof. intros Hb Hr. by apply getType_reads. Qed.

(** C18.  For every well-formed signature of at most 63 arguments,
    [get_fn_info_from_types] succeeds and gives, in both conventions, the
    description of the denoted prototype with the blocks marked. *)
Theorem get_fn_info_from_types_correct ret args aa0 xx0 :
  item_ok ret → Forall item_ok args → (length args ≤ 63)%nat →
  let rt := denote false ret.1 in let cs := map (λ i : item, denote false i.1) args in
  proto_ok rt cs → stack_room cs + 8 < 2 ^ 31 →
  get_fn_info_from_types (signature ret args) (Some aa0) (Some xx0) =
    Ret (true, Some (with_blocks ret.1 args.*1 (aa_fn_info 0 rt cs)), Some (with_blocks ret.1 args.*1 (xx_fn_info rt cs))).
Proof. intros. by apply (handle_ok ret args InvalidValue); [..|left]. Qed.

(** The variadic entry point describes the arguments behind the named
    ones as the Apple variant of the AArch64 convention wants them. *)
Theorem get_vari_fn_info_from_types_correct ret args nfixed aa0 xx0 :
  item_ok ret → Forall item_ok args → (length args ≤ 63)%nat → 1 ≤ nfixed ≤ Z.of_nat (length args) →
  let rt := denote false ret.1 in let cs := map (λ i : item, denote false i.1) args in
  proto_ok rt cs → stack_room cs + 8 < 2 ^ 31 →
  get_vari_fn_info_from_types (signature ret args) nfixed (Some aa0) (Some xx0) =
    Ret (true, Some (with_blocks ret.1 args.*1 (aa_fn_info nfixed rt cs)), Some (with_blocks ret.1 args.*1 (xx_fn_info rt cs))).
Proof.
  intros Hr Ha Hl Hn rt cs Hp Hroom. unfold get_vari_fn_info_from_types. rewrite handle_ok by (done || by right).
  unfold InvalidValue. by rewrite (proj2 (Z.eqb_neq nfixed _)) by lia.
Qed.

(** C35.  On every string the recursion of the parser ends within the length of
    the string, and each type it accepts consumes a character. *)
Theorem types_parser_terminates arr s cnt mask :
  consumes snd 1 s (getType (length s) arr s) ∧ parse_args (length s) (length s) cnt mask s ≠ Stop OutOfFuel.
Proof. split; [by apply getType_fueled|by apply parse_args_fuel]. Qed.

(** A union with members cannot be passed or returned by value: after
    parsing them the parser steps from the descriptor of the first member to
    the memory behind it. *)
Theorem getUnionType_undefined arr name f fs rest fuel : free_of ["="%char] name = true →
  forallb (buildable true) (f :: fs) = true → (length (print (EUnion name (f :: fs))) ≤ fuel)%nat →
  getType fuel arr (print (EUnion name (f :: fs)) ++ rest) = Stop Undefined.
Proof.
  intros Hn Hb Hf. cbn [print] in *. rewrite print_named in *. destruct fuel as [|fuel]; [simpl in Hf; lia|].
  cbn [app getType peek next mbind outcome_bind]. change (simple_type "(") with (@None ffi_type). cbn [Ascii.eqb Bool.eqb].
  rewrite <- !app_assoc. unfold getUnionType. cbn [app]. rewrite skip_to_ok by done. cbn [mbind outcome_bind next].
  cbn [length] in Hf. rewrite !length_app in Hf. cbn [length] in Hf.
  rewrite members_ok; [done|by right| |done|lia|lia]. apply Forall_true. intros e. apply getType_reads.
Qed.

(** The extended encoding of a block that takes a block is not read: the
    skip stops at the inner closing bracket and the next character aborts. *)
Theorem nested_block_signature_aborts aa xx :
  get_fn_info_from_types (c_string "v@?<v@?@?<v@?>>") aa xx = Stop Aborted.
Proof. by vm_compute. Qed.

(** ** Witnesses *)

Definition example_enc : enc :=
  EQual "r" (EStruct (chars "S") [ELetter "d"; EArr 3 (ELetter "i"); EPtr (EUnion (chars "U") [ELetter "f"; EUnknown])]).

Lemma getType_roundtrip_witness :
  print example_enc = chars "r{S=d[3i]^(U=f?)}" ∧
  getType (length (print example_enc)) false (print example_enc ++ [NUL]) =
    Ret (fresh (CStruct [CScalar SDouble; CStruct [CScalar SS32; CScalar SS32; CScalar SS32]; CScalar SPtr]), false, [NUL]).
Proof. split; [reflexivity|]. apply (getType_roundtrip false example_enc [NUL]); reflexivity. Defined.

(** [- (void)m:(CGSize)s done:(void (^)(void))b] *)
Definition example_ret_item : item := (ELetter "v", Some 40).
Definition example_items : list item :=
  [(EId None, Some 0); (ELetter ":", Some 8); (EStruct (chars "CGSize") [ELetter "d"; ELetter "d"], Some 16); (EBlock None, Some 32)].

Lemma example_items_ok : Forall item_ok example_items.
Proof. repeat (constructor; [by split; [|simpl; lia]|]). constructor. Qed.

Lemma get_fn_info_from_types_correct_witness :
  signature example_ret_item example_items = c_string "v40@0:8{CGSize=dd}16@?32" ∧
  ∃ aa xx, get_fn_info_from_types (c_string "v40@0:8{CGSize=dd}16@?32") (Some (zero_fn_info 0)) (Some (zero_fn_info 0)) =
    Ret (true, Some aa, Some xx) ∧ te_is_block <$> ainfo aa !! 3%nat = Some true.
Proof.
  split; [reflexivity|]. do 2 eexists. split.
  - apply (get_fn_info_from_types_correct example_ret_item example_items (zero_fn_info 0) (zero_fn_info 0)).
    + by split.
    + exact example_items_ok.
    + simpl. lia.
    + solve_proto.
    + reflexivity.
  - reflexivity.
Defined.

Lemma get_vari_fn_info_from_types_correct_witness :
  ∃ aa xx, get_vari_fn_info_from_types (signature example_ret_item example_items) 2 (Some (zero_fn_info 0)) (Some (zero_fn_info 0)) =
    Ret (true, Some aa, Some xx) ∧ te_is_mem <$> ainfo aa !! 2%nat = Some true.
Proof.
  do 2 eexists. split.
  - apply (get_vari_fn_info_from_types_correct example_ret_item example_items 2 (zero_fn_info 0) (zero_fn_info 0)).
    + by split.
    + exact example_items_ok.
    + simpl. lia.
    + simpl. lia.
    + solve_proto.
    + reflexivity.
  - reflexivity.
Defined.

Lemma getUnionType_undefined_witness : getType 8 true (c_string "(U=if)") = Stop Undefined.
Proof. apply (getUnionType_undefined true (chars "U") (ELetter "i") [ELetter "f"] [NUL] 8); [reflexivity|reflexivity|simpl; lia]. Defined.
