(* ===== verification/FmtStr.v ===== *)
(** * [fmtstrParser.c]: format strings of the printf and scanf families

    A format string is turned into a type encoding, one letter per argument,
    which the type parser then describes in both conventions.  The loops of
    the two entry points keep their whole state in a record; [printf_round]
    and [scanf_round] are one iteration, and the drivers run them on fuel. *)

From S2P Require Import CString Prelude ABIArgInfo TypesParser.

Definition FIELD_FLAGS_PARSED : Z := Z.shiftl 1 0.
Definition FIELD_WIDTH_PARSED : Z := Z.shiftl 1 1.
Definition FIELD_PRECISION_PARSED : Z := Z.shiftl 1 2.
Definition FIELD_LENGTH_PARSED : Z := Z.shiftl 1 3.
Definition PRINTF_FIELD_ALL_PARSED : Z :=
  Z.lor (Z.lor FIELD_FLAGS_PARSED FIELD_WIDTH_PARSED) (Z.lor FIELD_PRECISION_PARSED FIELD_LENGTH_PARSED).
Definition SCANF_FIELD_ALL_PARSED : Z := Z.lor FIELD_WIDTH_PARSED FIELD_LENGTH_PARSED.

(** [field_mask & f] *)
Definition parsed_field (field_mask f : Z) : bool := negb (Z.land field_mask f =? 0).

Inductive arg_type : Set :=
| FS_TYPE_NONE | FS_TYPE_INT | FS_TYPE_UINT | FS_TYPE_DOUBLE | FS_TYPE_POINTER | FS_TYPE_CHAR.

(** [(char)ty] *)
Definition type_char (ty : arg_type) : ascii :=
  match ty with
  | FS_TYPE_NONE => NUL | FS_TYPE_INT => "i" | FS_TYPE_UINT => "I" | FS_TYPE_DOUBLE => "d"
  | FS_TYPE_POINTER => "*" | FS_TYPE_CHAR => "c"
  end.

(** ** The fields of a conversion *)

(** The position and the rest. *)
Definition parse_parameter_field (s : cstr) : outcome (Z * cstr) :=
  c ← peek s;
  if negb (isdigit c) then Ret (0, s) else
  '(n, ed) ← strtol s;
  e ← peek ed;
  if Ascii.eqb "$" e then ed ← next ed; Ret (u32 n, ed) else Ret (0, s).

(** The loop [while (cond( *str)) { ++str; mask |= f }]. *)
Fixpoint span_field (cond : ascii → bool) (f : Z) (s : cstr) (field_mask : Z) : outcome (cstr * Z) :=
  match s with
  | [] => Stop Undefined
  | c :: s' => if cond c then span_field cond f s' (Z.lor field_mask f) else Ret (s, field_mask)
  end.

Definition flag_chars : list ascii := chars "-+ 0'#".
Definition length_chars : list ascii := chars "hlLzjtI3264q".

Definition parse_flags_field (s : cstr) (field_mask : Z) : outcome (cstr * Z) :=
  span_field (strchr flag_chars) FIELD_FLAGS_PARSED s field_mask.

(** A [*]: in a numbered format followed by a position and a dollar sign. *)
Definition parse_asterisk (s : cstr) (numbered : bool) : outcome (Z * cstr) :=
  if numbered then
    '(n, ed) ← strtol s;
    e ← peek ed;
    if Ascii.eqb "$" e then ed ← next ed; Ret (u32 n, ed) else Ret (u32 n, s)
  else Ret (0, s).

(** The rest, [*asterisk], [*pos_ell] and the mask. *)
Definition parse_width_field (s : cstr) (numbered : bool) (field_mask : Z) : outcome (cstr * bool * Z * Z) :=
  c ← peek s;
  if Ascii.eqb "*" c then
    s ← next s;
    '(pos, s) ← parse_asterisk s numbered;
    Ret (s, true, pos, Z.lor field_mask FIELD_WIDTH_PARSED)
  else
    '(s, field_mask) ← span_field isdigit FIELD_WIDTH_PARSED s field_mask;
    Ret (s, false, 0, field_mask).

Definition parse_precision_field (s : cstr) (numbered : bool) (field_mask : Z) : outcome (cstr * bool * Z * Z) :=
  c ← peek s;
  if negb (Ascii.eqb "." c) then Ret (s, false, 0, field_mask) else
  let field_mask := Z.lor field_mask FIELD_PRECISION_PARSED in
  s ← next s;
  c ← peek s;
  if Ascii.eqb "*" c then
    s ← next s;
    '(pos, s) ← parse_asterisk s numbered;
    Ret (s, true, pos, field_mask)
  else
    '(s, _) ← span_field isdigit 0 s 0;
    Ret (s, false, 0, field_mask).

Definition parse_length_field (s : cstr) (field_mask : Z) : outcome (cstr * Z) :=
  span_field (strchr length_chars) FIELD_LENGTH_PARSED s field_mask.

(** The type a conversion character stands for. *)
Definition printf_type (c : ascii) : option arg_type :=
  match c with
  | "%"%char => Some FS_TYPE_NONE
  | "d"%char | "i"%char => Some FS_TYPE_INT
  | "u"%char | "x"%char | "X"%char | "o"%char => Some FS_TYPE_UINT
  | "f"%char | "F"%char | "e"%char | "E"%char | "g"%char | "G"%char | "a"%char | "A"%char => Some FS_TYPE_DOUBLE
  | "s"%char | "S"%char | "@"%char | "p"%char | "n"%char => Some FS_TYPE_POINTER
  | "c"%char | "C"%char => Some FS_TYPE_CHAR
  | _ => None
  end.

(** [None] is the null pointer.  [inb] says that the text is inside braces, as
    in [%{public}s]. *)
Fixpoint type_field (inb : bool) (s : cstr) : outcome (option (arg_type * cstr)) :=
  match s with
  | [] => Stop Undefined
  | c :: s =>
      if inb then (if Ascii.eqb "}" c then type_field false s else type_field true s)
      else match printf_type c with
           | Some ty => Ret (Some (ty, s))
           | None => if Ascii.eqb "{" c then type_field true s else Ret None
           end
  end.

Definition parse_type_field (s : cstr) : outcome (option (arg_type * cstr)) := type_field false s.

Definition scanf_type (c : ascii) : option arg_type :=
  match c with
  | "%"%char => Some FS_TYPE_NONE
  | "d"%char | "i"%char | "u"%char | "o"%char | "x"%char | "f"%char | "e"%char | "g"%char | "a"%char
  | "c"%char | "s"%char | "p"%char | "n"%char | "["%char => Some FS_TYPE_POINTER
  | _ => None
  end.

Fixpoint specifier_field (inb : bool) (s : cstr) : outcome (option (arg_type * cstr)) :=
  match s with
  | [] => Stop Undefined
  | c :: s' =>
      if inb then (if Ascii.eqb "}" c then specifier_field false s' else specifier_field true s')
      else match scanf_type c with
           | Some ty =>
               s ← (if Ascii.eqb "[" c then skip_to "]" s else Ret s);
               s ← next s; Ret (Some (ty, s))
           | None => if Ascii.eqb "{" c then specifier_field true s' else Ret None
           end
  end.

Definition parse_specifier_field (s : cstr) : outcome (option (arg_type * cstr)) := specifier_field false s.

Fixpoint move_behind_percent (s : cstr) : outcome cstr :=
  match s with
  | [] => Stop Undefined
  | c :: s' =>
      if Ascii.eqb c NUL then Ret s else if Ascii.eqb c "%" then Ret s' else move_behind_percent s'
  end.

(** ** The type string: a [GString] *)

(** [types->str] is [types] and a NUL; [types] itself may contain one. *)
Definition gstr (types : list ascii) : cstr := types ++ [NUL].

Definition append_c (types : list ascii) (c : ascii) : list ascii := types ++ [c].

(** [if (size < idx + 1)] append [idx + 1 - size] pointers, where [size] is
    [strlen(types->str)]. *)
Definition pad_types (types : list ascii) (idx : Z) : outcome (list ascii) :=
  n ← strlen (gstr types);
  let size := u32 n in
  if size <? u32 (idx + 1)
  then Ret (types ++ replicate (Z.to_nat (u32 (u32 (idx + 1) - size))) (type_char FS_TYPE_POINTER))
  else Ret types.

(** [types->str[idx] = c] *)
Definition set_c (types : list ascii) (idx : Z) (c : ascii) : outcome (list ascii) :=
  c_update types (Z.to_nat idx) (λ _, Ret c).

(** ** [parse_fmtstr] *)

Record printf_state := mk_printf {
  pf_str : cstr;
  pf_new_round : bool;
  pf_mask : Z;
  pf_pos : Z;
  pf_idx : Z;
  pf_width_idx : Z;
  pf_precision_idx : Z;
  pf_need_width : bool;
  pf_need_precision : bool;
  pf_types : list ascii
}.

(** What a round does: leave the loop, or go on. *)
Inductive round (S : Type) : Type := Break (types : list ascii) | Continue (st : S).
Arguments Break {S} types.
Arguments Continue {S} st.

(** The start of a new round; [None] leaves the loop. *)
Definition printf_begin (nfixed : Z) (st : printf_state) : outcome (option printf_state) :=
  if negb (pf_new_round st) then Ret (Some st) else
  s ← move_behind_percent (pf_str st);
  c ← peek s;
  if Ascii.eqb NUL c then Ret None else
  '(pos, s) ← parse_parameter_field s;
  let idx := u32 (nfixed + pos) in
  types ← pad_types (pf_types st) idx;
  Ret (Some (mk_printf s true 0 pos idx (pf_width_idx st) (pf_precision_idx st)
               (pf_need_width st) (pf_need_precision st) types)).

Definition printf_flags (st : printf_state) : outcome printf_state :=
  if parsed_field (pf_mask st) FIELD_FLAGS_PARSED then Ret st else
  '(s, mask) ← parse_flags_field (pf_str st) (pf_mask st);
  Ret (mk_printf s (pf_new_round st) mask (pf_pos st) (pf_idx st) (pf_width_idx st) (pf_precision_idx st)
         (pf_need_width st) (pf_need_precision st) (pf_types st)).

Definition printf_width (nfixed : Z) (st : printf_state) : outcome printf_state :=
  if parsed_field (pf_mask st) FIELD_WIDTH_PARSED then Ret st else
  '(s, need, pos, mask) ← parse_width_field (pf_str st) (negb (pf_pos st =? 0)) (pf_mask st);
  let idx := u32 (nfixed + pos) in
  types ← pad_types (pf_types st) idx;
  Ret (mk_printf s (pf_new_round st) mask (pf_pos st) (pf_idx st) idx (pf_precision_idx st)
         need (pf_need_precision st) types).

Definition printf_precision (nfixed : Z) (st : printf_state) : outcome printf_state :=
  if parsed_field (pf_mask st) FIELD_PRECISION_PARSED then Ret st else
  '(s, need, pos, mask) ← parse_precision_field (pf_str st) (negb (pf_pos st =? 0)) (pf_mask st);
  let idx := u32 (nfixed + pos) in
  types ← pad_types (pf_types st) idx;
  Ret (mk_printf s (pf_new_round st) mask (pf_pos st) (pf_idx st) (pf_width_idx st) idx
         (pf_need_width st) need types).

Definition printf_length (st : printf_state) : outcome printf_state :=
  if parsed_field (pf_mask st) FIELD_LENGTH_PARSED then Ret st else
  '(s, mask) ← parse_length_field (pf_str st) (pf_mask st);
  Ret (mk_printf s (pf_new_round st) mask (pf_pos st) (pf_idx st) (pf_width_idx st) (pf_precision_idx st)
         (pf_need_width st) (pf_need_precision st) (pf_types st)).

(** The types a completed conversion adds. *)
Definition printf_emit (st : printf_state) (ty : arg_type) : outcome (list ascii) :=
  if negb (pf_pos st =? 0) then
    types ← set_c (pf_types st) (pf_idx st) (type_char ty);
    types ← (if pf_need_width st then set_c types (pf_width_idx st) (type_char FS_TYPE_INT) else Ret types);
    (if pf_need_precision st then set_c types (pf_precision_idx st) (type_char FS_TYPE_INT) else Ret types)
  else
    let types := pf_types st in
    let types := if pf_need_width st then append_c types (type_char FS_TYPE_INT) else types in
    let types := if pf_need_precision st then append_c types (type_char FS_TYPE_INT) else types in
    Ret (match ty with FS_TYPE_NONE => types | _ => append_c types (type_char ty) end).

Definition printf_type_step (st : printf_state) : outcome (round printf_state) :=
  result ← parse_type_field (pf_str st);
  match result with
  | None =>
      if PRINTF_FIELD_ALL_PARSED =? pf_mask st then Stop Aborted
      else Ret (Continue (mk_printf (pf_str st) false (pf_mask st) (pf_pos st) (pf_idx st) (pf_width_idx st)
             (pf_precision_idx st) (pf_need_width st) (pf_need_precision st) (pf_types st)))
  | Some (ty, s) =>
      types ← printf_emit st ty;
      Ret (Continue (mk_printf s true (pf_mask st) (pf_pos st) (pf_idx st) (pf_width_idx st) (pf_precision_idx st)
             (pf_need_width st) (pf_need_precision st) types))
  end.

Definition printf_round (nfixed : Z) (st : printf_state) : outcome (round printf_state) :=
  o ← printf_begin nfixed st;
  match o with
  | None => Ret (Break (pf_types st))
  | Some st =>
      st ← printf_flags st;
      st ← printf_width nfixed st;
      st ← printf_precision nfixed st;
      st ← printf_length st;
      printf_type_step st
  end.

Fixpoint printf_loop (fuel : nat) (nfixed : Z) (st : printf_state) : outcome (list ascii) :=
  match fuel with
  | O => Stop OutOfFuel
  | S fuel =>
      r ← printf_round nfixed st;
      match r with Break types => Ret types | Continue st => printf_loop fuel nfixed st end
  end.

Definition printf_init (s : cstr) (nfixed : Z) : printf_state :=
  mk_printf s true 0 0 0 0 0 false false
    (type_char FS_TYPE_POINTER :: replicate (Z.to_nat nfixed) (type_char FS_TYPE_POINTER)).

Definition parse_fmtstr (fuel : nat) (s : cstr) (nfixed : Z) (aaInfo xxInfo : option ABIFnInfo) :=
  types ← printf_loop fuel nfixed (printf_init s nfixed);
  get_vari_fn_info_from_types (gstr types) nfixed aaInfo xxInfo.

(** ** [parse_scanf_fmtstr] *)

Record scanf_state := mk_scanf {
  sf_str : cstr;
  sf_new_round : bool;
  sf_mask : Z;
  sf_pos : Z;
  sf_idx : Z;
  sf_ignore : bool;
  sf_types : list ascii
}.

Definition scanf_begin (idxOfFmt : Z) (st : scanf_state) : outcome (option scanf_state) :=
  if negb (sf_new_round st) then Ret (Some st) else
  s ← move_behind_percent (sf_str st);
  c ← peek s;
  if Ascii.eqb NUL c then Ret None else
  '(pos, s) ← parse_parameter_field s;
  let idx := u32 (idxOfFmt + pos + 1) in
  types ← pad_types (sf_types st) idx;
  c ← peek s;
  let ignore := Ascii.eqb "*" c in
  s ← (if ignore then next s else Ret s);
  Ret (Some (mk_scanf s true 0 pos idx ignore types)).

Definition scanf_width (st : scanf_state) : outcome scanf_state :=
  if parsed_field (sf_mask st) FIELD_WIDTH_PARSED then Ret st else
  '(s, _, _, mask) ← parse_width_field (sf_str st) (negb (sf_pos st =? 0)) (sf_mask st);
  Ret (mk_scanf s (sf_new_round st) mask (sf_pos st) (sf_idx st) (sf_ignore st) (sf_types st)).

Definition scanf_length (st : scanf_state) : outcome scanf_state :=
  if parsed_field (sf_mask st) FIELD_LENGTH_PARSED then Ret st else
  '(s, mask) ← parse_length_field (sf_str st) (sf_mask st);
  Ret (mk_scanf s (sf_new_round st) mask (sf_pos st) (sf_idx st) (sf_ignore st) (sf_types st)).

Definition scanf_emit (st : scanf_state) (ty : arg_type) : outcome (list ascii) :=
  if negb (sf_pos st =? 0) then set_c (sf_types st) (sf_idx st) (type_char ty)
  else Ret (match sf_ignore st, ty with
            | true, _ | _, FS_TYPE_NONE => sf_types st
            | false, _ => append_c (sf_types st) (type_char ty)
            end).

Definition scanf_type_step (st : scanf_state) : outcome (round scanf_state) :=
  result ← parse_specifier_field (sf_str st);
  match result with
  | None =>
      if SCANF_FIELD_ALL_PARSED =? sf_mask st then Stop Aborted
      else Ret (Continue (mk_scanf (sf_str st) false (sf_mask st) (sf_pos st) (sf_idx st) (sf_ignore st) (sf_types st)))
  | Some (ty, s) =>
      types ← scanf_emit st ty;
      Ret (Continue (mk_scanf s true (sf_mask st) (sf_pos st) (sf_idx st) (sf_ignore st) types))
  end.

Definition scanf_round (idxOfFmt : Z) (st : scanf_state) : outcome (round scanf_state) :=
  o ← scanf_begin idxOfFmt st;
  match o with
  | None => Ret (Break (sf_types st))
  | Some st =>
      st ← scanf_width st;
      st ← scanf_length st;
      scanf_type_step st
  end.

Fixpoint scanf_loop (fuel : nat) (idxOfFmt : Z) (st : scanf_state) : outcome (list ascii) :=
  match fuel with
  | O => Stop OutOfFuel
  | S fuel =>
      r ← scanf_round idxOfFmt st;
      match r with Break types => Ret types | Continue st => scanf_loop fuel idxOfFmt st end
  end.

Definition scanf_init (s : cstr) (idxOfFmt : Z) : scanf_state :=
  mk_scanf s true 0 0 0 false
    (type_char FS_TYPE_INT :: replicate (Z.to_nat (idxOfFmt + 1)) (type_char FS_TYPE_POINTER)).

Definition parse_scanf_fmtstr (fuel : nat) (s : cstr) (idxOfFmt : Z) (aaInfo xxInfo : option ABIFnInfo) :=
  types ← scanf_loop fuel idxOfFmt (scanf_init s idxOfFmt);
  get_vari_fn_info_from_types (gstr types) (u32 (idxOfFmt + 1)) aaInfo xxInfo.
