(* ===== verification/FmtSpec.v ===== *)
(** * Format strings: syntax, argument types, and the parser against them

    A format is literal text and conversions.  For the unnumbered formats the
    parser is shown to find the types of all arguments, with one round of its
    loop per conversion, and so to give the description of the call; the
    formats it does not handle are shown to make it run on for ever or to read
    past the string. *)

From S2P Require Import CString Prelude ABIArgInfo FfiTypes Layout Placement AAPrepCif HFA AAAlloc XXPrepCif XXClass XXAlloc TypesParser TypesSpec FmtStr.

(** ** Syntax *)

Inductive amount : Set := Default | Given (ds : list ascii) | Star.

Record conv := mk_conv {
  cv_flags : list ascii;
  cv_width : amount;
  cv_precision : option amount;
  cv_length : list ascii;
  cv_note : option (list ascii);
  cv_char : ascii
}.

Definition print_amount (a : amount) : list ascii :=
  match a with Default => [] | Given ds => ds | Star => ["*"%char] end.

Definition print_precision (p : option amount) : list ascii :=
  match p with None => [] | Some a => "."%char :: print_amount a end.

Definition print_note (n : option (list ascii)) : list ascii :=
  match n with None => [] | Some t => "{"%char :: t ++ ["}"%char] end.

Definition print_conv (c : conv) : list ascii :=
  cv_flags c ++ print_amount (cv_width c) ++ print_precision (cv_precision c) ++ cv_length c ++
  print_note (cv_note c) ++ [cv_char c].

(** ** Well-formed conversions *)

Definition all_in (set l : list ascii) : bool := forallb (λ c, existsb (Ascii.eqb c) set) l.

Definition amount_ok (a : amount) : bool :=
  match a with Given ds => forallb isdigit ds | _ => true end.

(** Nothing a preceding number would swallow. *)
Definition no_digit_head (l : list ascii) : bool := match l with c :: _ => negb (isdigit c) | [] => true end.

Definition conv_ok (c : conv) : bool :=
  all_in flag_chars (cv_flags c) && amount_ok (cv_width c) &&
  match cv_width c with Given ("0"%char :: _) => false | _ => true end &&
  match cv_precision c with None => true | Some a => amount_ok a end &&
  all_in length_chars (cv_length c) && no_digit_head (cv_length c) &&
  match cv_note c with None => true | Some t => free_of ["}"; "$"]%char t end &&
  bool_decide (is_Some (printf_type (cv_char c))).

(** The arguments a conversion takes. *)
Definition star_type (a : amount) : list ascii := match a with Star => ["i"%char] | _ => [] end.

Definition conv_types (c : conv) : list ascii :=
  star_type (cv_width c) ++ match cv_precision c with None => [] | Some a => star_type a end ++
  match printf_type (cv_char c) with
  | None | Some FS_TYPE_NONE => []
  | Some ty => [type_char ty]
  end.

(** Literal text before each conversion, and at the end. *)
Definition print_fmt (l : list (list ascii * conv)) (last : list ascii) : cstr :=
  flat_map (λ p, p.1 ++ "%"%char :: print_conv p.2) l ++ last ++ [NUL].

Definition text_ok (t : list ascii) : bool := free_of ["%"%char; NUL] t.
Definition fmt_ok (l : list (list ascii * conv)) (last : list ascii) : Prop :=
  Forall (λ p, text_ok p.1 = true ∧ conv_ok p.2 = true) l ∧ text_ok last = true.

(** ** The fields *)

Lemma span_field_ok cond f l c s mask : forallb cond l = true → cond c = false →
  ∃ mask', span_field cond f (l ++ c :: s) mask = Ret (c :: s, mask') ∧ (mask' = mask ∨ mask' = Z.lor mask f).
Proof.
  revert mask. induction l as [|d l IH]; intros mask Hl Hc; cbn [app span_field forallb] in *.
  - rewrite Hc. eexists. split; [done|by left].
  - apply andb_prop in Hl as [-> Hl]. destruct (IH (Z.lor mask f) Hl Hc) as (m & Hm & Hor). exists m. split; [done|]. right.
    destruct Hor as [->| ->]; [done|]. by rewrite <- Z.lor_assoc, Z.lor_diag.
Qed.

Lemma all_in_strchr set l : all_in set l = true → forallb (strchr set) l = true.
Proof.
  unfold all_in. induction l as [|c l IH]; [done|]. cbn [forallb]. rewrite !andb_true_iff. intros [H ?].
  split; [|auto]. unfold strchr. by rewrite H, orb_true_r.
Qed.

Lemma digit_prefix l : existsb (λ c, negb (isdigit c)) l = true →
  ∃ ds c r, l = ds ++ c :: r ∧ forallb isdigit ds = true ∧ isdigit c = false.
Proof.
  induction l as [|c l IH]; [done|]. cbn [existsb]. destruct (isdigit c) eqn:Hc; cbn [negb orb].
  - intros (ds & d & r & -> & Hds & Hd)%IH. exists (c :: ds), d, r. split_and!; [done|simpl; by rewrite Hc|done].
  - intros _. by exists [], c, l.
Qed.

Lemma digits_run ds c r acc : forallb isdigit ds = true → isdigit c = false →
  ∃ v, digits (ds ++ c :: r) acc = Ret (v, c :: r).
Proof.
  revert acc. induction ds as [|d ds IH]; intros acc Hds Hc; cbn [app digits forallb] in *.
  - rewrite Hc. by eexists.
  - apply andb_prop in Hds as [-> Hds]. by apply IH.
Qed.

Lemma parameter_field_ok l s : existsb (λ c, negb (isdigit c)) l = true → free_of ["$"%char] l = true →
  parse_parameter_field (l ++ s) = Ret (0, l ++ s).
Proof.
  intros (ds & c & r & -> & Hds & Hc)%digit_prefix Hfree. unfold parse_parameter_field.
  destruct ds as [|d ds]; cbn [app peek mbind outcome_bind]; [by rewrite Hc|].
  cbn [forallb] in Hds. apply andb_prop in Hds as [Hd Hds]. rewrite Hd. cbn [negb]. rewrite <- app_assoc. cbn [app].
  destruct (isdigit_facts d Hd) as (Hsp & Hm & Hp). unfold strtol. rewrite skip_spaces_head by done.
  cbn [peek mbind outcome_bind]. rewrite Hm, Hp. cbn [orb mbind outcome_bind peek]. rewrite Hd. cbn [digits]. rewrite Hd.
  destruct (digits_run ds c (r ++ s) (0 * 10 + (code d - 48)) Hds Hc) as [v ->]. cbn [mbind outcome_bind peek].
  assert (Ascii.eqb "$" c = false) as ->; [|done].
  rewrite Ascii.eqb_sym. unfold free_of in Hfree. rewrite forallb_forall in Hfree. specialize (Hfree c).
  simpl in Hfree. rewrite orb_false_r, negb_true_iff in Hfree. apply Hfree. right. apply in_or_app. right. by left.
Qed.

(** What can come first at each stage. *)
Definition heads (P : ascii → bool) (s : cstr) : Prop := ∃ c l, s = c :: l ∧ P c = true.

Definition type_head (c : ascii) : bool := bool_decide (is_Some (printf_type c)) || Ascii.eqb c "{".
Definition mid_head (c : ascii) : bool :=
  type_head c || (existsb (Ascii.eqb c) length_chars && negb (isdigit c)).
Definition prec_head (c : ascii) : bool := mid_head c || Ascii.eqb c ".".
Definition width_head (c : ascii) : bool := prec_head c || Ascii.eqb c "*" || (isdigit c && negb (Ascii.eqb c "0")).

Lemma type_head_facts c : type_head c = true → strchr length_chars c = false ∧ mid_head c = true.
Proof. destruct c as [[] [] [] [] [] [] [] []]; intros H; try discriminate H; by vm_compute. Qed.

Lemma mid_head_facts c : mid_head c = true → isdigit c = false ∧ Ascii.eqb "." c = false ∧ Ascii.eqb "*" c = false ∧ prec_head c = true.
Proof. destruct c as [[] [] [] [] [] [] [] []]; intros H; try discriminate H; by vm_compute. Qed.

Lemma prec_head_facts c : prec_head c = true → isdigit c = false ∧ Ascii.eqb "*" c = false ∧ width_head c = true.
Proof. destruct c as [[] [] [] [] [] [] [] []]; intros H; try discriminate H; by vm_compute. Qed.

Lemma width_head_facts c : width_head c = true → strchr flag_chars c = false.
Proof. destruct c as [[] [] [] [] [] [] [] []]; intros H; try discriminate H; by vm_compute. Qed.

Lemma heads_impl P Q s : (∀ c, P c = true → Q c = true) → heads P s → heads Q s.
Proof. intros H (c & l & -> & Hc). exists c, l. auto. Qed.

(** The pieces of a conversion, from the back. *)
Section pieces.
Context (c : conv) (Hok : conv_ok c = true) (rest : cstr).

Definition s_type : cstr := print_note (cv_note c) ++ cv_char c :: rest.
Definition s_length : cstr := cv_length c ++ s_type.
Definition s_precision : cstr := print_precision (cv_precision c) ++ s_length.
Definition s_width : cstr := print_amount (cv_width c) ++ s_precision.

Lemma print_conv_pieces : print_conv c ++ rest = cv_flags c ++ s_width.
Proof. unfold print_conv, s_width, s_precision, s_length, s_type. by rewrite <- !app_assoc. Qed.

Lemma conv_ok_inv : all_in flag_chars (cv_flags c) = true ∧ amount_ok (cv_width c) = true ∧
  match cv_width c with Given ("0"%char :: _) => false | _ => true end = true ∧
  match cv_precision c with None => true | Some a => amount_ok a end = true ∧
  all_in length_chars (cv_length c) = true ∧ no_digit_head (cv_length c) = true ∧
  match cv_note c with None => true | Some t => free_of ["}"; "$"]%char t end = true ∧ is_Some (printf_type (cv_char c)).
Proof. unfold conv_ok in Hok. rewrite !andb_true_iff, bool_decide_eq_true in Hok. naive_solver. Qed.

Lemma s_type_head : heads type_head s_type.
Proof.
  destruct conv_ok_inv as (_ & _ & _ & _ & _ & _ & _ & Ht). unfold s_type. destruct (cv_note c) as [t|]; [by do 2 eexists|].
  do 2 eexists. split; [done|]. unfold type_head. by rewrite bool_decide_eq_true_2.
Qed.

Lemma s_length_head : heads mid_head s_length.
Proof.
  destruct conv_ok_inv as (_ & _ & _ & _ & Hl & Hd & _). unfold s_length. destruct (cv_length c) as [|d l].
  - eapply heads_impl, s_type_head. intros x Hx. by apply type_head_facts.
  - do 2 eexists. split; [done|]. unfold mid_head. simpl in Hd, Hl. apply andb_prop in Hl as [Hl _]. simpl. rewrite Hl, Hd.
    by rewrite orb_true_r.
Qed.

Lemma s_precision_head : heads prec_head s_precision.
Proof.
  unfold s_precision. destruct (cv_precision c) as [a|]; [by do 2 eexists|].
  eapply heads_impl, s_length_head. intros x Hx. by apply mid_head_facts.
Qed.

Lemma s_width_head : heads width_head s_width.
Proof.
  destruct conv_ok_inv as (_ & Ha & H0 & _). unfold s_width. pose proof s_precision_head as Hp.
  assert (heads width_head s_precision) by (eapply heads_impl, Hp; intros x Hx; by apply prec_head_facts).
  destruct (cv_width c) as [|[|d ds]|]; [done|done| |by do 2 eexists].
  do 2 eexists. split; [done|]. simpl in Ha. apply andb_prop in Ha as [Ha _]. unfold width_head. rewrite Ha.
  destruct (Ascii.eqb_spec d "0") as [->|]; [done|]. by rewrite orb_true_r.
Qed.

(** *** Each stage *)

Lemma flags_ok mask : ∃ mask', parse_flags_field (cv_flags c ++ s_width) mask = Ret (s_width, mask') ∧
  (mask' = mask ∨ mask' = Z.lor mask FIELD_FLAGS_PARSED).
Proof.
  destruct conv_ok_inv as (Hf & _). destruct s_width_head as (d & l & Hs & Hd). rewrite Hs.
  apply span_field_ok; [by apply all_in_strchr|by apply width_head_facts].
Qed.

Lemma width_ok mask : ∃ mask', parse_width_field s_width false mask =
  Ret (s_precision, match cv_width c with Star => true | _ => false end, 0, mask') ∧
  (mask' = mask ∨ mask' = Z.lor mask FIELD_WIDTH_PARSED).
Proof.
  destruct conv_ok_inv as (_ & Ha & _). destruct s_precision_head as (d & l & Hs & Hd).
  destruct (prec_head_facts d Hd) as (Hdig & Hst & _). unfold s_width, parse_width_field.
  destruct (cv_width c) as [|ds|]; cbn [print_amount app]; rewrite ?Hs.
  - cbn [peek mbind outcome_bind]. rewrite Hst. destruct (span_field_ok isdigit FIELD_WIDTH_PARSED [] d l mask eq_refl Hdig) as (m & Hm & Hor).
    cbn [app] in Hm. rewrite Hm. by eexists.
  - simpl in Ha. destruct (span_field_ok isdigit FIELD_WIDTH_PARSED ds d l mask Ha Hdig) as (m & Hm & Hor).
    assert (∃ x, peek (ds ++ d :: l) = Ret x ∧ Ascii.eqb "*" x = false) as (x & -> & Hx).
    { destruct ds as [|x ds]; [by exists d|]. exists x. split; [done|]. simpl in Ha. apply andb_prop in Ha as [Ha _].
      destruct (Ascii.eqb_spec "*" x) as [<-|]; [done|done]. }
    cbn [mbind outcome_bind]. rewrite Hx, Hm. by eexists.
  - cbn. eexists. split; [done|by right].
Qed.

Lemma precision_ok mask : ∃ mask', parse_precision_field s_precision false mask =
  Ret (s_length, match cv_precision c with Some Star => true | _ => false end, 0, mask') ∧
  (mask' = mask ∨ mask' = Z.lor mask FIELD_PRECISION_PARSED).
Proof.
  destruct conv_ok_inv as (_ & _ & _ & Hp & _). destruct s_length_head as (d & l & Hs & Hd).
  destruct (mid_head_facts d Hd) as (Hdig & Hdot & Hst & _). unfold s_precision, parse_precision_field.
  destruct (cv_precision c) as [[|ds|]|]; cbn [print_precision print_amount app peek mbind outcome_bind]; rewrite ?Hs.
  - change (Ascii.eqb "." ".") with true. cbn [negb next mbind outcome_bind peek]. rewrite Hst.
    destruct (span_field_ok isdigit 0 [] d l 0 eq_refl Hdig) as (m & Hm & _). cbn [app] in Hm. rewrite Hm.
    eexists. split; [done|by right].
  - change (Ascii.eqb "." ".") with true. cbn [negb next mbind outcome_bind].
    destruct (span_field_ok isdigit 0 ds d l 0 Hp Hdig) as (m & Hm & _).
    assert (∃ x, peek (ds ++ d :: l) = Ret x ∧ Ascii.eqb "*" x = false) as (x & -> & Hx).
    { destruct ds as [|x ds]; [by exists d|]. exists x. split; [done|]. simpl in Hp. apply andb_prop in Hp as [Hp' _].
      destruct (Ascii.eqb_spec "*" x) as [<-|]; [done|done]. }
    cbn [mbind outcome_bind]. rewrite Hx, Hm. eexists. split; [done|by right].
  - cbn. eexists. split; [done|by right].
  - cbn [peek mbind outcome_bind]. rewrite Hdot. eexists. split; [done|by left].
Qed.

Lemma length_ok mask : ∃ mask', parse_length_field s_length mask = Ret (s_type, mask') ∧
  (mask' = mask ∨ mask' = Z.lor mask FIELD_LENGTH_PARSED).
Proof.
  destruct conv_ok_inv as (_ & _ & _ & _ & Hl & _). destruct s_type_head as (d & l & Hs & Hd). unfold s_length. rewrite Hs.
  apply span_field_ok; [by apply all_in_strchr|by apply type_head_facts].
Qed.

Lemma type_ok : ∃ ty, printf_type (cv_char c) = Some ty ∧ parse_type_field s_type = Ret (Some (ty, rest)).
Proof.
  destruct conv_ok_inv as (_ & _ & _ & _ & _ & _ & Hn & [ty Ht]). exists ty. split; [done|].
  assert (type_field false (cv_char c :: rest) = Ret (Some (ty, rest))) as Hlast by (cbn [type_field]; by rewrite Ht).
  unfold s_type, parse_type_field. destruct (cv_note c) as [t|]; [|done]. cbn [print_note app type_field].
  change (printf_type "{") with (@None arg_type). cbn [Ascii.eqb Bool.eqb]. rewrite <- app_assoc. cbn [app].
  apply free_of_cons in Hn as [Hn _]. revert Hn. induction t as [|x t IH]; intros Hn; cbn [app type_field]; [done|].
  cbn [free_of forallb existsb] in Hn. apply andb_prop in Hn as [Hx Hn]. rewrite orb_false_r, negb_true_iff in Hx.
  rewrite Ascii.eqb_sym, Hx. by apply IH.
Qed.
End pieces.

(** ** The loop *)

Lemma free_of_app set l l' : free_of set (l ++ l') = free_of set l && free_of set l'.
Proof. unfold free_of. apply forallb_app. Qed.

Lemma free_of_in set set' l : all_in set' l = true → free_of set set' = true → free_of set l = true.
Proof.
  unfold all_in, free_of. rewrite !forallb_forall. intros Hl Hs c Hc. specialize (Hl c Hc).
  apply existsb_exists in Hl as (d & Hd & Heq). apply Ascii.eqb_eq in Heq as <-. by apply Hs.
Qed.

Lemma digits_free_of set ds : forallb isdigit ds = true → forallb (λ c, negb (isdigit c)) set = true → free_of set ds = true.
Proof.
  unfold free_of. rewrite !forallb_forall. intros Hds Hs c Hc. specialize (Hds c Hc).
  destruct (existsb (Ascii.eqb c) set) eqn:He; [|done]. apply existsb_exists in He as (d & Hd & Heq).
  apply Ascii.eqb_eq in Heq as <-. specialize (Hs c Hd). by rewrite Hds in Hs.
Qed.

Lemma conv_char_facts ch : is_Some (printf_type ch) → isdigit ch = false ∧ free_of ["$"%char] [ch] = true.
Proof. destruct ch as [[] [] [] [] [] [] [] []]; intros [? H]; try discriminate H; by vm_compute. Qed.

Lemma amount_free a : amount_ok a = true → free_of ["$"%char] (print_amount a) = true.
Proof. destruct a; [done| |done]. intros H. by apply digits_free_of. Qed.

Lemma print_conv_param c : conv_ok c = true →
  existsb (λ c, negb (isdigit c)) (print_conv c) = true ∧ free_of ["$"%char] (print_conv c) = true.
Proof.
  intros (Hf & Ha & _ & Hp & Hl & _ & Hn & Ht)%conv_ok_inv. destruct (conv_char_facts _ Ht) as [Hd Hc]. split.
  - unfold print_conv. rewrite !existsb_app. cbn [existsb]. rewrite Hd. by rewrite !orb_true_r.
  - unfold print_conv. rewrite !free_of_app, Hc, (free_of_in _ flag_chars _ Hf), (free_of_in _ length_chars _ Hl) by done.
    rewrite (amount_free _ Ha). assert (free_of ["$"%char] (print_precision (cv_precision c)) = true) as ->
      by (destruct (cv_precision c); [by apply amount_free|done]). cbn [andb]. rewrite andb_true_r.
    destruct (cv_note c) as [t|]; [|done]. apply free_of_cons in Hn as [_ Hn]. cbn [print_note].
    rewrite app_comm_cons, free_of_app. apply andb_true_intro. split; [|done]. cbn [free_of forallb existsb Ascii.eqb Bool.eqb negb orb andb].
    exact Hn.
Qed.

Lemma print_conv_start c rest : conv_ok c = true → ∃ d l, print_conv c ++ rest = d :: l ∧ Ascii.eqb NUL d = false.
Proof.
  intros Hok. rewrite print_conv_pieces. pose proof (conv_ok_inv c Hok) as (Hf & _). destruct (cv_flags c) as [|d l].
  - destruct (s_width_head c Hok rest) as (d & l & -> & Hd). exists d, l. split; [done|].
    destruct (Ascii.eqb_spec NUL d) as [<-|]; done.
  - exists d, (l ++ s_width c rest). split; [done|]. cbn [all_in forallb] in Hf. apply andb_prop in Hf as [Hf _].
    destruct (Ascii.eqb_spec NUL d) as [<-|]; done.
Qed.

Lemma strlen_gstr l : free_of [NUL] l = true → strlen (gstr l) = Ret (Z.of_nat (length l)).
Proof.
  unfold gstr. induction l as [|c l IH]; intros Hl; cbn [app strlen]; [done|].
  cbn [free_of forallb existsb] in Hl. apply andb_prop in Hl as [Hc Hl]. rewrite orb_false_r, negb_true_iff in Hc.
  rewrite Hc, IH by done. cbn [mbind outcome_bind]. f_equal. simpl length. lia.
Qed.

(** The type string so far: the letters of the return value and the named
    arguments at least. *)
Definition types_ok (nfixed : Z) (T : list ascii) : Prop :=
  free_of [NUL] T = true ∧ 0 ≤ nfixed ∧ nfixed + 1 ≤ Z.of_nat (length T) < 2 ^ 32.

Lemma pad_none nfixed idx T : types_ok nfixed T → idx = nfixed → pad_types T (u32 (idx + 0)) = Ret T.
Proof.
  intros (Hf & H0 & Hl) ->. unfold pad_types. rewrite strlen_gstr by done. cbn [mbind outcome_bind].
  rewrite Z.add_0_r, (wrap_small 32 nfixed), (wrap_small 32 (nfixed + 1)), (wrap_small 32 (Z.of_nat (length T))) by (unfold in_u; lia).
  by rewrite (proj2 (Z.ltb_ge (Z.of_nat (length T)) (nfixed + 1))) by lia.
Qed.

Lemma move_behind_text t s : text_ok t = true → move_behind_percent (t ++ "%"%char :: s) = Ret s.
Proof.
  induction t as [|c t IH]; intros Ht; cbn [app move_behind_percent]; [done|].
  unfold text_ok in Ht. cbn [free_of forallb existsb] in Ht. apply andb_prop in Ht as [Hc Ht].
  rewrite orb_false_r, negb_true_iff, orb_false_iff in Hc. destruct Hc as [-> ->]. by apply IH.
Qed.

Lemma move_behind_last t : text_ok t = true → move_behind_percent (t ++ [NUL]) = Ret [NUL].
Proof.
  induction t as [|c t IH]; intros Ht; cbn [app move_behind_percent]; [done|].
  unfold text_ok in Ht. cbn [free_of forallb existsb] in Ht. apply andb_prop in Ht as [Hc Ht].
  rewrite orb_false_r, negb_true_iff, orb_false_iff in Hc. destruct Hc as [-> ->]. by apply IH.
Qed.

Lemma printf_round_conv nfixed st t c rest : conv_ok c = true → text_ok t = true → types_ok nfixed (pf_types st) →
  pf_str st = t ++ "%"%char :: print_conv c ++ rest → pf_new_round st = true →
  ∃ st', printf_round nfixed st = Ret (Continue st') ∧ pf_str st' = rest ∧ pf_new_round st' = true ∧
    pf_types st' = pf_types st ++ conv_types c.
Proof.
  intros Hok Ht Hty Hs Hnew. unfold printf_round, printf_begin. rewrite Hnew, Hs, move_behind_text by done.
  cbn [negb mbind outcome_bind]. destruct (print_conv_start c rest Hok) as (d & l & Hd & Hnul).
  assert (peek (print_conv c ++ rest) = Ret d) as -> by (by rewrite Hd). cbn [mbind outcome_bind]. rewrite Hnul.
  destruct (print_conv_param c Hok) as [Hnd Hfr]. rewrite parameter_field_ok by done. cbn [mbind outcome_bind].
  rewrite (pad_none nfixed) by done. cbn [mbind outcome_bind]. rewrite print_conv_pieces.
  destruct (flags_ok c Hok rest 0) as (m1 & Hm1 & Hor1). destruct (width_ok c Hok rest m1) as (m2 & Hm2 & Hor2).
  destruct (precision_ok c Hok rest m2) as (m3 & Hm3 & Hor3). destruct (length_ok c Hok rest m3) as (m4 & Hm4 & _).
  destruct (type_ok c Hok rest) as (ty & Hty' & Hrun).
  assert (parsed_field m1 FIELD_WIDTH_PARSED = false ∧ parsed_field m2 FIELD_PRECISION_PARSED = false ∧
    parsed_field m3 FIELD_LENGTH_PARSED = false) as (F1 & F2 & F3)
    by (destruct Hor1; destruct Hor2; destruct Hor3; subst; by vm_compute).
  unfold printf_flags. cbn [pf_mask pf_str]. change (parsed_field 0 FIELD_FLAGS_PARSED) with false. cbv iota.
  rewrite Hm1. cbn [mbind outcome_bind]. unfold printf_width. cbn [pf_mask pf_str pf_pos]. rewrite F1.
  change (negb (0 =? 0)) with false. rewrite Hm2. cbn [mbind outcome_bind pf_types]. rewrite (pad_none nfixed) by done.
  cbn [mbind outcome_bind]. unfold printf_precision. cbn [pf_mask pf_str pf_pos]. rewrite F2.
  change (negb (0 =? 0)) with false. rewrite Hm3. cbn [mbind outcome_bind pf_types]. rewrite (pad_none nfixed) by done.
  cbn [mbind outcome_bind]. unfold printf_length. cbn [pf_mask pf_str]. rewrite F3, Hm4. cbn [mbind outcome_bind].
  unfold printf_type_step. cbn [pf_str]. rewrite Hrun. cbn [mbind outcome_bind]. unfold printf_emit.
  cbn [pf_pos pf_types pf_need_width pf_need_precision]. change (negb (0 =? 0)) with false. cbv iota. cbn [mbind outcome_bind].
  eexists. split; [reflexivity|]. cbn [pf_str pf_new_round pf_types]. split_and!; [done|done|].
  unfold conv_types, append_c. rewrite Hty'.
  destruct (cv_width c), (cv_precision c) as [[]|], ty; cbn [star_type app]; by rewrite ?app_nil_r, <- ?app_assoc.
Qed.

Definition fmt_types (l : list (list ascii * conv)) : list ascii := flat_map (λ p, conv_types p.2) l.

Lemma conv_types_letters c : Forall (λ ch, ch ∈ ["i"; "I"; "d"; "*"; "c"]%char) (conv_types c).
Proof.
  assert (∀ a, Forall (λ ch, ch ∈ ["i"; "I"; "d"; "*"; "c"]%char) (star_type a)) as Hs
    by (intros []; repeat constructor).
  unfold conv_types. apply Forall_app. split; [apply Hs|]. apply Forall_app. split.
  - destruct (cv_precision c); [apply Hs|constructor].
  - destruct (printf_type (cv_char c)) as [[]|]; try constructor; try constructor; set_solver.
Qed.

Lemma letters_free l : Forall (λ ch, ch ∈ ["i"; "I"; "d"; "*"; "c"]%char) l → free_of [NUL] l = true.
Proof.
  induction 1 as [|ch l Hch _ IH]; [done|]. cbn [free_of forallb]. apply andb_true_intro. split; [|done].
  rewrite !elem_of_cons, elem_of_nil in Hch. destruct_or! Hch; by subst.
Qed.

Lemma types_ok_app nfixed T T' : types_ok nfixed T → free_of [NUL] T' = true →
  Z.of_nat (length T) + Z.of_nat (length T') < 2 ^ 32 → types_ok nfixed (T ++ T').
Proof.
  intros (Hf & H0 & Hl) Hf' Hb. split_and!; [by rewrite free_of_app, Hf, Hf'|done| |]; rewrite length_app; lia.
Qed.

Lemma printf_loop_ok l last fuel nfixed st : fmt_ok l last → types_ok nfixed (pf_types st) →
  Z.of_nat (length (pf_types st)) + Z.of_nat (length (fmt_types l)) < 2 ^ 32 →
  pf_str st = print_fmt l last → pf_new_round st = true → (length l < fuel)%nat →
  printf_loop fuel nfixed st = Ret (pf_types st ++ fmt_types l).
Proof.
  intros [Hl Hlast]. revert fuel st. induction Hl as [|[t c] l [Ht Hc] Hl IH]; intros fuel st Hty Hb Hs Hnew Hf;
    (destruct fuel as [|fuel]; [simpl in Hf; lia|]); cbn [printf_loop].
  - unfold printf_round, printf_begin. rewrite Hnew, Hs. unfold print_fmt. cbn [flat_map app].
    rewrite move_behind_last by done. cbn. by rewrite app_nil_r.
  - unfold fmt_types in *. cbn [flat_map snd] in *. rewrite length_app in Hb.
    assert (pf_str st = t ++ "%"%char :: print_conv c ++ print_fmt l last) as Hs'.
    { rewrite Hs. unfold print_fmt. cbn [flat_map fst snd]. by rewrite <- !app_assoc. }
    destruct (printf_round_conv nfixed st t c _ Hc Ht Hty Hs' Hnew) as (st' & -> & Hs1 & Hn1 & Ht1).
    cbn [mbind outcome_bind]. rewrite IH; rewrite ?Ht1; [by rewrite app_assoc| | |done|done|simpl in Hf; lia].
    + apply types_ok_app; [done|apply letters_free, conv_types_letters|lia].
    + rewrite length_app. lia.
Qed.

(** The C types of the letters. *)
Definition letter_cty (ch : ascii) : cty := denote false (ELetter ch).
Definition letter_item (ch : ascii) : item := (ELetter ch, None).

Lemma gstr_signature r l : gstr (r :: l) = signature (letter_item r) (map letter_item l).
Proof.
  unfold gstr, signature, print_item. cbn. f_equal. induction l as [|c l IH]; [done|]. cbn. by rewrite IH.
Qed.

Lemma letter_item_ok ch : ch ∈ ["i"; "I"; "d"; "*"; "c"]%char → item_ok (letter_item ch) ∧ arg_type_ok (letter_cty ch) ∧ csize (letter_cty ch) ≤ 8.
Proof. rewrite !elem_of_cons, elem_of_nil. intros H. destruct_or! H; subst; by repeat split. Qed.

Lemma letters_proto r l : r ∈ ["i"; "I"; "d"; "*"; "c"]%char → Forall (λ ch, ch ∈ ["i"; "I"; "d"; "*"; "c"]%char) l →
  (length l ≤ 63)%nat → proto_ok (letter_cty r) (map letter_cty l) ∧ stack_room (map letter_cty l) + 8 < 2 ^ 31.
Proof.
  intros Hr Hl Hlen. assert (Forall arg_type_ok (map letter_cty l) ∧ stack_room (map letter_cty l) ≤ 24 * Z.of_nat (length l)) as [Ha Hb].
  { clear Hlen. induction Hl as [|c l Hc Hl [IH1 IH2]]; [split; [constructor|done]|]. destruct (letter_item_ok c Hc) as (_ & ? & ?).
    split; [by constructor|]. cbn [map length]. unfold stack_room in *. cbn [foldr]. lia. }
  destruct (letter_item_ok r Hr) as (_ & [? _] & ?). split; [|lia]. unfold proto_ok. split_and!; (done || lia).
Qed.

(** What the letters describe. *)
Definition letters_info (r : ascii) (l : list ascii) (nfixed : Z) : ABIFnInfo * ABIFnInfo :=
  (aa_fn_info nfixed (letter_cty r) (map letter_cty l), xx_fn_info (letter_cty r) (map letter_cty l)).

Lemma with_blocks_letters r l fi : length (ainfo fi) = length l → with_blocks (ELetter r) (map letter_item l).*1 fi = fi.
Proof.
  intros Hl. unfold with_blocks. cbn [is_block mark]. assert (∀ (l : list ascii) (x : list ABIArgInfo), length x = length l →
    zip_with (λ e x, mark (is_block e) x) (map letter_item l).*1 x = x) as Hz.
  { intros k. induction k as [|c k IH]; intros [|y x] Hx; try done. cbn. rewrite IH; [done|]. simpl in Hx. lia. }
  rewrite Hz by done. by destruct fi.
Qed.

Lemma letters_parse r l nfixed aa0 xx0 : r ∈ ["i"; "I"; "d"; "*"; "c"]%char →
  Forall (λ ch, ch ∈ ["i"; "I"; "d"; "*"; "c"]%char) l → (length l ≤ 63)%nat → 1 ≤ nfixed ≤ Z.of_nat (length l) →
  get_vari_fn_info_from_types (gstr (r :: l)) nfixed (Some aa0) (Some xx0) =
    Ret (true, Some (letters_info r l nfixed).1, Some (letters_info r l nfixed).2).
Proof.
  intros Hr Hl Hlen Hn. rewrite gstr_signature. destruct (letters_proto r l Hr Hl Hlen) as [Hp Hb].
  unfold get_vari_fn_info_from_types. rewrite handle_ok.
  - replace (map (λ i : item, denote false i.1) (map letter_item l)) with (map letter_cty l) by (by rewrite map_map).
    cbn [letter_item fst].
    change (denote false (ELetter r)) with (letter_cty r). unfold InvalidValue. rewrite (proj2 (Z.eqb_neq nfixed _)) by lia.
    destruct (fn_info_lengths nfixed (letter_cty r) (map letter_cty l)) as [L1 L2]. rewrite length_map in L1, L2.
    by rewrite !with_blocks_letters.
  - by apply letter_item_ok.
  - apply Forall_map. eapply Forall_impl; [exact Hl|]. intros c Hc. by apply letter_item_ok.
  - by rewrite length_map.
  - by rewrite map_map.
  - by rewrite map_map.
  - right. by rewrite length_map.
Qed.

(** ** scanf *)

Inductive sspec : Set := SChar (c : ascii) | SSet (t : list ascii).

Record sconv := mk_sconv { sc_star : bool; sc_width : list ascii; sc_length : list ascii; sc_spec : sspec }.

Definition print_sspec (x : sspec) : list ascii :=
  match x with SChar c => [c] | SSet t => "["%char :: t ++ ["]"%char] end.

Definition print_sconv (c : sconv) : list ascii :=
  (if sc_star c then ["*"%char] else []) ++ sc_width c ++ sc_length c ++ print_sspec (sc_spec c).

Definition sconv_ok (c : sconv) : bool :=
  forallb isdigit (sc_width c) && all_in length_chars (sc_length c) && no_digit_head (sc_length c) &&
  match sc_spec c with
  | SChar ch => bool_decide (is_Some (scanf_type ch)) && negb (Ascii.eqb ch "[")
  | SSet t => free_of ["]"; "$"]%char t
  end.

(** A conversion that stores takes a pointer. *)
Definition sconv_types (c : sconv) : list ascii :=
  if sc_star c then [] else
  match sc_spec c with SChar ch => if Ascii.eqb ch "%" then [] else ["*"%char] | SSet _ => ["*"%char] end.

Definition print_sfmt (l : list (list ascii * sconv)) (last : list ascii) : cstr :=
  flat_map (λ p, p.1 ++ "%"%char :: print_sconv p.2) l ++ last ++ [NUL].

Definition sfmt_ok (l : list (list ascii * sconv)) (last : list ascii) : Prop :=
  Forall (λ p, text_ok p.1 = true ∧ sconv_ok p.2 = true) l ∧ text_ok last = true.

Definition sfmt_types (l : list (list ascii * sconv)) : list ascii := flat_map (λ p, sconv_types p.2) l.

Definition spec_head (c : ascii) : bool := bool_decide (is_Some (scanf_type c)).
Definition slen_head (c : ascii) : bool := spec_head c || (existsb (Ascii.eqb c) length_chars && negb (isdigit c)).

Lemma spec_head_facts c : spec_head c = true → strchr length_chars c = false ∧ slen_head c = true.
Proof. destruct c as [[] [] [] [] [] [] [] []]; intros H; try discriminate H; by vm_compute. Qed.

Lemma slen_head_facts c : slen_head c = true →
  isdigit c = false ∧ Ascii.eqb "*" c = false ∧ Ascii.eqb NUL c = false ∧ free_of ["$"%char] [c] = true.
Proof. destruct c as [[] [] [] [] [] [] [] []]; intros H; try discriminate H; by vm_compute. Qed.

Section scanf_pieces.
Context (c : sconv) (Hok : sconv_ok c = true) (rest : cstr).

Definition ss_spec : cstr := print_sspec (sc_spec c) ++ rest.
Definition ss_length : cstr := sc_length c ++ ss_spec.
Definition ss_width : cstr := sc_width c ++ ss_length.

Lemma sconv_ok_inv : forallb isdigit (sc_width c) = true ∧ all_in length_chars (sc_length c) = true ∧
  no_digit_head (sc_length c) = true ∧
  match sc_spec c with
  | SChar ch => is_Some (scanf_type ch) ∧ ch ≠ "["%char
  | SSet t => free_of ["]"; "$"]%char t = true
  end.
Proof.
  unfold sconv_ok in Hok. rewrite !andb_true_iff in Hok. destruct Hok as (((? & ?) & ?) & H). split_and!; try done.
  destruct (sc_spec c); [|done]. apply andb_prop in H as [Hs Hn]. rewrite bool_decide_eq_true in Hs.
  rewrite negb_true_iff in Hn. by apply Ascii.eqb_neq in Hn.
Qed.

Lemma print_sconv_pieces : print_sconv c ++ rest = (if sc_star c then ["*"%char] else []) ++ ss_width.
Proof. unfold print_sconv, ss_width, ss_length, ss_spec. by rewrite <- !app_assoc. Qed.

Lemma ss_spec_head : heads spec_head ss_spec.
Proof.
  destruct sconv_ok_inv as (_ & _ & _ & Hs). unfold ss_spec. destruct (sc_spec c) as [ch|t]; [|by do 2 eexists].
  do 2 eexists. split; [done|]. by apply bool_decide_eq_true_2, Hs.
Qed.

Lemma ss_length_head : heads slen_head ss_length.
Proof.
  destruct sconv_ok_inv as (_ & Hl & Hd & _). unfold ss_length. destruct (sc_length c) as [|d l].
  - eapply heads_impl, ss_spec_head. intros x Hx. by apply spec_head_facts.
  - do 2 eexists. split; [done|]. unfold slen_head. simpl in Hd, Hl. apply andb_prop in Hl as [Hl _]. simpl. rewrite Hl, Hd.
    by rewrite orb_true_r.
Qed.

(** The first character of the width, or what follows. *)
Lemma ss_width_peek : ∃ x, peek ss_width = Ret x ∧ Ascii.eqb "*" x = false ∧ Ascii.eqb NUL x = false.
Proof.
  destruct sconv_ok_inv as (Hw & _). destruct ss_length_head as (d & l & Hs & Hd). unfold ss_width. rewrite Hs.
  destruct (sc_width c) as [|x ds].
  - exists d. split; [done|]. by apply slen_head_facts in Hd as (_ & ? & ? & _).
  - exists x. split; [done|]. simpl in Hw. apply andb_prop in Hw as [Hx _].
    split; [by destruct (Ascii.eqb_spec "*" x) as [<-|]|by destruct (Ascii.eqb_spec NUL x) as [<-|]].
Qed.

Lemma swidth_ok mask : ∃ mask', parse_width_field ss_width false mask = Ret (ss_length, false, 0, mask') ∧
  (mask' = mask ∨ mask' = Z.lor mask FIELD_WIDTH_PARSED).
Proof.
  destruct sconv_ok_inv as (Hw & _). destruct ss_length_head as (d & l & Hs & Hd).
  destruct (slen_head_facts d Hd) as (Hdig & _). destruct ss_width_peek as (x & Hx & Hst & _).
  unfold parse_width_field. rewrite Hx. cbn [mbind outcome_bind]. rewrite Hst. unfold ss_width. rewrite Hs.
  destruct (span_field_ok isdigit FIELD_WIDTH_PARSED (sc_width c) d l mask Hw Hdig) as (m & -> & Hor). by eexists.
Qed.

Lemma slength_ok mask : ∃ mask', parse_length_field ss_length mask = Ret (ss_spec, mask').
Proof.
  destruct sconv_ok_inv as (_ & Hl & _). destruct ss_spec_head as (d & l & Hs & Hd). unfold ss_length. rewrite Hs.
  destruct (span_field_ok (strchr length_chars) FIELD_LENGTH_PARSED (sc_length c) d l mask) as (m & Hm & _);
    [by apply all_in_strchr|by apply spec_head_facts|]. by exists m.
Qed.

Lemma spec_ok : ∃ ty, parse_specifier_field ss_spec = Ret (Some (ty, rest)) ∧
  match ty with FS_TYPE_NONE => [] | _ => [type_char ty] end =
    match sc_spec c with SChar ch => if Ascii.eqb ch "%" then [] else ["*"%char] | SSet _ => ["*"%char] end.
Proof.
  destruct sconv_ok_inv as (_ & _ & _ & Hs). unfold ss_spec, parse_specifier_field. destruct (sc_spec c) as [ch|t].
  - destruct Hs as [[ty Ht] Hne]. exists ty. cbn [print_sspec app specifier_field]. rewrite Ht.
    rewrite Ascii.eqb_sym, (proj2 (Ascii.eqb_neq ch "[") Hne). split; [done|].
    destruct (Ascii.eqb_spec ch "%") as [->|Hp]; [by injection Ht as <-|].
    clear Hok rest. destruct ch as [[] [] [] [] [] [] [] []]; try discriminate Ht; try (injection Ht as <-; done); done.
  - exists FS_TYPE_POINTER. split; [|done]. apply free_of_cons in Hs as [Hs _].
    cbn [print_sspec app specifier_field]. change (scanf_type "[") with (Some FS_TYPE_POINTER). cbv iota.
    change (Ascii.eqb "[" "[") with true. cbv iota. rewrite <- app_assoc. cbn [app].
    change ("["%char :: t ++ "]"%char :: rest) with (("["%char :: t) ++ "]"%char :: rest).
    rewrite skip_to_ok; [done|]. by cbn.
Qed.
End scanf_pieces.

Lemma print_sconv_param c : sconv_ok c = true →
  existsb (λ c, negb (isdigit c)) (print_sconv c) = true ∧ free_of ["$"%char] (print_sconv c) = true.
Proof.
  intros (Hw & Hl & _ & Hs)%sconv_ok_inv. unfold print_sconv. rewrite !existsb_app, !free_of_app.
  rewrite (free_of_in _ length_chars _ Hl), (digits_free_of _ _ Hw) by done.
  assert (existsb (λ c, negb (isdigit c)) (print_sspec (sc_spec c)) = true ∧ free_of ["$"%char] (print_sspec (sc_spec c)) = true) as [-> ->].
  { destruct (sc_spec c) as [ch|t].
    - destruct Hs as [Hs _]. assert (slen_head ch = true) as Hh by (apply spec_head_facts; by apply bool_decide_eq_true_2).
      apply slen_head_facts in Hh as (Hd & _ & _ & Hf). cbn [print_sspec existsb]. by rewrite Hd.
    - split; [done|]. apply free_of_cons in Hs as [_ Hs]. cbn [print_sspec]. rewrite app_comm_cons, free_of_app.
      apply andb_true_intro. split; [exact Hs|done]. }
  rewrite !orb_true_r. split; [done|]. by destruct (sc_star c).
Qed.

Lemma scanf_round_conv idx st t c rest : sconv_ok c = true → text_ok t = true → types_ok (idx + 1) (sf_types st) → 0 ≤ idx →
  sf_str st = t ++ "%"%char :: print_sconv c ++ rest → sf_new_round st = true →
  ∃ st', scanf_round idx st = Ret (Continue st') ∧ sf_str st' = rest ∧ sf_new_round st' = true ∧
    sf_types st' = sf_types st ++ sconv_types c.
Proof.
  intros Hok Ht Hty Hidx Hs Hnew. unfold scanf_round, scanf_begin. rewrite Hnew, Hs, move_behind_text by done.
  cbn [negb mbind outcome_bind]. destruct (ss_width_peek c Hok rest) as (x & Hx & Hst & Hnul).
  destruct (print_sconv_param c Hok) as [Hnd Hfr]. rewrite parameter_field_ok by done. rewrite print_sconv_pieces.
  assert (∃ d, peek ((if sc_star c then ["*"%char] else []) ++ ss_width c rest) = Ret d ∧ Ascii.eqb NUL d = false ∧
    Ascii.eqb "*" d = sc_star c) as (d & Hd & Hdn & Hds) by (destruct (sc_star c); [by exists "*"%char|by exists x]).
  rewrite Hd. cbn [mbind outcome_bind]. rewrite Hdn. cbn [mbind outcome_bind].
  replace (idx + 0 + 1) with (idx + 1 + 0) by lia. rewrite (pad_none (idx + 1)) by done. cbn [mbind outcome_bind].
  rewrite Hd. cbn [mbind outcome_bind]. rewrite Hds.
  assert ((if sc_star c then next ((if sc_star c then ["*"%char] else []) ++ ss_width c rest)
           else Ret ((if sc_star c then ["*"%char] else []) ++ ss_width c rest)) = Ret (ss_width c rest)) as ->
    by (by destruct (sc_star c)).
  cbn [mbind outcome_bind]. destruct (swidth_ok c Hok rest 0) as (m1 & Hm1 & Hor1).
  destruct (slength_ok c Hok rest m1) as (m2 & Hm2). destruct (spec_ok c Hok rest) as (ty & Hrun & Hty').
  assert (parsed_field m1 FIELD_LENGTH_PARSED = false) as F1 by (destruct Hor1; subst; by vm_compute).
  unfold scanf_width. cbn [sf_mask sf_str sf_pos]. change (parsed_field 0 FIELD_WIDTH_PARSED) with false. cbv iota.
  change (negb (0 =? 0)) with false. rewrite Hm1. cbn [mbind outcome_bind]. unfold scanf_length. cbn [sf_mask sf_str].
  rewrite F1, Hm2. cbn [mbind outcome_bind]. unfold scanf_type_step. cbn [sf_str]. rewrite Hrun. cbn [mbind outcome_bind].
  unfold scanf_emit. cbn [sf_pos sf_types sf_ignore]. change (negb (0 =? 0)) with false. cbv iota. cbn [mbind outcome_bind].
  eexists. split; [reflexivity|]. cbn [sf_str sf_new_round sf_types]. split_and!; [done|done|].
  unfold sconv_types. rewrite <- Hty'. unfold append_c. destruct (sc_star c), ty; by rewrite ?app_nil_r.
Qed.

Lemma sconv_types_letters c : Forall (λ ch, ch ∈ ["i"; "I"; "d"; "*"; "c"]%char) (sconv_types c).
Proof. unfold sconv_types. repeat case_match; repeat constructor. Qed.

Lemma scanf_loop_ok l last fuel idx st : sfmt_ok l last → types_ok (idx + 1) (sf_types st) → 0 ≤ idx →
  Z.of_nat (length (sf_types st)) + Z.of_nat (length (sfmt_types l)) < 2 ^ 32 →
  sf_str st = print_sfmt l last → sf_new_round st = true → (length l < fuel)%nat →
  scanf_loop fuel idx st = Ret (sf_types st ++ sfmt_types l).
Proof.
  intros [Hl Hlast] Hty Hidx. revert fuel st Hty. induction Hl as [|[t c] l [Ht Hc] Hl IH]; intros fuel st Hty Hb Hs Hnew Hf;
    (destruct fuel as [|fuel]; [simpl in Hf; lia|]); cbn [scanf_loop].
  - unfold scanf_round, scanf_begin. rewrite Hnew, Hs. unfold print_sfmt. cbn [flat_map app].
    rewrite move_behind_last by done. cbn. by rewrite app_nil_r.
  - unfold sfmt_types in *. cbn [flat_map snd] in *. rewrite length_app in Hb.
    assert (sf_str st = t ++ "%"%char :: print_sconv c ++ print_sfmt l last) as Hs'.
    { rewrite Hs. unfold print_sfmt. cbn [flat_map fst snd]. by rewrite <- !app_assoc. }
    destruct (scanf_round_conv idx st t c _ Hc Ht Hty Hidx Hs' Hnew) as (st' & -> & Hs1 & Hn1 & Ht1).
    cbn [mbind outcome_bind]. rewrite IH; rewrite ?Ht1; [by rewrite app_assoc| | |done|done|simpl in Hf; lia].
    + apply types_ok_app; [done|apply letters_free, sconv_types_letters|lia].
    + rewrite length_app. lia.
Qed.

Lemma flat_map_letters {A} (f : A → list ascii) l : (∀ x, Forall (λ ch, ch ∈ ["i"; "I"; "d"; "*"; "c"]%char) (f x)) →
  Forall (λ ch, ch ∈ ["i"; "I"; "d"; "*"; "c"]%char) (flat_map f l).
Proof. intros H. induction l as [|x l IH]; [constructor|]. cbn [flat_map]. by apply Forall_app. Qed.

Lemma stars_letters n : Forall (λ ch, ch ∈ ["i"; "I"; "d"; "*"; "c"]%char) (replicate n "*"%char).
Proof. apply Forall_replicate. set_solver. Qed.

(** ** The parsers on formats *)

Lemma parse_fmtstr_ok l last nfixed fuel aa0 xx0 :
  fmt_ok l last → 1 ≤ nfixed → nfixed + Z.of_nat (length (fmt_types l)) ≤ 63 → (length l < fuel)%nat →
  let args := replicate (Z.to_nat nfixed) "*"%char ++ fmt_types l in
  parse_fmtstr fuel (print_fmt l last) nfixed (Some aa0) (Some xx0) =
    Ret (true, Some (letters_info "*" args nfixed).1, Some (letters_info "*" args nfixed).2).
Proof.
  intros Hok Hn Hlen Hf args. unfold parse_fmtstr.
  pose proof (stars_letters (Z.to_nat nfixed)) as Hst.
  rewrite (printf_loop_ok l last); [|done| | |done|done|done].
  - cbn [mbind outcome_bind printf_init pf_types]. unfold args. apply letters_parse; [set_solver| | |];
      rewrite ?length_app, ?length_replicate; [|lia..]. apply Forall_app. split; [done|].
    apply flat_map_letters. intros p. apply conv_types_letters.
  - cbn [printf_init pf_types]. split_and!; [by apply letters_free; constructor; [set_solver|]|lia|..];
      cbn [length]; rewrite length_replicate; lia.
  - cbn [printf_init pf_types length]. rewrite length_replicate. lia.
Qed.

Lemma parse_scanf_fmtstr_ok l last idxOfFmt fuel aa0 xx0 :
  sfmt_ok l last → 0 ≤ idxOfFmt → idxOfFmt + 1 + Z.of_nat (length (sfmt_types l)) ≤ 63 → (length l < fuel)%nat →
  let args := replicate (Z.to_nat (idxOfFmt + 1)) "*"%char ++ sfmt_types l in
  parse_scanf_fmtstr fuel (print_sfmt l last) idxOfFmt (Some aa0) (Some xx0) =
    Ret (true, Some (letters_info "i" args (idxOfFmt + 1)).1, Some (letters_info "i" args (idxOfFmt + 1)).2).
Proof.
  intros Hok Hn Hlen Hf args. unfold parse_scanf_fmtstr.
  pose proof (stars_letters (Z.to_nat (idxOfFmt + 1))) as Hst.
  rewrite (scanf_loop_ok l last); [|done| |done| |done|done|done].
  - cbn [mbind outcome_bind scanf_init sf_types]. rewrite (wrap_small 32) by (unfold in_u; lia). unfold args.
    apply letters_parse; [set_solver| | |]; rewrite ?length_app, ?length_replicate; [|lia..]. apply Forall_app. split; [done|].
    apply flat_map_letters. intros p. apply sconv_types_letters.
  - cbn [scanf_init sf_types]. split_and!; [by apply letters_free; constructor; [set_solver|]|lia|..];
      cbn [length]; rewrite length_replicate; lia.
  - cbn [scanf_init sf_types length]. rewrite length_replicate. lia.
Qed.

(** A conversion without its length modifiers. *)
Definition strip_length (p : list ascii * conv) : list ascii * conv :=
  let c := p.2 in (p.1, mk_conv (cv_flags c) (cv_width c) (cv_precision c) [] (cv_note c) (cv_char c)).

Lemma strip_length_types l : fmt_types (map strip_length l) = fmt_types l.
Proof. unfold fmt_types. induction l as [|p l IH]; [done|]. cbn [map flat_map]. by rewrite IH. Qed.

Lemma strip_length_ok l last : fmt_ok l last → fmt_ok (map strip_length l) last.
Proof.
  intros [Hl Hlast]. split; [|done]. apply Forall_map. eapply Forall_impl; [exact Hl|]. intros [t c] [Ht Hc].
  split; [exact Ht|]. unfold conv_ok in *. cbn [strip_length snd cv_flags cv_width cv_precision cv_length cv_note cv_char] in *.
  rewrite !andb_true_iff in *. naive_solver.
Qed.

(** ** Properties *)


(** C31.  The same for scanf formats: every conversion that stores takes one
    pointer. *)
Theorem parse_scanf_fmtstr_correct l last idxOfFmt fuel aa0 xx0 :
  sfmt_ok l last → 0 ≤ idxOfFmt → idxOfFmt + 1 + Z.of_nat (length (sfmt_types l)) ≤ 63 → (length l < fuel)%nat →
  let args := replicate (Z.to_nat (idxOfFmt + 1)) "*"%char ++ sfmt_types l in
  parse_scanf_fmtstr fuel (print_sfmt l last) idxOfFmt (Some aa0) (Some xx0) =
    Ret (true, Some (letters_info "i" args (idxOfFmt + 1)).1, Some (letters_info "i" args (idxOfFmt + 1)).2).
Proof. apply parse_scanf_fmtstr_ok. Qed.

(** A conversion character the parser does not know, behind a percent
    sign alone, makes the loop of [parse_fmtstr] run for ever: no amount of
    fuel is enough. *)
Theorem parse_fmtstr_diverges fuel aa xx : parse_fmtstr fuel (c_string "%y") 1 aa xx = Stop OutOfFuel.
Proof.
  unfold parse_fmtstr. assert (∀ fuel, printf_loop fuel 1 (printf_init (c_string "%y") 1) = Stop OutOfFuel) as ->; [|done].
  clear fuel. intros fuel. set (st := mk_printf (c_string "y") false 0 0 1 1 1 false false (chars "**")).
  assert (∀ fuel, printf_loop fuel 1 st = Stop OutOfFuel) as Hst.
  { intros k. induction k as [|k IH]; [done|]. cbn [printf_loop].
    assert (printf_round 1 st = Ret (Continue st)) as -> by reflexivity. exact IH. }
  destruct fuel as [|fuel]; [done|]. cbn [printf_loop].
  assert (printf_round 1 (printf_init (c_string "%y") 1) = Ret (Continue st)) as -> by reflexivity. apply Hst.
Qed.

(** A format that ends inside a conversion is read past its end: the NUL
    counts as a flag and as a length modifier. *)
Theorem parse_fmtstr_overread fuel aa xx : (1 ≤ fuel)%nat →
  parse_fmtstr fuel (c_string "%5") 1 aa xx = Stop Undefined ∧ parse_fmtstr fuel (c_string "%-") 1 aa xx = Stop Undefined.
Proof. intros Hf. destruct fuel as [|fuel]; [lia|]. split; reflexivity. Qed.

(** Length modifiers do not change the types: the format without its
    [l], [ll], [q], [L], ... describes the same call, in which every integer is
    an [int]. *)
Theorem parse_fmtstr_ignores_length l last nfixed fuel aa xx :
  fmt_ok l last → 1 ≤ nfixed → nfixed + Z.of_nat (length (fmt_types l)) ≤ 63 → (length l < fuel)%nat →
  parse_fmtstr fuel (print_fmt l last) nfixed (Some aa) (Some xx) =
  parse_fmtstr fuel (print_fmt (map strip_length l) last) nfixed (Some aa) (Some xx).
Proof.
  intros Hok Hn Hlen Hf. rewrite parse_fmtstr_ok by done.
  rewrite parse_fmtstr_ok; [by rewrite strip_length_types|by apply strip_length_ok|done|by rewrite strip_length_types|].
  by rewrite length_map.
Qed.

(** ** Witnesses *)

(** "%-5.*ld|%s" *)
Definition example_fmt : list (list ascii * conv) :=
  [([], mk_conv (chars "-") (Given (chars "5")) (Some Star) (chars "l") None "d"%char);
   (chars "|", mk_conv [] Default None [] None "s"%char)].


(** "%d,%*3c%[a-z]" *)
Definition example_sfmt : list (list ascii * sconv) :=
  [([], mk_sconv false [] [] (SChar "d")); (chars ",", mk_sconv true (chars "3") [] (SChar "c"));
   ([], mk_sconv false [] [] (SSet (chars "a-z")))].

Lemma parse_scanf_fmtstr_correct_witness :
  print_sfmt example_sfmt [] = c_string "%d,%*3c%[a-z]" ∧
  parse_scanf_fmtstr 4 (print_sfmt example_sfmt []) 1 (Some (zero_fn_info 0)) (Some (zero_fn_info 0)) =
    Ret (true, Some (letters_info "i" (chars "****") 2).1, Some (letters_info "i" (chars "****") 2).2).
Proof.
  split; [reflexivity|]. apply (parse_scanf_fmtstr_correct example_sfmt [] 1 4); [|lia|by vm_compute|simpl; lia].
  split; [by repeat constructor|done].
Defined.

Lemma parse_fmtstr_overread_witness : parse_fmtstr 1 (c_string "%5") 1 None None = Stop Undefined.
Proof. apply (parse_fmtstr_overread 1 None None). lia. Defined.

Lemma parse_fmtstr_ignores_length_witness :
  parse_fmtstr 3 (c_string "%-5.*ld|%s") 1 (Some (zero_fn_info 0)) (Some (zero_fn_info 0)) =
  parse_fmtstr 3 (c_string "%-5.*d|%s") 1 (Some (zero_fn_info 0)) (Some (zero_fn_info 0)).
Proof.
  apply (parse_fmtstr_ignores_length example_fmt [] 1 3); [|lia|by vm_compute|simpl; lia].
  split; [by repeat constructor|done].
Defined.
