(* ===== verification/Handlers.v ===== *)
(** * Handlers of variadic host functions

    The functions [my_printf_family], [my_vprintf_family], ... of
    [AArch64tox64.inc.c] run when emulated code calls a variadic x86-64
    function.  Each finds the types of the arguments (from a format string, a
    type encoding, or by looking for the terminating nil), fills the argument
    space, calls through the trampoline of [tcg-target.inc.c], and moves the
    return value back.  The host functions, Foundation and CoreFoundation are
    arguments of the section. *)

From S2P Require Import CString Prelude Bytes ABIArgInfo FfiTypes AAPrepCif XXPrepCif DyBridge TypesParser FmtStr.

(** The state a handler works on: the emulated CPU and the memory guest and
    host share. *)
Record guest := mk_guest { g_env : CPUARMState; g_pc : Z; g_mem : memory }.

(** [env->xregs[k] = v] *)
Definition set_xreg (env : CPUARMState) (k v : Z) : outcome CPUARMState :=
  l ← wr (xregs env) (k * 8) (le_bytes 8 v); Ret (mk_env l (zregs env)).

(** On [int]. *)
Definition ALIGN2POW (v a : Z) : Z := Z.lor (v - 1) (a - 1) + 1.

(** ** The trampoline *)

(** What an x86-64 function finds at its entry: RDI, RSI, RDX, RCX, R8, R9 as
    48 bytes, EAX, XMM0 to XMM7 as 128 bytes ([None]: not set by the
    trampoline), and the bytes above the return address. *)
Record x64_entry := mk_entry {
  en_gpr : list Z;
  en_eax : Z;
  en_sse : option (list Z);
  en_stack : list Z
}.

(** What it leaves: RAX, RDX, XMM0, XMM1. *)
Record x64_return := mk_return { re_rax : list Z; re_rdx : list Z; re_xmm0 : list Z; re_xmm1 : list Z }.

(** The null-terminated string at an address. *)
Fixpoint cstr_at (fuel : nat) (mem : memory) (addr : Z) : outcome cstr :=
  match fuel with
  | O => Stop OutOfFuel
  | S fuel =>
      match mem addr with
      | None => Stop Undefined
      | Some b => if b =? 0 then Ret [NUL] else s ← cstr_at fuel mem (addr + 1); Ret (ascii_of_N (Z.to_N b) :: s)
      end
  end.

(** [unsigned nvari = 1; while ( *sp ) { ++sp; ++nvari; }] *)
Fixpoint count_nil (fuel : nat) (mem : memory) (sp nvari : Z) : outcome Z :=
  match fuel with
  | O => Stop OutOfFuel
  | S fuel =>
      w ← le_val <$> rd_mem mem sp 8;
      if w =? 0 then Ret nvari else count_nil fuel mem (sp + 8) (u32 (nvari + 1))
  end.

(** [char types[len + 1]; memset(types, '*', len); types[len] = 0;]: an array
    of length 0 is undefined. *)
Definition stars (len : Z) : outcome cstr :=
  if u32 (len + 1) =? 0 then Stop Undefined else Ret (replicate (Z.to_nat len) "*"%char ++ [NUL]).

(** [if (!parse(...)) abort();] *)
Definition or_abort (r : outcome (bool * option ABIFnInfo * option ABIFnInfo)) : outcome (ABIFnInfo * ABIFnInfo) :=
  '(ok, aa, xx) ← r;
  match ok, aa, xx with
  | true, Some aa, Some xx => Ret (aa, xx)
  | _, _, _ => Stop Aborted
  end.

Definition deref (s : option cstr) : outcome cstr := match s with Some s => Ret s | None => Stop Undefined end.

(** The chain of [if (v == env->pc) env->pc = w; else ...; else abort();] *)
Fixpoint redirect (addr_of : string → Z) (table : list (string * string)) (pc : Z) : outcome Z :=
  match table with
  | [] => Stop Aborted
  | (v, w) :: table => if addr_of v =? pc then Ret (addr_of w) else redirect addr_of table pc
  end.

Section handlers.
(** The x86-64 functions by address; they may run emulated code. *)
Context (x64_function : Z → x64_entry → CPUARMState → memory → outcome (x64_return * CPUARMState * memory)).
(** Uninitialized memory: a space of [n] bytes, the bytes of the frame behind
    it, and a local [ABIFnInfo]. *)
Context (alloca : Z → list Z) (behind : list Z) (uninit : ABIFnInfo).
(** The addresses of symbols and method implementations. *)
Context (addr_of : string → Z).
(** [[ns UTF8String]], and the text [CFStringGetCString] writes. *)
Context (UTF8String CFStringGetCString : Z → memory → option cstr).
(** The longest string and the longest list looked at. *)
Context (fuel : nat).

Definition dy_call_x64_trampoline (pc : Z) (arg_space : list Z) (stack_size : Z) (env : CPUARMState) (mem : memory) :
    outcome (list Z * CPUARMState * memory) :=
  stack ← rd (arg_space ++ behind) SIZEOF_REGISTER_ARGS stack_size;
  gpr ← rd arg_space 0 48;
  eax ← le_val <$> rd arg_space OFF_RAX 4;
  sse ← (if eax =? 0 then Ret None else Some <$> rd arg_space OFF_SSE 128);
  '(r, env, mem) ← x64_function pc (mk_entry gpr eax sse stack) env mem;
  a ← wr arg_space OFF_RAX (re_rax r);
  a ← wr a 16 (re_rdx r);
  a ← wr a OFF_SSE (re_xmm0 r);
  a ← wr a (OFF_SSE + 16) (re_xmm1 r);
  Ret (a, env, mem).

Definition nsstr_2_cstr (ns : Z) (mem : memory) : option cstr := UTF8String ns mem.

Definition cfstring_dup_cstr (cf : Z) (mem : memory) : option cstr := CFStringGetCString cf mem.

(** ** The parts the handlers share *)

(** [alloca] and [abi_dy_a2x_entry_translation] *)
Definition enter (aaInfo xxInfo : ABIFnInfo) (g : guest) : outcome (list Z) :=
  abi_dy_a2x_entry_translation (g_env g) (g_mem g) aaInfo xxInfo (alloca (SIZEOF_REGISTER_ARGS + bytes xxInfo)) 0.

(** [alloca] and [abi_valist_a2x_prepare_args] *)
Definition enter_valist (aaInfo xxInfo : ABIFnInfo) (idxOfValist : Z) (g : guest) : outcome (list Z) :=
  abi_valist_a2x_prepare_args (g_env g) (g_mem g) aaInfo xxInfo (alloca (SIZEOF_REGISTER_ARGS + bytes xxInfo)) 0 idxOfValist.

(** [call_x64(env->pc, arg_space, ALIGN2POW(xxInfo.bytes, 16))] *)
Definition call_x64 (xxInfo : ABIFnInfo) (arg_space : list Z) (g : guest) : outcome (list Z * guest) :=
  '(a, env, mem) ← dy_call_x64_trampoline (g_pc g) arg_space (u32 (ALIGN2POW (bytes xxInfo) 16)) (g_env g) (g_mem g);
  Ret (a, mk_guest env (g_pc g) mem).

(** [abi_dy_a2x_exit_translation(env, &aaInfo, &xxInfo, arg_space, NULL)] *)
Definition leave (aaInfo xxInfo : ABIFnInfo) (arg_space : list Z) (g : guest) : outcome guest :=
  env ← abi_dy_a2x_exit_translation arg_space [] aaInfo xxInfo (g_env g);
  Ret (mk_guest env (g_pc g) (g_mem g)).

Definition bridge (aaInfo xxInfo : ABIFnInfo) (g : guest) : outcome guest :=
  a ← enter aaInfo xxInfo g;
  '(a, g) ← call_x64 xxInfo a g;
  leave aaInfo xxInfo a g.

(** With [REPLACE_VALIST_WITH_ELLIPSIS]: the argument space of the variadic
    variant, which is called instead. *)
Definition bridge_valist (table : list (string * string)) (idxOfValist : Z) (aaInfo xxInfo : ABIFnInfo) (g : guest) :
    outcome guest :=
  a ← enter_valist aaInfo xxInfo idxOfValist g;
  pc ← redirect addr_of table (g_pc g);
  '(a, g) ← call_x64 xxInfo a (mk_guest (g_env g) pc (g_mem g));
  leave aaInfo xxInfo a g.

(** ** C functions with a format *)

Definition my_scanf_family (idxOfFmt : Z) (g : guest) : outcome guest :=
  p ← xreg (g_env g) idxOfFmt;
  s ← cstr_at fuel (g_mem g) p;
  '(aaInfo, xxInfo) ← or_abort (parse_scanf_fmtstr fuel s idxOfFmt (Some uninit) (Some uninit));
  bridge aaInfo xxInfo g.

Definition my_printf_family (idxOfFmt : Z) (g : guest) : outcome guest :=
  p ← xreg (g_env g) idxOfFmt;
  s ← cstr_at fuel (g_mem g) p;
  '(aaInfo, xxInfo) ← or_abort (parse_fmtstr fuel s (u32 (idxOfFmt + 1)) (Some uninit) (Some uninit));
  bridge aaInfo xxInfo g.

Definition vprintf_table : list (string * string) :=
  [("vprintf", "printf"); ("vasprintf", "asprintf"); ("vdprintf", "dprintf"); ("vfprintf", "fprintf");
   ("vsprintf", "sprintf"); ("vprintf_l", "printf_l"); ("vsnprintf", "snprintf"); ("vasprintf_l", "asprintf_l");
   ("vfprintf_l", "fprintf_l"); ("vsprintf_l", "sprintf_l"); ("vsnprintf_l", "snprintf_l");
   ("__vsnprintf_chk", "__snprintf_chk"); ("__vsprintf_chk", "__sprintf_chk")]%string.

Definition my_vprintf_family (idxOfValist : Z) (g : guest) : outcome guest :=
  _ ← c_assert (idxOfValist <=? 7);
  format ← xreg (g_env g) (u32 (idxOfValist - 1));
  s ← cstr_at fuel (g_mem g) format;
  '(aaInfo, xxInfo) ← or_abort (parse_fmtstr fuel s idxOfValist (Some uninit) (Some uninit));
  bridge_valist vprintf_table idxOfValist aaInfo xxInfo g.

Definition vscanf_table : list (string * string) :=
  [("vscanf", "scanf"); ("__svfscanf", "fscanf"); ("vfscanf", "fscanf"); ("vsscanf", "sscanf")]%string.

Definition my_vscanf_family (idxOfValist : Z) (g : guest) : outcome guest :=
  _ ← c_assert (idxOfValist <=? 7);
  format ← xreg (g_env g) (u32 (idxOfValist - 1));
  s ← cstr_at fuel (g_mem g) format;
  '(aaInfo, xxInfo) ← or_abort (parse_scanf_fmtstr fuel s (u32 (idxOfValist - 1)) (Some uninit) (Some uninit));
  bridge_valist vscanf_table idxOfValist aaInfo xxInfo g.

(** ** CoreFoundation and Foundation formats *)

Definition vcfstring_table : list (string * string) :=
  [("CFStringCreateWithFormatAndArguments", "CFStringCreateWithFormat");
   ("CFStringAppendFormatAndArguments", "CFStringAppendFormat")]%string.

Definition my_vcfstring_family (idxOfValist : Z) (g : guest) : outcome guest :=
  _ ← c_assert (idxOfValist <=? 7);
  cf ← xreg (g_env g) (u32 (idxOfValist - 1));
  s ← deref (cfstring_dup_cstr cf (g_mem g));
  '(aaInfo, xxInfo) ← or_abort (parse_fmtstr fuel s idxOfValist (Some uninit) (Some uninit));
  bridge_valist vcfstring_table idxOfValist aaInfo xxInfo g.

Definition my_cfstring_family (idxOfFmt : Z) (g : guest) : outcome guest :=
  cf ← xreg (g_env g) idxOfFmt;
  s ← deref (cfstring_dup_cstr cf (g_mem g));
  '(aaInfo, xxInfo) ← or_abort (parse_fmtstr fuel s (u32 (idxOfFmt + 1)) (Some uninit) (Some uninit));
  bridge aaInfo xxInfo g.

(** [NSLog] returns nothing: no exit translation. *)
Definition my_nslog (g : guest) : outcome guest :=
  ns ← xreg (g_env g) 0;
  s ← deref (nsstr_2_cstr ns (g_mem g));
  '(aaInfo, xxInfo) ← or_abort (parse_fmtstr fuel s 1 (Some uninit) (Some uninit));
  a ← enter aaInfo xxInfo g;
  '(_, g) ← call_x64 xxInfo a g;
  Ret g.

Definition my_nslogv (g : guest) : outcome guest :=
  ns ← xreg (g_env g) 0;
  s ← deref (nsstr_2_cstr ns (g_mem g));
  '(aaInfo, xxInfo) ← or_abort (parse_fmtstr fuel s 1 (Some uninit) (Some uninit));
  a ← enter_valist aaInfo xxInfo 1 g;
  '(a, g) ← call_x64 xxInfo a (mk_guest (g_env g) (addr_of "NSLog"%string) (g_mem g));
  leave aaInfo xxInfo a g.

Definition my_objc_fmt_str_vari (idxOfFmt nfixed : Z) (g : guest) : outcome guest :=
  let idxOfFmt := u32 (idxOfFmt + 2) in let nfixed := u32 (nfixed + 2) in
  _ ← c_assert (idxOfFmt <=? 7);
  ns ← xreg (g_env g) idxOfFmt;
  s ← deref (nsstr_2_cstr ns (g_mem g));
  '(aaInfo, xxInfo) ← or_abort (parse_fmtstr fuel s nfixed (Some uninit) (Some uninit));
  bridge aaInfo xxInfo g.

Definition objc_valist_table : list (string * string) :=
  [("NSExpression_expressionWithFormat_arguments", "NSExpression_expressionWithFormat");
   ("NSPredicate_predicateWithFormat_arguments", "NSPredicate_predicateWithFormat");
   ("NSString_initWithFormat_arguments", "NSString_initWithFormat");
   ("NSString_initWithFormat_locale_arguments", "NSString_initWithFormat_locale");
   ("NSString_deferredLocalizedIntentsStringWithFormat_fromTable_arguments",
    "NSString_deferredLocalizedIntentsStringWithFormat_fromTable");
   ("NSException_raise_format_arguments", "NSException_raise_format")]%string.

Definition my_objc_fmt_str_valist (idxOfFmt idxOfValist : Z) (g : guest) : outcome guest :=
  let idxOfFmt := u32 (idxOfFmt + 2) in let idxOfValist := u32 (idxOfValist + 2) in
  _ ← c_assert (idxOfFmt <=? 7);
  ns ← xreg (g_env g) idxOfFmt;
  s ← deref (nsstr_2_cstr ns (g_mem g));
  '(aaInfo, xxInfo) ← or_abort (parse_fmtstr fuel s idxOfValist (Some uninit) (Some uninit));
  bridge_valist objc_valist_table idxOfValist aaInfo xxInfo g.

(** ** Lists that end in nil *)

Definition nil_terminated (nfixed sp : Z) (g : guest) : outcome (ABIFnInfo * ABIFnInfo) :=
  nvari ← count_nil fuel (g_mem g) sp 1;
  types ← stars (u32 (1 + nfixed + nvari));
  or_abort (get_vari_fn_info_from_types types nfixed (Some uninit) (Some uninit)).

Definition my_c_nil_terminated_vari (nfixed : Z) (g : guest) : outcome guest :=
  sp ← xreg (g_env g) REG_SP_NUM;
  '(aaInfo, xxInfo) ← nil_terminated nfixed sp g;
  bridge aaInfo xxInfo g.

(** The comparison is with the address of the function that returns the
    pointer, not with the pointer. *)
Definition c_valist_table : list (string * string) :=
  [("CGColorConversionInfoCreateFromListWithArguments_ptr", "CGColorConversionInfoCreateFromList")]%string.

Definition my_c_nil_terminated_valist (idxOfValist : Z) (g : guest) : outcome guest :=
  sp ← xreg (g_env g) idxOfValist;
  '(aaInfo, xxInfo) ← nil_terminated idxOfValist sp g;
  bridge_valist c_valist_table idxOfValist aaInfo xxInfo g.

Definition my_objc_nil_terminated_vari (nfixed : Z) (g : guest) : outcome guest :=
  let nfixed := u32 (nfixed + 2) in
  sp ← xreg (g_env g) REG_SP_NUM;
  '(aaInfo, xxInfo) ← nil_terminated nfixed sp g;
  bridge aaInfo xxInfo g.

(** No exit translation: only [void] methods use it. *)
Definition my_objc_types_vari (idxOfTy nfixed : Z) (g : guest) : outcome guest :=
  let nfixed := u32 (nfixed + 2) in let idxOfTy := u32 (idxOfTy + 2) in
  _ ← c_assert (idxOfTy <=? 7);
  p ← xreg (g_env g) idxOfTy;
  type_codes ← cstr_at fuel (g_mem g) p;
  '(aaInfo, xxInfo) ← or_abort (parse_type_codes type_codes nfixed (Some uninit) (Some uninit));
  a ← enter aaInfo xxInfo g;
  '(_, g) ← call_x64 xxInfo a g;
  Ret g.

(** ** Fixed encodings *)

Definition fixed_types (types : cstr) (g : guest) : outcome guest :=
  '(aaInfo, xxInfo) ← or_abort (get_vari_fn_info_from_types types 2 (Some uninit) (Some uninit));
  bridge aaInfo xxInfo g.

Definition my_fcntl (g : guest) : outcome guest := fixed_types (c_string "iii*") g.

Definition my_ioctl (g : guest) : outcome guest := fixed_types (c_string "iiL*") g.

(** Darwin's [O_CREAT] *)
Definition O_CREAT : Z := 512.

Definition my_open (g : guest) : outcome guest :=
  flags ← xreg (g_env g) 1;
  fixed_types (if negb (Z.land flags O_CREAT =? 0) then c_string "i*ii" else c_string "i*i") g.

Definition my_sem_open (g : guest) : outcome guest := fixed_types (c_string "**iiI") g.
End handlers.
