(* ===== verification/HandlerSpec.v ===== *)
(** * What a host function called by a handler sees

    [callee_value] reads an argument from the state at the entry of the
    x86-64 function.  For calls described by a format string or by the length
    of a nil-terminated list, the handlers are shown to call the host function
    exactly once, in a state in which every argument has the bytes the guest
    passed, and to return its result in X0. *)

From S2P Require Import CString Prelude Bytes ABIArgInfo FfiTypes Layout Placement AAPrepCif HFA AAAlloc XXPrepCif XXClass XXAlloc CrossABI DyBridge DyEntry DyStep DyCorrect TypesParser TypesSpec FmtStr FmtSpec Handlers.

(** ** The callee's view *)

Definition callee_reg (en : x64_entry) (r : Z) : outcome (list Z) :=
  if is_xmm r then match en_sse en with Some l => rd l (16 * (r - TE_XMM0)) 8 | None => Stop Undefined end
  else rd (en_gpr en) (x64_enum_2_ptr r) 8.

Definition callee_value (en : x64_entry) (c : cty) (x : ABIArgInfo) : outcome (list Z) :=
  if te_is_mem x then rd (en_stack en) (te_get_mem x) (csize c)
  else take (Z.to_nat (csize c)) <$> gather (callee_reg en) (word_regs x).

(** ** SSE registers are counted *)

Lemma regs_of_sse li L g s r : r ∈ (regs_of li L g s).*1 → is_xmm r = true → 0 ≤ g → g + ngpr_of L ≤ 6 → 0 < nsse_of L.
Proof.
  revert g s. induction L as [|c L IH]; intros g s Hr Hx Hg Hb; [set_solver|]. rewrite nsse_of_cons.
  rewrite ngpr_of_cons in Hb. pose proof (reg_counts_le L). cbn [regs_of] in Hr.
  destruct (is_gpr_class c) eqn:Hc.
  - rewrite fmap_cons in Hr. apply elem_of_cons in Hr as [->|Hr].
    + pose proof (reg_counts_le L). destruct (gpr_ptr g) as [_ Hn]; [lia|]. cbn [fst] in Hx. congruence.
    + destruct (is_sse_class c); [lia|]. apply (IH (g + 1) s) in Hr; [lia|done|lia|lia].
  - destruct (is_sse_class c); [lia|]. apply (IH g s) in Hr; [lia|done|lia|lia].
Qed.

Lemma xplaces_sse cs a j rs : Forall arg_type_ok cs → xalloc_ok a → (xplaces cs a).1 !! j = Some (InRegs rs) →
  Exists (λ r, is_xmm r = true) rs.*1 → 0 < xs (xplaces cs a).2.
Proof.
  intros Hcs. revert a j. induction Hcs as [|c cs Hc Hcs IH]; intros a j Ha Hj Hx; [done|].
  destruct (xplaces_step c cs a Hc Ha) as (p & a1 & Heq & Hp & _ & Ha1 & _). rewrite Heq in Hj |- *. cbn [fst snd] in *.
  destruct j as [|j]; [|by eapply IH]. cbn in Hj. injection Hj as ->.
  destruct (xplaces_ok cs a1 Hcs Ha1) as (_ & (_ & Hle & _) & _).
  unfold xplace in Hp. destruct (x_in_memory c a) eqn:Hm; [done|]. injection Hp as <- <-. cbn [xs] in Hle.
  apply Exists_exists in Hx as (r & Hr & Hx). unfold x_in_memory in Hm. btests. destruct Ha as (? & ? & _).
  apply regs_of_sse in Hr; [lia|done|lia|]. lia.
Qed.

(** ** Slices *)

Lemma rd_slice l o n s o' m : rd l o n = Ret s → 0 ≤ o' → 0 ≤ m → o' + m ≤ n → rd s o' m = rd l (o + o') m.
Proof.
  intros (Ho & Hn & ->)%rd_inv Ho' Hm Hle. rewrite !rd_ok by (rewrite ?length_take, ?length_drop; lia). f_equal.
  apply list_eq. intros k. destruct (decide (k < Z.to_nat m)%nat).
  - rewrite !lookup_take_lt, !lookup_drop, lookup_take_lt, lookup_drop by lia. f_equal. lia.
  - by rewrite !lookup_ge_None_2 by (rewrite length_take; lia).
Qed.

Lemma rd_app_l (l k : list Z) o n : o + n ≤ Z.of_nat (length l) → 0 ≤ o → 0 ≤ n → rd (l ++ k) o n = rd l o n.
Proof.
  intros Hle Ho Hn. rewrite !rd_ok by (rewrite ?length_app; lia). f_equal.
  rewrite drop_app_le by lia. rewrite take_app_le; [done|]. rewrite length_drop. lia.
Qed.

(** ** The trampoline hands over the argument space *)

Section callee.
Context (args behind : list Z) (count room stack_size : Z) (en : x64_entry).
Hypothesis Hargs : SIZEOF_REGISTER_ARGS + room ≤ Z.of_nat (length args).
Hypothesis Hroom : 0 ≤ room ≤ stack_size.
Hypothesis Hgpr : rd args 0 48 = Ret (en_gpr en).
Hypothesis Hstack : rd (args ++ behind) SIZEOF_REGISTER_ARGS stack_size = Ret (en_stack en).
Hypothesis Hsse : 0 < count → ∃ l, en_sse en = Some l ∧ rd args OFF_SSE 128 = Ret l.

Lemma callee_reg_ok r : xreg_ok r → (is_xmm r = true → 0 < count) → callee_reg en r = rd args (x64_enum_2_ptr r) 8.
Proof.
  unfold callee_reg. intros [(j & Hj & ->)|Hr] Hc.
  - destruct (gpr_ptr j Hj) as [-> ->]. by rewrite (rd_slice _ _ _ _ (8 * j) 8 Hgpr) by lia.
  - destruct (xmm_ptr r Hr) as [-> Hx]. rewrite Hx in *. destruct (Hsse (Hc eq_refl)) as (l & -> & Hl).
    unfold OFF_SSE, TE_XMM0, TE_XMM7 in *. rewrite (rd_slice _ _ _ _ (16 * (r - 18)) 8 Hl) by lia. f_equal. lia.
Qed.

Lemma callee_value_ok c p : value_type c = true → xx_shape c p room →
  (∀ rs, p = InRegs rs → Exists (λ r, is_xmm r = true) rs.*1 → 0 < count) →
  callee_value en c (slot_info p false (csize c)) = xx_arg_value args c (slot_info p false (csize c)).
Proof.
  intros Hval Hs Hc. unfold callee_value. destruct p as [rs|off li].
  - pose proof (xx_shape_regs _ _ _ Hs) as Hok. destruct Hs as (Hsz & g & s & Hg & Hs & Hgb & Hsb & Hrs).
    destruct (xx_regs_facts c Hval g s Hsz Hg Hs Hgb Hsb) as (Hp & Hl & Hw & _). rewrite <- Hrs in *.
    destruct (slot_regs_flags rs false (csize c)) as [-> _]. rewrite word_regs_slot, xx_value_regs by (done || lia).
    f_equal. specialize (Hc rs eq_refl). clear Hrs Hp Hl Hw. induction rs as [|[r i] rs IH]; [done|].
    apply Forall_cons in Hok as [Hr Hok]. rewrite fmap_cons in *. cbn [gather fst].
    rewrite (callee_reg_ok r Hr) by (intros; apply Hc; by left). rewrite IH; [done| |done]. intros. apply Hc. by right.
  - destruct Hs as (Ho & _ & Hb & -> & ?). pose proof (loc_info_range c).
    pose proof (csize_pos c (value_wf c Hval)). pose proof (align_up_spec (csize c) 8 ltac:(lia)).
    rewrite xx_value_stack by (unfold in_u; lia). destruct (slot_stack_flags off (loc_info c) false (csize c)) as [-> _].
    destruct (slot_stack_mem off (loc_info c) false (csize c)) as [-> _]; [unfold in_u; lia..|].
    unfold SIZEOF_REGISTER_ARGS in *. rewrite (rd_slice _ _ _ _ off (csize c) Hstack) by lia. apply rd_app_l; lia.
Qed.
End callee.

Lemma ALIGN2POW_16 b : 0 ≤ b < 2 ^ 31 → (8 | b) → b ≤ u32 (ALIGN2POW b 16) ≤ b + 8.
Proof.
  intros Hb Hd. unfold ALIGN2POW. change (16 - 1) with (Z.ones 4). destruct (decide (b = 0)) as [->|Hn]; [by vm_compute|].
  rewrite lor_ones by lia.
  change (2 ^ 4) with 16. pose proof (Z.div_mod (b - 1) 16 ltac:(lia)). pose proof (Z.mod_pos_bound (b - 1) 16 ltac:(lia)).
  rewrite wrap_small by (unfold in_u; lia). destruct Hd as [q ->]. lia.
Qed.

(** ** A call through the bridge *)

(** Every argument reaches the callee. *)
Definition carried (nf : Z) (rt : cty) (cs : list cty) (env : CPUARMState) (mem : memory) (sp : Z) (en : x64_entry) : Prop :=
  ∀ j c x a, cs !! j = Some c → ainfo (xx_fn_info rt cs) !! j = Some x → ainfo (aa_fn_info nf rt cs) !! j = Some a →
    ∃ v, aa_arg_value env mem sp c a = Ret v ∧ callee_value en c x = Ret v.

Definition return_ok (r : x64_return) : Prop :=
  length (re_rax r) = 8%nat ∧ length (re_rdx r) = 8%nat ∧ length (re_xmm0 r) = 16%nat ∧ length (re_xmm1 r) = 16%nat.

(** ** Calls described by letters *)

Abbreviation letters l := (Forall (λ ch, ch ∈ ["i"; "I"; "d"; "*"; "c"]%char) l).

Lemma letters_value l : letters l → Forall (λ c, value_type c = true) (map letter_cty l).
Proof.
  intros Hl. apply Forall_map. eapply Forall_impl; [exact Hl|]. intros c Hc. rewrite !elem_of_cons, elem_of_nil in Hc.
  by destruct_or! Hc; subst.
Qed.

Lemma letters_no_spread l aa xx : letters l → no_spread (map letter_cty l) aa xx.
Proof.
  intros Hl j c x a Hc _ _ Hs. apply list_lookup_fmap_Some in Hc as (ch & -> & Hch).
  rewrite Forall_lookup in Hl. specialize (Hl _ _ Hch). rewrite !elem_of_cons, elem_of_nil in Hl. by destruct_or! Hl; subst.
Qed.

(** The part of the guest stack that holds arguments is mapped. *)
Definition stack_mapped (mem : memory) (sp n : Z) : Prop := ∀ i, 0 ≤ i < n + 8 → is_Some (mem (sp + i)).

Lemma letters_readable nf r l env mem sp : letters l → r ∈ ["i"; "I"; "d"; "*"; "c"]%char → (length l ≤ 63)%nat →
  stack_mapped mem sp (bytes (letters_info r l nf).1) →
  guest_readable env mem sp (map letter_cty l) (letters_info r l nf).1.
Proof.
  intros Hl Hr Hlen Hm. split; [exact Hm|]. intros j c a Hc Ha Hi. cbn [fst letters_info] in Ha.
  destruct (letters_proto r l Hr Hl Hlen) as [Hp Hroom].
  destruct (aa_fn_info_lookup nf (letter_cty r) (map letter_cty l) j c Hp Hc) as (p & b & b' & Ha' & _).
  rewrite Ha in Ha'. injection Ha' as ->. exfalso. apply list_lookup_fmap_Some in Hc as (ch & -> & Hch).
  rewrite Forall_lookup in Hl. specialize (Hl _ _ Hch). rewrite !elem_of_cons, elem_of_nil in Hl.
  destruct p; destruct_or! Hl; subst; discriminate Hi.
Qed.

Definition guest_ok (g : guest) : Prop := env_ok (g_env g) ∧ ∀ a b, g_mem g a = Some b → 0 ≤ b < 256.

(** ** A call through the bridge, in steps *)

Section calls.
Context (x64_function : Z → x64_entry → CPUARMState → memory → outcome (x64_return * CPUARMState * memory)).
Context (alloca : Z → list Z) (behind : list Z).
Hypothesis alloca_length : ∀ n, 0 ≤ n → Z.of_nat (length (alloca n)) = n.
Hypothesis behind_length : 8 ≤ Z.of_nat (length behind).
Hypothesis host_returns : ∀ pc en env mem r env' mem',
  x64_function pc en env mem = Ret (r, env', mem') → return_ok r.

Section one_call.
Context (nf : Z) (rt : cty) (cs : list cty) (env : CPUARMState) (mem : memory) (sp : Z).
Hypothesis Hproto : proto_ok rt cs.
Hypothesis Hroom : stack_room cs + 8 < 2 ^ 31.
Hypothesis Henv : env_ok env.
Hypothesis Hmem : ∀ a b, mem a = Some b → 0 ≤ b < 256.
Hypothesis Hval : Forall (λ c, value_type c = true) cs.
Hypothesis Hg : guest_readable env mem sp cs (aa_fn_info nf rt cs).
Hypothesis Hs : no_spread cs (aa_fn_info nf rt cs) (xx_fn_info rt cs).

Local Abbreviation xx := (xx_fn_info rt cs).

(** The argument space after the call. *)
Definition handed_back (args : list Z) (r : x64_return) : outcome (list Z) :=
  a ← wr args OFF_RAX (re_rax r); a ← wr a 16 (re_rdx r); a ← wr a OFF_SSE (re_xmm0 r); wr a (OFF_SSE + 16) (re_xmm1 r).

Lemma handed_back_rax args r : SIZEOF_REGISTER_ARGS ≤ Z.of_nat (length args) → return_ok r →
  ∃ a, handed_back args r = Ret a ∧ rd a OFF_RAX 8 = Ret (re_rax r).
Proof.
  unfold SIZEOF_REGISTER_ARGS, handed_back, OFF_RAX, OFF_SSE. intros Hl (L1 & L2 & L3 & L4).
  destruct (wr_copy args 176 (re_rax r)) as (a1 & E1 & [F1 _] & R1); [lia|lia|]. rewrite E1. cbn [mbind outcome_bind].
  destruct (wr_copy a1 16 (re_rdx r)) as (a2 & E2 & [F2 G2] & _); [lia|lia|]. rewrite E2. cbn [mbind outcome_bind].
  destruct (wr_copy a2 48 (re_xmm0 r)) as (a3 & E3 & [F3 G3] & _); [lia|lia|]. rewrite E3. cbn [mbind outcome_bind].
  destruct (wr_copy a3 (48 + 16) (re_xmm1 r)) as (a4 & E4 & [F4 G4] & _); [lia|lia|]. exists a4. split; [done|].
  rewrite G4, G3, G2, R1 by (lia || (constructor; [cbn [fst snd]; lia|constructor])). by rewrite take_ge by lia.
Qed.

Lemma args_sse args : rd args OFF_RAX 8 = Ret (le_bytes 8 (ssecount xx)) → 0 ≤ ssecount xx ≤ 8 →
  le_val <$> rd args OFF_RAX 4 = Ret (ssecount xx).
Proof.
  intros Hrd Hc. rewrite (rd_take _ _ 8 4 _ Hrd) by lia. rewrite le_bytes_take by lia. cbn [fmap outcome_fmap].
  change (Z.to_nat 4) with 4%nat. rewrite le_val_bytes, Z.mod_small; [done|]. lia.
Qed.

Lemma call_ok sret : ∃ args en,
  abi_dy_a2x_entry_trans_internal env mem sp (aa_fn_info nf rt cs) xx (alloca (SIZEOF_REGISTER_ARGS + bytes xx)) sret = Ret args ∧
  SIZEOF_REGISTER_ARGS ≤ Z.of_nat (length args) ∧ carried nf rt cs env mem sp en ∧ en_eax en = ssecount xx ∧
  ∀ pc env0 mem0, dy_call_x64_trampoline x64_function behind pc args (u32 (ALIGN2POW (bytes xx) 16)) env0 mem0 =
    '(r, env1, mem1) ← x64_function pc en env0 mem0; a ← handed_back args r; Ret (a, env1, mem1).
Proof.
  destruct (xx_fn_info_bytes rt cs Hproto Hroom) as (Hb & Hb2 & Hn). pose proof Hproto as (_ & _ & Hcs & _).
  destruct (xplaces_ok cs (xalloc0 rt) Hcs (xalloc0_ok rt)) as ((_ & Hxs & Hxb) & _).
  assert (8 | bytes xx) as Hd by (rewrite Hb; apply align_up_spec; lia).
  pose proof (ALIGN2POW_16 _ Hb2 Hd) as Hal. set (size := u32 (ALIGN2POW (bytes xx) 16)) in *.
  assert (ssecount xx = xs (xplaces cs (xalloc0 rt)).2) as Hsse by (unfold xx_fn_info; by destruct (xplaces _ _)).
  pose proof (alloca_length (SIZEOF_REGISTER_ARGS + bytes xx) ltac:(unfold SIZEOF_REGISTER_ARGS; lia)) as Hlen.
  destruct (entry_internal_ok nf rt cs env mem sp _ sret Hproto Hroom Henv Hmem Hval Hg Hs Hlen)
    as (args & Hrun & Hl & Hdone & _ & Hrax). rewrite <- Hl in Hlen. unfold SIZEOF_REGISTER_ARGS in *.
  pose proof (args_sse args Hrax ltac:(lia)) as Heax.
  assert (∃ gpr, rd args 0 48 = Ret gpr) as [gpr Egpr] by (eexists; apply rd_ok; lia).
  assert (∃ sse, rd args OFF_SSE 128 = Ret sse) as [sse Esse] by (eexists; apply rd_ok; unfold OFF_SSE; lia).
  assert (∃ st, rd (args ++ behind) 184 size = Ret st) as [st Est]
    by (eexists; apply rd_ok; [lia|rewrite length_app; lia]).
  set (en := mk_entry gpr (ssecount xx) (if ssecount xx =? 0 then None else Some sse) st).
  exists args, en. split_and!; [done|lia| |done|].
  - intros j c x a Hc Hx Ha. destruct (jobs_infos_lookup nf rt cs j c x a Hc Hx Ha) as (px & pa & Hj & -> & ->).
    destruct (jobs_readable nf rt cs env mem sp j c px pa Hproto Henv Hg Hj) as [[v Hv] _].
    rewrite Forall_lookup in Hdone. specialize (Hdone j _ Hj). exists v. split; [done|].
    pose proof (jobs_ok nf rt cs env mem sp Hproto Hroom Henv Hval Hg Hs) as Hjobs. rewrite Forall_lookup in Hjobs.
    destruct (Hjobs j _ Hj) as (Hvc & Hsh & _). destruct (jobs_lookup _ _ _ _ _ _ _ Hj) as (_ & Hpx & _).
    unfold job_done, job_x, job_a in *. rewrite Hv in Hdone. rewrite <- Hdone.
    apply (callee_value_ok args behind (ssecount xx) (bytes xx) size en); try done; try (unfold SIZEOF_REGISTER_ARGS; lia).
    + intros Hp. exists sse. split; [|done]. unfold en. cbn [en_sse]. by rewrite (proj2 (Z.eqb_neq _ 0)) by lia.
    + intros rs -> Hx'. rewrite Hsse. by eapply xplaces_sse; [|apply xalloc0_ok|exact Hpx|].
  - intros pc env0 mem0. unfold dy_call_x64_trampoline, SIZEOF_REGISTER_ARGS. rewrite Est, Egpr, Heax. cbn [mbind outcome_bind].
    assert ((if ssecount xx =? 0 then Ret None else Some <$> rd args OFF_SSE 128) =
      Ret (if ssecount xx =? 0 then None else Some sse)) as -> by (rewrite Esse; by case_match).
    cbn [mbind outcome_bind]. fold en. destruct (x64_function pc en env0 mem0) as [[[r env1] mem1]|]; [|done].
    cbn [mbind outcome_bind]. unfold handed_back. destruct (wr args OFF_RAX _) as [a1|]; [|done]. cbn [mbind outcome_bind].
    destruct (wr a1 16 _) as [a2|]; [|done]. cbn [mbind outcome_bind]. by destruct (wr a2 OFF_SSE _) as [a3|].
Qed.
End one_call.

(** A pointer or an [int] comes back in X0. *)
Lemma leave_x0 nf r cs args env : r ∈ ["*"; "i"]%char →
  abi_dy_a2x_exit_translation args [] (aa_fn_info nf (letter_cty r) cs) (xx_fn_info (letter_cty r) cs) env =
    bs ← rd args OFF_RAX 8; wr_a64 env TE_X0 bs.
Proof.
  intros Hr. unfold abi_dy_a2x_exit_translation, xx_fn_info, aa_fn_info. destruct (xplaces _ _), (place_args _ _ _ _).
  transitivity ((e ← copy_to_a64 env TE_X0 args OFF_RAX 8; Ret (mk_env (xregs e) (zregs e))) ≫= Ret).
  - rewrite !elem_of_cons, elem_of_nil in Hr. destruct_or! Hr; subst r; reflexivity.
  - unfold copy_to_a64. destruct (rd args OFF_RAX 8) as [bs|]; [|done]. cbn [mbind outcome_bind].
    by destruct (wr_a64 env TE_X0 bs) as [[]|].
Qed.

(** The host function runs in the state [en]; its RAX goes to X0. *)
Definition hosted (pc : Z) (en : x64_entry) (g : guest) : outcome guest :=
  '(r, env, mem) ← x64_function pc en (g_env g) (g_mem g);
  env ← wr_a64 env TE_X0 (re_rax r);
  Ret (mk_guest env pc mem).

Section letters.
Context (r : ascii) (l : list ascii) (nf : Z) (g : guest) (sp : Z).
Hypothesis Hr : r ∈ ["*"; "i"]%char.
Hypothesis Hl : letters l.
Hypothesis Hlen : (length l ≤ 63)%nat.
Hypothesis Hguest : guest_ok g.
Hypothesis Hmap : stack_mapped (g_mem g) sp (bytes (letters_info r l nf).1).

Local Abbreviation aa := (letters_info r l nf).1.
Local Abbreviation xx := (letters_info r l nf).2.
Local Abbreviation sent en := (carried nf (letter_cty r) (map letter_cty l) (g_env g) (g_mem g) sp en).

Lemma letters_call : ∃ args en,
  abi_dy_a2x_entry_trans_internal (g_env g) (g_mem g) sp aa xx (alloca (SIZEOF_REGISTER_ARGS + bytes xx)) 0 = Ret args ∧
  sent en ∧ ∀ pc, ('(a, g) ← call_x64 x64_function behind xx args (mk_guest (g_env g) pc (g_mem g)); leave aa xx a g) = hosted pc en g.
Proof.
  destruct Hguest as [He Hm]. assert (r ∈ ["i"; "I"; "d"; "*"; "c"]%char) as Hr' by set_solver.
  destruct (letters_proto r l Hr' Hl Hlen) as [Hp Hroom].
  destruct (call_ok nf (letter_cty r) (map letter_cty l) (g_env g) (g_mem g) sp Hp Hroom He Hm (letters_value l Hl)
    (letters_readable nf r l _ _ sp Hl Hr' Hlen Hmap) (letters_no_spread l _ _ Hl) 0) as (args & en & Hrun & Hla & Hc & _ & Hcall).
  exists args, en. split_and!; [exact Hrun|exact Hc|]. intros pc. unfold call_x64. cbn [g_pc g_env g_mem letters_info fst snd].
  rewrite Hcall. unfold hosted. destruct (x64_function pc en (g_env g) (g_mem g)) as [[[ret env1] mem1]|] eqn:Hx; [|done].
  pose proof (host_returns _ _ _ _ _ _ _ Hx) as Hret. destruct (handed_back_rax args ret Hla Hret) as (a & Ha & Hrd).
  cbn [mbind outcome_bind]. rewrite Ha. cbn [mbind outcome_bind]. unfold leave. cbn [g_env g_pc g_mem].
  rewrite leave_x0 by done. rewrite Hrd. cbn [mbind outcome_bind]. by destruct (wr_a64 env1 TE_X0 (re_rax ret)).
Qed.

Lemma letters_bridge : xreg (g_env g) REG_SP_NUM = Ret sp →
  ∃ en, sent en ∧ bridge x64_function alloca behind aa xx g = hosted (g_pc g) en g.
Proof.
  intros Hsp. destruct letters_call as (args & en & Hrun & Hc & Hcall). exists en. split; [done|].
  rewrite <- Hcall. unfold bridge, enter, abi_dy_a2x_entry_translation. rewrite Hsp. cbn [mbind outcome_bind].
  rewrite Hrun. by destruct g.
Qed.

Lemma letters_bridge_valist addr_of table idx pc : 0 ≤ idx ≤ 7 → xreg (g_env g) idx = Ret sp →
  redirect addr_of table (g_pc g) = Ret pc →
  ∃ en, sent en ∧ bridge_valist x64_function alloca behind addr_of table idx aa xx g = hosted pc en g.
Proof.
  intros Hi Hsp Hpc. destruct letters_call as (args & en & Hrun & Hc & Hcall). exists en. split; [done|].
  rewrite <- Hcall. unfold bridge_valist, enter_valist, abi_valist_a2x_prepare_args.
  rewrite (proj2 (Z.leb_le idx 7)) by lia. cbn [c_assert mbind outcome_bind]. rewrite Hsp. cbn [mbind outcome_bind].
  rewrite Hrun. cbn [mbind outcome_bind]. by rewrite Hpc.
Qed.
End letters.
End calls.

(** ** Strings and lists in memory *)

Lemma cstr_at_length fuel mem p s : cstr_at fuel mem p = Ret s → (length s ≤ fuel)%nat.
Proof.
  revert p s. induction fuel as [|fuel IH]; intros p s; [done|]. cbn [cstr_at]. destruct (mem p) as [b|]; [|done].
  destruct (b =? 0); [intros [= <-]; simpl; lia|]. destruct (cstr_at fuel mem (p + 1)) as [t|] eqn:Ht; [|done].
  cbn [mbind outcome_bind]. intros [= <-]. specialize (IH _ _ Ht). simpl. lia.
Qed.

Lemma print_length {A} (f : list ascii * A → list ascii) l (last : list ascii) : (∀ p, f p ≠ []) →
  (length l < length (flat_map f l ++ last ++ [NUL]))%nat.
Proof.
  intros Hf. induction l as [|p l IH]; [rewrite !length_app; simpl; lia|]. cbn [flat_map length].
  rewrite <- app_assoc, length_app. specialize (Hf p). destruct (f p); [done|]. simpl. lia.
Qed.

Lemma print_fmt_length l last : (length l < length (print_fmt l last))%nat.
Proof. apply print_length. intros [[] c]; done. Qed.

Lemma print_sfmt_length l last : (length l < length (print_sfmt l last))%nat.
Proof. apply print_length. intros [[] c]; done. Qed.

(** The nonzero words of a list that ends in nil. *)
Definition nil_list (mem : memory) (sp : Z) (ws : list Z) : Prop :=
  Forall (λ w, w ≠ 0) ws ∧
  (∀ i w, ws !! i = Some w → le_val <$> rd_mem mem (sp + 8 * Z.of_nat i) 8 = Ret w) ∧
  le_val <$> rd_mem mem (sp + 8 * Z.of_nat (length ws)) 8 = Ret 0.

Lemma count_nil_ok fuel mem sp ws n : nil_list mem sp ws → (length ws < fuel)%nat → 0 ≤ n → n + Z.of_nat (length ws) < 2 ^ 32 →
  count_nil fuel mem sp n = Ret (n + Z.of_nat (length ws)).
Proof.
  intros (Hnz & Hw & H0). revert fuel sp n Hw H0.
  induction Hnz as [|w ws Hne Hnz IH]; intros fuel sp n Hw H0 Hf Hn Hb; (destruct fuel as [|fuel]; [simpl in Hf; lia|]);
    cbn [count_nil].
  - cbn [length Z.of_nat] in H0. rewrite Z.mul_0_r, Z.add_0_r in H0. rewrite H0. cbn. f_equal. lia.
  - pose proof (Hw 0%nat w eq_refl) as Hw0. rewrite Z.mul_0_r, Z.add_0_r in Hw0. rewrite Hw0. cbn [mbind outcome_bind].
    rewrite (proj2 (Z.eqb_neq w 0)) by done. cbn [length] in *. rewrite (wrap_small 32) by (unfold in_u; lia).
    rewrite IH; [f_equal; lia| | |lia|lia|lia].
    + intros i v Hi. specialize (Hw (S i) v Hi). rewrite <- Hw. do 2 f_equal. lia.
    + rewrite <- H0. do 2 f_equal. lia.
Qed.

(** ** Properties *)

Section properties.
Context (x64_function : Z → x64_entry → CPUARMState → memory → outcome (x64_return * CPUARMState * memory)).
Context (alloca : Z → list Z) (behind : list Z) (uninit : ABIFnInfo) (addr_of : string → Z) (fuel : nat).
Hypothesis alloca_length : ∀ n, 0 ≤ n → Z.of_nat (length (alloca n)) = n.
Hypothesis behind_length : 8 ≤ Z.of_nat (length behind).
Hypothesis host_returns : ∀ pc en env mem r env' mem',
  x64_function pc en env mem = Ret (r, env', mem') → return_ok r.

(** The arguments of a call with [n] fixed pointers and variadic types [l]. *)
Definition call_letters (n : Z) (l : list ascii) : list ascii := replicate (Z.to_nat n) "*"%char ++ l.

Lemma call_letters_ok n l : letters l → 0 ≤ n → n + Z.of_nat (length l) ≤ 63 →
  letters (call_letters n l) ∧ (length (call_letters n l) ≤ 63)%nat.
Proof.
  intros Hl Hn Hb. unfold call_letters. split; [apply Forall_app; split; [apply stars_letters|done]|].
  rewrite length_app, length_replicate. lia.
Qed.

Lemma fmt_types_letters l : letters (fmt_types l).
Proof. apply flat_map_letters. intros p. apply conv_types_letters. Qed.

Lemma sfmt_types_letters l : letters (sfmt_types l).
Proof. apply flat_map_letters. intros p. apply sconv_types_letters. Qed.

(** A guest call to a function of the [printf] family, with any
    unnumbered format: the host function is called once, every argument
    (fixed, width, precision or converted) has at its entry the bytes the
    guest passed, and its result is in X0 afterwards. *)
Lemma my_printf_family_ok l last idxOfFmt g p sp :
  fmt_ok l last → 0 ≤ idxOfFmt → idxOfFmt + 1 + Z.of_nat (length (fmt_types l)) ≤ 63 →
  let types := call_letters (idxOfFmt + 1) (fmt_types l) in
  guest_ok g → xreg (g_env g) idxOfFmt = Ret p → cstr_at fuel (g_mem g) p = Ret (print_fmt l last) →
  xreg (g_env g) REG_SP_NUM = Ret sp → stack_mapped (g_mem g) sp (bytes (letters_info "*" types (idxOfFmt + 1)).1) →
  ∃ en, carried (idxOfFmt + 1) (letter_cty "*") (map letter_cty types) (g_env g) (g_mem g) sp en ∧
    my_printf_family x64_function alloca behind uninit fuel idxOfFmt g = hosted x64_function (g_pc g) en g.
Proof.
  intros Hok Hidx Hlen types Hg Hp Hs Hsp Hmap.
  destruct (call_letters_ok (idxOfFmt + 1) _ (fmt_types_letters l) ltac:(lia) ltac:(lia)) as [Hl Hn].
  destruct (letters_bridge x64_function alloca behind alloca_length behind_length host_returns "*" types (idxOfFmt + 1) g sp)
    as (en & Hc & Hb); [set_solver|done..|]. exists en. split; [done|]. rewrite <- Hb. unfold my_printf_family.
  rewrite Hp. cbn [mbind outcome_bind]. rewrite Hs. cbn [mbind outcome_bind]. rewrite (wrap_small 32) by (unfold in_u; lia).
  rewrite parse_fmtstr_ok; [done|done|lia|lia|].
  pose proof (print_fmt_length l last). pose proof (cstr_at_length _ _ _ _ Hs). lia.
Qed.

(** A guest call to a [va_list] variant: the variadic variant is called
    instead, with the arguments the [va_list] points to. *)
Lemma my_vprintf_family_ok l last idxOfValist g p ap pc :
  fmt_ok l last → 1 ≤ idxOfValist ≤ 7 → idxOfValist + Z.of_nat (length (fmt_types l)) ≤ 63 →
  let types := call_letters idxOfValist (fmt_types l) in
  guest_ok g → xreg (g_env g) (idxOfValist - 1) = Ret p → cstr_at fuel (g_mem g) p = Ret (print_fmt l last) →
  xreg (g_env g) idxOfValist = Ret ap → stack_mapped (g_mem g) ap (bytes (letters_info "*" types idxOfValist).1) →
  redirect addr_of vprintf_table (g_pc g) = Ret pc →
  ∃ en, carried idxOfValist (letter_cty "*") (map letter_cty types) (g_env g) (g_mem g) ap en ∧
    my_vprintf_family x64_function alloca behind uninit addr_of fuel idxOfValist g = hosted x64_function pc en g.
Proof.
  intros Hok Hidx Hlen types Hg Hp Hs Hap Hmap Hpc.
  destruct (call_letters_ok idxOfValist _ (fmt_types_letters l) ltac:(lia) ltac:(lia)) as [Hl Hn].
  destruct (letters_bridge_valist x64_function alloca behind alloca_length behind_length host_returns "*" types idxOfValist g ap
    ltac:(set_solver) Hl Hn Hg Hmap addr_of vprintf_table idxOfValist pc ltac:(lia) Hap Hpc) as (en & Hc & Hb).
  exists en. split; [done|]. rewrite <- Hb. unfold my_vprintf_family.
  rewrite (proj2 (Z.leb_le idxOfValist 7)) by lia. cbn [c_assert mbind outcome_bind].
  rewrite (wrap_small 32) by (unfold in_u; lia). rewrite Hp. cbn [mbind outcome_bind]. rewrite Hs. cbn [mbind outcome_bind].
  rewrite parse_fmtstr_ok; [done|done|lia|lia|].
  pose proof (print_fmt_length l last). pose proof (cstr_at_length _ _ _ _ Hs). lia.
Qed.

(** C32.  The [scanf] family, with the pointers on the stack or behind a
    [va_list]. *)
Theorem my_scanf_families_correct l last idxOfFmt g p :
  sfmt_ok l last → 0 ≤ idxOfFmt ≤ 6 → idxOfFmt + 1 + Z.of_nat (length (sfmt_types l)) ≤ 63 →
  let types := call_letters (idxOfFmt + 1) (sfmt_types l) in
  guest_ok g → xreg (g_env g) idxOfFmt = Ret p → cstr_at fuel (g_mem g) p = Ret (print_sfmt l last) →
  (∀ sp, xreg (g_env g) REG_SP_NUM = Ret sp →
     stack_mapped (g_mem g) sp (bytes (letters_info "i" types (idxOfFmt + 1)).1) →
     ∃ en, carried (idxOfFmt + 1) (letter_cty "i") (map letter_cty types) (g_env g) (g_mem g) sp en ∧
       my_scanf_family x64_function alloca behind uninit fuel idxOfFmt g = hosted x64_function (g_pc g) en g) ∧
  (∀ ap pc, xreg (g_env g) (idxOfFmt + 1) = Ret ap → redirect addr_of vscanf_table (g_pc g) = Ret pc →
     stack_mapped (g_mem g) ap (bytes (letters_info "i" types (idxOfFmt + 1)).1) →
     ∃ en, carried (idxOfFmt + 1) (letter_cty "i") (map letter_cty types) (g_env g) (g_mem g) ap en ∧
       my_vscanf_family x64_function alloca behind uninit addr_of fuel (idxOfFmt + 1) g = hosted x64_function pc en g).
Proof.
  intros Hok Hidx Hlen types Hg Hp Hs.
  destruct (call_letters_ok (idxOfFmt + 1) _ (sfmt_types_letters l) ltac:(lia) ltac:(lia)) as [Hl Hn].
  assert (or_abort (parse_scanf_fmtstr fuel (print_sfmt l last) idxOfFmt (Some uninit) (Some uninit)) =
    Ret ((letters_info "i" types (idxOfFmt + 1)).1, (letters_info "i" types (idxOfFmt + 1)).2)) as Hparse.
  { rewrite parse_scanf_fmtstr_ok; [done|done|lia|lia|].
    pose proof (print_sfmt_length l last). pose proof (cstr_at_length _ _ _ _ Hs). lia. }
  split.
  - intros sp Hsp Hmap.
    destruct (letters_bridge x64_function alloca behind alloca_length behind_length host_returns "i" types (idxOfFmt + 1) g sp)
      as (en & Hc & Hb); [set_solver|done..|]. exists en. split; [done|]. rewrite <- Hb. unfold my_scanf_family.
    rewrite Hp. cbn [mbind outcome_bind]. rewrite Hs. cbn [mbind outcome_bind]. by rewrite Hparse.
  - intros ap pc Hap Hpc Hmap.
    destruct (letters_bridge_valist x64_function alloca behind alloca_length behind_length host_returns "i" types (idxOfFmt + 1) g ap
      ltac:(set_solver) Hl Hn Hg Hmap addr_of vscanf_table (idxOfFmt + 1) pc ltac:(lia) Hap Hpc) as (en & Hc & Hb).
    exists en. split; [done|]. rewrite <- Hb. unfold my_vscanf_family.
    rewrite (proj2 (Z.leb_le (idxOfFmt + 1) 7)) by lia. cbn [c_assert mbind outcome_bind].
    rewrite (wrap_small 32) by (unfold in_u; lia). replace (idxOfFmt + 1 - 1) with idxOfFmt by lia.
    rewrite Hp. cbn [mbind outcome_bind]. rewrite Hs. cbn [mbind outcome_bind]. by rewrite Hparse.
Qed.

(** The description of a call with a nil-terminated list. *)
Lemma nil_terminated_ok nfixed sp g ws : nil_list (g_mem g) sp ws → (length ws < fuel)%nat → 1 ≤ nfixed →
  nfixed + Z.of_nat (length ws) + 1 ≤ 63 →
  nil_terminated uninit fuel nfixed sp g =
    Ret (letters_info "*" (call_letters nfixed (replicate (S (length ws)) "*"%char)) nfixed).
Proof.
  intros Hws Hf Hn Hb. unfold nil_terminated. rewrite (count_nil_ok _ _ _ ws) by (done || lia). cbn [mbind outcome_bind].
  rewrite (wrap_small 32) by (unfold in_u; lia). unfold stars. rewrite (wrap_small 32) by (unfold in_u; lia).
  rewrite (proj2 (Z.eqb_neq _ 0)) by lia. cbn [mbind outcome_bind].
  replace (replicate (Z.to_nat (1 + nfixed + (1 + Z.of_nat (length ws)))) "*"%char ++ [NUL])
    with (gstr ("*"%char :: call_letters nfixed (replicate (S (length ws)) "*"%char))).
  - destruct (call_letters_ok nfixed _ (stars_letters (S (length ws))) ltac:(lia)) as [Hl Hlen]; [rewrite length_replicate; lia|].
    rewrite letters_parse; [done|set_solver|done|done|]. unfold call_letters. rewrite length_app, !length_replicate. lia.
  - unfold gstr, call_letters. rewrite <- replicate_add. f_equal. change ("*"%char :: replicate ?n _) with (replicate (S n) "*"%char).
    f_equal. lia.
Qed.

(** C33.  A call with a list that ends in nil: the list is passed on whole, with
    its nil, in C and in Objective-C calls. *)
Theorem my_nil_terminated_correct nfixed g sp ws :
  1 ≤ nfixed → nfixed + Z.of_nat (length ws) + 1 ≤ 63 → (length ws < fuel)%nat →
  guest_ok g → xreg (g_env g) REG_SP_NUM = Ret sp → nil_list (g_mem g) sp ws →
  let types := call_letters nfixed (replicate (S (length ws)) "*"%char) in
  stack_mapped (g_mem g) sp (bytes (letters_info "*" types nfixed).1) →
  ∃ en, carried nfixed (letter_cty "*") (map letter_cty types) (g_env g) (g_mem g) sp en ∧
    my_c_nil_terminated_vari x64_function alloca behind uninit fuel nfixed g = hosted x64_function (g_pc g) en g ∧
    (2 ≤ nfixed → my_objc_nil_terminated_vari x64_function alloca behind uninit fuel (nfixed - 2) g =
      hosted x64_function (g_pc g) en g).
Proof.
  intros Hn Hb Hf Hg Hsp Hws types Hmap.
  destruct (call_letters_ok nfixed _ (stars_letters (S (length ws))) ltac:(lia)) as [Hl Hlen]; [rewrite length_replicate; lia|].
  destruct (letters_bridge x64_function alloca behind alloca_length behind_length host_returns "*" types nfixed g sp)
    as (en & Hc & Hbr); [set_solver|done..|]. exists en. rewrite <- Hbr.
  assert (my_c_nil_terminated_vari x64_function alloca behind uninit fuel nfixed g =
    bridge x64_function alloca behind (letters_info "*" types nfixed).1 (letters_info "*" types nfixed).2 g) as Hrun.
  { unfold my_c_nil_terminated_vari. rewrite Hsp. cbn [mbind outcome_bind]. by rewrite (nil_terminated_ok nfixed sp g ws). }
  split_and!; [done|done|]. intros H2. rewrite <- Hrun. unfold my_objc_nil_terminated_vari.
  rewrite (wrap_small 32) by (unfold in_u; lia). by replace (nfixed - 2 + 2) with nfixed by lia.
Qed.

(** [CGColorConversionInfoCreateFromListWithArguments] can not be called:
    the handler compares the program counter with the address of its own
    [CGColorConversionInfoCreateFromListWithArguments_ptr] and aborts. *)
Theorem my_c_nil_terminated_valist_aborts idxOfValist g ap ws :
  1 ≤ idxOfValist ≤ 7 → idxOfValist + Z.of_nat (length ws) + 1 ≤ 63 → (length ws < fuel)%nat →
  guest_ok g → xreg (g_env g) idxOfValist = Ret ap → nil_list (g_mem g) ap ws →
  let types := call_letters idxOfValist (replicate (S (length ws)) "*"%char) in
  stack_mapped (g_mem g) ap (bytes (letters_info "*" types idxOfValist).1) →
  g_pc g = addr_of "CGColorConversionInfoCreateFromListWithArguments"%string →
  addr_of "CGColorConversionInfoCreateFromListWithArguments"%string ≠
    addr_of "CGColorConversionInfoCreateFromListWithArguments_ptr"%string →
  my_c_nil_terminated_valist x64_function alloca behind uninit addr_of fuel idxOfValist g = Stop Aborted.
Proof.
  intros Hn Hb Hf Hg Hap Hws types Hmap Hpc Hne.
  destruct (call_letters_ok idxOfValist _ (stars_letters (S (length ws))) ltac:(lia)) as [Hl Hlen]; [rewrite length_replicate; lia|].
  destruct (letters_call x64_function alloca behind alloca_length behind_length host_returns "*" types idxOfValist g ap
    ltac:(set_solver) Hl Hlen Hg Hmap) as (args & _ & Hrun & _).
  unfold my_c_nil_terminated_valist. rewrite Hap. cbn [mbind outcome_bind]. rewrite (nil_terminated_ok idxOfValist ap g ws) by (done || lia).
  cbn [mbind outcome_bind letters_info]. unfold bridge_valist, enter_valist, abi_valist_a2x_prepare_args.
  rewrite (proj2 (Z.leb_le idxOfValist 7)) by lia. cbn [c_assert mbind outcome_bind]. rewrite Hap. cbn [mbind outcome_bind].
  cbn [letters_info fst snd] in Hrun. unfold types in Hrun. rewrite Hrun. cbn [mbind outcome_bind]. unfold c_valist_table.
  cbn [redirect]. rewrite Hpc. by rewrite (proj2 (Z.eqb_neq _ _)) by congruence.
Qed.
End properties.

(** ** Calls that go wrong *)

(** A host function that returns the first eight bytes of its stack
    arguments. *)
Definition example_host (pc : Z) (en : x64_entry) (env : CPUARMState) (mem : memory) :
    outcome (x64_return * CPUARMState * memory) :=
  Ret (mk_return (take 8 (en_stack en ++ replicate 8 0)) (replicate 8 0) (replicate 16 0) (replicate 16 0), env, mem).
Definition example_alloca (n : Z) : list Z := replicate (Z.to_nat n) 170.

(** A guest with SP 4096, X0 8192 and X1 4096; a string at 8192. *)
Definition example_guest (s : cstr) : guest :=
  mk_guest (mk_env (le_bytes 8 8192 ++ le_bytes 8 4096 ++ drop 16 (xregs example_env)) (zregs example_env)) 5000
    (λ a, match s !! Z.to_nat (a - 8192) with
          | Some c => if 8192 <=? a then Some (code c) else Some (a mod 256)
          | None => Some (a mod 256)
          end).

(** [printf] with a [long] that x86-64 passes on the stack: the callee sees
    the low four bytes of the guest's value, followed by four bytes of
    uninitialized memory. *)
Theorem printf_long_truncated :
  let g := example_guest (c_string "%d%d%d%d%d%ld") in
  rd_mem (g_mem g) (4096 + 5 * 8) 8 = Ret [40; 41; 42; 43; 44; 45; 46; 47] ∧
  ∃ g', my_printf_family example_host example_alloca (replicate 8 0) (zero_fn_info 0) 32 0 g = Ret g' ∧
    rd_a64 (g_env g') TE_X0 8 = Ret [40; 41; 42; 43; 170; 170; 170; 170].
Proof.
  intros g. split; [reflexivity|].
  assert ((g' ← my_printf_family example_host example_alloca (replicate 8 0) (zero_fn_info 0) 32 0 g; rd_a64 (g_env g') TE_X0 8) = Ret [40; 41; 42; 43; 170; 170; 170; 170]) as H
    by (vm_compute; reflexivity).
  destruct (my_printf_family _ _ _ _ _ _ g) as [g'|]; [by exists g'|discriminate H].
Qed.

Lemma short_codes_abort l aa xx : letters l → (1 ≤ length l ≤ 3)%nat →
  parse_type_codes (l ++ [NUL]) 3 (Some aa) (Some xx) = Stop Aborted.
Proof.
  assert (∀ c, c ∈ ["i"; "I"; "d"; "*"; "c"]%char → c = "i"%char ∨ c = "I"%char ∨ c = "d"%char ∨ c = "*"%char ∨ c = "c"%char) as Hin
    by (intros c; rewrite !elem_of_cons, elem_of_nil; naive_solver).
  intros Hl Hlen. destruct l as [|c1 l]; [simpl in Hlen; lia|]. apply Forall_cons in Hl as [H1 Hl].
  destruct l as [|c2 l]; [apply Hin in H1; destruct_or! H1; subst; reflexivity|]. apply Forall_cons in Hl as [H2 Hl].
  destruct l as [|c3 l]; [apply Hin in H1, H2; destruct_or! H1; destruct_or! H2; subst; reflexivity|].
  apply Forall_cons in Hl as [H3 Hl]. destruct l as [|c4 l]; [|simpl in Hlen; lia].
  apply Hin in H1, H2, H3. destruct_or! H1; destruct_or! H2; destruct_or! H3; subst; reflexivity.
Qed.

(** [decodeValuesOfObjCTypes:] and [encodeValuesOfObjCTypes:] with up to
    three values abort: the type codes are parsed as a whole signature, which
    has fewer arguments than the three fixed ones. *)
Theorem my_objc_types_vari_aborts host alloca behind uninit fuel g p l :
  letters l → (1 ≤ length l ≤ 3)%nat → xreg (g_env g) 2 = Ret p → cstr_at fuel (g_mem g) p = Ret (l ++ [NUL]) →
  my_objc_types_vari host alloca behind uninit fuel 0 1 g = Stop Aborted.
Proof.
  intros Hl Hlen Hp Hs. unfold my_objc_types_vari. change (u32 (0 + 2)) with 2. change (u32 (1 + 2)) with 3.
  cbn [Z.leb Z.compare Pos.compare Pos.compare_cont c_assert mbind outcome_bind]. rewrite Hp. cbn [mbind outcome_bind].
  rewrite Hs. cbn [mbind outcome_bind]. by rewrite short_codes_abort.
Qed.

(** ** Witnesses *)

Lemma example_host_returns pc en env mem r env' mem' :
  example_host pc en env mem = Ret (r, env', mem') → return_ok r.
Proof.
  intros [= <- _ _]. split_and!; [|done..]. cbn [re_rax]. rewrite length_take, length_app. cbn [length]. lia.
Qed.

Lemma example_alloca_length n : 0 ≤ n → Z.of_nat (length (example_alloca n)) = n.
Proof. intros. unfold example_alloca. rewrite length_replicate. lia. Qed.

Lemma example_guest_ok s : guest_ok (example_guest s).
Proof.
  split.
  - split_and!; [done|done|..|apply example_env_ok]. repeat (apply Forall_app; split); [apply le_bytes_ok..|apply Forall_drop, example_env_ok].
  - intros a b. unfold example_guest. cbn [g_mem]. pose proof (Z.mod_pos_bound a 256 ltac:(lia)).
    destruct (s !! _) as [c|]; [|intros [= <-]; lia]. destruct (8192 <=? a); intros [= <-]; [|lia].
    unfold code. pose proof (N_ascii_bounded c). lia.
Qed.

Lemma example_guest_mapped s sp n : stack_mapped (g_mem (example_guest s)) sp n.
Proof. intros i _. cbn [example_guest g_mem]. repeat case_match; by eexists. Qed.

(** The address 5000 is the one of [vprintf]; [printf] is at 6000. *)
Definition example_addr (name : string) : Z :=
  if String.eqb name "vprintf" then 5000 else if String.eqb name "vscanf" then 5000
  else if String.eqb name "CGColorConversionInfoCreateFromListWithArguments" then 5000 else 6000.

Lemma my_scanf_families_correct_witness :
  ∃ en, carried 1 (letter_cty "i") (map letter_cty (chars "***")) (g_env (example_guest (c_string "%d,%*3c%[a-z]")))
      (g_mem (example_guest (c_string "%d,%*3c%[a-z]"))) 4096 en ∧
    my_vscanf_family example_host example_alloca (replicate 8 0) (zero_fn_info 0) example_addr 32 1
      (example_guest (c_string "%d,%*3c%[a-z]")) = hosted example_host 6000 en (example_guest (c_string "%d,%*3c%[a-z]")).
Proof.
  apply (my_scanf_families_correct example_host example_alloca (replicate 8 0) (zero_fn_info 0) example_addr 32 example_alloca_length
    ltac:(done) example_host_returns example_sfmt [] 0 (example_guest (c_string "%d,%*3c%[a-z]")) 8192).
  - split; [by repeat constructor|done].
  - lia.
  - by vm_compute.
  - apply example_guest_ok.
  - reflexivity.
  - reflexivity.
  - reflexivity.
  - reflexivity.
  - apply example_guest_mapped.
Defined.

(** Two pointers and a nil at 4096. *)
Definition list_guest : guest :=
  mk_guest (g_env (example_guest [])) 5000
    (λ a, if (4112 <=? a) && (a <? 4120) then Some 0 else Some (a mod 256)).

Lemma list_guest_ok : guest_ok list_guest.
Proof.
  split; [apply (example_guest_ok [])|]. intros a b. cbn [list_guest g_mem]. pose proof (Z.mod_pos_bound a 256 ltac:(lia)).
  destruct (_ && _); intros [= <-]; lia.
Qed.

Lemma list_guest_list : nil_list (g_mem list_guest) 4096 [506097522914230528; 1084818905618843912].
Proof.
  split_and!; [by repeat constructor| |reflexivity]. intros i w Hi. destruct i as [|[|i]]; [..|done]; by injection Hi as <-.
Qed.

Lemma list_guest_mapped sp n : stack_mapped (g_mem list_guest) sp n.
Proof. intros i _. cbn [list_guest g_mem]. case_match; by eexists. Qed.

Lemma my_nil_terminated_correct_witness :
  ∃ en, carried 1 (letter_cty "*") (map letter_cty (chars "****")) (g_env list_guest) (g_mem list_guest) 4096 en ∧
    my_c_nil_terminated_vari example_host example_alloca (replicate 8 0) (zero_fn_info 0) 8 1 list_guest =
      hosted example_host 5000 en list_guest.
Proof.
  destruct (my_nil_terminated_correct example_host example_alloca (replicate 8 0) (zero_fn_info 0) 8 example_alloca_length
    ltac:(done) example_host_returns 1 list_guest 4096 [506097522914230528; 1084818905618843912]) as (en & Hc & Hr & _).
  - lia.
  - by vm_compute.
  - simpl. lia.
  - exact list_guest_ok.
  - reflexivity.
  - exact list_guest_list.
  - apply list_guest_mapped.
  - exists en. split; [exact Hc|exact Hr].
Defined.

Lemma my_c_nil_terminated_valist_aborts_witness :
  my_c_nil_terminated_valist example_host example_alloca (replicate 8 0) (zero_fn_info 0) example_addr 8 1 list_guest = Stop Aborted.
Proof.
  apply (my_c_nil_terminated_valist_aborts example_host example_alloca (replicate 8 0) (zero_fn_info 0) example_addr 8 example_alloca_length
    ltac:(done) example_host_returns 1 list_guest 4096 [506097522914230528; 1084818905618843912]).
  - lia.
  - by vm_compute.
  - simpl. lia.
  - exact list_guest_ok.
  - reflexivity.
  - exact list_guest_list.
  - apply list_guest_mapped.
  - reflexivity.
  - vm_compute. discriminate.
Defined.

Lemma my_objc_types_vari_aborts_witness :
  ∃ p g, xreg (g_env g) 2 = Ret p ∧
    my_objc_types_vari example_host example_alloca (replicate 8 0) (zero_fn_info 0) 8 0 1 g = Stop Aborted.
Proof.
  set (mem := λ a : Z, if a =? 1663540288323457296 then Some 105 else if a =? 1663540288323457297 then Some 100 else Some 0).
  exists 1663540288323457296, (mk_guest example_env 0 mem). split; [reflexivity|].
  apply (my_objc_types_vari_aborts example_host example_alloca (replicate 8 0) (zero_fn_info 0) 8 _ 1663540288323457296 (chars "id")).
  - repeat constructor; set_solver.
  - simpl. lia.
  - reflexivity.
  - reflexivity.
Defined.
