(* ===== verification/Registry.v ===== *)
(** * Registered host functions

    [register_important_funcs] of [translate-all.c] gives each host function
    that needs special care a stub; the stubs of the variadic ones save the
    link register, run a handler of [AArch64tox64.inc.c] and return to the
    caller.  The table is checked for consistency with the handlers: every
    [va_list] function is redirected to a function registered with the same
    fixed arguments. *)

From stdpp Require Import gmap.
From S2P Require Import CString Prelude Bytes ABIArgInfo FfiTypes Layout Placement AAPrepCif HFA AAAlloc XXPrepCif XXClass XXAlloc CrossABI DyBridge DyEntry DyStep DyCorrect TypesParser TypesSpec FmtStr FmtSpec Handlers HandlerSpec.

(** ** Stubs *)

(** What the [tcg_..._family] functions generate; [Direct] and [Spec] are stubs
    of C functions that are not part of this model. *)
Inductive stub : Set :=
| Printf (idxOfFmt : Z)
| Scanf (idxOfFmt : Z)
| NSLog
| NSLogv
| CFString (idxOfFmt : Z)
| VPrintf (idxOfValist : Z)
| VScanf (idxOfValist : Z)
| VCFString (idxOfValist : Z)
| CNil (nfixed : Z)
| CNilValist (idxOfValist : Z)
| ObjcNil (nfixed : Z)
| ObjcTypes (idxOfTy nfixed : Z)
| ObjcFmt (idxOfFmt nfixed : Z)
| ObjcFmtValist (idxOfFmt idxOfValist : Z)
| Fcntl
| Ioctl
| Open
| SemOpen
| Direct (fn : string)
| Spec (fn : string).

#[export] Instance stub_eq_dec : EqDecision stub.
Proof. solve_decision. Defined.

Definition REG_LR_NUM : Z := 30.

(** [save_lr_to_stack], the call, [update_pc_from_lr]. *)
Definition keep_lr (handler : guest → outcome guest) (g : guest) : outcome guest :=
  lr ← xreg (g_env g) REG_LR_NUM;
  g ← handler g;
  env ← set_xreg (g_env g) REG_LR_NUM lr;
  Ret (mk_guest env lr (g_mem g)).

(** ** The table *)

Definition with_stub (s : stub) (names : list string) : list (string * stub) := (λ n, (n, s)) <$> names.

Definition important_funcs : list (string * stub) :=
  with_stub (Spec "my_objc_msgSend") ["objc_msgSend"] ++
  with_stub (Spec "my_objc_msgSendSuper") ["objc_msgSendSuper"] ++
  with_stub (Spec "my_objc_msgSendSuper2") ["objc_msgSendSuper2"] ++
  with_stub (Spec "my_objc_msgForward") ["objc_msgForward"] ++
  with_stub (Spec "code_gen_x64_lazy_binder_tb") ["stub_binding_helper"; "dyld_stub_binder"] ++
  with_stub (Spec "my_method_setImplementation") ["method_setImplementation"] ++
  with_stub (Direct "my_MTLCreateSystemDefaultDevice") ["MTLCreateSystemDefaultDevice"] ++
  with_stub (Printf 0) ["malloc_printf"; "printf"] ++
  with_stub (Printf 1) ["asprintf"; "dprintf"; "fprintf"; "sprintf"; "printf_l"] ++
  with_stub (Printf 2) ["snprintf"; "asprintf_l"; "fprintf_l"; "sprintf_l"] ++
  with_stub (Printf 3) ["asl_log"; "_os_log_internal"; "__sprintf_chk"; "snprintf_l"] ++
  with_stub (Printf 4) ["__snprintf_chk"] ++
  with_stub (VPrintf 1) ["vprintf"] ++
  with_stub (VPrintf 2) ["vasprintf"; "vdprintf"; "vfprintf"; "vsprintf"; "vprintf_l"] ++
  with_stub (VPrintf 3) ["vsnprintf"; "vasprintf_l"; "vfprintf_l"; "vsprintf_l"] ++
  with_stub (VPrintf 4) ["vsnprintf_l"; "__vsprintf_chk"] ++
  with_stub (VPrintf 5) ["__vsnprintf_chk"] ++
  with_stub (Scanf 0) ["scanf"] ++
  with_stub (Scanf 1) ["fscanf"; "sscanf"] ++
  with_stub (VScanf 1) ["vscanf"] ++
  with_stub (VScanf 2) ["__svfscanf"; "vfscanf"; "vsscanf"] ++
  with_stub (NSLog) ["NSLog"] ++
  with_stub (NSLogv) ["NSLogv"] ++
  with_stub (CFString 2) ["CFStringCreateWithFormat"; "CFStringAppendFormat"] ++
  with_stub (VCFString 3) ["CFStringCreateWithFormatAndArguments"; "CFStringAppendFormatAndArguments"] ++
  with_stub (CNil 2) ["execl"; "execlp"] ++
  with_stub (CNil 4) ["CGColorConversionInfoCreateFromList"] ++
  with_stub (CNilValist 4) ["CGColorConversionInfoCreateFromListWithArguments"] ++
  with_stub (Direct "my_AudioUnitSetProperty") ["AudioUnitSetProperty"] ++
  with_stub (Direct "my__Block_object_assign") ["_Block_object_assign"] ++
  with_stub (Direct "my_class_replaceMethod") ["class_replaceMethod"] ++
  with_stub (Fcntl) ["fcntl"] ++
  with_stub (Ioctl) ["ioctl"] ++
  with_stub (Open) ["open"] ++
  with_stub (SemOpen) ["sem_open"] ++
  with_stub (Spec "call_arm_sigsetjmp") ["sigsetjmp"] ++
  with_stub (Spec "call_arm_setjmp") ["setjmp"] ++
  with_stub (Spec "call__arm_setjmp") ["_setjmp"] ++
  with_stub (Spec "call_arm_siglongjmp") ["siglongjmp"] ++
  with_stub (Spec "call_arm_longjmp") ["longjmp"] ++
  with_stub (Spec "call__arm_longjmp") ["_longjmp"] ++
  with_stub (Spec "call_dlopen") ["dlopen"] ++
  with_stub (Spec "call_dlsym") ["dlsym"] ++
  with_stub (Spec "call_sigaction") ["sigaction"] ++
  with_stub (Spec "call_signal") ["signal"] ++
  with_stub (Spec "call_sigaltstack") ["sigaltstack"] ++
  with_stub (Spec "call_siginterrupt") ["siginterrupt"] ++
  with_stub (ObjcNil 1) ["CIFilter_apply"; "MPSStateResourceList_resourceListWithBufferSizes";
    "MPSStateResourceList_resourceListWithTextureDescriptors"; "NSArray_arrayWithObjects";
    "NSArray_initWithObjects"; "NSDictionary_dictionaryWithObjectsAndKeys"; "NSDictionary_initWithObjectsAndKeys";
    "__NSDictionaryI_dictionaryWithObjectsAndKeys"; "__NSDictionaryI_initWithObjectsAndKeys";
    "NSOrderedSet_initWithObjects"; "NSOrderedSet_orderedSetWithObjects"; "NSSet_initWithObjects";
    "NSSet_setWithObjects"; "UIAppearance_appearanceWhenContainedIn"] ++
  with_stub (ObjcNil 2) ["CIFilter_filterWithName_keysAndValues"; "CISampler_initWithImage_keysAndValues";
    "CISampler_samplerWithImage_keysAndValues"; "MPSNDArrayDescriptor_descriptorWithDataType_dimensionSizes";
    "UIAppearance_appearanceForTraitCollection_whenContainedIn"] ++
  with_stub (ObjcNil 5) [
    "UIActionSheet_initWithTitle_delegate_cancelButtonTitle_destructiveButtonTitle_otherButtonTitles";
    "UIAlertView_initWithTitle_message_delegate_cancelButtonTitle_otherButtonTitles"] ++
  with_stub (ObjcFmt 0 1) ["NSExpression_expressionWithFormat"; "NSMutableString_appendFormat";
    "NSPredicate_predicateWithFormat"; "NSString_deferredLocalizedIntentsStringWithFormat";
    "NSString_initWithFormat"; "NSString_localizedStringWithFormat"; "NSString_stringByAppendingFormat";
    "NSString_stringWithFormat"; "__NSCFString_appendFormat"] ++
  with_stub (ObjcFmt 0 2) ["NSString_deferredLocalizedIntentsStringWithFormat_fromTable";
    "NSString_initWithFormat_locale"] ++
  with_stub (ObjcFmt 1 2) ["NSException_raise_format"] ++
  with_stub (ObjcFmt 3 4) ["NSAssertionHandler_handleFailureInFunction_file_lineNumber_description"] ++
  with_stub (ObjcFmt 4 5) ["NSAssertionHandler_handleFailureInMethod_object_file_lineNumber_description"] ++
  with_stub (ObjcFmtValist 0 1) ["NSExpression_expressionWithFormat_arguments";
    "NSPredicate_predicateWithFormat_arguments"; "NSString_initWithFormat_arguments"] ++
  with_stub (ObjcFmtValist 0 2) ["NSString_initWithFormat_locale_arguments";
    "NSString_deferredLocalizedIntentsStringWithFormat_fromTable_arguments"] ++
  with_stub (ObjcFmtValist 1 2) ["NSException_raise_format_arguments"] ++
  with_stub (ObjcTypes 0 1) ["NSCoder_decodeValuesOfObjCTypes"; "NSCoder_encodeValuesOfObjCTypes"].

(** [tb_link_page] keeps a block that is already there. *)
Definition register_pc_with_handler (tbs : gmap Z stub) (pc : Z) (handler : stub) : gmap Z stub :=
  match tbs !! pc with Some _ => tbs | None => <[pc := handler]> tbs end.

Definition register_important_funcs (addr_of : string → Z) (tbs : gmap Z stub) : gmap Z stub :=
  foldl (λ tbs p, register_pc_with_handler tbs (addr_of p.1) p.2) tbs important_funcs.

(** ** Running a stub *)

Section run.
Context (x64_function : Z → x64_entry → CPUARMState → memory → outcome (x64_return * CPUARMState * memory)).
Context (alloca : Z → list Z) (behind : list Z) (uninit : ABIFnInfo) (addr_of : string → Z).
Context (UTF8String CFStringGetCString : Z → memory → option cstr) (fuel : nat).

Definition handler_of (s : stub) : option (guest → outcome guest) :=
  match s with
  | Printf i => Some (my_printf_family x64_function alloca behind uninit fuel i)
  | Scanf i => Some (my_scanf_family x64_function alloca behind uninit fuel i)
  | NSLog => Some (my_nslog x64_function alloca behind uninit UTF8String fuel)
  | NSLogv => Some (my_nslogv x64_function alloca behind uninit addr_of UTF8String fuel)
  | CFString i => Some (my_cfstring_family x64_function alloca behind uninit CFStringGetCString fuel i)
  | VPrintf i => Some (my_vprintf_family x64_function alloca behind uninit addr_of fuel i)
  | VScanf i => Some (my_vscanf_family x64_function alloca behind uninit addr_of fuel i)
  | VCFString i => Some (my_vcfstring_family x64_function alloca behind uninit addr_of CFStringGetCString fuel i)
  | CNil n => Some (my_c_nil_terminated_vari x64_function alloca behind uninit fuel n)
  | CNilValist i => Some (my_c_nil_terminated_valist x64_function alloca behind uninit addr_of fuel i)
  | ObjcNil n => Some (my_objc_nil_terminated_vari x64_function alloca behind uninit fuel n)
  | ObjcTypes i n => Some (my_objc_types_vari x64_function alloca behind uninit fuel i n)
  | ObjcFmt i n => Some (my_objc_fmt_str_vari x64_function alloca behind uninit UTF8String fuel i n)
  | ObjcFmtValist i v => Some (my_objc_fmt_str_valist x64_function alloca behind uninit addr_of UTF8String fuel i v)
  | Fcntl => Some (my_fcntl x64_function alloca behind uninit)
  | Ioctl => Some (my_ioctl x64_function alloca behind uninit)
  | Open => Some (my_open x64_function alloca behind uninit)
  | SemOpen => Some (my_sem_open x64_function alloca behind uninit)
  | Direct _ | Spec _ => None
  end.

(** The emulator reaches a program counter: the stub registered there runs. *)
Definition enter_pc (tbs : gmap Z stub) (g : guest) : option (outcome guest) :=
  s ← tbs !! g_pc g;
  handler ← handler_of s;
  Some (keep_lr handler g).
End run.

(** ** The registered blocks *)

Lemma register_other l (addr_of : string → Z) tbs pc : pc ∉ (λ p : string * stub, addr_of p.1) <$> l →
  foldl (λ tbs p, register_pc_with_handler tbs (addr_of p.1) p.2) tbs l !! pc = tbs !! pc.
Proof.
  revert tbs. induction l as [|[n s] l IH]; intros tbs Hpc; [done|]. rewrite fmap_cons, not_elem_of_cons in Hpc.
  destruct Hpc as [Hne Hpc]. cbn [foldl fst snd]. rewrite IH by done. unfold register_pc_with_handler.
  case_match; [done|]. by rewrite lookup_insert_ne by (by intros <-).
Qed.

Lemma register_lookup l (addr_of : string → Z) n s : NoDup ((λ p : string * stub, addr_of p.1) <$> l) → (n, s) ∈ l →
  foldl (λ tbs p, register_pc_with_handler tbs (addr_of p.1) p.2) ∅ l !! addr_of n = Some s.
Proof.
  assert (∀ l tbs, (∀ p, p ∈ l → tbs !! addr_of p.1 = None) → NoDup ((λ p : string * stub, addr_of p.1) <$> l) → (n, s) ∈ l →
    foldl (λ tbs p, register_pc_with_handler tbs (addr_of p.1) p.2) tbs l !! addr_of n = Some s) as Hgen.
  { clear l. intros l. induction l as [|[m t] l IH]; intros tbs Hfree Hnd Hin; [by apply elem_of_nil in Hin|].
    rewrite fmap_cons in Hnd. apply NoDup_cons in Hnd as [Hm Hnd]. cbn [foldl fst snd] in *.
    assert (tbs !! addr_of m = None) as Hnone by (apply (Hfree (m, t)); by left).
    assert (register_pc_with_handler tbs (addr_of m) t = <[addr_of m := t]> tbs) as -> by (unfold register_pc_with_handler; by rewrite Hnone).
    apply elem_of_cons in Hin as [[= -> ->]|Hin].
    - rewrite register_other by done. by rewrite lookup_insert_eq.
    - apply IH; [|done|done]. intros p Hp. rewrite lookup_insert_ne; [apply Hfree; by right|].
      intros Heq. apply Hm. rewrite Heq. apply list_elem_of_fmap. by exists p. }
  intros Hnd Hin. apply Hgen; [|done|done]. intros. apply lookup_empty.
Qed.

Section registered.
Context (addr_of : string → Z).

(** Different functions have different addresses. *)
Definition distinct_functions : Prop :=
  ∀ a b, a ∈ important_funcs.*1 → b ∈ important_funcs.*1 → addr_of a = addr_of b → a = b.

Hypothesis Haddr : distinct_functions.

Lemma important_names : NoDup important_funcs.*1.
Proof. apply (bool_decide_unpack _). by vm_compute. Qed.

Lemma registered name s : (name, s) ∈ important_funcs →
  register_important_funcs addr_of ∅ !! addr_of name = Some s.
Proof.
  intros Hin. apply register_lookup; [|done].
  replace ((λ p : string * stub, addr_of p.1) <$> important_funcs) with (addr_of <$> important_funcs.*1)
    by (by rewrite <- list_fmap_compose).
  apply NoDup_fmap_2_strong; [exact Haddr|exact important_names].
Qed.

(** ** [va_list] functions and their variadic variants *)

(** The table that redirects a [va_list] function and the stub its variant
    must have. *)
Definition variant (s : stub) : option (list (string * string) * stub) :=
  match s with
  | VPrintf i => Some (vprintf_table, Printf (i - 1))
  | VScanf i => Some (vscanf_table, Scanf (i - 1))
  | VCFString i => Some (vcfstring_table, CFString (i - 1))
  | ObjcFmtValist i v => Some (objc_valist_table, ObjcFmt i v)
  | _ => None
  end.

Fixpoint redirected (table : list (string * string)) (name : string) : option string :=
  match table with
  | [] => None
  | (v, w) :: table => if String.eqb v name then Some w else redirected table name
  end.

Definition entry_consistent (p : string * stub) : bool :=
  match variant p.2 with
  | None => true
  | Some (table, s') =>
      match redirected table p.1 with
      | Some w => bool_decide ((w, s') ∈ important_funcs) && forallb (λ q, bool_decide (q.1 ∈ important_funcs.*1)) table
      | None => false
      end
  end.

Lemma entries_consistent : forallb entry_consistent important_funcs = true.
Proof. by vm_compute. Qed.

Lemma redirect_redirected table name w : name ∈ important_funcs.*1 → Forall (λ q, q.1 ∈ important_funcs.*1) table →
  redirected table name = Some w → redirect addr_of table (addr_of name) = Ret (addr_of w).
Proof.
  intros Hname Htab. induction Htab as [|[v w'] table Hv Htab IH]; [done|]. cbn [redirected redirect]. cbn [fst] in Hv.
  destruct (String.eqb_spec v name) as [->|Hne]; [intros [= <-]; by rewrite Z.eqb_refl|].
  rewrite (proj2 (Z.eqb_neq _ _)); [exact IH|]. intros Heq. by apply Hne, Haddr.
Qed.

Lemma variant_registered name s table s' : (name, s) ∈ important_funcs → variant s = Some (table, s') →
  ∃ w, (w, s') ∈ important_funcs ∧ redirect addr_of table (addr_of name) = Ret (addr_of w).
Proof.
  intros Hin Hvar. pose proof entries_consistent as Hall. rewrite forallb_forall in Hall.
  specialize (Hall _ (proj1 (list_elem_of_In _ _) Hin)). unfold entry_consistent in Hall. cbn [fst snd] in Hall. rewrite Hvar in Hall.
  destruct (redirected table name) as [w|] eqn:Hr; [|done]. apply andb_prop in Hall as [Hw Htab].
  rewrite bool_decide_eq_true in Hw. exists w. split; [done|]. apply redirect_redirected; [|apply Forall_forall|done].
  - apply list_elem_of_fmap. by exists (name, s).
  - rewrite forallb_forall in Htab. intros q Hq. specialize (Htab q (proj1 (list_elem_of_In _ _) Hq)). by apply bool_decide_eq_true in Htab.
Qed.
End registered.

(** ** Properties *)

(** The host function runs, its RAX goes to X0, and the guest continues at the
    address the link register held. *)
Definition call_and_return (x64_function : Z → x64_entry → CPUARMState → memory → outcome (x64_return * CPUARMState * memory))
    (pc : Z) (en : x64_entry) (lr : Z) (g : guest) : outcome guest :=
  '(r, env, mem) ← x64_function pc en (g_env g) (g_mem g);
  env ← wr_a64 env TE_X0 (re_rax r);
  env ← set_xreg env REG_LR_NUM lr;
  Ret (mk_guest env lr mem).

Lemma keep_lr_hosted x64_function handler pc en lr g : handler g = hosted x64_function pc en g →
  xreg (g_env g) REG_LR_NUM = Ret lr → keep_lr handler g = call_and_return x64_function pc en lr g.
Proof.
  intros Hh Hlr. unfold keep_lr, call_and_return. rewrite Hlr, Hh. cbn [mbind outcome_bind]. unfold hosted.
  destruct (x64_function pc en (g_env g) (g_mem g)) as [[[r env] mem]|]; [|done]. cbn [mbind outcome_bind].
  by destruct (wr_a64 env TE_X0 (re_rax r)).
Qed.

(** The indices the printf stubs are generated with. *)
Definition index_ok (p : string * stub) : bool :=
  match p.2 with Printf i => 0 <=? i | VPrintf i => (1 <=? i) && (i <=? 7) | _ => true end.

Lemma indices_ok : forallb index_ok important_funcs = true.
Proof. by vm_compute. Qed.

Lemma index_in_range p : p ∈ important_funcs → index_ok p = true.
Proof. intros Hin. pose proof indices_ok as H. rewrite forallb_forall in H. by apply H, list_elem_of_In. Qed.

Section host.
Context (x64_function : Z → x64_entry → CPUARMState → memory → outcome (x64_return * CPUARMState * memory)).
Context (alloca : Z → list Z) (behind : list Z) (uninit : ABIFnInfo) (addr_of : string → Z).
Context (UTF8String CFStringGetCString : Z → memory → option cstr) (fuel : nat).
Hypothesis alloca_length : ∀ n, 0 ≤ n → Z.of_nat (length (alloca n)) = n.
Hypothesis behind_length : 8 ≤ Z.of_nat (length behind).
Hypothesis host_returns : ∀ pc en env mem r env' mem',
  x64_function pc en env mem = Ret (r, env', mem') → return_ok r.
Hypothesis Haddr : distinct_functions addr_of.

Local Abbreviation enter := (enter_pc x64_function alloca behind uninit addr_of UTF8String CFStringGetCString fuel
  (register_important_funcs addr_of ∅)).



(** Every registered [va_list] function of the printf, scanf,
    CoreFoundation and Objective-C format families is redirected by its
    handler, to a function registered with the variadic handler of the same
    family and the same fixed arguments. *)
Theorem valist_registrations_consistent name s table s' :
  (name, s) ∈ important_funcs → variant s = Some (table, s') →
  ∃ w, redirect addr_of table (addr_of name) = Ret (addr_of w) ∧
    register_important_funcs addr_of ∅ !! addr_of w = Some s'.
Proof.
  intros Hin Hvar. destruct (variant_registered addr_of Haddr name s table s' Hin Hvar) as (w & Hw & Hred).
  exists w. split; [done|]. by apply registered.
Qed.
End host.

(** ** Witnesses *)

(** The address of a function: its position in the table. *)
Fixpoint position (l : list string) (name : string) (n : Z) : Z :=
  match l with [] => n | x :: l => if String.eqb x name then n else position l name (n + 1) end.

Lemma position_bound l name n : n ≤ position l name n.
Proof. revert n. induction l as [|x l IH]; intros n; cbn; [lia|]. case_match; [lia|]. specialize (IH (n + 1)). lia. Qed.

Lemma position_inj l a b n : a ∈ l → b ∈ l → position l a n = position l b n → a = b.
Proof.
  revert n. induction l as [|x l IH]; intros n Ha Hb; [by apply elem_of_nil in Ha|]. cbn.
  pose proof (position_bound l a (n + 1)). pose proof (position_bound l b (n + 1)).
  destruct (String.eqb_spec x a) as [Hxa|Hxa], (String.eqb_spec x b) as [Hxb|Hxb]; intros Heq; [congruence|lia|lia|].
  apply elem_of_cons in Ha as [->|Ha]; [done|]. apply elem_of_cons in Hb as [->|Hb]; [done|]. by eapply IH.
Qed.

Definition example_address (name : string) : Z := position important_funcs.*1 name 65536.

Lemma example_distinct : distinct_functions example_address.
Proof. intros a b Ha Hb. by apply position_inj. Qed.

Definition at_pc (pc : Z) (s : cstr) : guest := mk_guest (g_env (example_guest s)) pc (g_mem (example_guest s)).

Lemma at_pc_ok pc s : guest_ok (at_pc pc s).
Proof. apply example_guest_ok. Qed.



Lemma valist_registrations_consistent_witness :
  ∃ w, redirect example_address vscanf_table (example_address "vsscanf") = Ret (example_address w) ∧
    register_important_funcs example_address ∅ !! example_address w = Some (Scanf 1).
Proof.
  apply (valist_registrations_consistent example_address example_distinct "vsscanf" (VScanf 2)); [|reflexivity].
  apply (bool_decide_unpack _). by vm_compute.
Defined.
