(* ===== verification/JsonParser.v ===== *)
(** * [jsonParser.c]: prototypes from the generated table

    [get_fn_info_from_name] reads the descriptions of a function under both
    conventions from an array of numbers in a MessagePack file.  MessagePack
    is a library the source calls; here a node is the list of the integer
    values of its children, and the root a function from names to nodes. *)

From S2P Require Import CString Prelude ABIArgInfo.

(** ** Reading an array *)

(** [arrayFwd] is the list of the children not read yet; reading behind the
    array is undefined. *)
Definition next_uint64_value (fwd : list Z) : outcome (Z * list Z) :=
  match fwd with u :: fwd => Ret (u, fwd) | [] => Stop Undefined end.

Definition next_uint_value (fwd : list Z) : outcome (Z * list Z) :=
  '(u, fwd) ← next_uint64_value fwd; Ret (u32 u, fwd).

Definition reach_end (fwd : list Z) : bool := bool_decide (fwd = []).

(** [val], [size], [mask]. *)
Definition next_arg_info (fwd : list Z) : outcome (ABIArgInfo * list Z) :=
  '(v, fwd) ← next_uint64_value fwd;
  '(s, fwd) ← next_uint_value fwd;
  '(m, fwd) ← next_uint_value fwd;
  Ret (mkABIArgInfo v s m, fwd).

Fixpoint next_arg_infos (n : nat) (fwd : list Z) : outcome (list ABIArgInfo * list Z) :=
  match n with
  | O => Ret ([], fwd)
  | S n =>
      '(x, fwd) ← next_arg_info fwd;
      '(l, fwd) ← next_arg_infos n fwd;
      Ret (x :: l, fwd)
  end.

Fixpoint next_offsets (n : nat) (fwd : list Z) : outcome (list Z * list Z) :=
  match n with
  | O => Ret ([], fwd)
  | S n =>
      '(o, fwd) ← next_uint_value fwd;
      '(l, fwd) ← next_offsets n fwd;
      Ret (o :: l, fwd)
  end.

(** A length, the offsets, and the terminator added. *)
Definition next_stfp_list (fwd : list Z) : outcome (list Z * list Z) :=
  '(n, fwd) ← next_uint_value fwd;
  '(l, fwd) ← next_offsets (Z.to_nat n) fwd;
  Ret (l ++ [STFP_LIST_TERMINATOR], fwd).

Fixpoint next_arg_lists (args : list ABIArgInfo) (fwd : list Z) : outcome (list (option (list Z)) * list Z) :=
  match args with
  | [] => Ret ([], fwd)
  | a :: args =>
      '(o, fwd) ← (if te_is_stfp a then '(l, fwd) ← next_stfp_list fwd; Ret (Some l, fwd) else Ret (None, fwd));
      '(ls, fwd) ← next_arg_lists args fwd;
      Ret (o :: ls, fwd)
  end.

(** ** One function *)

(** [uint8_t] fields keep the low byte. *)
Definition u8 (x : Z) : Z := wrap 8 x.

(** [int] from [unsigned] *)
Definition s32 (x : Z) : Z := if x <? 2 ^ 31 then x else x - 2 ^ 32.

(** [nargs * sizeof(ABIArgInfo)] in [unsigned]: the writes behind a wrapped
    size are undefined. *)
Definition alloc_args (n : Z) : outcome unit := if n * 16 <? 2 ^ 32 then Ret tt else Stop Undefined.

(** The result, [*aaInfo] and [*xxInfo]. *)
Definition read_fn_info (fwd : list Z) : outcome (bool * ABIFnInfo * ABIFnInfo) :=
  '(ar, fwd) ← next_arg_info fwd;
  '(xr, fwd) ← next_arg_info fwd;
  '(n, fwd) ← next_uint_value fwd;
  _ ← alloc_args n;
  '(aas, fwd) ← next_arg_infos (Z.to_nat n) fwd;
  '(xxs, fwd) ← next_arg_infos (Z.to_nat n) fwd;
  '(ab, fwd) ← next_uint_value fwd;
  '(xb, fwd) ← next_uint_value fwd;
  '(sse, fwd) ← next_uint_value fwd;
  '(cxx, fwd) ← next_uint_value fwd;
  '(vari, fwd) ← next_uint_value fwd;
  let aa := mkABIFnInfo aas ar None None n (s32 ab) 0 (u8 cxx) (u8 vari) in
  let xx := mkABIFnInfo xxs xr None None n (s32 xb) sse (u8 cxx) (u8 vari) in
  if negb (u8 vari =? 0) then Ret (false, aa, xx) else
  '(rlist, fwd) ← (if te_is_stfp xr then '(l, fwd) ← next_stfp_list fwd; Ret (Some l, fwd) else Ret (None, fwd));
  let xx := mkABIFnInfo xxs xr None rlist n (s32 xb) sse (u8 cxx) (u8 vari) in
  if reach_end fwd then Ret (true, aa, xx) else
  '(lists, fwd) ← next_arg_lists xxs fwd;
  let xx := mkABIFnInfo xxs xr (Some lists) rlist n (s32 xb) sse (u8 cxx) (u8 vari) in
  _ ← c_assert (reach_end fwd);
  Ret (true, aa, xx).

Section table.
(** The root node; [None] is nil. *)
Context (mpRoot : list ascii → option (list Z)).

Definition get_fn_info_from_name (name : list ascii) : outcome (bool * ABIFnInfo * ABIFnInfo) :=
  match mpRoot name with
  | None => Ret (false, zero_fn_info 0, zero_fn_info 0)
  | Some node => read_fn_info node
  end.
End table.

(** ** The table format *)

Definition arg_words (a : ABIArgInfo) : list Z := [val a; size a; mask a].

(** A list of offsets without its terminator, behind its length. *)
Definition list_words (o : option (list Z)) : list Z :=
  match o with Some l => Z.of_nat (length l - 1) :: take (length l - 1) l | None => [] end.

Definition table_entry (aa xx : ABIFnInfo) : list Z :=
  arg_words (rinfo aa) ++ arg_words (rinfo xx) ++ [nargs aa] ++
  flat_map arg_words (ainfo aa) ++ flat_map arg_words (ainfo xx) ++
  [bytes aa; bytes xx; ssecount xx; isCxxStructor xx; variadic xx] ++
  list_words (retStfpOffsetList xx) ++
  match argStfpOffsetLists xx with Some ls => flat_map list_words ls | None => [] end.

(** A terminated list of offsets exactly where there are function pointers. *)
Definition stfp_ok (a : ABIArgInfo) (o : option (list Z)) : Prop :=
  if te_is_stfp a
  then ∃ l, o = Some (l ++ [STFP_LIST_TERMINATOR]) ∧ Forall (in_u 32) l ∧ in_u 32 (Z.of_nat (length l))
  else o = None.

(** Two descriptions of one function. *)
Record described (aa xx : ABIFnInfo) : Prop := mk_described {
  de_args : Forall arg_info_wf (ainfo aa) ∧ Forall arg_info_wf (ainfo xx);
  de_rets : arg_info_wf (rinfo aa) ∧ arg_info_wf (rinfo xx);
  de_nargs : nargs aa = Z.of_nat (length (ainfo aa)) ∧ nargs xx = Z.of_nat (length (ainfo xx)) ∧ nargs aa = nargs xx;
  de_few : nargs aa < 2 ^ 28;
  de_bytes : 0 ≤ bytes aa < 2 ^ 31 ∧ 0 ≤ bytes xx < 2 ^ 31;
  de_sse : ssecount aa = 0 ∧ in_u 32 (ssecount xx);
  de_cxx : isCxxStructor aa = isCxxStructor xx ∧ in_u 8 (isCxxStructor xx);
  de_fixed : variadic aa = variadic xx ∧ in_u 8 (variadic xx);
  de_aa_lists : argStfpOffsetLists aa = None ∧ retStfpOffsetList aa = None;
  de_ret_list : stfp_ok (rinfo xx) (retStfpOffsetList xx);
  de_arg_lists : if existsb te_is_stfp (ainfo xx)
                 then ∃ ls, argStfpOffsetLists xx = Some ls ∧ Forall2 stfp_ok (ainfo xx) ls
                 else argStfpOffsetLists xx = None
}.

Lemma next_arg_info_words a rest : arg_info_wf a → next_arg_info (arg_words a ++ rest) = Ret (a, rest).
Proof.
  intros (Hv & Hs & Hm). unfold next_arg_info, next_uint_value. cbn [arg_words app next_uint64_value mbind outcome_bind].
  rewrite !wrap_small by done. by destruct a.
Qed.

Lemma next_arg_infos_words l rest : Forall arg_info_wf l →
  next_arg_infos (length l) (flat_map arg_words l ++ rest) = Ret (l, rest).
Proof.
  induction 1 as [|a l Ha Hl IH]; [done|]. cbn [length next_arg_infos flat_map]. rewrite <- app_assoc.
  rewrite next_arg_info_words by done. cbn [mbind outcome_bind]. by rewrite IH.
Qed.

Lemma next_offsets_words l rest : Forall (in_u 32) l → next_offsets (length l) (l ++ rest) = Ret (l, rest).
Proof.
  induction 1 as [|a l Ha Hl IH]; [done|]. cbn [length next_offsets app]. unfold next_uint_value.
  cbn [next_uint64_value mbind outcome_bind]. rewrite IH. cbn [mbind outcome_bind]. by rewrite wrap_small.
Qed.

Lemma next_list_words a o rest : stfp_ok a o →
  (if te_is_stfp a then '(l, fwd) ← next_stfp_list (list_words o ++ rest); Ret (Some l, fwd)
   else Ret (None, list_words o ++ rest)) = Ret (o, rest).
Proof.
  unfold stfp_ok. destruct (te_is_stfp a); [|by intros ->]. intros (l & -> & Hl & Hn). unfold next_stfp_list, next_uint_value.
  cbn [list_words]. rewrite length_app. cbn [length]. rewrite Nat.add_sub, take_app_length. cbn [app next_uint64_value mbind outcome_bind].
  rewrite wrap_small, Nat2Z.id by done. rewrite next_offsets_words by done. done.
Qed.

Lemma next_arg_lists_words args ls rest : Forall2 stfp_ok args ls →
  next_arg_lists args (flat_map list_words ls ++ rest) = Ret (ls, rest).
Proof.
  induction 1 as [|a o args ls Ho Hls IH]; [done|]. cbn [next_arg_lists flat_map]. rewrite <- app_assoc.
  rewrite (next_list_words a o) by done. cbn [mbind outcome_bind]. by rewrite IH.
Qed.

(** Some argument has function pointers: something follows. *)
Lemma arg_lists_follow args ls : Forall2 stfp_ok args ls → existsb te_is_stfp args = true → flat_map list_words ls ≠ [].
Proof.
  induction 1 as [|a o args ls Ho Hls IH]; [done|]. cbn [existsb flat_map]. unfold stfp_ok in Ho.
  destruct (te_is_stfp a); [destruct Ho as (l & -> & _); done|]. intros H E. apply app_nil in E as [_ E]. by apply IH.
Qed.

Lemma read_entry aa xx : described aa xx → variadic xx = 0 → read_fn_info (table_entry aa xx) = Ret (true, aa, xx).
Proof.
  intros [[Ha Hx] [Hra Hrx] (Hna & Hnx & Hn) Hfew [Hba Hbx] [Hsa Hsx] [Hc Hcx] [Hv Hvx] [Hla Hlb] Hrl Hal] Hv0.
  unfold read_fn_info, table_entry. rewrite next_arg_info_words by done. cbn [mbind outcome_bind].
  rewrite next_arg_info_words by done. cbn [mbind outcome_bind]. unfold next_uint_value. cbn [app next_uint64_value mbind outcome_bind].
  rewrite (wrap_small 32 (nargs aa)) by (unfold in_u; lia). unfold alloc_args. rewrite (proj2 (Z.ltb_lt _ _)) by lia.
  cbn [mbind outcome_bind]. rewrite Hna, Nat2Z.id. rewrite next_arg_infos_words by done. cbn [mbind outcome_bind].
  replace (length (ainfo aa)) with (length (ainfo xx)) by lia. rewrite next_arg_infos_words by done.
  cbn [app next_uint64_value mbind outcome_bind].
  rewrite !(wrap_small 32) by (unfold in_u in *; lia). unfold s32, u8. rewrite !(wrap_small 8) by done. rewrite Hv0.
  rewrite !(proj2 (Z.ltb_lt _ (2 ^ 31))) by lia. cbn [Z.eqb negb]. rewrite next_list_words by done. cbn [mbind outcome_bind].
  destruct aa as [aas ar al arl an ab asse ac av], xx as [xxs xr xl xrl xn xb xsse xc xv]. cbn in *. subst.
  replace (Z.of_nat (length xxs)) with (Z.of_nat (length aas)) by lia.
  destruct (existsb te_is_stfp xxs) eqn:Hex; [|subst xl; done]. destruct Hal as (ls & -> & Hls).
  pose proof (arg_lists_follow xxs ls Hls Hex) as Hne. unfold reach_end. rewrite (bool_decide_false _ Hne).
  pose proof (next_arg_lists_words xxs ls [] Hls) as Hrun. rewrite app_nil_r in Hrun. rewrite Hrun. done.
Qed.

(** ** Properties *)

(** C36.  What the table says about a function with fixed arguments is what
    [get_fn_info_from_name] returns, for every pair of descriptions, lists of
    function pointer offsets included. *)
Theorem get_fn_info_from_name_roundtrip mpRoot name aa xx :
  described aa xx → variadic xx = 0 → mpRoot name = Some (table_entry aa xx) →
  get_fn_info_from_name mpRoot name = Ret (true, aa, xx).
Proof. intros Hd Hv Hn. unfold get_fn_info_from_name. rewrite Hn. by apply read_entry. Qed.

(** ** Witnesses *)

(** A callback in X0 and RDI, and a structure with function pointers at offsets
    8 and 24 behind the second argument. *)
Definition entry_aa : ABIFnInfo :=
  mkABIFnInfo [mkABIArgInfo 33 8 4; mkABIArgInfo 34 8 16] (mkABIArgInfo 25 4 0) None None 2 0 0 0 0.
Definition entry_xx : ABIFnInfo :=
  mkABIFnInfo [mkABIArgInfo 261 8 4; mkABIArgInfo 263 8 16] (mkABIArgInfo 258 4 0)
    (Some [None; Some [8; 24; STFP_LIST_TERMINATOR]]) None 2 0 0 0 0.

Lemma get_fn_info_from_name_roundtrip_witness :
  get_fn_info_from_name (λ _, Some [25; 4; 0; 258; 4; 0; 2; 33; 8; 4; 34; 8; 16; 261; 8; 4; 263; 8; 16; 0; 0; 0; 0; 0; 2; 8; 24])
    (chars "f") = Ret (true, entry_aa, entry_xx).
Proof.
  apply (get_fn_info_from_name_roundtrip _ _ entry_aa entry_xx); [|reflexivity|reflexivity].
  split; unfold arg_info_wf, in_u; cbn; try (repeat constructor; cbn; lia); try lia; try done.
  eexists. split; [reflexivity|]. repeat constructor. exists [8; 24]. unfold in_u. split_and!; [done|repeat constructor; lia|cbn; lia..].
Defined.
