(* ===== verification/Callbacks.v ===== *)
(** * Registered callbacks

    Emulated functions that x86-64 code may call are registered with their
    types, [callback_types] of [x64toAArch64.inc.c].  For a structure with
    function pointers, [tcg_register_struct_with_fn_ptr] of
    [AArch64tox64.inc.c] walks a list of offsets and registers each pointer
    under a name made from the offset, the function and the argument, which is
    later looked up in the table of prototypes. *)

From stdpp Require Import gmap.
From S2P Require Import CString Prelude Bytes ABIArgInfo.

(** ** The table of types *)

Abbreviation callback_types := (gmap Z (list ascii)).

Definition tcg_register_callback_as_type (cbs : callback_types) (pc : Z) (types : list ascii) : callback_types :=
  <[pc := types]> cbs.

Definition tcg_query_callback_type (cbs : callback_types) (pc : Z) : option (list ascii) := cbs !! pc.

(** ** Structures with function pointers *)

Definition STFP_FUNPTR : Z := 0.
Definition STFP_STRUCT : Z := 1.

(** [sprintf(buf, "%d", n)] *)
Definition sprintf_d (n : Z) : list ascii := if n <? 0 then "-"%char :: numeral (- n) else numeral n.

Definition fake_name (offset : Z) (fnName : list ascii) (argIdx : Z) : list ascii :=
  "1"%char :: sprintf_d offset ++ fnName ++ sprintf_d argIdx.

Section walk.
Context (mem : memory) (fnName : list ascii) (argIdx : Z).

(** One pass over the list of a structure; [rec] is the recursive call. *)
Fixpoint stfp_fields (rec : Z → callback_types → outcome callback_types) (stptr : Z) (offsetList : list Z)
    (cbs : callback_types) : outcome callback_types :=
  match offsetList with
  | [] => Stop Undefined
  | o :: rest =>
      if o =? STFP_LIST_TERMINATOR then Ret cbs else
      let offset := Z.land o 65535 in
      let kind := Z.shiftr o 16 in
      cbs ← (if kind =? STFP_FUNPTR then
               _ ← c_assert (offset <=? 9999);
               _ ← c_assert (argIdx <=? 62);
               pval ← le_val <$> rd_mem mem (stptr + offset) 8;
               Ret (tcg_register_callback_as_type cbs pval (fake_name offset fnName argIdx))
             else if kind =? STFP_STRUCT then
               let newptr := stptr + offset in
               if negb (newptr =? stptr) && negb (newptr =? 0) then rec newptr cbs else Ret cbs
             else Stop Aborted);
      stfp_fields rec stptr rest cbs
  end.

Fixpoint tcg_register_struct_with_fn_ptr (fuel : nat) (offsetList : list Z) (stptr : Z) (cbs : callback_types) :
    outcome callback_types :=
  match fuel with
  | O => Stop OutOfFuel
  | S fuel =>
      if stptr =? 0 then Ret cbs
      else stfp_fields (λ p cbs, tcg_register_struct_with_fn_ptr fuel offsetList p cbs) stptr offsetList cbs
  end.

(** ** Lists of function pointers only *)

(** The pointers of a structure with the given offsets. *)
Definition fn_pointers (stptr : Z) (offsets ptrs : list Z) : Prop :=
  Forall2 (λ o p, le_val <$> rd_mem mem (stptr + o) 8 = Ret p) offsets ptrs.

Definition registered_all (cbs : callback_types) (offsets ptrs : list Z) : callback_types :=
  foldl (λ cbs q, tcg_register_callback_as_type cbs q.2 (fake_name q.1 fnName argIdx)) cbs (zip offsets ptrs).

Lemma stfp_fields_ok rec stptr offsets ptrs cbs : argIdx ≤ 62 → Forall (λ o, 0 ≤ o ≤ 9999) offsets →
  fn_pointers stptr offsets ptrs →
  stfp_fields rec stptr (offsets ++ [STFP_LIST_TERMINATOR]) cbs = Ret (registered_all cbs offsets ptrs).
Proof.
  intros Harg Ho Hp. revert cbs. induction Hp as [|o p offsets ptrs Hop Hp IH]; intros cbs; [done|].
  apply Forall_cons in Ho as [Ho Hos]. cbn [app stfp_fields]. unfold STFP_LIST_TERMINATOR at 1.
  rewrite (proj2 (Z.eqb_neq o _)) by lia. change 65535 with (Z.ones 16). rewrite Z.land_ones, Z.mod_small by lia.
  rewrite Z.shiftr_div_pow2, Z.div_small by lia. cbn [Z.eqb STFP_FUNPTR].
  rewrite (proj2 (Z.leb_le o 9999)), (proj2 (Z.leb_le argIdx 62)) by lia. cbn [c_assert mbind outcome_bind].
  rewrite Hop. cbn [mbind outcome_bind]. by rewrite IH.
Qed.

Lemma registered_all_lookup cbs offsets ptrs i o p : NoDup ptrs → length offsets = length ptrs →
  offsets !! i = Some o → ptrs !! i = Some p →
  tcg_query_callback_type (registered_all cbs offsets ptrs) p = Some (fake_name o fnName argIdx).
Proof.
  unfold registered_all, tcg_query_callback_type.
  assert (∀ l cbs p, p ∉ l.*2 → foldl (λ cbs q, tcg_register_callback_as_type cbs q.2 (fake_name q.1 fnName argIdx)) cbs l !! p = cbs !! p) as Hother.
  { intros l. induction l as [|[a b] l IH]; intros c q Hq; [done|]. rewrite fmap_cons, not_elem_of_cons in Hq. destruct Hq as [Hne Hq].
    cbn [foldl]. rewrite IH by done. by apply lookup_insert_ne. }
  revert cbs offsets i. induction ptrs as [|q ptrs IH]; intros cbs [|a offsets] i Hnd Hlen Ho Hp; try done.
  apply NoDup_cons in Hnd as [Hq Hnd]. destruct i as [|i]; cbn in Ho, Hp; [|by apply (IH _ offsets i); [| injection Hlen| |]].
  injection Ho as ->. injection Hp as ->. cbn [zip zip_with foldl]. rewrite Hother; [apply lookup_insert_eq|].
  intros Hin. apply Hq. injection Hlen as Hlen. rewrite snd_zip in Hin; [done|]. lia.
Qed.

(** ** Lists that mention the structure itself *)

(** Every pass over such a list makes a recursive call. *)
Lemma stfp_fields_struct rec stptr offsets o rest cbs : 0 < stptr → 0 < o < 65536 →
  Forall (λ o, o ≠ STFP_LIST_TERMINATOR) offsets → (∀ p cbs r, 0 < p → rec p cbs ≠ Ret r) →
  ∀ r, stfp_fields rec stptr (offsets ++ (STFP_STRUCT * 65536 + o) :: rest) cbs ≠ Ret r.
Proof.
  intros Hst Ho Hoff Hrec. revert cbs. induction Hoff as [|x offsets Hx Hoff IH]; intros cbs r; cbn [app stfp_fields].
  - unfold STFP_STRUCT, STFP_LIST_TERMINATOR. rewrite (proj2 (Z.eqb_neq (1 * 65536 + o) _)) by lia.
    change 65535 with (Z.ones 16). rewrite Z.land_ones, Z.shiftr_div_pow2 by lia. change (2 ^ 16) with 65536.
    rewrite (Z.add_comm (1 * 65536)), Z.mod_add, Z.mod_small, Z.div_add, Z.div_small by lia. cbn [Z.add Z.eqb STFP_FUNPTR Pos.eqb].
    rewrite (proj2 (Z.eqb_neq (stptr + o) stptr)), (proj2 (Z.eqb_neq (stptr + o) 0)) by lia. cbn [negb andb].
    destruct (rec (stptr + o) cbs) as [c|] eqn:Hc; [by destruct (Hrec (stptr + o) cbs c ltac:(lia))|done].
  - rewrite (proj2 (Z.eqb_neq x _)) by done. intros H. cbv zeta in H.
    match type of H with (?m ≫= _) = _ => destruct m as [c|] eqn:Hm; [|done] end. cbn [mbind outcome_bind] in H. by eapply IH.
Qed.

Lemma struct_never_returns fuel offsets o rest stptr cbs r : 0 < stptr → 0 < o < 65536 →
  Forall (λ o, o ≠ STFP_LIST_TERMINATOR) offsets →
  tcg_register_struct_with_fn_ptr fuel (offsets ++ (STFP_STRUCT * 65536 + o) :: rest) stptr cbs ≠ Ret r.
Proof.
  intros Hst Ho Hoff. revert stptr cbs r Hst. induction fuel as [|fuel IH]; intros stptr cbs r Hst; [done|].
  cbn [tcg_register_struct_with_fn_ptr]. rewrite (proj2 (Z.eqb_neq stptr 0)) by lia.
  by apply stfp_fields_struct.
Qed.
End walk.

(** ** Names *)

(** A character a decimal number may have. *)
Definition number_char (c : ascii) : bool := isdigit c || Ascii.eqb c "-".

(** The name of a C function: it starts with an underscore. *)
Definition name_ok (s : list ascii) : Prop := ∃ t c, s = "_"%char :: t ∧ last s = Some c ∧ number_char c = false.

Lemma numeral_chars n : 0 ≤ n < 10 ^ 20 → Forall (λ c, isdigit c = true) (numeral n).
Proof.
  unfold numeral. assert (∀ k n, 0 ≤ n → Forall (λ c, isdigit c = true) (numeral_aux k n)) as H; [|intros; apply H; lia].
  intros k. induction k as [|k IH]; intros m Hm; cbn [numeral_aux]; [constructor|].
  destruct (Z.ltb_spec m 10); [constructor; [apply isdigit_digit; lia|constructor]|].
  apply Forall_app. split; [apply IH, Z.div_pos; lia|]. constructor; [|constructor]. apply isdigit_digit, Z.mod_pos_bound. lia.
Qed.

Lemma numeral_read n c s : 0 ≤ n < 10 ^ 20 → isdigit c = false → digits (numeral n ++ c :: s) 0 = Ret (n, c :: s).
Proof.
  intros Hn Hc. unfold numeral. rewrite digits_numeral by (done || lia). cbn [digits]. by rewrite Hc.
Qed.

Lemma app_last_inj (P : ascii → bool) s1 s2 d1 d2 c1 c2 : s1 ++ d1 = s2 ++ d2 →
  last s1 = Some c1 → P c1 = false → last s2 = Some c2 → P c2 = false →
  Forall (λ c, P c = true) d1 → Forall (λ c, P c = true) d2 → s1 = s2 ∧ d1 = d2.
Proof.
  intros Heq H1 P1 H2 P2 F1 F2. destruct (app_eq_inv _ _ _ _ Heq) as [(k & -> & ->)|(k & -> & ->)].
  - destruct k as [|a k _] using rev_ind; [by rewrite !app_nil_r|]. exfalso. rewrite app_assoc, last_snoc in H1. injection H1 as ->.
    apply Forall_app in F2 as [F2 _]. apply Forall_app in F2 as [_ F2]. inversion F2; congruence.
  - destruct k as [|a k _] using rev_ind; [by rewrite !app_nil_r|]. exfalso. rewrite app_assoc, last_snoc in H2. injection H2 as ->.
    apply Forall_app in F1 as [F1 _]. apply Forall_app in F1 as [_ F1]. inversion F1; congruence.
Qed.

Lemma sprintf_d_chars n : - 10 ^ 20 < n < 10 ^ 20 → Forall (λ c, number_char c = true) (sprintf_d n).
Proof.
  intros Hn. unfold sprintf_d, number_char. destruct (Z.ltb_spec n 0); [constructor; [done|]|];
    (eapply Forall_impl; [apply numeral_chars; lia|]); intros c Hc; by rewrite Hc.
Qed.

Lemma numeral_inj n m : 0 ≤ n < 10 ^ 20 → 0 ≤ m < 10 ^ 20 → numeral n = numeral m → n = m.
Proof.
  intros Hn Hm Heq. pose proof (numeral_read n NUL [] Hn eq_refl) as H1. pose proof (numeral_read m NUL [] Hm eq_refl) as H2.
  rewrite Heq, H2 in H1. by injection H1.
Qed.

Lemma sprintf_d_inj n m : - 10 ^ 20 < n < 10 ^ 20 → - 10 ^ 20 < m < 10 ^ 20 → sprintf_d n = sprintf_d m → n = m.
Proof.
  intros Hn Hm. unfold sprintf_d. destruct (Z.ltb_spec n 0), (Z.ltb_spec m 0); intros Heq.
  - injection Heq as Heq. apply numeral_inj in Heq; lia.
  - exfalso. destruct (numeral_head m ltac:(lia)) as (c & l & E & Hc). rewrite E in Heq. by injection Heq as <- _.
  - exfalso. destruct (numeral_head n ltac:(lia)) as (c & l & E & Hc). rewrite E in Heq. by injection Heq as -> _.
  - apply numeral_inj in Heq; lia.
Qed.

(** ** Properties *)

(** Names that end in a letter: different function pointers of different
    arguments of different functions are registered under different names. *)
Theorem fake_name_injective o1 f1 a1 o2 f2 a2 :
  0 ≤ o1 ≤ 9999 → 0 ≤ o2 ≤ 9999 → -1 ≤ a1 ≤ 62 → -1 ≤ a2 ≤ 62 → name_ok f1 → name_ok f2 →
  (o1, f1, a1) ≠ (o2, f2, a2) → fake_name o1 f1 a1 ≠ fake_name o2 f2 a2.
Proof.
  intros Ho1 Ho2 Ha1 Ha2 (t1 & c1 & -> & L1 & N1) (t2 & c2 & -> & L2 & N2) Hne Heq. apply Hne. unfold fake_name in Heq. injection Heq as Heq.
  assert (∀ o, 0 ≤ o ≤ 9999 → sprintf_d o = numeral o) as Hs by (intros o Ho; unfold sprintf_d; by rewrite (proj2 (Z.ltb_ge o 0)) by lia).
  rewrite (Hs o1 Ho1), (Hs o2 Ho2) in Heq.
  pose proof (numeral_read o1 "_" (t1 ++ sprintf_d a1) ltac:(lia) eq_refl) as H1.
  pose proof (numeral_read o2 "_" (t2 ++ sprintf_d a2) ltac:(lia) eq_refl) as H2.
  cbn [app] in Heq. rewrite Heq in H1.
  rewrite H2 in H1. injection H1 as <- Hrest.
  destruct (app_last_inj number_char ("_"%char :: t1) ("_"%char :: t2) (sprintf_d a1) (sprintf_d a2) c1 c2) as [Hf Ha];
    [cbn; by rewrite Hrest|done..|apply sprintf_d_chars; lia|apply sprintf_d_chars; lia|].
  apply sprintf_d_inj in Ha; [|lia..]. congruence.
Qed.

(** With names that end in a digit this fails: the third argument of [_f1]
    and the thirteenth of [_f] get the same name. *)
Theorem fake_name_collision : fake_name 8 (chars "_f1") 2 = fake_name 8 (chars "_f") 12.
Proof. reflexivity. Qed.

(** A structure that has only function pointers: each of them is found
    under its name afterwards. *)
Theorem struct_fn_ptrs_registered mem fnName argIdx fuel stptr offsets ptrs cbs i o p :
  (1 ≤ fuel)%nat → stptr ≠ 0 → argIdx ≤ 62 → Forall (λ o, 0 ≤ o ≤ 9999) offsets →
  fn_pointers mem stptr offsets ptrs → NoDup ptrs → offsets !! i = Some o → ptrs !! i = Some p →
  ∃ cbs', tcg_register_struct_with_fn_ptr mem fnName argIdx fuel (offsets ++ [STFP_LIST_TERMINATOR]) stptr cbs = Ret cbs' ∧
    tcg_query_callback_type cbs' p = Some (fake_name o fnName argIdx).
Proof.
  intros Hf Hst Harg Ho Hp Hnd Hi Hq. exists (registered_all fnName argIdx cbs offsets ptrs). split.
  - destruct fuel as [|fuel]; [lia|]. cbn [tcg_register_struct_with_fn_ptr]. rewrite (proj2 (Z.eqb_neq stptr 0)) by done.
    by apply stfp_fields_ok.
  - apply registered_all_lookup with i; try done. by eapply Forall2_length.
Qed.

(** A structure with a field of its own kind, such as the forwarding
    pointer of a block variable: the call never returns, because the address of
    the field is followed instead of the pointer in it. *)
Theorem struct_stfp_never_returns mem fnName argIdx fuel offsets o rest stptr cbs r :
  0 < stptr → 0 < o < 65536 → Forall (λ o, o ≠ STFP_LIST_TERMINATOR) offsets →
  tcg_register_struct_with_fn_ptr mem fnName argIdx fuel (offsets ++ (STFP_STRUCT * 65536 + o) :: rest) stptr cbs ≠ Ret r.
Proof. apply struct_never_returns. Qed.

(** ** Witnesses *)

Lemma fake_name_injective_witness : fake_name 8 (chars "_qsort") 3 ≠ fake_name 8 (chars "_bsearch_b") 3.
Proof.
  apply (fake_name_injective 8 (chars "_qsort") 3 8 (chars "_bsearch_b") 3); try lia.
  - by exists (chars "qsort"), "t"%char.
  - by exists (chars "bsearch_b"), "b"%char.
  - discriminate.
Defined.

(** The bytes of an address are its low bytes. *)
Definition address_mem : memory := λ a, Some (a mod 256).

Lemma struct_fn_ptrs_registered_witness :
  ∃ cbs, tcg_register_struct_with_fn_ptr address_mem (chars "_f") 0 1 [0; 8; STFP_LIST_TERMINATOR] 4096 ∅ = Ret cbs ∧
    tcg_query_callback_type cbs 1084818905618843912 = Some (chars "18_f0").
Proof.
  apply (struct_fn_ptrs_registered address_mem (chars "_f") 0 1 4096 [0; 8] [506097522914230528; 1084818905618843912] ∅ 1 8); try lia; try done.
  - repeat constructor; lia.
  - repeat constructor.
  - apply (bool_decide_unpack _). by vm_compute.
Defined.

Lemma struct_stfp_never_returns_witness :
  tcg_register_struct_with_fn_ptr address_mem (chars "_f") 0 100 [16; 65536 + 8; STFP_LIST_TERMINATOR] 4096 ∅ ≠ Ret ∅.
Proof.
  apply (struct_stfp_never_returns address_mem (chars "_f") 0 100 [16] 8 [STFP_LIST_TERMINATOR] 4096 ∅ ∅); [lia|lia|].
  by repeat constructor.
Defined.
