(* ===== verification/Memory.v ===== *)
(** * Memory that is written

    Generated code reads and writes one flat memory: the emulated CPU state,
    the host stack and the memory of the guest are parts of it.  A write
    outside the mapped addresses is undefined. *)

From S2P Require Import Prelude Bytes.

Definition mapped (m : memory) (a n : Z) : bool :=
  forallb (λ x, bool_decide (is_Some (m x))) (seqZ a n).

Definition wr_mem (m : memory) (a : Z) (bs : list Z) : outcome memory :=
  if mapped m a (Z.of_nat (length bs))
  then Ret (λ x, if (a <=? x) && (x <? a + Z.of_nat (length bs)) then bs !! Z.to_nat (x - a) else m x)
  else Stop Undefined.

(** A memory with the bytes [l] at [a]. *)
Definition region (a : Z) (l : list Z) (rest : memory) : memory :=
  λ x, if (a <=? x) && (x <? a + Z.of_nat (length l)) then l !! Z.to_nat (x - a) else rest x.

(** ** Laws *)

Lemma mapped_spec m a n : mapped m a n = true ↔ ∀ x, a ≤ x < a + n → is_Some (m x).
Proof.
  unfold mapped. rewrite forallb_forall. setoid_rewrite <- list_elem_of_In. setoid_rewrite elem_of_seqZ.
  setoid_rewrite bool_decide_eq_true. naive_solver.
Qed.

Lemma rd_mem_spec m a n bs : 0 ≤ n →
  rd_mem m a n = Ret bs ↔ Z.of_nat (length bs) = n ∧ ∀ i : nat, Z.of_nat i < n → m (a + Z.of_nat i) = bs !! i.
Proof.
  intros Hn. unfold rd_mem. split.
  - destruct (mapM m (seqZ a n)) as [l|] eqn:H; [|done]. intros [= <-]. pose proof H as Hl. apply length_mapM in Hl.
    rewrite length_seqZ in Hl. split; [lia|]. intros i Hi. apply mapM_Some_1 in H.
    destruct (lookup_lt_is_Some_2 l i ltac:(lia)) as [b Hb].
    destruct (Forall2_lookup_r _ _ _ _ _ H Hb) as (x & Hx & Hm). apply lookup_seqZ in Hx as [-> _]. by rewrite Hm, Hb.
  - intros [Hl Hb]. assert (mapM m (seqZ a n) = Some bs) as ->; [|done]. apply mapM_Some_2, Forall2_same_length_lookup.
    rewrite length_seqZ. split; [lia|]. intros i x y [-> Hi]%lookup_seqZ Hy. by rewrite Hb by lia.
Qed.

Lemma rd_mem_mapped m a n bs : 0 ≤ n → rd_mem m a n = Ret bs → mapped m a n = true.
Proof.
  intros Hn [Hl Hb]%rd_mem_spec; [|done]. apply mapped_spec. intros x Hx.
  specialize (Hb (Z.to_nat (x - a)) ltac:(lia)). replace (a + Z.of_nat (Z.to_nat (x - a))) with x in Hb by lia.
  rewrite Hb. apply lookup_lt_is_Some. lia.
Qed.

Lemma mapped_rd m a n : 0 ≤ n → mapped m a n = true → ∃ bs, rd_mem m a n = Ret bs ∧ Z.of_nat (length bs) = n.
Proof.
  intros Hn Hm. destruct (rd_mem m a n) as [bs|] eqn:H; [exists bs; split; [done|by eapply rd_mem_length]|].
  unfold rd_mem in H. destruct (mapM m (seqZ a n)) as [|] eqn:HM; [done|]. apply mapM_None_1 in HM.
  apply Exists_exists in HM as (x & Hx & Hnone). apply elem_of_seqZ in Hx.
  rewrite mapped_spec in Hm. destruct (Hm x) as [b Hb]; [lia|]. congruence.
Qed.

Lemma mapped_sub m a n b k : mapped m a n = true → a ≤ b → b + k ≤ a + n → mapped m b k = true.
Proof. rewrite !mapped_spec. intros H ? ? x ?. apply H. lia. Qed.

Lemma wr_mem_ok m a bs : mapped m a (Z.of_nat (length bs)) = true →
  ∃ m', wr_mem m a bs = Ret m' ∧ (∀ x, a ≤ x < a + Z.of_nat (length bs) → m' x = bs !! Z.to_nat (x - a)) ∧
    (∀ x, x < a ∨ a + Z.of_nat (length bs) ≤ x → m' x = m x).
Proof.
  intros H. unfold wr_mem. rewrite H. eexists. split; [done|]. split; intros x Hx.
  - by rewrite (proj2 (Z.leb_le _ _)), (proj2 (Z.ltb_lt _ _)) by lia.
  - destruct (Z.leb_spec a x), (Z.ltb_spec x (a + Z.of_nat (length bs))); simpl; (done || lia).
Qed.

Lemma rd_mem_ext m m' a n : (∀ x, a ≤ x < a + n → m' x = m x) → rd_mem m' a n = rd_mem m a n.
Proof.
  intros H. unfold rd_mem. assert (mapM m' (seqZ a n) = mapM m (seqZ a n)) as ->; [|done].
  assert (Forall (λ x, a ≤ x < a + n) (seqZ a n)) as Hf by (apply Forall_forall; intros x ?%elem_of_seqZ; lia).
  induction Hf as [|x l Hx Hl IH]; [done|]. cbn [mapM]. by rewrite (H x Hx), IH.
Qed.

Lemma rd_wr_mem_other m a bs m' b n : wr_mem m a bs = Ret m' →
  b + n ≤ a ∨ a + Z.of_nat (length bs) ≤ b → rd_mem m' b n = rd_mem m b n.
Proof.
  intros Hw Hd. apply rd_mem_ext. intros x Hx. unfold wr_mem in Hw. destruct (mapped _ _ _); [|done].
  injection Hw as <-. destruct (Z.leb_spec a x), (Z.ltb_spec x (a + Z.of_nat (length bs))); simpl; (done || lia).
Qed.

Lemma rd_wr_mem_same m a bs m' k n : wr_mem m a bs = Ret m' → 0 ≤ k → 0 ≤ n → k + n ≤ Z.of_nat (length bs) →
  rd_mem m' (a + k) n = Ret (take (Z.to_nat n) (drop (Z.to_nat k) bs)).
Proof.
  intros Hw Hk Hn Hb. unfold wr_mem in Hw. destruct (mapped _ _ _); [|done]. injection Hw as <-.
  apply rd_mem_spec; [done|]. rewrite length_take, length_drop. split; [lia|]. intros i Hi.
  rewrite (proj2 (Z.leb_le _ _)), (proj2 (Z.ltb_lt _ _)) by lia. simpl.
  rewrite lookup_take_lt, lookup_drop by lia. f_equal. lia.
Qed.

Lemma wr_mem_mapped m a bs m' b n : wr_mem m a bs = Ret m' → mapped m' b n = mapped m b n.
Proof.
  intros Hw. apply eq_bool_prop_intro. rewrite !Is_true_true, !mapped_spec.
  assert (∀ x, is_Some (m' x) ↔ is_Some (m x)) as H; [|by setoid_rewrite H].
  intros x. unfold wr_mem in Hw. destruct (mapped m a _) eqn:Hm; [|done]. injection Hw as <-.
  rewrite mapped_spec in Hm.
  destruct (Z.leb_spec a x), (Z.ltb_spec x (a + Z.of_nat (length bs))); simpl; try done.
  split; intros _; [by apply Hm|apply lookup_lt_is_Some; lia].
Qed.

Lemma rd_mem_join m a n k bs cs : 0 ≤ n → 0 ≤ k → rd_mem m a n = Ret bs → rd_mem m (a + n) k = Ret cs → rd_mem m a (n + k) = Ret (bs ++ cs).
Proof.
  intros Hn Hk [Hl1 H1]%rd_mem_spec [Hl2 H2]%rd_mem_spec; try done. apply rd_mem_spec; [lia|]. split; [rewrite length_app; lia|].
  intros i Hi. destruct (decide (Z.of_nat i < n)) as [Hlt|Hge].
  - rewrite lookup_app_l by lia. by apply H1.
  - rewrite lookup_app_r by lia. replace (a + Z.of_nat i) with (a + n + Z.of_nat (i - length bs)) by lia. apply H2. lia.
Qed.

Lemma rd_wr_whole m a bs m' : wr_mem m a bs = Ret m' → rd_mem m' a (Z.of_nat (length bs)) = Ret bs.
Proof. intros Hw. pose proof (rd_wr_mem_same _ _ _ _ 0 (Z.of_nat (length bs)) Hw ltac:(lia) ltac:(lia) ltac:(lia)) as Hr. by rewrite Z.add_0_r, drop_0, take_ge in Hr by lia. Qed.

Lemma wr_mem_out m a bs m' x : wr_mem m a bs = Ret m' → x < a ∨ a + Z.of_nat (length bs) ≤ x → m' x = m x.
Proof.
  unfold wr_mem. destruct (mapped _ _ _); [|done]. intros [= <-] Hx. destruct (Z.leb_spec a x), (Z.ltb_spec x (a + Z.of_nat (length bs))); simpl; (done || lia).
Qed.

(** ** Regions *)

Lemma region_in a l m x : a ≤ x < a + Z.of_nat (length l) → region a l m x = l !! Z.to_nat (x - a).
Proof. intros. unfold region. by rewrite (proj2 (Z.leb_le _ _)), (proj2 (Z.ltb_lt _ _)) by lia. Qed.

Lemma region_out a l m x : x < a ∨ a + Z.of_nat (length l) ≤ x → region a l m x = m x.
Proof. intros. unfold region. destruct (Z.leb_spec a x), (Z.ltb_spec x (a + Z.of_nat (length l))); simpl; (done || lia). Qed.

Lemma rd_region a l m n : Z.of_nat (length l) = n → rd_mem (region a l m) a n = Ret l.
Proof.
  intros <-. apply rd_mem_spec; [lia|]. split; [done|]. intros i Hi. rewrite region_in by lia. by replace (Z.to_nat _) with i by lia.
Qed.

Lemma rd_region_other b l m a n : (a + n <=? b) || (b + Z.of_nat (length l) <=? a) = true → rd_mem (region b l m) a n = rd_mem m a n.
Proof. intros H. apply rd_mem_ext. intros x Hx. apply region_out. apply orb_true_iff in H as [H|H]; apply Z.leb_le in H; lia. Qed.

(** Solves reads of a whole region of a concrete memory. *)
Ltac rd_regions :=
  repeat first [apply rd_region; vm_compute; reflexivity | rewrite rd_region_other by (vm_compute; reflexivity)].
