(* ===== verification/X86.v ===== *)
(** * The host processor

    The part of x86-64 that the bridge's generated code uses: sixteen general
    registers, sixteen 128-bit registers (the upper halves of the 256-bit ones are
    not in the state: [vzeroupper] does nothing), a flat memory, and a decoder from
    bytes to instructions.  [movaps] on an address that is not a multiple of
    16 traps.  Functions outside the generated code are parameters: a call
    pushes the return address and lets the host function run. *)

From S2P Require Import Prelude Bytes Memory.

(** ** Registers: [TCGReg] of [tcg/i386/tcg-target.h] *)

Definition TCG_REG_RAX : Z := 0.
Definition TCG_REG_RCX : Z := 1.
Definition TCG_REG_RDX : Z := 2.
Definition TCG_REG_RBX : Z := 3.
Definition TCG_REG_RSP : Z := 4.
Definition TCG_REG_RBP : Z := 5.
Definition TCG_REG_RSI : Z := 6.
Definition TCG_REG_RDI : Z := 7.
Definition TCG_REG_R8 : Z := 8.
Definition TCG_REG_R9 : Z := 9.
Definition TCG_REG_R10 : Z := 10.
Definition TCG_REG_R11 : Z := 11.
Definition TCG_REG_R12 : Z := 12.
Definition TCG_REG_R13 : Z := 13.
Definition TCG_REG_R14 : Z := 14.
Definition TCG_REG_R15 : Z := 15.
Definition TCG_REG_XMM0 : Z := 16.
Definition TCG_REG_XMM8 : Z := 24.
Definition TCG_AREG0 : Z := TCG_REG_RBX.

(** ** State *)

(** The 128-bit registers have their own numbers from 0 on. *)
Record cpu := mk_cpu { gpr : Z → Z; xmm : Z → list Z; cmem : memory; zflag : bool }.

Definition set_gpr (s : cpu) (r v : Z) : cpu :=
  mk_cpu (λ k, if k =? r then u64 v else gpr s k) (xmm s) (cmem s) (zflag s).
Definition set_xmm (s : cpu) (r : Z) (bs : list Z) : cpu :=
  mk_cpu (gpr s) (λ k, if k =? r then bs else xmm s k) (cmem s) (zflag s).
Definition set_mem (s : cpu) (m : memory) : cpu := mk_cpu (gpr s) (xmm s) m (zflag s).
Definition set_zf (s : cpu) (b : bool) : cpu := mk_cpu (gpr s) (xmm s) (cmem s) b.

Definition cload (s : cpu) (a n : Z) : outcome (list Z) := rd_mem (cmem s) a n.
Definition cstore (s : cpu) (a : Z) (bs : list Z) : outcome cpu := m ← wr_mem (cmem s) a bs; Ret (set_mem s m).

(** ** Instructions *)

Inductive width : Set := W32 | W64.
Definition wbytes (w : width) : Z := match w with W32 => 4 | W64 => 8 end.
Definition wbits (w : width) : Z := 8 * wbytes w.

(** Memory operands are a base register and a displacement; immediates and
    displacements are signed, branch targets absolute. *)
Inductive insn : Set :=
| IMov (w : width) (dst src : Z)
| ILoad (w : width) (dst base disp : Z)
| IStore (w : width) (src base disp : Z)
| IMovapsLoad (x base disp : Z)
| IMovapsStore (x base disp : Z)
| IMovqFromXmm (w : width) (dst x : Z)
| IMovImm (dst v : Z)
| IAdd (w : width) (dst v : Z)
| IAddMem (base disp v : Z)
| ISub (w : width) (dst src : Z)
| IXor (w : width) (dst src : Z)
| IShr (w : width) (dst count : Z)
| IExtend (signed : bool) (bytes dst src : Z)
| IPush (r : Z)
| IPop (r : Z)
| IRepMovsb
| IVzeroupper
| ITest (w : width) (a b : Z)
| IJz (target : Z)
| IJmp (target : Z)
| IJmpReg (r : Z)
| ICall (target : Z)
| ICallReg (r : Z)
| IRet.

Definition ea (s : cpu) (base disp : Z) : Z := u64 (gpr s base + disp).

Definition push (s : cpu) (v : Z) : outcome cpu :=
  let sp := u64 (gpr s TCG_REG_RSP - 8) in
  s ← cstore s sp (le_bytes 8 v); Ret (set_gpr s TCG_REG_RSP sp).

Definition pop (s : cpu) : outcome (Z * cpu) :=
  bs ← cload s (gpr s TCG_REG_RSP) 8; Ret (le_val bs, set_gpr s TCG_REG_RSP (gpr s TCG_REG_RSP + 8)).

(** [rep movsb] with the direction flag clear: byte by byte, upwards. *)
Fixpoint copy_up (n : nat) (m : memory) (dst src : Z) : outcome memory :=
  match n with
  | O => Ret m
  | S n => bs ← rd_mem m src 1; m ← wr_mem m dst bs; copy_up n m (u64 (dst + 1)) (u64 (src + 1))
  end.

Definition rep_movsb (s : cpu) : outcome cpu :=
  let n := gpr s TCG_REG_RCX in
  m ← copy_up (Z.to_nat n) (cmem s) (gpr s TCG_REG_RDI) (gpr s TCG_REG_RSI);
  let s := set_gpr (set_mem s m) TCG_REG_RDI (gpr s TCG_REG_RDI + n) in
  let s := set_gpr s TCG_REG_RSI (gpr s TCG_REG_RSI + n) in
  Ret (set_gpr s TCG_REG_RCX 0).

(** An access of [movaps]. *)
Definition aligned16 (a : Z) : outcome unit := if a mod 16 =? 0 then Ret tt else Stop Trapped.

(** Instructions that continue with the next one. *)
Definition exec_plain (i : insn) (s : cpu) : outcome cpu :=
  match i with
  | IMov w d r => Ret (set_gpr s d (wrap (wbits w) (gpr s r)))
  | ILoad w d b o => bs ← cload s (ea s b o) (wbytes w); Ret (set_gpr s d (le_val bs))
  | IStore w r b o => cstore s (ea s b o) (le_bytes (Z.to_nat (wbytes w)) (gpr s r))
  | IMovapsLoad x b o =>
      _ ← aligned16 (ea s b o); bs ← cload s (ea s b o) 16; Ret (set_xmm s x bs)
  | IMovapsStore x b o => _ ← aligned16 (ea s b o); cstore s (ea s b o) (xmm s x)
  | IMovqFromXmm w d x => Ret (set_gpr s d (le_val (take (Z.to_nat (wbytes w)) (xmm s x))))
  | IMovImm d v => Ret (set_gpr s d v)
  | IAdd w d v =>
      let r := wrap (wbits w) (gpr s d + v) in Ret (set_zf (set_gpr s d r) (r =? 0))
  | IAddMem b o v =>
      bs ← cload s (ea s b o) 8;
      let r := u64 (le_val bs + v) in s ← cstore s (ea s b o) (le_bytes 8 r); Ret (set_zf s (r =? 0))
  | ISub w d r =>
      let x := wrap (wbits w) (gpr s d - gpr s r) in Ret (set_zf (set_gpr s d x) (x =? 0))
  | IXor w d r =>
      let x := wrap (wbits w) (Z.lxor (gpr s d) (gpr s r)) in Ret (set_zf (set_gpr s d x) (x =? 0))
  | IShr w d n =>
      (* the count is taken modulo the width of the operand *)
      let k := n mod wbits w in
      let x := Z.shiftr (wrap (wbits w) (gpr s d)) k in
      Ret (if k =? 0 then set_gpr s d x else set_zf (set_gpr s d x) (x =? 0))
  | IExtend sg n d r =>
      let v := wrap (8 * n) (gpr s r) in
      Ret (set_gpr s d (wrap 32 (if sg then sext (8 * n) v else v)))
  | IPush r => push s (gpr s r)
  | IPop r => '(v, s) ← pop s; Ret (set_gpr s r v)
  | IRepMovsb => rep_movsb s
  | IVzeroupper => Ret s
  | ITest w a b => Ret (set_zf s (wrap (wbits w) (Z.land (gpr s a) (gpr s b)) =? 0))
  | _ => Stop Undefined
  end.

(** ** Decoding *)

Inductive operand : Set := OReg (r : Z) | OMem (base disp : Z) | ORip (disp : Z).

Definition get_disp (n : Z) (l : list Z) : option (Z * list Z) :=
  let bs := take (Z.to_nat n) l in
  if (length bs =? Z.to_nat n)%nat then Some (sext (8 * n) (le_val bs), drop (Z.to_nat n) l) else None.

(** The ModRM byte, with the extension bits of the REX or VEX prefix: the
    register field, the operand and the rest.  Scaled indices and absolute
    addresses are not in the subset. *)
Definition modrm (R X B : Z) (l : list Z) : option (Z * operand * list Z) :=
  match l with
  | [] => None
  | b :: l =>
      let md := b / 64 in let rm := b mod 8 in let r := (b / 8) mod 8 + 8 * R in
      if md =? 3 then Some (r, OReg (rm + 8 * B), l) else
      match (if rm =? 4 then
               match l with
               | sib :: l =>
                   if ((sib / 8) mod 8 + 8 * X =? 4) && negb ((md =? 0) && (sib mod 8 =? 5))
                   then Some (sib mod 8 + 8 * B, l) else None
               | [] => None
               end
             else Some (rm + 8 * B, l)) with
      | None => None
      | Some (base, l) =>
          if (md =? 0) && (rm =? 5) then
            '(d, l) ← get_disp 4 l; Some (r, ORip d, l)
          else
            '(d, l) ← (if md =? 0 then Some (0, l) else get_disp (if md =? 1 then 1 else 4) l);
            Some (r, OMem base d, l)
      end
  end.

(** One opcode behind its prefixes; [W], [R], [X], [B] are the bits of the REX
    prefix and [rex] whether there is one; [here] is the address of the
    instruction and [all] its bytes and what follows. *)
Section opcodes.
Context (here : Z) (all : list Z).

(** The instruction ends where [rest] begins. *)
Definition size_to (rest : list Z) : Z := Z.of_nat (length all) - Z.of_nat (length rest).
Definition done_at (i : insn) (rest : list Z) : option (insn * Z) := Some (i, size_to rest).

Definition opcode_0f (R X B : Z) (rex : bool) (l : list Z) : option (insn * Z) :=
  match l with
  | op :: l =>
      '(r, o, rest) ← modrm R X B l;
      match o with
      | OReg q =>
          if (op =? 0xbe) || (op =? 0xb6) then
            if rex || (q <? 4) then done_at (IExtend (op =? 0xbe) 1 r q) rest else None
          else if (op =? 0xbf) || (op =? 0xb7) then done_at (IExtend (op =? 0xbf) 2 r q) rest
          else None
      | _ => None
      end
  | [] => None
  end.

Definition opcode (W R X B : Z) (rex : bool) (l : list Z) : option (insn * Z) :=
  let w := if W =? 1 then W64 else W32 in
  match l with
  | [] => None
  | op :: l =>
      if op =? 0x0f then opcode_0f R X B rex l
      else if (0x50 <=? op) && (op <=? 0x57) then done_at (IPush (op - 0x50 + 8 * B)) l
      else if (0x58 <=? op) && (op <=? 0x5f) then done_at (IPop (op - 0x58 + 8 * B)) l
      else if (0xb8 <=? op) && (op <=? 0xbf) then
        '(v, rest) ← get_disp (wbytes w) l; done_at (IMovImm (op - 0xb8 + 8 * B) (wrap (wbits w) v)) rest
      else if op =? 0xc3 then done_at IRet l
      else if op =? 0xe8 then '(d, rest) ← get_disp 4 l; done_at (ICall (here + size_to rest + d)) rest
      else if op =? 0xe9 then '(d, rest) ← get_disp 4 l; done_at (IJmp (here + size_to rest + d)) rest
      else if op =? 0xeb then '(d, rest) ← get_disp 1 l; done_at (IJmp (here + size_to rest + d)) rest
      else if op =? 0x74 then '(d, rest) ← get_disp 1 l; done_at (IJz (here + size_to rest + d)) rest
      else
        '(r, o, rest) ← modrm R X B l;
        if op =? 0x8b then
          match o with
          | OReg q => done_at (IMov w r q) rest
          | OMem b d => done_at (ILoad w r b d) rest
          | ORip _ => None
          end
        else if op =? 0x89 then
          match o with OMem b d => done_at (IStore w r b d) rest | _ => None end
        else if op =? 0x8d then
          match o with ORip d => done_at (IMovImm r (u64 (here + size_to rest + d))) rest | _ => None end
        else if op =? 0xc7 then
          match o with
          | OReg q =>
              if r =? 8 * R then
                '(v, rest) ← get_disp 4 rest; done_at (IMovImm q (wrap (wbits w) v)) rest
              else None
          | _ => None
          end
        else if (op =? 0x81) || (op =? 0x83) then
          if r =? 8 * R then
            '(v, rest) ← get_disp (if op =? 0x81 then 4 else 1) rest;
            match o with
            | OReg q => done_at (IAdd w q v) rest
            | OMem b d => if W =? 1 then done_at (IAddMem b d v) rest else None
            | ORip _ => None
            end
          else None
        else if op =? 0xff then
          match o with
          | OReg q =>
              if r =? 8 * R then done_at (IAdd w q 1) rest
              else if r =? 1 + 8 * R then done_at (IAdd w q (-1)) rest
              else if r =? 2 + 8 * R then done_at (ICallReg q) rest
              else if r =? 4 + 8 * R then done_at (IJmpReg q) rest
              else None
          | _ => None
          end
        else if op =? 0x29 then match o with OReg q => done_at (ISub w q r) rest | _ => None end
        else if op =? 0x33 then match o with OReg q => done_at (IXor w r q) rest | _ => None end
        else if op =? 0x85 then match o with OReg q => done_at (ITest w q r) rest | _ => None end
        else if (op =? 0xc1) || (op =? 0xd1) then
          match o with
          | OReg q =>
              if r =? 5 + 8 * R then
                if op =? 0xd1 then done_at (IShr w q 1) rest
                else '(n, rest) ← get_disp 1 rest; done_at (IShr w q (wrap 8 n)) rest
              else None
          | _ => None
          end
        else None
  end.

(** Behind a VEX prefix with the map [0f] and no second source. *)
Definition opcode_vex (pp W R X B : Z) (l : list Z) : option (insn * Z) :=
  match l with
  | [] => None
  | op :: l =>
      if (pp =? 0) && (op =? 0x77) then done_at IVzeroupper l else
      '(r, o, rest) ← modrm R X B l;
      match o with
      | OMem b d =>
          if (pp =? 0) && (op =? 0x28) then done_at (IMovapsLoad r b d) rest
          else if (pp =? 0) && (op =? 0x29) then done_at (IMovapsStore r b d) rest
          else None
      | OReg q =>
          if (pp =? 1) && (op =? 0x7e)
          then done_at (IMovqFromXmm (if W =? 1 then W64 else W32) q r) rest else None
      | ORip _ => None
      end
  end.
End opcodes.

(** Bits of a VEX prefix are stored inverted. *)
Definition bit (b i : Z) : Z := (b / 2 ^ i) mod 2.
Definition vex_ok (b : Z) : bool := ((b / 8) mod 16 =? 15) && (bit b 2 =? 0).

Definition decode (here : Z) (l : list Z) : option (insn * Z) :=
  match l with
  | [] => None
  | b :: l1 =>
      if b =? 0xf3 then
        match l1 with op :: rest => if op =? 0xa4 then done_at l IRepMovsb rest else None | [] => None end
      else if b =? 0xc5 then
        match l1 with
        | v :: l2 => if vex_ok v then opcode_vex l (v mod 4) 0 (1 - bit v 7) 0 0 l2 else None
        | [] => None
        end
      else if b =? 0xc4 then
        match l1 with
        | v1 :: v2 :: l2 =>
            if vex_ok v2 && (v1 mod 32 =? 1)
            then opcode_vex l (v2 mod 4) (bit v2 7) (1 - bit v1 7) (1 - bit v1 6) (1 - bit v1 5) l2
            else None
        | _ => None
        end
      else if (0x40 <=? b) && (b <=? 0x4f) then opcode here l (bit b 3) (bit b 2) (bit b 1) (bit b 0) true l1
      else opcode here l 0 0 0 0 false l
  end.

(** ** Running code *)

Section run.
(** The functions of the host, by address. *)
Context (host : Z → cpu → outcome cpu).
(** The code and its address. *)
Context (base : Z) (code : list Z).

Definition inside (rip : Z) : bool := (base <=? rip) && (rip <? base + Z.of_nat (length code)).

Definition exec (i : insn) (next : Z) (s : cpu) : outcome (Z * cpu) :=
  match i with
  | IJz t => Ret (if zflag s then t else next, s)
  | IJmp t => Ret (u64 t, s)
  | IJmpReg r => Ret (gpr s r, s)
  | ICall t => s ← push s next; s ← host (u64 t) s; Ret (next, s)
  | ICallReg r => let t := gpr s r in s ← push s next; s ← host t s; Ret (next, s)
  | IRet => '(v, s) ← pop s; Ret (v, s)
  | _ => s ← exec_plain i s; Ret (next, s)
  end.

Definition step (rip : Z) (s : cpu) : outcome (Z * cpu) :=
  match decode rip (drop (Z.to_nat (rip - base)) code) with
  | Some (i, n) => exec i (rip + n) s
  | None => Stop Trapped
  end.

(** Until control leaves the code. *)
Fixpoint run (fuel : nat) (rip : Z) (s : cpu) : outcome (Z * cpu) :=
  if inside rip then
    match fuel with
    | O => Stop OutOfFuel
    | S fuel => '(rip, s) ← step rip s; run fuel rip s
    end
  else Ret (rip, s).
End run.
