(* ===== verification/Encoder.v ===== *)
(** * [tcg/i386/tcg-target.inc.c]: emitting host instructions

    The functions [tcg_out_...] the bridge uses, as functions to lists of bytes,
    and one theorem: the processor decodes what they emit as the instruction
    that was meant. *)

From S2P Require Import Prelude Bytes Memory X86.

(** ** Opcodes *)

Definition LOWREGMASK (x : Z) : Z := Z.land x 7.

Definition P_EXT : Z := 0x100.
Definition P_EXT38 : Z := 0x200.
Definition P_DATA16 : Z := 0x400.
Definition P_REXW : Z := 0x1000.
Definition P_REXB_R : Z := 0x2000.
Definition P_REXB_RM : Z := 0x4000.
Definition P_GS : Z := 0x8000.
Definition P_EXT3A : Z := 0x10000.
Definition P_SIMDF3 : Z := 0x20000.
Definition P_SIMDF2 : Z := 0x40000.
Definition P_VEXL : Z := 0x80000.

Definition OPC_ARITH_EvIz : Z := 0x81.
Definition OPC_ARITH_EvIb : Z := 0x83.
Definition OPC_ARITH_GvEv : Z := 0x03.
Definition OPC_CALL_Jz : Z := 0xe8.
Definition OPC_JMP_long : Z := 0xe9.
Definition OPC_LEA : Z := 0x8d.
Definition OPC_MOVL_EvGv : Z := 0x89.
Definition OPC_MOVL_GvEv : Z := 0x8b.
Definition OPC_MOVL_EvIz : Z := 0xc7.
Definition OPC_MOVL_Iv : Z := 0xb8.
Definition OPC_MOVD_VyEy : Z := Z.lor 0x6e (Z.lor P_EXT P_DATA16).
Definition OPC_MOVD_EyVy : Z := Z.lor 0x7e (Z.lor P_EXT P_DATA16).
Definition OPC_MOVQ_VqWq : Z := Z.lor 0x7e (Z.lor P_EXT P_SIMDF3).
Definition OPC_MOVQ_WqVq : Z := Z.lor 0xd6 (Z.lor P_EXT P_DATA16).
Definition OPC_MOVDQA_VxWx : Z := Z.lor 0x6f (Z.lor P_EXT P_DATA16).
Definition OPC_MOVDQA_WxVx : Z := Z.lor 0x7f (Z.lor P_EXT P_DATA16).
Definition OPC_MOVDQU_VxWx : Z := Z.lor 0x6f (Z.lor P_EXT P_SIMDF3).
Definition OPC_MOVDQU_WxVx : Z := Z.lor 0x7f (Z.lor P_EXT P_SIMDF3).
Definition OPC_MOVAPS_VxWx : Z := Z.lor 0x28 P_EXT.
Definition OPC_MOVAPS_WxVx : Z := Z.lor 0x29 P_EXT.
Definition OPC_POP_r32 : Z := 0x58.
Definition OPC_PUSH_r32 : Z := 0x50.
Definition OPC_RET : Z := 0xc3.
Definition OPC_SHIFT_1 : Z := 0xd1.
Definition OPC_SHIFT_Ib : Z := 0xc1.
Definition OPC_MOVZBL : Z := Z.lor 0xb6 P_EXT.
Definition OPC_MOVZWL : Z := Z.lor 0xb7 P_EXT.
Definition OPC_VZEROUPPER : Z := Z.lor 0x77 P_EXT.
Definition OPC_GRP5 : Z := 0xff.
Definition ARITH_ADD : Z := 0.
Definition ARITH_AND : Z := 4.
Definition ARITH_SUB : Z := 5.
Definition ARITH_XOR : Z := 6.
Definition SHIFT_SHR : Z := 5.
Definition EXT5_INC_Ev : Z := 0.
Definition EXT5_DEC_Ev : Z := 1.
Definition EXT5_CALLN_Ev : Z := 2.
Definition EXT5_JMPN_Ev : Z := 4.

(** [x & m] as a condition *)
Definition has (x m : Z) : bool := negb (Z.land x m =? 0).

(** ** Prefixes, opcode, ModRM *)

Definition tcg_out8 (v : Z) : list Z := [u8 v].
Definition tcg_out32 (v : Z) : list Z := le_bytes 4 v.
Definition tcg_out64 (v : Z) : list Z := le_bytes 8 v.

Definition tcg_out_opc (opc r rm x : Z) : list Z :=
  (if has opc P_GS then tcg_out8 0x65 else []) ++
  (if has opc P_DATA16 then tcg_out8 0x66 else []) ++
  (if has opc P_SIMDF3 then tcg_out8 0xf3 else if has opc P_SIMDF2 then tcg_out8 0xf2 else []) ++
  let rex := if has opc P_REXW then 0x8 else 0x0 in
  let rex := Z.lor rex (Z.shiftr (Z.land r 8) 1) in
  let rex := Z.lor rex (Z.shiftr (Z.land x 8) 2) in
  let rex := Z.lor rex (Z.shiftr (Z.land rm 8) 3) in
  let rex := Z.lor rex (Z.land opc (if 4 <=? r then P_REXB_R else 0)) in
  let rex := Z.lor rex (Z.land opc (if 4 <=? rm then P_REXB_RM else 0)) in
  (if negb (rex =? 0) then tcg_out8 (Z.lor rex 0x40) else []) ++
  (if has opc (Z.lor P_EXT (Z.lor P_EXT38 P_EXT3A))
   then tcg_out8 0x0f ++
        (if has opc P_EXT38 then tcg_out8 0x38 else if has opc P_EXT3A then tcg_out8 0x3a else [])
   else []) ++
  tcg_out8 opc.

Definition modrm_regs (r rm : Z) : Z := Z.lor 0xc0 (Z.lor (Z.shiftl (LOWREGMASK r) 3) (LOWREGMASK rm)).

Definition tcg_out_modrm (opc r rm : Z) : list Z := tcg_out_opc opc r rm 0 ++ tcg_out8 (modrm_regs r rm).

Definition vex_pp (opc : Z) : Z :=
  if has opc P_DATA16 then 1 else if has opc P_SIMDF3 then 2 else if has opc P_SIMDF2 then 3 else 0.

Definition tcg_out_vex_opc (opc r v rm index : Z) : outcome (list Z) :=
  '(pre, tmp) ←
    (if (Z.land opc (Z.lor P_EXT (Z.lor P_EXT38 (Z.lor P_EXT3A P_REXW))) =? P_EXT) &&
        (Z.land (Z.lor rm index) 8 =? 0)
     then Ret (tcg_out8 0xc5, if has r 8 then 0 else 0x80)
     else
       mmmmm ← (if has opc P_EXT3A then Ret 3 else if has opc P_EXT38 then Ret 2
                else if has opc P_EXT then Ret 1 else Stop Aborted);
       let tmp := Z.lor mmmmm (if has r 8 then 0 else 0x80) in
       let tmp := Z.lor tmp (if has index 8 then 0 else 0x40) in
       let tmp := Z.lor tmp (if has rm 8 then 0 else 0x20) in
       Ret (tcg_out8 0xc4 ++ tcg_out8 tmp, if has opc P_REXW then 0x80 else 0));
  let tmp := Z.lor tmp (if has opc P_VEXL then 0x04 else 0) in
  let tmp := Z.lor tmp (vex_pp opc) in
  let tmp := Z.lor tmp (Z.shiftl (Z.land (Z.lnot v) 15) 3) in
  Ret (pre ++ tcg_out8 tmp ++ tcg_out8 opc).

Definition tcg_out_vex_modrm (opc r v rm : Z) : outcome (list Z) :=
  l ← tcg_out_vex_opc opc r v rm 0; Ret (l ++ tcg_out8 (modrm_regs r rm)).

(** [x == (int8_t)x], [x == (int32_t)x], [x == (uint32_t)x] *)
Definition is_int8 (x : Z) : bool := sext 8 x =? x.
Definition is_int32 (x : Z) : bool := sext 32 x =? x.
Definition is_uint32 (x : Z) : bool := u32 x =? x.

(** An operand in memory.  A negative [rm] or [index] is a missing register;
    without both the address is relative to the end of the instruction, [~rm]
    bytes behind the displacement. *)
Definition tcg_out_sib_offset (code_ptr r rm index shift offset : Z) : outcome (list Z) :=
  if (index <? 0) && (rm <? 0) then
    let pc := code_ptr + 5 + Z.lnot rm in
    let disp := sext 64 (offset - pc) in
    if is_int32 disp then Ret (tcg_out8 (Z.lor (Z.shiftl (LOWREGMASK r) 3) 5) ++ tcg_out32 disp)
    else if is_int32 offset
    then Ret (tcg_out8 (Z.lor (Z.shiftl (LOWREGMASK r) 3) 4) ++ tcg_out8 (Z.lor (Z.shiftl 4 3) 5) ++ tcg_out32 offset)
    else Stop Aborted
  else
    let '(md, len, rm) :=
      if rm <? 0 then (0, 4, 5)
      else if (offset =? 0) && negb (LOWREGMASK rm =? TCG_REG_RBP) then (0, 0, rm)
      else if is_int8 offset then (0x40, 1, rm) else (0x80, 4, rm) in
    Ret ((if (index <? 0) && negb (LOWREGMASK rm =? TCG_REG_RSP)
          then tcg_out8 (Z.lor md (Z.lor (Z.shiftl (LOWREGMASK r) 3) (LOWREGMASK rm)))
          else
            let index := if index <? 0 then 4 else index in
            tcg_out8 (Z.lor md (Z.lor (Z.shiftl (LOWREGMASK r) 3) 4)) ++
            tcg_out8 (Z.lor (Z.shiftl shift 6) (Z.lor (Z.shiftl (LOWREGMASK index) 3) (LOWREGMASK rm)))) ++
         (if len =? 1 then tcg_out8 offset else if len =? 4 then tcg_out32 offset else [])).

Definition tcg_out_modrm_sib_offset (code_ptr opc r rm index shift offset : Z) : outcome (list Z) :=
  let l := tcg_out_opc opc r (if rm <? 0 then 0 else rm) (if index <? 0 then 0 else index) in
  l' ← tcg_out_sib_offset (code_ptr + Z.of_nat (length l)) r rm index shift offset; Ret (l ++ l').

Definition tcg_out_vex_modrm_sib_offset (code_ptr opc r v rm index shift offset : Z) : outcome (list Z) :=
  l ← tcg_out_vex_opc opc r v (if rm <? 0 then 0 else rm) (if index <? 0 then 0 else index);
  l' ← tcg_out_sib_offset (code_ptr + Z.of_nat (length l)) r rm index shift offset; Ret (l ++ l').

Definition tcg_out_modrm_offset (code_ptr opc r rm offset : Z) : outcome (list Z) :=
  tcg_out_modrm_sib_offset code_ptr opc r rm (-1) 0 offset.

Definition tcg_out_vex_modrm_offset (code_ptr opc r v rm offset : Z) : outcome (list Z) :=
  tcg_out_vex_modrm_sib_offset code_ptr opc r v rm (-1) 0 offset.

(** ** Instructions *)

(** [TCGType]; [TCG_TYPE_PTR] and [TCG_TYPE_REG] are [TCG_TYPE_I64]. *)
Inductive TCGType : Set := TCG_TYPE_I32 | TCG_TYPE_I64 | TCG_TYPE_V64 | TCG_TYPE_V128 | TCG_TYPE_V256.
Abbreviation TCG_TYPE_PTR := TCG_TYPE_I64.
Abbreviation TCG_TYPE_REG := TCG_TYPE_I64.

Definition tgen_arithr (subop dest src : Z) : list Z :=
  let ext := Z.land subop (Z.lnot 7) in
  let subop := Z.land subop 7 in
  tcg_out_modrm (OPC_ARITH_GvEv + Z.shiftl subop 3 + ext) dest src.

Definition tcg_out_mov (type : TCGType) (ret arg : Z) : outcome (list Z) :=
  if arg =? ret then Ret [] else
  match type with
  | TCG_TYPE_I64 | TCG_TYPE_I32 =>
      let rexw := match type with TCG_TYPE_I64 => P_REXW | _ => 0 end in
      if ret <? 16 then
        if arg <? 16 then Ret (tcg_out_modrm (OPC_MOVL_GvEv + rexw) ret arg)
        else tcg_out_vex_modrm (OPC_MOVD_EyVy + rexw) arg 0 ret
      else
        if arg <? 16 then tcg_out_vex_modrm (OPC_MOVD_VyEy + rexw) ret 0 arg
        else tcg_out_vex_modrm OPC_MOVQ_VqWq ret 0 arg
  | TCG_TYPE_V64 => tcg_out_vex_modrm OPC_MOVQ_VqWq ret 0 arg
  | TCG_TYPE_V128 => tcg_out_vex_modrm OPC_MOVDQA_VxWx ret 0 arg
  | TCG_TYPE_V256 => tcg_out_vex_modrm (Z.lor OPC_MOVDQA_VxWx P_VEXL) ret 0 arg
  end.

Definition tcg_out_ld128_aligned (code_ptr ret arg1 arg2 : Z) : outcome (list Z) :=
  tcg_out_vex_modrm_offset code_ptr OPC_MOVAPS_VxWx ret 0 arg1 arg2.

Definition tcg_out_st128_aligned (code_ptr arg arg1 arg2 : Z) : outcome (list Z) :=
  tcg_out_vex_modrm_offset code_ptr OPC_MOVAPS_WxVx arg 0 arg1 arg2.

(** Constants for general registers; [code_ptr] is where the code goes. *)
Definition tcg_out_movi (code_ptr : Z) (type : TCGType) (ret arg : Z) : list Z :=
  if arg =? 0 then tgen_arithr ARITH_XOR ret ret
  else if is_uint32 arg || match type with TCG_TYPE_I32 => true | _ => false end
  then tcg_out_opc (OPC_MOVL_Iv + LOWREGMASK ret) 0 ret 0 ++ tcg_out32 arg
  else if is_int32 arg then tcg_out_modrm (OPC_MOVL_EvIz + P_REXW) 0 ret ++ tcg_out32 arg
  else
    let diff := sext 64 (arg - (code_ptr + 7)) in
    if is_int32 diff
    then tcg_out_opc (Z.lor OPC_LEA P_REXW) ret 0 0 ++
         tcg_out8 (Z.lor (Z.shiftl (LOWREGMASK ret) 3) 5) ++ tcg_out32 diff
    else tcg_out_opc (OPC_MOVL_Iv + P_REXW + LOWREGMASK ret) 0 ret 0 ++ tcg_out64 arg.

Definition tcg_out_push (reg : Z) : list Z := tcg_out_opc (OPC_PUSH_r32 + LOWREGMASK reg) 0 reg 0.
Definition tcg_out_pop (reg : Z) : list Z := tcg_out_opc (OPC_POP_r32 + LOWREGMASK reg) 0 reg 0.

Definition tcg_out_ld (code_ptr : Z) (type : TCGType) (ret arg1 arg2 : Z) : outcome (list Z) :=
  match type with
  | TCG_TYPE_I32 =>
      if ret <? 16 then tcg_out_modrm_offset code_ptr OPC_MOVL_GvEv ret arg1 arg2
      else tcg_out_vex_modrm_offset code_ptr OPC_MOVD_VyEy ret 0 arg1 arg2
  | TCG_TYPE_I64 =>
      if ret <? 16 then tcg_out_modrm_offset code_ptr (Z.lor OPC_MOVL_GvEv P_REXW) ret arg1 arg2
      else tcg_out_vex_modrm_offset code_ptr OPC_MOVQ_VqWq ret 0 arg1 arg2
  | TCG_TYPE_V64 => tcg_out_vex_modrm_offset code_ptr OPC_MOVQ_VqWq ret 0 arg1 arg2
  | TCG_TYPE_V128 => tcg_out_vex_modrm_offset code_ptr OPC_MOVDQA_VxWx ret 0 arg1 arg2
  | TCG_TYPE_V256 =>
      tcg_out_vex_modrm_offset code_ptr (Z.lor OPC_MOVDQU_VxWx P_VEXL) ret 0 arg1 arg2
  end.

Definition tcg_out_st (code_ptr : Z) (type : TCGType) (arg arg1 arg2 : Z) : outcome (list Z) :=
  match type with
  | TCG_TYPE_I32 =>
      if arg <? 16 then tcg_out_modrm_offset code_ptr OPC_MOVL_EvGv arg arg1 arg2
      else tcg_out_vex_modrm_offset code_ptr OPC_MOVD_EyVy arg 0 arg1 arg2
  | TCG_TYPE_I64 =>
      if arg <? 16 then tcg_out_modrm_offset code_ptr (Z.lor OPC_MOVL_EvGv P_REXW) arg arg1 arg2
      else tcg_out_vex_modrm_offset code_ptr OPC_MOVQ_WqVq arg 0 arg1 arg2
  | TCG_TYPE_V64 => tcg_out_vex_modrm_offset code_ptr OPC_MOVQ_WqVq arg 0 arg1 arg2
  | TCG_TYPE_V128 => tcg_out_vex_modrm_offset code_ptr OPC_MOVDQA_WxVx arg 0 arg1 arg2
  | TCG_TYPE_V256 =>
      tcg_out_vex_modrm_offset code_ptr (Z.lor OPC_MOVDQU_WxVx P_VEXL) arg 0 arg1 arg2
  end.

Definition tcg_out_shifti (subopc reg count : Z) : list Z :=
  let ext := Z.land subopc (Z.lnot 7) in
  let subopc := Z.land subopc 7 in
  if count =? 1 then tcg_out_modrm (OPC_SHIFT_1 + ext) subopc reg
  else tcg_out_modrm (OPC_SHIFT_Ib + ext) subopc reg ++ tcg_out8 count.

Definition tgen_arithi (c r0 val : Z) (cf : bool) : outcome (list Z) :=
  let rexw := Z.land c (-8) in
  let c := Z.land c 7 in
  if negb cf && ((c =? ARITH_ADD) || (c =? ARITH_SUB)) && ((val =? 1) || (val =? -1)) then
    let is_inc := xorb (c =? ARITH_ADD) (val <? 0) in
    Ret (tcg_out_modrm (OPC_GRP5 + rexw) (if is_inc then EXT5_INC_Ev else EXT5_DEC_Ev) r0)
  else if (c =? ARITH_AND) && (val =? 0xffffffff) then Ret (tcg_out_modrm OPC_MOVL_GvEv r0 r0)
  else
    let rexw := if (c =? ARITH_AND) && is_uint32 val then 0 else rexw in
    if (c =? ARITH_AND) && (val =? 0xff) then Ret (tcg_out_modrm (OPC_MOVZBL + P_REXB_RM) r0 r0)
    else if (c =? ARITH_AND) && (val =? 0xffff) then Ret (tcg_out_modrm OPC_MOVZWL r0 r0)
    else if is_int8 val then Ret (tcg_out_modrm (OPC_ARITH_EvIb + rexw) c r0 ++ tcg_out8 val)
    else if (rexw =? 0) || is_int32 val then Ret (tcg_out_modrm (OPC_ARITH_EvIz + rexw) c r0 ++ tcg_out32 val)
    else Stop Aborted.

Definition tcg_out_addi (reg val : Z) : outcome (list Z) :=
  if negb (val =? 0) then tgen_arithi (ARITH_ADD + P_REXW) reg val false else Ret [].

Definition tcg_out_addi_ptr (code_ptr reg val : Z) : outcome (list Z) :=
  if negb (val =? 0) then
    if is_int8 val then
      l ← tcg_out_modrm_offset code_ptr (OPC_ARITH_EvIb + P_REXW) ARITH_ADD reg 0; Ret (l ++ tcg_out8 val)
    else
      l ← tcg_out_modrm_offset code_ptr (OPC_ARITH_EvIz + P_REXW) ARITH_ADD reg 0; Ret (l ++ tcg_out32 (u32 val))
  else Ret [].

(** A target out of reach is put into the constant pool behind the code; the
    displacement of that access is filled in when the code is finalized. *)
Definition tcg_out_branch (code_ptr : Z) (call : bool) (dest : Z) : list Z :=
  let disp := sext 64 (dest - code_ptr - 5) in
  if is_int32 disp then tcg_out_opc (if call then OPC_CALL_Jz else OPC_JMP_long) 0 0 0 ++ tcg_out32 disp
  else tcg_out_opc OPC_GRP5 0 0 0 ++
       tcg_out8 (Z.lor (Z.shiftl (if call then EXT5_CALLN_Ev else EXT5_JMPN_Ev) 3) 5) ++ tcg_out32 0.

Definition tcg_out_call (code_ptr dest : Z) : list Z := tcg_out_branch code_ptr true dest.
Definition tcg_out_jmp (code_ptr dest : Z) : list Z := tcg_out_branch code_ptr false dest.

(** ** Calls of these functions *)

Inductive emit : Set :=
| E_ld (t : TCGType) (ret arg1 arg2 : Z)
| E_st (t : TCGType) (arg arg1 arg2 : Z)
| E_ld128 (ret arg1 arg2 : Z)
| E_st128 (arg arg1 arg2 : Z)
| E_mov (t : TCGType) (ret arg : Z)
| E_movi (t : TCGType) (ret arg : Z)
| E_addi (reg val : Z)
| E_addi_ptr (reg val : Z)
| E_push (reg : Z)
| E_pop (reg : Z)
| E_shifti (subopc reg count : Z)
| E_out8 (bytes : list Z)
| E_call (dest : Z)
| E_jmp (dest : Z)
| E_jmp_reg (reg : Z)
| E_vzeroupper
| E_ret.

Definition emit_bytes (code_ptr : Z) (e : emit) : outcome (list Z) :=
  match e with
  | E_ld t r b o => tcg_out_ld code_ptr t r b o
  | E_st t r b o => tcg_out_st code_ptr t r b o
  | E_ld128 r b o => tcg_out_ld128_aligned code_ptr r b o
  | E_st128 r b o => tcg_out_st128_aligned code_ptr r b o
  | E_mov t d r => tcg_out_mov t d r
  | E_movi t r v => Ret (tcg_out_movi code_ptr t r v)
  | E_addi r v => tcg_out_addi r v
  | E_addi_ptr r v => tcg_out_addi_ptr code_ptr r v
  | E_push r => Ret (tcg_out_push r)
  | E_pop r => Ret (tcg_out_pop r)
  | E_shifti c r n => Ret (tcg_out_shifti c r n)
  | E_out8 l => Ret (flat_map tcg_out8 l)
  | E_call d => Ret (tcg_out_call code_ptr d)
  | E_jmp d => Ret (tcg_out_jmp code_ptr d)
  | E_jmp_reg r => Ret (tcg_out_modrm OPC_GRP5 EXT5_JMPN_Ev r)
  | E_vzeroupper => tcg_out_vex_opc OPC_VZEROUPPER 0 0 0 0
  | E_ret => Ret (tcg_out_opc OPC_RET 0 0 0)
  end.

Fixpoint assemble (code_ptr : Z) (es : list emit) : outcome (list Z) :=
  match es with
  | [] => Ret []
  | e :: es =>
      l ← emit_bytes code_ptr e;
      l' ← assemble (code_ptr + Z.of_nat (length l)) es;
      Ret (l ++ l')
  end.

(** ** The instruction that is meant *)

Definition type_width (t : TCGType) : width := match t with TCG_TYPE_I32 => W32 | _ => W64 end.

Definition insn_of (code_ptr : Z) (e : emit) : option insn :=
  match e with
  | E_ld t r b o => Some (ILoad (type_width t) r b o)
  | E_st t r b o => Some (IStore (type_width t) r b o)
  | E_ld128 r b o => Some (IMovapsLoad (r - 16) b o)
  | E_st128 r b o => Some (IMovapsStore (r - 16) b o)
  | E_mov t d r =>
      if r =? d then None
      else if r <? 16 then Some (IMov (type_width t) d r) else Some (IMovqFromXmm (type_width t) d (r - 16))
  | E_movi t r v =>
      Some (if v =? 0 then IXor W32 r r else IMovImm r (wrap (wbits (type_width t)) v))
  | E_addi r v => if v =? 0 then None else Some (IAdd W64 r v)
  | E_addi_ptr r v => if v =? 0 then None else Some (IAddMem r 0 v)
  | E_push r => Some (IPush r)
  | E_pop r => Some (IPop r)
  | E_shifti c r n => Some (IShr (if has c P_REXW then W64 else W32) r n)
  | E_out8 l => match decode code_ptr l with Some (i, _) => Some i | None => None end
  | E_call d => Some (ICall d)
  | E_jmp d => Some (IJmp d)
  | E_jmp_reg r => Some (IJmpReg r)
  | E_vzeroupper => Some IVzeroupper
  | E_ret => Some IRet
  end.

Definition is_reg (r : Z) : bool := (0 <=? r) && (r <? 16).
Definition is_xreg (r : Z) : bool := (16 <=? r) && (r <? 32).
Definition int_type (t : TCGType) : bool := match t with TCG_TYPE_I32 | TCG_TYPE_I64 => true | _ => false end.

(** Bytes written one by one. *)
Definition literal_ok (l : list Z) : bool :=
  existsb (λ k, bool_decide (l = k))
    [[0x0f; 0xbe; 0xc0]; [0x0f; 0xbf; 0xc0]; [0x0f; 0xb6; 0xc0]; [0x0f; 0xb7; 0xc0];
     [0x0f; 0xbe; 0xc9]; [0x0f; 0xbf; 0xc9]; [0x0f; 0xb6; 0xc9]; [0x0f; 0xb7; 0xc9];
     [0xf3; 0xa4]; [0x41; 0xff; 0xd3]; [0x48; 0x29; 0xcc]; [0x85; 0xc0]; [0x74; 65]].

(** The calls the bridge makes; branches are within reach. *)
Definition valid (code_ptr : Z) (e : emit) : bool :=
  match e with
  | E_ld t r b o | E_st t r b o => int_type t && is_reg r && is_reg b && is_int32 o
  | E_ld128 r b o | E_st128 r b o => is_xreg r && is_reg b && is_int32 o
  | E_mov t d r => int_type t && is_reg d && (is_reg r || is_xreg r)
  | E_movi t r v => int_type t && is_reg r && (sext 64 v =? v)
  | E_addi r v => is_reg r && is_int32 v
  | E_addi_ptr r v => is_reg r && is_int32 v
  | E_push r | E_pop r => is_reg r
  | E_shifti c r n => ((c =? SHIFT_SHR) || (c =? SHIFT_SHR + P_REXW)) && is_reg r && (0 <=? n) && (n <? 64)
  | E_out8 l => literal_ok l
  | E_call d | E_jmp d => is_int32 (d - code_ptr - 5)
  | E_jmp_reg r => is_reg r
  | E_vzeroupper => true
  | E_ret => true
  end.

(** ** Decoding the parts *)

(** A number below 16, by cases. *)
Ltac each_reg H :=
  let K := fresh in
  match type of H with
  | is_reg ?r = true =>
      assert (r = 0 ∨ r = 1 ∨ r = 2 ∨ r = 3 ∨ r = 4 ∨ r = 5 ∨ r = 6 ∨ r = 7 ∨
              r = 8 ∨ r = 9 ∨ r = 10 ∨ r = 11 ∨ r = 12 ∨ r = 13 ∨ r = 14 ∨ r = 15) as K
        by (unfold is_reg in H; btests; lia);
      clear H; destruct_or! K; subst r
  end.

Lemma sext_int n x : 0 < n → sext (8 * n) x = x → sext (8 * n) (le_val (le_bytes (Z.to_nat n) x)) = x.
Proof.
  intros Hn Hx. rewrite le_val_bytes, Z2Nat.id by lia. replace (256 ^ n) with (2 ^ (8 * n)) by (rewrite Z.pow_mul_r by lia; done).
  rewrite <- Hx at 2. unfold sext, wrap. by rewrite Z.mod_mod by (apply Z.pow_nonzero; lia).
Qed.

Lemma get_disp_le n x rest : 0 < n → sext (8 * n) x = x → get_disp n (le_bytes (Z.to_nat n) x ++ rest) = Some (x, rest).
Proof.
  intros Hn Hx. unfold get_disp. rewrite take_app_length' by (by rewrite length_le_bytes).
  rewrite drop_app_length' by (by rewrite length_le_bytes). rewrite length_le_bytes, Nat.eqb_refl. by rewrite sext_int.
Qed.

Lemma get_disp_8 x rest : is_int8 x = true → get_disp 1 (tcg_out8 x ++ rest) = Some (x, rest).
Proof. unfold is_int8. intros ?%Z.eqb_eq. by apply (get_disp_le 1). Qed.

Lemma get_disp_32 x rest : is_int32 x = true → get_disp 4 (tcg_out32 x ++ rest) = Some (x, rest).
Proof. unfold is_int32. intros ?%Z.eqb_eq. by apply (get_disp_le 4). Qed.

(** The operand byte of two registers. *)
Lemma modrm_regs_ok r rm rest : is_reg r = true → is_reg rm = true →
  modrm (r / 8) 0 (rm / 8) (tcg_out8 (modrm_regs r rm) ++ rest) = Some (r, OReg rm, rest).
Proof. intros Hr Hm. each_reg Hr; each_reg Hm; reflexivity. Qed.

(** A base register and a displacement. *)
Definition base_offset (r rm offset : Z) : list Z :=
  let '(md, len) :=
    if (offset =? 0) && negb (LOWREGMASK rm =? TCG_REG_RBP) then (0, 0)
    else if is_int8 offset then (0x40, 1) else (0x80, 4) in
  (if negb (LOWREGMASK rm =? TCG_REG_RSP)
   then tcg_out8 (Z.lor md (Z.lor (Z.shiftl (LOWREGMASK r) 3) (LOWREGMASK rm)))
   else tcg_out8 (Z.lor md (Z.lor (Z.shiftl (LOWREGMASK r) 3) 4)) ++
        tcg_out8 (Z.lor (Z.shiftl (LOWREGMASK 4) 3) (LOWREGMASK rm))) ++
  (if len =? 1 then tcg_out8 offset else if len =? 4 then tcg_out32 offset else []).

Lemma sib_offset_base code_ptr r rm off : is_reg rm = true → tcg_out_sib_offset code_ptr r rm (-1) 0 off = Ret (base_offset r rm off).
Proof.
  intros Hm. unfold tcg_out_sib_offset, base_offset.
  assert ((rm <? 0) = false) as -> by (unfold is_reg in Hm; btests; apply Z.ltb_ge; lia).
  by destruct ((off =? 0) && _); [|destruct (is_int8 off)].
Qed.

Lemma modrm_offset_base code_ptr opc r rm off : is_reg rm = true →
  tcg_out_modrm_offset code_ptr opc r rm off = Ret (tcg_out_opc opc r rm 0 ++ base_offset r rm off).
Proof.
  intros Hm. unfold tcg_out_modrm_offset, tcg_out_modrm_sib_offset. rewrite sib_offset_base by done.
  by assert ((rm <? 0) = false) as -> by (unfold is_reg in Hm; btests; apply Z.ltb_ge; lia).
Qed.

Lemma vex_modrm_offset_base code_ptr opc r v rm off : is_reg rm = true →
  tcg_out_vex_modrm_offset code_ptr opc r v rm off = l ← tcg_out_vex_opc opc r v rm 0; Ret (l ++ base_offset r rm off).
Proof.
  intros Hm. unfold tcg_out_vex_modrm_offset, tcg_out_vex_modrm_sib_offset.
  assert ((rm <? 0) = false) as -> by (unfold is_reg in Hm; btests; apply Z.ltb_ge; lia).
  cbn [Z.ltb Z.compare]. destruct (tcg_out_vex_opc _ _ _ _ _); [|done]. cbn [mbind outcome_bind]. by rewrite sib_offset_base.
Qed.

Lemma modrm_mem_ok r rm off rest : is_reg r = true → is_reg rm = true → is_int32 off = true →
  modrm (r / 8) 0 (rm / 8) (base_offset r rm off ++ rest) = Some (r, OMem rm off, rest).
Proof.
  intros Hr Hm Ho. unfold base_offset.
  destruct ((off =? 0) && negb (LOWREGMASK rm =? TCG_REG_RBP)) eqn:H0.
  - apply andb_prop in H0 as [->%Z.eqb_eq Hb]. cbn [Z.eqb]. clear Ho.
    each_reg Hm; try discriminate Hb; each_reg Hr; reflexivity.
  - destruct (is_int8 off) eqn:H8; cbn [Z.eqb Pos.eqb]; clear H0; rewrite <- app_assoc.
    + pose proof (get_disp_8 off rest H8) as Hd. clear Ho H8. revert Hd. generalize (tcg_out8 off ++ rest). intros l Hd.
      each_reg Hm; each_reg Hr; lazy -[get_disp]; rewrite Hd; reflexivity.
    + pose proof (get_disp_32 off rest Ho) as Hd. clear Ho H8. revert Hd. generalize (tcg_out32 off ++ rest). intros l Hd.
      each_reg Hm; each_reg Hr; lazy -[get_disp]; rewrite Hd; reflexivity.
Qed.

(** *** Prefix and opcode *)

Definition rex_prefix (W R B : Z) : list Z := if 8 * W + 4 * R + B =? 0 then [] else [0x40 + (8 * W + 4 * R + B)].

(** The opcodes without an escape byte. *)
Definition plain_opcodes : list Z :=
  [0x8b; 0x89; 0x8d; 0xc7; 0x81; 0x83; 0xff; 0x33; 0xc1; 0xd1; 0xc3; 0xe8; 0xe9] ++ seqZ 0x50 16 ++ seqZ 0xb8 8.

Lemma forallb_elem {A} (f : A → bool) l x : forallb f l = true → x ∈ l → f x = true.
Proof. intros H Hx. rewrite forallb_forall in H. by apply H, list_elem_of_In. Qed.

Lemma is_reg_seq r : is_reg r = true → r ∈ seqZ 0 16.
Proof. unfold is_reg. intros H. apply elem_of_seqZ. btests. lia. Qed.

Lemma opc_bytes op W r rm : op ∈ plain_opcodes → W ∈ [0; 1] → is_reg r = true → is_reg rm = true →
  tcg_out_opc (op + W * P_REXW) r rm 0 = rex_prefix W (r / 8) (rm / 8) ++ [op].
Proof.
  intros Hop HW Hr Hm.
  assert (forallb (λ op, forallb (λ W, forallb (λ r, forallb (λ rm,
    bool_decide (tcg_out_opc (op + W * P_REXW) r rm 0 = rex_prefix W (r / 8) (rm / 8) ++ [op]))
    (seqZ 0 16)) (seqZ 0 16)) [0; 1]) plain_opcodes = true) as H by (vm_compute; reflexivity).
  pose proof (forallb_elem _ _ _ H Hop) as H1. pose proof (forallb_elem _ _ _ H1 HW) as H2.
  pose proof (forallb_elem _ _ _ H2 (is_reg_seq _ Hr)) as H3. pose proof (forallb_elem _ _ _ H3 (is_reg_seq _ Hm)) as H4.
  by apply bool_decide_eq_true in H4.
Qed.

Lemma high_bit r : is_reg r = true → r / 8 ∈ [0; 1].
Proof. intros H. by each_reg H; vm_compute; repeat constructor. Qed.

Lemma decode_opc here op W R B l : op ∈ plain_opcodes → W ∈ [0; 1] → R ∈ [0; 1] → B ∈ [0; 1] →
  decode here (rex_prefix W R B ++ op :: l) =
    opcode here (rex_prefix W R B ++ op :: l) W R 0 B (negb (8 * W + 4 * R + B =? 0)) (op :: l).
Proof.
  intros Hop HW HR HB.
  assert ((op =? 0xf3) = false ∧ (op =? 0xc5) = false ∧ (op =? 0xc4) = false ∧ (0x40 <=? op) && (op <=? 0x4f) = false) as (H1 & H2 & H3 & H4).
  { assert (forallb (λ op, negb (op =? 0xf3) && negb (op =? 0xc5) && negb (op =? 0xc4) && negb ((0x40 <=? op) && (op <=? 0x4f)))
      plain_opcodes = true) as H by (vm_compute; reflexivity).
    pose proof (forallb_elem _ _ _ H Hop) as Ho. simpl in Ho. rewrite !andb_true_iff, !negb_true_iff in Ho. tauto. }
  repeat (apply elem_of_cons in HW as [->|HW]; [|]); try by apply not_elem_of_nil in HW.
  all: repeat (apply elem_of_cons in HR as [->|HR]; [|]); try by apply not_elem_of_nil in HR.
  all: repeat (apply elem_of_cons in HB as [->|HB]; [|]); try by apply not_elem_of_nil in HB.
  all: try reflexivity.
  change (rex_prefix 0 0 0) with (@nil Z). cbn [app decode]. by rewrite H1, H2, H3, H4.
Qed.

(** What an emitted piece of code decodes to. *)
Definition emits (here : Z) (l : list Z) (i : insn) : Prop :=
  l ≠ [] ∧ ∀ rest, decode here (l ++ rest) = Some (i, Z.of_nat (length l)).

Lemma size_to_app l rest : size_to (l ++ rest) rest = Z.of_nat (length l).
Proof. unfold size_to. rewrite length_app. lia. Qed.

(** An opcode followed by its operands, once [opcode] reads them. *)
Lemma emits_opc here op W r rm tail i :
  op ∈ plain_opcodes → W ∈ [0; 1] → is_reg r = true → is_reg rm = true →
  let l := tcg_out_opc (op + W * P_REXW) r rm 0 ++ tail in
  (∀ all rest rex, size_to all rest = Z.of_nat (length l) →
    opcode here all W (r / 8) 0 (rm / 8) rex (op :: tail ++ rest) = Some (i, Z.of_nat (length l))) →
  emits here l i.
Proof.
  intros Hop HW Hr Hm l Hi. split.
  - unfold l. rewrite opc_bytes by done. unfold rex_prefix. case_match; done.
  - intros rest. pose proof (size_to_app l rest) as Hs. revert Hs Hi. generalize (Z.of_nat (length l)). unfold l.
    rewrite <- app_assoc. rewrite opc_bytes by done. rewrite <- app_assoc. cbn [app]. intros z Hs Hi.
    rewrite decode_opc by (done || by apply high_bit). by apply Hi.
Qed.

(** *** Single instructions *)

Ltac plain_op := by vm_compute; repeat constructor.
Ltac emitted H := unfold done_at; cbn -[Z.add Z.mul]; rewrite H; reflexivity.

Lemma emits_load here W r b o : W ∈ [0; 1] → is_reg r = true → is_reg b = true → is_int32 o = true →
  emits here (tcg_out_opc (0x8b + W * P_REXW) r b 0 ++ base_offset r b o) (ILoad (if W =? 1 then W64 else W32) r b o).
Proof.
  intros HW Hr Hb Ho. apply emits_opc; [plain_op|done..|]. intros all rest rex Hs.
  cbn -[modrm]. rewrite modrm_mem_ok by done. emitted Hs.
Qed.

Lemma emits_store here W r b o : W ∈ [0; 1] → is_reg r = true → is_reg b = true → is_int32 o = true →
  emits here (tcg_out_opc (0x89 + W * P_REXW) r b 0 ++ base_offset r b o) (IStore (if W =? 1 then W64 else W32) r b o).
Proof.
  intros HW Hr Hb Ho. apply emits_opc; [plain_op|done..|]. intros all rest rex Hs.
  cbn -[modrm]. rewrite modrm_mem_ok by done. emitted Hs.
Qed.

Lemma emits_mov here W r q : W ∈ [0; 1] → is_reg r = true → is_reg q = true →
  emits here (tcg_out_modrm (0x8b + W * P_REXW) r q) (IMov (if W =? 1 then W64 else W32) r q).
Proof.
  intros HW Hr Hq. apply emits_opc; [plain_op|done..|]. intros all rest rex Hs.
  cbn -[modrm tcg_out8]. rewrite modrm_regs_ok by done. emitted Hs.
Qed.

Lemma emits_xor here r : is_reg r = true → emits here (tgen_arithr ARITH_XOR r r) (IXor W32 r r).
Proof.
  intros Hr. change (tgen_arithr ARITH_XOR r r) with (tcg_out_modrm (0x33 + 0 * P_REXW) r r).
  apply emits_opc; [plain_op|plain_op|done..|]. intros all rest rex Hs.
  cbn -[modrm tcg_out8]. rewrite modrm_regs_ok by done. emitted Hs.
Qed.

(** A register in the opcode byte. *)
Lemma low_reg r : is_reg r = true → 0 ≤ LOWREGMASK r < 8 ∧ LOWREGMASK r + 8 * (r / 8) = r.
Proof. intros Hr. by each_reg Hr. Qed.

Lemma short_opcode base r : base ∈ [0x50; 0x58; 0xb8] → is_reg r = true → base + LOWREGMASK r ∈ plain_opcodes.
Proof.
  intros Hb Hr. destruct (low_reg r Hr) as [Hl _]. unfold plain_opcodes. rewrite !elem_of_app, !elem_of_seqZ.
  repeat (apply elem_of_cons in Hb as [->|Hb]; [|]); [lia..|by apply not_elem_of_nil in Hb].
Qed.

Lemma emits_push here r : is_reg r = true → emits here (tcg_out_push r) (IPush r).
Proof.
  intros Hr. destruct (low_reg r Hr) as [Hl Hlow]. unfold tcg_out_push.
  rewrite <- (app_nil_r (tcg_out_opc _ _ _ _)). replace (OPC_PUSH_r32 + LOWREGMASK r) with (0x50 + LOWREGMASK r + 0 * P_REXW) by (unfold OPC_PUSH_r32; lia).
  apply emits_opc; [apply short_opcode; [plain_op|done]|plain_op|done..|]. intros all rest rex Hs.
  cbn [opcode app]. rewrite (proj2 (Z.eqb_neq _ 0x0f)), (proj2 (Z.leb_le 0x50 _)), (proj2 (Z.leb_le _ 0x57)) by lia.
  cbn [andb]. unfold done_at. rewrite Hs. do 3 f_equal. lia.
Qed.

Lemma emits_pop here r : is_reg r = true → emits here (tcg_out_pop r) (IPop r).
Proof.
  intros Hr. destruct (low_reg r Hr) as [Hl Hlow]. unfold tcg_out_pop.
  rewrite <- (app_nil_r (tcg_out_opc _ _ _ _)). replace (OPC_POP_r32 + LOWREGMASK r) with (0x58 + LOWREGMASK r + 0 * P_REXW) by (unfold OPC_POP_r32; lia).
  apply emits_opc; [apply short_opcode; [plain_op|done]|plain_op|done..|]. intros all rest rex Hs.
  cbn [opcode app]. rewrite (proj2 (Z.eqb_neq _ 0x0f)), (proj2 (Z.leb_gt _ 0x57)), (proj2 (Z.leb_le 0x58 _)), (proj2 (Z.leb_le _ 0x5f)) by lia.
  rewrite andb_false_r. cbn [andb]. unfold done_at. rewrite Hs. do 3 f_equal. lia.
Qed.

(** *** Constants *)

Lemma wrap_sext n x : 0 ≤ n → wrap n (sext n x) = wrap n x.
Proof.
  intros Hn. assert (2 ^ n ≠ 0) by (apply Z.pow_nonzero; lia). unfold sext, wrap. case_match; [by rewrite Z.mod_mod|].
  rewrite <- (Z.mod_add (_ - _) 1) by done.
  replace (x mod 2 ^ n - 2 ^ n + 1 * 2 ^ n) with (x mod 2 ^ n) by lia. by rewrite Z.mod_mod.
Qed.

(** An immediate of [n] bytes, modulo its width. *)
Lemma get_imm n x rest : 0 < n → ∃ y, get_disp n (le_bytes (Z.to_nat n) x ++ rest) = Some (y, rest) ∧ wrap (8 * n) y = wrap (8 * n) x.
Proof.
  intros Hn. unfold get_disp. rewrite take_app_length' by (by rewrite length_le_bytes).
  rewrite drop_app_length' by (by rewrite length_le_bytes). rewrite length_le_bytes, Nat.eqb_refl. eexists. split; [done|].
  rewrite wrap_sext by lia. rewrite le_val_bytes, Z2Nat.id by lia.
  replace (256 ^ n) with (2 ^ (8 * n)) by (rewrite Z.pow_mul_r by lia; done). unfold wrap. by rewrite Z.mod_mod by (apply Z.pow_nonzero; lia).
Qed.

Lemma emits_movi_Iv here W r v : W ∈ [0; 1] → is_reg r = true →
  let w := if W =? 1 then W64 else W32 in
  emits here (tcg_out_opc (0xb8 + LOWREGMASK r + W * P_REXW) 0 r 0 ++ le_bytes (Z.to_nat (wbytes w)) v) (IMovImm r (wrap (wbits w) v)).
Proof.
  intros HW Hr w. destruct (low_reg r Hr) as [Hl Hlow].
  apply emits_opc; [apply short_opcode; [plain_op|done]|done..|]. intros all rest rex Hs.
  destruct (get_imm (wbytes w) v rest) as (y & Hy & Heq); [by destruct w|].
  cbn [opcode]. rewrite (proj2 (Z.eqb_neq _ 0x0f)), (proj2 (Z.leb_gt _ 0x57)), (proj2 (Z.leb_gt _ 0x5f)) by lia.
  rewrite !andb_false_r, (proj2 (Z.leb_le 0xb8 _)), (proj2 (Z.leb_le _ 0xbf)) by lia. cbn [andb]. fold w.
  rewrite Hy. cbn [mbind option_bind]. unfold done_at. rewrite Hs. do 3 f_equal; [lia|done].
Qed.

Lemma emits_movi_EvIz here r v : is_reg r = true → is_int32 v = true →
  emits here (tcg_out_modrm (0xc7 + 1 * P_REXW) 0 r ++ tcg_out32 v) (IMovImm r (wrap 64 v)).
Proof.
  intros Hr Hv. unfold tcg_out_modrm. rewrite <- app_assoc. apply emits_opc; [plain_op|plain_op|done..|]. intros all rest rex Hs.
  rewrite <- app_assoc. cbn -[modrm tcg_out8 tcg_out32]. rewrite (modrm_regs_ok 0) by done. cbn -[get_disp tcg_out32].
  rewrite get_disp_32 by done. emitted Hs.
Qed.

Lemma modrm_rip r x rest : is_reg r = true →
  modrm (r / 8) 0 0 (tcg_out8 (Z.lor (Z.shiftl (LOWREGMASK r) 3) 5) ++ x ++ rest) = ('(d, l) ← get_disp 4 (x ++ rest); Some (r, ORip d, l)).
Proof. intros Hr. generalize (x ++ rest). intros l. by each_reg Hr. Qed.

Lemma emits_lea here r v : is_reg r = true → let diff := sext 64 (v - (here + 7)) in is_int32 diff = true →
  emits here (tcg_out_opc (0x8d + 1 * P_REXW) r 0 0 ++ tcg_out8 (Z.lor (Z.shiftl (LOWREGMASK r) 3) 5) ++ tcg_out32 diff)
    (IMovImm r (wrap 64 v)).
Proof.
  intros Hr diff Hd. apply emits_opc; [plain_op|plain_op|done..|]. intros all rest rex Hs.
  rewrite <- app_assoc. cbn -[modrm tcg_out8 tcg_out32 Z.div]. change (0 / 8) with 0. rewrite modrm_rip by done.
  rewrite get_disp_32 by done. cbn [mbind option_bind Z.eqb Pos.eqb]. unfold done_at. rewrite Hs.
  assert (Z.of_nat (length (tcg_out_opc (141 + 1 * P_REXW) r 0 0 ++ tcg_out8 (Z.lor (LOWREGMASK r ≪ 3) 5) ++ tcg_out32 diff)) = 7) as ->.
  { unfold tcg_out32. rewrite opc_bytes by (plain_op || done). rewrite !length_app, length_le_bytes. by each_reg Hr. }
  do 3 f_equal. pose proof (wrap_sext 64 (v - (here + 7))) as Hw. fold diff in Hw. unfold wrap in *.
  rewrite <- Zplus_mod_idemp_r, Hw, Zplus_mod_idemp_r by lia. f_equal. lia.
Qed.

Lemma emits_movi here t r v : int_type t = true → is_reg r = true → sext 64 v = v →
  emits here (tcg_out_movi here t r v) (if v =? 0 then IXor W32 r r else IMovImm r (wrap (wbits (type_width t)) v)).
Proof.
  intros Ht Hr Hv. unfold tcg_out_movi. destruct (v =? 0); [by apply emits_xor|].
  destruct (is_uint32 v || _) eqn:H32.
  - replace (wrap (wbits (type_width t)) v) with (wrap (wbits W32) v).
    + replace (OPC_MOVL_Iv + LOWREGMASK r) with (0xb8 + LOWREGMASK r + 0 * P_REXW) by (unfold OPC_MOVL_Iv; lia).
      apply (emits_movi_Iv here 0); [plain_op|done].
    + destruct t; try done. rewrite orb_false_r in H32. unfold is_uint32 in H32. apply Z.eqb_eq in H32.
      change (wbits W32) with 32. rewrite H32. change (wbits _) with 64. symmetry. apply wrap_small. rewrite <- H32.
      unfold in_u, wrap. pose proof (Z.mod_pos_bound v (2 ^ 32)). lia.
  - destruct t; [by rewrite orb_true_r in H32| |done..]. destruct (is_int32 v) eqn:Hi; [by apply emits_movi_EvIz|].
    case_match eqn:Hd; [by apply emits_lea|].
    replace (OPC_MOVL_Iv + P_REXW + LOWREGMASK r) with (0xb8 + LOWREGMASK r + 1 * P_REXW) by (unfold OPC_MOVL_Iv; lia).
    apply (emits_movi_Iv here 1); [plain_op|done].
Qed.

(** *** Arithmetic *)

Lemma emits_addi here r v l : is_reg r = true → is_int32 v = true → v ≠ 0 →
  tcg_out_addi r v = Ret l → emits here l (IAdd W64 r v).
Proof.
  intros Hr Hv Hv0. unfold tcg_out_addi. rewrite (proj2 (Z.eqb_neq v 0)) by done. unfold tgen_arithi.
  change (Z.land (ARITH_ADD + P_REXW) (-8)) with P_REXW. change (Z.land (ARITH_ADD + P_REXW) 7) with 0. cbn [Z.eqb negb andb orb ARITH_ADD ARITH_SUB ARITH_AND].
  destruct ((v =? 1) || (v =? -1)) eqn:H1.
  - intros [= <-].
    assert (v = 1 ∨ v = -1) as [-> | ->] by (apply orb_prop in H1; btests; lia).
    + apply (emits_opc here 0xff 1 0 r); [plain_op|plain_op|done..|]. intros all rest rex Hs.
      cbn -[modrm tcg_out8]. rewrite (modrm_regs_ok 0) by done. emitted Hs.
    + apply (emits_opc here 0xff 1 1 r); [plain_op|plain_op|done..|]. intros all rest rex Hs.
      cbn -[modrm tcg_out8]. rewrite (modrm_regs_ok 1) by done. emitted Hs.
  - destruct (is_int8 v) eqn:H8; [|rewrite Hv, orb_true_r]; intros [= <-]; unfold tcg_out_modrm; rewrite <- app_assoc.
    + apply (emits_opc here 0x83 1 0 r); [plain_op|plain_op|done..|]. intros all rest rex Hs. rewrite <- app_assoc.
      cbn -[modrm tcg_out8]. rewrite (modrm_regs_ok 0) by done. cbn -[get_disp tcg_out8]. rewrite get_disp_8 by done. emitted Hs.
    + apply (emits_opc here 0x81 1 0 r); [plain_op|plain_op|done..|]. intros all rest rex Hs. rewrite <- app_assoc.
      cbn -[modrm tcg_out8 tcg_out32]. rewrite (modrm_regs_ok 0) by done. cbn -[get_disp tcg_out32]. rewrite get_disp_32 by done. emitted Hs.
Qed.

Lemma tcg_out_addi_ret r v : is_int32 v = true → ∃ l, tcg_out_addi r v = Ret l.
Proof.
  intros Hv. unfold tcg_out_addi, tgen_arithi. rewrite Hv, orb_true_r.
  change (Z.land (ARITH_ADD + P_REXW) 7) with 0. cbn [Z.eqb negb andb orb ARITH_ADD ARITH_SUB ARITH_AND]. repeat case_match; eauto.
Qed.

Lemma tcg_out32_u32 v : tcg_out32 (u32 v) = tcg_out32 v.
Proof. apply le_bytes_ext. unfold wrap. by rewrite Z.mod_mod. Qed.

Lemma emits_addi_ptr here r v : is_reg r = true → is_int32 v = true → v ≠ 0 →
  ∃ l, tcg_out_addi_ptr here r v = Ret l ∧ emits here l (IAddMem r 0 v).
Proof.
  intros Hr Hv Hv0. unfold tcg_out_addi_ptr. rewrite (proj2 (Z.eqb_neq v 0)) by done. cbn [negb]. rewrite tcg_out32_u32.
  rewrite !modrm_offset_base by done. cbn [mbind outcome_bind].
  destruct (is_int8 v) eqn:H8; eexists; (split; [reflexivity|]); rewrite <- app_assoc.
  - apply (emits_opc here 0x83 1 0 r); [plain_op|plain_op|done..|]. intros all rest rex Hs. rewrite <- app_assoc.
    cbn -[modrm tcg_out8 base_offset]. rewrite (modrm_mem_ok 0) by done. cbn -[get_disp tcg_out8]. rewrite get_disp_8 by done. emitted Hs.
  - apply (emits_opc here 0x81 1 0 r); [plain_op|plain_op|done..|]. intros all rest rex Hs. rewrite <- app_assoc.
    cbn -[modrm tcg_out8 tcg_out32 base_offset]. rewrite (modrm_mem_ok 0) by done. cbn -[get_disp tcg_out32].
    rewrite get_disp_32 by done. emitted Hs.
Qed.

Lemma emits_shifti here W r n : W ∈ [0; 1] → is_reg r = true → 0 ≤ n < 64 →
  emits here (tcg_out_shifti (SHIFT_SHR + W * P_REXW) r n) (IShr (if W =? 1 then W64 else W32) r n).
Proof.
  intros HW Hr Hn. unfold tcg_out_shifti.
  assert (Z.land (SHIFT_SHR + W * P_REXW) (Z.lnot 7) = W * P_REXW ∧ Z.land (SHIFT_SHR + W * P_REXW) 7 = 5) as [-> ->].
  { repeat (apply elem_of_cons in HW as [->|HW]; [done|]). by apply not_elem_of_nil in HW. }
  destruct (n =? 1) eqn:H1.
  - apply Z.eqb_eq in H1 as ->. apply emits_opc; [plain_op|done..|]. intros all rest rex Hs.
    cbn -[modrm tcg_out8]. rewrite (modrm_regs_ok 5) by done. emitted Hs.
  - unfold tcg_out_modrm. rewrite <- app_assoc. apply emits_opc; [plain_op|done..|]. intros all rest rex Hs. rewrite <- app_assoc.
    cbn -[modrm tcg_out8]. rewrite (modrm_regs_ok 5) by done. cbn -[get_disp tcg_out8]. rewrite get_disp_8.
    + cbn -[Z.add Z.mul wrap]. unfold done_at. rewrite Hs. do 3 f_equal. apply wrap_small. unfold in_u. lia.
    + unfold is_int8, sext. rewrite (wrap_small 8) by (unfold in_u; lia). change (2 ^ (8 - 1)) with 128.
      rewrite (proj2 (Z.ltb_lt n 128)) by lia. apply Z.eqb_refl.
Qed.

(** *** Control *)

Lemma emits_ret here : emits here (tcg_out_opc OPC_RET 0 0 0) IRet.
Proof. split; [done|]. intros rest. change (tcg_out_opc OPC_RET 0 0 0) with [0xc3]. cbn [app decode Z.eqb Z.leb Z.compare andb]. cbn. unfold done_at, size_to. cbn [length]. do 2 f_equal. lia. Qed.

Lemma emits_branch here call d : is_int32 (d - here - 5) = true →
  emits here (tcg_out_branch here call d) (if call then ICall d else IJmp d).
Proof.
  intros Hd. unfold tcg_out_branch. assert (sext 64 (d - here - 5) = d - here - 5) as ->.
  { unfold is_int32, sext in *. apply Z.eqb_eq in Hd. unfold wrap in *. pose proof (Z.mod_pos_bound (d - here - 5) (2 ^ 32)).
    change (2 ^ (64 - 1)) with (2 ^ 63). change (2 ^ (32 - 1)) with (2 ^ 31) in Hd.
    assert (- 2 ^ 31 ≤ d - here - 5 < 2 ^ 31) by (repeat case_match; btests; lia).
    destruct (decide (0 ≤ d - here - 5)).
    - rewrite Z.mod_small by lia. rewrite (proj2 (Z.ltb_lt _ _)) by lia. done.
    - rewrite <- (Z.mod_add _ 1), Z.mod_small by lia. rewrite (proj2 (Z.ltb_ge _ _)) by lia. lia. }
  rewrite Hd. destruct call.
  - apply (emits_opc here 0xe8 0 0 0); [plain_op|plain_op|done..|]. intros all rest rex Hs. cbn -[get_disp tcg_out32].
    rewrite get_disp_32 by done. cbn [mbind option_bind]. unfold done_at. rewrite Hs, length_app. unfold tcg_out32.
    rewrite length_le_bytes. change (tcg_out_opc _ _ _ _) with [0xe8]. cbn [length]. do 3 f_equal. lia.
  - apply (emits_opc here 0xe9 0 0 0); [plain_op|plain_op|done..|]. intros all rest rex Hs. cbn -[get_disp tcg_out32].
    rewrite get_disp_32 by done. cbn [mbind option_bind]. unfold done_at. rewrite Hs, length_app. unfold tcg_out32.
    rewrite length_le_bytes. change (tcg_out_opc _ _ _ _) with [0xe9]. cbn [length]. do 3 f_equal. lia.
Qed.

(** *** 128-bit registers *)

Lemma is_xreg_reg r : is_xreg r = true → is_reg (r - 16) = true.
Proof. unfold is_xreg, is_reg. intros H. btests. rewrite (proj2 (Z.leb_le _ _)), (proj2 (Z.ltb_lt _ _)) by lia. done. Qed.

(** The VEX prefix and the opcode byte, for the three opcodes in use. *)
Definition vex_opcodes : list (Z * Z * Z) :=
  [(OPC_MOVAPS_VxWx, 0, 0); (OPC_MOVAPS_WxVx, 0, 0); (OPC_MOVD_EyVy, 1, 0); (OPC_MOVD_EyVy + P_REXW, 1, 1)].

Definition vex_prefix (pp W R B : Z) : list Z :=
  if (W =? 0) && (B =? 0) then [0xc5; 0x80 * (1 - R) + 0x78 + pp]
  else [0xc4; 0x80 * (1 - R) + 0x40 + 0x20 * (1 - B) + 1; 0x80 * W + 0x78 + pp].

Lemma vex_bytes opc pp W r b : (opc, pp, W) ∈ vex_opcodes → is_xreg r = true → is_reg b = true →
  tcg_out_vex_opc opc r 0 b 0 = Ret (vex_prefix pp W ((r - 16) / 8) (b / 8) ++ [u8 opc]).
Proof.
  intros Hop Hr%is_xreg_reg%is_reg_seq Hb%is_reg_seq.
  assert (forallb (λ '(opc, pp, W), forallb (λ r, forallb (λ b,
    match tcg_out_vex_opc opc (r + 16) 0 b 0 with Ret l => bool_decide (l = vex_prefix pp W (r / 8) (b / 8) ++ [u8 opc]) | _ => false end)
    (seqZ 0 16)) (seqZ 0 16)) vex_opcodes = true) as H by (vm_compute; reflexivity).
  pose proof (forallb_elem _ _ _ H Hop) as H1. cbn beta iota in H1. pose proof (forallb_elem _ _ _ H1 Hr) as H2.
  pose proof (forallb_elem _ _ _ H2 Hb) as H3. cbn beta in H3. replace (r - 16 + 16) with r in H3 by lia.
  case_match; [|done]. by apply bool_decide_eq_true in H3 as ->.
Qed.

Lemma decode_vex here pp W R B l : pp ∈ [0; 1] → W ∈ [0; 1] → R ∈ [0; 1] → B ∈ [0; 1] →
  decode here (vex_prefix pp W R B ++ l) = opcode_vex (vex_prefix pp W R B ++ l) pp W R 0 B l.
Proof.
  intros Hp HW HR HB.
  repeat (apply elem_of_cons in Hp as [->|Hp]; [|]); try by apply not_elem_of_nil in Hp.
  all: repeat (apply elem_of_cons in HW as [->|HW]; [|]); try by apply not_elem_of_nil in HW.
  all: repeat (apply elem_of_cons in HR as [->|HR]; [|]); try by apply not_elem_of_nil in HR.
  all: repeat (apply elem_of_cons in HB as [->|HB]; [|]); try by apply not_elem_of_nil in HB.
  all: reflexivity.
Qed.

(** An opcode behind a VEX prefix, once [opcode_vex] reads the operands. *)
Lemma emits_vex here opc pp W r b tail i :
  (opc, pp, W) ∈ vex_opcodes → is_xreg r = true → is_reg b = true →
  (∀ all rest n, size_to all rest = n → opcode_vex all pp W ((r - 16) / 8) 0 (b / 8) (u8 opc :: tail ++ rest) = Some (i, n)) →
  ∃ l, tcg_out_vex_opc opc r 0 b 0 = Ret l ∧ emits here (l ++ tail) i.
Proof.
  intros Hop Hr Hb Hi. rewrite (vex_bytes opc pp W) by done. eexists. split; [done|].
  assert (pp ∈ [0; 1] ∧ W ∈ [0; 1]) as [Hp HW].
  { unfold vex_opcodes in Hop. repeat (apply elem_of_cons in Hop as [[= -> -> ->]|Hop]; [split; plain_op|]). by apply not_elem_of_nil in Hop. }
  pose proof (high_bit _ (is_xreg_reg _ Hr)). pose proof (high_bit _ Hb). split.
  - unfold vex_prefix. by case_match.
  - intros rest. rewrite <- (size_to_app _ rest), <- !app_assoc. rewrite decode_vex by done. by apply Hi.
Qed.

Lemma base_offset_xreg r b o : base_offset r b o = base_offset (r - 16) b o.
Proof.
  unfold base_offset, LOWREGMASK. replace (Z.land (r - 16) 7) with (Z.land r 7); [done|].
  change 7 with (Z.ones 3). rewrite !Z.land_ones by lia. rewrite <- (Z.mod_add (r - 16) 2) by done. f_equal. lia.
Qed.

Lemma modrm_regs_xreg r b : modrm_regs r b = modrm_regs (r - 16) b.
Proof.
  unfold modrm_regs, LOWREGMASK. replace (Z.land (r - 16) 7) with (Z.land r 7); [done|].
  change 7 with (Z.ones 3). rewrite !Z.land_ones by lia. rewrite <- (Z.mod_add (r - 16) 2) by done. f_equal. lia.
Qed.

Lemma emits_ld128 here r b o : is_xreg r = true → is_reg b = true → is_int32 o = true →
  ∃ l, tcg_out_ld128_aligned here r b o = Ret l ∧ emits here l (IMovapsLoad (r - 16) b o).
Proof.
  intros Hr Hb Ho. unfold tcg_out_ld128_aligned. rewrite vex_modrm_offset_base, base_offset_xreg by done.
  destruct (emits_vex here OPC_MOVAPS_VxWx 0 0 r b (base_offset (r - 16) b o) (IMovapsLoad (r - 16) b o)) as (l & -> & He); [plain_op|done..| |by eexists].
  intros all rest n Hs. change (u8 OPC_MOVAPS_VxWx) with 0x28. cbn -[modrm]. rewrite modrm_mem_ok by (done || by apply is_xreg_reg). emitted Hs.
Qed.

Lemma emits_st128 here r b o : is_xreg r = true → is_reg b = true → is_int32 o = true →
  ∃ l, tcg_out_st128_aligned here r b o = Ret l ∧ emits here l (IMovapsStore (r - 16) b o).
Proof.
  intros Hr Hb Ho. unfold tcg_out_st128_aligned. rewrite vex_modrm_offset_base, base_offset_xreg by done.
  destruct (emits_vex here OPC_MOVAPS_WxVx 0 0 r b (base_offset (r - 16) b o) (IMovapsStore (r - 16) b o)) as (l & -> & He); [plain_op|done..| |by eexists].
  intros all rest n Hs. change (u8 OPC_MOVAPS_WxVx) with 0x29. cbn -[modrm]. rewrite modrm_mem_ok by (done || by apply is_xreg_reg). emitted Hs.
Qed.

Lemma emits_movd here t d r : int_type t = true → is_reg d = true → is_xreg r = true →
  ∃ l, tcg_out_mov t d r = Ret l ∧ emits here l (IMovqFromXmm (type_width t) d (r - 16)).
Proof.
  intros Ht Hd Hr. unfold tcg_out_mov.
  assert ((r =? d) = false ∧ (d <? 16) = true ∧ (r <? 16) = false) as (-> & -> & ->)
    by (unfold is_reg, is_xreg in *; btests; split_and!; [apply Z.eqb_neq|apply Z.ltb_lt|apply Z.ltb_ge]; lia).
  destruct t; try done; unfold tcg_out_vex_modrm; rewrite modrm_regs_xreg.
  - destruct (emits_vex here (OPC_MOVD_EyVy + 0) 1 0 r d (tcg_out8 (modrm_regs (r - 16) d)) (IMovqFromXmm W32 d (r - 16))) as (l & -> & He);
      [plain_op|done..| |by eexists]. intros all rest n Hs. change (u8 _) with 0x7e. cbn -[modrm tcg_out8].
    rewrite modrm_regs_ok by (done || by apply is_xreg_reg). emitted Hs.
  - destruct (emits_vex here (OPC_MOVD_EyVy + P_REXW) 1 1 r d (tcg_out8 (modrm_regs (r - 16) d)) (IMovqFromXmm W64 d (r - 16))) as (l & -> & He);
      [plain_op|done..| |by eexists]. intros all rest n Hs. change (u8 _) with 0x7e. cbn -[modrm tcg_out8].
    rewrite modrm_regs_ok by (done || by apply is_xreg_reg). emitted Hs.
Qed.

Lemma emits_jmp_reg here r : is_reg r = true → emits here (tcg_out_modrm OPC_GRP5 EXT5_JMPN_Ev r) (IJmpReg r).
Proof.
  intros Hr. apply (emits_opc here 0xff 0 4 r); [plain_op|plain_op|done..|]. intros all rest rex Hs.
  cbn -[modrm tcg_out8]. rewrite (modrm_regs_ok 4) by done. emitted Hs.
Qed.

Lemma emits_vzeroupper here : ∃ l, tcg_out_vex_opc OPC_VZEROUPPER 0 0 0 0 = Ret l ∧ emits here l IVzeroupper.
Proof.
  eexists. split; [vm_compute; reflexivity|]. split; [done|]. intros rest.
  rewrite <- (size_to_app _ rest). reflexivity.
Qed.

(** *** Bytes written one by one *)

Lemma emits_literal here l : literal_ok l = true → ∃ i, emits here l i ∧ decode here l = Some (i, Z.of_nat (length l)).
Proof.
  unfold literal_ok. intros Hl. apply existsb_exists in Hl as (k & Hk & ->%bool_decide_eq_true).
  apply list_elem_of_In in Hk.
  repeat (apply elem_of_cons in Hk as [->|Hk];
    [eexists; split; [split; [done|]; intros rest; rewrite <- (size_to_app _ rest); reflexivity|reflexivity]|]).
  apply list_elem_of_singleton in Hk as ->. exists (IJz (here + 2 + 65)). split; [split; [done|]|reflexivity].
  intros rest. change (decode here ([0x74; 65] ++ rest)) with (done_at ([0x74; 65] ++ rest) (IJz (here + size_to ([0x74; 65] ++ rest) rest + 65)) rest).
  unfold done_at. by rewrite (size_to_app [0x74; 65]).
Qed.

(** ** Every call emits the instruction that is meant *)

Lemma decode_emit_ok here e : valid here e = true →
  ∃ l, emit_bytes here e = Ret l ∧ match insn_of here e with Some i => emits here l i | None => l = [] end.
Proof.
  destruct e as [t r b o|t r b o|r b o|r b o|t d r|t r v|r v|r v|r|r|sop r n|l|d|d|r| |]; cbn [valid emit_bytes insn_of]; intros Hv;
    repeat match type of Hv with _ && _ = true => let H := fresh "H" in apply andb_prop in Hv as [Hv H] end.
  - destruct t; try done; unfold tcg_out_ld; (assert ((r <? 16) = true) as -> by (unfold is_reg in *; btests; apply Z.ltb_lt; lia));
      rewrite modrm_offset_base by done; eexists; (split; [reflexivity|]); [apply (emits_load here 0)|apply (emits_load here 1)]; (done || plain_op).
  - destruct t; try done; unfold tcg_out_st; (assert ((r <? 16) = true) as -> by (unfold is_reg in *; btests; apply Z.ltb_lt; lia));
      rewrite modrm_offset_base by done; eexists; (split; [reflexivity|]); [apply (emits_store here 0)|apply (emits_store here 1)]; (done || plain_op).
  - by apply emits_ld128.
  - by apply emits_st128.
  - destruct (r =? d) eqn:Hrd; [exists []; unfold tcg_out_mov; by rewrite Hrd|].
    apply orb_prop in H as [Hr|Hr].
    + assert ((r <? 16) = true ∧ (d <? 16) = true) as [Hr' Hd'] by (unfold is_reg in *; btests; split; apply Z.ltb_lt; lia).
      rewrite Hr'. unfold tcg_out_mov. rewrite Hrd, Hr', Hd'. destruct t; try done; eexists; (split; [reflexivity|]);
        [apply (emits_mov here 0)|apply (emits_mov here 1)]; (done || plain_op).
    + assert ((r <? 16) = false) as -> by (unfold is_xreg in *; btests; apply Z.ltb_ge; lia). by apply emits_movd.
  - eexists. split; [done|]. apply emits_movi; [done..|]. by apply Z.eqb_eq.
  - destruct (v =? 0) eqn:Hv0; [exists []; unfold tcg_out_addi; by rewrite Hv0|].
    destruct (tcg_out_addi_ret r v) as [l Hl]; [done|]. exists l. split; [done|]. apply (emits_addi here r v l); [done..|by apply Z.eqb_neq|done].
  - destruct (v =? 0) eqn:Hv0; [exists []; unfold tcg_out_addi_ptr; by rewrite Hv0|].
    apply emits_addi_ptr; [done..|by apply Z.eqb_neq].
  - eexists. split; [done|]. by apply emits_push.
  - eexists. split; [done|]. by apply emits_pop.
  - eexists. split; [done|]. apply orb_prop in Hv as [->%Z.eqb_eq| ->%Z.eqb_eq];
      [apply (emits_shifti here 0)|apply (emits_shifti here 1)]; (plain_op || done || btests; lia).
  - destruct (emits_literal here l Hv) as (i & Hi & ->). exists l. split; [|done].
    f_equal. unfold literal_ok in Hv. apply existsb_exists in Hv as (k & Hk & ->%bool_decide_eq_true).
    apply list_elem_of_In in Hk. clear Hi. repeat (apply elem_of_cons in Hk as [->|Hk]; [reflexivity|]). by apply not_elem_of_nil in Hk.
  - eexists. split; [done|]. by apply (emits_branch here true).
  - eexists. split; [done|]. by apply (emits_branch here false).
  - eexists. split; [done|]. by apply emits_jmp_reg.
  - apply emits_vzeroupper.
  - eexists. split; [done|]. apply emits_ret.
Qed.

(** C16.  The processor decodes what is emitted, whatever follows it, as the
    instruction that is meant, with its length; nothing is emitted exactly when
    there is nothing to do. *)
Theorem decode_emit here e : valid here e = true →
  ∃ l, emit_bytes here e = Ret l ∧
    match insn_of here e with
    | Some i => l ≠ [] ∧ ∀ rest, decode here (l ++ rest) = Some (i, Z.of_nat (length l))
    | None => l = []
    end.
Proof. apply decode_emit_ok. Qed.

Lemma decode_emit_witness : ∃ l, emit_bytes 4096 (E_ld TCG_TYPE_I64 TCG_REG_R8 TCG_REG_R12 300) = Ret l ∧
  l ≠ [] ∧ decode 4096 (l ++ [0xc3]) = Some (ILoad W64 8 12 300, 8).
Proof.
  destruct (decode_emit 4096 (E_ld TCG_TYPE_I64 TCG_REG_R8 TCG_REG_R12 300)) as (l & Hl & Hne & Hd); [vm_compute; reflexivity|].
  exists l. split; [exact Hl|]. split; [exact Hne|]. rewrite (Hd [0xc3]). vm_compute in Hl. injection Hl as <-. reflexivity.
Defined.
