(* ===== verification/Machine.v ===== *)
(** * Running emitted code

    Straight-line code is followed on the level of the calls that emitted it:
    [exec_emits] executes the instructions that are meant, and the processor
    does the same on the assembled bytes. *)

From S2P Require Import Prelude Bytes Memory X86 Encoder.

Definition exec_emit (e : emit) (s : cpu) : outcome cpu :=
  match insn_of 0 e with Some i => exec_plain i s | None => Ret s end.

Fixpoint exec_emits (es : list emit) (s : cpu) : outcome cpu :=
  match es with [] => Ret s | e :: es => s ← exec_emit e s; exec_emits es s end.

Lemma exec_emits_app es1 es2 s : exec_emits (es1 ++ es2) s = (s ← exec_emits es1 s; exec_emits es2 s).
Proof.
  revert s. induction es1 as [|e es1 IH]; intros s; [done|]. cbn [app exec_emits].
  destruct (exec_emit e s); cbn [mbind outcome_bind]; [apply IH|done].
Qed.

Lemma exec_emits_cons e es s s1 : exec_emit e s = Ret s1 → exec_emits (e :: es) s = exec_emits es s1.
Proof. intros H. cbn [exec_emits]. by rewrite H. Qed.

Lemma assemble_app p es1 es2 : assemble p (es1 ++ es2) =
  (l1 ← assemble p es1; l2 ← assemble (p + Z.of_nat (length l1)) es2; Ret (l1 ++ l2)).
Proof.
  revert p. induction es1 as [|e es1 IH]; intros p; cbn [app assemble mbind outcome_bind].
  - rewrite Z.add_0_r. by destruct (assemble p es2).
  - destruct (emit_bytes p e) as [l|]; [|done]. cbn [mbind outcome_bind]. rewrite IH.
    destruct (assemble _ es1) as [l1|]; [|done]. cbn [mbind outcome_bind]. rewrite length_app, Nat2Z.inj_add, Z.add_assoc.
    destruct (assemble _ es2) as [l2|]; [|done]. cbn [mbind outcome_bind]. by rewrite app_assoc.
Qed.

(** ** Position *)

(** Instructions that continue with the next one do not depend on where they are. *)
Definition plain (e : emit) : bool :=
  match e with
  | E_call _ | E_jmp _ | E_jmp_reg _ | E_ret => false
  | E_out8 l => negb (bool_decide (l = [0x41; 0xff; 0xd3]) || bool_decide (l = [0x74; 65]))
  | _ => true
  end.

Lemma insn_of_plain p e : plain e = true → valid 0 e = true → insn_of p e = insn_of 0 e.
Proof.
  destruct e; try lazymatch goal with |- context [E_out8] => fail | _ => done end. cbn [plain valid insn_of]. unfold literal_ok. intros Hp Hl.
  apply existsb_exists in Hl as (k & Hk & ->%bool_decide_eq_true). apply list_elem_of_In in Hk.
  repeat (apply elem_of_cons in Hk as [->|Hk]; [first [discriminate Hp|vm_compute; reflexivity]|]). destruct (not_elem_of_nil _ Hk).
Qed.

Lemma valid_plain p e : plain e = true → valid p e = valid 0 e.
Proof. by destruct e. Qed.

Lemma exec_plain_control e s s' : exec_emit e s = Ret s' → valid 0 e = true → plain e = true.
Proof.
  unfold exec_emit. destruct e; cbn [insn_of exec_plain plain]; try (intros; reflexivity); try discriminate. intros He _.
  destruct (bool_decide _) eqn:H1; [apply bool_decide_eq_true in H1 as ->; done|].
  destruct (bool_decide (bytes = [0x74; 65])) eqn:H2; [apply bool_decide_eq_true in H2 as ->; done|done].
Qed.

Lemma exec_exec_plain host i next s s' : exec_plain i s = Ret s' → exec host i next s = Ret (next, s').
Proof. intros H. destruct i; try discriminate H; unfold exec; by rewrite H. Qed.

Lemma assemble_valid p es : Forall (λ e, plain e = true ∧ valid 0 e = true) es → ∃ l, assemble p es = Ret l.
Proof.
  intros Hes. revert p. induction Hes as [|e es [Hp Hv] _ IH]; intros p; [by exists []|]. cbn [assemble].
  rewrite <- (valid_plain p) in Hv by done. destruct (decode_emit_ok p e Hv) as (l & -> & _). cbn [mbind outcome_bind].
  destruct (IH (p + Z.of_nat (length l))) as [l' ->]. by eexists.
Qed.

(** ** Steps *)

Section run.
Context (host : Z → cpu → outcome cpu) (base : Z) (code : list Z).

(** The bytes [l] are in the code at the address [p]. *)
Definition code_at (p : Z) (l : list Z) : Prop := ∃ pre post, code = pre ++ l ++ post ∧ p = base + Z.of_nat (length pre).

Lemma code_at_app p l1 l2 : code_at p (l1 ++ l2) → code_at p l1 ∧ code_at (p + Z.of_nat (length l1)) l2.
Proof.
  intros (pre & post & Hcode & ->). rewrite <- app_assoc in Hcode. split.
  - by exists pre, (l2 ++ post).
  - exists (pre ++ l1), post. rewrite <- !app_assoc, length_app. split; [done|lia].
Qed.

Lemma code_at_inside p l : code_at p l → l ≠ [] → inside base code p = true.
Proof.
  intros (pre & post & Hcode & ->) Hl. unfold inside. rewrite Hcode, !length_app. destruct l; [done|]. cbn [length].
  apply andb_true_intro. split; [apply Z.leb_le|apply Z.ltb_lt]; lia.
Qed.

Lemma run_step p l i s fuel q s' : code_at p l → emits p l i → exec host i (p + Z.of_nat (length l)) s = Ret (q, s') →
  run host base code (S fuel) p s = run host base code fuel q s'.
Proof.
  intros Hc [Hne Hd] He. pose proof (code_at_inside p l Hc Hne) as Hin. cbn [run]. rewrite Hin. unfold step.
  destruct Hc as (pre & post & Hcode & ->). rewrite Hcode. replace (Z.to_nat (base + Z.of_nat (length pre) - base)) with (length pre) by lia.
  rewrite drop_app_length, Hd. cbn [mbind outcome_bind]. rewrite <- Hcode. by rewrite He.
Qed.

(** Straight-line code. *)
Lemma run_emits p es l s s' : assemble p es = Ret l → Forall (λ e, valid 0 e = true) es → exec_emits es s = Ret s' →
  code_at p l → ∃ n, (n ≤ length es)%nat ∧ ∀ fuel, run host base code (n + fuel) p s = run host base code fuel (p + Z.of_nat (length l)) s'.
Proof.
  intros Hl Hv. revert p l s Hl. induction Hv as [|e es Hv _ IH]; intros p l s Hl He Hc.
  - injection Hl as <-. injection He as <-. exists 0%nat. split; [done|]. intros fuel. cbn [length]. by rewrite Z.add_0_r.
  - cbn [assemble exec_emits] in *. destruct (exec_emit e s) as [s1|] eqn:He1; [|done]. cbn [mbind outcome_bind] in He.
    pose proof (exec_plain_control e s s1 He1 Hv) as Hp. pose proof Hv as Hv'. rewrite <- (valid_plain p) in Hv' by done.
    destruct (decode_emit_ok p e Hv') as (l1 & Hl1 & Hi). rewrite Hl1 in Hl. cbn [mbind outcome_bind] in Hl.
    destruct (assemble _ es) as [l2|] eqn:Hl2; [|done]. injection Hl as <-.
    destruct (code_at_app _ _ _ Hc) as [Hc1 Hc2]. destruct (IH _ _ _ Hl2 He Hc2) as (n & Hn & Hrun).
    rewrite insn_of_plain in Hi by done. unfold exec_emit in He1. destruct (insn_of 0 e) as [i|].
    + exists (S n). split; [cbn [length]; lia|]. intros fuel. cbn [Nat.add].
      rewrite (run_step p l1 i s (n + fuel) (p + Z.of_nat (length l1)) s1) by (done || by apply exec_exec_plain).
      rewrite Hrun, length_app. f_equal. lia.
    + subst l1. injection He1 as <-. exists n. split; [cbn [length]; lia|]. intros fuel. cbn [app length] in *.
      rewrite Z.add_0_r in Hrun. by rewrite Hrun.
Qed.

(** A single instruction that may branch. *)
Lemma run_emit p e l i s fuel q s' : emit_bytes p e = Ret l → valid p e = true → insn_of p e = Some i →
  code_at p l → exec host i (p + Z.of_nat (length l)) s = Ret (q, s') →
  run host base code (S fuel) p s = run host base code fuel q s'.
Proof.
  intros Hl Hv Hi Hc He. destruct (decode_emit_ok p e Hv) as (l' & Hl' & Hd). rewrite Hl in Hl'. injection Hl' as <-.
  rewrite Hi in Hd. by eapply run_step.
Qed.

Lemma run_outside p s fuel : inside base code p = false → run host base code fuel p s = Ret (p, s).
Proof. intros H. destruct fuel; cbn [run]; by rewrite H. Qed.
End run.
