(* ===== verification/A2XCode.v ===== *)
(** * [AArch64tox64.inc.c]: the code of a call from AArch64 to x86-64

    For a prototype that is known, the bridge generates host code once: the
    entry part fills the x86-64 argument registers and the stack from the
    emulated CPU state, the exit part moves the return value back.  The
    functions below compute the list of calls of the encoder that the C
    functions make.  Addresses of host functions and of strings are
    parameters, and so is the offset of the vector registers in
    [CPUARMState]; its first members are the 32 general registers and the
    program counter. *)

From S2P Require Import Prelude Bytes ABIArgInfo FfiTypes AAPrepCif XXPrepCif DyBridge Handlers X86 Encoder.

(** Host functions that generated code calls. *)
Record host_fns := mk_host_fns {
  fn_callback_query_and_add_trampoline : Z;
  fn_tcg_copy_replace_blocks : Z;
  fn_tcg_register_struct_with_fn_ptr : Z;
  fn_tcg_register_callback_as_type : Z
}.

(** Data that generated code points to: the name or types of the function, the
    names made for its callbacks and the offset lists of its structures, by
    argument, [-1] for the return value. *)
Record host_data := mk_host_data { str_ptr : Z; fake_name_ptr : Z → Z; stfp_ptr : Z → Z }.

(** The calls a loop makes. *)
Fixpoint emit_loop (f : Z → outcome (list emit)) (j : Z) (n : nat) : outcome (list emit) :=
  match n with
  | O => Ret []
  | S n => es ← f j; es' ← emit_loop f (j + 1) n; Ret (es ++ es')
  end.

Definition OFF_XREG (k : Z) : Z := k * 8.
Definition OFF_PC : Z := 256.
Definition BIG_ENOUGH_SRET_SIZE : Z := 64.

Section code.
Context (OFF_ZREGS : Z).

(** [offsetof(CPUARMState, vfp.zregs[k])] *)
Definition OFF_ZREG (k : Z) : Z := OFF_ZREGS + k * ZREG_SIZE.

Definition a64_enum_2_offset (num : Z) : Z :=
  if in_range TE_S0 TE_S7 num then OFF_ZREG (num - TE_S0)
  else if in_range TE_D0 TE_D7 num then OFF_ZREG (num - TE_D0)
  else if in_range TE_Q0 TE_Q7 num then OFF_ZREG (num - TE_Q0)
  else if in_range TE_W0 TE_W7 num then OFF_XREG (num - TE_W0)
  else if in_range TE_X0 TE_X8 num then OFF_XREG (num - TE_X0)
  else 0.

Definition x64_enum_2_reg (num : Z) : Z :=
  if one_of num [TE_RAX; TE_EAX; TE_AX; TE_AL] then TCG_REG_RAX
  else if one_of num [TE_RDI; TE_EDI] then TCG_REG_RDI
  else if one_of num [TE_RSI; TE_ESI] then TCG_REG_RSI
  else if one_of num [TE_RDX; TE_EDX; TE_DL] then TCG_REG_RDX
  else if one_of num [TE_RCX; TE_ECX] then TCG_REG_RCX
  else if one_of num [TE_R8; TE_R8D] then TCG_REG_R8
  else if one_of num [TE_R9; TE_R9D] then TCG_REG_R9
  else TCG_REG_XMM0 + (num - TE_XMM0).

Definition tcg_extend_arg_in_rax_by_loc_info (locInfo : Z) : list emit :=
  if locInfo =? TE_SExt8_32 then [E_out8 [0x0f; 0xbe; 0xc0]]
  else if locInfo =? TE_SExt16_32 then [E_out8 [0x0f; 0xbf; 0xc0]]
  else if locInfo =? TE_ZExt8_32 then [E_out8 [0x0f; 0xb6; 0xc0]]
  else if locInfo =? TE_ZExt16_32 then [E_out8 [0x0f; 0xb7; 0xc0]]
  else [].

Definition tcg_extend_ret_in_rcx_by_reg_loc_info (x64Reg locInfo : Z) : outcome (list emit) :=
  if (x64Reg =? TE_AL) || (x64Reg =? TE_DL) then
    if locInfo =? TE_SExt8_32 then Ret [E_out8 [0x0f; 0xbe; 0xc9]]
    else _ ← c_assert ((locInfo =? TE_ZExt8_32) || (locInfo =? TE_Full)); Ret [E_out8 [0x0f; 0xb6; 0xc9]]
  else if x64Reg =? TE_AX then
    if locInfo =? TE_SExt16_32 then Ret [E_out8 [0x0f; 0xbf; 0xc9]]
    else _ ← c_assert ((locInfo =? TE_ZExt16_32) || (locInfo =? TE_Full)); Ret [E_out8 [0x0f; 0xb7; 0xc9]]
  else Ret [].

(** ** Entry: callbacks, blocks and structures with function pointers *)

Section host.
Context (fns : host_fns) (data : host_data).

(** The address of the argument goes to RDI. *)
Definition load_pointer_arg (aa : ABIArgInfo) : outcome (list emit) :=
  if te_is_mem aa then
    Ret [E_ld TCG_TYPE_PTR TCG_REG_R11 TCG_AREG0 (OFF_XREG REG_SP_NUM);
         E_ld TCG_TYPE_PTR TCG_REG_RDI TCG_REG_R11 (te_get_mem aa)]
  else
    r ← te_get_reg aa 0;
    Ret [E_ld TCG_TYPE_PTR TCG_REG_RDI TCG_AREG0 (a64_enum_2_offset r)].

Definition entry_callback (i : Z) (aa : ABIArgInfo) : outcome (list emit) :=
  if te_is_callback aa then
    let name := sext 64 (fake_name_ptr data i) in
    if te_is_mem aa then
      let offset := te_get_mem aa in
      Ret [E_ld TCG_TYPE_PTR TCG_REG_R11 TCG_AREG0 (OFF_XREG REG_SP_NUM);
           E_push TCG_REG_R11;
           E_addi TCG_REG_RSP (-8);
           E_ld TCG_TYPE_PTR TCG_REG_RDI TCG_REG_R11 offset;
           E_movi TCG_TYPE_PTR TCG_REG_RSI name;
           E_call (fn_callback_query_and_add_trampoline fns);
           E_addi TCG_REG_RSP 8;
           E_pop TCG_REG_R11;
           E_st TCG_TYPE_REG TCG_REG_RAX TCG_REG_R11 offset]
    else
      r ← te_get_reg aa 0;
      Ret [E_ld TCG_TYPE_PTR TCG_REG_RDI TCG_AREG0 (a64_enum_2_offset r);
           E_movi TCG_TYPE_PTR TCG_REG_RSI name;
           E_call (fn_callback_query_and_add_trampoline fns);
           E_st TCG_TYPE_REG TCG_REG_RAX TCG_AREG0 (a64_enum_2_offset r)]
  else Ret [].

(** With [BLOCK_HAS_CALLBACK_TRAMPOLINE]. *)
Definition entry_block (aa : ABIArgInfo) : outcome (list emit) :=
  if te_is_block aa then
    load ← load_pointer_arg aa;
    store ← (if te_is_mem aa then
               Ret [E_ld TCG_TYPE_PTR TCG_REG_R11 TCG_AREG0 (OFF_XREG REG_SP_NUM);
                    E_st TCG_TYPE_PTR TCG_REG_RAX TCG_REG_R11 (te_get_mem aa)]
             else
               r ← te_get_reg aa 0;
               Ret [E_st TCG_TYPE_PTR TCG_REG_RAX TCG_AREG0 (a64_enum_2_offset r)]);
    Ret (load ++ [E_call (fn_tcg_copy_replace_blocks fns)] ++ store)
  else Ret [].

Definition entry_stfp (i : Z) (aa : ABIArgInfo) : outcome (list emit) :=
  if te_is_stfp aa then
    load ← load_pointer_arg aa;
    Ret (load ++
         [E_movi TCG_TYPE_PTR TCG_REG_RSI (sext 64 (str_ptr data));
          E_movi TCG_TYPE_I64 TCG_REG_RDX i;
          E_movi TCG_TYPE_PTR TCG_REG_RCX (sext 64 (stfp_ptr data i));
          E_call (fn_tcg_register_struct_with_fn_ptr fns)])
  else Ret [].

Definition entry_host_arg (aas : list ABIArgInfo) (i : Z) : outcome (list emit) :=
  aa ← c_index aas (Z.to_nat i);
  cb ← entry_callback i aa;
  bl ← entry_block aa;
  st ← entry_stfp i aa;
  Ret (cb ++ bl ++ st).
End host.

(** ** Entry: the hidden pointer to the return value *)

Definition entry_sret (xxRet aaRet : ABIArgInfo) : outcome (list emit) :=
  match te_is_indirect xxRet, te_is_indirect aaRet with
  | true, false =>
      r ← te_get_reg xxRet 0;
      Ret [E_addi TCG_REG_RSP (- BIG_ENOUGH_SRET_SIZE); E_mov TCG_TYPE_REG (x64_enum_2_reg r) TCG_REG_RSP]
  | true, true =>
      r ← te_get_reg xxRet 0;
      Ret [E_ld TCG_TYPE_PTR (x64_enum_2_reg r) TCG_AREG0 (OFF_XREG 8)]
  | false, _ => Ret []
  end.

(** ** Entry: arguments *)

(** Case [0b0000], register [j] of each. *)
Definition code_reg_reg (xx aa : ABIArgInfo) (j : Z) : outcome (list emit) :=
  xr ← te_get_reg xx j; ar ← te_get_reg aa j;
  if is_xmm xr then Ret [E_ld128 (x64_enum_2_reg xr) TCG_AREG0 (a64_enum_2_offset ar)]
  else Ret (E_ld TCG_TYPE_PTR TCG_REG_RAX TCG_AREG0 (a64_enum_2_offset ar) ::
            tcg_extend_arg_in_rax_by_loc_info (te_get_reg_locinfo xx j) ++
            [E_mov TCG_TYPE_REG (x64_enum_2_reg xr) TCG_REG_RAX]).

(** Two S registers put together in the first, which goes to an XMM register. *)
Definition concat_S_regs (xr a0 a1 : Z) : list emit :=
  [E_ld TCG_TYPE_I32 TCG_REG_RAX TCG_AREG0 (a64_enum_2_offset a1);
   E_st TCG_TYPE_I32 TCG_REG_RAX TCG_AREG0 (a64_enum_2_offset a0 + 4);
   E_ld128 (x64_enum_2_reg xr) TCG_AREG0 (a64_enum_2_offset a0)].

Definition code_two_to_one (xx aa : ABIArgInfo) : outcome (list emit) :=
  x0 ← te_get_reg xx 0; a0 ← te_get_reg aa 0; a1 ← te_get_reg aa 1;
  _ ← c_assert (in_range TE_XMM0 TE_XMM7 x0);
  _ ← c_assert (a0 + 1 =? a1);
  Ret (concat_S_regs x0 a0 a1).

(** Register 3 is taken even if there are only three. *)
Definition code_many_to_two (xx aa : ABIArgInfo) (aaRegCnt : Z) : outcome (list emit) :=
  x0 ← te_get_reg xx 0; x1 ← te_get_reg xx 1;
  a0 ← te_get_reg aa 0; a1 ← te_get_reg aa 1; a2 ← te_get_reg aa 2; a3 ← te_get_reg aa 3;
  _ ← c_assert (in_range TE_XMM0 TE_XMM6 x0);
  _ ← c_assert (x0 + 1 =? x1);
  _ ← c_assert ((3 =? aaRegCnt) || (4 =? aaRegCnt));
  _ ← c_assert (a0 + 1 =? a1);
  _ ← c_assert (a1 + 1 =? a2);
  Ret (concat_S_regs x0 a0 a1 ++ concat_S_regs x1 a2 a3).

Definition code_arg_reg_reg (xx aa : ABIArgInfo) : outcome (list emit) :=
  let xxRegCnt := te_num_of_reg xx in let aaRegCnt := te_num_of_reg aa in
  if xxRegCnt =? aaRegCnt then emit_loop (code_reg_reg xx aa) 0 (Z.to_nat xxRegCnt)
  else if xxRegCnt <? aaRegCnt then
    if (1 =? xxRegCnt) && (2 =? aaRegCnt) then code_two_to_one xx aa
    else if 2 =? xxRegCnt then code_many_to_two xx aa aaRegCnt
    else Stop Aborted
  else Stop Aborted.

(** Case [0b0001]: the address is in R11, [step] is what an XMM register adds. *)
Fixpoint code_regs_from_mem (xx : ABIArgInfo) (base step offset j : Z) (n : nat) : outcome (list emit) :=
  match n with
  | O => Ret []
  | S n =>
      xr ← te_get_reg xx j;
      let off := u32 (base + offset) in
      '(es, d) ← (if is_xmm xr then Ret ([E_ld128 (x64_enum_2_reg xr) TCG_REG_R11 off], step)
                  else Ret (E_ld TCG_TYPE_PTR TCG_REG_RAX TCG_REG_R11 off ::
                            tcg_extend_arg_in_rax_by_loc_info (te_get_reg_locinfo xx j) ++
                            [E_mov TCG_TYPE_REG (x64_enum_2_reg xr) TCG_REG_RAX], 8));
      es' ← code_regs_from_mem xx base step (u32 (offset + d)) (j + 1) n;
      Ret (es ++ es')
  end.

Definition code_arg_reg_mem (xx aa : ABIArgInfo) : outcome (list emit) :=
  let xxRegCnt := te_num_of_reg xx in
  es ← code_regs_from_mem xx (te_get_mem aa) (te_get_arg_size aa / xxRegCnt) 0 0 (Z.to_nat xxRegCnt);
  Ret (E_ld TCG_TYPE_PTR TCG_REG_R11 TCG_AREG0 (OFF_XREG REG_SP_NUM) :: es).

(** Case [0b0100] *)
Definition code_mem_reg (xx aa : ABIArgInfo) (wide : bool) (j : Z) : outcome (list emit) :=
  ar ← te_get_reg aa j;
  let off := te_get_mem xx in
  if wide then
    Ret [E_ld128 TCG_REG_XMM8 TCG_AREG0 (a64_enum_2_offset ar); E_st128 TCG_REG_XMM8 TCG_REG_RSP (u32 (off + 16 * j))]
  else
    Ret (E_ld TCG_TYPE_PTR TCG_REG_RAX TCG_AREG0 (a64_enum_2_offset ar) ::
         tcg_extend_arg_in_rax_by_loc_info (te_get_mem_locinfo xx) ++
         [E_st TCG_TYPE_PTR TCG_REG_RAX TCG_REG_RSP (u32 (off + 8 * j))]).

Definition code_arg_mem_reg (xx aa : ABIArgInfo) : outcome (list emit) :=
  let aaRegCnt := te_num_of_reg aa in
  emit_loop (code_mem_reg xx aa (aaRegCnt * 16 =? te_get_arg_size xx)) 0 (Z.to_nat aaRegCnt).

(** [arg_size] bytes to the stack from the address that [src] loads into RSI. *)
Definition code_copy (xx : ABIArgInfo) (arg_size : Z) (src : list emit) : list emit :=
  [E_push TCG_REG_RDI; E_push TCG_REG_RSI; E_push TCG_REG_RCX;
   E_movi TCG_TYPE_I64 TCG_REG_RCX arg_size] ++ src ++
  [E_mov TCG_TYPE_PTR TCG_REG_RDI TCG_REG_RSP;
   E_addi TCG_REG_RDI (u32 (te_get_mem xx + 8 * 3));
   E_out8 [0xf3; 0xa4];
   E_pop TCG_REG_RCX; E_pop TCG_REG_RSI; E_pop TCG_REG_RDI].

(** Case [0b0101] *)
Definition code_arg_mem_mem (xx aa : ABIArgInfo) : outcome (list emit) :=
  let arg_size := te_get_arg_size aa in
  _ ← c_assert (arg_size =? te_get_arg_size xx);
  let es := code_copy xx arg_size
    [E_ld TCG_TYPE_PTR TCG_REG_RSI TCG_AREG0 (OFF_XREG REG_SP_NUM); E_addi TCG_REG_RSI (te_get_mem aa)] in
  Ret (es ++
       if arg_size <=? 2 then
         E_ld TCG_TYPE_PTR TCG_REG_RAX TCG_REG_RSP (te_get_mem xx) ::
         tcg_extend_arg_in_rax_by_loc_info (te_get_mem_locinfo xx) ++
         [E_st TCG_TYPE_REG TCG_REG_RAX TCG_REG_RSP (te_get_mem xx)]
       else []).

(** Cases [0b0110] and [0b0111] *)
Definition code_arg_mem_indirect (xx : ABIArgInfo) (src : list emit) : outcome (list emit) :=
  let arg_size := te_get_arg_size xx in
  _ ← c_assert (2 <? arg_size);
  Ret (code_copy xx arg_size src).

Definition code_arg (xx aa : ABIArgInfo) : outcome (list emit) :=
  let xxRegCnt := te_num_of_reg xx in let aaRegCnt := te_num_of_reg aa in
  if (negb (te_is_mem xx) && (0 =? xxRegCnt)) || (negb (te_is_mem aa) && (0 =? aaRegCnt))
  then Ret [] else
  match te_is_indirect xx, te_is_mem xx, te_is_indirect aa, te_is_mem aa with
  | false, false, false, false => code_arg_reg_reg xx aa
  | false, false, false, true => code_arg_reg_mem xx aa
  | false, false, true, _ => Stop Aborted
  | false, true, false, false => code_arg_mem_reg xx aa
  | false, true, false, true => code_arg_mem_mem xx aa
  | false, true, true, false =>
      ar ← te_get_reg aa 0;
      code_arg_mem_indirect xx [E_ld TCG_TYPE_PTR TCG_REG_RSI TCG_AREG0 (a64_enum_2_offset ar)]
  | false, true, true, true =>
      code_arg_mem_indirect xx
        [E_ld TCG_TYPE_PTR TCG_REG_RAX TCG_AREG0 (OFF_XREG REG_SP_NUM);
         E_ld TCG_TYPE_PTR TCG_REG_RSI TCG_REG_RAX (te_get_mem aa)]
  | true, _, _, _ => Stop Aborted
  end.

Definition code_args (xxs aas : list ABIArgInfo) (i : Z) : outcome (list emit) :=
  xx ← c_index xxs (Z.to_nat i); aa ← c_index aas (Z.to_nat i); code_arg xx aa.

(** The parts without calls of host functions. *)
Definition entry_moves (aaInfo xxInfo : ABIFnInfo) : outcome (list emit) :=
  sret ← entry_sret (rinfo xxInfo) (rinfo aaInfo);
  args ← emit_loop (code_args (ainfo xxInfo) (ainfo aaInfo)) 0 (Z.to_nat (nargs xxInfo));
  Ret (sret ++ [E_addi TCG_REG_RSP (- ALIGN2POW (bytes xxInfo) 16)] ++ args ++
       [E_movi TCG_TYPE_I64 TCG_REG_RAX (ssecount xxInfo)]).

Definition abi_a2x_entry_translation (fns : host_fns) (data : host_data) (aaInfo xxInfo : ABIFnInfo) :
    outcome (list emit) :=
  calls ← emit_loop (entry_host_arg fns data (ainfo aaInfo)) 0 (Z.to_nat (nargs xxInfo));
  moves ← entry_moves aaInfo xxInfo;
  Ret (calls ++ moves).

(** ** Exit *)

(** Case [0b00], register [j] of each. *)
Definition code_ret_reg (xx aa : ABIArgInfo) (j : Z) : outcome (list emit) :=
  xr ← te_get_reg xx j; ar ← te_get_reg aa j;
  if is_xmm xr then Ret [E_st128 (x64_enum_2_reg xr) TCG_AREG0 (a64_enum_2_offset ar)]
  else
    ext ← tcg_extend_ret_in_rcx_by_reg_loc_info xr (te_get_reg_locinfo xx j);
    Ret (E_mov TCG_TYPE_REG TCG_REG_RCX (x64_enum_2_reg xr) :: ext ++
         [E_st TCG_TYPE_PTR TCG_REG_RCX TCG_AREG0 (a64_enum_2_offset ar)]).

(** The low part of an XMM register to one S register, then what a shift
    leaves of it to the next. *)
Definition first_S_reg (xr a0 : Z) : list emit :=
  [E_mov TCG_TYPE_PTR TCG_REG_R8 (x64_enum_2_reg xr);
   E_st TCG_TYPE_I32 TCG_REG_R8 TCG_AREG0 (a64_enum_2_offset a0)].
Definition next_S_reg (a1 : Z) : list emit :=
  [E_shifti SHIFT_SHR TCG_REG_R8 32;
   E_st TCG_TYPE_I32 TCG_REG_R8 TCG_AREG0 (a64_enum_2_offset a1)].

Definition code_ret_one_to_two (xx aa : ABIArgInfo) : outcome (list emit) :=
  x0 ← te_get_reg xx 0; a0 ← te_get_reg aa 0; a1 ← te_get_reg aa 1;
  _ ← c_assert (in_range TE_XMM0 TE_XMM7 x0);
  _ ← c_assert (in_range TE_S0 TE_S6 a0);
  _ ← c_assert (a0 + 1 =? a1);
  Ret (first_S_reg x0 a0 ++ next_S_reg a1).

Definition code_ret_two_to_many (xx aa : ABIArgInfo) (aaRegCnt : Z) : outcome (list emit) :=
  x0 ← te_get_reg xx 0; x1 ← te_get_reg xx 1;
  a0 ← te_get_reg aa 0; a1 ← te_get_reg aa 1; a2 ← te_get_reg aa 2;
  _ ← c_assert (in_range TE_XMM0 TE_XMM6 x0);
  _ ← c_assert (x0 + 1 =? x1);
  _ ← c_assert ((3 =? aaRegCnt) || (4 =? aaRegCnt));
  _ ← c_assert (in_range TE_S0 TE_S5 a0);
  _ ← c_assert (a0 + 1 =? a1);
  _ ← c_assert (a1 + 1 =? a2);
  last ← (if 4 =? aaRegCnt then
            a3 ← te_get_reg aa 3;
            _ ← c_assert (a0 <=? TE_S4);
            _ ← c_assert (a2 + 1 =? a3);
            Ret (next_S_reg a3)
          else Ret []);
  Ret (first_S_reg x0 a0 ++ next_S_reg a1 ++ first_S_reg x1 a2 ++ last).

Definition code_ret_direct (xx aa : ABIArgInfo) : outcome (list emit) :=
  let xxRegCnt := te_num_of_reg xx in let aaRegCnt := te_num_of_reg aa in
  if xxRegCnt =? aaRegCnt then emit_loop (code_ret_reg xx aa) 0 (Z.to_nat xxRegCnt)
  else if xxRegCnt <? aaRegCnt then
    if (1 =? xxRegCnt) && (2 =? aaRegCnt) then code_ret_one_to_two xx aa
    else if 2 =? xxRegCnt then code_ret_two_to_many xx aa aaRegCnt
    else Stop Aborted
  else Stop Aborted.

(** Case [0b10]: register [j] from the buffer at the stack pointer. *)
Definition code_sret_8 (aa : ABIArgInfo) (j : Z) : outcome (list emit) :=
  ar ← te_get_reg aa j;
  Ret [E_ld TCG_TYPE_PTR TCG_REG_R8 TCG_REG_RSP (8 * j);
       E_st TCG_TYPE_PTR TCG_REG_R8 TCG_AREG0 (a64_enum_2_offset ar)].
Definition code_sret_16 (aa : ABIArgInfo) (j : Z) : outcome (list emit) :=
  ar ← te_get_reg aa j;
  Ret [E_ld128 TCG_REG_XMM8 TCG_REG_RSP (16 * j);
       E_st128 TCG_REG_XMM8 TCG_AREG0 (a64_enum_2_offset ar)].

Definition code_ret_from_sret (aa : ABIArgInfo) : outcome (list emit) :=
  let aaRegCnt := te_num_of_reg aa in
  _ ← consecutive aa 1 (Z.to_nat aaRegCnt - 1);
  a0 ← te_get_reg aa 0;
  es ← (if TE_D0 =? a0 then emit_loop (code_sret_8 aa) 0 (Z.to_nat aaRegCnt)
        else if TE_Q0 =? a0 then emit_loop (code_sret_16 aa) 0 (Z.to_nat aaRegCnt)
        else Stop Aborted);
  Ret (es ++ [E_addi TCG_REG_RSP BIG_ENOUGH_SRET_SIZE]).

(** A destructor or constructor that returns [this] on one side only. *)
Definition structor_case (aaInfo xxInfo : ABIFnInfo) : bool :=
  let xxRegCnt := te_num_of_reg (rinfo xxInfo) in let aaRegCnt := te_num_of_reg (rinfo aaInfo) in
  let structor := negb (isCxxStructor xxInfo =? 0) in
  (structor && (0 =? xxRegCnt) && (1 =? aaRegCnt)) || (structor && (1 =? xxRegCnt) && (0 =? aaRegCnt)).

Definition exit_moves (aaInfo xxInfo : ABIFnInfo) : outcome (list emit) :=
  let xx := rinfo xxInfo in let aa := rinfo aaInfo in
  es ← match te_is_indirect xx, te_is_indirect aa with
       | false, false => code_ret_direct xx aa
       | true, false => code_ret_from_sret aa
       | _, true => Ret []
       end;
  Ret (E_addi TCG_REG_RSP (ALIGN2POW (bytes xxInfo) 16) :: es).

(** The return value is a callback, a block or a structure with function pointers. *)
Definition exit_host (fns : host_fns) (data : host_data) (xx : ABIArgInfo) : list emit :=
  (if te_is_callback xx then
     [E_mov TCG_TYPE_PTR TCG_REG_RDI TCG_REG_RAX;
      E_movi TCG_TYPE_PTR TCG_REG_RSI (sext 64 (fake_name_ptr data (-1)));
      E_call (fn_tcg_register_callback_as_type fns)]
   else []) ++
  (if te_is_block xx then
     [E_mov TCG_TYPE_REG TCG_REG_RDI TCG_REG_RAX;
      E_call (fn_tcg_copy_replace_blocks fns);
      E_st TCG_TYPE_REG TCG_REG_RAX TCG_AREG0 (OFF_XREG 0)]
   else []) ++
  (if te_is_stfp xx then
     [E_mov TCG_TYPE_REG TCG_REG_RDI TCG_REG_RAX;
      E_movi TCG_TYPE_PTR TCG_REG_RSI (sext 64 (str_ptr data));
      E_movi TCG_TYPE_I64 TCG_REG_RDX (-1);
      E_movi TCG_TYPE_PTR TCG_REG_RCX (sext 64 (stfp_ptr data (-1)));
      E_call (fn_tcg_register_struct_with_fn_ptr fns)]
   else []).

Definition abi_a2x_exit_translation (fns : host_fns) (data : host_data) (aaInfo xxInfo : ABIFnInfo) :
    outcome (list emit) :=
  if structor_case aaInfo xxInfo then Ret []
  else moves ← exit_moves aaInfo xxInfo; Ret (moves ++ exit_host fns data (rinfo xxInfo)).

(** ** The trampoline *)

Definition save_lr_to_stack : list emit :=
  [E_ld TCG_TYPE_PTR TCG_REG_RAX TCG_AREG0 (OFF_XREG 30); E_push TCG_REG_RAX; E_addi TCG_REG_RSP (-8)].

Definition update_pc_from_lr : list emit :=
  [E_addi TCG_REG_RSP 8; E_pop TCG_REG_RAX;
   E_st TCG_TYPE_PTR TCG_REG_RAX TCG_AREG0 (OFF_XREG 30);
   E_st TCG_TYPE_PTR TCG_REG_RAX TCG_AREG0 OFF_PC].

(** [call *%r11], with the program counter of the emulated CPU. *)
Definition load_pc : emit := E_ld TCG_TYPE_REG TCG_REG_R11 TCG_AREG0 OFF_PC.
Definition call_r11 : emit := E_out8 [0x41; 0xff; 0xd3].

Definition a2x_trampoline (fns : host_fns) (data : host_data) (quick_tbcache : Z) (aaInfo xxInfo : ABIFnInfo) :
    outcome (list emit) :=
  entry ← abi_a2x_entry_translation fns data aaInfo xxInfo;
  exit ← abi_a2x_exit_translation fns data aaInfo xxInfo;
  Ret (save_lr_to_stack ++ entry ++ [load_pc; call_r11] ++ exit ++ update_pc_from_lr ++ [E_jmp quick_tbcache]).
End code.
