(* ===== verification/A2XSim.v ===== *)
(** * What generated code works on

    Generated code sees one memory; the emulated CPU, the guest's memory and
    the part of the host stack it fills are regions of it.  [sim] relates a
    state of the processor to the emulated registers and to an argument space:
    the argument registers followed by the outgoing stack arguments, the form
    in which the dynamic bridge has them.  The lemmas say how single
    instructions act on that relation. *)

From S2P Require Import Prelude Bytes ABIArgInfo FfiTypes AAPrepCif XXPrepCif XXAlloc DyBridge DyEntry Memory X86 Encoder Machine A2XCode.

(** ** Memory *)

Lemma rd_mem_at m a N L off n bs : 0 ≤ N → 0 ≤ n → rd_mem m a N = Ret L → rd L off n = Ret bs → rd_mem m (a + off) n = Ret bs.
Proof.
  intros HN Hn [HL Hm]%rd_mem_spec (Ho & Hb & ->)%rd_inv; [|done]. apply rd_mem_spec; [done|].
  rewrite length_take, length_drop. split; [lia|]. intros i Hi.
  rewrite lookup_take_lt, lookup_drop by lia. rewrite <- Hm by lia. f_equal. lia.
Qed.

(** Writing a part of a region. *)
Lemma rd_wr_mem_at m a N L off bs m' L' : 0 ≤ N → rd_mem m a N = Ret L → wr_mem m (a + off) bs = Ret m' → wr L off bs = Ret L' →
  rd_mem m' a N = Ret L'.
Proof.
  intros HN [HL Hm]%rd_mem_spec Hw Hl; [|done]. pose proof (wr_length _ _ _ _ Hl). pose proof (wr_inv _ _ _ _ Hl) as (Ho & Hb & _).
  apply rd_mem_spec; [done|]. split; [lia|]. intros i Hi. rewrite (wr_lookup _ _ _ _ _ Hl).
  unfold wr_mem in Hw. destruct (mapped _ _ _); [|done]. injection Hw as <-. case_decide.
  - rewrite (proj2 (Z.leb_le _ _)), (proj2 (Z.ltb_lt _ _)) by lia. simpl. f_equal. lia.
  - rewrite <- Hm by lia. destruct (Z.leb_spec (a + off) (a + Z.of_nat i)), (Z.ltb_spec (a + Z.of_nat i) (a + off + Z.of_nat (length bs))); simpl; (done || lia).
Qed.

Lemma wr_mem_at m a N L off bs L' : 0 ≤ N → rd_mem m a N = Ret L → wr L off bs = Ret L' → ∃ m', wr_mem m (a + off) bs = Ret m'.
Proof.
  intros HN Hr (Ho & Hb & _)%wr_inv. pose proof (rd_mem_length _ _ _ _ HN Hr).
  destruct (wr_mem_ok m (a + off) bs) as (m' & Hw & _); [|by exists m'].
  eapply mapped_sub; [exact (rd_mem_mapped _ _ _ _ HN Hr)|lia|lia].
Qed.

Lemma wr_mem_other m a bs m' x : wr_mem m a bs = Ret m' → x < a ∨ a + Z.of_nat (length bs) ≤ x → m' x = m x.
Proof.
  unfold wr_mem. destruct (mapped _ _ _); [|done]. intros [= <-] Hx.
  destruct (Z.leb_spec a x), (Z.ltb_spec x (a + Z.of_nat (length bs))); simpl; (done || lia).
Qed.

Lemma wr_mem_same m a bs m' x : wr_mem m a bs = Ret m' → a ≤ x < a + Z.of_nat (length bs) → m' x = bs !! Z.to_nat (x - a).
Proof.
  unfold wr_mem. destruct (mapped _ _ _); [|done]. intros [= <-] Hx.
  by rewrite (proj2 (Z.leb_le _ _)), (proj2 (Z.ltb_lt _ _)) by lia.
Qed.

(** [rep movsb] between regions that do not overlap copies. *)
Lemma copy_up_ok n m dst src v : rd_mem m src (Z.of_nat n) = Ret v → mapped m dst (Z.of_nat n) = true →
  0 ≤ src → src + Z.of_nat n < 2 ^ 64 → 0 ≤ dst → dst + Z.of_nat n < 2 ^ 64 →
  (src + Z.of_nat n ≤ dst ∨ dst + Z.of_nat n ≤ src) →
  ∃ m', copy_up n m dst src = Ret m' ∧
    (∀ x, dst ≤ x < dst + Z.of_nat n → m' x = v !! Z.to_nat (x - dst)) ∧
    (∀ x, x < dst ∨ dst + Z.of_nat n ≤ x → m' x = m x).
Proof.
  revert m dst src v. induction n as [|n IH]; intros m dst src v Hr Hm Hs Hs' Hd Hd' Hdis.
  - exists m. split_and!; [done|lia|done].
  - apply rd_mem_spec in Hr as [Hl Hb]; [|lia]. destruct v as [|b v]; [done|]. cbn [length] in Hl.
    assert (rd_mem m src 1 = Ret [b]) as H1.
    { apply rd_mem_spec; [lia|]. split; [done|]. intros i Hi. assert (i = 0%nat) as -> by lia. by rewrite (Hb 0%nat) by lia. }
    destruct (wr_mem_ok m dst [b]) as (m1 & Hw & Hin & Hout); [eapply mapped_sub; [exact Hm|lia|cbn [length]; lia]|].
    cbn [length] in Hin, Hout. cbn [copy_up]. rewrite H1. cbn [mbind outcome_bind]. rewrite Hw. cbn [mbind outcome_bind].
    rewrite !wrap_small by (unfold in_u; lia).
    destruct (IH m1 (dst + 1) (src + 1) v) as (m' & Hc & Hin' & Hout').
    + apply rd_mem_spec; [lia|]. split; [lia|]. intros i Hi. rewrite Hout by lia. replace (src + 1 + Z.of_nat i) with (src + Z.of_nat (S i)) by lia.
      by rewrite Hb by lia.
    + erewrite wr_mem_mapped by exact Hw. eapply mapped_sub; [exact Hm|lia..].
    + lia.
    + lia.
    + lia.
    + lia.
    + lia.
    + exists m'. split_and!; [done| |].
      * intros x Hx. destruct (decide (x = dst)) as [->|Hne].
        -- rewrite Hout' by lia. rewrite Hin by lia. by rewrite Z.sub_diag.
        -- rewrite Hin' by lia. replace (Z.to_nat (x - dst)) with (S (Z.to_nat (x - (dst + 1)))) by lia. done.
      * intros x Hx. rewrite Hout' by lia. by rewrite Hout by lia.
Qed.

(** ** Single instructions *)

Lemma exec_ld t d b o s bs : cload s (ea s b o) (wbytes (type_width t)) = Ret bs →
  exec_emit (E_ld t d b o) s = Ret (set_gpr s d (le_val bs)).
Proof. intros H. unfold exec_emit. cbn [insn_of exec_plain]. by rewrite H. Qed.

Lemma exec_st t r b o s m : wr_mem (cmem s) (ea s b o) (le_bytes (Z.to_nat (wbytes (type_width t))) (gpr s r)) = Ret m →
  exec_emit (E_st t r b o) s = Ret (set_mem s m).
Proof. intros H. unfold exec_emit. cbn [insn_of exec_plain]. unfold cstore. by rewrite H. Qed.

Lemma exec_ld128 r b o s bs : (16 | ea s b o) → cload s (ea s b o) 16 = Ret bs →
  exec_emit (E_ld128 r b o) s = Ret (set_xmm s (r - 16) bs).
Proof.
  intros Ha H. unfold exec_emit. cbn [insn_of exec_plain]. unfold aligned16.
  rewrite (proj2 (Z.mod_divide _ 16 ltac:(lia)) Ha). cbn [Z.eqb mbind outcome_bind]. by rewrite H.
Qed.

Lemma exec_st128 r b o s m : (16 | ea s b o) → wr_mem (cmem s) (ea s b o) (xmm s (r - 16)) = Ret m →
  exec_emit (E_st128 r b o) s = Ret (set_mem s m).
Proof.
  intros Ha H. unfold exec_emit. cbn [insn_of exec_plain]. unfold aligned16.
  rewrite (proj2 (Z.mod_divide _ 16 ltac:(lia)) Ha). cbn [Z.eqb mbind outcome_bind]. unfold cstore. by rewrite H.
Qed.

Lemma exec_mov d r s : (r =? d) = false → (r <? 16) = true → exec_emit (E_mov TCG_TYPE_I64 d r) s = Ret (set_gpr s d (wrap 64 (gpr s r))).
Proof. intros H1 H2. unfold exec_emit. cbn [insn_of]. by rewrite H1, H2. Qed.

Lemma exec_movi t r v s : ∃ b, exec_emit (E_movi t r v) s = Ret (set_zf (set_gpr s r (wrap (wbits (type_width t)) v)) b).
Proof.
  unfold exec_emit. cbn [insn_of]. destruct (Z.eqb_spec v 0) as [->|]; cbn [exec_plain].
  - exists true. rewrite Z.lxor_nilpotent. by destruct t.
  - by exists (zflag s).
Qed.

(** States that differ in one register, and in the flag. *)
Definition only_reg (r v : Z) (s s' : cpu) : Prop :=
  (∀ k, gpr s' k = if k =? r then v else gpr s k) ∧ xmm s' = xmm s ∧ cmem s' = cmem s.

Lemma exec_addi r v s : in_u 64 (gpr s r) → ∃ s', exec_emit (E_addi r v) s = Ret s' ∧ only_reg r (u64 (gpr s r + v)) s s'.
Proof.
  intros Hr. unfold exec_emit. cbn [insn_of]. destruct (Z.eqb_spec v 0) as [->|].
  - exists s. split; [done|]. split_and!; [|done|done]. intros k. destruct (Z.eqb_spec k r) as [->|]; [|done].
    by rewrite Z.add_0_r, wrap_small.
  - cbn [exec_plain]. eexists. split; [done|]. split_and!; [|done|done]. intros k. cbn. destruct (k =? r); [|done].
    by rewrite wrap_wrap.
Qed.

Lemma exec_push r s m : wr_mem (cmem s) (u64 (gpr s TCG_REG_RSP - 8)) (le_bytes 8 (gpr s r)) = Ret m →
  exec_emit (E_push r) s = Ret (set_gpr (set_mem s m) TCG_REG_RSP (u64 (gpr s TCG_REG_RSP - 8))).
Proof. intros H. unfold exec_emit. cbn [insn_of exec_plain]. unfold push, cstore. by rewrite H. Qed.

Lemma exec_pop r s bs : cload s (gpr s TCG_REG_RSP) 8 = Ret bs →
  exec_emit (E_pop r) s = Ret (set_gpr (set_gpr s TCG_REG_RSP (gpr s TCG_REG_RSP + 8)) r (le_val bs)).
Proof. intros H. unfold exec_emit. cbn [insn_of exec_plain]. unfold pop. by rewrite H. Qed.

Lemma push_word s q v : gpr s TCG_REG_RSP = q → 8 ≤ q < 2 ^ 64 → mapped (cmem s) (q - 8) 8 = true →
  ∃ s', push s v = Ret s' ∧ (∀ k, gpr s' k = if k =? TCG_REG_RSP then q - 8 else gpr s k) ∧ xmm s' = xmm s ∧
    rd_mem (cmem s') (q - 8) 8 = Ret (le_bytes 8 v) ∧ (∀ x, x < q - 8 ∨ q ≤ x → cmem s' x = cmem s x) ∧
    ∀ a n, mapped (cmem s') a n = mapped (cmem s) a n.
Proof.
  intros Hq Hr Hm. assert (u64 (gpr s TCG_REG_RSP - 8) = q - 8) as Hw by (rewrite Hq; apply wrap_small; unfold in_u; lia).
  destruct (wr_mem_ok (cmem s) (q - 8) (le_bytes 8 v)) as (m & Hmw & _ & Hout); [by rewrite length_le_bytes|].
  exists (set_gpr (set_mem s m) TCG_REG_RSP (q - 8)). rewrite length_le_bytes in Hout. split_and!.
  - unfold push, cstore. by rewrite Hw, Hmw.
  - intros k. cbn [gpr set_gpr set_mem]. case_match; [|done]. apply wrap_small. unfold in_u. lia.
  - done.
  - pose proof (rd_wr_mem_same _ _ _ _ 0 8 Hmw) as H. rewrite length_le_bytes, Z.add_0_r in H. cbn [cmem set_gpr set_mem].
    by rewrite H by lia.
  - intros x Hx. cbn [cmem set_gpr set_mem]. apply Hout. lia.
  - intros a n. cbn [cmem set_gpr set_mem]. by eapply wr_mem_mapped.
Qed.

Lemma push_ok r s q : gpr s TCG_REG_RSP = q → 8 ≤ q < 2 ^ 64 → in_u 64 (gpr s r) → mapped (cmem s) (q - 8) 8 = true →
  ∃ s', exec_emit (E_push r) s = Ret s' ∧ (∀ k, gpr s' k = if k =? TCG_REG_RSP then q - 8 else gpr s k) ∧ xmm s' = xmm s ∧
    rd_mem (cmem s') (q - 8) 8 = Ret (le_bytes 8 (gpr s r)) ∧ (∀ x, x < q - 8 ∨ q ≤ x → cmem s' x = cmem s x) ∧
    ∀ a n, mapped (cmem s') a n = mapped (cmem s) a n.
Proof. intros Hq Hr _ Hm. by apply push_word. Qed.

Lemma pop_ok r s q bs : gpr s TCG_REG_RSP = q → 0 ≤ q → q + 8 < 2 ^ 64 → r ≠ TCG_REG_RSP → cload s q 8 = Ret bs → in_u 64 (le_val bs) →
  ∃ s', exec_emit (E_pop r) s = Ret s' ∧ (∀ k, gpr s' k = if k =? r then le_val bs else if k =? TCG_REG_RSP then q + 8 else gpr s k) ∧
    xmm s' = xmm s ∧ cmem s' = cmem s.
Proof.
  intros Hq H0 Hb Hr Hl Hv. eexists. split; [apply exec_pop; by rewrite Hq|]. rewrite Hq. split_and!; [|done|done].
  intros k. cbn [gpr set_gpr]. case_match; [by apply wrap_small|]. case_match; [|done]. apply wrap_small. unfold in_u. lia.
Qed.

Lemma exec_rep_movsb s : exec_emit (E_out8 [0xf3; 0xa4]) s = rep_movsb s.
Proof. reflexivity. Qed.

(** Sign and zero extension in RAX. *)
Definition ext_value (locInfo v : Z) : Z :=
  if locInfo =? TE_SExt8_32 then u32 (sext 8 v)
  else if locInfo =? TE_SExt16_32 then u32 (sext 16 v)
  else if locInfo =? TE_ZExt8_32 then u8 v
  else if locInfo =? TE_ZExt16_32 then u16 v
  else u64 v.

Lemma sext_wrap n v : 0 ≤ n → sext n (wrap n v) = sext n v.
Proof. intros. unfold sext. by rewrite wrap_wrap. Qed.

Lemma wrap_le n k v : 0 ≤ k ≤ n → wrap n (wrap k v) = wrap k v.
Proof.
  intros H. apply wrap_small. destruct (wrap_range k v) as [? ?]; [lia|]. split; [done|].
  eapply Z.lt_le_trans; [done|]. apply Z.pow_le_mono_r; lia.
Qed.

Lemma ext_value_u64 li v : in_u 64 (ext_value li v).
Proof.
  unfold ext_value. repeat case_match; try (by apply wrap_range);
    destruct (wrap_range 32 (sext 8 v)), (wrap_range 32 (sext 16 v)), (wrap_range 8 v), (wrap_range 16 v); unfold in_u in *; lia.
Qed.

(** One extending move. *)
Ltac extended H :=
  eexists; split; [reflexivity|]; split_and!; [|done|done]; intros k; cbn -[wrap sext Z.eqb]; destruct (k =? _); [|done];
  change (8 * 1) with 8; change (8 * 2) with 16; rewrite ?wrap_wrap by lia; rewrite H by lia; cbn [Z.eqb Pos.eqb]; rewrite ?sext_wrap by lia;
  rewrite ?(wrap_le 64 32), ?(wrap_le 32 8), ?(wrap_le 64 8), ?(wrap_le 32 16), ?(wrap_le 64 16) by lia; done.

Lemma exec_extend li s v : gpr s TCG_REG_RAX = u64 v →
  ∃ s', exec_emits (tcg_extend_arg_in_rax_by_loc_info li) s = Ret s' ∧ only_reg TCG_REG_RAX (ext_value li v) s s'.
Proof.
  intros Hv. assert (∀ k, 0 ≤ k ≤ 64 → wrap k (gpr s 0) = wrap k v) as Hw.
  { intros k Hk. unfold TCG_REG_RAX in Hv. rewrite Hv. unfold wrap. rewrite Z.mod_mod_divide; [done|].
    exists (2 ^ (64 - k)). rewrite <- Z.pow_add_r by lia. f_equal. lia. }
  unfold tcg_extend_arg_in_rax_by_loc_info, ext_value.
  destruct (li =? TE_SExt8_32); [extended Hw|]. destruct (li =? TE_SExt16_32); [extended Hw|].
  destruct (li =? TE_ZExt8_32); [extended Hw|]. destruct (li =? TE_ZExt16_32); [extended Hw|].
  exists s. split; [done|]. split_and!; [|done|done]. intros k. by destruct (Z.eqb_spec k TCG_REG_RAX) as [->|].
Qed.

(** ** The relation *)

(** Where the arguments registers are. *)
Definition reg_bytes (s : cpu) (r : Z) : list Z :=
  if is_xmm r then xmm s (r - TE_XMM0) else le_bytes 8 (gpr s (x64_enum_2_reg r)).

Section sim.
Context (OFF_ZREGS envp : Z) (gmem m0 : memory) (sp room : Z).

(** The emulated CPU, the part of the host stack in use (three words below the
    stack pointer are scratch) and the memory of the guest are apart. *)
Record layout : Prop := mk_layout {
  lay_zregs : 264 ≤ OFF_ZREGS < 2 ^ 20;
  lay_zalign : (16 | OFF_ZREGS);
  lay_envalign : (16 | envp);
  lay_env : 0 ≤ envp ∧ envp + OFF_ZREGS + 32 * ZREG_SIZE < 2 ^ 64;
  lay_stack : 24 ≤ sp ∧ sp + room < 2 ^ 64;
  lay_room : 0 ≤ room < 2 ^ 31;
  lay_apart : sp + room ≤ envp ∨ envp + OFF_ZREGS + 32 * ZREG_SIZE ≤ sp - 24;
  lay_guest : ∀ a b, gmem a = Some b → m0 a = Some b ∧ 0 ≤ a < 2 ^ 64 - 1 ∧ 0 ≤ b < 256 ∧
    (a < sp - 24 ∨ sp + room ≤ a) ∧ (a < envp ∨ envp + OFF_ZREGS + 32 * ZREG_SIZE ≤ a)
}.

(** The registers of the emulated CPU in memory. *)
Definition env_byte (a : Z) : Prop :=
  envp ≤ a < envp + 256 ∨ envp + OFF_ZREGS ≤ a < envp + OFF_ZREGS + 32 * ZREG_SIZE.

Record sim (s : cpu) (env : CPUARMState) (args : list Z) : Prop := mk_sim {
  sim_env : gpr s TCG_AREG0 = envp;
  sim_sp : gpr s TCG_REG_RSP = sp;
  sim_u64 : ∀ r, in_u 64 (gpr s r);
  sim_x : rd_mem (cmem s) envp 256 = Ret (xregs env);
  sim_z : rd_mem (cmem s) (envp + OFF_ZREGS) (32 * ZREG_SIZE) = Ret (zregs env);
  sim_len : Z.of_nat (length args) = SIZEOF_REGISTER_ARGS + room;
  sim_regs : ∀ r, xreg_ok r → rd args (x64_enum_2_ptr r) (xwidth r) = Ret (reg_bytes s r);
  sim_stack : ∀ k, 0 ≤ k < room → cmem s (sp + k) = args !! Z.to_nat (SIZEOF_REGISTER_ARGS + k);
  sim_low : mapped (cmem s) (sp - 24) 24 = true;
  sim_frame : ∀ a, a < sp - 24 ∨ sp + room ≤ a → ¬ env_byte a → cmem s a = m0 a
}.

Context (Hlay : layout).

Ltac lay := destruct Hlay; unfold ZREG_SIZE, TCG_AREG0 in *.

Lemma sim_guest s env args a b : sim s env args → gmem a = Some b → cmem s a = Some b.
Proof.
  intros Hs Hg. lay. destruct (lay_guest0 a b Hg) as (Hm & Ha & _ & Hw & He).
  rewrite (sim_frame _ _ _ Hs); [done|done|]. unfold env_byte, ZREG_SIZE. lia.
Qed.

Lemma sim_rd_guest s env args a n bs : 0 ≤ n → sim s env args → rd_mem gmem a n = Ret bs → rd_mem (cmem s) a n = Ret bs.
Proof.
  intros Hn Hs [Hl Hb]%rd_mem_spec; [|done]. apply rd_mem_spec; [done|]. split; [done|]. intros i Hi.
  destruct (lookup_lt_is_Some_2 bs i ltac:(lia)) as [b Hbi]. rewrite Hbi. eapply sim_guest; [done|]. by rewrite Hb.
Qed.

Lemma guest_range a n bs : 0 < n → rd_mem gmem a n = Ret bs →
  0 ≤ a ∧ a + n < 2 ^ 64 ∧ (a + n ≤ sp - 24 ∨ sp + room ≤ a).
Proof.
  intros Hn [Hl Hb]%rd_mem_spec; [|lia]. lay.
  assert (∀ x, a ≤ x < a + n → ∃ b, gmem x = Some b) as Hx.
  { intros x Hx. specialize (Hb (Z.to_nat (x - a)) ltac:(lia)). replace (a + Z.of_nat (Z.to_nat (x - a))) with x in Hb by lia.
    destruct (lookup_lt_is_Some_2 bs (Z.to_nat (x - a)) ltac:(lia)) as [b Hbi]. exists b. congruence. }
  assert (∀ x, a ≤ x < a + n → 0 ≤ x < 2 ^ 64 - 1 ∧ (x < sp - 24 ∨ sp + room ≤ x)) as Hr.
  { intros x Hxx. destruct (Hx x Hxx) as [b Hbx]. destruct (lay_guest0 _ _ Hbx) as (_ & ? & _ & ? & _). lia. }
  pose proof (Hr a ltac:(lia)). pose proof (Hr (a + n - 1) ltac:(lia)). split_and!; [lia|lia|].
  destruct (decide (a + n ≤ sp - 24)); [by left|]. destruct (decide (sp + room ≤ a)); [by right|].
  pose proof (Hr (Z.max a (sp - 24)) ltac:(lia)). lia.
Qed.

(** Reading the emulated registers. *)
Lemma env_off num p : a64_enum_2_ptr num = Some p →
  a64_enum_2_offset OFF_ZREGS num = match p with XPtr o => o | ZPtr o => OFF_ZREGS + o end.
Proof.
  unfold a64_enum_2_ptr, a64_enum_2_offset, OFF_ZREG, OFF_XREG. repeat case_match; intros [= <-]; done.
Qed.

Lemma env_off_range num p : a64_enum_2_ptr num = Some p → 0 ≤ a64_enum_2_offset OFF_ZREGS num < OFF_ZREGS + 8 * ZREG_SIZE.
Proof.
  unfold a64_enum_2_ptr, a64_enum_2_offset, OFF_ZREG, OFF_XREG, in_range, ZREG_SIZE,
    TE_S0, TE_S7, TE_D0, TE_D7, TE_Q0, TE_Q7, TE_W0, TE_W7, TE_X0, TE_X8. lay.
  repeat case_match; intros [= <-]; btests; lia.
Qed.

Lemma sim_rd_a64 s env args num n bs : 0 ≤ n → sim s env args → rd_a64 env num n = Ret bs →
  rd_mem (cmem s) (envp + a64_enum_2_offset OFF_ZREGS num) n = Ret bs.
Proof.
  intros Hn Hs. unfold rd_a64. destruct (a64_enum_2_ptr num) as [[o|o]|] eqn:Hp; [| |done]; intros Hr; rewrite (env_off _ _ Hp).
  - eapply rd_mem_at; [|done|apply (sim_x _ _ _ Hs)|done]. lia.
  - rewrite Z.add_assoc. eapply rd_mem_at; [|done|apply (sim_z _ _ _ Hs)|done]. by unfold ZREG_SIZE.
Qed.

Lemma ea_env s env args num p : sim s env args → a64_enum_2_ptr num = Some p →
  ea s TCG_AREG0 (a64_enum_2_offset OFF_ZREGS num) = envp + a64_enum_2_offset OFF_ZREGS num.
Proof.
  intros Hs Hp. unfold ea. rewrite (sim_env _ _ _ Hs). apply wrap_small. pose proof (env_off_range _ _ Hp). lay. unfold in_u. lia.
Qed.

Lemma rd_a64_ptr env num n bs : rd_a64 env num n = Ret bs → ∃ p, a64_enum_2_ptr num = Some p.
Proof. unfold rd_a64. destruct (a64_enum_2_ptr num); [|done]. eauto. Qed.

(** ** Steps that keep the relation *)

Lemma arg_reg_gpr r : xreg_ok r → is_xmm r = false → x64_enum_2_reg r ∈ [TCG_REG_RDI; TCG_REG_RSI; TCG_REG_RDX; TCG_REG_RCX; TCG_REG_R8; TCG_REG_R9].
Proof.
  intros [(j & Hj & ->)|Hr] Hx.
  - assert (j = 0 ∨ j = 1 ∨ j = 2 ∨ j = 3 ∨ j = 4 ∨ j = 5) as H by lia. destruct_or! H; subst; vm_compute; repeat constructor.
  - by destruct (xmm_ptr r Hr) as [_ Hx']; rewrite Hx' in Hx.
Qed.

Lemma arg_reg_inj r q : xreg_ok r → xreg_ok q → is_xmm r = false → is_xmm q = false → x64_enum_2_reg r = x64_enum_2_reg q → r = q.
Proof.
  intros [(j & Hj & ->)|Hr] [(k & Hk & ->)|Hq] Hx Hy.
  - assert (j = 0 ∨ j = 1 ∨ j = 2 ∨ j = 3 ∨ j = 4 ∨ j = 5) as H by lia. assert (k = 0 ∨ k = 1 ∨ k = 2 ∨ k = 3 ∨ k = 4 ∨ k = 5) as H' by lia.
    by destruct_or! H; destruct_or! H'; subst.
  - by destruct (xmm_ptr q Hq) as [_ Hx']; rewrite Hx' in Hy.
  - by destruct (xmm_ptr r Hr) as [_ Hx']; rewrite Hx' in Hx.
  - by destruct (xmm_ptr r Hr) as [_ Hx']; rewrite Hx' in Hx.
Qed.

(** Registers that hold no argument. *)
Definition scratch (r : Z) : bool :=
  negb (one_of r [TCG_AREG0; TCG_REG_RSP; TCG_REG_RDI; TCG_REG_RSI; TCG_REG_RDX; TCG_REG_RCX; TCG_REG_R8; TCG_REG_R9]).

Lemma scratch_ne r q : scratch r = true →
  q ∈ [TCG_AREG0; TCG_REG_RSP; TCG_REG_RDI; TCG_REG_RSI; TCG_REG_RDX; TCG_REG_RCX; TCG_REG_R8; TCG_REG_R9] → (q =? r) = false.
Proof.
  unfold scratch, one_of. intros Hs Hq. apply negb_true_iff in Hs. apply Z.eqb_neq. intros ->.
  assert (existsb (Z.eqb r) [TCG_AREG0; TCG_REG_RSP; TCG_REG_RDI; TCG_REG_RSI; TCG_REG_RDX; TCG_REG_RCX; TCG_REG_R8; TCG_REG_R9] = true) as He
    by (apply existsb_exists; exists r; split; [by apply list_elem_of_In|apply Z.eqb_refl]). congruence.
Qed.

(** A state that agrees on what matters. *)
Lemma sim_agree s s' env args : sim s env args → (∀ r, scratch r = false → gpr s' r = gpr s r) → (∀ r, in_u 64 (gpr s' r)) →
  (∀ k, 0 ≤ k < 8 → xmm s' k = xmm s k) → cmem s' = cmem s → sim s' env args.
Proof.
  intros [] Hg Hu Hx Hm. constructor; rewrite ?Hm; try done.
  - by rewrite Hg.
  - by rewrite Hg.
  - intros r Hr. rewrite (sim_regs0 r Hr). f_equal. unfold reg_bytes. destruct (is_xmm r) eqn:Hxr.
    + rewrite Hx; [done|]. unfold is_xmm, in_range, TE_XMM0, TE_XMM7 in *. btests. lia.
    + f_equal. symmetry. apply Hg. pose proof (arg_reg_gpr r Hr Hxr) as Hin.
      repeat (apply elem_of_cons in Hin as [->|Hin]; [done|]). by apply not_elem_of_nil in Hin.
Qed.

Lemma sim_scratch s env args r v : sim s env args → scratch r = true → sim (set_gpr s r v) env args.
Proof.
  intros Hs Hr. apply (sim_agree s); try done; cbn.
  - intros q Hq. destruct (Z.eqb_spec q r) as [->|]; [congruence|done].
  - intros q. case_match; [by apply wrap_range|apply (sim_u64 _ _ _ Hs)].
Qed.

Lemma sim_only_reg s s' env args r v : sim s env args → scratch r = true → in_u 64 v → only_reg r v s s' → sim s' env args.
Proof.
  intros Hs Hr Hv (Hg & Hx & Hm). apply (sim_agree s); try done; [| |by rewrite Hx].
  - intros q Hq. rewrite Hg. destruct (Z.eqb_spec q r) as [->|]; [congruence|done].
  - intros q. rewrite Hg. case_match; [done|apply (sim_u64 _ _ _ Hs)].
Qed.

Lemma sim_zf s env args b : sim s env args → sim (set_zf s b) env args.
Proof. intros Hs. apply (sim_agree s); try done. apply (sim_u64 _ _ _ Hs). Qed.

(** A register or a stack slot of the argument space is written. *)
Lemma sim_stack_reg s env args args' r bs : sim s env args → xreg_ok r → Z.of_nat (length bs) ≤ xwidth r →
  wr args (x64_enum_2_ptr r) bs = Ret args' →
  Z.of_nat (length args') = SIZEOF_REGISTER_ARGS + room ∧
  (∀ k, 0 ≤ k < room → cmem s (sp + k) = args' !! Z.to_nat (SIZEOF_REGISTER_ARGS + k)) ∧
  (∀ q, xreg_ok q → q ≠ r → rd args' (x64_enum_2_ptr q) (xwidth q) = Ret (reg_bytes s q)).
Proof.
  intros [] Hr Hbs Hw. pose proof (wr_length _ _ _ _ Hw) as Hl. destruct (reg_fp_range r Hr) as [Hr1 Hr2].
  unfold OFF_RAX, SIZEOF_REGISTER_ARGS in *. split_and!; [lia| |].
  - intros k Hk. rewrite sim_stack0 by done. rewrite (wr_lookup _ _ _ _ _ Hw), decide_False by lia. done.
  - intros q Hq Hne. rewrite (rd_wr_other _ _ _ _ _ _ Hw); [by apply sim_regs0|].
    destruct (reg_fp_disjoint q r Hq Hr Hne); lia.
Qed.

Lemma sim_set_gpr s env args args' r v : sim s env args → xreg_ok r → is_xmm r = false →
  wr args (x64_enum_2_ptr r) (le_bytes 8 v) = Ret args' → sim (set_gpr s (x64_enum_2_reg r) v) env args'.
Proof.
  intros Hs Hr Hx Hw. pose proof (arg_reg_gpr r Hr Hx) as Hin.
  destruct (sim_stack_reg s env args args' r (le_bytes 8 v)) as (Hl & Hst & Hregs); [done|done|unfold xwidth; by rewrite Hx, length_le_bytes|done|].
  destruct Hs. constructor; cbn [gpr xmm cmem set_gpr set_xmm]; try done.
  - rewrite (proj2 (Z.eqb_neq _ _)); [done|]. intros Heq. rewrite <- Heq in Hin. vm_compute in Hin. by repeat (apply elem_of_cons in Hin as [?|Hin]; [done|]); apply not_elem_of_nil in Hin.
  - rewrite (proj2 (Z.eqb_neq _ _)); [done|]. intros Heq. rewrite <- Heq in Hin. vm_compute in Hin. by repeat (apply elem_of_cons in Hin as [?|Hin]; [done|]); apply not_elem_of_nil in Hin.
  - intros q. case_match; [by apply wrap_range|done].
  - intros q Hq. destruct (decide (q = r)) as [->|Hne].
    + unfold xwidth, reg_bytes. rewrite Hx. cbn [gpr xmm set_gpr set_xmm]. rewrite Z.eqb_refl.
      pose proof (rd_wr_same _ _ _ _ 0 8 Hw ltac:(lia) ltac:(lia)) as Hrd. rewrite length_le_bytes, Z.add_0_r in Hrd.
      rewrite Hrd by lia. f_equal. rewrite drop_0, take_ge by (rewrite length_le_bytes; lia). apply le_bytes_ext.
      unfold wrap. change (256 ^ Z.of_nat 8) with (2 ^ 64). by rewrite Z.mod_mod.
    + rewrite Hregs by done. unfold reg_bytes. destruct (is_xmm q) eqn:Hxq; [done|]. cbn [gpr xmm set_gpr set_xmm].
      rewrite (proj2 (Z.eqb_neq _ _)); [done|]. intros Heq. by apply Hne, arg_reg_inj.
Qed.

Lemma sim_set_xmm s env args args' r bs : sim s env args → TE_XMM0 ≤ r ≤ TE_XMM7 → length bs = 16%nat →
  wr args (x64_enum_2_ptr r) bs = Ret args' → sim (set_xmm s (r - TE_XMM0) bs) env args'.
Proof.
  intros Hs Hr Hl Hw. assert (xreg_ok r) as Hok by (by right). destruct (xmm_ptr r Hr) as [_ Hx].
  destruct (sim_stack_reg s env args args' r bs) as (Hlen & Hst & Hregs); [done|done|unfold xwidth; rewrite Hx; lia|done|].
  destruct Hs. constructor; cbn [gpr xmm cmem set_gpr set_xmm]; try done.
  intros q Hq. destruct (decide (q = r)) as [->|Hne].
  - unfold xwidth, reg_bytes. rewrite Hx. cbn [gpr xmm set_gpr set_xmm]. rewrite Z.eqb_refl.
    pose proof (rd_wr_same _ _ _ _ 0 16 Hw ltac:(lia) ltac:(lia)) as Hrd. rewrite Z.add_0_r in Hrd.
    rewrite Hrd by lia. by rewrite drop_0, take_ge by lia.
  - rewrite Hregs by done. unfold reg_bytes. destruct (is_xmm q) eqn:Hxq; [|done]. cbn [gpr xmm set_gpr set_xmm].
    rewrite (proj2 (Z.eqb_neq _ _)); [done|]. lia.
Qed.

(** Bytes are written to the outgoing stack; the scratch words may change. *)
Lemma sim_stack_write s s' env args args' off bs : sim s env args →
  (∀ r, scratch r = false → gpr s' r = gpr s r) → (∀ r, in_u 64 (gpr s' r)) → (∀ k, 0 ≤ k < 8 → xmm s' k = xmm s k) →
  0 ≤ off → off + Z.of_nat (length bs) ≤ room → wr args (SIZEOF_REGISTER_ARGS + off) bs = Ret args' →
  (∀ x, sp + off ≤ x < sp + off + Z.of_nat (length bs) → cmem s' x = bs !! Z.to_nat (x - (sp + off))) →
  (∀ x, x < sp - 24 ∨ sp ≤ x → x < sp + off ∨ sp + off + Z.of_nat (length bs) ≤ x → cmem s' x = cmem s x) →
  mapped (cmem s') (sp - 24) 24 = true → sim s' env args'.
Proof.
  intros [] Hg Hu Hx Ho Hb Hw Hin Hout Hlow. pose proof (wr_length _ _ _ _ Hw) as Hl. unfold SIZEOF_REGISTER_ARGS in *.
  assert (∀ x, env_byte x → cmem s' x = cmem s x) as Henv.
  { intros x Hxe. apply Hout; unfold env_byte in Hxe; lay; lia. }
  constructor; try done.
  - by rewrite Hg.
  - by rewrite Hg.
  - rewrite (rd_mem_ext (cmem s)); [done|]. intros x Hx'. apply Henv. by left.
  - rewrite (rd_mem_ext (cmem s)); [done|]. intros x Hx'. apply Henv. by right.
  - unfold SIZEOF_REGISTER_ARGS. lia.
  - intros r Hr. rewrite (rd_wr_other _ _ _ _ _ _ Hw).
    + rewrite (sim_regs0 r Hr). f_equal. unfold reg_bytes. destruct (is_xmm r) eqn:Hxr.
      * rewrite Hx; [done|]. unfold is_xmm, in_range, TE_XMM0, TE_XMM7 in *. btests. lia.
      * f_equal. symmetry. apply Hg. pose proof (arg_reg_gpr r Hr Hxr) as Hi.
        repeat (apply elem_of_cons in Hi as [->|Hi]; [done|]). by apply not_elem_of_nil in Hi.
    + destruct (reg_fp_range r Hr). unfold OFF_RAX in *. lia.
  - intros k Hk. unfold SIZEOF_REGISTER_ARGS. rewrite (wr_lookup _ _ _ _ _ Hw). case_decide.
    + rewrite Hin by lia. f_equal. lia.
    + rewrite Hout by lia. by apply sim_stack0.
  - intros x Hx' Hne. rewrite Hout by lia. by apply sim_frame0.
Qed.

Lemma sim_store s env args args' off bs : sim s env args → 0 ≤ off → off + Z.of_nat (length bs) ≤ room →
  wr args (SIZEOF_REGISTER_ARGS + off) bs = Ret args' →
  ∃ m, wr_mem (cmem s) (sp + off) bs = Ret m ∧ sim (set_mem s m) env args'.
Proof.
  intros Hs Ho Hb Hw. destruct (wr_mem_ok (cmem s) (sp + off) bs) as (m & Hm & Hin & Hout).
  - apply mapped_spec. intros x Hx. replace x with (sp + (x - sp)) by lia. rewrite (sim_stack _ _ _ Hs) by lia.
    apply lookup_lt_is_Some. pose proof (sim_len _ _ _ Hs). unfold SIZEOF_REGISTER_ARGS in *. lia.
  - exists m. split; [done|]. eapply (sim_stack_write s); try done.
    + apply (sim_u64 _ _ _ Hs).
    + cbn. intros x _ Hx. by apply Hout.
    + cbn. erewrite wr_mem_mapped by exact Hm. apply (sim_low _ _ _ Hs).
Qed.

(** An emulated register is written. *)
Definition env_mem (m : memory) (env : CPUARMState) : Prop :=
  rd_mem m envp 256 = Ret (xregs env) ∧ rd_mem m (envp + OFF_ZREGS) (32 * ZREG_SIZE) = Ret (zregs env).

Definition env_written (m : memory) (a : Z) (bs : list Z) (env' : CPUARMState) : Prop :=
  ∃ m', wr_mem m a bs = Ret m' ∧ env_mem m' env' ∧ ∀ x, ¬ env_byte x → m' x = m x.

Lemma env_byte_outside m q bs m' : wr_mem m q bs = Ret m' → (∀ x, q ≤ x < q + Z.of_nat (length bs) → env_byte x) →
  ∀ x, ¬ env_byte x → m' x = m x.
Proof.
  intros Hm Hq x Hx. apply (wr_mem_other _ _ _ _ _ Hm). destruct (decide (x < q)); [by left|]. destruct (decide (q + Z.of_nat (length bs) ≤ x)); [by right|].
  destruct Hx. apply Hq. lia.
Qed.

Lemma env_mem_wr_z m env o bs z' : env_mem m env → wr (zregs env) o bs = Ret z' →
  env_written m (envp + OFF_ZREGS + o) bs (mk_env (xregs env) z').
Proof.
  intros [Hx Hz] Hw. pose proof (wr_inv _ _ _ _ Hw) as (Ho & Hb & _).
  assert (0 ≤ 32 * ZREG_SIZE) as H0 by (by unfold ZREG_SIZE). pose proof (rd_mem_length _ _ _ _ H0 Hz) as Hl.
  destruct (wr_mem_at _ _ _ _ _ _ _ H0 Hz Hw) as [m' Hm]. exists m'. split_and!; [done|split; cbn [xregs zregs]|].
  - erewrite rd_wr_mem_other by (exact Hm || lay; lia). done.
  - by eapply rd_wr_mem_at.
  - eapply env_byte_outside; [exact Hm|]. intros x Hxx. right. lia.
Qed.

Lemma env_mem_wr_x m env o bs x' : env_mem m env → wr (xregs env) o bs = Ret x' →
  env_written m (envp + o) bs (mk_env x' (zregs env)).
Proof.
  intros [Hx Hz] Hw. pose proof (wr_inv _ _ _ _ Hw) as (Ho & Hb & _).
  assert (0 ≤ 256) as H0 by lia. pose proof (rd_mem_length _ _ _ _ H0 Hx) as Hl.
  destruct (wr_mem_at m envp 256 _ _ _ _ ltac:(lia) Hx Hw) as [m' Hm]. exists m'. split_and!; [done|split; cbn [xregs zregs]|].
  - by eapply rd_wr_mem_at.
  - erewrite rd_wr_mem_other by (exact Hm || lay; lia). done.
  - eapply env_byte_outside; [exact Hm|]. intros x Hxx. left. lia.
Qed.

Lemma env_mem_wr_a64 m env num bs env' : env_mem m env → wr_a64 env num bs = Ret env' →
  env_written m (envp + a64_enum_2_offset OFF_ZREGS num) bs env'.
Proof.
  intros Hs. unfold wr_a64. destruct (a64_enum_2_ptr num) as [[o|o]|] eqn:Hp; [| |done]; intros Hw; rewrite (env_off _ _ Hp); inv_outcome; subst env'.
  - by apply env_mem_wr_x.
  - rewrite Z.add_assoc. by apply env_mem_wr_z.
Qed.

Lemma sim_env_write s env args a bs env' : sim s env args → env_written (cmem s) a bs env' →
  ∃ m, wr_mem (cmem s) a bs = Ret m ∧ sim (set_mem s m) env' args.
Proof.
  intros Hs (m & Hm & [Hx' Hz'] & Hout). exists m. split; [done|]. destruct Hs. constructor; cbn [gpr xmm cmem set_mem]; try done.
  - intros k Hk. rewrite Hout; [by apply sim_stack0|]. unfold env_byte. lay. lia.
  - by erewrite wr_mem_mapped by exact Hm.
  - intros x Hx Hne. rewrite Hout by done. by apply sim_frame0.
Qed.

Lemma sim_env_mem s env args : sim s env args → env_mem (cmem s) env.
Proof. intros []. by split. Qed.

Lemma sim_wr_z s env args o bs z' : sim s env args → wr (zregs env) o bs = Ret z' →
  ∃ m, wr_mem (cmem s) (envp + OFF_ZREGS + o) bs = Ret m ∧ sim (set_mem s m) (mk_env (xregs env) z') args.
Proof. intros Hs Hw. eapply sim_env_write; [done|]. apply env_mem_wr_z; [by eapply sim_env_mem|done]. Qed.

Lemma sim_wr_a64 s env args num bs env' : sim s env args → wr_a64 env num bs = Ret env' →
  ∃ m, wr_mem (cmem s) (envp + a64_enum_2_offset OFF_ZREGS num) bs = Ret m ∧ sim (set_mem s m) env' args.
Proof. intros Hs Hw. eapply sim_env_write; [done|]. eapply env_mem_wr_a64; [by eapply sim_env_mem|done]. Qed.

Lemma sim_rd_stack s env args off n bs : sim s env args → 0 ≤ off → 0 ≤ n → off + n ≤ room →
  rd args (SIZEOF_REGISTER_ARGS + off) n = Ret bs → rd_mem (cmem s) (sp + off) n = Ret bs.
Proof.
  intros Hs Ho Hn Hr (H0 & Hb & ->)%rd_inv. pose proof (sim_len _ _ _ Hs). unfold SIZEOF_REGISTER_ARGS in *.
  apply rd_mem_spec; [done|]. rewrite length_take, length_drop. split; [lia|]. intros i Hi.
  rewrite lookup_take_lt, lookup_drop by lia. rewrite <- Z.add_assoc, (sim_stack _ _ _ Hs) by lia. f_equal. unfold SIZEOF_REGISTER_ARGS. lia.
Qed.
End sim.
