(* ===== verification/A2XStep.v ===== *)
(** * One argument of the generated entry code

    For every combination of places the two conventions can choose, the code
    for one argument moves the value and leaves the other arguments alone.
    Where the code does what the dynamic bridge does, its theorems are used;
    the others are narrow integers, HFAs of floats, which are put together in
    the emulated registers, and XMM registers loaded from the guest's stack.
    The code uses [movaps], so the places it loads from have to be aligned:
    [movaps_ok] says when they are. *)

From S2P Require Import Prelude Bytes ABIArgInfo FfiTypes Layout Placement AAPrepCif HFA AAAlloc XXPrepCif XXClass XXAlloc CrossABI DyBridge DyEntry DyStep Memory X86 Encoder Machine A2XCode A2XSim.

Lemma emit_loop_S f j n es es' : f j = Ret es → emit_loop f (j + 1) n = Ret es' → emit_loop f j (S n) = Ret (es ++ es').
Proof. intros H1 H2. cbn [emit_loop]. by rewrite H1, H2. Qed.

(** Bytes of a value that was read. *)
Lemma le_bytes_8 bs : bytes_ok bs → length bs = 8%nat → le_bytes 8 (le_val bs) = bs.
Proof. intros Hok Hl. rewrite <- Hl. by apply le_bytes_val. Qed.

Lemma le_val_u64 bs : bytes_ok bs → (length bs ≤ 8)%nat → in_u 64 (le_val bs).
Proof.
  intros Hok Hl. destruct (le_val_range bs Hok) as [? ?]. split; [done|]. eapply Z.lt_le_trans; [done|].
  change (2 ^ 64) with (256 ^ 8). apply Z.pow_le_mono_r; lia.
Qed.

Lemma le_val_app bs cs : le_val (bs ++ cs) = le_val bs + 256 ^ Z.of_nat (length bs) * le_val cs.
Proof.
  induction bs as [|b bs IH]; cbn [app le_val length]; [lia|]. rewrite IH, Nat2Z.inj_succ, Z.pow_succ_r by lia. lia.
Qed.

(** The low bytes, whatever the others are. *)
Lemma le_bytes_low n bs : bytes_ok (take n bs) → (n ≤ length bs)%nat → le_bytes n (le_val bs) = take n bs.
Proof.
  intros Hok Hn. rewrite <- (le_bytes_val (take n bs) Hok). rewrite length_take, Nat.min_l by done.
  apply le_bytes_ext. rewrite <- (take_drop n bs) at 1. rewrite le_val_app, length_take, Nat.min_l by done.
  rewrite (Z.mul_comm (256 ^ _)). apply Z.mod_add. apply Z.pow_nonzero; lia.
Qed.

(** Extension keeps the bytes of the narrow integer. *)
Lemma ext_value_low c v : csize c ≤ 8 → le_bytes (Z.to_nat (csize c)) (ext_value (loc_info c) v) = le_bytes (Z.to_nat (csize c)) v.
Proof.
  intros Hsz. destruct (narrow c) eqn:Hn.
  2:{ unfold narrow in Hn. btests. rewrite Hn. apply le_bytes_ext. unfold ext_value, wrap. cbn -[Z.pow Z.modulo].
      change (2 ^ 64) with (256 ^ 8). rewrite Z.mod_mod_divide; [done|]. exists (256 ^ (8 - Z.of_nat (Z.to_nat (csize c)))).
      rewrite <- Z.pow_add_r by lia. f_equal. lia. }
  destruct (narrow_scalar c Hn) as (s & -> & Hs). unfold narrow, loc_info in *. cbn [csize laid] in *.
  apply le_bytes_ext. unfold ext_value.
  assert (∀ k, 0 < k → wrap k (sext k v) = wrap k v) as Hw by (intros; apply wrap_sext; lia).
  assert (∀ a b x, 0 ≤ a ≤ b → wrap a (wrap b x) = wrap a x) as Hww.
  { intros a b x Hab. unfold wrap. rewrite Z.mod_mod_divide; [done|]. exists (2 ^ (b - a)). rewrite <- Z.pow_add_r by lia. f_equal. lia. }
  destruct s; try done.
  - change (wrap 8 (wrap 8 v) = wrap 8 v). by apply Hww.
  - change (wrap 8 (wrap 32 (sext 8 v)) = wrap 8 v). by rewrite Hww, Hw.
  - change (wrap 16 (wrap 16 v) = wrap 16 v). by apply Hww.
  - change (wrap 16 (wrap 32 (sext 16 v)) = wrap 16 v). by rewrite Hww, Hw.
Qed.

Section step.
Context (OFF_ZREGS envp : Z) (gmem m0 : memory) (sp room : Z).
Context (Hlay : layout OFF_ZREGS envp gmem m0 sp room).
Abbreviation sim := (sim OFF_ZREGS envp m0 sp room).
Abbreviation a64_off := (a64_enum_2_offset OFF_ZREGS).

(** The code takes one state of the registers to another. *)
Definition moves (es : list emit) (env : CPUARMState) (args : list Z) (env' : CPUARMState) (args' : list Z) : Prop :=
  ∀ s, sim s env args → ∃ s', exec_emits es s = Ret s' ∧ sim s' env' args'.

Lemma moves_nil env args : moves [] env args env args.
Proof. intros s Hs. by exists s. Qed.

Lemma moves_app es1 es2 e1 a1 e2 a2 e3 a3 : moves es1 e1 a1 e2 a2 → moves es2 e2 a2 e3 a3 → moves (es1 ++ es2) e1 a1 e3 a3.
Proof.
  intros H1 H2 s Hs. destruct (H1 s Hs) as (s1 & He1 & Hs1). destruct (H2 s1 Hs1) as (s2 & He2 & Hs2).
  exists s2. split; [|done]. by rewrite exec_emits_app, He1.
Qed.

(** ** Registers *)

(** A general register by way of RAX, which an instruction [e] loads. *)
Lemma via_rax e li xr v env args args' s : sim s env args → exec_emit e s = Ret (set_gpr s TCG_REG_RAX v) →
  xreg_ok xr → is_xmm xr = false → wr args (x64_enum_2_ptr xr) (le_bytes 8 (ext_value li v)) = Ret args' →
  ∃ s', exec_emits (e :: tcg_extend_arg_in_rax_by_loc_info li ++ [E_mov TCG_TYPE_REG (x64_enum_2_reg xr) TCG_REG_RAX]) s = Ret s' ∧
    sim s' env args' ∧ gpr s' TCG_REG_R11 = gpr s TCG_REG_R11.
Proof.
  intros Hs He Hr Hx Hw. rewrite (exec_emits_cons _ _ _ _ He), exec_emits_app.
  assert (sim (set_gpr s TCG_REG_RAX v) env args) as Hs1 by (by apply sim_scratch).
  destruct (exec_extend li (set_gpr s TCG_REG_RAX v) v) as (s2 & -> & Ho); [done|]. cbn [mbind outcome_bind].
  pose proof (ext_value_u64 li v) as Hev.
  assert (sim s2 env args) as Hs2 by (eapply sim_only_reg; [exact Hs1| |exact Hev|exact Ho]; done). destruct Ho as (Hg & _ & _).
  assert (gpr s2 TCG_REG_RAX = ext_value li v) as Hrax by (rewrite Hg; done).
  pose proof (arg_reg_gpr xr Hr Hx) as Hin.
  assert (TCG_REG_RAX ≠ x64_enum_2_reg xr ∧ TCG_REG_R11 ≠ x64_enum_2_reg xr) as [Hne Hne'].
  { repeat (apply elem_of_cons in Hin as [->|Hin]; [done|]). by apply not_elem_of_nil in Hin. }
  rewrite (exec_emits_cons _ _ _ _ (exec_mov _ _ s2 (proj2 (Z.eqb_neq _ _) Hne) eq_refl)), Hrax, wrap_small by done.
  eexists. split; [done|]. split; [by eapply sim_set_gpr|]. cbn [gpr set_gpr]. rewrite (proj2 (Z.eqb_neq _ _)) by done. by rewrite Hg.
Qed.

Lemma code_gpr xr ar li env args args' b8 : xreg_ok xr → is_xmm xr = false → rd_a64 env ar 8 = Ret b8 →
  wr args (x64_enum_2_ptr xr) (le_bytes 8 (ext_value li (le_val b8))) = Ret args' →
  moves (E_ld TCG_TYPE_PTR TCG_REG_RAX TCG_AREG0 (a64_off ar) :: tcg_extend_arg_in_rax_by_loc_info li ++
         [E_mov TCG_TYPE_REG (x64_enum_2_reg xr) TCG_REG_RAX]) env args env args'.
Proof.
  intros Hr Hx Hrd Hw s Hs. destruct (rd_a64_ptr _ _ _ _ Hrd) as [p Hp].
  destruct (via_rax (E_ld TCG_TYPE_PTR TCG_REG_RAX TCG_AREG0 (a64_off ar)) li xr (le_val b8) env args args' s) as (s' & He & Hs' & _); try done; [|by exists s'].
  apply exec_ld. unfold cload. erewrite ea_env by done. by eapply sim_rd_a64.
Qed.

Lemma code_xmm xr ar env args args' b16 : TE_XMM0 ≤ xr ≤ TE_XMM7 → rd_a64 env ar 16 = Ret b16 → (16 | a64_off ar) →
  wr args (x64_enum_2_ptr xr) b16 = Ret args' →
  moves [E_ld128 (x64_enum_2_reg xr) TCG_AREG0 (a64_off ar)] env args env args'.
Proof.
  intros Hr Hrd Hal Hw s Hs. destruct (rd_a64_ptr _ _ _ _ Hrd) as [p Hp].
  assert (x64_enum_2_reg xr - 16 = xr - TE_XMM0) as Hreg.
  { unfold TE_XMM0, TE_XMM7 in *. assert (xr = 18 ∨ xr = 19 ∨ xr = 20 ∨ xr = 21 ∨ xr = 22 ∨ xr = 23 ∨ xr = 24 ∨ xr = 25) as H by lia.
    by destruct_or! H; subst. }
  assert (cload s (ea s TCG_AREG0 (a64_off ar)) 16 = Ret b16) as Hld by (unfold cload; erewrite ea_env by done; by eapply sim_rd_a64).
  assert (Z.of_nat (length b16) = 16) as Hlen by (eapply rd_mem_length; [|exact Hld]; lia).
  rewrite (exec_emits_cons _ _ _ (set_xmm s (xr - TE_XMM0) b16)).
  - eexists. split; [done|]. eapply sim_set_xmm; try done. lia.
  - rewrite <- Hreg. apply exec_ld128; [|done]. erewrite ea_env by done. apply Z.divide_add_r; [apply Hlay|done].
Qed.

(** Registers one by one: what the dynamic bridge does. *)
Lemma simulate_regs env xx aa xrs ars j args args' : env_ok env → names xx j xrs → names aa j ars → length xrs = length ars →
  Forall (λ p, xreg_ok p.1 ∧ p.2 = TE_Full) xrs → Forall (λ p, areg_ok p.1) ars →
  Forall2 (λ x a, is_xmm x.1 = true → (16 | a64_off a.1)) xrs ars →
  regs_one_by_one env xx aa j (length xrs) args = Ret args' →
  ∃ es, emit_loop (code_reg_reg OFF_ZREGS xx aa) j (length xrs) = Ret es ∧ moves es env args env args'.
Proof.
  intros Henv. revert ars j args. induction xrs as [|[x xi] xrs IH]; intros ars j args Hx Ha Hlen Hxs Has Hal Hrun.
  - injection Hrun as <-. exists []. split; [done|apply moves_nil].
  - destruct ars as [|[a ai] ars]; [done|]. apply names_cons in Hx as (Hx0 & Hxi & Hx). apply names_cons in Ha as (Ha0 & _ & Ha).
    apply Forall_cons in Hxs as [[Hxok Hfull] Hxs]. apply Forall_cons in Has as [Haok Has].
    apply Forall2_cons in Hal as [Hal0 Hal]. cbn [fst snd] in *. subst xi.
    cbn [length regs_one_by_one] in Hrun. rewrite Hx0, Ha0, Hfull in Hrun. cbn [mbind outcome_bind] in Hrun.
    destruct (rd_a64_ok env a Henv Haok) as (bs & Hl & Hok & _ & Hrd).
    assert (∃ args1 es1, code_reg_reg OFF_ZREGS xx aa j = Ret es1 ∧ moves es1 env args env args1 ∧
      regs_one_by_one env xx aa (j + 1) (length xrs) args1 = Ret args') as (args1 & es1 & He1 & Hm1 & Hrun1).
    { unfold code_reg_reg. rewrite Hx0, Ha0. cbn [mbind outcome_bind]. unfold copy_reg in Hrun. destruct (is_xmm x) eqn:Hxmm.
      - rewrite (Hrd 16) in Hrun by lia. cbn [mbind outcome_bind] in Hrun.
        destruct (wr args (x64_enum_2_ptr x) _) as [args1|] eqn:Hw; [|done]. exists args1. eexists. split_and!; [done| |done].
        eapply code_xmm; [|by apply (Hrd 16)|by apply Hal0|done].
        unfold is_xmm, in_range in Hxmm. btests. lia.
      - rewrite (Hrd 8) in Hrun by lia. cbn [mbind outcome_bind] in Hrun.
        destruct (wr args (x64_enum_2_ptr x) _) as [args1|] eqn:Hw; [|done]. exists args1. eexists. split_and!; [done| |done].
        eapply code_gpr; [done|done|by apply (Hrd 8)|]. rewrite Hfull. unfold ext_value. cbn [Z.eqb Pos.eqb TE_Full TE_SExt8_32 TE_SExt16_32 TE_ZExt8_32 TE_ZExt16_32].
        assert (bytes_ok (take (Z.to_nat 8) bs)) as Hb8 by (by apply Forall_take).
        assert (length (take (Z.to_nat 8) bs) = 8%nat) as Hl8 by (rewrite length_take; lia).
        rewrite wrap_small by (apply le_val_u64; [done|lia]). by rewrite le_bytes_8. }
    destruct (IH ars (j + 1) args1) as (es2 & He2 & Hm2); try done; [by injection Hlen|].
    exists (es1 ++ es2). split; [by apply emit_loop_S|by eapply moves_app].
Qed.

(** ** The stack *)

Lemma ea_stack s env args off : sim s env args → 0 ≤ off → off < room → ea s TCG_REG_RSP off = sp + off.
Proof. intros Hs Ho Hr. unfold ea. rewrite (sim_sp _ _ _ _ _ _ _ _ Hs). apply wrap_small. destruct Hlay. unfold in_u. lia. Qed.

(** RAX, extended, to a stack slot. *)
Lemma via_rax_stack e li v off env args args' s : sim s env args → exec_emit e s = Ret (set_gpr s TCG_REG_RAX v) →
  0 ≤ off → off + 8 ≤ room → wr args (SIZEOF_REGISTER_ARGS + off) (le_bytes 8 (ext_value li v)) = Ret args' →
  ∃ s', exec_emits (e :: tcg_extend_arg_in_rax_by_loc_info li ++ [E_st TCG_TYPE_PTR TCG_REG_RAX TCG_REG_RSP off]) s = Ret s' ∧
    sim s' env args'.
Proof.
  intros Hs He Ho Hr Hw. rewrite (exec_emits_cons _ _ _ _ He), exec_emits_app.
  assert (sim (set_gpr s TCG_REG_RAX v) env args) as Hs1 by (by apply sim_scratch).
  destruct (exec_extend li (set_gpr s TCG_REG_RAX v) v) as (s2 & -> & Hon); [done|]. cbn [mbind outcome_bind].
  pose proof (ext_value_u64 li v) as Hev.
  assert (sim s2 env args) as Hs2 by (eapply sim_only_reg; [exact Hs1| |exact Hev|exact Hon]; done). destruct Hon as (Hg & _ & _).
  destruct (sim_store _ _ _ _ _ _ Hlay s2 env args args' off (le_bytes 8 (ext_value li v))) as (m & Hm & Hs3); [done|done|rewrite length_le_bytes; lia|done|].
  exists (set_mem s2 m). split; [|done]. cbn [exec_emits]. rewrite (exec_st _ _ _ _ _ m); [done|].
  rewrite (ea_stack s2 env args) by (done || lia). rewrite Hg. exact Hm.
Qed.

Lemma code_slot ar li off env args args' b8 : 0 ≤ off → off + 8 ≤ room → rd_a64 env ar 8 = Ret b8 →
  wr args (SIZEOF_REGISTER_ARGS + off) (le_bytes 8 (ext_value li (le_val b8))) = Ret args' →
  moves (E_ld TCG_TYPE_PTR TCG_REG_RAX TCG_AREG0 (a64_off ar) :: tcg_extend_arg_in_rax_by_loc_info li ++
         [E_st TCG_TYPE_PTR TCG_REG_RAX TCG_REG_RSP off]) env args env args'.
Proof.
  intros Ho Hr Hrd Hw s Hs. destruct (rd_a64_ptr _ _ _ _ Hrd) as [p Hp].
  eapply via_rax_stack; try done. apply exec_ld. unfold cload. erewrite ea_env by done. by eapply sim_rd_a64.
Qed.

(** Registers to the stack: what the dynamic bridge does. *)
Lemma simulate_to_stack env xx aa ars j args args' : env_ok env → names aa j ars → Forall (λ p, areg_ok p.1) ars →
  te_get_mem_locinfo xx = TE_Full → 0 ≤ te_get_mem xx → 0 ≤ j → te_get_mem xx + 8 * j + 8 * Z.of_nat (length ars) ≤ room →
  mem_from_regs env xx aa 8 (te_get_mem xx + 8 * j) j (length ars) args = Ret args' →
  ∃ es, emit_loop (code_mem_reg OFF_ZREGS xx aa false) j (length ars) = Ret es ∧ moves es env args env args'.
Proof.
  intros Henv. revert j args. induction ars as [|[a ai] ars IH]; intros j args Ha Has Hli Hmem Hj Hroom Hrun.
  - injection Hrun as <-. exists []. split; [done|apply moves_nil].
  - apply names_cons in Ha as (Ha0 & _ & Ha). apply Forall_cons in Has as [Haok Has]. cbn [fst length] in *.
    destruct (rd_a64_ok env a Henv Haok) as (bs & Hl & Hok & _ & Hrd). pose proof (lay_room _ _ _ _ _ _ Hlay) as Hrm.
    cbn [mem_from_regs] in Hrun. unfold copy_reg in Hrun. rewrite Ha0, Hli in Hrun. cbn [mbind outcome_bind] in Hrun.
    rewrite (Hrd 8) in Hrun by lia. cbn [mbind outcome_bind] in Hrun.
    destruct (wr args (SIZEOF_REGISTER_ARGS + _) _) as [args1|] eqn:Hw; [|done]. cbn [mbind outcome_bind] in Hrun.
    change (8 =? 16) with false in Hrun. cbv iota in Hrun.
    change (extend_arg_by_loc_info args1 (SIZEOF_REGISTER_ARGS + (te_get_mem xx + 8 * j)) TE_Full) with (Ret args1) in Hrun.
    cbn [mbind outcome_bind] in Hrun. rewrite wrap_small in Hrun by (unfold in_u; lia).
    replace (te_get_mem xx + 8 * j + 8) with (te_get_mem xx + 8 * (j + 1)) in Hrun by lia.
    destruct (IH (j + 1) args1) as (es2 & He2 & Hm2); [done|done|done|done|lia|lia|done|].
    eexists (_ ++ es2). split; [apply emit_loop_S; [|done]; unfold code_mem_reg; rewrite Ha0; reflexivity|].
    eapply moves_app; [|done]. rewrite wrap_small, Hli by (unfold in_u; lia).
    eapply code_slot; [lia|lia|by apply (Hrd 8)|]. unfold ext_value.
    cbn [Z.eqb Pos.eqb TE_Full TE_SExt8_32 TE_SExt16_32 TE_ZExt8_32 TE_ZExt16_32].
    assert (bytes_ok (take (Z.to_nat 8) bs)) as Hb8 by (by apply Forall_take).
    assert (length (take (Z.to_nat 8) bs) = 8%nat) as Hl8 by (rewrite length_take; lia).
    rewrite wrap_small by (apply le_val_u64; [done|lia]). by rewrite le_bytes_8.
Qed.

(** ** Blocks *)

(** The code before the copy loads RSI. *)
Definition loads_rsi (src : list emit) (s : cpu) (a : Z) : Prop :=
  ∀ s3, gpr s3 TCG_AREG0 = envp → (∀ k, in_u 64 (gpr s3 k)) → (∀ x, x < sp - 24 ∨ sp ≤ x → cmem s3 x = cmem s x) →
  ∃ s4, exec_emits src s3 = Ret s4 ∧ gpr s4 TCG_REG_RSI = a ∧
    (∀ k, k ≠ TCG_REG_RSI → k ≠ TCG_REG_RAX → gpr s4 k = gpr s3 k) ∧ (∀ k, in_u 64 (gpr s4 k)) ∧ xmm s4 = xmm s3 ∧ cmem s4 = cmem s3.

Ltac reg_eq H := rewrite H; cbn [Z.eqb Pos.eqb TCG_REG_RSP TCG_REG_RDI TCG_REG_RSI TCG_REG_RCX TCG_REG_RAX TCG_AREG0 TCG_REG_RBX].

(** Three registers are saved. *)
Lemma copy_prefix s env args n : sim s env args → 0 < n < 2 ^ 64 →
  ∃ s3, exec_emits [E_push TCG_REG_RDI; E_push TCG_REG_RSI; E_push TCG_REG_RCX; E_movi TCG_TYPE_I64 TCG_REG_RCX n] s = Ret s3 ∧
    (∀ k, gpr s3 k = if k =? TCG_REG_RCX then n else if k =? TCG_REG_RSP then sp - 24 else gpr s k) ∧ xmm s3 = xmm s ∧
    rd_mem (cmem s3) (sp - 8) 8 = Ret (le_bytes 8 (gpr s TCG_REG_RDI)) ∧
    rd_mem (cmem s3) (sp - 16) 8 = Ret (le_bytes 8 (gpr s TCG_REG_RSI)) ∧
    rd_mem (cmem s3) (sp - 24) 8 = Ret (le_bytes 8 (gpr s TCG_REG_RCX)) ∧
    (∀ x, x < sp - 24 ∨ sp ≤ x → cmem s3 x = cmem s x) ∧ ∀ a n, mapped (cmem s3) a n = mapped (cmem s) a n.
Proof.
  intros Hs Hn. pose proof (lay_stack _ _ _ _ _ _ Hlay) as Hsp. pose proof (sim_u64 _ _ _ _ _ _ _ _ Hs) as Hu.
  pose proof (sim_low _ _ _ _ _ _ _ _ Hs) as Hlow. pose proof (lay_room _ _ _ _ _ _ Hlay).
  destruct (push_ok TCG_REG_RDI s sp) as (s1 & He1 & Hg1 & Hx1 & Hr1 & Ho1 & Hm1); [by apply (sim_sp _ _ _ _ _ _ _ _ Hs)|lia|done|eapply mapped_sub; [exact Hlow|lia..]|].
  destruct (push_ok TCG_REG_RSI s1 (sp - 8)) as (s2 & He2 & Hg2 & Hx2 & Hr2 & Ho2 & Hm2);
    [by reg_eq Hg1|lia|by reg_eq Hg1|rewrite Hm1; eapply mapped_sub; [exact Hlow|lia..]|].
  destruct (push_ok TCG_REG_RCX s2 (sp - 8 - 8)) as (s3 & He3 & Hg3 & Hx3 & Hr3 & Ho3 & Hm3);
    [by reg_eq Hg2|lia|reg_eq Hg2; by reg_eq Hg1|rewrite Hm2, Hm1; eapply mapped_sub; [exact Hlow|lia..]|].
  destruct (exec_movi TCG_TYPE_I64 TCG_REG_RCX n s3) as [b He4].
  eexists. split; [cbn [exec_emits]; rewrite He1; cbn [mbind outcome_bind]; rewrite He2; cbn [mbind outcome_bind];
    rewrite He3; cbn [mbind outcome_bind]; rewrite He4; reflexivity|].
  cbn [gpr xmm cmem set_zf set_gpr]. change (wbits (type_width TCG_TYPE_I64)) with 64. rewrite Hg2, Hg1 in Hr3. rewrite Hg1 in Hr2.
  replace (sp - 16) with (sp - 8 - 8) by lia. replace (sp - 24) with (sp - 8 - 8 - 8) by lia. split_and!.
  - intros k. destruct (k =? TCG_REG_RCX); [rewrite !wrap_small; rewrite ?wrap_small; unfold in_u; (done || lia)|].
    rewrite Hg3. destruct (k =? TCG_REG_RSP) eqn:E; [done|]. by rewrite Hg2, E, Hg1, E.
  - congruence.
  - rewrite (rd_mem_ext (cmem s2)) by (intros; apply Ho3; lia). rewrite (rd_mem_ext (cmem s1)) by (intros; apply Ho2; lia). done.
  - rewrite (rd_mem_ext (cmem s2)) by (intros; apply Ho3; lia). exact Hr2.
  - exact Hr3.
  - intros x Hx. rewrite Ho3, Ho2, Ho1 by lia. done.
  - intros a n'. by rewrite Hm3, Hm2, Hm1.
Qed.

(** The copy itself. *)
Lemma copy_run s off n a v : gpr s TCG_REG_RSP = sp - 24 → gpr s TCG_REG_RCX = n → gpr s TCG_REG_RSI = a → (∀ k, in_u 64 (gpr s k)) →
  0 ≤ off → 0 < n → off + n ≤ room → rd_mem gmem a n = Ret v → rd_mem (cmem s) a n = Ret v → mapped (cmem s) (sp + off) n = true →
  ∃ s', exec_emits [E_mov TCG_TYPE_PTR TCG_REG_RDI TCG_REG_RSP; E_addi TCG_REG_RDI (u32 (off + 8 * 3)); E_out8 [0xf3; 0xa4]] s = Ret s' ∧
    (∀ k, k ≠ TCG_REG_RDI → k ≠ TCG_REG_RSI → k ≠ TCG_REG_RCX → gpr s' k = gpr s k) ∧ xmm s' = xmm s ∧
    (∀ x, sp + off ≤ x < sp + off + n → cmem s' x = v !! Z.to_nat (x - (sp + off))) ∧
    (∀ x, x < sp + off ∨ sp + off + n ≤ x → cmem s' x = cmem s x).
Proof.
  intros Hsp Hcx Hsi Hu Ho Hn Hr Hg Hrd Hm. pose proof (lay_stack _ _ _ _ _ _ Hlay). pose proof (lay_room _ _ _ _ _ _ Hlay).
  destruct (guest_range _ _ _ _ _ _ Hlay a n v Hn Hg) as (Ha & Ha' & Hdis).
  rewrite (exec_emits_cons _ _ _ _ (exec_mov TCG_REG_RDI TCG_REG_RSP s eq_refl eq_refl)), Hsp, (wrap_small 64 (sp - 24)) by (unfold in_u; lia).
  destruct (exec_addi TCG_REG_RDI (u32 (off + 8 * 3)) (set_gpr s TCG_REG_RDI (sp - 24))) as (s2 & He2 & Hg2 & Hx2 & Hm2).
  { cbn [gpr set_gpr]. by apply wrap_range. }
  rewrite (exec_emits_cons _ _ _ _ He2). cbn [exec_emits]. rewrite exec_rep_movsb. unfold rep_movsb.
  assert (gpr s2 TCG_REG_RDI = sp + off) as Hdi.
  { rewrite Hg2. cbn [gpr set_gpr Z.eqb Pos.eqb TCG_REG_RDI]. rewrite (wrap_small 64 (sp - 24)), (wrap_small 32), wrap_small by (unfold in_u; rewrite ?wrap_small; unfold in_u; lia). lia. }
  assert (gpr s2 TCG_REG_RCX = n ∧ gpr s2 TCG_REG_RSI = a) as [-> ->] by (rewrite !Hg2; by cbn).
  rewrite Hdi, Hm2. cbn [cmem set_gpr].
  destruct (copy_up_ok (Z.to_nat n) (cmem s) (sp + off) a v) as (m' & -> & Hin & Hout); try rewrite Z2Nat.id by lia; try done; try lia.
  rewrite !Z2Nat.id in Hin, Hout by lia. cbn [mbind outcome_bind]. eexists. split; [done|]. split_and!; [|exact Hx2|done|done].
  intros k H1 H2 H3. cbn [gpr set_gpr set_mem]. rewrite !(proj2 (Z.eqb_neq k _)) by done. rewrite Hg2. cbn [gpr set_gpr].
  by rewrite !(proj2 (Z.eqb_neq k _)) by done.
Qed.

(** The registers come back. *)
Lemma copy_suffix s di si cx : gpr s TCG_REG_RSP = sp - 24 → in_u 64 di → in_u 64 si → in_u 64 cx →
  rd_mem (cmem s) (sp - 8) 8 = Ret (le_bytes 8 di) → rd_mem (cmem s) (sp - 16) 8 = Ret (le_bytes 8 si) →
  rd_mem (cmem s) (sp - 24) 8 = Ret (le_bytes 8 cx) →
  ∃ s', exec_emits [E_pop TCG_REG_RCX; E_pop TCG_REG_RSI; E_pop TCG_REG_RDI] s = Ret s' ∧
    (∀ k, gpr s' k = if k =? TCG_REG_RDI then di else if k =? TCG_REG_RSI then si else if k =? TCG_REG_RCX then cx
                     else if k =? TCG_REG_RSP then sp else gpr s k) ∧ xmm s' = xmm s ∧ cmem s' = cmem s.
Proof.
  intros Hsp Hdi Hsi Hcx Rdi Rsi Rcx. pose proof (lay_stack _ _ _ _ _ _ Hlay). pose proof (lay_room _ _ _ _ _ _ Hlay).
  assert (∀ x, in_u 64 x → le_val (le_bytes 8 x) = x) as Hval by (intros x Hx; rewrite le_val_bytes; by apply (wrap_small 64)).
  destruct (pop_ok TCG_REG_RCX s (sp - 24) (le_bytes 8 cx)) as (s1 & He1 & Hg1 & Hx1 & Hm1); [done|lia|lia|done|done|by rewrite Hval|].
  destruct (pop_ok TCG_REG_RSI s1 (sp - 16) (le_bytes 8 si)) as (s2 & He2 & Hg2 & Hx2 & Hm2);
    [reg_eq Hg1; lia|lia|lia|done|unfold cload; by rewrite Hm1|by rewrite Hval|].
  destruct (pop_ok TCG_REG_RDI s2 (sp - 8) (le_bytes 8 di)) as (s3 & He3 & Hg3 & Hx3 & Hm3);
    [reg_eq Hg2; lia|lia|lia|done|unfold cload; by rewrite Hm2, Hm1|by rewrite Hval|].
  exists s3. split; [cbn [exec_emits]; rewrite He1; cbn [mbind outcome_bind]; rewrite He2; cbn [mbind outcome_bind]; by rewrite He3|].
  rewrite Hval in Hg1, Hg2, Hg3 by done. split_and!; [|congruence|congruence].
  intros k. rewrite Hg3. destruct (k =? TCG_REG_RDI); [done|]. destruct (k =? TCG_REG_RSP) eqn:E.
  - apply Z.eqb_eq in E as ->. cbn [Z.eqb Pos.eqb TCG_REG_RSP TCG_REG_RSI TCG_REG_RCX]. lia.
  - rewrite Hg2, E, Hg1, E. done.
Qed.

Lemma code_copy_ok xx n src a v env args args' :
  0 ≤ te_get_mem xx → 0 < n → te_get_mem xx + n ≤ room → rd_mem gmem a n = Ret v →
  wr args (SIZEOF_REGISTER_ARGS + te_get_mem xx) v = Ret args' → (∀ s, sim s env args → loads_rsi src s a) →
  moves (code_copy xx n src) env args env args'.
Proof.
  intros Ho Hn Hr Hv Hw Hsrc s Hs. pose proof (lay_stack _ _ _ _ _ _ Hlay). pose proof (lay_room _ _ _ _ _ _ Hlay).
  pose proof (sim_u64 _ _ _ _ _ _ _ _ Hs) as Hu. destruct (guest_range _ _ _ _ _ _ Hlay a n v Hn Hv) as (Ha & Ha' & Hdis).
  pose proof (rd_mem_length gmem a n v ltac:(lia) Hv) as Hlv.
  destruct (copy_prefix s env args n Hs) as (s3 & He3 & Hg3 & Hx3 & Rdi & Rsi & Rcx & Hout3 & Hmap3); [lia|].
  destruct (Hsrc s Hs s3) as (s4 & He4 & Hsi & Hg4 & Hu4 & Hx4 & Hm4); [reg_eq Hg3; apply (sim_env _ _ _ _ _ _ _ _ Hs)| |done|].
  { intros k. rewrite Hg3. repeat case_match; [unfold in_u; lia|unfold in_u; lia|apply Hu]. }
  destruct (copy_run s4 (te_get_mem xx) n a v) as (s5 & He5 & Hg5 & Hx5 & Hin5 & Hout5); try done.
  - rewrite Hg4 by done. by reg_eq Hg3.
  - rewrite Hg4 by done. by reg_eq Hg3.
  - rewrite Hm4. rewrite (rd_mem_ext (cmem s)) by (intros; apply Hout3; lia). eapply sim_rd_guest; [exact Hlay|lia|exact Hs|exact Hv].
  - rewrite Hm4, Hmap3. apply mapped_spec. intros x Hx. replace x with (sp + (x - sp)) by lia.
    rewrite (sim_stack _ _ _ _ _ _ _ _ Hs) by lia. apply lookup_lt_is_Some. pose proof (sim_len _ _ _ _ _ _ _ _ Hs). unfold SIZEOF_REGISTER_ARGS in *. lia.
  - destruct (copy_suffix s5 (gpr s TCG_REG_RDI) (gpr s TCG_REG_RSI) (gpr s TCG_REG_RCX)) as (s6 & He6 & Hg6 & Hx6 & Hm6); try done.
    + rewrite Hg5, Hg4 by done. by reg_eq Hg3.
    + rewrite (rd_mem_ext (cmem s4)) by (intros; apply Hout5; lia). by rewrite Hm4.
    + rewrite (rd_mem_ext (cmem s4)) by (intros; apply Hout5; lia). by rewrite Hm4.
    + rewrite (rd_mem_ext (cmem s4)) by (intros; apply Hout5; lia). by rewrite Hm4.
    + exists s6. split.
      { unfold code_copy. rewrite exec_emits_app, He3. cbn [mbind outcome_bind]. rewrite exec_emits_app, He4. cbn [mbind outcome_bind].
        change (exec_emits ([E_mov TCG_TYPE_PTR TCG_REG_RDI TCG_REG_RSP; E_addi TCG_REG_RDI (u32 (te_get_mem xx + 8 * 3)); E_out8 [0xf3; 0xa4]] ++
          [E_pop TCG_REG_RCX; E_pop TCG_REG_RSI; E_pop TCG_REG_RDI]) s4 = Ret s6). rewrite exec_emits_app, He5. exact He6. }
      assert (∀ k, k ≠ TCG_REG_RAX → gpr s6 k = gpr s k) as Hg.
      { intros k Hk. rewrite Hg6. destruct (Z.eqb_spec k TCG_REG_RDI) as [->|]; [done|]. destruct (Z.eqb_spec k TCG_REG_RSI) as [->|]; [done|].
        destruct (Z.eqb_spec k TCG_REG_RCX) as [->|]; [done|]. destruct (Z.eqb_spec k TCG_REG_RSP) as [->|]; [symmetry; apply (sim_sp _ _ _ _ _ _ _ _ Hs)|].
        rewrite Hg5, Hg4, Hg3 by done. by rewrite !(proj2 (Z.eqb_neq k _)). }
      apply (sim_stack_write _ _ _ _ _ _ Hlay s s6 env args args' (te_get_mem xx) v); try done.
      * intros r Hr'. apply Hg. intros ->. done.
      * intros k. destruct (decide (k = TCG_REG_RAX)) as [->|]; [|by rewrite Hg]. rewrite Hg6. cbn [Z.eqb Pos.eqb TCG_REG_RSP TCG_REG_RDI TCG_REG_RSI TCG_REG_RCX TCG_REG_RAX].
        rewrite Hg5 by done. apply Hu4.
      * intros k _. by rewrite Hx6, Hx5, Hx4, Hx3.
      * lia.
      * intros x Hx. rewrite Hm6. apply Hin5. lia.
      * intros x Hx1 Hx2. rewrite Hm6, Hout5, Hm4, Hout3 by lia. done.
      * rewrite Hm6. apply mapped_spec. intros x Hx. rewrite Hout5, Hm4 by lia.
        pose proof (sim_low _ _ _ _ _ _ _ _ Hs) as Hlow. rewrite <- (Hmap3 (sp - 24) 24) in Hlow. rewrite mapped_spec in Hlow. apply Hlow. lia.
Qed.
End step.
