(* ===== verification/A2XArg.v ===== *)
(** * The generated entry code delivers every argument

    The steps of [A2XStep] for the places the conventions choose.  An argument
    is delivered if the code moves it to where the x86-64 callee looks, touches
    no other argument register or stack slot, and changes the emulated
    registers at most in the upper halves of the S registers it puts
    together. *)

From S2P Require Import Prelude Bytes ABIArgInfo FfiTypes Layout Placement AAPrepCif HFA AAAlloc XXPrepCif XXClass XXAlloc CrossABI DyBridge DyEntry DyStep Memory X86 Encoder Machine A2XCode A2XSim A2XStep.

(** ** What may change *)

Definition S_upper (r : Z) : Z * Z := ((r - TE_Q0) * ZREG_SIZE + 4, 4).

Definition touch_fp (pa : place) : list (Z * Z) :=
  match pa with InRegs rs => S_upper <$> rs.*1 | OnStack _ _ => [] end.

Definition touched (pa : place) (env env' : CPUARMState) : Prop :=
  xregs env' = xregs env ∧ framed (touch_fp pa) (zregs env) (zregs env') ∧ env_ok env'.

Lemma touched_refl pa env : env_ok env → touched pa env env.
Proof. intros H. split_and!; [done|apply framed_refl|done]. Qed.

Section arg.
Context (OFF_ZREGS envp : Z) (gmem m0 : memory) (sp room : Z).
Context (Hlay : layout OFF_ZREGS envp gmem m0 sp room).
Abbreviation sim := (sim OFF_ZREGS envp m0 sp room).
Abbreviation moves := (moves OFF_ZREGS envp m0 sp room).
Abbreviation a64_off := (a64_enum_2_offset OFF_ZREGS).
Abbreviation loads_rsi := (loads_rsi envp sp).

Context (env : CPUARMState) (Henv : env_ok env) (gsp : Z) (Hgsp : xreg env REG_SP_NUM = Ret gsp).

Lemma Hgmem a b : gmem a = Some b → 0 ≤ b < 256.
Proof. intros H. by destruct (lay_guest _ _ _ _ _ _ Hlay a b H) as (_ & _ & ? & _). Qed.

Lemma xreg_sp : ∃ bs, rd (xregs env) 248 8 = Ret bs ∧ le_val bs = gsp ∧ in_u 64 gsp.
Proof.
  unfold xreg, REG_SP_NUM in Hgsp. change (31 * 8) with 248 in Hgsp. destruct (rd (xregs env) 248 8) as [bs|] eqn:Hb; [|done].
  injection Hgsp as <-. exists bs. split_and!; [done|done|]. apply le_val_u64; [by apply (rd_bytes_ok _ _ _ _ (proj1 (proj2 (proj2 Henv))) Hb)|].
  apply rd_length in Hb; lia.
Qed.

(** The emulated registers, in any state that agrees outside the scratch words. *)
Lemma agree_x args s s3 off bs : sim s env args → (∀ x, x < sp - 24 ∨ sp ≤ x → cmem s3 x = cmem s x) →
  0 ≤ off → rd (xregs env) off 8 = Ret bs → rd_mem (cmem s3) (envp + off) 8 = Ret bs.
Proof.
  intros Hs Ha Ho Hb. pose proof (rd_inv _ _ _ _ Hb) as (_ & Hl & _). destruct Henv as (Hxl & _).
  rewrite (rd_mem_ext (cmem s)).
  - eapply (rd_mem_at _ envp 256); [lia|lia|apply (sim_x _ _ _ _ _ _ _ _ Hs)|done].
  - intros x Hx. apply Ha. destruct Hlay. unfold ZREG_SIZE in *. lia.
Qed.

Lemma exec_ld_sp args s d : sim s env args →
  exec_emit (E_ld TCG_TYPE_PTR d TCG_AREG0 (OFF_XREG REG_SP_NUM)) s = Ret (set_gpr s d gsp).
Proof.
  intros Hs. destruct xreg_sp as (bs & Hb & <- & _). apply exec_ld. unfold cload, ea. rewrite (sim_env _ _ _ _ _ _ _ _ Hs).
  change (OFF_XREG REG_SP_NUM) with 248. rewrite wrap_small by (destruct Hlay; unfold in_u, ZREG_SIZE in *; lia).
  by apply (agree_x args s s 248 bs).
Qed.

(** ** Addresses for the copies *)

Lemma set_rsi_frame s v : (∀ k, in_u 64 (gpr s k)) → in_u 64 v →
  gpr (set_gpr s TCG_REG_RSI v) TCG_REG_RSI = v ∧
  (∀ k, k ≠ TCG_REG_RSI → k ≠ TCG_REG_RAX → gpr (set_gpr s TCG_REG_RSI v) k = gpr s k) ∧ ∀ k, in_u 64 (gpr (set_gpr s TCG_REG_RSI v) k).
Proof.
  intros Hu Hv. split_and!; cbn [gpr set_gpr].
  - rewrite Z.eqb_refl. by apply wrap_small.
  - intros k Hk _. by rewrite (proj2 (Z.eqb_neq k _)).
  - intros k. case_match; [by apply wrap_range|done].
Qed.

Lemma loads_reg args s r bs : sim s env args → areg_ok r → rd_a64 env r 8 = Ret bs →
  loads_rsi [E_ld TCG_TYPE_PTR TCG_REG_RSI TCG_AREG0 (a64_off r)] s (le_val bs).
Proof.
  intros Hs Hr Hb s3 Hbx Hu Ha. destruct (rd_a64_ptr _ _ _ _ Hb) as [p Hp].
  destruct (rd_a64_ok env r Henv Hr) as (b16 & Hl & Hok & _ & Hrd). rewrite (Hrd 8) in Hb by lia. injection Hb as <-.
  assert (in_u 64 (le_val (take (Z.to_nat 8) b16))) as Hv by (apply le_val_u64; [by apply Forall_take|rewrite length_take; lia]).
  destruct (set_rsi_frame s3 _ Hu Hv) as (H1 & H2 & H3).
  eexists. split; [cbn [exec_emits]; rewrite (exec_ld _ _ _ _ _ (take (Z.to_nat 8) b16)); [reflexivity|]|by split_and!].
  unfold cload, ea. rewrite Hbx. pose proof (env_off_range _ _ _ _ _ _ Hlay _ _ Hp).
  rewrite wrap_small by (destruct Hlay; unfold in_u, ZREG_SIZE in *; lia).
  change (wbytes (type_width TCG_TYPE_PTR)) with 8. rewrite (rd_mem_ext (cmem s)).
  - eapply sim_rd_a64; [lia|done|by apply (Hrd 8)].
  - intros x Hx. apply Ha. destruct Hlay. unfold ZREG_SIZE in *. lia.
Qed.

Lemma loads_sp_off args s off : sim s env args → 0 ≤ off → gsp + off < 2 ^ 64 →
  loads_rsi [E_ld TCG_TYPE_PTR TCG_REG_RSI TCG_AREG0 (OFF_XREG REG_SP_NUM); E_addi TCG_REG_RSI off] s (gsp + off).
Proof.
  intros Hs Ho Hlt s3 Hbx Hu Ha. destruct xreg_sp as (bs & Hb & Hle & Hr).
  assert (exec_emit (E_ld TCG_TYPE_PTR TCG_REG_RSI TCG_AREG0 (OFF_XREG REG_SP_NUM)) s3 = Ret (set_gpr s3 TCG_REG_RSI gsp)) as He1.
  { rewrite <- Hle. apply exec_ld. unfold cload, ea. rewrite Hbx. change (OFF_XREG REG_SP_NUM) with 248.
    rewrite wrap_small by (destruct Hlay; unfold in_u, ZREG_SIZE in *; lia). by apply (agree_x args s s3 248 bs). }
  destruct (set_rsi_frame s3 gsp Hu Hr) as (H1 & H2 & H3).
  destruct (exec_addi TCG_REG_RSI off (set_gpr s3 TCG_REG_RSI gsp)) as (s4 & He2 & Hg & Hx & Hm); [apply H3|].
  exists s4. cbn [exec_emits]. rewrite He1. cbn [mbind outcome_bind]. rewrite He2. rewrite H1 in Hg. split_and!; try done.
  - rewrite Hg, Z.eqb_refl. apply wrap_small. unfold in_u in *. lia.
  - intros k Hk Hk'. rewrite Hg, (proj2 (Z.eqb_neq k _)) by done. by apply H2.
  - intros k. rewrite Hg. case_match; [by apply wrap_range|apply H3].
Qed.

Lemma loads_indirect args s off bs : sim s env args → 0 ≤ off → rd_mem gmem (gsp + off) 8 = Ret bs →
  loads_rsi [E_ld TCG_TYPE_PTR TCG_REG_RAX TCG_AREG0 (OFF_XREG REG_SP_NUM); E_ld TCG_TYPE_PTR TCG_REG_RSI TCG_REG_RAX off] s (le_val bs).
Proof.
  intros Hs Ho Hrd s3 Hbx Hu Ha. destruct xreg_sp as (bsp & Hb & Hle & Hr).
  assert (exec_emit (E_ld TCG_TYPE_PTR TCG_REG_RAX TCG_AREG0 (OFF_XREG REG_SP_NUM)) s3 = Ret (set_gpr s3 TCG_REG_RAX gsp)) as He1.
  { rewrite <- Hle. apply exec_ld. unfold cload, ea. rewrite Hbx. change (OFF_XREG REG_SP_NUM) with 248.
    rewrite wrap_small by (destruct Hlay; unfold in_u, ZREG_SIZE in *; lia). by apply (agree_x args s s3 248 bsp). }
  destruct (guest_range _ _ _ _ _ _ Hlay (gsp + off) 8 bs ltac:(lia) Hrd) as (Hlo & Hhi & Hdis).
  pose proof (rd_mem_bytes_ok gmem Hgmem _ _ _ Hrd) as Hok. pose proof (rd_mem_length gmem (gsp + off) 8 bs ltac:(lia) Hrd) as Hlen.
  assert (in_u 64 (le_val bs)) as Hv by (apply le_val_u64; [done|lia]).
  assert (∀ k, in_u 64 (gpr (set_gpr s3 TCG_REG_RAX gsp) k)) as Hu1 by (intros k; cbn [gpr set_gpr]; case_match; [by apply wrap_range|done]).
  destruct (set_rsi_frame (set_gpr s3 TCG_REG_RAX gsp) (le_val bs) Hu1 Hv) as (H1 & H2 & H3).
  eexists. split; [cbn [exec_emits]; rewrite He1; cbn [mbind outcome_bind]; rewrite (exec_ld _ _ _ _ _ bs); [reflexivity|]|split_and!; try done].
  - unfold cload, ea. cbn [gpr cmem set_gpr]. rewrite Z.eqb_refl, !(wrap_small 64) by (unfold in_u in *; rewrite ?wrap_small; unfold in_u; lia).
    change (wbytes (type_width TCG_TYPE_PTR)) with 8. rewrite (rd_mem_ext (cmem s)) by (intros; apply Ha; destruct Hlay; lia).
    eapply sim_rd_guest; [exact Hlay|lia|exact Hs|exact Hrd].
  - intros k Hk Hk'. rewrite H2 by done. cbn [gpr set_gpr]. by rewrite (proj2 (Z.eqb_neq k _)).
Qed.

(** ** One argument *)

Context (c : cty) (Hval : value_type c = true).
Abbreviation xx_word px := (slot_info px false (csize c)).
Abbreviation aa_word pa := (slot_info pa (by_reference c) (csize c)).

Definition static_delivered (px pa : place) (args : list Z) : Prop :=
  ∃ es env' args', code_arg OFF_ZREGS (xx_word px) (aa_word pa) = Ret es ∧ moves es env args env' args' ∧
    framed (footprint c px) args args' ∧ xx_arg_value args' c (xx_word px) = aa_arg_value env gmem gsp c (aa_word pa) ∧
    touched pa env env'.

(** The code does what the dynamic bridge does. *)
Lemma from_dynamic px pa args : delivered env gmem gsp c px pa args →
  (∀ args', entry_arg env gmem gsp (xx_word px) (aa_word pa) args = Ret args' →
    ∃ es, code_arg OFF_ZREGS (xx_word px) (aa_word pa) = Ret es ∧ moves es env args env args') → static_delivered px pa args.
Proof.
  intros (args' & Hrun & Hf & Hv) Hsim. destruct (Hsim args' Hrun) as (es & Hes & Hm).
  exists es, env, args'. split_and!; (done || by apply touched_refl).
Qed.

Lemma code_regs xrs ars : by_reference c = false → pairs_ok xrs → pairs_ok ars → (1 ≤ length xrs ≤ 4)%nat → (1 ≤ length ars ≤ 4)%nat →
  code_arg OFF_ZREGS (xx_word (InRegs xrs)) (aa_word (InRegs ars)) =
  code_arg_reg_reg OFF_ZREGS (xx_word (InRegs xrs)) (slot_info (InRegs ars) false (csize c)).
Proof.
  intros Href Hx Ha Hxl Hal. rewrite Href. unfold code_arg.
  destruct (slot_regs_flags xrs false (csize c)) as [-> ->]. destruct (slot_regs_flags ars false (csize c)) as [-> ->].
  rewrite !slot_regs_num by (done || lia). by rewrite !(proj2 (Z.eqb_neq 0 _)) by lia.
Qed.

Definition aligned_regs (xrs ars : list (Z * Z)) : Prop := Forall2 (λ x a, is_xmm x.1 = true → (16 | a64_off a.1)) xrs ars.

Lemma simulate_one_by_one xrs ars args : by_reference c = false → pairs_ok xrs → pairs_ok ars → length xrs = length ars →
  (1 ≤ length xrs ≤ 4)%nat → Forall (λ p, xreg_ok p.1) xrs → Forall (λ p, p.2 = TE_Full) xrs → Forall (λ p, areg_ok p.1) ars →
  aligned_regs xrs ars → ∀ args', entry_arg env gmem gsp (xx_word (InRegs xrs)) (aa_word (InRegs ars)) args = Ret args' →
  ∃ es, code_arg OFF_ZREGS (xx_word (InRegs xrs)) (aa_word (InRegs ars)) = Ret es ∧ moves es env args env args'.
Proof.
  intros Href Hxok Haok Hlen Hl Hx Hfull Ha Hal args' Hrun.
  rewrite (entry_regs env gmem gsp c) in Hrun by (done || lia). rewrite code_regs by (done || lia).
  unfold arg_reg_reg in Hrun. unfold code_arg_reg_reg.
  rewrite !slot_regs_num in * by (done || lia). rewrite Hlen, Z.eqb_refl, Nat2Z.id in *. rewrite <- Hlen in *.
  apply (simulate_regs _ _ _ _ _ _ Hlay env _ _ xrs ars); try done.
  - apply names_slot; (done || lia).
  - apply names_slot; (done || lia).
  - by apply Forall_and.
Qed.

(** Vector registers are aligned. *)
Lemma vreg_aligned k n : 0 ≤ k → k + n ≤ 8 → Forall (λ a : Z * Z, (16 | a64_off a.1)) (reg_seq (TE_Q0 + k) n).
Proof.
  intros Hk Hn. apply Forall_forall. intros [r i] Hr. assert (r ∈ (reg_seq (TE_Q0 + k) n).*1) as Hin
    by (apply list_elem_of_fmap; exists (r, i); by split). apply reg_seq_elem in Hin. cbn [fst].
  unfold a64_enum_2_offset, OFF_ZREG, ZREG_SIZE. assert (TE_Q0 ≤ r ≤ TE_Q7) as Hq by (unfold TE_Q0, TE_Q7 in *; lia).
  assert (in_range TE_S0 TE_S7 r = false ∧ in_range TE_D0 TE_D7 r = false ∧ in_range TE_Q0 TE_Q7 r = true) as (-> & -> & ->).
  { unfold in_range, TE_Q0, TE_Q7, TE_S0, TE_S7, TE_D0, TE_D7 in *. split_and!; [apply andb_false_intro2, Z.leb_gt; lia..|].
    apply andb_true_intro. split; apply Z.leb_le; lia. }
  apply Z.divide_add_r; [apply (lay_zalign _ _ _ _ _ _ Hlay)|]. exists ((r - TE_Q0) * 16). lia.
Qed.

Lemma aligned_vregs xrs k n : length xrs = length (reg_seq (TE_Q0 + k) n) → 0 ≤ k → k + n ≤ 8 → aligned_regs xrs (reg_seq (TE_Q0 + k) n).
Proof.
  intros Hl Hk Hn. pose proof (vreg_aligned k n Hk Hn) as Hf. unfold aligned_regs. revert xrs Hl.
  induction Hf as [|a ars Ha Hf IH]; intros [|x xrs] Hl; try done; constructor; [done|]. apply IH. by injection Hl.
Qed.

(** A floating-point value or HFA of doubles. *)
Lemma static_hfa_plain s n xrs ars args room' :
  hfa c = Some (s, n) → (s = SFloat ∧ n = 1) ∨ s = SDouble → xx_shape c (InRegs xrs) room' → aa_shape c (InRegs ars) →
  OFF_RAX ≤ Z.of_nat (length args) → static_delivered (InRegs xrs) (InRegs ars) args.
Proof.
  intros Hh Hsn Hx Ha Hargs. apply from_dynamic; [by eapply deliver_hfa_plain|].
  destruct Hx as (Hsz & g & s0 & Hg & Hs0 & Hgb & Hsb & ->). destruct Ha as (k & n' & Hk & Hn & Hkn & Haa).
  rewrite Hh in Haa. destruct Haa as [-> ->]. pose proof (by_reference_hfa c _ _ Hh) as Href.
  destruct (xx_regs_facts c Hval g s0 Hsz Hg Hs0 Hgb Hsb) as (Hxok & Hxl & Hw & Hxr & Hnd).
  destruct (aa_regs_facts TE_Q0 _ (or_intror eq_refl) k Hk Hn Hkn) as (Haok & Hal & Har).
  destruct (hfa_size c s n (value_wf c Hval) Hh) as [Hcs _].
  assert (words c = Z.to_nat n) as Hwn.
  { unfold words. rewrite Hcs. destruct Hsn as [[-> ->]| ->]; [done|]. simpl scalar_size.
    replace (8 * n + 7) with (7 + n * 8) by lia. by rewrite Z.div_add by lia. }
  rewrite (hfa_loc_info c Hval _ _ Hh) in *.
  assert (length (regs_of TE_Full (code_class c 0) g s0) = length (reg_seq (TE_Q0 + k) n)) as Hlen by lia.
  apply simulate_one_by_one; try done; [lia|apply regs_of_full|by apply aligned_vregs].
Qed.

(** Integers and mixed structures in general registers. *)
Lemma static_int_full xrs ars args room' : hfa c = None → narrow c = false → xx_shape c (InRegs xrs) room' → aa_shape c (InRegs ars) →
  aligned_regs xrs ars → OFF_RAX ≤ Z.of_nat (length args) → static_delivered (InRegs xrs) (InRegs ars) args.
Proof.
  intros Hh Hnar Hx Ha Hal Hargs. apply from_dynamic; [by eapply deliver_reg_reg_int|].
  destruct Hx as (Hsz & g & s0 & Hg & Hs0 & Hgb & Hsb & ->). destruct Ha as (k & n & Hk & Hn & Hkn & Haa).
  rewrite Hh in Haa. pose proof (by_reference_small c Hsz) as Href. rewrite Href in Haa. destruct Haa as [-> ->].
  destruct (xx_regs_facts c Hval g s0 Hsz Hg Hs0 Hgb Hsb) as (Hxok & Hxl & Hw & Hxr & Hnd).
  destruct (aa_regs_facts TE_X0 _ (or_introl eq_refl) k Hk Hn Hkn) as (Haok & Hal' & Har).
  rewrite (loc_info_full c Hnar) in *. apply simulate_one_by_one; try done; [lia|lia|apply regs_of_full].
Qed.

(** A narrow integer. *)
Lemma narrow_bytes v b8 : narrow c = true → length b8 = 8%nat → bytes_ok b8 → le_val b8 = v →
  take (Z.to_nat (csize c)) (le_bytes 8 (ext_value (loc_info c) v)) = take (Z.to_nat (csize c)) b8.
Proof.
  intros Hn Hl Hok <-. destruct (narrow_scalar c Hn) as (s & Hc & Hs). assert (csize c ≤ 2) by (rewrite Hc; simpl; lia).
  rewrite le_bytes_take, ext_value_low by lia. rewrite <- (le_bytes_take 8) by lia. f_equal. by apply le_bytes_8.
Qed.

Lemma static_narrow x li a args :
  narrow c = true → by_reference c = false → xreg_ok x → is_xmm x = false → li = loc_info c →
  pairs_ok [(x, li)] → pairs_ok [(a, 0)] → areg_ok a → OFF_RAX ≤ Z.of_nat (length args) → hfa c = None →
  static_delivered (InRegs [(x, li)]) (InRegs [(a, 0)]) args.
Proof.
  intros Hn Href Hx Hxmm -> Hxok Haok Ha Hargs Hh. destruct (reg_fp_range x Hx) as [Hr1 Hr2]. unfold xwidth in Hr2. rewrite Hxmm in Hr2.
  destruct (rd_a64_ok env a Henv Ha) as (bs & Hl & Hok & _ & Hrd). set (b8 := take (Z.to_nat 8) bs).
  assert (length b8 = 8%nat ∧ bytes_ok b8) as [Hl8 Hok8] by (split; [unfold b8; rewrite length_take; lia|by apply Forall_take]).
  destruct (wr_copy args (x64_enum_2_ptr x) (le_bytes 8 (ext_value (loc_info c) (le_val b8)))) as (args' & Hw & Hf & Hm); [done|rewrite length_le_bytes; lia|].
  rewrite length_le_bytes in Hf, Hm. destruct (narrow_words c Hval Hn) as (_ & Hsz & _).
  assert (names (xx_word (InRegs [(x, loc_info c)])) 0 [(x, loc_info c)]) as Hxn by (apply names_slot; (done || simpl; lia)).
  assert (names (slot_info (InRegs [(a, 0)]) false (csize c)) 0 [(a, 0)]) as Han by (apply names_slot; (done || simpl; lia)).
  apply names_cons in Hxn as (Hx0 & Hxi & _). apply names_cons in Han as (Ha0 & _ & _).
  eexists _, env, args'. split_and!.
  - rewrite code_regs by (done || simpl; lia). unfold code_arg_reg_reg. rewrite !slot_regs_num by (done || simpl; lia).
    cbn [length Z.of_nat]. rewrite Z.eqb_refl. change (Z.to_nat (Z.of_nat 1)) with 1%nat. cbn [Pos.of_succ_nat Z.to_nat Pos.to_nat Pos.iter_op emit_loop]. unfold code_reg_reg.
    rewrite Hx0, Ha0, Hxi. cbn [mbind outcome_bind]. rewrite Hxmm. cbn [mbind outcome_bind]. reflexivity.
  - rewrite app_nil_r. by eapply code_gpr; [done|done|done|by apply (Hrd 8)|].
  - simpl. unfold reg_fp, xwidth. by rewrite Hxmm.
  - rewrite Href. rewrite xx_value_regs, aa_value_regs, Hh by (done || simpl; lia). cbn [gather fmap list_fmap fst].
    rewrite Hm, (Hrd 8) by lia. cbn [mbind outcome_bind fmap outcome_fmap]. rewrite !app_nil_r. f_equal.
    change (take (Z.to_nat 8) bs) with b8. rewrite (take_ge (le_bytes 8 _)) by (by rewrite length_le_bytes). by apply narrow_bytes.
  - by apply touched_refl.
Qed.

Lemma static_reg_reg_int xrs ars args room' : hfa c = None → xx_shape c (InRegs xrs) room' → aa_shape c (InRegs ars) →
  aligned_regs xrs ars → OFF_RAX ≤ Z.of_nat (length args) → static_delivered (InRegs xrs) (InRegs ars) args.
Proof.
  intros Hh Hx Ha Hal Hargs. destruct (narrow c) eqn:Hnar; [|by eapply static_int_full].
  destruct Hx as (Hsz & g & s0 & Hg & Hs0 & Hgb & Hsb & ->). destruct Ha as (k & n & Hk & Hn & Hkn & Haa).
  rewrite Hh in Haa. pose proof (by_reference_small c Hsz) as Href. rewrite Href in Haa. destruct Haa as [-> ->].
  destruct (xx_regs_facts c Hval g s0 Hsz Hg Hs0 Hgb Hsb) as (Hxok & Hxl & Hw & Hxr & Hnd).
  destruct (aa_regs_facts TE_X0 _ (or_introl eq_refl) k Hk Hn Hkn) as (Haok & Hal' & Har).
  destruct (narrow_scalar c Hnar) as (s & Hc & Hss). assert (words c = 1%nat) as Hw1 by (rewrite Hc; apply words_scalar).
  revert Hxok Hxr Haok Har. rewrite Hw1.
  assert (∃ cl, code_class c 0 = [cl] ∧ is_gpr_class cl = true) as (cl & Hcl & Hgcl).
  { rewrite Hc in Hnar |- *. exists (scalar_class s 0). split; [done|]. by destruct s. }
  rewrite Hcl in *. cbn [regs_of]. rewrite Hgcl. change (Z.of_nat 1) with 1. rewrite reg_seq_1.
  rewrite ngpr_of_cons, Hgcl in Hgb. destruct (reg_counts_le []) as (? & _).
  intros Hxok [Hx _]%Forall_cons Haok [Ha _]%Forall_cons. destruct (gpr_ptr g) as [_ Hxmm]; [lia|]. by apply static_narrow.
Qed.

(** ** To the stack *)

Lemma code_mem_regs off li ars : by_reference c = false → pairs_ok ars → (1 ≤ length ars ≤ 4)%nat → csize c ≠ 16 * Z.of_nat (length ars) →
  code_arg OFF_ZREGS (xx_word (OnStack off li)) (aa_word (InRegs ars)) =
  emit_loop (code_mem_reg OFF_ZREGS (xx_word (OnStack off li)) (slot_info (InRegs ars) false (csize c)) false) 0 (length ars).
Proof.
  intros Href Hok Hl Hne. rewrite Href. unfold code_arg, code_arg_mem_reg. destruct (slot_stack_flags off li false (csize c)) as [-> ->].
  destruct (slot_regs_flags ars false (csize c)) as [-> ->]. rewrite !slot_regs_num by (done || lia).
  rewrite (proj2 (Z.eqb_neq 0 (Z.of_nat (length ars)))) by lia. cbn [andb orb negb].
  change (te_get_arg_size _) with (csize c). rewrite (proj2 (Z.eqb_neq _ (csize c))) by lia. by rewrite Nat2Z.id.
Qed.

Lemma entry_mem_regs off li ars args : by_reference c = false → pairs_ok ars → (1 ≤ length ars ≤ 4)%nat → csize c ≠ 16 * Z.of_nat (length ars) →
  in_u 32 off → in_u 32 li →
  entry_arg env gmem gsp (xx_word (OnStack off li)) (aa_word (InRegs ars)) args =
  mem_from_regs env (xx_word (OnStack off li)) (slot_info (InRegs ars) false (csize c)) 8 off 0 (length ars) args.
Proof.
  intros Href Hok Hl Hne Ho Hli. rewrite Href. unfold entry_arg, arg_mem_reg. destruct (slot_stack_flags off li false (csize c)) as [-> ->].
  destruct (slot_regs_flags ars false (csize c)) as [-> ->]. rewrite !slot_regs_num by (done || lia).
  rewrite (proj2 (Z.eqb_neq 0 (Z.of_nat (length ars)))) by lia. cbn [andb orb negb].
  change (te_get_arg_size _) with (csize c). rewrite (proj2 (Z.eqb_neq _ (csize c))) by lia. rewrite Nat2Z.id.
  by destruct (slot_stack_mem off li false (csize c) Ho Hli) as [-> _].
Qed.

Lemma static_mem_reg off ars args room' : room' ≤ room →
  xx_shape c (OnStack off (loc_info c)) room' → aa_shape c (InRegs ars) → by_reference c = false → spread_floats c = false →
  Z.of_nat (length args) = SIZEOF_REGISTER_ARGS + room → static_delivered (OnStack off (loc_info c)) (InRegs ars) args.
Proof.
  intros Hrr Hx Ha Href Hsp Hargs. pose proof Hx as (Ho & _ & Hroom & _ & Hrm). pose proof (csize_pos c (value_wf c Hval)).
  pose proof (align_up_spec (csize c) 8 ltac:(lia)). pose proof (loc_info_range c).
  assert (in_u 32 off ∧ in_u 32 (loc_info c)) as [Hou Hlu] by (unfold in_u; lia).
  destruct (aa_regs_value env gmem gsp Henv c Hval ars Ha Href Hsp) as (Hok & Hl & Har & Hlen & Hnl & Hv).
  destruct (slot_stack_mem off (loc_info c) false (csize c) Hou Hlu) as [Hm Hml].
  destruct (narrow c) eqn:Hnar.
  - destruct (narrow_words c Hval Hnar) as (_ & Hsz & Hal). specialize (Hnl eq_refl). rewrite Hal in *.
    destruct ars as [|[a ai] [|]]; try done. apply Forall_cons in Har as [Haok _]. simpl in Haok.
    destruct (rd_a64_ok env a Henv Haok) as (bs & Hlb & Hokb & _ & Hrd). set (b8 := take (Z.to_nat 8) bs).
    assert (length b8 = 8%nat ∧ bytes_ok b8) as [Hl8 Hok8] by (split; [unfold b8; rewrite length_take; lia|by apply Forall_take]).
    destruct (wr_copy args (SIZEOF_REGISTER_ARGS + off) (le_bytes 8 (ext_value (loc_info c) (le_val b8)))) as (args' & Hw & Hf & Hr');
      [unfold SIZEOF_REGISTER_ARGS; lia|rewrite length_le_bytes; lia|]. rewrite length_le_bytes in Hf, Hr'.
    eexists _, env, args'. split_and!.
    + rewrite code_mem_regs by (done || simpl; lia). cbn [length emit_loop]. unfold code_mem_reg.
      rewrite (slot_get [(a, ai)] _ _ 0 a ai 0) by (done || simpl; lia). cbn [mbind outcome_bind]. reflexivity.
    + rewrite app_nil_r, Hm, Hml, wrap_small by (unfold in_u; lia). rewrite Z.add_0_r.
      eapply code_slot; [exact Hlay|lia|lia|by apply (Hrd 8)|done].
    + unfold footprint. by rewrite Hal.
    + rewrite xx_value_stack by done. rewrite Hr' by lia. rewrite Href, (Hv b8).
      * f_equal. by apply narrow_bytes.
      * cbn [gather fmap list_fmap fst]. rewrite (Hrd 8) by lia. cbn [mbind outcome_bind]. by rewrite app_nil_r.
    + by apply touched_refl.
  - apply from_dynamic; [eapply deliver_mem_reg; try done; lia|]. intros args' Hrun.
    rewrite entry_mem_regs in Hrun by (done || lia). rewrite code_mem_regs by (done || lia).
    rewrite (loc_info_full c Hnar) in *.
    eapply (simulate_to_stack _ _ _ _ _ _ Hlay env); try done; [apply names_slot; (done || lia)|rewrite Hm; lia..|].
    rewrite Hm, Z.mul_0_r, Z.add_0_r. done.
Qed.

(** A stack slot is read, extended and written back. *)
Lemma code_ext_slot li off env1 args args' b8 : 0 ≤ off → off + 8 ≤ room → rd args (SIZEOF_REGISTER_ARGS + off) 8 = Ret b8 →
  wr args (SIZEOF_REGISTER_ARGS + off) (le_bytes 8 (ext_value li (le_val b8))) = Ret args' →
  moves (E_ld TCG_TYPE_PTR TCG_REG_RAX TCG_REG_RSP off :: tcg_extend_arg_in_rax_by_loc_info li ++
         [E_st TCG_TYPE_REG TCG_REG_RAX TCG_REG_RSP off]) env1 args env1 args'.
Proof.
  intros Ho Hr Hb Hw s Hs. eapply via_rax_stack; try done. apply exec_ld. unfold cload. erewrite ea_stack by (done || lia).
  eapply sim_rd_stack; try done; lia.
Qed.

Lemma code_mem_mem_eq off li off' : by_reference c = false → in_u 32 off → in_u 32 li → in_u 32 off' →
  code_arg OFF_ZREGS (xx_word (OnStack off li)) (aa_word (OnStack off' 0)) =
  Ret (code_copy (xx_word (OnStack off li)) (csize c)
         [E_ld TCG_TYPE_PTR TCG_REG_RSI TCG_AREG0 (OFF_XREG REG_SP_NUM); E_addi TCG_REG_RSI off'] ++
       if csize c <=? 2 then
         E_ld TCG_TYPE_PTR TCG_REG_RAX TCG_REG_RSP off :: tcg_extend_arg_in_rax_by_loc_info li ++
         [E_st TCG_TYPE_REG TCG_REG_RAX TCG_REG_RSP off]
       else []).
Proof.
  intros Href Ho Hli Ho'. rewrite Href. unfold code_arg, code_arg_mem_mem. destruct (slot_stack_flags off li false (csize c)) as [-> ->].
  destruct (slot_stack_flags off' 0 false (csize c)) as [-> ->]. cbn [andb orb negb].
  destruct (slot_stack_mem off li false (csize c) Ho Hli) as [-> ->]. destruct (slot_stack_mem off' 0 false (csize c)) as [-> _]; [done..|].
  change (te_get_arg_size _) with (csize c). change (te_get_arg_size _) with (csize c). rewrite Z.eqb_refl. reflexivity.
Qed.

Lemma static_mem_mem off off' args room' v : room' ≤ room →
  xx_shape c (OnStack off (loc_info c)) room' → 0 ≤ off' < 2 ^ 32 → by_reference c = false →
  rd_mem gmem (gsp + off') (csize c) = Ret v → Z.of_nat (length args) = SIZEOF_REGISTER_ARGS + room →
  static_delivered (OnStack off (loc_info c)) (OnStack off' 0) args.
Proof.
  intros Hrr (Ho & _ & Hroom & _ & Hrm) Ho' Href Hrd Hargs. pose proof (csize_pos c (value_wf c Hval)) as Hcp.
  pose proof (align_up_spec (csize c) 8 ltac:(lia)) as [Hal Hal']. pose proof (loc_info_range c).
  assert (in_u 32 off ∧ in_u 32 (loc_info c)) as [Hou Hlu] by (unfold in_u; lia).
  destruct (slot_stack_mem off (loc_info c) false (csize c) Hou Hlu) as [Hm Hml].
  pose proof (rd_mem_length gmem (gsp + off') (csize c) v ltac:(lia) Hrd) as Hlv.
  destruct (guest_range _ _ _ _ _ _ Hlay (gsp + off') (csize c) v ltac:(lia) Hrd) as (Hlo & Hhi & _).
  destruct (wr_copy args (SIZEOF_REGISTER_ARGS + off) v) as (args1 & Hw1 & Hf1 & Hr1); [unfold SIZEOF_REGISTER_ARGS; lia|lia|]. rewrite Hlv in Hf1, Hr1.
  assert (moves (code_copy (xx_word (OnStack off (loc_info c))) (csize c)
         [E_ld TCG_TYPE_PTR TCG_REG_RSI TCG_AREG0 (OFF_XREG REG_SP_NUM); E_addi TCG_REG_RSI off']) env args env args1) as Hmv.
  { apply (code_copy_ok _ _ _ _ _ _ Hlay _ _ _ (gsp + off') v); try (rewrite Hm; (done || lia)); [done|done|].
    intros s Hs. eapply loads_sp_off; [exact Hs|lia|lia]. }
  assert (Z.of_nat (length args1) = SIZEOF_REGISTER_ARGS + room) as Hargs1 by (destruct Hf1 as [-> _]; done).
  assert (∃ args', moves (if csize c <=? 2 then E_ld TCG_TYPE_PTR TCG_REG_RAX TCG_REG_RSP off :: tcg_extend_arg_in_rax_by_loc_info (loc_info c) ++
         [E_st TCG_TYPE_REG TCG_REG_RAX TCG_REG_RSP off] else []) env args1 env args' ∧
      framed [(SIZEOF_REGISTER_ARGS + off, align_up (csize c) 8)] args1 args' ∧ rd args' (SIZEOF_REGISTER_ARGS + off) (csize c) = Ret v)
    as (args' & Hmv' & Hf' & Hv').
  { destruct (Z.leb_spec (csize c) 2).
    - assert (align_up (csize c) 8 = 8) as Hal8.
      { unfold align_up. replace ((csize c + 8 - 1) / 8) with 1; [done|]. apply Z.div_unique with (csize c - 1); lia. }
      rewrite Hal8 in *. destruct (rd args1 (SIZEOF_REGISTER_ARGS + off) 8) as [b8|] eqn:Hb8;
        [|rewrite rd_ok in Hb8 by (unfold SIZEOF_REGISTER_ARGS in *; lia); done].
      pose proof (rd_take _ _ _ (csize c) _ Hb8 ltac:(lia)) as Htk. rewrite Hr1 in Htk by lia. rewrite take_ge in Htk by lia. injection Htk as Htk.
      pose proof (rd_length _ _ 8 _ ltac:(lia) Hb8) as Hl8.
      destruct (wr_copy args1 (SIZEOF_REGISTER_ARGS + off) (le_bytes 8 (ext_value (loc_info c) (le_val b8)))) as (args' & Hw & Hf & Hr);
        [unfold SIZEOF_REGISTER_ARGS; lia|rewrite length_le_bytes; lia|]. rewrite length_le_bytes in Hf, Hr.
      exists args'. split_and!; [eapply code_ext_slot; try done; lia|done|]. rewrite Hr, le_bytes_take, ext_value_low, le_bytes_low, Htk by (try rewrite <- Htk; first [lia|by apply (rd_mem_bytes_ok gmem Hgmem _ _ _ Hrd)]). done.
    - exists args1. split_and!; [apply moves_nil|apply framed_refl|]. rewrite Hr1 by lia. by rewrite take_ge by lia. }
  eexists _, env, args'. split_and!; [by apply code_mem_mem_eq|by eapply moves_app| | |by apply touched_refl].
  - simpl. eapply framed_trans; [|done]. eapply framed_widen; [exact Hf1|lia..].
  - rewrite Href, xx_value_stack, aa_value_stack by (done || unfold in_u; lia). by rewrite Hv', Hrd.
Qed.

(** AArch64 passes the address: where the code finds it. *)
Lemma code_indirect off li pa v : aa_shape c pa → by_reference c = true → 2 < csize c →
  match pa with OnStack off' _ => off' < 2 ^ 32 | _ => True end →
  aa_arg_value env gmem gsp c (slot_info pa true (csize c)) = Ret v →
  ∃ src a, code_arg OFF_ZREGS (xx_word (OnStack off li)) (slot_info pa true (csize c)) = Ret (code_copy (xx_word (OnStack off li)) (csize c) src) ∧
    rd_mem gmem a (csize c) = Ret v ∧ ∀ args s, sim s env args → loads_rsi src s a.
Proof.
  intros Ha Href Hsz Hpa Hv. unfold aa_arg_value in Hv. unfold code_arg, code_arg_mem_indirect.
  destruct (slot_stack_flags off li false (csize c)) as [-> ->]. change (te_get_arg_size _) with (csize c).
  rewrite (proj2 (Z.ltb_lt 2 (csize c))) by done. destruct pa as [ars|off' i].
  - destruct (slot_regs_flags ars true (csize c)) as [Hm Hi]. rewrite Hm, Hi in *. destruct Ha as (k & n & Hk & Hn & Hkn & Haa).
    destruct (hfa c) as [[s m]|] eqn:Hh; [by rewrite (by_reference_hfa c s m Hh) in Href|]. rewrite Href in Haa. destruct Haa as [-> ->].
    destruct (aa_regs_facts TE_X0 1 (or_introl eq_refl) k Hk Hn Hkn) as (Hok & Hl & Har).
    rewrite slot_regs_num by (done || lia). cbn [andb orb negb]. rewrite (proj2 (Z.eqb_neq 0 (Z.of_nat _))) by lia.
    rewrite reg_seq_1 in *. apply Forall_cons in Har as [Hr _]. rewrite (slot_get _ _ _ 0 (TE_X0 + k) 0) in * by (done || simpl; lia).
    cbn [mbind outcome_bind fst] in *. destruct (rd_a64 env (TE_X0 + k) 8) as [bs|] eqn:Hb; [|done]. cbn [mbind outcome_bind] in Hv.
    eexists _, (le_val bs). split; [reflexivity|]. split; [done|]. intros args s Hs. by eapply loads_reg.
  - destruct (slot_stack_flags off' i true (csize c)) as [Hm Hi]. rewrite Hm, Hi in *. cbn [andb orb negb]. destruct Ha as [Ho' ->].
    destruct (slot_stack_mem off' 0 true (csize c)) as [Hmem _]; [unfold in_u; lia|by unfold in_u|]. rewrite Hmem in *.
    destruct (rd_mem gmem (gsp + off') 8) as [bs|] eqn:Hb; [|done]. cbn [mbind outcome_bind] in Hv.
    eexists _, (le_val bs). split; [reflexivity|]. split; [done|]. intros args s Hs. by eapply loads_indirect.
Qed.

Lemma static_indirect off pa args room' v : room' ≤ room →
  xx_shape c (OnStack off (loc_info c)) room' → aa_shape c pa → by_reference c = true →
  match pa with OnStack off' _ => off' < 2 ^ 32 | _ => True end →
  aa_arg_value env gmem gsp c (slot_info pa true (csize c)) = Ret v →
  Z.of_nat (length args) = SIZEOF_REGISTER_ARGS + room → static_delivered (OnStack off (loc_info c)) pa args.
Proof.
  intros Hrr (Ho & _ & Hroom & _ & Hrm) Ha Href Hpa Hv Hargs.
  assert (16 < csize c) as Hbig by (unfold by_reference in Href; destruct (hfa c); [done|by btests]).
  pose proof (align_up_spec (csize c) 8 ltac:(lia)). pose proof (loc_info_range c).
  assert (in_u 32 off ∧ in_u 32 (loc_info c)) as [Hou Hlu] by (unfold in_u; lia).
  destruct (slot_stack_mem off (loc_info c) false (csize c) Hou Hlu) as [Hm _].
  destruct (code_indirect off (loc_info c) pa v Ha Href ltac:(lia) Hpa Hv) as (src & a & Hcode & Hrd & Hsrc).
  pose proof (rd_mem_length gmem a (csize c) v ltac:(lia) Hrd) as Hlv.
  destruct (wr_copy args (SIZEOF_REGISTER_ARGS + off) v) as (args' & Hw & Hf & Hr); [unfold SIZEOF_REGISTER_ARGS; lia|lia|]. rewrite Hlv in Hf, Hr.
  eexists _, env, args'. rewrite Href. split_and!; [exact Hcode| | | |by apply touched_refl].
  - apply (code_copy_ok _ _ _ _ _ _ Hlay _ _ _ a v); try (rewrite Hm; (done || lia)); [lia|done|]. intros s Hs. by eapply Hsrc.
  - simpl. eapply framed_widen; [exact Hf|lia..].
  - rewrite xx_value_stack by done. rewrite Hr, Hv by lia. by rewrite take_ge by lia.
Qed.

(** ** Registers from the guest's stack *)

(** Register [i] of the argument, loaded from its eightbyte. *)
Definition movaps_from_stack (xrs : list (Z * Z)) (off : Z) : Prop :=
  ∀ i x li, xrs !! i = Some (x, li) → is_xmm x = true →
    (16 | gsp + off + 8 * Z.of_nat i) ∧ (∃ bs, rd_mem gmem (gsp + off + 8 * Z.of_nat i) 16 = Ret bs) ∧
    (S i = length xrs ∨ csize c = 16 ∧ length xrs = 2%nat).

Lemma step_8 xrs off : movaps_from_stack xrs off →
  ∀ i x li, xrs !! i = Some (x, li) → is_xmm x = true → S i ≠ length xrs → csize c / Z.of_nat (length xrs) = 8.
Proof. intros H i x li Hi Hx Hne. destruct (H i x li Hi Hx) as (_ & _ & [?|[-> ->]]); [done|reflexivity]. Qed.

Lemma xmm_reg x : TE_XMM0 ≤ x ≤ TE_XMM7 → x64_enum_2_reg x - 16 = x - TE_XMM0.
Proof.
  unfold TE_XMM0, TE_XMM7. intros Hx. assert (x = 18 ∨ x = 19 ∨ x = 20 ∨ x = 21 ∨ x = 22 ∨ x = 23 ∨ x = 24 ∨ x = 25) as H by lia.
  by destruct_or! H; subst.
Qed.

Lemma ea_guest s off n bs : gpr s TCG_REG_R11 = gsp → 0 < n → rd_mem gmem (gsp + off) n = Ret bs → ea s TCG_REG_R11 off = gsp + off.
Proof.
  intros Hg Hn Hb. unfold ea. rewrite Hg. apply wrap_small.
  destruct (guest_range _ _ _ _ _ _ Hlay _ _ _ Hn Hb) as (? & ? & _). unfold in_u. lia.
Qed.

(** Code that finds the guest's stack pointer in R11. *)
Definition moves_r11 (es : list emit) (args args' : list Z) : Prop :=
  ∀ s, sim s env args → gpr s TCG_REG_R11 = gsp → ∃ s', exec_emits es s = Ret s' ∧ sim s' env args' ∧ gpr s' TCG_REG_R11 = gsp.

Lemma moves_r11_app es1 es2 a1 a2 a3 : moves_r11 es1 a1 a2 → moves_r11 es2 a2 a3 → moves_r11 (es1 ++ es2) a1 a3.
Proof.
  intros H1 H2 s Hs Hg. destruct (H1 s Hs Hg) as (s1 & He1 & Hs1 & Hg1). destruct (H2 s1 Hs1 Hg1) as (s2 & He2 & Hs2 & Hg2).
  exists s2. split_and!; [|done|done]. by rewrite exec_emits_app, He1.
Qed.

Definition reg_from_mem (x li off : Z) : list emit :=
  if is_xmm x then [E_ld128 (x64_enum_2_reg x) TCG_REG_R11 off]
  else E_ld TCG_TYPE_PTR TCG_REG_RAX TCG_REG_R11 off :: tcg_extend_arg_in_rax_by_loc_info li ++ [E_mov TCG_TYPE_REG (x64_enum_2_reg x) TCG_REG_RAX].

(** One register. *)
Lemma code_from_mem args x li off bs : xreg_ok x → rd_mem gmem (gsp + off) 8 = Ret bs →
  (is_xmm x = true → (16 | gsp + off) ∧ ∃ bs, rd_mem gmem (gsp + off) 16 = Ret bs) → OFF_RAX ≤ Z.of_nat (length args) →
  ∃ args', moves_r11 (reg_from_mem x li off) args args' ∧ framed [reg_fp x] args args' ∧
    rd args' (x64_enum_2_ptr x) 8 = Ret (if is_xmm x then bs else le_bytes 8 (ext_value li (le_val bs))).
Proof.
  intros Hx Hb Hxm Hargs. destruct (reg_fp_range x Hx) as [Hr1 Hr2]. unfold reg_fp, xwidth, reg_from_mem in *. destruct (is_xmm x) eqn:Hxmm.
  - destruct (Hxm eq_refl) as (Hal & b16 & Hb16). pose proof (rd_mem_length gmem (gsp + off) 16 b16 ltac:(lia) Hb16) as Hl16.
    destruct (wr_copy args (x64_enum_2_ptr x) b16) as (args' & Hw & Hf & Hr); [done|lia|]. rewrite Hl16 in Hf, Hr.
    assert (TE_XMM0 ≤ x ≤ TE_XMM7) as Hrange by (unfold is_xmm, in_range in Hxmm; btests; lia).
    exists args'. split_and!; [|done|].
    + intros s Hs Hg. assert (ea s TCG_REG_R11 off = gsp + off) as Hea by (eapply ea_guest; [done| |exact Hb16]; lia).
      exists (set_xmm s (x - TE_XMM0) b16). split_and!; [|eapply sim_set_xmm; [exact Hs|exact Hrange|lia|exact Hw]|done].
      cbn [exec_emits]. rewrite <- (xmm_reg x Hrange), (exec_ld128 _ _ _ _ b16); [done|by rewrite Hea|].
      unfold cload. rewrite Hea. eapply sim_rd_guest; [exact Hlay|lia|exact Hs|exact Hb16].
    + rewrite Hr by lia. f_equal. destruct (rd_mem_app gmem (gsp + off) 8 8 b16 ltac:(lia) ltac:(lia) Hb16) as [H8 _]. congruence.
  - destruct (wr_copy args (x64_enum_2_ptr x) (le_bytes 8 (ext_value li (le_val bs)))) as (args' & Hw & Hf & Hr); [done|rewrite length_le_bytes; lia|].
    rewrite length_le_bytes in Hf, Hr. exists args'. split_and!; [|done|by rewrite Hr by lia]. intros s Hs Hg.
    destruct (via_rax _ _ _ _ _ (E_ld TCG_TYPE_PTR TCG_REG_RAX TCG_REG_R11 off) li x (le_val bs) env args args' s Hs) as (s' & He & Hs' & H11); try done.
    { apply exec_ld. unfold cload. rewrite (ea_guest s off 8 bs Hg ltac:(lia) Hb). eapply sim_rd_guest; [exact Hlay| |exact Hs|exact Hb]. by cbn. }
    exists s'. split_and!; [done|done|by rewrite H11].
Qed.

(** All of them, complete eightbytes. *)
Lemma code_from_mem_full xx xrs off step j args bs : names xx j xrs → 0 ≤ j →
  (∀ i x li, xrs !! i = Some (x, li) → is_xmm x = true → (16 | gsp + off + 8 * (j + Z.of_nat i)) ∧
     (∃ bs, rd_mem gmem (gsp + off + 8 * (j + Z.of_nat i)) 16 = Ret bs) ∧ (S i ≠ length xrs → step = 8)) →
  Forall (λ p, xreg_ok p.1 ∧ p.2 = TE_Full) xrs → NoDup xrs.*1 → OFF_RAX ≤ Z.of_nat (length args) →
  0 ≤ off → off + 8 * (j + Z.of_nat (length xrs)) < 2 ^ 32 →
  rd_mem gmem (gsp + off + 8 * j) (8 * Z.of_nat (length xrs)) = Ret bs →
  ∃ es args', code_regs_from_mem xx off step (8 * j) j (length xrs) = Ret es ∧ moves_r11 es args args' ∧
    framed (reg_fp <$> xrs.*1) args args' ∧ gather (λ r, rd args' (x64_enum_2_ptr r) 8) xrs.*1 = Ret bs.
Proof.
  revert j args bs. induction xrs as [|[x xi] xrs IH]; intros j args bs Hx Hj Hal Hxs Hnd Hargs Ho Hlt Hrd.
  - exists [], args. split_and!; [done|by intros s ? ?; exists s|apply framed_refl|]. simpl in *.
    apply rd_mem_length in Hrd; [|lia]. destruct bs; [done|simpl in Hrd; lia].
  - apply names_cons in Hx as (Hx0 & Hxi & Hx). apply Forall_cons in Hxs as [[Hxok Hfull] Hxs]. cbn [fst snd length] in *. subst xi.
    rewrite fmap_cons in *. cbn [fst] in *. apply NoDup_cons in Hnd as [Hnin Hnd].
    replace (8 * Z.of_nat (S (length xrs))) with (8 + 8 * Z.of_nat (length xrs)) in Hrd by lia.
    apply rd_mem_app in Hrd as [Hrd0 Hrd1]; [|lia..]. set (b0 := take (Z.to_nat 8) bs) in *.
    pose proof (rd_mem_length gmem (gsp + off + 8 * j) 8 b0 ltac:(lia) Hrd0) as Hl0.
    rewrite <- Z.add_assoc in Hrd0.
    destruct (code_from_mem args x TE_Full (off + 8 * j) b0) as (args1 & Hm1 & Hf1 & Hv1); [done|done| |done|].
    { intros Hxmm. destruct (Hal 0%nat x _ eq_refl Hxmm) as (H1 & H2 & _). rewrite Z.add_0_r in H1, H2. rewrite Z.add_assoc. done. }
    assert (le_bytes 8 (ext_value TE_Full (le_val b0)) = b0) as Hfb.
    { unfold ext_value. cbn [Z.eqb Pos.eqb TE_Full TE_SExt8_32 TE_SExt16_32 TE_ZExt8_32 TE_ZExt16_32].
      assert (bytes_ok b0) by (by apply (rd_mem_bytes_ok gmem Hgmem _ _ _ Hrd0)).
      rewrite wrap_small by (apply le_val_u64; [done|lia]). apply le_bytes_8; [done|lia]. }
    assert (rd args1 (x64_enum_2_ptr x) 8 = Ret b0) as Hv1' by (rewrite Hv1; by destruct (is_xmm x); rewrite ?Hfb). clear Hv1 Hfb.
    destruct (IH (j + 1) args1 (drop (Z.to_nat 8) bs)) as (es2 & args' & He2 & Hm2 & Hf2 & Hg2); try done.
    + lia.
    + intros i y li Hi Hy. destruct (Hal (S i) y li Hi Hy) as (H1 & H2 & H3). replace (j + Z.of_nat (S i)) with (j + 1 + Z.of_nat i) in * by lia.
      split_and!; [done|done|]. intros. apply H3. lia.
    + destruct Hf1 as [-> _]. lia.
    + lia.
    + by replace (gsp + off + 8 * (j + 1)) with (gsp + off + 8 * j + 8) by lia.
    + assert (∃ es2', code_regs_from_mem xx off step (8 * j) j (S (length xrs)) = Ret (reg_from_mem x TE_Full (off + 8 * j) ++ es2') ∧ moves_r11 es2' args1 args')
        as (es2' & Hes & Hm2').
      { cbn [code_regs_from_mem]. rewrite Hx0, Hfull. cbn [mbind outcome_bind]. rewrite (wrap_small 32 (off + 8 * j)) by (unfold in_u; lia).
        unfold reg_from_mem. destruct (is_xmm x) eqn:Hxmm; cbn [mbind outcome_bind].
        - destruct (decide (1%nat = S (length xrs))) as [Heq|Hne].
          + destruct xrs; [|done]. exists []. split; [done|]. cbn in He2. injection He2 as <-. done.
          + destruct (Hal 0%nat x _ eq_refl Hxmm) as (_ & _ & H3). rewrite H3 in He2 |- * by lia.
            rewrite wrap_small by (unfold in_u; lia). replace (8 * j + 8) with (8 * (j + 1)) by lia. rewrite He2. by exists es2.
        - rewrite wrap_small by (unfold in_u; lia). replace (8 * j + 8) with (8 * (j + 1)) by lia. rewrite He2. by exists es2. }
      exists (reg_from_mem x TE_Full (off + 8 * j) ++ es2'), args'. split_and!; [done|by eapply moves_r11_app| |].
      * eapply framed_trans; [by apply (framed_head (reg_fp x))|by apply framed_cons].
      * rewrite gather_cons. destruct Hf2 as [_ Hf2].
        rewrite Hf2 by (apply outside_regs; [done| |done|unfold xwidth; case_match; lia]; apply Forall_fmap; eapply Forall_impl; [exact Hxs|by intros ? [? _]]).
        rewrite Hv1', Hg2. cbn [mbind outcome_bind]. f_equal. apply take_drop.
Qed.

Lemma code_reg_mem_eq xrs off es : by_reference c = false → pairs_ok xrs → (1 ≤ length xrs ≤ 4)%nat → in_u 32 off →
  code_regs_from_mem (xx_word (InRegs xrs)) off (csize c / Z.of_nat (length xrs)) 0 0 (length xrs) = Ret es →
  code_arg OFF_ZREGS (xx_word (InRegs xrs)) (aa_word (OnStack off 0)) =
  Ret (E_ld TCG_TYPE_PTR TCG_REG_R11 TCG_AREG0 (OFF_XREG REG_SP_NUM) :: es).
Proof.
  intros Href Hok Hl Ho Hes. rewrite Href. unfold code_arg, code_arg_reg_mem. destruct (slot_regs_flags xrs false (csize c)) as [-> ->].
  destruct (slot_stack_flags off 0 false (csize c)) as [-> ->]. rewrite !slot_regs_num by (done || lia).
  rewrite (proj2 (Z.eqb_neq 0 _)) by lia. cbn [andb orb negb].
  destruct (slot_stack_mem off 0 false (csize c) Ho ltac:(by unfold in_u)) as [-> _]. change (te_get_arg_size _) with (csize c).
  rewrite Nat2Z.id, Hes. reflexivity.
Qed.

Lemma load_sp_first es args args' : moves_r11 es args args' →
  moves (E_ld TCG_TYPE_PTR TCG_REG_R11 TCG_AREG0 (OFF_XREG REG_SP_NUM) :: es) env args env args'.
Proof.
  intros Hm s Hs. rewrite (exec_emits_cons _ _ _ _ (exec_ld_sp args s TCG_REG_R11 Hs)).
  destruct xreg_sp as (_ & _ & _ & Hr). destruct (Hm (set_gpr s TCG_REG_R11 gsp)) as (s' & He & Hs' & _); [by apply sim_scratch| |by exists s'].
  cbn [gpr set_gpr]. rewrite Z.eqb_refl. by apply wrap_small.
Qed.

Lemma static_reg_mem xrs off args room' bs : xx_shape c (InRegs xrs) room' → 0 ≤ off → off + 16 < 2 ^ 32 →
  rd_mem gmem (gsp + off) (align_up (csize c) 8) = Ret bs → movaps_from_stack xrs off → OFF_RAX ≤ Z.of_nat (length args) →
  static_delivered (InRegs xrs) (OnStack off 0) args.
Proof.
  intros (Hsz & g & s0 & Hg & Hs0 & Hgb & Hsb & ->) Ho Ho' Hrd Hmv Hargs. pose proof (by_reference_small c Hsz) as Href.
  destruct (xx_regs_facts c Hval g s0 Hsz Hg Hs0 Hgb Hsb) as (Hxok & Hxl & Hw & Hxr & Hnd). set (xrs := regs_of _ _ g s0) in *.
  rewrite <- (words_align c Hval), <- Hxl in Hrd. destruct (words_bounds c (value_wf c Hval)) as [Hwb _].
  assert (in_u 32 off) as Hou by (unfold in_u; lia).
  assert (∃ es args', code_regs_from_mem (xx_word (InRegs xrs)) off (csize c / Z.of_nat (length xrs)) 0 0 (length xrs) = Ret es ∧
      moves_r11 es args args' ∧ framed (reg_fp <$> xrs.*1) args args' ∧
      xx_arg_value args' c (xx_word (InRegs xrs)) = Ret (take (Z.to_nat (csize c)) bs)) as (es & args' & Hes & Hm & Hf & Hv).
  { destruct (narrow c) eqn:Hnar.
    - destruct (narrow_words c Hval Hnar) as (Hw1 & Hc2 & _). destruct (narrow_scalar c Hnar) as (s & Hc & _).
      assert (code_class c 0 = [scalar_class s 0] ∧ is_gpr_class (scalar_class s 0) = true) as [Hcl Hgcl]
        by (rewrite Hc in Hnar |- *; split; [done|by destruct s]).
      assert (xrs = [(nth (Z.to_nat g) xx_gprcnt2reg 0, loc_info c)]) as Hxrs by (unfold xrs; rewrite Hcl; cbn [regs_of]; by rewrite Hgcl).
      rewrite Hcl, ngpr_of_cons, Hgcl in Hgb. destruct (reg_counts_le []) as (? & _). destruct (gpr_ptr g) as [_ Hxmm]; [lia|].
      clearbody xrs. subst xrs. apply Forall_cons in Hxr as [Hx _]. cbn [fst length] in *. change (8 * Z.of_nat 1) with 8 in Hrd. rewrite fmap_cons. cbn [fst].
      destruct (code_from_mem args (nth (Z.to_nat g) xx_gprcnt2reg 0) (loc_info c) off bs) as (args' & Hm & Hf & Hv); [done|done|by rewrite Hxmm|done|].
      assert (names (xx_word (InRegs [(nth (Z.to_nat g) xx_gprcnt2reg 0, loc_info c)])) 0 [(nth (Z.to_nat g) xx_gprcnt2reg 0, loc_info c)]) as Hn
        by (apply names_slot; (done || simpl; lia)). apply names_cons in Hn as (Hx0 & Hxi & _). rewrite Hxmm in Hv.
      eexists _, args'. split_and!; [cbn [code_regs_from_mem]; rewrite Hx0, Hxi; cbn [mbind outcome_bind]; rewrite Hxmm; cbn [mbind outcome_bind]; reflexivity| |done|].
      + rewrite app_nil_r, Z.add_0_r, wrap_small by done. unfold reg_from_mem in Hm. rewrite Hxmm in Hm. done.
      + rewrite xx_value_regs by (done || simpl; lia). cbn [gather fmap list_fmap fst]. rewrite Hv. cbn [mbind outcome_bind fmap outcome_fmap].
        rewrite app_nil_r. f_equal. pose proof (rd_mem_length gmem (gsp + off) 8 bs ltac:(lia) Hrd).
        apply narrow_bytes; [done|lia|by apply (rd_mem_bytes_ok gmem Hgmem _ _ _ Hrd)|done].
    - assert (Forall (λ p, p.2 = TE_Full) xrs) as Hfull by (unfold xrs; rewrite (loc_info_full c Hnar); apply regs_of_full).
      destruct (code_from_mem_full (xx_word (InRegs xrs)) xrs off (csize c / Z.of_nat (length xrs)) 0 args bs)
        as (es & args' & Hes & Hm & Hf & Hgat); try done; [apply names_slot; (done || lia)| |by apply Forall_and|lia|by rewrite Z.mul_0_r, Z.add_0_r|].
      + intros i x li Hi Hx. destruct (Hmv i x li Hi Hx) as (H1 & H2 & _). rewrite Z.add_0_l. split_and!; [done|done|]. intros. by eapply step_8.
      + exists es, args'. split_and!; try done. by rewrite xx_value_regs, Hgat by (done || lia). }
  eexists _, env, args'. split_and!; [by apply code_reg_mem_eq; [|done|lia|done|]|by apply load_sp_first|done| |by apply touched_refl].
  rewrite Href, Hv, aa_value_stack by done. symmetry.
  replace (8 * Z.of_nat (length xrs)) with (csize c + (8 * Z.of_nat (length xrs) - csize c)) in Hrd by lia.
  by apply (rd_mem_app gmem) in Hrd as [? _]; [|pose proof (csize_pos c (value_wf c Hval)); lia|lia].
Qed.
End arg.
