(* ===== verification/A2XFloat.v ===== *)
(** * HFAs of floats in the generated entry code

    Two to four S registers become one or two XMM registers: the code first
    puts two floats together in the low half of the first emulated register,
    overwriting four bytes of it that belong to no argument. *)

From S2P Require Import Prelude Bytes ABIArgInfo FfiTypes Layout Placement AAPrepCif HFA AAAlloc XXPrepCif XXClass XXAlloc CrossABI DyBridge DyEntry DyStep Memory X86 Encoder Machine A2XCode A2XSim A2XStep A2XArg.

Definition qreg_ok (r : Z) : Prop := TE_Q0 ≤ r < TE_Q0 + 8.

Lemma qreg_areg r : qreg_ok r → areg_ok r.
Proof. by right. Qed.

Lemma qreg_ptr r : qreg_ok r → a64_enum_2_ptr r = Some (ZPtr ((r - TE_Q0) * ZREG_SIZE)).
Proof.
  unfold qreg_ok, TE_Q0. intros H. assert (r = 17 ∨ r = 18 ∨ r = 19 ∨ r = 20 ∨ r = 21 ∨ r = 22 ∨ r = 23 ∨ r = 24) as Hr by lia.
  by destruct_or! Hr; subst.
Qed.

Lemma rd_a64_q env r n : qreg_ok r → rd_a64 env r n = rd (zregs env) ((r - TE_Q0) * ZREG_SIZE) n.
Proof. intros H. unfold rd_a64. by rewrite (qreg_ptr r H). Qed.

Lemma qreg_off OFF r : qreg_ok r → a64_enum_2_offset OFF r = OFF + (r - TE_Q0) * ZREG_SIZE.
Proof. intros H. by rewrite (env_off OFF _ _ (qreg_ptr r H)). Qed.

Lemma wr_bytes_len_ok l off bs l' : bytes_ok l → bytes_ok bs → wr l off bs = Ret l' → bytes_ok l'.
Proof. intros Hl Hb (_ & _ & ->)%wr_inv. apply Forall_app. split; [by apply Forall_take|]. apply Forall_app. split; [done|by apply Forall_drop]. Qed.

Section float.
Context (OFF_ZREGS envp : Z) (gmem m0 : memory) (sp room : Z).
Context (Hlay : layout OFF_ZREGS envp gmem m0 sp room).
Abbreviation sim := (sim OFF_ZREGS envp m0 sp room).
Abbreviation moves := (moves OFF_ZREGS envp m0 sp room).
Abbreviation a64_off := (a64_enum_2_offset OFF_ZREGS).

(** Four bytes of the emulated CPU that can be loaded. *)
Definition loads4 (env : CPUARMState) (off : Z) (b4 : list Z) : Prop :=
  0 ≤ off < OFF_ZREGS + 8 * ZREG_SIZE ∧ ∀ s args, sim s env args → rd_mem (cmem s) (envp + off) 4 = Ret b4.

Lemma concat_ok env args x a0 a1 b0 b4 : env_ok env → qreg_ok a0 → TE_XMM0 ≤ x ≤ TE_XMM7 → rd_a64 env a0 8 = Ret b0 →
  loads4 env (a64_off a1) b4 → bytes_ok b4 → length b4 = 4%nat → OFF_RAX ≤ Z.of_nat (length args) →
  ∃ env' args', moves (concat_S_regs OFF_ZREGS x a0 a1) env args env' args' ∧ xregs env' = xregs env ∧ env_ok env' ∧
    framed [S_upper a0] (zregs env) (zregs env') ∧ framed [reg_fp x] args args' ∧ rd args' (x64_enum_2_ptr x) 8 = Ret (take 4 b0 ++ b4).
Proof.
  intros Henv Hq Hx Hb0 [Hoff Hld] Hok4 Hl4 Hargs. pose proof Henv as (Hxl & Hzl & Hbx & Hbz). assert (xreg_ok x) as Hxr by (by right).
  destruct (reg_fp_range x Hxr) as [Hr1 Hr2]. destruct (xmm_ptr x Hx) as [_ Hxmm]. unfold reg_fp, xwidth in *. rewrite Hxmm in *.
  set (o := (a0 - TE_Q0) * ZREG_SIZE). assert (0 ≤ o ∧ o + 256 ≤ 32 * 256) as Ho by (unfold qreg_ok, ZREG_SIZE in *; lia).
  unfold ZREG_SIZE in Hzl. destruct (wr_copy (zregs env) (o + 4) b4) as (z' & Hwz & Hfz & Hrz); [lia|lia|]. rewrite Hl4 in Hfz, Hrz.
  set (env' := mk_env (xregs env) z').
  assert (env_ok env') as Henv' by (split_and!; [done|by destruct Hfz as [Hlz _]; cbn; rewrite Hlz|done|exact (wr_bytes_len_ok _ _ _ _ Hbz Hok4 Hwz)]).
  destruct (rd_a64_ok env' a0 Henv' (qreg_areg _ Hq)) as (b16 & Hl16 & Hok16 & Hb16 & Hrd16).
  destruct (wr_copy args (x64_enum_2_ptr x) b16) as (args' & Hw & Hf & Hr); [done|lia|]. rewrite Hl16 in Hf, Hr.
  exists env', args'. split_and!; try done.
  - intros s Hs. unfold concat_S_regs.
    rewrite (exec_emits_cons _ _ _ (set_gpr s TCG_REG_RAX (le_val b4))).
    2:{ apply exec_ld. unfold cload, ea. rewrite (sim_env _ _ _ _ _ _ _ _ Hs), wrap_small by (destruct Hlay; unfold in_u, ZREG_SIZE in *; lia). by eapply Hld. }
    assert (sim (set_gpr s TCG_REG_RAX (le_val b4)) env args) as Hs1 by (by apply sim_scratch).
    destruct (sim_wr_z _ _ _ _ _ _ Hlay _ _ _ _ _ _ Hs1 Hwz) as (m & Hm & Hs2).
    rewrite (exec_emits_cons _ _ _ (set_mem (set_gpr s TCG_REG_RAX (le_val b4)) m)).
    2:{ apply exec_st. unfold ea. rewrite (sim_env _ _ _ _ _ _ _ _ Hs1), (qreg_off _ _ Hq). fold o.
        rewrite wrap_small by (destruct Hlay; unfold in_u, ZREG_SIZE in *; lia). cbn [gpr set_gpr]. rewrite Z.eqb_refl.
        replace (envp + (OFF_ZREGS + o + 4)) with (envp + OFF_ZREGS + (o + 4)) by lia.
        rewrite (wrap_small 64) by (apply le_val_u64; [done|lia]). change (Z.to_nat (wbytes (type_width TCG_TYPE_I32))) with 4%nat.
        rewrite <- Hl4, le_bytes_val by done. done. }
    eapply (code_xmm _ _ _ _ _ _ Hlay); [done|exact Hb16| |exact Hw|exact Hs2].
    rewrite (qreg_off _ _ Hq). apply Z.divide_add_r; [apply (lay_zalign _ _ _ _ _ _ Hlay)|]. exists ((a0 - TE_Q0) * 16). unfold ZREG_SIZE. lia.
  - rewrite Hr by lia. f_equal. rewrite rd_a64_q in Hb0 by done. fold o in Hb0.
    assert (rd z' o 8 = Ret (take 4 b0 ++ b4)) as H8.
    { apply (rd_app _ _ 4 4); [lia..| |].
      - destruct Hfz as [_ Hfz]. rewrite Hfz by (constructor; [simpl; lia|constructor]). by apply (rd_take _ _ 8 4 _ Hb0).
      - rewrite Hrz by lia. by rewrite take_ge by lia. }
    pose proof (Hrd16 8 ltac:(lia)) as H8'. rewrite rd_a64_q in H8' by done. cbn [zregs env'] in H8'. fold o in H8'. rewrite H8 in H8'. by injection H8' as <-.
Qed.

Lemma loads4_q env r b8 : env_ok env → qreg_ok r → rd_a64 env r 8 = Ret b8 → loads4 env (a64_off r) (take 4 b8).
Proof.
  intros Henv Hq Hb. split.
  - rewrite (qreg_off _ _ Hq). destruct Hlay. unfold qreg_ok, ZREG_SIZE in *. lia.
  - intros s args Hs. eapply sim_rd_a64; [lia|exact Hs|]. by apply (rd_a64_low env Henv r 4 b8 (qreg_areg _ Hq)); [lia|].
Qed.

Lemma loads4_zero env : env_ok env → ∃ b4, loads4 env (a64_off 0) b4 ∧ bytes_ok b4 ∧ length b4 = 4%nat.
Proof.
  intros (Hxl & _ & Hbx & _). change (a64_off 0) with 0. destruct (rd (xregs env) 0 4) as [b4|] eqn:Hb; [|rewrite rd_ok in Hb by lia; done].
  exists b4. split_and!; [|by eapply rd_bytes_ok|apply rd_length in Hb; lia]. split; [destruct Hlay; unfold ZREG_SIZE; lia|]. intros s args Hs.
  eapply (rd_mem_at _ envp 256); [lia|lia|apply (sim_x _ _ _ _ _ _ _ _ Hs)|done].
Qed.

Context (env : CPUARMState) (Henv : env_ok env) (gsp : Z).
Context (c : cty) (Hval : value_type c = true).
Abbreviation static_delivered := (static_delivered OFF_ZREGS envp gmem m0 sp room env gsp c).

Lemma static_float_2 x a0 a1 args :
  hfa c = Some (SFloat, 2) → csize c = 8 → pairs_ok [(x, TE_Full)] → TE_XMM0 ≤ x ≤ TE_XMM7 →
  pairs_ok [(a0, 0); (a1, 0)] → qreg_ok a0 → qreg_ok a1 → a1 = a0 + 1 → OFF_RAX ≤ Z.of_nat (length args) →
  static_delivered (InRegs [(x, TE_Full)]) (InRegs [(a0, 0); (a1, 0)]) args.
Proof.
  intros Hh Hsz Hxok Hx Haok Ha0 Ha1 Heq Hargs. pose proof (by_reference_hfa c _ _ Hh) as Href.
  destruct (rd_a64_8 env Henv a0 (qreg_areg _ Ha0)) as (b0 & Hb0 & Hl0), (rd_a64_8 env Henv a1 (qreg_areg _ Ha1)) as (b1 & Hb1 & Hl1).
  assert (bytes_ok b1) as Hok1 by (rewrite rd_a64_q in Hb1 by done; by eapply rd_bytes_ok; [apply Henv|]).
  destruct (concat_ok env args x a0 a1 b0 (take 4 b1)) as (env' & args' & Hm & Hx' & Henv' & Hfz & Hf & Hrd); try done;
    [by apply loads4_q|by apply Forall_take|rewrite length_take; lia|].
  exists (concat_S_regs OFF_ZREGS x a0 a1), env', args'. split_and!; [|done|done| |split_and!; [done|by apply framed_head|done]].
  - rewrite (code_regs OFF_ZREGS c) by (done || simpl; lia). unfold code_arg_reg_reg. rewrite !slot_regs_num by (done || simpl; lia).
    unfold code_two_to_one. rewrite (slot_get [(x, _)] _ _ 0 x TE_Full 0), (slot_get [(a0, _); _] _ _ 0 a0 0 0),
      (slot_get [(a0, _); _] _ _ 1 a1 0 1) by (done || simpl; lia).
    cbn [length Z.of_nat Pos.of_succ_nat Pos.succ Z.eqb Pos.eqb Z.ltb Z.compare Pos.compare Pos.compare_cont andb mbind outcome_bind].
    destruct (xmm_ptr x Hx) as [_ Hxmm]. unfold is_xmm in Hxmm. rewrite Hxmm, Heq, Z.eqb_refl. reflexivity.
  - rewrite Href, xx_value_regs, aa_value_regs, Hh, Hsz by (done || simpl; lia). cbn [gather fmap list_fmap fst scalar_size]. rewrite Hrd.
    rewrite (rd_a64_low env Henv a0 4 b0 (qreg_areg _ Ha0) ltac:(lia) Hb0), (rd_a64_low env Henv a1 4 b1 (qreg_areg _ Ha1) ltac:(lia) Hb1).
    cbn [mbind outcome_bind fmap outcome_fmap]. rewrite !app_nil_r. f_equal. by rewrite take_ge by (rewrite length_app, !length_take; lia).
Qed.

(** The register after the last one is 0. *)
Lemma te_get_reg_3 ars ind sz : pairs_ok ars → length ars = 3%nat → te_get_reg (slot_info (InRegs ars) ind sz) 3 = Ret 0.
Proof.
  intros Hok Hl. rewrite te_get_reg_ok by lia. f_equal. change (val (slot_info (InRegs ars) ind sz)) with (pack ars).
  pose proof (pack_range ars Hok) as Hp. rewrite Hl in Hp. unfold get_piece.
  rewrite Z.shiftr_div_pow2 by lia. rewrite Z.div_small; [done|]. exact Hp.
Qed.

(** What the first concatenation leaves of the other registers. *)
Lemma other_S_reg env' r q b : framed [S_upper r] (zregs env) (zregs env') → qreg_ok r → qreg_ok q → q ≠ r → rd_a64 env q 8 = Ret b → rd_a64 env' q 8 = Ret b.
Proof.
  intros [_ Hf] Hr Hq Hne. rewrite !rd_a64_q by done. intros Hb. rewrite Hf; [done|].
  constructor; [|constructor]. unfold S_upper, qreg_ok, ZREG_SIZE in *. cbn [fst snd]. lia.
Qed.

Lemma loads4_last env' ars n a2 : env_ok env' → n = 3 ∨ n = 4 → pairs_ok ars → Z.of_nat (length ars) = n →
  (n = 4 → ars !! 3%nat = Some (a2 + 1, 0) ∧ qreg_ok (a2 + 1)) →
  ∃ a3 b4, te_get_reg (slot_info (InRegs ars) false (csize c)) 3 = Ret a3 ∧ loads4 env' (a64_off a3) b4 ∧ bytes_ok b4 ∧ length b4 = 4%nat ∧
    (n = 4 → rd_a64 env' (a2 + 1) 4 = Ret b4).
Proof.
  intros Henv' Hn Hok Hl H4. destruct Hn as [->| ->].
  - destruct (loads4_zero env' Henv') as (b4 & H1 & H2 & H3). exists 0, b4. split_and!; try done. apply te_get_reg_3; [done|lia].
  - destruct (H4 eq_refl) as [H3 Hq]. destruct (rd_a64_8 env' Henv' _ (qreg_areg _ Hq)) as (b & Hb & Hlb).
    exists (a2 + 1), (take 4 b). split_and!.
    + apply (slot_get ars _ _ 3 (a2 + 1) 0); (done || lia).
    + by apply loads4_q.
    + apply Forall_take. rewrite rd_a64_q in Hb by done. by eapply rd_bytes_ok; [apply Henv'|].
    + rewrite length_take. lia.
    + intros _. by apply (rd_a64_low env' Henv' _ 4 b (qreg_areg _ Hq)); [lia|].
Qed.

Lemma static_float_34 x ars a0 a1 a2 n args :
  hfa c = Some (SFloat, n) → csize c = 4 * n → n = 3 ∨ n = 4 →
  pairs_ok [(x, TE_Full); (x + 1, TE_Full)] → TE_XMM0 ≤ x → x + 1 ≤ TE_XMM7 →
  ars = (a0, 0) :: (a1, 0) :: (a2, 0) :: (if n =? 4 then [(a2 + 1, 0)] else []) →
  pairs_ok ars → Forall (λ p, qreg_ok p.1) ars → a1 = a0 + 1 → a2 = a1 + 1 → OFF_RAX ≤ Z.of_nat (length args) →
  static_delivered (InRegs [(x, TE_Full); (x + 1, TE_Full)]) (InRegs ars) args.
Proof.
  intros Hh Hsz Hn Hxok Hx0 Hx1 Hars Haok Har Heq1 Heq2 Hargs. pose proof (by_reference_hfa c _ _ Hh) as Href.
  assert (Z.of_nat (length ars) = n) as Hal by (subst ars; destruct Hn as [->| ->]; done).
  assert (qreg_ok a0 ∧ qreg_ok a1 ∧ qreg_ok a2 ∧ (n = 4 → ars !! 3%nat = Some (a2 + 1, 0) ∧ qreg_ok (a2 + 1))) as (Ha0 & Ha1 & Ha2 & Ha3).
  { rewrite Hars in Har. repeat (apply Forall_cons in Har as [? Har]). split_and!; try done. intros Hn4. rewrite Hars. rewrite Hn4 in Har |- *.
    by apply Forall_cons in Har as [? _]. }
  destruct (rd_a64_8 env Henv a0 (qreg_areg _ Ha0)) as (b0 & Hb0 & Hl0), (rd_a64_8 env Henv a1 (qreg_areg _ Ha1)) as (b1 & Hb1 & Hl1).
  destruct (rd_a64_8 env Henv a2 (qreg_areg _ Ha2)) as (b2 & Hb2 & Hl2).
  assert (bytes_ok b1) as Hok1 by (rewrite rd_a64_q in Hb1 by done; by eapply rd_bytes_ok; [apply Henv|]).
  destruct (concat_ok env args x a0 a1 b0 (take 4 b1)) as (env1 & args1 & Hm1 & Hxx1 & Henv1 & Hfz1 & Hf1 & Hrd1); try done;
    [lia|by apply loads4_q|by apply Forall_take|rewrite length_take; lia|].
  destruct (loads4_last env1 ars n a2 Henv1 Hn Haok Hal Ha3) as (a3 & b4 & Ht3 & Hld4 & Hok4 & Hl4 & Hv4).
  assert (rd_a64 env1 a2 8 = Ret b2) as Hb2' by (apply (other_S_reg env1 a0 a2 b2 Hfz1); try done; lia).
  destruct (concat_ok env1 args1 (x + 1) a2 a3 b2 b4) as (env2 & args2 & Hm2 & Hxx2 & Henv2 & Hfz2 & Hf2 & Hrd2); try done;
    [lia|destruct Hf1 as [-> _]; done|].
  assert (∀ r q, r = x ∧ q = x + 1 → framed [reg_fp q] args1 args2 → rd args2 (x64_enum_2_ptr r) 8 = rd args1 (x64_enum_2_ptr r) 8) as Hkeep.
  { intros r q [-> ->] [_ Hf]. apply Hf. destruct (reg_fp_disjoint x (x + 1)) as [?|?]; [right; lia|right; lia|lia| |];
      (constructor; [|constructor]); unfold reg_fp, xwidth in *; cbn [fst snd]; destruct (xmm_ptr x) as [_ Hxm]; [lia| |lia|]; rewrite Hxm in *; lia. }
  exists (concat_S_regs OFF_ZREGS x a0 a1 ++ concat_S_regs OFF_ZREGS (x + 1) a2 a3), env2, args2. split_and!.
  - rewrite (code_regs OFF_ZREGS c) by (done || lia || simpl; lia). unfold code_arg_reg_reg. rewrite !slot_regs_num by (done || lia || simpl; lia).
    rewrite Hal. assert ((length ars ≤ 4)%nat) as Hle by lia. unfold code_many_to_two.
    rewrite (slot_get [(x, _); _] _ _ 0 x TE_Full 0), (slot_get [(x, _); _] _ _ 1 (x + 1) TE_Full 1) by (done || simpl; lia).
    rewrite (slot_get ars _ _ 0 a0 0 0), (slot_get ars _ _ 1 a1 0 1), (slot_get ars _ _ 2 a2 0 2), Ht3 by (done || by subst ars).
    cbn [mbind outcome_bind]. assert (in_range TE_XMM0 TE_XMM6 x = true) as ->
      by (apply andb_true_intro; split; apply Z.leb_le; unfold TE_XMM0, TE_XMM6, TE_XMM7 in *; lia).
    rewrite Z.eqb_refl, <- Heq1, <- Heq2, !Z.eqb_refl. by destruct Hn as [->| ->].
  - by eapply moves_app.
  - unfold footprint. cbn [fmap list_fmap fst]. eapply framed_trans; [by apply (framed_head (reg_fp x))|by apply framed_cons].
  - rewrite Href, xx_value_regs, aa_value_regs, Hh, Hsz by (done || lia || simpl; lia). cbn [gather fmap list_fmap fst].
    rewrite (Hkeep x (x + 1)) by done. rewrite Hrd1, Hrd2. cbn [mbind outcome_bind]. rewrite Hars. cbn [gather fmap list_fmap fst scalar_size].
    rewrite (rd_a64_low env Henv a0 4 b0 (qreg_areg _ Ha0) ltac:(lia) Hb0), (rd_a64_low env Henv a1 4 b1 (qreg_areg _ Ha1) ltac:(lia) Hb1),
      (rd_a64_low env Henv a2 4 b2 (qreg_areg _ Ha2) ltac:(lia) Hb2). cbn [mbind outcome_bind].
    destruct Hn as [->| ->]; cbn [Z.eqb Pos.eqb fmap list_fmap gather mbind outcome_bind outcome_fmap].
    + f_equal. rewrite !app_nil_r, !app_assoc. rewrite take_app_length'; [done|]. rewrite !length_app, !length_take. lia.
    + simpl fst. destruct (Ha3 eq_refl) as [_ Hq3]. destruct (rd_a64_8 env Henv _ (qreg_areg _ Hq3)) as (b3 & Hb3 & Hl3).
      rewrite (rd_a64_low env1 Henv1 (a2 + 1) 4 b3 (qreg_areg _ Hq3)) in Hv4 by (lia || apply (other_S_reg env1 a0 (a2 + 1) b3 Hfz1); (done || lia)).
      specialize (Hv4 eq_refl). injection Hv4 as <-. rewrite (rd_a64_low env Henv (a2 + 1) 4 b3 (qreg_areg _ Hq3) ltac:(lia) Hb3).
      cbn [mbind outcome_bind]. f_equal. rewrite !app_nil_r, <- !app_assoc. apply take_ge. rewrite !length_app, !length_take. lia.
  - split_and!; [congruence| |done]. unfold touch_fp. rewrite Hars. cbn [fmap list_fmap fst].
    eapply framed_trans; [by apply framed_head|]. do 2 apply framed_cons. by apply framed_head.
Qed.
End float.
