(* ===== verification/A2XEntry.v ===== *)
(** * The generated entry code, for whole prototypes

    The steps of [A2XArg] and [A2XFloat] composed over the argument list, as
    [DyCorrect] does it for the dynamic bridge.  In addition the emulated
    registers change from step to step: what one argument leaves behind in the
    S registers it put together concerns no other argument. *)

From S2P Require Import Prelude Bytes ABIArgInfo FfiTypes Layout Placement AAPrepCif HFA AAAlloc XXPrepCif XXClass XXAlloc CrossABI DyBridge DyEntry DyStep DyCorrect Memory X86 Encoder Machine A2XCode A2XSim A2XStep A2XArg A2XFloat.

Lemma gather_ext f g rs : (∀ r, r ∈ rs → f r = g r) → gather f rs = gather g rs.
Proof.
  induction rs as [|r rs IH]; intros H; [done|]. rewrite !gather_cons, (H r), IH; [done| |]; intros; try apply H; set_solver.
Qed.

Lemma rd_a64_same_x env env' r k : xregs env' = xregs env → TE_X0 ≤ r < TE_X0 + 8 → rd_a64 env' r k = rd_a64 env r k.
Proof.
  intros Hx Hr. unfold rd_a64. assert (∃ o, a64_enum_2_ptr r = Some (XPtr o)) as [o ->]; [|by rewrite Hx].
  unfold TE_X0 in Hr. assert (r = 33 ∨ r = 34 ∨ r = 35 ∨ r = 36 ∨ r = 37 ∨ r = 38 ∨ r = 39 ∨ r = 40) as H by lia.
  destruct_or! H; subst; eexists; reflexivity.
Qed.

Section entry.
Context (OFF_ZREGS envp : Z) (gmem m0 : memory) (sp room : Z).
Context (Hlay : layout OFF_ZREGS envp gmem m0 sp room).
Context (gsp : Z).
Abbreviation sim := (sim OFF_ZREGS envp m0 sp room).
Abbreviation moves := (moves OFF_ZREGS envp m0 sp room).

(** [movaps] loads from a place that is a multiple of 16. *)
Definition movaps_ok (c : cty) (px pa : place) : Prop :=
  match px, pa with
  | InRegs xrs, InRegs ars => hfa c = None → aligned_regs OFF_ZREGS xrs ars
  | InRegs xrs, OnStack off _ => movaps_from_stack gmem gsp c xrs off
  | OnStack _ _, _ => True
  end.

Lemma reg_seq_qreg k n : 0 ≤ k → k + n ≤ 8 → Forall (λ p, qreg_ok p.1) (reg_seq (TE_Q0 + k) n).
Proof.
  intros Hk Hn. apply Forall_forall. intros p Hp. assert (p.1 ∈ (reg_seq (TE_Q0 + k) n).*1) as Hin
    by (apply list_elem_of_fmap; eauto). apply reg_seq_elem in Hin. unfold qreg_ok. lia.
Qed.

Lemma static_reg_reg env c s n xrs ars args room' : env_ok env → value_type c = true →
  hfa c = Some (s, n) → xx_shape c (InRegs xrs) room' → aa_shape c (InRegs ars) →
  OFF_RAX ≤ Z.of_nat (length args) → static_delivered OFF_ZREGS envp gmem m0 sp room env gsp c (InRegs xrs) (InRegs ars) args.
Proof.
  intros Henv Hval Hh Hx Ha Hargs. destruct (hfa_inv _ _ _ Hh) as [Hfp Hn]. destruct (hfa_size c s n (value_wf c Hval) Hh) as [Hcs _].
  destruct (decide ((s = SFloat ∧ n = 1) ∨ s = SDouble)) as [|Hns]; [by eapply static_hfa_plain|].
  assert (s = SFloat ∧ n ≠ 1) as [-> Hn1]
    by (destruct s; try done; [by split; [|intros ->; apply Hns; left]|by exfalso; apply Hns; right]).
  destruct Hx as (Hsz & g & s0 & Hg & Hs0 & Hgb & Hsb & ->). destruct Ha as (k & n' & Hk & _ & Hkn & Haa).
  rewrite Hh in Haa. destruct Haa as [-> ->]. destruct (xx_regs_facts c Hval g s0 Hsz Hg Hs0 Hgb Hsb) as (Hxok & _).
  destruct (aa_regs_facts TE_Q0 n (or_intror eq_refl) k Hk Hn Hkn) as (Haok & _). pose proof (reg_seq_qreg k n Hk Hkn) as Har.
  rewrite (hfa_code_class c SFloat n Hval Hh), (hfa_loc_info c Hval _ _ Hh) in *.
  assert (n = 2 ∨ n = 3 ∨ n = 4) as Hn' by lia. destruct_or! Hn'; subst n.
  - change (regs_of _ _ g s0) with [(TE_XMM0 + s0, TE_Full)] in *. change (nsse_of _) with 1 in Hsb. rewrite reg_seq_2 in *.
    apply Forall_cons in Har as [? [? _]%Forall_cons]. eapply static_float_2; try done. unfold TE_XMM0, TE_XMM7. lia.
  - change (regs_of _ _ g s0) with [(TE_XMM0 + s0, TE_Full); (TE_XMM0 + (s0 + 1), TE_Full)] in *.
    change (nsse_of _) with 2 in Hsb. rewrite Z.add_assoc, reg_seq_3 in *.
    eapply (static_float_34 _ _ _ _ _ _ Hlay _ Henv _ _ _ _ (TE_Q0 + k) (TE_Q0 + k + 1) (TE_Q0 + k + 1 + 1) 3); try done; unfold TE_XMM0, TE_XMM7; lia.
  - change (regs_of _ _ g s0) with [(TE_XMM0 + s0, TE_Full); (TE_XMM0 + (s0 + 1), TE_Full)] in *.
    change (nsse_of _) with 2 in Hsb. rewrite Z.add_assoc, reg_seq_4 in *.
    eapply (static_float_34 _ _ _ _ _ _ Hlay _ Henv _ _ _ _ (TE_Q0 + k) (TE_Q0 + k + 1) (TE_Q0 + k + 1 + 1) 4); try done; unfold TE_XMM0, TE_XMM7; lia.
Qed.

(** Every combination the conventions produce, but for spread floats and
    misaligned loads. *)
Lemma static_deliver env c px pa room' args : env_ok env → xreg env REG_SP_NUM = Ret gsp → value_type c = true → 0 ≤ room' ≤ room →
  xx_shape c px room' → aa_shape c pa → readable env gmem gsp c pa → movaps_ok c px pa →
  (spread_floats c = true → place_is_mem px = true → place_is_mem pa = true) →
  Z.of_nat (length args) = SIZEOF_REGISTER_ARGS + room → static_delivered OFF_ZREGS envp gmem m0 sp room env gsp c px pa args.
Proof.
  intros Henv Hgsp Hval Hroom Hx Ha [[v Hv] Hrd] Hmv Hsp Hargs.
  assert (OFF_RAX ≤ Z.of_nat (length args)) by (unfold OFF_RAX, SIZEOF_REGISTER_ARGS in *; lia).
  destruct px as [xrs|off li].
  - assert (csize c ≤ 16) as Hsz by (by destruct Hx). destruct pa as [ars|off' i].
    + destruct (hfa c) as [[s n]|] eqn:Hh; [by eapply static_reg_reg|]. eapply static_reg_reg_int; try done. by apply Hmv.
    + destruct Ha as [Ho ->], Hrd as [Ho' Hrd]. destruct Hrd as [bs Hrd]; [by apply by_reference_small|done|].
      by eapply static_reg_mem.
  - assert (li = loc_info c) as -> by (by destruct Hx as (_ & _ & _ & -> & _)).
    destruct (by_reference c) eqn:Href.
    + eapply (static_indirect _ _ _ _ _ _ Hlay env Henv gsp Hgsp c) with (room' := room'); try done; [lia|]. destruct pa; [done|]. destruct Hrd. lia.
    + destruct pa as [ars|off' i].
      * eapply (static_mem_reg _ _ _ _ _ _ Hlay env Henv gsp c) with (room' := room'); try done; [lia|].
        destruct (spread_floats c); [|done]. by specialize (Hsp eq_refl eq_refl).
      * destruct Ha as [Ho ->], Hrd as [Ho' _]. rewrite aa_value_stack in Hv by (unfold in_u; lia).
        eapply (static_mem_mem _ _ _ _ _ _ Hlay env Henv gsp Hgsp c) with (room' := room'); try done; lia.
Qed.

(** ** Emulated registers of other arguments *)

Lemma aa_value_touched c pa c' pa' n n' env env' : aa_shape c pa → aa_shape c' pa' → place_disjoint pa n pa' n' → touched pa env env' →
  aa_arg_value env' gmem gsp c' (slot_info pa' (by_reference c') (csize c')) = aa_arg_value env gmem gsp c' (slot_info pa' (by_reference c') (csize c')).
Proof.
  intros Ha Ha' Hd (Hx & [Hl Hf] & Henv').
  assert (∀ r k, TE_X0 ≤ r < TE_X0 + 8 → rd_a64 env' r k = rd_a64 env r k) as Hxr by (intros r k; by apply rd_a64_same_x).
  destruct pa' as [rs'|off i]; [|unfold aa_arg_value; by destruct (slot_stack_flags off i (by_reference c') (csize c')) as [-> ->]].
  pose proof Ha' as (k' & m' & Hk' & Hm' & Hkm' & Haa'). destruct (by_reference c') eqn:Href.
  - destruct (hfa c') as [[s q]|] eqn:Hh; [by rewrite (by_reference_hfa c' s q Hh) in Href|]. destruct Haa' as [-> ->].
    unfold aa_arg_value. destruct (slot_regs_flags (reg_seq (TE_X0 + k') 1) true (csize c')) as [-> ->].
    rewrite (slot_get _ _ _ 0 (TE_X0 + k') 0) by (apply (aa_regs_facts TE_X0 1 (or_introl eq_refl) k' Hk' ltac:(lia) Hkm') || done || simpl; lia).
    cbn [mbind outcome_bind]. by rewrite Hxr by lia.
  - assert (pairs_ok rs' ∧ (length rs' ≤ 4)%nat) as [Hok Hl'].
    { destruct (hfa c') as [[s q]|]; destruct Haa' as [_ ->];
        [destruct (aa_regs_facts TE_Q0 m' (or_intror eq_refl) k' Hk' Hm' Hkm') as (? & ? & ?)|destruct (aa_regs_facts TE_X0 m' (or_introl eq_refl) k' Hk' Hm' Hkm') as (? & ? & ?)];
        (split; [done|lia]). }
    rewrite !aa_value_regs by done.
    destruct (hfa c') as [[s q]|]; destruct Haa' as [-> ->].
    + apply gather_ext. intros r Hr. apply reg_seq_elem in Hr as Hr'. rewrite !rd_a64_q by (unfold qreg_ok; lia). apply Hf.
      destruct pa as [rs|]; [|constructor]. unfold touch_fp. apply Forall_fmap, Forall_forall. intros r0 Hr0. unfold compose, S_upper. cbn [fst snd].
      assert (r0 ≠ r) by (intros ->; by eapply Hd). unfold ZREG_SIZE. assert (scalar_size s ≤ 8) by (destruct s; simpl; lia). lia.
    + f_equal. apply gather_ext. intros r Hr. apply reg_seq_elem in Hr as Hr'. apply Hxr. lia.
Qed.

(** ** The argument loop *)

Context (room' : Z) (Hroom : 0 ≤ room' ≤ room).

Definition static_job_ok (env : CPUARMState) (b : job) : Prop :=
  job_ok env gmem gsp room' b ∧ let '(c, px, pa) := b in movaps_ok c px pa.
Definition job_pa (b : job) : place := b.2.
Definition pas_disjoint (b b' : job) : Prop := place_disjoint (job_pa b) (stack_size b.1.1) (job_pa b') (stack_size b'.1.1).

Lemma code_arg_job env b args : env_ok env → xreg env REG_SP_NUM = Ret gsp → static_job_ok env b →
  Z.of_nat (length args) = SIZEOF_REGISTER_ARGS + room →
  ∃ es env' args', code_arg OFF_ZREGS (job_x b) (job_a b) = Ret es ∧ moves es env args env' args' ∧
    framed (job_fp b) args args' ∧ job_done env gmem gsp args' b ∧ touched (job_pa b) env env'.
Proof.
  destruct b as [[c px] pa]. intros Henv Hgsp [(Hv & Hx & Ha & Hr & Hsp) Hm] Hargs.
  by apply (static_deliver env c px pa room' args).
Qed.

Lemma job_value_touched b b' env env' : aa_shape b.1.1 (job_pa b) → aa_shape b'.1.1 (job_pa b') → pas_disjoint b b' →
  touched (job_pa b) env env' → aa_arg_value env' gmem gsp b'.1.1 (job_a b') = aa_arg_value env gmem gsp b'.1.1 (job_a b').
Proof.
  destruct b as [[c px] pa], b' as [[c' px'] pa']. intros Ha Ha' Hd Ht.
  by apply (aa_value_touched c pa c' pa' (stack_size c) (stack_size c')).
Qed.

Lemma static_job_touched b b' env env' : static_job_ok env b → static_job_ok env b' → pas_disjoint b b' →
  touched (job_pa b) env env' → static_job_ok env' b'.
Proof.
  intros Hb Hb' Hd Ht. pose proof (job_value_touched b b' env env') as Hv.
  destruct b as [[c px] pa], b' as [[c' px'] pa']. destruct Hb as [(_ & _ & Ha & _) _], Hb' as [(? & ? & Ha' & [[v Hr] Hst] & ?) ?].
  specialize (Hv Ha Ha' Hd Ht). split; [|done]. split_and!; try done. split; [|done]. exists v. cbn [fst snd job_a] in Hv. by rewrite Hv.
Qed.

Definition touch_fps (L : list job) : list (Z * Z) := mjoin (touch_fp ∘ job_pa <$> L).

Lemma code_args_ok L i xxs aas env args :
  env_ok env → xreg env REG_SP_NUM = Ret gsp → Forall (static_job_ok env) L →
  (∀ j k b b', (j < k)%nat → L !! j = Some b → L !! k = Some b' → fps_disjoint (job_fp b) (job_fp b') ∧ pas_disjoint b b') →
  (∀ j b, L !! j = Some b → xxs !! (i + j)%nat = Some (job_x b) ∧ aas !! (i + j)%nat = Some (job_a b)) →
  Z.of_nat (length args) = SIZEOF_REGISTER_ARGS + room →
  ∃ es env' args', emit_loop (code_args OFF_ZREGS xxs aas) (Z.of_nat i) (length L) = Ret es ∧ moves es env args env' args' ∧
    framed (mjoin (job_fp <$> L)) args args' ∧ Forall (job_done env gmem gsp args') L ∧
    xregs env' = xregs env ∧ framed (touch_fps L) (zregs env) (zregs env') ∧ env_ok env'.
Proof.
  revert i env args. induction L as [|b L IH]; intros i env args Henv Hgsp Hok Hd Hl Hargs.
  { exists [], env, args. split_and!; (done || apply framed_refl || constructor || apply moves_nil). }
  apply Forall_cons in Hok as [Hb Hok]. destruct (Hl 0%nat b eq_refl) as [Hx Ha]. rewrite Nat.add_0_r in Hx, Ha.
  destruct (code_arg_job env b args Henv Hgsp Hb Hargs) as (es1 & env1 & args1 & Hes1 & Hm1 & Hf1 & Hdone & Ht).
  assert (∀ k b', L !! k = Some b' → pas_disjoint b b') as Hpas by (intros k b' Hk; by apply (Hd 0%nat (S k) b b'); [lia| |]).
  pose proof Ht as (Hxr & Hfz & Henv1). destruct (IH (S i) env1 args1) as (es2 & env2 & args2 & Hes2 & Hm2 & Hf2 & Hall & Hxr2 & Hfz2 & Henv2).
  - done.
  - unfold xreg. by rewrite Hxr.
  - apply Forall_lookup. intros k b' Hk. rewrite Forall_lookup in Hok. eapply static_job_touched; [exact Hb|by eapply Hok|by eapply Hpas|done].
  - intros j k x y Hjk. apply (Hd (S j) (S k)). lia.
  - intros j x Hj. replace (S i + j)%nat with (i + S j)%nat by lia. by apply (Hl (S j)).
  - destruct Hf1 as [-> _]. done.
  - exists (es1 ++ es2), env2, args2. 
    assert (code_args OFF_ZREGS xxs aas (Z.of_nat i) = Ret es1) as Hc by (unfold code_args, c_index; by rewrite Nat2Z.id, Hx, Ha).
    cbn [emit_loop length]. rewrite Hc. cbn [mbind outcome_bind]. replace (Z.of_nat i + 1) with (Z.of_nat (S i)) by lia. rewrite Hes2. split_and!; [done|by eapply moves_app| | |congruence| |done].
    + eapply framed_trans; [by apply framed_app_l|by apply framed_app_r].
    + constructor.
      * eapply (job_done_framed env gmem gsp room'); [by destruct Hb|exact Hf2| |done].
        apply Forall_forall. intros p Hp. apply Forall_forall. intros q Hq.
        apply list_elem_of_join in Hq as (fp & Hq & Hfp). apply list_elem_of_fmap in Hfp as (b' & -> & Hb').
        apply list_elem_of_lookup in Hb' as [k Hk].
        by eapply fps_disjoint_elem; [apply (Hd 0%nat (S k) b b'); [lia|done|done]|..].
      * apply Forall_lookup. intros k b' Hk. rewrite Forall_lookup in Hall, Hok. specialize (Hall k b' Hk). specialize (Hok k b' Hk).
        pose proof (job_value_touched b b' env env1) as Hv. destruct b as [[c px] pa], b' as [[c' px'] pa'].
        destruct Hb as [(_ & _ & Hsa & _) _], Hok as [(_ & _ & Hsa' & _) _]. specialize (Hv Hsa Hsa' (Hpas k _ Hk) Ht).
        unfold job_done in *. cbn [fst snd] in Hv. by rewrite Hall.
    + eapply framed_trans; [by apply framed_app_l|by apply framed_app_r].
Qed.
End entry.
