(* ===== verification/A2XCall.v ===== *)
(** * The generated entry code, from the registers of the host on

    The argument space of [A2XSim] is made of what is in the argument registers
    and on the stack when the code starts; the hidden pointer and the stack
    pointer are set first, then the arguments are moved. *)

From S2P Require Import Prelude Bytes ABIArgInfo FfiTypes Layout Placement AAPrepCif HFA AAAlloc XXPrepCif XXClass XXAlloc CrossABI DyBridge DyEntry DyStep DyCorrect Handlers Memory X86 Encoder Machine A2XCode A2XSim A2XStep A2XArg A2XFloat A2XEntry.

(** ** The argument space of a state *)

Lemma rd_chunk n ls i b pre post : Forall (λ l, length l = n) ls → ls !! i = Some b →
  rd (pre ++ concat ls ++ post) (Z.of_nat (length pre) + Z.of_nat n * Z.of_nat i) (Z.of_nat n) = Ret b.
Proof.
  intros Hl. revert i pre. induction Hl as [|l ls Hl Hls IH]; intros i pre Hi; [done|]. destruct i as [|i].
  - injection Hi as ->. rewrite rd_ok by (rewrite ?length_app; cbn [concat]; rewrite ?length_app; lia). f_equal.
    rewrite Z.mul_0_r, Z.add_0_r, !Nat2Z.id, drop_app_length. cbn [concat]. rewrite <- app_assoc, <- Hl. apply take_app_length.
  - cbn [concat]. rewrite <- (app_assoc l). rewrite (app_assoc pre). rewrite <- (IH i (pre ++ l) Hi). f_equal. rewrite length_app. lia.
Qed.

Definition arg_gprs : list Z := [TCG_REG_RDI; TCG_REG_RSI; TCG_REG_RDX; TCG_REG_RCX; TCG_REG_R8; TCG_REG_R9].

Definition regs_space (s : cpu) : list Z :=
  concat ((λ r, le_bytes 8 (gpr s r)) <$> arg_gprs) ++ concat (xmm s <$> seqZ 0 8) ++ le_bytes 8 (gpr s TCG_REG_RAX).

Lemma length_chunks n ls : Forall (λ l : list Z, length l = n) ls → length (concat ls) = (n * length ls)%nat.
Proof. induction 1 as [|l ls Hl _ IH]; cbn [concat length]; [lia|]. rewrite length_app, Hl, IH. lia. Qed.

Lemma gpr_chunks s : Forall (λ l, length l = 8%nat) ((λ r, le_bytes 8 (gpr s r)) <$> arg_gprs).
Proof. apply Forall_fmap, Forall_true. intros. apply length_le_bytes. Qed.

Section space.
Context (s : cpu) (Hxmm : ∀ k, length (xmm s k) = 16%nat).

Lemma xmm_chunks : Forall (λ l, length l = 16%nat) (xmm s <$> seqZ 0 8).
Proof. apply Forall_fmap, Forall_true. exact Hxmm. Qed.

Lemma length_regs_space : length (regs_space s) = Z.to_nat SIZEOF_REGISTER_ARGS.
Proof.
  unfold regs_space. rewrite !length_app, (length_chunks _ _ (gpr_chunks s)), (length_chunks _ _ xmm_chunks), length_le_bytes, !length_fmap. reflexivity.
Qed.

Lemma regs_space_rd r post : xreg_ok r → rd (regs_space s ++ post) (x64_enum_2_ptr r) (xwidth r) = Ret (reg_bytes s r).
Proof.
  unfold regs_space, reg_bytes, xwidth. intros [(j & Hj & ->)|Hr].
  - destruct (gpr_ptr j Hj) as [Hp Hx]. rewrite Hp, Hx. rewrite <- !app_assoc.
    assert (((λ r, le_bytes 8 (gpr s r)) <$> arg_gprs) !! Z.to_nat j = Some (le_bytes 8 (gpr s (x64_enum_2_reg (nth (Z.to_nat j) xx_gprcnt2reg 0))))) as Hl.
    { assert (j = 0 ∨ j = 1 ∨ j = 2 ∨ j = 3 ∨ j = 4 ∨ j = 5) as H by lia. by destruct_or! H; subst j. }
    pose proof (rd_chunk 8 _ _ _ [] (concat (xmm s <$> seqZ 0 8) ++ le_bytes 8 (gpr s TCG_REG_RAX) ++ post) (gpr_chunks s) Hl) as H.
    rewrite <- H. f_equal. cbn [length]. lia.
  - destruct (xmm_ptr r Hr) as [Hp Hx]. rewrite Hp, Hx. rewrite <- !app_assoc.
    assert ((xmm s <$> seqZ 0 8) !! Z.to_nat (r - TE_XMM0) = Some (xmm s (r - TE_XMM0))) as Hl.
    { rewrite list_lookup_fmap, lookup_seqZ_lt by (unfold TE_XMM0, TE_XMM7 in *; lia). cbn [fmap option_fmap option_map]. do 2 f_equal. lia. }
    pose proof (rd_chunk 16 _ _ _ (concat ((λ r, le_bytes 8 (gpr s r)) <$> arg_gprs)) (le_bytes 8 (gpr s TCG_REG_RAX) ++ post) xmm_chunks Hl) as H.
    rewrite (length_chunks _ _ (gpr_chunks s)) in H. rewrite <- H. f_equal. cbn [length arg_gprs fmap list_fmap]. unfold TE_XMM0, TE_XMM7 in *. lia.
Qed.

Lemma sim_init OFF_ZREGS envp sp room env : 0 ≤ room → gpr s TCG_AREG0 = envp → gpr s TCG_REG_RSP = sp → (∀ r, in_u 64 (gpr s r)) →
  rd_mem (cmem s) envp 256 = Ret (xregs env) → rd_mem (cmem s) (envp + OFF_ZREGS) (32 * ZREG_SIZE) = Ret (zregs env) →
  mapped (cmem s) (sp - 24) (24 + room) = true →
  ∃ args, sim OFF_ZREGS envp (cmem s) sp room s env args.
Proof.
  intros Hroom Henv Hsp Hu Hx Hz Hm. destruct (mapped_rd (cmem s) sp room) as (st & Hst & Hlst); [done|by eapply mapped_sub; [exact Hm|lia..]|].
  exists (regs_space s ++ st). pose proof length_regs_space as Hl. unfold SIZEOF_REGISTER_ARGS in *. constructor; try done.
  - rewrite length_app, Hl. unfold SIZEOF_REGISTER_ARGS. lia.
  - intros r Hr. by apply regs_space_rd.
  - intros k Hk. rewrite lookup_app_r by (unfold SIZEOF_REGISTER_ARGS; lia). apply rd_mem_spec in Hst as [_ Hb]; [|done].
    specialize (Hb (Z.to_nat k) ltac:(lia)). rewrite Z2Nat.id in Hb by lia. rewrite Hb, Hl. f_equal. unfold SIZEOF_REGISTER_ARGS. lia.
  - by eapply mapped_sub; [exact Hm|lia..].
Qed.
End space.

(** ** The stack *)

Lemma ALIGN2POW_spec b : 0 ≤ b → b ≤ ALIGN2POW b 16 < b + 16 ∧ (16 | ALIGN2POW b 16).
Proof.
  intros Hb. unfold ALIGN2POW. change (16 - 1) with (Z.ones 4). destruct (decide (b = 0)) as [->|Hn]; [by split; [vm_compute|apply Z.divide_0_r]|].
  rewrite lor_ones by lia. change (2 ^ 4) with 16. pose proof (Z.div_mod (b - 1) 16 ltac:(lia)). pose proof (Z.mod_pos_bound (b - 1) 16 ltac:(lia)).
  split; [lia|]. exists ((b - 1) / 16 + 1). lia.
Qed.

(** The return buffer of the bridge, for the HFAs x86-64 returns in memory. *)
Definition sret_room (rt : cty) : Z := if (16 <? csize rt) && negb (by_reference rt) then BIG_ENOUGH_SRET_SIZE else 0.

Definition stack_args (xxInfo : ABIFnInfo) : Z := ALIGN2POW (bytes xxInfo) 16.

Lemma xx_bytes_room rt cs : proto_ok rt cs → 0 ≤ bytes (xx_fn_info rt cs) ≤ stack_room cs + 7.
Proof.
  intros (_ & _ & Hcs & _). destruct (xplaces_ok cs (xalloc0 rt) Hcs (xalloc0_ok rt)) as ((_ & _ & ?) & _ & Hb & _).
  unfold xx_fn_info. destruct (xplaces cs (xalloc0 rt)) as [ps a]. simpl in *. pose proof (align_up_spec (xb a) 8 ltac:(lia)).
  assert (xb (xalloc0 rt) = 0) by (unfold xalloc0; by case_match). lia.
Qed.

Section call.
Context (OFF_ZREGS envp : Z) (gmem : memory) (sp1 : Z).
Context (nf : Z) (rt : cty) (cs : list cty).
Context (Hproto : proto_ok rt cs) (Hroom : stack_room cs + 4096 < 2 ^ 31).
Abbreviation aaInfo := (aa_fn_info nf rt cs).
Abbreviation xxInfo := (xx_fn_info rt cs).
Abbreviation room := (stack_args xxInfo).
Abbreviation sp := (sp1 - sret_room rt - room).

Lemma room_bounds : 0 ≤ bytes xxInfo ≤ room ∧ room < 2 ^ 31 - 2048 ∧ (16 | room).
Proof.
  pose proof (xx_bytes_room rt cs Hproto). destruct (ALIGN2POW_spec (bytes xxInfo) ltac:(lia)) as [Hr Hd].
  unfold stack_args. split_and!; try lia. done.
Qed.

(** The hidden pointer and the new stack pointer. *)
Record prefix_done (env : CPUARMState) (s s' : cpu) : Prop := mk_prefix_done {
  pre_sp : gpr s' TCG_REG_RSP = sp;
  pre_regs : ∀ k, k ≠ TCG_REG_RSP → k ≠ TCG_REG_RDI → gpr s' k = gpr s k;
  pre_u64 : ∀ k, in_u 64 (gpr s' k);
  pre_xmm : xmm s' = xmm s;
  pre_mem : cmem s' = cmem s;
  pre_hidden : 16 < csize rt → hidden_pointer env rt (sp1 - BIG_ENOUGH_SRET_SIZE) = Ret (le_bytes 8 (gpr s' TCG_REG_RDI))
}.

Lemma sub_rsp s q n : gpr s TCG_REG_RSP = q → 0 ≤ n ≤ q → q < 2 ^ 64 → (∀ k, in_u 64 (gpr s k)) →
  ∃ s', exec_emit (E_addi TCG_REG_RSP (- n)) s = Ret s' ∧ only_reg TCG_REG_RSP (q - n) s s' ∧ ∀ k, in_u 64 (gpr s' k).
Proof.
  intros Hq Hn Hlt Hu. destruct (exec_addi TCG_REG_RSP (- n) s (Hu _)) as (s' & He & Hg & Hx & Hm). exists s'. split; [done|].
  assert (u64 (gpr s TCG_REG_RSP + - n) = q - n) as Hw by (rewrite Hq; apply wrap_small; unfold in_u; lia). rewrite Hw in Hg.
  split; [done|]. intros k. rewrite Hg. case_match; [unfold in_u; lia|done].
Qed.

Section prefix.
Context (env : CPUARMState) (s : cpu) (Henv : env_ok env) (He0 : 0 ≤ envp) (He1 : envp + 256 < 2 ^ 64).
Context (Henvp : gpr s TCG_AREG0 = envp) (Hsp : gpr s TCG_REG_RSP = sp1) (Hlow : sret_room rt + room ≤ sp1 < 2 ^ 64).
Context (Hu : ∀ k, in_u 64 (gpr s k)) (Hx : rd_mem (cmem s) envp 256 = Ret (xregs env)).

(** [s1] has the hidden pointer in RDI and [q] in RSP. *)
Lemma prefix_end es s1 q : exec_emits es s = Ret s1 → gpr s1 TCG_REG_RSP = q → q = sp1 - sret_room rt →
  (∀ k, k ≠ TCG_REG_RSP → k ≠ TCG_REG_RDI → gpr s1 k = gpr s k) → (∀ k, in_u 64 (gpr s1 k)) → xmm s1 = xmm s → cmem s1 = cmem s →
  (16 < csize rt → hidden_pointer env rt (sp1 - BIG_ENOUGH_SRET_SIZE) = Ret (le_bytes 8 (gpr s1 TCG_REG_RDI))) →
  ∃ s', exec_emits (es ++ [E_addi TCG_REG_RSP (- room)]) s = Ret s' ∧ prefix_done env s s'.
Proof.
  intros Hes Hq -> Hk Hu1 Hx1 Hm1 Hh. pose proof room_bounds as (Hb & Hlt & _).
  assert (0 ≤ sret_room rt) by (unfold sret_room; by case_match).
  destruct (sub_rsp s1 (sp1 - sret_room rt) room) as (s' & He & (Hg & Hx' & Hm) & Hu'); [done|lia|lia|done|].
  exists s'. rewrite exec_emits_app, Hes. cbn [mbind outcome_bind exec_emits]. rewrite He. split; [done|]. constructor; [by rewrite Hg, Z.eqb_refl| |done|congruence|congruence|].
  - intros k H1 H2. rewrite Hg, (proj2 (Z.eqb_neq _ _)) by done. by apply Hk.
  - intros Hbig. rewrite Hh by done. by rewrite Hg.
Qed.

Lemma prefix_x8 : 16 < csize rt → by_reference rt = true →
  ∃ s', exec_emits ([E_ld TCG_TYPE_PTR TCG_REG_RDI TCG_AREG0 (OFF_XREG 8)] ++ [E_addi TCG_REG_RSP (- room)]) s = Ret s' ∧ prefix_done env s s'.
Proof.
  intros Hbig Href. pose proof Henv as (Hxl & _ & Hxok & _).
  destruct (rd (xregs env) 64 8) as [bs|] eqn:Hx8; [|by rewrite rd_ok in Hx8 by lia].
  assert (bytes_ok bs ∧ length bs = 8%nat) as [Hok Hl] by (split; [by eapply rd_bytes_ok|apply rd_length in Hx8; lia]).
  assert (in_u 64 (le_val bs)) as Hv by (apply le_val_u64; [done|lia]).
  apply (prefix_end _ (set_gpr s TCG_REG_RDI (le_val bs)) sp1); try done.
  - cbn [exec_emits]. rewrite (exec_ld _ _ _ _ _ bs); [done|]. unfold cload, ea. rewrite Henvp. change (OFF_XREG 8) with 64.
    rewrite wrap_small by (unfold in_u; lia). by eapply (rd_mem_at _ envp 256).
  - unfold sret_room. rewrite Href, andb_false_r. lia.
  - intros k H1 H2. cbn [gpr set_gpr]. by rewrite (proj2 (Z.eqb_neq _ _)).
  - intros k. cbn [gpr set_gpr]. case_match; [by apply wrap_range|done].
  - intros _. unfold hidden_pointer. rewrite Href. change (8 * 8) with 64. rewrite Hx8. f_equal. cbn [gpr set_gpr].
    rewrite Z.eqb_refl, wrap_small by done. by rewrite le_bytes_8.
Qed.

Lemma prefix_buffer : 16 < csize rt → by_reference rt = false →
  ∃ s', exec_emits ([E_addi TCG_REG_RSP (- BIG_ENOUGH_SRET_SIZE); E_mov TCG_TYPE_REG TCG_REG_RDI TCG_REG_RSP] ++ [E_addi TCG_REG_RSP (- room)]) s = Ret s' ∧
    prefix_done env s s'.
Proof.
  intros Hbig Href. pose proof room_bounds as (Hb & Hlt & _).
  assert (sret_room rt = BIG_ENOUGH_SRET_SIZE) as Hsr by (unfold sret_room; by rewrite Href, (proj2 (Z.ltb_lt _ _) Hbig)).
  pose proof Hlow as Hlow'. rewrite Hsr in Hlow'. unfold BIG_ENOUGH_SRET_SIZE in *. destruct (sub_rsp s sp1 64) as (s1 & He & (Hg1 & Hx1 & Hm1) & Hu1); [done|lia|lia|done|].
  assert (gpr s1 TCG_REG_RSP = sp1 - 64) as Hq by (by rewrite Hg1).
  apply (prefix_end _ (set_gpr s1 TCG_REG_RDI (sp1 - 64)) (sp1 - 64)); try done.
  - cbn [exec_emits]. rewrite He. cbn [mbind outcome_bind]. rewrite (exec_mov _ _ s1) by done. cbn [mbind outcome_bind]. rewrite Hq, wrap_small; [done|unfold in_u; lia].
  - lia.
  - intros k H1 H2. cbn [gpr set_gpr]. rewrite (proj2 (Z.eqb_neq _ _)) by done. by rewrite Hg1, (proj2 (Z.eqb_neq _ _)).
  - intros k. cbn [gpr set_gpr]. case_match; [by apply wrap_range|done].
  - intros _. unfold hidden_pointer. rewrite Href. cbn [gpr set_gpr]. rewrite Z.eqb_refl, wrap_small; [done|unfold in_u; lia].
Qed.

Lemma entry_prefix_ok : ∃ es s', entry_sret (rinfo xxInfo) (rinfo aaInfo) = Ret es ∧
  exec_emits (es ++ [E_addi TCG_REG_RSP (- room)]) s = Ret s' ∧ prefix_done env s s'.
Proof.
  rewrite xx_fn_info_ret, aa_fn_info_ret. unfold entry_sret.
  destruct (slot_regs_flags (xx_ret_regs rt) (16 <? csize rt) 0) as [_ ->]. rewrite aa_ret_indirect.
  destruct (Z.ltb_spec 16 (csize rt)) as [Hbig|Hsmall].
  - rewrite xx_ret_large by done. change (te_get_reg _ 0) with (Ret TE_RDI). cbn [mbind outcome_bind]. change (x64_enum_2_reg TE_RDI) with TCG_REG_RDI.
    destruct (by_reference rt) eqn:Href; [destruct (prefix_x8 Hbig Href) as (s' & ? & ?)|destruct (prefix_buffer Hbig Href) as (s' & ? & ?)]; by eexists _, s'.
  - destruct (prefix_end [] s sp1) as (s' & ? & ?); try done; [|lia|by exists [], s'].
    unfold sret_room. rewrite (proj2 (Z.ltb_ge _ _) Hsmall). cbn [andb]. lia.
Qed.
End prefix.

Lemma jobs_pas_disjoint j k b b' : (j < k)%nat → jobs nf rt cs !! j = Some b → jobs nf rt cs !! k = Some b' → pas_disjoint b b'.
Proof.
  intros Hjk Hj Hk. destruct b as [[c px] pa], b' as [[c' px'] pa']. destruct Hproto as (_ & _ & Hcs & _).
  destruct (jobs_lookup _ _ _ _ _ _ _ Hj) as (Hc & _ & Hp), (jobs_lookup _ _ _ _ _ _ _ Hk) as (Hc' & _ & Hp').
  by eapply (place_args_disjoint nf cs 0 alloc0 j k); [|apply alloc0_ok|..].
Qed.

(** What the code may load with [movaps]. *)
Definition movaps_args (gsp : Z) : Prop := Forall (λ '(c, px, pa), movaps_ok OFF_ZREGS gmem gsp c px pa) (jobs nf rt cs).

(** At the call: the argument space [args] of the state [s'] holds every argument. *)
Record entered (env : CPUARMState) (m0 : memory) (gsp : Z) (s' : cpu) (env' : CPUARMState) (args : list Z) : Prop := mk_entered {
  ent_sim : sim OFF_ZREGS envp m0 sp room s' env' args;
  ent_args : Forall (job_done env gmem gsp args) (jobs nf rt cs);
  ent_x : xregs env' = xregs env;
  ent_z : framed (touch_fps (jobs nf rt cs)) (zregs env) (zregs env');
  ent_env : env_ok env';
  ent_hidden : 16 < csize rt → hidden_pointer env rt (sp1 - BIG_ENOUGH_SRET_SIZE) = Ret (le_bytes 8 (gpr s' TCG_REG_RDI));
  ent_rax : gpr s' TCG_REG_RAX = u64 (ssecount xxInfo)
}.

Record entry_state (env : CPUARMState) (s : cpu) : Prop := mk_entry_state {
  est_layout : layout OFF_ZREGS envp gmem (cmem s) sp room;
  est_env : gpr s TCG_AREG0 = envp;
  est_sp : gpr s TCG_REG_RSP = sp1 ∧ sp1 < 2 ^ 64;
  est_u64 : ∀ r, in_u 64 (gpr s r);
  est_xmm : ∀ k, length (xmm s k) = 16%nat;
  est_mem : env_mem OFF_ZREGS envp (cmem s) env;
  est_stack : mapped (cmem s) (sp - 24) (24 + room) = true
}.

Lemma entry_moves_ok env s gsp : entry_state env s → env_ok env → xreg env REG_SP_NUM = Ret gsp →
  Forall (λ c, value_type c = true) cs → guest_readable env gmem gsp cs aaInfo → no_spread cs aaInfo xxInfo → movaps_args gsp →
  ∃ es s' env' args, entry_moves OFF_ZREGS aaInfo xxInfo = Ret es ∧ exec_emits es s = Ret s' ∧ entered env (cmem s) gsp s' env' args.
Proof.
  intros [Hlay Henvp [Hsp Hsp64] Hu Hxmm [Hx Hz] Hstack] Henv Hgsp Hval Hg Hns Hmv. pose proof room_bounds as (Hb & Hlt & _).
  pose proof (jobs_ok nf rt cs env gmem gsp Hproto ltac:(lia) Henv Hval Hg Hns) as Hjobs. destruct (jobs_infos nf rt cs) as [E1 E2].
  destruct (xx_fn_info_bytes rt cs Hproto ltac:(lia)) as (Hby & _ & Hn). pose proof Hproto as (_ & _ & Hcs & _).
  destruct (entry_prefix_ok env s Henv) as (es0 & s1 & Hes0 & Hrun0 & [Psp Pk Pu Px Pm Ph]); try done.
  { destruct Hlay. lia. }
  { destruct Hlay. unfold ZREG_SIZE in *. lia. }
  { split; [|done]. destruct Hlay. lia. }
  destruct (sim_init s1 ltac:(by rewrite Px) OFF_ZREGS envp sp room env) as (args & Hsim); rewrite ?Pm; try done; [lia|by rewrite Pk|].
  rewrite Pm in Hsim. pose proof (sim_len _ _ _ _ _ _ _ _ Hsim) as Hlen.
  destruct (code_args_ok _ _ _ _ _ _ Hlay gsp (bytes xxInfo) ltac:(lia) (jobs nf rt cs) 0 (ainfo xxInfo) (ainfo aaInfo) env args)
    as (es1 & env' & args' & Hes1 & Hm1 & Hf & Hdone & Hxr & Hzr & Henv'); try done.
  - unfold movaps_args in Hmv. rewrite Forall_lookup in Hjobs, Hmv |- *. intros j b Hj. split; [by eapply Hjobs|]. specialize (Hmv j b Hj). by destruct b as [[c px] pa].
  - intros j k b b' Hjk Hj Hk. split; [|by eapply jobs_pas_disjoint]. eapply (jobs_disjoint nf rt cs (bytes xxInfo)); [done|lia|lia|done..].
  - intros j b Hj. rewrite E1, E2, !list_lookup_fmap. simpl. by rewrite Hj.
  - rewrite jobs_length in Hes1. change (Z.of_nat 0) with 0 in Hes1. destruct (Hm1 s1 Hsim) as (s2 & Hrun1 & Hsim2).
    destruct (exec_movi TCG_TYPE_I64 TCG_REG_RAX (ssecount xxInfo) s2) as [zf Hmovi].
    eexists _, _, env', args'. unfold entry_moves. rewrite Hes0. cbn [mbind outcome_bind]. rewrite Hn, Nat2Z.id, Hes1. split; [done|]. split.
    + change (ALIGN2POW (bytes xxInfo) 16) with room. rewrite app_assoc, exec_emits_app, Hrun0. cbn [mbind outcome_bind]. rewrite exec_emits_app, Hrun1. cbn [mbind outcome_bind exec_emits]. by rewrite Hmovi.
    + assert (sim OFF_ZREGS envp (cmem s) sp room (set_zf (set_gpr s2 TCG_REG_RAX (wrap (wbits (type_width TCG_TYPE_I64)) (ssecount xxInfo))) zf) env' args') as Hs3
        by (apply sim_zf, sim_scratch; done).
      constructor; try done; [|cbn [gpr set_gpr set_zf]; rewrite Z.eqb_refl; by rewrite (wrap_small _ (u64 _)) by (by apply wrap_range)].
      intros Hbig. rewrite Ph by done. assert (xreg_ok TE_RDI) as Hrdi by (by left; exists 0).
      pose proof (sim_regs _ _ _ _ _ _ _ _ Hsim TE_RDI Hrdi) as R1. pose proof (sim_regs _ _ _ _ _ _ _ _ Hs3 TE_RDI Hrdi) as R3.
      transitivity (rd args (x64_enum_2_ptr TE_RDI) (xwidth TE_RDI)); [symmetry; exact R1|]. etransitivity; [|exact R3]. symmetry. apply Hf.
      apply Forall_forall. intros q Hq. apply list_elem_of_join in Hq as (fp & Hq & Hfp). apply list_elem_of_fmap in Hfp as (b & -> & Hb').
      pose proof (jobs_spare_rdi nf rt cs b Hcs Hbig Hb') as Ho. unfold outside in Ho. rewrite Forall_forall in Ho. by apply Ho.
Qed.
End call.
