(* ===== verification/A2XExit.v ===== *)
(** * The generated exit code delivers the return value

    After the call the return registers, or the buffer on the stack, hold the
    value; the code stores it in the emulated registers.  Where the code does
    what the dynamic bridge does, the results of [DyExit] are used.  Two kinds
    of return value are not delivered: HFAs of several floats, whose second
    and fourth element are cut off by a 32-bit shift, and structures whose
    second eightbyte is in an SSE register, whose store traps. *)

From S2P Require Import Prelude Bytes ABIArgInfo FfiTypes Layout Placement AAPrepCif HFA AAAlloc XXPrepCif XXClass XXAlloc CrossABI DyBridge DyEntry DyStep DyCorrect DyExit Handlers Memory X86 Encoder Machine A2XCode A2XSim A2XStep A2XArg A2XCall.

(** ** Return registers in the argument space *)

Lemma regs_space_rax s : (∀ k, length (xmm s k) = 16%nat) → rd (regs_space s) OFF_RAX 8 = Ret (le_bytes 8 (gpr s TCG_REG_RAX)).
Proof.
  intros Hxmm. unfold regs_space. rewrite app_assoc. set (pre := concat _ ++ concat _).
  assert (length pre = 176%nat) as Hl.
  { unfold pre. by rewrite length_app, (length_chunks _ _ (gpr_chunks s)), (length_chunks _ _ (xmm_chunks s Hxmm)), !length_fmap. }
  pose proof (rd_chunk 8 [le_bytes 8 (gpr s TCG_REG_RAX)] 0 _ pre [] ltac:(apply Forall_singleton, length_le_bytes) eq_refl) as H.
  cbn [concat app] in H. rewrite !app_nil_r, Hl in H. exact H.
Qed.

Lemma regs_space_ret s x : (∀ k, length (xmm s k) = 16%nat) → wide_reg x ∨ x = TE_AL ∨ x = TE_AX → is_xmm x = false →
  rd (regs_space s) (x64_enum_2_ptr x) 8 = Ret (le_bytes 8 (gpr s (x64_enum_2_reg x))).
Proof.
  intros Hxmm Hx Hn. unfold wide_reg in Hx. destruct_or! Hx; subst x; try done; try exact (regs_space_rax s Hxmm).
  rewrite <- (app_nil_r (regs_space s)). apply (regs_space_rd s Hxmm TE_RDX). left. by exists 2.
Qed.

Lemma regs_space_xmm s x : (∀ k, length (xmm s k) = 16%nat) → wide_reg x → is_xmm x = true →
  rd (regs_space s) (x64_enum_2_ptr x) 16 = Ret (xmm s (x64_enum_2_reg x - 16)).
Proof.
  intros Hxmm Hx Hn. rewrite <- (app_nil_r (regs_space s)). unfold wide_reg in Hx. destruct_or! Hx; subst x; try done.
  - assert (xreg_ok TE_XMM0) as Hr by (by right). exact (regs_space_rd s Hxmm TE_XMM0 [] Hr).
  - assert (xreg_ok TE_XMM1) as Hr by (by right). exact (regs_space_rd s Hxmm TE_XMM1 [] Hr).
Qed.

Section exit.
Context (OFF_ZREGS envp : Z) (gmem m0 : memory) (sp room : Z).
Context (Hlay : layout OFF_ZREGS envp gmem m0 sp room).
Abbreviation env_mem := (env_mem OFF_ZREGS envp).
Abbreviation env_byte := (env_byte OFF_ZREGS envp).
Abbreviation a64_off := (a64_enum_2_offset OFF_ZREGS).

(** [s0]: the state after the call; RCX, R8 and XMM8 are used on the way. *)
Context (s0 : cpu) (Hxmm : ∀ k, length (xmm s0 k) = 16%nat).

Record ret_sim (s : cpu) (env : CPUARMState) : Prop := mk_ret_sim {
  rs_env : gpr s TCG_AREG0 = envp;
  rs_gpr : ∀ r, r ≠ TCG_REG_RCX → r ≠ TCG_REG_R8 → gpr s r = gpr s0 r;
  rs_u64 : ∀ r, in_u 64 (gpr s r);
  rs_xmm : ∀ k, k ≠ 8 → xmm s k = xmm s0 k;
  rs_mem : env_mem (cmem s) env;
  rs_frame : ∀ a, ¬ env_byte a → cmem s a = cmem s0 a
}.

Definition puts (es : list emit) (env env' : CPUARMState) : Prop :=
  ∀ s, ret_sim s env → ∃ s', exec_emits es s = Ret s' ∧ ret_sim s' env'.

Lemma puts_nil env : puts [] env env.
Proof. intros s Hs. by exists s. Qed.

Lemma puts_app es1 es2 e1 e2 e3 : puts es1 e1 e2 → puts es2 e2 e3 → puts (es1 ++ es2) e1 e3.
Proof.
  intros H1 H2 s Hs. destruct (H1 s Hs) as (s1 & He1 & Hs1). destruct (H2 s1 Hs1) as (s2 & He2 & Hs2).
  exists s2. split; [|done]. by rewrite exec_emits_app, He1.
Qed.

Lemma ret_sim_scratch s env r v : ret_sim s env → r = TCG_REG_RCX ∨ r = TCG_REG_R8 → ret_sim (set_gpr s r v) env.
Proof.
  intros [] Hr. assert (r ≠ TCG_AREG0) by (destruct_or! Hr; by subst). constructor; cbn [gpr xmm cmem set_gpr]; try done.
  - by rewrite (proj2 (Z.eqb_neq _ _)) by done.
  - intros k H1 H2. rewrite (proj2 (Z.eqb_neq _ _)); [by apply rs_gpr0|]. destruct_or! Hr; by subst.
  - intros k. case_match; [by apply wrap_range|done].
Qed.

Lemma ret_sim_store s env env' m ar bs : ret_sim s env → wr_mem (cmem s) (envp + a64_off ar) bs = Ret m →
  wr_a64 env ar bs = Ret env' → ret_sim (set_mem s m) env'.
Proof.
  intros [] Hm Hw. destruct (env_mem_wr_a64 _ _ _ _ _ _ Hlay (cmem s) env ar bs env' rs_mem0 Hw) as (m' & Hm' & Hem & Hout).
  rewrite Hm in Hm'. injection Hm' as <-. constructor; cbn [gpr xmm cmem set_mem]; try done.
  intros a Ha. rewrite Hout by done. by apply rs_frame0.
Qed.

Lemma ret_ea s env ar bs env' : ret_sim s env → wr_a64 env ar bs = Ret env' → ea s TCG_AREG0 (a64_off ar) = envp + a64_off ar.
Proof.
  intros Hs Hw. assert (∃ p, a64_enum_2_ptr ar = Some p) as [p Hp] by (unfold wr_a64 in Hw; destruct (a64_enum_2_ptr ar); eauto; done).
  unfold ea. rewrite (rs_env _ _ Hs). apply wrap_small. pose proof (env_off_range _ _ _ _ _ _ Hlay _ _ Hp). destruct Hlay. unfold in_u, ZREG_SIZE in *. lia.
Qed.

Lemma ret_writable s env ar bs env' : ret_sim s env → wr_a64 env ar bs = Ret env' → ∃ m, wr_mem (cmem s) (envp + a64_off ar) bs = Ret m.
Proof.
  intros Hs Hw. destruct (env_mem_wr_a64 _ _ _ _ _ _ Hlay (cmem s) env ar bs env' (rs_mem _ _ Hs) Hw) as (m & Hm & _). by exists m.
Qed.

(** A general or a vector register stored. *)
Lemma puts_st r ar v env env' s : ret_sim s env → gpr s r = v → wr_a64 env ar (le_bytes 8 v) = Ret env' →
  ∃ s', exec_emit (E_st TCG_TYPE_PTR r TCG_AREG0 (a64_off ar)) s = Ret s' ∧ ret_sim s' env'.
Proof.
  intros Hs Hr Hw. destruct (ret_writable s env ar _ env' Hs Hw) as [m Hm]. exists (set_mem s m).
  split; [|by eapply ret_sim_store]. apply exec_st. rewrite (ret_ea s env ar _ env' Hs Hw), Hr. exact Hm.
Qed.

Lemma puts_st128 r ar env env' s : ret_sim s env → (16 | a64_off ar) → wr_a64 env ar (xmm s (r - 16)) = Ret env' →
  ∃ s', exec_emit (E_st128 r TCG_AREG0 (a64_off ar)) s = Ret s' ∧ ret_sim s' env'.
Proof.
  intros Hs Hal Hw. destruct (ret_writable s env ar _ env' Hs Hw) as [m Hm]. exists (set_mem s m).
  split; [|by eapply ret_sim_store]. apply exec_st128; rewrite (ret_ea s env ar _ env' Hs Hw); [apply Z.divide_add_r; [apply Hlay|done]|exact Hm].
Qed.

(** ** Registers one by one *)

Abbreviation args := (regs_space s0).

Lemma extend_ret_wide env x li a off : wide_reg x → is_xmm x = false → a64_enum_2_ptr a = Some off → extend_ret_a64 env a x li = Ret env.
Proof.
  intros Hx Hn Ha. unfold extend_ret_a64. rewrite Ha. destruct env. unfold wide_reg in Hx. by destruct off; destruct_or! Hx; subst x.
Qed.

Lemma extend_code_wide x li : wide_reg x → is_xmm x = false → tcg_extend_ret_in_rcx_by_reg_loc_info x li = Ret [].
Proof. intros Hx Hn. unfold wide_reg in Hx. by destruct_or! Hx; subst x. Qed.

Lemma code_ret_reg_ok xx aa j x li a env env' : te_get_reg xx j = Ret x → te_get_reg_locinfo xx j = li → te_get_reg aa j = Ret a →
  wide_reg x → (is_xmm x = true → (16 | a64_off a)) → ret_step args env x li a = Ret env' →
  ∃ es, code_ret_reg OFF_ZREGS xx aa j = Ret es ∧ puts es env env'.
Proof.
  intros Hx Hli Ha Hw Hal Hstep. unfold code_ret_reg. rewrite Hx, Ha. cbn [mbind outcome_bind]. unfold ret_step, copy_to_a64 in Hstep. destruct (is_xmm x) eqn:Hn.
  - rewrite regs_space_xmm in Hstep by done. cbn [mbind outcome_bind] in Hstep. eexists. split; [done|]. intros s Hs.
    assert (x64_enum_2_reg x - 16 ≠ 8) as H8 by (unfold wide_reg in Hw; destruct_or! Hw; by subst x).
    rewrite <- (rs_xmm _ _ Hs) in Hstep by done. cbn [exec_emits].
    destruct (puts_st128 _ _ _ _ _ Hs (Hal eq_refl) Hstep) as (s' & -> & Hs'). by exists s'.
  - rewrite (regs_space_ret s0 x Hxmm (or_introl Hw) Hn) in Hstep. cbn [mbind outcome_bind] in Hstep.
    destruct (wr_a64 env a _) as [env1|] eqn:Hwr; [|done]. cbn [mbind outcome_bind] in Hstep.
    assert (∃ p, a64_enum_2_ptr a = Some p) as [p Hp] by (unfold wr_a64 in Hwr; destruct (a64_enum_2_ptr a); eauto; done).
    rewrite (extend_ret_wide _ _ _ _ _ Hw Hn Hp) in Hstep. injection Hstep as ->.
    rewrite (extend_code_wide x _ Hw Hn). cbn [mbind outcome_bind app]. eexists. split; [done|]. intros s Hs.
    assert (x64_enum_2_reg x ≠ TCG_REG_RCX ∧ x64_enum_2_reg x ≠ TCG_REG_R8 ∧ (x64_enum_2_reg x <? 16) = true) as (H1 & H2 & H3)
      by (unfold wide_reg in Hw; destruct_or! Hw; by subst x).
    cbn [exec_emits]. rewrite exec_mov by (done || by apply Z.eqb_neq). cbn [mbind outcome_bind].
    rewrite wrap_small by apply (rs_u64 _ _ Hs). rewrite (rs_gpr _ _ Hs) by done.
    destruct (puts_st TCG_REG_RCX a (gpr s0 (x64_enum_2_reg x)) env env' (set_gpr s TCG_REG_RCX (gpr s0 (x64_enum_2_reg x)))) as (s' & -> & Hs').
    + apply ret_sim_scratch; auto.
    + cbn [gpr set_gpr]. rewrite Z.eqb_refl. apply wrap_small. rewrite <- (rs_gpr _ _ Hs) by done. apply (rs_u64 _ _ Hs).
    + done.
    + by exists s'.
Qed.

Lemma simulate_ret xx aa xrs ars j env env' : names xx j xrs → names aa j ars → length xrs = length ars → Forall (λ p, wide_reg p.1) xrs →
  aligned_regs OFF_ZREGS xrs ars → ret_one_by_one args xx aa j (length xrs) env = Ret env' →
  ∃ es, emit_loop (code_ret_reg OFF_ZREGS xx aa) j (length xrs) = Ret es ∧ puts es env env'.
Proof.
  revert ars j env. induction xrs as [|[x li] xrs IH]; intros ars j env Hx Ha Hlen Hxs Hal Hrun.
  - injection Hrun as <-. exists []. split; [done|apply puts_nil].
  - destruct ars as [|[a ai] ars]; [done|]. apply names_cons in Hx as (Hx0 & Hxi & Hx). apply names_cons in Ha as (Ha0 & _ & Ha).
    apply Forall_cons in Hxs as [Hw Hxs]. apply Forall2_cons in Hal as [Hal0 Hal]. cbn [fst snd] in *.
    cbn [length ret_one_by_one] in Hrun. rewrite Hx0, Ha0, Hxi in Hrun. cbn [mbind outcome_bind] in Hrun. fold (ret_step args env x li a) in Hrun.
    destruct (ret_step args env x li a) as [env1|] eqn:Hs; [|done]. cbn [mbind outcome_bind] in Hrun.
    destruct (code_ret_reg_ok xx aa j x li a env env1 Hx0 Hxi Ha0 Hw Hal0 Hs) as (es1 & He1 & Hp1).
    destruct (IH ars (j + 1) env1) as (es2 & He2 & Hp2); try done; [by injection Hlen|].
    exists (es1 ++ es2). split; [by apply emit_loop_S|by eapply puts_app].
Qed.

(** ** The cases *)

Context (Hxok : ∀ k, bytes_ok (xmm s0 k)) (sret : list Z).

Lemma regs_space_ok : bytes_ok args.
Proof.
  assert (∀ ls, Forall bytes_ok ls → bytes_ok (concat ls)) as Hc by (induction 1; [constructor|by apply Forall_app]).
  unfold regs_space. apply Forall_app. split; [|apply Forall_app; split]; [apply Hc|apply Hc|apply le_bytes_ok].
  - apply Forall_fmap, Forall_true. intros. apply le_bytes_ok.
  - by apply Forall_fmap, Forall_true.
Qed.

Lemma regs_space_len : SIZEOF_REGISTER_ARGS ≤ Z.of_nat (length args).
Proof. rewrite length_regs_space by done. by unfold SIZEOF_REGISTER_ARGS. Qed.

Definition ret_delivered (c : cty) (xx aa : ABIArgInfo) (env : CPUARMState) : Prop :=
  ∃ es env', code_ret_direct OFF_ZREGS xx aa = Ret es ∧ puts es env env' ∧ ret_moved args sret c xx aa env env'.

(** The code does what the dynamic bridge does. *)
Lemma ret_from_dynamic c xrs ars env env' : pairs_ok xrs → pairs_ok ars → length xrs = length ars → (length xrs ≤ 4)%nat →
  Forall (λ p, wide_reg p.1) xrs → aligned_regs OFF_ZREGS xrs ars →
  let xx := slot_info (InRegs xrs) false 0 in let aa := slot_info (InRegs ars) false 0 in
  ret_direct args xx aa env = Ret env' → ret_moved args sret c xx aa env env' → ret_delivered c xx aa env.
Proof.
  intros Hxok' Haok Hlen Hl4 Hw Hal xx aa Hrun Hm. unfold ret_direct, xx, aa in Hrun.
  rewrite !slot_regs_num, <- Hlen, Z.eqb_refl, Nat2Z.id in Hrun by (done || lia).
  destruct (simulate_ret xx aa xrs ars 0 env env') as (es & Hes & Hp); try done; [by apply names_slot|apply names_slot; [done|lia]|].
  exists es, env'. split_and!; [|done|done]. unfold code_ret_direct, xx, aa. rewrite !slot_regs_num, <- Hlen, Z.eqb_refl, Nat2Z.id by (done || lia). exact Hes.
Qed.

Lemma exec_extend_rcx x li v s : x = TE_AL ∧ (li = TE_SExt8_32 ∨ li = TE_ZExt8_32) ∨ x = TE_AX ∧ (li = TE_SExt16_32 ∨ li = TE_ZExt16_32) →
  gpr s TCG_REG_RCX = u64 v →
  ∃ ext, tcg_extend_ret_in_rcx_by_reg_loc_info x li = Ret ext ∧ ∃ s', exec_emits ext s = Ret s' ∧ only_reg TCG_REG_RCX (ext_value li v) s s'.
Proof.
  intros Hx Hv. assert (∀ k, 0 ≤ k ≤ 64 → wrap k (gpr s 1) = wrap k v) as Hw.
  { intros k Hk. unfold TCG_REG_RCX in Hv. rewrite Hv. unfold wrap. rewrite Z.mod_mod_divide; [done|].
    exists (2 ^ (64 - k)). rewrite <- Z.pow_add_r by lia. f_equal. lia. }
  unfold ext_value. destruct_or! Hx; destruct Hx as [-> Hli]; destruct_or! Hli; subst li; (eexists; split; [reflexivity|]); extended Hw.
Qed.

Definition narrow_word (s : scalar) (x li : Z) : Prop :=
  xx_ret_regs (CScalar s) = [(x, li)] ∧ aa_ret_place (CScalar s) = InRegs [(TE_W0, 0)] ∧ hfa (CScalar s) = None ∧ li = loc_info (CScalar s) ∧
  csize (CScalar s) = scalar_size s ∧ (x = TE_AL ∧ (li = TE_SExt8_32 ∨ li = TE_ZExt8_32) ∨ x = TE_AX ∧ (li = TE_SExt16_32 ∨ li = TE_ZExt16_32)).

Lemma narrow_ret_word s : narrow_ret s → ∃ x li, narrow_word s x li.
Proof.
  unfold narrow_word. intros Hs. destruct_or! Hs; subst s; [exists TE_AL, TE_ZExt8_32|exists TE_AL, TE_SExt8_32|exists TE_AX, TE_ZExt16_32|exists TE_AX, TE_SExt16_32];
    split_and!; try done; auto.
Qed.

Lemma ret_sim_rcx t t' env v w : ret_sim t env → only_reg TCG_REG_RCX w (set_gpr t TCG_REG_RCX v) t' → in_u 64 w → ret_sim t' env.
Proof.
  intros [] (Hg & Hx & Hm) Hw. cbn [gpr xmm cmem set_gpr] in *. constructor; rewrite ?Hx, ?Hm; try done.
  - by rewrite Hg.
  - intros k H1 H2. rewrite Hg, (proj2 (Z.eqb_neq _ _)) by done. by apply rs_gpr0.
  - intros k. rewrite Hg. case_match; [done|done].
Qed.

Lemma ret_static_narrow s env : narrow_ret s → env_ok env →
  ret_delivered (CScalar s) (slot_info (InRegs (xx_ret_regs (CScalar s))) false 0) (slot_info (aa_ret_place (CScalar s)) false 0) env.
Proof.
  intros Hs He. set (v := gpr s0 TCG_REG_RAX). set (e := ext_value (loc_info (CScalar s)) v).
  destruct (narrow_ret_word s Hs) as (x & li & -> & -> & Hh & Hli & Hsz & Hcase).
  assert (pairs_ok [(x, li)] ∧ x64_enum_2_reg x = TCG_REG_RAX ∧ x64_enum_2_ptr x = OFF_RAX ∧ is_xmm x = false) as (Hok & Hreg & Hptr & Hxm)
    by (destruct_or! Hcase; destruct Hcase as [-> Hc]; destruct_or! Hc; rewrite Hc; split_and!; try done; by repeat constructor).
  assert (pairs_ok [(TE_W0, 0)]) as Haok by (by repeat constructor).
  destruct (copy_x (le_bytes 8 e) (le_bytes_ok _ _) env TE_W0 0 0 8 (le_bytes 8 e) He eq_refl) as (env' & Hc & He' & Hz & Hf & Hr); [lia..|done|].
  unfold copy_to_a64 in Hc. change (rd (le_bytes 8 e) 0 8) with (Ret (le_bytes 8 e)) in Hc. cbn [mbind outcome_bind] in Hc.
  set (xx := slot_info (InRegs [(x, li)]) false 0). set (aa := slot_info (InRegs [(TE_W0, 0)]) false 0).
  destruct (names_cons _ _ _ _ _ (names_slot [(x, li)] false 0 Hok ltac:(simpl; lia))) as (Hx0 & Hl0 & _).
  destruct (names_cons _ _ _ _ _ (names_slot [(TE_W0, 0)] false 0 Haok ltac:(simpl; lia))) as (Ha0 & _ & _).
  destruct (exec_extend_rcx x li 0 (set_gpr s0 TCG_REG_RCX 0) Hcase eq_refl) as (ext & Hext & _).
  exists (E_mov TCG_TYPE_REG TCG_REG_RCX TCG_REG_RAX :: ext ++ [E_st TCG_TYPE_PTR TCG_REG_RCX TCG_AREG0 (a64_off TE_W0)]), env'. split_and!.
  - unfold code_ret_direct, xx, aa. rewrite !slot_regs_num by (done || simpl; lia). cbn [length]. rewrite Z.eqb_refl, Nat2Z.id. cbn [emit_loop].
    unfold code_ret_reg. rewrite Hx0, Ha0, Hl0. cbn [mbind outcome_bind]. rewrite Hxm, Hext, Hreg. cbn [mbind outcome_bind]. by rewrite app_nil_r.
  - intros t Ht. assert (in_u 64 v) as Hv by (unfold v; rewrite <- (rs_gpr _ _ Ht) by done; apply (rs_u64 _ _ Ht)).
    assert (gpr (set_gpr t TCG_REG_RCX v) TCG_REG_RCX = u64 v) as Hrcx by (cbn [gpr set_gpr]; by rewrite Z.eqb_refl).
    destruct (exec_extend_rcx x li v _ Hcase Hrcx) as (ext' & Hext' & t' & Ht' & Hg & Hx & Hm). rewrite Hext in Hext'. injection Hext' as <-.
    assert (ret_sim t' env) as Hsim by (eapply ret_sim_rcx; [exact Ht|by split_and!|apply ext_value_u64]).
    destruct (puts_st TCG_REG_RCX TE_W0 e env env' t' Hsim) as (t2 & Ht2 & Hsim2); [unfold e; by rewrite Hg, Z.eqb_refl, Hli|done|].
    exists t2. split; [|done]. rewrite (exec_emits_cons _ _ _ (set_gpr t TCG_REG_RCX v)).
    + rewrite exec_emits_app, Ht'. cbn [mbind outcome_bind exec_emits]. by rewrite Ht2.
    + rewrite exec_mov by done. do 2 f_equal. rewrite (rs_gpr _ _ Ht) by done. by apply wrap_small.
  - split_and!; [done|apply (x_frame [] env env' 0); [by left|done|eapply framed_widen; [exact Hf|lia..]]|]. unfold xx_ret_value, aa_ret_value. rewrite Hh.
    unfold xx. destruct (slot_regs_flags [(x, li)] false 0) as [_ ->]. unfold aa. rewrite !word_regs_slot by (done || simpl; lia).
    cbn [gather fmap list_fmap fst]. rewrite Hptr, (regs_space_rax s0 Hxmm).
    assert (rd_a64 env' TE_W0 8 = Ret (take (Z.to_nat 8) (le_bytes 8 e))) as -> by (by apply (Hr 8)). cbn [mbind outcome_bind fmap outcome_fmap]. rewrite !app_nil_r. eexists. split; [done|].
    assert (scalar_size s ≤ 2) by (destruct_or! Hs; by subst s). pose proof (scalar_size_range s).
    rewrite (take_ge _ (Z.to_nat 8)) by (rewrite length_le_bytes; lia). rewrite !le_bytes_take by lia. f_equal. unfold e. rewrite ext_value_low by lia. done.
Qed.

(** Return values the exit code delivers. *)
Definition static_return (c : cty) : bool :=
  match hfa c with
  | Some (SFloat, n) => n =? 1
  | Some _ => true
  | None => (16 <? csize c) || negb (sse_at (code_class c 0) 1)
  end.

Ltac from_dynamic Hrun Hm al :=
  eapply ret_from_dynamic; [..|exact Hrun|exact Hm];
  [by repeat constructor|by repeat constructor|reflexivity|simpl; lia|repeat constructor; unfold wide_reg; by auto 6|repeat constructor; al].

Lemma z_aligned k : (16 | OFF_ZREG OFF_ZREGS k).
Proof. unfold OFF_ZREG, ZREG_SIZE. apply Z.divide_add_r; [apply Hlay|]. exists (k * 16). lia. Qed.

Lemma ret_static_hfa c s n env : value_type c = true → hfa c = Some (s, n) → csize c ≤ 16 → static_return c = true → env_ok env →
  ret_delivered c (slot_info (InRegs (xx_ret_regs c)) false 0) (slot_info (aa_ret_place c) false 0) env.
Proof.
  intros Hval Hh Hsz Hst He. unfold static_return in Hst. rewrite Hh in Hst.
  destruct (ret_hfa_small args sret regs_space_ok regs_space_len c s n env Hval Hh Hsz He) as (env' & Hrun & Hm). cbv zeta in Hrun, Hm.
  destruct (hfa_ret_regs args c s n Hval Hh Hsz) as (Hcs & Hcase & Hxr & Har). rewrite Hcs in Hxr. rewrite Hxr, Har in *.
  destruct Hcase as [[-> Hn]|[-> Hn]]; destruct_or! Hn; subst n; try discriminate Hst;
    from_dynamic Hrun Hm ltac:(intros _; apply z_aligned).
Qed.

Lemma ret_static_scalar s env : hfa (CScalar s) = None → env_ok env →
  ret_delivered (CScalar s) (slot_info (InRegs (xx_ret_regs (CScalar s))) false 0) (slot_info (aa_ret_place (CScalar s)) false 0) env.
Proof.
  intros Hh He. destruct (decide (narrow_ret s)) as [Hn|Hn]; [by apply ret_static_narrow|].
  destruct (ret_scalar args sret regs_space_ok regs_space_len s env Hh He) as (env' & Hrun & Hm). cbv zeta in Hrun, Hm.
  destruct s; try discriminate Hh; try (destruct Hn; unfold narrow_ret; solve [auto]); from_dynamic Hrun Hm ltac:(discriminate).
Qed.

Lemma ret_static_struct fs env : value_type (CStruct fs) = true → hfa (CStruct fs) = None → csize (CStruct fs) ≤ 16 → static_return (CStruct fs) = true → env_ok env →
  ret_delivered (CStruct fs) (slot_info (InRegs (xx_ret_regs (CStruct fs))) false 0) (slot_info (aa_ret_place (CStruct fs)) false 0) env.
Proof.
  intros Hval Hh Hsz Hst He. destruct (ret_struct args sret regs_space_ok regs_space_len fs env Hval Hh Hsz He) as (env' & Hrun & Hm). cbv zeta in Hrun, Hm.
  unfold static_return in Hst. rewrite Hh, (proj2 (Z.ltb_ge 16 _)) in Hst by lia. cbn [orb] in Hst. apply negb_true_iff in Hst.
  unfold xx_ret_regs, aa_ret_place, xx_ret_struct_regs in *. rewrite Hh, (proj2 (Z.ltb_ge 16 _)) in * by lia. rewrite Hst in *.
  destruct ((csize (CStruct fs) =? 4) && sse_at (code_class (CStruct fs) 0) 0) eqn:H4.
  { apply andb_prop in H4 as [H4 Hs]. apply Z.eqb_eq in H4. by rewrite (one_float _ Hval H4 Hs) in Hh. }
  destruct (csize (CStruct fs) =? 8), (sse_at (code_class (CStruct fs) 0) 0); 
    from_dynamic Hrun Hm ltac:(first [discriminate|intros _; by exists 0]).
Qed.

Lemma ret_static_direct c env : return_type c → csize c ≤ 16 → static_return c = true → env_ok env →
  ret_delivered c (slot_info (InRegs (xx_ret_regs c)) false 0) (slot_info (aa_ret_place c) false 0) env.
Proof.
  intros Hrt Hsz Hst He. destruct (hfa c) as [[s n]|] eqn:Hh.
  - destruct Hrt as [Hval| ->]; [by eapply ret_static_hfa|discriminate Hh].
  - destruct c as [s|fs]; [by apply ret_static_scalar|]. destruct Hrt as [Hval|]; [by apply ret_static_struct|discriminate].
Qed.

(** ** The buffer on the stack *)

Context (q : Z) (Hq : gpr s0 TCG_REG_RSP = q) (Hq64 : 0 ≤ q ∧ q + 64 < 2 ^ 64) (Hbuf : rd_mem (cmem s0) q 64 = Ret sret).
Context (Hapart : q + 64 ≤ envp ∨ envp + OFF_ZREGS + 32 * ZREG_SIZE ≤ q).

Lemma code_sret_8_ok aa j a env env' : te_get_reg aa j = Ret a → 0 ≤ j → 8 * j + 8 ≤ 64 → bytes_ok sret →
  copy_to_a64 env a sret (8 * j) 8 = Ret env' → ∃ es, code_sret_8 OFF_ZREGS aa j = Ret es ∧ puts es env env'.
Proof.
  intros Ha Hj Hj8 Hok Hc. unfold code_sret_8. rewrite Ha. cbn [mbind outcome_bind]. eexists. split; [done|]. intros s Hs.
  unfold copy_to_a64 in Hc. destruct (rd sret (8 * j) 8) as [bs|] eqn:Hb; [|done]. cbn [mbind outcome_bind] in Hc.
  assert (bytes_ok bs ∧ length bs = 8%nat) as [Hbok Hbl] by (split; [by eapply rd_bytes_ok|apply rd_length in Hb; lia]).
  assert (in_u 64 (le_val bs)) as Hv by (apply le_val_u64; [done|lia]).
  assert (cload s (ea s TCG_REG_RSP (8 * j)) 8 = Ret bs) as Hld.
  { unfold cload, ea. rewrite (rs_gpr _ _ Hs), Hq, wrap_small by (done || unfold in_u; lia). rewrite (rd_mem_ext (cmem s0)).
    - by eapply (rd_mem_at _ q 64).
    - intros x Hx. apply (rs_frame _ _ Hs). unfold env_byte, ZREG_SIZE in *. destruct Hlay. lia. }
  cbn [exec_emits]. rewrite (exec_ld _ _ _ _ _ bs) by done. cbn [mbind outcome_bind].
  destruct (puts_st TCG_REG_R8 a (le_val bs) env env' (set_gpr s TCG_REG_R8 (le_val bs))) as (s' & -> & Hs').
  - apply ret_sim_scratch; auto.
  - cbn [gpr set_gpr]. rewrite Z.eqb_refl. by apply wrap_small.
  - by rewrite le_bytes_8.
  - by exists s'.
Qed.

Lemma simulate_sret aa ars j env env' : bytes_ok sret → names aa j ars → 0 ≤ j → 8 * j + 8 * Z.of_nat (length ars) ≤ 64 →
  regs_from_sret sret aa 8 (8 * j) j (length ars) env = Ret env' →
  ∃ es, emit_loop (code_sret_8 OFF_ZREGS aa) j (length ars) = Ret es ∧ puts es env env'.
Proof.
  intros Hok. revert j env. induction ars as [|[a ai] ars IH]; intros j env Ha Hj Hlen Hrun.
  - injection Hrun as <-. exists []. split; [done|apply puts_nil].
  - apply names_cons in Ha as (Ha0 & _ & Ha). cbn [length regs_from_sret] in Hrun, Hlen. rewrite Ha0 in Hrun. cbn [mbind outcome_bind] in Hrun.
    destruct (copy_to_a64 env a sret (8 * j) 8) as [env1|] eqn:Hc; [|done]. cbn [mbind outcome_bind] in Hrun.
    destruct (code_sret_8_ok aa j a env env1 Ha0 Hj ltac:(lia) Hok Hc) as (es1 & He1 & Hp1).
    destruct (IH (j + 1) env1 Ha ltac:(lia) ltac:(lia)) as (es2 & He2 & Hp2); [by replace (8 * (j + 1)) with (8 * j + 8) by lia|].
    exists (es1 ++ es2). split; [by apply emit_loop_S|by eapply puts_app].
Qed.

Lemma ret_static_large c s n env : value_type c = true → hfa c = Some (s, n) → 16 < csize c → bytes_ok sret → env_ok env →
  ∃ es env', code_ret_from_sret OFF_ZREGS (slot_info (aa_ret_place c) false 0) = Ret (es ++ [E_addi TCG_REG_RSP BIG_ENOUGH_SRET_SIZE]) ∧ puts es env env' ∧
    ret_moved args sret c (slot_info (InRegs (xx_ret_regs c)) true 0) (slot_info (aa_ret_place c) false 0) env env'.
Proof.
  intros Hval Hh Hsz Hok He. destruct (hfa_inv _ _ _ Hh) as [Hfp Hn]. destruct (hfa_size c s n (value_wf c Hval) Hh) as [Hcs _].
  assert (s = SDouble ∧ (n = 3 ∨ n = 4)) as [-> Hn34] by (destruct s; try done; simpl in Hcs; split; (done || lia)).
  change (scalar_size SDouble) with 8 in Hcs. pose proof (rd_mem_length _ _ 64 _ ltac:(lia) Hbuf) as Hbl.
  destruct (ret_hfa_large args sret Hok c SDouble n env Hval Hh Hsz He ltac:(lia)) as (env' & Hrun & Hm). cbv zeta in Hrun, Hm.
  assert (aa_ret_place c = InRegs (reg_seq TE_D0 n)) as Ha by (unfold aa_ret_place; by rewrite Hh). rewrite Ha in *.
  set (aa := slot_info (InRegs (reg_seq TE_D0 n)) false 0) in *.
  assert (pairs_ok (reg_seq TE_D0 n) ∧ Z.of_nat (length (reg_seq TE_D0 n)) = n) as [Haok Hl]
    by (destruct Hn34; subst n; split; done || by repeat constructor).
  assert (te_num_of_reg aa = n) as Hnum by (unfold aa; rewrite slot_regs_num by (done || lia); done).
  assert (te_get_reg aa 0 = Ret TE_D0) as Ha0 by (destruct Hn34; by subst n).
  unfold ret_from_sret in Hrun. unfold code_ret_from_sret. rewrite Hnum in *. destruct (consecutive aa 1 _) as [[]|]; [|done]. cbn [mbind outcome_bind] in *.
  rewrite Ha0 in *. cbn [mbind outcome_bind] in *. rewrite Z.eqb_refl in *. assert (Z.to_nat n = length (reg_seq TE_D0 n)) as Hn' by lia. rewrite Hn' in *.
  destruct (simulate_sret aa (reg_seq TE_D0 n) 0 env env' Hok) as (es & Hes & Hp); try done; [unfold aa; apply names_slot; [done|lia]|lia|].
  exists es, env'. by rewrite Hes.
Qed.
End exit.
