(* ===== verification/A2XValid.v ===== *)
(** * The calls of the encoder are within its range

    Every call the bridge makes names existing registers and offsets of 32
    bits, so that [decode_emit_ok] applies: the bytes decode to the
    instructions that were meant. *)

From S2P Require Import Prelude Bytes ABIArgInfo FfiTypes Layout Placement AAPrepCif HFA AAAlloc XXPrepCif XXClass XXAlloc CrossABI DyBridge DyEntry DyStep DyCorrect DyExit Handlers Memory X86 Encoder Machine A2XCode A2XSim A2XArg A2XEntry A2XCall.

Abbreviation all_valid := (Forall (λ e, valid 0 e = true)).

Lemma int32_ok v : - 2 ^ 31 ≤ v < 2 ^ 31 → is_int32 v = true.
Proof. intros H. apply Z.eqb_eq, sext_signed; [lia|done]. Qed.

Lemma int64_ok v : - 2 ^ 63 ≤ v < 2 ^ 63 → (sext 64 v =? v) = true.
Proof. intros H. apply Z.eqb_eq, sext_signed; [lia|done]. Qed.

Lemma emit_loop_valid f j n es : emit_loop f j n = Ret es → (∀ k es, j ≤ k < j + Z.of_nat n → f k = Ret es → all_valid es) → all_valid es.
Proof.
  revert j es. induction n as [|n IH]; intros j es H Hf; cbn [emit_loop] in H.
  - by injection H as <-.
  - destruct (f j) as [es1|] eqn:H1; [|done]. cbn [mbind outcome_bind] in H. destruct (emit_loop f (j + 1) n) as [es2|] eqn:H2; [|done].
    injection H as <-. apply Forall_app. split; [apply (Hf j); [lia|done]|]. eapply IH; [exact H2|]. intros k es Hk. apply Hf. lia.
Qed.

Lemma te_num_of_reg_range x : 0 ≤ te_num_of_reg x ≤ 4.
Proof.
  assert (∀ n v cnt, cnt ≤ te_num_of_reg_from n v cnt ≤ cnt + Z.of_nat n) as H.
  { induction n as [|n IH]; intros v cnt; cbn [te_num_of_reg_from]; [lia|]. case_match; [lia|]. specialize (IH v (cnt + 1)). lia. }
  exact (H 4%nat (val x) 0).
Qed.

(** The register operands of an argument word. *)
Definition xx_regs_valid (xx : ABIArgInfo) : Prop :=
  ∀ j r, 0 ≤ j < te_num_of_reg xx → te_get_reg xx j = Ret r →
    if is_xmm r then is_xreg (x64_enum_2_reg r) = true else is_reg (x64_enum_2_reg r) = true.

Lemma xreg_valid r : xreg_ok r → if is_xmm r then is_xreg (x64_enum_2_reg r) = true else is_reg (x64_enum_2_reg r) = true.
Proof.
  intros Hr. destruct (is_xmm r) eqn:Hx.
  - unfold is_xmm, in_range in Hx. btests. assert (r = 18 ∨ r = 19 ∨ r = 20 ∨ r = 21 ∨ r = 22 ∨ r = 23 ∨ r = 24 ∨ r = 25) as K
      by (unfold TE_XMM0, TE_XMM7 in *; lia). by destruct_or! K; subst.
  - pose proof (arg_reg_gpr r Hr Hx) as Hin. repeat (apply elem_of_cons in Hin as [->|Hin]; [done|]). by apply not_elem_of_nil in Hin.
Qed.

Section valid.
Context (OFF_ZREGS : Z) (Hoff : 0 ≤ OFF_ZREGS < 2 ^ 20).

Lemma a64_off_int32 num d : 0 ≤ d ≤ 8 → is_int32 (a64_enum_2_offset OFF_ZREGS num + d) = true.
Proof.
  intros Hd. apply int32_ok. unfold a64_enum_2_offset, OFF_ZREG, OFF_XREG, in_range, ZREG_SIZE,
    TE_S0, TE_S7, TE_D0, TE_D7, TE_Q0, TE_Q7, TE_W0, TE_W7, TE_X0, TE_X8. repeat case_match; btests; lia.
Qed.

Lemma a64_off_int32_0 num : is_int32 (a64_enum_2_offset OFF_ZREGS num) = true.
Proof. rewrite <- (Z.add_0_r (a64_enum_2_offset _ _)). by apply a64_off_int32. Qed.

Lemma extend_valid li : all_valid (tcg_extend_arg_in_rax_by_loc_info li).
Proof. unfold tcg_extend_arg_in_rax_by_loc_info. repeat case_match; repeat constructor. Qed.

(** Splits a list of calls into its elements and closes them with what the context says of their operands. *)
Ltac operands :=
  cbn [valid int_type andb];
  repeat match goal with
  | |- context [is_int32 (a64_enum_2_offset OFF_ZREGS ?n)] => rewrite (a64_off_int32_0 n)
  | |- context [is_int32 (a64_enum_2_offset OFF_ZREGS ?n + 4)] => rewrite (a64_off_int32 n 4) by lia
  | H : is_int32 ?x = true |- context [is_int32 ?x] => rewrite H
  | H : is_reg ?x = true |- context [is_reg ?x] => rewrite H
  | H : is_xreg ?x = true |- context [is_xreg ?x] => rewrite H
  | H : (sext 64 ?x =? ?x) = true |- context [sext 64 ?x] => rewrite H
  end; reflexivity.
Ltac each_valid :=
  repeat first [assumption | apply Forall_nil_2 | apply Forall_cons_2; [operands|] | apply extend_valid | apply Forall_app_2].

Lemma code_reg_reg_valid xx aa j es : xx_regs_valid xx → 0 ≤ j < te_num_of_reg xx → code_reg_reg OFF_ZREGS xx aa j = Ret es → all_valid es.
Proof.
  intros Hx Hj. unfold code_reg_reg. destruct (te_get_reg xx j) as [xr|] eqn:Hxr; [|done]. destruct (te_get_reg aa j) as [ar|]; [|done].
  specialize (Hx j xr Hj Hxr). cbn [mbind outcome_bind]. destruct (is_xmm xr); intros <-%Ret_inj; each_valid.
Qed.

Lemma xmm_valid x : TE_XMM0 ≤ x ≤ TE_XMM7 → is_xreg (x64_enum_2_reg x) = true.
Proof. intros Hx. pose proof (xreg_valid x (or_intror Hx)) as H. destruct (xmm_ptr x Hx) as [_ Hn]. by rewrite Hn in H. Qed.

Lemma concat_valid x a0 a1 : TE_XMM0 ≤ x ≤ TE_XMM7 → all_valid (concat_S_regs OFF_ZREGS x a0 a1).
Proof. intros Hx%xmm_valid. unfold concat_S_regs. each_valid. Qed.

Lemma code_arg_reg_reg_valid xx aa es : xx_regs_valid xx → code_arg_reg_reg OFF_ZREGS xx aa = Ret es → all_valid es.
Proof.
  intros Hx. unfold code_arg_reg_reg. destruct (Z.eqb_spec (te_num_of_reg xx) (te_num_of_reg aa)) as [_|_].
  { intros H. eapply emit_loop_valid; [exact H|]. intros k es' Hk. apply code_reg_reg_valid; [done|lia]. }
  destruct (_ <? _); [|done]. destruct (_ && _); [|destruct (2 =? _); [|done]].
  - unfold code_two_to_one, in_range. intros H. inv_outcome. subst es. btests. apply concat_valid. lia.
  - unfold code_many_to_two, in_range. intros H. inv_outcome. subst es. btests; apply (Forall_app_2 _ (concat_S_regs OFF_ZREGS x x1 x2)); apply concat_valid; unfold TE_XMM6, TE_XMM7 in *; lia.
Qed.

Lemma code_from_mem_valid xx base step off j n es : xx_regs_valid xx → 0 ≤ j → j + Z.of_nat n = te_num_of_reg xx →
  0 ≤ base → 0 ≤ off → 0 ≤ step ≤ 64 → base + off + 64 * Z.of_nat n < 2 ^ 31 →
  code_regs_from_mem xx base step off j n = Ret es → all_valid es.
Proof.
  intros Hx. revert off j es. induction n as [|n IH]; intros off j es Hj Hn Hb Ho Hs Hlt; cbn [code_regs_from_mem].
  - by intros [= <-].
  - destruct (te_get_reg xx j) as [xr|] eqn:Hxr; [|done]. specialize (Hx j xr ltac:(lia) Hxr) as Hr. cbn [mbind outcome_bind].
    rewrite (wrap_small 32 (base + off)) by (unfold in_u; lia). assert (is_int32 (base + off) = true) as Hi by (apply int32_ok; lia).
    assert (∀ d es1 es', all_valid es1 → 0 ≤ d ≤ 64 → (es2 ← code_regs_from_mem xx base step (u32 (off + d)) (j + 1) n; Ret (es1 ++ es2)) = Ret es' → all_valid es') as Hrest.
    { intros d es1 es' He1 Hd H. destruct (code_regs_from_mem _ _ _ _ _ n) as [es2|] eqn:H2; [|done]. injection H as <-. apply Forall_app_2; [done|].
      rewrite wrap_small in H2 by (unfold in_u; lia). eapply IH; [..|exact H2]; lia. }
    destruct (is_xmm xr); cbn [mbind outcome_bind]; intros H; (eapply Hrest; [|..|exact H]; [|lia]); each_valid.
Qed.

(** What an argument word must have for the code to be in range. *)
Record word_valid (xx : ABIArgInfo) : Prop := mk_word_valid {
  wv_count : 0 ≤ te_num_of_reg xx ≤ 4;
  wv_mem : te_is_mem xx = true → 0 ≤ te_get_mem xx < 2 ^ 31 - 1024;
  wv_size : 0 ≤ te_get_arg_size xx < 2 ^ 31
}.

Lemma code_mem_reg_valid xx aa wide j es : 0 ≤ te_get_mem xx < 2 ^ 31 - 1024 → 0 ≤ j ≤ 4 → code_mem_reg OFF_ZREGS xx aa wide j = Ret es → all_valid es.
Proof.
  intros Hx Hj. unfold code_mem_reg. destruct (te_get_reg aa j) as [ar|]; [|done]. cbn [mbind outcome_bind].
  rewrite !wrap_small by (unfold in_u; lia).
  assert (is_int32 (te_get_mem xx + 16 * j) = true ∧ is_int32 (te_get_mem xx + 8 * j) = true) as [H1 H2] by (split; apply int32_ok; lia).
  destruct wide; intros <-%Ret_inj; each_valid.
Qed.

Lemma code_copy_valid xx n src : 0 ≤ te_get_mem xx < 2 ^ 31 - 1024 → 0 ≤ n < 2 ^ 31 → all_valid src → all_valid (code_copy xx n src).
Proof.
  intros Hx Hn Hs. unfold code_copy. rewrite wrap_small by (unfold in_u; lia). pose proof (int64_ok n ltac:(lia)).
  pose proof (int32_ok (te_get_mem xx + 8 * 3) ltac:(lia)). each_valid.
Qed.

Lemma code_arg_valid xx aa es : word_valid xx → word_valid aa → (te_is_mem xx = false → xx_regs_valid xx) → (te_is_mem xx = false → te_get_arg_size aa ≤ 64) → code_arg OFF_ZREGS xx aa = Ret es → all_valid es.
Proof.
  intros [Hxc Hxm Hxs] [Hac Ham Has] Hxr Hsmall. unfold code_arg. destruct (_ || _); [by intros <-%Ret_inj|].
  assert (∀ src, all_valid src → te_is_mem xx = true → code_arg_mem_indirect xx src = Ret es → all_valid es) as Hind.
  { intros src Hs Hx. unfold code_arg_mem_indirect. destruct (c_assert _); [|done]. intros <-%Ret_inj. apply code_copy_valid; [by apply Hxm|done|done]. }
  destruct (te_is_indirect xx), (te_is_mem xx) eqn:Hx, (te_is_indirect aa), (te_is_mem aa) eqn:Ha; try discriminate.
  - apply Hind; [|done]. specialize (Ham eq_refl). pose proof (int32_ok (te_get_mem aa) ltac:(lia)). each_valid.
  - destruct (te_get_reg aa 0) as [ar|]; [|discriminate]. apply Hind; [|done]. each_valid.
  - specialize (Hxm eq_refl). specialize (Ham eq_refl). unfold code_arg_mem_mem. destruct (c_assert _); [|discriminate]. intros <-%Ret_inj.
    pose proof (int32_ok (te_get_mem aa) ltac:(lia)). pose proof (int32_ok (te_get_mem xx) ltac:(lia)).
    apply Forall_app_2; [apply code_copy_valid; [done|done|each_valid]|]. destruct (_ <=? _); each_valid.
  - unfold code_arg_mem_reg. intros H. eapply emit_loop_valid; [exact H|]. intros k es' Hk. apply code_mem_reg_valid; [by apply Hxm|lia].
  - specialize (Ham eq_refl). unfold code_arg_reg_mem. destruct (code_regs_from_mem _ _ _ _ _ _) as [es1|] eqn:He; [|discriminate]. intros <-%Ret_inj.
    assert (all_valid es1); [|each_valid]. specialize (Hsmall eq_refl).
    assert (0 ≤ te_get_arg_size aa / te_num_of_reg xx ≤ 64) as Hstep.
    { destruct (decide (te_num_of_reg xx = 0)) as [->|]; [by rewrite Z.div_0_r|]. split; [apply Z.div_pos; lia|]. apply Z.div_le_upper_bound; lia. }
    eapply (code_from_mem_valid _ _ _ _ _ _ _ (Hxr eq_refl)); [..|exact He]; lia.
  - apply code_arg_reg_reg_valid. by apply Hxr.
Qed.

(** ** Exit *)

Lemma extend_ret_valid x li es : tcg_extend_ret_in_rcx_by_reg_loc_info x li = Ret es → all_valid es.
Proof.
  unfold tcg_extend_ret_in_rcx_by_reg_loc_info. 
  destruct (_ || _); [|destruct (_ =? TE_AX); [|by intros <-%Ret_inj]]; (destruct (li =? _); [|destruct (c_assert _); [|discriminate]]);
    intros <-%Ret_inj; by repeat constructor.
Qed.

Lemma code_ret_reg_valid xx aa j es : xx_regs_valid xx → 0 ≤ j < te_num_of_reg xx → code_ret_reg OFF_ZREGS xx aa j = Ret es → all_valid es.
Proof.
  intros Hx Hj. unfold code_ret_reg. destruct (te_get_reg xx j) as [xr|] eqn:Hxr; [|discriminate]. destruct (te_get_reg aa j) as [ar|]; [|discriminate].
  specialize (Hx j xr Hj Hxr). cbn [mbind outcome_bind]. destruct (is_xmm xr); [intros <-%Ret_inj; each_valid|].
  destruct (tcg_extend_ret_in_rcx_by_reg_loc_info xr _) as [ext|] eqn:He; [|discriminate]. cbn [mbind outcome_bind]. intros <-%Ret_inj.
  apply extend_ret_valid in He. each_valid.
Qed.

Lemma first_S_valid x a0 : TE_XMM0 ≤ x ≤ TE_XMM7 → all_valid (first_S_reg OFF_ZREGS x a0).
Proof. intros Hx%xmm_valid. unfold first_S_reg. apply Forall_cons_2; [cbn [valid int_type]; rewrite Hx; by rewrite orb_true_r|each_valid]. Qed.

Lemma next_S_valid a1 : all_valid (next_S_reg OFF_ZREGS a1).
Proof. unfold next_S_reg. each_valid. Qed.

Lemma code_ret_direct_valid xx aa es : xx_regs_valid xx → code_ret_direct OFF_ZREGS xx aa = Ret es → all_valid es.
Proof.
  intros Hx. unfold code_ret_direct. destruct (Z.eqb_spec (te_num_of_reg xx) (te_num_of_reg aa)) as [_|_].
  { intros H. eapply emit_loop_valid; [exact H|]. intros k es' Hk. apply code_ret_reg_valid; [done|lia]. }
  destruct (_ <? _); [|discriminate]. destruct (_ && _); [|destruct (2 =? _); [|discriminate]].
  - unfold code_ret_one_to_two. intros H. apply bind_Ret in H as (x0 & _ & H). apply bind_Ret in H as (a0 & _ & H). apply bind_Ret in H as (a1 & _ & H).
    apply bind_Ret in H as (? & Hr%c_assert_Ret & H). apply bind_Ret in H as (? & _ & H). apply bind_Ret in H as (? & _ & H%Ret_inj). subst es.
    unfold in_range in Hr. btests. apply Forall_app_2; [by apply first_S_valid|apply next_S_valid].
  - unfold code_ret_two_to_many. intros H. apply bind_Ret in H as (x0 & _ & H). apply bind_Ret in H as (x1 & _ & H). do 3 apply bind_Ret in H as (? & _ & H).
    apply bind_Ret in H as (? & Hr%c_assert_Ret & H). apply bind_Ret in H as (? & Hx1%c_assert_Ret%Z.eqb_eq & H). do 4 apply bind_Ret in H as (? & _ & H).
    apply bind_Ret in H as (last & Hlast & H%Ret_inj). subst es. unfold in_range in Hr. btests. unfold TE_XMM6, TE_XMM7 in *.
    assert (all_valid last) as Hl.
    { destruct (4 =? _); [|apply Ret_inj in Hlast; subst last; done]. do 3 apply bind_Ret in Hlast as (? & _ & Hlast). apply Ret_inj in Hlast. subst last. apply next_S_valid. }
    repeat apply Forall_app_2; [apply first_S_valid; unfold TE_XMM7; lia|apply next_S_valid|apply first_S_valid; unfold TE_XMM7; lia|done].
Qed.

Lemma code_ret_from_sret_valid aa es : code_ret_from_sret OFF_ZREGS aa = Ret es → all_valid es.
Proof.
  unfold code_ret_from_sret. intros H. apply bind_Ret in H as (? & _ & H). apply bind_Ret in H as (a0 & _ & H). apply bind_Ret in H as (es1 & H1 & H%Ret_inj). subst es.
  pose proof (te_num_of_reg_range aa) as Hn. apply Forall_app_2; [|by repeat constructor].
  destruct (TE_D0 =? a0); [|destruct (TE_Q0 =? a0); [|discriminate]]; (eapply emit_loop_valid; [exact H1|]); intros k es Hk;
    unfold code_sret_8, code_sret_16; destruct (te_get_reg aa k); try discriminate; intros <-%Ret_inj.
  - pose proof (int32_ok (8 * k) ltac:(lia)). each_valid.
  - pose proof (int32_ok (16 * k) ltac:(lia)). each_valid.
Qed.
End valid.

(** ** The words of a prototype *)

Lemma slot_valid p ind sz : place_ok p → match p with OnStack off _ => off < 2 ^ 31 - 1024 | InRegs _ => True end → 0 ≤ sz < 2 ^ 31 →
  word_valid (slot_info p ind sz).
Proof.
  intros Hp Ho Hsz. destruct (slot_info_decodes p ind sz Hp) as (H1 & _ & H3 & H4). constructor; [apply te_num_of_reg_range| |by rewrite H1].
  rewrite H3. destruct p as [rs|off i]; [done|]. intros _. destruct H4 as [-> _]. destruct Hp as [[? _] _]. lia.
Qed.

Lemma slot_regs_valid rs ind sz : pairs_ok rs → (length rs ≤ 4)%nat → Forall (λ p, xreg_ok p.1) rs → xx_regs_valid (slot_info (InRegs rs) ind sz).
Proof.
  intros Hok Hl Hr j r Hj. rewrite slot_regs_num in Hj by done.
  destruct (lookup_lt_is_Some_2 rs (Z.to_nat j) ltac:(lia)) as [[r' li] Hi]. rewrite (slot_get rs ind sz _ r' li j Hok Hl Hi) by lia.
  intros <-%Ret_inj. apply xreg_valid. rewrite Forall_lookup in Hr. exact (Hr _ _ Hi).
Qed.

Lemma xx_shape_place c px room : value_type c = true → xx_shape c px room →
  place_ok px ∧ ∀ rs, px = InRegs rs → Forall (λ p, xreg_ok p.1) rs.
Proof.
  intros Hval Hs. destruct px as [rs|off li].
  - destruct Hs as (Hsz & g & s & Hg & Hs0 & Hgb & Hsb & ->). destruct (xx_regs_facts c Hval g s Hsz Hg Hs0 Hgb Hsb) as (Hok & Hl & Hw & Hr & _).
    split; [split; [done|lia]|]. by intros ? [= <-].
  - split; [|done]. destruct Hs as (? & _ & ? & -> & ?). pose proof (loc_info_range c). pose proof (csize_pos c (value_wf c Hval)).
    pose proof (align_up_spec (csize c) 8 ltac:(lia)). split; unfold in_u; lia.
Qed.

Section jobs.
Context (OFF_ZREGS : Z) (Hoff : 0 ≤ OFF_ZREGS < 2 ^ 20).
Context (nf : Z) (rt : cty) (cs : list cty).
Context (Hproto : proto_ok rt cs) (Hroom : stack_room cs + 4096 < 2 ^ 31) (Hval : Forall (λ c, value_type c = true) cs).

(** The words of an argument. *)
Lemma job_words j b : jobs nf rt cs !! j = Some b → word_valid (job_x b) ∧ word_valid (job_a b) ∧
  (te_is_mem (job_x b) = false → xx_regs_valid (job_x b) ∧ te_get_arg_size (job_a b) ≤ 64).
Proof using Hproto Hroom Hval.
  destruct b as [[c px] pa]. intros Hj. destruct (jobs_lookup _ _ _ _ _ _ _ Hj) as (Hc & Hpx & Hpa).
  destruct (aa_fn_info_lookup nf rt cs j c Hproto Hc) as (p & b & b' & _ & Hp' & Hpok & Hwi & _ & Hle). rewrite Hpa in Hp'. injection Hp' as <-.
  pose proof Hproto as (_ & _ & Hcs & _). pose proof (xx_bytes_room rt cs Hproto) as Hxb.
  assert (csize c ≤ stack_room cs ∧ 0 < csize c) as [Hcs' Hc0].
  { split; [apply stack_room_elem; [done|by eapply list_elem_of_lookup_2]|]. rewrite Forall_lookup in Hcs. destruct (Hcs j c Hc) as [Hw _]. by apply csize_pos. }
  assert (bytes (aa_fn_info nf rt cs) ≤ stack_room cs) as Hab.
  { pose proof (place_args_room nf cs 0 alloc0 Hcs alloc0_ok) as Hpr. unfold aa_fn_info. destruct (place_args nf 0 cs alloc0). simpl in *. lia. }
  rewrite Forall_lookup in Hval. specialize (Hval j c Hc) as Hv.
  pose proof (xplaces_shape cs (xalloc0 rt) (bytes (xx_fn_info rt cs)) Hcs (xalloc0_ok rt)) as Hxs. rewrite Forall2_lookup in Hxs.
  destruct (xx_fn_info_bytes rt cs Hproto ltac:(lia)) as (Hby & _). specialize (Hxs ltac:(lia) ltac:(lia) j). rewrite Hc, Hpx in Hxs.
  inversion Hxs as [? ? Hshape|]; subst. destruct (xx_shape_place c px _ Hv Hshape) as [Hxok Hxr]. unfold job_x, job_a. split_and!.
  - apply slot_valid; [|destruct px; [done|]; destruct Hshape as (? & _ & ? & _); pose proof (align_up_spec (csize c) 8 ltac:(lia)); lia|lia]. done.
  - apply slot_valid; [done| |lia]. destruct pa; [done|]. destruct Hwi as (_ & ? & Hn & _). unfold stack_size in Hn. case_match; lia.
  - destruct px as [rs|]; [|by destruct (slot_stack_flags off info false (csize c)) as [-> _]]. intros _.
    destruct Hxok. split; [by apply slot_regs_valid; [..|apply Hxr]|]. destruct Hshape as [? _]. change (csize c ≤ 64). lia.
Qed.

Lemma job_valid j b es : jobs nf rt cs !! j = Some b → code_arg OFF_ZREGS (job_x b) (job_a b) = Ret es → all_valid es.
Proof using Hoff Hproto Hroom Hval.
  intros Hj. destruct (job_words j b Hj) as (Hx & Ha & Hr). apply code_arg_valid; [done|done|done|apply Hr|apply Hr].
Qed.

Abbreviation xxInfo := (xx_fn_info rt cs).
Abbreviation aaInfo := (aa_fn_info nf rt cs).

Lemma entry_moves_valid es : entry_moves OFF_ZREGS aaInfo xxInfo = Ret es → all_valid es.
Proof.
  unfold entry_moves. destruct (entry_sret (rinfo xxInfo) (rinfo aaInfo)) as [es0|] eqn:H0; [|discriminate].
  destruct (emit_loop _ 0 _) as [es1|] eqn:H1; [|discriminate]. cbn [mbind outcome_bind]. intros <-%Ret_inj.
  pose proof (room_bounds rt cs Hproto Hroom) as (Hb & Hlt & _). unfold stack_args in *.
  pose proof (int32_ok (- ALIGN2POW (bytes xxInfo) 16) ltac:(lia)) as Hi.
  assert ((sext 64 (ssecount xxInfo) =? ssecount xxInfo) = true) as Hs.
  { apply int64_ok. pose proof Hproto as (_ & _ & Hcs & _). destruct (xplaces_ok cs (xalloc0 rt) Hcs (xalloc0_ok rt)) as (Ha & _).
    unfold xx_fn_info. destruct (xplaces _ _). destruct Ha as (_ & Ha & _). simpl in *. lia. }
  apply Forall_app_2; [|apply Forall_app_2; [|apply Forall_app_2]].
  - rewrite xx_fn_info_ret, aa_fn_info_ret in H0. unfold entry_sret in H0. destruct (slot_regs_flags (xx_ret_regs rt) (16 <? csize rt) 0) as [_ E]. rewrite E in H0.
    destruct (Z.ltb_spec 16 (csize rt)); [|apply Ret_inj in H0; subst es0; done]. rewrite xx_ret_large in H0 by done.
    change (te_get_reg _ 0) with (Ret TE_RDI) in H0. cbn [mbind outcome_bind] in H0. change (x64_enum_2_reg TE_RDI) with TCG_REG_RDI in H0.
    destruct (te_is_indirect _); apply Ret_inj in H0; subst es0; repeat constructor.
  - repeat constructor. cbn [valid]. by rewrite Hi.
  - eapply emit_loop_valid; [exact H1|]. intros k es' Hk. unfold code_args. destruct (jobs_infos nf rt cs) as [-> ->]. intros H. inv_outcome.
    rewrite list_lookup_fmap in *. destruct (jobs nf rt cs !! Z.to_nat k) as [b|] eqn:Hj; [|done]. simplify_eq/=. by eapply job_valid.
  - repeat constructor. cbn [valid]. by rewrite Hs.
Qed.

Lemma xx_ret_regs_valid ind : xx_regs_valid (slot_info (InRegs (xx_ret_regs rt)) ind 0).
Proof using rt.
  clear.
  assert (pairs_ok (xx_ret_regs rt) ∧ (length (xx_ret_regs rt) ≤ 4)%nat) as [Hok Hl].
  { unfold xx_ret_regs, xx_ret_struct_regs. repeat case_match; split; (simpl; lia) || by repeat constructor. }
  intros j r Hj. rewrite slot_regs_num in Hj by done.
  destruct (lookup_lt_is_Some_2 (xx_ret_regs rt) (Z.to_nat j) ltac:(lia)) as [[r' li] Hi]. rewrite (slot_get _ ind 0 _ r' li j Hok Hl Hi) by lia.
  intros <-%Ret_inj. assert (r' ∈ [TE_RDI; TE_AL; TE_AX; TE_EAX; TE_RAX; TE_RDX; TE_XMM0; TE_XMM1]) as Hin.
  { apply list_elem_of_lookup_2 in Hi. revert Hi. unfold xx_ret_regs, xx_ret_struct_regs. repeat case_match; set_solver. }
  repeat (apply elem_of_cons in Hin as [->|Hin]; [done|]). by apply not_elem_of_nil in Hin.
Qed.

Lemma exit_moves_valid es : exit_moves OFF_ZREGS aaInfo xxInfo = Ret es → all_valid es.
Proof using Hoff Hproto Hroom.
  unfold exit_moves. rewrite xx_fn_info_ret. intros H. apply bind_Ret in H as (es1 & H1 & H%Ret_inj). subst es.
  pose proof (room_bounds rt cs Hproto Hroom) as (Hb & Hlt & _). unfold stack_args in *.
  apply Forall_cons_2; [cbn [valid]; by rewrite int32_ok by lia|].
  destruct (te_is_indirect _), (te_is_indirect _); try (apply Ret_inj in H1; subst es1; done).
  - by eapply code_ret_from_sret_valid.
  - eapply code_ret_direct_valid; [done|apply xx_ret_regs_valid|exact H1].
Qed.
End jobs.
