(* ===== verification/A2XTramp.v ===== *)
(** * The trampoline: a call from AArch64 to a host function

    [a2x_trampoline] is generated once per prototype.  For a prototype without
    callbacks, blocks or structures with function pointers it saves the link
    register, moves the arguments, calls the host function in the emulated
    program counter, moves the return value back, continues the guest at the
    saved link register and jumps to the search for translated code. *)

From S2P Require Import Prelude Bytes ABIArgInfo FfiTypes Layout Placement AAPrepCif HFA AAAlloc XXPrepCif XXClass XXAlloc CrossABI DyBridge DyEntry DyStep DyCorrect DyExit Handlers Memory X86 Encoder Machine A2XCode A2XSim A2XStep A2XArg A2XEntry A2XCall A2XExit A2XValid.

Lemma regs_space_ext s s' : (∀ k, k ≠ TCG_REG_RSP → gpr s' k = gpr s k) → xmm s' = xmm s → regs_space s' = regs_space s.
Proof. intros Hg Hx. unfold regs_space, arg_gprs. cbn [fmap list_fmap]. by rewrite Hx, !Hg by done. Qed.

Lemma add_rsp s q n : gpr s TCG_REG_RSP = q → 0 ≤ q → 0 ≤ n → q + n < 2 ^ 64 → (∀ k, in_u 64 (gpr s k)) →
  ∃ s', exec_emit (E_addi TCG_REG_RSP n) s = Ret s' ∧ only_reg TCG_REG_RSP (q + n) s s' ∧ ∀ k, in_u 64 (gpr s' k).
Proof.
  intros Hq Hq0 Hn Hlt Hu. destruct (exec_addi TCG_REG_RSP n s (Hu _)) as (s' & He & Hg & Hx & Hm). exists s'. split; [done|].
  assert (u64 (gpr s TCG_REG_RSP + n) = q + n) as Hw by (rewrite Hq; apply wrap_small; unfold in_u; lia). rewrite Hw in Hg.
  split; [done|]. intros k. rewrite Hg. case_match; [unfold in_u; lia|done].
Qed.

(** ** The link register *)

Lemma rd_env_x m envp env off bs : rd_mem m envp 256 = Ret (xregs env) → rd (xregs env) off 8 = Ret bs → rd_mem m (envp + off) 8 = Ret bs.
Proof. intros Hx Hb. by eapply (rd_mem_at _ envp 256). Qed.

Lemma save_lr_ok s S0 envp env lr : gpr s TCG_AREG0 = envp → gpr s TCG_REG_RSP = S0 → 16 ≤ S0 < 2 ^ 64 → 0 ≤ envp → envp + 256 < 2 ^ 64 →
  (∀ k, in_u 64 (gpr s k)) → env_ok env → rd_mem (cmem s) envp 256 = Ret (xregs env) → xreg env 30 = Ret lr → mapped (cmem s) (S0 - 8) 8 = true →
  ∃ s', exec_emits save_lr_to_stack s = Ret s' ∧ gpr s' TCG_REG_RSP = S0 - 16 ∧ gpr s' TCG_AREG0 = envp ∧ (∀ k, in_u 64 (gpr s' k)) ∧ xmm s' = xmm s ∧
    rd_mem (cmem s') (S0 - 8) 8 = Ret (le_bytes 8 lr) ∧ (∀ x, x < S0 - 8 ∨ S0 ≤ x → cmem s' x = cmem s x) ∧ ∀ a n, mapped (cmem s') a n = mapped (cmem s) a n.
Proof.
  intros Henv Hsp HS He0 He1 Hu Hok Hx Hlr Hm. unfold xreg in Hlr. change (30 * 8) with 240 in Hlr.
  destruct (rd (xregs env) 240 8) as [bs|] eqn:Hb; [|done]. injection Hlr as <-. pose proof Hok as (_ & _ & Hxok & _).
  assert (bytes_ok bs ∧ length bs = 8%nat) as [Hbok Hbl] by (split; [by eapply rd_bytes_ok|apply rd_length in Hb; lia]).
  assert (in_u 64 (le_val bs)) as Hv by (apply le_val_u64; [done|lia]).
  set (t := set_gpr s TCG_REG_RAX (le_val bs)). assert (∀ k, in_u 64 (gpr t k)) as Hut by (intros k; unfold t; cbn [gpr set_gpr]; case_match; [by apply wrap_range|done]).
  assert (exec_emit (E_ld TCG_TYPE_PTR TCG_REG_RAX TCG_AREG0 (OFF_XREG 30)) s = Ret t) as Hld.
  { apply exec_ld. unfold cload, ea. rewrite Henv. change (OFF_XREG 30) with 240. rewrite wrap_small by (unfold in_u; lia). by eapply rd_env_x. }
  destruct (push_ok TCG_REG_RAX t S0) as (t1 & Ht1 & Hg1 & Hx1 & Hr1 & Ho1 & Hmap1); [done|lia|apply Hut|done|].
  destruct (sub_rsp t1 (S0 - 8) 8) as (s' & Hs' & (Hg2 & Hx2 & Hm2) & Hu2); [by rewrite Hg1|lia|lia| |].
  { intros k. rewrite Hg1. case_match; [unfold in_u; lia|apply Hut]. }
  change (- (8)) with (-8) in Hs'. exists s'. unfold save_lr_to_stack. cbn [exec_emits]. rewrite Hld. cbn [mbind outcome_bind]. rewrite Ht1. cbn [mbind outcome_bind]. rewrite Hs'. cbn [mbind outcome_bind].
  rewrite Hm2, Hx2, Hx1. split_and!; try done.
  - rewrite Hg2, Z.eqb_refl. lia.
  - rewrite Hg2, Hg1. unfold t. cbn [gpr set_gpr]. done.
  - rewrite Hr1. unfold t. cbn [gpr set_gpr]. rewrite Z.eqb_refl. by rewrite wrap_small.
Qed.

Section tramp.
Context (OFF_ZREGS envp : Z) (gmem : memory) (sp1 : Z).
Context (nf : Z) (rt : cty) (cs : list cty).
Context (Hproto : proto_ok rt cs) (Hroom : stack_room cs + 4096 < 2 ^ 31).
Abbreviation aaInfo := (aa_fn_info nf rt cs).
Abbreviation xxInfo := (xx_fn_info rt cs).
Abbreviation room := (stack_args xxInfo).
Abbreviation sp := (sp1 - sret_room rt - room).
Abbreviation env_mem := (env_mem OFF_ZREGS envp).
Abbreviation env_byte := (env_byte OFF_ZREGS envp).

(** ** Exit *)

(** The state after the call, with the buffer for a return value in memory. *)
Record return_state (env : CPUARMState) (buf : list Z) (s : cpu) : Prop := mk_return_state {
  ret_env : gpr s TCG_AREG0 = envp;
  ret_sp : gpr s TCG_REG_RSP = sp;
  ret_u64 : ∀ r, in_u 64 (gpr s r);
  ret_xmm : ∀ k, length (xmm s k) = 16%nat;
  ret_xmm_ok : ∀ k, bytes_ok (xmm s k);
  ret_mem : env_mem (cmem s) env;
  ret_env_ok : env_ok env;
  ret_buf : sret_room rt ≠ 0 → rd_mem (cmem s) (sp1 - BIG_ENOUGH_SRET_SIZE) BIG_ENOUGH_SRET_SIZE = Ret buf ∧ bytes_ok buf
}.

(** What the guest sees of the return value. *)
Definition value_returned (s : cpu) (buf : list Z) (env env' : CPUARMState) : Prop :=
  if by_reference rt then env' = env
  else ret_moved (regs_space s) buf rt (rinfo xxInfo) (rinfo aaInfo) env env'.

Record left_state (s s' : cpu) (env' : CPUARMState) : Prop := mk_left_state {
  left_env : gpr s' TCG_AREG0 = envp;
  left_sp : gpr s' TCG_REG_RSP = sp1;
  left_u64 : ∀ r, in_u 64 (gpr s' r);
  left_mem : env_mem (cmem s') env';
  left_frame : ∀ a, ¬ env_byte a → cmem s' a = cmem s a
}.

Context (m0 : memory) (Hlay : layout OFF_ZREGS envp gmem m0 sp room) (Hsp1 : sp1 < 2 ^ 64).
Context (Hapart : sp1 ≤ envp ∨ envp + OFF_ZREGS + 32 * ZREG_SIZE ≤ sp - 24).

Lemma exit_moves_ok env buf s : return_state env buf s → return_type rt → static_return rt = true →
  ∃ es s' env', exit_moves OFF_ZREGS aaInfo xxInfo = Ret es ∧ exec_emits es s = Ret s' ∧ left_state s s' env' ∧ value_returned s buf env env'.
Proof.
  intros [Henv Hsp Hu Hxmm Hxok Hmem Heok Hbuf] Hrt Hst. pose proof (room_bounds rt cs Hproto Hroom) as (Hb & Hlt & _).
  assert (0 ≤ sret_room rt) as Hsr by (unfold sret_room; by case_match).
  destruct (add_rsp s sp room) as (s0 & He0 & (Hg0 & Hx0 & Hm0) & Hu0); try done; [destruct Hlay; lia|lia|lia|].
  assert (gpr s0 TCG_REG_RSP = sp1 - sret_room rt) as Hsp0 by (rewrite Hg0, Z.eqb_refl; lia).
  assert (regs_space s0 = regs_space s) as Hspace by (apply regs_space_ext; [intros k Hk; by rewrite Hg0, (proj2 (Z.eqb_neq _ _))|done]).
  assert (ret_sim OFF_ZREGS envp s0 s0 env) as Hs0 by (constructor; rewrite ?Hg0, ?Hm0; done).
  assert (∀ s' env', ret_sim OFF_ZREGS envp s0 s' env' → sret_room rt = 0 → left_state s s' env') as Hleft.
  { intros s' env' Hs' H0. destruct Hs'. constructor; try done; [rewrite rs_gpr by done; lia|]. intros a Ha. rewrite rs_frame by done. by rewrite Hm0. }
  assert (∀ k, length (xmm s0 k) = 16%nat) as Hxmm0 by (by rewrite Hx0). assert (∀ k, bytes_ok (xmm s0 k)) as Hxok0 by (by rewrite Hx0).
  unfold exit_moves, value_returned. rewrite xx_fn_info_ret, aa_fn_info_ret. destruct (slot_regs_flags (xx_ret_regs rt) (16 <? csize rt) 0) as [_ ->].
  rewrite aa_ret_indirect. change (ALIGN2POW (bytes xxInfo) 16) with room.
  destruct (Z.ltb_spec 16 (csize rt)) as [Hbig|Hsmall]; [destruct (by_reference rt) eqn:Href|].
  - exists [E_addi TCG_REG_RSP room], s0, env. split_and!; [done|cbn [exec_emits]; by rewrite He0| |done].
    apply Hleft; [done|]. unfold sret_room. by rewrite Href, andb_false_r.
  - assert (sret_room rt = 64) as Hsz by (unfold sret_room; by rewrite Href, (proj2 (Z.ltb_lt _ _) Hbig)).
    destruct (hfa rt) as [[t n]|] eqn:Hh; [|by unfold by_reference in Href; rewrite Hh, (proj2 (Z.ltb_lt _ _) Hbig) in Href].
    assert (value_type rt = true) as Hval by (destruct Hrt as [|Hv]; [done|by rewrite Hv in Hh]).
    destruct (Hbuf ltac:(lia)) as [Hbuf0 Hbok]. unfold BIG_ENOUGH_SRET_SIZE in *. rewrite Hsz in *.
    destruct (ret_static_large OFF_ZREGS envp gmem m0 _ _ Hlay s0 buf (sp1 - 64) Hsp0
      ltac:(destruct Hlay; lia) ltac:(by rewrite Hm0) ltac:(lia) rt t n env Hval Hh Hbig Hbok Heok) as (es & env' & Hes & Hp & Hm).
    rewrite Hspace in Hm. destruct (Hp s0 Hs0) as (s1 & He1 & Hs1).
    destruct (add_rsp s1 (sp1 - 64) 64) as (s2 & He2 & (Hg2 & Hx2 & Hm2) & Hu2); [by rewrite (rs_gpr _ _ _ _ _ Hs1)|destruct Hlay; lia|lia|lia|apply (rs_u64 _ _ _ _ _ Hs1)|].
    exists (E_addi TCG_REG_RSP room :: es ++ [E_addi TCG_REG_RSP 64]), s2, env'. rewrite Hes. split_and!; [done| | |done].
    + cbn [exec_emits]. rewrite He0. cbn [mbind outcome_bind]. rewrite exec_emits_app, He1. cbn [mbind outcome_bind exec_emits]. by rewrite He2.
    + destruct Hs1. constructor; rewrite ?Hm2; try done; [by rewrite Hg2|rewrite Hg2, Z.eqb_refl; lia|]. intros a Ha. rewrite rs_frame by done. by rewrite Hm0.
  - assert (by_reference rt = false) as Href by (by apply by_reference_small). rewrite Href in *.
    assert (sret_room rt = 0) as Hsz by (unfold sret_room; by rewrite (proj2 (Z.ltb_ge _ _) Hsmall)).
    destruct (ret_static_direct OFF_ZREGS envp gmem m0 _ _ Hlay s0 Hxmm0 Hxok0 buf rt env Hrt Hsmall Hst Heok) as (es & env' & Hes & Hp & Hm).
    rewrite Hspace in Hm. destruct (Hp s0 Hs0) as (s1 & He1 & Hs1).
    exists (E_addi TCG_REG_RSP room :: es), s1, env'. rewrite Hes. split_and!; [done|cbn [exec_emits]; by rewrite He0|by apply Hleft|done].
Qed.

(** ** The guest continues at the saved link register *)

Lemma update_pc_ok s env lr x' : gpr s TCG_AREG0 = envp → gpr s TCG_REG_RSP = sp1 → 0 ≤ sp1 → sp1 + 16 < 2 ^ 64 →
  (∀ k, in_u 64 (gpr s k)) → env_mem (cmem s) env → rd_mem (cmem s) (sp1 + 8) 8 = Ret (le_bytes 8 lr) → in_u 64 lr →
  mapped (cmem s) (envp + OFF_PC) 8 = true → wr (xregs env) 240 (le_bytes 8 lr) = Ret x' →
  ∃ s', exec_emits update_pc_from_lr s = Ret s' ∧ gpr s' TCG_REG_RSP = sp1 + 16 ∧ gpr s' TCG_AREG0 = envp ∧
    env_mem (cmem s') (mk_env x' (zregs env)) ∧ rd_mem (cmem s') (envp + OFF_PC) 8 = Ret (le_bytes 8 lr) ∧
    ∀ a, ¬ env_byte a → (a < envp + OFF_PC ∨ envp + OFF_PC + 8 ≤ a) → cmem s' a = cmem s a.
Proof.
  intros Henv Hsp Hq Hq16 Hu Hmem Hlr Hv Hpc Hw. pose proof (lay_zregs _ _ _ _ _ _ Hlay) as Hoff. pose proof (lay_env _ _ _ _ _ _ Hlay) as [He0 He1]. unfold OFF_PC, ZREG_SIZE in *.
  destruct (add_rsp s sp1 8) as (s1 & He & (Hg1 & Hx1 & Hm1) & Hu1); [done|lia|lia|lia|done|].
  destruct (pop_ok TCG_REG_RAX s1 (sp1 + 8) (le_bytes 8 lr)) as (s2 & Hp & Hg2 & Hx2 & Hm2);
    [by rewrite Hg1|lia|lia|done|unfold cload; by rewrite Hm1|apply le_val_u64; [apply le_bytes_ok|by rewrite length_le_bytes]|].
  assert (le_val (le_bytes 8 lr) = lr) as Hle by (rewrite le_val_bytes; apply Z.mod_small; exact Hv).
  assert (gpr s2 TCG_REG_RAX = lr) as Hrax by (by rewrite Hg2, Z.eqb_refl).
  assert (gpr s2 TCG_AREG0 = envp) as Henv2 by (rewrite Hg2, Hg1; done). rewrite Hm1 in Hm2.
  destruct (env_mem_wr_x _ _ _ _ _ _ Hlay (cmem s2) env 240 (le_bytes 8 lr) x') as (m3 & Hm3 & [Hem3 Hez3] & Hout3); [by rewrite Hm2|done|].
  destruct (wr_mem_ok m3 (envp + 256) (le_bytes 8 lr)) as (m4 & Hm4 & Hin4 & Hout4).
  { rewrite length_le_bytes. erewrite wr_mem_mapped by exact Hm3. by rewrite Hm2. }
  rewrite length_le_bytes in Hin4, Hout4. exists (set_mem (set_mem s2 m3) m4).
  assert (exec_emit (E_st TCG_TYPE_PTR TCG_REG_RAX TCG_AREG0 (OFF_XREG 30)) s2 = Ret (set_mem s2 m3)) as Hst1.
  { apply exec_st. unfold ea. rewrite Henv2, Hrax. change (OFF_XREG 30) with 240. rewrite wrap_small by (unfold in_u; lia). exact Hm3. }
  assert (exec_emit (E_st TCG_TYPE_PTR TCG_REG_RAX TCG_AREG0 256) (set_mem s2 m3) = Ret (set_mem (set_mem s2 m3) m4)) as Hst2.
  { apply exec_st. unfold ea. cbn [gpr set_mem]. rewrite Henv2, Hrax. rewrite wrap_small by (unfold in_u; lia). exact Hm4. }
  unfold update_pc_from_lr, OFF_PC. split_and!; cbn [gpr cmem set_mem].
  - cbn [exec_emits]. rewrite He. cbn [mbind outcome_bind]. rewrite Hp. cbn [mbind outcome_bind]. rewrite Hst1. cbn [mbind outcome_bind]. by rewrite Hst2.
  - rewrite Hg2. cbn [Z.eqb]. change (TCG_REG_RSP =? TCG_REG_RAX) with false. rewrite Z.eqb_refl. lia.
  - done.
  - split; (rewrite (rd_mem_ext m3); [done|]); intros x Hx; apply Hout4; unfold ZREG_SIZE in *; lia.
  - pose proof (rd_wr_mem_same _ _ _ _ 0 8 Hm4) as H. rewrite length_le_bytes, Z.add_0_r in H. by rewrite H by lia.
  - intros a Ha Ha'. rewrite Hout4 by lia. rewrite Hout3 by done. by rewrite Hm2.
Qed.
End tramp.
