(* ===== verification/A2XBridge.v ===== *)
(** * A call through a generated trampoline, on its bytes

    The bytes of [a2x_trampoline] run on the processor of [X86].  The host
    function is a parameter; of it the System V conventions are assumed: it
    returns with the stack pointer above the return address, keeps RBX and the
    caller's frame, and leaves the emulated CPU in some valid state (it may
    have called back into the guest). *)

From S2P Require Import Prelude Bytes ABIArgInfo FfiTypes Layout Placement AAPrepCif HFA AAAlloc XXPrepCif XXClass XXAlloc CrossABI DyBridge DyEntry DyStep DyCorrect DyExit Handlers Memory X86 Encoder Machine A2XCode A2XSim A2XStep A2XArg A2XEntry A2XCall A2XExit A2XValid A2XTramp.

(** ** The callee's view *)

(** An argument where the callee looks for it: above the return address or in registers. *)
Definition callee_arg (s : cpu) (c : cty) (x : ABIArgInfo) : outcome (list Z) :=
  if te_is_mem x then rd_mem (cmem s) (gpr s TCG_REG_RSP + 8 + te_get_mem x) (csize c)
  else take (Z.to_nat (csize c)) <$> gather (λ r, Ret (take 8 (reg_bytes s r))) (word_regs x).

Lemma callee_arg_sim OFF_ZREGS envp m0 sp room s env args sc c px room' : sim OFF_ZREGS envp m0 sp room s env args →
  value_type c = true → xx_shape c px room' → room' ≤ room → gpr sc TCG_REG_RSP = sp - 8 → (∀ k, k ≠ TCG_REG_RSP → gpr sc k = gpr s k) → xmm sc = xmm s →
  (∀ x, x < sp - 8 ∨ sp ≤ x → cmem sc x = cmem s x) →
  callee_arg sc c (slot_info px false (csize c)) = xx_arg_value args c (slot_info px false (csize c)).
Proof.
  intros Hs Hval Hsh Hr Hsp Hg Hx Hm. destruct (xx_shape_place c px room' Hval Hsh) as [Hok Hxr]. unfold callee_arg, xx_arg_value.
  destruct px as [rs|off li].
  - destruct (slot_regs_flags rs false (csize c)) as [-> _]. destruct Hok. rewrite word_regs_slot by done. f_equal. specialize (Hxr rs eq_refl).
    apply gather_ext. intros r Hin. apply list_elem_of_fmap in Hin as ([r' li] & -> & Hin). rewrite Forall_forall in Hxr. specialize (Hxr _ Hin) as Hr'. cbn [fst] in *.
    assert (reg_bytes sc r' = reg_bytes s r') as ->.
    { unfold reg_bytes. rewrite Hx. destruct (is_xmm r') eqn:Hn; [done|]. rewrite Hg; [done|]. pose proof (arg_reg_gpr r' Hr' Hn) as Hin'.
      repeat (apply elem_of_cons in Hin' as [->|Hin']; [done|]). by apply not_elem_of_nil in Hin'. }
    symmetry. eapply rd_take; [exact (sim_regs _ _ _ _ _ _ _ _ Hs r' Hr')|]. unfold xwidth. case_match; lia.
  - destruct (slot_stack_flags off li false (csize c)) as [-> _]. destruct Hok. destruct (slot_stack_mem off li false (csize c)) as [-> _]; [done..|].
    destruct Hsh as (? & _ & ? & _ & _). pose proof (csize_pos c (value_wf c Hval)). pose proof (align_up_spec (csize c) 8 ltac:(lia)).
    pose proof (sim_len _ _ _ _ _ _ _ _ Hs) as Hlen. unfold SIZEOF_REGISTER_ARGS in *.
    destruct (rd args (184 + off) (csize c)) as [v|] eqn:Hv; [|by rewrite rd_ok in Hv by lia].
    rewrite Hsp. replace (sp - 8 + 8 + off) with (sp + off) by lia. rewrite (rd_mem_ext (cmem s)) by (intros; apply Hm; lia).
    eapply sim_rd_stack; [exact Hs|lia|lia|lia|exact Hv].
Qed.

Section bridge.
Context (OFF_ZREGS envp : Z) (gmem : memory) (S0 : Z).
Context (nf : Z) (rt : cty) (cs : list cty).
Abbreviation aaInfo := (aa_fn_info nf rt cs).
Abbreviation xxInfo := (xx_fn_info rt cs).
Abbreviation room := (stack_args xxInfo).
Abbreviation sp := (S0 - 16 - sret_room rt - room).
Abbreviation env_mem := (env_mem OFF_ZREGS envp).
Abbreviation env_byte := (env_byte OFF_ZREGS envp).

(** Guest code has called: the registers of the emulated CPU, its program
    counter and the host stack with enough room. *)
Record guest_call (env : CPUARMState) (gsp lr pc : Z) (s : cpu) : Prop := mk_guest_call {
  gc_layout : layout OFF_ZREGS envp gmem (cmem s) sp (S0 - sp);
  gc_align : (16 | S0);
  gc_env : gpr s TCG_AREG0 = envp;
  gc_sp : gpr s TCG_REG_RSP = S0;
  gc_u64 : ∀ r, in_u 64 (gpr s r);
  gc_xmm : ∀ k, length (xmm s k) = 16%nat;
  gc_mem : env_mem (cmem s) env;
  gc_env_ok : env_ok env;
  gc_gsp : xreg env REG_SP_NUM = Ret gsp;
  gc_lr : xreg env 30 = Ret lr;
  gc_pc : rd_mem (cmem s) (envp + OFF_PC) 8 = Ret (le_bytes 8 pc) ∧ in_u 64 pc;
  gc_stack : mapped (cmem s) (sp - 24) (S0 - (sp - 24)) = true
}.

(** The host function is entered with every argument in place. *)
Record host_called (env : CPUARMState) (gsp ret : Z) (sc : cpu) : Prop := mk_host_called {
  hc_sp : gpr sc TCG_REG_RSP = sp - 8 ∧ (16 | sp);
  hc_ret : rd_mem (cmem sc) (sp - 8) 8 = Ret (le_bytes 8 ret);
  hc_env : gpr sc TCG_AREG0 = envp;
  hc_args : ∀ j c x a, cs !! j = Some c → ainfo xxInfo !! j = Some x → ainfo aaInfo !! j = Some a →
    ∃ v, aa_arg_value env gmem gsp c a = Ret v ∧ callee_arg sc c x = Ret v;
  hc_hidden : 16 < csize rt → hidden_pointer env rt (S0 - 16 - BIG_ENOUGH_SRET_SIZE) = Ret (le_bytes 8 (gpr sc TCG_REG_RDI));
  hc_rax : gpr sc TCG_REG_RAX = u64 (ssecount xxInfo);
  hc_guest : ∀ a b, gmem a = Some b → cmem sc a = Some b;
  hc_u64 : ∀ r, in_u 64 (gpr sc r);
  hc_cpu : ∃ env1, env_mem (cmem sc) env1 ∧ env_ok env1 ∧ xregs env1 = xregs env;
  hc_pc : mapped (cmem sc) (envp + OFF_PC) 8 = true;
  hc_stack : mapped (cmem sc) (sp - 24) (S0 - (sp - 24)) = true
}.

(** What the host function leaves. *)
Record host_returned (sc s : cpu) (env : CPUARMState) (buf : list Z) : Prop := mk_host_returned {
  hr_state : return_state OFF_ZREGS envp (S0 - 16) rt cs env buf s;
  hr_frame : ∀ a, S0 - 16 ≤ a < S0 → cmem s a = cmem sc a;
  hr_pc : mapped (cmem s) (envp + OFF_PC) 8 = true
}.

(** The guest continues behind its call. *)
Record guest_continues (lr : Z) (s2 s' : cpu) (env2 : CPUARMState) (buf : list Z) : Prop := mk_guest_continues {
  gr_sp : gpr s' TCG_REG_RSP = S0;
  gr_env : gpr s' TCG_AREG0 = envp;
  gr_pc : rd_mem (cmem s') (envp + OFF_PC) 8 = Ret (le_bytes 8 lr);
  gr_regs : ∃ env3 x', value_returned nf rt cs s2 buf env2 env3 ∧ wr (xregs env3) 240 (le_bytes 8 lr) = Ret x' ∧
    env_mem (cmem s') (mk_env x' (zregs env3));
  gr_frame : ∀ a, ¬ env_byte a → a < envp + OFF_PC ∨ envp + OFF_PC + 8 ≤ a → cmem s' a = cmem s2 a
}.

Context (Hproto : proto_ok rt cs) (Hroom : stack_room cs + 4096 < 2 ^ 31).

(** ** Words without function pointers *)

Lemma slot_no_calls p ind sz : te_is_callback (slot_info p ind sz) = false ∧ te_is_block (slot_info p ind sz) = false ∧ te_is_stfp (slot_info p ind sz) = false.
Proof. by destruct p, ind. Qed.

Lemma no_entry_calls fns data : emit_loop (entry_host_arg OFF_ZREGS fns data (ainfo aaInfo)) 0 (Z.to_nat (nargs xxInfo)) = Ret [].
Proof.
  destruct (xx_fn_info_bytes rt cs Hproto ltac:(lia)) as (_ & _ & ->). rewrite Nat2Z.id.
  assert (∀ n i, (i + n ≤ length cs)%nat → emit_loop (entry_host_arg OFF_ZREGS fns data (ainfo aaInfo)) (Z.of_nat i) n = Ret []) as H; [|by apply (H (length cs) 0%nat)].
  induction n as [|n IH]; intros i Hi; cbn [emit_loop]; [done|]. destruct (lookup_lt_is_Some_2 (jobs nf rt cs) i) as [[[c px] pa] Hb]; [rewrite jobs_length; lia|].
  assert (entry_host_arg OFF_ZREGS fns data (ainfo aaInfo) (Z.of_nat i) = Ret []) as ->.
  { unfold entry_host_arg, c_index. destruct (jobs_infos nf rt cs) as [_ ->]. rewrite Nat2Z.id, list_lookup_fmap, Hb. cbn [fmap option_fmap option_map mbind outcome_bind job_a].
    unfold entry_callback, entry_block, entry_stfp. by destruct (slot_no_calls pa (by_reference c) (csize c)) as (-> & -> & ->). }
  cbn [mbind outcome_bind]. replace (Z.of_nat i + 1) with (Z.of_nat (S i)) by lia. by rewrite IH by lia.
Qed.

Lemma exit_translation fns data : abi_a2x_exit_translation OFF_ZREGS fns data aaInfo xxInfo = exit_moves OFF_ZREGS aaInfo xxInfo.
Proof.
  unfold abi_a2x_exit_translation, structor_case. assert (isCxxStructor xxInfo = 0) as -> by (unfold xx_fn_info; by destruct (xplaces _ _)). cbn [Z.eqb negb andb orb].
  unfold exit_host. rewrite xx_fn_info_ret. destruct (slot_no_calls (InRegs (xx_ret_regs rt)) (16 <? csize rt) 0) as (-> & -> & ->). cbn [app].
  destruct (exit_moves _ _ _); [|done]. cbn [mbind outcome_bind]. by rewrite app_nil_r.
Qed.

(** ** Before the call *)

Lemma entry_layout m m1 : layout OFF_ZREGS envp gmem m sp (S0 - sp) → (∀ a, a < S0 - 8 ∨ S0 ≤ a → m1 a = m a) → layout OFF_ZREGS envp gmem m1 sp room.
Proof.
  intros [] Hm. pose proof (room_bounds rt cs Hproto Hroom) as (Hb & Hlt & _). assert (0 ≤ sret_room rt) by (unfold sret_room; by case_match).
  constructor; try done; try lia. intros a b Hab. destruct (lay_guest a b Hab) as (Ha & Hr & Hb' & Hw & He). split_and!; try lia. by rewrite Hm by lia.
Qed.

Definition call_args (env : CPUARMState) (gsp : Z) : Prop :=
  Forall (λ c, value_type c = true) cs ∧ guest_readable env gmem gsp cs aaInfo ∧ no_spread cs aaInfo xxInfo ∧ movaps_args OFF_ZREGS gmem nf rt cs gsp.

Lemma sret_room_16 : 0 ≤ sret_room rt ∧ (16 | sret_room rt).
Proof. unfold sret_room. case_match; split; try done; [by exists 4|by exists 0]. Qed.

(** [s]: the guest has called; [s1]: the link register is saved; [s2]: the arguments are in place. *)
Section called.
Context (env : CPUARMState) (gsp lr pc : Z) (s s1 s2 : cpu) (env' : CPUARMState) (args : list Z) (ret : Z).
Context (Hgc : guest_call env gsp lr pc s) (Hargs : call_args env gsp).
Context (Hout1 : ∀ x, x < S0 - 8 ∨ S0 ≤ x → cmem s1 x = cmem s x) (Hmap1 : ∀ a n, mapped (cmem s1) a n = mapped (cmem s) a n).
Context (Hent : entered OFF_ZREGS envp gmem (S0 - 16) nf rt cs env (cmem s1) gsp s2 env' args).

Lemma called_sim : sim OFF_ZREGS envp (cmem s1) sp room s2 env' args.
Proof. exact (ent_sim _ _ _ _ _ _ _ _ _ _ _ _ _ Hent). Qed.

Lemma called_bounds : 24 ≤ sp ∧ sp + room ≤ S0 - 16 ∧ S0 < 2 ^ 64 ∧ 0 ≤ envp ∧ envp + OFF_ZREGS + 32 * 256 < 2 ^ 64 ∧ 264 ≤ OFF_ZREGS ∧
  (S0 ≤ envp ∨ envp + OFF_ZREGS + 32 * 256 ≤ sp - 24) ∧ 0 ≤ room ∧ bytes xxInfo ≤ room.
Proof.
  pose proof (gc_layout _ _ _ _ _ Hgc) as []. pose proof (room_bounds rt cs Hproto Hroom) as (Hb & Hlt & Hdiv). pose proof sret_room_16 as [? _].
  unfold ZREG_SIZE in *. split_and!; lia.
Qed.

Lemma pc_loaded : exec_emit load_pc s2 = Ret (set_gpr s2 TCG_REG_R11 pc).
Proof.
  pose proof called_bounds. destruct (gc_pc _ _ _ _ _ Hgc) as [Hpc Hpc64]. unfold load_pc. rewrite (exec_ld _ _ _ _ _ (le_bytes 8 pc)).
  - rewrite le_val_bytes. do 2 f_equal. by apply Z.mod_small.
  - unfold cload, ea. rewrite (sim_env _ _ _ _ _ _ _ _ called_sim). unfold OFF_PC in *. rewrite wrap_small by (unfold in_u; lia). change (wbytes (type_width TCG_TYPE_REG)) with 8.
    rewrite <- Hpc. apply rd_mem_ext. intros x Hxx. rewrite (sim_frame _ _ _ _ _ _ _ _ called_sim); [apply Hout1|..]; unfold env_byte, ZREG_SIZE; lia.
Qed.

Context (sc : cpu) (Hgs : ∀ k, gpr sc k = if k =? TCG_REG_RSP then sp - 8 else gpr (set_gpr s2 TCG_REG_R11 pc) k) (Hxc : xmm sc = xmm s2).
Context (Hoc : ∀ x, x < sp - 8 ∨ sp ≤ x → cmem sc x = cmem s2 x) (Hmapc : ∀ a n, mapped (cmem sc) a n = mapped (cmem s2) a n).

Lemma called_arg j c x a : cs !! j = Some c → ainfo xxInfo !! j = Some x → ainfo aaInfo !! j = Some a →
  ∃ v, aa_arg_value env gmem gsp c a = Ret v ∧ callee_arg sc c x = Ret v.
Proof.
  intros Hc Hxj Haj. pose proof called_bounds. destruct Hargs as (Hval & Hg & Hns & _). pose proof (gc_env_ok _ _ _ _ _ Hgc) as Hok.
  destruct (jobs_infos_lookup nf rt cs j c x a Hc Hxj Haj) as (px & pa & Hj & -> & ->).
  destruct (jobs_readable nf rt cs env gmem gsp j c px pa Hproto Hok Hg Hj) as [[v Hv] _]. exists v. split; [done|].
  pose proof (ent_args _ _ _ _ _ _ _ _ _ _ _ _ _ Hent) as Hdone. rewrite Forall_lookup in Hdone. specialize (Hdone j _ Hj). unfold job_done in Hdone.
  pose proof (jobs_ok nf rt cs env gmem gsp Hproto ltac:(lia) Hok Hval Hg Hns) as Hjobs. rewrite Forall_lookup in Hjobs. destruct (Hjobs j _ Hj) as (Hv' & Hsh & _).
  transitivity (xx_arg_value args c (job_x (c, px, pa))); [|rewrite <- Hv; exact Hdone].
  eapply (callee_arg_sim OFF_ZREGS envp (cmem s1) sp room (set_gpr s2 TCG_REG_R11 pc) env' args sc c px (bytes xxInfo));
    [by apply sim_scratch; [apply called_sim|]|done|done|lia| | |done|done].
  - by rewrite Hgs, Z.eqb_refl.
  - intros k H1. by rewrite Hgs, (proj2 (Z.eqb_neq _ _)).
Qed.

Lemma called_env : env_mem (cmem sc) env'.
Proof.
  pose proof called_bounds. split; (rewrite (rd_mem_ext (cmem s2)); [by destruct called_sim|]); intros x Hxx; rewrite Hoc; (done || unfold ZREG_SIZE in *; lia).
Qed.

Lemma called_pc : mapped (cmem sc) (envp + OFF_PC) 8 = true.
Proof.
  pose proof called_bounds. destruct (gc_pc _ _ _ _ _ Hgc) as [Hpc _]. apply mapped_spec. intros x Hxx. unfold OFF_PC in *. rewrite Hoc by lia.
  rewrite (sim_frame _ _ _ _ _ _ _ _ called_sim) by (unfold env_byte, ZREG_SIZE; lia). rewrite Hout1 by lia.
  apply rd_mem_mapped in Hpc; [|lia]. rewrite mapped_spec in Hpc. by apply Hpc.
Qed.

Lemma called_stack : mapped (cmem sc) (sp - 24) (S0 - (sp - 24)) = true.
Proof.
  pose proof called_bounds. rewrite Hmapc. apply mapped_spec. intros x Hxx. destruct (decide (x < sp)); [|destruct (decide (x < sp + room))].
  - pose proof (sim_low _ _ _ _ _ _ _ _ called_sim) as Hlow. rewrite mapped_spec in Hlow. apply Hlow. lia.
  - replace x with (sp + (x - sp)) by lia. rewrite (sim_stack _ _ _ _ _ _ _ _ called_sim) by lia. apply lookup_lt_is_Some.
    pose proof (sim_len _ _ _ _ _ _ _ _ called_sim). unfold SIZEOF_REGISTER_ARGS in *. lia.
  - rewrite (sim_frame _ _ _ _ _ _ _ _ called_sim) by (unfold env_byte, ZREG_SIZE; lia).
    pose proof (gc_stack _ _ _ _ _ Hgc) as Hst. rewrite <- Hmap1, mapped_spec in Hst. apply Hst. lia.
Qed.

Lemma host_called_ok : rd_mem (cmem sc) (sp - 8) 8 = Ret (le_bytes 8 ret) → host_called env gsp ret sc.
Proof.
  intros Hret. pose proof called_bounds. pose proof called_sim as Hsim.
  assert (∀ k, k ≠ TCG_REG_RSP → k ≠ TCG_REG_R11 → gpr sc k = gpr s2 k) as Hk
    by (intros k H1 H2; rewrite Hgs, (proj2 (Z.eqb_neq _ _)) by done; cbn [gpr set_gpr]; by rewrite (proj2 (Z.eqb_neq _ _))).
  constructor; try done.
  - split; [by rewrite Hgs, Z.eqb_refl|]. pose proof (gc_align _ _ _ _ _ Hgc). pose proof sret_room_16 as [_ ?].
    pose proof (room_bounds rt cs Hproto Hroom) as (_ & _ & ?). repeat apply Z.divide_sub_r; (done || by exists 1).
  - rewrite Hk by done. exact (sim_env _ _ _ _ _ _ _ _ Hsim).
  - exact called_arg.
  - intros Hbig. rewrite Hk by done. by apply (ent_hidden _ _ _ _ _ _ _ _ _ _ _ _ _ Hent).
  - rewrite Hk by done. exact (ent_rax _ _ _ _ _ _ _ _ _ _ _ _ _ Hent).
  - intros a b Hab. pose proof (gc_layout _ _ _ _ _ Hgc) as Hlay. destruct (lay_guest _ _ _ _ _ _ Hlay a b Hab) as (_ & _ & _ & Hw & _). rewrite Hoc by lia.
    exact (sim_guest _ _ _ _ _ _ (entry_layout _ _ Hlay Hout1) s2 env' args a b Hsim Hab).
  - intros r. rewrite Hgs. case_match; [unfold in_u; lia|]. cbn [gpr set_gpr]. case_match; [by apply wrap_range|apply (sim_u64 _ _ _ _ _ _ _ _ Hsim)].
  - exists env'. split_and!; [exact called_env|exact (ent_env _ _ _ _ _ _ _ _ _ _ _ _ _ Hent)|exact (ent_x _ _ _ _ _ _ _ _ _ _ _ _ _ Hent)].
  - exact called_pc.
  - exact called_stack.
Qed.
End called.

Lemma before_call fns data env gsp lr pc s : guest_call env gsp lr pc s → call_args env gsp →
  ∃ es s3, abi_a2x_entry_translation OFF_ZREGS fns data aaInfo xxInfo = Ret es ∧ all_valid es ∧
    exec_emits (save_lr_to_stack ++ es ++ [load_pc]) s = Ret s3 ∧ gpr s3 TCG_REG_R11 = pc ∧
    ∀ ret, ∃ sc, push s3 ret = Ret sc ∧ host_called env gsp ret sc ∧ rd_mem (cmem sc) (S0 - 8) 8 = Ret (le_bytes 8 lr).
Proof.
  intros Hgc Hargs. pose proof (called_bounds env gsp lr pc s Hgc) as Hbd. pose proof Hgc as [Hlay _ Henv Hsp Hu Hxmm [Hx Hz] Hok Hgsp Hlr _ Hst].
  pose proof Hargs as (Hval & Hg & Hns & Hmv).
  destruct (save_lr_ok s S0 envp env lr) as (s1 & He & Hsp1 & Henv1 & Hu1 & Hx1 & Hlr1 & Hout1 & Hmap1); try done; [lia|lia|lia|by eapply mapped_sub; [exact Hst|lia..]|].
  assert (entry_state OFF_ZREGS envp gmem (S0 - 16) rt cs env s1) as Hes.
  { constructor; [by apply (entry_layout (cmem s))|done|split; [done|lia]|done|by rewrite Hx1| |].
    - split; (erewrite rd_mem_ext; [done|]); intros x Hxx; apply Hout1; unfold ZREG_SIZE in *; lia.
    - rewrite Hmap1. eapply mapped_sub; [exact Hst|lia|lia]. }
  destruct (entry_moves_ok OFF_ZREGS envp gmem (S0 - 16) nf rt cs Hproto Hroom env s1 gsp) as (es & s2 & env' & args & Hem & Hrun & Hent); try done.
  pose proof (called_sim env gsp s1 s2 env' args Hent) as Hsim.
  exists es, (set_gpr s2 TCG_REG_R11 pc). unfold abi_a2x_entry_translation. rewrite no_entry_calls, Hem. cbn [mbind outcome_bind app]. split_and!; [done| | | |].
  - eapply entry_moves_valid; [|exact Hproto|exact Hroom|exact Hval|exact Hem]. pose proof (lay_zregs _ _ _ _ _ _ Hlay). lia.
  - rewrite exec_emits_app, He. cbn [mbind outcome_bind]. rewrite exec_emits_app, Hrun. cbn [mbind outcome_bind exec_emits].
    by rewrite (pc_loaded env gsp lr pc s s1 s2 env' args Hgc Hout1 Hent).
  - cbn [gpr set_gpr]. rewrite Z.eqb_refl. apply wrap_small. by destruct (gc_pc _ _ _ _ _ Hgc).
  - intros ret. destruct (push_word (set_gpr s2 TCG_REG_R11 pc) sp ret) as (sc & Hpush & Hgs & Hxc & Hrc & Hoc & Hmapc); [exact (sim_sp _ _ _ _ _ _ _ _ Hsim)|lia| |].
    { eapply mapped_sub; [exact (sim_low _ _ _ _ _ _ _ _ Hsim)|lia..]. }
    exists sc. split; [done|]. split; [by eapply (host_called_ok env gsp lr pc s s1 s2 env' args ret)|].
    rewrite (rd_mem_ext (cmem s1)); [done|]. intros x Hxx. rewrite Hoc by lia. apply (sim_frame _ _ _ _ _ _ _ _ Hsim); unfold env_byte, ZREG_SIZE; lia.
Qed.

(** ** After the call *)

Lemma after_call fns data lr m sc s2 env2 buf : layout OFF_ZREGS envp gmem m sp (S0 - sp) → in_u 64 lr → rd_mem (cmem sc) (S0 - 8) 8 = Ret (le_bytes 8 lr) →
  host_returned sc s2 env2 buf → return_type rt → static_return rt = true →
  ∃ es s', abi_a2x_exit_translation OFF_ZREGS fns data aaInfo xxInfo = Ret es ∧ all_valid es ∧
    exec_emits (es ++ update_pc_from_lr) s2 = Ret s' ∧ guest_continues lr s2 s' env2 buf.
Proof.
  intros Hlay Hlr64 Hlr [Hret Hfr Hpc] Hrt Hst. pose proof (room_bounds rt cs Hproto Hroom) as (Hb & Hlt & Hdiv).
  assert (0 ≤ sret_room rt) as Hsr by (unfold sret_room; by case_match).
  pose proof (entry_layout m m Hlay ltac:(done)) as Hlay'. pose proof (lay_stack _ _ _ _ _ _ Hlay) as Hstk. pose proof (lay_apart _ _ _ _ _ _ Hlay) as Hap.
  pose proof (lay_env _ _ _ _ _ _ Hlay) as [He0 He1]. pose proof (lay_zregs _ _ _ _ _ _ Hlay) as Hoff.
  destruct (exit_moves_ok OFF_ZREGS envp gmem (S0 - 16) nf rt cs Hproto Hroom m Hlay' ltac:(lia) ltac:(lia) env2 buf s2 Hret Hrt Hst)
    as (es & s3 & env3 & Hes & Hrun & [Henv3 Hsp3 Hu3 Hmem3 Hfr3] & Hval).
  assert (∃ x', wr (xregs env3) 240 (le_bytes 8 lr) = Ret x') as [x' Hw].
  { destruct Hmem3 as [Hx3 _]. apply rd_mem_length in Hx3; [|lia]. eexists. apply wr_ok; [lia|]. rewrite length_le_bytes. lia. }
  assert (∀ a, S0 - 16 ≤ a < S0 ∨ envp + OFF_PC ≤ a < envp + OFF_PC + 8 → ¬ env_byte a) as Hne by (unfold env_byte, OFF_PC, ZREG_SIZE in *; lia).
  destruct (update_pc_ok OFF_ZREGS envp gmem (S0 - 16) rt cs m Hlay' s3 env3 lr x') as (s' & Hup & Hsp' & Henv' & Hmem' & Hpc' & Hfr'); try done.
  - destruct Hlay'. lia.
  - lia.
  - replace (S0 - 16 + 8) with (S0 - 8) by lia. rewrite <- Hlr. apply rd_mem_ext. intros a Ha. rewrite Hfr3 by (apply Hne; lia). apply Hfr. lia.
  - rewrite mapped_spec in Hpc |- *. intros a Ha. rewrite Hfr3 by (apply Hne; lia). by apply Hpc.
  - exists es, s'. rewrite exit_translation. split_and!; [done|eapply exit_moves_valid; [|exact Hproto|exact Hroom|exact Hes]; lia|by rewrite exec_emits_app, Hrun|].
    constructor; [lia|done|done|by exists env3, x'|]. intros a Ha Ha'. rewrite Hfr' by done. by apply Hfr3.
Qed.

(** ** The whole trampoline *)

Lemma assemble_ok p es : Forall (λ e, plain e = true ∧ valid 0 e = true ∨ ∃ d, e = E_jmp d ∨ e = call_r11) es → ∃ l, assemble p es = Ret l.
Proof.
  intros Hes. revert p. induction Hes as [|e es He _ IH]; intros p; [by exists []|]. cbn [assemble].
  assert (∃ l, emit_bytes p e = Ret l) as [l ->].
  { destruct He as [[Hp Hv]|(d & [->| ->])]; [|by eexists..]. rewrite <- (valid_plain p) in Hv by done. destruct (decode_emit_ok p e Hv) as (l & Hl & _). by exists l. }
  cbn [mbind outcome_bind]. destruct (IH (p + Z.of_nat (length l))) as [l' ->]. by eexists.
Qed.

Lemma exec_emits_plain es s s' : exec_emits es s = Ret s' → all_valid es → Forall (λ e, plain e = true ∧ valid 0 e = true) es.
Proof.
  revert s. induction es as [|e es IH]; intros s He Hv; [constructor|]. apply Forall_cons in Hv as [Hv0 Hv]. cbn [exec_emits] in He.
  destruct (exec_emit e s) as [s1|] eqn:He1; [|done]. constructor; [split; [by eapply exec_plain_control|done]|by eapply IH].
Qed.

Section run.
Context (fns : host_fns) (data : host_data) (quick_tbcache : Z) (host : Z → cpu → outcome cpu) (base : Z).
Context (Hqt : in_u 64 quick_tbcache).

(** Straight-line code, a call of a host function, straight-line code, a jump. *)
Lemma run_call_jump es1 es2 code s s3 pc s' : let es := es1 ++ [call_r11] ++ es2 ++ [E_jmp quick_tbcache] in
  assemble base es = Ret code → all_valid es1 → all_valid es2 → exec_emits es1 s = Ret s3 → gpr s3 TCG_REG_R11 = pc →
  (∀ p, base ≤ p ≤ base + Z.of_nat (length code) → is_int32 (quick_tbcache - p - 5) = true) → inside base code quick_tbcache = false →
  (∃ sc s2, push s3 (base + Z.of_nat (length (match assemble base es1 with Ret l => l | Stop _ => [] end)) + 3) = Ret sc ∧ host pc sc = Ret s2 ∧ exec_emits es2 s2 = Ret s') →
  ∀ fuel, (length es ≤ fuel)%nat → run host base code fuel base s = Ret (quick_tbcache, s').
Proof.
  intros es Hcode Hv1 Hv2 Hr1 Hr11 Hreach Hqi (sc & s2 & Hpush & Hhost & Hr2) fuel Hfuel. unfold es in Hcode. rewrite assemble_app in Hcode.
  destruct (assemble base es1) as [l1|] eqn:Hl1; [|done]. cbn [mbind outcome_bind] in Hcode. rewrite assemble_app in Hcode.
  set (p1 := base + Z.of_nat (length l1)) in *. set (lc := [0x41; 0xff; 0xd3]).
  assert (assemble p1 [call_r11] = Ret lc) as Hlc by reflexivity. rewrite Hlc in Hcode. cbn [mbind outcome_bind] in Hcode.
  change (Z.of_nat (length lc)) with 3 in Hcode. rewrite assemble_app in Hcode. destruct (assemble (p1 + 3) es2) as [l2|] eqn:Hl2; [|done].
  cbn [mbind outcome_bind] in Hcode. set (p2 := p1 + 3 + Z.of_nat (length l2)) in *.
  assert (∃ lj, assemble p2 [E_jmp quick_tbcache] = Ret lj ∧ emit_bytes p2 (E_jmp quick_tbcache) = Ret lj) as (lj & Hlj & Hej)
    by (cbn [assemble emit_bytes mbind outcome_bind]; eexists; split; [done|by rewrite app_nil_r]).
  rewrite Hlj in Hcode. injection Hcode as <-.
  assert (code_at base (l1 ++ lc ++ l2 ++ lj) base (l1 ++ lc ++ l2 ++ lj)) as Hat by (exists [], []; split; [by rewrite app_nil_r|simpl; lia]).
  apply code_at_app in Hat as [Hat1 Hat]. apply code_at_app in Hat as [Hatc Hat]. apply code_at_app in Hat as [Hat2 Hatj]. fold p1 in Hatc, Hat2, Hatj.
  change (Z.of_nat (length lc)) with 3 in *. fold p2 in Hatj.
  destruct (run_emits host base _ base es1 l1 s s3 Hl1 Hv1 Hr1 Hat1) as (n1 & Hn1 & R1).
  destruct (run_emits host base _ (p1 + 3) es2 l2 s2 s' Hl2 Hv2 Hr2 Hat2) as (n2 & Hn2 & R2).
  replace fuel with (n1 + S (n2 + S (fuel - n1 - n2 - 2)))%nat by (unfold es in Hfuel; rewrite !length_app in Hfuel; cbn [length] in Hfuel; lia).
  rewrite R1. fold p1. erewrite (run_emit host base _ p1 call_r11 lc (ICallReg TCG_REG_R11)); [|reflexivity|reflexivity|reflexivity|exact Hatc|].
  2:{ cbn [exec]. change (Z.of_nat (length lc)) with 3. rewrite Hpush. cbn [mbind outcome_bind]. rewrite Hr11, Hhost. reflexivity. }
  rewrite R2. fold p2. erewrite (run_emit host base _ p2 (E_jmp quick_tbcache) lj (IJmp quick_tbcache)); [|exact Hej| |reflexivity|exact Hatj|reflexivity].
  - rewrite wrap_small by done. by apply run_outside.
  - cbn [valid]. apply Hreach. unfold p2, p1. rewrite length_app. cbn [length]. rewrite length_app. lia.
Qed.
End run.

(** The entry, the call, the exit and the jump together. *)
Lemma trampoline_ok fns data quick_tbcache host base env gsp lr pc s : guest_call env gsp lr pc s → call_args env gsp →
  return_type rt → static_return rt = true → in_u 64 quick_tbcache →
  (∀ ret sc, host_called env gsp ret sc → ∃ s2 env2 buf, host pc sc = Ret s2 ∧ host_returned sc s2 env2 buf) →
  ∃ es code, a2x_trampoline OFF_ZREGS fns data quick_tbcache aaInfo xxInfo = Ret es ∧ assemble base es = Ret code ∧
    ((∀ p, base ≤ p ≤ base + Z.of_nat (length code) → is_int32 (quick_tbcache - p - 5) = true) → inside base code quick_tbcache = false →
     ∃ ret sc s2 env2 buf s', host_called env gsp ret sc ∧ host pc sc = Ret s2 ∧ host_returned sc s2 env2 buf ∧ guest_continues lr s2 s' env2 buf ∧
       ∀ fuel, (length es ≤ fuel)%nat → run host base code fuel base s = Ret (quick_tbcache, s')).
Proof.
  intros Hgc Hargs Hrt Hst Hqt Hhost.
  destruct (before_call fns data env gsp lr pc s Hgc Hargs) as (es1 & s3 & Hes1 & Hv1 & Hr1 & Hr11 & Hcall).
  assert (in_u 64 lr) as Hlr64.
  { pose proof (gc_lr _ _ _ _ _ Hgc) as Hlr. unfold xreg in Hlr. destruct (rd (xregs env) (30 * 8) 8) as [bs|] eqn:Hb; [|done]. injection Hlr as <-.
    pose proof (gc_env_ok _ _ _ _ _ Hgc) as (_ & _ & Hxok & _). apply le_val_u64; [by eapply rd_bytes_ok|]. apply rd_length in Hb; lia. }
  set (before := save_lr_to_stack ++ es1 ++ [load_pc]) in *.
  destruct (Hcall (base + Z.of_nat (length (match assemble base before with Ret l => l | Stop _ => [] end)) + 3)) as (sc & Hpush & Hhc & Hlr).
  destruct (Hhost _ sc Hhc) as (s2 & env2 & buf & Hh & Hhr).
  destruct (after_call fns data lr (cmem s) sc s2 env2 buf (gc_layout _ _ _ _ _ Hgc) Hlr64 Hlr Hhr Hrt Hst) as (es2 & s' & Hes2 & Hv2 & Hr2 & Hgr).
  assert (all_valid before) as Hvb by (apply Forall_app_2; [by repeat constructor|apply Forall_app_2; [done|by repeat constructor]]).
  assert (all_valid (es2 ++ update_pc_from_lr)) as Hva by (apply Forall_app_2; [done|by repeat constructor]).
  set (es := before ++ [call_r11] ++ (es2 ++ update_pc_from_lr) ++ [E_jmp quick_tbcache]).
  destruct (assemble_ok base es) as [code Hcode].
  { apply Forall_app_2; [|apply Forall_app_2; [|apply Forall_app_2]].
    - eapply Forall_impl; [exact (exec_emits_plain _ _ _ Hr1 Hvb)|]. simpl. tauto.
    - apply Forall_singleton. right. exists quick_tbcache. auto.
    - eapply Forall_impl; [exact (exec_emits_plain _ _ _ Hr2 Hva)|]. simpl. tauto.
    - apply Forall_singleton. right. exists quick_tbcache. auto. }
  exists es, code. split_and!; [|done|].
  - unfold a2x_trampoline. rewrite Hes1, Hes2. cbn [mbind outcome_bind]. unfold es, before. by rewrite <- !app_assoc.
  - intros Hreach Hqi. eexists _, sc, s2, env2, buf, s'. split; [exact Hhc|]. split_and!; try done. intros fuel Hfuel.
    by eapply (run_call_jump quick_tbcache host base Hqt before (es2 ++ update_pc_from_lr) code s s3 pc s'); try done; exists sc, s2.
Qed.
End bridge.
