(* ===== verification/A2XCorrect.v ===== *)
(** * The static bridge from AArch64 to x86-64: properties

    The theorem for calls through a generated trampoline, a run of it, and the
    prototypes for which the generated code goes wrong. *)

From S2P Require Import Prelude Bytes ABIArgInfo FfiTypes Layout Placement AAPrepCif HFA AAAlloc XXPrepCif XXClass XXAlloc CrossABI DyBridge DyEntry DyStep DyCorrect DyExit Handlers Memory X86 Encoder Machine A2XCode A2XSim A2XStep A2XArg A2XEntry A2XCall A2XExit A2XValid A2XTramp A2XBridge.


(** ** A run *)

(** X0 is 11, X1 points into the guest's memory, X30 and SP are where a call leaves them. *)
Definition run_env : CPUARMState :=
  mk_env (concat (le_bytes 8 <$> ([11; 4352] ++ replicate 28 0 ++ [65536; 4096]))) ((λ i, i mod 253) <$> seqZ 0 (32 * ZREG_SIZE)).
Definition run_gmem : memory := λ a, if (4096 <=? a) && (a <? 8192) then Some (a mod 256) else None.
Definition run_envp : Z := 2 ^ 20.
Definition run_S0 : Z := 2 ^ 21.
Definition run_pc : Z := 2 ^ 40.
Definition run_mem : memory :=
  region run_envp (xregs run_env) (region (run_envp + 256) (le_bytes 8 run_pc) (region (run_envp + 4096) (zregs run_env)
    (region (run_S0 - 4096) (replicate (Z.to_nat 4096) 0) run_gmem))).
Definition run_cpu : cpu :=
  mk_cpu (λ r, if r =? TCG_AREG0 then run_envp else if r =? TCG_REG_RSP then run_S0 else 0) (λ _, replicate 16 0) run_mem false.
Definition run_rt : cty := CScalar SS32.
Definition run_pair : cty := CStruct [CScalar SFloat; CScalar SFloat].
Definition run_large : cty := CStruct [CScalar SS64; CScalar SS64; CScalar SS64].
Definition run_cs : list cty := [CScalar SS64; run_pair; run_large].

(** A host function that returns its first argument plus one. *)
Definition run_host (t : Z) (sc : cpu) : outcome cpu :=
  if t =? run_pc then
    Ret (mk_cpu (λ r, if r =? TCG_REG_RSP then gpr sc TCG_REG_RSP + 8 else if r =? TCG_REG_RAX then u64 (gpr sc TCG_REG_RDI + 1) else gpr sc r)
           (λ _, replicate 16 0) (cmem sc) (zflag sc))
  else Stop Undefined.

Lemma run_env_ok : env_ok run_env.
Proof. split_and!; [done|done|..]; solve_bytes_ok. Qed.

Lemma run_host_returns ret sc : host_called 4096 run_envp run_gmem run_S0 0 run_rt run_cs run_env 4096 ret sc →
  ∃ s2 env2 buf, run_host run_pc sc = Ret s2 ∧ host_returned 4096 run_envp run_S0 run_rt run_cs sc s2 env2 buf.
Proof.
  intros [[Hsp _] _ Henv _ _ _ _ Hu (env1 & Hmem & Hok & _) Hpc _]. eexists _, env1, []. split; [reflexivity|]. constructor; [|done|done].
  constructor; cbn [gpr xmm cmem]; try done.
  - cbn [Z.eqb]. rewrite Hsp. by vm_compute.
  - intros r. case_match; [rewrite Hsp; by vm_compute|]. case_match; [by apply wrap_range|done].
  - intros k. apply Forall_replicate. lia.
Qed.

Lemma run_env_mem : env_mem 4096 run_envp run_mem run_env.
Proof. split; unfold run_mem; rd_regions. Qed.

(** The part of the stack the trampoline uses. *)
Lemma run_stack : mapped run_mem (run_S0 - 4096) 4096 = true.
Proof. apply (rd_mem_mapped _ _ _ (replicate (Z.to_nat 4096) 0)); [lia|]. unfold run_mem. rd_regions. Qed.

Lemma run_layout : layout 4096 run_envp run_gmem run_mem (run_S0 - 16 - 32) 48.
Proof.
  constructor; try (unfold run_envp, run_S0, ZREG_SIZE; lia).
  - by exists 256.
  - by exists (2 ^ 16).
  - intros a b Hab. assert (4096 ≤ a < 8192 ∧ b = a mod 256) as [Ha ->] by (unfold run_gmem in Hab; case_match; [btests; split; [lia|congruence]|done]).
    pose proof (Z.mod_pos_bound a 256 ltac:(lia)). split_and!; try (unfold run_envp, run_S0, ZREG_SIZE; lia).
    rewrite <- Hab. unfold run_mem. rewrite !region_out; [reflexivity|..]; left; unfold run_envp, run_S0; lia.
Qed.

Lemma run_guest_call : guest_call 4096 run_envp run_gmem run_S0 run_rt run_cs run_env 4096 65536 run_pc run_cpu.
Proof.
  constructor.
  - exact run_layout.
  - by exists (2 ^ 17).
  - reflexivity.
  - reflexivity.
  - intros r. cbn [gpr run_cpu]. repeat case_match; by vm_compute.
  - reflexivity.
  - exact run_env_mem.
  - exact run_env_ok.
  - vm_compute. reflexivity.
  - vm_compute. reflexivity.
  - split; [unfold run_cpu, run_mem; cbn [cmem]; rd_regions|done].
  - eapply mapped_sub; [exact run_stack|..]; by vm_compute.
Qed.

Lemma run_call_args : call_args 4096 run_gmem 0 run_rt run_cs run_env 4096.
Proof.
  split_and!.
  - by repeat constructor.
  - split.
    + intros i Hi. unfold run_gmem. assert (bytes (aa_fn_info 0 run_rt run_cs) = 0) as Hb by (by vm_compute). rewrite Hb in Hi.
      rewrite (proj2 (Z.leb_le _ _)), (proj2 (Z.ltb_lt _ _)) by lia. by eexists.
    + intros j c a Hc Ha Hi. destruct j as [|[|[|j]]]; simpl in Hc; simplify_eq; vm_compute in Ha; simplify_eq; try done. eexists. by vm_compute.
  - intros j c x a Hc Hx Ha Hs. destruct j as [|[|[|j]]]; simpl in Hc; simplify_eq; try done. vm_compute in Hx. by simplify_eq.
  - unfold movaps_args. assert (jobs 0 run_rt run_cs = [(CScalar SS64, InRegs [(TE_RDI, TE_Full)], InRegs [(TE_X0, 0)]);
      (run_pair, InRegs [(TE_XMM0, TE_Full)], InRegs [(TE_Q0, 0); (TE_Q0 + 1, 0)]); (run_large, OnStack 0 TE_Full, InRegs [(TE_X0 + 1, 0)])]) as -> by (vm_compute; reflexivity).
    apply Forall_cons_2; [|apply Forall_cons_2; [|apply Forall_singleton]]; [|discriminate|done]. intros _. by repeat constructor.
Qed.


(** ** What the generated code gets wrong *)

(** [movaps] on an address that is not a multiple of 16. *)
Lemma ld128_traps r b o s : ¬ (16 | ea s b o) → exec_emit (E_ld128 r b o) s = Stop Trapped.
Proof.
  intros Ha. unfold exec_emit. cbn [insn_of exec_plain]. unfold aligned16.
  destruct (Z.eqb_spec (ea s b o mod 16) 0) as [H|]; [|done]. destruct Ha. by apply Z.mod_divide.
Qed.

Lemma not_16_add a b : (16 | a) → 0 < b < 16 → ¬ (16 | a + b).
Proof. intros Ha Hb Hab. assert (16 | b) as [k Hk] by (by apply (Z.divide_add_cancel_r 16 a b)). lia. Qed.

Definition mixed : cty := CStruct [CScalar SS64; CScalar SDouble].
Definition three_floats : cty := CStruct [CScalar SFloat; CScalar SFloat; CScalar SFloat].

(** A structure of an integer and a double, passed in X0 and X1 by AArch64
    and in RDI and XMM0 by x86-64, stops the generated code: the second half is
    loaded with [movaps] from [xregs[1]], whose address is never a multiple of 16. *)
Theorem static_entry_mixed_traps OFF_ZREGS envp gmem m0 sp room s env args :
  layout OFF_ZREGS envp gmem m0 sp room → env_ok env → sim OFF_ZREGS envp m0 sp room s env args →
  ∃ es x a, ainfo (xx_fn_info (CScalar SVoid) [mixed]) !! 0%nat = Some x ∧ ainfo (aa_fn_info 0 (CScalar SVoid) [mixed]) !! 0%nat = Some a ∧
    code_arg OFF_ZREGS x a = Ret es ∧ exec_emits es s = Stop Trapped.
Proof.
  intros Hlay Henv Hs.
  exists [E_ld TCG_TYPE_PTR TCG_REG_RAX TCG_AREG0 (a64_enum_2_offset OFF_ZREGS TE_X0); E_mov TCG_TYPE_REG TCG_REG_RDI TCG_REG_RAX;
          E_ld128 TCG_REG_XMM0 TCG_AREG0 (a64_enum_2_offset OFF_ZREGS TE_X1)].
  eexists _, _. split; [reflexivity|]. split; [reflexivity|]. split; [vm_compute; reflexivity|].
  pose proof (rd_a64_8 env Henv TE_X0 ltac:(left; unfold TE_X0; lia)) as (bs & Hb & Hl).
  rewrite (exec_emits_cons _ _ _ (set_gpr s TCG_REG_RAX (le_val bs))).
  2:{ apply exec_ld. unfold cload. rewrite (ea_env _ _ _ _ _ _ Hlay s env args TE_X0 (XPtr 0) Hs eq_refl). by eapply sim_rd_a64. }
  cbn [exec_emits]. rewrite exec_mov by done. cbn [mbind outcome_bind]. rewrite ld128_traps; [done|].
  unfold ea. cbn [gpr set_gpr]. change (a64_enum_2_offset OFF_ZREGS TE_X1) with 8. change (TCG_AREG0 =? TCG_REG_RDI) with false. change (TCG_AREG0 =? TCG_REG_RAX) with false.
  cbv iota. rewrite (sim_env _ _ _ _ _ _ _ _ Hs), wrap_small by (destruct Hlay; unfold in_u, ZREG_SIZE in *; lia). apply not_16_add; [apply Hlay|lia].
Qed.

(** The state of [run_cpu] when the arguments are moved. *)
Definition run_entry : cpu := set_gpr run_cpu TCG_REG_RSP (run_S0 - 16 - 32).

Lemma run_entry_sim : ∃ args, sim 4096 run_envp run_mem (run_S0 - 16 - 32) 48 run_entry run_env args.
Proof.
  apply (sim_init run_entry); [reflexivity|lia|reflexivity|reflexivity| |apply run_env_mem..|eapply mapped_sub; [exact run_stack|..]; by vm_compute].
  intros r. unfold run_entry. cbn [gpr set_gpr run_cpu]. repeat case_match; by vm_compute.
Qed.

Lemma static_entry_mixed_traps_witness :
  ∃ es x a, ainfo (xx_fn_info (CScalar SVoid) [mixed]) !! 0%nat = Some x ∧ ainfo (aa_fn_info 0 (CScalar SVoid) [mixed]) !! 0%nat = Some a ∧
    code_arg 4096 x a = Ret es ∧ exec_emits es run_entry = Stop Trapped.
Proof.
  destruct run_entry_sim as [args Hs].
  exact (static_entry_mixed_traps 4096 run_envp run_gmem run_mem (run_S0 - 16 - 32) 48 run_entry run_env args run_layout run_env_ok Hs).
Defined.

(** The third of three structures of three floats is on the stack for
    AArch64 and in two XMM registers for x86-64.  The generated code takes half
    of the twelve bytes for the distance of the registers and loads the second
    one from six bytes behind the first: it stops with a trap whatever the
    stack pointer is, so that no such call gets through. *)
Theorem static_entry_three_floats_stops OFF_ZREGS envp gmem m0 sp room s env args gsp :
  layout OFF_ZREGS envp gmem m0 sp room → env_ok env → xreg env REG_SP_NUM = Ret gsp → sim OFF_ZREGS envp m0 sp room s env args →
  ∃ es x a, ainfo (xx_fn_info (CScalar SVoid) (replicate 3 three_floats)) !! 2%nat = Some x ∧
    ainfo (aa_fn_info 0 (CScalar SVoid) (replicate 3 three_floats)) !! 2%nat = Some a ∧
    code_arg OFF_ZREGS x a = Ret es ∧ ∀ s', exec_emits es s ≠ Ret s'.
Proof.
  intros Hlay Henv Hgsp Hs.
  exists [E_ld TCG_TYPE_PTR TCG_REG_R11 TCG_AREG0 (OFF_XREG REG_SP_NUM); E_ld128 (TCG_REG_XMM0 + 4) TCG_REG_R11 0; E_ld128 (TCG_REG_XMM0 + 5) TCG_REG_R11 6].
  eexists _, _. split; [vm_compute; reflexivity|]. split; [vm_compute; reflexivity|]. split; [vm_compute; reflexivity|]. intros s'.
  rewrite (exec_emits_cons _ _ _ _ (exec_ld_sp _ _ _ _ _ _ Hlay env Henv gsp Hgsp args s TCG_REG_R11 Hs)).
  destruct (xreg_sp env Henv gsp Hgsp) as (_ & _ & _ & Hu). cbn [exec_emits]. set (s1 := set_gpr s TCG_REG_R11 gsp).
  assert (gpr s1 TCG_REG_R11 = gsp) as H11 by (unfold s1; cbn [gpr set_gpr]; rewrite Z.eqb_refl; by apply wrap_small).
  assert ((16 | gsp) ∨ ¬ (16 | gsp)) as [Hal|Hal] by (rewrite <- Z.mod_divide by lia; lia); [|rewrite ld128_traps; [done|unfold ea; by rewrite H11, Z.add_0_r, wrap_small]].
  destruct (exec_emit (E_ld128 (TCG_REG_XMM0 + 4) TCG_REG_R11 0) s1) as [s2|] eqn:He; [|done]. cbn [mbind outcome_bind].
  assert (gpr s2 TCG_REG_R11 = gsp) as H11' by (unfold exec_emit in He; cbn [insn_of exec_plain] in He; inv_outcome; by subst s2).
  rewrite ld128_traps; [done|]. unfold ea. rewrite H11'. assert (gsp + 6 < 2 ^ 64) by (destruct Hal as [k ->]; unfold in_u in Hu; lia).
  rewrite wrap_small by (unfold in_u in *; lia). apply not_16_add; [done|lia].
Qed.

Lemma static_entry_three_floats_stops_witness :
  ∃ es x a, ainfo (xx_fn_info (CScalar SVoid) (replicate 3 three_floats)) !! 2%nat = Some x ∧
    ainfo (aa_fn_info 0 (CScalar SVoid) (replicate 3 three_floats)) !! 2%nat = Some a ∧
    code_arg 4096 x a = Ret es ∧ exec_emits es run_entry ≠ Ret run_entry.
Proof.
  destruct run_entry_sim as [args Hs].
  destruct (static_entry_three_floats_stops 4096 run_envp run_gmem run_mem (run_S0 - 16 - 32) 48 run_entry run_env args 4096 run_layout run_env_ok
    ltac:(vm_compute; reflexivity) Hs) as (es & x & a & Hx & Ha & Hes & Hne).
  exists es, x, a. split; [exact Hx|]. split; [exact Ha|]. split; [exact Hes|]. apply Hne.
Defined.

(** Four bytes of a register stored. *)
Lemma puts_st32 OFF_ZREGS envp gmem m0 sp room s0 r ar env env' s : layout OFF_ZREGS envp gmem m0 sp room → ret_sim OFF_ZREGS envp s0 s env →
  wr_a64 env ar (le_bytes 4 (gpr s r)) = Ret env' →
  ∃ s', exec_emit (E_st TCG_TYPE_I32 r TCG_AREG0 (a64_enum_2_offset OFF_ZREGS ar)) s = Ret s' ∧ ret_sim OFF_ZREGS envp s0 s' env' ∧ gpr s' = gpr s ∧ xmm s' = xmm s.
Proof.
  intros Hlay Hs Hw. destruct (ret_writable _ _ _ _ _ _ Hlay s0 s env ar _ env' Hs Hw) as [m Hm]. exists (set_mem s m).
  split; [|split; [by eapply ret_sim_store|done]]. apply exec_st. rewrite (ret_ea _ _ _ _ _ _ Hlay s0 s env ar _ env' Hs Hw). exact Hm.
Qed.

(** The second float of a returned structure of two floats is lost: the
    exit code shifts the two floats to the right by 32 with an instruction
    that works on 32 bits and does not shift at all, so that S1 receives the
    first float. *)
Theorem static_exit_repeats_float OFF_ZREGS envp gmem m0 sp room s env :
  layout OFF_ZREGS envp gmem m0 sp room → env_ok env → (∀ k, length (xmm s k) = 16%nat) → (∀ k, bytes_ok (xmm s k)) → ret_sim OFF_ZREGS envp s s env →
  ∃ es s' env', code_ret_direct OFF_ZREGS (rinfo (xx_fn_info run_pair [])) (rinfo (aa_fn_info 0 run_pair [])) = Ret es ∧
    exec_emits es s = Ret s' ∧ ret_sim OFF_ZREGS envp s s' env' ∧
    rd_a64 env' TE_S0 4 = Ret (take 4 (xmm s 0)) ∧ rd_a64 env' (TE_S0 + 1) 4 = Ret (take 4 (xmm s 0)).
Proof.
  intros Hlay Henv Hxl Hxok Hs. set (x := xmm s 0). set (v := le_val (take 8 x)).
  assert (in_u 64 v) as Hv by (apply le_val_u64; [apply Forall_take, Hxok|rewrite length_take; unfold x; rewrite Hxl; lia]).
  assert (le_bytes 4 v = take 4 x) as H4.
  { rewrite <- (le_bytes_take 8 4) by lia. unfold v. replace 8%nat with (length (take 8 x)) at 1 by (rewrite length_take; unfold x; rewrite Hxl; lia).
    rewrite le_bytes_val by (apply Forall_take, Hxok). by rewrite take_take. }
  pose proof Henv as (_ & Hzl & _ & Hzok). unfold ZREG_SIZE in Hzl.
  destruct (copy_z x (Hxok 0) env TE_S0 0 0 4 (take 4 x) Henv eq_refl) as (env1 & Hc1 & Henv1 & _ & Hf1 & Hr1); [lia|lia|lia|apply rd_ok; [lia|unfold x; rewrite Hxl; lia]|].
  destruct (copy_z x (Hxok 0) env1 (TE_S0 + 1) 1 0 4 (take 4 x) Henv1 eq_refl) as (env2 & Hc2 & Henv2 & _ & Hf2 & Hr2); [lia|lia|lia|apply rd_ok; [lia|unfold x; rewrite Hxl; lia]|].
  unfold copy_to_a64 in Hc1, Hc2. rewrite (rd_ok x 0 4) in Hc1, Hc2 by (unfold x; rewrite ?Hxl; lia). cbn [mbind outcome_bind] in Hc1, Hc2.
  change (take (Z.to_nat 4) (drop (Z.to_nat 0) x)) with (take 4 x) in *. rewrite <- H4 in Hc1, Hc2.
  set (s1 := set_gpr s TCG_REG_R8 v). assert (gpr s1 TCG_REG_R8 = v) as Hr8 by (unfold s1; cbn [gpr set_gpr]; rewrite Z.eqb_refl; by apply wrap_small).
  destruct (puts_st32 _ _ _ _ _ _ s TCG_REG_R8 TE_S0 env env1 s1 Hlay) as (s2 & He2 & Hs2 & Hg2 & Hx2); [eapply (ret_sim_scratch _ _ gmem m0 sp room); auto|by rewrite Hr8|].
  set (s3 := set_gpr s2 TCG_REG_R8 (u32 v)). assert (exec_emit (E_shifti SHIFT_SHR TCG_REG_R8 32) s2 = Ret s3) as He3.
  { unfold exec_emit. cbn [insn_of exec_plain]. change (32 mod wbits W32) with 0. cbn [Z.eqb]. rewrite Hg2, Hr8. by rewrite Z.shiftr_0_r. }
  assert (gpr s3 TCG_REG_R8 = u32 v) as Hr8' by (unfold s3; cbn [gpr set_gpr]; rewrite Z.eqb_refl; apply wrap_le; lia).
  assert (le_bytes 4 (u32 v) = le_bytes 4 v) as H4' by (apply le_bytes_ext; apply wrap_wrap; lia).
  destruct (puts_st32 _ _ _ _ _ _ s TCG_REG_R8 (TE_S0 + 1) env1 env2 s3 Hlay) as (s4 & He4 & Hs4 & _); [eapply (ret_sim_scratch _ _ gmem m0 sp room); auto|by rewrite Hr8', H4'|].
  exists (first_S_reg OFF_ZREGS TE_XMM0 TE_S0 ++ next_S_reg OFF_ZREGS (TE_S0 + 1)), s4, env2. split_and!; [vm_compute; reflexivity| |done| |].
  - unfold first_S_reg, next_S_reg. cbn [app exec_emits]. change (exec_emit (E_mov TCG_TYPE_PTR TCG_REG_R8 (x64_enum_2_reg TE_XMM0)) s) with (Ret s1).
    cbn [mbind outcome_bind]. rewrite He2. cbn [mbind outcome_bind]. rewrite He3. cbn [mbind outcome_bind]. by rewrite He4.
  - change (rd_a64 env2 TE_S0 4) with (rd (zregs env2) (0 * ZREG_SIZE) 4). rewrite (vreg_keep 1 0 4 _ _ Hf2), (Hr1 4) by lia. by rewrite take_take.
  - change (rd_a64 env2 (TE_S0 + 1) 4) with (rd (zregs env2) (1 * ZREG_SIZE) 4). rewrite (Hr2 4) by lia. by rewrite take_take.
Qed.

Lemma static_exit_repeats_float_witness : ∃ es s', code_ret_direct 4096 (rinfo (xx_fn_info run_pair [])) (rinfo (aa_fn_info 0 run_pair [])) = Ret es ∧
  exec_emits es (set_xmm run_cpu 0 (le_bytes 16 0x40000000_3f800000)) = Ret s' ∧ rd_mem (cmem s') (run_envp + 4096 + ZREG_SIZE) 4 = Ret (le_bytes 4 0x3f800000).
Proof.
  destruct (static_exit_repeats_float 4096 run_envp run_gmem run_mem (run_S0 - 16 - 32) 48 (set_xmm run_cpu 0 (le_bytes 16 0x40000000_3f800000)) run_env)
    as (es & s' & env' & Hes & Hrun & Hs & _ & H1).
  - exact run_layout.
  - exact run_env_ok.
  - intros k. cbn [xmm set_xmm run_cpu]. case_match; reflexivity.
  - intros k. cbn [xmm set_xmm run_cpu]. case_match; [apply le_bytes_ok|apply Forall_replicate; lia].
  - constructor; [reflexivity|reflexivity| |reflexivity|exact run_env_mem|reflexivity]. intros r. cbn [gpr set_xmm run_cpu]. repeat case_match; by vm_compute.
  - exists es, s'. split; [exact Hes|]. split; [exact Hrun|]. destruct (rs_mem _ _ _ _ _ Hs) as [_ Hz].
    apply (rd_mem_at _ _ (32 * ZREG_SIZE) _ ZREG_SIZE 4 _ ltac:(done) ltac:(done) Hz). exact H1.
Defined.
