(* ===== verification/X2ACode.v ===== *)
(** * [x64toAArch64.inc.c]: the code of a call from x86-64 to AArch64

    When host code calls back into the guest, the registers of the caller are
    saved in a [_Register_Context]; a pair of generated functions then moves
    the arguments from there and from the caller's stack to the emulated CPU,
    and the return value the other way.  Both are called with the emulated CPU
    in RDI and the context in RSI.  As in [A2XCode], the functions below
    compute the calls of the encoder that the C functions make. *)

From S2P Require Import Prelude Bytes ABIArgInfo FfiTypes AAPrepCif XXPrepCif DyBridge Handlers X86 Encoder A2XCode.

(** ** [struct _Register_Context] of [include/unwind.h] *)

Definition CTX_RAX : Z := 0.
Definition CTX_RBX : Z := 8.
Definition CTX_RCX : Z := 16.
Definition CTX_RDX : Z := 24.
Definition CTX_RDI : Z := 32.
Definition CTX_RSI : Z := 40.
Definition CTX_RBP : Z := 48.
Definition CTX_RSP : Z := 56.
Definition CTX_R8 : Z := 64.
Definition CTX_R9 : Z := 72.
Definition CTX_XMM0 : Z := 128.
Definition SIZEOF_CONTEXT : Z := 256.

Definition x64_enum_2_offset (num : Z) : Z :=
  if one_of num [TE_RAX; TE_EAX; TE_AX; TE_AL] then CTX_RAX
  else if one_of num [TE_RDI; TE_EDI] then CTX_RDI
  else if one_of num [TE_RSI; TE_ESI] then CTX_RSI
  else if one_of num [TE_RDX; TE_EDX; TE_DL] then CTX_RDX
  else if one_of num [TE_RCX; TE_ECX] then CTX_RCX
  else if one_of num [TE_R8; TE_R8D] then CTX_R8
  else if one_of num [TE_R9; TE_R9D] then CTX_R9
  else CTX_XMM0 + 16 * (num - TE_XMM0).

(** The macros of the file. *)
Definition ld_x86_64 (tcg_reg off : Z) : emit := E_ld TCG_TYPE_PTR tcg_reg TCG_REG_RSI off.
Definition st_x86_64 (tcg_reg off : Z) : emit := E_st TCG_TYPE_PTR tcg_reg TCG_REG_RSI off.
Definition ld_x86_64_enum (tcg_reg num : Z) : emit := ld_x86_64 tcg_reg (x64_enum_2_offset num).
Definition st_x86_64_enum (tcg_reg num : Z) : emit := st_x86_64 tcg_reg (x64_enum_2_offset num).
Definition ld_aarch64 (tcg_reg off : Z) : emit := E_ld TCG_TYPE_PTR tcg_reg TCG_REG_RDI off.
Definition st_aarch64 (tcg_reg off : Z) : emit := E_st TCG_TYPE_PTR tcg_reg TCG_REG_RDI off.

Section code.
Context (OFF_ZREGS : Z).
Abbreviation a64_off := (a64_enum_2_offset OFF_ZREGS).

Definition ld_aarch64_enum (tcg_reg num : Z) : emit := ld_aarch64 tcg_reg (a64_off num).
Definition st_aarch64_enum (tcg_reg num : Z) : emit := st_aarch64 tcg_reg (a64_off num).

(** ** Entry: blocks *)

(** With [BLOCK_HAS_CALLBACK_TRAMPOLINE] and without [BLOCK_NEEDS_STACK_COPY]. *)
Definition x2a_entry_block (fns : host_fns) (xx : ABIArgInfo) : outcome (list emit) :=
  if te_is_block xx then
    let offset := te_get_mem xx in
    r ← (if te_is_mem xx then Ret 0 else te_get_reg xx 0);
    let load :=
      if te_is_mem xx
      then [ld_x86_64 TCG_REG_R10 CTX_RSP; E_ld TCG_TYPE_PTR TCG_REG_RDI TCG_REG_R10 (u32 (offset + 8))]
      else [ld_x86_64_enum TCG_REG_R10 r; E_mov TCG_TYPE_REG TCG_REG_RDI TCG_REG_R10] in
    let store :=
      if te_is_mem xx
      then [ld_x86_64 TCG_REG_R10 CTX_RSP; E_st TCG_TYPE_PTR TCG_REG_RAX TCG_REG_R10 (u32 (offset + 8))]
      else [st_x86_64_enum TCG_REG_RAX r] in
    Ret ([E_push TCG_REG_RDI; E_push TCG_REG_RSI] ++ load ++
         [E_addi TCG_REG_RSP (-8); E_call (fn_tcg_copy_replace_blocks fns); E_addi TCG_REG_RSP 8;
          E_pop TCG_REG_RSI; E_pop TCG_REG_RDI] ++ store)
  else Ret [].

Definition x2a_entry_blocks (fns : host_fns) (xxs : list ABIArgInfo) (i : Z) : outcome (list emit) :=
  xx ← c_index xxs (Z.to_nat i); x2a_entry_block fns xx.

(** ** Entry: the hidden pointer and the stacks *)

Definition x2a_entry_ret (xxRet aaRet : ABIArgInfo) : outcome (list emit) :=
  match te_is_indirect xxRet, te_is_indirect aaRet with
  | true, true => r ← te_get_reg xxRet 0; Ret [ld_x86_64_enum TCG_REG_RAX r; st_aarch64 TCG_REG_RAX (OFF_XREG 8)]
  | _, _ => Ret []
  end.

Definition aarch64_sp_holder : Z := TCG_REG_R10.
Definition x86_64_rsp_holder : Z := TCG_REG_R11.

(** The argument area of the guest is allocated, and both stack pointers are
    put into registers. *)
Definition x2a_entry_sp (aa_bytes : Z) : list emit :=
  [ld_aarch64 TCG_REG_RAX (OFF_XREG REG_SP_NUM); E_addi TCG_REG_RAX (- ALIGN2POW aa_bytes 16);
   st_aarch64 TCG_REG_RAX (OFF_XREG REG_SP_NUM); E_mov TCG_TYPE_PTR aarch64_sp_holder TCG_REG_RAX;
   ld_x86_64 x86_64_rsp_holder CTX_RSP; E_addi x86_64_rsp_holder 8].

(** ** Entry: arguments *)

(** Case [0b0000], register [j] of each. *)
Definition x2a_reg_reg (xx aa : ABIArgInfo) (j : Z) : outcome (list emit) :=
  xr ← te_get_reg xx j; ar ← te_get_reg aa j;
  if is_xmm xr
  then Ret [E_ld128 TCG_REG_XMM0 TCG_REG_RSI (x64_enum_2_offset xr); E_st128 TCG_REG_XMM0 TCG_REG_RDI (a64_off ar)]
  else Ret [ld_x86_64_enum TCG_REG_RAX xr; st_aarch64_enum TCG_REG_RAX ar].

(** The low half of an XMM register to one S register, then what a shift
    leaves of it to the next. *)
Definition x2a_first_S (xr a0 : Z) : list emit := [ld_x86_64_enum TCG_REG_RAX xr; st_aarch64_enum TCG_REG_RAX a0].
Definition x2a_next_S (a1 : Z) : list emit := [E_shifti SHIFT_SHR TCG_REG_RAX 32; st_aarch64_enum TCG_REG_RAX a1].

Definition x2a_one_to_two (xx aa : ABIArgInfo) : outcome (list emit) :=
  x0 ← te_get_reg xx 0; a0 ← te_get_reg aa 0; a1 ← te_get_reg aa 1;
  _ ← c_assert (in_range TE_XMM0 TE_XMM7 x0);
  _ ← c_assert (a0 + 1 =? a1);
  Ret (x2a_first_S x0 a0 ++ x2a_next_S a1).

Definition x2a_two_to_many (xx aa : ABIArgInfo) (aaRegCnt : Z) : outcome (list emit) :=
  x0 ← te_get_reg xx 0; x1 ← te_get_reg xx 1;
  a0 ← te_get_reg aa 0; a1 ← te_get_reg aa 1; a2 ← te_get_reg aa 2;
  _ ← c_assert (in_range TE_XMM0 TE_XMM6 x0);
  _ ← c_assert (x0 + 1 =? x1);
  _ ← c_assert ((3 =? aaRegCnt) || (4 =? aaRegCnt));
  _ ← c_assert (a0 + 1 =? a1);
  _ ← c_assert (a1 + 1 =? a2);
  last ← (if 4 =? aaRegCnt then
            a3 ← te_get_reg aa 3;
            _ ← c_assert (a2 + 1 =? a3);
            Ret (x2a_next_S a3)
          else Ret []);
  Ret (x2a_first_S x0 a0 ++ x2a_next_S a1 ++ x2a_first_S x1 a2 ++ last).

Definition x2a_arg_reg_reg (xx aa : ABIArgInfo) : outcome (list emit) :=
  let xxRegCnt := te_num_of_reg xx in let aaRegCnt := te_num_of_reg aa in
  if xxRegCnt =? aaRegCnt then emit_loop (x2a_reg_reg xx aa) 0 (Z.to_nat xxRegCnt)
  else if xxRegCnt <? aaRegCnt then
    if (1 =? xxRegCnt) && (2 =? aaRegCnt) then x2a_one_to_two xx aa
    else if 2 =? xxRegCnt then x2a_two_to_many xx aa aaRegCnt
    else Stop Aborted
  else Stop Aborted.

(** Case [0b0001]; [step] is what an XMM register adds to the offset. *)
Fixpoint x2a_regs_to_mem (xx : ABIArgInfo) (base step offset j : Z) (n : nat) : outcome (list emit) :=
  match n with
  | O => Ret []
  | S n =>
      xr ← te_get_reg xx j;
      let off := u32 (base + offset) in
      let '(es, d) :=
        if is_xmm xr
        then ([E_ld128 TCG_REG_XMM0 TCG_REG_RSI (x64_enum_2_offset xr); E_st128 TCG_REG_XMM0 aarch64_sp_holder off], step)
        else ([ld_x86_64_enum TCG_REG_RAX xr; E_st TCG_TYPE_PTR TCG_REG_RAX aarch64_sp_holder off], 8) in
      es' ← x2a_regs_to_mem xx base step (u32 (offset + d)) (j + 1) n;
      Ret (es ++ es')
  end.

Definition x2a_arg_reg_mem (xx aa : ABIArgInfo) : outcome (list emit) :=
  let xxRegCnt := te_num_of_reg xx in
  x2a_regs_to_mem xx (te_get_mem aa) (te_get_arg_size aa / xxRegCnt) 0 0 (Z.to_nat xxRegCnt).

(** Case [0b0100] *)
Definition x2a_mem_reg (xx aa : ABIArgInfo) (wide : bool) (j : Z) : outcome (list emit) :=
  ar ← te_get_reg aa j;
  let off := te_get_mem xx in
  if wide
  then Ret [E_ld128 TCG_REG_XMM0 x86_64_rsp_holder (u32 (off + 16 * j)); E_st128 TCG_REG_XMM0 TCG_REG_RDI (a64_off ar)]
  else Ret [E_ld TCG_TYPE_PTR TCG_REG_RAX x86_64_rsp_holder (u32 (off + 8 * j)); st_aarch64_enum TCG_REG_RAX ar].

Definition x2a_arg_mem_reg (xx aa : ABIArgInfo) : outcome (list emit) :=
  let aaRegCnt := te_num_of_reg aa in
  emit_loop (x2a_mem_reg xx aa (aaRegCnt * 16 =? te_get_arg_size xx)) 0 (Z.to_nat aaRegCnt).

(** Case [0b0101] *)
Definition x2a_arg_mem_mem (xx aa : ABIArgInfo) : outcome (list emit) :=
  let arg_size := te_get_arg_size xx in
  _ ← c_assert (arg_size =? te_get_arg_size aa);
  Ret [E_mov TCG_TYPE_PTR TCG_REG_R8 TCG_REG_RDI; E_mov TCG_TYPE_PTR TCG_REG_R9 TCG_REG_RSI;
       E_movi TCG_TYPE_I64 TCG_REG_RCX arg_size;
       E_mov TCG_TYPE_PTR TCG_REG_RSI x86_64_rsp_holder; E_addi TCG_REG_RSI (te_get_mem xx);
       E_mov TCG_TYPE_PTR TCG_REG_RDI aarch64_sp_holder; E_addi TCG_REG_RDI (te_get_mem aa);
       E_out8 [0xf3; 0xa4];
       E_mov TCG_TYPE_PTR TCG_REG_RSI TCG_REG_R9; E_mov TCG_TYPE_PTR TCG_REG_RDI TCG_REG_R8].

(** Cases [0b0110] and [0b0111]: the guest gets the address on the host stack. *)
Definition x2a_arg_address (xx : ABIArgInfo) (store : emit) : list emit :=
  [E_mov TCG_TYPE_PTR TCG_REG_RAX x86_64_rsp_holder; E_addi TCG_REG_RAX (te_get_mem xx); store].

Definition x2a_arg (xx aa : ABIArgInfo) : outcome (list emit) :=
  let xxRegCnt := te_num_of_reg xx in let aaRegCnt := te_num_of_reg aa in
  if (negb (te_is_mem xx) && (0 =? xxRegCnt)) || (negb (te_is_mem aa) && (0 =? aaRegCnt))
  then Ret [] else
  match te_is_indirect xx, te_is_mem xx, te_is_indirect aa, te_is_mem aa with
  | false, false, false, false => x2a_arg_reg_reg xx aa
  | false, false, false, true => x2a_arg_reg_mem xx aa
  | false, false, true, _ => Stop Aborted
  | false, true, false, false => x2a_arg_mem_reg xx aa
  | false, true, false, true => x2a_arg_mem_mem xx aa
  | false, true, true, false => ar ← te_get_reg aa 0; Ret (x2a_arg_address xx (st_aarch64_enum TCG_REG_RAX ar))
  | false, true, true, true =>
      Ret (x2a_arg_address xx (E_st TCG_TYPE_PTR TCG_REG_RAX aarch64_sp_holder (te_get_mem aa)))
  | true, _, _, _ => Stop Aborted
  end.

Definition x2a_args (xxs aas : list ABIArgInfo) (i : Z) : outcome (list emit) :=
  xx ← c_index xxs (Z.to_nat i); aa ← c_index aas (Z.to_nat i); x2a_arg xx aa.

(** The part without calls of host functions. *)
Definition x2a_entry_moves (aaInfo xxInfo : ABIFnInfo) : outcome (list emit) :=
  ret ← x2a_entry_ret (rinfo xxInfo) (rinfo aaInfo);
  args ← emit_loop (x2a_args (ainfo xxInfo) (ainfo aaInfo)) 0 (Z.to_nat (nargs xxInfo));
  Ret (ret ++ x2a_entry_sp (bytes aaInfo) ++ args).

Definition abi_x2a_entry_translation (fns : host_fns) (aaInfo xxInfo : ABIFnInfo) : outcome (list emit) :=
  blocks ← emit_loop (x2a_entry_blocks fns (ainfo xxInfo)) 0 (Z.to_nat (nargs xxInfo));
  moves ← x2a_entry_moves aaInfo xxInfo;
  Ret (blocks ++ moves).

(** ** Exit *)

(** Case [0b00], register [j] of each. *)
Definition x2a_ret_reg (xx aa : ABIArgInfo) (j : Z) : outcome (list emit) :=
  xr ← te_get_reg xx j; ar ← te_get_reg aa j;
  if is_xmm xr
  then Ret [E_ld128 TCG_REG_XMM0 TCG_REG_RDI (a64_off ar); E_st128 TCG_REG_XMM0 TCG_REG_RSI (x64_enum_2_offset xr)]
  else Ret [ld_aarch64_enum TCG_REG_RAX ar; st_x86_64_enum TCG_REG_RAX xr].

(** An S register to four bytes of the context. *)
Definition x2a_S_reg (ar off : Z) : list emit :=
  [ld_aarch64_enum TCG_REG_RAX ar; E_st TCG_TYPE_I32 TCG_REG_RAX TCG_REG_RSI off].

Definition x2a_ret_two_to_one (xx aa : ABIArgInfo) : outcome (list emit) :=
  x0 ← te_get_reg xx 0; a0 ← te_get_reg aa 0; a1 ← te_get_reg aa 1;
  _ ← c_assert (in_range TE_XMM0 TE_XMM7 x0);
  _ ← c_assert (in_range TE_S0 TE_S6 a0);
  _ ← c_assert (a0 + 1 =? a1);
  Ret (x2a_S_reg a0 (x64_enum_2_offset x0) ++ x2a_S_reg a1 (x64_enum_2_offset x0 + 4)).

Definition x2a_ret_many_to_two (xx aa : ABIArgInfo) (aaRegCnt : Z) : outcome (list emit) :=
  x0 ← te_get_reg xx 0; x1 ← te_get_reg xx 1;
  a0 ← te_get_reg aa 0; a1 ← te_get_reg aa 1; a2 ← te_get_reg aa 2;
  _ ← c_assert (in_range TE_XMM0 TE_XMM6 x0);
  _ ← c_assert (x0 + 1 =? x1);
  _ ← c_assert ((3 =? aaRegCnt) || (4 =? aaRegCnt));
  _ ← c_assert (in_range TE_S0 TE_S5 a0);
  _ ← c_assert (a0 + 1 =? a1);
  _ ← c_assert (a1 + 1 =? a2);
  last ← (if 4 =? aaRegCnt then
            a3 ← te_get_reg aa 3;
            _ ← c_assert (a0 <=? TE_S4);
            _ ← c_assert (a2 + 1 =? a3);
            Ret (x2a_S_reg a3 (x64_enum_2_offset x1 + 4))
          else Ret []);
  Ret (x2a_S_reg a0 (x64_enum_2_offset x0) ++ x2a_S_reg a1 (x64_enum_2_offset x0 + 4) ++
       x2a_S_reg a2 (x64_enum_2_offset x1) ++ last).

Definition x2a_ret_direct (xx aa : ABIArgInfo) : outcome (list emit) :=
  let xxRegCnt := te_num_of_reg xx in let aaRegCnt := te_num_of_reg aa in
  if xxRegCnt =? aaRegCnt then emit_loop (x2a_ret_reg xx aa) 0 (Z.to_nat xxRegCnt)
  else if xxRegCnt <? aaRegCnt then
    if (1 =? xxRegCnt) && (2 =? aaRegCnt) then x2a_ret_two_to_one xx aa
    else if 2 =? xxRegCnt then x2a_ret_many_to_two xx aa aaRegCnt
    else Stop Aborted
  else Stop Aborted.

(** Case [0b10]: register [j] to the caller's buffer, whose address is in R8. *)
Definition x2a_sret_8 (aa : ABIArgInfo) (j : Z) : outcome (list emit) :=
  ar ← te_get_reg aa j;
  Ret [ld_aarch64_enum TCG_REG_RAX ar; E_st TCG_TYPE_PTR TCG_REG_RAX TCG_REG_R8 (8 * j)].
Definition x2a_sret_16 (aa : ABIArgInfo) (j : Z) : outcome (list emit) :=
  ar ← te_get_reg aa j;
  Ret [E_ld128 TCG_REG_XMM0 TCG_REG_RDI (a64_off ar); E_st128 TCG_REG_XMM0 TCG_REG_R8 (16 * j)].

Definition x2a_ret_to_sret (xx aa : ABIArgInfo) : outcome (list emit) :=
  let aaRegCnt := te_num_of_reg aa in
  _ ← consecutive aa 1 (Z.to_nat aaRegCnt - 1);
  r ← te_get_reg xx 0; a0 ← te_get_reg aa 0;
  es ← (if TE_D0 =? a0 then emit_loop (x2a_sret_8 aa) 0 (Z.to_nat aaRegCnt)
        else if TE_Q0 =? a0 then emit_loop (x2a_sret_16 aa) 0 (Z.to_nat aaRegCnt)
        else Stop Aborted);
  Ret (ld_x86_64_enum TCG_REG_R8 r :: es).

(** The return value and the stack pointer of the guest. *)
Definition x2a_exit_moves (aaInfo xxInfo : ABIFnInfo) : outcome (list emit) :=
  let xx := rinfo xxInfo in let aa := rinfo aaInfo in
  es ← match te_is_indirect xx, te_is_indirect aa with
       | false, false => x2a_ret_direct xx aa
       | true, false => x2a_ret_to_sret xx aa
       | _, true => Ret []
       end;
  Ret (es ++ [ld_aarch64 TCG_REG_RAX (OFF_XREG REG_SP_NUM); E_addi TCG_REG_RAX (ALIGN2POW (bytes aaInfo) 16);
              st_aarch64 TCG_REG_RAX (OFF_XREG REG_SP_NUM)]).

(** The return value is a block. *)
Definition x2a_exit_block (fns : host_fns) (xx : ABIArgInfo) : list emit :=
  if te_is_block xx then
    [E_push TCG_REG_RDI; E_push TCG_REG_RSI; ld_aarch64 TCG_REG_RDI (OFF_XREG 0);
     E_addi TCG_REG_RSP (-8); E_call (fn_tcg_copy_replace_blocks fns); E_addi TCG_REG_RSP 8;
     st_x86_64 TCG_REG_RAX CTX_RAX; E_pop TCG_REG_RSI; E_pop TCG_REG_RDI]
  else [].

Definition abi_x2a_exit_translation (fns : host_fns) (aaInfo xxInfo : ABIFnInfo) : outcome (list emit) :=
  let xxRegCnt := te_num_of_reg (rinfo xxInfo) in let aaRegCnt := te_num_of_reg (rinfo aaInfo) in
  let structor := negb (isCxxStructor xxInfo =? 0) in
  if structor && (0 =? xxRegCnt) && (1 =? aaRegCnt) then Ret []
  else if structor && (1 =? xxRegCnt) && (0 =? aaRegCnt)
  then Ret [ld_x86_64 TCG_REG_RAX CTX_RDI; st_x86_64 TCG_REG_RAX CTX_RAX]
  else moves ← x2a_exit_moves aaInfo xxInfo; Ret (moves ++ x2a_exit_block fns (rinfo xxInfo)).

(** ** The pair of functions *)

Definition x2a_entry_function (fns : host_fns) (aaInfo xxInfo : ABIFnInfo) : outcome (list emit) :=
  es ← abi_x2a_entry_translation fns aaInfo xxInfo; Ret (es ++ [E_ret]).
Definition x2a_exit_function (fns : host_fns) (aaInfo xxInfo : ABIFnInfo) : outcome (list emit) :=
  es ← abi_x2a_exit_translation fns aaInfo xxInfo; Ret (es ++ [E_ret]).
End code.
