(* ===== verification/X2ASim.v ===== *)
(** * What the code of a call from x86-64 to AArch64 works on

    The entry function of [x64toAArch64.inc.c] reads the saved registers of the
    host caller and its stack arguments, and writes the emulated registers and
    the argument area it allocates on the guest's stack.  [x2a_sim] relates a
    state of the processor to the emulated registers and that area.  The
    sources are put together as an argument space, so that the value of an
    argument is read as in the other direction.  Many stores are wider than
    the value: a store may spoil what is above its place, never what is
    below. *)

From S2P Require Import Prelude Bytes ABIArgInfo FfiTypes Layout Placement AAPrepCif HFA AAAlloc XXPrepCif XXClass XXAlloc CrossABI DyBridge DyEntry DyStep DyCorrect DyExit Memory X86 Encoder Machine A2XCode A2XSim A2XStep A2XArg A2XFloat A2XEntry X2ACode.

(** ** The sources *)

Definition slice (l : list Z) (a n : Z) : list Z := take (Z.to_nat n) (drop (Z.to_nat a) l).

(** The argument registers of a context in the order of [register_args],
    followed by the stack arguments. *)
Definition ctx_parts : list (Z * Z) :=
  [(CTX_RDI, 8); (CTX_RSI, 8); (CTX_RDX, 8); (CTX_RCX, 8); (CTX_R8, 8); (CTX_R9, 8); (CTX_XMM0, 128); (CTX_RAX, 8)].
Definition slices (ctx : list Z) (parts : list (Z * Z)) : list Z := mjoin ((λ p, slice ctx p.1 p.2) <$> parts).
Definition space_of (ctx stk : list Z) : list Z := slices ctx ctx_parts ++ stk.

Lemma length_slice l a n : 0 ≤ a → 0 ≤ n → a + n ≤ Z.of_nat (length l) → Z.of_nat (length (slice l a n)) = n.
Proof. intros. unfold slice. rewrite length_take, length_drop. lia. Qed.

Lemma lookup_slice l a n k : (Z.of_nat k < n) → slice l a n !! k = l !! (Z.to_nat a + k)%nat.
Proof. intros. unfold slice. rewrite lookup_take_lt by lia. by rewrite lookup_drop. Qed.

Lemma rd_shift l l' a b n : 0 ≤ a → 0 ≤ b → a + n ≤ Z.of_nat (length l) → b + n ≤ Z.of_nat (length l') →
  (∀ k, Z.of_nat k < n → l !! (Z.to_nat a + k)%nat = l' !! (Z.to_nat b + k)%nat) → rd l a n = rd l' b n.
Proof.
  intros. rewrite !rd_ok by lia. f_equal. apply list_eq. intros k. destruct (decide (Z.of_nat k < n)).
  - rewrite !lookup_take_lt, !lookup_drop by lia. auto.
  - rewrite !lookup_take_ge by lia. done.
Qed.

(** A read inside one of the parts. *)
Lemma rd_slice_mid ctx pre post a n k m off : 0 ≤ a → 0 ≤ n → a + n ≤ Z.of_nat (length ctx) → 0 ≤ k → 0 ≤ m → k + m ≤ n →
  off = Z.of_nat (length pre) + k → rd (pre ++ slice ctx a n ++ post) off m = rd ctx (a + k) m.
Proof.
  intros Ha Hn Hl Hk Hm Hkm ->. pose proof (length_slice ctx a n Ha Hn Hl). apply rd_shift; [lia..| |lia|].
  - rewrite !length_app. lia.
  - intros i Hi. rewrite lookup_app_r by lia. rewrite lookup_app_l by lia. rewrite lookup_slice by lia. f_equal. lia.
Qed.

Definition parts_size (parts : list (Z * Z)) : Z := foldr (λ p n, p.2 + n) 0 parts.
Definition part_ok (p : Z * Z) : Prop := 0 ≤ p.1 ∧ 0 ≤ p.2 ∧ p.1 + p.2 ≤ SIZEOF_CONTEXT.

Lemma slices_length ctx parts : Z.of_nat (length ctx) = SIZEOF_CONTEXT → Forall part_ok parts →
  Z.of_nat (length (slices ctx parts)) = parts_size parts.
Proof.
  intros Hl. induction 1 as [|[a n] parts (? & ? & ?) _ IH]; [done|]. cbn [fst snd] in *.
  change (slices ctx ((a, n) :: parts)) with (slice ctx a n ++ slices ctx parts). change (parts_size ((a, n) :: parts)) with (n + parts_size parts).
  rewrite length_app, Nat2Z.inj_add, length_slice, IH by lia. done.
Qed.

Lemma rd_part ctx stk parts i a n k m off : Z.of_nat (length ctx) = SIZEOF_CONTEXT → Forall part_ok parts →
  parts !! i = Some (a, n) → 0 ≤ k → 0 ≤ m → k + m ≤ n → off = parts_size (take i parts) + k →
  rd (slices ctx parts ++ stk) off m = rd ctx (a + k) m.
Proof.
  intros Hl Hp Hi Hk Hm Hkm ->. pose proof (Forall_lookup_1 _ _ _ _ Hp Hi) as (? & ? & ?). cbn [fst snd] in *.
  rewrite <- (take_drop_middle _ _ _ Hi) at 1. unfold slices. rewrite fmap_app, join_app.
  change (mjoin ((λ p, slice ctx p.1 p.2) <$> (a, n) :: drop (S i) parts)) with (slice ctx a n ++ slices ctx (drop (S i) parts)).
  rewrite <- !app_assoc. apply rd_slice_mid with (n := n); try lia.
  fold (slices ctx (take i parts)). rewrite slices_length; [done|done|]. by apply Forall_take.
Qed.

Lemma ctx_parts_ok : Forall part_ok ctx_parts.
Proof. unfold ctx_parts. repeat (apply Forall_cons_2; [unfold part_ok; split_and!; by vm_compute|]). by apply Forall_nil_2. Qed.

Section sources.
Context (ctx stk : list Z) (Hctx : Z.of_nat (length ctx) = SIZEOF_CONTEXT).

Lemma space_of_length : Z.of_nat (length (space_of ctx stk)) = SIZEOF_REGISTER_ARGS + Z.of_nat (length stk).
Proof. unfold space_of. rewrite length_app, Nat2Z.inj_add, slices_length by (done || apply ctx_parts_ok). done. Qed.

(** The argument registers are where [x64_enum_2_offset] says. *)
Lemma space_of_reg r n : xreg_ok r → 0 ≤ n ≤ xwidth r →
  rd (space_of ctx stk) (x64_enum_2_ptr r) n = rd ctx (x64_enum_2_offset r) n.
Proof using Hctx.
  intros Hr Hn. destruct Hr as [(j & Hj & ->)|Hr].
  - assert (n ≤ 8) as Hn8 by (unfold xwidth in Hn; rewrite (proj2 (gpr_ptr j Hj)) in Hn; lia).
    assert (∀ i a, ctx_parts !! i = Some (a, 8) → rd (space_of ctx stk) (parts_size (take i ctx_parts)) n = rd ctx a n) as H8.
    { intros i a Hi. rewrite <- (Z.add_0_r a). eapply (rd_part _ _ _ i); [done|exact ctx_parts_ok|exact Hi|lia..]. }
    assert (j = 0 ∨ j = 1 ∨ j = 2 ∨ j = 3 ∨ j = 4 ∨ j = 5) as Hc by lia. clear Hn Hj.
    destruct Hc as [->|[->|[->|[->|[->| ->]]]]].
    1: exact (H8 0%nat _ eq_refl). 1: exact (H8 1%nat _ eq_refl). 1: exact (H8 2%nat _ eq_refl).
    1: exact (H8 3%nat _ eq_refl). 1: exact (H8 4%nat _ eq_refl). exact (H8 5%nat _ eq_refl).
  - destruct (xmm_ptr r Hr) as [-> Hx]. unfold xwidth in Hn. rewrite Hx in Hn. unfold TE_XMM0, TE_XMM7 in Hr.
    replace (x64_enum_2_offset r) with (CTX_XMM0 + 16 * (r - 18)).
    + eapply (rd_part ctx stk ctx_parts 6 CTX_XMM0 128 (16 * (r - 18))); try done; try exact ctx_parts_ok; try lia. cbn. lia.
    + assert (r = 18 ∨ r = 19 ∨ r = 20 ∨ r = 21 ∨ r = 22 ∨ r = 23 ∨ r = 24 ∨ r = 25) as Hc by lia.
      destruct Hc as [->|[->|[->|[->|[->|[->|[->| ->]]]]]]]; done.
Qed.

Lemma space_of_stack off n : 0 ≤ off → 0 ≤ n → off + n ≤ Z.of_nat (length stk) →
  rd (space_of ctx stk) (SIZEOF_REGISTER_ARGS + off) n = rd stk off n.
Proof using Hctx.
  intros Ho Hn Hl. pose proof space_of_length. apply rd_shift; try (unfold SIZEOF_REGISTER_ARGS in *; lia). intros k Hk. unfold space_of.
  pose proof (slices_length ctx ctx_parts Hctx ctx_parts_ok) as Hs. change (parts_size ctx_parts) with 184 in Hs.
  unfold SIZEOF_REGISTER_ARGS. rewrite lookup_app_r by lia. f_equal. lia.
Qed.
End sources.

(** ** Registers written upwards *)

Definition is_X (r : Z) : bool := TE_X0 <=? r.

Lemma Xreg_ptr r : TE_X0 ≤ r < TE_X0 + 8 → a64_enum_2_ptr r = Some (XPtr ((r - TE_X0) * 8)).
Proof.
  unfold TE_X0. intros Hr. assert (r = 33 ∨ r = 34 ∨ r = 35 ∨ r = 36 ∨ r = 37 ∨ r = 38 ∨ r = 39 ∨ r = 40) as H by lia.
  by destruct_or! H; subst.
Qed.

(** Only the argument register [r] and those of its kind above it change. *)
Definition up_from (r : Z) (env env' : CPUARMState) : Prop :=
  if is_X r
  then zregs env' = zregs env ∧ framed [((r - TE_X0) * 8, 64 - (r - TE_X0) * 8)] (xregs env) (xregs env')
  else xregs env' = xregs env ∧
       framed [((r - TE_Q0) * ZREG_SIZE, 8 * ZREG_SIZE - (r - TE_Q0) * ZREG_SIZE)] (zregs env) (zregs env').

Lemma up_from_refl r env : up_from r env env.
Proof. unfold up_from. destruct (is_X r); split; auto using framed_refl. Qed.

Lemma up_from_trans r e1 e2 e3 : up_from r e1 e2 → up_from r e2 e3 → up_from r e1 e3.
Proof.
  unfold up_from. destruct (is_X r); intros [H1 F1] [H2 F2]; (split; [congruence|by eapply framed_trans]).
Qed.

Lemma up_from_mono r q env env' : r ≤ q → is_X r = is_X q → up_from q env env' → up_from r env env'.
Proof.
  unfold up_from, ZREG_SIZE. intros Hr ->. destruct (is_X q); intros [H1 F1]; (split; [done|]); eapply framed_widen; try exact F1; lia.
Qed.

(** What is below, or of the other kind, stays. *)
Lemma rd_up_from r q n env env' : areg_ok q → (is_X q = is_X r → q < r) → n ≤ 8 → up_from r env env' →
  rd_a64 env' q n = rd_a64 env q n.
Proof.
  unfold up_from, rd_a64, is_X. intros [Hq|Hq] Hlt Hn; [rewrite (Xreg_ptr q Hq)|rewrite (qreg_ptr q Hq)]; unfold TE_X0, TE_Q0, ZREG_SIZE in *.
  - destruct (Z.leb_spec 33 r); intros [H1 F1]; [|by rewrite H1]. apply F1. apply Forall_singleton. cbn.
    assert (q < r) by (apply Hlt; lia). lia.
  - destruct (Z.leb_spec 33 r); intros [H1 F1]; [by rewrite H1|]. apply F1. apply Forall_singleton. cbn.
    assert (q < r) by (apply Hlt; lia). lia.
Qed.

(** One register is written, possibly into the next one. *)
Lemma wr_a64_up env a bs : env_ok env → areg_ok a → bytes_ok bs → (8 ≤ length bs ≤ 16)%nat →
  (is_X a = true → (a - TE_X0) * 8 + Z.of_nat (length bs) ≤ 64) →
  ∃ env', wr_a64 env a bs = Ret env' ∧ env_ok env' ∧ up_from a env env' ∧
    ∀ n, 0 ≤ n ≤ 8 → rd_a64 env' a n = Ret (take (Z.to_nat n) bs).
Proof.
  intros (Hx & Hz & Hbx & Hbz) Ha Hb Hl Hfit. unfold wr_a64, rd_a64, up_from, is_X in *. unfold TE_X0, TE_Q0, ZREG_SIZE in *.
  destruct Ha as [Ha|Ha]; [rewrite (Xreg_ptr a Ha)|rewrite (qreg_ptr a Ha)]; unfold TE_X0, TE_Q0, ZREG_SIZE in *.
  - destruct (Z.leb_spec 33 a); [|lia]. specialize (Hfit eq_refl).
    destruct (wr_copy (xregs env) ((a - 33) * 8) bs ltac:(lia) ltac:(lia)) as (x' & Hw & _ & Hrd). rewrite Hw. eexists. split; [done|]. cbn [xregs zregs].
    split_and!; [split_and!; cbn [xregs zregs]; try done|done|by eapply framed_wr; [exact Hw|lia..]|].
    + by rewrite (wr_length _ _ _ _ Hw).
    + by eapply wr_bytes_ok; [| |exact Hw].
    + intros n Hn. apply Hrd. lia.
  - destruct (Z.leb_spec 33 a); [lia|].
    destruct (wr_copy (zregs env) ((a - 17) * 256) bs ltac:(lia) ltac:(lia)) as (x' & Hw & _ & Hrd). rewrite Hw. eexists. split; [done|]. cbn [xregs zregs].
    split_and!; [split_and!; cbn [xregs zregs]; try done|done|by eapply framed_wr; [exact Hw|lia..]|].
    + by rewrite (wr_length _ _ _ _ Hw).
    + by eapply wr_bytes_ok; [| |exact Hw].
    + intros n Hn. apply Hrd. lia.
Qed.

(** ** The relation *)

Definition apart (a n b k : Z) : Prop := a + n ≤ b ∨ b + k ≤ a.

Section x2a_sim.
(** The emulated CPU, the saved registers, the stack arguments of the host
    caller and the new argument area of the guest; [s0] is the state at the
    call. *)
Context (OFF_ZREGS envp ctxp hsp xroom gsp groom : Z) (s0 : cpu).
Abbreviation m0 := (cmem s0).
Abbreviation rsp := (gpr s0 TCG_REG_RSP).

Record x2a_layout : Prop := mk_x2a_layout {
  xl_env : layout OFF_ZREGS envp (λ _, None) m0 rsp 8;
  xl_ctx : 0 ≤ ctxp ∧ ctxp + SIZEOF_CONTEXT < 2 ^ 64 ∧ (16 | ctxp);
  xl_stack : 0 ≤ hsp ∧ hsp + xroom < 2 ^ 64 ∧ 0 ≤ xroom < 2 ^ 31;
  xl_area : 0 ≤ gsp ∧ gsp + groom < 2 ^ 64 ∧ 0 ≤ groom < 2 ^ 31 ∧ (16 | gsp);
  xl_env_ctx : apart envp (OFF_ZREGS + 32 * ZREG_SIZE) ctxp SIZEOF_CONTEXT;
  xl_env_stack : apart envp (OFF_ZREGS + 32 * ZREG_SIZE) hsp xroom;
  xl_env_area : apart envp (OFF_ZREGS + 32 * ZREG_SIZE) gsp groom;
  xl_area_ctx : apart gsp groom ctxp SIZEOF_CONTEXT;
  xl_area_stack : apart gsp groom hsp xroom;
  xl_area_ret : apart gsp groom rsp 8
}.

Context (Hlay : x2a_layout).
Abbreviation env_mem := (env_mem OFF_ZREGS envp).
Abbreviation env_byte := (env_byte OFF_ZREGS envp).
Abbreviation a64_off := (a64_enum_2_offset OFF_ZREGS).

Definition in_area (a : Z) : Prop := gsp ≤ a < gsp + groom.

Definition x2a_scratch (r : Z) : bool := one_of r [TCG_REG_RAX; TCG_REG_RCX; TCG_REG_R8; TCG_REG_R9].

Record x2a_sim (s : cpu) (env : CPUARMState) (area : list Z) : Prop := mk_x2a_sim {
  xs_env : gpr s TCG_REG_RDI = envp;
  xs_ctx : gpr s TCG_REG_RSI = ctxp;
  xs_gsp : gpr s TCG_REG_R10 = gsp;
  xs_hsp : gpr s TCG_REG_R11 = hsp;
  xs_u64 : ∀ r, in_u 64 (gpr s r);
  xs_gpr : ∀ r, x2a_scratch r = false → r ≠ TCG_REG_R10 → r ≠ TCG_REG_R11 → gpr s r = gpr s0 r;
  xs_xmm : ∀ k, k ≠ 0 → xmm s k = xmm s0 k;
  xs_mem : env_mem (cmem s) env;
  xs_area : rd_mem (cmem s) gsp groom = Ret area;
  xs_frame : ∀ a, ¬ env_byte a → ¬ in_area a → cmem s a = m0 a
}.

Ltac xlay := destruct Hlay as [[] ? ? ? ? ? ? ? ? ?]; unfold apart, SIZEOF_CONTEXT, ZREG_SIZE in *.

(** A state that agrees on what matters. *)
Lemma x2a_agree s s' env area : x2a_sim s env area → (∀ r, x2a_scratch r = false → gpr s' r = gpr s r) → (∀ r, in_u 64 (gpr s' r)) →
  (∀ k, k ≠ 0 → xmm s' k = xmm s k) → (∀ a, cmem s' a = cmem s a) → x2a_sim s' env area.
Proof.
  intros [] Hg Hu Hx Hm. constructor; try done; try (rewrite Hg by done; done).
  - intros r Hr H1 H2. rewrite Hg by done. auto.
  - intros k Hk. rewrite Hx by done. auto.
  - destruct xs_mem0. split; (erewrite rd_mem_ext; [done|auto]).
  - erewrite rd_mem_ext; [done|auto].
  - intros a Ha Hb. rewrite Hm. auto.
Qed.

Lemma x2a_set_gpr s env area r v : x2a_sim s env area → x2a_scratch r = true → x2a_sim (set_gpr s r v) env area.
Proof.
  intros Hs Hr. apply (x2a_agree s); try done; intros k; cbn [gpr set_gpr].
  - intros Hk. destruct (Z.eqb_spec k r) as [->|]; [congruence|done].
  - destruct (k =? r); [by apply wrap_range|apply (xs_u64 _ _ _ Hs)].
Qed.

Lemma x2a_only_reg s s' env area r v : x2a_sim s env area → x2a_scratch r = true → in_u 64 v → only_reg r v s s' → x2a_sim s' env area.
Proof.
  intros Hs Hr Hv (Hg & Hx & Hm). apply (x2a_agree s); try done; try (intros k; rewrite Hg).
  - intros Hk. destruct (Z.eqb_spec k r) as [->|]; [congruence|done].
  - destruct (k =? r); [done|apply (xs_u64 _ _ _ Hs)].
  - intros k _. by rewrite Hx.
  - intros a. by rewrite Hm.
Qed.

Lemma x2a_set_xmm s env area bs : x2a_sim s env area → x2a_sim (set_xmm s 0 bs) env area.
Proof.
  intros Hs. apply (x2a_agree s); try done; [apply (xs_u64 _ _ _ Hs)|]. intros k Hk. cbn. by destruct (Z.eqb_spec k 0).
Qed.

Lemma area_not_env a : in_area a → ¬ env_byte a.
Proof. unfold in_area, A2XSim.env_byte. xlay. lia. Qed.

(** An emulated register or a part of the area is written. *)
Lemma x2a_env_write s env area a bs env' : x2a_sim s env area → env_written OFF_ZREGS envp (cmem s) a bs env' →
  ∃ m, wr_mem (cmem s) a bs = Ret m ∧ x2a_sim (set_mem s m) env' area.
Proof.
  intros Hs (m & Hm & He & Hout). exists m. split; [done|]. destruct Hs. constructor; cbn [gpr xmm cmem set_mem]; try done.
  - rewrite <- xs_area0. apply rd_mem_ext. intros x Hx. apply Hout. by apply area_not_env.
  - intros x Hx Hg. rewrite Hout by done. auto.
Qed.

Lemma x2a_wr_a64 s env area num bs env' : x2a_sim s env area → wr_a64 env num bs = Ret env' →
  ∃ m, wr_mem (cmem s) (envp + a64_off num) bs = Ret m ∧ x2a_sim (set_mem s m) env' area.
Proof.
  intros Hs Hw. eapply x2a_env_write; [done|]. eapply env_mem_wr_a64; [apply (xl_env Hlay)|apply (xs_mem _ _ _ Hs)|done].
Qed.

Lemma x2a_wr_area s env area off bs area' : x2a_sim s env area → wr area off bs = Ret area' →
  ∃ m, wr_mem (cmem s) (gsp + off) bs = Ret m ∧ x2a_sim (set_mem s m) env area'.
Proof.
  intros Hs Hw. assert (0 ≤ groom) as H0 by (xlay; lia). pose proof (xs_area _ _ _ Hs) as Ha.
  pose proof (wr_inv _ _ _ _ Hw) as (Ho & Hb & _). pose proof (rd_mem_length _ _ _ _ H0 Ha).
  destruct (wr_mem_at _ _ _ _ _ _ _ H0 Ha Hw) as [m Hm]. exists m. split; [done|].
  destruct Hs. constructor; cbn [gpr xmm cmem set_mem]; try done.
  - destruct xs_mem0 as [Hx Hz]. split; [rewrite <- Hx|rewrite <- Hz]; eapply rd_wr_mem_other; try exact Hm; xlay; lia.
  - by eapply rd_wr_mem_at.
  - intros x Hx Hg. erewrite wr_mem_other; [by apply xs_frame0|exact Hm|]. unfold in_area in Hg. lia.
Qed.

(** ** Loads *)

Context (ctx stk : list Z).
Context (Hctx : rd_mem m0 ctxp SIZEOF_CONTEXT = Ret ctx) (Hstk : rd_mem m0 hsp xroom = Ret stk).
Context (Hcok : bytes_ok ctx) (Hsok : bytes_ok stk).
Abbreviation args := (space_of ctx stk).

Lemma ctx_length : Z.of_nat (length ctx) = SIZEOF_CONTEXT.
Proof using Hctx. eapply rd_mem_length; [|exact Hctx]. done. Qed.

Lemma stk_length : Z.of_nat (length stk) = xroom.
Proof using Hstk Hlay. eapply rd_mem_length; [|exact Hstk]. xlay. lia. Qed.

Lemma x2a_rd_m0 s env area a n : x2a_sim s env area → apart envp (OFF_ZREGS + 32 * ZREG_SIZE) a n → apart gsp groom a n → 0 ≤ n →
  rd_mem (cmem s) a n = rd_mem m0 a n.
Proof using Hlay.
  intros Hs H1 H2 Hn. apply rd_mem_ext. intros x Hx. apply (xs_frame _ _ _ Hs); unfold A2XSim.env_byte, in_area; xlay; lia.
Qed.

Lemma x2a_rd_ctx s env area off n bs : x2a_sim s env area → 0 ≤ n → rd ctx off n = Ret bs → rd_mem (cmem s) (ctxp + off) n = Ret bs.
Proof using Hlay Hctx.
  intros Hs Hn Hr. apply (rd_mem_at _ _ SIZEOF_CONTEXT ctx); try done. by rewrite (x2a_rd_m0 s env area) by (done || apply Hlay).
Qed.

Lemma x2a_rd_stk s env area off n bs : x2a_sim s env area → 0 ≤ n → rd stk off n = Ret bs → rd_mem (cmem s) (hsp + off) n = Ret bs.
Proof using Hlay Hstk.
  intros Hs Hn Hr. assert (0 ≤ xroom) by (xlay; lia). apply (rd_mem_at _ _ xroom stk); try done.
  by rewrite (x2a_rd_m0 s env area) by (done || apply Hlay).
Qed.

Lemma ea_small s r a off : gpr s r = a → 0 ≤ a + off < 2 ^ 64 → ea s r off = a + off.
Proof using. clear. intros Hr H. unfold ea. rewrite Hr. by apply wrap_small. Qed.

Lemma ctx_off_range r : xreg_ok r → 0 ≤ x64_enum_2_offset r ∧ x64_enum_2_offset r + xwidth r ≤ SIZEOF_CONTEXT.
Proof using.
  clear. intros [(j & Hj & ->)|Hr].
  - assert (j = 0 ∨ j = 1 ∨ j = 2 ∨ j = 3 ∨ j = 4 ∨ j = 5) as Hc by lia. destruct_or! Hc; subst j; by vm_compute.
  - unfold TE_XMM0, TE_XMM7 in Hr.
    assert (r = 18 ∨ r = 19 ∨ r = 20 ∨ r = 21 ∨ r = 22 ∨ r = 23 ∨ r = 24 ∨ r = 25) as Hc by lia. destruct_or! Hc; subst r; by vm_compute.
Qed.

Lemma xmm_ctx_off r : TE_XMM0 ≤ r ≤ TE_XMM7 → x64_enum_2_offset r = CTX_XMM0 + 16 * (r - TE_XMM0).
Proof using.
  clear. unfold TE_XMM0, TE_XMM7. intros Hr.
  assert (r = 18 ∨ r = 19 ∨ r = 20 ∨ r = 21 ∨ r = 22 ∨ r = 23 ∨ r = 24 ∨ r = 25) as Hc by lia. by destruct_or! Hc; subst r.
Qed.

Lemma args_bytes_ok : bytes_ok args.
Proof using Hcok Hsok.
  unfold space_of, bytes_ok. apply Forall_app. split; [|done]. unfold slices, ctx_parts, slice. cbn [fmap list_fmap mjoin list_join].
  repeat (apply Forall_app_2; [by apply Forall_take, Forall_drop|]). by apply Forall_nil_2.
Qed.

(** The code leaves [v] in RAX, or [bs] in XMM0. *)
Definition loads (es : list emit) (v : Z) : Prop := ∀ s env area, x2a_sim s env area →
  ∃ s', exec_emits es s = Ret s' ∧ x2a_sim s' env area ∧ gpr s' TCG_REG_RAX = v.
Definition loads128 (e : emit) (bs : list Z) : Prop := ∀ s env area, x2a_sim s env area →
  ∃ s', exec_emit e s = Ret s' ∧ x2a_sim s' env area ∧ xmm s' 0 = bs.

Lemma loads_ld b off bs : bytes_ok bs → length bs = 8%nat →
  (∀ s env area, x2a_sim s env area → cload s (ea s b off) 8 = Ret bs) → loads [E_ld TCG_TYPE_PTR TCG_REG_RAX b off] (le_val bs).
Proof using.
  intros Hb Hl H s env area Hs. eexists. split_and!.
  - cbn [exec_emits]. rewrite (exec_ld _ _ _ _ _ bs) by (by eapply H). reflexivity.
  - by apply x2a_set_gpr.
  - cbn. apply wrap_small. apply le_val_u64; [done|lia].
Qed.

Lemma rd_args_8 off bs : rd args off 8 = Ret bs → bytes_ok bs ∧ length bs = 8%nat.
Proof using Hcok Hsok.
  intros Hr. split; [by eapply rd_bytes_ok; [apply args_bytes_ok|]|]. apply rd_length in Hr; lia.
Qed.

Lemma loads_ctx x bs : xreg_ok x → rd args (x64_enum_2_ptr x) 8 = Ret bs → loads [ld_x86_64_enum TCG_REG_RAX x] (le_val bs).
Proof using Hlay Hctx Hcok Hsok.
  intros Hx Hr. destruct (rd_args_8 _ _ Hr). pose proof (ctx_off_range x Hx). assert (8 ≤ xwidth x) by (unfold xwidth; case_match; lia).
  apply loads_ld; [done..|]. intros s env area Hs. unfold cload.
  rewrite (ea_small s _ ctxp) by (apply Hs || xlay; lia). eapply x2a_rd_ctx; [done|lia|].
  rewrite space_of_reg in Hr; [done|apply ctx_length|done|lia].
Qed.

Lemma loads_stk off bs : 0 ≤ off → off + 8 ≤ xroom → rd args (SIZEOF_REGISTER_ARGS + off) 8 = Ret bs →
  loads [E_ld TCG_TYPE_PTR TCG_REG_RAX x86_64_rsp_holder off] (le_val bs).
Proof using Hlay Hctx Hstk Hcok Hsok.
  intros H0 Ho Hr. destruct (rd_args_8 _ _ Hr). apply loads_ld; [done..|]. intros s env area Hs. unfold cload.
  rewrite (ea_small s _ hsp) by (apply Hs || xlay; lia). eapply x2a_rd_stk; [done|lia|].
  rewrite space_of_stack in Hr; [done|apply ctx_length|lia|lia|]. by rewrite stk_length.
Qed.

Lemma loads_addr off : 0 ≤ off → hsp + off < 2 ^ 64 →
  loads [E_mov TCG_TYPE_PTR TCG_REG_RAX x86_64_rsp_holder; E_addi TCG_REG_RAX off] (hsp + off).
Proof using Hlay.
  intros Ho Hb s env area Hs. cbn [exec_emits]. rewrite exec_mov by done. cbn [mbind outcome_bind].
  pose proof (xs_hsp _ _ _ Hs) as Hh. unfold x86_64_rsp_holder. rewrite Hh.
  set (s1 := set_gpr s TCG_REG_RAX _). assert (x2a_sim s1 env area) as Hs1 by (by apply x2a_set_gpr).
  assert (gpr s1 TCG_REG_RAX = hsp) as Hr1 by (cbn; rewrite wrap_wrap by lia; apply wrap_small; rewrite <- Hh; apply Hs).
  destruct (exec_addi TCG_REG_RAX off s1) as (s2 & Hs2 & Ho2); [apply Hs1|]. rewrite Hs2. rewrite Hr1 in Ho2.
  rewrite wrap_small in Ho2 by (xlay; unfold in_u; lia). exists s2. split_and!; [done| |].
  - eapply x2a_only_reg; [exact Hs1| | |exact Ho2]; [done|]. xlay. unfold in_u. lia.
  - by rewrite (proj1 Ho2).
Qed.

Lemma loads128_ctx x bs : TE_XMM0 ≤ x ≤ TE_XMM7 → rd args (x64_enum_2_ptr x) 16 = Ret bs →
  loads128 (E_ld128 TCG_REG_XMM0 TCG_REG_RSI (x64_enum_2_offset x)) bs.
Proof using Hlay Hctx.
  intros Hx Hr s env area Hs. pose proof (xmm_ctx_off x Hx) as Hoff. pose proof (proj2 (xmm_ptr x Hx)) as Hi.
  assert (xreg_ok x) as Hxr by (by right). unfold TE_XMM0, TE_XMM7 in Hx.
  assert (ea s TCG_REG_RSI (x64_enum_2_offset x) = ctxp + x64_enum_2_offset x) as Hea.
  { apply ea_small; [apply Hs|]. rewrite Hoff. unfold CTX_XMM0, TE_XMM0. xlay. lia. }
  rewrite space_of_reg in Hr; [|apply ctx_length|done|unfold xwidth; rewrite Hi; lia].
  eexists. split_and!; [apply exec_ld128| |].
  - rewrite Hea, Hoff. unfold CTX_XMM0. apply Z.divide_add_r; [apply Hlay|]. apply Z.divide_add_r; [by exists 8|by apply Z.divide_factor_l].
  - unfold cload. rewrite Hea. eapply x2a_rd_ctx; [done|lia|done].
  - by apply x2a_set_xmm.
  - done.
Qed.

(** ** Stores *)

Definition x2a_moves (es : list emit) (env : CPUARMState) (area : list Z) (env' : CPUARMState) (area' : list Z) : Prop :=
  ∀ s, x2a_sim s env area → ∃ s', exec_emits es s = Ret s' ∧ x2a_sim s' env' area'.

Lemma x2a_moves_nil env area : x2a_moves [] env area env area.
Proof using. intros s Hs. by exists s. Qed.

Lemma x2a_moves_app es1 es2 e1 a1 e2 a2 e3 a3 : x2a_moves es1 e1 a1 e2 a2 → x2a_moves es2 e2 a2 e3 a3 → x2a_moves (es1 ++ es2) e1 a1 e3 a3.
Proof using.
  intros H1 H2 s Hs. destruct (H1 s Hs) as (s1 & He1 & Hs1). destruct (H2 s1 Hs1) as (s2 & He2 & Hs2).
  exists s2. split; [|done]. by rewrite exec_emits_app, He1.
Qed.

Lemma x2a_ea_env s env area env' a bs : x2a_sim s env area → wr_a64 env a bs = Ret env' → ea s TCG_REG_RDI (a64_off a) = envp + a64_off a.
Proof using Hlay.
  intros Hs Hw. unfold wr_a64 in Hw. destruct (a64_enum_2_ptr a) as [p|] eqn:Hp; [|done].
  pose proof (env_off_range _ _ _ _ _ _ (xl_env Hlay) _ _ Hp). apply ea_small; [apply Hs|]. xlay. lia.
Qed.

Lemma x2a_ea_area s env area area' off bs : x2a_sim s env area → wr area off bs = Ret area' → (0 < length bs)%nat →
  ea s TCG_REG_R10 off = gsp + off.
Proof using Hlay.
  intros Hs (Ho & Hb & _)%wr_inv Hl. assert (0 ≤ groom) as H0 by (xlay; lia). pose proof (rd_mem_length _ _ _ _ H0 (xs_area _ _ _ Hs)).
  apply ea_small; [apply Hs|]. xlay. lia.
Qed.

Lemma store_reg es v a env env' area : loads es v → wr_a64 env a (le_bytes 8 v) = Ret env' →
  x2a_moves (es ++ [st_aarch64_enum OFF_ZREGS TCG_REG_RAX a]) env area env' area.
Proof using Hlay.
  intros Hl Hw s Hs. destruct (Hl s env area Hs) as (s1 & He & Hs1 & Hr).
  destruct (x2a_wr_a64 _ _ _ _ _ _ Hs1 Hw) as (m & Hm & Hs2). exists (set_mem s1 m). split; [|done].
  rewrite exec_emits_app, He. cbn [mbind outcome_bind exec_emits]. unfold st_aarch64_enum, st_aarch64. erewrite exec_st; [done|].
  rewrite (x2a_ea_env _ _ _ _ _ _ Hs1 Hw). by rewrite Hr.
Qed.

Lemma store_area es v off env area area' : loads es v → wr area off (le_bytes 8 v) = Ret area' →
  x2a_moves (es ++ [E_st TCG_TYPE_PTR TCG_REG_RAX aarch64_sp_holder off]) env area env area'.
Proof using Hlay.
  intros Hl Hw s Hs. destruct (Hl s env area Hs) as (s1 & He & Hs1 & Hr).
  destruct (x2a_wr_area _ _ _ _ _ _ Hs1 Hw) as (m & Hm & Hs2). exists (set_mem s1 m). split; [|done].
  rewrite exec_emits_app, He. cbn [mbind outcome_bind exec_emits]. erewrite exec_st; [done|].
  unfold aarch64_sp_holder. rewrite (x2a_ea_area _ _ _ _ _ _ Hs1 Hw) by (rewrite length_le_bytes; lia). by rewrite Hr.
Qed.

Lemma store128_reg e bs a env env' area : loads128 e bs → (16 | a64_off a) → wr_a64 env a bs = Ret env' →
  x2a_moves [e; E_st128 TCG_REG_XMM0 TCG_REG_RDI (a64_off a)] env area env' area.
Proof using Hlay.
  intros Hl Hal Hw s Hs. destruct (Hl s env area Hs) as (s1 & He & Hs1 & Hr).
  destruct (x2a_wr_a64 _ _ _ _ _ _ Hs1 Hw) as (m & Hm & Hs2). exists (set_mem s1 m). split; [|done].
  cbn [exec_emits]. rewrite He. cbn [mbind outcome_bind]. erewrite exec_st128; [done| |]; rewrite (x2a_ea_env _ _ _ _ _ _ Hs1 Hw).
  - apply Z.divide_add_r; [apply (xl_env Hlay)|done].
  - change (TCG_REG_XMM0 - 16) with 0. by rewrite Hr.
Qed.

Lemma store128_area e bs off env area area' : loads128 e bs → (0 < length bs)%nat → (16 | gsp + off) → wr area off bs = Ret area' →
  x2a_moves [e; E_st128 TCG_REG_XMM0 aarch64_sp_holder off] env area env area'.
Proof using Hlay.
  intros Hl Hn Hal Hw s Hs. destruct (Hl s env area Hs) as (s1 & He & Hs1 & Hr).
  destruct (x2a_wr_area _ _ _ _ _ _ Hs1 Hw) as (m & Hm & Hs2). exists (set_mem s1 m). split; [|done].
  cbn [exec_emits]. rewrite He. cbn [mbind outcome_bind]. unfold aarch64_sp_holder.
  erewrite exec_st128; [done| |]; rewrite (x2a_ea_area _ _ _ _ _ _ Hs1 Hw) by done; [done|]. change (TCG_REG_XMM0 - 16) with 0. by rewrite Hr.
Qed.

(** ** Blocks *)

Lemma exec_mov_only d r s : (r =? d) = false → (r <? 16) = true → in_u 64 (gpr s r) →
  ∃ s', exec_emit (E_mov TCG_TYPE_I64 d r) s = Ret s' ∧ only_reg d (gpr s r) s s'.
Proof using.
  clear. intros H1 H2 Hu. rewrite exec_mov by done. eexists. split; [done|]. split_and!; [|done|done]. intros k. cbn [gpr set_gpr].
  by rewrite !(wrap_small 64) by (rewrite ?(wrap_small 64) by done; done).
Qed.

Lemma exec_movi_only r v s : in_u 64 v → ∃ s', exec_emit (E_movi TCG_TYPE_I64 r v) s = Ret s' ∧ only_reg r v s s'.
Proof using.
  clear. intros Hu. destruct (exec_movi TCG_TYPE_I64 r v s) as [b ->]. eexists. split; [done|]. split_and!; [|done|done]. intros k.
  cbn [gpr set_gpr set_zf]. change (wbits (type_width TCG_TYPE_I64)) with 64. by rewrite !(wrap_small 64) by (rewrite ?(wrap_small 64) by done; done).
Qed.

(** Some registers have the given values, the others their old ones. *)
Fixpoint set_in (l : list (Z * Z)) (k d : Z) : Z :=
  match l with [] => d | (r, v) :: l => if k =? r then v else set_in l k d end.
Definition regs_set (l : list (Z * Z)) (s s' : cpu) : Prop :=
  (∀ k, gpr s' k = set_in l k (gpr s k)) ∧ xmm s' = xmm s ∧ cmem s' = cmem s.

Lemma regs_set_nil s : regs_set [] s s.
Proof using. done. Qed.

Lemma regs_set_cons l r v s s1 s2 : regs_set l s s1 → only_reg r v s1 s2 → regs_set ((r, v) :: l) s s2.
Proof using.
  clear. intros (H1 & Hx1 & Hm1) (H2 & Hx2 & Hm2). split_and!; [|congruence..]. intros k. rewrite H2, H1. done.
Qed.

Definition copy_setup (n ox oa : Z) : list emit :=
  [E_mov TCG_TYPE_PTR TCG_REG_R8 TCG_REG_RDI; E_mov TCG_TYPE_PTR TCG_REG_R9 TCG_REG_RSI;
   E_movi TCG_TYPE_I64 TCG_REG_RCX n;
   E_mov TCG_TYPE_PTR TCG_REG_RSI x86_64_rsp_holder; E_addi TCG_REG_RSI ox;
   E_mov TCG_TYPE_PTR TCG_REG_RDI aarch64_sp_holder; E_addi TCG_REG_RDI oa].

Ltac reg_value H := rewrite (proj1 H); cbn [set_in Z.eqb Pos.eqb TCG_REG_RAX TCG_REG_RCX TCG_REG_RDI TCG_REG_RSI TCG_REG_R8 TCG_REG_R9 TCG_REG_R10 TCG_REG_R11]; try done.

Lemma copy_setup_ok s env area n ox oa : x2a_sim s env area → in_u 64 n → in_u 64 (hsp + ox) → in_u 64 (gsp + oa) →
  ∃ s', exec_emits (copy_setup n ox oa) s = Ret s' ∧
    regs_set [(TCG_REG_RDI, gsp + oa); (TCG_REG_RDI, gsp); (TCG_REG_RSI, hsp + ox); (TCG_REG_RSI, hsp); (TCG_REG_RCX, n); (TCG_REG_R9, ctxp); (TCG_REG_R8, envp)] s s'.
Proof using.
  clear Hctx Hstk Hcok Hsok. intros Hs Hn Hx Ha. pose proof (xs_u64 _ _ _ Hs) as Hu. pose proof (xs_env _ _ _ Hs) as Henv. pose proof (xs_ctx _ _ _ Hs) as Hcx.
  pose proof (xs_gsp _ _ _ Hs) as Hg. pose proof (xs_hsp _ _ _ Hs) as Hh.
  assert (in_u 64 envp ∧ in_u 64 ctxp ∧ in_u 64 gsp ∧ in_u 64 hsp) as (Ue & Uc & Ug & Uh) by (rewrite <- Henv, <- Hcx, <- Hg, <- Hh; auto).
  pose proof (regs_set_nil s) as R0.
  destruct (exec_mov_only TCG_REG_R8 TCG_REG_RDI s) as (s1 & E1 & O1); [done..|auto|]. rewrite Henv in O1. pose proof (regs_set_cons _ _ _ _ _ _ R0 O1) as R1.
  assert (gpr s1 TCG_REG_RSI = ctxp) as G1 by (by reg_value R1).
  destruct (exec_mov_only TCG_REG_R9 TCG_REG_RSI s1) as (s2 & E2 & O2); [done..|by rewrite G1|]. rewrite G1 in O2. pose proof (regs_set_cons _ _ _ _ _ _ R1 O2) as R2.
  destruct (exec_movi_only TCG_REG_RCX n s2 Hn) as (s3 & E3 & O3). pose proof (regs_set_cons _ _ _ _ _ _ R2 O3) as R3.
  assert (gpr s3 TCG_REG_R11 = hsp) as G3 by (by reg_value R3).
  destruct (exec_mov_only TCG_REG_RSI TCG_REG_R11 s3) as (s4 & E4 & O4); [done..|by rewrite G3|]. rewrite G3 in O4. pose proof (regs_set_cons _ _ _ _ _ _ R3 O4) as R4.
  assert (gpr s4 TCG_REG_RSI = hsp) as G4 by (by reg_value R4).
  destruct (exec_addi TCG_REG_RSI ox s4) as (s5 & E5 & O5); [by rewrite G4|]. rewrite G4, wrap_small in O5 by done. pose proof (regs_set_cons _ _ _ _ _ _ R4 O5) as R5.
  assert (gpr s5 TCG_REG_R10 = gsp) as G5 by (by reg_value R5).
  destruct (exec_mov_only TCG_REG_RDI TCG_REG_R10 s5) as (s6 & E6 & O6); [done..|by rewrite G5|]. rewrite G5 in O6. pose proof (regs_set_cons _ _ _ _ _ _ R5 O6) as R6.
  assert (gpr s6 TCG_REG_RDI = gsp) as G6 by (by reg_value R6).
  destruct (exec_addi TCG_REG_RDI oa s6) as (s7 & E7 & O7); [by rewrite G6|]. rewrite G6, wrap_small in O7 by done. pose proof (regs_set_cons _ _ _ _ _ _ R6 O7) as R7.
  exists s7. split; [|exact R7]. unfold copy_setup, aarch64_sp_holder, x86_64_rsp_holder.
  by rewrite (exec_emits_cons _ _ _ _ E1), (exec_emits_cons _ _ _ _ E2), (exec_emits_cons _ _ _ _ E3), (exec_emits_cons _ _ _ _ E4),
    (exec_emits_cons _ _ _ _ E5), (exec_emits_cons _ _ _ _ E6), (exec_emits_cons _ _ _ _ E7).
Qed.

(** [rep movsb], then RSI and RDI are restored. *)
Lemma copy_restore s n src dst v : gpr s TCG_REG_RCX = n → gpr s TCG_REG_RSI = src → gpr s TCG_REG_RDI = dst →
  in_u 64 (gpr s TCG_REG_R8) → in_u 64 (gpr s TCG_REG_R9) → 0 < n → 0 ≤ src → src + n < 2 ^ 64 → 0 ≤ dst → dst + n < 2 ^ 64 →
  apart src n dst n → rd_mem (cmem s) src n = Ret v → mapped (cmem s) dst n = true →
  ∃ s', exec_emits [E_out8 [0xf3; 0xa4]; E_mov TCG_TYPE_PTR TCG_REG_RSI TCG_REG_R9; E_mov TCG_TYPE_PTR TCG_REG_RDI TCG_REG_R8] s = Ret s' ∧
    (∀ k, gpr s' k = if k =? TCG_REG_RDI then gpr s TCG_REG_R8 else if k =? TCG_REG_RSI then gpr s TCG_REG_R9
                     else if k =? TCG_REG_RCX then 0 else gpr s k) ∧ xmm s' = xmm s ∧
    (∀ x, dst ≤ x < dst + n → cmem s' x = v !! Z.to_nat (x - dst)) ∧ (∀ x, x < dst ∨ dst + n ≤ x → cmem s' x = cmem s x).
Proof using.
  clear. intros Hc Hsi Hdi U8 U9 Hn Hs0 Hs1 Hd0 Hd1 Hap Hv Hm. cbn [exec_emits]. rewrite exec_rep_movsb. unfold rep_movsb. rewrite Hc, Hsi, Hdi.
  assert (Z.of_nat (length v) = n) as Hl by (eapply rd_mem_length; [|exact Hv]; lia).
  destruct (copy_up_ok (Z.to_nat n) (cmem s) dst src v) as (m' & -> & Hin & Hout); try rewrite Z2Nat.id by lia; try done.
  rewrite !Z2Nat.id in Hin, Hout by lia. cbn [mbind outcome_bind]. rewrite exec_mov by done. cbn [mbind outcome_bind]. rewrite exec_mov by done.
  eexists. split; [done|]. cbn [gpr xmm cmem set_gpr set_mem TCG_REG_RSI TCG_REG_RDI TCG_REG_RCX TCG_REG_R8 TCG_REG_R9 Z.eqb Pos.eqb]. split_and!; [|done..].
  intros k. unfold TCG_REG_R8, TCG_REG_R9 in *. rewrite !(wrap_small 64) by (rewrite ?(wrap_small 64); done). by repeat case_match.
Qed.

Lemma x2a_copy_ok xx aa n ox oa v env area area' : te_get_arg_size xx = n → te_get_arg_size aa = n → te_get_mem xx = ox → te_get_mem aa = oa →
  0 < n → 0 ≤ ox → ox + n ≤ xroom → rd args (SIZEOF_REGISTER_ARGS + ox) n = Ret v → wr area oa v = Ret area' →
  ∃ es, x2a_arg_mem_mem xx aa = Ret es ∧ x2a_moves es env area env area'.
Proof using Hlay Hctx Hstk.
  intros Hx Ha Hox Hoa Hn Ho Hb Hr Hw. unfold x2a_arg_mem_mem. rewrite Hx, Ha, Hox, Hoa, Z.eqb_refl. eexists. split; [done|]. intros s Hs.
  rewrite space_of_stack in Hr by (try apply ctx_length; try rewrite stk_length; lia).
  assert (0 ≤ n) as Hn0 by lia. pose proof (rd_length _ _ _ _ Hn0 Hr) as Hvl. pose proof (wr_inv _ _ _ _ Hw) as (Ho' & Hb' & _).
  assert (0 ≤ groom) as H0 by (xlay; lia). pose proof (rd_mem_length _ _ _ _ H0 (xs_area _ _ _ Hs)) as Hal.
  assert (in_u 64 n ∧ in_u 64 (hsp + ox) ∧ in_u 64 (gsp + oa)) as (Un & Ux & Ua) by (xlay; unfold in_u; lia).
  destruct (copy_setup_ok s env area n ox oa Hs Un Ux Ua) as (s1 & E1 & R1).
  destruct (copy_restore s1 n (hsp + ox) (gsp + oa) v) as (s2 & E2 & G2 & X2 & Hin & Hout); try (by reg_value R1); try lia; try (xlay; lia).
  1,2: reg_value R1; [rewrite <- (xs_env _ _ _ Hs) || rewrite <- (xs_ctx _ _ _ Hs); apply Hs].
  { rewrite (proj2 (proj2 R1)). eapply x2a_rd_stk; [done|lia|done]. }
  { rewrite (proj2 (proj2 R1)). eapply mapped_sub; [eapply rd_mem_mapped; [exact H0|apply Hs]|lia..]. }
  exists s2. split.
  { change (exec_emits (copy_setup n ox oa ++ [E_out8 [0xf3; 0xa4]; E_mov TCG_TYPE_PTR TCG_REG_RSI TCG_REG_R9; E_mov TCG_TYPE_PTR TCG_REG_RDI TCG_REG_R8]) s = Ret s2).
    by rewrite exec_emits_app, E1. }
  destruct (x2a_wr_area _ _ _ _ _ _ Hs Hw) as (m & Hm & Hs2). apply (x2a_agree (set_mem s m)); [done|..].
  - intros r Hr'. rewrite G2. destruct (Z.eqb_spec r TCG_REG_RDI) as [->|]; [reg_value R1; symmetry; apply Hs|].
    destruct (Z.eqb_spec r TCG_REG_RSI) as [->|]; [reg_value R1; symmetry; apply Hs|].
    destruct (Z.eqb_spec r TCG_REG_RCX) as [->|]; [done|]. rewrite (proj1 R1). cbn [set_in gpr set_mem].
    unfold x2a_scratch, one_of in Hr'. cbn [existsb] in Hr'. by repeat case_match; btests.
  - assert (in_u 64 envp ∧ in_u 64 ctxp ∧ in_u 64 gsp ∧ in_u 64 hsp) as (? & ? & ? & ?)
      by (rewrite <- (xs_env _ _ _ Hs), <- (xs_ctx _ _ _ Hs), <- (xs_gsp _ _ _ Hs), <- (xs_hsp _ _ _ Hs); split_and!; apply Hs).
    intros r. rewrite G2, !(proj1 R1). cbn [set_in]. repeat case_match; try done; apply Hs.
  - intros k _. by rewrite X2, (proj1 (proj2 R1)).
  - intros a. cbn [cmem set_mem]. destruct (decide (gsp + oa ≤ a < gsp + oa + n)).
    + rewrite Hin by done. symmetry. eapply wr_mem_same; [exact Hm|]. by rewrite Hvl.
    + rewrite Hout, (proj2 (proj2 R1)) by lia. symmetry. eapply wr_mem_other; [exact Hm|]. rewrite Hvl. lia.
Qed.
End x2a_sim.
