(* ===== verification/X2AArg.v ===== *)
(** * One argument of a call from x86-64 to AArch64

    For every combination of places the code for one argument stores the value
    where the AArch64 callee looks, and spoils nothing below it.  [stores_ok]
    excludes what the code does not handle: HFAs of several floats in S
    registers, [movaps] to a place that is no multiple of 16, and stores
    beyond the end of the argument area. *)

From S2P Require Import Prelude Bytes ABIArgInfo FfiTypes Layout Placement AAPrepCif HFA AAAlloc XXPrepCif XXClass XXAlloc CrossABI DyBridge DyEntry DyStep DyCorrect Memory X86 Encoder Machine A2XCode A2XSim A2XStep A2XArg X2ACode X2ASim.

(** ** What an argument's own place holds *)

Definition aa_bytes (c : cty) (pa : place) (env : CPUARMState) (area : list Z) : outcome (list Z) :=
  match pa with
  | OnStack off _ => rd area off (stack_size c)
  | InRegs rs =>
      if by_reference c then gather (λ r, rd_a64 env r 8) rs.*1
      else aa_arg_value env (λ _, None) 0 c (slot_info pa false (csize c))
  end.

(** The arguments before another one are below it. *)
Definition below (c : cty) (pa pa' : place) : Prop :=
  match pa, pa' with
  | OnStack o _, OnStack o' _ => o + stack_size c ≤ o'
  | InRegs rs, InRegs ((q, _) :: _) => ∀ r, r ∈ rs.*1 → is_X r = is_X q → r < q
  | _, _ => True
  end.

(** Only the place of the argument and what is above it changes. *)
Definition x2a_touched (pa : place) (env : CPUARMState) (area : list Z) (env' : CPUARMState) (area' : list Z) : Prop :=
  env_ok env' ∧
  match pa with
  | OnStack off _ => env' = env ∧ framed [(off, Z.of_nat (length area) - off)] area area'
  | InRegs [] => env' = env ∧ area' = area
  | InRegs ((r, _) :: _) => area' = area ∧ up_from r env env'
  end.

Lemma gather_up r rs env env' n : Forall areg_ok rs → (∀ q, q ∈ rs → is_X q = is_X r → q < r) → n ≤ 8 → up_from r env env' →
  gather (λ q, rd_a64 env' q n) rs = gather (λ q, rd_a64 env q n) rs.
Proof.
  intros Ha Hlt Hn Hup. induction Ha as [|q rs Hq Ha IH]; [done|]. rewrite !gather_cons, IH by (intros; apply Hlt; [by right|done]).
  rewrite (rd_up_from r q n env env'); [done|done| |done|done]. intros. apply Hlt; [left|done].
Qed.

(** ** Filling consecutive registers *)

Section fill.
Context (OFF_ZREGS envp ctxp hsp gsp groom : Z) (s0 : cpu).
Abbreviation moves := (x2a_moves OFF_ZREGS envp ctxp hsp gsp groom s0).

(** Iteration [j] stores [v] in the register [a], and no more than 16 bytes. *)
Definition puts_reg (f : Z → outcome (list emit)) (area : list Z) (j a : Z) (v : list Z) : Prop :=
  ∃ es bs, f j = Ret es ∧ take 8 bs = v ∧ bytes_ok bs ∧ (8 ≤ length bs ≤ 16)%nat ∧
    (is_X a = true → (a - TE_X0) * 8 + Z.of_nat (length bs) ≤ 64) ∧
    ∀ env env', wr_a64 env a bs = Ret env' → moves es env area env' area.

Lemma fill_regs f vs j base env area : env_ok env →
  TE_X0 ≤ base ∧ base + Z.of_nat (length vs) ≤ TE_X0 + 8 ∨ TE_Q0 ≤ base ∧ base + Z.of_nat (length vs) ≤ TE_Q0 + 8 →
  (∀ i v, vs !! i = Some v → puts_reg f area (j + Z.of_nat i) (base + Z.of_nat i) v) →
  ∃ es env', emit_loop f j (length vs) = Ret es ∧ moves es env area env' area ∧ env_ok env' ∧ up_from base env env' ∧
    gather (λ r, rd_a64 env' r 8) (seqZ base (Z.of_nat (length vs))) = Ret (mjoin vs).
Proof.
  revert j base env. induction vs as [|v vs IH]; intros j base env Henv Hb Hp.
  { exists [], env. split_and!; [done|apply x2a_moves_nil|done|apply up_from_refl|done]. }
  destruct (Hp 0%nat v eq_refl) as (es & bs & Hf & Hv & Hok & Hl & Hfit & Hm). rewrite !Z.add_0_r in *. cbn [length] in *.
  assert (areg_ok base) as Hbase by (unfold areg_ok; lia).
  destruct (wr_a64_up env base bs Henv Hbase Hok Hl Hfit) as (env1 & Hw & Henv1 & Hup & Hrd).
  destruct (IH (j + 1) (base + 1) env1 Henv1) as (es' & env' & Hes & Hm' & Henv' & Hup' & Hg); [lia| |].
  { intros i w Hi. specialize (Hp (S i) w Hi). replace (j + 1 + Z.of_nat i) with (j + Z.of_nat (S i)) by lia.
    by replace (base + 1 + Z.of_nat i) with (base + Z.of_nat (S i)) by lia. }
  assert (is_X base = is_X (base + 1)) as Hbank by (unfold is_X, TE_X0, TE_Q0 in *; repeat case_match; btests; lia).
  exists (es ++ es'), env'. split_and!; [by apply emit_loop_S|by eapply x2a_moves_app; [apply Hm|]|done| |].
  - eapply up_from_trans; [done|]. eapply up_from_mono; [|done|done]. lia.
  - rewrite seqZ_S, gather_cons, Hg, (rd_up_from (base + 1) base 8 env1 env'), Hrd by (done || lia). cbn [mbind outcome_bind].
    by rewrite <- Hv.
Qed.
End fill.

Section arg.
Context (OFF_ZREGS envp ctxp hsp xroom gsp groom : Z) (s0 : cpu).
Context (Hlay : x2a_layout OFF_ZREGS envp ctxp hsp xroom gsp groom s0).
Context (ctx stk : list Z).
Context (Hctx : rd_mem (cmem s0) ctxp SIZEOF_CONTEXT = Ret ctx) (Hstk : rd_mem (cmem s0) hsp xroom = Ret stk).
Context (Hcok : bytes_ok ctx) (Hsok : bytes_ok stk).
Abbreviation args := (space_of ctx stk).
Abbreviation moves := (x2a_moves OFF_ZREGS envp ctxp hsp gsp groom s0).
Abbreviation a64_off := (a64_enum_2_offset OFF_ZREGS).
Context (c : cty) (Hval : value_type c = true).
Abbreviation xx_word px := (slot_info px false (csize c)).
Abbreviation aa_word pa := (slot_info pa (by_reference c) (csize c)).

(** The value is there; of a large structure, its address on the host stack. *)
Definition x2a_done (px pa : place) (env : CPUARMState) (area : list Z) : Prop :=
  aa_bytes c pa env area =
    if by_reference c then match px with OnStack off _ => Ret (le_bytes 8 (hsp + off)) | InRegs _ => Stop Undefined end
    else xx_arg_value args c (xx_word px).

Definition x2a_delivered (px pa : place) (env : CPUARMState) (area : list Z) : Prop :=
  ∃ es env' area', x2a_arg OFF_ZREGS (xx_word px) (aa_word pa) = Ret es ∧ moves es env area env' area' ∧
    x2a_touched pa env area env' area' ∧ x2a_done px pa env' area'.

(** ** Reading the sources *)

Lemma args_length : Z.of_nat (length args) = SIZEOF_REGISTER_ARGS + xroom.
Proof using Hlay Hctx Hstk.
  rewrite space_of_length by (by eapply ctx_length). by rewrite (stk_length _ _ _ _ _ _ _ _ Hlay _ Hstk).
Qed.

(** The eight bytes at an offset. *)
Abbreviation eight off := (slice args off 8).

Lemma rd_args_slice off n : 0 ≤ off → 0 ≤ n → off + n ≤ SIZEOF_REGISTER_ARGS + xroom →
  rd args off n = Ret (slice args off n) ∧ Z.of_nat (length (slice args off n)) = n ∧ bytes_ok (slice args off n).
Proof using Hlay Hctx Hstk Hcok Hsok.
  intros Ho Hn Hb. pose proof args_length as Hl. rewrite <- Hl in Hb. assert (rd args off n = Ret (slice args off n)) as Hr by (by rewrite rd_ok).
  split_and!; [done|by apply rd_length in Hr|]. eapply rd_bytes_ok; [|exact Hr]. by apply args_bytes_ok.
Qed.

Lemma reg_slice x n : xreg_ok x → 0 ≤ n ≤ xwidth x →
  rd args (x64_enum_2_ptr x) n = Ret (slice args (x64_enum_2_ptr x) n) ∧ Z.of_nat (length (slice args (x64_enum_2_ptr x) n)) = n ∧
  bytes_ok (slice args (x64_enum_2_ptr x) n).
Proof using Hlay Hctx Hstk Hcok Hsok.
  intros Hx Hn. destruct (reg_fp_range x Hx). pose proof (xl_stack _ _ _ _ _ _ _ _ Hlay). apply rd_args_slice; try lia. unfold OFF_RAX, SIZEOF_REGISTER_ARGS in *. lia.
Qed.

Lemma gather_slices xs : Forall xreg_ok xs →
  gather (λ r, rd args (x64_enum_2_ptr r) 8) xs = Ret (mjoin ((λ x, eight (x64_enum_2_ptr x)) <$> xs)).
Proof using Hlay Hctx Hstk Hcok Hsok.
  induction 1 as [|x xs Hx Hxs IH]; [done|]. rewrite gather_cons, IH. destruct (reg_slice x 8) as [-> _]; [done|unfold xwidth; case_match; lia|]. done.
Qed.

Lemma take_slice off n m : 0 ≤ m ≤ n → take (Z.to_nat m) (slice args off n) = slice args off m.
Proof using. clear. intros. unfold slice. rewrite take_take. f_equal. lia. Qed.

(** ** Registers to registers *)

Lemma puts_gpr f area j x a : xreg_ok x → areg_ok a → f j = Ret [ld_x86_64_enum TCG_REG_RAX x; st_aarch64_enum OFF_ZREGS TCG_REG_RAX a] →
  puts_reg OFF_ZREGS envp ctxp hsp gsp groom s0 f area j a (eight (x64_enum_2_ptr x)).
Proof using Hlay Hctx Hstk Hcok Hsok.
  intros Hx Ha Hf. destruct (reg_slice x 8 Hx) as (Hr & Hl & Hb); [unfold xwidth; case_match; lia|].
  eexists _, (eight (x64_enum_2_ptr x)). split_and!; [exact Hf|apply take_ge; lia|done|lia|lia| |].
  - unfold areg_ok, is_X, TE_X0, TE_Q0 in *. intros. btests. lia.
  - intros env env' Hw. eapply (store_reg _ _ _ _ _ _ _ _ Hlay [_]); [exact (loads_ctx _ _ _ _ _ _ _ _ Hlay _ _ Hctx Hcok Hsok _ _ Hx Hr)|]. by rewrite le_bytes_8 by (done || lia).
Qed.

Lemma off_X a : TE_X0 ≤ a < TE_X0 + 8 → a64_off a = (a - TE_X0) * 8.
Proof using. clear. intros Ha. by rewrite (env_off OFF_ZREGS a _ (Xreg_ptr a Ha)). Qed.

Lemma aligned_fits a : areg_ok a → (16 | a64_off a) → is_X a = true → (a - TE_X0) * 8 + 16 ≤ 64.
Proof using.
  clear. intros [Ha|Ha] Hd; unfold is_X; intros Hx; btests; [|unfold TE_X0, TE_Q0 in *; lia].
  rewrite off_X in Hd by done. destruct Hd as [z Hz]. unfold TE_X0 in *. lia.
Qed.

Lemma puts_xmm f area j x a : TE_XMM0 ≤ x ≤ TE_XMM7 → areg_ok a → (16 | a64_off a) →
  f j = Ret [E_ld128 TCG_REG_XMM0 TCG_REG_RSI (x64_enum_2_offset x); E_st128 TCG_REG_XMM0 TCG_REG_RDI (a64_off a)] →
  puts_reg OFF_ZREGS envp ctxp hsp gsp groom s0 f area j a (eight (x64_enum_2_ptr x)).
Proof using Hlay Hctx Hstk Hcok Hsok.
  intros Hx Ha Hal Hf. destruct (reg_slice x 16) as (Hr & Hl & Hb); [by right|unfold xwidth; rewrite (proj2 (xmm_ptr x Hx)); lia|].
  eexists _, (slice args (x64_enum_2_ptr x) 16). split_and!; [exact Hf|apply (take_slice _ _ 8); lia|done|lia|lia| |].
  - intros HX. pose proof (aligned_fits a Ha Hal HX). lia.
  - intros env env' Hw. eapply store128_reg; [exact Hlay|exact (loads128_ctx _ _ _ _ _ _ _ _ Hlay _ _ Hctx _ _ Hx Hr)|done|done].
Qed.

(** The registers of an AArch64 place are consecutive. *)
Lemma aa_shape_seq ars : aa_shape c (InRegs ars) → ∃ base n, ars = reg_seq base n ∧ ars.*1 = seqZ base n ∧ 1 ≤ n ≤ 4 ∧
  (TE_X0 ≤ base ∧ base + n ≤ TE_X0 + 8 ∨ TE_Q0 ≤ base ∧ base + n ≤ TE_Q0 + 8).
Proof using.
  clear. intros (k & n & Hk & Hn & Hkn & Haa).
  assert (∀ b, (reg_seq b n).*1 = seqZ b n) as Hfst by (intros b; unfold reg_seq; rewrite <- list_fmap_compose; apply list_fmap_id).
  destruct (hfa c) as [[s m]|]; destruct Haa as [_ ->]; eexists _, n; (split_and!; [done|apply Hfst|lia|lia|lia]).
Qed.

Lemma x2a_regs_eq xrs ars : by_reference c = false → pairs_ok xrs → pairs_ok ars → (1 ≤ length xrs ≤ 4)%nat → length ars = length xrs →
  x2a_arg OFF_ZREGS (xx_word (InRegs xrs)) (aa_word (InRegs ars)) =
  emit_loop (x2a_reg_reg OFF_ZREGS (xx_word (InRegs xrs)) (slot_info (InRegs ars) false (csize c))) 0 (length xrs).
Proof using.
  clear. intros Href Hx Ha Hxl Hal. rewrite Href. unfold x2a_arg, x2a_arg_reg_reg.
  destruct (slot_regs_flags xrs false (csize c)) as [-> ->]. destruct (slot_regs_flags ars false (csize c)) as [-> ->].
  rewrite !slot_regs_num by (done || lia). rewrite Hal, !(proj2 (Z.eqb_neq 0 _)), Z.eqb_refl by lia. cbn [negb andb orb]. by rewrite Nat2Z.id.
Qed.

(** The value that [n] registers or slots of eight bytes hold. *)
Lemma done_regs px ars env area bs : aa_shape c (InRegs ars) → by_reference c = false → spread_floats c = false → env_ok env →
  gather (λ r, rd_a64 env r 8) ars.*1 = Ret bs → xx_arg_value args c (xx_word px) = Ret (take (Z.to_nat (csize c)) bs) →
  x2a_done px (InRegs ars) env area.
Proof using Hval.
  intros Ha Href Hsp Henv Hg Hx. unfold x2a_done, aa_bytes. rewrite Href, Hx.
  destruct (aa_regs_value env (λ _, None) 0 Henv c Hval ars Ha Href Hsp) as (_ & _ & _ & _ & _ & Hv). by apply Hv.
Qed.

Lemma touched_regs base n env area env' : 1 ≤ n → env_ok env' → up_from base env env' →
  x2a_touched (InRegs (reg_seq base n)) env area env' area.
Proof using.
  clear. intros Hn He Hup. split; [done|]. replace n with (Z.of_nat (S (Z.to_nat (n - 1)))) by lia. by rewrite reg_seq_S.
Qed.

Lemma xreg_xmm x : xreg_ok x → is_xmm x = true → TE_XMM0 ≤ x ≤ TE_XMM7.
Proof using. clear. intros _. unfold is_xmm, in_range. intros. btests. done. Qed.

Lemma x2a_reg_reg_ok xrs ars env area room : env_ok env → xx_shape c (InRegs xrs) room → aa_shape c (InRegs ars) →
  spread_floats c = false → aligned_regs OFF_ZREGS xrs ars → x2a_delivered (InRegs xrs) (InRegs ars) env area.
Proof using Hlay Hctx Hstk Hcok Hsok Hval.
  intros Henv Hx Ha Hsp Hal. destruct Hx as (Hsz & g & s1 & Hg & Hs1 & Hgb & Hsb & ->). pose proof (by_reference_small c Hsz) as Href.
  destruct (xx_regs_facts c Hval g s1 Hsz Hg Hs1 Hgb Hsb) as (Hxok & Hxl & Hw & Hxr & Hnd). set (xrs := regs_of _ _ g s1) in *.
  destruct (aa_regs_value env (λ _, None) 0 Henv c Hval ars Ha Href Hsp) as (Haok & Hal4 & Har & Halen & _ & _).
  rewrite <- (words_align c Hval) in Halen. assert (length ars = length xrs) as Hlen by lia.
  destruct (aa_shape_seq ars Ha) as (base & n & Hars & Hfst & Hn & Hb).
  assert (Z.of_nat (length xrs) = n) as Hnx by (rewrite <- Hlen, Hars; apply reg_seq_length; lia).
  set (vs := (λ x, eight (x64_enum_2_ptr x)) <$> xrs.*1). assert (length vs = length xrs) as Hvl by (unfold vs; by rewrite !length_fmap).
  destruct (fill_regs OFF_ZREGS envp ctxp hsp gsp groom s0 (x2a_reg_reg OFF_ZREGS (xx_word (InRegs xrs)) (slot_info (InRegs ars) false (csize c))) vs 0 base env area)
    as (es & env' & Hes & Hm & Henv' & Hup & Hgat); [done|by rewrite Hvl, Hnx| |].
  - intros i v Hi. unfold vs in Hi. rewrite !list_lookup_fmap in Hi. destruct (xrs !! i) as [[x li]|] eqn:Hxi; [|done]. injection Hi as <-.
    destruct (lookup_lt_is_Some_2 ars i) as [[a ai] Hai]; [apply lookup_lt_Some in Hxi; lia|].
    pose proof (Forall_lookup_1 _ _ _ _ Hxr Hxi) as Hxr1. pose proof (Forall_lookup_1 _ _ _ _ Har Hai) as Har1. cbn [fst] in *.
    pose proof (Forall2_lookup_lr _ _ _ _ _ _ Hal Hxi Hai) as Hal1. cbn [fst] in Hal1.
    assert (base + Z.of_nat i = a) as ->.
    { assert (ars.*1 !! i = Some a) as Hai' by (by rewrite list_lookup_fmap, Hai). rewrite Hfst in Hai'. apply lookup_seqZ in Hai'. lia. }
    assert (x2a_reg_reg OFF_ZREGS (xx_word (InRegs xrs)) (slot_info (InRegs ars) false (csize c)) (0 + Z.of_nat i) =
      if is_xmm x then Ret [E_ld128 TCG_REG_XMM0 TCG_REG_RSI (x64_enum_2_offset x); E_st128 TCG_REG_XMM0 TCG_REG_RDI (a64_off a)]
      else Ret [ld_x86_64_enum TCG_REG_RAX x; st_aarch64_enum OFF_ZREGS TCG_REG_RAX a]) as Hf.
    { unfold x2a_reg_reg. rewrite (slot_get xrs _ _ i x li), (slot_get ars _ _ i a ai) by (done || lia). done. }
    destruct (is_xmm x) eqn:Hxm; [apply puts_xmm; auto; by apply xreg_xmm|by apply puts_gpr].
  - exists es, env', area. split_and!; [rewrite x2a_regs_eq by (done || lia); by rewrite <- Hvl|done|rewrite Hars; by apply touched_regs; [lia|..]|].
    eapply done_regs; try done; [by rewrite Hfst, <- Hnx, <- Hvl|]. rewrite xx_value_regs by (done || lia).
    rewrite gather_slices; [done|]. by apply Forall_fmap.
Qed.

(** ** The host stack to registers *)

Lemma slices_join l o k (m : nat) : 0 ≤ o + 8 * k →
  mjoin ((λ i, slice l (o + 8 * i) 8) <$> seqZ k (Z.of_nat m)) = slice l (o + 8 * k) (8 * Z.of_nat m).
Proof using.
  clear. revert k. induction m as [|m IH]; intros k Hk; [by rewrite Z.mul_0_r|]. rewrite seqZ_S.
  change (slice l (o + 8 * k) 8 ++ mjoin ((λ i, slice l (o + 8 * i) 8) <$> seqZ (k + 1) (Z.of_nat m)) = slice l (o + 8 * k) (8 * Z.of_nat (S m))).
  rewrite IH by lia. unfold slice. replace (Z.to_nat (o + 8 * (k + 1))) with (Z.to_nat (o + 8 * k) + 8)%nat by lia.
  rewrite <- drop_drop. replace (Z.to_nat (8 * Z.of_nat (S m))) with (8 + Z.to_nat (8 * Z.of_nat m))%nat by lia.
  change (Z.to_nat 8) with 8%nat. by rewrite take_take_drop.
Qed.

Lemma puts_stack f area j off a : 0 ≤ off → off + 8 ≤ xroom → areg_ok a →
  f j = Ret [E_ld TCG_TYPE_PTR TCG_REG_RAX x86_64_rsp_holder off; st_aarch64_enum OFF_ZREGS TCG_REG_RAX a] →
  puts_reg OFF_ZREGS envp ctxp hsp gsp groom s0 f area j a (eight (SIZEOF_REGISTER_ARGS + off)).
Proof using Hlay Hctx Hstk Hcok Hsok.
  intros Ho Hb Ha Hf. destruct (rd_args_slice (SIZEOF_REGISTER_ARGS + off) 8) as (Hr & Hl & Hok); [unfold SIZEOF_REGISTER_ARGS; lia..|].
  eexists _, (eight (SIZEOF_REGISTER_ARGS + off)). split_and!; [exact Hf|apply take_ge; lia|done|lia|lia| |].
  - unfold areg_ok, is_X, TE_X0, TE_Q0 in *. intros. btests. lia.
  - intros env env' Hw. eapply (store_reg _ _ _ _ _ _ _ _ Hlay [_]); [exact (loads_stk _ _ _ _ _ _ _ _ Hlay _ _ Hctx Hstk Hcok Hsok _ _ Ho Hb Hr)|].
    by rewrite le_bytes_8 by (done || lia).
Qed.

Lemma x2a_mem_reg_eq off li ars : by_reference c = false → pairs_ok ars → (1 ≤ length ars ≤ 4)%nat → csize c ≠ 16 * Z.of_nat (length ars) →
  x2a_arg OFF_ZREGS (xx_word (OnStack off li)) (aa_word (InRegs ars)) =
  emit_loop (x2a_mem_reg OFF_ZREGS (xx_word (OnStack off li)) (slot_info (InRegs ars) false (csize c)) false) 0 (length ars).
Proof using.
  clear. intros Href Ha Hal Hw. rewrite Href. unfold x2a_arg, x2a_arg_mem_reg.
  destruct (slot_stack_flags off li false (csize c)) as [-> ->]. destruct (slot_regs_flags ars false (csize c)) as [-> ->].
  rewrite !slot_regs_num by (done || lia). rewrite (proj2 (Z.eqb_neq 0 (Z.of_nat (length ars)))) by lia. cbn [negb andb orb].
  change (te_get_arg_size (xx_word (OnStack off li))) with (csize c). rewrite (proj2 (Z.eqb_neq (Z.of_nat (length ars) * 16) (csize c))) by lia.
  by rewrite Nat2Z.id.
Qed.

Lemma x2a_mem_reg_ok off ars env area room : room ≤ xroom → env_ok env → xx_shape c (OnStack off (loc_info c)) room → aa_shape c (InRegs ars) →
  by_reference c = false → spread_floats c = false → x2a_delivered (OnStack off (loc_info c)) (InRegs ars) env area.
Proof using Hlay Hctx Hstk Hcok Hsok Hval.
  intros Hrr Henv (Ho & _ & Hroom & _ & Hrm) Ha Href Hsp. pose proof (csize_pos c (value_wf c Hval)). pose proof (align_up_spec (csize c) 8 ltac:(lia)).
  pose proof (loc_info_range c). assert (in_u 32 off ∧ in_u 32 (loc_info c)) as [Hou Hlu] by (unfold in_u; lia).
  destruct (aa_regs_value env (λ _, None) 0 Henv c Hval ars Ha Href Hsp) as (Haok & Hal4 & Har & Halen & _ & _).
  destruct (slot_stack_mem off (loc_info c) false (csize c) Hou Hlu) as [Hm _].
  destruct (aa_shape_seq ars Ha) as (base & n & Hars & Hfst & Hn & Hb).
  assert (Z.of_nat (length ars) = n) as Hna by (rewrite Hars; apply reg_seq_length; lia).
  set (vs := (λ i, eight (SIZEOF_REGISTER_ARGS + off + 8 * i)) <$> seqZ 0 n).
  assert (length vs = length ars) as Hvl by (unfold vs; rewrite length_fmap, length_seqZ; lia).
  destruct (fill_regs OFF_ZREGS envp ctxp hsp gsp groom s0 (x2a_mem_reg OFF_ZREGS (xx_word (OnStack off (loc_info c))) (slot_info (InRegs ars) false (csize c)) false) vs 0 base env area)
    as (es & env' & Hes & Hmv & Henv' & Hup & Hgat); [done|by rewrite Hvl, Hna| |].
  - intros i v Hi. unfold vs in Hi. rewrite list_lookup_fmap in Hi. destruct (seqZ 0 n !! i) as [z|] eqn:Hz; [|done]. injection Hi as <-.
    apply lookup_seqZ in Hz as [-> Hin]. destruct (lookup_lt_is_Some_2 ars i) as [[a ai] Hai]; [lia|].
    pose proof (Forall_lookup_1 _ _ _ _ Har Hai) as Har1. cbn [fst] in Har1.
    assert (base + Z.of_nat i = a) as ->.
    { assert (ars.*1 !! i = Some a) as Hai' by (by rewrite list_lookup_fmap, Hai). rewrite Hfst in Hai'. apply lookup_seqZ in Hai'. lia. }
    rewrite <- Z.add_assoc. apply puts_stack; [lia|lia|done|]. unfold x2a_mem_reg.
    rewrite (slot_get ars _ _ i a ai), Hm by (done || lia). cbn [mbind outcome_bind]. rewrite wrap_small; [done|unfold in_u; lia].
  - exists es, env', area. split_and!; [rewrite x2a_mem_reg_eq by (done || lia); by rewrite <- Hvl|done|rewrite Hars; by apply touched_regs; [lia|..]|].
    eapply done_regs; try done; [by rewrite Hfst, <- Hna, <- Hvl|]. rewrite xx_value_stack by done. unfold vs.
    rewrite <- Hna, slices_join, Z.mul_0_r, Z.add_0_r by (unfold SIZEOF_REGISTER_ARGS; lia). rewrite take_slice by lia.
    apply rd_args_slice; unfold SIZEOF_REGISTER_ARGS; lia.
Qed.

(** ** To the argument area *)

(** A write to the area. *)
Lemma area_write area off bs : Z.of_nat (length area) = groom → 0 ≤ off → off + Z.of_nat (length bs) ≤ groom →
  ∃ area', wr area off bs = Ret area' ∧ framed [(off, Z.of_nat (length area) - off)] area area' ∧
    ∀ m, 0 ≤ m ≤ Z.of_nat (length bs) → rd area' off m = Ret (take (Z.to_nat m) bs).
Proof using.
  clear. intros Hl Ho Hb. destruct (wr_copy area off bs Ho) as (area' & Hw & _ & Hr); [lia|]. exists area'. split_and!; [done| |done].
  eapply framed_wr; [exact Hw|lia..].
Qed.

Lemma x2a_mem_mem_ok off oa env area room : room ≤ xroom → env_ok env → Z.of_nat (length area) = groom →
  xx_shape c (OnStack off (loc_info c)) room → 0 ≤ oa < 2 ^ 32 → oa + csize c ≤ groom → by_reference c = false →
  x2a_delivered (OnStack off (loc_info c)) (OnStack oa 0) env area.
Proof using Hlay Hctx Hstk Hcok Hsok Hval.
  intros Hrr Henv Hl (Ho & _ & Hroom & _ & Hrm) Hoa Hfit Href. pose proof (csize_pos c (value_wf c Hval)). pose proof (align_up_spec (csize c) 8 ltac:(lia)).
  pose proof (loc_info_range c). assert (in_u 32 off ∧ in_u 32 (loc_info c) ∧ in_u 32 oa ∧ in_u 32 0) as (Hou & Hlu & Hau & H0u) by (unfold in_u; lia).
  destruct (rd_args_slice (SIZEOF_REGISTER_ARGS + off) (csize c)) as (Hr & Hlv & _); [unfold SIZEOF_REGISTER_ARGS; lia..|].
  destruct (area_write area oa (slice args (SIZEOF_REGISTER_ARGS + off) (csize c))) as (area' & Hw & Hf & Hrd); [done|lia|lia|].
  destruct (x2a_copy_ok _ _ _ _ _ _ _ _ Hlay _ _ Hctx Hstk (xx_word (OnStack off (loc_info c))) (slot_info (OnStack oa 0) false (csize c))
    (csize c) off oa (slice args (SIZEOF_REGISTER_ARGS + off) (csize c)) env area area') as (es & Hes & Hm); try done; try lia; try (by apply slot_stack_mem).
  exists es, env, area'. split_and!; [|done|done|].
  - rewrite Href. unfold x2a_arg. destruct (slot_stack_flags off (loc_info c) false (csize c)) as [-> ->].
    destruct (slot_stack_flags oa 0 false (csize c)) as [-> ->]. done.
  - unfold x2a_done, aa_bytes, stack_size. rewrite Href, xx_value_stack, Hr, Hrd by (done || lia). by rewrite take_slice by lia.
Qed.

(** A large structure: its address. *)
Lemma x2a_address_ok off pa env area room : room ≤ xroom → env_ok env → Z.of_nat (length area) = groom →
  xx_shape c (OnStack off (loc_info c)) room → aa_shape c pa → by_reference c = true →
  match pa with OnStack oa _ => oa + 8 ≤ groom | InRegs _ => True end →
  x2a_delivered (OnStack off (loc_info c)) pa env area.
Proof using Hlay Hctx Hstk Hcok Hsok Hval.
  intros Hrr Henv Hl (Ho & _ & Hroom & _ & Hrm) Ha Href Hfit. pose proof (csize_pos c (value_wf c Hval)). pose proof (align_up_spec (csize c) 8 ltac:(lia)).
  pose proof (loc_info_range c). assert (in_u 32 off ∧ in_u 32 (loc_info c)) as (Hou & Hlu) by (unfold in_u; lia).
  destruct (slot_stack_mem off (loc_info c) false (csize c) Hou Hlu) as [Hm _]. pose proof (xl_stack _ _ _ _ _ _ _ _ Hlay) as (Hh & Hh' & _).
  assert (hsp + off < 2 ^ 64) as Hh2 by lia. pose proof (loads_addr _ _ _ _ _ _ _ _ Hlay off Ho Hh2) as Hld.
  pose proof (xl_area _ _ _ _ _ _ _ _ Hlay) as (_ & _ & Hgr & _).
  unfold x2a_delivered, x2a_done, x2a_arg. destruct (slot_stack_flags off (loc_info c) false (csize c)) as [-> ->]. rewrite Href.
  destruct pa as [ars|oa oi].
  - destruct (aa_shape_seq ars Ha) as (base & n & Hars & Hfst & Hn & Hb). destruct Ha as (k & n' & _ & _ & _ & Haa).
    assert (n = 1) as ->.
    { assert (Z.of_nat (length ars) = n) as <- by (rewrite Hars; apply reg_seq_length; lia).
      unfold by_reference in Href. destruct (hfa c) as [[]|] eqn:Hh1; [done|]. unfold by_reference in Haa. rewrite Hh1, Href in Haa. by destruct Haa as [-> ->]. }
    rewrite reg_seq_1 in Hars. subst ars. assert (areg_ok base) as Hbase by (unfold areg_ok; lia).
    destruct (wr_a64_up env base (le_bytes 8 (hsp + off)) Henv Hbase) as (env' & Hw & Henv' & Hup & Hrd);
      [apply le_bytes_ok|rewrite length_le_bytes; lia|rewrite length_le_bytes; unfold is_X, TE_X0, TE_Q0 in *; intros; btests; lia|].
    destruct (slot_regs_flags [(base, 0)] true (csize c)) as [-> ->].
    assert (pairs_ok [(base, 0)]) as Hpk by (rewrite <- reg_seq_1; apply reg_seq_ok; unfold TE_X0, TE_Q0 in *; lia).
    rewrite slot_regs_num by (done || cbn; lia). cbn [length negb andb orb].
    eexists _, env', area. split_and!; [rewrite (slot_get [(base, 0)] _ _ 0 base 0) by (done || cbn; lia); reflexivity| |by split|].
    + unfold x2a_arg_address. rewrite Hm. eapply (store_reg _ _ _ _ _ _ _ _ Hlay [_; _]); [exact Hld|exact Hw].
    + unfold aa_bytes. rewrite Href. cbn [fmap list_fmap fst gather]. rewrite Hrd by lia. cbn [mbind outcome_bind].
      rewrite app_nil_r, take_ge; [done|]. rewrite length_le_bytes. lia.
  - destruct Ha as [Hoa ->]. destruct (slot_stack_flags oa 0 true (csize c)) as [-> ->]. assert (in_u 32 oa ∧ in_u 32 0) as [Hau H0u] by (unfold in_u; lia).
    destruct (slot_stack_mem oa 0 true (csize c) Hau H0u) as [Hma _].
    destruct (area_write area oa (le_bytes 8 (hsp + off))) as (area' & Hw & Hf & Hrd); [done|lia|rewrite length_le_bytes; lia|].
    eexists _, env, area'. split_and!; [reflexivity| |done|].
    + unfold x2a_arg_address. rewrite Hm, Hma. eapply (store_area _ _ _ _ _ _ _ _ Hlay [_; _]); [exact Hld|exact Hw].
    + unfold aa_bytes, stack_size. rewrite Href, Hrd by (rewrite length_le_bytes; lia). rewrite take_ge; [done|]. rewrite length_le_bytes. lia.
Qed.

(** Register [i] of the argument goes to its eightbyte. *)
Definition movaps_to_stack (xrs : list (Z * Z)) (oa : Z) : Prop :=
  ∀ i x li, xrs !! i = Some (x, li) → is_xmm x = true →
    (16 | gsp + oa + 8 * Z.of_nat i) ∧ oa + 8 * Z.of_nat i + 16 ≤ groom ∧ (S i = length xrs ∨ csize c = 16 ∧ length xrs = 2%nat).

Definition reg_to_mem (x off : Z) : list emit :=
  if is_xmm x
  then [E_ld128 TCG_REG_XMM0 TCG_REG_RSI (x64_enum_2_offset x); E_st128 TCG_REG_XMM0 aarch64_sp_holder off]
  else [ld_x86_64_enum TCG_REG_RAX x; E_st TCG_TYPE_PTR TCG_REG_RAX aarch64_sp_holder off].

Lemma reg_to_mem_ok x off env area : xreg_ok x → Z.of_nat (length area) = groom → 0 ≤ off → off + 8 ≤ groom →
  (is_xmm x = true → (16 | gsp + off) ∧ off + 16 ≤ groom) →
  ∃ area', moves (reg_to_mem x off) env area env area' ∧ framed [(off, Z.of_nat (length area) - off)] area area' ∧
    rd area' off 8 = Ret (eight (x64_enum_2_ptr x)).
Proof using Hlay Hctx Hstk Hcok Hsok.
  intros Hx Hl Ho Hb Hxm. unfold reg_to_mem. destruct (is_xmm x) eqn:Hi.
  - destruct (Hxm eq_refl) as [Hal Hb16]. pose proof (xreg_xmm x Hx Hi) as Hx'.
    destruct (reg_slice x 16 Hx) as (Hr & Hls & Hok); [unfold xwidth; rewrite Hi; lia|].
    destruct (area_write area off (slice args (x64_enum_2_ptr x) 16)) as (area' & Hw & Hf & Hrd); [done|lia|lia|].
    exists area'. split_and!; [|done|].
    + eapply store128_area; [exact Hlay|exact (loads128_ctx _ _ _ _ _ _ _ _ Hlay _ _ Hctx _ _ Hx' Hr)|lia|done|done].
    + rewrite Hrd by lia. by rewrite take_slice by lia.
  - destruct (reg_slice x 8 Hx) as (Hr & Hls & Hok); [unfold xwidth; rewrite Hi; lia|].
    destruct (area_write area off (slice args (x64_enum_2_ptr x) 8)) as (area' & Hw & Hf & Hrd); [done|lia|lia|].
    exists area'. split_and!; [|done|].
    + eapply (store_area _ _ _ _ _ _ _ _ Hlay [_]); [exact (loads_ctx _ _ _ _ _ _ _ _ Hlay _ _ Hctx Hcok Hsok _ _ Hx Hr)|].
      by rewrite le_bytes_8 by (done || lia).
    + rewrite Hrd by lia. by rewrite take_slice by lia.
Qed.

Lemma x2a_reg_mem_eq xrs oa es : by_reference c = false → pairs_ok xrs → (1 ≤ length xrs ≤ 4)%nat → in_u 32 oa →
  x2a_regs_to_mem (xx_word (InRegs xrs)) oa (csize c / Z.of_nat (length xrs)) 0 0 (length xrs) = Ret es →
  x2a_arg OFF_ZREGS (xx_word (InRegs xrs)) (aa_word (OnStack oa 0)) = Ret es.
Proof using.
  clear. intros Href Hx Hxl Hoa Hes. rewrite Href. unfold x2a_arg, x2a_arg_reg_mem.
  destruct (slot_regs_flags xrs false (csize c)) as [-> ->]. destruct (slot_stack_flags oa 0 false (csize c)) as [-> ->].
  rewrite !slot_regs_num by (done || lia). rewrite (proj2 (Z.eqb_neq 0 (Z.of_nat (length xrs)))) by lia. cbn [negb andb orb].
  rewrite Nat2Z.id. assert (in_u 32 0) as H0u by (unfold in_u; lia). by rewrite (proj1 (slot_stack_mem oa 0 false (csize c) Hoa H0u)).
Qed.

Lemma regs_to_mem_cons xx base step offset j n x es' : te_get_reg xx j = Ret x → in_u 32 (base + offset) →
  x2a_regs_to_mem xx base step (u32 (offset + if is_xmm x then step else 8)) (j + 1) n = Ret es' →
  x2a_regs_to_mem xx base step offset j (S n) = Ret (reg_to_mem x (base + offset) ++ es').
Proof using.
  clear. intros Hx Hu Hes. cbn [x2a_regs_to_mem]. rewrite Hx. cbn [mbind outcome_bind]. rewrite (wrap_small 32 (base + offset)) by done.
  unfold reg_to_mem. destruct (is_xmm x); by rewrite Hes.
Qed.

(** One or two registers. *)
Lemma regs_to_area xx xrs oa env area : names xx 0 xrs → (1 ≤ length xrs ≤ 2)%nat → Forall (λ p, xreg_ok p.1) xrs →
  Z.of_nat (length area) = groom → 0 ≤ oa → oa + 8 * Z.of_nat (length xrs) ≤ groom → movaps_to_stack xrs oa →
  ∃ es area', x2a_regs_to_mem xx oa (csize c / Z.of_nat (length xrs)) 0 0 (length xrs) = Ret es ∧ moves es env area env area' ∧
    framed [(oa, Z.of_nat (length area) - oa)] area area' ∧
    rd area' oa (8 * Z.of_nat (length xrs)) = Ret (mjoin ((λ x, eight (x64_enum_2_ptr x)) <$> xrs.*1)).
Proof using Hlay Hctx Hstk Hcok Hsok.
  intros Hn Hl Hxr Hal Ho Hb Hmv. pose proof (xl_area _ _ _ _ _ _ _ _ Hlay) as (_ & _ & Hgr & _).
  destruct xrs as [|[x li] xrs]; [cbn in Hl; lia|]. apply names_cons in Hn as (Hx0 & _ & Hn). apply Forall_cons in Hxr as [Hx Hxr]. cbn [fst length] in *.
  destruct (reg_to_mem_ok x oa env area Hx Hal Ho ltac:(lia)) as (area1 & Hm1 & Hf1 & Hr1).
  { intros Hi. destruct (Hmv 0%nat x li eq_refl Hi) as (Hd & He & _). rewrite Z.mul_0_r, Z.add_0_r in *. done. }
  destruct xrs as [|[y lj] [|]]; [| |cbn in Hl; lia]; cbn [length] in *.
  { exists (reg_to_mem x oa ++ []), area1. split_and!; [|by rewrite app_nil_r|done|cbn; by rewrite app_nil_r].
    rewrite <- (Z.add_0_r oa) at 2. eapply regs_to_mem_cons; [done|unfold in_u; lia|done]. }
  apply names_cons in Hn as (Hy0 & _ & _). apply Forall_cons in Hxr as [Hy _]. cbn [fst] in Hy. assert (Z.of_nat (length area1) = groom) as Hal1 by (by rewrite (proj1 Hf1)).
  destruct (reg_to_mem_ok y (oa + 8) env area1 Hy Hal1 ltac:(lia) ltac:(lia)) as (area2 & Hm2 & Hf2 & Hr2).
  { intros Hi. destruct (Hmv 1%nat y lj eq_refl Hi) as (Hd & He & _). change (8 * Z.of_nat 1) with 8 in *. by rewrite Z.add_assoc. }
  exists (reg_to_mem x oa ++ reg_to_mem y (oa + 8) ++ []), area2. split_and!.
  - rewrite <- (Z.add_0_r oa) at 2. assert ((if is_xmm x then csize c / Z.of_nat 2 else 8) = 8) as H8.
    { destruct (is_xmm x) eqn:Hi; [|done]. destruct (Hmv 0%nat x li eq_refl Hi) as (_ & _ & [?|[-> _]]); done. }
    eapply regs_to_mem_cons; [done|unfold in_u; lia|]. rewrite H8. eapply regs_to_mem_cons; [done|change (u32 (0 + 8)) with 8; unfold in_u; lia|done].
  - rewrite app_nil_r. by eapply x2a_moves_app.
  - eapply framed_trans; [done|]. eapply framed_widen; [exact Hf2|lia|]. rewrite (proj1 Hf1). lia.
  - cbn [fmap list_fmap fst mjoin list_join]. rewrite app_nil_r. apply (rd_app area2 oa 8 8); [lia|lia| |done].
    rewrite <- Hr1. apply Hf2. apply Forall_singleton. cbn. lia.
Qed.

Lemma x2a_reg_mem_ok xrs oa env area room : env_ok env → Z.of_nat (length area) = groom → xx_shape c (InRegs xrs) room →
  0 ≤ oa → oa + align_up (csize c) 8 ≤ groom → movaps_to_stack xrs oa → x2a_delivered (InRegs xrs) (OnStack oa 0) env area.
Proof using Hlay Hctx Hstk Hcok Hsok Hval.
  intros Henv Hl (Hsz & g & s1 & Hg & Hs1 & Hgb & Hsb & ->) Ho Hb Hmv. pose proof (by_reference_small c Hsz) as Href.
  destruct (xx_regs_facts c Hval g s1 Hsz Hg Hs1 Hgb Hsb) as (Hxok & Hxl & Hw & Hxr & Hnd). set (xrs := regs_of _ _ g s1) in *.
  pose proof (xl_area _ _ _ _ _ _ _ _ Hlay) as (_ & _ & Hgr & _). pose proof (csize_pos c (value_wf c Hval)).
  destruct (words_bounds c (value_wf c Hval)) as [Hwb _]. rewrite <- (words_align c Hval) in Hb. assert (in_u 32 oa) as Hau by (unfold in_u; lia).
  destruct (regs_to_area (xx_word (InRegs xrs)) xrs oa env area) as (es & area' & Hes & Hm & Hf & Hr); try done; try lia.
  { apply names_slot; [done|lia]. }
  exists es, env, area'. split_and!; [apply x2a_reg_mem_eq; (done || lia)|done|done|].
  unfold x2a_done, aa_bytes, stack_size. rewrite Href, xx_value_regs, gather_slices by (done || lia || by apply Forall_fmap).
  eapply rd_take; [exact Hr|lia].
Qed.

(** ** Every combination *)

(** What the code needs of the two places. *)
Definition stores_ok (px pa : place) : Prop :=
  match px, pa with
  | InRegs xrs, InRegs ars => spread_floats c = false ∧ (hfa c = None → aligned_regs OFF_ZREGS xrs ars)
  | InRegs xrs, OnStack oa _ => movaps_to_stack xrs oa ∧ oa + align_up (csize c) 8 ≤ groom
  | OnStack _ _, InRegs _ => spread_floats c = false
  | OnStack _ _, OnStack _ _ => True
  end.

Lemma x2a_deliver px pa env area room : room ≤ xroom → env_ok env → Z.of_nat (length area) = groom → xx_shape c px room → aa_shape c pa →
  stores_ok px pa → match pa with OnStack oa _ => oa + stack_size c ≤ groom | InRegs _ => True end → x2a_delivered px pa env area.
Proof using Hlay Hctx Hstk Hcok Hsok Hval.
  intros Hr Henv Hl Hx Ha Hs Hfit. pose proof (xl_area _ _ _ _ _ _ _ _ Hlay) as (_ & _ & Hgr & _). destruct (by_reference c) eqn:Href.
  - destruct px as [xrs|off li]; [destruct Hx as [Hsz _]; by rewrite (by_reference_small c Hsz) in Href|].
    pose proof Hx as (_ & _ & _ & -> & _). eapply x2a_address_ok; try done. unfold stack_size in Hfit. by rewrite Href in Hfit.
  - unfold stack_size in Hfit. rewrite Href in Hfit. destruct px as [xrs|off li], pa as [ars|oa oi].
    + destruct Hs as [Hsp Hal]. eapply x2a_reg_reg_ok; try done. destruct (hfa c) as [[s n]|] eqn:Hh; [|auto].
      destruct Ha as (k & n' & Hk & Hn & Hkn & Haa). rewrite Hh in Haa. destruct Haa as [-> ->]. eapply aligned_vregs; [apply (xl_env _ _ _ _ _ _ _ _ Hlay)| |lia|lia].
      assert (aa_shape c (InRegs (reg_seq (TE_Q0 + k) n))) as Ha by (exists k, n; rewrite Hh; split_and!; (done || lia)).
      destruct (aa_regs_value env (λ _, None) 0 Henv c Hval _ Ha Href Hsp) as (_ & _ & _ & Halen & _).
      destruct Hx as (Hsz & g & s1 & Hg & Hs1 & Hgb & Hsb & ->).
      destruct (xx_regs_facts c Hval g s1 Hsz Hg Hs1 Hgb Hsb) as (_ & Hxl & _). rewrite <- (words_align c Hval) in Halen. lia.
    + destruct Ha as [Hoa ->]. destruct Hs. by eapply x2a_reg_mem_ok.
    + pose proof Hx as (_ & _ & _ & -> & _). by eapply x2a_mem_reg_ok.
    + pose proof Hx as (_ & _ & _ & -> & _). destruct Ha as [Hoa ->]. pose proof (csize_pos c (value_wf c Hval)). eapply x2a_mem_mem_ok; try done; lia.
Qed.

(** What a later argument leaves alone. *)
Lemma done_kept px pa pa' env area env' area' : aa_shape c pa → below c pa pa' → x2a_touched pa' env area env' area' →
  x2a_done px pa env area → x2a_done px pa env' area'.
Proof using.
  clear Hval. intros Ha Hb [_ Ht] Hd. unfold x2a_done in *. rewrite <- Hd. clear Hd. destruct pa as [rs|o oi]; unfold aa_bytes.
  - destruct pa' as [[|[q qi] rs']|o' oi']; destruct Ht as [He Hup]; [by rewrite He| |by rewrite He]. cbn [below] in Hb.
    destruct (aa_shape_seq _ Ha) as (base & n & Hrs & Hfst & Hn & Hbase).
    assert (Forall areg_ok rs.*1) as Har by (rewrite Hfst; apply Forall_forall; intros r Hr; apply elem_of_seqZ in Hr; unfold areg_ok; lia).
    destruct (by_reference c); [by eapply gather_up|].
    assert (pairs_ok rs ∧ (length rs ≤ 4)%nat) as [Hpk Hl4].
    { rewrite Hrs. split; [apply reg_seq_ok; unfold TE_X0, TE_Q0 in *; lia|]. pose proof (reg_seq_length base n). lia. }
    rewrite !aa_value_regs by done. destruct (hfa c) as [[s m]|]; [|f_equal]; (eapply gather_up; [done|done| |done]); [|lia]. by destruct s.
  - destruct pa' as [[|[q qi] rs']|o' oi']; [destruct Ht as [_ ->]; done|destruct Ht as [-> _]; done|]. destruct Ht as [_ Hf]. cbn [below] in Hb.
    apply Hf. apply Forall_singleton. cbn. lia.
Qed.
End arg.
