(* ===== verification/X2AEntry.v ===== *)
(** * The entry code of a call from x86-64 to AArch64, for whole prototypes

    The arguments are stored in their order, and the AArch64 convention places
    each one above those before it, in the registers and on the stack.  So
    stores that are too wide only spoil places that are filled later. *)

From S2P Require Import Prelude Bytes ABIArgInfo FfiTypes Layout Placement AAPrepCif HFA AAAlloc XXPrepCif XXClass XXAlloc CrossABI DyBridge DyEntry DyStep DyCorrect Handlers Memory X86 Encoder Machine A2XCode A2XSim A2XStep A2XArg A2XEntry A2XCall A2XValid X2ACode X2ASim X2AArg.

(** ** The order of the places *)

Lemma within_beyond_below c a p al a' p' : alloc_ok a → alloc_ok a' → within a p (stack_size c) al a' → beyond a' p' → below c p p'.
Proof.
  intros Ha Ha' Hw Hb. destruct p as [rs|o oi], p' as [[|[q qi] rs']|o' oi']; try done; cbn [below].
  - destruct Hw as (_ & _ & _ & Hr). intros r Hin HX. specialize (Hr r Hin). assert (q ∈ ((q, qi) :: rs').*1) as Hq by (simpl; left). specialize (Hb q Hq).
    unfold is_X, TE_X0, TE_Q0, alloc_ok in *. btests. repeat case_match; btests; lia.
  - destruct Hw as (_ & _ & Hn & _). cbn [beyond] in Hb. lia.
Qed.

Lemma place_args_below nf cs i a j k c c' p p' : Forall arg_type_ok cs → alloc_ok a → (j < k)%nat →
  cs !! j = Some c → (place_args nf i cs a).1 !! j = Some p → cs !! k = Some c' → (place_args nf i cs a).1 !! k = Some p' → below c p p'.
Proof.
  intros Hcs. revert i a j k. induction Hcs as [|c0 cs Hc Hcs IH]; intros i a j k Ha Hjk Hj Hp Hk Hp'; [done|].
  destruct (place_args_step nf c0 cs i a Hc Ha) as (p0 & a1 & Heq & _ & Hwi & Ha1 & Hle1 & _ & Ha2 & Hle2).
  rewrite Heq in Hp, Hp'. destruct k as [|k]; [lia|]. destruct j as [|j]; simpl in *; simplify_eq.
  - destruct (place_args_ok nf cs (S i) _ Hcs Ha2) as (_ & _ & Hb). eapply within_beyond_below; [exact Ha|exact Ha1|done|].
    eapply beyond_le; [exact Hle2|]. by eapply Forall_lookup_1.
  - eapply (IH (S i) _ j k); eauto. lia.
Qed.

(** ** The argument loop *)

Section loop.
Context (OFF_ZREGS envp ctxp hsp xroom gsp groom : Z) (s0 : cpu).
Context (Hlay : x2a_layout OFF_ZREGS envp ctxp hsp xroom gsp groom s0).
Context (ctx stk : list Z).
Context (Hctx : rd_mem (cmem s0) ctxp SIZEOF_CONTEXT = Ret ctx) (Hstk : rd_mem (cmem s0) hsp xroom = Ret stk).
Context (Hcok : bytes_ok ctx) (Hsok : bytes_ok stk).
Abbreviation args := (space_of ctx stk).
Abbreviation x2a_sim := (x2a_sim OFF_ZREGS envp ctxp hsp gsp groom s0).
Abbreviation moves := (x2a_moves OFF_ZREGS envp ctxp hsp gsp groom s0).
Context (room : Z) (Hroom : room ≤ xroom).

Definition x2a_job_ok (b : job) : Prop :=
  let '(c, px, pa) := b in
  value_type c = true ∧ xx_shape c px room ∧ aa_shape c pa ∧ stores_ok OFF_ZREGS gsp groom c px pa ∧
  match pa with OnStack oa _ => oa + stack_size c ≤ groom | InRegs _ => True end.
Definition x2a_job_done (env : CPUARMState) (area : list Z) (b : job) : Prop :=
  let '(c, px, pa) := b in x2a_done hsp ctx stk c px pa env area.
Definition job_below (b b' : job) : Prop := below b.1.1 (job_pa b) (job_pa b').

(** Only argument registers change. *)
Definition args_frame (env env' : CPUARMState) : Prop :=
  env_ok env' ∧ framed [(0, 64)] (xregs env) (xregs env') ∧ framed [(0, 8 * ZREG_SIZE)] (zregs env) (zregs env').

Lemma args_frame_refl env : env_ok env → args_frame env env.
Proof using. clear. intros. split_and!; auto using framed_refl. Qed.

Lemma args_frame_trans e1 e2 e3 : args_frame e1 e2 → args_frame e2 e3 → args_frame e1 e3.
Proof using. clear. intros (_ & H1 & H2) (H0 & H3 & H4). split_and!; [done|by eapply framed_trans..]. Qed.

Lemma touched_frame c pa env area env' area' : aa_shape c pa → x2a_touched pa env area env' area' →
  args_frame env env' ∧ length area' = length area.
Proof using.
  clear. intros Ha [Hok Ht]. destruct pa as [[|[r ri] rs]|o oi].
  - destruct Ht as [-> ->]. split; [by apply args_frame_refl|done].
  - destruct Ht as [-> Hup]. split; [|done]. destruct (aa_shape_seq c _ Ha) as (base & n & Hrs & _ & Hn & Hb).
    assert (r = base) as ->. { replace n with (Z.of_nat (S (Z.to_nat (n - 1)))) in Hrs by lia. rewrite reg_seq_S in Hrs. by injection Hrs. }
    unfold up_from, is_X, TE_X0, TE_Q0, ZREG_SIZE in *. destruct (Z.leb_spec 33 base); destruct Hup as [He Hf]; (split_and!; [done|..]);
      try (rewrite He; apply framed_refl); eapply framed_widen; try exact Hf; unfold ZREG_SIZE; lia.
  - destruct Ht as [-> Hf]. split; [by apply args_frame_refl|apply Hf].
Qed.

Lemma x2a_args_ok L i xxs aas env area : env_ok env → Z.of_nat (length area) = groom → Forall x2a_job_ok L →
  (∀ j k b b', (j < k)%nat → L !! j = Some b → L !! k = Some b' → job_below b b') →
  (∀ j b, L !! j = Some b → xxs !! (i + j)%nat = Some (job_x b) ∧ aas !! (i + j)%nat = Some (job_a b)) →
  ∃ es env' area', emit_loop (x2a_args OFF_ZREGS xxs aas) (Z.of_nat i) (length L) = Ret es ∧ moves es env area env' area' ∧
    Forall (x2a_job_done env' area') L ∧ args_frame env env' ∧ length area' = length area ∧
    ∀ b, aa_shape b.1.1 (job_pa b) → Forall (job_below b) L → x2a_job_done env area b → x2a_job_done env' area' b.
Proof using Hlay Hctx Hstk Hcok Hsok Hroom.
  revert i env area. induction L as [|[[c px] pa] L IH]; intros i env area Henv Hl HL Hbelow Hix.
  { exists [], env, area. split_and!; [done|apply x2a_moves_nil|by apply Forall_nil_2|by apply args_frame_refl|done|done]. }
  apply Forall_cons in HL as [(Hval & Hx & Ha & Hst & Hfit) HL].
  destruct (x2a_deliver OFF_ZREGS envp ctxp hsp xroom gsp groom s0 Hlay ctx stk Hctx Hstk Hcok Hsok c Hval px pa env area room Hroom Henv Hl Hx Ha Hst Hfit)
    as (es1 & env1 & area1 & Hes1 & Hm1 & Ht1 & Hd1).
  destruct (touched_frame c pa _ _ _ _ Ha Ht1) as [Hf1 Hl1].
  destruct (IH (S i) env1 area1) as (es2 & env2 & area2 & Hes2 & Hm2 & Hd2 & Hf2 & Hl2 & Hk2); [apply Hf1|by rewrite Hl1|done| | |].
  { intros j k b b' Hjk Hj Hk. apply (Hbelow (S j) (S k)); [lia|done|done]. }
  { intros j b Hj. specialize (Hix (S j) b Hj). by replace (S i + j)%nat with (i + S j)%nat by lia. }
  assert (Forall (job_below (c, px, pa)) L) as Hb1.
  { apply Forall_lookup. intros k b Hk. apply (Hbelow 0%nat (S k)); [lia|done|done]. }
  destruct (Hix 0%nat _ eq_refl) as [Hxi Hai]. rewrite Nat.add_0_r in Hxi, Hai.
  exists (es1 ++ es2), env2, area2. split_and!; [|by eapply x2a_moves_app|..].
  - apply emit_loop_S; [|by replace (Z.of_nat i + 1) with (Z.of_nat (S i)) by lia].
    unfold x2a_args, c_index. rewrite Nat2Z.id, Hxi, Hai. exact Hes1.
  - apply Forall_cons. split; [|done]. by apply (Hk2 (c, px, pa)).
  - by eapply args_frame_trans.
  - congruence.
  - intros [[c' px'] pa'] Ha' Hb' Hd'. apply Forall_cons in Hb' as [Hb'1 Hb']. apply (Hk2 (c', px', pa')); [done|done|].
    eapply done_kept; [exact Ha'|exact Hb'1|exact Ht1|exact Hd'].
Qed.
End loop.

(** ** The hidden pointer and the stack pointers *)

Section setup.
Context (OFF_ZREGS envp ctxp hsp xroom gsp groom : Z) (s0 : cpu).
Context (Hlay : x2a_layout OFF_ZREGS envp ctxp hsp xroom gsp groom s0).
Abbreviation env_byte := (env_byte OFF_ZREGS envp).

Definition setup_reg (r : Z) : bool := one_of r [TCG_REG_RAX; TCG_REG_R10; TCG_REG_R11].

Record setup_sim (s : cpu) (env : CPUARMState) : Prop := mk_setup_sim {
  ss_env : gpr s TCG_REG_RDI = envp;
  ss_ctx : gpr s TCG_REG_RSI = ctxp;
  ss_u64 : ∀ r, in_u 64 (gpr s r);
  ss_gpr : ∀ r, setup_reg r = false → gpr s r = gpr s0 r;
  ss_xmm : xmm s = xmm s0;
  ss_mem : env_mem OFF_ZREGS envp (cmem s) env;
  ss_frame : ∀ a, ¬ env_byte a → cmem s a = cmem s0 a
}.

Lemma setup_only_reg s s' env r v : setup_sim s env → setup_reg r = true → in_u 64 v → only_reg r v s s' → setup_sim s' env.
Proof using.
  clear. intros [] Hr Hv (Hg & Hx & Hm).
  assert (∀ k, setup_reg k = false → gpr s' k = gpr s k) as Hk.
  { intros k Hk. rewrite Hg. destruct (Z.eqb_spec k r) as [->|]; [congruence|done]. }
  constructor; rewrite ?Hm; try done; try (rewrite Hk by done; done).
  - intros k. rewrite Hg. by case_match.
  - intros k Hk'. rewrite Hk by done. auto.
  - by rewrite Hx.
Qed.

Lemma only_reg_set s r v : in_u 64 v → only_reg r v s (set_gpr s r v).
Proof using. clear. intros Hv. split_and!; [|done|done]. intros k. cbn [gpr set_gpr]. by rewrite wrap_small. Qed.

(** A general register of the guest. *)
Lemma setup_ea_x s env k : setup_sim s env → 0 ≤ k < 32 → ea s TCG_REG_RDI (OFF_XREG k) = envp + k * 8.
Proof using Hlay.
  intros Hs Hk. apply ea_small; [apply Hs|]. destruct (lay_env _ _ _ _ _ _ (xl_env _ _ _ _ _ _ _ _ Hlay)).
  destruct (lay_zregs _ _ _ _ _ _ (xl_env _ _ _ _ _ _ _ _ Hlay)). unfold OFF_XREG, ZREG_SIZE in *. lia.
Qed.

Lemma setup_ld_x s env k v : setup_sim s env → 0 ≤ k < 32 → xreg env k = Ret v → in_u 64 v →
  ∃ s', exec_emit (ld_aarch64 TCG_REG_RAX (OFF_XREG k)) s = Ret s' ∧ setup_sim s' env ∧ gpr s' TCG_REG_RAX = v.
Proof using Hlay.
  intros Hs Hk Hv Hu. unfold xreg in Hv. destruct (rd (xregs env) (k * 8) 8) as [bs|] eqn:Hr; [|done]. injection Hv as <-.
  exists (set_gpr s TCG_REG_RAX (le_val bs)). split_and!.
  - apply exec_ld. rewrite (setup_ea_x s env k Hs Hk). eapply rd_mem_at; [|done|apply Hs|exact Hr]; done.
  - eapply setup_only_reg; [exact Hs| |exact Hu|by apply only_reg_set]. done.
  - cbn. by apply wrap_small.
Qed.

Lemma setup_st_x s env k v x' : setup_sim s env → 0 ≤ k < 32 → gpr s TCG_REG_RAX = v → wr (xregs env) (k * 8) (le_bytes 8 v) = Ret x' →
  ∃ s', exec_emit (st_aarch64 TCG_REG_RAX (OFF_XREG k)) s = Ret s' ∧ setup_sim s' (mk_env x' (zregs env)) ∧ gpr s' = gpr s.
Proof using Hlay.
  intros Hs Hk Hv Hw. destruct (env_mem_wr_x _ _ _ _ _ _ (xl_env _ _ _ _ _ _ _ _ Hlay) (cmem s) env _ _ _ (ss_mem _ _ Hs) Hw) as (m & Hm & He & Hout).
  exists (set_mem s m). split_and!; [|destruct Hs; constructor; try done|done].
  - apply exec_st. rewrite (setup_ea_x s env k Hs Hk). by rewrite Hv.
  - intros a Ha. cbn. rewrite Hout by done. auto.
Qed.

(** A word of the context. *)
Lemma setup_ld_ctx s env r off bs ctx : setup_sim s env → setup_reg r = true → rd_mem (cmem s0) ctxp SIZEOF_CONTEXT = Ret ctx →
  rd ctx off 8 = Ret bs → in_u 64 (le_val bs) →
  ∃ s', exec_emit (ld_x86_64 r off) s = Ret s' ∧ setup_sim s' env ∧ only_reg r (le_val bs) s s'.
Proof using Hlay.
  intros Hs Hr Hctx Hrd Hu. exists (set_gpr s r (le_val bs)). split_and!; [|eapply setup_only_reg; [exact Hs|done|exact Hu|by apply only_reg_set]|by apply only_reg_set..].
  pose proof (rd_inv _ _ _ _ Hrd) as (Ho & Hb & _). assert (0 ≤ SIZEOF_CONTEXT) as H0 by done. pose proof (rd_mem_length _ _ _ _ H0 Hctx) as Hcl.
  destruct (xl_ctx _ _ _ _ _ _ _ _ Hlay) as (Hc0 & Hc1 & _). pose proof (xl_env_ctx _ _ _ _ _ _ _ _ Hlay) as Hap.
  apply exec_ld. unfold cload. rewrite (ea_small s _ ctxp) by (apply Hs || lia). apply (rd_mem_at _ _ SIZEOF_CONTEXT ctx); try done.
  rewrite <- Hctx. apply rd_mem_ext. intros a Ha. apply (ss_frame _ _ Hs). destruct (lay_zregs _ _ _ _ _ _ (xl_env _ _ _ _ _ _ _ _ Hlay)).
  unfold A2XSim.env_byte, apart, ZREG_SIZE in *. lia.
Qed.

(** Both stack pointers are loaded. *)
Lemma setup_done s env area : setup_sim s env → gpr s TCG_REG_R10 = gsp → gpr s TCG_REG_R11 = hsp → rd_mem (cmem s0) gsp groom = Ret area →
  x2a_sim OFF_ZREGS envp ctxp hsp gsp groom s0 s env area.
Proof using Hlay.
  intros [] H10 H11 Ha. constructor; try done.
  - intros r Hr H1 H2. apply ss_gpr0. unfold setup_reg, x2a_scratch, one_of in *. cbn [existsb] in *. btests. 
    rewrite !(proj2 (Z.eqb_neq r _)) by done. done.
  - intros k _. by rewrite ss_xmm0.
  - rewrite <- Ha. apply rd_mem_ext. intros a Hin. apply ss_frame0. eapply area_not_env; [exact Hlay|done].
  - intros a Hn _. auto.
Qed.

Lemma setup_start env : gpr s0 TCG_REG_RDI = envp → gpr s0 TCG_REG_RSI = ctxp → (∀ r, in_u 64 (gpr s0 r)) →
  env_mem OFF_ZREGS envp (cmem s0) env → setup_sim s0 env.
Proof using. clear. intros. by constructor. Qed.
End setup.

(** ** The whole entry *)

Section entry.
Context (OFF_ZREGS envp ctxp hsp xroom gsp groom : Z) (s0 : cpu).
Context (Hlay : x2a_layout OFF_ZREGS envp ctxp hsp xroom gsp groom s0).
Context (ctx stk area : list Z).
Context (Hctx : rd_mem (cmem s0) ctxp SIZEOF_CONTEXT = Ret ctx) (Hstk : rd_mem (cmem s0) hsp xroom = Ret stk).
Context (Harea : rd_mem (cmem s0) gsp groom = Ret area).
Context (Hcok : bytes_ok ctx) (Hsok : bytes_ok stk).
Abbreviation args := (space_of ctx stk).
Abbreviation setup_sim := (setup_sim OFF_ZREGS envp ctxp s0).
Abbreviation x2a_sim := (x2a_sim OFF_ZREGS envp ctxp hsp gsp groom s0).

Lemma ctx_word off bs : 0 ≤ off → off + 8 ≤ SIZEOF_CONTEXT → rd ctx off 8 = Ret bs → in_u 64 (le_val bs) ∧ le_bytes 8 (le_val bs) = bs.
Proof using Hcok.
  intros Ho Hb Hr. assert (bytes_ok bs) by (eapply rd_bytes_ok; [exact Hcok|exact Hr]). assert (length bs = 8%nat) by (apply rd_length in Hr; lia).
  split; [apply le_val_u64; [done|lia]|by apply le_bytes_8].
Qed.

(** Space on the guest's stack. *)
Lemma setup_sp_ok s env sp0 : env_ok env → setup_sim s env → xreg env REG_SP_NUM = Ret sp0 → in_u 64 sp0 → gsp = sp0 - groom →
  rd ctx CTX_RSP 8 = Ret (le_bytes 8 (hsp - 8)) → 8 ≤ hsp → ∀ b, ALIGN2POW b 16 = groom →
  ∃ s' x', exec_emits (x2a_entry_sp b) s = Ret s' ∧ x2a_sim s' (mk_env x' (zregs env)) area ∧ wr (xregs env) 248 (le_bytes 8 gsp) = Ret x'.
Proof using Hlay Hctx Harea.
  intros Henv Hs Hsp Hu Hg Hrsp Hh b Hb. destruct (xl_area _ _ _ _ _ _ _ _ Hlay) as (Hg0 & Hg1 & Hg2 & _). destruct (xl_stack _ _ _ _ _ _ _ _ Hlay) as (Hh0 & Hh1 & Hh2).
  destruct (setup_ld_x _ _ _ _ _ _ _ _ Hlay s env REG_SP_NUM sp0 Hs ltac:(unfold REG_SP_NUM; lia) Hsp Hu) as (s1 & E1 & S1 & R1).
  destruct (exec_addi TCG_REG_RAX (- ALIGN2POW b 16) s1 (ss_u64 _ _ _ _ _ _ S1 _)) as (s2 & E2 & O2). rewrite R1, Hb, wrap_small in O2 by (unfold in_u; lia).
  replace (sp0 + - groom) with gsp in O2 by lia. assert (in_u 64 gsp) as Ug by (unfold in_u; lia).
  pose proof (setup_only_reg _ _ _ _ _ _ _ TCG_REG_RAX _ S1 eq_refl Ug O2) as S2. pose proof (proj1 O2 TCG_REG_RAX) as R2. cbn in R2.
  destruct (wr_copy (xregs env) 248 (le_bytes 8 gsp)) as (x' & Hw & _ & _); [lia|rewrite (proj1 Henv), length_le_bytes; lia|].
  destruct (setup_st_x _ _ _ _ _ _ _ _ Hlay s2 env REG_SP_NUM gsp x' S2 ltac:(unfold REG_SP_NUM; lia) R2 Hw) as (s3 & E3 & S3 & R3).
  assert (gpr s3 TCG_REG_RAX = gsp) as R3' by (by rewrite R3).
  destruct (exec_mov_only TCG_REG_R10 TCG_REG_RAX s3 eq_refl eq_refl) as (s4 & E4 & O4); [by rewrite R3'|]. rewrite R3' in O4.
  pose proof (setup_only_reg _ _ _ _ _ _ _ TCG_REG_R10 _ S3 eq_refl Ug O4) as S4. pose proof (proj1 O4 TCG_REG_R10) as R4. cbn in R4.
  assert (in_u 64 (hsp - 8)) as Uh by (unfold in_u; lia). assert (le_val (le_bytes 8 (hsp - 8)) = hsp - 8) as Hle by (rewrite le_val_bytes; by apply (wrap_small 64)).
  destruct (setup_ld_ctx _ _ _ _ _ _ _ _ Hlay s4 _ TCG_REG_R11 CTX_RSP _ ctx S4 eq_refl Hctx Hrsp) as (s5 & E5 & S5 & O5); [by rewrite Hle|]. rewrite Hle in O5.
  pose proof (proj1 O5 TCG_REG_R11) as R5. cbn in R5.
  destruct (exec_addi TCG_REG_R11 8 s5 (ss_u64 _ _ _ _ _ _ S5 _)) as (s6 & E6 & O6). rewrite R5, wrap_small in O6 by (unfold in_u; lia).
  replace (hsp - 8 + 8) with hsp in O6 by lia. assert (in_u 64 hsp) as Uh' by (unfold in_u; lia).
  pose proof (setup_only_reg _ _ _ _ _ _ _ TCG_REG_R11 _ S5 eq_refl Uh' O6) as S6.
  exists s6, x'. split_and!; [|apply (setup_done _ _ _ _ _ _ _ _ Hlay); [exact S6|..|exact Harea]|done].
  - unfold x2a_entry_sp, aarch64_sp_holder, x86_64_rsp_holder.
    by rewrite (exec_emits_cons _ _ _ _ E1), (exec_emits_cons _ _ _ _ E2), (exec_emits_cons _ _ _ _ E3), (exec_emits_cons _ _ _ _ E4),
      (exec_emits_cons _ _ _ _ E5), (exec_emits_cons _ _ _ _ E6).
  - rewrite (proj1 O6). cbn. rewrite (proj1 O5). exact R4.
  - exact (proj1 O6 TCG_REG_R11).
Qed.

Context (nf : Z) (rt : cty) (cs : list cty).
Abbreviation xxInfo := (xx_fn_info rt cs).
Abbreviation aaInfo := (aa_fn_info nf rt cs).

Lemma rdi_word : ∃ bs, rd ctx CTX_RDI 8 = Ret bs ∧ rd args (x64_enum_2_ptr TE_RDI) 8 = Ret bs.
Proof using Hctx.
  assert (Z.of_nat (length ctx) = SIZEOF_CONTEXT) as Hl by (by eapply ctx_length). eexists. rewrite rd_ok by (done || (rewrite Hl; done)). split; [done|].
  rewrite (space_of_reg ctx stk Hl TE_RDI 8); [by rewrite rd_ok by (done || (rewrite Hl; done))|left; exists 0; done|done].
Qed.

(** Where the guest finds the address of a large return value. *)
Lemma setup_ret_ok s env : env_ok env → setup_sim s env →
  ∃ es s' x', x2a_entry_ret (rinfo xxInfo) (rinfo aaInfo) = Ret es ∧ exec_emits es s = Ret s' ∧ setup_sim s' (mk_env x' (zregs env)) ∧
    (if by_reference rt then ∃ bs, rd args (x64_enum_2_ptr TE_RDI) 8 = Ret bs ∧ wr (xregs env) 64 bs = Ret x' else x' = xregs env).
Proof using Hlay Hctx Hcok.
  intros Henv Hs. rewrite xx_fn_info_ret, aa_fn_info_ret. unfold x2a_entry_ret. destruct (slot_regs_flags (xx_ret_regs rt) (16 <? csize rt) 0) as [_ ->].
  rewrite aa_ret_indirect. destruct (by_reference rt) eqn:Href.
  - assert (16 < csize rt) as Hsz by (unfold by_reference in Href; destruct (hfa rt); [done|by apply Z.ltb_lt]). rewrite (proj2 (Z.ltb_lt _ _) Hsz), xx_ret_large by done.
    change (te_get_reg _ 0) with (Ret TE_RDI). cbn [mbind outcome_bind]. destruct rdi_word as (bs & Hr & Hr').
    destruct (ctx_word CTX_RDI bs) as [Hu Hle]; [done|done|done|].
    destruct (setup_ld_ctx _ _ _ _ _ _ _ _ Hlay s env TCG_REG_RAX CTX_RDI bs ctx Hs eq_refl Hctx Hr Hu) as (s1 & E1 & S1 & O1).
    assert (Z.of_nat (length bs) = 8) as Hlb by (apply rd_length in Hr; lia).
    destruct (wr_copy (xregs env) 64 bs) as (x' & Hw & _ & _); [lia|rewrite (proj1 Henv); lia|].
    destruct (setup_st_x _ _ _ _ _ _ _ _ Hlay s1 env 8 (le_val bs) x' S1 ltac:(lia) (proj1 O1 TCG_REG_RAX)) as (s2 & E2 & S2 & _); [by rewrite Hle|].
    eexists _, s2, x'. split_and!; [reflexivity| |done|by exists bs].
    by rewrite (exec_emits_cons _ _ _ _ E1), (exec_emits_cons _ _ _ _ E2).
  - exists [], s, (xregs env). split_and!; [by destruct (16 <? csize rt)|done|by destruct env|done].
Qed.

(** What the entry changes in the emulated registers. *)
Definition entry_fps : list (Z * Z) := [(0, if by_reference rt then 72 else 64); (248, 8)].

Lemma wr_env_ok env x' off bs : env_ok env → bytes_ok bs → wr (xregs env) off bs = Ret x' → env_ok (mk_env x' (zregs env)).
Proof using.
  clear. intros (H1 & H2 & H3 & H4) Hb Hw. split_and!; cbn [xregs zregs]; try done; [by rewrite (wr_length _ _ _ _ Hw)|by eapply DyExit.wr_bytes_ok; [| |exact Hw]].
Qed.

Lemma framed_incl fps fps' l l' : (∀ off n, outside off n fps' → outside off n fps) → framed fps l l' → framed fps' l l'.
Proof using. clear. intros H [Hl Hf]. split; [done|]. auto. Qed.

Context (Hproto : proto_ok rt cs) (Hroom : stack_room cs + 4096 < 2 ^ 31) (Hval : Forall (λ c, value_type c = true) cs).

Definition x2a_stores_ok : Prop := ∀ j c px pa, jobs nf rt cs !! j = Some (c, px, pa) → stores_ok OFF_ZREGS gsp groom c px pa.

Lemma x2a_jobs_ok : groom = ALIGN2POW (bytes aaInfo) 16 → x2a_stores_ok → Forall (x2a_job_ok OFF_ZREGS gsp groom (bytes xxInfo)) (jobs nf rt cs).
Proof using Hproto Hroom Hval.
  intros Hg Hst. apply Forall_lookup. intros j [[c px] pa] Hj. destruct (jobs_lookup _ _ _ _ _ _ _ Hj) as (Hc & Hpx & Hpa).
  pose proof Hproto as (_ & _ & Hcs & _).
  destruct (aa_fn_info_lookup nf rt cs j c Hproto Hc) as (p & b & b' & _ & Hp' & Hpok & Hwi & (_ & _ & Hb) & Hle). rewrite Hpa in Hp'. injection Hp' as <-.
  pose proof (xplaces_shape cs (xalloc0 rt) (bytes xxInfo) Hcs (xalloc0_ok rt)) as Hxs.
  destruct (xx_fn_info_bytes rt cs Hproto ltac:(lia)) as (Hby & Hb2 & _). specialize (Hxs ltac:(lia) ltac:(lia)). rewrite Forall2_lookup in Hxs.
  specialize (Hxs j). rewrite Hc, Hpx in Hxs. inversion Hxs as [? ? Hshape|]; subst.
  pose proof (place_args_shape nf cs 0 alloc0 Hcs alloc0_ok) as Hsh. rewrite Forall2_lookup in Hsh. specialize (Hsh j). rewrite Hc, Hpa in Hsh. inversion Hsh as [? ? Hashape|]; subst.
  rewrite Forall_lookup in Hval. rewrite Forall_lookup in Hcs. destruct (Hcs j c Hc) as [Hw _]. pose proof (csize_pos c Hw).
  split_and!; [by eapply Hval|done|done|by eapply Hst|]. destruct pa as [rs|oa oi]; [done|].
  destruct Hwi as (_ & Ho & Hn & _). destruct (ALIGN2POW_spec (bytes aaInfo)) as [Hr _]; [unfold stack_size in Hn; case_match; lia|]. lia.
Qed.

Lemma x2a_entry_ok env sp0 : env_ok env → setup_sim s0 env → xreg env REG_SP_NUM = Ret sp0 → in_u 64 sp0 → gsp = sp0 - groom →
  groom = ALIGN2POW (bytes aaInfo) 16 → rd ctx CTX_RSP 8 = Ret (le_bytes 8 (hsp - 8)) → 8 ≤ hsp → bytes xxInfo ≤ xroom → x2a_stores_ok →
  ∃ es s' env' area', x2a_entry_moves OFF_ZREGS aaInfo xxInfo = Ret es ∧ exec_emits es s0 = Ret s' ∧ x2a_sim s' env' area' ∧
    Forall (x2a_job_done hsp ctx stk env' area') (jobs nf rt cs) ∧ env_ok env' ∧ xreg env' REG_SP_NUM = Ret gsp ∧
    (by_reference rt = true → rd (xregs env') 64 8 = rd args (x64_enum_2_ptr TE_RDI) 8) ∧
    framed entry_fps (xregs env) (xregs env') ∧ framed [(0, 8 * ZREG_SIZE)] (zregs env) (zregs env').
Proof using Hlay Hctx Hstk Harea Hcok Hsok Hproto Hroom Hval.
  intros Henv Hs Hsp Hu Hg Hgr Hrsp Hh Hxr Hst. destruct (setup_ret_ok s0 env Henv Hs) as (es1 & s1 & x1 & Hes1 & E1 & S1 & Hx1).
  assert (env_ok (mk_env x1 (zregs env)) ∧ framed [(64, if by_reference rt then 8 else 0)] (xregs env) x1 ∧
    (by_reference rt = true → rd x1 64 8 = rd args (x64_enum_2_ptr TE_RDI) 8)) as (He1 & Hf1 & Hp1).
  { destruct (by_reference rt); [|subst x1; split_and!; [by destruct env|apply framed_refl|done]]. destruct Hx1 as (bs & Hr & Hw).
    assert (Z.of_nat (length bs) = 8) as Hlb by (apply rd_length in Hr; lia). split_and!.
    - eapply wr_env_ok; [done| |exact Hw]. eapply rd_bytes_ok; [exact (args_bytes_ok ctx stk Hcok Hsok)|exact Hr].
    - eapply framed_wr; [exact Hw|lia..].
    - intros _. rewrite Hr. pose proof (rd_wr_same _ _ _ _ 0 8 Hw ltac:(lia) ltac:(lia) ltac:(lia)) as Hs'. rewrite Z.add_0_r in Hs'. rewrite Hs'. f_equal. apply take_ge. lia. }
  assert (xreg (mk_env x1 (zregs env)) REG_SP_NUM = Ret sp0) as Hsp1.
  { rewrite <- Hsp. unfold xreg. cbn [xregs]. f_equal. apply Hf1. apply Forall_singleton. unfold REG_SP_NUM; cbn [fst snd]; case_match; lia. }
  destruct (setup_sp_ok s1 _ sp0 He1 S1 Hsp1 Hu Hg Hrsp Hh (bytes aaInfo) (eq_sym Hgr)) as (s2 & x2 & E2 & S2 & Hw2). cbn [xregs zregs] in *.
  pose proof (wr_env_ok _ _ _ _ He1 (le_bytes_ok 8 gsp) Hw2) as He2. cbn [zregs] in He2.
  pose proof (rd_mem_length _ _ _ _ (proj1 (proj1 (proj2 (proj2 (xl_area _ _ _ _ _ _ _ _ Hlay))))) Harea) as Hal.
  destruct (x2a_args_ok OFF_ZREGS envp ctxp hsp xroom gsp groom s0 Hlay ctx stk Hctx Hstk Hcok Hsok (bytes xxInfo) Hxr (jobs nf rt cs) 0 (ainfo xxInfo) (ainfo aaInfo) _ area He2 Hal)
    as (es3 & env3 & area3 & Hes3 & Hm3 & Hd3 & (He3 & Hfx & Hfz) & Hl3 & _).
  { by apply x2a_jobs_ok. }
  { intros j k [[c px] pa] [[c' px'] pa'] Hjk Hj Hk. destruct (jobs_lookup _ _ _ _ _ _ _ Hj) as (Hc & _ & Hp). destruct (jobs_lookup _ _ _ _ _ _ _ Hk) as (Hc' & _ & Hp').
    pose proof Hproto as (_ & _ & Hcs & _). by eapply (place_args_below nf cs 0 alloc0 j k); [..|exact Hp']; try done. }
  { intros j b Hj. destruct (jobs_infos nf rt cs) as [-> ->]. rewrite Nat.add_0_l, !list_lookup_fmap, Hj. done. }
  destruct (Hm3 s2 S2) as (s3 & E3 & S3). cbn [xregs zregs] in *.
  assert (length (le_bytes 8 gsp) = 8%nat) as Hl8 by apply length_le_bytes.
  exists (es1 ++ x2a_entry_sp (bytes aaInfo) ++ es3), s3, env3, area3. split_and!; try done.
  - unfold x2a_entry_moves. rewrite Hes1. cbn [mbind outcome_bind].
    destruct (xx_fn_info_bytes rt cs Hproto ltac:(lia)) as (_ & _ & ->). rewrite Nat2Z.id, <- (jobs_length nf rt cs). change 0 with (Z.of_nat 0). by rewrite Hes3.
  - rewrite exec_emits_app, E1. cbn [mbind outcome_bind]. rewrite exec_emits_app, E2. done.
  - unfold xreg. change (REG_SP_NUM * 8) with 248. rewrite (proj2 Hfx 248 8) by (apply Forall_singleton; cbn; lia).
    pose proof (rd_wr_same _ _ _ _ 0 8 Hw2 ltac:(lia) ltac:(lia) ltac:(lia)) as Hs'. rewrite Z.add_0_r in Hs'. rewrite Hs'. cbn [fmap outcome_fmap].
    f_equal. rewrite drop_0, take_ge by (rewrite Hl8; done). rewrite le_val_bytes. apply (wrap_small 64). destruct (xl_area _ _ _ _ _ _ _ _ Hlay) as (? & ? & ? & _). unfold in_u. lia.
  - intros Href. rewrite (proj2 Hfx 64 8) by (apply Forall_singleton; cbn; lia). rewrite (rd_wr_other _ _ _ _ 64 8 Hw2) by lia. auto.
  - eapply framed_trans; [|eapply (framed_trans _ x1 x2)].
    + eapply framed_incl; [|exact Hf1]. intros off n [H1 _]%Forall_cons. apply Forall_singleton. cbn in *. case_match; lia.
    + eapply (framed_incl [(248, 8)]); [by intros off n [_ H1]%Forall_cons|]. eapply framed_wr; [exact Hw2|lia..].
    + eapply framed_incl; [|exact Hfx]. intros off n [H1 _]%Forall_cons. apply Forall_singleton. cbn in *. case_match; lia.
Qed.

(** ** Values *)

Lemma area_rd s env' area' oa n bs : x2a_sim s env' area' → 0 ≤ n → rd area' oa n = Ret bs → rd_mem (cmem s) (gsp + oa) n = Ret bs.
Proof using Hlay.
  intros Hs Hn Hr. destruct (xl_area _ _ _ _ _ _ _ _ Hlay) as (_ & _ & Hg2 & _). eapply rd_mem_at; [|exact Hn|apply Hs|exact Hr]. lia.
Qed.

(** A large structure is where its address says. *)
Lemma done_value_ref s env' area' c off li pa room : x2a_sim s env' area' → room ≤ xroom → value_type c = true → by_reference c = true →
  xx_shape c (OnStack off li) room → aa_shape c pa → match pa with OnStack oa _ => oa + stack_size c ≤ groom | InRegs _ => True end →
  aa_bytes c pa env' area' = Ret (le_bytes 8 (hsp + off)) →
  ∃ v, xx_arg_value args c (slot_info (OnStack off li) false (csize c)) = Ret v ∧
    aa_arg_value env' (cmem s) gsp c (slot_info pa true (csize c)) = Ret v.
Proof using Hlay Hctx Hstk.
  intros Hs Hxr Hval' Href (Ho & _ & Hb & -> & _) Ha Hfit Hd. pose proof (csize_pos c (value_wf c Hval')). destruct (xl_stack _ _ _ _ _ _ _ _ Hlay) as (Hh0 & Hh1 & Hh2).
  destruct (xl_area _ _ _ _ _ _ _ _ Hlay) as (_ & _ & Hg2 & _). pose proof (align_up_spec (csize c) 8 ltac:(lia)). pose proof (loc_info_range c).
  assert (in_u 32 off ∧ in_u 32 (loc_info c)) as [Hou Hlu] by (unfold in_u; lia). rewrite xx_value_stack by done.
  assert (Z.of_nat (length stk) = xroom) as Hsl by (eapply rd_mem_length; [|exact Hstk]; lia).
  rewrite (space_of_stack ctx stk) by (by eapply ctx_length || lia). pose proof (rd_ok stk off (csize c) Ho ltac:(lia)) as Hv.
  eexists. split; [exact Hv|]. assert (0 ≤ csize c) as Hc0 by lia. pose proof (x2a_rd_stk _ _ _ _ _ _ _ _ Hlay _ Hstk _ _ _ _ _ _ Hs Hc0 Hv) as Hv'.
  assert (le_val (le_bytes 8 (hsp + off)) = hsp + off) as Hp by (rewrite le_val_bytes; apply (wrap_small 64); unfold in_u; lia).
  unfold aa_arg_value. destruct pa as [rs|oa oi]; unfold aa_bytes in Hd.
  - destruct (aa_shape_seq c rs Ha) as (base & n & Hrs & _ & Hn & Hb1). rewrite Href in Hd.
    assert (n = 1) as ->.
    { destruct Ha as (k & n' & _ & _ & _ & Haa). assert (Z.of_nat (length rs) = n) as <- by (rewrite Hrs; apply reg_seq_length; lia).
      pose proof Href as Href'. unfold by_reference in Href'. destruct (hfa c) as [[]|]; [done|]. rewrite Href in Haa. by destruct Haa as [-> ->]. }
    rewrite reg_seq_1 in Hrs. subst rs. destruct (slot_regs_flags [(base, 0)] true (csize c)) as [-> ->].
    assert (pairs_ok [(base, 0)]) as Hpk by (rewrite <- reg_seq_1; apply reg_seq_ok; unfold TE_X0, TE_Q0 in *; lia).
    rewrite (slot_get [(base, 0)] _ _ 0 base 0) by (done || cbn; lia). cbn [mbind outcome_bind fmap list_fmap fst gather] in Hd |- *.
    destruct (rd_a64 env' base 8) as [bs|]; [|done]. cbn [mbind outcome_bind] in Hd |- *. rewrite app_nil_r in Hd. apply Ret_inj in Hd. by rewrite Hd, Hp.
  - destruct Ha as [Hoa ->]. destruct (slot_stack_flags oa 0 true (csize c)) as [-> ->]. unfold stack_size in *. rewrite Href in *.
    assert (in_u 32 oa ∧ in_u 32 0) as [Hau H0u] by (unfold in_u; lia). rewrite (proj1 (slot_stack_mem oa 0 true (csize c) Hau H0u)).
    rewrite (area_rd _ _ _ oa 8 _ Hs ltac:(lia) Hd). cbn [mbind outcome_bind]. by rewrite Hp.
Qed.

(** The guest reads the value the host passed. *)
Lemma done_value s env' area' b : x2a_sim s env' area' → bytes xxInfo ≤ xroom → x2a_job_ok OFF_ZREGS gsp groom (bytes xxInfo) b →
  env_ok env' → x2a_job_done hsp ctx stk env' area' b →
  ∃ v, xx_arg_value args b.1.1 (job_x b) = Ret v ∧ aa_arg_value env' (cmem s) gsp b.1.1 (job_a b) = Ret v.
Proof using Hlay Hctx Hstk.
  destruct b as [[c px] pa]. intros Hs Hxr (Hval' & Hx & Ha & _ & Hfit) Henv Hd. unfold x2a_job_done, x2a_done in Hd. cbn [job_x job_a fst].
  destruct (by_reference c) eqn:Href.
  { destruct px as [xrs|off li]; [destruct Hx as [Hsz _]; by rewrite (by_reference_small c Hsz) in Href|]. by eapply done_value_ref. }
  destruct (xl_area _ _ _ _ _ _ _ _ Hlay) as (Hg0 & Hg1 & Hg2 & _). pose proof (rd_mem_length _ _ _ _ (proj1 Hg2) (xs_area _ _ _ _ _ _ _ _ _ _ Hs)) as Hal.
  pose proof (csize_pos c (value_wf c Hval')).
  assert (∃ v, xx_arg_value args c (slot_info px false (csize c)) = Ret v) as [v Hv].
  { rewrite <- Hd. destruct pa as [rs|oa oi]; unfold aa_bytes; [rewrite Href; by apply aa_regs_readable|].
    destruct Ha as [Hoa ->]. unfold stack_size in *. rewrite Href in *. rewrite rd_ok by lia. by eexists. }
  exists v. split; [done|]. rewrite Hv in Hd. destruct pa as [rs|oa oi]; unfold aa_bytes in Hd.
  - rewrite Href in Hd. destruct (aa_shape_seq c rs Ha) as (base & n & Hrs & _ & Hn & Hb1).
    assert (pairs_ok rs ∧ (length rs ≤ 4)%nat) as [Hpk Hl4].
    { rewrite Hrs. split; [apply reg_seq_ok; unfold TE_X0, TE_Q0 in *; lia|]. pose proof (reg_seq_length base n). lia. }
    rewrite aa_value_regs in Hd |- * by done. done.
  - destruct Ha as [Hoa ->]. unfold stack_size in *. rewrite Href in *. rewrite aa_value_stack by (unfold in_u; lia). by eapply area_rd; [exact Hs|lia|].
Qed.
End entry.
