(* ===== verification/X2AExit.v ===== *)
(** * The exit code of a call from x86-64 to AArch64

    When the guest function returns, the second generated function stores its
    return value in the saved registers of the host caller, from where they
    are loaded, or in the caller's buffer, and takes the argument area off the
    guest's stack.  The code is a sequence of copies from emulated registers;
    here, unlike at the entry, HFAs of floats are taken apart correctly. *)

From S2P Require Import Prelude Bytes ABIArgInfo FfiTypes Layout Placement AAPrepCif HFA AAAlloc XXPrepCif XXClass XXAlloc CrossABI DyBridge DyEntry DyStep DyCorrect DyExit Handlers Memory X86 Encoder Machine A2XCode A2XSim A2XStep A2XArg A2XEntry A2XCall A2XExit A2XValid X2ACode X2ASim X2AEntry.

(** ** Return registers in the context *)

Definition ret_reg (r : Z) : Prop := r ∈ [TE_AL; TE_AX; TE_EAX; TE_RAX; TE_RDX; TE_XMM0; TE_XMM1].

Lemma space_of_ret ctx stk r n : Z.of_nat (length ctx) = SIZEOF_CONTEXT → ret_reg r → 0 ≤ n ≤ 8 →
  rd (space_of ctx stk) (x64_enum_2_ptr r) n = rd ctx (x64_enum_2_offset r) n.
Proof.
  intros Hl Hr Hn. assert (∀ i a w, ctx_parts !! i = Some (a, w) → 8 ≤ w → rd (space_of ctx stk) (parts_size (take i ctx_parts)) n = rd ctx a n) as H8.
  { intros i a w Hi Hw. rewrite <- (Z.add_0_r a). eapply (rd_part _ _ _ i); [done|exact ctx_parts_ok|exact Hi|lia..]. }
  assert (rd (space_of ctx stk) 64 n = rd ctx 144 n) as Hx1.
  { change 144 with (CTX_XMM0 + 16). eapply (rd_part ctx stk ctx_parts 6 CTX_XMM0 128 16); try done; try exact ctx_parts_ok; try lia. }
  unfold ret_reg in Hr. repeat (apply elem_of_cons in Hr as [->|Hr]).
  1-4: exact (H8 7%nat _ 8 eq_refl ltac:(lia)). 1: exact (H8 2%nat _ 8 eq_refl ltac:(lia)).
  1: exact (H8 6%nat _ 128 eq_refl ltac:(lia)). 1: exact Hx1. by apply not_elem_of_nil in Hr.
Qed.

(** ** Copies *)

(** [n] bytes of the emulated register [a] to the offset [o]. *)
Definition copy : Type := Z * Z * Z.

Section exit.
Context (OFF_ZREGS envp ctxp bufp blen : Z) (s0 : cpu).
Abbreviation m0 := (cmem s0).
Abbreviation a64_off := (a64_enum_2_offset OFF_ZREGS).

(** The context and the caller's buffer are apart from the emulated CPU and
    from the return address. *)
Record exit_layout : Prop := mk_exit_layout {
  el_env : layout OFF_ZREGS envp (λ _, None) m0 (gpr s0 TCG_REG_RSP) 8;
  el_ctx : 0 ≤ ctxp ∧ ctxp + SIZEOF_CONTEXT < 2 ^ 64 ∧ (16 | ctxp);
  el_buf : 0 ≤ bufp ∧ bufp + blen < 2 ^ 64 ∧ 0 ≤ blen;
  el_env_ctx : apart envp (OFF_ZREGS + 32 * ZREG_SIZE) ctxp SIZEOF_CONTEXT;
  el_env_buf : apart envp (OFF_ZREGS + 32 * ZREG_SIZE) bufp blen;
  el_ctx_buf : apart ctxp SIZEOF_CONTEXT bufp blen;
  el_ctx_ret : apart ctxp SIZEOF_CONTEXT (gpr s0 TCG_REG_RSP) 8;
  el_buf_ret : apart bufp blen (gpr s0 TCG_REG_RSP) 8
}.

Context (Hlay : exit_layout) (env : CPUARMState) (Hmem : env_mem OFF_ZREGS envp m0 env) (Henv : env_ok env).

Record exit_sim (s : cpu) (ctx buf : list Z) : Prop := mk_exit_sim {
  es_env : gpr s TCG_REG_RDI = envp;
  es_ctx : gpr s TCG_REG_RSI = ctxp;
  es_u64 : ∀ r, in_u 64 (gpr s r);
  es_gpr : ∀ r, r ≠ TCG_REG_RAX → r ≠ TCG_REG_R8 → gpr s r = gpr s0 r;
  es_xmm : ∀ k, k ≠ 0 → xmm s k = xmm s0 k;
  es_rdctx : rd_mem (cmem s) ctxp SIZEOF_CONTEXT = Ret ctx;
  es_rdbuf : rd_mem (cmem s) bufp blen = Ret buf;
  es_frame : ∀ a, (a < ctxp ∨ ctxp + SIZEOF_CONTEXT ≤ a) → (a < bufp ∨ bufp + blen ≤ a) → cmem s a = m0 a
}.

Ltac xlay := destruct Hlay as [[] ? ? ? ? ? ? ?]; unfold apart, SIZEOF_CONTEXT, ZREG_SIZE in *.

Lemma exit_set_gpr s ctx buf r v : exit_sim s ctx buf → r = TCG_REG_RAX ∨ r = TCG_REG_R8 → exit_sim (set_gpr s r v) ctx buf.
Proof using.
  clear. intros [] Hr. constructor; try done; cbn [gpr set_gpr].
  - by destruct Hr as [-> | ->].
  - by destruct Hr as [-> | ->].
  - intros k. case_match; [by apply wrap_range|done].
  - intros k H1 H2. destruct (Z.eqb_spec k r); [naive_solver|auto].
Qed.

Lemma exit_set_xmm s ctx buf bs : exit_sim s ctx buf → exit_sim (set_xmm s 0 bs) ctx buf.
Proof using. clear. intros []. constructor; try done. intros k Hk. cbn. rewrite (proj2 (Z.eqb_neq k 0)) by done. auto. Qed.

Lemma exit_wr_ctx s ctx buf off bs ctx' : exit_sim s ctx buf → wr ctx off bs = Ret ctx' →
  ∃ m, wr_mem (cmem s) (ctxp + off) bs = Ret m ∧ exit_sim (set_mem s m) ctx' buf.
Proof using Hlay.
  intros Hs Hw. pose proof (wr_inv _ _ _ _ Hw) as (Ho & Hb & _). assert (0 ≤ SIZEOF_CONTEXT) as H0 by done.
  pose proof (rd_mem_length _ _ _ _ H0 (es_rdctx _ _ _ Hs)) as Hl. destruct (wr_mem_at _ _ _ _ _ _ _ H0 (es_rdctx _ _ _ Hs) Hw) as [m Hm].
  exists m. split; [done|]. destruct Hs. constructor; cbn [gpr xmm cmem set_mem]; try done.
  - by eapply rd_wr_mem_at.
  - rewrite <- es_rdbuf0. eapply rd_wr_mem_other; [exact Hm|]. xlay. lia.
  - intros a Ha Hb'. erewrite wr_mem_other; [by apply es_frame0|exact Hm|]. lia.
Qed.

Lemma exit_wr_buf s ctx buf off bs buf' : exit_sim s ctx buf → wr buf off bs = Ret buf' →
  ∃ m, wr_mem (cmem s) (bufp + off) bs = Ret m ∧ exit_sim (set_mem s m) ctx buf'.
Proof using Hlay.
  intros Hs Hw. pose proof (wr_inv _ _ _ _ Hw) as (Ho & Hb & _). destruct (el_buf Hlay) as (_ & _ & H0).
  pose proof (rd_mem_length _ _ _ _ H0 (es_rdbuf _ _ _ Hs)) as Hl. destruct (wr_mem_at _ _ _ _ _ _ _ H0 (es_rdbuf _ _ _ Hs) Hw) as [m Hm].
  exists m. split; [done|]. destruct Hs. constructor; cbn [gpr xmm cmem set_mem]; try done.
  - rewrite <- es_rdctx0. eapply rd_wr_mem_other; [exact Hm|]. xlay. lia.
  - by eapply rd_wr_mem_at.
  - intros a Ha Hb'. erewrite wr_mem_other; [by apply es_frame0|exact Hm|]. lia.
Qed.

(** The emulated registers are not written. *)
Lemma exit_env_mem s ctx buf : exit_sim s ctx buf → env_mem OFF_ZREGS envp (cmem s) env.
Proof using Hlay Hmem.
  intros Hs. destruct Hmem as [Hx Hz]. split; [rewrite <- Hx|rewrite <- Hz]; apply rd_mem_ext; intros a Ha; apply (es_frame _ _ _ Hs); xlay; lia.
Qed.

Lemma exit_rd_a64 s ctx buf num n bs : exit_sim s ctx buf → 0 ≤ n → rd_a64 env num n = Ret bs →
  cload s (ea s TCG_REG_RDI (a64_off num)) n = Ret bs.
Proof using Hlay Hmem.
  intros Hs Hn Hr. pose proof (exit_env_mem _ _ _ Hs) as [Hx Hz]. unfold rd_a64 in Hr. destruct (a64_enum_2_ptr num) as [p|] eqn:Hp; [|done].
  pose proof (env_off_range _ _ _ _ _ _ (el_env Hlay) _ _ Hp). unfold cload. rewrite (ea_small s _ envp) by (apply Hs || xlay; lia).
  rewrite (env_off _ _ _ Hp). destruct p as [o|o].
  - by apply (rd_mem_at _ _ 256 (xregs env)).
  - rewrite Z.add_assoc. by apply (rd_mem_at _ _ (32 * ZREG_SIZE) (zregs env)).
Qed.

(** The code of a copy to the context. *)
Definition ctx_copy (p : copy) : list emit :=
  let '(n, a, o) := p in
  if n =? 16 then [E_ld128 TCG_REG_XMM0 TCG_REG_RDI (a64_off a); E_st128 TCG_REG_XMM0 TCG_REG_RSI o]
  else [ld_aarch64_enum OFF_ZREGS TCG_REG_RAX a; E_st (if n =? 4 then TCG_TYPE_I32 else TCG_TYPE_PTR) TCG_REG_RAX TCG_REG_RSI o].

Definition copy_ok (p : copy) : Prop :=
  let '(n, a, o) := p in
  (∃ bs, rd_a64 env a 16 = Ret bs) ∧ 0 ≤ o ∧ o + n ≤ SIZEOF_CONTEXT ∧ (n = 4 ∨ n = 8 ∨ n = 16 ∧ (16 | a64_off a) ∧ (16 | o)).

Lemma rd_a64_take num n bs m : rd_a64 env num n = Ret bs → 0 ≤ m ≤ n → rd_a64 env num m = Ret (take (Z.to_nat m) bs).
Proof using. clear. unfold rd_a64. destruct (a64_enum_2_ptr num) as [[o|o]|]; [| |done]; intros Hr Hm; by eapply rd_take. Qed.

Lemma rd_a64_bytes num n bs : 0 ≤ n → rd_a64 env num n = Ret bs → bytes_ok bs ∧ Z.of_nat (length bs) = n.
Proof using Henv.
  intros Hn Hr. destruct Henv as (_ & _ & Hx & Hz). unfold rd_a64 in Hr. destruct (a64_enum_2_ptr num) as [[o|o]|]; [| |done];
    (split; [eapply rd_bytes_ok; [|exact Hr]; done|by eapply rd_length]).
Qed.

Lemma ctx_copy_ok p s ctx buf : exit_sim s ctx buf → copy_ok p →
  let '(n, a, o) := p in ∃ bs ctx' s', rd_a64 env a n = Ret bs ∧ wr ctx o bs = Ret ctx' ∧ exec_emits (ctx_copy p) s = Ret s' ∧ exit_sim s' ctx' buf.
Proof using Hlay Hmem Henv.
  destruct p as [[n a] o]. intros Hs ((b16 & Hb) & Ho & Hfit & Hn). assert (0 ≤ n ≤ 16) as Hn16 by lia.
  pose proof (rd_a64_take _ _ _ n Hb Hn16) as Hr. destruct (rd_a64_bytes a n _ ltac:(lia) Hr) as [Hok Hl]. set (bs := take (Z.to_nat n) b16) in *.
  assert (0 ≤ SIZEOF_CONTEXT) as H0 by done. pose proof (rd_mem_length _ _ _ _ H0 (es_rdctx _ _ _ Hs)) as Hlc.
  destruct (wr_copy ctx o bs) as (ctx' & Hw & _ & _); [lia|lia|]. unfold ctx_copy.
  assert (ea s TCG_REG_RSI o = ctxp + o) as Hea by (apply ea_small; [apply Hs|]; xlay; lia).
  destruct (decide (n = 16)) as [->|Hne].
  - destruct Hn as [?|[?|(_ & Ha1 & Ha2)]]; [done|done|]. change (16 =? 16) with true. cbv iota.
    assert (exit_sim (set_xmm s 0 bs) ctx buf) as Hs1 by (by apply exit_set_xmm).
    destruct (exit_wr_ctx _ _ _ _ _ _ Hs1 Hw) as (m & Hm & Hs2). exists bs, ctx', (set_mem (set_xmm s 0 bs) m). split_and!; [done|done| |done].
    cbn [exec_emits]. rewrite (exec_ld128 _ _ _ _ bs); [|rewrite (ea_small s _ envp); [apply Z.divide_add_r; [apply (el_env Hlay)|done]|apply Hs|]|by eapply exit_rd_a64].
    + cbn [mbind outcome_bind]. change (TCG_REG_XMM0 - 16) with 0. erewrite exec_st128; [done| |]; change (ea (set_xmm s 0 bs) TCG_REG_RSI o) with (ea s TCG_REG_RSI o); rewrite Hea.
      * apply Z.divide_add_r; [apply Hlay|done].
      * exact Hm.
    + destruct (rd_a64_ptr _ _ _ _ Hb) as [q Hq]. pose proof (env_off_range _ _ _ _ _ _ (el_env Hlay) _ _ Hq). xlay. lia.
  - rewrite (proj2 (Z.eqb_neq n 16)) by done. pose proof (rd_a64_take _ _ _ 8 Hb ltac:(lia)) as Hr8. destruct (rd_a64_bytes a 8 _ ltac:(lia) Hr8) as [Hok8 Hl8].
    set (b8 := take (Z.to_nat 8) b16) in *. assert (exit_sim (set_gpr s TCG_REG_RAX (le_val b8)) ctx buf) as Hs1 by (apply exit_set_gpr; [done|by left]).
    destruct (exit_wr_ctx _ _ _ _ _ _ Hs1 Hw) as (m & Hm & Hs2). exists bs, ctx', (set_mem (set_gpr s TCG_REG_RAX (le_val b8)) m). split_and!; [done|done| |done].
    cbn [exec_emits]. unfold ld_aarch64_enum, ld_aarch64. rewrite (exec_ld _ _ _ _ _ b8) by (by eapply exit_rd_a64). cbn [mbind outcome_bind].
    erewrite exec_st; [done|]. change (ea (set_gpr s TCG_REG_RAX (le_val b8)) TCG_REG_RSI o) with (ea s TCG_REG_RSI o). rewrite Hea.
    rewrite <- Hm. f_equal. cbn [gpr set_gpr TCG_REG_RAX Z.eqb]. rewrite wrap_small by (apply le_val_u64; [done|lia]).
    assert (bs = take (Z.to_nat n) b8) as Hbs by (unfold bs, b8; rewrite take_take; f_equal; lia). rewrite Hbs.
    destruct Hn as [->|[->|[? _]]]; [| |done]; (rewrite <- le_bytes_low; [done|by apply Forall_take|lia]).
Qed.

Definition copy_dst (p : copy) : Z * Z := let '(n, _, o) := p in (o, n).
Definition copied (l : list Z) (p : copy) : Prop := let '(n, a, o) := p in rd l o n = rd_a64 env a n.

(** Later destinations do not overlap earlier ones. *)
Fixpoint dsts_disjoint (L : list copy) : bool :=
  match L with
  | [] => true
  | p :: L => forallb (λ q, ((copy_dst p).1 + (copy_dst p).2 <=? (copy_dst q).1) || ((copy_dst q).1 + (copy_dst q).2 <=? (copy_dst p).1)) L && dsts_disjoint L
  end.

Lemma ctx_copies_ok L s ctx buf : exit_sim s ctx buf → Forall copy_ok L → dsts_disjoint L = true →
  ∃ ctx' s', exec_emits (mjoin (ctx_copy <$> L)) s = Ret s' ∧ exit_sim s' ctx' buf ∧ Forall (copied ctx') L ∧ framed (copy_dst <$> L) ctx ctx'.
Proof using Hlay Hmem Henv.
  revert s ctx. induction L as [|[[n a] o] L IH]; intros s ctx Hs HL Hd.
  { exists ctx, s. split_and!; [done|done|by apply Forall_nil_2|apply framed_refl]. }
  apply Forall_cons in HL as [Hp HL]. cbn [dsts_disjoint] in Hd. apply andb_prop in Hd as [Hd1 Hd].
  destruct (ctx_copy_ok (n, a, o) s ctx buf Hs Hp) as (bs & ctx1 & s1 & Hr & Hw & E1 & S1).
  destruct (IH s1 ctx1 S1 HL Hd) as (ctx' & s' & E2 & S2 & Hc & Hf). destruct Hp as ((b16 & Hb) & Ho & Hfit & Hn).
  destruct (rd_a64_bytes a n bs ltac:(lia) Hr) as [_ Hl].
  exists ctx', s'. split_and!; [|done| |].
  - change (mjoin (ctx_copy <$> (n, a, o) :: L)) with (ctx_copy (n, a, o) ++ mjoin (ctx_copy <$> L)). by rewrite exec_emits_app, E1.
  - apply Forall_cons. split; [|done]. cbn [copied]. rewrite Hr, (proj2 Hf).
    + pose proof (rd_wr_same _ _ _ _ 0 n Hw ltac:(lia) ltac:(lia) ltac:(lia)) as Hrs. rewrite Z.add_0_r in Hrs. rewrite Hrs, drop_0, take_ge by lia. done.
    + apply Forall_fmap, Forall_forall. intros q Hq. apply forallb_forall with (x := q) in Hd1; [|by apply list_elem_of_In]. cbn in Hd1. unfold compose. apply orb_prop in Hd1 as [H1|H1]; apply Z.leb_le in H1; lia.
  - eapply framed_trans; [apply (framed_head (o, n)); eapply framed_wr; [exact Hw|lia..]|]. by apply framed_cons.
Qed.

(** ** Return values in registers *)

(** The copies of a return value that stays in registers. *)
Definition ret_copies (c : cty) : list copy :=
  match hfa c with
  | Some (SFloat, 1) => [(16, TE_S0, 128)]
  | Some (SFloat, 2) => [(4, TE_S0, 128); (4, TE_S0 + 1, 132)]
  | Some (SFloat, 3) => [(4, TE_S0, 128); (4, TE_S0 + 1, 132); (4, TE_S0 + 2, 144)]
  | Some (SFloat, _) => [(4, TE_S0, 128); (4, TE_S0 + 1, 132); (4, TE_S0 + 2, 144); (4, TE_S0 + 3, 148)]
  | Some (_, 1) => [(16, TE_D0, 128)]
  | Some (_, _) => [(16, TE_D0, 128); (16, TE_D0 + 1, 144)]
  | None =>
      match c with
      | CScalar SVoid => []
      | CScalar _ => [(8, if csize c <? 8 then TE_W0 else TE_X0, 0)]
      | CStruct _ =>
          if csize c =? 8 then [if sse_at (code_class c 0) 0 then (16, TE_X0, 128) else (8, TE_X0, 0)]
          else if sse_at (code_class c 0) 0 then [(16, TE_X0, 128); (8, TE_X0 + 1, 0)] else [(8, TE_X0, 0); (8, TE_X0 + 1, 24)]
      end
  end.

(** A structure whose second eightbyte is in an SSE register would be loaded
    from X1, which is no multiple of 16. *)
Definition x2a_return (c : cty) : bool :=
  match hfa c with Some _ => true | None => (16 <? csize c) || negb (sse_at (code_class c 0) 1) end.

Lemma ret_direct_code c : return_type c → csize c ≤ 16 → x2a_return c = true →
  x2a_ret_direct OFF_ZREGS (slot_info (InRegs (xx_ret_regs c)) false 0) (slot_info (aa_ret_place c) false 0) = Ret (mjoin (ctx_copy <$> ret_copies c)).
Proof using.
  clear. intros Hrt Hsz Hx. unfold ret_copies, x2a_return in *. destruct (hfa c) as [[s n]|] eqn:Hh.
  - destruct Hrt as [Hval| ->]; [|done]. destruct (hfa_ret_regs [] c s n Hval Hh Hsz) as (Hcs & Hcase & Hxr & Har). rewrite Hcs in Hxr. rewrite Hxr, Har.
    destruct Hcase as [[-> Hn]|[-> Hn]]; destruct_or! Hn; subst n; reflexivity.
  - destruct c as [s|fs]; [destruct s; try discriminate Hh; reflexivity|].
    rewrite (proj2 (Z.ltb_ge 16 _)) in Hx by lia. cbn [orb] in Hx. apply negb_true_iff in Hx. destruct Hrt as [Hval|?]; [|done].
    unfold xx_ret_regs, aa_ret_place, xx_ret_struct_regs. rewrite Hh, (proj2 (Z.ltb_ge 16 _)), Hx by lia.
    destruct ((csize (CStruct fs) =? 4) && sse_at (code_class (CStruct fs) 0) 0) eqn:H4.
    { apply andb_prop in H4 as [H4 Hs]. apply Z.eqb_eq in H4. by rewrite (one_float _ Hval H4 Hs) in Hh. }
    destruct (csize (CStruct fs) =? 8), (sse_at (code_class (CStruct fs) 0) 0); reflexivity.
Qed.

Lemma copied_rd ctx n a o m b : copied ctx (n, a, o) → rd_a64 env a 16 = Ret b → 0 ≤ m ≤ n → n ≤ 16 → rd ctx o m = Ret (take (Z.to_nat m) b).
Proof using.
  clear. unfold copied. intros Hc Hb Hm Hn. rewrite (rd_a64_take _ _ _ n Hb) in Hc by lia. rewrite (rd_take _ _ _ m _ Hc) by lia. f_equal. rewrite take_take. f_equal. lia.
Qed.

Lemma ret_reg_16 a : a = TE_W0 ∨ TE_X0 ≤ a ≤ TE_X0 + 1 ∨ TE_S0 ≤ a ≤ TE_S0 + 3 ∨ TE_D0 ≤ a ≤ TE_D0 + 1 → ∃ b, rd_a64 env a 16 = Ret b ∧ length b = 16%nat.
Proof using Henv.
  intros Ha. destruct Henv as (Hx & Hz & _). unfold TE_X0, TE_S0, TE_D0, ZREG_SIZE in *.
  assert (a = TE_W0 ∨ a = 33 ∨ a = 34 ∨ a = 1 ∨ a = 2 ∨ a = 3 ∨ a = 4 ∨ a = 9 ∨ a = 10) as Hc by lia.
  assert (∃ b, rd_a64 env a 16 = Ret b) as [b Hb]; [|exists b; split; [done|]; unfold rd_a64 in Hb; destruct (a64_enum_2_ptr a) as [[]|]; try done; apply rd_length in Hb; lia].
  unfold rd_a64. destruct_or! Hc; subst a; cbn; (rewrite rd_ok; [by eexists|done|unfold TE_X0, TE_S0, TE_D0, ZREG_SIZE; lia]).
Qed.

Lemma z_off_aligned a k : a64_enum_2_ptr a = Some (ZPtr (k * ZREG_SIZE)) → (16 | a64_off a).
Proof using Hlay.
  intros Ha. rewrite (env_off _ _ _ Ha). apply Z.divide_add_r; [apply (el_env Hlay)|]. exists (k * 16). unfold ZREG_SIZE. lia.
Qed.

Ltac each_copy H :=
  repeat (apply Forall_cons_2; [apply H; unfold TE_X0, TE_S0, TE_D0, SIZEOF_CONTEXT; cbn; auto 6; lia|]); apply Forall_nil_2.

Lemma ret_copies_ok c : return_type c → csize c ≤ 16 → Forall copy_ok (ret_copies c) ∧ dsts_disjoint (ret_copies c) = true.
Proof using Hlay Henv.
  intros Hrt Hsz. assert (∀ a n o, a = TE_W0 ∨ TE_X0 ≤ a ≤ TE_X0 + 1 ∨ TE_S0 ≤ a ≤ TE_S0 + 3 ∨ TE_D0 ≤ a ≤ TE_D0 + 1 → 0 ≤ o → o + n ≤ SIZEOF_CONTEXT →
    n = 4 ∨ n = 8 ∨ n = 16 ∧ (16 | a64_off a) ∧ (16 | o) → copy_ok (n, a, o)) as Hok.
  { intros a n o Ha Ho Hf Hn. destruct (ret_reg_16 a Ha) as (b & Hb & _). split_and!; [by exists b|done|done|done]. }
  assert ((16 | a64_off TE_S0) ∧ (16 | a64_off TE_D0) ∧ (16 | a64_off (TE_D0 + 1)) ∧ (16 | a64_off TE_X0)) as (Hs0 & Hd0 & Hd1 & Hx0).
  { split_and!; [by apply (z_off_aligned _ 0)|by apply (z_off_aligned _ 0)|by apply (z_off_aligned _ 1)|by exists 0]. }
  assert ((16 | 128) ∧ (16 | 144)) as [Ho1 Ho2] by (split; [by exists 8|by exists 9]).
  unfold ret_copies. destruct (hfa c) as [[s n]|] eqn:Hh.
  - destruct Hrt as [Hval| ->]; [|done]. destruct (hfa_ret_regs [] c s n Hval Hh Hsz) as (_ & Hcase & _).
    destruct Hcase as [[-> Hn]|[-> Hn]]; destruct_or! Hn; subst n; (split; [each_copy Hok|reflexivity]).
  - destruct c as [s|fs].
    + destruct s; try discriminate Hh; (split; [each_copy Hok|reflexivity]).
    + destruct (csize (CStruct fs) =? 8), (sse_at (code_class (CStruct fs) 0) 0); (split; [each_copy Hok|reflexivity]).
Qed.

Context (stk : list Z).

(** What the host caller reads in its registers. *)
Lemma ret_words ctx c xrs ars buf bs vs : Z.of_nat (length ctx) = SIZEOF_CONTEXT → pairs_ok xrs → (length xrs ≤ 4)%nat → pairs_ok ars → (length ars ≤ 4)%nat →
  Forall (λ p, ret_reg p.1) xrs → gather (λ r, rd ctx (x64_enum_2_offset r) 8) xrs.*1 = Ret bs →
  match hfa c with
  | Some (s, _) => gather (λ r, rd_a64 env r (scalar_size s)) ars.*1 = Ret vs ∧ take (Z.to_nat (csize c)) bs = vs
  | None => gather (λ r, rd_a64 env r 8) ars.*1 = Ret vs ∧ take (Z.to_nat (csize c)) bs = take (Z.to_nat (csize c)) vs
  end →
  ∃ v, xx_ret_value (space_of ctx stk) buf c (slot_info (InRegs xrs) false 0) = Ret v ∧ aa_ret_value env c (slot_info (InRegs ars) false 0) = Ret v.
Proof using.
  clear. intros Hl Hxok Hxl Haok Hal Hret Hg Hv. exists (take (Z.to_nat (csize c)) bs). split.
  - rewrite xx_value_small by done. rewrite (gather_ext _ (λ r, rd ctx (x64_enum_2_offset r) 8)), Hg; [done|].
    intros r Hr. apply list_elem_of_fmap in Hr as (p & -> & Hp). rewrite Forall_forall in Hret. apply space_of_ret; [done|by apply Hret|lia].
  - unfold aa_ret_value. rewrite word_regs_slot by done. destruct (hfa c) as [[s n]|]; destruct Hv as [-> Hv]; by rewrite Hv.
Qed.

Lemma gather_1 f r b : f r = Ret b → gather f [r] = Ret b.
Proof using. clear. intros H. cbn [gather]. rewrite H. cbn [mbind outcome_bind]. by rewrite app_nil_r. Qed.

Lemma gather_step f r rs b c : f r = Ret b → gather f rs = Ret c → gather f (r :: rs) = Ret (b ++ c).
Proof using. clear. intros H1 H2. rewrite gather_cons, H1, H2. done. Qed.

(** Two floats in one eightbyte. *)
Lemma rd_two_floats ctx o a0 a1 b0 b1 : copied ctx (4, a0, o) → copied ctx (4, a1, o + 4) → rd_a64 env a0 16 = Ret b0 → rd_a64 env a1 16 = Ret b1 →
  rd ctx o 8 = Ret (take 4 b0 ++ take 4 b1).
Proof using.
  clear. intros H0 H1 R0 R1. apply (rd_app ctx o 4 4); [lia|lia|by eapply (copied_rd ctx 4 a0 o 4)|by eapply (copied_rd ctx 4 a1 (o + 4) 4)].
Qed.

Lemma float_regs : ∃ b0 b1 b2 b3, rd_a64 env TE_S0 16 = Ret b0 ∧ rd_a64 env (TE_S0 + 1) 16 = Ret b1 ∧ rd_a64 env (TE_S0 + 2) 16 = Ret b2 ∧
  rd_a64 env (TE_S0 + 3) 16 = Ret b3 ∧ length b0 = 16%nat ∧ length b1 = 16%nat ∧ length b2 = 16%nat ∧ length b3 = 16%nat.
Proof using Henv.
  destruct (ret_reg_16 TE_S0) as (b0 & ? & ?); [lia|]. destruct (ret_reg_16 (TE_S0 + 1)) as (b1 & ? & ?); [lia|].
  destruct (ret_reg_16 (TE_S0 + 2)) as (b2 & ? & ?); [lia|]. destruct (ret_reg_16 (TE_S0 + 3)) as (b3 & ? & ?); [lia|]. by exists b0, b1, b2, b3.
Qed.

Ltac regs_ok := repeat (apply Forall_cons_2; [split_and!; by vm_compute|]); apply Forall_nil_2.
Ltac rets_ok := repeat (apply Forall_cons_2; [unfold ret_reg; cbn [fst]; set_solver|]); apply Forall_nil_2.

Lemma value_floats ctx buf c n : hfa c = Some (SFloat, n) → n = 1 ∨ n = 2 ∨ n = 3 ∨ n = 4 → csize c = 4 * n → Z.of_nat (length ctx) = SIZEOF_CONTEXT →
  Forall (copied ctx) (ret_copies c) →
  ∃ v, xx_ret_value (space_of ctx stk) buf c (slot_info (InRegs (if csize c <=? 8 then [(TE_XMM0, TE_Full)] else [(TE_XMM0, TE_Full); (TE_XMM1, TE_Full)])) false 0) = Ret v ∧
    aa_ret_value env c (slot_info (InRegs (reg_seq TE_S0 n)) false 0) = Ret v.
Proof using Henv.
  clear Hmem Hlay. intros Hh Hn Hc Hl Hcp. destruct float_regs as (b0 & b1 & b2 & b3 & R0 & R1 & R2 & R3 & L0 & L1 & L2 & L3). unfold ret_copies in Hcp. rewrite Hh in Hcp. rewrite Hc.
  assert (∀ a b, rd_a64 env a 16 = Ret b → rd_a64 env a 4 = Ret (take 4 b)) as R4 by (intros a b Hb; by apply (rd_a64_take _ _ _ 4 Hb)).
  destruct_or! Hn; subst n; (match goal with |- context [if ?b then [_] else _] => let v := eval vm_compute in b in change b with v end); cbv iota in *; rewrite ?Forall_cons in Hcp.
  - destruct Hcp as [C0 _]. eapply ret_words; [done|regs_ok|cbn; lia|by apply reg_seq_ok|vm_compute; lia|rets_ok|..].
    + apply gather_1. eapply (copied_rd ctx 16 TE_S0 128 8); [done|done|lia|lia].
    + rewrite Hh, Hc. split; [by apply gather_1, R4|]. by rewrite take_take.
  - destruct Hcp as (C0 & C1 & _). eapply ret_words; [done|regs_ok|cbn; lia|by apply reg_seq_ok|vm_compute; lia|rets_ok|..].
    + apply gather_1. by eapply (rd_two_floats ctx 128 TE_S0 (TE_S0 + 1)).
    + rewrite Hh, Hc. split; [apply gather_step; [by apply R4|by apply gather_1, R4]|]. apply take_ge. rewrite length_app, !length_take. lia.
  - destruct Hcp as (C0 & C1 & C2 & _). assert (∃ w, rd ctx 148 4 = Ret w ∧ length w = 4%nat) as (w & Hw & Lw).
    { rewrite rd_ok by (unfold SIZEOF_CONTEXT in Hl; lia). eexists. split; [done|]. rewrite length_take, length_drop. unfold SIZEOF_CONTEXT in Hl. lia. }
    eapply ret_words; [done|regs_ok|cbn; lia|by apply reg_seq_ok|vm_compute; lia|rets_ok|..].
    + apply gather_step; [by eapply (rd_two_floats ctx 128 TE_S0 (TE_S0 + 1))|]. apply gather_1. apply (rd_app ctx 144 4 4); [lia|lia| |exact Hw].
      eapply (copied_rd ctx 4 (TE_S0 + 2) 144 4); [done|done|lia|lia].
    + rewrite Hh, Hc. split; [apply gather_step; [by apply R4|apply gather_step; [by apply R4|by apply gather_1, R4]]|].
      rewrite !app_assoc, take_app_le by (rewrite !length_app, !length_take; lia). by rewrite take_ge by (rewrite !length_app, !length_take; lia).
  - destruct Hcp as (C0 & C1 & C2 & C3 & _). eapply ret_words; [done|regs_ok|cbn; lia|by apply reg_seq_ok|vm_compute; lia|rets_ok|..].
    + apply gather_step; [by eapply (rd_two_floats ctx 128 TE_S0 (TE_S0 + 1))|]. apply gather_1. by eapply (rd_two_floats ctx 144 (TE_S0 + 2) (TE_S0 + 3)).
    + rewrite Hh, Hc. split; [apply gather_step; [by apply R4|apply gather_step; [by apply R4|apply gather_step; [by apply R4|by apply gather_1, R4]]]|].
      rewrite <- !app_assoc. apply take_ge. rewrite !length_app, !length_take. lia.
Qed.

Lemma value_doubles ctx buf c n : hfa c = Some (SDouble, n) → n = 1 ∨ n = 2 → csize c = 8 * n → Z.of_nat (length ctx) = SIZEOF_CONTEXT →
  Forall (copied ctx) (ret_copies c) →
  ∃ v, xx_ret_value (space_of ctx stk) buf c (slot_info (InRegs (if csize c <=? 8 then [(TE_XMM0, TE_Full)] else [(TE_XMM0, TE_Full); (TE_XMM1, TE_Full)])) false 0) = Ret v ∧
    aa_ret_value env c (slot_info (InRegs (reg_seq TE_D0 n)) false 0) = Ret v.
Proof using Henv.
  clear Hmem Hlay. intros Hh Hn Hc Hl Hcp. destruct (ret_reg_16 TE_D0) as (b0 & R0 & L0); [lia|]. destruct (ret_reg_16 (TE_D0 + 1)) as (b1 & R1 & L1); [lia|].
  unfold ret_copies in Hcp. rewrite Hh in Hcp. rewrite Hc.
  assert (∀ a b, rd_a64 env a 16 = Ret b → rd_a64 env a 8 = Ret (take 8 b)) as R8 by (intros a b Hb; by apply (rd_a64_take _ _ _ 8 Hb)).
  destruct_or! Hn; subst n; (match goal with |- context [if ?b then [_] else _] => let v := eval vm_compute in b in change b with v end); cbv iota in *; rewrite ?Forall_cons in Hcp.
  - destruct Hcp as [C0 _]. eapply ret_words; [done|regs_ok|cbn; lia|by apply reg_seq_ok|vm_compute; lia|rets_ok|..].
    + apply gather_1. eapply (copied_rd ctx 16 TE_D0 128 8); [done|done|lia|lia].
    + rewrite Hh, Hc. split; [by apply gather_1, R8|]. by rewrite take_take.
  - destruct Hcp as (C0 & C1 & _). eapply ret_words; [done|regs_ok|cbn; lia|by apply reg_seq_ok|vm_compute; lia|rets_ok|..].
    + apply gather_step; [eapply (copied_rd ctx 16 TE_D0 128 8); [done|done|lia|lia]|]. apply gather_1. eapply (copied_rd ctx 16 (TE_D0 + 1) 144 8); [done|done|lia|lia].
    + rewrite Hh, Hc. split; [apply gather_step; [by apply R8|by apply gather_1, R8]|]. apply take_ge. rewrite length_app, !length_take. lia.
Qed.

(** Values in general registers, of the guest at least. *)
Lemma value_words ctx buf c : return_type c → hfa c = None → csize c ≤ 16 → x2a_return c = true → Z.of_nat (length ctx) = SIZEOF_CONTEXT →
  Forall (copied ctx) (ret_copies c) →
  ∃ v, xx_ret_value (space_of ctx stk) buf c (slot_info (InRegs (xx_ret_regs c)) false 0) = Ret v ∧ aa_ret_value env c (slot_info (aa_ret_place c) false 0) = Ret v.
Proof using Henv.
  clear Hmem Hlay. intros Hrt Hh Hsz Hx Hl Hcp. unfold x2a_return in Hx. rewrite Hh, (proj2 (Z.ltb_ge 16 _)) in Hx by lia. cbn [orb] in Hx. apply negb_true_iff in Hx.
  assert (∀ a n o, copied ctx (n, a, o) → (a = TE_W0 ∨ TE_X0 ≤ a ≤ TE_X0 + 1) → 8 ≤ n ≤ 16 → ∃ b, rd ctx o 8 = Ret b ∧ rd_a64 env a 8 = Ret b) as H8.
  { intros a n o Hc Ha Hn. destruct (ret_reg_16 a) as (b & R & _); [lia|]. exists (take 8 b). split; [by eapply (copied_rd ctx n a o 8); [..|lia|lia]|by apply (rd_a64_take _ _ _ 8 R)]. }
  destruct c as [s|fs].
  - destruct (decide (s = SVoid)) as [->|Hv].
    + eapply (ret_words ctx (CScalar SVoid) [] [] buf [] []); [done|regs_ok|cbn; lia|regs_ok|cbn; lia|rets_ok|done|]. by rewrite Hh.
    + unfold ret_copies in Hcp. rewrite Hh in Hcp.
      assert (∃ x li a, xx_ret_regs (CScalar s) = [(x, li)] ∧ aa_ret_place (CScalar s) = InRegs [(a, 0)] ∧ pairs_ok [(x, li)] ∧ pairs_ok [(a, 0)] ∧ ret_reg x ∧ x64_enum_2_offset x = 0 ∧
        copied ctx (8, a, 0) ∧ (a = TE_W0 ∨ TE_X0 ≤ a ≤ TE_X0 + 1)) as (x & li & a & -> & -> & Hpx & Hpa & Hret & Hoff & Hc & Ha).
      { destruct s; try discriminate Hh; try done; apply Forall_cons in Hcp as [Hc _]; eexists _, _, _; (split; [reflexivity|]); (split; [reflexivity|]);
          (split; [regs_ok|]); (split; [regs_ok|]); (split; [unfold ret_reg; set_solver|]); (split; [reflexivity|]); (split; [exact Hc|]); cbn; first [by left|right; unfold TE_X0; lia]. }
      destruct (H8 _ _ _ Hc Ha ltac:(lia)) as (b & R1 & R2).
      eapply (ret_words ctx (CScalar s) [(x, li)] [(a, 0)] buf b b); [done|done|cbn; lia|done|cbn; lia|by apply Forall_cons_2; [|apply Forall_nil_2]| |].
      * apply gather_1. change (rd ctx (x64_enum_2_offset x) 8 = Ret b). by rewrite Hoff.
      * rewrite Hh. split; [by apply gather_1|done].
  - destruct Hrt as [Hval|?]; [|done]. unfold ret_copies in Hcp. rewrite Hh in Hcp.
    unfold xx_ret_regs, aa_ret_place, xx_ret_struct_regs. rewrite Hh, (proj2 (Z.ltb_ge 16 _)), Hx by lia.
    destruct ((csize (CStruct fs) =? 4) && sse_at (code_class (CStruct fs) 0) 0) eqn:H4.
    { apply andb_prop in H4 as [H4 Hs]. apply Z.eqb_eq in H4. by rewrite (one_float _ Hval H4 Hs) in Hh. }
    destruct (csize (CStruct fs) =? 8).
    + apply Forall_cons in Hcp as [Hc _].
      destruct (sse_at (code_class (CStruct fs) 0) 0); destruct (H8 _ _ _ Hc ltac:(right; lia) ltac:(lia)) as (b & R1 & R2);
        (eapply ret_words; [done|regs_ok|cbn; lia|by apply reg_seq_ok|vm_compute; lia|rets_ok|by apply gather_1|]); rewrite Hh; (split; [by apply gather_1|done]).
    + destruct (sse_at (code_class (CStruct fs) 0) 0); apply Forall_cons in Hcp as [Hc0 [Hc1 _]%Forall_cons];
        destruct (H8 _ _ _ Hc0 ltac:(right; lia) ltac:(lia)) as (b0 & R0 & R0'); destruct (H8 _ _ _ Hc1 ltac:(right; lia) ltac:(lia)) as (b1 & R1 & R1');
        (eapply ret_words; [done|regs_ok|cbn; lia|by apply reg_seq_ok|vm_compute; lia|rets_ok|apply gather_step; [exact R0|by apply gather_1]|]);
        rewrite Hh; (split; [apply gather_step; [exact R0'|by apply gather_1]|done]).
Qed.

Lemma direct_value ctx buf c : return_type c → csize c ≤ 16 → x2a_return c = true → Z.of_nat (length ctx) = SIZEOF_CONTEXT → Forall (copied ctx) (ret_copies c) →
  ∃ v, xx_ret_value (space_of ctx stk) buf c (slot_info (InRegs (xx_ret_regs c)) false 0) = Ret v ∧ aa_ret_value env c (slot_info (aa_ret_place c) false 0) = Ret v.
Proof using Henv.
  clear Hmem Hlay. intros Hrt Hsz Hx Hl Hcp. destruct (hfa c) as [[s n]|] eqn:Hh; [|by apply value_words].
  destruct Hrt as [Hval| ->]; [|done]. destruct (hfa_ret_regs [] c s n Hval Hh Hsz) as (Hcs & Hcase & -> & ->).
  destruct Hcase as [[-> Hn]|[-> Hn]]; [by apply value_floats|by apply value_doubles].
Qed.

(** ** Three or four doubles, to the buffer of the caller *)

Definition buf_copy (p : copy) : list emit :=
  let '(_, a, o) := p in [ld_aarch64_enum OFF_ZREGS TCG_REG_RAX a; E_st TCG_TYPE_PTR TCG_REG_RAX TCG_REG_R8 o].

Definition buf_copy_ok (p : copy) : Prop :=
  let '(n, a, o) := p in n = 8 ∧ (∃ bs, rd_a64 env a 8 = Ret bs) ∧ 0 ≤ o ∧ o + 8 ≤ blen.

Lemma buf_copies_ok L s ctx buf : exit_sim s ctx buf → gpr s TCG_REG_R8 = bufp → Forall buf_copy_ok L → dsts_disjoint L = true →
  ∃ buf' s', exec_emits (mjoin (buf_copy <$> L)) s = Ret s' ∧ exit_sim s' ctx buf' ∧ Forall (copied buf') L ∧ framed (copy_dst <$> L) buf buf'.
Proof using Hlay Hmem Henv.
  revert s buf. induction L as [|[[n a] o] L IH]; intros s buf Hs H8 HL Hd.
  { exists buf, s. split_and!; [done|done|by apply Forall_nil_2|apply framed_refl]. }
  apply Forall_cons in HL as [(-> & (bs & Hr) & Ho & Hfit) HL]. cbn [dsts_disjoint] in Hd. apply andb_prop in Hd as [Hd1 Hd].
  destruct (rd_a64_bytes a 8 bs ltac:(lia) Hr) as [Hok Hl]. pose proof (rd_mem_length _ _ _ _ (proj2 (proj2 (el_buf Hlay))) (es_rdbuf _ _ _ Hs)) as Hlb.
  destruct (wr_copy buf o bs) as (buf1 & Hw & _ & _); [lia|lia|]. assert (exit_sim (set_gpr s TCG_REG_RAX (le_val bs)) ctx buf) as Hs1 by (apply exit_set_gpr; [done|by left]).
  destruct (exit_wr_buf _ _ _ _ _ _ Hs1 Hw) as (m & Hm & Hs2).
  destruct (IH _ buf1 Hs2 H8 HL Hd) as (buf' & s' & E2 & S2 & Hc & Hf).
  exists buf', s'. split_and!; [|done| |].
  - change (mjoin (buf_copy <$> (8, a, o) :: L)) with (buf_copy (8, a, o) ++ mjoin (buf_copy <$> L)). rewrite exec_emits_app.
    cbn [buf_copy exec_emits]. unfold ld_aarch64_enum, ld_aarch64. rewrite (exec_ld _ _ _ _ _ bs) by (by eapply exit_rd_a64). cbn [mbind outcome_bind].
    erewrite exec_st; [cbn [mbind outcome_bind]; exact E2|]. rewrite (ea_small _ _ bufp); [|exact H8|xlay; lia]. rewrite <- Hm. f_equal. cbn [gpr set_gpr TCG_REG_RAX Z.eqb].
    rewrite wrap_small by (apply le_val_u64; [done|lia]). apply le_bytes_8; [done|lia].
  - apply Forall_cons. split; [|done]. cbn [copied]. rewrite Hr, (proj2 Hf).
    + pose proof (rd_wr_same _ _ _ _ 0 8 Hw ltac:(lia) ltac:(lia) ltac:(lia)) as Hrs. rewrite Z.add_0_r in Hrs. rewrite Hrs, drop_0, take_ge by lia. done.
    + apply Forall_fmap, Forall_forall. intros q Hq. apply forallb_forall with (x := q) in Hd1; [|by apply list_elem_of_In]. cbn in Hd1. unfold compose. apply orb_prop in Hd1 as [H1|H1]; apply Z.leb_le in H1; lia.
  - eapply framed_trans; [apply (framed_head (o, 8)); eapply framed_wr; [exact Hw|lia..]|]. by apply framed_cons.
Qed.

Definition sret_copies (n : Z) : list copy := (λ j, (8, TE_D0 + j, 8 * j)) <$> seqZ 0 n.

Lemma sret_code n : n = 3 ∨ n = 4 →
  x2a_ret_to_sret OFF_ZREGS (slot_info (InRegs [(TE_RDI, TE_Full)]) true 0) (slot_info (InRegs (reg_seq TE_D0 n)) false 0) =
  Ret (ld_x86_64_enum TCG_REG_R8 TE_RDI :: mjoin (buf_copy <$> sret_copies n)).
Proof using. clear. intros [-> | ->]; reflexivity. Qed.

Lemma sret_value buf c n : n = 3 ∨ n = 4 → hfa c = Some (SDouble, n) → csize c = 8 * n → Forall (copied buf) (sret_copies n) → ∀ ctx,
  ∃ v, xx_ret_value (space_of ctx stk) buf c (slot_info (InRegs [(TE_RDI, TE_Full)]) true 0) = Ret v ∧
    aa_ret_value env c (slot_info (InRegs (reg_seq TE_D0 n)) false 0) = Ret v.
Proof using Henv.
  clear Hmem Hlay. intros Hn Hh Hc Hcp ctx. unfold xx_ret_value, aa_ret_value. destruct (slot_regs_flags [(TE_RDI, TE_Full)] true 0) as [_ ->].
  rewrite Hh, Hc, word_regs_slot by (try apply reg_seq_ok; destruct Hn; subst n; (done || vm_compute; lia)). change (scalar_size SDouble) with 8.
  assert (∀ j, 0 ≤ j < 4 → ∃ b, rd_a64 env (TE_D0 + j) 8 = Ret b) as Hrd.
  { intros j Hj. destruct Henv as (_ & Hz & _). unfold rd_a64. assert (j = 0 ∨ j = 1 ∨ j = 2 ∨ j = 3) as Hcs by lia. unfold ZREG_SIZE in Hz.
    destruct_or! Hcs; subst j; (eexists; apply rd_ok; [done|rewrite Hz; done]). }
  destruct (Hrd 0) as [b0 R0]; [lia|]. destruct (Hrd 1) as [b1 R1]; [lia|]. destruct (Hrd 2) as [b2 R2]; [lia|]. destruct (Hrd 3) as [b3 R3]; [lia|].
  destruct Hn as [-> | ->].
  - apply Forall_cons in Hcp as [C0 [C1 [C2 _]%Forall_cons]%Forall_cons]. change (rd buf 0 8 = rd_a64 env (TE_D0 + 0) 8) in C0. change (rd buf 8 8 = rd_a64 env (TE_D0 + 1) 8) in C1.
    change (rd buf 16 8 = rd_a64 env (TE_D0 + 2) 8) in C2. rewrite R0 in C0. rewrite R1 in C1. rewrite R2 in C2.
    exists (b0 ++ b1 ++ b2). split; [|apply gather_step; [exact R0|apply gather_step; [exact R1|by apply gather_1]]].
    apply (rd_app buf 0 8 16); [lia|lia|exact C0|]. apply (rd_app buf 8 8 8); [lia|lia|exact C1|exact C2].
  - apply Forall_cons in Hcp as [C0 [C1 [C2 [C3 _]%Forall_cons]%Forall_cons]%Forall_cons]. change (rd buf 0 8 = rd_a64 env (TE_D0 + 0) 8) in C0. change (rd buf 8 8 = rd_a64 env (TE_D0 + 1) 8) in C1.
    change (rd buf 16 8 = rd_a64 env (TE_D0 + 2) 8) in C2. change (rd buf 24 8 = rd_a64 env (TE_D0 + 3) 8) in C3. rewrite R0 in C0. rewrite R1 in C1. rewrite R2 in C2. rewrite R3 in C3.
    exists (b0 ++ b1 ++ b2 ++ b3). split; [|apply gather_step; [exact R0|apply gather_step; [exact R1|apply gather_step; [exact R2|by apply gather_1]]]].
    apply (rd_app buf 0 8 24); [lia|lia|exact C0|]. apply (rd_app buf 8 8 16); [lia|lia|exact C1|]. apply (rd_app buf 16 8 8); [lia|lia|exact C2|exact C3].
Qed.

(** ** The whole exit *)

Record exited (s : cpu) (env' : CPUARMState) (ctx buf : list Z) : Prop := mk_exited {
  ex_gpr : ∀ r, r ≠ TCG_REG_RAX → r ≠ TCG_REG_R8 → gpr s r = gpr s0 r;
  ex_xmm : ∀ k, k ≠ 0 → xmm s k = xmm s0 k;
  ex_env : env_mem OFF_ZREGS envp (cmem s) env';
  ex_rdctx : rd_mem (cmem s) ctxp SIZEOF_CONTEXT = Ret ctx;
  ex_rdbuf : rd_mem (cmem s) bufp blen = Ret buf;
  ex_frame : ∀ a, ¬ env_byte OFF_ZREGS envp a → (a < ctxp ∨ ctxp + SIZEOF_CONTEXT ≤ a) → (a < bufp ∨ bufp + blen ≤ a) → cmem s a = m0 a
}.

(** The argument area is taken off the guest's stack. *)
Lemma exit_sp s ctx buf sp k : exit_sim s ctx buf → xreg env REG_SP_NUM = Ret sp → in_u 64 sp → in_u 64 (sp + k) →
  ∃ s' x', exec_emits [ld_aarch64 TCG_REG_RAX (OFF_XREG REG_SP_NUM); E_addi TCG_REG_RAX k; st_aarch64 TCG_REG_RAX (OFF_XREG REG_SP_NUM)] s = Ret s' ∧
    wr (xregs env) 248 (le_bytes 8 (sp + k)) = Ret x' ∧ exited s' (mk_env x' (zregs env)) ctx buf.
Proof using Hlay Hmem Henv.
  intros Hs Hsp Hu Hu'. unfold xreg in Hsp. destruct (rd (xregs env) (REG_SP_NUM * 8) 8) as [bs|] eqn:Hr; [|done]. apply Ret_inj in Hsp.
  pose proof (exit_env_mem _ _ _ Hs) as He. assert (ea s TCG_REG_RDI (OFF_XREG REG_SP_NUM) = envp + 248) as Hea.
  { rewrite (ea_small s _ envp); [done|apply Hs|]. unfold OFF_XREG, REG_SP_NUM. xlay. lia. }
  set (s1 := set_gpr s TCG_REG_RAX (le_val bs)). assert (exec_emit (ld_aarch64 TCG_REG_RAX (OFF_XREG REG_SP_NUM)) s = Ret s1) as E1.
  { apply exec_ld. unfold cload. rewrite Hea. by apply (rd_mem_at _ _ 256 (xregs env)); [..|apply He|exact Hr]. }
  assert (gpr s1 TCG_REG_RAX = sp) as R1 by (cbn; rewrite Hsp; by apply wrap_small).
  destruct (exec_addi TCG_REG_RAX k s1) as (s2 & E2 & Hg2 & Hx2 & Hm2); [by rewrite R1|]. rewrite R1, wrap_small in Hg2 by done.
  destruct (wr_copy (xregs env) 248 (le_bytes 8 (sp + k))) as (x' & Hw & _); [lia|rewrite (proj1 Henv), length_le_bytes; lia|].
  destruct (env_mem_wr_x _ _ _ _ _ _ (el_env Hlay) (cmem s) env _ _ _ He Hw) as (m & Hm & Hem & Hout).
  exists (set_mem s2 m), x'. split_and!; [|done|].
  - rewrite (exec_emits_cons _ _ _ _ E1), (exec_emits_cons _ _ _ _ E2). cbn [exec_emits]. unfold st_aarch64. erewrite exec_st; [done|].
    assert (ea s2 TCG_REG_RDI (OFF_XREG REG_SP_NUM) = envp + 248) as -> by (rewrite <- Hea; unfold ea; by rewrite Hg2). rewrite Hm2, Hg2. exact Hm.
  - assert (∀ a, (ctxp ≤ a < ctxp + SIZEOF_CONTEXT ∨ bufp ≤ a < bufp + blen) → m a = cmem s a) as Hkeep
      by (intros a Ha; apply Hout; unfold A2XSim.env_byte; xlay; lia).
    destruct Hs. constructor; cbn [gpr xmm cmem set_mem]; try done.
    + intros r H1 H2. rewrite Hg2, (proj2 (Z.eqb_neq r _)) by done. cbn [gpr set_gpr s1]. rewrite (proj2 (Z.eqb_neq r _)) by done. auto.
    + intros j Hj. rewrite Hx2. by apply es_xmm0.
    + rewrite <- es_rdctx0. apply rd_mem_ext. intros a Ha. apply Hkeep. by left.
    + rewrite <- es_rdbuf0. apply rd_mem_ext. intros a Ha. apply Hkeep. by right.
    + intros a Ha H1 H2. rewrite Hout by done. by apply es_frame0.
Qed.

Context (nf : Z) (rt : cty) (cs : list cty).
Abbreviation xxInfo := (xx_fn_info rt cs).
Abbreviation aaInfo := (aa_fn_info nf rt cs).

(** The return registers of the context. *)
Definition ret_fps : list (Z * Z) := [(CTX_RAX, 8); (CTX_RDX, 8); (CTX_XMM0, 32)].

(** Footprints inside others. *)
Definition covered (fps fps' : list (Z * Z)) : bool :=
  forallb (λ p, existsb (λ q, (q.1 <=? p.1) && (p.1 + p.2 <=? q.1 + q.2)) fps') fps.

Lemma framed_covered fps fps' l l' : covered fps fps' = true → framed fps l l' → framed fps' l l'.
Proof using.
  clear. intros Hc. apply framed_incl. intros off n Ho. apply Forall_forall. intros p Hp. unfold covered in Hc. rewrite forallb_forall in Hc.
  specialize (Hc p ltac:(by apply list_elem_of_In)). apply existsb_exists in Hc as (q & Hq & Hb). apply andb_prop in Hb as [H1%Z.leb_le H2%Z.leb_le].
  unfold outside in Ho. rewrite Forall_forall in Ho. apply list_elem_of_In in Hq. specialize (Ho q Hq). lia.
Qed.

Lemma ret_copies_covered c : covered (copy_dst <$> ret_copies c) ret_fps = true.
Proof using.
  clear. unfold ret_copies. destruct (hfa c) as [[s n]|]; [destruct s; repeat case_match; reflexivity|]. destruct c as [s|fs]; [by destruct s|].
  destruct (csize (CStruct fs) =? 8), (sse_at (code_class (CStruct fs) 0) 0); reflexivity.
Qed.

(** The return value moves to where the host caller reads it. *)
Lemma x2a_ret_moves_ok ctx buf : return_type rt → x2a_return rt = true → by_reference rt = false → exit_sim s0 ctx buf →
  (16 < csize rt → rd ctx CTX_RDI 8 = Ret (le_bytes 8 bufp) ∧ csize rt = blen) →
  ∃ es s' ctx' buf', (if 16 <? csize rt then x2a_ret_to_sret OFF_ZREGS (rinfo xxInfo) (rinfo aaInfo) else x2a_ret_direct OFF_ZREGS (rinfo xxInfo) (rinfo aaInfo)) = Ret es ∧
    exec_emits es s0 = Ret s' ∧ exit_sim s' ctx' buf' ∧ framed ret_fps ctx ctx' ∧
    ∃ v, xx_ret_value (space_of ctx' stk) buf' rt (rinfo xxInfo) = Ret v ∧ aa_ret_value env rt (rinfo aaInfo) = Ret v.
Proof using Hlay Hmem Henv.
  intros Hrt Hx Href Hs Hbuf. rewrite xx_fn_info_ret, aa_fn_info_ret, Href. destruct (Z.ltb_spec 16 (csize rt)) as [Hsz|Hsz].
  - rewrite xx_ret_large by done. unfold by_reference in Href. destruct (hfa rt) as [[s n]|] eqn:Hh; [|apply Z.ltb_ge in Href; lia].
    destruct Hrt as [Hval| ->]; [|done]. destruct (hfa_size rt s n (value_wf rt Hval) Hh) as [Hcs _]. destruct (hfa_inv _ _ _ Hh) as [Hfp Hn4].
    assert (s = SDouble ∧ (n = 3 ∨ n = 4)) as [-> Hn] by (destruct s; try done; [change (scalar_size SFloat) with 4 in Hcs; lia|change (scalar_size SDouble) with 8 in Hcs; split; [done|lia]]). change (scalar_size SDouble) with 8 in Hcs.
    assert (aa_ret_place rt = InRegs (reg_seq TE_D0 n)) as -> by (unfold aa_ret_place; by rewrite Hh). rewrite (sret_code n Hn).
    destruct (Hbuf Hsz) as [Hrdi Hbl]. destruct (el_buf Hlay) as (Hb0 & Hb1 & _).
    assert (le_val (le_bytes 8 bufp) = bufp) as Hle by (rewrite le_val_bytes; apply (wrap_small 64); unfold in_u; lia).
    set (s1 := set_gpr s0 TCG_REG_R8 bufp). assert (exec_emit (ld_x86_64_enum TCG_REG_R8 TE_RDI) s0 = Ret s1) as E1.
    { unfold s1. rewrite <- Hle at 1. apply exec_ld. unfold cload. rewrite (ea_small s0 _ ctxp); [|apply Hs|change (x64_enum_2_offset TE_RDI) with 32; xlay; lia].
      apply (rd_mem_at _ _ SIZEOF_CONTEXT ctx); [done|done|apply Hs|exact Hrdi]. }
    assert (exit_sim s1 ctx buf) as Hs1 by (apply exit_set_gpr; [done|by right]).
    destruct (buf_copies_ok (sret_copies n) s1 ctx buf Hs1) as (buf' & s' & E2 & S2 & Hc & _).
    + cbn. apply wrap_small. unfold in_u. lia.
    + apply Forall_fmap, Forall_forall. intros j [Hj1 Hj2]%elem_of_seqZ. cbn. split_and!; [done| |lia|lia].
      destruct Henv as (_ & Hz & _). unfold rd_a64. rewrite (vreg_ptr TE_D0 j) by (auto; lia). unfold ZREG_SIZE in *. eexists. apply rd_ok; lia.
    + by destruct Hn; subst n.
    + eexists _, s', ctx, buf'. split_and!; [reflexivity| |exact S2|apply framed_refl|].
      * by rewrite (exec_emits_cons _ _ _ _ E1).
      * eapply sret_value; [exact Hn|done|lia|done].
  - assert (csize rt ≤ 16) as Hsz' by lia. destruct (ret_copies_ok rt Hrt Hsz') as [Hok Hd].
    destruct (ctx_copies_ok (ret_copies rt) s0 ctx buf Hs Hok Hd) as (ctx' & s' & E & S' & Hc & Hf).
    eexists _, s', ctx', buf. split_and!; [by apply ret_direct_code|exact E|done|eapply framed_covered; [apply ret_copies_covered|exact Hf]|].
    apply direct_value; try done. assert (0 ≤ SIZEOF_CONTEXT) as H0 by done. exact (rd_mem_length _ _ _ _ H0 (es_rdctx _ _ _ S')).
Qed.

Lemma exit_start ctx buf : gpr s0 TCG_REG_RDI = envp → gpr s0 TCG_REG_RSI = ctxp → (∀ r, in_u 64 (gpr s0 r)) →
  rd_mem m0 ctxp SIZEOF_CONTEXT = Ret ctx → rd_mem m0 bufp blen = Ret buf → exit_sim s0 ctx buf.
Proof using. clear. intros. by constructor. Qed.

Lemma x2a_exit_ok ctx buf sp k : return_type rt → x2a_return rt = true → exit_sim s0 ctx buf →
  (16 < csize rt → by_reference rt = false → rd ctx CTX_RDI 8 = Ret (le_bytes 8 bufp) ∧ csize rt = blen) →
  xreg env REG_SP_NUM = Ret sp → in_u 64 sp → k = ALIGN2POW (bytes aaInfo) 16 → in_u 64 (sp + k) →
  ∃ es s' x' ctx' buf', x2a_exit_moves OFF_ZREGS aaInfo xxInfo = Ret es ∧ exec_emits es s0 = Ret s' ∧
    wr (xregs env) 248 (le_bytes 8 (sp + k)) = Ret x' ∧ exited s' (mk_env x' (zregs env)) ctx' buf' ∧ framed ret_fps ctx ctx' ∧
    (by_reference rt = true → ctx' = ctx ∧ buf' = buf) ∧
    (by_reference rt = false → ∃ v, xx_ret_value (space_of ctx' stk) buf' rt (rinfo xxInfo) = Ret v ∧ aa_ret_value env rt (rinfo aaInfo) = Ret v).
Proof using Hlay Hmem Henv.
  intros Hrt Hx Hs Hbuf Hsp Hu -> Hu'.
  assert (∃ es s1 ctx' buf', match te_is_indirect (rinfo xxInfo), te_is_indirect (rinfo aaInfo) with
      | false, false => x2a_ret_direct OFF_ZREGS (rinfo xxInfo) (rinfo aaInfo) | true, false => x2a_ret_to_sret OFF_ZREGS (rinfo xxInfo) (rinfo aaInfo) | _, true => Ret [] end = Ret es ∧
      exec_emits es s0 = Ret s1 ∧ exit_sim s1 ctx' buf' ∧ framed ret_fps ctx ctx' ∧ (by_reference rt = true → ctx' = ctx ∧ buf' = buf) ∧
      (by_reference rt = false → ∃ v, xx_ret_value (space_of ctx' stk) buf' rt (rinfo xxInfo) = Ret v ∧ aa_ret_value env rt (rinfo aaInfo) = Ret v))
    as (es & s1 & ctx' & buf' & Hes & E1 & S1 & Hf & Hyes & Hno).
  { assert (te_is_indirect (rinfo xxInfo) = (16 <? csize rt)) as -> by (rewrite xx_fn_info_ret; apply slot_regs_flags).
    assert (te_is_indirect (rinfo aaInfo) = by_reference rt) as -> by (rewrite aa_fn_info_ret; apply aa_ret_indirect).
    destruct (by_reference rt) eqn:Href.
    - exists [], s0, ctx, buf. split_and!; [by destruct (16 <? csize rt)|done|done|apply framed_refl|done|done].
    - destruct (x2a_ret_moves_ok ctx buf Hrt Hx Href Hs) as (es & s1 & ctx' & buf' & Hes & E1 & S1 & Hf & Hv); [auto|].
      exists es, s1, ctx', buf'. split_and!; [by destruct (16 <? csize rt)|done|done|done|done|done]. }
  destruct (exit_sp s1 ctx' buf' sp (ALIGN2POW (bytes aaInfo) 16) S1 Hsp Hu Hu') as (s2 & x' & E2 & Hw & Hex).
  eexists _, s2, x', ctx', buf'. split_and!; [|by rewrite exec_emits_app, E1; cbn [mbind outcome_bind]; exact E2|done..].
  unfold x2a_exit_moves. rewrite Hes. done.
Qed.
End exit.
