(* ===== verification/X2AValid.v ===== *)
(** * The calls of the encoder in [x64toAArch64.inc.c] are within its range

    As [A2XValid] for the other direction; in addition, straight-line code that
    ends with a return is followed to the address on the stack. *)

From S2P Require Import Prelude Bytes ABIArgInfo FfiTypes Layout Placement AAPrepCif HFA AAAlloc XXPrepCif XXClass XXAlloc CrossABI DyBridge DyEntry DyStep DyCorrect DyExit Handlers Memory X86 Encoder Machine A2XCode A2XSim A2XEntry A2XCall A2XValid X2ACode X2ASim.

Lemma te_get_reg_range x j r : te_get_reg x j = Ret r → 0 ≤ r < 256.
Proof. unfold te_get_reg. intros H. inv_outcome. subst r. unfold get_piece. apply (wrap_range 8). lia. Qed.

Lemma ctx_off_int32 r d : 0 ≤ r < 256 → 0 ≤ d ≤ 8 → is_int32 (x64_enum_2_offset r + d) = true.
Proof.
  intros Hr Hd. apply int32_ok. unfold x64_enum_2_offset, CTX_RAX, CTX_RDI, CTX_RSI, CTX_RDX, CTX_RCX, CTX_R8, CTX_R9, CTX_XMM0, TE_XMM0. repeat case_match; lia.
Qed.

Lemma ctx_off_int32_0 r : 0 ≤ r < 256 → is_int32 (x64_enum_2_offset r) = true.
Proof. intros Hr. rewrite <- (Z.add_0_r (x64_enum_2_offset r)). by apply ctx_off_int32. Qed.

Section valid.
Context (OFF_ZREGS : Z) (Hoff : 0 ≤ OFF_ZREGS < 2 ^ 20).

Ltac operands :=
  unfold ld_x86_64_enum, st_x86_64_enum, ld_aarch64_enum, st_aarch64_enum, ld_x86_64, st_x86_64, ld_aarch64, st_aarch64;
  cbn [valid int_type andb];
  repeat match goal with
  | |- context [is_int32 (a64_enum_2_offset OFF_ZREGS ?n)] => rewrite (a64_off_int32_0 OFF_ZREGS Hoff n)
  | H : is_int32 ?x = true |- context [is_int32 ?x] => rewrite H
  | H : (sext 64 ?x =? ?x) = true |- context [sext 64 ?x] => rewrite H
  end; reflexivity.
Ltac each_valid :=
  repeat first [assumption | apply Forall_nil_2 | apply Forall_cons_2; [operands|] | apply Forall_app_2].

Lemma x2a_reg_reg_valid xx aa j es : x2a_reg_reg OFF_ZREGS xx aa j = Ret es → all_valid es.
Proof using Hoff.
  unfold x2a_reg_reg. destruct (te_get_reg xx j) as [xr|] eqn:Hxr; [|done]. destruct (te_get_reg aa j) as [ar|]; [|done].
  pose proof (ctx_off_int32_0 xr (te_get_reg_range _ _ _ Hxr)). cbn [mbind outcome_bind]. destruct (is_xmm xr); intros <-%Ret_inj; each_valid.
Qed.

Lemma x2a_first_S_valid xr a0 : 0 ≤ xr < 256 → all_valid (x2a_first_S OFF_ZREGS xr a0).
Proof using Hoff. intros Hr%ctx_off_int32_0. unfold x2a_first_S. each_valid. Qed.

Lemma x2a_next_S_valid a1 : all_valid (x2a_next_S OFF_ZREGS a1).
Proof using Hoff. unfold x2a_next_S. each_valid. Qed.

Lemma x2a_arg_reg_reg_valid xx aa es : x2a_arg_reg_reg OFF_ZREGS xx aa = Ret es → all_valid es.
Proof using Hoff.
  unfold x2a_arg_reg_reg. destruct (_ =? te_num_of_reg aa).
  { intros H. eapply emit_loop_valid; [exact H|]. intros k es' _. apply x2a_reg_reg_valid. }
  destruct (_ <? _); [|done]. destruct (_ && _); [|destruct (2 =? _); [|done]].
  - unfold x2a_one_to_two. intros H. apply bind_Ret in H as (x0 & Hx & H). do 4 apply bind_Ret in H as (? & _ & H). apply Ret_inj in H. subst es.
    apply Forall_app_2; [apply x2a_first_S_valid; by eapply te_get_reg_range|apply x2a_next_S_valid].
  - unfold x2a_two_to_many. intros H. apply bind_Ret in H as (x0 & Hx0 & H). apply bind_Ret in H as (x1 & Hx1 & H). do 8 apply bind_Ret in H as (? & _ & H).
    apply bind_Ret in H as (last & Hlast & H%Ret_inj). subst es.
    assert (all_valid last) as Hl.
    { destruct (4 =? _); [|apply Ret_inj in Hlast; subst last; done]. do 2 apply bind_Ret in Hlast as (? & _ & Hlast). apply Ret_inj in Hlast. subst last. apply x2a_next_S_valid. }
    repeat apply Forall_app_2; [apply x2a_first_S_valid; by eapply te_get_reg_range|apply x2a_next_S_valid|apply x2a_first_S_valid; by eapply te_get_reg_range|done].
Qed.

Lemma x2a_regs_to_mem_valid xx base step off j n es : 0 ≤ base → 0 ≤ off → 0 ≤ step ≤ 64 → base + off + 64 * Z.of_nat n < 2 ^ 31 →
  x2a_regs_to_mem xx base step off j n = Ret es → all_valid es.
Proof using.
  clear Hoff. revert off j es. induction n as [|n IH]; intros off j es Hb Ho Hs Hlt; cbn [x2a_regs_to_mem].
  - by intros [= <-].
  - destruct (te_get_reg xx j) as [xr|] eqn:Hxr; [|done]. pose proof (ctx_off_int32_0 xr (te_get_reg_range _ _ _ Hxr)). cbn [mbind outcome_bind].
    rewrite (wrap_small 32 (base + off)) by (unfold in_u; lia). assert (is_int32 (base + off) = true) as Hi by (apply int32_ok; lia).
    assert (∀ d es1 es', all_valid es1 → 0 ≤ d ≤ 64 → (es2 ← x2a_regs_to_mem xx base step (u32 (off + d)) (j + 1) n; Ret (es1 ++ es2)) = Ret es' → all_valid es') as Hrest.
    { intros d es1 es' He1 Hd H'. destruct (x2a_regs_to_mem _ _ _ _ _ n) as [es2|] eqn:H2; [|done]. injection H' as <-. apply Forall_app_2; [done|].
      rewrite wrap_small in H2 by (unfold in_u; lia). eapply IH; [..|exact H2]; lia. }
    destruct (is_xmm xr); intros H'; (eapply Hrest; [|..|exact H']; [|lia]); each_valid.
Qed.

Lemma x2a_mem_reg_valid xx aa wide j es : 0 ≤ te_get_mem xx < 2 ^ 31 - 1024 → 0 ≤ j ≤ 4 → x2a_mem_reg OFF_ZREGS xx aa wide j = Ret es → all_valid es.
Proof using Hoff.
  intros Hx Hj. unfold x2a_mem_reg. destruct (te_get_reg aa j) as [ar|]; [|done]. cbn [mbind outcome_bind].
  rewrite !wrap_small by (unfold in_u; lia).
  assert (is_int32 (te_get_mem xx + 16 * j) = true ∧ is_int32 (te_get_mem xx + 8 * j) = true) as [H1 H2] by (split; apply int32_ok; lia).
  destruct wide; intros <-%Ret_inj; each_valid.
Qed.

Lemma x2a_arg_valid xx aa es : word_valid xx → word_valid aa → (te_is_mem xx = false → te_get_arg_size aa ≤ 64) → x2a_arg OFF_ZREGS xx aa = Ret es → all_valid es.
Proof using Hoff.
  intros [Hxc Hxm Hxs] [Hac Ham Has] Hsmall. unfold x2a_arg. destruct (_ || _); [by intros <-%Ret_inj|].
  destruct (te_is_indirect xx), (te_is_mem xx) eqn:Hx, (te_is_indirect aa), (te_is_mem aa) eqn:Ha; try discriminate.
  - specialize (Hxm eq_refl). specialize (Ham eq_refl). pose proof (int32_ok (te_get_mem aa) ltac:(lia)). pose proof (int32_ok (te_get_mem xx) ltac:(lia)).
    intros <-%Ret_inj. unfold x2a_arg_address. each_valid.
  - destruct (te_get_reg aa 0) as [ar|]; [|discriminate]. specialize (Hxm eq_refl). pose proof (int32_ok (te_get_mem xx) ltac:(lia)).
    intros <-%Ret_inj. unfold x2a_arg_address. each_valid.
  - specialize (Hxm eq_refl). specialize (Ham eq_refl). unfold x2a_arg_mem_mem. destruct (c_assert _); [|discriminate]. intros <-%Ret_inj.
    pose proof (int32_ok (te_get_mem aa) ltac:(lia)). pose proof (int32_ok (te_get_mem xx) ltac:(lia)). pose proof (int64_ok (te_get_arg_size xx) ltac:(lia)). each_valid.
  - unfold x2a_arg_mem_reg. intros H. eapply emit_loop_valid; [exact H|]. intros k es' Hk. apply x2a_mem_reg_valid; [by apply Hxm|lia].
  - specialize (Ham eq_refl). specialize (Hsmall eq_refl). unfold x2a_arg_reg_mem.
    assert (0 ≤ te_get_arg_size aa / te_num_of_reg xx ≤ 64) as Hstep.
    { destruct (decide (te_num_of_reg xx = 0)) as [->|]; [by rewrite Z.div_0_r|]. split; [apply Z.div_pos; lia|]. apply Z.div_le_upper_bound; lia. }
    apply x2a_regs_to_mem_valid; lia.
  - apply x2a_arg_reg_reg_valid.
Qed.

(** ** Exit *)

Lemma x2a_ret_reg_valid xx aa j es : x2a_ret_reg OFF_ZREGS xx aa j = Ret es → all_valid es.
Proof using Hoff.
  unfold x2a_ret_reg. destruct (te_get_reg xx j) as [xr|] eqn:Hxr; [|done]. destruct (te_get_reg aa j) as [ar|]; [|done].
  pose proof (ctx_off_int32_0 xr (te_get_reg_range _ _ _ Hxr)). cbn [mbind outcome_bind]. destruct (is_xmm xr); intros <-%Ret_inj; each_valid.
Qed.

Lemma x2a_S_reg_valid ar off : is_int32 off = true → all_valid (x2a_S_reg OFF_ZREGS ar off).
Proof using Hoff. intros H. unfold x2a_S_reg. each_valid. Qed.

Lemma x2a_ret_direct_valid xx aa es : x2a_ret_direct OFF_ZREGS xx aa = Ret es → all_valid es.
Proof using Hoff.
  unfold x2a_ret_direct. destruct (_ =? te_num_of_reg aa).
  { intros H. eapply emit_loop_valid; [exact H|]. intros k es' _. apply x2a_ret_reg_valid. }
  destruct (_ <? _); [|done].
  assert (∀ x j r a d, te_get_reg x j = Ret r → d = 0 ∨ d = 4 → all_valid (x2a_S_reg OFF_ZREGS a (x64_enum_2_offset r + d))) as Hs.
  { intros x j r a d Hr Hd. apply x2a_S_reg_valid, ctx_off_int32; [by eapply te_get_reg_range|lia]. }
  assert (∀ x j r a, te_get_reg x j = Ret r → all_valid (x2a_S_reg OFF_ZREGS a (x64_enum_2_offset r))) as Hs0.
  { intros x j r a Hr. rewrite <- (Z.add_0_r (x64_enum_2_offset r)). eapply Hs; [exact Hr|by left]. }
  destruct (_ && _); [|destruct (2 =? _); [|done]].
  - unfold x2a_ret_two_to_one. intros H. apply bind_Ret in H as (x0 & Hx & H). do 5 apply bind_Ret in H as (? & _ & H). apply Ret_inj in H. subst es.
    apply Forall_app_2; [by eapply Hs0|eapply Hs; [exact Hx|by right]].
  - unfold x2a_ret_many_to_two. intros H. apply bind_Ret in H as (x0 & Hx0 & H). apply bind_Ret in H as (x1 & Hx1 & H). do 9 apply bind_Ret in H as (? & _ & H).
    apply bind_Ret in H as (last & Hlast & H%Ret_inj). subst es.
    assert (all_valid last) as Hl.
    { destruct (4 =? _); [|apply Ret_inj in Hlast; subst last; done]. do 3 apply bind_Ret in Hlast as (? & _ & Hlast). apply Ret_inj in Hlast. subst last.
      eapply Hs; [exact Hx1|by right]. }
    repeat apply Forall_app_2; [by eapply Hs0|eapply Hs; [exact Hx0|by right]|by eapply Hs0|done].
Qed.

Lemma x2a_ret_to_sret_valid xx aa es : x2a_ret_to_sret OFF_ZREGS xx aa = Ret es → all_valid es.
Proof using Hoff.
  unfold x2a_ret_to_sret. intros H. apply bind_Ret in H as (? & _ & H). apply bind_Ret in H as (r & Hr & H). apply bind_Ret in H as (a0 & _ & H).
  apply bind_Ret in H as (es1 & H1 & H%Ret_inj). subst es. pose proof (te_num_of_reg_range aa) as Hn.
  pose proof (ctx_off_int32_0 r (te_get_reg_range _ _ _ Hr)). apply Forall_cons_2; [operands|].
  destruct (TE_D0 =? a0); [|destruct (TE_Q0 =? a0); [|discriminate]]; (eapply emit_loop_valid; [exact H1|]); intros k es Hk;
    unfold x2a_sret_8, x2a_sret_16; destruct (te_get_reg aa k); try discriminate; intros <-%Ret_inj.
  - pose proof (int32_ok (8 * k) ltac:(lia)). each_valid.
  - pose proof (int32_ok (16 * k) ltac:(lia)). each_valid.
Qed.

(** ** The words of a prototype *)

Context (nf : Z) (rt : cty) (cs : list cty).
Context (Hproto : proto_ok rt cs) (Hroom : stack_room cs + 4096 < 2 ^ 31) (Hval : Forall (λ c, value_type c = true) cs).
Abbreviation xxInfo := (xx_fn_info rt cs).
Abbreviation aaInfo := (aa_fn_info nf rt cs).

Lemma aa_area_bounds : 0 ≤ bytes aaInfo ≤ ALIGN2POW (bytes aaInfo) 16 ∧ ALIGN2POW (bytes aaInfo) 16 < 2 ^ 31 - 4000 ∧ (16 | ALIGN2POW (bytes aaInfo) 16).
Proof using Hproto Hroom.
  clear Hval. pose proof Hproto as (_ & _ & Hcs & _). pose proof (place_args_room nf cs 0 alloc0 Hcs alloc0_ok) as Hpr.
  destruct (place_args_ok nf cs 0 alloc0 Hcs alloc0_ok) as ((_ & _ & Hn) & _). assert (0 ≤ bytes aaInfo ≤ stack_room cs) as Hb.
  { unfold aa_fn_info. destruct (place_args nf 0 cs alloc0). simpl in *. lia. }
  destruct (ALIGN2POW_spec (bytes aaInfo)) as [Hr Hd]; [lia|]. split_and!; try lia. done.
Qed.

Lemma x2a_entry_moves_valid es : x2a_entry_moves OFF_ZREGS aaInfo xxInfo = Ret es → all_valid es.
Proof using Hoff Hproto Hroom Hval.
  unfold x2a_entry_moves. intros H. apply bind_Ret in H as (es0 & H0 & H). apply bind_Ret in H as (es1 & H1 & H%Ret_inj). subst es.
  destruct aa_area_bounds as (Hb & Hlt & _). apply Forall_app_2; [|apply Forall_app_2].
  - unfold x2a_entry_ret in H0. destruct (te_is_indirect (rinfo xxInfo)), (te_is_indirect (rinfo aaInfo)); try (apply Ret_inj in H0; subst es0; done).
    apply bind_Ret in H0 as (r & Hr & H0%Ret_inj). subst es0. pose proof (ctx_off_int32_0 r (te_get_reg_range _ _ _ Hr)).
    assert (is_int32 (OFF_XREG 8) = true) by done. each_valid.
  - unfold x2a_entry_sp. assert (is_int32 (OFF_XREG REG_SP_NUM) = true ∧ is_int32 CTX_RSP = true ∧ is_int32 8 = true) as (? & ? & ?) by done.
    pose proof (int32_ok (- ALIGN2POW (bytes aaInfo) 16) ltac:(lia)). each_valid.
  - eapply emit_loop_valid; [exact H1|]. intros k es' Hk. unfold x2a_args. destruct (jobs_infos nf rt cs) as [-> ->]. intros H. inv_outcome.
    rewrite list_lookup_fmap in *. destruct (jobs nf rt cs !! Z.to_nat k) as [b|] eqn:Hj; [|done]. simplify_eq/=.
    destruct (job_words nf rt cs Hproto Hroom Hval _ b Hj) as (Hx & Ha & Hr). eapply x2a_arg_valid; [exact Hx|exact Ha|apply Hr|done].
Qed.

Lemma x2a_exit_moves_valid es : x2a_exit_moves OFF_ZREGS aaInfo xxInfo = Ret es → all_valid es.
Proof using Hoff Hproto Hroom.
  unfold x2a_exit_moves. intros H. apply bind_Ret in H as (es1 & H1 & H%Ret_inj). subst es. destruct aa_area_bounds as (Hb & Hlt & _). apply Forall_app_2.
  - destruct (te_is_indirect _), (te_is_indirect _); try (apply Ret_inj in H1; subst es1; done); [by eapply x2a_ret_to_sret_valid|by eapply x2a_ret_direct_valid].
  - assert (is_int32 (OFF_XREG REG_SP_NUM) = true) by done. pose proof (int32_ok (ALIGN2POW (bytes aaInfo) 16) ltac:(lia)). each_valid.
Qed.
End valid.

(** ** Code that returns *)

Lemma run_to_ret host base es s s' ra code : assemble base (es ++ [E_ret]) = Ret code → all_valid es → exec_emits es s = Ret s' →
  rd_mem (cmem s') (gpr s' TCG_REG_RSP) 8 = Ret (le_bytes 8 ra) → in_u 64 ra → inside base code ra = false →
  ∀ fuel, (length es + 1 ≤ fuel)%nat →
  run host base code fuel base s = Ret (ra, set_gpr s' TCG_REG_RSP (gpr s' TCG_REG_RSP + 8)).
Proof.
  intros Hcode Hv He Hra Hu Hout fuel Hfuel. rewrite assemble_app in Hcode. destruct (assemble base es) as [l1|] eqn:H1; [|done]. cbn [mbind outcome_bind] in Hcode.
  assert (assemble (base + Z.of_nat (length l1)) [E_ret] = Ret [0xc3]) as H2 by done. rewrite H2 in Hcode. apply Ret_inj in Hcode. subst code.
  assert (code_at base (l1 ++ [0xc3]) base (l1 ++ [0xc3])) as Hat by (exists [], []; rewrite app_nil_r; split; [done|cbn; lia]).
  destruct (code_at_app _ _ _ _ _ Hat) as [Hat1 Hat2].
  destruct (run_emits host base _ base es l1 s s' H1 Hv He Hat1) as (n & Hn & Hrun).
  replace fuel with (n + (1 + (fuel - n - 1)))%nat by lia. rewrite Hrun. cbn [Nat.add].
  assert (exec host IRet (base + Z.of_nat (length l1) + Z.of_nat (length [0xc3])) s' = Ret (ra, set_gpr s' TCG_REG_RSP (gpr s' TCG_REG_RSP + 8))) as Hx.
  { cbn [exec]. unfold pop, cload. rewrite Hra. cbn [mbind outcome_bind]. rewrite le_val_bytes. do 2 f_equal. by apply (wrap_small 64). }
  erewrite (run_emit host base _ _ E_ret [0xc3] IRet); [|done|done|done|exact Hat2|exact Hx]. by apply run_outside.
Qed.
