(* ===== verification/X2ABridge.v ===== *)
(** * The pair of functions for a call from x86-64 to AArch64

    The entry function is called before the guest function runs and the exit
    function after it; here each is followed from its first byte to its
    return. *)

From S2P Require Import Prelude Bytes ABIArgInfo FfiTypes Layout Placement AAPrepCif HFA AAAlloc XXPrepCif XXClass XXAlloc CrossABI DyBridge DyEntry DyStep DyCorrect DyExit Handlers Memory X86 Encoder Machine A2XCode A2XSim A2XArg A2XEntry A2XCall A2XValid A2XBridge X2ACode X2ASim X2AArg X2AEntry X2AExit X2AValid.

Lemma run_function host base es s s' ra : all_valid es → exec_emits es s = Ret s' →
  rd_mem (cmem s') (gpr s' TCG_REG_RSP) 8 = Ret (le_bytes 8 ra) → in_u 64 ra →
  ∃ code, assemble base (es ++ [E_ret]) = Ret code ∧
    (inside base code ra = false → ∀ fuel, (length (es ++ [E_ret]) ≤ fuel)%nat →
     run host base code fuel base s = Ret (ra, set_gpr s' TCG_REG_RSP (gpr s' TCG_REG_RSP + 8))).
Proof.
  intros Hv He Hra Hu. assert (∃ l, assemble base es = Ret l) as [l Hl].
  { apply assemble_valid. revert s He. induction Hv as [|e es Hve Hv IH]; intros s He; [by apply Forall_nil_2|].
    cbn [exec_emits] in He. destruct (exec_emit e s) as [s1|] eqn:H1; [|done]. apply Forall_cons_2; [|by eapply IH]. split; [by eapply exec_plain_control|done]. }
  exists (l ++ [0xc3]). assert (assemble base (es ++ [E_ret]) = Ret (l ++ [0xc3])) as Hc by (by rewrite assemble_app, Hl).
  split; [done|]. intros Hin fuel Hf. rewrite length_app in Hf. by eapply run_to_ret; [exact Hc|..].
Qed.

(** Registers a function of the host must preserve. *)
Definition callee_saved (r : Z) : bool := one_of r [TCG_REG_RBX; TCG_REG_RBP; TCG_REG_R12; TCG_REG_R13; TCG_REG_R14; TCG_REG_R15].

Section bridge.
Context (OFF_ZREGS envp ctxp : Z) (nf : Z) (rt : cty) (cs : list cty).
Abbreviation xxInfo := (xx_fn_info rt cs).
Abbreviation aaInfo := (aa_fn_info nf rt cs).
Abbreviation env_mem := (env_mem OFF_ZREGS envp).
Abbreviation env_byte := (env_byte OFF_ZREGS envp).

(** The argument area of the guest. *)
Definition area_size : Z := ALIGN2POW (bytes aaInfo) 16.

(** ** Entry *)

(** The entry function is called: RDI points to the emulated CPU and RSI to
    the registers of the host caller, whose stack arguments [stk] begin at
    [hsp]; the guest's stack pointer is [sp0]. *)
Record entry_called (env : CPUARMState) (sp0 hsp ra : Z) (ctx stk : list Z) (s : cpu) : Prop := mk_entry_called {
  ec_layout : x2a_layout OFF_ZREGS envp ctxp hsp (bytes xxInfo) (sp0 - area_size) area_size s;
  ec_rdi : gpr s TCG_REG_RDI = envp;
  ec_rsi : gpr s TCG_REG_RSI = ctxp;
  ec_u64 : ∀ r, in_u 64 (gpr s r);
  ec_env : env_mem (cmem s) env;
  ec_ok : env_ok env;
  ec_sp : xreg env REG_SP_NUM = Ret sp0 ∧ in_u 64 sp0;
  ec_ctx : rd_mem (cmem s) ctxp SIZEOF_CONTEXT = Ret ctx ∧ bytes_ok ctx;
  ec_rsp : rd ctx CTX_RSP 8 = Ret (le_bytes 8 (hsp - 8)) ∧ 8 ≤ hsp;
  ec_stk : rd_mem (cmem s) hsp (bytes xxInfo) = Ret stk ∧ bytes_ok stk;
  ec_area : mapped (cmem s) (sp0 - area_size) area_size = true;
  ec_ra : rd_mem (cmem s) (gpr s TCG_REG_RSP) 8 = Ret (le_bytes 8 ra) ∧ in_u 64 ra
}.

(** The guest function can run: every argument is where it looks. *)
Record guest_ready (env env' : CPUARMState) (sp0 : Z) (ctx stk : list Z) (s s' : cpu) : Prop := mk_guest_ready {
  gq_env : env_mem (cmem s') env' ∧ env_ok env';
  gq_sp : xreg env' REG_SP_NUM = Ret (sp0 - area_size);
  gq_args : ∀ j c x a, cs !! j = Some c → ainfo xxInfo !! j = Some x → ainfo aaInfo !! j = Some a →
    ∃ v, xx_arg_value (space_of ctx stk) c x = Ret v ∧ aa_arg_value env' (cmem s') (sp0 - area_size) c a = Ret v;
  gq_hidden : by_reference rt = true → rd (xregs env') 64 8 = rd (space_of ctx stk) (x64_enum_2_ptr TE_RDI) 8;
  gq_xregs : framed (entry_fps rt) (xregs env) (xregs env');
  gq_zregs : framed [(0, 8 * ZREG_SIZE)] (zregs env) (zregs env');
  gq_rsp : gpr s' TCG_REG_RSP = u64 (gpr s TCG_REG_RSP + 8);
  gq_saved : ∀ r, callee_saved r = true → gpr s' r = gpr s r;
  gq_frame : ∀ a, ¬ env_byte a → ¬ sp0 - area_size ≤ a < sp0 → cmem s' a = cmem s a
}.

Context (Hproto : proto_ok rt cs) (Hroom : stack_room cs + 4096 < 2 ^ 31) (Hval : Forall (λ c, value_type c = true) cs).

Lemma no_entry_blocks fns : emit_loop (x2a_entry_blocks fns (ainfo xxInfo)) 0 (Z.to_nat (nargs xxInfo)) = Ret [].
Proof using Hproto Hroom nf.
  destruct (xx_fn_info_bytes rt cs Hproto ltac:(lia)) as (_ & _ & ->). rewrite Nat2Z.id.
  assert (∀ n j, 0 ≤ j → j + Z.of_nat n = Z.of_nat (length cs) → emit_loop (x2a_entry_blocks fns (ainfo xxInfo)) j n = Ret []) as H; [|by apply H].
  induction n as [|n IH]; intros j Hj Hn; [done|]. cbn [emit_loop]. rewrite IH by lia. unfold x2a_entry_blocks, c_index.
  destruct (jobs_infos nf rt cs) as [-> _]. rewrite list_lookup_fmap. destruct (lookup_lt_is_Some_2 (jobs nf rt cs) (Z.to_nat j)) as [[[c px] pa] ->]; [rewrite jobs_length; lia|].
  cbn [fmap option_fmap option_map mbind outcome_bind job_x]. unfold x2a_entry_block. destruct (slot_no_calls px false (csize c)) as (_ & -> & _). done.
Qed.

Lemma entry_function_ok fns host base env sp0 hsp ra ctx stk s : entry_called env sp0 hsp ra ctx stk s →
  x2a_stores_ok OFF_ZREGS (sp0 - area_size) area_size nf rt cs →
  ∃ es code, x2a_entry_function OFF_ZREGS fns aaInfo xxInfo = Ret es ∧ assemble base es = Ret code ∧
    ∃ env' s', guest_ready env env' sp0 ctx stk s s' ∧
      (inside base code ra = false → ∀ fuel, (length es ≤ fuel)%nat → run host base code fuel base s = Ret (ra, s')).
Proof using Hproto Hroom Hval.
  intros [Hlay Hrdi Hrsi Hu Henv Hok [Hsp Hsu] [Hctx Hcok] [Hrsp Hh] [Hstk Hsok] Harea [Hra Hrau]] Hst.
  destruct (aa_area_bounds nf rt cs Hproto Hroom) as (Hab & Hal & _). fold area_size in Hab, Hal.
  assert (0 ≤ area_size) as Has by lia. destruct (mapped_rd _ _ _ Has Harea) as (area & Har & _).
  destruct (x2a_entry_ok _ _ _ _ _ _ _ _ Hlay ctx stk area Hctx Hstk Har Hcok Hsok nf rt cs Hproto Hroom Hval env sp0) as
    (es & s1 & env' & area' & Hes & E & S1 & Hd & Hok' & Hsp' & Hhid & Hfx & Hfz); try done.
  assert (gpr s1 TCG_REG_RSP = gpr s TCG_REG_RSP) as Hrsp1 by (by apply (xs_gpr _ _ _ _ _ _ _ _ _ _ S1)).
  destruct (run_function host base es s s1 ra) as (code & Hcode & Hrun); [|done| |done|].
  { eapply x2a_entry_moves_valid; [|exact Hproto|exact Hroom|exact Hval|exact Hes]. pose proof (lay_zregs _ _ _ _ _ _ (xl_env _ _ _ _ _ _ _ _ Hlay)). lia. }
  { rewrite Hrsp1, <- Hra. apply rd_mem_ext. intros a Ha. apply (xs_frame _ _ _ _ _ _ _ _ _ _ S1).
    - pose proof (lay_apart _ _ _ _ _ _ (xl_env _ _ _ _ _ _ _ _ Hlay)). unfold A2XSim.env_byte, ZREG_SIZE in *. pose proof (lay_zregs _ _ _ _ _ _ (xl_env _ _ _ _ _ _ _ _ Hlay)). lia.
    - pose proof (xl_area_ret _ _ _ _ _ _ _ _ Hlay) as Hap. unfold in_area, apart in *. lia. }
  exists (es ++ [E_ret]), code. split_and!; [|done|].
  { unfold x2a_entry_function, abi_x2a_entry_translation. rewrite no_entry_blocks. cbn [mbind outcome_bind]. by rewrite Hes. }
  exists env', (set_gpr s1 TCG_REG_RSP (gpr s1 TCG_REG_RSP + 8)). split; [|done]. constructor; cbn [cmem set_gpr]; try done.
  - split; [apply S1|done].
  - intros j c x a Hc Hx Ha. destruct (jobs_infos_lookup nf rt cs j c x a Hc Hx Ha) as (px & pa & Hj & -> & ->).
    pose proof (x2a_jobs_ok OFF_ZREGS _ _ nf rt cs Hproto Hroom Hval eq_refl Hst) as Hjobs.
    eapply (done_value _ _ _ _ _ _ _ _ Hlay ctx stk Hctx Hstk rt cs s1 env' area' (c, px, pa)); [done|done| |done|];
      [by eapply (Forall_lookup_1 _ _ _ _ Hjobs)|by eapply (Forall_lookup_1 _ _ _ _ Hd)].
  - cbn. by rewrite Hrsp1.
  - intros r Hr. cbn [gpr set_gpr]. assert (x2a_scratch r = false ∧ r ≠ TCG_REG_R10 ∧ r ≠ TCG_REG_R11 ∧ (r =? TCG_REG_RSP) = false) as (H1 & H2 & H3 & ->).
    { unfold callee_saved, one_of in Hr. apply existsb_exists in Hr as (q & Hq & ->%Z.eqb_eq). apply list_elem_of_In in Hq.
      repeat (apply elem_of_cons in Hq as [->|Hq]; [done|]). by apply not_elem_of_nil in Hq. }
    by apply (xs_gpr _ _ _ _ _ _ _ _ _ _ S1).
  - intros a Ha Hna. apply (xs_frame _ _ _ _ _ _ _ _ _ _ S1); [done|]. unfold in_area. lia.
Qed.

(** ** Exit *)

(** The exit function is called when the guest function has returned; a return
    value in memory goes to the [blen] bytes at [bufp]. *)
Record exit_called (bufp blen : Z) (env : CPUARMState) (sp ra : Z) (ctx buf : list Z) (s : cpu) : Prop := mk_exit_called {
  xc_layout : exit_layout OFF_ZREGS envp ctxp bufp blen s;
  xc_rdi : gpr s TCG_REG_RDI = envp;
  xc_rsi : gpr s TCG_REG_RSI = ctxp;
  xc_u64 : ∀ r, in_u 64 (gpr s r);
  xc_env : env_mem (cmem s) env;
  xc_ok : env_ok env;
  xc_sp : xreg env REG_SP_NUM = Ret sp ∧ in_u 64 sp ∧ in_u 64 (sp + area_size);
  xc_ctx : rd_mem (cmem s) ctxp SIZEOF_CONTEXT = Ret ctx;
  xc_buf : rd_mem (cmem s) bufp blen = Ret buf;
  xc_sret : 16 < csize rt → by_reference rt = false → rd ctx CTX_RDI 8 = Ret (le_bytes 8 bufp) ∧ csize rt = blen;
  xc_ra : rd_mem (cmem s) (gpr s TCG_REG_RSP) 8 = Ret (le_bytes 8 ra) ∧ in_u 64 ra
}.

(** The host caller can continue. *)
Record host_ready (bufp blen : Z) (env env' : CPUARMState) (sp : Z) (ctx buf ctx' buf' : list Z) (s s' : cpu) : Prop := mk_host_ready {
  hq_env : env_mem (cmem s') env';
  hq_sp : wr (xregs env) 248 (le_bytes 8 (sp + area_size)) = Ret (xregs env') ∧ zregs env' = zregs env;
  hq_ctx : rd_mem (cmem s') ctxp SIZEOF_CONTEXT = Ret ctx' ∧ framed ret_fps ctx ctx';
  hq_buf : rd_mem (cmem s') bufp blen = Ret buf';
  hq_same : by_reference rt = true → ctx' = ctx ∧ buf' = buf;
  hq_value : by_reference rt = false →
    ∃ v, xx_ret_value (space_of ctx' []) buf' rt (rinfo xxInfo) = Ret v ∧ aa_ret_value env rt (rinfo aaInfo) = Ret v;
  hq_rsp : gpr s' TCG_REG_RSP = u64 (gpr s TCG_REG_RSP + 8);
  hq_saved : ∀ r, callee_saved r = true → gpr s' r = gpr s r;
  hq_frame : ∀ a, ¬ env_byte a → apart a 1 ctxp SIZEOF_CONTEXT → apart a 1 bufp blen → cmem s' a = cmem s a
}.

Lemma exit_no_host fns : abi_x2a_exit_translation OFF_ZREGS fns aaInfo xxInfo = x2a_exit_moves OFF_ZREGS aaInfo xxInfo.
Proof using.
  clear. unfold abi_x2a_exit_translation. assert (isCxxStructor xxInfo = 0) as -> by (unfold xx_fn_info; by destruct (xplaces _ _)). cbn [Z.eqb negb andb].
  unfold x2a_exit_block. rewrite xx_fn_info_ret. destruct (slot_no_calls (InRegs (xx_ret_regs rt)) (16 <? csize rt) 0) as (_ & -> & _).
  destruct (x2a_exit_moves _ _ _); [|done]. cbn [mbind outcome_bind]. by rewrite app_nil_r.
Qed.

Lemma exit_function_ok fns host base bufp blen env sp ra ctx buf s : exit_called bufp blen env sp ra ctx buf s → return_type rt → x2a_return rt = true →
  ∃ es code, x2a_exit_function OFF_ZREGS fns aaInfo xxInfo = Ret es ∧ assemble base es = Ret code ∧
    ∃ env' ctx' buf' s', host_ready bufp blen env env' sp ctx buf ctx' buf' s s' ∧
      (inside base code ra = false → ∀ fuel, (length es ≤ fuel)%nat → run host base code fuel base s = Ret (ra, s')).
Proof using Hproto Hroom.
  clear Hval. intros [Hlay Hrdi Hrsi Hu Henv Hok (Hsp & Hsu & Hsu') Hctx Hbuf Hsret [Hra Hrau]] Hrt Hx.
  destruct (x2a_exit_ok _ _ _ _ _ _ Hlay env Henv Hok [] nf rt cs ctx buf sp area_size) as
    (es & s1 & x' & ctx' & buf' & Hes & E & Hw & Hex & Hf & Hyes & Hno); try done.
  assert (gpr s1 TCG_REG_RSP = gpr s TCG_REG_RSP) as Hrsp1 by (by apply (ex_gpr _ _ _ _ _ _ _ _ _ _ Hex)).
  destruct (run_function host base es s s1 ra) as (code & Hcode & Hrun); [|done| |done|].
  { eapply x2a_exit_moves_valid; [|exact Hproto|exact Hroom|exact Hes]. pose proof (lay_zregs _ _ _ _ _ _ (el_env _ _ _ _ _ _ Hlay)). lia. }
  { rewrite Hrsp1, <- Hra. apply rd_mem_ext. intros a Ha. apply (ex_frame _ _ _ _ _ _ _ _ _ _ Hex).
    - pose proof (lay_apart _ _ _ _ _ _ (el_env _ _ _ _ _ _ Hlay)). pose proof (lay_zregs _ _ _ _ _ _ (el_env _ _ _ _ _ _ Hlay)).
      unfold A2XSim.env_byte, ZREG_SIZE in *. lia.
    - pose proof (el_ctx_ret _ _ _ _ _ _ Hlay). unfold apart in *. lia.
    - pose proof (el_buf_ret _ _ _ _ _ _ Hlay). unfold apart in *. lia. }
  exists (es ++ [E_ret]), code. split_and!; [by unfold x2a_exit_function; rewrite exit_no_host, Hes|done|].
  exists (mk_env x' (zregs env)), ctx', buf', (set_gpr s1 TCG_REG_RSP (gpr s1 TCG_REG_RSP + 8)). split; [|done].
  constructor; cbn [cmem set_gpr xregs zregs]; try done; try apply Hex; [split; [apply Hex|done]|cbn; by rewrite Hrsp1|..].
  - intros r Hr. cbn [gpr set_gpr]. assert (r ≠ TCG_REG_RAX ∧ r ≠ TCG_REG_R8 ∧ (r =? TCG_REG_RSP) = false) as (H1 & H2 & ->).
    { unfold callee_saved, one_of in Hr. apply existsb_exists in Hr as (q & Hq & ->%Z.eqb_eq). apply list_elem_of_In in Hq.
      repeat (apply elem_of_cons in Hq as [->|Hq]; [done|]). by apply not_elem_of_nil in Hq. }
    by apply (ex_gpr _ _ _ _ _ _ _ _ _ _ Hex).
  - intros a Ha H1 H2. apply (ex_frame _ _ _ _ _ _ _ _ _ _ Hex); [done|unfold apart in *; lia..].
Qed.
End bridge.
