(* ===== verification/X2ACorrect.v ===== *)
(** * The static bridge from x86-64 to AArch64: properties

    The theorems for the generated pair of functions, runs of both, and the
    arguments for which the generated code goes wrong. *)

From S2P Require Import Prelude Bytes ABIArgInfo FfiTypes Layout Placement AAPrepCif HFA AAAlloc XXPrepCif XXClass XXAlloc CrossABI DyBridge DyEntry DyStep DyCorrect DyExit Handlers Memory X86 Encoder Machine A2XCode A2XSim A2XStep A2XArg A2XEntry A2XCall A2XValid A2XBridge A2XCorrect X2ACode X2ASim X2AArg X2AEntry X2AExit X2AValid X2ABridge.



(** ** Runs *)

(** A guest whose SP is 2^24. *)
Definition cb_env : CPUARMState :=
  mk_env (concat (le_bytes 8 <$> (seqZ 100 31 ++ [2 ^ 24]))) ((λ i, i mod 253) <$> seqZ 0 (32 * ZREG_SIZE)).
Definition cb_envp : Z := 2 ^ 20.
Definition cb_ctxp : Z := 2 ^ 21.
Definition cb_hsp : Z := 2 ^ 22.
Definition cb_rsp : Z := 2 ^ 23.
(** RSP is eight below the stack arguments. *)
Definition cb_ctx : list Z := ((λ i, i mod 251) <$> seqZ 0 56) ++ le_bytes 8 (cb_hsp - 8) ++ ((λ i, i mod 251) <$> seqZ 64 192).
Definition cb_stk : list Z := (λ i, i mod 249) <$> seqZ 0 40.

Definition cb_mem : memory :=
  region cb_envp (xregs cb_env) (region (cb_envp + 4096) (zregs cb_env) (region cb_ctxp cb_ctx (region cb_hsp cb_stk
    (region cb_rsp (le_bytes 8 65536) (region (2 ^ 24 - 64) (replicate 128 7) (λ _, None)))))).
Definition cb_cpu : cpu :=
  mk_cpu (λ r, if r =? TCG_REG_RDI then cb_envp else if r =? TCG_REG_RSI then cb_ctxp else if r =? TCG_REG_RSP then cb_rsp else 0)
    (λ _, replicate 16 0) cb_mem false.

(** A long, a double, a large structure and seven more longs: the last two are
    on the host stack, the last one on both stacks. *)
Definition cb_cs : list cty := [CScalar SS64; CScalar SDouble; run_large] ++ replicate 7 (CScalar SS64).
Definition cb_rt : cty := CStruct [CScalar SFloat; CScalar SFloat; CScalar SFloat].

Lemma cb_env_ok : env_ok cb_env.
Proof. split_and!; [done|done|..]; solve_bytes_ok. Qed.

Lemma cb_env_mem : env_mem 4096 cb_envp cb_mem cb_env.
Proof. split; unfold cb_mem; rd_regions. Qed.
Lemma cb_rd_ctx : rd_mem cb_mem cb_ctxp SIZEOF_CONTEXT = Ret cb_ctx.
Proof. unfold cb_mem. rd_regions. Qed.
Lemma cb_rd_stk : rd_mem cb_mem cb_hsp 40 = Ret cb_stk.
Proof. unfold cb_mem. rd_regions. Qed.
Lemma cb_rd_ra : rd_mem cb_mem cb_rsp 8 = Ret (le_bytes 8 65536).
Proof. unfold cb_mem. rd_regions. Qed.
Lemma cb_rd_guest : rd_mem cb_mem (2 ^ 24 - 64) 128 = Ret (replicate 128 7).
Proof. unfold cb_mem. rd_regions. Qed.
Lemma cb_ctx_ok : bytes_ok cb_ctx.
Proof. solve_bytes_ok. Qed.
Lemma cb_stk_ok : bytes_ok cb_stk.
Proof. solve_bytes_ok. Qed.

Lemma cb_guest_mapped a n : 0 ≤ n → 2 ^ 24 - 64 ≤ a → a + n ≤ 2 ^ 24 + 64 → mapped cb_mem a n = true.
Proof. intros. apply (mapped_sub _ (2 ^ 24 - 64) 128); [|lia..]. by eapply rd_mem_mapped, cb_rd_guest. Qed.

Lemma cb_layout_env : layout 4096 cb_envp (λ _, None) cb_mem cb_rsp 8.
Proof. constructor; try (unfold cb_envp, cb_rsp, ZREG_SIZE; lia); [by exists 256|by exists (2 ^ 16)|done]. Qed.

Lemma cb_u64 r : in_u 64 (gpr cb_cpu r).
Proof. cbn [gpr cb_cpu]. repeat case_match; by vm_compute. Qed.

Lemma cb_x2a_layout s : cmem s = cb_mem → gpr s TCG_REG_RSP = cb_rsp → x2a_layout 4096 cb_envp cb_ctxp cb_hsp 40 (2 ^ 24 - 16) 16 s.
Proof.
  intros Hm Hr. constructor; rewrite ?Hm, ?Hr; [exact cb_layout_env|unfold cb_ctxp, cb_hsp, cb_envp, cb_rsp, SIZEOF_CONTEXT, ZREG_SIZE, apart; try lia..].
  - split_and!; [lia|lia|by exists (2 ^ 17)].
  - split_and!; [lia|lia|lia|lia|by exists (2 ^ 20 - 1)].
Qed.

Lemma cb_entry_called : entry_called 4096 cb_envp cb_ctxp 0 (CScalar SVoid) cb_cs cb_env (2 ^ 24) cb_hsp 65536 cb_ctx cb_stk cb_cpu.
Proof.
  assert (area_size 0 (CScalar SVoid) cb_cs = 16 ∧ bytes (xx_fn_info (CScalar SVoid) cb_cs) = 40) as [Ha Hb] by (split; vm_compute; reflexivity).
  constructor; rewrite ?Ha, ?Hb.
  - by apply cb_x2a_layout.
  - reflexivity.
  - reflexivity.
  - exact cb_u64.
  - exact cb_env_mem.
  - exact cb_env_ok.
  - split; [vm_compute; reflexivity|by vm_compute].
  - split; [exact cb_rd_ctx|exact cb_ctx_ok].
  - split; [vm_compute; reflexivity|by vm_compute].
  - split; [exact cb_rd_stk|exact cb_stk_ok].
  - by apply cb_guest_mapped.
  - split; [exact cb_rd_ra|by vm_compute].
Qed.

Lemma cb_stores : x2a_stores_ok 4096 (2 ^ 24 - 16) 16 0 (CScalar SVoid) cb_cs.
Proof.
  intros j c px pa Hj. assert (∃ l, jobs 0 (CScalar SVoid) cb_cs = l) as [l Hl] by (by eexists). rewrite Hl in Hj. vm_compute in Hl. subst l.
  do 10 (destruct j as [|j]; [injection Hj as <- <- <-; cbn [stores_ok]; try done; (split; [reflexivity|intros _]); by repeat constructor|]). done.
Qed.


Lemma cb_exit_called : exit_called 4096 cb_envp cb_ctxp 0 cb_rt cb_cs cb_hsp 40 cb_env (2 ^ 24) 65536 cb_ctx cb_stk cb_cpu.
Proof.
  constructor.
  - constructor; [exact cb_layout_env|unfold cb_ctxp, cb_hsp, cb_envp, SIZEOF_CONTEXT, ZREG_SIZE, apart; try lia..].
    + split_and!; [lia|lia|by exists (2 ^ 17)].
    + vm_compute. by left.
    + vm_compute. by left.
  - reflexivity.
  - reflexivity.
  - exact cb_u64.
  - exact cb_env_mem.
  - exact cb_env_ok.
  - split_and!; [vm_compute; reflexivity|by vm_compute|by vm_compute].
  - exact cb_rd_ctx.
  - exact cb_rd_stk.
  - intros H. by vm_compute in H.
  - split; [exact cb_rd_ra|by vm_compute].
Qed.


(** ** What the generated code gets wrong *)

(** Eight large structures, then four ints. *)
Definition packed_cs : list cty := replicate 8 run_large ++ replicate 4 (CScalar SS32).

(** The fourth int behind eight large structures is packed into the last
    four bytes of the sixteen of the argument area; the entry code stores the
    eight bytes of the saved RCX there, so that the upper half of RCX overwrites
    the first four bytes above the area, the guest caller's own frame. *)
Theorem x2a_entry_overruns OFF_ZREGS envp ctxp hsp xroom gsp s0 s env area ctx stk bs :
  x2a_layout OFF_ZREGS envp ctxp hsp xroom gsp 16 s0 → x2a_sim OFF_ZREGS envp ctxp hsp gsp 16 s0 s env area →
  rd_mem (cmem s0) ctxp SIZEOF_CONTEXT = Ret ctx → bytes_ok ctx → bytes_ok stk → mapped (cmem s) gsp 20 = true → gsp + 20 < 2 ^ 64 →
  rd ctx CTX_RCX 8 = Ret bs →
  area_size 0 (CScalar SVoid) packed_cs = 16 ∧ ∃ es x a s', ainfo (xx_fn_info (CScalar SVoid) packed_cs) !! 11%nat = Some x ∧
    ainfo (aa_fn_info 0 (CScalar SVoid) packed_cs) !! 11%nat = Some a ∧
    x2a_arg OFF_ZREGS x a = Ret es ∧ exec_emits es s = Ret s' ∧ rd_mem (cmem s') (gsp + 16) 4 = Ret (drop 4 bs).
Proof.
  intros Hlay Hs Hctx Hcok Hsok Hmap Hg Hbs. split; [by vm_compute|].
  assert (rd (space_of ctx stk) (x64_enum_2_ptr TE_RCX) 8 = Ret bs) as Hbs'.
  { rewrite space_of_reg; [exact Hbs|by eapply rd_mem_length; [|exact Hctx]|left; exists 3; split; [lia|done]|done]. }
  destruct (loads_ctx _ _ _ _ _ _ _ _ Hlay _ _ Hctx Hcok Hsok TE_RCX bs) with (s := s) (env := env) (area := area) as (s1 & He1 & Hs1 & Hv); [left; exists 3; split; [lia|done]|done|done|].
  pose proof (rd_args_8 _ _ Hcok Hsok _ _ Hbs') as [Hbok Hbl].
  destruct (wr_mem_ok (cmem s1) (gsp + 12) bs) as (m & Hm & _).
  { cbn [exec_emits] in He1. unfold ld_x86_64_enum, ld_x86_64, exec_emit in He1. cbn [insn_of exec_plain] in He1. inv_outcome. simplify_eq. rewrite Hbl. cbn [cmem set_gpr]. eapply mapped_sub; [exact Hmap|lia..]. }
  exists [ld_x86_64_enum TCG_REG_RAX TE_RCX; E_st TCG_TYPE_PTR TCG_REG_RAX aarch64_sp_holder 12].
  eexists _, _, (set_mem s1 m). split; [vm_compute; reflexivity|]. split; [vm_compute; reflexivity|]. split; [vm_compute; reflexivity|]. split.
  - cbn [exec_emits] in He1 |- *. destruct (exec_emit (ld_x86_64_enum TCG_REG_RAX TE_RCX) s) as [s1'|]; [|done]. cbn [mbind outcome_bind] in He1 |- *.
    injection He1 as ->. rewrite (exec_st _ _ _ _ _ m); [done|]. rewrite Hv. change (Z.to_nat _) with 8%nat. rewrite <- Hbl, le_bytes_val by done.
    rewrite (ea_small s1 _ gsp); [done|apply Hs1|]. pose proof (xl_area _ _ _ _ _ _ _ _ Hlay). lia.
  - cbn [cmem set_mem]. replace (gsp + 16) with (gsp + 12 + 4) by lia. rewrite (rd_wr_mem_same _ _ _ _ 4 4 Hm) by lia. by rewrite take_ge by (rewrite length_drop; lia).
Qed.

(** [cb_cpu] once the two stack pointers are loaded. *)
Definition cb_entry : cpu := set_gpr (set_gpr cb_cpu aarch64_sp_holder (2 ^ 24 - 16)) x86_64_rsp_holder cb_hsp.

Lemma cb_entry_sim : x2a_sim 4096 cb_envp cb_ctxp cb_hsp (2 ^ 24 - 16) 16 cb_entry cb_entry cb_env (replicate 16 7).
Proof.
  constructor; [reflexivity|reflexivity|reflexivity|reflexivity| |done|done|exact cb_env_mem| |done].
  2: { apply (rd_mem_at _ _ 128 _ 48 16 _ ltac:(done) ltac:(done) cb_rd_guest). reflexivity. }
  intros r. unfold cb_entry. cbn [gpr set_gpr]. repeat case_match; try (by apply wrap_range). apply cb_u64.
Qed.

Lemma x2a_entry_overruns_witness : ∃ es x a s', ainfo (xx_fn_info (CScalar SVoid) packed_cs) !! 11%nat = Some x ∧
  ainfo (aa_fn_info 0 (CScalar SVoid) packed_cs) !! 11%nat = Some a ∧
  x2a_arg 4096 x a = Ret es ∧ exec_emits es cb_entry = Ret s' ∧ rd_mem (cmem s') (2 ^ 24 - 16 + 16) 4 = Ret (drop 4 (seqZ 16 8)) ∧ rd_mem (cmem cb_entry) (2 ^ 24) 4 = Ret [7; 7; 7; 7].
Proof.
  destruct (x2a_entry_overruns 4096 cb_envp cb_ctxp cb_hsp 40 (2 ^ 24 - 16) cb_entry cb_entry cb_env (replicate 16 7) cb_ctx cb_stk (seqZ 16 8))
    as (_ & es & x & a & s' & Hx & Ha & Hes & Hrun & Hm).
  - by apply cb_x2a_layout.
  - exact cb_entry_sim.
  - exact cb_rd_ctx.
  - exact cb_ctx_ok.
  - exact cb_stk_ok.
  - by apply cb_guest_mapped.
  - lia.
  - vm_compute. reflexivity.
  - exists es, x, a, s'. split; [exact Hx|]. split; [exact Ha|]. split; [exact Hes|]. split; [exact Hrun|]. split; [exact Hm|]. exact (rd_mem_at _ _ 128 _ 64 4 _ ltac:(done) ltac:(done) cb_rd_guest eq_refl).
Defined.
