(* ===== verification/Runs.v ===== *)
(** * Runs of code with calls and jumps

    [runs] is a piece of a run.  Pieces are put together along the list of
    encoder calls the code was assembled from: straight-line code, calls of
    host functions, branches.  Then the code that saves and restores registers:
    sequences of pushes, pops and 128-bit moves. *)

From S2P Require Import Prelude Bytes Memory X86 Encoder Machine A2XSim.

Lemma le_val_bytes_u64 v : in_u 64 v → le_val (le_bytes 8 v) = v.
Proof. intros H. rewrite le_val_bytes. by apply (wrap_small 64). Qed.

Lemma exec_app es1 es2 s s1 : exec_emits es1 s = Ret s1 → exec_emits (es1 ++ es2) s = exec_emits es2 s1.
Proof. intros H. by rewrite exec_emits_app, H. Qed.

Lemma exec_mov64 d r s v : gpr s r = v → in_u 64 v → (r =? d) = false → (r <? 16) = true → exec_emit (E_mov TCG_TYPE_I64 d r) s = Ret (set_gpr s d v).
Proof. intros <- Hv Hd Hr. rewrite exec_mov by done. by rewrite wrap_small. Qed.

Lemma exec_ld64 d b o s a v : ea s b o = a → rd_mem (cmem s) a 8 = Ret (le_bytes 8 v) → in_u 64 v → exec_emit (E_ld TCG_TYPE_I64 d b o) s = Ret (set_gpr s d v).
Proof. intros <- Hr Hv. erewrite exec_ld; [|exact Hr]. by rewrite le_val_bytes_u64. Qed.

(** Registers of a state given by updates, with the numbers compared. *)
Ltac regs :=
  cbn [gpr set_gpr set_mem set_xmm set_zf];
  repeat match goal with
  | |- context [?a =? ?b] => let x := eval vm_compute in (a =? b) in first [constr_eq x true|constr_eq x false]; change (a =? b) with x
  end; cbv iota.

(** ** Pieces of a run *)

(** The bytes of [es] at [p], and the address behind them. *)
Definition asm (p : Z) (es : list emit) : list Z := match assemble p es with Ret l => l | Stop _ => [] end.
Definition behind (p : Z) (es : list emit) : Z := p + Z.of_nat (length (asm p es)).

Section runs.
Context (host : Z → cpu → outcome cpu) (base : Z) (code : list Z).

Definition runs (n : nat) (p : Z) (s : cpu) (q : Z) (s' : cpu) : Prop :=
  ∀ fuel, run host base code (n + fuel) p s = run host base code fuel q s'.

(** The code of [es] is at [p]. *)
Definition placed (p : Z) (es : list emit) : Prop := ∃ l, assemble p es = Ret l ∧ code_at base code p l.

Lemma placed_range p es : placed p es → base ≤ p ≤ base + Z.of_nat (length code).
Proof. intros (l & _ & pre & post & -> & ->). rewrite !length_app. lia. Qed.

(** The address [d] is within reach of a relative branch in the code. *)
Definition in_reach (d : Z) : Prop := in_u 64 d ∧ ∀ p, base ≤ p ≤ base + Z.of_nat (length code) → is_int32 (d - p - 5) = true.

Lemma runs_refl p s : runs 0 p s p s.
Proof. by intros fuel. Qed.

Lemma runs_trans n1 n2 p s q s1 r s2 : runs n1 p s q s1 → runs n2 q s1 r s2 → runs (n1 + n2) p s r s2.
Proof. intros H1 H2 fuel. rewrite <- Nat.add_assoc. by rewrite H1. Qed.

(** A run that leaves the code is over. *)
Lemma runs_out n p s q s' : runs n p s q s' → inside base code q = false → ∀ fuel, (n ≤ fuel)%nat → run host base code fuel p s = Ret (q, s').
Proof. intros H Hq fuel Hf. replace fuel with (n + (fuel - n))%nat by lia. rewrite H. by apply run_outside. Qed.

Lemma placed_app p es1 es2 : placed p (es1 ++ es2) → placed p es1 ∧ placed (behind p es1) es2.
Proof.
  intros (l & Hl & Hc). rewrite assemble_app in Hl. unfold behind, asm. destruct (assemble p es1) as [l1|] eqn:H1; [|done]. cbn [mbind outcome_bind] in Hl.
  destruct (assemble _ es2) as [l2|] eqn:H2; [|done]. injection Hl as <-. apply code_at_app in Hc as [Hc1 Hc2].
  split; [by exists l1|by exists l2].
Qed.

Lemma behind_app p es1 es2 : placed p (es1 ++ es2) → behind p (es1 ++ es2) = behind (behind p es1) es2.
Proof.
  intros (l & Hl & _). unfold behind, asm at 1 2. rewrite Hl. rewrite assemble_app in Hl. unfold asm.
  destruct (assemble p es1) as [l1|] eqn:H1; [|done]. cbn [mbind outcome_bind] in Hl.
  destruct (assemble _ es2) as [l2|] eqn:H2; [|done]. injection Hl as <-. rewrite length_app. lia.
Qed.

Lemma runs_emits p es s s' : placed p es → Forall (λ e, valid 0 e = true) es → exec_emits es s = Ret s' →
  ∃ n, (n ≤ length es)%nat ∧ runs n p s (behind p es) s'.
Proof.
  intros (l & Hl & Hc) Hv He. destruct (run_emits host base code p es l s s' Hl Hv He Hc) as (n & Hn & Hr).
  exists n. split; [done|]. intros fuel. unfold behind, asm. rewrite Hl. apply Hr.
Qed.

(** One instruction that may branch. *)
Lemma runs_one p e i s q s' : placed p [e] → valid p e = true → insn_of p e = Some i →
  exec host i (behind p [e]) s = Ret (q, s') → runs 1 p s q s'.
Proof.
  intros (l & Hl & Hc) Hv Hi He fuel. unfold behind, asm in He. rewrite Hl in He. cbn [assemble] in Hl.
  destruct (emit_bytes p e) as [l1|] eqn:H1; [|done]. injection Hl as <-. rewrite app_nil_r in *. by eapply run_emit.
Qed.

Lemma runs_call p d s sc s' : placed p [E_call d] → in_reach d →
  push s (behind p [E_call d]) = Ret sc → host d sc = Ret s' → runs 1 p s (behind p [E_call d]) s'.
Proof. intros Hp [Hd Hr] Hs Hh. eapply runs_one; [done|by apply Hr, (placed_range _ _ Hp)|done|]. cbn [exec]. rewrite Hs. cbn [mbind outcome_bind]. rewrite wrap_small by done. by rewrite Hh. Qed.

Lemma runs_call_r11 p s sc s' : placed p [E_out8 [0x41; 0xff; 0xd3]] → push s (behind p [E_out8 [0x41; 0xff; 0xd3]]) = Ret sc →
  host (gpr s TCG_REG_R11) sc = Ret s' → runs 1 p s (behind p [E_out8 [0x41; 0xff; 0xd3]]) s'.
Proof. intros Hp Hs Hh. eapply (runs_one p _ (ICallReg TCG_REG_R11)); [done|done|done|]. cbn [exec]. rewrite Hs. cbn [mbind outcome_bind]. by rewrite Hh. Qed.

Lemma runs_jmp p d s : placed p [E_jmp d] → in_reach d → runs 1 p s d s.
Proof. intros Hp [Hd Hr]. eapply runs_one; [done|by apply Hr, (placed_range _ _ Hp)|done|]. cbn [exec]. by rewrite wrap_small. Qed.

Lemma runs_jmp_reg p r s : placed p [E_jmp_reg r] → is_reg r = true → runs 1 p s (gpr s r) s.
Proof. intros Hp Hr. by eapply runs_one. Qed.

Lemma runs_ret p s sp ra : placed p [E_ret] → gpr s TCG_REG_RSP = sp → rd_mem (cmem s) sp 8 = Ret (le_bytes 8 ra) → in_u 64 ra →
  runs 1 p s ra (set_gpr s TCG_REG_RSP (sp + 8)).
Proof.
  intros Hp Hs Hr Hu. eapply runs_one; [done|done|done|]. cbn [exec]. unfold pop, cload. rewrite Hs, Hr. cbn [mbind outcome_bind].
  by rewrite le_val_bytes_u64.
Qed.
End runs.

(** ** Saved registers *)

Definition words (vs : list Z) : list Z := concat (le_bytes 8 <$> vs).

Lemma length_words vs : Z.of_nat (length (words vs)) = 8 * Z.of_nat (length vs).
Proof. induction vs as [|v vs IH]; [done|]. unfold words in *. cbn [fmap list_fmap concat]. rewrite length_app, length_le_bytes. cbn [length]. lia. Qed.

Lemma words_app vs ws : words (vs ++ ws) = words vs ++ words ws.
Proof. unfold words. by rewrite fmap_app, concat_app. Qed.

(** Only the stack pointer has changed. *)
Definition only_rsp (q : Z) (s s' : cpu) : Prop := (∀ k, gpr s' k = if k =? TCG_REG_RSP then q else gpr s k) ∧ xmm s' = xmm s.

Lemma rd_mem_split m a n k bs : 0 ≤ n → 0 ≤ k → rd_mem m a (n + k) = Ret bs →
  rd_mem m a n = Ret (take (Z.to_nat n) bs) ∧ rd_mem m (a + n) k = Ret (drop (Z.to_nat n) bs).
Proof.
  intros Hn Hk [Hl H]%rd_mem_spec; [|lia]. split; apply rd_mem_spec; try lia.
  - rewrite length_take. split; [lia|]. intros i Hi. rewrite H by lia. symmetry. apply lookup_take_lt. lia.
  - rewrite length_drop. split; [lia|]. intros i Hi. rewrite lookup_drop. replace (a + n + Z.of_nat i) with (a + Z.of_nat (Z.to_nat n + i)) by lia. apply H. lia.
Qed.

Lemma rd_mem_unjoin m a n k bs cs : 0 ≤ k → Z.of_nat (length bs) = n → rd_mem m a (n + k) = Ret (bs ++ cs) → rd_mem m a n = Ret bs ∧ rd_mem m (a + n) k = Ret cs.
Proof.
  intros Hk Hl H. apply rd_mem_split in H as [H1 H2]; [|lia..]. rewrite take_app_length' in H1 by lia. by rewrite drop_app_length' in H2 by lia.
Qed.

Lemma pushes_ok rs s q n : n = 8 * Z.of_nat (length rs) → TCG_REG_RSP ∉ rs → gpr s TCG_REG_RSP = q → n ≤ q < 2 ^ 64 →
  (∀ r, in_u 64 (gpr s r)) → mapped (cmem s) (q - n) n = true →
  ∃ s', exec_emits (E_push <$> rs) s = Ret s' ∧ only_rsp (q - n) s s' ∧ rd_mem (cmem s') (q - n) n = Ret (words (reverse (gpr s <$> rs))) ∧
    (∀ x, x < q - n ∨ q ≤ x → cmem s' x = cmem s x) ∧ ∀ a k, mapped (cmem s') a k = mapped (cmem s) a k.
Proof.
  revert s q n. induction rs as [|r rs IH]; intros s q n -> Hrs Hq Hn Hu Hm.
  - exists s. split_and!; [done| | |done|done].
    + split; [|done]. intros k. destruct (Z.eqb_spec k TCG_REG_RSP) as [->|]; [cbn [length]; lia|done].
    + apply rd_mem_spec; [done|]. split; [done|]. cbn [length]. intros i Hi. lia.
  - apply not_elem_of_cons in Hrs as [Hr Hrs]. cbn [length] in Hn, Hm |- *. set (n := 8 * Z.of_nat (length rs)).
    replace (8 * Z.of_nat (S (length rs))) with (n + 8) in * by lia.
    destruct (push_ok r s q Hq) as (s1 & He & Hg & Hx & Hr1 & Ho & Hmap); [lia|apply Hu|eapply mapped_sub; [exact Hm|lia..]|].
    destruct (IH s1 (q - 8) n eq_refl Hrs) as (s' & He' & [Hg' Hx'] & Hr' & Ho' & Hmap').
    { by rewrite Hg, Z.eqb_refl. }
    { lia. }
    { intros k. rewrite Hg. destruct (k =? _); [unfold in_u; lia|apply Hu]. }
    { rewrite Hmap. eapply mapped_sub; [exact Hm|lia..]. }
    exists s'. split_and!.
    + cbn [fmap list_fmap exec_emits]. by rewrite He.
    + split; [|by rewrite Hx']. intros k. rewrite Hg', Hg. destruct (k =? _); [lia|done].
    + rewrite fmap_cons, reverse_cons, words_app. replace (q - (n + 8)) with (q - 8 - n) by lia. apply rd_mem_join; [lia|lia| |].
      * rewrite Hr'. do 3 f_equal. apply list_fmap_ext. intros i k Hk. rewrite Hg. destruct (Z.eqb_spec k TCG_REG_RSP) as [->|]; [|done].
        by apply list_elem_of_lookup_2 in Hk.
      * replace (q - 8 - n + n) with (q - 8) by lia. unfold words. cbn [fmap list_fmap concat]. rewrite app_nil_r, <- Hr1. apply rd_mem_ext. intros x Hx0. apply Ho'. lia.
    + intros x Hx0. rewrite Ho', Ho by lia. done.
    + intros a k. by rewrite Hmap', Hmap.
Qed.

Lemma pops_ok rs vs s q n : n = 8 * Z.of_nat (length rs) → length vs = length rs → NoDup rs → TCG_REG_RSP ∉ rs → gpr s TCG_REG_RSP = q →
  0 ≤ q → q + n < 2 ^ 64 → Forall (in_u 64) vs → rd_mem (cmem s) q n = Ret (words vs) →
  ∃ s', exec_emits (E_pop <$> rs) s = Ret s' ∧ gpr s' TCG_REG_RSP = q + n ∧ (∀ i r v, rs !! i = Some r → vs !! i = Some v → gpr s' r = v) ∧
    (∀ k, k ∉ rs → k ≠ TCG_REG_RSP → gpr s' k = gpr s k) ∧ xmm s' = xmm s ∧ cmem s' = cmem s.
Proof.
  revert vs s q n. induction rs as [|r rs IH]; intros [|v vs] s q n -> Hl Hnd Hrs Hq Hq0 Hqn Hvs Hrd; try done.
  - exists s. by rewrite Z.add_0_r.
  - apply not_elem_of_cons in Hrs as [Hr Hrs]. apply NoDup_cons in Hnd as [Hnr Hnd]. apply Forall_cons in Hvs as [Hv Hvs]. injection Hl as Hl. cbn [length] in *.
    set (n := 8 * Z.of_nat (length rs)). replace (8 * Z.of_nat (S (length rs))) with (8 + n) in * by lia.
    apply rd_mem_split in Hrd as [Hrd1 Hrd2]; [|lia..]. unfold words in Hrd1, Hrd2. cbn [fmap list_fmap concat] in Hrd1, Hrd2.
    rewrite take_app_length' in Hrd1 by (by rewrite length_le_bytes). rewrite drop_app_length' in Hrd2 by (by rewrite length_le_bytes). fold (words vs) in Hrd2.
    destruct (pop_ok r s q (le_bytes 8 v) Hq) as (s1 & He & Hg & Hx & Hm); [lia|lia|done|done|by rewrite le_val_bytes_u64|].
    destruct (IH vs s1 (q + 8) n eq_refl Hl Hnd Hrs) as (s' & He' & Hq' & Hv' & Hk' & Hx' & Hm'); [|lia|lia|done|by rewrite Hm|].
    { rewrite Hg. destruct (Z.eqb_spec TCG_REG_RSP r); done. }
    exists s'. split_and!; [cbn [fmap list_fmap exec_emits]; by rewrite He|lia| | |by rewrite Hx'|by rewrite Hm'].
    + intros [|i] r' v'; cbn [lookup]; [intros [= <-] [= <-]|by apply Hv']. rewrite Hk' by done. by rewrite Hg, Z.eqb_refl, le_val_bytes_u64.
    + intros k [Hkr Hkn]%not_elem_of_cons Hks. rewrite Hk' by done. rewrite Hg. destruct (Z.eqb_spec k r); [done|]. destruct (Z.eqb_spec k TCG_REG_RSP); done.
Qed.

Lemma pops_u64 rs vs (s s' : cpu) : length vs = length rs → Forall (in_u 64) vs → (∀ i r v, rs !! i = Some r → vs !! i = Some v → gpr s' r = v) →
  (∀ k, k ∉ rs → k ≠ TCG_REG_RSP → gpr s' k = gpr s k) → in_u 64 (gpr s' TCG_REG_RSP) → (∀ r, in_u 64 (gpr s r)) → ∀ r, in_u 64 (gpr s' r).
Proof.
  intros Hl Hvs Hv Hk Hsp Hu r. destruct (decide (r = TCG_REG_RSP)) as [->|Hne]; [done|]. destruct (decide (r ∈ rs)) as [Hin|Hni]; [|by rewrite Hk].
  apply list_elem_of_lookup_1 in Hin as [i Hi]. destruct (lookup_lt_is_Some_2 vs i) as [v Hv0]; [rewrite Hl; by eapply lookup_lt_Some|].
  rewrite (Hv i r v Hi Hv0). by eapply Forall_lookup_1.
Qed.

(** Consecutive words loaded. *)
Fixpoint ld64s (b o : Z) (rs : list Z) : list emit :=
  match rs with [] => [] | r :: rs => E_ld TCG_TYPE_I64 r b o :: ld64s b (o + 8) rs end.

Lemma ld64s_ok rs vs s b o q n : n = 8 * Z.of_nat (length rs) → length vs = length rs → NoDup rs → b ∉ rs → gpr s b = q → 0 ≤ q + o → q + o + n < 2 ^ 64 →
  Forall (in_u 64) vs → rd_mem (cmem s) (q + o) n = Ret (words vs) →
  ∃ s', exec_emits (ld64s b o rs) s = Ret s' ∧ (∀ i r v, rs !! i = Some r → vs !! i = Some v → gpr s' r = v) ∧ (∀ k, k ∉ rs → gpr s' k = gpr s k) ∧
    xmm s' = xmm s ∧ cmem s' = cmem s.
Proof.
  revert vs s o n. induction rs as [|r rs IH]; intros [|v vs] s o n -> Hl Hnd Hrs Hq Hq0 Hqn Hvs Hrd; try done.
  - by exists s.
  - apply not_elem_of_cons in Hrs as [Hr Hrs]. apply NoDup_cons in Hnd as [Hnr Hnd]. apply Forall_cons in Hvs as [Hv Hvs]. injection Hl as Hl. cbn [length] in *.
    set (n := 8 * Z.of_nat (length rs)). replace (8 * Z.of_nat (S (length rs))) with (8 + n) in * by lia.
    change (v :: vs) with ([v] ++ vs) in Hrd. rewrite words_app in Hrd. apply rd_mem_unjoin in Hrd as [Hrd1 Hrd2]; [|lia|done].
    change (words [v]) with (le_bytes 8 v ++ []) in Hrd1. rewrite app_nil_r in Hrd1. replace (q + o + 8) with (q + (o + 8)) in Hrd2 by lia.
    destruct (IH vs (set_gpr s r v) (o + 8) n eq_refl Hl Hnd Hrs) as (s' & He & Hv' & Hk & Hx & Hm); [|lia|lia|done|done|].
    { cbn [gpr set_gpr]. by destruct (Z.eqb_spec b r). }
    exists s'. split_and!; [| | |done|done].
    + cbn [ld64s exec_emits]. rewrite (exec_ld64 r b o s (q + o) v); [done| |done|done]. unfold ea. rewrite Hq. apply wrap_small. unfold in_u. lia.
    + intros [|i] r' v'; cbn [lookup]; [intros [= <-] [= <-]|by apply Hv']. rewrite Hk by done. cbn [gpr set_gpr]. rewrite Z.eqb_refl. by apply wrap_small.
    + intros k [Hkr Hkn]%not_elem_of_cons. rewrite Hk by done. cbn [gpr set_gpr]. by destruct (Z.eqb_spec k r).
Qed.

(** ** 128-bit registers *)

Definition st128s (b o : Z) (ks : list Z) : list emit := (λ k, E_st128 (TCG_REG_XMM0 + k) b (o + 16 * k)) <$> ks.
Definition ld128s (b o : Z) (ks : list Z) : list emit := (λ k, E_ld128 (TCG_REG_XMM0 + k) b (o + 16 * k)) <$> ks.

Lemma st128s_ok b o a n i s : gpr s b = a → (∀ k, length (xmm s k) = 16%nat) → 0 ≤ i → 0 ≤ a + o → a + o + 16 * (i + Z.of_nat n) < 2 ^ 64 → (16 | a + o) →
  mapped (cmem s) (a + o + 16 * i) (16 * Z.of_nat n) = true →
  ∃ s', exec_emits (st128s b o (seqZ i (Z.of_nat n))) s = Ret s' ∧ gpr s' = gpr s ∧ xmm s' = xmm s ∧
    rd_mem (cmem s') (a + o + 16 * i) (16 * Z.of_nat n) = Ret (concat (xmm s <$> seqZ i (Z.of_nat n))) ∧
    (∀ x, x < a + o + 16 * i ∨ a + o + 16 * (i + Z.of_nat n) ≤ x → cmem s' x = cmem s x) ∧ ∀ p k, mapped (cmem s') p k = mapped (cmem s) p k.
Proof.
  revert i s. induction n as [|n IH]; intros i s Hb Hx Hi Ha Ht Hal Hm.
  - by exists s.
  - rewrite seqZ_cons by lia. replace (Z.pred (Z.of_nat (S n))) with (Z.of_nat n) by lia. replace (Z.succ i) with (i + 1) by lia.
    assert (ea s b (o + 16 * i) = a + o + 16 * i) as Hea by (unfold ea; rewrite Hb, Z.add_assoc; apply wrap_small; unfold in_u; lia).
    destruct (wr_mem_ok (cmem s) (a + o + 16 * i) (xmm s i)) as (m & Hw & Hin & Hout); [rewrite Hx; eapply mapped_sub; [exact Hm|lia..]|]. rewrite Hx in Hout.
    destruct (IH (i + 1) (set_mem s m) Hb Hx) as (s' & He & Hg & Hx' & Hr & Ho & Hmap); [lia..|done| |].
    { cbn [cmem set_mem]. rewrite (wr_mem_mapped _ _ _ _ _ _ Hw). eapply mapped_sub; [exact Hm|lia..]. }
    exists s'. split_and!; [|done|done| | |].
    + unfold st128s in *. cbn [fmap list_fmap exec_emits]. rewrite (exec_st128 _ _ _ _ m); [done|rewrite Hea; by apply Z.divide_add_r; [|exists i; lia]|].
      rewrite Hea. unfold TCG_REG_XMM0. by replace (16 + i - 16) with i by lia.
    + cbn [fmap list_fmap concat]. replace (16 * Z.of_nat (S n)) with (16 + 16 * Z.of_nat n) by lia. apply rd_mem_join; [lia|lia| |].
      * rewrite (rd_mem_ext m) by (intros x Hx0; apply Ho; lia). replace (a + o + 16 * i) with (a + o + 16 * i + 0) by lia.
        rewrite (rd_wr_mem_same _ _ _ _ 0 16 Hw) by (rewrite ?Hx; lia). by rewrite take_ge by (rewrite length_drop, Hx; lia).
      * replace (a + o + 16 * i + 16) with (a + o + 16 * (i + 1)) by lia. exact Hr.
    + intros x Hx0. rewrite Ho by lia. cbn [cmem set_mem]. apply Hout. lia.
    + intros p k. rewrite Hmap. cbn [cmem set_mem]. by rewrite (wr_mem_mapped _ _ _ _ _ _ Hw).
Qed.

Lemma ld128s_ok b o a n i s bs : gpr s b = a → 0 ≤ i → 0 ≤ a + o → a + o + 16 * (i + Z.of_nat n) < 2 ^ 64 → (16 | a + o) →
  rd_mem (cmem s) (a + o + 16 * i) (16 * Z.of_nat n) = Ret bs →
  ∃ s', exec_emits (ld128s b o (seqZ i (Z.of_nat n))) s = Ret s' ∧ gpr s' = gpr s ∧ cmem s' = cmem s ∧
    (∀ k, i ≤ k < i + Z.of_nat n → xmm s' k = take 16 (drop (Z.to_nat (16 * (k - i))) bs)) ∧ (∀ k, k < i ∨ i + Z.of_nat n ≤ k → xmm s' k = xmm s k).
Proof.
  revert i s bs. induction n as [|n IH]; intros i s bs Hb Hi Ha Ht Hal Hr.
  - exists s. split_and!; try done. lia.
  - rewrite seqZ_cons by lia. replace (Z.pred (Z.of_nat (S n))) with (Z.of_nat n) by lia. replace (Z.succ i) with (i + 1) by lia.
    replace (16 * Z.of_nat (S n)) with (16 + 16 * Z.of_nat n) in Hr by lia. apply rd_mem_split in Hr as [Hr1 Hr2]; [|lia..].
    assert (ea s b (o + 16 * i) = a + o + 16 * i) as Hea by (unfold ea; rewrite Hb, Z.add_assoc; apply wrap_small; unfold in_u; lia).
    replace (a + o + 16 * i + 16) with (a + o + 16 * (i + 1)) in Hr2 by lia.
    destruct (IH (i + 1) (set_xmm s i (take (Z.to_nat 16) bs)) (drop (Z.to_nat 16) bs) Hb) as (s' & He & Hg & Hm & Hx & Hk); [lia..|done|done|].
    exists s'. split_and!; [|done|done| |].
    + unfold ld128s in *. cbn [fmap list_fmap exec_emits]. rewrite (exec_ld128 _ _ _ _ (take (Z.to_nat 16) bs)); [|rewrite Hea; by apply Z.divide_add_r; [|exists i; lia]|by rewrite Hea].
      cbn [mbind outcome_bind]. unfold TCG_REG_XMM0 in *. by replace (16 + i - 16) with i by lia.
    + intros k Hk0. destruct (decide (k = i)) as [->|Hne].
      * rewrite Hk by lia. cbn [xmm set_xmm]. rewrite Z.eqb_refl, Z.sub_diag. done.
      * rewrite Hx by lia. rewrite drop_drop. do 2 f_equal. lia.
    + intros k Hk0. rewrite Hk by lia. cbn [xmm set_xmm]. by destruct (Z.eqb_spec k i); [lia|].
Qed.

Lemma concat_chunks (f : Z → list Z) n i l : length l = (16 * n)%nat → (∀ k, i ≤ k < i + Z.of_nat n → f k = take 16 (drop (Z.to_nat (16 * (k - i))) l)) →
  concat (f <$> seqZ i (Z.of_nat n)) = l.
Proof.
  revert i l. induction n as [|n IH]; intros i l Hl Hf; [by destruct l|]. rewrite seqZ_cons by lia. cbn [fmap list_fmap concat].
  replace (Z.pred (Z.of_nat (S n))) with (Z.of_nat n) by lia. replace (Z.succ i) with (i + 1) by lia. rewrite Hf, Z.sub_diag by lia.
  rewrite (IH (i + 1) (drop 16 l)).
  - apply (take_drop 16 l).
  - rewrite length_drop. lia.
  - intros k Hk. rewrite Hf by lia. rewrite drop_drop. do 2 f_equal. lia.
Qed.
