(* ===== verification/Prologue.v ===== *)
(** * The fixed trampolines

    [tcg_target_qemu_prologue] of [tcg/i386/tcg-target.inc.c] emits, once, the
    code by which C functions and translated code call each other: the way into
    translated code and back, the way from a host caller into [cpu_xloop], the
    search for the next block, and the call of a host function with a prepared
    argument space.  [guest_base] is 0, the functions called are addresses. *)

From S2P Require Import Prelude Bytes ABIArgInfo DyBridge Memory X86 Encoder Machine A2XCode.

(** The C functions that are called. *)
Record prologue_fns := mk_prologue_fns {
  fn_cpu_xloop_helper : Z;
  fn_cpu_xloop : Z;
  fn_helper_lookup_tb_ptr : Z;
  fn_xloop_finish : Z;
  fn_lazy_binder : Z
}.

Definition tcg_target_callee_save_regs : list Z :=
  [TCG_REG_RBP; TCG_REG_RBX; TCG_REG_R12; TCG_REG_R13; TCG_REG_R14; TCG_REG_R15].

Definition TCG_STATIC_CALL_ARGS_SIZE : Z := 128.
Definition CPU_TEMP_BUF_NLONGS : Z := 128.
Definition TCG_TARGET_STACK_ALIGN : Z := 16.
Definition PUSH_SIZE : Z := (1 + Z.of_nat (length tcg_target_callee_save_regs)) * 8.
Definition FRAME_SIZE : Z :=
  Z.land (PUSH_SIZE + TCG_STATIC_CALL_ARGS_SIZE + CPU_TEMP_BUF_NLONGS * 8 + TCG_TARGET_STACK_ALIGN - 1)
    (Z.lnot (TCG_TARGET_STACK_ALIGN - 1)).
Definition stack_addend : Z := FRAME_SIZE - PUSH_SIZE.

Definition push_callee_saved : list emit := E_push <$> tcg_target_callee_save_regs.
Definition pop_callee_saved : list emit := E_pop <$> reverse tcg_target_callee_save_regs.

(** Into a block: [env] in RDI, the block in RSI. *)
Definition tb_prologue : list emit :=
  push_callee_saved ++
  [E_mov TCG_TYPE_PTR TCG_AREG0 TCG_REG_RDI; E_addi TCG_REG_RSP (- stack_addend); E_jmp_reg TCG_REG_RSI].

(** At [code_gen_epilogue], then at [tb_ret_addr]. *)
Definition goto_ptr_return : list emit := [E_movi TCG_TYPE_REG TCG_REG_RAX 0].
Definition tb_epilogue (have_avx2 : bool) : list emit :=
  [E_addi TCG_REG_RSP stack_addend] ++ (if have_avx2 then [E_vzeroupper] else []) ++ pop_callee_saved ++ [E_ret].

(** At [code_gen_xloop_trampoline]: the registers are saved as a
    [_Register_Context]. *)
Definition xloop_save : list emit :=
  [E_addi TCG_REG_RSP (-(0x10 * 8));
   E_st128 TCG_REG_XMM0 TCG_REG_RSP 0; E_st128 (TCG_REG_XMM0 + 1) TCG_REG_RSP 0x10;
   E_st128 (TCG_REG_XMM0 + 2) TCG_REG_RSP 0x20; E_st128 (TCG_REG_XMM0 + 3) TCG_REG_RSP 0x30;
   E_st128 (TCG_REG_XMM0 + 4) TCG_REG_RSP 0x40; E_st128 (TCG_REG_XMM0 + 5) TCG_REG_RSP 0x50;
   E_st128 (TCG_REG_XMM0 + 6) TCG_REG_RSP 0x60; E_st128 (TCG_REG_XMM0 + 7) TCG_REG_RSP 0x70;
   E_push TCG_REG_R15; E_push TCG_REG_R14; E_push TCG_REG_R13; E_push TCG_REG_R12;
   E_push TCG_REG_R11; E_push TCG_REG_R10; E_push TCG_REG_R9; E_push TCG_REG_R8; E_push TCG_REG_RSP;
   E_addi_ptr TCG_REG_RSP (8 * 8 + 8 * 0x10 + 8);
   E_push TCG_REG_RBP; E_push TCG_REG_RSI; E_push TCG_REG_RDI; E_push TCG_REG_RDX;
   E_push TCG_REG_RCX; E_push TCG_REG_RBX; E_push TCG_REG_RAX].
Definition xloop_helper_args : list emit :=
  [E_mov TCG_TYPE_I64 TCG_REG_RDI TCG_REG_R10; E_mov TCG_TYPE_I64 TCG_REG_RSI TCG_REG_R11;
   E_mov TCG_TYPE_I64 TCG_REG_RDX TCG_REG_RSP; E_ld TCG_TYPE_I64 TCG_REG_RCX TCG_REG_RSP (16 * 8 + 8 * 0x10)].
Definition xloop_restore : list emit :=
  [E_pop TCG_REG_RAX; E_pop TCG_REG_RBX; E_pop TCG_REG_RCX; E_pop TCG_REG_RDX; E_pop TCG_REG_RDI; E_pop TCG_REG_RSI; E_pop TCG_REG_RBP;
   E_pop TCG_REG_R8;
   E_pop TCG_REG_R8; E_pop TCG_REG_R9; E_pop TCG_REG_R10; E_pop TCG_REG_R11; E_pop TCG_REG_R12; E_pop TCG_REG_R13; E_pop TCG_REG_R14; E_pop TCG_REG_R15;
   E_ld128 TCG_REG_XMM0 TCG_REG_RSP 0; E_ld128 (TCG_REG_XMM0 + 1) TCG_REG_RSP 0x10;
   E_ld128 (TCG_REG_XMM0 + 2) TCG_REG_RSP 0x20; E_ld128 (TCG_REG_XMM0 + 3) TCG_REG_RSP 0x30;
   E_ld128 (TCG_REG_XMM0 + 4) TCG_REG_RSP 0x40; E_ld128 (TCG_REG_XMM0 + 5) TCG_REG_RSP 0x50;
   E_ld128 (TCG_REG_XMM0 + 6) TCG_REG_RSP 0x60; E_ld128 (TCG_REG_XMM0 + 7) TCG_REG_RSP 0x70;
   E_addi TCG_REG_RSP (0x10 * 8 + 8)].
Definition xloop_trampoline (fns : prologue_fns) : list emit :=
  xloop_save ++ xloop_helper_args ++ [E_call (fn_cpu_xloop_helper fns)] ++ [E_call (fn_cpu_xloop fns)] ++ xloop_restore ++ [E_ret].

(** At [code_gen_quick_tbcache] *)
Definition quick_tbcache (fns : prologue_fns) : list emit :=
  [E_mov TCG_TYPE_I64 TCG_REG_RDI TCG_AREG0; E_call (fn_helper_lookup_tb_ptr fns); E_jmp_reg TCG_REG_RAX].

(** At [code_gen_xloop_ret_tb]; [xloop_finish] does not return. *)
Definition xloop_ret_tb (fns : prologue_fns) : list emit :=
  [E_mov TCG_TYPE_REG TCG_REG_RDI TCG_AREG0; E_call (fn_xloop_finish fns)].

(** At [code_gen_x64_lazy_binder_tb] *)
Definition x64_lazy_binder_tb (fns : prologue_fns) (tb_ret_addr : Z) : list emit :=
  [E_mov TCG_TYPE_REG TCG_REG_RDI TCG_AREG0; E_call (fn_lazy_binder fns); E_movi TCG_TYPE_I32 TCG_REG_RAX 0; E_jmp tb_ret_addr].

(** At [code_gen_dy_call_x64_trampoline] *)
Definition dy_call_prepare : list emit :=
  push_callee_saved ++
  [E_mov TCG_TYPE_REG TCG_REG_RBP TCG_REG_RSP; E_addi TCG_REG_RSP (-8);
   E_mov TCG_TYPE_REG TCG_REG_R11 TCG_REG_RDI; E_mov TCG_TYPE_REG TCG_REG_R12 TCG_REG_RSI; E_mov TCG_TYPE_REG TCG_REG_RCX TCG_REG_RDX;
   E_addi TCG_REG_RSI (6 * 8 + 8 * 16 + 8); E_out8 [0x48; 0x29; 0xcc];
   E_mov TCG_TYPE_REG TCG_REG_RDI TCG_REG_RSP; E_out8 [0xf3; 0xa4];
   E_ld TCG_TYPE_PTR TCG_REG_RDI TCG_REG_R12 0; E_ld TCG_TYPE_PTR TCG_REG_RSI TCG_REG_R12 0x08;
   E_ld TCG_TYPE_PTR TCG_REG_RDX TCG_REG_R12 0x10; E_ld TCG_TYPE_PTR TCG_REG_RCX TCG_REG_R12 0x18;
   E_ld TCG_TYPE_PTR TCG_REG_R8 TCG_REG_R12 0x20; E_ld TCG_TYPE_PTR TCG_REG_R9 TCG_REG_R12 0x28;
   E_ld TCG_TYPE_I32 TCG_REG_RAX TCG_REG_R12 0xb0; E_out8 [0x85; 0xc0]].
(** Skipped when EAX is 0. *)
Definition dy_call_load_sse : list emit :=
  [E_ld128 TCG_REG_XMM0 TCG_REG_R12 0x30; E_ld128 (TCG_REG_XMM0 + 1) TCG_REG_R12 0x40;
   E_ld128 (TCG_REG_XMM0 + 2) TCG_REG_R12 0x50; E_ld128 (TCG_REG_XMM0 + 3) TCG_REG_R12 0x60;
   E_ld128 (TCG_REG_XMM0 + 4) TCG_REG_R12 0x70; E_ld128 (TCG_REG_XMM0 + 5) TCG_REG_R12 0x80;
   E_ld128 (TCG_REG_XMM0 + 6) TCG_REG_R12 0x90; E_ld128 (TCG_REG_XMM0 + 7) TCG_REG_R12 0xa0].
Definition dy_call_finish : list emit :=
  [E_st TCG_TYPE_PTR TCG_REG_RAX TCG_REG_R12 0xb0; E_st TCG_TYPE_PTR TCG_REG_RDX TCG_REG_R12 0x10;
   E_st128 TCG_REG_XMM0 TCG_REG_R12 0x30; E_st128 (TCG_REG_XMM0 + 1) TCG_REG_R12 0x40;
   E_mov TCG_TYPE_REG TCG_REG_RSP TCG_REG_RBP] ++ pop_callee_saved.
Definition dy_call_code : list emit :=
  dy_call_prepare ++ [E_out8 [0x74; 65]] ++ dy_call_load_sse ++ [call_r11] ++ dy_call_finish ++ [E_ret].

(** The addresses that [TCGContext] keeps. *)
Record code_labels := mk_labels {
  code_gen_prologue : Z;
  code_gen_epilogue : Z;
  tb_ret_addr : Z;
  code_gen_xloop_trampoline : Z;
  code_gen_quick_tbcache : Z;
  code_gen_xloop_ret_tb : Z;
  code_gen_x64_lazy_binder_tb : Z;
  code_gen_dy_call_x64_trampoline : Z
}.

(** Code is added at [code_ptr]. *)
Definition emit_at (code_ptr : Z) (es : list emit) : outcome (Z * list Z) :=
  l ← assemble code_ptr es; Ret (code_ptr + Z.of_nat (length l), l).

Definition tcg_target_qemu_prologue (fns : prologue_fns) (have_avx2 : bool) (code_ptr : Z) : outcome (code_labels * list Z) :=
  '(epilogue, l0) ← emit_at code_ptr tb_prologue;
  '(ret_addr, l1) ← emit_at epilogue goto_ptr_return;
  '(xloop, l2) ← emit_at ret_addr (tb_epilogue have_avx2);
  '(quick, l3) ← emit_at xloop (xloop_trampoline fns);
  '(xloop_ret, l4) ← emit_at quick (quick_tbcache fns);
  '(binder, l5) ← emit_at xloop_ret (xloop_ret_tb fns);
  '(dy_call, l6) ← emit_at binder (x64_lazy_binder_tb fns ret_addr);
  '(_, l7) ← emit_at dy_call dy_call_code;
  Ret (mk_labels code_ptr epilogue ret_addr xloop quick xloop_ret binder dy_call, l0 ++ l1 ++ l2 ++ l3 ++ l4 ++ l5 ++ l6 ++ l7).

(** [tcg_target_spec_x64func_code_gen]: a C function that gets [env] stands in
    for a block. *)
Definition spec_x64func (addr code_gen_quick_tbcache : Z) : list emit :=
  [E_mov TCG_TYPE_REG TCG_REG_RDI TCG_AREG0; E_call addr; E_jmp code_gen_quick_tbcache].
