(* ===== verification/XLoopTramp.v ===== *)
(** * From a host caller into the emulator

    A host caller that calls guest code runs [code_gen_xloop_trampoline].  It
    saves all registers as a [_Register_Context] on the stack, passes it to
    [cpu_xloop_helper] and calls [cpu_xloop], which may change it, and returns
    to the caller with the registers of the context. *)

From S2P Require Import Prelude Bytes ABIArgInfo DyBridge Memory X86 Encoder Machine A2XCode A2XSim A2XStep A2XArg A2XCall A2XValid A2XTramp X2ACode X2ASim Runs Prologue.

(** ** The context *)

Definition ctx_gprs : list Z :=
  [TCG_REG_RAX; TCG_REG_RBX; TCG_REG_RCX; TCG_REG_RDX; TCG_REG_RDI; TCG_REG_RSI; TCG_REG_RBP; TCG_REG_RSP;
   TCG_REG_R8; TCG_REG_R9; TCG_REG_R10; TCG_REG_R11; TCG_REG_R12; TCG_REG_R13; TCG_REG_R14; TCG_REG_R15].

(** The context of a state whose stack pointer is taken to be [rsp]. *)
Definition context_of (s : cpu) (rsp : Z) : list Z :=
  words ((λ r, if r =? TCG_REG_RSP then rsp else gpr s r) <$> ctx_gprs) ++ concat (xmm s <$> seqZ 0 8).

Lemma length_context s rsp : (∀ k, length (xmm s k) = 16%nat) → Z.of_nat (length (context_of s rsp)) = SIZEOF_CONTEXT.
Proof.
  intros Hx. unfold context_of. rewrite length_app, Nat2Z.inj_add, length_words, length_fmap. rewrite (length_chunks 16); [|apply Forall_fmap, Forall_true; intros; apply Hx].
  by rewrite length_fmap.
Qed.

Lemma exec_addi_ptr r v s q x : (v =? 0) = false → gpr s r = q → in_u 64 q → in_u 64 (x + v) → in_u 64 x → rd_mem (cmem s) q 8 = Ret (le_bytes 8 x) →
  ∃ s', exec_emit (E_addi_ptr r v) s = Ret s' ∧ gpr s' = gpr s ∧ xmm s' = xmm s ∧ rd_mem (cmem s') q 8 = Ret (le_bytes 8 (x + v)) ∧
    (∀ y, y < q ∨ q + 8 ≤ y → cmem s' y = cmem s y) ∧ ∀ a k, mapped (cmem s') a k = mapped (cmem s) a k.
Proof.
  intros Hv Hq Hu Hxv Hx Hr. unfold exec_emit. cbn [insn_of]. rewrite Hv. cbn [exec_plain].
  assert (ea s r 0 = q) as -> by (unfold ea; rewrite Hq, Z.add_0_r; by apply wrap_small).
  unfold cload, cstore. rewrite Hr. cbn [mbind outcome_bind]. rewrite le_val_bytes_u64 by done. rewrite wrap_small by done.
  destruct (wr_mem_ok (cmem s) q (le_bytes 8 (x + v))) as (m & Hw & _ & Ho); [rewrite length_le_bytes; by eapply rd_mem_mapped; [|exact Hr]|].
  rewrite length_le_bytes in Ho. rewrite Hw. cbn [mbind outcome_bind]. eexists. split; [reflexivity|]. split_and!; [done|done| |done|].
  - replace q with (q + 0) by lia. cbn [cmem set_zf set_mem]. by rewrite (rd_wr_mem_same _ _ _ _ 0 8 Hw) by (rewrite ?length_le_bytes; lia).
  - intros a k. by apply (wr_mem_mapped _ _ _ _ _ _ Hw).
Qed.

Lemma u64_only_rsp q s s' : only_rsp q s s' → in_u 64 q → (∀ r, in_u 64 (gpr s r)) → ∀ r, in_u 64 (gpr s' r).
Proof. intros [Hg _] Hq Hu r. rewrite Hg. by destruct (r =? _). Qed.

(** ** Saving *)

Section save.
Context (s : cpu) (q : Z) (Hq : gpr s TCG_REG_RSP = q) (Hal : (16 | q)) (Hlow : 272 ≤ q) (Hhigh : q + 16 < 2 ^ 64).
Context (Hu : ∀ r, in_u 64 (gpr s r)) (Hx : ∀ k, length (xmm s k) = 16%nat) (Hm : mapped (cmem s) (q - 256) 256 = true).

Lemma xloop_save_parts : xloop_save = [E_addi TCG_REG_RSP (- 128)] ++ st128s TCG_REG_RSP 0 (seqZ 0 8) ++
  (E_push <$> [TCG_REG_R15; TCG_REG_R14; TCG_REG_R13; TCG_REG_R12; TCG_REG_R11; TCG_REG_R10; TCG_REG_R9; TCG_REG_R8]) ++
  [E_push TCG_REG_RSP; E_addi_ptr TCG_REG_RSP 200] ++
  (E_push <$> [TCG_REG_RBP; TCG_REG_RSI; TCG_REG_RDI; TCG_REG_RDX; TCG_REG_RCX; TCG_REG_RBX; TCG_REG_RAX]).
Proof. reflexivity. Qed.

Lemma saved_parts m (g1 g2 : Z → Z) (x : Z → list Z) : (∀ r, r ≠ TCG_REG_RSP → g1 r = gpr s r ∧ g2 r = gpr s r) → x = xmm s →
  rd_mem m (q - 256) 56 = Ret (words (reverse (g1 <$> [TCG_REG_RBP; TCG_REG_RSI; TCG_REG_RDI; TCG_REG_RDX; TCG_REG_RCX; TCG_REG_RBX; TCG_REG_RAX]))) →
  rd_mem m (q - 200) 8 = Ret (le_bytes 8 (q - 192 + 200)) →
  rd_mem m (q - 192) 64 = Ret (words (reverse (g2 <$> [TCG_REG_R15; TCG_REG_R14; TCG_REG_R13; TCG_REG_R12; TCG_REG_R11; TCG_REG_R10; TCG_REG_R9; TCG_REG_R8]))) →
  rd_mem m (q - 128) 128 = Ret (concat (x <$> seqZ 0 8)) → rd_mem m (q - 256) 256 = Ret (context_of s (q + 8)).
Proof using.
  clear. intros Hg -> H1 H2 H3 H4. change 256 with (56 + (8 + (64 + 128))) at 2.
  replace (q - 200) with (q - 256 + 56) in H2 by lia. replace (q - 192) with (q - 256 + 56 + 8) in H3 by lia. replace (q - 128) with (q - 256 + 56 + 8 + 64) in H4 by lia.
  pose proof (rd_mem_join m (q - 256 + 56 + 8) 64 128 _ _ ltac:(lia) ltac:(lia) H3 H4) as H34. pose proof (rd_mem_join m (q - 256 + 56) 8 (64 + 128) _ _ ltac:(lia) ltac:(lia) H2 H34) as H234.
  rewrite (rd_mem_join m (q - 256) 56 (8 + (64 + 128)) _ _ ltac:(lia) ltac:(lia) H1 H234). unfold context_of. f_equal. rewrite !app_assoc. f_equal.
  rewrite (list_fmap_ext g1 (gpr s)), (list_fmap_ext g2 (gpr s)) by (intros i r Hr; apply Hg; intros ->; apply list_elem_of_lookup_2 in Hr; set_solver).
  replace (le_bytes 8 (q - 192 + 200)) with (words [q + 8]) by (unfold words; cbn [fmap list_fmap concat]; rewrite app_nil_r; f_equal; lia).
  by rewrite <- !words_app.
Qed.

Lemma xloop_save_ok : ∃ s', exec_emits xloop_save s = Ret s' ∧ only_rsp (q - 256) s s' ∧ rd_mem (cmem s') (q - 256) 256 = Ret (context_of s (q + 8)) ∧
  (∀ x, x < q - 256 ∨ q ≤ x → cmem s' x = cmem s x) ∧ ∀ a k, mapped (cmem s') a k = mapped (cmem s) a k.
Proof.
  destruct (sub_rsp s q 128 Hq) as (s1 & He1 & (Hg1 & Hx1 & Hm1) & Hu1); [lia|lia|done|]. change (- (128)) with (-128) in He1.
  destruct (st128s_ok TCG_REG_RSP 0 (q - 128) 8 0 s1) as (s2 & He2 & Hg2 & Hx2 & Hr2 & Ho2 & Hmap2); [by rewrite Hg1, Z.eqb_refl|by rewrite Hx1|lia|lia|lia| | |].
  { replace (q - 128 + 0) with (q - 8 * 16) by lia. by apply Z.divide_sub_r; [|exists 8]. }
  { rewrite Hm1. eapply mapped_sub; [exact Hm|lia..]. }
  destruct (pushes_ok [TCG_REG_R15; TCG_REG_R14; TCG_REG_R13; TCG_REG_R12; TCG_REG_R11; TCG_REG_R10; TCG_REG_R9; TCG_REG_R8] s2 (q - 128) 64 eq_refl)
    as (s3 & He3 & Hg3 & Hr3 & Ho3 & Hmap3); [set_solver|by rewrite Hg2, Hg1, Z.eqb_refl|lia|by rewrite Hg2|rewrite Hmap2, Hm1; eapply mapped_sub; [exact Hm|lia..]|].
  pose proof (u64_only_rsp _ _ _ Hg3 ltac:(unfold in_u; lia) ltac:(by rewrite Hg2)) as Hu3. destruct Hg3 as [Hg3 Hx3].
  destruct (push_ok TCG_REG_RSP s3 (q - 192)) as (s4 & He4 & Hg4 & Hx4 & Hr4 & Ho4 & Hmap4); [rewrite Hg3, Z.eqb_refl; lia|lia|apply Hu3|rewrite Hmap3, Hmap2, Hm1; eapply mapped_sub; [exact Hm|lia..]|].
  assert (gpr s3 TCG_REG_RSP = q - 192) as Hsp3 by (rewrite Hg3, Z.eqb_refl; lia). rewrite Hsp3 in Hr4.
  destruct (exec_addi_ptr TCG_REG_RSP 200 s4 (q - 192 - 8) (q - 192) eq_refl) as (s5 & He5 & Hg5 & Hx5 & Hr5 & Ho5 & Hmap5); [by rewrite Hg4, Z.eqb_refl|unfold in_u; lia..|done|].
  destruct (pushes_ok [TCG_REG_RBP; TCG_REG_RSI; TCG_REG_RDI; TCG_REG_RDX; TCG_REG_RCX; TCG_REG_RBX; TCG_REG_RAX] s5 (q - 200) 56 eq_refl)
    as (s6 & He6 & [Hg6 Hx6] & Hr6 & Ho6 & Hmap6); [set_solver|rewrite Hg5, Hg4, Z.eqb_refl; lia|lia| |rewrite Hmap5, Hmap4, Hmap3, Hmap2, Hm1; eapply mapped_sub; [exact Hm|lia..]|].
  { intros r. rewrite Hg5, Hg4. destruct (r =? _); [unfold in_u; lia|apply Hu3]. }
  assert (∀ r, r ≠ TCG_REG_RSP → gpr s5 r = gpr s r ∧ gpr s2 r = gpr s r) as Hsame.
  { intros r Hr. apply Z.eqb_neq in Hr. split; [rewrite Hg5, Hg4, Hr, Hg3, Hr, Hg2, Hg1, Hr|rewrite Hg2, Hg1, Hr]; done. }
  exists s6. split_and!.
  - rewrite xloop_save_parts. change (seqZ 0 8) with (seqZ 0 (Z.of_nat 8)). cbn [app]. rewrite (exec_emits_cons _ _ _ _ He1), (exec_app _ _ _ _ He2), (exec_app _ _ _ _ He3).
    rewrite (exec_emits_cons _ _ _ _ He4), (exec_emits_cons _ _ _ _ He5). exact He6.
  - split; [|by rewrite Hx6, Hx5, Hx4, Hx3, Hx2, Hx1]. intros k. rewrite Hg6. destruct (Z.eqb_spec k TCG_REG_RSP); [lia|]. by apply Hsame.
  - apply (saved_parts (cmem s6) (gpr s5) (gpr s2) (xmm s1) Hsame Hx1).
    + replace (q - 256) with (q - 200 - 56) by lia. exact Hr6.
    + rewrite <- Hr5. replace (q - 192 - 8) with (q - 200) by lia. apply rd_mem_ext. intros x Hx0. apply Ho6. lia.
    + replace (q - 192) with (q - 128 - 64) by lia. rewrite <- Hr3. apply rd_mem_ext. intros x Hx0. rewrite Ho6, Ho5, Ho4 by lia. done.
    + replace (q - 128) with (q - 128 + 0 + 16 * 0) by lia. change (seqZ 0 8) with (seqZ 0 (Z.of_nat 8)). rewrite <- Hr2. apply rd_mem_ext. intros x Hx0. rewrite Ho6, Ho5, Ho4, Ho3 by lia. done.
  - intros x Hx0. rewrite Ho6, Ho5, Ho4, Ho3, Ho2, Hm1 by lia. done.
  - intros a k. by rewrite Hmap6, Hmap5, Hmap4, Hmap3, Hmap2, Hm1.
Qed.
End save.

(** ** Restoring *)

Lemma words_of n l : length l = (8 * n)%nat → bytes_ok l →
  ∃ vs, length vs = n ∧ Forall (in_u 64) vs ∧ l = words vs ∧ ∀ i v, vs !! i = Some v → rd l (8 * Z.of_nat i) 8 = Ret (le_bytes 8 v).
Proof.
  revert l. induction n as [|n IH]; intros l Hl Hok.
  - exists []. destruct l; [|done]. split_and!; [done|constructor|done|done].
  - destruct (IH (drop 8 l)) as (vs & Hvs & Hu & Hw & Hr); [rewrite length_drop; lia|by apply Forall_drop|].
    assert (length (take 8 l) = 8%nat) as Ht by (rewrite length_take; lia).
    assert (le_bytes 8 (le_val (take 8 l)) = take 8 l) as Hle by (rewrite <- Ht at 1; apply le_bytes_val; by apply Forall_take).
    exists (le_val (take 8 l) :: vs). split_and!; [cbn [length]; lia|constructor; [apply le_val_u64; [by apply Forall_take|lia]|done]| |].
    + unfold words. cbn [fmap list_fmap concat]. fold (words vs). rewrite <- Hw, Hle. by rewrite take_drop.
    + intros [|i] v; cbn [lookup].
      * intros [= <-]. rewrite Hle. apply rd_ok; lia.
      * intros Hv. specialize (Hr i v Hv). apply rd_inv in Hr as (_ & Hb & Hv'). rewrite length_drop in Hb. rewrite rd_ok by lia. rewrite Hv', drop_drop. do 3 f_equal. lia.
Qed.

(** The registers of [s] are those of the context. *)
Definition context_regs (ctx : list Z) (s : cpu) : Prop :=
  (∀ i r, ctx_gprs !! i = Some r → r ≠ TCG_REG_RSP → rd ctx (8 * Z.of_nat i) 8 = Ret (le_bytes 8 (gpr s r))) ∧
  (∀ k, 0 ≤ k < 8 → rd ctx (CTX_XMM0 + 16 * k) 16 = Ret (xmm s k)).

Lemma rd_take_in l k off n : 0 ≤ off → 0 ≤ n → off + n ≤ Z.of_nat k → (k ≤ length l)%nat → rd (take k l) off n = rd l off n.
Proof. intros Ho Hn Hk Hl. rewrite !rd_ok by (rewrite ?length_take; lia). by rewrite !take_drop_commute, take_take, Nat.min_l by lia. Qed.

Section restore.
Context (s : cpu) (b : Z) (ctx : list Z) (Hb : gpr s TCG_REG_RSP = b) (Hal : (16 | b)) (Hlow : 0 ≤ b) (Hhigh : b + 272 < 2 ^ 64).
Context (Hu : ∀ r, in_u 64 (gpr s r)) (Hctx : rd_mem (cmem s) b 256 = Ret ctx) (Hok : bytes_ok ctx).

Definition ctx_low : list Z := [TCG_REG_RAX; TCG_REG_RBX; TCG_REG_RCX; TCG_REG_RDX; TCG_REG_RDI; TCG_REG_RSI; TCG_REG_RBP].
Definition ctx_high : list Z := [TCG_REG_R8; TCG_REG_R9; TCG_REG_R10; TCG_REG_R11; TCG_REG_R12; TCG_REG_R13; TCG_REG_R14; TCG_REG_R15].

Lemma xloop_restore_parts : xloop_restore =
  (E_pop <$> ctx_low) ++ [E_pop TCG_REG_R8] ++ (E_pop <$> ctx_high) ++ ld128s TCG_REG_RSP 0 (seqZ 0 8) ++ [E_addi TCG_REG_RSP 136].
Proof. reflexivity. Qed.

Lemma xloop_restore_ok : ∃ s', exec_emits xloop_restore s = Ret s' ∧ gpr s' TCG_REG_RSP = b + 264 ∧ context_regs ctx s' ∧ cmem s' = cmem s ∧
  (∀ r, in_u 64 (gpr s' r)) ∧ (∀ k, k < 0 ∨ 8 ≤ k → xmm s' k = xmm s k).
Proof.
  pose proof (rd_mem_length (cmem s) b 256 ctx ltac:(lia) Hctx) as Hl. destruct (rd_mem_split (cmem s) b 128 128 ctx ltac:(lia) ltac:(lia) Hctx) as [Hc1 Hc2].
  destruct (words_of 16 (take 128 ctx)) as (vs & Hvs & Hvu & Hw & Hr); [rewrite length_take; lia|by apply Forall_take|].
  change (take (Z.to_nat 128) ctx) with (take 128 ctx) in Hc1. rewrite Hw in Hc1.
  do 16 (destruct vs as [|? vs]; [done|]). destruct vs; [|done]. clear Hvs Hw.
  set (lo := [z; z0; z1; z2; z3; z4; z5]). set (hi := [z7; z8; z9; z10; z11; z12; z13; z14]).
  change (words _) with (words (lo ++ [z6] ++ hi)) in Hc1. rewrite !words_app in Hc1. change 128 with (56 + (8 + 64)) in Hc1 at 1.
  apply rd_mem_unjoin in Hc1 as [Hc3 Hc1]; [|lia|done]. apply rd_mem_unjoin in Hc1 as [Hc4 Hc5]; [|lia|done].
  assert (Forall (in_u 64) lo ∧ in_u 64 z6 ∧ Forall (in_u 64) hi) as (Hlo & Hz6 & Hhi).
  { change (Forall (in_u 64) (lo ++ [z6] ++ hi)) in Hvu. apply Forall_app in Hvu as [H1 Hvu]. apply Forall_app in Hvu as [H2 H3]. apply Forall_cons in H2 as [H2 _]. split; [exact H1|]. split; [exact H2|exact H3]. }
  destruct (pops_ok ctx_low lo s b 56 eq_refl eq_refl) as (s1 & He1 & Hq1 & Hv1 & Hk1 & Hx1 & Hm1);
    [by apply (bool_decide_unpack _)|by apply (bool_decide_unpack _)|done|lia|lia|done|exact Hc3|].
  assert (words [z6] = le_bytes 8 z6) as Hw6 by (unfold words; cbn [fmap list_fmap concat]; apply app_nil_r). rewrite Hw6 in Hc4.
  destruct (pop_ok TCG_REG_R8 s1 (b + 56) (le_bytes 8 z6) Hq1) as (s2 & He2 & Hg2 & Hx2 & Hm2); [lia|lia|done|unfold cload; by rewrite Hm1|by rewrite le_val_bytes_u64|].
  destruct (pops_ok ctx_high hi s2 (b + 56 + 8) 64 eq_refl eq_refl) as (s3 & He3 & Hq3 & Hv3 & Hk3 & Hx3 & Hm3);
    [by apply (bool_decide_unpack _)|by apply (bool_decide_unpack _)|by rewrite Hg2|lia|lia|done|rewrite Hm2, Hm1; exact Hc5|].
  destruct (ld128s_ok TCG_REG_RSP 0 (b + 128) 8 0 s3 (drop 128 ctx)) as (s4 & He4 & Hg4 & Hm4 & Hv4 & Hk4); [lia|lia|lia|lia| | |].
  { rewrite Z.add_0_r. by apply Z.divide_add_r; [|exists 8]. }
  { replace (b + 128 + 0 + 16 * 0) with (b + 128) by lia. by rewrite Hm3, Hm2, Hm1. }
  assert (gpr s4 TCG_REG_RSP = b + 128) as Hq4 by (rewrite Hg4; lia).
  assert (∀ r, in_u 64 (gpr s4 r)) as Hu4.
  { rewrite Hg4. eapply (pops_u64 ctx_high hi); [done|done|exact Hv3|exact Hk3|rewrite Hq3; unfold in_u; lia|]. intros r. rewrite Hg2, le_val_bytes_u64 by done.
    destruct (r =? _); [done|]. destruct (r =? _); [unfold in_u; lia|]. revert r. eapply (pops_u64 ctx_low lo); [done|done|exact Hv1|exact Hk1|rewrite Hq1; unfold in_u; lia|done]. }
  destruct (add_rsp s4 (b + 128) 136 Hq4) as (s5 & He5 & (Hg5 & Hx5 & Hm5) & Hu5); [lia|lia|lia|done|].
  exists s5. split_and!; [|rewrite Hg5, Z.eqb_refl; lia|split|by rewrite Hm5, Hm4, Hm3, Hm2, Hm1|done|].
  - rewrite xloop_restore_parts. change (seqZ 0 8) with (seqZ 0 (Z.of_nat 8)). rewrite (exec_app _ _ _ _ He1). cbn [app]. rewrite (exec_emits_cons _ _ _ _ He2), (exec_app _ _ _ _ He3), (exec_app _ _ _ _ He4).
    by rewrite (exec_emits_cons _ _ _ _ He5).
  - intros i r Hi Hne. assert (gpr s5 r = gpr s3 r) as -> by (rewrite Hg5, Hg4; by destruct (Z.eqb_spec r TCG_REG_RSP)).
    assert (∀ v, (lo ++ [z6] ++ hi) !! i = Some v → rd ctx (8 * Z.of_nat i) 8 = Ret (le_bytes 8 v)) as Hrd.
    { intros v Hv. apply lookup_lt_Some in Hv as Hi16. cbn in Hi16. rewrite <- (Hr i v Hv). symmetry. apply rd_take_in; lia. }
    assert (∀ k, k ∉ ctx_high → k ≠ TCG_REG_RSP → gpr s3 k = gpr s1 k) as H31.
    { intros k Hk Hks. rewrite Hk3 by done. rewrite Hg2. destruct (Z.eqb_spec k TCG_REG_R8) as [->|]; [set_solver|]. by destruct (Z.eqb_spec k TCG_REG_RSP). }
    destruct (decide (i < 7)%nat) as [Hlt|Hge]; [|destruct (decide (i = 7%nat)) as [->|Hne7]; [by injection Hi as <-|]].
    + destruct (lookup_lt_is_Some_2 lo i) as [v Hv]; [done|]. rewrite (Hrd v) by (by apply lookup_app_l_Some). do 2 f_equal. symmetry.
      assert (ctx_low !! i = Some r) as Hi' by (rewrite <- Hi; do 7 (destruct i as [|i]; [done|]); lia).
      rewrite H31; [by eapply Hv1| |done]. do 7 (destruct i as [|i]; [injection Hi' as <-; set_solver|]). lia.
    + assert (ctx_high !! (i - 8)%nat = Some r) as Hi' by (rewrite <- Hi; apply lookup_lt_Some in Hi; cbn in Hi; do 8 (destruct i as [|i]; [lia|]); replace (S (S (S (S (S (S (S (S i))))))) - 8)%nat with i by lia; reflexivity).
      destruct (lookup_lt_is_Some_2 hi (i - 8)) as [v Hv]; [by apply lookup_lt_Some in Hi'|]. rewrite (Hrd v); [do 2 f_equal; symmetry; by eapply Hv3|].
      rewrite lookup_app_r, lookup_app_r by (cbn; lia). rewrite <- Hv. f_equal. cbn. lia.
  - intros k Hk. rewrite Hx5, Hv4 by lia. rewrite rd_ok by (unfold CTX_XMM0; lia). rewrite drop_drop. do 3 f_equal. unfold CTX_XMM0. lia.
  - intros k Hk. rewrite Hx5, Hk4, Hx3, Hx2, Hx1 by lia. done.
Qed.
End restore.

(** ** The whole trampoline *)

(** A C function has returned: it has popped its return address and kept the
    memory from [lo] to [hi]. *)
Record c_returned (lo hi : Z) (sc s : cpu) : Prop := mk_c_returned {
  cr_rsp : gpr s TCG_REG_RSP = gpr sc TCG_REG_RSP + 8;
  cr_u64 : ∀ r, in_u 64 (gpr s r);
  cr_xmm : ∀ k, length (xmm s k) = 16%nat;
  cr_keep : ∀ a, lo ≤ a < hi → cmem s a = cmem sc a;
  cr_mapped : ∀ a k, mapped (cmem sc) a k = true → mapped (cmem s) a k = true
}.

Section trampoline.
Context (fns : prologue_fns) (host : Z → cpu → outcome cpu) (base : Z) (code : list Z).
Context (s : cpu) (q pc ra : Z).

(** The caller has called: the return address is above the program counter of
    the guest function. *)
Record xloop_entered : Prop := mk_xloop_entered {
  xe_rsp : gpr s TCG_REG_RSP = q;
  xe_align : (16 | q);
  xe_range : 288 ≤ q ∧ q + 16 < 2 ^ 64;
  xe_u64 : ∀ r, in_u 64 (gpr s r);
  xe_xmm : ∀ k, length (xmm s k) = 16%nat;
  xe_stack : mapped (cmem s) (q - 264) 264 = true;
  xe_pc : rd_mem (cmem s) q 8 = Ret (le_bytes 8 pc) ∧ in_u 64 pc;
  xe_ra : rd_mem (cmem s) (q + 8) 8 = Ret (le_bytes 8 ra) ∧ in_u 64 ra
}.

(** [cpu_xloop_helper(entry_translation, exit_translation, regs, pc)] *)
Record helper_called (ret : Z) (sc : cpu) : Prop := mk_helper_called {
  hlp_rsp : gpr sc TCG_REG_RSP = q - 264;
  hlp_ret : rd_mem (cmem sc) (q - 264) 8 = Ret (le_bytes 8 ret);
  hlp_entry : gpr sc TCG_REG_RDI = gpr s TCG_REG_R10;
  hlp_exit : gpr sc TCG_REG_RSI = gpr s TCG_REG_R11;
  hlp_regs : gpr sc TCG_REG_RDX = q - 256;
  hlp_pc : gpr sc TCG_REG_RCX = pc;
  hlp_ctx : rd_mem (cmem sc) (q - 256) 256 = Ret (context_of s (q + 8));
  hlp_mem : ∀ a, a < q - 264 ∨ q ≤ a → cmem sc a = cmem s a;
  hlp_mapped : ∀ a k, mapped (cmem sc) a k = mapped (cmem s) a k;
  hlp_u64 : ∀ r, in_u 64 (gpr sc r)
}.

(** [cpu_xloop()], in the state [s1] the helper has left. *)
Record xloop_called (s1 : cpu) (ret : Z) (sc : cpu) : Prop := mk_xloop_called {
  xlp_rsp : gpr sc TCG_REG_RSP = q - 264;
  xlp_ret : rd_mem (cmem sc) (q - 264) 8 = Ret (le_bytes 8 ret);
  xlp_gpr : ∀ r, r ≠ TCG_REG_RSP → gpr sc r = gpr s1 r;
  xlp_xmm : xmm sc = xmm s1;
  xlp_mem : ∀ a, a < q - 264 ∨ q - 256 ≤ a → cmem sc a = cmem s1 a;
  xlp_mapped : ∀ a k, mapped (cmem sc) a k = mapped (cmem s1) a k
}.

(** The caller continues with the registers of the context [ctx]. *)
Record caller_continues (s2 : cpu) (ctx : list Z) (s' : cpu) : Prop := mk_caller_continues {
  cc_rsp : gpr s' TCG_REG_RSP = q + 16;
  cc_regs : context_regs ctx s';
  cc_mem : cmem s' = cmem s2
}.

Context (Hent : xloop_entered).

Lemma xloop_before_helper : ∃ s0, exec_emits (xloop_save ++ xloop_helper_args) s = Ret s0 ∧
  ∀ ret, ∃ sc, push s0 ret = Ret sc ∧ helper_called ret sc.
Proof using Hent.
  destruct Hent as [Hq Hal [Hlo Hhi] Hu Hx Hst [Hpc Hpcu] _].
  destruct (xloop_save_ok s q Hq Hal ltac:(lia) Hhi Hu Hx) as (s1 & He1 & [Hg1 Hx1] & Hc1 & Ho1 & Hm1); [eapply mapped_sub; [exact Hst|lia..]|].
  assert (∀ r, in_u 64 (gpr s1 r)) as Hu1 by (intros r; rewrite Hg1; destruct (r =? _); [unfold in_u; lia|done]).
  set (s3 := set_gpr (set_gpr (set_gpr (set_gpr s1 TCG_REG_RDI (gpr s TCG_REG_R10)) TCG_REG_RSI (gpr s TCG_REG_R11)) TCG_REG_RDX (q - 256)) TCG_REG_RCX pc).
  assert (exec_emits xloop_helper_args s1 = Ret s3) as He3.
  { unfold xloop_helper_args. rewrite (exec_emits_cons _ _ _ _ (exec_mov64 TCG_REG_RDI TCG_REG_R10 s1 (gpr s TCG_REG_R10) (Hg1 TCG_REG_R10) (Hu _) eq_refl eq_refl)).
    erewrite exec_emits_cons by (apply (exec_mov64 _ _ _ (gpr s TCG_REG_R11)); [regs; apply Hg1|apply Hu|done|done]).
    erewrite exec_emits_cons by (apply (exec_mov64 _ _ _ (q - 256)); [regs; apply Hg1|unfold in_u; lia|done|done]).
    cbn [exec_emits]. rewrite (exec_ld64 _ _ _ _ q pc); [done| | |done].
    - unfold ea. regs. rewrite Hg1. regs. rewrite wrap_small by (unfold in_u; lia). lia.
    - cbn [cmem set_gpr]. rewrite <- Hpc. apply rd_mem_ext. intros x Hx0. apply Ho1. lia. }
  exists s3. split; [by rewrite (exec_app _ _ _ _ He1)|]. intros ret.
  destruct (push_word s3 (q - 256) ret) as (sc & Hp & Hg & Hxc & Hr & Ho & Hm); [unfold s3; regs; by rewrite Hg1|lia| |].
  { unfold s3. cbn [cmem set_gpr]. rewrite Hm1. eapply mapped_sub; [exact Hst|lia..]. }
  exists sc. split; [done|]. replace (q - 264) with (q - 256 - 8) by lia. constructor; rewrite ?Hg; regs; unfold s3; regs; try (rewrite wrap_small by (done || unfold in_u; lia)); try done.
  - lia.
  - by replace (q - 264) with (q - 256 - 8) by lia.
  - rewrite <- Hc1. apply rd_mem_ext. intros x Hx0. apply Ho. lia.
  - intros x Hx0. rewrite Ho by lia. apply Ho1. lia.
  - intros a k. by rewrite Hm.
  - intros r. rewrite Hg. destruct (r =? _); [unfold in_u; lia|]. unfold s3. repeat (cbn [gpr set_gpr]; destruct (r =? _); [by apply wrap_range|]). apply Hu1.
Qed.

Lemma xloop_between s1 sc1 ret1 : helper_called ret1 sc1 → c_returned (q - 256) (q + 16) sc1 s1 →
  ∀ ret, ∃ sc, push s1 ret = Ret sc ∧ xloop_called s1 ret sc.
Proof using Hent.
  intros Hh Hr ret. destruct Hent as [_ _ [Hlo Hhi] _ _ Hst _ _].
  destruct (push_word s1 (q - 256) ret) as (sc & Hp & Hg & Hx & Hrd & Ho & Hm).
  { rewrite (cr_rsp _ _ _ _ Hr), (hlp_rsp _ _ Hh). lia. }
  { lia. }
  { apply (cr_mapped _ _ _ _ Hr). rewrite (hlp_mapped _ _ Hh). eapply mapped_sub; [exact Hst|lia..]. }
  exists sc. split; [done|]. constructor; try done.
  - rewrite Hg, Z.eqb_refl. lia.
  - by replace (q - 264) with (q - 256 - 8) by lia.
  - intros r Hne. rewrite Hg. by destruct (Z.eqb_spec r TCG_REG_RSP).
  - intros a Ha. apply Ho. lia.
Qed.

Lemma xloop_after s1 ret1 sc1 ret2 sc2 s2 ctx p : placed base code p (xloop_restore ++ [E_ret]) →
  helper_called ret1 sc1 → c_returned (q - 256) (q + 16) sc1 s1 → xloop_called s1 ret2 sc2 → c_returned q (q + 16) sc2 s2 →
  rd_mem (cmem s2) (q - 256) 256 = Ret ctx → bytes_ok ctx → ∃ n s', (n ≤ 26)%nat ∧ runs host base code n p s2 ra s' ∧ caller_continues s2 ctx s'.
Proof using Hent.
  intros Hpl Hh Hr1 Hx Hr2 Hc Hok. destruct Hent as [_ Hal [Hlo Hhi] _ _ _ _ [Hra Hrau]]. apply placed_app in Hpl as [Hpl1 Hpl2].
  destruct (xloop_restore_ok s2 (q - 256) ctx) as (s3 & He & Hq & Hregs & Hm & Hu & _); try done.
  { rewrite (cr_rsp _ _ _ _ Hr2), (xlp_rsp _ _ _ Hx). lia. }
  { by apply Z.divide_sub_r; [|exists 16]. }
  { lia. }
  { lia. }
  { apply (cr_u64 _ _ _ _ Hr2). }
  destruct (runs_emits host base code p xloop_restore s2 s3 Hpl1 ltac:(by repeat constructor) He) as (n & Hn & Hrun).
  assert (rd_mem (cmem s3) (q + 8) 8 = Ret (le_bytes 8 ra)) as Hra3.
  { rewrite <- Hra, Hm. apply rd_mem_ext. intros x Hx0. rewrite (cr_keep _ _ _ _ Hr2), (xlp_mem _ _ _ Hx), (cr_keep _ _ _ _ Hr1), (hlp_mem _ _ Hh) by lia. done. }
  pose proof (runs_ret host base code _ s3 (q + 8) ra Hpl2 ltac:(lia) Hra3 Hrau) as Hret.
  exists (n + 1)%nat, (set_gpr s3 TCG_REG_RSP (q + 8 + 8)). split_and!; [cbn in Hn; lia|by eapply runs_trans|].
  constructor; [regs; rewrite wrap_small by (unfold in_u; lia); lia| |done].
  destruct Hregs as [Hg Hxm]. split; [|done]. intros i r Hi Hne. rewrite (Hg i r Hi Hne). cbn [gpr set_gpr]. by destruct (Z.eqb_spec r TCG_REG_RSP).
Qed.

Lemma xloop_trampoline_ok p : placed base code p (xloop_trampoline fns) → in_reach base code (fn_cpu_xloop_helper fns) → in_reach base code (fn_cpu_xloop fns) →
  (∀ ret sc, helper_called ret sc → ∃ s1, host (fn_cpu_xloop_helper fns) sc = Ret s1 ∧ c_returned (q - 256) (q + 16) sc s1) →
  (∀ ret1 sc1 s1 ret sc, helper_called ret1 sc1 → host (fn_cpu_xloop_helper fns) sc1 = Ret s1 → xloop_called s1 ret sc →
    ∃ s2 ctx, host (fn_cpu_xloop fns) sc = Ret s2 ∧ c_returned q (q + 16) sc s2 ∧ rd_mem (cmem s2) (q - 256) 256 = Ret ctx ∧ bytes_ok ctx) →
  ∃ ret1 sc1 s1 ret2 sc2 s2 ctx n s', helper_called ret1 sc1 ∧ host (fn_cpu_xloop_helper fns) sc1 = Ret s1 ∧ xloop_called s1 ret2 sc2 ∧
    host (fn_cpu_xloop fns) sc2 = Ret s2 ∧ rd_mem (cmem s2) (q - 256) 256 = Ret ctx ∧
    runs host base code n p s ra s' ∧ caller_continues s2 ctx s' ∧ (n ≤ length (xloop_trampoline fns))%nat.
Proof using Hent.
  intros Hpl Hreach1 Hreach2 Hhelper Hxloop. unfold xloop_trampoline in Hpl. rewrite app_assoc in Hpl.
  apply placed_app in Hpl as [Hpl1 Hpl]. apply placed_app in Hpl as [Hplc1 Hpl]. apply placed_app in Hpl as [Hplc2 Hpl].
  destruct xloop_before_helper as (s0 & He0 & Hcall1).
  destruct (runs_emits host base code p _ s s0 Hpl1 ltac:(by repeat constructor) He0) as (n0 & Hn0 & R0).
  set (p1 := behind p (xloop_save ++ xloop_helper_args)) in *. set (p2 := behind p1 [E_call (fn_cpu_xloop_helper fns)]) in *.
  destruct (Hcall1 p2) as (sc1 & Hp1 & Hh1). destruct (Hhelper _ sc1 Hh1) as (s1 & Hs1 & Hr1).
  set (p3 := behind p2 [E_call (fn_cpu_xloop fns)]) in *.
  destruct (xloop_between s1 sc1 p2 Hh1 Hr1 p3) as (sc2 & Hp2 & Hx2). destruct (Hxloop _ _ _ _ _ Hh1 Hs1 Hx2) as (s2 & ctx & Hs2 & Hr2 & Hc & Hok).
  destruct (xloop_after s1 p2 sc1 p3 sc2 s2 ctx p3 Hpl Hh1 Hr1 Hx2 Hr2 Hc Hok) as (n3 & s' & Hn3 & R3 & Hcc).
  exists p2, sc1, s1, p3, sc2, s2, ctx, (n0 + (1 + (1 + n3)))%nat, s'. split_and!; try done.
  - eapply runs_trans; [exact R0|]. eapply runs_trans; [eapply (runs_call host base code p1); [done|done|exact Hp1|exact Hs1]|].
    eapply runs_trans; [eapply (runs_call host base code p2); [done|done|exact Hp2|exact Hs2]|exact R3].
  - cbn in Hn0 |- *. lia.
Qed.
End trampoline.
