(* ===== verification/DyCall.v ===== *)
(** * The call of a host function with a prepared argument space

    [code_gen_dy_call_x64_trampoline] on its bytes: the argument registers and
    the stack of the callee are those of [dy_call_x64_trampoline] in
    [Handlers], its results are stored in the argument space, and the caller
    gets its registers back. *)

From S2P Require Import Prelude Bytes ABIArgInfo DyBridge Handlers Memory X86 Encoder Machine A2XCode A2XSim A2XStep A2XArg A2XCall A2XValid A2XTramp X2ACode X2ASim Runs Prologue XLoopTramp.

(** [subq %rcx, %rsp] *)
Lemma exec_sub_rsp_rcx s v : gpr s TCG_REG_RSP - gpr s TCG_REG_RCX = v → in_u 64 v →
  ∃ s', exec_emit (E_out8 [0x48; 0x29; 0xcc]) s = Ret s' ∧ only_reg TCG_REG_RSP v s s'.
Proof.
  intros Hv Hu. change (exec_emit (E_out8 [0x48; 0x29; 0xcc]) s) with (exec_plain (ISub W64 TCG_REG_RSP TCG_REG_RCX) s). cbn [exec_plain].
  eexists. split; [reflexivity|]. split; [|done]. intros k. cbn [gpr set_gpr set_zf]. rewrite Hv. change (wbits W64) with 64. by rewrite !wrap_small by (rewrite ?wrap_small; done).
Qed.

Lemma mapped_same m m' : (∀ x, is_Some (m' x) ↔ is_Some (m x)) → ∀ a n, mapped m' a n = mapped m a n.
Proof.
  intros H a n. apply eq_bool_prop_intro. rewrite !Is_true_true, !mapped_spec. by setoid_rewrite H.
Qed.

Lemma rsp_not_saved : TCG_REG_RSP ∉ tcg_target_callee_save_regs.
Proof. by apply (bool_decide_unpack _). Qed.

Section dy_call.
Context (s : cpu) (sp pc argp n : Z) (a : list Z).

(** [dy_call_x64_trampoline(pc, arg_space, stack_size)] has been called. *)
Record dy_called : Prop := mk_dy_called {
  dc_rsp : gpr s TCG_REG_RSP = sp;
  dc_rdi : gpr s TCG_REG_RDI = pc;
  dc_rsi : gpr s TCG_REG_RSI = argp;
  dc_rdx : gpr s TCG_REG_RDX = n;
  dc_align : (16 | sp + 8) ∧ (16 | argp) ∧ (16 | n);
  dc_range : 64 + n ≤ sp ∧ sp + 16 < 2 ^ 64 ∧ 0 ≤ argp ∧ argp + 184 + n < 2 ^ 64 ∧ 0 ≤ n;
  dc_apart : apart (sp - 64 - n) (72 + n) argp (184 + n);
  dc_u64 : ∀ r, in_u 64 (gpr s r);
  dc_xmm : ∀ k, length (xmm s k) = 16%nat;
  dc_args : rd_mem (cmem s) argp (184 + n) = Ret a ∧ bytes_ok a;
  dc_stack : mapped (cmem s) (sp - 64 - n) (64 + n) = true
}.

Context (Hdc : dy_called).

(** ** Setting up the frame *)

Definition dy_frame : list emit := push_callee_saved ++
  [E_mov TCG_TYPE_REG TCG_REG_RBP TCG_REG_RSP; E_addi TCG_REG_RSP (-8);
   E_mov TCG_TYPE_REG TCG_REG_R11 TCG_REG_RDI; E_mov TCG_TYPE_REG TCG_REG_R12 TCG_REG_RSI; E_mov TCG_TYPE_REG TCG_REG_RCX TCG_REG_RDX;
   E_addi TCG_REG_RSI 184; E_out8 [0x48; 0x29; 0xcc]; E_mov TCG_TYPE_REG TCG_REG_RDI TCG_REG_RSP].
Definition dy_load_gprs : list emit :=
  [E_ld TCG_TYPE_PTR TCG_REG_RDI TCG_REG_R12 0; E_ld TCG_TYPE_PTR TCG_REG_RSI TCG_REG_R12 0x08;
   E_ld TCG_TYPE_PTR TCG_REG_RDX TCG_REG_R12 0x10; E_ld TCG_TYPE_PTR TCG_REG_RCX TCG_REG_R12 0x18;
   E_ld TCG_TYPE_PTR TCG_REG_R8 TCG_REG_R12 0x20; E_ld TCG_TYPE_PTR TCG_REG_R9 TCG_REG_R12 0x28].

Lemma dy_call_prepare_parts : dy_call_prepare = dy_frame ++ [E_out8 [0xf3; 0xa4]] ++ dy_load_gprs ++ [E_ld TCG_TYPE_I32 TCG_REG_RAX TCG_REG_R12 0xb0; E_out8 [0x85; 0xc0]].
Proof. reflexivity. Qed.

(** The registers the frame code sets. *)
Definition frame_regs (k : Z) : Z :=
  if k =? TCG_REG_RDI then sp - 56 - n else if k =? TCG_REG_RSP then sp - 56 - n else if k =? TCG_REG_RSI then argp + 184 else if k =? TCG_REG_RCX then n
  else if k =? TCG_REG_R12 then argp else if k =? TCG_REG_R11 then pc else if k =? TCG_REG_RBP then sp - 48 else gpr s k.

Lemma dy_frame_ok : ∃ s', exec_emits dy_frame s = Ret s' ∧ (∀ k, gpr s' k = frame_regs k) ∧ xmm s' = xmm s ∧
  rd_mem (cmem s') (sp - 48) 48 = Ret (words (reverse (gpr s <$> tcg_target_callee_save_regs))) ∧
  (∀ x, x < sp - 48 ∨ sp ≤ x → cmem s' x = cmem s x) ∧ ∀ b k, mapped (cmem s') b k = mapped (cmem s) b k.
Proof using Hdc.
  destruct Hdc as [Hsp Hdi Hsi Hdx _ (Hr1 & Hr2 & Hr3 & Hr4 & Hr5) _ Hu _ _ Hst].
  destruct (pushes_ok tcg_target_callee_save_regs s sp 48 eq_refl) as (s1 & He1 & [Hg1 Hx1] & Hrd1 & Ho1 & Hm1);
    [by apply (bool_decide_unpack _)|done|lia|done|eapply mapped_sub; [exact Hst|lia..]|].
  assert (∀ k, in_u 64 (gpr s1 k)) as Hu1 by (intros k; rewrite Hg1; destruct (k =? _); [unfold in_u; lia|done]).
  set (s2 := set_gpr s1 TCG_REG_RBP (sp - 48)).
  destruct (sub_rsp s2 (sp - 48) 8) as (s3 & He3 & (Hg3 & Hx3 & Hm3) & Hu3); [unfold s2; regs; by rewrite Hg1|lia|lia| |].
  { intros k. unfold s2. cbn [gpr set_gpr]. destruct (k =? _); [by apply wrap_range|done]. }
  set (s4 := set_gpr (set_gpr (set_gpr s3 TCG_REG_R11 pc) TCG_REG_R12 argp) TCG_REG_RCX n).
  assert (∀ k, k ≠ TCG_REG_RSP → k ≠ TCG_REG_RBP → gpr s3 k = gpr s k) as Hk.
  { intros k H1%Z.eqb_neq H2%Z.eqb_neq. rewrite Hg3, H1. unfold s2. cbn [gpr set_gpr]. by rewrite H2, Hg1, H1. }
  destruct (exec_addi TCG_REG_RSI 184 s4) as (s5 & He5 & Hg5 & Hx5 & Hm5).
  { unfold s4. regs. rewrite Hk by done. apply Hu. }
  destruct (exec_sub_rsp_rcx s5 (sp - 56 - n)) as (s6 & He6 & Hg6 & Hx6 & Hm6).
  { rewrite !Hg5. unfold s4. regs. rewrite Hg3. regs. rewrite wrap_small by (unfold in_u; lia). lia. }
  { unfold in_u. lia. }
  assert (cmem s6 = cmem s1) as H61 by (rewrite Hm6, Hm5; unfold s4; cbn [cmem set_gpr]; by rewrite Hm3).
  exists (set_gpr s6 TCG_REG_RDI (sp - 56 - n)). cbn [xmm cmem set_gpr]. split_and!.
  - unfold dy_frame. rewrite (exec_app _ _ _ _ He1).
    rewrite (exec_emits_cons _ _ _ s2) by (apply exec_mov64; [by rewrite Hg1|unfold in_u; lia|done|done]). rewrite (exec_emits_cons _ _ _ s3) by exact He3.
    erewrite exec_emits_cons by (apply (exec_mov64 _ _ _ pc); [by rewrite Hk|rewrite <- Hdi; apply Hu|done|done]).
    erewrite exec_emits_cons by (apply (exec_mov64 _ _ _ argp); [regs; by rewrite Hk|rewrite <- Hsi; apply Hu|done|done]).
    erewrite exec_emits_cons by (apply (exec_mov64 _ _ _ n); [regs; by rewrite Hk|rewrite <- Hdx; apply Hu|done|done]).
    fold s4. rewrite (exec_emits_cons _ _ _ _ He5), (exec_emits_cons _ _ _ _ He6). cbn [exec_emits]. rewrite (exec_mov64 _ _ _ (sp - 56 - n)); [done|by rewrite Hg6|unfold in_u; lia|done|done].
  - intros k. unfold frame_regs. cbn [gpr set_gpr]. destruct (k =? TCG_REG_RDI); [apply wrap_small; unfold in_u; lia|].
    rewrite Hg6. destruct (k =? TCG_REG_RSP) eqn:Ek; [done|]. rewrite Hg5. destruct (k =? TCG_REG_RSI).
    { unfold s4. regs. rewrite Hk by done. rewrite Hsi. apply wrap_small. unfold in_u. lia. }
    unfold s4. cbn [gpr set_gpr]. destruct (k =? TCG_REG_RCX); [rewrite <- Hdx; apply wrap_small, Hu|]. destruct (k =? TCG_REG_R12); [rewrite <- Hsi; apply wrap_small, Hu|].
    destruct (k =? TCG_REG_R11); [rewrite <- Hdi; apply wrap_small, Hu|]. rewrite Hg3, Ek. unfold s2. cbn [gpr set_gpr].
    destruct (k =? TCG_REG_RBP); [apply wrap_small; unfold in_u; lia|]. by rewrite Hg1, Ek.
  - rewrite Hx6, Hx5. unfold s4. cbn [xmm set_gpr]. rewrite Hx3. exact Hx1.
  - by rewrite H61.
  - by rewrite H61.
  - by rewrite H61.
Qed.

Lemma frame_u64 k : in_u 64 (frame_regs k).
Proof using Hdc.
  destruct Hdc as [Hsp Hdi Hsi Hdx _ (Hr1 & Hr2 & Hr3 & Hr4 & Hr5) _ Hu _ _ _]. unfold frame_regs. pose proof (Hu TCG_REG_RDI) as Hpc. rewrite Hdi in Hpc.
  repeat (destruct (k =? _); [unfold in_u in *; lia|]). apply Hu.
Qed.

(** ** The arguments *)

(** The callee's registers are loaded from the argument space. *)
Lemma dy_load_gprs_ok s1 : gpr s1 TCG_REG_R12 = argp → rd_mem (cmem s1) argp (184 + n) = Ret a →
  ∃ s', exec_emits dy_load_gprs s1 = Ret s' ∧ (∀ k, k ∉ arg_gprs → gpr s' k = gpr s1 k) ∧ xmm s' = xmm s1 ∧ cmem s' = cmem s1 ∧
    rd a 0 48 = Ret (words (gpr s' <$> arg_gprs)) ∧ ∀ r, r ∈ arg_gprs → in_u 64 (gpr s' r).
Proof using Hdc.
  intros H12 Ha. destruct (dc_range Hdc) as (_ & _ & Hr3 & Hr4 & Hr5). destruct (dc_args Hdc) as [_ Hok].
  pose proof (rd_mem_length (cmem s1) argp (184 + n) a ltac:(lia) Ha) as Hl.
  destruct (words_of 6 (take 48 a)) as (vs & Hvs & Hvu & Hw & _); [rewrite length_take; lia|by apply Forall_take|].
  assert (rd_mem (cmem s1) (argp + 0) 48 = Ret (words vs)) as Hrd.
  { rewrite <- Hw, Z.add_0_r. apply (rd_mem_split (cmem s1) argp 48 (136 + n) a); [lia|lia|]. by replace (48 + (136 + n)) with (184 + n) by lia. }
  destruct (ld64s_ok arg_gprs vs s1 TCG_REG_R12 0 argp 48 eq_refl Hvs) as (s' & He & Hv & Hk & Hx & Hm); try done; [by apply (bool_decide_unpack _)|by apply (bool_decide_unpack _)|lia|lia|].
  assert (vs = gpr s' <$> arg_gprs) as Hvs'.
  { do 6 (destruct vs as [|? vs]; [done|]). destruct vs; [|done]. unfold arg_gprs. cbn [fmap list_fmap].
    by rewrite (Hv 0%nat _ _ eq_refl eq_refl), (Hv 1%nat _ _ eq_refl eq_refl), (Hv 2%nat _ _ eq_refl eq_refl), (Hv 3%nat _ _ eq_refl eq_refl), (Hv 4%nat _ _ eq_refl eq_refl), (Hv 5%nat _ _ eq_refl eq_refl). }
  exists s'. split_and!; try done.
  - rewrite rd_ok by lia. rewrite <- Hvs', <- Hw. done.
  - intros r Hr. rewrite Hvs' in Hvu. rewrite Forall_fmap, Forall_forall in Hvu. by apply Hvu.
Qed.

(** At the call, apart from the 128-bit registers. *)
Record dy_ready (s' : cpu) : Prop := mk_dy_ready {
  dr_rsp : gpr s' TCG_REG_RSP = sp - 56 - n;
  dr_rbp : gpr s' TCG_REG_RBP = sp - 48;
  dr_r11 : gpr s' TCG_REG_R11 = pc;
  dr_r12 : gpr s' TCG_REG_R12 = argp;
  dr_gprs : rd a 0 48 = Ret (words (gpr s' <$> arg_gprs));
  dr_rax : rd a OFF_RAX 4 = Ret (le_bytes 4 (gpr s' TCG_REG_RAX)) ∧ in_u 32 (gpr s' TCG_REG_RAX);
  dr_stack : rd_mem (cmem s') (sp - 56 - n) n = Ret (drop 184 a);
  dr_saved : rd_mem (cmem s') (sp - 48) 48 = Ret (words (reverse (gpr s <$> tcg_target_callee_save_regs)));
  dr_mem : ∀ x, x < sp - 56 - n ∨ sp ≤ x → cmem s' x = cmem s x;
  dr_mapped : ∀ b k, mapped (cmem s') b k = mapped (cmem s) b k;
  dr_u64 : ∀ r, in_u 64 (gpr s' r)
}.

(** [rep movsb] copies the stack arguments. *)
Lemma dy_copy_ok s1 : (∀ k, gpr s1 k = frame_regs k) → (∀ x, x < sp - 48 ∨ sp ≤ x → cmem s1 x = cmem s x) → (∀ b k, mapped (cmem s1) b k = mapped (cmem s) b k) →
  ∃ s', exec_emit (E_out8 [0xf3; 0xa4]) s1 = Ret s' ∧ (∀ k, k ∉ arg_gprs → gpr s' k = gpr s1 k) ∧ xmm s' = xmm s1 ∧ (∀ r, in_u 64 (gpr s' r)) ∧
    rd_mem (cmem s') (sp - 56 - n) n = Ret (drop 184 a) ∧ (∀ x, x < sp - 56 - n ∨ sp - 56 ≤ x → cmem s' x = cmem s1 x) ∧
    ∀ b k, mapped (cmem s') b k = mapped (cmem s1) b k.
Proof using Hdc.
  intros Hg Ho Hm. destruct Hdc as [Hsp Hdi Hsi Hdx _ (Hr1 & Hr2 & Hr3 & Hr4 & Hr5) Hap Hu _ [Ha Hok] Hst]. unfold apart in Hap.
  destruct (rd_mem_split (cmem s) argp 184 n a ltac:(lia) ltac:(lia) Ha) as [_ Hsrc]. change (Z.to_nat 184) with 184%nat in Hsrc.
  assert (mapped (cmem s1) (sp - 56 - n) n = true) as Hdst by (rewrite Hm; eapply mapped_sub; [exact Hst|lia..]).
  pose proof (rd_mem_length (cmem s) argp (184 + n) a ltac:(lia) Ha) as Hl.
  destruct (copy_up_ok (Z.to_nat n) (cmem s1) (sp - 56 - n) (argp + 184) (drop 184 a)) as (m & Hc & Hin & Hout).
  - rewrite Z2Nat.id by lia. rewrite <- Hsrc. apply rd_mem_ext. intros x Hx. apply Ho. lia.
  - by rewrite Z2Nat.id by lia.
  - lia.
  - lia.
  - lia.
  - lia.
  - lia.
  - rewrite Z2Nat.id in Hin, Hout by lia. rewrite exec_rep_movsb. unfold rep_movsb. rewrite !Hg. change (frame_regs TCG_REG_RCX) with n.
    change (frame_regs TCG_REG_RDI) with (sp - 56 - n). change (frame_regs TCG_REG_RSI) with (argp + 184). rewrite Hc. cbn [mbind outcome_bind].
    assert (rd_mem m (sp - 56 - n) n = Ret (drop 184 a)) as Hrd.
    { apply rd_mem_spec; [lia|]. rewrite length_drop. split; [lia|]. intros i Hi. rewrite Hin by lia. f_equal. lia. }
    eexists. split; [reflexivity|]. cbn [xmm cmem set_gpr set_mem]. split_and!; [|done| | | |].
    + intros k Hk. unfold arg_gprs in Hk. cbn [gpr set_gpr set_mem]. destruct (Z.eqb_spec k TCG_REG_RCX) as [->|]; [set_solver|]. destruct (Z.eqb_spec k TCG_REG_RSI) as [->|]; [set_solver|]. destruct (Z.eqb_spec k TCG_REG_RDI) as [->|]; [set_solver|done].
    + intros r. cbn [gpr set_gpr set_mem]. repeat (destruct (r =? _); [by apply wrap_range|]). rewrite Hg. apply frame_u64.
    + exact Hrd.
    + intros x Hx. apply Hout. lia.
    + intros b k. apply mapped_same. intros x. destruct (decide (sp - 56 - n ≤ x < sp - 56 - n + n)) as [Hx|Hx]; [|rewrite Hout by lia; done].
      split; intros _; [eapply mapped_spec; [exact Hdst|lia]|]. eapply mapped_spec; [eapply rd_mem_mapped; [|exact Hrd]|]; lia.
Qed.

Lemma dy_prepare_ok : ∃ s', exec_emits dy_call_prepare s = Ret s' ∧ dy_ready s' ∧ zflag s' = (gpr s' TCG_REG_RAX =? 0) ∧ xmm s' = xmm s.
Proof using Hdc.
  pose proof Hdc as [Hsp Hdi Hsi Hdx _ (Hr1 & Hr2 & Hr3 & Hr4 & Hr5) Hap Hu _ [Ha Hok] Hst]. unfold apart in Hap.
  destruct dy_frame_ok as (s1 & He1 & Hg1 & Hx1 & Hsv1 & Ho1 & Hm1). destruct (dy_copy_ok s1 Hg1 Ho1 Hm1) as (s2 & He2 & Hg2 & Hx2 & Hu2 & Hst2 & Ho2 & Hm2).
  assert (∀ x, x < sp - 56 - n ∨ sp ≤ x → cmem s2 x = cmem s x) as Ho by (intros x Hx; rewrite Ho2, Ho1 by lia; done).
  assert (rd_mem (cmem s2) argp (184 + n) = Ret a) as Ha2 by (rewrite <- Ha; apply rd_mem_ext; intros x Hx; apply Ho; lia).
  destruct (dy_load_gprs_ok s2) as (s3 & He3 & Hg3 & Hx3 & Hm3 & Hrd3 & Hu3); [rewrite Hg2 by (by apply (bool_decide_unpack _)); by rewrite Hg1|done|].
  pose proof (rd_mem_length (cmem s) argp (184 + n) a ltac:(lia) Ha) as Hl. set (eax := take 4 (drop 176 a)).
  assert (rd a OFF_RAX 4 = Ret eax) as Heax by (apply rd_ok; unfold OFF_RAX; lia).
  assert (length eax = 4%nat ∧ bytes_ok eax) as [Hel Heok] by (split; [unfold eax; rewrite length_take, length_drop; lia|by apply Forall_take, Forall_drop]).
  assert (in_u 32 (le_val eax)) as Heu by (pose proof (le_val_range eax Heok) as Hle; rewrite Hel in Hle; exact Hle).
  set (s4 := set_gpr s3 TCG_REG_RAX (le_val eax)).
  assert (∀ k, k ∉ arg_gprs → k ≠ TCG_REG_RAX → gpr s4 k = frame_regs k) as Hg4.
  { intros k Hk Hne. unfold s4. cbn [gpr set_gpr]. destruct (Z.eqb_spec k TCG_REG_RAX); [done|]. by rewrite Hg3, Hg2, Hg1. }
  assert (gpr s4 TCG_REG_RAX = le_val eax) as Hrax by (unfold s4; regs; apply wrap_small; unfold in_u in *; lia).
  exists (set_zf s4 (le_val eax =? 0)). split_and!.
  - rewrite dy_call_prepare_parts, (exec_app _ _ _ _ He1). cbn [app]. rewrite (exec_emits_cons _ _ _ _ He2), (exec_app _ _ _ _ He3).
    rewrite (exec_emits_cons _ _ _ s4).
    + cbn [exec_emits]. change (exec_emit (E_out8 [0x85; 0xc0]) s4) with (exec_plain (ITest W32 TCG_REG_RAX TCG_REG_RAX) s4). cbn [exec_plain]. rewrite Hrax, Z.land_diag.
      change (wbits W32) with 32. by rewrite wrap_small.
    + apply exec_ld. unfold cload, ea. rewrite Hg3, Hg2, Hg1 by (by apply (bool_decide_unpack _)). rewrite Hm3. change (frame_regs TCG_REG_R12) with argp.
      rewrite wrap_small by (unfold in_u; lia). by apply (rd_mem_at _ _ (184 + n) a); [lia| | |].
  - constructor; cbn [gpr set_zf cmem]; try (rewrite Hg4 by (done || by apply (bool_decide_unpack _)); done).
    + exact Hrd3.
    + rewrite Hrax. split; [|done]. rewrite Heax. f_equal. by rewrite <- Hel, le_bytes_val.
    + unfold s4. cbn [cmem set_gpr]. by rewrite Hm3.
    + unfold s4. cbn [cmem set_gpr]. rewrite Hm3, <- Hsv1. apply rd_mem_ext. intros x Hx. apply Ho2. lia.
    + unfold s4. cbn [cmem set_gpr]. by rewrite Hm3.
    + unfold s4. cbn [cmem set_gpr]. intros b k. by rewrite Hm3, Hm2, Hm1.
    + intros r. unfold s4. cbn [gpr set_gpr]. destruct (r =? _); [by apply wrap_range|]. destruct (decide (r ∈ arg_gprs)); [by apply Hu3|]. by rewrite Hg3.
  - by rewrite <- Hrax.
  - unfold s4. cbn [xmm set_gpr set_zf]. by rewrite Hx3, Hx2, Hx1.
Qed.

(** ** The call *)

(** What the callee sees, as [Handlers] has it. *)
Definition entry_view (sc : cpu) (stack : list Z) : x64_entry :=
  let eax := u32 (gpr sc TCG_REG_RAX) in
  mk_entry (words (gpr sc <$> arg_gprs)) eax (if eax =? 0 then None else Some (concat (xmm sc <$> seqZ 0 8))) stack.

Record dy_host_called (ret : Z) (sc : cpu) : Prop := mk_dy_host_called {
  dh_rsp : gpr sc TCG_REG_RSP = sp - 64 - n ∧ (16 | gpr sc TCG_REG_RSP + 8);
  dh_ret : rd_mem (cmem sc) (sp - 64 - n) 8 = Ret (le_bytes 8 ret);
  dh_gprs : rd a 0 48 = Ret (words (gpr sc <$> arg_gprs));
  dh_rax : rd a OFF_RAX 4 = Ret (le_bytes 4 (gpr sc TCG_REG_RAX)) ∧ in_u 32 (gpr sc TCG_REG_RAX);
  dh_sse : gpr sc TCG_REG_RAX ≠ 0 → rd a OFF_SSE 128 = Ret (concat (xmm sc <$> seqZ 0 8));
  dh_stack : rd_mem (cmem sc) (gpr sc TCG_REG_RSP + 8) n = Ret (drop 184 a);
  dh_saved : rd_mem (cmem sc) (sp - 48) 48 = Ret (words (reverse (gpr s <$> tcg_target_callee_save_regs)));
  dh_frame : gpr sc TCG_REG_RBP = sp - 48 ∧ gpr sc TCG_REG_R12 = argp;
  dh_mem : ∀ x, x < sp - 64 - n ∨ sp ≤ x → cmem sc x = cmem s x;
  dh_u64 : ∀ r, in_u 64 (gpr sc r);
  dh_xmm : ∀ k, length (xmm sc k) = 16%nat
}.

Section run.
Context (host : Z → cpu → outcome cpu) (base : Z) (code : list Z).

(** EAX is tested and the jump goes over the loads. *)
Lemma dy_load_sse_length p : length (asm p dy_call_load_sse) = 65%nat.
Proof. vm_compute. reflexivity. Qed.

Lemma dy_sse_ok p s1 : placed base code p ([E_out8 [0x74; 65]] ++ dy_call_load_sse) → dy_ready s1 → zflag s1 = (gpr s1 TCG_REG_RAX =? 0) → xmm s1 = xmm s →
  ∃ k s', (k ≤ 9)%nat ∧ runs host base code k p s1 (behind p ([E_out8 [0x74; 65]] ++ dy_call_load_sse)) s' ∧ dy_ready s' ∧
    (gpr s' TCG_REG_RAX ≠ 0 → rd a OFF_SSE 128 = Ret (concat (xmm s' <$> seqZ 0 8))) ∧ ∀ k, length (xmm s' k) = 16%nat.
Proof using Hdc.
  intros Hpl Hr Hz Hxs. rewrite (behind_app _ _ _ _ _ Hpl). apply placed_app in Hpl as [Hpl1 Hpl2]. set (p1 := behind p [E_out8 [0x74; 65]]) in *.
  assert (p1 = p + 2) as Hp1 by reflexivity.
  assert (∀ q, (if zflag s1 then p + 67 else p1) = q → runs host base code 1 p s1 q s1) as Hjz.
  { intros q Hq. eapply (runs_one host base code p _ (IJz (p + 2 + 65))); [done|done|reflexivity|]. cbn [exec]. rewrite <- Hq. by replace (p + 67) with (p + 2 + 65) by lia. }
  destruct (Z.eqb_spec (gpr s1 TCG_REG_RAX) 0) as [E|E]; rewrite Hz in Hjz.
  - exists 1%nat, s1. split_and!; [lia| |done|done|rewrite Hxs; apply (dc_xmm Hdc)]. apply Hjz. unfold behind. rewrite dy_load_sse_length. lia.
  - pose proof Hdc as [_ _ _ _ (_ & Hal & _) (Hr1 & Hr2 & Hr3 & Hr4 & Hr5) Hap _ _ [Ha Hok] _]. unfold apart in Hap.
    assert (rd_mem (cmem s1) argp (184 + n) = Ret a) as Ha1 by (rewrite <- Ha; apply rd_mem_ext; intros x Hx; apply (dr_mem _ Hr); lia).
    pose proof (rd_mem_length (cmem s) argp (184 + n) a ltac:(lia) Ha) as Hl. set (bs := take 128 (drop 48 a)).
    assert (rd a OFF_SSE 128 = Ret bs) as Hbs by (apply rd_ok; unfold OFF_SSE; lia).
    destruct (ld128s_ok TCG_REG_R12 0x30 argp 8 0 s1 bs) as (s2 & He & Hg & Hm & Hx & Hxo); [apply (dr_r12 _ Hr)|lia|lia|lia|by apply Z.divide_add_r; [|exists 3]| |].
    { rewrite Z.add_0_r. by apply (rd_mem_at _ _ (184 + n) a); [lia| | |]. }
    destruct (runs_emits host base code p1 dy_call_load_sse s1 s2 Hpl2 ltac:(by repeat constructor) He) as (k & Hk & Rk).
    exists (1 + k)%nat, s2. split_and!; [cbn in Hk; lia|eapply runs_trans; [by apply Hjz|exact Rk]| | |].
    + destruct Hr. constructor; rewrite ?Hg, ?Hm; done.
    + intros _. rewrite Hbs. f_equal. symmetry. apply (concat_chunks (xmm s2) 8 0 bs); [unfold bs; rewrite length_take, length_drop; lia|exact Hx].
    + intros j. destruct (decide (0 ≤ j < 8)) as [Hj|Hj]; [|rewrite Hxo by lia; rewrite Hxs; apply (dc_xmm Hdc)]. rewrite Hx by lia. unfold bs. rewrite length_take, length_drop, length_take, length_drop. lia.
Qed.

(** The callee has returned: the frame and the argument space [A] are as before. *)
Record dy_returned (A : list Z) (sc s2 : cpu) : Prop := mk_dy_returned {
  dt_rsp : gpr s2 TCG_REG_RSP = gpr sc TCG_REG_RSP + 8;
  dt_frame : gpr s2 TCG_REG_RBP = sp - 48 ∧ gpr s2 TCG_REG_R12 = argp;
  dt_u64 : ∀ r, in_u 64 (gpr s2 r);
  dt_xmm : ∀ k, length (xmm s2 k) = 16%nat;
  dt_mem : ∀ x, sp - 48 ≤ x < sp + 8 → cmem s2 x = cmem sc x;
  dt_args : rd_mem (cmem s2) argp (Z.of_nat (length A)) = Ret A
}.

Definition return_view (s2 : cpu) : x64_return :=
  mk_return (le_bytes 8 (gpr s2 TCG_REG_RAX)) (le_bytes 8 (gpr s2 TCG_REG_RDX)) (xmm s2 0) (xmm s2 1).

(** The results in the argument space. *)
Definition store_results (A : list Z) (r : x64_return) : outcome (list Z) :=
  a ← wr A OFF_RAX (re_rax r); a ← wr a 16 (re_rdx r); a ← wr a OFF_SSE (re_xmm0 r); wr a (OFF_SSE + 16) (re_xmm1 r).

(** One of the stores. *)
Lemma store_result s1 A off bs e : rd_mem (cmem s1) argp (Z.of_nat (length A)) = Ret A → 0 ≤ off → off + Z.of_nat (length bs) ≤ Z.of_nat (length A) →
  (∀ m, wr_mem (cmem s1) (argp + off) bs = Ret m → exec_emit e s1 = Ret (set_mem s1 m)) →
  ∃ m A', exec_emit e s1 = Ret (set_mem s1 m) ∧ wr A off bs = Ret A' ∧ length A' = length A ∧ rd_mem m argp (Z.of_nat (length A)) = Ret A' ∧
    (∀ x, x < argp ∨ argp + Z.of_nat (length A) ≤ x → m x = cmem s1 x).
Proof using.
  clear. intros HA H0 Hoff He. pose proof (wr_ok A off bs H0 Hoff) as Hw. set (A' := take _ A ++ bs ++ drop _ A) in Hw.
  destruct (wr_mem_at (cmem s1) argp (Z.of_nat (length A)) A off bs A' ltac:(lia) HA Hw) as [m Hm]. exists m, A'. split_and!; [by apply He|done|by eapply wr_length| |].
  - eapply (rd_wr_mem_at _ _ _ A); [lia|done|done|done].
  - intros x Hx. eapply wr_mem_other; [exact Hm|]. lia.
Qed.

Lemma dy_stores_ok s2 A : gpr s2 TCG_REG_R12 = argp → (∀ k, length (xmm s2 k) = 16%nat) → rd_mem (cmem s2) argp (Z.of_nat (length A)) = Ret A →
  184 ≤ Z.of_nat (length A) → ∃ s3 A', exec_emits [E_st TCG_TYPE_PTR TCG_REG_RAX TCG_REG_R12 0xb0; E_st TCG_TYPE_PTR TCG_REG_RDX TCG_REG_R12 0x10;
      E_st128 TCG_REG_XMM0 TCG_REG_R12 0x30; E_st128 (TCG_REG_XMM0 + 1) TCG_REG_R12 0x40] s2 = Ret s3 ∧ store_results A (return_view s2) = Ret A' ∧
    gpr s3 = gpr s2 ∧ xmm s3 = xmm s2 ∧ rd_mem (cmem s3) argp (Z.of_nat (length A)) = Ret A' ∧
    (∀ x, x < argp ∨ argp + Z.of_nat (length A) ≤ x → cmem s3 x = cmem s2 x).
Proof using Hdc.
  intros H12 Hx HA Hlen. pose proof Hdc as [_ _ _ _ (_ & Hal & _) (_ & _ & H0 & H1 & Hn) _ _ _ _ _].
  assert (∀ o, 0 ≤ o < 184 → u64 (argp + o) = argp + o) as Hea by (intros o Ho; apply wrap_small; unfold in_u; lia).
  destruct (store_result s2 A OFF_RAX (le_bytes 8 (gpr s2 TCG_REG_RAX)) (E_st TCG_TYPE_PTR TCG_REG_RAX TCG_REG_R12 0xb0)) as (m1 & A1 & He1 & Hw1 & Hl1 & HA1 & Ho1);
    [done|done|rewrite length_le_bytes; unfold OFF_RAX; lia|intros m Hm; apply exec_st; unfold ea; rewrite H12, Hea by lia; exact Hm|].
  destruct (store_result (set_mem s2 m1) A1 16 (le_bytes 8 (gpr s2 TCG_REG_RDX)) (E_st TCG_TYPE_PTR TCG_REG_RDX TCG_REG_R12 0x10)) as (m2 & A2 & He2 & Hw2 & Hl2 & HA2 & Ho2);
    [by rewrite Hl1|lia|rewrite length_le_bytes; lia|intros m Hm; apply exec_st; unfold ea; regs; rewrite H12, Hea by lia; exact Hm|].
  destruct (store_result (set_mem s2 m2) A2 OFF_SSE (xmm s2 0) (E_st128 TCG_REG_XMM0 TCG_REG_R12 0x30)) as (m3 & A3 & He3 & Hw3 & Hl3 & HA3 & Ho3);
    [rewrite Hl2; exact HA2|done|rewrite Hx; unfold OFF_SSE; lia|intros m Hm; apply exec_st128; unfold ea; regs; rewrite H12, Hea by lia; [by apply Z.divide_add_r; [|exists 3]|exact Hm]|].
  destruct (store_result (set_mem s2 m3) A3 (OFF_SSE + 16) (xmm s2 1) (E_st128 (TCG_REG_XMM0 + 1) TCG_REG_R12 0x40)) as (m4 & A4 & He4 & Hw4 & Hl4 & HA4 & Ho4);
    [rewrite Hl3; exact HA3|done|rewrite Hx; unfold OFF_SSE; lia|intros m Hm; apply exec_st128; unfold ea; regs; rewrite H12, Hea by lia; [by apply Z.divide_add_r; [|exists 4]|exact Hm]|].
  exists (set_mem s2 m4), A4. split_and!; [| |done|done|by rewrite <- Hl1, <- Hl2, <- Hl3|].
  - cbn [exec_emits]. rewrite He1. cbn [mbind outcome_bind]. rewrite He2. cbn [mbind outcome_bind]. change (set_mem (set_mem s2 m1) m2) with (set_mem s2 m2). rewrite He3. cbn [mbind outcome_bind].
    change (set_mem (set_mem s2 m2) m3) with (set_mem s2 m3). rewrite He4. reflexivity.
  - unfold store_results, return_view. cbn [re_rax re_rdx re_xmm0 re_xmm1]. rewrite Hw1. cbn [mbind outcome_bind]. rewrite Hw2. cbn [mbind outcome_bind]. rewrite Hw3. cbn [mbind outcome_bind]. exact Hw4.
  - intros x Hx0. cbn [cmem set_mem] in *. rewrite Ho4, Ho3, Ho2, Ho1 by lia. done.
Qed.

Context (ra : Z) (Hra : rd_mem (cmem s) sp 8 = Ret (le_bytes 8 ra)) (Hrau : in_u 64 ra).
Context (A : list Z) (HA : 184 ≤ Z.of_nat (length A) ≤ 184 + n).

(** The caller has its registers back. *)
Record dy_done (s2 s' : cpu) : Prop := mk_dy_done {
  dd_rsp : gpr s' TCG_REG_RSP = sp + 8;
  dd_saved : ∀ r, r ∈ tcg_target_callee_save_regs → gpr s' r = gpr s r;
  dd_args : ∃ A', store_results A (return_view s2) = Ret A' ∧ rd_mem (cmem s') argp (Z.of_nat (length A)) = Ret A';
  dd_mem : ∀ x, x < argp ∨ argp + Z.of_nat (length A) ≤ x → cmem s' x = cmem s2 x
}.

Lemma dy_finish_ok p ret sc s2 : placed base code p (dy_call_finish ++ [E_ret]) → dy_host_called ret sc → dy_returned A sc s2 →
  ∃ k s', (k ≤ 12)%nat ∧ runs host base code k p s2 ra s' ∧ dy_done s2 s'.
Proof using Hdc Hra Hrau HA.
  intros Hpl Hh Ht. pose proof Hdc as [_ _ _ _ _ (Hr1 & Hr2 & Hr3 & Hr4 & Hr5) Hap Hu _ _ _]. unfold apart in Hap. apply placed_app in Hpl as [Hpl1 Hpl2].
  destruct (dt_frame _ _ _ Ht) as [Hbp H12].
  destruct (dy_stores_ok s2 A H12 (dt_xmm _ _ _ Ht) (dt_args _ _ _ Ht) ltac:(lia)) as (s3 & A' & He3 & HA' & Hg3 & Hx3 & HrA & Ho3).
  set (s4 := set_gpr s3 TCG_REG_RSP (sp - 48)).
  assert (∀ x, sp - 48 ≤ x < sp + 8 → cmem s4 x = cmem sc x) as Hm4.
  { intros x Hx. unfold s4. cbn [cmem set_gpr]. rewrite Ho3 by lia. by apply (dt_mem _ _ _ Ht). }
  set (rs := reverse tcg_target_callee_save_regs). set (vs := fmap (M:=list) (gpr s) rs). destruct (pops_ok rs vs s4 (sp - 48) 48 eq_refl eq_refl) as (s5 & He5 & Hq5 & Hv5 & _ & Hx5 & Hm5).
  { by apply (bool_decide_unpack _). }
  { by apply (bool_decide_unpack _). }
  { unfold s4. regs. apply wrap_small. unfold in_u. lia. }
  { lia. }
  { lia. }
  { apply Forall_fmap, Forall_true. intros r. apply Hu. }
  { unfold vs, rs. rewrite fmap_reverse, <- (dh_saved _ _ Hh). apply rd_mem_ext. intros x Hx. apply Hm4. lia. }
  assert (exec_emits dy_call_finish s2 = Ret s5) as He.
  { change dy_call_finish with ([E_st TCG_TYPE_PTR TCG_REG_RAX TCG_REG_R12 0xb0; E_st TCG_TYPE_PTR TCG_REG_RDX TCG_REG_R12 0x10; E_st128 TCG_REG_XMM0 TCG_REG_R12 0x30; E_st128 (TCG_REG_XMM0 + 1) TCG_REG_R12 0x40]
      ++ E_mov TCG_TYPE_REG TCG_REG_RSP TCG_REG_RBP :: pop_callee_saved). rewrite (exec_app _ _ _ _ He3).
    rewrite (exec_emits_cons _ _ _ s4); [exact He5|]. apply exec_mov64; [by rewrite Hg3|unfold in_u; lia|done|done]. }
  destruct (runs_emits host base code p dy_call_finish s2 s5 Hpl1 ltac:(by repeat constructor) He) as (k & Hk & Rk).
  assert (rd_mem (cmem s5) sp 8 = Ret (le_bytes 8 ra)) as Hra5.
  { rewrite <- Hra, Hm5. apply rd_mem_ext. intros x Hx. rewrite Hm4 by lia. apply (dh_mem _ _ Hh). lia. }
  exists (k + 1)%nat, (set_gpr s5 TCG_REG_RSP (sp + 8)). split_and!; [cbn in Hk; lia|eapply runs_trans; [exact Rk|eapply runs_ret; [done|lia|done|done]]|].
  constructor; cbn [cmem set_gpr]; rewrite ?Hm5.
  - regs. apply wrap_small. unfold in_u. lia.
  - intros r Hr. cbn [gpr set_gpr]. destruct (Z.eqb_spec r TCG_REG_RSP) as [->|]; [by destruct rsp_not_saved|].
    assert (r ∈ rs) as [i Hi]%list_elem_of_lookup_1 by (by apply elem_of_reverse). eapply Hv5; [exact Hi|]. unfold vs. by rewrite list_lookup_fmap, Hi.
  - exists A'. split; [done|exact HrA].
  - exact Ho3.
Qed.

Lemma dy_call_ok p : placed base code p dy_call_code →
  (∀ ret sc, dy_host_called ret sc → ∃ s2, host pc sc = Ret s2 ∧ dy_returned A sc s2) →
  ∃ ret sc s2 s' k, dy_host_called ret sc ∧ host pc sc = Ret s2 ∧ runs host base code k p s ra s' ∧ dy_done s2 s' ∧ (k ≤ length dy_call_code)%nat.
Proof using Hdc Hra Hrau HA.
  intros Hpl Hhost. unfold dy_call_code in Hpl. rewrite (app_assoc [_] dy_call_load_sse) in Hpl. apply placed_app in Hpl as [Hpl1 Hpl]. apply placed_app in Hpl as [Hpl2 Hpl]. apply placed_app in Hpl as [Hpl3 Hpl4].
  destruct dy_prepare_ok as (s1 & He1 & Hr1 & Hz1 & Hx1).
  destruct (runs_emits host base code p _ s s1 Hpl1 ltac:(by repeat constructor) He1) as (k1 & Hk1 & R1). set (p1 := behind p dy_call_prepare) in *.
  destruct (dy_sse_ok p1 s1 Hpl2 Hr1 Hz1 Hx1) as (k2 & s3 & Hk2 & R2 & Hr3 & Hsse & Hxl). set (p2 := behind p1 _) in *. set (p3 := behind p2 _) in *.
  pose proof Hdc as [_ _ _ _ (Hal & _ & [j Hj]) (Hb1 & Hb2 & _ & _ & Hb5) _ _ _ _ Hst].
  destruct (push_word s3 (sp - 56 - n) p3) as (sc & Hp & Hg & Hxc & Hrc & Hoc & _); [apply (dr_rsp _ Hr3)|lia| |].
  { rewrite (dr_mapped _ Hr3). eapply mapped_sub; [exact Hst|lia..]. }
  assert (dy_host_called p3 sc) as Hh.
  { replace (sp - 56 - n - 8) with (sp - 64 - n) in * by lia. destruct Hr3. constructor; rewrite ?Hg, ?Hxc; regs; try done.
    - split; [done|]. destruct Hal as [i Hi]. exists (i - 4 - j). lia.
    - unfold arg_gprs. cbn [fmap list_fmap]. rewrite !Hg. exact dr_gprs0.
    - rewrite <- dr_stack0. replace (sp - 64 - n + 8) with (sp - 56 - n) by lia. apply rd_mem_ext. intros x Hx. apply Hoc. lia.
    - rewrite <- dr_saved0. apply rd_mem_ext. intros x Hx. apply Hoc. lia.
    - intros x Hx. rewrite Hoc, dr_mem0 by lia. done.
    - intros r. rewrite Hg. destruct (r =? _); [unfold in_u; lia|done]. }
  destruct (Hhost _ sc Hh) as (s2 & Hs2 & Ht). destruct (dy_finish_ok p3 p3 sc s2 Hpl4 Hh Ht) as (k4 & s' & Hk4 & R4 & Hd).
  exists p3, sc, s2, s', (k1 + (k2 + (1 + k4)))%nat. split_and!; try done; [|cbn in Hk1, Hk2, Hk4 |- *; lia].
  eapply runs_trans; [exact R1|]. eapply runs_trans; [exact R2|]. eapply runs_trans; [|exact R4].
  eapply runs_call_r11; [done|exact Hp|by rewrite (dr_r11 _ Hr3)].
Qed.
End run.
End dy_call.

(** ** The code of the prologue *)

Lemma emit_at_inv p es q l : emit_at p es = Ret (q, l) → assemble p es = Ret l ∧ q = p + Z.of_nat (length l).
Proof. unfold emit_at. destruct (assemble p es) as [l'|]; [|done]. by intros [= <- <-]. Qed.

Lemma code_at_split base code pre l post p : code = pre ++ l ++ post → p = base + Z.of_nat (length pre) → code_at base code p l.
Proof. intros -> ->. by exists pre, post. Qed.

(** Every part is at its label. *)
Lemma prologue_placed fns avx base L code : tcg_target_qemu_prologue fns avx base = Ret (L, code) →
  placed base code (code_gen_prologue L) tb_prologue ∧ placed base code (code_gen_epilogue L) goto_ptr_return ∧ placed base code (tb_ret_addr L) (tb_epilogue avx) ∧
  placed base code (code_gen_xloop_trampoline L) (xloop_trampoline fns) ∧ placed base code (code_gen_quick_tbcache L) (quick_tbcache fns) ∧
  placed base code (code_gen_xloop_ret_tb L) (xloop_ret_tb fns) ∧ placed base code (code_gen_x64_lazy_binder_tb L) (x64_lazy_binder_tb fns (tb_ret_addr L)) ∧
  placed base code (code_gen_dy_call_x64_trampoline L) dy_call_code ∧ behind (code_gen_epilogue L) goto_ptr_return = tb_ret_addr L.
Proof.
  unfold tcg_target_qemu_prologue. intros H.
  repeat (match type of H with context [emit_at ?p ?es] =>
    let q := fresh "q" in let l := fresh "l" in let E := fresh "E" in
    destruct (emit_at p es) as [[q l]|] eqn:E; [|done]; cbn [mbind outcome_bind] in H; apply emit_at_inv in E as [E ->] end).
  apply Ret_inj in H. injection H as <- <-.
  cbn [code_gen_prologue code_gen_epilogue tb_ret_addr code_gen_xloop_trampoline code_gen_quick_tbcache code_gen_xloop_ret_tb code_gen_x64_lazy_binder_tb code_gen_dy_call_x64_trampoline].
  split_and!.
  - exists l. split; [done|]. eapply (code_at_split _ _ []); [reflexivity|simpl; lia].
  - exists l0. split; [done|]. eapply (code_at_split _ _ l); [reflexivity|lia].
  - exists l1. split; [done|]. eapply (code_at_split _ _ (l ++ l0)); [rewrite <- !app_assoc; reflexivity|rewrite !length_app; lia].
  - exists l2. split; [done|]. eapply (code_at_split _ _ (l ++ l0 ++ l1)); [rewrite <- !app_assoc; reflexivity|rewrite !length_app; lia].
  - exists l3. split; [done|]. eapply (code_at_split _ _ (l ++ l0 ++ l1 ++ l2)); [rewrite <- !app_assoc; reflexivity|rewrite !length_app; lia].
  - exists l4. split; [done|]. eapply (code_at_split _ _ (l ++ l0 ++ l1 ++ l2 ++ l3)); [rewrite <- !app_assoc; reflexivity|rewrite !length_app; lia].
  - exists l5. split; [done|]. eapply (code_at_split _ _ (l ++ l0 ++ l1 ++ l2 ++ l3 ++ l4)); [rewrite <- !app_assoc; reflexivity|rewrite !length_app; lia].
  - exists l6. split; [done|]. eapply (code_at_split _ _ (l ++ l0 ++ l1 ++ l2 ++ l3 ++ l4 ++ l5) _ []); [rewrite app_nil_r, <- !app_assoc; reflexivity|rewrite !length_app; lia].
  - unfold behind, asm. by rewrite E0.
Qed.

(** ** Refinement *)

Lemma rd_front k (l l' : list Z) off n : 0 ≤ off → 0 ≤ n → off + n ≤ Z.of_nat (length l) → off + n ≤ Z.of_nat k → rd (take k (l ++ l')) off n = rd l off n.
Proof.
  intros Ho Hn Hl Hk. rewrite (rd_ok l), rd_ok by (rewrite ?length_take, ?length_app; lia). f_equal.
  rewrite !take_drop_commute, take_take, Nat.min_l, take_app_le by lia. done.
Qed.

Lemma results_stored {T U} A r A' (env : T) (mem : U) : store_results A r = Ret A' →
  (a ← wr A OFF_RAX (re_rax r); a ← wr a 16 (re_rdx r); a ← wr a OFF_SSE (re_xmm0 r); a ← wr a (OFF_SSE + 16) (re_xmm1 r); Ret (a, env, mem)) = Ret (A', env, mem).
Proof.
  unfold store_results. destruct (wr A _ _) as [a1|]; [|done]. cbn [mbind outcome_bind]. destruct (wr a1 _ _) as [a2|]; [|done]. cbn [mbind outcome_bind].
  destruct (wr a2 _ _) as [a3|]; [|done]. cbn [mbind outcome_bind]. by intros ->.
Qed.

(** C13.  Running the bytes of [code_gen_dy_call_x64_trampoline] is the call that
    the model of the handlers makes: the callee is entered with the registers,
    the SSE registers when EAX is not 0, and the stack of the argument space,
    on an aligned stack; whatever function of a callee's view the host function
    implements, [dy_call_x64_trampoline] gives with that function the argument
    space that is in memory after the run.  The run ends at the return address
    with all callee-saved registers restored. *)
Theorem dy_call_trampoline_refines fns avx base L code host s sp pc argp n ra arg_space behind :
  let a := take (Z.to_nat (184 + n)) (arg_space ++ behind) in
  tcg_target_qemu_prologue fns avx base = Ret (L, code) → dy_called s sp pc argp n a →
  rd_mem (cmem s) sp 8 = Ret (le_bytes 8 ra) → in_u 64 ra → inside base code ra = false → 184 ≤ Z.of_nat (length arg_space) ≤ 184 + n →
  (∀ ret sc, dy_host_called s sp argp n a ret sc → ∃ s2, host pc sc = Ret s2 ∧ dy_returned sp argp arg_space sc s2) →
  ∃ ret sc s2 s', dy_host_called s sp argp n a ret sc ∧ host pc sc = Ret s2 ∧
    (∀ fuel, (length dy_call_code ≤ fuel)%nat → run host base code fuel (code_gen_dy_call_x64_trampoline L) s = Ret (ra, s')) ∧
    gpr s' TCG_REG_RSP = sp + 8 ∧ (∀ r, r ∈ tcg_target_callee_save_regs → gpr s' r = gpr s r) ∧
    ∀ f env mem env' mem', f pc (entry_view sc (drop 184 a)) env mem = Ret (return_view s2, env', mem') →
      ∃ A', dy_call_x64_trampoline f behind pc arg_space n env mem = Ret (A', env', mem') ∧ rd_mem (cmem s') argp (Z.of_nat (length arg_space)) = Ret A'.
Proof.
  intros a HL Hdc Hra Hrau Hout HA Hhost. apply prologue_placed in HL as (_ & _ & _ & _ & _ & _ & _ & Hpl & _).
  destruct (dy_call_ok s sp pc argp n a Hdc host base code ra Hra Hrau arg_space HA _ Hpl Hhost) as (ret & sc & s2 & s' & k & Hh & Hs2 & Hrun & [Hsp' Hsaved (A' & HA' & Hrd) _] & Hk).
  exists ret, sc, s2, s'. split_and!; try done; [intros fuel Hf; eapply runs_out; [exact Hrun|done|lia]|].
  intros f env mem env' mem' Hf. exists A'. split; [|done].
  pose proof (rd_mem_length (cmem s) argp (184 + n) a ltac:(pose proof (dc_range _ _ _ _ _ _ Hdc); lia) (proj1 (dc_args _ _ _ _ _ _ Hdc))) as Hla.
  assert (0 ≤ n) as Hn by apply (dc_range _ _ _ _ _ _ Hdc). destruct Hh as [_ _ Hg [Hrax Hrau32] Hsse _ _ _ _ _ _]. unfold dy_call_x64_trampoline.
  assert (rd (arg_space ++ behind) SIZEOF_REGISTER_ARGS n = Ret (drop 184 a)) as ->.
  { unfold a in Hla. rewrite length_take in Hla. rewrite rd_ok by (unfold SIZEOF_REGISTER_ARGS; lia). f_equal. unfold a. rewrite take_drop_commute. do 2 f_equal. unfold SIZEOF_REGISTER_ARGS. lia. }
  rewrite <- (rd_front (Z.to_nat (184 + n)) arg_space behind 0 48), <- (rd_front (Z.to_nat (184 + n)) arg_space behind OFF_RAX 4),
    <- (rd_front (Z.to_nat (184 + n)) arg_space behind OFF_SSE 128) by (unfold OFF_RAX, OFF_SSE; lia).
  fold a. rewrite Hg, Hrax. cbn [mbind outcome_bind fmap outcome_fmap].
  assert (le_val (le_bytes 4 (gpr sc TCG_REG_RAX)) = u32 (gpr sc TCG_REG_RAX)) as -> by apply le_val_bytes.
  unfold entry_view in Hf. rewrite wrap_small in Hf |- * by done. destruct (Z.eqb_spec (gpr sc TCG_REG_RAX) 0) as [E|E].
  - cbn [mbind outcome_bind]. rewrite Hf. cbn [mbind outcome_bind]. by apply results_stored.
  - rewrite (Hsse E). cbn [mbind outcome_bind fmap outcome_fmap]. rewrite Hf. cbn [mbind outcome_bind]. by apply results_stored.
Qed.

(** ** A run *)

(** An integer, a double and eight bytes on the stack. *)
Definition dw_space : list Z := le_bytes 8 42 ++ replicate 40 0 ++ le_bytes 16 0x3ff0000000000000 ++ replicate 112 0 ++ le_bytes 8 1 ++ le_bytes 8 77.
Definition dw_behind : list Z := replicate 8 9.
Definition dw_sp : Z := 2 ^ 23 + 8.
Definition dw_mem : memory := region (2 ^ 22) (dw_space ++ dw_behind) (region (dw_sp - 80) (replicate 80 0 ++ le_bytes 8 65536) (λ _, None)).
Definition dw_cpu : cpu :=
  mk_cpu (λ r, if r =? TCG_REG_RDI then 4096 else if r =? TCG_REG_RSI then 2 ^ 22 else if r =? TCG_REG_RDX then 16 else if r =? TCG_REG_RSP then dw_sp else 3)
    (λ _, replicate 16 0) dw_mem false.
Definition dw_fns : prologue_fns := mk_prologue_fns 0 0 0 0 0.
(** A function that returns 7. *)
Definition dw_host (_ : Z) (sc : cpu) : outcome cpu := Ret (set_gpr (set_gpr sc TCG_REG_RSP (gpr sc TCG_REG_RSP + 8)) TCG_REG_RAX 7).

Lemma dw_called : dy_called dw_cpu dw_sp 4096 (2 ^ 22) 16 (dw_space ++ dw_behind).
Proof.
  constructor; try reflexivity.
  - split_and!; [by exists (2 ^ 19 + 1)|by exists (2 ^ 18)|by exists 1].
  - unfold dw_sp. lia.
  - unfold apart, dw_sp. lia.
  - intros r. cbn [gpr dw_cpu]. repeat case_match; by vm_compute.
  - split; [vm_compute; reflexivity|unfold bytes_ok; apply (bool_decide_unpack _); by vm_compute].
Qed.

Lemma dw_returns ret sc : dy_host_called dw_cpu dw_sp (2 ^ 22) 16 (dw_space ++ dw_behind) ret sc →
  ∃ s2, dw_host 4096 sc = Ret s2 ∧ dy_returned dw_sp (2 ^ 22) dw_space sc s2.
Proof.
  intros Hh. eexists. split; [reflexivity|]. destruct (dh_rsp _ _ _ _ _ _ _ Hh) as [Hsp _]. pose proof (dh_u64 _ _ _ _ _ _ _ Hh) as Hu.
  constructor; cbn [cmem set_gpr]; try done.
  - regs. apply wrap_small. rewrite Hsp. by vm_compute.
  - destruct (dh_frame _ _ _ _ _ _ _ Hh) as [H1 H2]. by regs.
  - intros r. cbn [gpr set_gpr]. repeat (destruct (r =? _); [by apply wrap_range|]). apply Hu.
  - apply (dh_xmm _ _ _ _ _ _ _ Hh).
  - assert (rd_mem (cmem dw_cpu) (2 ^ 22) (Z.of_nat (length dw_space)) = Ret dw_space) as <- by (vm_compute; reflexivity).
    apply rd_mem_ext. intros x Hx. apply (dh_mem _ _ _ _ _ _ _ Hh). change (Z.of_nat (length dw_space)) with 192 in Hx. unfold dw_sp. lia.
Qed.

Lemma dy_call_trampoline_refines_witness : ∃ L code s', tcg_target_qemu_prologue dw_fns true (2 ^ 26) = Ret (L, code) ∧
  run dw_host (2 ^ 26) code (length dy_call_code) (code_gen_dy_call_x64_trampoline L) dw_cpu = Ret (65536, s') ∧
  gpr s' TCG_REG_RSP = dw_sp + 8 ∧ gpr s' TCG_REG_R13 = 3.
Proof.
  destruct (tcg_target_qemu_prologue dw_fns true (2 ^ 26)) as [[L code]|] eqn:HL; [|vm_compute in HL; discriminate HL].
  destruct (dy_call_trampoline_refines dw_fns true (2 ^ 26) L code dw_host dw_cpu dw_sp 4096 (2 ^ 22) 16 65536 dw_space dw_behind HL) as (ret & sc & s2 & s' & _ & _ & Hrun & Hsp & Hsv & _).
  - exact dw_called.
  - vm_compute. reflexivity.
  - by vm_compute.
  - unfold inside. apply andb_false_intro1. by apply Z.leb_gt.
  - change (Z.of_nat (length dw_space)) with 192. lia.
  - exact dw_returns.
  - exists L, code, s'. split; [reflexivity|]. split; [by apply Hrun|]. split; [exact Hsp|]. rewrite Hsv; [reflexivity|by apply (bool_decide_unpack _)].
Defined.
