(* ===== verification/TbEntry.v ===== *)
(** * Into translated code and back

    [code_gen_prologue] is called as a C function with the emulated CPU and a
    translated block; the block leaves through [tb_ret_addr] or
    [code_gen_epilogue], or goes on to the next block through
    [code_gen_quick_tbcache]. *)

From S2P Require Import Prelude Bytes ABIArgInfo DyBridge Handlers Memory X86 Encoder Machine A2XCode A2XSim A2XStep A2XArg A2XCall A2XValid A2XTramp X2ACode X2ASim Runs Prologue XLoopTramp DyCall.

Definition saved_frame (sp : Z) (s s1 : cpu) : Prop :=
  rd_mem (cmem s1) (sp - 48) 48 = Ret (words (reverse (gpr s <$> tcg_target_callee_save_regs))) ∧ ∀ x, sp ≤ x < sp + 8 → cmem s1 x = cmem s x.

(** The block [tb] is called with the CPU at [envp]. *)
Record tb_called (s : cpu) (sp envp tb : Z) : Prop := mk_tb_called {
  tc_rsp : gpr s TCG_REG_RSP = sp;
  tc_rdi : gpr s TCG_REG_RDI = envp;
  tc_rsi : gpr s TCG_REG_RSI = tb;
  tc_align : (16 | sp + 8);
  tc_range : 2048 ≤ sp ∧ sp + 16 < 2 ^ 64;
  tc_u64 : ∀ r, in_u 64 (gpr s r);
  tc_stack : mapped (cmem s) (sp - 48) 48 = true
}.

(** The state in which a block starts. *)
Record tb_started (s : cpu) (sp envp : Z) (s1 : cpu) : Prop := mk_tb_started {
  tt_rsp : gpr s1 TCG_REG_RSP = sp + 8 - FRAME_SIZE ∧ (16 | gpr s1 TCG_REG_RSP);
  tt_env : gpr s1 TCG_AREG0 = envp;
  tt_saved : saved_frame sp s s1;
  tt_mem : ∀ x, x < sp - 48 ∨ sp ≤ x → cmem s1 x = cmem s x
}.

(** A block leaves with its stack pointer and the saved registers as they were. *)
Record tb_left (s : cpu) (sp : Z) (s2 : cpu) : Prop := mk_tb_left {
  tl_rsp : gpr s2 TCG_REG_RSP = sp + 8 - FRAME_SIZE;
  tl_saved : saved_frame sp s s2;
  tl_u64 : ∀ r, in_u 64 (gpr s2 r)
}.

(** The C caller continues with the value [v]. *)
Record tb_returned (s : cpu) (sp v : Z) (s2 s' : cpu) : Prop := mk_tb_returned {
  tx_rsp : gpr s' TCG_REG_RSP = sp + 8;
  tx_rax : gpr s' TCG_REG_RAX = v;
  tx_saved : ∀ r, r ∈ tcg_target_callee_save_regs → gpr s' r = gpr s r;
  tx_mem : cmem s' = cmem s2
}.

Section tb.
Context (host : Z → cpu → outcome cpu) (base : Z) (code : list Z).
Context (s : cpu) (sp envp tb : Z) (Hc : tb_called s sp envp tb).

Lemma tb_enter_ok p : placed base code p tb_prologue → ∃ k s1, (k ≤ length tb_prologue)%nat ∧ runs host base code k p s tb s1 ∧ tb_started s sp envp s1.
Proof using Hc.
  intros Hpl. destruct Hc as [Hsp Hdi Hsi Hal [Hlo Hhi] Hu Hst]. unfold tb_prologue in Hpl.
  change [E_mov TCG_TYPE_PTR TCG_AREG0 TCG_REG_RDI; E_addi TCG_REG_RSP (- stack_addend); E_jmp_reg TCG_REG_RSI]
    with ([E_mov TCG_TYPE_PTR TCG_AREG0 TCG_REG_RDI; E_addi TCG_REG_RSP (- stack_addend)] ++ [E_jmp_reg TCG_REG_RSI]) in Hpl.
  rewrite app_assoc in Hpl. apply placed_app in Hpl as [Hpl1 Hpl2].
  destruct (pushes_ok tcg_target_callee_save_regs s sp 48 eq_refl) as (s1 & He1 & [Hg1 Hx1] & Hrd1 & Ho1 & _); [by apply (bool_decide_unpack _)|done|lia|done|done|].
  set (s2 := set_gpr s1 TCG_AREG0 envp).
  destruct (sub_rsp s2 (sp - 48) stack_addend) as (s3 & He3 & (Hg3 & Hx3 & Hm3) & Hu3); [unfold s2; regs; by rewrite Hg1|change stack_addend with 1160; lia|lia| |].
  { intros r. unfold s2. cbn [gpr set_gpr]. destruct (r =? _); [by apply wrap_range|]. rewrite Hg1. destruct (r =? _); [unfold in_u; lia|done]. }
  assert (in_u 64 envp) as Henv by (rewrite <- Hdi; apply Hu).
  assert (exec_emits (push_callee_saved ++ [E_mov TCG_TYPE_PTR TCG_AREG0 TCG_REG_RDI; E_addi TCG_REG_RSP (- stack_addend)]) s = Ret s3) as He.
  { unfold push_callee_saved. rewrite (exec_app _ _ _ _ He1). rewrite (exec_emits_cons _ _ _ s2) by (apply exec_mov64; [by rewrite Hg1|done|done|done]). by rewrite (exec_emits_cons _ _ _ _ He3). }
  destruct (runs_emits host base code p _ s s3 Hpl1 ltac:(by repeat constructor) He) as (k & Hk & Rk).
  assert (gpr s3 TCG_REG_RSI = tb) as Htb by (rewrite Hg3; unfold s2; regs; by rewrite Hg1).
  exists (k + 1)%nat, s3. split_and!; [cbn in Hk |- *; lia|eapply runs_trans; [exact Rk|]; rewrite <- Htb; by apply runs_jmp_reg|].
  assert (cmem s3 = cmem s1) as Hm by (rewrite Hm3; done). constructor; rewrite ?Hm.
  - rewrite Hg3. regs. change stack_addend with 1160. change FRAME_SIZE with 1216. split; [lia|]. destruct Hal as [i Hi]. exists (i - 76). lia.
  - rewrite Hg3. unfold s2. regs. by apply wrap_small.
  - split; rewrite Hm; [done|]. intros x Hx. apply Ho1. lia.
  - intros x Hx. apply Ho1. lia.
Qed.

Lemma tb_leave_ok avx p s2 ra : placed base code p (tb_epilogue avx) → rd_mem (cmem s) sp 8 = Ret (le_bytes 8 ra) → in_u 64 ra → tb_left s sp s2 →
  ∃ k s', (k ≤ length (tb_epilogue avx))%nat ∧ runs host base code k p s2 ra s' ∧ tb_returned s sp (gpr s2 TCG_REG_RAX) s2 s'.
Proof using Hc.
  intros Hpl Hra Hrau [Hsp2 [Hsv Hkeep] Hu2]. destruct Hc as [_ _ _ _ [Hlo Hhi] Hu _]. change FRAME_SIZE with 1216 in Hsp2. unfold tb_epilogue in Hpl. rewrite !app_assoc in Hpl. apply placed_app in Hpl as [Hpl1 Hpl2].
  destruct (add_rsp s2 (sp + 8 - 1216) stack_addend Hsp2) as (s3 & He3 & (Hg3 & Hx3 & Hm3) & Hu3); [lia|done|change stack_addend with 1160; lia|done|].
  set (rs := reverse tcg_target_callee_save_regs). set (vs := fmap (M:=list) (gpr s) rs).
  destruct (pops_ok rs vs s3 (sp - 48) 48 eq_refl eq_refl) as (s5 & He5 & Hq5 & Hv5 & Hk5 & Hx5 & Hm5).
  { by apply (bool_decide_unpack _). }
  { by apply (bool_decide_unpack _). }
  { rewrite Hg3. regs. change stack_addend with 1160. lia. }
  { lia. }
  { lia. }
  { apply Forall_fmap, Forall_true. intros r. apply Hu. }
  { unfold vs, rs. by rewrite fmap_reverse, Hm3. }
  assert (exec_emits (([E_addi TCG_REG_RSP stack_addend] ++ (if avx then [E_vzeroupper] else [])) ++ pop_callee_saved) s2 = Ret s5) as He.
  { rewrite (exec_app _ _ _ s3); [exact He5|]. cbn [app]. rewrite (exec_emits_cons _ _ _ _ He3). by destruct avx. }
  destruct (runs_emits host base code p _ s2 s5 Hpl1 ltac:(destruct avx; by repeat constructor) He) as (k & Hk & Rk).
  assert (rd_mem (cmem s5) sp 8 = Ret (le_bytes 8 ra)) as Hra5 by (rewrite <- Hra, Hm5, Hm3; apply rd_mem_ext; intros x Hx; apply Hkeep; lia).
  exists (k + 1)%nat, (set_gpr s5 TCG_REG_RSP (sp + 8)). split_and!; [destruct avx; cbn in Hk |- *; lia|eapply runs_trans; [exact Rk|eapply runs_ret; [done|lia|done|done]]|].
  constructor; cbn [cmem set_gpr]; [regs; apply wrap_small; unfold in_u; lia| | |by rewrite Hm5, Hm3].
  - regs. rewrite Hk5; [|by apply (bool_decide_unpack _)|done]. by rewrite Hg3.
  - intros r Hr. cbn [gpr set_gpr]. destruct (Z.eqb_spec r TCG_REG_RSP) as [->|]; [by destruct rsp_not_saved|].
    assert (r ∈ rs) as [i Hi]%list_elem_of_lookup_1 by (by apply elem_of_reverse). eapply Hv5; [exact Hi|]. unfold vs. by rewrite list_lookup_fmap, Hi.
Qed.
End tb.

(** C14.  Calling translated code as a C function: the block starts with the
    emulated CPU in RBX, an aligned stack and the caller's registers saved;
    when it leaves through [tb_ret_addr] with its frame intact, the C caller gets
    the value in RAX, when it leaves through [code_gen_epilogue] it gets 0, and
    in both cases the stack pointer and all callee-saved registers are those of
    before the call. *)
Theorem tb_exec_returns fns avx base L code host s sp envp tb ra :
  tcg_target_qemu_prologue fns avx base = Ret (L, code) → tb_called s sp envp tb → rd_mem (cmem s) sp 8 = Ret (le_bytes 8 ra) → in_u 64 ra →
  inside base code tb = false → inside base code ra = false →
  ∃ s1, tb_started s sp envp s1 ∧ (∀ fuel, (length tb_prologue ≤ fuel)%nat → run host base code fuel (code_gen_prologue L) s = Ret (tb, s1)) ∧
    ∀ s2, tb_left s sp s2 →
      (∃ s', tb_returned s sp (gpr s2 TCG_REG_RAX) s2 s' ∧ ∀ fuel, (length (tb_epilogue avx) ≤ fuel)%nat → run host base code fuel (tb_ret_addr L) s2 = Ret (ra, s')) ∧
      (∃ s', tb_returned s sp 0 s2 s' ∧ ∀ fuel, (1 + length (tb_epilogue avx) ≤ fuel)%nat → run host base code fuel (code_gen_epilogue L) s2 = Ret (ra, s')).
Proof.
  intros HL Hc Hra Hrau Htb Hout. apply prologue_placed in HL as (Hp & Hg & Hr & _ & _ & _ & _ & _ & Hb).
  destruct (tb_enter_ok host base code s sp envp tb Hc _ Hp) as (k & s1 & Hk & R & Ht).
  exists s1. split_and!; [done|intros fuel Hf; eapply runs_out; [exact R|done|lia]|]. intros s2 Hl. split.
  - destruct (tb_leave_ok host base code s sp envp tb Hc avx _ s2 ra Hr Hra Hrau Hl) as (k2 & s' & Hk2 & R2 & Hx). exists s'. split; [done|].
    intros fuel Hf. eapply runs_out; [exact R2|done|lia].
  - destruct (exec_movi TCG_TYPE_REG TCG_REG_RAX 0 s2) as [b He]. set (s3 := set_zf (set_gpr s2 TCG_REG_RAX 0) b) in He.
    destruct (runs_emits host base code _ goto_ptr_return s2 s3 Hg ltac:(by repeat constructor)) as (k1 & Hk1 & R1); [unfold goto_ptr_return; by rewrite (exec_emits_cons _ _ _ _ He)|].
    rewrite Hb in R1. destruct (tb_leave_ok host base code s sp envp tb Hc avx _ s3 ra Hr Hra Hrau) as (k2 & s' & Hk2 & R2 & Hx).
    { destruct Hl as [H1 H2 H3]. constructor; [exact H1|exact H2|]. intros r. unfold s3. cbn [gpr set_gpr set_zf]. destruct (r =? _); [by apply wrap_range|done]. }
    exists s'. split; [by destruct Hx; constructor|]. intros fuel Hf. eapply runs_out; [eapply runs_trans; [exact R1|exact R2]|done|]. cbn in Hk1. lia.
Qed.

Lemma tb_exec_returns_witness : ∃ L code s1, tcg_target_qemu_prologue dw_fns true (2 ^ 26) = Ret (L, code) ∧ tb_started dw_cpu dw_sp 4096 s1 ∧
  run dw_host (2 ^ 26) code (length tb_prologue) (code_gen_prologue L) dw_cpu = Ret (2 ^ 22, s1).
Proof.
  destruct (tcg_target_qemu_prologue dw_fns true (2 ^ 26)) as [[L code]|] eqn:HL; [|vm_compute in HL; discriminate HL].
  destruct (tb_exec_returns dw_fns true (2 ^ 26) L code dw_host dw_cpu dw_sp 4096 (2 ^ 22) 65536 HL) as (s1 & Hs & Hrun & _).
  - constructor; try reflexivity; [by exists (2 ^ 19 + 1)|unfold dw_sp; lia|]. apply (dc_u64 _ _ _ _ _ _ dw_called).
  - vm_compute. reflexivity.
  - by vm_compute.
  - unfold inside. apply andb_false_intro1. by apply Z.leb_gt.
  - unfold inside. apply andb_false_intro1. by apply Z.leb_gt.
  - exists L, code, s1. split; [reflexivity|]. split; [exact Hs|]. by apply Hrun.
Defined.

(** ** From block to block *)

Section next.
Context (fns : prologue_fns) (host : Z → cpu → outcome cpu) (base : Z) (code : list Z).
Context (s : cpu) (sp envp : Z) (Henv : gpr s TCG_AREG0 = envp) (Hsp : gpr s TCG_REG_RSP = sp) (Hr : 8 ≤ sp < 2 ^ 64).
Context (Hu : ∀ r, in_u 64 (gpr s r)) (Hst : mapped (cmem s) (sp - 8) 8 = true).

(** A C function that is called with the emulated CPU. *)
Record env_called (ret : Z) (sc : cpu) : Prop := mk_env_called {
  ev_rdi : gpr sc TCG_REG_RDI = envp;
  ev_rsp : gpr sc TCG_REG_RSP = sp - 8;
  ev_gpr : ∀ r, r ≠ TCG_REG_RDI → r ≠ TCG_REG_RSP → gpr sc r = gpr s r;
  ev_ret : rd_mem (cmem sc) (sp - 8) 8 = Ret (le_bytes 8 ret);
  ev_mem : ∀ x, x < sp - 8 ∨ sp ≤ x → cmem sc x = cmem s x
}.

Lemma call_env_ok p d : placed base code p [E_mov TCG_TYPE_I64 TCG_REG_RDI TCG_AREG0; E_call d] → in_reach base code d →
  ∃ ret sc, env_called ret sc ∧ ∀ s2, host d sc = Ret s2 → ∃ k, (k ≤ 2)%nat ∧ runs host base code k p s ret s2 ∧ ret = behind p [E_mov TCG_TYPE_I64 TCG_REG_RDI TCG_AREG0; E_call d].
Proof using Henv Hsp Hr Hu Hst.
  intros Hpl Hd. pose proof (behind_app base code p [E_mov TCG_TYPE_I64 TCG_REG_RDI TCG_AREG0] [E_call d] Hpl) as Hb. cbn [app] in Hb.
  apply (placed_app base code p [E_mov TCG_TYPE_I64 TCG_REG_RDI TCG_AREG0] [E_call d]) in Hpl as [Hpl1 Hpl2]. rewrite Hb. clear Hb.
  set (s1 := set_gpr s TCG_REG_RDI envp). assert (exec_emits [E_mov TCG_TYPE_I64 TCG_REG_RDI TCG_AREG0] s = Ret s1) as He.
  { cbn [exec_emits]. rewrite (exec_mov64 _ _ _ envp); [done|done|rewrite <- Henv; apply Hu|done|done]. }
  destruct (runs_emits host base code p _ s s1 Hpl1 ltac:(by repeat constructor) He) as (k & Hk & Rk). set (p1 := behind p _) in *. set (p2 := behind p1 [E_call d]).
  destruct (push_word s1 sp p2) as (sc & Hp & Hg & Hx & Hrd & Ho & _); [exact Hsp|done|done|]. exists p2, sc. split.
  - constructor; try done; [rewrite Hg; unfold s1; regs; apply wrap_small; rewrite <- Henv; apply Hu|]. intros r Hr1%Z.eqb_neq Hr2%Z.eqb_neq. rewrite Hg, Hr2. unfold s1. cbn [gpr set_gpr]. by rewrite Hr1.
  - intros s2 Hs2. exists (k + 1)%nat. split_and!; [cbn in Hk; lia| |done]. eapply runs_trans; [exact Rk|]. by eapply runs_call.
Qed.

(** The next block is the one that is found for the program counter. *)
Lemma quick_tbcache_ok p : placed base code p (quick_tbcache fns) → in_reach base code (fn_helper_lookup_tb_ptr fns) →
  ∃ ret sc, env_called ret sc ∧ ∀ s2, host (fn_helper_lookup_tb_ptr fns) sc = Ret s2 → ∃ k, (k ≤ 3)%nat ∧ runs host base code k p s (gpr s2 TCG_REG_RAX) s2.
Proof using Henv Hsp Hr Hu Hst.
  intros Hpl Hd. apply (placed_app base code p [E_mov TCG_TYPE_I64 TCG_REG_RDI TCG_AREG0; E_call (fn_helper_lookup_tb_ptr fns)] [E_jmp_reg TCG_REG_RAX]) in Hpl as [Hpl1 Hpl2].
  destruct (call_env_ok p _ Hpl1 Hd) as (ret & sc & Hc & Hrun). exists ret, sc. split; [done|]. intros s2 Hs2. destruct (Hrun s2 Hs2) as (k & Hk & R & ->).
  exists (k + 1)%nat. split; [lia|]. eapply runs_trans; [exact R|]. by apply runs_jmp_reg.
Qed.
End next.
