(* ===== verification/Pages.v ===== *)
(** * Guest pages

    The emulator keeps flags for every page of the address space it shares
    with the guest ([page_set_flags] and its relatives of [translate-all.c])
    and wraps the system calls that change mappings ([bsd-user/mmap.c]).
    Pages of guest code are never executable for the host: a host call of a
    guest function faults, and the fault handler starts the emulator.  Pages
    with translated code are never writable: a write faults, and the handler
    drops the translations first.

    The calls of the host kernel are operations of the class [HostVM]; what
    is relied on are the laws [HostVMLaws]. *)

From S2P Require Import Prelude.

(** ** Constants *)

Definition TARGET_PAGE_BITS : Z := 12.
Definition TARGET_PAGE_SIZE : Z := Z.shiftl 1 TARGET_PAGE_BITS.
Definition TARGET_PAGE_MASK : Z := u64 (Z.shiftl (-1) TARGET_PAGE_BITS).
Definition L1_MAP_ADDR_SPACE_BITS : Z := 48.

Definition PAGE_READ : Z := 1.
Definition PAGE_WRITE : Z := 2.
Definition PAGE_EXEC : Z := 4.
Definition PAGE_BITS : Z := Z.lor PAGE_READ (Z.lor PAGE_WRITE PAGE_EXEC).
Definition PAGE_VALID : Z := 8.
Definition PAGE_WRITE_ORG : Z := 16.
Definition PAGE_EXEC_ORG : Z := 32.
Definition PAGE_RESERVED : Z := 32.

(** Constants of the macOS headers. *)
Definition PROT_READ : Z := 1.
Definition PROT_WRITE : Z := 2.
Definition PROT_EXEC : Z := 4.
Definition MAP_SHARED : Z := 1.
Definition MAP_PRIVATE : Z := 2.
Definition MAP_FIXED : Z := 16.
Definition MAP_ANON : Z := 4096.
Definition EINVAL : Z := 22.
Definition ENOMEM : Z := 12.
Definition ENXIO : Z := 6.
Definition TARGET_BSD_MAP_FLAGMASK : Z := 16375.

(** [f & b] as a condition. *)
Definition has (f b : Z) : bool := negb (Z.land f b =? 0).

Definition ROUND_UP (n d : Z) : Z := Z.land (u64 (n + d - 1)) (u64 (- d)).
Definition TARGET_PAGE_ALIGN (a : Z) : Z := ROUND_UP a TARGET_PAGE_SIZE.
Definition page_offset (a : Z) : Z := Z.land a (u64 (Z.lnot TARGET_PAGE_MASK)).

(** The page numbers of [len] bytes from [start], both multiples of the page
    size: what the loops over a range visit, in order. *)
Definition pages_of (start len : Z) : list Z :=
  seqZ (Z.shiftr start TARGET_PAGE_BITS) (Z.shiftr len TARGET_PAGE_BITS).

(** ** The host kernel *)

(** [h_prot h p] is the protection of page [p], [None] where nothing is
    mapped.  The system calls give the result of the C function; [h_mmap] an
    address or an error number. *)
Class HostVM (H : Type) := {
  h_prot : H → Z → option Z;
  h_mprotect : H → Z → Z → Z → Z * H;
  h_mmap : H → Z → Z → Z → Z → Z → Z → (Z + Z) * H;
  h_munmap : H → Z → Z → Z * H;
  h_msync : H → Z → Z → Z → Z;
  h_pread : H → Z → Z → Z → Z → H
}.

Definition in_pages (a n p : Z) : bool := (a <=? p * TARGET_PAGE_SIZE) && (p * TARGET_PAGE_SIZE <? a + n).

(** What the manual pages say.  A call that fails may have changed a part of
    the range. *)
Class HostVMLaws (H : Type) `{HostVM H} : Prop := {
  h_mprotect_ok h a n q h' : (TARGET_PAGE_SIZE | a) → (TARGET_PAGE_SIZE | n) → h_mprotect h a n q = (0, h') →
    ∀ p, h_prot h' p = if in_pages a n p then Some q else h_prot h p;
  h_mprotect_fails h a n q r h' : h_mprotect h a n q = (r, h') → r ≠ 0 →
    ∀ p, h_prot h' p = h_prot h p ∨ in_pages a n p = true ∧ is_Some (h_prot h p) ∧ h_prot h' p = Some q;
  h_mprotect_reduces h a n q : (TARGET_PAGE_SIZE | a) → (TARGET_PAGE_SIZE | n) →
    (∀ p, in_pages a n p = true → ∃ q', h_prot h p = Some q' ∧ Z.land q q' = q) → (h_mprotect h a n q).1 = 0;
  h_mmap_ok h a n q fl fd off r h' : (TARGET_PAGE_SIZE | n) → h_mmap h a n q fl fd off = (inl r, h') →
    (TARGET_PAGE_SIZE | r) ∧ 0 ≤ r ∧ r + n ≤ 2 ^ 47 ∧ (has fl MAP_FIXED = true → r = a) ∧
    ∀ p, h_prot h' p = if in_pages r n p then Some q else h_prot h p;
  h_mmap_fails h a n q fl fd off e h' : h_mmap h a n q fl fd off = (inr e, h') →
    ∀ p, h_prot h' p = h_prot h p ∨ has fl MAP_FIXED = true ∧ in_pages a n p = true ∧ h_prot h' p = None;
  h_munmap_ok h a n h' : (TARGET_PAGE_SIZE | a) → (TARGET_PAGE_SIZE | n) → h_munmap h a n = (0, h') →
    ∀ p, h_prot h' p = if in_pages a n p then None else h_prot h p;
  h_munmap_fails h a n r h' : h_munmap h a n = (r, h') → r ≠ 0 → h_prot h' = h_prot h;
  h_pread_prot h fd a n off : h_prot (h_pread h fd a n off) = h_prot h
}.

(** ** State *)

(** [PageDesc]: the flags, and whether there are translated blocks.  A page
    without a descriptor behaves as one whose flags are 0. *)
Record vm (H : Type) := mk_vm {
  pflags : Z → Z;
  first_tb : Z → bool;
  mmap_lock_count : Z;
  last_brk : Z;
  mmap_next_start : Z;
  errno : Z;
  hvm : H
}.
Arguments mk_vm {H}. Arguments pflags {H}. Arguments first_tb {H}. Arguments mmap_lock_count {H}.
Arguments last_brk {H}. Arguments mmap_next_start {H}. Arguments errno {H}. Arguments hvm {H}.

Definition upd {A} (f : Z → A) (k : Z) (v : A) : Z → A := λ x, if x =? k then v else f x.

Section pages.
Context {H : Type} `{HostVM H}.
Implicit Type v : vm H.

Definition with_page v (p f : Z) (tb : bool) : vm H :=
  mk_vm (upd (pflags v) p f) (upd (first_tb v) p tb) (mmap_lock_count v) (last_brk v) (mmap_next_start v) (errno v) (hvm v).
Definition with_lock v (n : Z) : vm H := mk_vm (pflags v) (first_tb v) n (last_brk v) (mmap_next_start v) (errno v) (hvm v).
Definition with_brk v (b : Z) : vm H := mk_vm (pflags v) (first_tb v) (mmap_lock_count v) b (mmap_next_start v) (errno v) (hvm v).
Definition with_next v (a : Z) : vm H := mk_vm (pflags v) (first_tb v) (mmap_lock_count v) (last_brk v) a (errno v) (hvm v).
Definition with_errno v (e : Z) : vm H := mk_vm (pflags v) (first_tb v) (mmap_lock_count v) (last_brk v) (mmap_next_start v) e (hvm v).
Definition with_host v (h : H) : vm H := mk_vm (pflags v) (first_tb v) (mmap_lock_count v) (last_brk v) (mmap_next_start v) (errno v) h.

(** The system calls. *)
Definition mprotect v (a n q : Z) : Z * vm H := let '(r, h) := h_mprotect (hvm v) a n q in (r, with_host v h).
Definition munmap v (a n : Z) : Z * vm H := let '(r, h) := h_munmap (hvm v) a n in (r, with_host v h).
Definition pread v (fd a n off : Z) : vm H := with_host v (h_pread (hvm v) fd a n off).

(** [MAP_FAILED] is [None], [errno] is set. *)
Definition mmap v (a n q fl fd off : Z) : option Z * vm H :=
  match h_mmap (hvm v) a n q fl fd off with
  | (inl r, h) => (Some r, with_host v h)
  | (inr e, h) => (None, with_errno (with_host v h) e)
  end.

(** ** The lock *)

(** The mutex itself is taken when the count of the thread leaves 0. *)
Definition mmap_lock v : vm H := with_lock v (mmap_lock_count v + 1).
Definition mmap_unlock v : vm H := with_lock v (mmap_lock_count v - 1).
Definition have_mmap_lock v : bool := 0 <? mmap_lock_count v.

(** A [tcg_debug_assert]: the compiler may assume it. *)
Definition assert_memory_lock v : outcome unit := if have_mmap_lock v then Ret tt else Stop Undefined.

(** ** Flags *)

Definition page_index (address : Z) : Z := Z.shiftr address TARGET_PAGE_BITS.

Definition page_get_flags v (address : Z) : Z := pflags v (page_index address).

Definition need_emulation_nolock v (address : Z) : bool := has (page_get_flags v address) PAGE_EXEC_ORG.

Definition need_emulation v (address : Z) : bool * vm H :=
  let v := mmap_lock v in
  let b := need_emulation_nolock v address in
  (b, mmap_unlock v).

(** All blocks of the page are dropped.  The result, that the current block
    was changed, is only computed for targets with precise self-modifying
    code.  A block that spans two pages also leaves the list of the other
    page, whose [first_tb] may stay set here: it says that there may be
    blocks. *)
Definition tb_invalidate_phys_page v (addr : Z) : vm H :=
  with_page v (page_index addr) (page_get_flags v addr) false.

(** One round of the loop of [page_set_flags]. *)
Definition page_set_one (flags : Z) v (p : Z) : vm H :=
  let v := if negb (has (pflags v p) PAGE_WRITE) && has flags PAGE_WRITE && first_tb v p
           then tb_invalidate_phys_page v (Z.shiftl p TARGET_PAGE_BITS) else v in
  with_page v p flags (first_tb v p).

Definition page_set_flags v (start end_ flags : Z) : outcome (vm H) :=
  _ ← c_assert (end_ <=? Z.shiftl 1 L1_MAP_ADDR_SPACE_BITS);
  _ ← c_assert (start <? end_);
  _ ← assert_memory_lock v;
  let start := Z.land start TARGET_PAGE_MASK in
  let end_ := TARGET_PAGE_ALIGN end_ in
  let flags := if has flags PAGE_WRITE then Z.lor flags PAGE_WRITE_ORG else flags in
  let '(flags, v) :=
    if has flags PAGE_EXEC then
      let flags := Z.land (Z.lor flags PAGE_EXEC_ORG) (Z.lnot PAGE_EXEC) in
      (flags, (mprotect v start (u64 (end_ - start)) (Z.land flags PAGE_BITS)).2)
    else (Z.land flags (Z.lnot PAGE_EXEC_ORG), v) in
  Ret (foldl (page_set_one flags) v (pages_of start (u64 (end_ - start)))).

(** ** Host pages *)

(** [qemu_host_page_size], a multiple of the page size of the target. *)
Context (qemu_host_page_size : Z).
Definition qemu_host_page_mask : Z := u64 (- qemu_host_page_size).
Definition HOST_PAGE_ALIGN (a : Z) : Z := ROUND_UP a qemu_host_page_size.

(** The union of the flags of the pages from [a] to [b]. *)
Definition or_flags v (a b : Z) : Z := foldl Z.lor 0 (pflags v <$> pages_of a (b - a)).

(** The target has no precise self-modifying code: never 2. *)
Definition page_unprotect v (address : Z) : Z * vm H :=
  let v := mmap_lock v in
  if has (page_get_flags v address) PAGE_WRITE_ORG then
    let v :=
      if has (page_get_flags v address) PAGE_WRITE then v
      else
        let host_start := Z.land address qemu_host_page_mask in
        let '(prot, v) := foldl (λ '(prot, v) p,
            let v := with_page v p (Z.lor (pflags v p) PAGE_WRITE) (first_tb v p) in
            (Z.lor prot (pflags v p), tb_invalidate_phys_page v (Z.shiftl p TARGET_PAGE_BITS)))
          (0, v) (pages_of host_start qemu_host_page_size) in
        (mprotect v host_start qemu_host_page_size (Z.land prot PAGE_BITS)).2 in
    (1, mmap_unlock v)
  else (0, mmap_unlock v).

Definition page_undep v (address : Z) : bool * vm H :=
  let v := mmap_lock v in
  let b := has (page_get_flags v address) PAGE_EXEC_ORG in
  (b, mmap_unlock v).

(** The loop of [page_check_range]. *)
Fixpoint check_pages v (flags : Z) (ps : list Z) : Z * vm H :=
  match ps with
  | [] => (0, v)
  | p :: ps =>
      let f := pflags v p in
      if negb (has f PAGE_VALID) then (-1, v)
      else if has flags PAGE_READ && negb (has f PAGE_READ) then (-1, v)
      else if has flags PAGE_WRITE then
        if negb (has f PAGE_WRITE_ORG) then (-1, v)
        else if negb (has f PAGE_WRITE) then
          let '(r, v) := page_unprotect v (Z.shiftl p TARGET_PAGE_BITS) in
          if r =? 0 then (-1, v) else check_pages v flags ps
        else check_pages v flags ps
      else check_pages v flags ps
  end.

Definition page_check_range v (start len flags : Z) : outcome (Z * vm H) :=
  _ ← c_assert (start <? Z.shiftl 1 L1_MAP_ADDR_SPACE_BITS);
  if len =? 0 then Ret (0, v)
  else if u64 (start + len - 1) <? start then Ret (-1, v)
  else
    let end_ := TARGET_PAGE_ALIGN (u64 (start + len)) in
    let start := Z.land start TARGET_PAGE_MASK in
    Ret (check_pages v flags (pages_of start (u64 (end_ - start)))).

(** A new block is linked to its page.  The page, if writable, is protected
    against writes, with the other pages of its host page. *)
Definition tb_page_add v (page_addr : Z) : vm H :=
  let p := page_index page_addr in
  let v := with_page v p (pflags v p) true in
  if has (pflags v p) PAGE_WRITE then
    let page_addr := Z.land page_addr qemu_host_page_mask in
    let '(prot, v) := foldl (λ '(prot, v) p,
        (Z.lor prot (pflags v p), with_page v p (Z.land (pflags v p) (Z.lnot PAGE_WRITE)) (first_tb v p)))
      (0, v) (pages_of page_addr qemu_host_page_size) in
    (mprotect v page_addr qemu_host_page_size (Z.land (Z.land prot PAGE_BITS) (Z.lnot PAGE_WRITE))).2
  else v.

(** The pages of [tb_link_page]; [phys_page2] is -1 when the block is on one
    page. *)
Definition link_pages v (phys_pc phys_page2 : Z) : vm H :=
  let v := tb_page_add v (Z.land phys_pc TARGET_PAGE_MASK) in
  if phys_page2 =? -1 then v else tb_page_add v phys_page2.

(** ** mprotect *)

(** The host page that contains [start]: new start and end of what is left. *)
Definition mprotect_head v (start end_ host_start host_end prot : Z) : Z * Z * Z * vm H :=
  if host_start <? start then
    let prot1 := Z.lor prot (or_flags v host_start start) in
    let one := host_end =? u64 (host_start + qemu_host_page_size) in
    let prot1 := if one then Z.lor prot1 (or_flags v end_ host_end) else prot1 in
    let end_ := if one then host_end else end_ in
    let '(ret, v) := mprotect v host_start qemu_host_page_size (Z.land prot1 PAGE_BITS) in
    (ret, u64 (host_start + qemu_host_page_size), end_, v)
  else (0, host_start, end_, v).

(** The host page that contains [end_]: new end of what is left. *)
Definition mprotect_tail v (end_ host_end prot : Z) : Z * Z * vm H :=
  if end_ <? host_end then
    let prot1 := Z.lor prot (or_flags v end_ host_end) in
    let '(ret, v) := mprotect v (u64 (host_end - qemu_host_page_size)) qemu_host_page_size (Z.land prot1 PAGE_BITS) in
    (ret, u64 (host_end - qemu_host_page_size), v)
  else (0, host_end, v).

Definition target_mprotect v (start len prot : Z) : outcome (Z * vm H) :=
  if negb (page_offset start =? 0) then Ret (- EINVAL, v)
  else
    let len := TARGET_PAGE_ALIGN len in
    let end_ := u64 (start + len) in
    if end_ <? start then Ret (- EINVAL, v)
    else
      let prot := Z.land prot (Z.lor PROT_READ (Z.lor PROT_WRITE PROT_EXEC)) in
      if len =? 0 then Ret (0, v)
      else
        let v := mmap_lock v in
        let host_start := Z.land start qemu_host_page_mask in
        let host_end := HOST_PAGE_ALIGN end_ in
        let '(ret, host_start, end_, v) := mprotect_head v start end_ host_start host_end prot in
        if negb (ret =? 0) then Ret (ret, mmap_unlock v)
        else
          let '(ret, host_end, v) := mprotect_tail v end_ host_end prot in
          if negb (ret =? 0) then Ret (ret, mmap_unlock v)
          else
            let '(ret, v) := if host_start <? host_end then mprotect v host_start (host_end - host_start) prot else (0, v) in
            if negb (ret =? 0) then Ret (ret, mmap_unlock v)
            else
              v ← page_set_flags v start (u64 (start + len)) (Z.lor prot PAGE_VALID);
              Ret (0, mmap_unlock v).

(** ** mmap *)

(** An incomplete host page; [false] for the result -1. *)
Definition mmap_frag v (real_start start end_ prot flags fd offset : Z) : bool * vm H :=
  let outside := filter (λ a, a < start ∨ end_ ≤ a) (seqZ real_start qemu_host_page_size) in
  let prot1 := foldl Z.lor 0 (page_get_flags v <$> outside) in
  let '(ok, prot1, v) :=
    if prot1 =? 0 then
      let '(r, v) := mmap v real_start qemu_host_page_size prot (Z.lor flags MAP_ANON) (-1) 0 in
      (bool_decide (is_Some r), prot, v)
    else (true, prot1, v) in
  if negb ok then (false, v)
  else
    let prot1 := Z.land prot1 PAGE_BITS in
    let prot_new := Z.lor prot prot1 in
    if negb (has flags MAP_ANON) then
      if (Z.land flags TARGET_BSD_MAP_FLAGMASK =? MAP_SHARED) && has prot PROT_WRITE then (false, v)
      else
        let v := if negb (has prot1 PROT_WRITE) then (mprotect v real_start qemu_host_page_size (Z.lor prot1 PROT_WRITE)).2 else v in
        let v := pread v fd start (u64 (end_ - start)) offset in
        let v := if negb (prot_new =? Z.lor prot1 PROT_WRITE) then (mprotect v real_start qemu_host_page_size prot_new).2 else v in
        (true, v)
    else
      let v := if negb (prot_new =? prot1) then (mprotect v real_start qemu_host_page_size prot_new).2 else v in
      (true, v).

(** The search of [mmap_find_vma]: [None] when it has come around. *)
Fixpoint find_free (fuel : nat) v (addr_start addr size : Z) : outcome (option Z) :=
  match fuel with
  | O => Stop OutOfFuel
  | S fuel =>
      if or_flags v addr (u64 (addr + size)) =? 0 then Ret (Some addr)
      else
        let addr := u64 (addr + qemu_host_page_size) in
        if addr =? addr_start then Ret None else find_free fuel v addr_start addr size
  end.

(** [new_brk] is what [sbrk(0)] gives. *)
Definition mmap_find_vma (fuel : nat) v (new_brk start size : Z) : outcome (option Z * vm H) :=
  v ← if negb (last_brk v =? 0) && (last_brk v <? new_brk)
      then page_set_flags v (Z.land (last_brk v) TARGET_PAGE_MASK) (TARGET_PAGE_ALIGN new_brk) PAGE_RESERVED
      else Ret v;
  let v := with_brk v new_brk in
  let size := HOST_PAGE_ALIGN size in
  let start := Z.land start qemu_host_page_mask in
  let addr := if start =? 0 then mmap_next_start v else start in
  r ← find_free fuel v addr addr size;
  match r with
  | None => Ret (None, v)
  | Some addr => Ret (Some addr, if start =? 0 then with_next v (u64 (addr + size)) else v)
  end.

(** The mapping at a fixed address: the incomplete host pages at both ends,
    then what is between them. *)
Definition mmap_fixed_start v (start end_ real_start real_end prot flags fd offset : Z) : bool * bool * Z * vm H :=
  if real_start <? start then
    if real_end =? u64 (real_start + qemu_host_page_size) then
      let '(ok, v) := mmap_frag v real_start start end_ prot flags fd offset in (ok, true, real_start, v)
    else
      let '(ok, v) := mmap_frag v real_start start (u64 (real_start + qemu_host_page_size)) prot flags fd offset in
      (ok, false, u64 (real_start + qemu_host_page_size), v)
  else (true, false, real_start, v).

Definition mmap_fixed_end v (start end_ real_end prot flags fd offset : Z) : bool * Z * vm H :=
  if end_ <? real_end then
    let last := u64 (real_end - qemu_host_page_size) in
    let '(ok, v) := mmap_frag v last last real_end prot flags fd (u64 (offset + real_end - qemu_host_page_size - start)) in
    (ok, last, v)
  else (true, real_end, v).

Definition mmap_fixed v (start len real_start real_end prot flags fd offset : Z) : bool * vm H :=
  let end_ := u64 (start + len) in
  let '(ok, done, real_start, v) := mmap_fixed_start v start end_ real_start real_end prot flags fd offset in
  if negb ok then (false, v)
  else if done then (true, v)
  else
    let '(ok, real_end, v) := mmap_fixed_end v start end_ real_end prot flags fd offset in
    if negb ok then (false, v)
    else if real_start <? real_end then
      let offset1 := if has flags MAP_ANON then 0 else u64 (offset + real_start - start) in
      let '(r, v) := mmap v real_start (real_end - real_start) prot flags fd offset1 in
      (bool_decide (is_Some r), v)
    else (true, v).

(** The mapping at an address of the host's choice; [None] on failure. *)
Definition mmap_anywhere (fuel : nat) v (new_brk start len prot flags fd offset : Z) : outcome (option Z * vm H) :=
  let real_start := Z.land start qemu_host_page_mask in
  let host_offset := Z.land offset qemu_host_page_mask in
  let host_len := HOST_PAGE_ALIGN (u64 (len + offset - host_offset)) in
  '(mmap_start, v) ← if real_start =? 0 then Ret (Some 0, v) else mmap_find_vma fuel v new_brk real_start host_len;
  match mmap_start with
  | None => Ret (None, with_errno v ENOMEM)
  | Some mmap_start =>
      let '(p, v) := mmap v mmap_start host_len prot flags fd host_offset in
      Ret (match p with
           | None => None
           | Some p => Some (if has flags MAP_ANON then p else u64 (p + offset - host_offset))
           end, v)
  end.

Definition mmap_done v (r : Z) : outcome (Z * vm H) := Ret (r, mmap_unlock v).
Definition mmap_fail v : outcome (Z * vm H) := Ret (u64 (-1), mmap_unlock v).

(** Below, [rec] is the call of [target_mmap] itself. *)
Definition target_mmap_body (rec : vm H → Z → Z → Z → Z → Z → Z → outcome (Z * vm H)) (fuel : nat) (new_brk : Z)
    v (start len prot flags fd offset : Z) : outcome (Z * vm H) :=
  let v := mmap_lock v in
  if negb (page_offset offset =? 0) then mmap_fail (with_errno v EINVAL)
  else
    let len := TARGET_PAGE_ALIGN len in
    if len =? 0 then mmap_done v start
    else if negb (has flags MAP_FIXED) then
      '(p, v) ← mmap_anywhere fuel v new_brk start len prot flags fd offset;
      match p with
      | None => mmap_fail v
      | Some start =>
          v ← page_set_flags v start (u64 (start + len)) (Z.lor prot PAGE_VALID);
          mmap_done v start
      end
    else if negb (page_offset start =? 0) then mmap_fail (with_errno v EINVAL)
    else
      let real_start := Z.land start qemu_host_page_mask in
      let real_end := HOST_PAGE_ALIGN (u64 (start + len)) in
      if existsb (λ p, has (pflags v p) PAGE_RESERVED) (pages_of real_start (real_end - real_start)) then mmap_fail (with_errno v ENXIO)
      else if negb (has flags MAP_ANON) &&
              negb (Z.land offset (u64 (Z.lnot qemu_host_page_mask)) =? Z.land start (u64 (Z.lnot qemu_host_page_mask))) then
        if (Z.land flags TARGET_BSD_MAP_FLAGMASK =? MAP_SHARED) && has prot PROT_WRITE then mmap_fail (with_errno v EINVAL)
        else
          '(retaddr, v) ← rec v start len (Z.lor prot PROT_WRITE) (Z.lor MAP_FIXED (Z.lor MAP_PRIVATE MAP_ANON)) (-1) 0;
          if retaddr =? u64 (-1) then mmap_fail v
          else
            let v := pread v fd start len offset in
            if has prot PROT_WRITE then mmap_done v start
            else
              '(ret, v) ← target_mprotect v start len prot;
              mmap_done v (if ret =? 0 then start else u64 ret)
      else
        let '(ok, v) := mmap_fixed v start len real_start real_end prot flags fd offset in
        if negb ok then mmap_fail v
        else
          v ← page_set_flags v start (u64 (start + len)) (Z.lor prot PAGE_VALID);
          mmap_done v start.

(** The inner call has [MAP_ANON] and makes no further one. *)
Fixpoint target_mmap_rec (depth fuel : nat) (new_brk : Z) v (start len prot flags fd offset : Z) : outcome (Z * vm H) :=
  match depth with
  | O => Stop OutOfFuel
  | S depth => target_mmap_body (target_mmap_rec depth fuel new_brk) fuel new_brk v start len prot flags fd offset
  end.

Definition target_mmap (fuel : nat) (new_brk : Z) v (start len prot flags fd offset : Z) : outcome (Z * vm H) :=
  target_mmap_rec 2 fuel new_brk v start len prot flags fd offset.

(** ** munmap and msync *)

Definition munmap_head v (start end_ real_start real_end : Z) : Z * Z :=
  if real_start <? start then
    let prot := or_flags v real_start start in
    let one := real_end =? u64 (real_start + qemu_host_page_size) in
    let prot := if one then Z.lor prot (or_flags v end_ real_end) else prot in
    let end_ := if one then real_end else end_ in
    (if prot =? 0 then real_start else u64 (real_start + qemu_host_page_size), end_)
  else (real_start, end_).

Definition target_munmap v (start len : Z) : outcome (Z * vm H) :=
  if negb (page_offset start =? 0) then Ret (- EINVAL, v)
  else
    let len := TARGET_PAGE_ALIGN len in
    if len =? 0 then Ret (- EINVAL, v)
    else
      let v := mmap_lock v in
      let end_ := u64 (start + len) in
      let real_end := HOST_PAGE_ALIGN end_ in
      let '(real_start, end_) := munmap_head v start end_ (Z.land start qemu_host_page_mask) real_end in
      let real_end := if (end_ <? real_end) && negb (or_flags v end_ real_end =? 0) then u64 (real_end - qemu_host_page_size) else real_end in
      let '(ret, v) := if real_start <? real_end then munmap v real_start (real_end - real_start) else (0, v) in
      v ← if ret =? 0 then page_set_flags v start (u64 (start + len)) 0 else Ret v;
      Ret (ret, mmap_unlock v).

Definition target_msync v (start len flags : Z) : Z :=
  if negb (page_offset start =? 0) then - EINVAL
  else
    let len := TARGET_PAGE_ALIGN len in
    let end_ := u64 (start + len) in
    if end_ <? start then - EINVAL
    else if end_ =? start then 0
    else
      let start := Z.land start qemu_host_page_mask in
      h_msync (hvm v) start (end_ - start) flags.
End pages.
