(* ===== verification/PagesSpec.v ===== *)
(** * The page flags protect the emulator

    With host pages of the size of target pages, as on x86-64: what the
    operations of [Pages] do, and the invariant that they keep: guest code is
    not executable for the host, and a page with translated code is not
    writable. *)

From S2P Require Import Prelude Pages.

Create HintDb pagedb.

(** ** Addresses *)

Abbreviation HPS := TARGET_PAGE_SIZE.

Lemma page_size : TARGET_PAGE_SIZE = 4096.
Proof. done. Qed.

Lemma host_mask : qemu_host_page_mask HPS = TARGET_PAGE_MASK.
Proof. done. Qed.

Lemma host_align a : HOST_PAGE_ALIGN HPS a = TARGET_PAGE_ALIGN a.
Proof. done. Qed.

Lemma land_page_mask a : in_u 64 a → Z.land a TARGET_PAGE_MASK = a / 4096 * 4096.
Proof.
  intros Ha. change TARGET_PAGE_MASK with (Z.shiftl (Z.ones 52) 12). change 4096 with (2 ^ 12). rewrite <- Z.shiftr_div_pow2, <- Z.shiftl_mul_pow2 by lia.
  apply Z.bits_inj'. intros n Hn. rewrite Z.land_spec, !Z.shiftl_spec by done.
  destruct (decide (n < 12)) as [Hlt|Hge]; [rewrite (Z.testbit_neg_r _ (n - 12)), (Z.testbit_neg_r _ (n - 12)) by lia; by rewrite andb_false_r|].
  rewrite Z.shiftr_spec by lia. replace (n - 12 + 12) with n by lia. destruct (decide (n < 64)) as [H6|H6].
  - rewrite Z.ones_spec_low by lia. by rewrite andb_true_r.
  - rewrite Z.ones_spec_high by lia. rewrite andb_false_r. symmetry. destruct (decide (a = 0)) as [->|Ha0]; [apply Z.testbit_0_l|].
    apply Z.bits_above_log2; [unfold in_u in Ha; lia|]. apply Z.lt_le_trans with 64; [|lia]. apply Z.log2_lt_pow2; unfold in_u in Ha; lia.
Qed.

Lemma mask_aligned a : in_u 64 a → (HPS | a) → Z.land a TARGET_PAGE_MASK = a.
Proof. intros Ha [k ->]. rewrite land_page_mask by done. rewrite page_size. by rewrite Z.div_mul. Qed.

Lemma mask_any a : in_u 64 (Z.land a TARGET_PAGE_MASK) ∧ (HPS | Z.land a TARGET_PAGE_MASK).
Proof.
  replace (Z.land a TARGET_PAGE_MASK) with (Z.land (u64 a) TARGET_PAGE_MASK).
  - pose proof (wrap_range 64 a ltac:(done)) as Hu. rewrite land_page_mask by done. split; [|by exists (u64 a / 4096)]. unfold in_u in *.
    pose proof (Z.mul_div_le (u64 a) 4096 ltac:(done)). pose proof (Z.div_pos (u64 a) 4096 ltac:(lia) ltac:(lia)). lia.
  - unfold wrap. rewrite <- Z.land_ones by done. by rewrite <- Z.land_assoc.
Qed.

Lemma page_align_div a : 0 ≤ a → a ≤ 2 ^ 64 - 4096 → TARGET_PAGE_ALIGN a = (a + 4095) / 4096 * 4096.
Proof.
  intros H0 Ha. unfold TARGET_PAGE_ALIGN, ROUND_UP. change (u64 (- TARGET_PAGE_SIZE)) with TARGET_PAGE_MASK. rewrite page_size.
  rewrite land_page_mask by by apply wrap_range. replace (a + 4096 - 1) with (a + 4095) by lia. rewrite wrap_small; [done|unfold in_u; lia].
Qed.

Lemma page_align_aligned a : 0 ≤ a → a ≤ 2 ^ 64 - 4096 → (HPS | a) → TARGET_PAGE_ALIGN a = a.
Proof.
  intros H0 Ha [k ->]. rewrite page_align_div by done. rewrite page_size. replace (k * 4096 + 4095) with (4095 + k * 4096) by lia.
  rewrite Z.div_add by lia. by rewrite (Z.div_small 4095).
Qed.

(** Rounding up in 64 bits: a multiple of the page size, 0 past the last page. *)
Lemma page_align_divides a : (HPS | TARGET_PAGE_ALIGN a).
Proof.
  unfold TARGET_PAGE_ALIGN, ROUND_UP. change (u64 (- TARGET_PAGE_SIZE)) with TARGET_PAGE_MASK.
  rewrite land_page_mask by by apply wrap_range. by exists (u64 (a + TARGET_PAGE_SIZE - 1) / 4096).
Qed.

Lemma page_align_u64 a : in_u 64 (TARGET_PAGE_ALIGN a).
Proof.
  unfold TARGET_PAGE_ALIGN, ROUND_UP. change (u64 (- TARGET_PAGE_SIZE)) with TARGET_PAGE_MASK. pose proof (wrap_range 64 (a + TARGET_PAGE_SIZE - 1) ltac:(done)) as Hr.
  rewrite land_page_mask by exact Hr. set (w := wrap 64 (a + TARGET_PAGE_SIZE - 1)) in *. clearbody w. unfold in_u in *. pose proof (Z.mul_div_le w 4096 ltac:(done)). pose proof (Z.div_pos w 4096 ltac:(lia) ltac:(lia)). lia.
Qed.

Lemma page_offset_mod a : in_u 64 a → page_offset a = a mod 4096.
Proof. intros Ha. unfold page_offset. change (u64 (Z.lnot TARGET_PAGE_MASK)) with (Z.ones 12). by rewrite Z.land_ones. Qed.

Lemma page_offset_aligned a : in_u 64 a → (page_offset a =? 0) = true ↔ (HPS | a).
Proof. intros Ha. rewrite page_offset_mod by done. rewrite Z.eqb_eq. apply Z.mod_divide. done. Qed.

(** ** Ranges of pages *)

Lemma elem_pages a n p : (HPS | a) → (HPS | n) → p ∈ pages_of a n ↔ in_pages a n p = true.
Proof.
  intros [k ->] [j ->]. unfold pages_of, in_pages, TARGET_PAGE_BITS. rewrite elem_of_seqZ, !Z.shiftr_div_pow2 by lia. rewrite page_size. change (2 ^ 12) with 4096.
  rewrite !Z.div_mul by lia. rewrite andb_true_iff, Z.leb_le, Z.ltb_lt. lia.
Qed.

Lemma decide_pages a n p : (HPS | a) → (HPS | n) → bool_decide (p ∈ pages_of a n) = in_pages a n p.
Proof. intros Ha Hn. pose proof (elem_pages a n p Ha Hn) as He. destruct (in_pages a n p); [apply bool_decide_true; tauto|apply bool_decide_false; intros Hp; by apply He in Hp]. Qed.

Lemma NoDup_pages a n : NoDup (pages_of a n).
Proof. apply NoDup_seqZ. Qed.

Lemma pages_one a : (HPS | a) → pages_of a HPS = [page_index a].
Proof. intros [k ->]. unfold pages_of, page_index. done. Qed.

Lemma page_index_shift p : page_index (Z.shiftl p TARGET_PAGE_BITS) = p.
Proof. unfold page_index, TARGET_PAGE_BITS. rewrite Z.shiftr_shiftl_l by lia. by rewrite Z.shiftl_0_r. Qed.

Lemma in_pages_one a p : 0 ≤ a → in_pages (Z.land a TARGET_PAGE_MASK) HPS p = (p =? page_index a) ∨ ¬ in_u 64 a.
Proof.
  intros Ha. destruct (decide (a < 2 ^ 64)) as [Hu|]; [left|right; unfold in_u; lia]. rewrite land_page_mask by (unfold in_u; lia).
  unfold in_pages, page_index, TARGET_PAGE_BITS. rewrite page_size, Z.shiftr_div_pow2 by lia. change (2 ^ 12) with 4096.
  destruct (Z.eqb_spec p (a / 4096)); [subst; apply andb_true_iff; rewrite Z.leb_le, Z.ltb_lt; lia|].
  apply andb_false_iff. rewrite Z.leb_gt, Z.ltb_ge. lia.
Qed.

(** ** Bits *)

Lemma has_bit f k : 0 ≤ k → has f (2 ^ k) = Z.testbit f k.
Proof.
  intros Hk. unfold has. destruct (Z.testbit f k) eqn:E; [apply negb_true_iff, Z.eqb_neq|apply negb_false_iff, Z.eqb_eq].
  - intros Hz. assert (Z.testbit (Z.land f (2 ^ k)) k = true) as Ht by (rewrite Z.land_spec, E, Z.pow2_bits_true by done; done). rewrite Hz, Z.testbit_0_l in Ht. done.
  - apply Z.bits_inj'. intros n Hn. rewrite Z.land_spec, Z.testbit_0_l. destruct (decide (n = k)) as [->|]; [by rewrite E|]. rewrite Z.pow2_bits_false by lia. by rewrite andb_false_r.
Qed.

(** The flags as bits. *)
Lemma has_bits f : has f PAGE_READ = Z.testbit f 0 ∧ has f PAGE_WRITE = Z.testbit f 1 ∧ has f PAGE_EXEC = Z.testbit f 2 ∧ has f PAGE_VALID = Z.testbit f 3 ∧
  has f PAGE_WRITE_ORG = Z.testbit f 4 ∧ has f PAGE_EXEC_ORG = Z.testbit f 5.
Proof. split_and!; [apply (has_bit f 0)|apply (has_bit f 1)|apply (has_bit f 2)|apply (has_bit f 3)|apply (has_bit f 4)|apply (has_bit f 5)]; done. Qed.

Ltac bits := rewrite ?(proj1 (has_bits _)), ?(proj1 (proj2 (has_bits _))), ?(proj1 (proj2 (proj2 (has_bits _)))),
  ?(proj1 (proj2 (proj2 (proj2 (has_bits _))))), ?(proj1 (proj2 (proj2 (proj2 (proj2 (has_bits _)))))), ?(proj2 (proj2 (proj2 (proj2 (proj2 (has_bits _)))))) in *.

(** A protection is one of eight. *)
Definition prot_ok (q : Z) : Prop := 0 ≤ q < 8.

Lemma prot_cases q : prot_ok q → q ∈ seqZ 0 8.
Proof. intros Hq. apply elem_of_seqZ. unfold prot_ok in Hq. lia. Qed.

(** Statements about one protection, by evaluation on all of them. *)
Ltac by_prot q Hq := apply prot_cases in Hq; revert q Hq; apply Forall_forall; vm_compute; repeat constructor.

Lemma land_prot q : prot_ok (Z.land q (Z.lor PROT_READ (Z.lor PROT_WRITE PROT_EXEC))).
Proof. change (Z.lor _ _) with (Z.ones 3). rewrite Z.land_ones by done. by apply Z.mod_pos_bound. Qed.

(** ** page_set_flags *)

(** The flags a page gets. *)
Definition new_flags (f : Z) : Z :=
  let f := if has f PAGE_WRITE then Z.lor f PAGE_WRITE_ORG else f in
  if has f PAGE_EXEC then Z.land (Z.lor f PAGE_EXEC_ORG) (Z.lnot PAGE_EXEC) else Z.land f (Z.lnot PAGE_EXEC_ORG).

Section spec.
Context {H : Type} {HV : HostVM H} {HL : HostVMLaws H}.
Implicit Type v : vm H.

(** All but flags, blocks and host. *)
Definition same_rest v v' : Prop :=
  mmap_lock_count v' = mmap_lock_count v ∧ last_brk v' = last_brk v ∧ mmap_next_start v' = mmap_next_start v ∧ errno v' = errno v.

Lemma same_rest_refl v : same_rest v v.
Proof. done. Qed.

Lemma same_rest_trans v1 v2 v3 : same_rest v1 v2 → same_rest v2 v3 → same_rest v1 v3.
Proof. unfold same_rest. intuition congruence. Qed.

Definition kept_tb (f f' : Z) (tb : bool) : bool := tb && negb (negb (has f PAGE_WRITE) && has f' PAGE_WRITE).

Lemma page_set_one_ok f v p : let v' := page_set_one f v p in
  (∀ x, pflags v' x = if x =? p then f else pflags v x) ∧
  (∀ x, first_tb v' x = if x =? p then kept_tb (pflags v p) f (first_tb v p) else first_tb v x) ∧ hvm v' = hvm v ∧ same_rest v v'.
Proof.
  unfold page_set_one, tb_invalidate_phys_page, kept_tb. rewrite page_index_shift. unfold same_rest, upd.
  destruct (negb _ && has f PAGE_WRITE) eqn:E1, (first_tb v p) eqn:E2; cbn; unfold upd; (split_and!; [|intros x|..]); try done; intros; rewrite ?Z.eqb_refl; destruct (x =? p); done.
Qed.

Lemma page_set_all_ok f ps v : NoDup ps → let v' := foldl (page_set_one f) v ps in
  (∀ x, pflags v' x = if bool_decide (x ∈ ps) then f else pflags v x) ∧
  (∀ x, first_tb v' x = if bool_decide (x ∈ ps) then kept_tb (pflags v x) f (first_tb v x) else first_tb v x) ∧ hvm v' = hvm v ∧ same_rest v v'.
Proof.
  revert v. induction ps as [|p ps IH]; intros v Hnd.
  - cbn. split_and!; [intros; by rewrite bool_decide_false by apply not_elem_of_nil..|done|done].
  - apply NoDup_cons in Hnd as [Hp Hnd]. destruct (page_set_one_ok f v p) as (Hf1 & Ht1 & Hh1 & Hr1). destruct (IH (page_set_one f v p) Hnd) as (Hf2 & Ht2 & Hh2 & Hr2).
    cbn [foldl]. split_and!; [| |congruence|by eapply same_rest_trans].
    + intros x. rewrite Hf2, Hf1. destruct (Z.eqb_spec x p) as [->|Hne]; [rewrite (bool_decide_false (p ∈ ps)), bool_decide_true; set_solver|].
      rewrite (bool_decide_ext (x ∈ p :: ps) (x ∈ ps)); [done|set_solver].
    + intros x. rewrite Ht2, Hf1, Ht1. destruct (Z.eqb_spec x p) as [->|Hne]; [rewrite (bool_decide_false (p ∈ ps)), bool_decide_true; set_solver|].
      rewrite (bool_decide_ext (x ∈ p :: ps) (x ∈ ps)); [done|set_solver].
Qed.

(** A range that is a whole number of pages, of the address space. *)
Definition page_range (a n : Z) : Prop := (HPS | a) ∧ (HPS | n) ∧ 0 ≤ a ∧ 0 < n ∧ a + n ≤ 2 ^ 48.

Lemma page_set_flags_ok v a n f : page_range a n → have_mmap_lock v = true → ∃ v', page_set_flags v a (a + n) f = Ret v' ∧
  (∀ x, pflags v' x = if in_pages a n x then new_flags f else pflags v x) ∧
  (∀ x, first_tb v' x = if in_pages a n x then kept_tb (pflags v x) (new_flags f) (first_tb v x) else first_tb v x) ∧
  hvm v' = (if has f PAGE_EXEC then (h_mprotect (hvm v) a n (Z.land (new_flags f) PAGE_BITS)).2 else hvm v) ∧ same_rest v v'.
Proof.
  intros (Ha & Hn & H0 & Hn0 & Hmax) Hl. unfold page_set_flags, assert_memory_lock. rewrite Hl.
  rewrite (proj2 (Z.leb_le (a + n) _)) by (change (Z.shiftl _ _) with (2 ^ 48); lia). rewrite (proj2 (Z.ltb_lt a (a + n))) by lia. cbn [c_assert mbind outcome_bind].
  rewrite mask_aligned by (unfold in_u; done || lia). rewrite page_align_aligned by (done || lia || by apply Z.divide_add_r).
  replace (a + n - a) with n by lia. rewrite wrap_small by (unfold in_u; lia).
  set (f1 := if has f PAGE_WRITE then Z.lor f PAGE_WRITE_ORG else f).
  assert (has f1 PAGE_EXEC = has f PAGE_EXEC) as He.
  { subst f1. bits. destruct (Z.testbit f 1); [|done]. rewrite Z.lor_spec. change (Z.testbit PAGE_WRITE_ORG 2) with false. by rewrite orb_false_r. }
  assert (new_flags f = if has f PAGE_EXEC then Z.land (Z.lor f1 PAGE_EXEC_ORG) (Z.lnot PAGE_EXEC) else Z.land f1 (Z.lnot PAGE_EXEC_ORG)) as Hnf by (rewrite <- He; done).
  rewrite He. rewrite Hnf. clear Hnf. destruct (has f PAGE_EXEC).
  - set (f2 := Z.land (Z.lor _ _) _). unfold mprotect. destruct (h_mprotect (hvm v) a n (Z.land f2 PAGE_BITS)) as [r h] eqn:Eh. cbn [snd].
    eexists. split; [reflexivity|]. destruct (page_set_all_ok f2 (pages_of a n) (with_host v h) (NoDup_pages _ _)) as (Hf & Ht & Hh & Hr). split_and!; [| |by rewrite Hh|done].
    + intros x. rewrite Hf. by rewrite decide_pages.
    + intros x. rewrite Ht. by rewrite decide_pages.
  - set (f2 := Z.land _ _). eexists. split; [reflexivity|]. destruct (page_set_all_ok f2 (pages_of a n) v (NoDup_pages _ _)) as (Hf & Ht & Hh & Hr). split_and!; [| |done|done].
    + intros x. rewrite Hf. by rewrite decide_pages.
    + intros x. rewrite Ht. by rewrite decide_pages.
Qed.

(** ** The invariant *)

Definition host_lacks v (p b : Z) : Prop := ∀ q, h_prot (hvm v) p = Some q → has q b = false.

(** [PAGE_EXEC] is never in the flags, the host never executes guest code, a
    page that is not writable for the guest is not for the host, and only such
    pages have translated code. *)
Record guarded v : Prop := mk_guarded {
  gd_exec : ∀ p, has (pflags v p) PAGE_EXEC = false;
  gd_write : ∀ p, has (pflags v p) PAGE_WRITE = true → has (pflags v p) PAGE_WRITE_ORG = true;
  gd_valid : ∀ p, has (pflags v p) PAGE_WRITE_ORG = true ∨ has (pflags v p) PAGE_EXEC_ORG = true → has (pflags v p) PAGE_VALID = true;
  gd_nx : ∀ p, has (pflags v p) PAGE_EXEC_ORG = true → host_lacks v p PROT_EXEC;
  gd_nw : ∀ p, has (pflags v p) PAGE_VALID = true → has (pflags v p) PAGE_WRITE = false → host_lacks v p PROT_WRITE;
  gd_tb : ∀ p, first_tb v p = true → has (pflags v p) PAGE_WRITE = false;
  gd_read : ∀ p, has (pflags v p) PAGE_VALID = true → has (pflags v p) PAGE_READ = true → ∀ q, h_prot (hvm v) p = Some q → has q PROT_READ = true
}.

(** Flags, blocks and protections are all that counts. *)
Lemma guarded_ext v v' : (∀ p, pflags v' p = pflags v p) → (∀ p, first_tb v' p = first_tb v p) → (∀ p, h_prot (hvm v') p = h_prot (hvm v) p) →
  guarded v → guarded v'.
Proof.
  intros Hf Ht Hh [G1 G2 G3 G4 G5 G6 G7]. split; intros p; unfold host_lacks; rewrite ?Hf, ?Ht, ?Hh; [apply G1|apply G2|apply G3|apply G4|apply G5|apply G6|apply G7].
Qed.

(** The effect of a mapping of [n] bytes at [a] with protection [q]. *)
Record remapped v (a n q : Z) v' : Prop := mk_remapped {
  rm_flags : ∀ p, pflags v' p = if in_pages a n p then new_flags (Z.lor q PAGE_VALID) else pflags v p;
  rm_tb : ∀ p, first_tb v' p = if in_pages a n p then kept_tb (pflags v p) (new_flags (Z.lor q PAGE_VALID)) (first_tb v p) else first_tb v p;
  rm_host : ∀ p, h_prot (hvm v') p = if in_pages a n p then Some (Z.land (new_flags (Z.lor q PAGE_VALID)) PAGE_BITS) else h_prot (hvm v) p;
  rm_rest : same_rest v v'
}.

Lemma new_flags_prot q : prot_ok q → let f := new_flags (Z.lor q PAGE_VALID) in
  has f PAGE_EXEC = false ∧ has f PAGE_VALID = true ∧ has f PAGE_WRITE = has q PROT_WRITE ∧ has f PAGE_WRITE_ORG = has q PROT_WRITE ∧
  has f PAGE_EXEC_ORG = has q PROT_EXEC ∧ has f PAGE_READ = has q PROT_READ ∧
  has (Z.land f PAGE_BITS) PROT_EXEC = false ∧ has (Z.land f PAGE_BITS) PROT_WRITE = has q PROT_WRITE ∧ has (Z.land f PAGE_BITS) PROT_READ = has q PROT_READ ∧
  Z.land (Z.land f PAGE_BITS) q = Z.land f PAGE_BITS ∧ (has q PROT_EXEC = false → Z.land f PAGE_BITS = q).
Proof. intros Hq. by_prot q Hq; discriminate. Qed.

Lemma guarded_remapped v a n q v' : prot_ok q → guarded v → remapped v a n q v' → guarded v'.
Proof.
  intros Hq [G1 G2 G3 G4 G5 G6 G7] [Hf Ht Hh _]. destruct (new_flags_prot q Hq) as (N1 & N2 & N3 & N4 & N5 & N6 & N7 & N8 & N9 & _).
  split; intros p; unfold host_lacks; rewrite ?Hf, ?Ht, ?Hh; destruct (in_pages a n p) eqn:E; try apply G1; try apply G2; try apply G3; try apply G4; try apply G5; try apply G6; try apply G7.
  - done.
  - congruence.
  - done.
  - intros _ q0 [= <-]. done.
  - intros _ Hw q0 [= <-]. congruence.
  - unfold kept_tb. rewrite andb_true_iff, negb_true_iff, andb_false_iff, negb_false_iff. intros [Htb [Hw|Hw]]; [|congruence]. apply G6 in Htb. congruence.
  - intros _ Hr q0 [= <-]. congruence.
Qed.

(** Setting the flags behind a successful host call. *)
Lemma set_flags_remapped v a n q h : page_range a n → prot_ok q → have_mmap_lock v = true →
  (∀ p, h_prot h p = if in_pages a n p then Some q else h_prot (hvm v) p) →
  ∃ v', page_set_flags (with_host v h) a (a + n) (Z.lor q PAGE_VALID) = Ret v' ∧ remapped v a n q v'.
Proof.
  intros Hr Hq Hl Hh. destruct (page_set_flags_ok (with_host v h) a n (Z.lor q PAGE_VALID) Hr Hl) as (v' & He & Hf & Ht & Hhv & Hrest).
  exists v'. split; [done|]. destruct (new_flags_prot q Hq) as (N1 & N2 & N3 & N4 & N5 & N6 & N7 & N8 & N9 & N10 & N11).
  split; [done|done| |done]. intros p. rewrite Hhv. cbn [hvm with_host].
  assert (has (Z.lor q PAGE_VALID) PAGE_EXEC = has q PROT_EXEC) as -> by (clear -Hq; by_prot q Hq).
  destruct (has q PROT_EXEC) eqn:E; [|rewrite Hh; destruct (in_pages a n p); [by rewrite N11|done]].
  destruct Hr as (Ha & Hn & _). set (q' := Z.land (new_flags _) _) in *. destruct (h_mprotect h a n q') as [r h'] eqn:Em. cbn [snd].
  pose proof (h_mprotect_reduces h a n q' Ha Hn) as Hred. rewrite Em in Hred. cbn [fst] in Hred.
  rewrite Hred in Em by (intros p0 Hp0; exists q; rewrite Hh, Hp0; done).
  rewrite (h_mprotect_ok h a n q' h' Ha Hn Em p), Hh. by destruct (in_pages a n p).
Qed.

(** ** mprotect *)

Definition rwx : Z := Z.lor PROT_READ (Z.lor PROT_WRITE PROT_EXEC).

Lemma lock_held v : have_mmap_lock v = true ∨ mmap_lock_count v = 0 → have_mmap_lock (mmap_lock v) = true.
Proof. unfold have_mmap_lock, mmap_lock. cbn. rewrite !Z.ltb_lt. lia. Qed.

(** With pages of one size the ends of the range need no treatment. *)
Lemma target_mprotect_plain v start len prot (n := TARGET_PAGE_ALIGN len) (q := Z.land prot rwx) :
  in_u 64 start → (HPS | start) → n ≠ 0 → start + n < 2 ^ 64 →
  target_mprotect HPS v start len prot =
    (let '(r, h) := h_mprotect (hvm v) start n q in
     if r =? 0 then v' ← page_set_flags (with_host (mmap_lock v) h) start (start + n) (Z.lor q PAGE_VALID); Ret (0, mmap_unlock v')
     else Ret (r, mmap_unlock (with_host (mmap_lock v) h))).
Proof.
  intros Hs Ha Hn0 Hmax. pose proof (page_align_divides len) as Hn. pose proof (page_align_u64 len) as Hnu. fold n in Hn, Hnu. unfold in_u in Hs, Hnu.
  assert (start + n ≤ 2 ^ 64 - 4096) as Hmax'.
  { destruct (Z.divide_add_r _ _ _ Ha Hn) as [k Hk]. rewrite page_size in Hk. lia. }
  unfold target_mprotect. rewrite (proj2 (page_offset_aligned start Hs) Ha). cbn [negb]. fold n. fold rwx. fold q.
  rewrite (wrap_small 64 (start + n)) by (unfold in_u; lia). rewrite (proj2 (Z.ltb_ge (start + n) start)) by lia. rewrite (proj2 (Z.eqb_neq n 0)) by done.
  rewrite host_mask, host_align, mask_aligned, page_align_aligned by (done || lia || by apply Z.divide_add_r).
  unfold mprotect_head. rewrite Z.ltb_irrefl. cbn [Z.eqb negb]. unfold mprotect_tail. rewrite Z.ltb_irrefl. cbn [Z.eqb negb].
  rewrite (proj2 (Z.ltb_lt start (start + n))) by lia. replace (start + n - start) with n by lia. unfold mprotect. cbn [hvm mmap_lock with_lock].
  destruct (h_mprotect (hvm v) start n q) as [r h]. by destruct (r =? 0).
Qed.

Lemma page_set_flags_inv v a e f v' : in_u 64 a → (HPS | a) → (HPS | e) → page_set_flags v a e f = Ret v' → page_range a (e - a) ∧ have_mmap_lock v = true.
Proof.
  unfold page_set_flags, assert_memory_lock. intros Hau Ha He. change (Z.shiftl 1 _) with (2 ^ 48).
  destruct (Z.leb_spec e (2 ^ 48)); [|done]. destruct (Z.ltb_spec a e); [|done]. destruct (have_mmap_lock v) eqn:El; [|done]. intros _. split; [|done].
  unfold page_range, in_u in *. split_and!; [done|by apply Z.divide_sub_r|lia..].
Qed.

Lemma remapped_locked v a n q v' : remapped (mmap_lock v) a n q v' → remapped v a n q (mmap_unlock v').
Proof. intros [Hf Ht Hh (H1 & H2 & H3 & H4)]. split; [done..|]. unfold same_rest in *. cbn in *. split_and!; [lia|done..]. Qed.

Lemma target_mprotect_ok v start len prot v' : in_u 64 start → target_mprotect HPS v start len prot = Ret (0, v') →
  v' = v ∧ TARGET_PAGE_ALIGN len = 0 ∨
  page_range start (TARGET_PAGE_ALIGN len) ∧ remapped v start (TARGET_PAGE_ALIGN len) (Z.land prot rwx) v'.
Proof.
  intros Hs He. set (n := TARGET_PAGE_ALIGN len) in *. pose proof (page_align_divides len) as Hn. pose proof (page_align_u64 len) as Hnu. fold n in Hn, Hnu.
  destruct (page_offset start =? 0) eqn:Ea; [|unfold target_mprotect in He; by rewrite Ea in He]. apply page_offset_aligned in Ea; [|done].
  destruct (decide (n = 0)) as [Hn0|Hn0].
  { left. revert He. unfold target_mprotect. rewrite (proj2 (page_offset_aligned start Hs) Ea). fold n. rewrite Hn0, Z.add_0_r, wrap_small by done.
    rewrite Z.ltb_irrefl. cbn. intros [= <-]. done. }
  destruct (decide (start + n < 2 ^ 64)) as [Hlt|Hge].
  2: { exfalso. revert He. unfold target_mprotect. rewrite (proj2 (page_offset_aligned start Hs) Ea). fold n. unfold in_u in *.
    replace (u64 (start + n)) with (start + n - 2 ^ 64) by (apply (Z.mod_unique _ _ 1); lia). rewrite (proj2 (Z.ltb_lt _ start)) by lia. cbn. discriminate. }
  right. rewrite target_mprotect_plain in He by done. fold n in He. destruct (h_mprotect (hvm v) start n (Z.land prot rwx)) as [r h] eqn:Em.
  destruct (Z.eqb_spec r 0) as [->|]; [|congruence]. destruct (page_set_flags _ _ _ _) as [v1|] eqn:Es; [|done]. cbn [mbind outcome_bind] in He. injection He as <-.
  destruct (page_set_flags_inv _ _ _ _ _ Hs Ea (Z.divide_add_r _ _ _ Ea Hn) Es) as [Hr Hl]. replace (start + n - start) with n in Hr by lia. split; [done|].
  destruct (set_flags_remapped (mmap_lock v) start n (Z.land prot rwx) h Hr (land_prot _) Hl) as (v2 & Es2 & Hm); [by apply h_mprotect_ok; destruct Hr|].
  rewrite Es2 in Es. injection Es as <-. by apply remapped_locked.
Qed.

(** ** Changes that only take away *)

Record weaker v v' : Prop := mk_weaker {
  wk_flags : ∀ p, pflags v' p = pflags v p ∨ pflags v' p = 0;
  wk_tb : ∀ p, first_tb v' p = first_tb v p;
  wk_host : ∀ p, h_prot (hvm v') p = h_prot (hvm v) p ∨ h_prot (hvm v') p = None
}.

Lemma weaker_same v v' : (∀ p, pflags v' p = pflags v p) → (∀ p, first_tb v' p = first_tb v p) → (∀ p, h_prot (hvm v') p = h_prot (hvm v) p) → weaker v v'.
Proof. intros Hf Ht Hh. split; intros p; [left; apply Hf|apply Ht|left; apply Hh]. Qed.

Lemma weaker_locked v v' : weaker (mmap_lock v) v' → weaker v (mmap_unlock v').
Proof. intros [Hf Ht Hh]. by split. Qed.

Lemma same_rest_locked v v' : same_rest (mmap_lock v) v' → same_rest v (mmap_unlock v').
Proof. unfold same_rest. cbn. intros (R1 & R2 & R3 & R4). split_and!; [lia|done..]. Qed.

Lemma weaker_trans v1 v2 v3 : weaker v1 v2 → weaker v2 v3 → weaker v1 v3.
Proof.
  intros [F1 T1 H1] [F2 T2 H2]. split; intros p.
  - destruct (F2 p) as [->| ->]; auto.
  - by rewrite T2.
  - destruct (H2 p) as [->| ->]; auto.
Qed.

Lemma guarded_weaker v v' : guarded v → weaker v v' → guarded v'.
Proof.
  intros [G1 G2 G3 G4 G5 G6 G7] [Hf Ht Hh].
  assert (∀ p q, h_prot (hvm v') p = Some q → h_prot (hvm v) p = Some q) as Hq by (intros p q; destruct (Hh p) as [->| ->]; done).
  split; intros p; unfold host_lacks; rewrite ?Ht; destruct (Hf p) as [->| ->]; try done; try (by intros [?|?]); try first [exact (G2 p)|exact (G3 p)|exact (G6 p)].
  - intros Hp q0 Hq0. apply (G4 p Hp). by apply Hq.
  - intros Hp Hw q0 Hq0. apply (G5 p Hp Hw). by apply Hq.
  - intros Hp Hr q0 Hq0. apply (G7 p Hp Hr). by apply Hq.
Qed.

Lemma weaker_clear v a e f v' : in_u 64 a → (HPS | a) → (HPS | e) → new_flags f = 0 → has f PAGE_EXEC = false → page_set_flags v a e f = Ret v' →
  weaker v v' ∧ same_rest v v' ∧ page_range a (e - a).
Proof.
  intros Hau Ha He H0 Hx Hs. destruct (page_set_flags_inv _ _ _ _ _ Hau Ha He Hs) as [Hr Hl].
  destruct (page_set_flags_ok v a (e - a) f Hr Hl) as (v1 & Hs1 & Hf & Ht & Hh & Hrest). replace (a + (e - a)) with e in Hs1 by lia.
  rewrite Hs1 in Hs. injection Hs as <-. rewrite Hx in Hh. split_and!; [|done|done]. split; intros p; rewrite ?Hf, ?Ht, ?Hh, ?H0; [destruct (in_pages _ _ _); auto| |by left].
  destruct (in_pages _ _ _); [|done]. unfold kept_tb. change (has 0 PAGE_WRITE) with false. by rewrite andb_false_r, andb_true_r.
Qed.

Lemma weaker_host v h : (∀ p, h_prot h p = h_prot (hvm v) p ∨ h_prot h p = None) → weaker v (with_host v h).
Proof. intros Hh. split; intros p; [by left|done|apply Hh]. Qed.

Lemma munmap_weaker v a n r v' : (HPS | a) → (HPS | n) → munmap v a n = (r, v') → weaker v v' ∧ same_rest v v'.
Proof.
  unfold munmap. intros Ha Hn. destruct (h_munmap (hvm v) a n) as [r0 h] eqn:E. intros [= <- <-]. split; [|done]. apply weaker_host. intros p.
  destruct (decide (r0 = 0)) as [->|Hr]; [rewrite (h_munmap_ok _ _ _ _ Ha Hn E); destruct (in_pages a n p); auto|]. by rewrite (h_munmap_fails _ _ _ _ _ E Hr); left.
Qed.

(** ** munmap *)

Lemma target_munmap_ok v start len r v' : in_u 64 start → target_munmap HPS v start len = Ret (r, v') → weaker v v' ∧ same_rest v v'.
Proof.
  intros Hs. unfold target_munmap. set (n := TARGET_PAGE_ALIGN len). pose proof (page_align_divides len) as Hn. pose proof (page_align_u64 len) as Hnu. fold n in Hn, Hnu.
  destruct (page_offset start =? 0) eqn:Ea; cbn [negb]; [|intros [= <- <-]; split; [by apply weaker_same|done]]. apply page_offset_aligned in Ea; [|done].
  destruct (n =? 0); [intros [= <- <-]; split; [by apply weaker_same|done]|].
  assert (HPS | u64 (start + n)) as He.
  { destruct (Z.divide_add_r _ _ _ Ea Hn) as [k Hk]. unfold wrap. rewrite Hk. exists (k mod 2 ^ 52). rewrite page_size. change (2 ^ 64) with (2 ^ 52 * 4096). by rewrite Zmult_mod_distr_r. }
  assert (in_u 64 (u64 (start + n))) as Heu by (by apply wrap_range). assert (u64 (start + n) ≤ 2 ^ 64 - 4096) as Hem.
  { destruct He as [k Hk]. rewrite page_size in Hk. unfold in_u in Heu. lia. }
  rewrite host_mask, host_align, mask_aligned, page_align_aligned by (done || by destruct Heu).
  unfold munmap_head. rewrite Z.ltb_irrefl. cbn [andb]. rewrite Z.ltb_irrefl. cbn [andb]. set (e := u64 (start + n)) in *.
  destruct (if start <? e then munmap (mmap_lock v) start (e - start) else (0, mmap_lock v)) as [ret v1] eqn:Eu.
  assert (weaker (mmap_lock v) v1 ∧ same_rest (mmap_lock v) v1) as [Hw1 Hr1].
  { destruct (start <? e); [apply (munmap_weaker (mmap_lock v) start (e - start) ret v1 Ea); [by apply Z.divide_sub_r|exact Eu]|]. injection Eu as <- <-. split; [by apply weaker_same|done]. }
  destruct (if ret =? 0 then page_set_flags v1 start e 0 else Ret v1) as [v2|] eqn:Es; [|done]. cbn [mbind outcome_bind]. intros [= <- <-].
  assert (weaker v1 v2 ∧ same_rest v1 v2) as [Hw2 Hr2].
  { destruct (ret =? 0); [|injection Es as <-; split; [by apply weaker_same|done]]. destruct (weaker_clear v1 start e 0 v2) as (? & ? & _); done. }
  split; [apply weaker_locked|apply same_rest_locked]; [by eapply weaker_trans|by eapply same_rest_trans].
Qed.

(** ** mmap *)

Lemma u64_aligned a : (HPS | a) → (HPS | u64 a) ∧ u64 a ≤ 2 ^ 64 - 4096.
Proof.
  intros [k ->]. assert (HPS | u64 (k * HPS)) as He.
  { unfold wrap. exists (k mod 2 ^ 52). rewrite page_size. change (2 ^ 64) with (2 ^ 52 * 4096). by rewrite Zmult_mod_distr_r. }
  split; [done|]. pose proof (wrap_range 64 (k * HPS) ltac:(done)) as Hu. unfold in_u in Hu. destruct He as [j Hj]. rewrite page_size in Hj at 2. lia.
Qed.

Lemma find_vma_weaker fuel v brk start size r v' : mmap_find_vma HPS fuel v brk start size = Ret (r, v') →
  weaker v v' ∧ mmap_lock_count v' = mmap_lock_count v.
Proof.
  unfold mmap_find_vma. destruct (if negb _ && _ then _ else Ret v) as [v1|] eqn:E1; [|done]. cbn [mbind outcome_bind].
  assert (weaker v v1 ∧ mmap_lock_count v1 = mmap_lock_count v) as [Hw Hl].
  { destruct (negb _ && _); [|injection E1 as <-; split; [by apply weaker_same|done]].
    destruct (mask_any (last_brk v)) as [Hu Hd]. destruct (weaker_clear v (Z.land (last_brk v) TARGET_PAGE_MASK) (TARGET_PAGE_ALIGN brk) PAGE_RESERVED v1 Hu Hd) as (? & (? & _) & _);
      [by apply page_align_divides|by vm_compute|by vm_compute|exact E1|split; assumption]. }
  destruct (find_free _ _ _ _ _ _) as [[a|]|]; [| |done]; cbn [mbind outcome_bind]; intros [= <- <-]; [destruct (Z.land start _ =? 0)|]; (split; [|exact Hl]); (eapply weaker_trans; [exact Hw|by apply weaker_same]).
Qed.

Lemma mmap_result v a n q fl fd off r v' : (HPS | n) → mmap v a n q fl fd off = (r, v') →
  match r with
  | Some r => (HPS | r) ∧ 0 ≤ r ∧ r + n ≤ 2 ^ 47 ∧ (has fl MAP_FIXED = true → r = a) ∧
      ∃ h, v' = with_host v h ∧ ∀ p, h_prot h p = if in_pages r n p then Some q else h_prot (hvm v) p
  | None => weaker v v' ∧ mmap_lock_count v' = mmap_lock_count v
  end.
Proof.
  intros Hn. unfold mmap. destruct (h_mmap (hvm v) a n q fl fd off) as [[r0|e] h] eqn:E; intros [= <- <-].
  - destruct (h_mmap_ok _ _ _ _ _ _ _ _ _ Hn E) as (Hr & H0 & Hmax & Hfix & Hh). split_and!; [done..|]. by exists h.
  - split; [|done]. split; intros p; [by left|done|]. cbn. destruct (h_mmap_fails _ _ _ _ _ _ _ _ _ E p) as [->|(_ & _ & ->)]; auto.
Qed.

(** What [target_mmap] does: nothing but taking away, or a mapping. *)
Definition mmap_effect v (n q : Z) (r : Z) v' : Prop :=
  weaker v v' ∧ mmap_lock_count v' = mmap_lock_count v ∨ ∃ v1, weaker v v1 ∧ mmap_lock_count v1 = mmap_lock_count v ∧ page_range r n ∧ remapped v1 r n q v'.

Lemma effect_locked v n q r v' : mmap_effect (mmap_lock v) n q r v' → mmap_effect v n q r (mmap_unlock v').
Proof.
  intros [[Hw Hl]|(v1 & Hw & Hl & Hr & Hm)].
  - left. split; [by apply weaker_locked|]. cbn in *. lia.
  - right. exists (mmap_unlock v1). split_and!; [by apply weaker_locked|cbn in *; lia|done|]. destruct Hm as [Hf Ht Hh (R1 & R2 & R3 & R4)]. split; [done..|].
    unfold same_rest in *. cbn in *. split_and!; [lia|done..].
Qed.

Lemma mapped_effect v n q r v1 h v' : (HPS | n) → (HPS | r) → in_u 64 r → prot_ok q → weaker v v1 → mmap_lock_count v1 = mmap_lock_count v →
  (∀ p, h_prot h p = if in_pages r n p then Some q else h_prot (hvm v1) p) →
  page_set_flags (with_host v1 h) r (r + n) (Z.lor q PAGE_VALID) = Ret v' → mmap_effect v n q r v'.
Proof.
  intros Hn Hra Hru Hq Hw Hl Hh Hs. right. exists v1. destruct (page_set_flags_inv _ _ _ _ _ Hru Hra (Z.divide_add_r _ _ _ Hra Hn) Hs) as [Hr Hlk].
  replace (r + n - r) with n in Hr by lia. destruct (set_flags_remapped v1 r n q h Hr Hq Hlk Hh) as (v2 & Hs2 & Hm). rewrite Hs2 in Hs. by injection Hs as <-.
Qed.

Lemma mmap_anywhere_effect fuel v brk start n q fl fd off r v' : in_u 64 off → (HPS | off) → in_u 64 n → (HPS | n) →
  mmap_anywhere HPS fuel v brk start n q fl fd off = Ret (r, v') → has fl MAP_FIXED = false →
  match r with
  | Some r => (HPS | r) ∧ 0 ≤ r ∧ r + n ≤ 2 ^ 47 ∧
      ∃ v1 h, weaker v v1 ∧ mmap_lock_count v1 = mmap_lock_count v ∧ v' = with_host v1 h ∧ ∀ p, h_prot h p = if in_pages r n p then Some q else h_prot (hvm v1) p
  | None => weaker v v' ∧ mmap_lock_count v' = mmap_lock_count v
  end.
Proof.
  intros Hou Ho Hnu Hn. unfold mmap_anywhere. rewrite !host_mask, (mask_aligned off) by done. replace (n + off - off) with n by lia. rewrite wrap_small by done.
  rewrite host_align, page_align_aligned; [|by destruct Hnu| |done]; [|destruct Hn as [k Hk]; rewrite page_size in Hk; unfold in_u in Hnu; lia].
  set (rs := Z.land start TARGET_PAGE_MASK). destruct (if rs =? 0 then Ret (Some 0, v) else _) as [[[ms|] v1]|] eqn:E1; [| |done]; cbn [mbind outcome_bind].
  - assert (weaker v v1 ∧ mmap_lock_count v1 = mmap_lock_count v) as [Hw Hl].
    { destruct (rs =? 0); [injection E1 as _ <-; split; [by apply weaker_same|done]|]. by eapply find_vma_weaker. }
    destruct (mmap v1 ms n q fl fd off) as [p v2] eqn:Em. intros [= <- <-] Hfl. pose proof (mmap_result _ _ _ _ _ _ _ _ _ Hn Em) as Hm. destruct p as [p|].
    + destruct Hm as (Hp & H0 & Hmax & _ & h & -> & Hh).
      replace (if has fl MAP_ANON then p else u64 (p + off - off)) with p; [|destruct (has fl MAP_ANON); [done|]; rewrite wrap_small; [lia|]; destruct Hnu; unfold in_u; lia].
      split_and!; [done..|]. by exists v1, h.
    + destruct Hm as [Hw2 Hl2]. split; [by eapply weaker_trans|congruence].
  - assert (weaker v v1 ∧ mmap_lock_count v1 = mmap_lock_count v) as [Hw Hl].
    { destruct (rs =? 0); [done|]. by eapply find_vma_weaker. }
    intros [= <- <-] _. split; [|exact Hl]. eapply weaker_trans; [exact Hw|by apply weaker_same].
Qed.

(** The recursion of [target_mmap] is one deep. *)
Lemma target_mmap_depth hps d fuel brk v start len prot flags fd offset :
  target_mmap_rec hps (S (S d)) fuel brk v start len prot flags fd offset = target_mmap hps fuel brk v start len prot flags fd offset.
Proof.
  assert (∀ rec1 rec2 v start len prot fd offset, target_mmap_body hps rec1 fuel brk v start len prot (Z.lor MAP_FIXED (Z.lor MAP_PRIVATE MAP_ANON)) fd offset =
    target_mmap_body hps rec2 fuel brk v start len prot (Z.lor MAP_FIXED (Z.lor MAP_PRIVATE MAP_ANON)) fd offset) as Hanon by done.
  unfold target_mmap. cbn [target_mmap_rec]. unfold target_mmap_body at 1 3. repeat (case_match; try done).
Qed.

Lemma target_mmap_effect fuel brk v start len prot flags fd offset r v' : in_u 64 start → in_u 64 offset → prot_ok prot →
  target_mmap HPS fuel brk v start len prot flags fd offset = Ret (r, v') → mmap_effect v (TARGET_PAGE_ALIGN len) prot r v'.
Proof.
  intros Hsu Hou Hq. unfold target_mmap. cbn [target_mmap_rec]. generalize (target_mmap_rec (H := H) HPS 1 fuel brk). intros rec. unfold target_mmap_body, mmap_done, mmap_fail.
  set (n := TARGET_PAGE_ALIGN len). pose proof (page_align_divides len) as Hn. pose proof (page_align_u64 len) as Hnu. fold n in Hn, Hnu.
  destruct (page_offset offset =? 0) eqn:Eo; cbn [negb]; [|intros [= <- <-]; apply effect_locked; left; split; [by apply weaker_same|done]]. apply page_offset_aligned in Eo; [|done].
  destruct (n =? 0); [intros [= <- <-]; apply effect_locked; left; split; [by apply weaker_same|done]|].
  destruct (has flags MAP_FIXED) eqn:Efl; cbn [negb].
  - destruct (page_offset start =? 0) eqn:Ea; cbn [negb]; [|intros [= <- <-]; apply effect_locked; left; split; [by apply weaker_same|done]]. apply page_offset_aligned in Ea; [|done].
    destruct (existsb _ _); [intros [= <- <-]; apply effect_locked; left; split; [by apply weaker_same|done]|].
    rewrite host_mask. fold (page_offset offset). fold (page_offset start). rewrite (proj1 (Z.eqb_eq _ _) (proj2 (page_offset_aligned offset Hou) Eo)), (proj1 (Z.eqb_eq _ _) (proj2 (page_offset_aligned start Hsu) Ea)).
    rewrite Z.eqb_refl, andb_false_r. destruct (u64_aligned (start + n) (Z.divide_add_r _ _ _ Ea Hn)) as [He Hem]. pose proof (wrap_range 64 (start + n) ltac:(done)) as [He0 _].
    rewrite mask_aligned, host_align, page_align_aligned by done. unfold mmap_fixed, mmap_fixed_start. rewrite Z.ltb_irrefl. cbn [negb]. unfold mmap_fixed_end. rewrite Z.ltb_irrefl. cbn [negb].
    set (e := u64 (start + n)) in *. destruct (Z.ltb_spec start e) as [Hlt|Hge].
    + assert (e = start + n) as Hen.
      { subst e. destruct (decide (start + n < 2 ^ 64)); [apply wrap_small; unfold in_u in *; lia|]. exfalso. unfold in_u in *. replace (u64 (start + n)) with (start + n - 2 ^ 64) in Hlt by (apply (Z.mod_unique _ _ 1); lia). lia. }
      rewrite Hen. replace (start + n - start) with n by lia. set (o1 := if has flags MAP_ANON then 0 else _). destruct (mmap (mmap_lock v) start n prot flags fd o1) as [p v1] eqn:Em.
      pose proof (mmap_result _ _ _ _ _ _ _ _ _ Hn Em) as Hm. destruct p as [p|]; cbn [bool_decide negb]; [|rewrite bool_decide_false by (by intros [??]); cbn [negb]; intros [= <- <-]; apply effect_locked; by left].
      rewrite bool_decide_true by done. cbn [negb]. destruct Hm as (_ & _ & _ & Hfix & h & -> & Hh). rewrite (Hfix Efl) in Hh. destruct (page_set_flags _ _ _ _) as [v2|] eqn:Es; [|done].
      cbn [mbind outcome_bind]. intros [= <- <-]. apply effect_locked. eapply (mapped_effect (mmap_lock v) n prot start (mmap_lock v) h v2); try done. by apply weaker_same.
    + unfold page_set_flags. rewrite (proj2 (Z.ltb_ge start e)) by done. destruct (e <=? _); done.
  - destruct (mmap_anywhere _ _ _ _ _ _ _ _ _ _) as [[p v1]|] eqn:Em; [|done]. cbn [mbind outcome_bind]. apply mmap_anywhere_effect in Em; [|done..]. destruct p as [p|]; [|intros [= <- <-]; apply effect_locked; by left].
    destruct Em as (Hp & H0 & Hmax & v2 & h & Hw & Hl & -> & Hh). destruct Hnu as [Hn0 _]. rewrite wrap_small by (unfold in_u; lia). destruct (page_set_flags _ _ _ _) as [v3|] eqn:Es; [|done].
    cbn [mbind outcome_bind]. intros [= <- <-]. apply effect_locked. eapply (mapped_effect (mmap_lock v) n prot p v2 h v3); try done. unfold in_u. lia.
Qed.
End spec.
