(* ===== verification/PagesInv.v ===== *)
(** * What the protection of pages guarantees

    Faults on protected pages, the link of a new translated block, the check
    of a range; then the guarantee for every sequence of these operations, and
    two consequences of the flags that go wrong. *)

From S2P Require Import Prelude Pages PagesSpec.

(** ** Flags *)

Lemma or_write_bits f : let g := Z.lor f PAGE_WRITE in
  has g PAGE_WRITE = true ∧ has g PAGE_READ = has f PAGE_READ ∧ has g PAGE_EXEC = has f PAGE_EXEC ∧ has g PAGE_VALID = has f PAGE_VALID ∧
  has g PAGE_WRITE_ORG = has f PAGE_WRITE_ORG ∧ has g PAGE_EXEC_ORG = has f PAGE_EXEC_ORG.
Proof. intros g. subst g. bits. rewrite !Z.lor_spec. change PAGE_WRITE with (2 ^ 1). rewrite !Z.pow2_bits_eqb by done. cbn [Z.eqb Pos.eqb]. rewrite !orb_false_r, orb_true_r. done. Qed.

Lemma not_write_bits f : let g := Z.land f (Z.lnot PAGE_WRITE) in
  has g PAGE_WRITE = false ∧ has g PAGE_READ = has f PAGE_READ ∧ has g PAGE_EXEC = has f PAGE_EXEC ∧ has g PAGE_VALID = has f PAGE_VALID ∧
  has g PAGE_WRITE_ORG = has f PAGE_WRITE_ORG ∧ has g PAGE_EXEC_ORG = has f PAGE_EXEC_ORG.
Proof.
  intros g. subst g. bits. rewrite !Z.land_spec, !Z.lnot_spec by done. change PAGE_WRITE with (2 ^ 1). rewrite !Z.pow2_bits_eqb by done. cbn [Z.eqb Pos.eqb negb].
  rewrite !andb_true_r, andb_false_r. done.
Qed.

Lemma page_bits_bits f : has (Z.land f PAGE_BITS) PROT_READ = has f PAGE_READ ∧ has (Z.land f PAGE_BITS) PROT_WRITE = has f PAGE_WRITE ∧
  has (Z.land f PAGE_BITS) PROT_EXEC = has f PAGE_EXEC.
Proof.
  change PROT_READ with PAGE_READ. change PROT_WRITE with PAGE_WRITE. change PROT_EXEC with PAGE_EXEC. bits. rewrite !Z.land_spec. change PAGE_BITS with (Z.ones 3).
  rewrite !Z.ones_spec_low by lia. by rewrite !andb_true_r.
Qed.

(** What is left of a protection without its bit for writes. *)
Lemma read_only_subset f q : has f PAGE_EXEC = false → (has f PAGE_READ = true → has q PROT_READ = true) →
  Z.land (Z.land (Z.land f PAGE_BITS) (Z.lnot PAGE_WRITE)) q = Z.land (Z.land f PAGE_BITS) (Z.lnot PAGE_WRITE).
Proof.
  change PROT_READ with PAGE_READ. bits. intros Hx Hr. apply Z.bits_inj'. intros n Hn. rewrite !Z.land_spec, Z.lnot_spec by done.
  change PAGE_BITS with (Z.ones 3). change PAGE_WRITE with (2 ^ 1). rewrite Z.pow2_bits_eqb by done.
  destruct (decide (n < 3)); [|rewrite Z.ones_spec_high by lia; by rewrite andb_false_r]. assert (n = 0 ∨ n = 1 ∨ n = 2) as [->|[->| ->]] by lia.
  - destruct (Z.testbit f 0); [by rewrite Hr|done].
  - cbn [Z.eqb Pos.eqb negb]. by rewrite andb_false_r.
  - by rewrite Hx.
Qed.

Section inv.
Context {H : Type} {HV : HostVM H} {HL : HostVMLaws H}.
Implicit Type v : vm H.

(** ** One page *)

Lemma in_page_one a p : in_u 64 a → in_pages (Z.land a TARGET_PAGE_MASK) HPS p = (p =? page_index a).
Proof. intros Ha. destruct (in_pages_one a p) as [|[]]; [by destruct Ha|done|done]. Qed.

Lemma mask_divides a : in_u 64 a → (HPS | Z.land a TARGET_PAGE_MASK).
Proof. intros Ha. rewrite land_page_mask by done. by exists (a / 4096). Qed.

Lemma page_index_mask a : in_u 64 a → page_index (Z.land a TARGET_PAGE_MASK) = page_index a.
Proof.
  intros Ha. rewrite land_page_mask by done. unfold page_index, TARGET_PAGE_BITS. rewrite !Z.shiftr_div_pow2 by done. change (2 ^ 12) with 4096. by rewrite Z.div_mul.
Qed.

Lemma pages_of_page a : in_u 64 a → pages_of (Z.land a TARGET_PAGE_MASK) HPS = [page_index a].
Proof. intros Ha. rewrite pages_one by (by apply mask_divides). by rewrite page_index_mask. Qed.

(** The flags and the protection of the page of [a], everything else as before. *)
Record page_changed v (a f : Z) (tb : bool) v' : Prop := mk_page_changed {
  pc_flags : ∀ p, pflags v' p = if p =? page_index a then f else pflags v p;
  pc_tb : ∀ p, first_tb v' p = if p =? page_index a then tb else first_tb v p;
  pc_host : ∀ p, p ≠ page_index a → h_prot (hvm v') p = h_prot (hvm v) p;
  pc_rest : same_rest v v'
}.

(** A page keeps its guarantees if the changed one has them. *)
Lemma guarded_changed v a f tb v' : guarded v → page_changed v a f tb v' → let p := page_index a in
  has f PAGE_EXEC = false → (has f PAGE_WRITE = true → has f PAGE_WRITE_ORG = true) →
  (has f PAGE_WRITE_ORG = true ∨ has f PAGE_EXEC_ORG = true → has f PAGE_VALID = true) →
  (has f PAGE_EXEC_ORG = true → host_lacks v' p PROT_EXEC) → (has f PAGE_VALID = true → has f PAGE_WRITE = false → host_lacks v' p PROT_WRITE) →
  (tb = true → has f PAGE_WRITE = false) →
  (has f PAGE_VALID = true → has f PAGE_READ = true → ∀ q, h_prot (hvm v') p = Some q → has q PROT_READ = true) → guarded v'.
Proof.
  intros [G1 G2 G3 G4 G5 G6 G7] [Hf Ht Hh _] p C1 C2 C3 C4 C5 C6 C7.
  split; intros x; rewrite ?Hf, ?Ht; (destruct (Z.eqb_spec x (page_index a)) as [->|Hx]; [done|]); unfold host_lacks; rewrite ?(Hh x Hx);
    [apply G1|apply G2|apply G3|apply G4|apply G5|apply G6|apply G7].
Qed.

(** A system call on one page that may fail. *)
Lemma mprotect_page v a q : in_u 64 a → let v' := (mprotect v (Z.land a TARGET_PAGE_MASK) HPS q).2 in
  page_changed v a (pflags v (page_index a)) (first_tb v (page_index a)) v' ∧
  (h_prot (hvm v') (page_index a) = Some q ∨ h_prot (hvm v') (page_index a) = h_prot (hvm v) (page_index a)) ∧
  (∀ q', h_prot (hvm v) (page_index a) = Some q' → Z.land q q' = q → h_prot (hvm v') (page_index a) = Some q).
Proof.
  intros Ha. unfold mprotect. destruct (h_mprotect (hvm v) (Z.land a TARGET_PAGE_MASK) HPS q) as [r h] eqn:E. cbn [snd].
  assert (HPS | HPS) as Hd by done. pose proof (mask_divides a Ha) as Hm.
  assert (∀ p, h_prot h p = h_prot (hvm v) p ∨ (p =? page_index a) = true ∧ h_prot h p = Some q) as Hp.
  { intros p. rewrite <- (in_page_one a p Ha). destruct (decide (r = 0)) as [->|Hr].
    - rewrite (h_mprotect_ok _ _ _ _ _ Hm Hd E). destruct (in_pages _ _ _); auto.
    - destruct (h_mprotect_fails _ _ _ _ _ _ E Hr p) as [?|(? & _ & ?)]; auto. }
  split_and!.
  - split; [intros p; cbn; by destruct (Z.eqb_spec p (page_index a)) as [->|]..| |done]. intros p Hne. cbn. destruct (Hp p) as [?|[He _]]; [done|]. apply Z.eqb_eq in He. done.
  - cbn. destruct (Hp (page_index a)) as [?|[_ ?]]; auto.
  - cbn. intros q' Hq' Hs. pose proof (h_mprotect_reduces (hvm v) (Z.land a TARGET_PAGE_MASK) HPS q Hm Hd) as Hred. rewrite E in Hred. cbn [fst] in Hred.
    rewrite Hred in E; [rewrite (h_mprotect_ok _ _ _ _ _ Hm Hd E), in_page_one, Z.eqb_refl by done; done|].
    intros p Hpp. rewrite in_page_one in Hpp by done. apply Z.eqb_eq in Hpp as ->. by exists q'.
Qed.

(** ** Faults on writes *)

Lemma page_unprotect_ok v a : in_u 64 a → let f := page_get_flags v a in let '(r, v') := page_unprotect HPS v a in
  (r = if has f PAGE_WRITE_ORG then 1 else 0) ∧ (guarded v → guarded v') ∧ same_rest v v' ∧
  (has f PAGE_WRITE_ORG = true → has (page_get_flags v' a) PAGE_WRITE = true) ∧
  (has f PAGE_WRITE_ORG = true → guarded v → first_tb v' (page_index a) = false) ∧
  ∀ p b, p ≠ page_index a ∨ b ≠ PAGE_WRITE → b ∈ [PAGE_READ; PAGE_WRITE; PAGE_EXEC; PAGE_VALID; PAGE_WRITE_ORG; PAGE_EXEC_ORG] → has (pflags v' p) b = has (pflags v p) b.
Proof.
  intros Ha f. unfold page_unprotect. change (page_get_flags (mmap_lock v) a) with f. destruct (has f PAGE_WRITE_ORG) eqn:Eo.
  2: { split_and!; [done| |apply same_rest_locked, same_rest_refl|done|done|done]. intros G. by eapply guarded_ext; [..|exact G]. }
  destruct (has f PAGE_WRITE) eqn:Ew.
  { split_and!; [done| |apply same_rest_locked, same_rest_refl|done| |done]; [intros G; by eapply guarded_ext; [..|exact G]|].
    intros _ G. destruct (first_tb v (page_index a)) eqn:Et; [|by cbn; rewrite Et]. apply (gd_tb _ G) in Et. fold (page_get_flags v a) in Et. fold f in Et. congruence. }
  rewrite host_mask, pages_of_page by done. cbn [foldl]. set (g := Z.lor f PAGE_WRITE).
  set (v1 := tb_invalidate_phys_page _ _). assert (page_changed (mmap_lock v) a g false v1) as [Hf1 Ht1 Hh1 Hr1].
  { subst v1. unfold tb_invalidate_phys_page, page_get_flags. rewrite page_index_shift.
    split; [intros p; cbn; unfold upd; by destruct (Z.eqb_spec p (page_index a)) as [->|]; rewrite ?Z.eqb_refl..|done|done]. }
  set (q := Z.land (Z.lor 0 _) PAGE_BITS). assert (q = Z.land g PAGE_BITS) as Hq by (subst q; cbn; unfold upd; by rewrite Z.eqb_refl).
  destruct (mprotect_page v1 a q Ha) as ([Hf2 Ht2 Hh2 Hr2] & Hp2 & _). set (v2 := (mprotect v1 _ _ q).2) in *.
  destruct (or_write_bits f) as (B1 & B2 & B3 & B4 & B5 & B6). fold g in B1, B2, B3, B4, B5, B6. destruct (page_bits_bits g) as (Q1 & Q2 & Q3). rewrite <- Hq in Q1, Q2, Q3.
  assert (page_changed v a g false (mmap_unlock v2)) as Hc.
  { split; [intros p; cbn; rewrite Hf2, !Hf1, Z.eqb_refl; by destruct (p =? _)|intros p; cbn; rewrite Ht2, !Ht1, Z.eqb_refl; by destruct (p =? _)| |].
    - intros p Hp. cbn. rewrite Hh2, Hh1 by done. done.
    - apply same_rest_locked. by eapply same_rest_trans. }
  assert (h_prot (hvm v1) (page_index a) = h_prot (hvm v) (page_index a)) as Hv1 by (subst v1; done).
  split_and!; [done| |by destruct Hc| | |].
  - intros G. pose proof G as [G1 G2 G3 G4 G5 G6 G7]. pose proof (G1 (page_index a)) as G1'. fold (page_get_flags v a) in G1'. fold f in G1'.
    assert (has f PAGE_VALID = true) as Hv by (apply G3; by left).
    apply (guarded_changed v a g false _ G Hc); try congruence.
    + intros Hx qq. cbn. rewrite B6 in Hx. destruct Hp2 as [->| ->]; [intros [= <-]; congruence|]. rewrite Hv1. by apply G4.
    + intros _ Hr qq. cbn. rewrite B2 in Hr. destruct Hp2 as [->| ->]; [intros [= <-]; congruence|]. rewrite Hv1. by apply G7.
  - intros _. unfold page_get_flags. destruct Hc as [-> _ _ _]. by rewrite Z.eqb_refl.
  - intros _ _. destruct Hc as [_ -> _ _]. by rewrite Z.eqb_refl.
  - intros p b Hpb Hb. destruct Hc as [-> _ _ _]. destruct (Z.eqb_spec p (page_index a)) as [->|]; [|done]. destruct Hpb as [?|Hpb]; [done|].
    fold (page_get_flags v a). fold f. repeat (apply elem_of_cons in Hb as [->|Hb]; [done || congruence|]). by apply elem_of_nil in Hb.
Qed.

(** ** New blocks *)

Lemma tb_page_add_ok v a : in_u 64 a → (HPS | a) → guarded v → guarded (tb_page_add HPS v a) ∧ first_tb (tb_page_add HPS v a) (page_index a) = true ∧
  same_rest v (tb_page_add HPS v a) ∧ ∀ p, has (pflags (tb_page_add HPS v a) p) PAGE_EXEC_ORG = has (pflags v p) PAGE_EXEC_ORG.
Proof.
  intros Ha Hal G. pose proof G as [G1 G2 G3 G4 G5 G6 G7]. unfold tb_page_add. set (f := pflags v (page_index a)). set (v0 := with_page v _ _ true).
  assert (pflags v0 (page_index a) = f) as Hf0 by (subst v0; cbn; unfold upd; by rewrite Z.eqb_refl). rewrite Hf0.
  assert (page_changed v a f true v0) as C0.
  { subst v0. split; [intros p; cbn; unfold upd; by destruct (p =? _)..|done|done]. }
  destruct (has f PAGE_WRITE) eqn:Ew.
  2: { split_and!; [|destruct C0 as [_ -> _ _]; by rewrite Z.eqb_refl|by destruct C0|].
    - apply (guarded_changed v a f true v0 G C0); unfold f; try done; [apply G2|apply G3|apply G4|apply G5|apply G7].
    - intros p. destruct C0 as [-> _ _ _]. destruct (Z.eqb_spec p (page_index a)) as [->|]; done. }
  rewrite host_mask, pages_of_page by done. cbn [foldl]. rewrite Hf0. set (g := Z.land f (Z.lnot PAGE_WRITE)). set (v1 := with_page v0 _ g _).
  assert (page_changed v a g true v1) as [Hf1 Ht1 Hh1 Hr1].
  { subst v1 v0. split; [intros p; cbn; unfold upd; rewrite ?Z.eqb_refl; by destruct (p =? _)..|done|done]. }
  change (Z.lor 0 f) with f. set (q := Z.land (Z.land f PAGE_BITS) (Z.lnot PAGE_WRITE)). destruct (mprotect_page v1 a q Ha) as ([Hf2 Ht2 Hh2 Hr2] & Hp2 & Hs2). set (v2 := (mprotect v1 _ _ q).2) in *.
  destruct (not_write_bits f) as (B1 & B2 & B3 & B4 & B5 & B6). fold g in B1, B2, B3, B4, B5, B6.
  destruct (not_write_bits (Z.land f PAGE_BITS)) as (Q1 & Q2 & Q3 & _). fold q in Q1, Q2, Q3. destruct (page_bits_bits f) as (F1 & F2 & F3).
  assert (page_changed v a g true v2) as C2.
  { split; [intros p; rewrite Hf2, !Hf1, Z.eqb_refl; by destruct (p =? _)|intros p; rewrite Ht2, !Ht1, Z.eqb_refl; by destruct (p =? _)| |by eapply same_rest_trans]. intros p Hp. rewrite Hh2, Hh1 by done. done. }
  assert (h_prot (hvm v1) (page_index a) = h_prot (hvm v) (page_index a)) as Hv1 by (subst v1 v0; done).
  assert (has f PAGE_VALID = true) as Hv by (apply G3; left; by apply G2).
  assert (h_prot (hvm v2) (page_index a) = None ∨ h_prot (hvm v2) (page_index a) = Some q) as Hhost.
  { destruct (h_prot (hvm v) (page_index a)) as [q'|] eqn:Eq; [right; apply (Hs2 q'); [done|]; apply read_only_subset; [apply G1|intros Hr; by apply (G7 (page_index a))]|]. rewrite Hv1 in Hp2. destruct Hp2; auto. }
  split_and!; [|destruct C2 as [_ -> _ _]; by rewrite Z.eqb_refl|by destruct C2|].
  - apply (guarded_changed v a g true v2 G C2).
    + rewrite B3. apply G1.
    + congruence.
    + intros _. congruence.
    + intros _ qq. destruct Hhost as [->| ->]; [done|]. intros [= <-]. change PROT_EXEC with PAGE_EXEC. rewrite Q3. change PAGE_EXEC with PROT_EXEC. rewrite F3. apply G1.
    + intros _ _ qq. destruct Hhost as [->| ->]; [done|]. intros [= <-]. done.
    + done.
    + intros _ Hr qq. destruct Hhost as [->| ->]; [done|]. intros [= <-]. rewrite B2 in Hr. change PROT_READ with PAGE_READ. rewrite Q2. change PAGE_READ with PROT_READ. by rewrite F1.
  - intros p. destruct C2 as [-> _ _ _]. destruct (Z.eqb_spec p (page_index a)) as [->|]; [exact B6|done].
Qed.

Lemma link_pages_ok v pc p2 : in_u 64 pc → p2 = -1 ∨ in_u 64 p2 ∧ (HPS | p2) → guarded v → guarded (link_pages HPS v pc p2) ∧ same_rest v (link_pages HPS v pc p2).
Proof.
  intros Hpc Hp2 G. unfold link_pages. assert (in_u 64 (Z.land pc TARGET_PAGE_MASK)) as Hm.
  { rewrite land_page_mask by done. unfold in_u in *. pose proof (Z.mul_div_le pc 4096 ltac:(done)). pose proof (Z.div_pos pc 4096 ltac:(lia) ltac:(lia)). lia. }
  destruct (tb_page_add_ok v _ Hm (mask_divides pc Hpc) G) as (G1 & _ & R1 & _). destruct (Z.eqb_spec p2 (-1)) as [->|Hne]; [done|]. destruct Hp2 as [?|[Hu Hd]]; [done|].
  destruct (tb_page_add_ok _ p2 Hu Hd G1) as (G2 & _ & R2 & _). split; [done|by eapply same_rest_trans].
Qed.

(** ** Checks of ranges *)

(** What a page must have for an access of the kind [flags]. *)
Definition page_allows (flags f : Z) : bool :=
  has f PAGE_VALID && (negb (has flags PAGE_READ) || has f PAGE_READ) && (negb (has flags PAGE_WRITE) || has f PAGE_WRITE_ORG).

Lemma check_pages_ok flags ps v : Forall (λ p, 0 ≤ p < 2 ^ 52) ps → let '(r, v') := check_pages HPS v flags ps in
  (r = if forallb (λ p, page_allows flags (pflags v p)) ps then 0 else -1) ∧ (guarded v → guarded v') ∧ same_rest v v' ∧
  (r = 0 → has flags PAGE_WRITE = true → Forall (λ p, has (pflags v' p) PAGE_WRITE = true) ps) ∧
  (∀ p, has (pflags v p) PAGE_WRITE = true → has (pflags v' p) PAGE_WRITE = true).
Proof.
  revert v. induction ps as [|p ps IH]; intros v Hps; [done|]. apply Forall_cons in Hps as [Hp Hps]. cbn [check_pages forallb]. unfold page_allows at 1.
  destruct (has (pflags v p) PAGE_VALID) eqn:Ev; cbn [negb andb]; [|done].
  destruct (has flags PAGE_READ && negb (has (pflags v p) PAGE_READ)) eqn:Er.
  { apply andb_true_iff in Er as [-> Er]. apply negb_true_iff in Er as ->. done. }
  assert (negb (has flags PAGE_READ) || has (pflags v p) PAGE_READ = true) as -> by (destruct (has flags PAGE_READ), (has (pflags v p) PAGE_READ); done).
  cbn [andb]. destruct (has flags PAGE_WRITE) eqn:Ew; cbn [negb orb andb].
  2: { specialize (IH v Hps). destruct (check_pages HPS v flags ps) as [r v']. destruct IH as (I1 & I2 & I3 & I4 & I5). split_and!; [done..| |done]. congruence. }
  destruct (has (pflags v p) PAGE_WRITE_ORG) eqn:Eo; cbn [negb andb]; [|done]. destruct (has (pflags v p) PAGE_WRITE) eqn:Ewp; cbn [negb].
  { specialize (IH v Hps). destruct (check_pages HPS v flags ps) as [r v']. destruct IH as (I1 & I2 & I3 & I4 & I5). split_and!; [done..| |done]. intros Hr _. constructor; [by apply I5|by apply I4]. }
  assert (in_u 64 (Z.shiftl p TARGET_PAGE_BITS)) as Hu.
  { unfold TARGET_PAGE_BITS, in_u. rewrite Z.shiftl_mul_pow2 by done. change (2 ^ 12) with 4096. lia. }
  pose proof (page_unprotect_ok v _ Hu) as Hun. unfold page_get_flags in Hun. rewrite page_index_shift, Eo in Hun. destruct (page_unprotect HPS v _) as [r1 v1]. destruct Hun as (-> & U1 & U2 & U3 & U4 & U5).
  specialize (IH v1 Hps). destruct (check_pages HPS v1 flags ps) as [r v']. destruct IH as (I1 & I2 & I3 & I4 & I5).
  assert (∀ x, has (pflags v x) PAGE_WRITE = true → has (pflags v1 x) PAGE_WRITE = true) as Hmon.
  { intros x Hx. destruct (decide (x = p)) as [->|Hne]; [by apply U3|]. rewrite U5; [done|by left|set_solver]. }
  split_and!; [|tauto|by eapply same_rest_trans| |auto].
  - rewrite I1. replace (forallb (λ p, page_allows flags (pflags v1 p)) ps) with (forallb (λ p, page_allows flags (pflags v p)) ps); [done|].
    clear -U5. induction ps as [|x ps IH]; [done|]. cbn. rewrite IH. f_equal. unfold page_allows. rewrite !U5; [done|right; done|set_solver|right; done|set_solver|right; done|set_solver].
  - intros Hr _. constructor; [apply I5; by apply U3|by apply I4].
Qed.

(** ** Every sequence of operations *)

(** A failing [mprotect] is not a step: the host may have changed the
    protection of a part of the range, the flags are those of before. *)
Inductive vm_step : vm H → vm H → Prop :=
| step_mprotect v start len prot v' : in_u 64 start → target_mprotect HPS v start len prot = Ret (0, v') → vm_step v v'
| step_mmap fuel brk v start len prot flags fd offset r v' : in_u 64 start → in_u 64 offset → prot_ok prot →
    target_mmap HPS fuel brk v start len prot flags fd offset = Ret (r, v') → vm_step v v'
| step_munmap v start len r v' : in_u 64 start → target_munmap HPS v start len = Ret (r, v') → vm_step v v'
| step_link v pc p2 : in_u 64 pc → p2 = -1 ∨ in_u 64 p2 ∧ (HPS | p2) → vm_step v (link_pages HPS v pc p2)
| step_write_fault v a : in_u 64 a → vm_step v (page_unprotect HPS v a).2
| step_check v start len flags r v' : 0 ≤ start → 0 ≤ len → start + len ≤ 2 ^ 64 - 4096 → page_check_range HPS v start len flags = Ret (r, v') → vm_step v v'.

(** Nothing is known about any page yet. *)
Definition vm_start (h : H) : vm H := mk_vm (λ _, 0) (λ _, false) 0 0 0x40000000 0 h.

Lemma guarded_start h : guarded (vm_start h).
Proof. split; intros p; unfold host_lacks; cbn; try done. by intros [?|?]. Qed.

Lemma range_pages start len : 0 ≤ start < 2 ^ 48 → 0 < len → start + len ≤ 2 ^ 64 - 4096 →
  let e := TARGET_PAGE_ALIGN (u64 (start + len)) in let s := Z.land start TARGET_PAGE_MASK in
  u64 (e - s) = e - s ∧ (HPS | s) ∧ (HPS | e - s) ∧ ∀ p, in_pages s (e - s) p = true ↔ p * 4096 < start + len ∧ start < (p + 1) * 4096.
Proof.
  intros Hs Hl Hm e s. assert (in_u 64 start) as Hsu by (unfold in_u; lia). destruct (mask_any start) as [_ Hd]. fold s in Hd. pose proof (page_align_divides (u64 (start + len))) as Hde. fold e in Hde.
  assert (s = start / 4096 * 4096) as Hs' by (by apply land_page_mask).
  assert (e = (start + len + 4095) / 4096 * 4096) as He' by (subst e; rewrite wrap_small by (unfold in_u; lia); apply page_align_div; lia).
  pose proof (Z.div_mod start 4096 ltac:(done)). pose proof (Z.mod_pos_bound start 4096 ltac:(done)). pose proof (Z.div_mod (start + len + 4095) 4096 ltac:(done)). pose proof (Z.mod_pos_bound (start + len + 4095) 4096 ltac:(done)).
  split_and!; [apply wrap_small; unfold in_u; lia|done|by apply Z.divide_sub_r|]. intros p. unfold in_pages. rewrite page_size, andb_true_iff, Z.leb_le, Z.ltb_lt. lia.
Qed.

Lemma page_check_range_ok v start len flags : 0 ≤ start < 2 ^ 48 → 0 < len → start + len ≤ 2 ^ 64 - 4096 →
  ∃ r v', page_check_range HPS v start len flags = Ret (r, v') ∧ (r = 0 ∨ r = -1) ∧
    (r = 0 ↔ ∀ p, p * 4096 < start + len → start < (p + 1) * 4096 → page_allows flags (pflags v p) = true) ∧ (guarded v → guarded v') ∧ same_rest v v' ∧
    (r = 0 → has flags PAGE_WRITE = true → ∀ p, p * 4096 < start + len → start < (p + 1) * 4096 → has (pflags v' p) PAGE_WRITE = true).
Proof.
  intros Hs Hl Hm. unfold page_check_range. change (Z.shiftl 1 _) with (2 ^ 48). rewrite (proj2 (Z.ltb_lt start _)) by lia. cbn [c_assert mbind outcome_bind].
  rewrite (proj2 (Z.eqb_neq len 0)) by lia. rewrite (wrap_small 64 (start + len - 1)) by (unfold in_u; lia). rewrite (proj2 (Z.ltb_ge (start + len - 1) start)) by lia.
  destruct (range_pages start len Hs Hl Hm) as (-> & Hd & Hde & Hin). set (e := TARGET_PAGE_ALIGN _) in *. set (s := Z.land start _) in *.
  assert (Forall (λ p, 0 ≤ p < 2 ^ 52) (pages_of s (e - s))) as Hall by (apply Forall_forall; intros p Hp; apply elem_pages in Hp; [|done..]; apply Hin in Hp; lia).
  pose proof (check_pages_ok flags _ v Hall) as Hc. destruct (check_pages HPS v flags (pages_of s (e - s))) as [r v']. destruct Hc as (Hr & HG & HR & HW & _).
  exists r, v'. assert (forallb (λ p, page_allows flags (pflags v p)) (pages_of s (e - s)) = true ↔ ∀ p, p * 4096 < start + len → start < (p + 1) * 4096 → page_allows flags (pflags v p) = true) as Hiff.
  { rewrite forallb_forall. clear -Hin Hd Hde. split; intros Hf p.
    - intros H1 H2. apply Hf, list_elem_of_In, elem_pages; [done..|]. by apply Hin.
    - intros Hp. apply list_elem_of_In, elem_pages in Hp; [|done..]. apply Hin in Hp as [H1 H2]. by apply Hf. }
  split_and!; [done|rewrite Hr; destruct (forallb _ _); auto| |done|done|].
  - rewrite Hr, <- Hiff. destruct (forallb _ _); split; done.
  - intros H0 Hw p Hp1 Hp2. specialize (HW H0 Hw). rewrite Forall_forall in HW. apply HW, elem_pages; [done..|]. by apply Hin.
Qed.

Lemma guarded_step v v' : vm_step v v' → guarded v → guarded v'.
Proof.
  intros Hst G. destruct Hst as [v start len prot v' Hs He|fuel brk v start len prot flags fd offset r v' Hs Ho Hq He|v start len r v' Hs He|v pc p2 Hpc Hp2|v a Ha|v start len flags r v' Hs Hl Hmax He].
  - destruct (target_mprotect_ok _ _ _ _ _ Hs He) as [[-> _]|[_ Hm]]; [done|]. eapply guarded_remapped; [|exact G|exact Hm]. apply land_prot.
  - destruct (target_mmap_effect _ _ _ _ _ _ _ _ _ _ _ Hs Ho Hq He) as [[Hw _]|(v1 & Hw & _ & _ & Hm)]; [by eapply guarded_weaker|].
    eapply guarded_remapped; [exact Hq| |exact Hm]. by eapply guarded_weaker.
  - destruct (target_munmap_ok _ _ _ _ _ Hs He) as [Hw _]. by eapply guarded_weaker.
  - by apply link_pages_ok.
  - pose proof (page_unprotect_ok v a Ha) as Hu. destruct (page_unprotect HPS v a) as [r v']. by apply Hu.
  - destruct (decide (start < 2 ^ 48 ∧ 0 < len)) as [[Hs48 Hl0]|Hno].
    + destruct (page_check_range_ok v start len flags ltac:(lia) Hl0 Hmax) as (r1 & v1 & He1 & _ & _ & HG & _). rewrite He1 in He. injection He as _ <-. by apply HG.
    + revert He. unfold page_check_range. change (Z.shiftl 1 _) with (2 ^ 48). destruct (Z.ltb_spec start (2 ^ 48)); [|done]. cbn [c_assert mbind outcome_bind].
      rewrite (proj2 (Z.eqb_eq len 0)) by lia. by intros [= _ <-].
Qed.

Lemma guarded_steps v v' : rtc vm_step v v' → guarded v → guarded v'.
Proof. induction 1; eauto using guarded_step. Qed.


(** C27.  [target_mprotect] in every case: a start that is not the start of a
    page or a range that wraps around is an error and changes nothing; an error
    of the host is passed on and the flags stay; otherwise exactly the pages of
    the range get the new flags, emulation is needed where execution was asked
    for, the host protection has everything but execution, and blocks are
    dropped from pages that become writable. *)
Theorem target_mprotect_correct v start len prot (n := TARGET_PAGE_ALIGN len) (q := Z.land prot rwx) : in_u 64 start → 0 ≤ mmap_lock_count v →
  if negb (start mod 4096 =? 0) || (2 ^ 64 <=? start + n) then target_mprotect HPS v start len prot = Ret (- EINVAL, v)
  else if n =? 0 then target_mprotect HPS v start len prot = Ret (0, v)
  else match h_mprotect (hvm v) start n q with
       | (0, _) =>
           if 2 ^ 48 <? start + n then target_mprotect HPS v start len prot = Stop Aborted
           else ∃ v', target_mprotect HPS v start len prot = Ret (0, v') ∧ remapped v start n q v' ∧
             ∀ a, in_pages start n (page_index a) = true → need_emulation_nolock v' a = has prot PROT_EXEC
       | (r, h) => ∃ v', target_mprotect HPS v start len prot = Ret (r, v') ∧ pflags v' = pflags v ∧ first_tb v' = first_tb v ∧ hvm v' = h ∧ same_rest v v'
       end.
Proof.
  intros Hs Hl. pose proof (page_align_divides len) as Hn. pose proof (page_align_u64 len) as Hnu. fold n in Hn, Hnu. rewrite <- page_offset_mod by done.
  destruct (page_offset start =? 0) eqn:Ea; cbn [negb orb]; [|unfold target_mprotect; by rewrite Ea]. pose proof (proj1 (page_offset_aligned start Hs) Ea) as Had. unfold in_u in Hs, Hnu.
  destruct (Z.leb_spec (2 ^ 64) (start + n)) as [Hge|Hlt].
  { unfold target_mprotect. rewrite Ea. fold n. cbn [negb]. replace (u64 (start + n)) with (start + n - 2 ^ 64) by (apply (Z.mod_unique _ _ 1); lia). by rewrite (proj2 (Z.ltb_lt _ start)) by lia. }
  destruct (Z.eqb_spec n 0) as [Hn0|Hn0].
  { unfold target_mprotect. rewrite Ea. fold n. cbn [negb]. by rewrite Hn0, Z.add_0_r, wrap_small, Z.ltb_irrefl by done. }
  rewrite target_mprotect_plain by done. fold n. fold q. destruct (h_mprotect (hvm v) start n q) as [r h] eqn:Em.
  destruct r as [|r|r]; [|eexists; split_and!; try done; by apply same_rest_locked..]. cbn [Z.eqb].
  destruct (Z.ltb_spec (2 ^ 48) (start + n)) as [H48|H48].
  { unfold page_set_flags. change (Z.shiftl 1 _) with (2 ^ 48). by rewrite (proj2 (Z.leb_gt (start + n) (2 ^ 48))) by lia. }
  destruct (set_flags_remapped (mmap_lock v) start n q h) as (v2 & -> & Hm); [unfold page_range; split_and!; done || lia|apply land_prot|unfold have_mmap_lock; cbn; apply Z.ltb_lt; lia|by apply h_mprotect_ok|].
  cbn [mbind outcome_bind]. eexists. split_and!; [done|by apply remapped_locked|]. intros a Hin. unfold need_emulation_nolock, page_get_flags. cbn. destruct Hm as [-> _ _ _]. rewrite Hin.
  destruct (new_flags_prot q (land_prot prot)) as (_ & _ & _ & _ & -> & _). change PROT_EXEC with PAGE_EXEC. bits. unfold q, rwx. rewrite Z.land_spec. change (Z.testbit (Z.lor _ _) 2) with true. by rewrite andb_true_r.
Qed.

(** [page_check_range] allows an access exactly if every page that the
    range touches allows it; a range for writing is then really writable, and
    translated code on it is gone. *)
Theorem page_check_range_correct v start len flags : 0 ≤ start < 2 ^ 48 → 0 < len → start + len ≤ 2 ^ 64 - 4096 → guarded v →
  ∃ r v', page_check_range HPS v start len flags = Ret (r, v') ∧ guarded v' ∧ same_rest v v' ∧ (r = 0 ∨ r = -1) ∧
    (r = 0 ↔ ∀ p, p * 4096 < start + len → start < (p + 1) * 4096 → page_allows flags (pflags v p) = true) ∧
    (r = 0 → has flags PAGE_WRITE = true → ∀ p, p * 4096 < start + len → start < (p + 1) * 4096 → has (pflags v' p) PAGE_WRITE = true ∧ first_tb v' p = false).
Proof.
  intros Hs Hl Hm G. destruct (page_check_range_ok v start len flags Hs Hl Hm) as (r & v' & He & Hr & Hi & HG & HR & HW). specialize (HG G). exists r, v'. split_and!; try done.
  intros H0 Hw p H1 H2. specialize (HW H0 Hw p H1 H2). split; [done|]. destruct (first_tb v' p) eqn:Et; [|done]. apply (gd_tb _ HG) in Et. congruence.
Qed.

(** [PAGE_RESERVED] is the bit of [PAGE_EXEC_ORG]: no mapping can be
    placed over guest code with [MAP_FIXED], the call fails with [ENXIO]. *)
Theorem mmap_over_guest_code_fails fuel brk v start len prot flags fd offset a : in_u 64 start → (HPS | start) → in_u 64 offset → (HPS | offset) →
  0 < TARGET_PAGE_ALIGN len → start + TARGET_PAGE_ALIGN len < 2 ^ 64 → has flags MAP_FIXED = true →
  in_pages start (TARGET_PAGE_ALIGN len) (page_index a) = true → need_emulation_nolock v a = true →
  ∃ v', target_mmap HPS fuel brk v start len prot flags fd offset = Ret (u64 (-1), v') ∧ errno v' = ENXIO.
Proof.
  intros Hs Hd Ho Hod Hn0 Hmax Hfl Hin Hem. set (n := TARGET_PAGE_ALIGN len) in *. pose proof (page_align_divides len) as Hn. fold n in Hn.
  assert (start + n ≤ 2 ^ 64 - 4096) as Hmax' by (destruct (Z.divide_add_r _ _ _ Hd Hn) as [k Hk]; rewrite page_size in Hk; lia).
  unfold target_mmap. cbn [target_mmap_rec]. unfold target_mmap_body at 1. fold n. rewrite (proj2 (page_offset_aligned offset Ho) Hod), (proj2 (Z.eqb_neq n 0)), Hfl, (proj2 (page_offset_aligned start Hs) Hd) by lia. cbn [negb].
  destruct Hs as [Hs0 Hs1]. rewrite host_mask, mask_aligned, (wrap_small 64 (start + n)), host_align, page_align_aligned by (done || (unfold in_u; lia) || by apply Z.divide_add_r).
  replace (start + n - start) with n by lia. rewrite (proj2 (existsb_exists _ _)); [eexists; split; done|]. exists (page_index a). split; [apply list_elem_of_In; by apply elem_pages|exact Hem].
Qed.

(** Translated code outlives its page: after the pages are unmapped and
    others mapped in their place that are not writable, the blocks that were
    made from the old contents are still linked. *)
Theorem munmap_keeps_translations fuel brk v start len prot flags fd offset r1 r2 v1 v2 p : in_u 64 start → in_u 64 offset → prot_ok prot → has prot PROT_WRITE = false →
  target_munmap HPS v start len = Ret (r1, v1) → target_mmap HPS fuel brk v1 start len prot flags fd offset = Ret (r2, v2) → first_tb v2 p = first_tb v p.
Proof.
  intros Hs Ho Hq Hw Hu Hm. destruct (target_munmap_ok _ _ _ _ _ Hs Hu) as [[_ T1 _] _]. rewrite <- T1.
  destruct (target_mmap_effect _ _ _ _ _ _ _ _ _ _ _ Hs Ho Hq Hm) as [[[_ T2 _] _]|(v3 & [_ T3 _] & _ & _ & [_ T4 _ _])]; [done|]. rewrite T4, T3.
  destruct (in_pages _ _ _); [|done]. unfold kept_tb. destruct (new_flags_prot prot Hq) as (_ & _ & -> & _). by rewrite Hw, andb_false_r, andb_true_r.
Qed.
End inv.

(** ** A host *)

(** A kernel that follows the manual and maps at the address it is asked for. *)
Definition page_table : Type := Z → option Z.

Definition in_place (a n : Z) : bool := (a mod TARGET_PAGE_SIZE =? 0) && (n mod TARGET_PAGE_SIZE =? 0).

#[export] Instance table_vm : HostVM page_table := {
  h_prot h p := h p;
  h_mprotect h a n q := if in_place a n && forallb (λ p, bool_decide (is_Some (h p))) (pages_of a n)
                        then (0, λ p, if in_pages a n p then Some q else h p) else (-1, h);
  h_mmap h a n q fl fd off := if in_place a n && (0 <=? a) && (a + n <=? 2 ^ 47) then (inl a, λ p, if in_pages a n p then Some q else h p) else (inr ENOMEM, h);
  h_munmap h a n := if in_place a n then (0, λ p, if in_pages a n p then None else h p) else (-1, h);
  h_msync h a n fl := 0;
  h_pread h fd a n off := h
}.

Lemma in_place_divides a n : in_place a n = true ↔ (HPS | a) ∧ (HPS | n).
Proof. unfold in_place. rewrite andb_true_iff, !Z.eqb_eq, !Z.mod_divide by done. done. Qed.

#[export] Instance table_laws : HostVMLaws page_table.
Proof.
  split; cbn.
  - intros h a n q h' _ _. destruct (in_place a n && _); [|discriminate]. by intros [= <-].
  - intros h a n q r h'. destruct (in_place a n && _); intros [= <- <-]; auto. by intros [].
  - intros h a n q Ha Hn Hp. rewrite (proj2 (in_place_divides a n)) by done. cbn [andb]. rewrite (proj2 (forallb_forall _ _)); [done|].
    intros p Hin. apply list_elem_of_In, elem_pages in Hin; [|done..]. destruct (Hp p Hin) as (q' & -> & _). by apply bool_decide_true.
  - intros h a n q fl fd off r h' Hn. destruct (in_place a n) eqn:E, (0 <=? a) eqn:E0, (a + n <=? 2 ^ 47) eqn:E1; cbn [andb]; try discriminate. intros [= <- <-].
    apply in_place_divides in E as [Ha _]. apply Z.leb_le in E0, E1. done.
  - intros h a n q fl fd off e h'. destruct (in_place a n && _ && _); intros [= _ <-]. auto.
  - intros h a n h' Ha Hn. destruct (in_place a n); [|discriminate]. by intros [= <-].
  - intros h a n r h'. destruct (in_place a n); intros [= <- <-]; [by intros []|done].
  - done.
Qed.

(** Two pages of guest code at 0x100000, the first one translated. *)
Definition code_page : Z := 0x100000.
Definition wit_host : page_table := λ p, if in_pages code_page 0x2000 p then Some 7 else None.
Definition wit_loaded : vm page_table :=
  match target_mprotect HPS (vm_start wit_host) code_page 0x2000 (Z.lor PROT_READ PROT_EXEC) with Ret (_, v) => v | Stop _ => vm_start wit_host end.
Definition wit_running : vm page_table := link_pages HPS wit_loaded code_page (-1).

Lemma wit_steps : rtc vm_step (vm_start wit_host) wit_running.
Proof.
  apply rtc_l with wit_loaded; [|apply rtc_once; apply step_link; [done|by left]].
  apply (step_mprotect _ code_page 0x2000 (Z.lor PROT_READ PROT_EXEC)); [done|]. reflexivity.
Qed.


Lemma target_mprotect_correct_witness : ∃ v', target_mprotect HPS wit_running code_page 0x1000 (Z.lor PROT_READ PROT_WRITE) = Ret (0, v') ∧ first_tb v' 256 = false ∧
  remapped wit_running code_page 0x1000 3 v'.
Proof.
  pose proof (target_mprotect_correct wit_running code_page 0x1000 (Z.lor PROT_READ PROT_WRITE) ltac:(done) ltac:(done)) as (v' & He & Hm & _).
  exists v'. split_and!; [exact He| |exact Hm]. destruct Hm as [_ -> _ _]. reflexivity.
Defined.

Lemma page_check_range_correct_witness : ∃ v', page_check_range HPS wit_running (code_page + 4000) 200 PAGE_READ = Ret (0, v') ∧ guarded v'.
Proof.
  destruct (page_check_range_correct wit_running (code_page + 4000) 200 PAGE_READ) as (r & v' & He & HG & _ & _ & [_ Hi] & _); [done|done|done|apply (guarded_steps _ _ wit_steps), guarded_start|].
  exists v'. split; [|exact HG]. rewrite He. do 2 f_equal. apply Hi. intros p H1 H2. assert (p = 256 ∨ p = 257) as [->| ->] by (unfold code_page in *; lia); reflexivity.
Defined.

Lemma mmap_over_guest_code_fails_witness : ∃ v', target_mmap HPS 1 0 wit_running code_page 100 PROT_READ (Z.lor MAP_FIXED (Z.lor MAP_PRIVATE MAP_ANON)) (-1) 0 = Ret (u64 (-1), v') ∧ errno v' = ENXIO.
Proof.
  apply (mmap_over_guest_code_fails 1 0 wit_running code_page 100 PROT_READ (Z.lor MAP_FIXED (Z.lor MAP_PRIVATE MAP_ANON)) (-1) 0 code_page); try reflexivity; try (by split); first [by exists 256|by exists 0].
Defined.

(** The blocks of the first page are there after it was replaced. *)
Definition wit_unmapped : vm page_table := match target_munmap HPS wit_running code_page 0x2000 with Ret (_, v) => v | Stop _ => wit_running end.
Definition wit_replaced : outcome (Z * vm page_table) :=
  target_mmap HPS 1 0 wit_unmapped code_page 0x2000 (Z.lor PROT_READ PROT_EXEC) (Z.lor MAP_FIXED (Z.lor MAP_PRIVATE MAP_ANON)) (-1) 0.

Lemma munmap_keeps_translations_witness : ∃ v2, wit_replaced = Ret (code_page, v2) ∧ first_tb v2 256 = true.
Proof.
  eexists. split; [unfold wit_replaced; reflexivity|].
  rewrite (munmap_keeps_translations 1 0 wit_running code_page 0x2000 (Z.lor PROT_READ PROT_EXEC) (Z.lor MAP_FIXED (Z.lor MAP_PRIVATE MAP_ANON)) (-1) 0 0 code_page wit_unmapped _ 256); try reflexivity; done.
Defined.
