(* ===== verification/Fault.v ===== *)
(** * Faults that the emulator uses

    [handle_cpu_signal] and [cpu_signal_handler] of [accel/tcg/user-exec.c].
    A host function that calls guest code faults, because pages of guest code
    are not executable for the host; the handler changes the saved registers so
    that the call goes on in [code_gen_xloop_trampoline].  A guest that writes to
    a page with translated code faults too; the handler drops the translations
    and lets the write be repeated.  All other faults become exceptions of the
    guest. *)

From S2P Require Import Prelude Bytes DyBridge Memory X86 Encoder Machine A2XCode Runs Prologue XLoopTramp DyCall Pages PagesSpec PagesInv.

(** ** Constants *)

Definition ERROR_READ : Z := 0.
Definition ERROR_WRITE : Z := 2.
Definition ERROR_EXECUTE : Z := 0x10.
Definition GETPC_ADJ : Z := 2.
(** [reserved_va] is 0. *)
Definition GUEST_ADDR_MAX : Z := 2 ^ 48 - 1.
Definition EXCP_PREFETCH_ABORT : Z := 3.
Definition EXCP_DATA_ABORT : Z := 4.

(** Of the host. *)
Definition host_SIGSEGV : Z := 11.
Definition SEGV_ACCERR : Z := 2.
Definition T_PAGE_FAULT : Z := 0xe.

Inductive MMUAccessType := MMU_DATA_LOAD | MMU_DATA_STORE | MMU_INST_FETCH.

(** ** State *)

(** The saved registers of the interrupted code: what resumes when the handler
    returns. *)
Record ucontext := mk_uc { uc_cpu : cpu; uc_rip : Z; uc_trapno : Z; uc_err : Z; uc_sigmask : Z }.
Record fault_info := mk_fault { f_signo : Z; f_code : Z; f_addr : Z }.

Section fault.
Context {H : Type} {HV : HostVM H}.

(** [helper_retaddr] and [cpu->running] belong to the thread. *)
Record emu := mk_emu { em_vm : vm H; helper_retaddr : Z; cpu_running : bool }.

(** The handler returns 1 and the saved registers are resumed, or it leaves
    through [tlb_fill] with an exception for the guest. *)
Inductive fault_result :=
  | Handled (e : emu) (uc : ucontext)
  | Raised (e : emu) (mask exception_index vaddress retaddr : Z).

Context (qemu_host_page_size code_gen_xloop_trampoline : Z).

(** [arm_cpu_tlb_fill] *)
Definition arm_cpu_tlb_fill (access_type : MMUAccessType) : Z :=
  match access_type with MMU_INST_FETCH => EXCP_PREFETCH_ABORT | _ => EXCP_DATA_ABORT end.

Definition access_of (error_type : Z) : outcome MMUAccessType :=
  if error_type =? ERROR_READ then Ret MMU_DATA_LOAD
  else if error_type =? ERROR_WRITE then Ret MMU_DATA_STORE
  else if error_type =? ERROR_EXECUTE then Ret MMU_INST_FETCH
  else Stop Aborted.

(** The program counter and the kind of access that the fault stands for. *)
Definition fault_origin (e : emu) (pc error_type : Z) (access : MMUAccessType) : Z * MMUAccessType * vm H :=
  if helper_retaddr e =? 0 then (if error_type =? ERROR_EXECUTE then pc else u64 (pc + GETPC_ADJ), access, em_vm e)
  else if helper_retaddr e =? 1 then (0, MMU_INST_FETCH, mmap_unlock (em_vm e))
  else (helper_retaddr e, access, em_vm e).

(** [PARAM0_sig], [PARAM1_sig], [PARAM2_sig] and [PC_sig]. *)
Definition enter_xloop (uc : ucontext) (pc : Z) : outcome ucontext :=
  let s := set_gpr (set_gpr (uc_cpu uc) TCG_REG_R10 0) TCG_REG_R11 0 in
  let rsp := u64 (gpr s TCG_REG_RSP - 8) in
  let s := set_gpr s TCG_REG_RSP rsp in
  s ← cstore s rsp (le_bytes 8 pc);
  Ret (mk_uc s code_gen_xloop_trampoline (uc_trapno uc) (uc_err uc) (uc_sigmask uc)).

Definition handle_cpu_signal (e : emu) (pc : Z) (fi : fault_info) (error_type : Z) (uc : ucontext) : outcome fault_result :=
  access ← access_of error_type;
  let '(pc, access, v) := fault_origin e pc error_type access in
  if negb (error_type =? ERROR_EXECUTE) && negb (cpu_running e) then Stop Aborted
  else
    let address := f_addr fi in
    let raise v := Ret (Raised (mk_emu v 0 (cpu_running e)) (uc_sigmask uc) (arm_cpu_tlb_fill access) address pc) in
    let handled v uc := Ret (Handled (mk_emu v (helper_retaddr e) (cpu_running e)) uc) in
    if (error_type =? ERROR_WRITE) && (f_signo fi =? host_SIGSEGV) && (f_code fi =? SEGV_ACCERR) && (address <=? GUEST_ADDR_MAX) then
      let '(r, v) := page_unprotect qemu_host_page_size v address in
      if r =? 0 then raise v else handled v uc
    else if error_type =? ERROR_EXECUTE then
      _ ← c_assert (address <=? GUEST_ADDR_MAX);
      let '(b, v) := page_undep v address in
      if b then uc ← enter_xloop uc pc; handled v uc else raise v
    else raise v.

(** On the kind of the fault, from the error code of the processor. *)
Definition error_type_of (uc : ucontext) : Z :=
  if uc_trapno uc =? T_PAGE_FAULT then
    if Z.testbit (uc_err uc) 1 then ERROR_WRITE else if Z.testbit (uc_err uc) 4 then ERROR_EXECUTE else ERROR_READ
  else ERROR_READ.

Definition cpu_signal_handler (e : emu) (fi : fault_info) (uc : ucontext) : outcome fault_result :=
  handle_cpu_signal e (uc_rip uc) fi (error_type_of uc) uc.
End fault.
Arguments emu : clear implicits.
Arguments fault_result : clear implicits.

(** ** A host function calls guest code *)

(** The call has pushed its return address on an aligned stack and the fetch of
    the first instruction, at [a], has faulted. *)
Record host_calls_guest {H} (e : emu H) (fi : fault_info) (uc : ucontext) (q a ra : Z) : Prop := mk_host_calls_guest {
  hg_rip : uc_rip uc = a;
  hg_addr : f_addr fi = a ∧ 0 ≤ a ≤ GUEST_ADDR_MAX;
  hg_fault : uc_trapno uc = T_PAGE_FAULT ∧ Z.testbit (uc_err uc) 1 = false ∧ Z.testbit (uc_err uc) 4 = true;
  hg_outside : helper_retaddr e = 0;
  hg_guest : need_emulation_nolock (em_vm e) a = true;
  hg_rsp : gpr (uc_cpu uc) TCG_REG_RSP = q + 8;
  hg_align : (16 | q);
  hg_range : 288 ≤ q ∧ q + 16 < 2 ^ 64;
  hg_u64 : ∀ r, in_u 64 (gpr (uc_cpu uc) r);
  hg_xmm : ∀ k, length (xmm (uc_cpu uc) k) = 16%nat;
  hg_stack : mapped (cmem (uc_cpu uc)) (q - 264) 272 = true;
  hg_ra : rd_mem (cmem (uc_cpu uc)) (q + 8) 8 = Ret (le_bytes 8 ra) ∧ in_u 64 ra
}.

(** The registers with which the trampoline is entered. *)
Record fault_entered (uc : ucontext) (q a : Z) (s0 : cpu) : Prop := mk_fault_entered {
  fe_args : gpr s0 TCG_REG_R10 = 0 ∧ gpr s0 TCG_REG_R11 = 0;
  fe_rsp : gpr s0 TCG_REG_RSP = q;
  fe_gpr : ∀ r, r ∉ [TCG_REG_R10; TCG_REG_R11; TCG_REG_RSP] → gpr s0 r = gpr (uc_cpu uc) r;
  fe_xmm : xmm s0 = xmm (uc_cpu uc);
  fe_pc : rd_mem (cmem s0) q 8 = Ret (le_bytes 8 a);
  fe_mem : ∀ x, x < q ∨ q + 8 ≤ x → cmem s0 x = cmem (uc_cpu uc) x
}.

Lemma lock_unlock {H} (v : vm H) : mmap_unlock (mmap_lock v) = v.
Proof. destruct v. unfold mmap_unlock, mmap_lock, with_lock. cbn. f_equal. lia. Qed.

Lemma emu_eta {H} (e : emu H) : mk_emu (em_vm e) (helper_retaddr e) (cpu_running e) = e.
Proof. by destruct e. Qed.

Section calls.
Context {H : Type} {HV : HostVM H}.
Context (hps tramp : Z) (e : emu H) (fi : fault_info) (uc : ucontext) (q a ra : Z) (Hc : host_calls_guest e fi uc q a ra).

Lemma enter_xloop_ok : ∃ s0, enter_xloop tramp uc a = Ret (mk_uc s0 tramp (uc_trapno uc) (uc_err uc) (uc_sigmask uc)) ∧ fault_entered uc q a s0 ∧ xloop_entered s0 q a ra.
Proof.
  destruct Hc as [_ [_ Ha] _ _ _ Hrsp Hal Hr Hu Hx Hst [Hra Hrau]]. unfold enter_xloop.
  assert (gpr (set_gpr (set_gpr (uc_cpu uc) TCG_REG_R10 0) TCG_REG_R11 0) TCG_REG_RSP = q + 8) as -> by exact Hrsp.
  rewrite (wrap_small 64 (q + 8 - 8)) by (unfold in_u; lia). replace (q + 8 - 8) with q by lia.
  unfold cstore. destruct (wr_mem_ok (cmem (uc_cpu uc)) q (le_bytes 8 a)) as (m & Hw & _ & Hout); [eapply mapped_sub; [exact Hst|rewrite ?length_le_bytes; lia..]|].
  rewrite length_le_bytes in Hout. cbn [cmem set_gpr]. rewrite Hw. cbn [mbind outcome_bind].
  assert (rd_mem m q 8 = Ret (le_bytes 8 a)) as Hq.
  { pose proof (rd_wr_mem_same _ _ _ _ 0 8 Hw ltac:(done) ltac:(done) ltac:(rewrite length_le_bytes; lia)) as Hq. by rewrite Z.add_0_r in Hq. }
  assert (u64 q = q) as Hqq by (apply wrap_small; unfold in_u; lia).
  eexists. split; [done|]. split.
  - constructor; cbn [gpr xmm cmem set_mem set_gpr]; try done.
    intros r Hr1. rewrite !not_elem_of_cons in Hr1. destruct Hr1 as (N1 & N2 & N3 & _). by rewrite (proj2 (Z.eqb_neq r _) N3), (proj2 (Z.eqb_neq r _) N2), (proj2 (Z.eqb_neq r _) N1).
  - constructor; cbn [gpr xmm cmem set_mem set_gpr]; try done.
    + intros r. repeat case_match; [rewrite Hqq; unfold in_u; lia|by vm_compute|by vm_compute|apply Hu].
    + rewrite (wr_mem_mapped _ _ _ _ _ _ Hw). eapply mapped_sub; [exact Hst|lia..].
    + split; [done|]. unfold in_u, GUEST_ADDR_MAX in *. lia.
    + split; [|done]. rewrite (rd_wr_mem_other _ _ _ _ (q + 8) 8 Hw); [done|rewrite length_le_bytes; lia].
Qed.

Lemma call_fault_ok : ∃ s0, cpu_signal_handler hps tramp e fi uc = Ret (Handled e (mk_uc s0 tramp (uc_trapno uc) (uc_err uc) (uc_sigmask uc))) ∧
  fault_entered uc q a s0 ∧ xloop_entered s0 q a ra.
Proof.
  destruct enter_xloop_ok as (s0 & He & Hf & Hx). exists s0. split; [|done].
  destruct Hc as [Hrip [Had Ha] (Ht & H1 & H4) Hhr Hg _ _ _ _ _ _ _]. unfold cpu_signal_handler.
  assert (error_type_of uc = ERROR_EXECUTE) as -> by (unfold error_type_of; by rewrite Ht, Z.eqb_refl, H1, H4).
  unfold handle_cpu_signal. change (access_of ERROR_EXECUTE) with (@Ret MMUAccessType MMU_INST_FETCH). cbn [mbind outcome_bind]. unfold fault_origin. rewrite Hhr. cbn [Z.eqb].
  change (ERROR_EXECUTE =? ERROR_EXECUTE) with true. change (ERROR_EXECUTE =? ERROR_WRITE) with false. cbn [negb andb]. rewrite Had, Hrip.
  rewrite (proj2 (Z.leb_le a GUEST_ADDR_MAX)) by lia. cbn [c_assert mbind outcome_bind]. unfold page_undep.
  assert (has (page_get_flags (mmap_lock (em_vm e)) a) PAGE_EXEC_ORG = true) as -> by exact Hg. rewrite He. cbn [mbind outcome_bind]. rewrite lock_unlock.
  rewrite <- Hhr. by rewrite emu_eta.
Qed.
End calls.

(** C9.  A host function calls a function of the guest as if it were native: the
    call faults, and the handler resumes it in [code_gen_xloop_trampoline], with
    all registers but R10, R11 and RSP as the caller has set them.  From there
    [cpu_xloop_helper] is called with the address of the guest function and the
    context of the caller, then [cpu_xloop]; whatever these two C functions do
    to the context, the caller continues at its return address, with the stack
    pointer behind the return address and the registers of the context. *)
Theorem host_call_of_guest_returns {H} {HV : HostVM H} hps fns avx base L code host (e : emu H) fi uc q a ra :
  tcg_target_qemu_prologue fns avx base = Ret (L, code) → in_reach base code (fn_cpu_xloop_helper fns) → in_reach base code (fn_cpu_xloop fns) →
  host_calls_guest e fi uc q a ra → inside base code ra = false →
  ∃ s0, cpu_signal_handler hps (code_gen_xloop_trampoline L) e fi uc = Ret (Handled e (mk_uc s0 (code_gen_xloop_trampoline L) (uc_trapno uc) (uc_err uc) (uc_sigmask uc))) ∧
    fault_entered uc q a s0 ∧
    ((∀ ret sc, helper_called s0 q a ret sc → ∃ s1, host (fn_cpu_xloop_helper fns) sc = Ret s1 ∧ c_returned (q - 256) (q + 16) sc s1) →
     (∀ ret1 sc1 s1 ret sc, helper_called s0 q a ret1 sc1 → host (fn_cpu_xloop_helper fns) sc1 = Ret s1 → xloop_called q s1 ret sc →
        ∃ s2 ctx, host (fn_cpu_xloop fns) sc = Ret s2 ∧ c_returned q (q + 16) sc s2 ∧ rd_mem (cmem s2) (q - 256) 256 = Ret ctx ∧ bytes_ok ctx) →
     ∃ ret1 sc1 s1 ret2 sc2 s2 ctx s', helper_called s0 q a ret1 sc1 ∧ host (fn_cpu_xloop_helper fns) sc1 = Ret s1 ∧ xloop_called q s1 ret2 sc2 ∧
       host (fn_cpu_xloop fns) sc2 = Ret s2 ∧ rd_mem (cmem s2) (q - 256) 256 = Ret ctx ∧ caller_continues q s2 ctx s' ∧
       ∀ fuel, (length (xloop_trampoline fns) ≤ fuel)%nat → run host base code fuel (code_gen_xloop_trampoline L) s0 = Ret (ra, s')).
Proof.
  intros HL Hh Hx Hc Hra. apply prologue_placed in HL as (_ & _ & _ & Hpl & _).
  destruct (call_fault_ok hps (code_gen_xloop_trampoline L) e fi uc q a ra Hc) as (s0 & He & Hf & Hent). exists s0. split; [done|]. split; [done|]. intros H1 H2.
  destruct (xloop_trampoline_ok fns host base code s0 q a ra Hent _ Hpl Hh Hx H1 H2) as (ret1 & sc1 & s1 & ret2 & sc2 & s2 & ctx & n & s' & A1 & A2 & A3 & A4 & A5 & Hrun & Hcc & Hn).
  exists ret1, sc1, s1, ret2, sc2, s2, ctx, s'. split_and!; try done. intros fuel Hfu. eapply runs_out; [exact Hrun|done|lia].
Qed.

(** ** Other faults *)

(** What a data fault is taken for: the place it came from, and for a fault in
    the middle of a translation the fetch of guest code, with the lock that the
    translation holds released. *)
Definition data_fault_origin {H} (e : emu H) (rip : Z) : Z * Z * vm H :=
  if helper_retaddr e =? 0 then (u64 (rip + GETPC_ADJ), EXCP_DATA_ABORT, em_vm e)
  else if helper_retaddr e =? 1 then (0, EXCP_PREFETCH_ABORT, mmap_unlock (em_vm e))
  else (helper_retaddr e, EXCP_DATA_ABORT, em_vm e).

(** A write that faults because the page is protected for its translations. *)
Definition write_to_code {H} {HV : HostVM H} (v : vm H) (fi : fault_info) (uc : ucontext) : bool :=
  (error_type_of uc =? ERROR_WRITE) && (f_signo fi =? host_SIGSEGV) && (f_code fi =? SEGV_ACCERR) && (f_addr fi <=? GUEST_ADDR_MAX) &&
  has (page_get_flags v (f_addr fi)) PAGE_WRITE_ORG.

Lemma page_unprotect_not_org {H} {HV : HostVM H} (v : vm H) a : has (page_get_flags v a) PAGE_WRITE_ORG = false → page_unprotect HPS v a = (0, v).
Proof.
  intros Hf. unfold page_unprotect. assert (has (page_get_flags (mmap_lock v) a) PAGE_WRITE_ORG = false) as -> by exact Hf. by rewrite lock_unlock.
Qed.

Lemma data_fault_types uc : error_type_of uc ≠ ERROR_EXECUTE → error_type_of uc = ERROR_READ ∨ error_type_of uc = ERROR_WRITE.
Proof. unfold error_type_of. intros Ht. repeat case_match; auto; by destruct Ht. Qed.

Section data.
Context {H : Type} {HV : HostVM H} {HL : HostVMLaws H}.

(** The handler in terms of where the fault came from. *)
Lemma data_fault_steps tramp (e : emu H) fi uc : error_type_of uc ≠ ERROR_EXECUTE →
  let '(pc, exc, v0) := data_fault_origin e (uc_rip uc) in
  cpu_signal_handler HPS tramp e fi uc =
    if negb (cpu_running e) then Stop Aborted
    else
      let raise := Ret (Raised (mk_emu v0 0 (cpu_running e)) (uc_sigmask uc) exc (f_addr fi) pc) in
      if write_to_code v0 fi uc then Ret (Handled (mk_emu (page_unprotect HPS v0 (f_addr fi)).2 (helper_retaddr e) (cpu_running e)) uc) else raise.
Proof.
  intros Ht. assert (∃ acc, access_of (error_type_of uc) = Ret acc ∧ arm_cpu_tlb_fill acc = EXCP_DATA_ABORT) as (acc & Hacc & Hexc) by (destruct (data_fault_types uc Ht) as [-> | ->]; by eexists).
  unfold cpu_signal_handler, handle_cpu_signal, data_fault_origin, fault_origin. rewrite Hacc. cbn [mbind outcome_bind]. apply Z.eqb_neq in Ht. rewrite Ht. cbn [negb andb].
  destruct (helper_retaddr e =? 0); [|destruct (helper_retaddr e =? 1)]; destruct (cpu_running e); cbn [negb]; try done;
    unfold write_to_code; destruct ((_ =? ERROR_WRITE) && _ && _ && _); cbn [andb]; rewrite ?Hexc; try done;
    match goal with |- context [has (page_get_flags ?v ?a) _] => unfold page_unprotect;
      assert (page_get_flags (mmap_lock v) a = page_get_flags v a) as -> by done; destruct (has (page_get_flags v a) PAGE_WRITE_ORG); cbn [Z.eqb]; [|by rewrite lock_unlock] end.
  all: by destruct (has _ PAGE_WRITE).
Qed.

(** C23.  A fault on data, in every case.  Outside of the emulator it is an error.
    A write to a page that is only protected for its translations is resumed:
    then the page is writable, there is no translated code on it, and the
    protection of all pages is as before.  Everything else is an exception of
    the guest with the address of the access, at the place of the guest the
    fault came from, with the signal mask of before; the pages have not
    changed. *)
Theorem data_fault_correct tramp (e : emu H) fi uc : in_u 64 (f_addr fi) → guarded (em_vm e) → error_type_of uc ≠ ERROR_EXECUTE →
  let '(pc, exc, v0) := data_fault_origin e (uc_rip uc) in
  if negb (cpu_running e) then cpu_signal_handler HPS tramp e fi uc = Stop Aborted
  else if write_to_code v0 fi uc then
    ∃ v', cpu_signal_handler HPS tramp e fi uc = Ret (Handled (mk_emu v' (helper_retaddr e) (cpu_running e)) uc) ∧ guarded v' ∧ same_rest v0 v' ∧
      has (page_get_flags v' (f_addr fi)) PAGE_WRITE = true ∧ first_tb v' (page_index (f_addr fi)) = false ∧ ∀ a, need_emulation_nolock v' a = need_emulation_nolock v0 a
  else cpu_signal_handler HPS tramp e fi uc = Ret (Raised (mk_emu v0 0 (cpu_running e)) (uc_sigmask uc) exc (f_addr fi) pc).
Proof.
  intros Ha HG Ht. pose proof (data_fault_steps tramp e fi uc Ht) as Hs. assert (guarded (data_fault_origin e (uc_rip uc)).2) as HG0.
  { unfold data_fault_origin. destruct (helper_retaddr e =? 0); [done|]. destruct (helper_retaddr e =? 1); [|done]. by eapply guarded_ext; [..|exact HG]. }
  destruct (data_fault_origin e (uc_rip uc)) as [[pc exc] v0]. cbn [snd] in HG0. rewrite Hs. destruct (negb (cpu_running e)); [done|].
  destruct (write_to_code v0 fi uc) eqn:Hw; [|done]. unfold write_to_code in Hw. apply andb_true_iff in Hw as [_ Hw].
  pose proof (page_unprotect_ok v0 (f_addr fi) Ha) as Hu. destruct (page_unprotect HPS v0 (f_addr fi)) as [r v']. destruct Hu as (_ & HG' & Hr & Hwr & Htb & Hk).
  exists v'. split; [done|]. split; [auto|]. split; [done|]. split; [auto|]. split; [auto|].
  intros b. unfold need_emulation_nolock, page_get_flags. apply Hk; [right; done|]. by apply (bool_decide_unpack _).
Qed.
End data.

(** ** A run *)

(** A host function has called the guest function at [code_page + 8]; helper and
    [cpu_xloop] return at once. *)
Definition fw_fns : prologue_fns := mk_prologue_fns 4096 8192 0 0 0.
Definition fw_return (sc : cpu) : cpu := mk_cpu (λ r, if r =? TCG_REG_RSP then gpr sc TCG_REG_RSP + 8 else gpr sc r) (λ _, replicate 16 0) (cmem sc) (zflag sc).
Definition fw_host (_ : Z) (sc : cpu) : outcome cpu := Ret (fw_return sc).
Definition fw_q : Z := 2 ^ 22.
Definition fw_mem : memory := region (fw_q - 264) (replicate 272 0) (region (fw_q + 8) (le_bytes 8 65536) (λ _, None)).
Definition fw_uc : ucontext :=
  mk_uc (mk_cpu (λ r, if r =? TCG_REG_RSP then fw_q + 8 else 3) (λ _, replicate 16 0) fw_mem false) (code_page + 8) T_PAGE_FAULT 0x15 0.
Definition fw_fault : fault_info := mk_fault host_SIGSEGV SEGV_ACCERR (code_page + 8).
Definition fw_emu : emu page_table := mk_emu wit_running 0 false.

Lemma fw_calls : host_calls_guest fw_emu fw_fault fw_uc fw_q (code_page + 8) 65536.
Proof.
  constructor; try reflexivity.
  - by split.
  - by split_and!.
  - by exists (2 ^ 18).
  - unfold fw_q. lia.
  - intros r. cbn. case_match; by vm_compute.
  - split; [cbn [cmem uc_cpu fw_uc]; unfold fw_mem; rd_regions|by vm_compute].
Qed.

Lemma fw_u64 sc : (∀ r, in_u 64 (gpr sc r)) → gpr sc TCG_REG_RSP = fw_q - 264 → ∀ r, in_u 64 (gpr (fw_return sc) r).
Proof. intros Hu Hr r. cbn [gpr fw_return]. case_match; [rewrite Hr; by vm_compute|apply Hu]. Qed.

Lemma fw_called_u64 s1 ret sc : xloop_called fw_q s1 ret sc → (∀ r, in_u 64 (gpr s1 r)) → ∀ r, in_u 64 (gpr sc r).
Proof.
  intros Hx Hu r. destruct (decide (r = TCG_REG_RSP)) as [E|E]; [|by rewrite (xlp_gpr _ _ _ _ Hx)]. rewrite E, (xlp_rsp _ _ _ _ Hx). by vm_compute.
Qed.

Lemma fw_returned sc lo hi : (∀ r, in_u 64 (gpr sc r)) → gpr sc TCG_REG_RSP = fw_q - 264 → c_returned lo hi sc (fw_return sc).
Proof. intros Hu Hr. constructor; try done. by apply fw_u64. Qed.

Lemma fw_reach L code d : tcg_target_qemu_prologue fw_fns true (2 ^ 26) = Ret (L, code) → 0 ≤ d < 65536 → in_reach (2 ^ 26) code d.
Proof.
  intros HL Hd. assert ((match tcg_target_qemu_prologue fw_fns true (2 ^ 26) with Ret (_, c) => (length c <? 4096)%nat | Stop _ => false end) = true) as Hc by (vm_compute; reflexivity).
  rewrite HL in Hc. apply Nat.ltb_lt in Hc. split; [unfold in_u; lia|]. intros p Hp. unfold is_int32. apply Z.eqb_eq, sext_signed; lia.
Qed.

Lemma fw_context_ok s0 : fault_entered fw_uc fw_q (code_page + 8) s0 → bytes_ok (context_of s0 (fw_q + 8)).
Proof.
  intros Hf. unfold context_of. apply Forall_app. split; [apply le_words_ok|]. rewrite (fe_xmm _ _ _ _ Hf). apply Forall_concat, Forall_fmap, Forall_true.
  intros k. cbn. by repeat constructor.
Qed.

Lemma host_call_of_guest_returns_witness : ∃ L code s0 s', tcg_target_qemu_prologue fw_fns true (2 ^ 26) = Ret (L, code) ∧
  cpu_signal_handler HPS (code_gen_xloop_trampoline L) fw_emu fw_fault fw_uc = Ret (Handled fw_emu (mk_uc s0 (code_gen_xloop_trampoline L) T_PAGE_FAULT 0x15 0)) ∧
  run fw_host (2 ^ 26) code (length (xloop_trampoline fw_fns)) (code_gen_xloop_trampoline L) s0 = Ret (65536, s') ∧ gpr s' TCG_REG_RSP = fw_q + 16.
Proof.
  destruct (tcg_target_qemu_prologue fw_fns true (2 ^ 26)) as [[L code]|] eqn:HL; [|vm_compute in HL; discriminate HL].
  destruct (host_call_of_guest_returns HPS fw_fns true (2 ^ 26) L code fw_host fw_emu fw_fault fw_uc fw_q (code_page + 8) 65536 HL) as (s0 & He & Hf & Hrun).
  - apply (fw_reach L code _ HL). done.
  - apply (fw_reach L code _ HL). done.
  - exact fw_calls.
  - unfold inside. apply andb_false_intro1. by apply Z.leb_gt.
  - destruct Hrun as (ret1 & sc1 & s1 & ret2 & sc2 & s2 & ctx & s' & _ & _ & _ & _ & _ & Hcc & Hrun).
    + intros ret sc Hh. eexists. split; [reflexivity|]. apply fw_returned; [apply Hh|apply (hlp_rsp _ _ _ _ _ Hh)].
    + intros ret1 sc1 s1 ret sc Hh Hs1 Hx. apply Ret_inj in Hs1 as <-. exists (fw_return sc), (context_of s0 (fw_q + 8)). split; [reflexivity|].
      pose proof (xlp_rsp _ _ _ _ Hx) as Hrsp. split_and!.
      * apply fw_returned; [|done]. eapply fw_called_u64; [exact Hx|]. apply fw_u64; [apply Hh|apply (hlp_rsp _ _ _ _ _ Hh)].
      * rewrite <- (hlp_ctx _ _ _ _ _ Hh). apply rd_mem_ext. intros x Hxx. apply (xlp_mem _ _ _ _ Hx). lia.
      * by apply fw_context_ok.
    + exists L, code, s0, s'. split; [reflexivity|]. split; [exact He|]. split; [by apply Hrun|apply Hcc].
Defined.

(** The guest writes to a page of its own code that has been translated. *)
Definition fw_loaded : vm page_table :=
  match target_mprotect HPS (vm_start wit_host) code_page 0x2000 7 with Ret (_, v) => v | Stop _ => vm_start wit_host end.
Definition fw_written : emu page_table := mk_emu (link_pages HPS fw_loaded code_page (-1)) 0 true.

Lemma fw_written_guarded : guarded (em_vm fw_written).
Proof.
  apply (guarded_steps (vm_start wit_host)); [|apply guarded_start]. apply rtc_l with fw_loaded; [|apply rtc_once; apply step_link; [done|by left]].
  apply (step_mprotect _ code_page 0x2000 7); [done|]. reflexivity.
Qed.

Lemma data_fault_correct_witness : ∃ v', cpu_signal_handler HPS 0 fw_written fw_fault (mk_uc (uc_cpu fw_uc) 0x7000 T_PAGE_FAULT 7 0) =
    Ret (Handled (mk_emu v' 0 true) (mk_uc (uc_cpu fw_uc) 0x7000 T_PAGE_FAULT 7 0)) ∧
  first_tb (em_vm fw_written) 256 = true ∧ has (page_get_flags (em_vm fw_written) (code_page + 8)) PAGE_WRITE = false ∧
  first_tb v' 256 = false ∧ has (page_get_flags v' (code_page + 8)) PAGE_WRITE = true ∧ need_emulation_nolock v' (code_page + 8) = true.
Proof.
  pose proof (data_fault_correct 0 fw_written fw_fault (mk_uc (uc_cpu fw_uc) 0x7000 T_PAGE_FAULT 7 0) ltac:(done) fw_written_guarded ltac:(done)) as Hd.
  assert (write_to_code (em_vm fw_written) fw_fault (mk_uc (uc_cpu fw_uc) 0x7000 T_PAGE_FAULT 7 0) = true) as E by (vm_compute; reflexivity).
  unfold data_fault_origin in Hd. change (helper_retaddr fw_written =? 0) with true in Hd. change (negb (cpu_running fw_written)) with false in Hd.
  cbv iota in Hd. rewrite E in Hd. destruct Hd as (v' & He & _ & _ & Hw & Htb & Hn). exists v'. split; [exact He|]. split; [reflexivity|]. split; [reflexivity|]. split; [exact Htb|]. split; [exact Hw|]. rewrite Hn. reflexivity.
Defined.
