(* ===== verification/XLoop.v ===== *)
(** * The emulator as a C function

    Host code that calls guest code gets into [cpu_xloop] ([bsd-user/main.c]),
    which prepares the guest's registers, runs the guest until it returns and
    goes back to the host.  Guest code calls host functions in turn, so
    activations of [cpu_xloop] nest.  For the unwinder each has an entry in the
    list [CFIhead]: the stack of the host at the call, and where the registers
    of the guest are that was running when the call was made. The head of the
    list points to the live registers; the other entries point to copies in
    the activation above.

    [CFIList_...], [prepare_env] and [cpu_xloop] are from [main.c],
    [cpu_xloop_helper] and [tb_gen_code] from [translate-all.c], the
    [iqemu_...] functions from [exports.c]. *)

From stdpp Require Import gmap.
From S2P Require Import CString Prelude Bytes DyBridge Handlers Memory X2ACode Pages Callbacks.

(** ** State *)

Record xloop_param := mk_param { entry_translation : Z; exit_translation : Z; retn_stack_count : Z; unwind_context : Z }.

(** Where a saved register is: in [env->xregs], or in the locals of an
    activation ([saved_lr], [saved_fp] and [saved_sp] for 30, 29 and 31). *)
Inductive reg_loc := InEnv (k : Z) | InFrame (id : nat) (k : Z).

Record CFIEntry := mk_cfi { x64_pc : Z; x64_sp : Z; x64_fp : Z; p_arm64_pc : reg_loc; p_arm64_fp : reg_loc; p_arm64_sp : reg_loc }.

(** The locals of an activation of [cpu_xloop]. *)
Record activation := mk_act {
  saved_lr : Z; saved_fp : Z; saved_sp : Z;
  a_param : xloop_param;
  a_exit : Z;
  saved_jmpbuf : Z;
  a_cfi : CFIEntry
}.

(** A thread: the activations are in the order of the stack, the oldest first,
    and known by their position; [jmp_env] stands for the contents of
    [cs->jmp_env]. *)
Record thread (H : Type) := mk_thread {
  t_guest : guest;
  t_vm : vm H;
  stack_top : Z;
  stack_bottom : Z;
  tls_xloop_param : xloop_param;
  CFIhead : list nat;
  frames : list activation;
  jmp_env : Z
}.
Arguments mk_thread {H}. Arguments t_guest {H}. Arguments t_vm {H}. Arguments stack_top {H}. Arguments stack_bottom {H}.
Arguments tls_xloop_param {H}. Arguments CFIhead {H}. Arguments frames {H}. Arguments jmp_env {H}.

Definition guest_stack_size : Z := 1 * 1024 * 1024.

Section xloop.
Context {H : Type} {HV : HostVM H}.
Implicit Type th : thread H.

Definition with_guest th (g : guest) : thread H := mk_thread g (t_vm th) (stack_top th) (stack_bottom th) (tls_xloop_param th) (CFIhead th) (frames th) (jmp_env th).
Definition with_stack th (v : vm H) (top bottom : Z) : thread H := mk_thread (t_guest th) v top bottom (tls_xloop_param th) (CFIhead th) (frames th) (jmp_env th).
Definition with_tls th (p : xloop_param) : thread H := mk_thread (t_guest th) (t_vm th) (stack_top th) (stack_bottom th) p (CFIhead th) (frames th) (jmp_env th).
Definition with_cfi th (l : list nat) (fs : list activation) : thread H := mk_thread (t_guest th) (t_vm th) (stack_top th) (stack_bottom th) (tls_xloop_param th) l fs (jmp_env th).
Definition with_jmp th (j : Z) : thread H := mk_thread (t_guest th) (t_vm th) (stack_top th) (stack_bottom th) (tls_xloop_param th) (CFIhead th) (frames th) j.

(** [env->xregs[k] = v] *)
Definition put_x th (k v : Z) : outcome (thread H) :=
  env ← set_xreg (g_env (t_guest th)) k v;
  Ret (with_guest th (mk_guest env (g_pc (t_guest th)) (g_mem (t_guest th)))).

Definition get_word th (a : Z) : outcome Z := le_val <$> rd_mem (g_mem (t_guest th)) a 8.

(** ** The list of frames *)

Definition frame_of th (id : nat) : outcome activation := match frames th !! id with Some a => Ret a | None => Stop Undefined end.

Definition saved_reg (a : activation) (k : Z) : Z := if k =? 30 then saved_lr a else if k =? 29 then saved_fp a else saved_sp a.

Definition read_loc th (l : reg_loc) : outcome Z :=
  match l with
  | InEnv k => xreg (g_env (t_guest th)) k
  | InFrame id k => a ← frame_of th id; Ret (saved_reg a k)
  end.

Definition set_locs (e : CFIEntry) (loc : Z → reg_loc) : CFIEntry := mk_cfi (x64_pc e) (x64_sp e) (x64_fp e) (loc 30) (loc 29) (loc 31).
Definition act_cfi (a : activation) (e : CFIEntry) : activation := mk_act (saved_lr a) (saved_fp a) (saved_sp a) (a_param a) (a_exit a) (saved_jmpbuf a) e.

(** The three pointers of an entry are set. *)
Definition relink th (id : nat) (loc : Z → reg_loc) : outcome (thread H) :=
  a ← frame_of th id;
  Ret (with_cfi th (CFIhead th) (<[id := act_cfi a (set_locs (a_cfi a) loc)]> (frames th))).

(** The head of the list, if there is one, points to the live registers. *)
Definition relink_head th : outcome (thread H) :=
  match CFIhead th with id :: _ => relink th id InEnv | [] => Ret th end.

Definition CFIList_Insert_Head th (id : nat) : outcome (thread H) :=
  th ← match CFIhead th with last :: _ => relink th last (InFrame id) | [] => Ret th end;
  th ← relink th id InEnv;
  Ret (with_cfi th (id :: CFIhead th) (frames th)).

(** [QTAILQ_REMOVE] of the head, [count] times; on an empty list a null pointer
    is followed. *)
Fixpoint remove_heads (count : nat) (l : list nat) : outcome (list nat) :=
  match count, l with
  | O, _ => Ret l
  | S _, [] => Stop Undefined
  | S count, _ :: l => remove_heads count l
  end.

Definition CFIList_Truncate_To_By_Count th (count : Z) : outcome (thread H) :=
  if count <=? 0 then Ret th
  else
    l ← remove_heads (Z.to_nat count) (CFIhead th);
    let th := with_cfi th l (frames th) in
    match l with
    | [] => Ret th
    | id :: _ =>
        a ← frame_of th id;
        lr ← read_loc th (p_arm64_pc (a_cfi a)); th ← put_x th 30 lr;
        fp ← read_loc th (p_arm64_fp (a_cfi a)); th ← put_x th 29 fp;
        sp ← read_loc th (p_arm64_sp (a_cfi a)); th ← put_x th 31 sp;
        relink th id InEnv
    end.

Fixpoint remove_until (id : nat) (l : list nat) : outcome (list nat) :=
  match l with
  | [] => Stop Undefined
  | i :: l' => if bool_decide (i = id) then Ret l else remove_until id l'
  end.

Definition CFIList_Truncate_To th (id : nat) : outcome (thread H) :=
  l ← remove_until id (CFIhead th);
  relink (with_cfi th l (frames th)) id InEnv.

(** ** Entering the emulator *)

(** The CPU of the thread exists. *)
Definition cpu_xloop_helper th (entry exit_ regs pc : Z) : outcome (thread H) :=
  let g := t_guest th in
  let th := with_guest th (mk_guest (g_env g) pc (g_mem g)) in
  let p := tls_xloop_param th in
  '(en, ex) ← (if entry_translation p =? 0 then Ret (entry, exit_)
               else _ ← c_assert (exit_ =? pc); Ret (entry_translation p, exit_translation p));
  Ret (with_tls th (mk_param en ex 0 regs)).

Context (hps : Z) (fuel : nat) (new_brk : Z).

Definition prepare_env th (param : xloop_param) : outcome (thread H) :=
  rsp ← get_word th (unwind_context param + CTX_RSP);
  lr ← get_word th rsp;
  th ← put_x th 30 lr;
  sp ← xreg (g_env (t_guest th)) 31;
  if sp =? 0 then
    '(error, v) ← target_mmap hps fuel new_brk (t_vm th) 0 (guest_stack_size + TARGET_PAGE_SIZE) (Z.lor PROT_READ PROT_WRITE) (Z.lor MAP_PRIVATE MAP_ANON) (-1) 0;
    if error =? u64 (-1) then Stop Aborted
    else
      '(_, v) ← target_mprotect hps v error TARGET_PAGE_SIZE 0;
      let top := u64 (error + guest_stack_size + TARGET_PAGE_SIZE) in
      put_x (with_stack th v error top) 31 top
  else Ret th.

(** A call of generated code as [fnEntryTranslation] or [fnExitTranslation],
    and [abi_x2a_get_translation_function_pair_by_types_nolock]. *)
Context (translate : Z → guest → Z → outcome guest) (pair_by_types : option (list ascii) → Z * Z).

Definition abi_x2a_get_translation_function_pair_by_pc (cbs : callback_types) (pc : Z) : Z * Z :=
  pair_by_types (tcg_query_callback_type cbs pc).

Definition translation_pair th (cbs : callback_types) (param : xloop_param) : Z * Z * thread H :=
  if (entry_translation param =? 0) || (exit_translation param =? 0)
  then (abi_x2a_get_translation_function_pair_by_pc cbs (g_pc (t_guest th)), th)
  else (entry_translation param, exit_translation param,
        with_tls th (mk_param 0 0 (retn_stack_count (tls_xloop_param th)) (unwind_context (tls_xloop_param th)))).

(** [cpu_xloop] up to its loop. *)
Definition xloop_enter th (cbs : callback_types) : outcome (thread H) :=
  let param := tls_xloop_param th in
  lr ← xreg (g_env (t_guest th)) 30;
  fp ← xreg (g_env (t_guest th)) 29;
  sp ← xreg (g_env (t_guest th)) 31;
  th ← prepare_env th param;
  let '(en, ex, th) := translation_pair th cbs param in
  if (en =? 0) || (ex =? 0) then Stop Aborted
  else
    g ← translate en (t_guest th) (unwind_context param);
    let th := with_guest th g in
    rsp ← get_word th (unwind_context param + CTX_RSP);
    ra ← get_word th rsp;
    rbp ← get_word th (unwind_context param + CTX_RBP);
    let id := length (frames th) in
    let cfi := mk_cfi ra rsp rbp (InEnv 30) (InEnv 29) (InEnv 31) in
    CFIList_Insert_Head (with_cfi th (CFIhead th) (frames th ++ [mk_act lr fp sp param ex (jmp_env th) cfi])) id.

(** ** Leaving it *)

(** The case [EXCP_XLOOP_FINISH], in the youngest activation.  Removing an
    entry that is not in the list is undefined. *)
Definition xloop_leave th : outcome (thread H) :=
  match last (frames th) with
  | None => Stop Undefined
  | Some a =>
      let id := pred (length (frames th)) in
      let tls := tls_xloop_param th in
      let th := with_tls th (mk_param (entry_translation tls) (exit_translation tls) (retn_stack_count (a_param a)) (unwind_context tls)) in
      l ← (if bool_decide (id ∈ CFIhead th) then Ret (filter (λ i, i ≠ id) (CFIhead th)) else Stop Undefined);
      let th := with_jmp (with_cfi th l (frames th)) (saved_jmpbuf a) in
      th ← relink_head th;
      g ← translate (a_exit a) (t_guest th) (unwind_context (a_param a));
      th ← put_x (with_guest th g) 30 (saved_lr a);
      Ret (with_cfi th (CFIhead th) (take id (frames th)))
  end.

(** The unwinder jumps back into the activation [id]: everything younger is
    gone. *)
Definition xloop_unwound th (id : nat) : outcome (thread H) :=
  if bool_decide (id < length (frames th))%nat
  then CFIList_Truncate_To (with_cfi th (CFIhead th) (take (S id) (frames th))) id
  else Stop Undefined.

(** ** What the unwinder asks for *)

(** The entry [index] from the head; a negative index counts as 0. *)
Definition cfi_at th (index : Z) : option nat := CFIhead th !! Z.to_nat index.

Definition iqemu_get_x64_CFI th (index : Z) : outcome (option (Z * Z)) :=
  match cfi_at th index with
  | None => Ret None
  | Some id => a ← frame_of th id; Ret (Some (x64_sp (a_cfi a), x64_fp (a_cfi a)))
  end.

(** Stack pointer, frame pointer and program counter. *)
Definition iqemu_get_arm64_CFI th (index : Z) : outcome (option (Z * Z * Z)) :=
  match cfi_at th index with
  | None => Ret None
  | Some id =>
      a ← frame_of th id;
      sp ← read_loc th (p_arm64_sp (a_cfi a));
      fp ← read_loc th (p_arm64_fp (a_cfi a));
      pc ← read_loc th (p_arm64_pc (a_cfi a));
      Ret (Some (sp, fp, pc))
  end.

(** The jump buffer of an activation is named by its position. *)
Definition iqemu_get_jmp_buf th (index : Z) : option nat := cfi_at th index.

Definition iqemu_truncate_CFI th (index : Z) : outcome (thread H) := CFIList_Truncate_To_By_Count th index.

Definition iqemu_set_xloop_params_by_types th (types : list ascii) : thread H :=
  let '(en, ex) := pair_by_types (Some types) in
  with_tls th (mk_param en ex (retn_stack_count (tls_xloop_param th)) (unwind_context (tls_xloop_param th))).

(** ** Choosing the code for a program counter *)

(** What a block that is not found in the caches gets as code. *)
Inductive tb_code :=
  | TranslatedGuest
  | HintHandler (handler : Z)
  | TrampolineForTypes (types : list ascii)
  | TrampolineForName (name : list ascii)
  | XLoopRet.

(** [env->code_gen_hints]: left by the message senders for the next program
    counter; the handler may be null. *)
Record code_gen_hints := mk_hints { hint_pc : Z; hint_handler : Z }.

Definition default_method_types : list ascii := chars "{ret=**}@0:8*16*24*32*40*48*56dddddddd".

Context (DEBUG : bool) (objc_get_types_from_zelf_selector : guest → list ascii) (solve_symbol_name : Z → option (list ascii)).

(** A host function that is neither a hint nor the return address of a frame:
    its name is known from binding, or it is a callback, or the symbol tables
    have it. *)
Definition misc_code (symbols cbs : gmap Z (list ascii)) (pc : Z) : outcome tb_code :=
  let for_symbol o :=
    match o with
    | None => Stop Aborted
    | Some name =>
        match DEBUG, name with
        | false, c :: _ => if (Ascii.eqb c "-"%char || Ascii.eqb c "+"%char) then Ret (TrampolineForTypes default_method_types) else Ret (TrampolineForName name)
        | _, _ => Ret (TrampolineForName name)
        end
    end in
  match symbols !! pc with
  | Some name => for_symbol (Some name)
  | None =>
      match tcg_query_callback_type cbs pc with
      | Some types =>
          match types with
          | c :: _ => if Ascii.eqb c "0"%char || Ascii.eqb c "1"%char then Ret (TrampolineForName types) else Ret (TrampolineForTypes types)
          | [] => Ret (TrampolineForTypes types)
          end
      | None => for_symbol (solve_symbol_name pc)
      end
  end.

Definition hinted (hints : option code_gen_hints) (pc : Z) : option code_gen_hints :=
  match hints with Some h => if hint_pc h =? pc then Some h else None | None => None end.

(** The code and the hints that are left. *)
Definition tb_gen_code th (symbols cbs : gmap Z (list ascii)) (hints : option code_gen_hints) (pc : Z) : outcome (tb_code * option code_gen_hints) :=
  _ ← c_assert (negb (have_mmap_lock (t_vm th)));
  if (need_emulation (t_vm th) pc).1 then Ret (TranslatedGuest, hints)
  else
    match hinted hints (g_pc (t_guest th)) with
    | Some h =>
        let types := objc_get_types_from_zelf_selector (t_guest th) in
        Ret (if hint_handler h =? 0 then TrampolineForTypes types else HintHandler (hint_handler h), None)
    | None =>
        match CFIhead th with
        | [] => Stop Undefined
        | id :: _ =>
            a ← frame_of th id;
            if pc =? x64_pc (a_cfi a) then Ret (XLoopRet, hints)
            else code ← misc_code symbols cbs pc; Ret (code, hints)
        end
    end.
End xloop.
