(* ===== verification/SigState.v ===== *)
(** * Signals: numbers, sets, and the state of a thread

    [bsd-user/signal.c] up to the delivery: conversion of signal numbers, sets
    and [siginfo], the blocked signals of the guest, its alternate stack, and
    the queue of the signal that the guest itself causes. *)

From S2P Require Import Prelude Bytes.

(** ** Numbers *)

Definition TARGET_NSIG : Z := 32.
(** [_NSIG] of macOS. *)
Definition HOST_NSIG : Z := 32.

Definition TARGET_SIGHUP : Z := 1.
Definition TARGET_SIGINT : Z := 2.
Definition TARGET_SIGQUIT : Z := 3.
Definition TARGET_SIGILL : Z := 4.
Definition TARGET_SIGTRAP : Z := 5.
Definition TARGET_SIGABRT : Z := 6.
Definition TARGET_SIGEMT : Z := 7.
Definition TARGET_SIGFPE : Z := 8.
Definition TARGET_SIGKILL : Z := 9.
Definition TARGET_SIGBUS : Z := 10.
Definition TARGET_SIGSEGV : Z := 11.
Definition TARGET_SIGSYS : Z := 12.
Definition TARGET_SIGPIPE : Z := 13.
Definition TARGET_SIGALRM : Z := 14.
Definition TARGET_SIGTERM : Z := 15.
Definition TARGET_SIGURG : Z := 16.
Definition TARGET_SIGSTOP : Z := 17.
Definition TARGET_SIGTSTP : Z := 18.
Definition TARGET_SIGCONT : Z := 19.
Definition TARGET_SIGCHLD : Z := 20.
Definition TARGET_SIGTTIN : Z := 21.
Definition TARGET_SIGTTOU : Z := 22.
Definition TARGET_SIGIO : Z := 23.
Definition TARGET_SIGXCPU : Z := 24.
Definition TARGET_SIGXFSZ : Z := 25.
Definition TARGET_SIGVTALRM : Z := 26.
Definition TARGET_SIGPROF : Z := 27.
Definition TARGET_SIGWINCH : Z := 28.
Definition TARGET_SIGUSR1 : Z := 30.
Definition TARGET_SIGUSR2 : Z := 31.

(** The numbers of macOS that the code names. *)
Definition SIGKILL : Z := 9.
Definition SIGBUS : Z := 10.
Definition SIGSEGV : Z := 11.
Definition SIGSTOP : Z := 17.

Record signal_tables := mk_tables { host_to_target_signal_table : list Z; target_to_host_signal_table : list Z }.

(** The tables before [signal_table_init], indexed by the signals of macOS. *)
Definition static_tables : signal_tables := mk_tables
  [0; TARGET_SIGHUP; TARGET_SIGINT; TARGET_SIGQUIT; TARGET_SIGILL; TARGET_SIGTRAP; TARGET_SIGABRT; 0; TARGET_SIGFPE; TARGET_SIGKILL; TARGET_SIGBUS;
   TARGET_SIGSEGV; TARGET_SIGSYS; TARGET_SIGPIPE; TARGET_SIGALRM; TARGET_SIGTERM; TARGET_SIGURG; TARGET_SIGSTOP; TARGET_SIGTSTP; TARGET_SIGCONT;
   TARGET_SIGCHLD; TARGET_SIGTTIN; TARGET_SIGTTOU; TARGET_SIGIO; TARGET_SIGXCPU; TARGET_SIGXFSZ; TARGET_SIGVTALRM; TARGET_SIGPROF; TARGET_SIGWINCH; 0;
   TARGET_SIGUSR1; TARGET_SIGUSR2]
  (replicate (Z.to_nat (TARGET_NSIG + 1)) 0).

Definition at_index (l : list Z) (i : Z) : Z := nth (Z.to_nat i) l 0.
Definition set_index (l : list Z) (i v : Z) : list Z := <[Z.to_nat i := u8 v]> l.

Definition signal_table_init (t : signal_tables) : signal_tables :=
  let poison := foldl (λ l target_sig, set_index l target_sig HOST_NSIG) (target_to_host_signal_table t) (seqZ 1 TARGET_NSIG) in
  foldl (λ t host_sig,
      let h := host_to_target_signal_table t in
      let h := if at_index h host_sig =? 0 then set_index h host_sig host_sig else h in
      let target_sig := at_index h host_sig in
      mk_tables h (if target_sig <=? TARGET_NSIG then set_index (target_to_host_signal_table t) target_sig host_sig else target_to_host_signal_table t))
    (mk_tables (host_to_target_signal_table t) poison) (seqZ 1 (HOST_NSIG - 1)).

(** [signal_init] runs it before anything else is done with signals. *)
Definition tables : signal_tables := signal_table_init static_tables.

Definition host_to_target_signal (sig : Z) : Z :=
  if (sig <? 1) || (HOST_NSIG <=? sig) then sig else at_index (host_to_target_signal_table tables) sig.

Definition target_to_host_signal (sig : Z) : Z :=
  if (sig <? 1) || (TARGET_NSIG <? sig) then sig else at_index (target_to_host_signal_table tables) sig.

(** ** Sets *)

(** [sigset_t] of macOS is a 32-bit word. *)
Definition sigbit (sig : Z) : Z := if HOST_NSIG <? sig then 0 else Z.shiftl 1 (sig - 1).
Definition sigismember (s sig : Z) : bool := negb (Z.land s (sigbit sig) =? 0).
Definition sigaddset (s sig : Z) : Z := Z.lor s (sigbit sig).
Definition sigdelset (s sig : Z) : Z := Z.land s (Z.lnot (sigbit sig)).
Definition sigfillset : Z := 2 ^ 32 - 1.
Definition sigorset (left right : Z) : Z := Z.lor left right.

(** [target_sigset_t] is one 64-bit word; nothing is swapped on a
    little-endian host. *)
Definition target_sigemptyset : Z := 0.
Definition target_sigaddset (s signum : Z) : Z := Z.lor s (Z.shiftl 1 ((signum - 1) mod 64)).
Definition target_sigismember (s signum : Z) : bool := negb (Z.land s (Z.shiftl 1 ((signum - 1) mod 64)) =? 0).

Definition host_to_target_sigset_internal (s : Z) : Z :=
  foldl (λ d host_sig,
      let target_sig := host_to_target_signal host_sig in
      if (target_sig <? 1) || (TARGET_NSIG <? target_sig) then d
      else if sigismember s host_sig then target_sigaddset d target_sig else d)
    target_sigemptyset (seqZ 1 (HOST_NSIG - 1)).

Definition host_to_target_sigset (s : Z) : Z := host_to_target_sigset_internal s.

Definition target_to_host_sigset_internal (s : Z) : Z :=
  foldl (λ d target_sig,
      let host_sig := target_to_host_signal target_sig in
      if (host_sig <? 1) || (HOST_NSIG <=? host_sig) then d
      else if target_sigismember s target_sig then sigaddset d host_sig else d)
    0 (seqZ 1 TARGET_NSIG).

Definition target_to_host_sigset (s : Z) : Z := target_to_host_sigset_internal s.

(** The old interface passes the first word, which is the only one. *)
Definition host_to_target_old_sigset (sigset : Z) : Z := host_to_target_sigset sigset.
Definition target_to_host_old_sigset (old_sigset : Z) : Z := target_to_host_sigset old_sigset.

(** ** siginfo *)

Definition TARGET_SI_KERNEL : Z := 128.
Definition QEMU_SI_KILL : Z := 0.
Definition QEMU_SI_TIMER : Z := 1.
Definition QEMU_SI_POLL : Z := 2.
Definition QEMU_SI_FAULT : Z := 3.
Definition QEMU_SI_CHLD : Z := 4.
(** [SI_USER] of macOS. *)
Definition SI_USER : Z := 65537.

(** On 32-bit words. *)
Definition field_mask (start length : Z) : Z := Z.shiftl (Z.ones length) start.
Definition extract32 (value start length : Z) : Z := Z.land (Z.shiftr (u32 value) start) (Z.ones length).
Definition sextract32 (value start length : Z) : Z := Z.shiftr (sext 32 (Z.shiftl value (32 - length - start))) (32 - length).
Definition deposit32 (value start length fieldval : Z) : Z :=
  Z.lor (Z.land (u32 value) (u32 (Z.lnot (field_mask start length)))) (Z.land (u32 (Z.shiftl fieldval start)) (field_mask start length)).

(** [target_siginfo_t]; the union as its bytes. *)
Record target_siginfo := mk_siginfo { si_signo : Z; si_errno : Z; si_code : Z; sifields : list Z }.
Definition SIFIELDS_SIZE : nat := 112.
Definition no_fields : list Z := replicate SIFIELDS_SIZE 0.

(** What the emulator reads of the [siginfo_t] of the host. *)
Record host_siginfo := mk_host_siginfo { h_signo : Z; h_code : Z; h_pid : Z; h_uid : Z; h_status : Z; h_band : Z }.

(** The status of a child in the encoding of [wait]. *)
Definition WTERMSIG (status : Z) : Z := Z.land status 127.
Definition WSTOPSIG (status : Z) : Z := Z.shiftr status 8.
Definition WIFSTOPPED (status : Z) : bool := (Z.land status 127 =? 127) && negb (WSTOPSIG status =? 19).
Definition WIFSIGNALED (status : Z) : bool := negb (Z.land status 127 =? 127) && negb (Z.land status 127 =? 0).

Definition host_to_target_waitstatus (status : Z) : Z :=
  if WIFSIGNALED status then Z.lor (host_to_target_signal (WTERMSIG status)) (Z.land status (Z.lnot 127))
  else if WIFSTOPPED status then Z.lor (Z.shiftl (host_to_target_signal (WSTOPSIG status)) 8) (Z.land status 255)
  else status.

(** [_kill._pid], [_kill._uid], [_sigchld._status], [_sigpoll._band] and
    [_sigfault._addr] at their offsets in the union. *)
Definition put_field (l : list Z) (off : Z) (n : nat) (v : Z) : outcome (list Z) := wr l off (le_bytes n v).

Definition host_to_target_siginfo_noswap (info : host_siginfo) : outcome target_siginfo :=
  let sig := host_to_target_signal (h_signo info) in
  '(f, si_type) ←
    if h_code info =? SI_USER then
      f ← put_field no_fields 0 4 (h_pid info); f ← put_field f 4 4 (h_uid info); Ret (f, QEMU_SI_KILL)
    else if sig =? TARGET_SIGCHLD then
      f ← put_field no_fields 0 4 (h_pid info); f ← put_field f 4 4 (h_uid info);
      f ← put_field f 8 4 (host_to_target_waitstatus (h_status info)); Ret (f, QEMU_SI_CHLD)
    else if sig =? TARGET_SIGIO then
      f ← put_field no_fields 0 4 (h_band info); Ret (f, QEMU_SI_POLL)
    else Ret (no_fields, QEMU_SI_KILL);
  Ret (mk_siginfo sig 0 (deposit32 (h_code info) 16 16 si_type) f).

(** Only the fields that the marker in [si_code] names are written to
    [tinfo]. *)
Definition tswap_siginfo (tinfo info : target_siginfo) : outcome target_siginfo :=
  let si_type := extract32 (si_code info) 16 16 in
  let copy n := b ← rd (sifields info) 0 n; wr (sifields tinfo) 0 b in
  f ← if si_type =? QEMU_SI_KILL then copy 8
      else if si_type =? QEMU_SI_TIMER then copy 8
      else if si_type =? QEMU_SI_POLL then copy 4
      else if si_type =? QEMU_SI_FAULT then copy 8
      else if si_type =? QEMU_SI_CHLD then copy 12
      else Stop Aborted;
  Ret (mk_siginfo (si_signo info) (si_errno info) (sextract32 (si_code info) 0 16) f).

Definition host_to_target_siginfo (tinfo : target_siginfo) (info : host_siginfo) : outcome target_siginfo :=
  t ← host_to_target_siginfo_noswap info; tswap_siginfo tinfo t.

(** ** Dispositions *)

Definition TARGET_SIG_DFL : Z := 0.
Definition TARGET_SIG_IGN : Z := 1.
Definition TARGET_SIG_ERR : Z := 2 ^ 64 - 1.
Definition TARGET_SA_ONSTACK : Z := 1.
Definition TARGET_SA_RESTART : Z := 2.
Definition TARGET_SA_RESETHAND : Z := 4.
Definition TARGET_SA_NODEFER : Z := 16.

Record target_sigaction := mk_sigaction { _sa_handler : Z; sa_flags : Z; sa_mask : Z }.

Definition fatal_signal (sig : Z) : bool :=
  negb (existsb (Z.eqb sig) [TARGET_SIGCHLD; TARGET_SIGURG; TARGET_SIGWINCH; TARGET_SIGCONT; TARGET_SIGSTOP; TARGET_SIGTSTP; TARGET_SIGTTIN; TARGET_SIGTTOU]).

Definition core_dump_signal (sig : Z) : bool :=
  existsb (Z.eqb sig) [TARGET_SIGABRT; TARGET_SIGFPE; TARGET_SIGILL; TARGET_SIGQUIT; TARGET_SIGSEGV; TARGET_SIGTRAP; TARGET_SIGBUS].

(** ** The state of a thread *)

Record emulated_sigtable := mk_sigentry { pending : Z; info : target_siginfo }.

Record TaskState := mk_task {
  sync_signal : emulated_sigtable;
  sigtab : list emulated_sigtable;
  signal_mask : Z;
  sigsuspend_mask : Z;
  in_sigsuspend : bool;
  signal_pending : bool;
  ss_sp : Z;
  ss_size : Z
}.

(** A handler that the host kernel may have. *)
Inductive host_handler := HostDefault | HostIgnore | HostSignalHandler.

(** Calls of the host kernel, in order; [H_cpu_exit] asks the running
    translated code to stop. *)
Inductive host_call :=
| H_cpu_exit
| H_sigmask (set : Z)
| H_sigaction (sig : Z) (h : host_handler) (restart : bool)
| H_kill (sig : Z).

(** A thread with the dispositions of the process. *)
Record sigstate := mk_sigstate { ts : TaskState; sigact_table : list target_sigaction; calls : list host_call }.

Definition with_ts (st : sigstate) (t : TaskState) : sigstate := mk_sigstate t (sigact_table st) (calls st).
Definition with_mask (t : TaskState) (m : Z) : TaskState :=
  mk_task (sync_signal t) (sigtab t) m (sigsuspend_mask t) (in_sigsuspend t) (signal_pending t) (ss_sp t) (ss_size t).
Definition with_suspend (t : TaskState) (b : bool) : TaskState :=
  mk_task (sync_signal t) (sigtab t) (signal_mask t) (sigsuspend_mask t) b (signal_pending t) (ss_sp t) (ss_size t).
Definition with_pending (t : TaskState) (b : bool) : TaskState :=
  mk_task (sync_signal t) (sigtab t) (signal_mask t) (sigsuspend_mask t) (in_sigsuspend t) b (ss_sp t) (ss_size t).
Definition with_sync (t : TaskState) (e : emulated_sigtable) : TaskState :=
  mk_task e (sigtab t) (signal_mask t) (sigsuspend_mask t) (in_sigsuspend t) (signal_pending t) (ss_sp t) (ss_size t).
Definition with_sigtab (t : TaskState) (l : list emulated_sigtable) : TaskState :=
  mk_task (sync_signal t) l (signal_mask t) (sigsuspend_mask t) (in_sigsuspend t) (signal_pending t) (ss_sp t) (ss_size t).
Definition with_altstack (t : TaskState) (sp size : Z) : TaskState :=
  mk_task (sync_signal t) (sigtab t) (signal_mask t) (sigsuspend_mask t) (in_sigsuspend t) (signal_pending t) sp size.
Definition called (st : sigstate) (c : host_call) : sigstate := mk_sigstate (ts st) (sigact_table st) (calls st ++ [c]).

(** [sigact_table[sig - 1]] and [sigtab[sig - 1]]. *)
Definition entry_of {A} (l : list A) (sig : Z) : outcome A :=
  if sig <? 1 then Stop Undefined else match l !! Z.to_nat (sig - 1) with Some x => Ret x | None => Stop Undefined end.
Definition set_handler (st : sigstate) (sig h : Z) : outcome sigstate :=
  sa ← entry_of (sigact_table st) sig;
  Ret (mk_sigstate (ts st) (<[Z.to_nat (sig - 1) := mk_sigaction h (sa_flags sa) (sa_mask sa)]> (sigact_table st)) (calls st)).

(** ** Blocked signals *)

Inductive sig_how := SIG_BLOCK | SIG_UNBLOCK | SIG_SETMASK.

(** The result is the old mask; the function itself returns 0. *)
Definition do_sigprocmask (t : TaskState) (how : sig_how) (set : option Z) : Z * TaskState :=
  let old := signal_mask t in
  match set with
  | None => (old, t)
  | Some set =>
      let m := match how with
        | SIG_BLOCK => sigorset (signal_mask t) set
        | SIG_UNBLOCK => foldl (λ m i, if sigismember set i then sigdelset m i else m) (signal_mask t) (seqZ 1 HOST_NSIG)
        | SIG_SETMASK => set
        end in
      (old, with_mask t (sigdelset (sigdelset m SIGKILL) SIGSTOP))
  end.

Definition set_sigmask (t : TaskState) (set : Z) : TaskState := with_mask t set.

(** Everything is blocked for the host, and a signal marked as pending; the
    result is whether one was. *)
Definition block_signals (st : sigstate) : bool * sigstate :=
  let st := called st (H_sigmask sigfillset) in
  (signal_pending (ts st), with_ts st (with_pending (ts st) true)).

(** ** The alternate stack *)

Definition SS_ONSTACK : Z := 1.
Definition SS_DISABLE : Z := 4.
Definition TARGET_SS_ONSTACK : Z := 1.
Definition TARGET_SS_DISABLE : Z := 4.
Definition TARGET_MINSIGSTKSZ : Z := 2048.
Definition TARGET_EPERM : Z := 1.
Definition TARGET_ENOMEM : Z := 12.
Definition TARGET_EFAULT : Z := 14.
Definition TARGET_EINVAL : Z := 22.

Definition on_sig_stack (t : TaskState) (sp : Z) : bool := u64 (sp - ss_sp t) <? ss_size t.

Definition sas_ss_flags (t : TaskState) (sp : Z) : Z :=
  if ss_size t =? 0 then SS_DISABLE else if on_sig_stack t sp then SS_ONSTACK else 0.

Definition target_sigsp (t : TaskState) (sp : Z) (ka : target_sigaction) : Z :=
  if negb (Z.land (sa_flags ka) TARGET_SA_ONSTACK =? 0) && (sas_ss_flags t sp =? 0) then u64 (ss_sp t + ss_size t) else sp.

(** A [target_stack_t]: pointer, flags, size. *)
Definition altstack_words (t : TaskState) (sp : Z) : list Z := [ss_sp t; sas_ss_flags t sp; ss_size t].

(** The new stack [uss] is [None] for a null pointer and [Some None] where
    guest memory cannot be read; [oss_ok] tells, if the old one is asked for,
    whether it can be written. *)
Definition do_sigaltstack (t : TaskState) (uss : option (option (Z * Z * Z))) (oss_ok : option bool) (sp : Z) : Z * TaskState * option (list Z) :=
  let oss := altstack_words t sp in
  let finish t :=
    match oss_ok with
    | None => (0, t, None)
    | Some false => (- TARGET_EFAULT, t, None)
    | Some true => (0, t, Some oss)
    end in
  match uss with
  | None => finish t
  | Some None => (- TARGET_EFAULT, t, None)
  | Some (Some (sp', flags, size)) =>
      if on_sig_stack t sp then (- TARGET_EPERM, t, None)
      else if negb (flags =? TARGET_SS_DISABLE) && negb (flags =? TARGET_SS_ONSTACK) && negb (flags =? 0) then (- TARGET_EINVAL, t, None)
      else if flags =? TARGET_SS_DISABLE then finish (with_altstack t 0 0)
      else if size <? TARGET_MINSIGSTKSZ then (- TARGET_ENOMEM, t, None)
      else finish (with_altstack t sp' size)
  end.

(** ** Signals the guest causes itself *)

Definition queue_signal (t : TaskState) (sig si_type : Z) (i : target_siginfo) : TaskState :=
  let i := mk_siginfo (si_signo i) (si_errno i) (deposit32 (si_code i) 16 16 si_type) (sifields i) in
  with_pending (with_sync t (mk_sigentry sig i)) true.

(** The fields that are not set are whatever the stack holds. *)
Definition force_sig (t : TaskState) (sig : Z) (junk : list Z) : TaskState :=
  let f := match wr junk 0 (le_bytes 8 0) with Ret f => f | Stop _ => junk end in
  queue_signal t sig QEMU_SI_KILL (mk_siginfo sig 0 TARGET_SI_KERNEL f).

Definition force_sigsegv (st : sigstate) (oldsig : Z) (junk : list Z) : outcome sigstate :=
  st ← if oldsig =? SIGSEGV then set_handler st oldsig TARGET_SIG_DFL else Ret st;
  Ret (with_ts st (force_sig (ts st) TARGET_SIGSEGV junk)).
