(* ===== verification/Setjmp.v ===== *)
(** * Long jumps of the guest

    [bsd-user/setjmp.c]: the registers that a call preserves are saved in the
    guest's [jmp_buf] and restored from it, with the signal mask for the forms
    that ask for it.  The functions are registered for [setjmp], [longjmp] and
    their variants, so a guest that calls one of these runs them. *)

From S2P Require Import Prelude Bytes DyBridge Handlers Memory SigState.

(** ** The buffer *)

Definition JMP_r19_20 : Z := 0x00.
Definition JMP_d8_d9 : Z := 0x70.
Definition JMP_d10_d11 : Z := 0x80.
Definition JMP_d12_d13 : Z := 0x90.
Definition JMP_d14_d15 : Z := 0xA0.
Definition JMP_sig : Z := 0xB0.
Definition JMP_sigflag : Z := 0xB8.

(** The size of a [jmp_buf] of iOS: [_JBLEN] is 48 words of four bytes. *)
Definition SIZEOF_JMP_BUF : Z := 192.

(** The address of [buf[i]]. *)
Definition slot (buf i : Z) : Z := buf + 8 * i.

(** The entries of the buffer and the registers whose lower halves they hold. *)
Definition saved_d : list (Z * Z) :=
  [(Z.shiftr JMP_d8_d9 3, 8); (Z.shiftr JMP_d8_d9 3 + 1, 9); (Z.shiftr JMP_d10_d11 3, 10); (Z.shiftr JMP_d10_d11 3 + 1, 11);
   (Z.shiftr JMP_d12_d13 3, 12); (Z.shiftr JMP_d12_d13 3 + 1, 13); (Z.shiftr JMP_d14_d15 3, 14); (Z.shiftr JMP_d14_d15 3 + 1, 15)].

Fixpoint save_d (z : list Z) (buf : Z) (l : list (Z * Z)) (m : memory) : outcome memory :=
  match l with
  | [] => Ret m
  | (i, r) :: l => bs ← rd z (r * ZREG_SIZE) 8; m ← wr_mem m (slot buf i) bs; save_d z buf l m
  end.

Fixpoint load_d (m : memory) (buf : Z) (l : list (Z * Z)) (z : list Z) : outcome (list Z) :=
  match l with
  | [] => Ret z
  | (i, r) :: l => bs ← rd_mem m (slot buf i) 8; z ← wr z (r * ZREG_SIZE) bs; load_d m buf l z
  end.

(** ** Saving *)

(** The result is 0; given is the memory afterwards. *)
Definition _arm_setjmp (buf : Z) (env : CPUARMState) (m : memory) : outcome memory :=
  bs ← rd (xregs env) (19 * 8) (8 * 13);
  m ← wr_mem m (slot buf (Z.shiftr JMP_r19_20 3)) bs;
  save_d (zregs env) buf saved_d m.

(** [do_sigprocmask] with the buffer as [oldset]: a [sigset_t] has four bytes. *)
Definition save_mask (t : TaskState) (buf : Z) (m : memory) : outcome memory :=
  wr_mem m (slot buf (Z.shiftr JMP_sig 3)) (le_bytes 4 (do_sigprocmask t SIG_BLOCK None).1).

Definition arm_sigsetjmp (t : TaskState) (buf sigmask : Z) (env : CPUARMState) (m : memory) : outcome memory :=
  m ← wr_mem m (slot buf (Z.shiftr JMP_sigflag 3)) (le_bytes 8 sigmask);
  m ← if sigmask =? 0 then Ret m else save_mask t buf m;
  _arm_setjmp buf env m.

Definition arm_setjmp (t : TaskState) (buf : Z) (env : CPUARMState) (m : memory) : outcome memory :=
  m ← save_mask t buf m;
  _arm_setjmp buf env m.

(** ** Restoring *)

(** Registers, the new program counter and the result. *)
Definition _arm_longjmp (m : memory) (buf ret_val : Z) (env : CPUARMState) : outcome (CPUARMState * Z * Z) :=
  bs ← rd_mem m (slot buf (Z.shiftr JMP_r19_20 3)) (8 * 13);
  x ← wr (xregs env) (19 * 8) bs;
  z ← load_d m buf saved_d (zregs env);
  let env := mk_env x z in
  pc ← xreg env 30;
  Ret (env, pc, if ret_val =? 0 then 1 else ret_val).

Definition load_mask (t : TaskState) (m : memory) (a : Z) : outcome TaskState :=
  bs ← rd_mem m a 4;
  Ret (do_sigprocmask t SIG_SETMASK (Some (le_val bs))).2.

(** The indices are shifted by 2 here, as the source has it. *)
Definition arm_siglongjmp (t : TaskState) (m : memory) (buf ret_val : Z) (env : CPUARMState) : outcome (TaskState * (CPUARMState * Z * Z)) :=
  bs ← rd_mem m (slot buf (Z.shiftr JMP_sigflag 2)) 8;
  t ← if le_val bs =? 0 then Ret t else load_mask t m (slot buf (Z.shiftr JMP_sig 2));
  r ← _arm_longjmp m buf ret_val env;
  Ret (t, r).

Definition arm_longjmp (t : TaskState) (m : memory) (buf ret_val : Z) (env : CPUARMState) : outcome (TaskState * (CPUARMState * Z * Z)) :=
  t ← load_mask t m (slot buf (Z.shiftr JMP_sig 2));
  r ← _arm_longjmp m buf ret_val env;
  Ret (t, r).

(** ** The functions the guest calls *)

(** [xregs[0] = 0; pc = xregs[30]] *)
Definition setjmp_return (g : guest) (m : memory) : outcome guest :=
  env ← set_xreg (g_env g) 0 0;
  pc ← xreg env 30;
  Ret (mk_guest env pc m).

Definition call_arm_setjmp (t : TaskState) (g : guest) : outcome guest :=
  buf ← xreg (g_env g) 0;
  m ← arm_setjmp t buf (g_env g) (g_mem g);
  setjmp_return g m.

Definition call__arm_setjmp (g : guest) : outcome guest :=
  buf ← xreg (g_env g) 0;
  m ← _arm_setjmp buf (g_env g) (g_mem g);
  setjmp_return g m.

Definition call_arm_sigsetjmp (t : TaskState) (g : guest) : outcome guest :=
  buf ← xreg (g_env g) 0;
  sigmask ← xreg (g_env g) 1;
  m ← arm_sigsetjmp t buf (sext 32 sigmask) (g_env g) (g_mem g);
  setjmp_return g m.

(** [xregs[0] = ret], sign-extended. *)
Definition longjmp_return (g : guest) (r : CPUARMState * Z * Z) : outcome guest :=
  let '(env, pc, ret) := r in
  env ← set_xreg env 0 ret;
  Ret (mk_guest env pc (g_mem g)).

Definition call_arm_longjmp (t : TaskState) (g : guest) : outcome (TaskState * guest) :=
  buf ← xreg (g_env g) 0;
  val ← xreg (g_env g) 1;
  '(t, r) ← arm_longjmp t (g_mem g) buf (sext 32 val) (g_env g);
  g ← longjmp_return g r;
  Ret (t, g).

Definition call__arm_longjmp (g : guest) : outcome guest :=
  buf ← xreg (g_env g) 0;
  val ← xreg (g_env g) 1;
  r ← _arm_longjmp (g_mem g) buf (sext 32 val) (g_env g);
  longjmp_return g r.

Definition call_arm_siglongjmp (t : TaskState) (g : guest) : outcome (TaskState * guest) :=
  buf ← xreg (g_env g) 0;
  val ← xreg (g_env g) 1;
  '(t, r) ← arm_siglongjmp t (g_mem g) buf (sext 32 val) (g_env g);
  g ← longjmp_return g r;
  Ret (t, g).

(** ** What is saved and restored *)

Definition slots_ok (n : Z) (l : list (Z * Z)) : Prop := Forall (λ p, 0 ≤ p.1 ∧ 8 * p.1 + 8 ≤ n ∧ 0 ≤ p.2 < 32) l ∧ NoDup l.*1 ∧ NoDup l.*2.

Lemma slots_cons n i r l : slots_ok n ((i, r) :: l) → (0 ≤ i ∧ 8 * i + 8 ≤ n ∧ 0 ≤ r < 32) ∧ slots_ok n l ∧
  (∀ j q, (j, q) ∈ l → j ≠ i ∧ q ≠ r).
Proof.
  intros (Hf & H1 & H2). apply Forall_cons in Hf as [Hp Hf]. apply NoDup_cons in H1 as [N1 H1]. apply NoDup_cons in H2 as [N2 H2].
  split; [exact Hp|]. split; [by split|]. intros j q Hj. split; intros ->; [apply N1|apply N2]; by eapply (list_elem_of_fmap_2' _ _ (_, _)).
Qed.

Lemma saved_d_ok : slots_ok 0xB0 saved_d.
Proof. split_and!; [by repeat constructor|..]; apply (bool_decide_unpack _); by vm_compute. Qed.

Lemma save_d_ok z buf n : Z.of_nat (length z) = 32 * ZREG_SIZE → ∀ l m, slots_ok n l → mapped m buf n = true →
  ∃ m', save_d z buf l m = Ret m' ∧ (∀ i r, (i, r) ∈ l → rd_mem m' (slot buf i) 8 = rd z (r * ZREG_SIZE) 8) ∧
    (∀ x, (∀ i r, (i, r) ∈ l → x < slot buf i ∨ slot buf i + 8 ≤ x) → m' x = m x).
Proof.
  intros Hz. induction l as [|[i r] l IH]; intros m Hl Hm; [by exists m; split_and!; [|intros ? ? ?%elem_of_nil|]|].
  apply slots_cons in Hl as ((Hi & Hi' & Hr) & Hl & Hd). cbn [save_d].
  assert (rd z (r * ZREG_SIZE) 8 = Ret (take 8 (drop (Z.to_nat (r * ZREG_SIZE)) z))) as Hb by (apply (rd_ok _ _ 8); unfold ZREG_SIZE in *; lia).
  pose proof (rd_length _ _ 8 _ ltac:(done) Hb) as Hlen. rewrite Hb. cbn [mbind outcome_bind]. set (bs := take 8 _) in *.
  destruct (wr_mem_ok m (slot buf i) bs) as (m1 & Hw & Hin & Hout); [eapply mapped_sub; [exact Hm|unfold slot; lia..]|].
  rewrite Hw. cbn [mbind outcome_bind]. destruct (IH m1 Hl) as (m' & -> & Hs & Hk); [by erewrite wr_mem_mapped|].
  exists m'. split; [done|]. split.
  - intros j q [[= -> ->]|Hj]%elem_of_cons; [|by apply Hs].
    rewrite Hb. rewrite (rd_mem_ext m1); [|intros x Hx; apply Hk; intros j q Hj; destruct (Hd _ _ Hj); unfold slot in *; lia].
    pose proof (rd_wr_mem_same _ _ _ _ 0 8 Hw ltac:(done) ltac:(done) ltac:(lia)) as H. rewrite Z.add_0_r in H. rewrite H, drop_0, take_ge by lia. done.
  - intros x Hx. rewrite Hk by (intros; apply (Hx _ r0), elem_of_cons; auto). apply Hout. destruct (Hx i r ltac:(apply elem_of_cons; auto)); lia.
Qed.

Lemma load_d_ok m buf n : ∀ l z, Z.of_nat (length z) = 32 * ZREG_SIZE → slots_ok n l →
  (∀ i r, (i, r) ∈ l → ∃ bs, rd_mem m (slot buf i) 8 = Ret bs) →
  ∃ z', load_d m buf l z = Ret z' ∧ length z' = length z ∧ (∀ i r, (i, r) ∈ l → rd z' (r * ZREG_SIZE) 8 = rd_mem m (slot buf i) 8) ∧
    (∀ o k, 0 ≤ k → (∀ i r, (i, r) ∈ l → o + k ≤ r * ZREG_SIZE ∨ r * ZREG_SIZE + 8 ≤ o) → rd z' o k = rd z o k).
Proof.
  induction l as [|[i r] l IH]; intros z Hz Hl Hm; [by exists z; split_and!; [| |intros ? ? ?%elem_of_nil|]|].
  apply slots_cons in Hl as ((Hi & Hi' & Hr) & Hl & Hd). cbn [load_d].
  destruct (Hm i r) as [bs Hb]; [apply elem_of_cons; auto|]. pose proof (rd_mem_length _ _ 8 _ ltac:(done) Hb) as Hlen.
  rewrite Hb. cbn [mbind outcome_bind]. assert (∃ z1, wr z (r * ZREG_SIZE) bs = Ret z1) as [z1 Hw] by (eexists; apply wr_ok; unfold ZREG_SIZE in *; lia).
  rewrite Hw. cbn [mbind outcome_bind]. pose proof (wr_length _ _ _ _ Hw) as Hz1.
  destruct (IH z1) as (z' & -> & Hz' & Hs & Hk); [by rewrite Hz1|done|intros; eapply Hm, elem_of_cons; eauto|].
  exists z'. split; [done|]. split; [congruence|]. split.
  - intros j q [[= -> ->]|Hj]%elem_of_cons; [|by apply Hs]. rewrite Hk; [|lia|intros j q Hj; destruct (Hd _ _ Hj); unfold ZREG_SIZE in *; lia].
    pose proof (rd_wr_same _ _ _ _ 0 8 Hw ltac:(done) ltac:(done) ltac:(lia)) as H. rewrite Z.add_0_r in H. rewrite H, Hb, drop_0, take_ge by lia. done.
  - intros o k Hk0 Ho. rewrite Hk; [|done|intros; eapply Ho, elem_of_cons; eauto]. eapply rd_wr_other; [exact Hw|]. destruct (Ho i r ltac:(apply elem_of_cons; auto)); lia.
Qed.

(** The buffer holds the registers of [env]. *)
Definition jmp_saved (m : memory) (buf : Z) (env : CPUARMState) : Prop :=
  rd_mem m buf (8 * 13) = rd (xregs env) (19 * 8) (8 * 13) ∧ ∀ i r, (i, r) ∈ saved_d → rd_mem m (slot buf i) 8 = rd (zregs env) (r * ZREG_SIZE) 8.

(** [env'] has the registers of [saved] that a call preserves, and the others of [env]. *)
Definition jmp_restored (saved env env' : CPUARMState) : Prop :=
  (∀ k, 19 ≤ k ≤ 31 → xreg env' k = xreg saved k) ∧ (∀ k, 0 ≤ k < 19 → xreg env' k = xreg env k) ∧
  (∀ k, 8 ≤ k ≤ 15 → rd (zregs env') (k * ZREG_SIZE) 8 = rd (zregs saved) (k * ZREG_SIZE) 8) ∧
  (∀ k, 0 ≤ k < 32 → k < 8 ∨ 15 < k → rd (zregs env') (k * ZREG_SIZE) ZREG_SIZE = rd (zregs env) (k * ZREG_SIZE) ZREG_SIZE).

Lemma in_saved_d i r : (i, r) ∈ saved_d ↔ 8 ≤ r ≤ 15 ∧ i = r + 6.
Proof.
  unfold saved_d. cbn. rewrite !elem_of_cons, elem_of_nil. split; [naive_solver lia|].
  intros [Hr ->]. assert (r = 8 ∨ r = 9 ∨ r = 10 ∨ r = 11 ∨ r = 12 ∨ r = 13 ∨ r = 14 ∨ r = 15) as H by lia. destruct_or! H; subst; auto 10.
Qed.

Lemma env_ok_xlen env : env_ok env → Z.of_nat (length (xregs env)) = 256.
Proof. by intros [? _]. Qed.
Lemma env_ok_zlen env : env_ok env → Z.of_nat (length (zregs env)) = 32 * ZREG_SIZE.
Proof. by intros (_ & ? & _). Qed.

Lemma setjmp_ok buf env m : env_ok env → mapped m buf 0xB0 = true →
  ∃ m', _arm_setjmp buf env m = Ret m' ∧ jmp_saved m' buf env ∧ ∀ x, x < buf ∨ buf + 0xB0 ≤ x → m' x = m x.
Proof.
  intros He Hm. pose proof (env_ok_xlen _ He) as Hx. unfold _arm_setjmp. assert (∃ bs, rd (xregs env) (19 * 8) (8 * 13) = Ret bs) as [bs Hb] by (eexists; apply rd_ok; lia).
  pose proof (rd_length _ _ 104 _ ltac:(done) Hb) as Hl. rewrite Hb. cbn [mbind outcome_bind]. change (slot buf (Z.shiftr JMP_r19_20 3)) with (buf + 0). rewrite Z.add_0_r.
  destruct (wr_mem_ok m buf bs) as (m1 & Hw & _ & Hout); [eapply mapped_sub; [exact Hm|lia..]|]. rewrite Hw. cbn [mbind outcome_bind].
  destruct (save_d_ok (zregs env) buf 0xB0 (env_ok_zlen _ He) saved_d m1 saved_d_ok) as (m' & -> & Hs & Hk); [by erewrite wr_mem_mapped|].
  exists m'. split; [done|]. split; [split|]; [|exact Hs|].
  - rewrite (rd_mem_ext m1); [|intros x Hxx; apply Hk; intros i r [? ->]%in_saved_d; unfold slot; lia].
    pose proof (rd_wr_mem_same _ _ _ _ 0 104 Hw ltac:(done) ltac:(done) ltac:(lia)) as H. rewrite Z.add_0_r, drop_0, take_ge in H by lia. by rewrite Hb.
  - intros x Hxx. rewrite Hk by (intros i r [? ->]%in_saved_d; unfold slot; lia). apply Hout. lia.
Qed.

Lemma longjmp_ok saved m buf v env : env_ok saved → env_ok env → jmp_saved m buf saved →
  ∃ env' pc, _arm_longjmp m buf v env = Ret (env', pc, if v =? 0 then 1 else v) ∧ xreg saved 30 = Ret pc ∧ jmp_restored saved env env' ∧ Z.of_nat (length (xregs env')) = 256.
Proof.
  intros Hs He [Hx Hd]. pose proof (env_ok_xlen _ Hs) as Hl. pose proof (env_ok_xlen _ He) as Hl'. unfold _arm_longjmp.
  change (slot buf (Z.shiftr JMP_r19_20 3)) with (buf + 0). rewrite Z.add_0_r, Hx.
  assert (∃ bs, rd (xregs saved) (19 * 8) (8 * 13) = Ret bs) as [bs Hb] by (eexists; apply rd_ok; lia). rewrite Hb. cbn [mbind outcome_bind].
  pose proof (rd_length _ _ 104 _ ltac:(done) Hb) as Hlb. assert (∃ x, wr (xregs env) (19 * 8) bs = Ret x) as [x Hw] by (eexists; apply wr_ok; lia). rewrite Hw. cbn [mbind outcome_bind].
  destruct (load_d_ok m buf 0xB0 saved_d (zregs env) (env_ok_zlen _ He) saved_d_ok) as (z & -> & Hz & Hld & Hk).
  { intros i r Hi. rewrite (Hd i r Hi). eexists. apply rd_ok; apply in_saved_d in Hi; pose proof (env_ok_zlen _ Hs); unfold ZREG_SIZE in *; lia. }
  cbn [mbind outcome_bind]. assert (∀ k, 19 ≤ k ≤ 31 → xreg (mk_env x z) k = xreg saved k) as Hhi.
  { intros k Hk1. unfold xreg. cbn [xregs]. replace (k * 8) with (19 * 8 + (k - 19) * 8) at 1 by lia. rewrite (rd_wr_same _ _ _ _ _ 8 Hw) by lia.
    apply rd_inv in Hb as (_ & _ & ->). rewrite rd_ok by lia. do 2 f_equal.
    rewrite (take_drop_commute (take _ _)), take_take, Nat.min_l, <- take_drop_commute, drop_drop by lia. do 2 f_equal. lia. }
  assert (∃ pc, xreg saved 30 = Ret pc) as [pc Hpc] by (unfold xreg; rewrite rd_ok by lia; by eexists). rewrite (Hhi 30), Hpc by lia. cbn [mbind outcome_bind].
  exists (mk_env x z), pc. split; [done|]. split; [done|]. split; [|cbn [xregs]; by rewrite (wr_length _ _ _ _ Hw)]. split; [exact Hhi|]. split; [|split].
  - intros k Hk1. unfold xreg. cbn [xregs]. by rewrite (rd_wr_other _ _ _ _ (k * 8) 8 Hw) by lia.
  - intros k Hk1. cbn [zregs]. assert ((k + 6, k) ∈ saved_d) as Hi by (by apply in_saved_d). by rewrite (Hld _ _ Hi), (Hd _ _ Hi).
  - intros k Hk1 Hk2. cbn [zregs]. apply Hk; [unfold ZREG_SIZE; lia|]. intros i r [? ->]%in_saved_d. unfold ZREG_SIZE. lia.
Qed.

(** ** Properties *)

Lemma set_xreg_ok env k v : Z.of_nat (length (xregs env)) = 256 → 0 ≤ k < 32 →
  ∃ env', set_xreg env k v = Ret env' ∧ zregs env' = zregs env ∧ xreg env' k = Ret (u64 v) ∧ ∀ j, 0 ≤ j < 32 → j ≠ k → xreg env' j = xreg env j.
Proof.
  intros Hl Hk. unfold set_xreg. assert (∃ l, wr (xregs env) (k * 8) (le_bytes 8 v) = Ret l) as [l Hw] by (eexists; apply wr_ok; rewrite ?length_le_bytes; lia).
  rewrite Hw. eexists. split; [done|]. split; [done|]. unfold xreg. cbn [xregs]. split.
  - replace (k * 8) with (k * 8 + 0) by lia. rewrite (rd_wr_same _ _ _ _ 0 8 Hw) by (rewrite ?length_le_bytes; lia). rewrite drop_0, take_ge by (rewrite length_le_bytes; lia).
    cbn [fmap outcome_fmap]. by rewrite le_val_bytes.
  - intros j Hj Hne. by rewrite (rd_wr_other _ _ _ _ (j * 8) 8 Hw) by (rewrite length_le_bytes; lia).
Qed.

(** The guest returns from [setjmp]: only X0 and the buffer have changed. *)
Definition setjmp_returned (g g1 : guest) (buf : Z) : Prop :=
  xreg (g_env g1) 0 = Ret 0 ∧ xreg (g_env g) 30 = Ret (g_pc g1) ∧ (∀ k, 1 ≤ k < 32 → xreg (g_env g1) k = xreg (g_env g) k) ∧
  zregs (g_env g1) = zregs (g_env g) ∧ ∀ x, x < buf ∨ buf + SIZEOF_JMP_BUF ≤ x → g_mem g1 x = g_mem g x.

Lemma setjmp_return_ok g m buf : env_ok (g_env g) → (∀ x, x < buf ∨ buf + SIZEOF_JMP_BUF ≤ x → m x = g_mem g x) →
  ∃ g1, setjmp_return g m = Ret g1 ∧ g_mem g1 = m ∧ setjmp_returned g g1 buf.
Proof.
  intros He Hm. destruct (set_xreg_ok (g_env g) 0 0 (env_ok_xlen _ He) ltac:(lia)) as (env' & Hset & Hz & H0 & Hk). unfold setjmp_return. rewrite Hset. cbn [mbind outcome_bind].
  rewrite (Hk 30) by lia. assert (∃ pc, xreg (g_env g) 30 = Ret pc) as [pc Hpc] by (unfold xreg; rewrite rd_ok by (pose proof (env_ok_xlen _ He); lia); by eexists).
  rewrite Hpc. eexists. split; [done|]. split; [done|]. split_and!; cbn [g_env g_pc g_mem]; try done. intros k Hk1. apply Hk; lia.
Qed.

(** The guest is back behind its call of [setjmp], which gives [v], or 1 if that is 0. *)
Definition longjmp_returned (saved : guest) (v : Z) (g g3 : guest) : Prop :=
  xreg (g_env saved) 30 = Ret (g_pc g3) ∧ xreg (g_env g3) 0 = Ret (u64 (if sext 32 v =? 0 then 1 else sext 32 v)) ∧ g_mem g3 = g_mem g ∧
  ∃ env', jmp_restored (g_env saved) (g_env g) env' ∧ zregs (g_env g3) = zregs env' ∧ ∀ k, 1 ≤ k < 32 → xreg (g_env g3) k = xreg env' k.

Lemma longjmp_return_ok saved g buf v : env_ok (g_env saved) → env_ok (g_env g) → jmp_saved (g_mem g) buf (g_env saved) →
  ∃ g3, (r ← _arm_longjmp (g_mem g) buf (sext 32 v) (g_env g); longjmp_return g r) = Ret g3 ∧ longjmp_returned saved v g g3.
Proof.
  intros Hs He Hb. destruct (longjmp_ok _ _ _ (sext 32 v) _ Hs He Hb) as (env' & pc & -> & Hpc & Hr & Hl). cbn [mbind outcome_bind longjmp_return].
  destruct (set_xreg_ok env' 0 (if sext 32 v =? 0 then 1 else sext 32 v) Hl ltac:(lia)) as (env2 & -> & Hz & H0 & Hk). eexists. split; [done|].
  split_and!; try done. exists env'. split_and!; [done|done|]. intros k Hk1. apply Hk; lia.
Qed.

Lemma jmp_saved_ext m m' buf env : (∀ x, buf ≤ x < buf + 0xB0 → m' x = m x) → jmp_saved m buf env → jmp_saved m' buf env.
Proof.
  intros He [Hx Hd]. split; [rewrite <- Hx|intros i r Hi; rewrite <- (Hd i r Hi); apply in_saved_d in Hi]; apply rd_mem_ext; intros x Hxx; apply He; unfold slot in *; lia.
Qed.

(** C22.  [_longjmp] brings the guest back to its call of [_setjmp], however it got
    on in between, as long as the buffer is not overwritten: the program
    counter, the stack pointer and every register that a call preserves are
    those of the call, the result is the given value or 1, all other registers
    and the memory stay. *)
Theorem longjmp_returns_to_setjmp g buf : env_ok (g_env g) → xreg (g_env g) 0 = Ret buf → mapped (g_mem g) buf SIZEOF_JMP_BUF = true →
  ∃ g1, call__arm_setjmp g = Ret g1 ∧ setjmp_returned g g1 buf ∧
    ∀ g2 v, env_ok (g_env g2) → xreg (g_env g2) 0 = Ret buf → xreg (g_env g2) 1 = Ret v → (∀ x, buf ≤ x < buf + SIZEOF_JMP_BUF → g_mem g2 x = g_mem g1 x) →
      ∃ g3, call__arm_longjmp g2 = Ret g3 ∧ longjmp_returned g v g2 g3.
Proof.
  intros He H0 Hm. unfold call__arm_setjmp. rewrite H0. cbn [mbind outcome_bind].
  destruct (setjmp_ok buf (g_env g) (g_mem g) He) as (m & -> & Hs & Hout); [eapply mapped_sub; [exact Hm|unfold SIZEOF_JMP_BUF; lia..]|]. cbn [mbind outcome_bind].
  destruct (setjmp_return_ok g m buf He) as (g1 & -> & <- & Hr); [intros x Hx; apply Hout; unfold SIZEOF_JMP_BUF in Hx; lia|].
  exists g1. split; [done|]. split; [done|]. intros g2 v He2 H02 H12 Heq. unfold call__arm_longjmp. rewrite H02. cbn [mbind outcome_bind]. rewrite H12. cbn [mbind outcome_bind].
  apply (longjmp_return_ok g g2 buf); [done..|]. eapply jmp_saved_ext; [|exact Hs]. intros x Hx. apply Heq. unfold SIZEOF_JMP_BUF. lia.
Qed.

(** A guest whose registers are 8192, the buffer, and 101, 102, ...; later
    X0 is the buffer again, X1 is 7 and everything else is 0. *)
Definition jmp_env : CPUARMState := mk_env (concat (le_bytes 8 <$> (8192 :: seqZ 101 31))) ((λ i, i mod 253) <$> seqZ 0 (32 * ZREG_SIZE)).
Definition jmp_guest : guest := mk_guest jmp_env 4096 (region 8192 (replicate 192 0) (λ _, None)).
Definition jmp_later : CPUARMState := mk_env (concat (le_bytes 8 <$> (8192 :: 7 :: replicate 30 0))) (replicate (Z.to_nat (32 * ZREG_SIZE)) 0).

Lemma jmp_env_ok : env_ok jmp_env.
Proof. split_and!; [done|done|..]; solve_bytes_ok. Qed.
Lemma jmp_later_ok : env_ok jmp_later.
Proof. split_and!; [done|done|..]; solve_bytes_ok. Qed.

Lemma longjmp_returns_to_setjmp_witness : ∃ g1 g3, call__arm_setjmp jmp_guest = Ret g1 ∧ xreg (g_env g1) 0 = Ret 0 ∧ g_pc g1 = 130 ∧
  call__arm_longjmp (mk_guest jmp_later 5000 (g_mem g1)) = Ret g3 ∧ xreg (g_env g3) 0 = Ret 7 ∧ g_pc g3 = 130 ∧ xreg (g_env g3) 31 = Ret 131.
Proof.
  destruct (longjmp_returns_to_setjmp jmp_guest 8192 jmp_env_ok) as (g1 & H1 & (H0 & Hpc & _) & Hj); [by vm_compute..|].
  destruct (Hj (mk_guest jmp_later 5000 (g_mem g1)) 7 jmp_later_ok) as (g3 & H3 & Hpc3 & H03 & _ & env' & Hr & _ & Hk); [by vm_compute..|done|].
  exists g1, g3. split_and!; [exact H1|exact H0| |exact H3|exact H03| |].
  - assert (xreg jmp_env 30 = Ret 130) as E by (vm_compute; reflexivity). apply Ret_inj. by rewrite <- Hpc.
  - assert (xreg jmp_env 30 = Ret 130) as E by (vm_compute; reflexivity). apply Ret_inj. by rewrite <- Hpc3.
  - rewrite (Hk 31) by lia. rewrite (proj1 Hr 31) by lia. vm_compute. reflexivity.
Defined.

Lemma save_mask_ok t buf m : mapped m buf SIZEOF_JMP_BUF = true →
  ∃ m', save_mask t buf m = Ret m' ∧ rd_mem m' (buf + JMP_sig) 4 = Ret (le_bytes 4 (signal_mask t)) ∧ (∀ a n, mapped m' a n = mapped m a n) ∧
    ∀ x, x < buf + JMP_sig ∨ buf + JMP_sig + 4 ≤ x → m' x = m x.
Proof.
  intros Hm. unfold save_mask. change (slot buf (Z.shiftr JMP_sig 3)) with (buf + JMP_sig). cbn [do_sigprocmask fst].
  destruct (wr_mem_ok m (buf + JMP_sig) (le_bytes 4 (signal_mask t))) as (m' & Hw & _ & Hout); [eapply mapped_sub; [exact Hm|rewrite ?length_le_bytes; unfold JMP_sig, SIZEOF_JMP_BUF; lia..]|].
  exists m'. split; [done|]. split; [|split; [intros; by eapply wr_mem_mapped|intros x Hx; apply Hout; rewrite length_le_bytes; lia]].
  pose proof (rd_wr_mem_same _ _ _ _ 0 4 Hw ltac:(done) ltac:(done) ltac:(rewrite length_le_bytes; lia)) as H. by rewrite Z.add_0_r in H.
Qed.

(** [longjmp] restores the registers, but not the signal mask that [setjmp]
    saved: it takes the mask from 176 bytes further on, from behind the end
    of the buffer. *)
Theorem longjmp_takes_another_mask t g buf : env_ok (g_env g) → xreg (g_env g) 0 = Ret buf → mapped (g_mem g) buf SIZEOF_JMP_BUF = true →
  ∃ g1, call_arm_setjmp t g = Ret g1 ∧ setjmp_returned g g1 buf ∧ rd_mem (g_mem g1) (buf + JMP_sig) 4 = Ret (le_bytes 4 (signal_mask t)) ∧
    ∀ t2 g2 v bs, env_ok (g_env g2) → xreg (g_env g2) 0 = Ret buf → xreg (g_env g2) 1 = Ret v → (∀ x, buf ≤ x < buf + SIZEOF_JMP_BUF → g_mem g2 x = g_mem g1 x) →
      rd_mem (g_mem g2) (buf + SIZEOF_JMP_BUF + 160) 4 = Ret bs →
      ∃ g3, call_arm_longjmp t2 g2 = Ret (with_mask t2 (sigdelset (sigdelset (le_val bs) SIGKILL) SIGSTOP), g3) ∧ longjmp_returned g v g2 g3.
Proof.
  intros He H0 Hm. unfold call_arm_setjmp. rewrite H0. cbn [mbind outcome_bind]. unfold arm_setjmp.
  destruct (save_mask_ok t buf (g_mem g) Hm) as (m1 & -> & Hsig & Hmap & Hout1). cbn [mbind outcome_bind].
  destruct (setjmp_ok buf (g_env g) m1 He) as (m & -> & Hs & Hout); [rewrite Hmap; eapply mapped_sub; [exact Hm|unfold SIZEOF_JMP_BUF; lia..]|]. cbn [mbind outcome_bind].
  destruct (setjmp_return_ok g m buf He) as (g1 & -> & <- & Hr); [intros x Hx; rewrite Hout by (unfold SIZEOF_JMP_BUF in Hx; lia); apply Hout1; unfold SIZEOF_JMP_BUF, JMP_sig in *; lia|].
  exists g1. split; [done|]. split; [done|]. split; [rewrite <- Hsig; apply rd_mem_ext; intros x Hx; apply Hout; unfold JMP_sig in Hx; lia|].
  intros t2 g2 v bs He2 H02 H12 Heq Hbs. unfold call_arm_longjmp. rewrite H02. cbn [mbind outcome_bind]. rewrite H12. cbn [mbind outcome_bind].
  unfold arm_longjmp, load_mask. change (slot buf (Z.shiftr JMP_sig 2)) with (buf + 352). replace (buf + 352) with (buf + SIZEOF_JMP_BUF + 160) by (unfold SIZEOF_JMP_BUF; lia).
  rewrite Hbs. cbn [mbind outcome_bind]. destruct (longjmp_return_ok g g2 buf v He He2) as (g3 & H3 & Hr3).
  { eapply jmp_saved_ext; [|exact Hs]. intros x Hx. apply Heq. unfold SIZEOF_JMP_BUF. lia. }
  exists g3. split; [|exact Hr3]. destruct (_arm_longjmp _ _ _ _) as [r|]; [|discriminate H3]. cbn [mbind outcome_bind] in H3 |- *. by rewrite H3.
Qed.
