(* ===== verification/XLoopSpec.v ===== *)
(** * Nested calls between host and guest

    The list of frames of [XLoop], with its pointers into registers and
    activations, implements a stack of suspended guests: what the unwinder
    reads through the pointers is the registers of the running guest, then
    those of each guest that was suspended by a call into the host, whatever
    sequence of calls, returns and unwinding led there.  A call from host to
    guest, with everything that is nested in it, leaves the activations of its
    callers as they were. *)

From stdpp Require Import gmap.
From S2P Require Import CString Prelude Bytes DyBridge Handlers Memory X2ACode Pages PagesInv Callbacks Setjmp XLoop.

(** ** Registers *)

(** Stack pointer, frame pointer and link register, as the unwinder gets them. *)
Definition unwind_regs (env : CPUARMState) : outcome (Z * Z * Z) :=
  sp ← xreg env 31; fp ← xreg env 29; lr ← xreg env 30; Ret (sp, fp, lr).
Definition saved_regs (a : activation) : Z * Z * Z := (saved_sp a, saved_fp a, saved_lr a).

Lemma xreg_defined env k : env_ok env → 0 ≤ k < 32 → ∃ v, xreg env k = Ret v ∧ in_u 64 v.
Proof.
  intros (Hx & _ & Hb & _) Hk. unfold xreg. rewrite rd_ok by lia. eexists. split; [done|].
  assert (in_u 64 (le_val (take (Z.to_nat 8) (drop (Z.to_nat (k * 8)) (xregs env))))) as Hr; [|exact Hr].
  pose proof (le_val_range (take (Z.to_nat 8) (drop (Z.to_nat (k * 8)) (xregs env)))) as Hv. rewrite length_take, length_drop in Hv.
  replace (Z.of_nat _) with 8 in Hv by lia. apply Hv, Forall_take, Forall_drop, Hb.
Qed.

Lemma set_xreg_env_ok env k v env' : env_ok env → set_xreg env k v = Ret env' → env_ok env'.
Proof.
  intros (Hx & Hz & Hbx & Hbz) Hs. unfold set_xreg in Hs. destruct (wr _ _ _) as [l|] eqn:Hw; [|done]. injection Hs as <-.
  split_and!; cbn [xregs zregs]; try done; [by rewrite (wr_length _ _ _ _ Hw)|].
  apply wr_inv in Hw as (_ & _ & ->). repeat (apply Forall_app; split); [by apply Forall_take|apply le_bytes_ok|by apply Forall_drop].
Qed.

(** ** The invariant *)

Definition points_to (a : activation) (loc : Z → reg_loc) : Prop :=
  p_arm64_pc (a_cfi a) = loc 30 ∧ p_arm64_fp (a_cfi a) = loc 29 ∧ p_arm64_sp (a_cfi a) = loc 31.

(** The entries of a list, youngest first: the first points to [loc], every
    other to the activation in front of it. *)
Fixpoint linked (fs : list activation) (loc : Z → reg_loc) (l : list nat) : Prop :=
  match l with
  | [] => True
  | id :: l => (∃ a, fs !! id = Some a ∧ points_to a loc) ∧ Forall (λ j, (j < id)%nat) l ∧ linked fs (InFrame id) l
  end.

Lemma linked_bound fs loc l id : linked fs loc l → id ∈ l → ∃ a, fs !! id = Some a.
Proof.
  revert loc. induction l as [|i l IH]; intros loc Hl Hin; [by apply elem_of_nil in Hin|].
  destruct Hl as ((a & Ha & _) & _ & Hl). apply elem_of_cons in Hin as [->|Hin]; eauto.
Qed.

(** Activations that are not in the list do not matter. *)
Lemma linked_ext fs fs' loc l : (∀ id, id ∈ l → fs' !! id = fs !! id) → linked fs loc l → linked fs' loc l.
Proof.
  revert loc. induction l as [|i l IH]; intros loc He Hl; [done|]. destruct Hl as ((a & Ha & Hp) & Hf & Hl). split; [|split].
  - exists a. rewrite He by (apply elem_of_cons; auto). done.
  - done.
  - apply IH; [|done]. intros id Hid. apply He, elem_of_cons. auto.
Qed.

Lemma linked_relink fs loc loc' id l a : linked fs loc (id :: l) → fs !! id = Some a →
  linked (<[id := act_cfi a (set_locs (a_cfi a) loc')]> fs) loc' (id :: l).
Proof.
  intros ((a' & _ & _) & Hf & Hl) Ha. split; [|split; [done|]].
  - eexists. split; [apply list_lookup_insert_eq; by eapply lookup_lt_Some|by split_and!].
  - eapply linked_ext; [|exact Hl]. intros j Hj. rewrite list_lookup_insert_ne; [done|]. rewrite Forall_forall in Hf. specialize (Hf j Hj). lia.
Qed.

Lemma linked_drop n fs loc l : linked fs loc l → ∃ loc', linked fs loc' (drop n l) ∧
  match n with O => loc' = loc | S k => match l !! k with Some id => loc' = InFrame id | None => True end end.
Proof.
  revert loc l. induction n as [|n IH]; intros loc l Hl; [by exists loc|]. destruct l as [|id l]; [by exists loc|]. destruct Hl as (_ & _ & Hl).
  destruct (IH _ _ Hl) as (loc' & Hl' & Hn). exists loc'. split; [exact Hl'|]. destruct n as [|n]; [done|exact Hn].
Qed.

Lemma linked_tail_lt fs loc l n id j : linked fs loc l → l !! n = Some id → j ∈ drop (S n) l → (j < id)%nat.
Proof.
  revert loc n. induction l as [|i l IH]; intros loc n Hl Hn Hj; [done|]. destruct Hl as (_ & Hf & Hl). destruct n as [|n]; [|by apply (IH _ n Hl)].
  injection Hn as ->. rewrite Forall_forall in Hf. by apply Hf.
Qed.

(** What the entries of the list have saved. *)
Definition suspended (fs : list activation) (l : list nat) (S : list (Z * Z * Z)) : Prop :=
  Forall2 (λ id s, ∃ a, fs !! id = Some a ∧ saved_regs a = s) l S.

Lemma suspended_ext fs fs' l S : (∀ id a, id ∈ l → fs !! id = Some a → ∃ a', fs' !! id = Some a' ∧ saved_regs a' = saved_regs a) → suspended fs l S → suspended fs' l S.
Proof.
  intros He HS. induction HS as [|id s l S (a & Ha & <-) HS IH]; [constructor|]. constructor.
  - apply He; [apply elem_of_cons; auto|done].
  - apply IH. intros i b Hi. apply He, elem_of_cons. auto.
Qed.

Lemma suspended_insert fs id a e l S : fs !! id = Some a → suspended fs l S → suspended (<[id := act_cfi a e]> fs) l S.
Proof.
  intros Ha. apply suspended_ext. intros j b _ Hb. destruct (decide (j = id)) as [->|Hne].
  - exists (act_cfi a e). split; [apply list_lookup_insert_eq; by eapply lookup_lt_Some|]. by simplify_eq.
  - exists b. by rewrite list_lookup_insert_ne.
Qed.

Section spec.
Context {H : Type} {HV : HostVM H}.
Implicit Type th : thread H.

Record xloop_wf th (S : list (Z * Z * Z)) : Prop := mk_xloop_wf {
  xw_env : env_ok (g_env (t_guest th));
  xw_linked : linked (frames th) InEnv (CFIhead th);
  xw_stack : suspended (frames th) (CFIhead th) S
}.

(** ** What the unwinder reads *)

(** The registers of the running guest, then those of the suspended ones; the
    last one saved are those of before the first call. *)
Definition unwind_view (r : Z * Z * Z) (S : list (Z * Z * Z)) (i : Z) : option (Z * Z * Z) :=
  if Z.of_nat (length S) <=? Z.max 0 i then None else if i <=? 0 then Some r else S !! Z.to_nat (i - 1).

Lemma read_env_locs th a r : points_to a InEnv → unwind_regs (g_env (t_guest th)) = Ret r →
  (sp ← read_loc th (p_arm64_sp (a_cfi a)); fp ← read_loc th (p_arm64_fp (a_cfi a)); pc ← read_loc th (p_arm64_pc (a_cfi a)); Ret (Some (sp, fp, pc))) = Ret (Some r).
Proof.
  intros (-> & -> & ->) Hr. unfold unwind_regs in Hr. cbn [read_loc]. destruct (xreg _ 31); [|done]. cbn [mbind outcome_bind] in Hr |- *.
  destruct (xreg _ 29); [|done]. cbn [mbind outcome_bind] in Hr |- *. destruct (xreg _ 30); [|done]. cbn [mbind outcome_bind] in Hr |- *. by injection Hr as ->.
Qed.

Lemma read_frame_locs th a id b : points_to a (InFrame id) → frames th !! id = Some b →
  (sp ← read_loc th (p_arm64_sp (a_cfi a)); fp ← read_loc th (p_arm64_fp (a_cfi a)); pc ← read_loc th (p_arm64_pc (a_cfi a)); Ret (Some (sp, fp, pc))) = Ret (Some (saved_regs b)).
Proof. intros (-> & -> & ->) Hb. cbn [read_loc]. unfold frame_of. by rewrite Hb. Qed.

Lemma arm64_view th S r i : xloop_wf th S → unwind_regs (g_env (t_guest th)) = Ret r → iqemu_get_arm64_CFI th i = Ret (unwind_view r S i).
Proof.
  intros [_ Hl HS] Hr. unfold iqemu_get_arm64_CFI, cfi_at, unwind_view. pose proof (Forall2_length _ _ _ HS) as Hlen.
  destruct (Z.leb_spec (Z.of_nat (length S)) (Z.max 0 i)) as [Hi|Hi]; [by rewrite lookup_ge_None_2 by lia|].
  destruct (lookup_lt_is_Some_2 (CFIhead th) (Z.to_nat i) ltac:(lia)) as [id Hid]. rewrite Hid.
  destruct (linked_drop (Z.to_nat i) _ _ _ Hl) as (loc & Hd & Hloc). rewrite (drop_S _ _ _ Hid) in Hd. destruct Hd as ((a & Ha & Hp) & _ & _).
  unfold frame_of at 1. rewrite Ha. cbn [mbind outcome_bind]. destruct (Z.leb_spec i 0) as [H0|H0].
  - replace (Z.to_nat i) with 0%nat in Hloc by lia. subst loc. by apply read_env_locs.
  - replace (Z.to_nat i) with (Datatypes.S (Z.to_nat (i - 1))) in Hloc by lia.
    destruct (lookup_lt_is_Some_2 (CFIhead th) (Z.to_nat (i - 1)) ltac:(lia)) as [id' Hid']. rewrite Hid' in Hloc. subst loc.
    destruct (Forall2_lookup_l _ _ _ _ _ HS Hid') as (s & Hs & b & Hb & <-). rewrite Hs. by apply read_frame_locs with id'.
Qed.

(** ** Operations that leave the list alone *)

Definition same_stack th th' : Prop := frames th' = frames th ∧ CFIhead th' = CFIhead th ∧ jmp_env th' = jmp_env th.

Lemma same_stack_trans th1 th2 th3 : same_stack th1 th2 → same_stack th2 th3 → same_stack th1 th3.
Proof. unfold same_stack. intuition congruence. Qed.

Lemma put_x_ok th k v : env_ok (g_env (t_guest th)) → 0 ≤ k < 32 →
  ∃ th', put_x th k v = Ret th' ∧ env_ok (g_env (t_guest th')) ∧ same_stack th th' ∧ tls_xloop_param th' = tls_xloop_param th ∧
    xreg (g_env (t_guest th')) k = Ret (u64 v) ∧ ∀ j, 0 ≤ j < 32 → j ≠ k → xreg (g_env (t_guest th')) j = xreg (g_env (t_guest th)) j.
Proof.
  intros He Hk. unfold put_x. destruct (set_xreg_ok (g_env (t_guest th)) k v (env_ok_xlen _ He) Hk) as (env' & Hs & _ & Hv & Ho). rewrite Hs. cbn [mbind outcome_bind].
  eexists. split; [done|]. split; [by eapply set_xreg_env_ok|]. by split_and!.
Qed.

Lemma put_x_inv th k v th' : env_ok (g_env (t_guest th)) → 0 ≤ k < 32 → put_x th k v = Ret th' →
  env_ok (g_env (t_guest th')) ∧ same_stack th th' ∧ tls_xloop_param th' = tls_xloop_param th ∧
  xreg (g_env (t_guest th')) k = Ret (u64 v) ∧ ∀ j, 0 ≤ j < 32 → j ≠ k → xreg (g_env (t_guest th')) j = xreg (g_env (t_guest th)) j.
Proof. intros He Hk Hp. destruct (put_x_ok th k v He Hk) as (th1 & Hp1 & Hr). rewrite Hp in Hp1. apply Ret_inj in Hp1 as ->. exact Hr. Qed.

Context (hps : Z) (fuel : nat) (new_brk : Z) (translate : Z → guest → Z → outcome guest) (pair_by_types : option (list ascii) → Z * Z).

(** Generated code keeps the register file a register file. *)
Context (Htr : ∀ f g ctx g', translate f g ctx = Ret g' → env_ok (g_env g) → env_ok (g_env g')).

Lemma helper_inv th en ex regs pc th' : cpu_xloop_helper th en ex regs pc = Ret th' → g_env (t_guest th') = g_env (t_guest th) ∧ same_stack th th' ∧ t_vm th' = t_vm th.
Proof.
  unfold cpu_xloop_helper. cbn. destruct (entry_translation _ =? 0); cbn [mbind outcome_bind]; [by intros [= <-]|].
  destruct (ex =? pc); cbn [c_assert mbind outcome_bind]; [|done]. by intros [= <-].
Qed.

Lemma prepare_env_inv th p th' : env_ok (g_env (t_guest th)) → prepare_env hps fuel new_brk th p = Ret th' → env_ok (g_env (t_guest th')) ∧ same_stack th th'.
Proof.
  intros He. unfold prepare_env. destruct (get_word th _) as [rsp|]; [|done]. cbn [mbind outcome_bind]. destruct (get_word th rsp) as [lr|]; [|done]. cbn [mbind outcome_bind].
  destruct (put_x th 30 lr) as [th1|] eqn:E1; [|done]. cbn [mbind outcome_bind]. apply put_x_inv in E1 as (He1 & Hs1 & _); [|done|lia].
  destruct (xreg _ 31) as [sp|]; [|done]. cbn [mbind outcome_bind]. destruct (sp =? 0); [|by intros [= <-]].
  destruct (target_mmap _ _ _ _ _ _ _ _ _ _) as [[error v]|]; [|done]. cbn [mbind outcome_bind]. destruct (error =? _); [done|].
  destruct (target_mprotect _ _ _ _ _) as [[r v']|]; [|done]. cbn [mbind outcome_bind]. intros E2. apply put_x_inv in E2 as (He2 & Hs2 & _); [|done|lia].
  split; [done|]. by eapply same_stack_trans.
Qed.

Lemma translation_pair_inv th cbs p en ex th' : translation_pair pair_by_types th cbs p = (en, ex, th') → t_guest th' = t_guest th ∧ same_stack th th'.
Proof. unfold translation_pair. destruct (_ || _); [|by intros [= _ _ <-]]. destruct (abi_x2a_get_translation_function_pair_by_pc _ _ _). by intros [= _ _ <-]. Qed.

(** ** A call *)

Definition new_locs (fs : list activation) (l : list nat) (id : nat) : list activation :=
  match l with
  | last :: _ => match fs !! last with Some a => <[last := act_cfi a (set_locs (a_cfi a) (InFrame id))]> fs | None => fs end
  | [] => fs
  end.

Lemma act_cfi_same a : points_to a InEnv → act_cfi a (set_locs (a_cfi a) InEnv) = a.
Proof. intros (H1 & H2 & H3). destruct a as [? ? ? ? ? ? [? ? ? ? ? ?]]. cbn in *. by subst. Qed.

Lemma relink_eq th id loc a : frames th !! id = Some a →
  relink th id loc = Ret (with_cfi th (CFIhead th) (<[id := act_cfi a (set_locs (a_cfi a) loc)]> (frames th))).
Proof. intros Ha. unfold relink, frame_of. by rewrite Ha. Qed.

(** A new activation [a], with [id] its position. *)
Lemma insert_head_ok th a th' : let id := length (frames th) in linked (frames th) InEnv (CFIhead th) → points_to a InEnv →
  CFIList_Insert_Head (with_cfi th (CFIhead th) (frames th ++ [a])) id = Ret th' →
  th' = with_cfi th (id :: CFIhead th) (new_locs (frames th) (CFIhead th) id ++ [a]).
Proof.
  intros id Hl Ha. unfold CFIList_Insert_Head. cbn [CFIhead with_cfi]. unfold new_locs.
  assert (∀ fs, length fs = id → relink (with_cfi th (CFIhead th) (fs ++ [a])) id InEnv = Ret (with_cfi th (CFIhead th) (fs ++ [a]))) as Hnew.
  { intros fs Hfs. assert ((fs ++ [a]) !! id = Some a) as Hlast by (rewrite lookup_app_r by lia; by rewrite Hfs, Nat.sub_diag).
    unfold relink, frame_of. cbn [frames CFIhead with_cfi]. rewrite Hlast. cbn [mbind outcome_bind]. by rewrite act_cfi_same, list_insert_id. }
  destruct (CFIhead th) as [|h t] eqn:E; cbn [mbind outcome_bind].
  - rewrite Hnew by done. cbn [mbind outcome_bind]. by intros [= <-].
  - destruct Hl as ((b & Hb & _) & _ & _). rewrite Hb. assert (h < id)%nat as Hh by (by eapply lookup_lt_Some).
    rewrite (relink_eq _ _ _ b) by (cbn [frames with_cfi]; by rewrite lookup_app_l). cbn [mbind outcome_bind frames CFIhead with_cfi]. rewrite insert_app_l by done.
    assert (length (<[h := act_cfi b (set_locs (a_cfi b) (InFrame id))]> (frames th)) = id) as Hlen by (by rewrite length_insert).
    specialize (Hnew _ Hlen). unfold with_cfi in Hnew |- *. cbn in Hnew |- *. rewrite Hnew. cbn [mbind outcome_bind]. by intros [= <-].
Qed.

Lemma new_locs_length fs l id : length (new_locs fs l id) = length fs.
Proof. unfold new_locs. repeat case_match; [done| |done]. by rewrite length_insert. Qed.

Lemma insert_head_linked fs l a S : linked fs InEnv l → points_to a InEnv → suspended fs l S →
  linked (new_locs fs l (length fs) ++ [a]) InEnv (length fs :: l) ∧ suspended (new_locs fs l (length fs) ++ [a]) (length fs :: l) (saved_regs a :: S).
Proof.
  intros Hl Ha HS. assert (∀ j, j ∈ l → (j < length fs)%nat) as Hlt by (intros j Hj; destruct (linked_bound _ _ _ _ Hl Hj); by eapply lookup_lt_Some).
  assert ((new_locs fs l (length fs) ++ [a]) !! length fs = Some a) as Hlast by (rewrite lookup_app_r by (rewrite new_locs_length; lia); by rewrite new_locs_length, Nat.sub_diag).
  assert (linked (new_locs fs l (length fs)) (InFrame (length fs)) l ∧ suspended (new_locs fs l (length fs)) l S) as [Hl' HS'].
  { unfold new_locs. destruct l as [|h t]; [done|]. destruct (linked_bound _ _ _ h Hl) as [b Hb]; [apply elem_of_cons; auto|]. rewrite Hb.
    split; [by apply linked_relink with InEnv|by apply suspended_insert]. }
  assert (∀ j, j ∈ l → (new_locs fs l (length fs) ++ [a]) !! j = new_locs fs l (length fs) !! j) as Hsame by (intros j Hj; apply lookup_app_l; rewrite new_locs_length; by apply Hlt).
  split; [split; [by exists a|split; [by apply Forall_forall|by eapply linked_ext]]|].
  constructor; [by exists a|]. eapply suspended_ext; [|exact HS']. intros j b Hj Hb. exists b. by rewrite Hsame.
Qed.

(** The new activation has the registers of the guest that made the call; below
    it nothing has changed but the pointers of the entry in front. *)
Lemma enter_inv th cbs th' r : env_ok (g_env (t_guest th)) → linked (frames th) InEnv (CFIhead th) → unwind_regs (g_env (t_guest th)) = Ret r →
  xloop_enter hps fuel new_brk translate pair_by_types th cbs = Ret th' →
  ∃ a, saved_regs a = r ∧ points_to a InEnv ∧ saved_jmpbuf a = jmp_env th ∧ env_ok (g_env (t_guest th')) ∧ jmp_env th' = jmp_env th ∧
    CFIhead th' = length (frames th) :: CFIhead th ∧ frames th' = new_locs (frames th) (CFIhead th) (length (frames th)) ++ [a].
Proof.
  intros He Hl Hr. unfold unwind_regs in Hr. unfold xloop_enter. destruct (xreg _ 31) as [sp|]; [|done]. destruct (xreg _ 29) as [fp|]; [|done]. destruct (xreg _ 30) as [lr|]; [|done].
  cbn [mbind outcome_bind] in Hr |- *. apply Ret_inj in Hr as <-.
  destruct (prepare_env _ _ _ _ _) as [th1|] eqn:E1; [|done]. cbn [mbind outcome_bind]. apply prepare_env_inv in E1 as (He1 & Hf1 & Hc1 & Hj1); [|done].
  destruct (translation_pair _ _ _ _) as [[en ex] th2] eqn:E2. apply translation_pair_inv in E2 as (Hg2 & Hf2 & Hc2 & Hj2). destruct (_ || _); [done|].
  destruct (translate en _ _) as [g|] eqn:E3; [|done]. cbn [mbind outcome_bind]. apply Htr in E3; [|by rewrite Hg2].
  destruct (get_word (with_guest th2 g) (_ + CTX_RSP)) as [rsp|]; [|done]. cbn [mbind outcome_bind]. destruct (get_word (with_guest th2 g) rsp) as [ra|]; [|done]. cbn [mbind outcome_bind].
  destruct (get_word (with_guest th2 g) _) as [rbp|]; [|done]. cbn [mbind outcome_bind]. cbn [frames CFIhead jmp_env with_guest]. intros Hi.
  assert (frames th2 = frames th) as Hf by congruence. assert (CFIhead th2 = CFIhead th) as Hc by congruence. assert (jmp_env th2 = jmp_env th) as Hj by congruence.
  apply (insert_head_ok (with_guest th2 g)) in Hi; [|cbn; by rewrite Hf, Hc|by split_and!]. cbn [frames CFIhead with_guest] in Hi. subst th'. cbn. rewrite Hf, Hc, Hj.
  eexists. split_and!; [..|reflexivity]; done.
Qed.

Lemma enter_ok th cbs th' r S : xloop_wf th S → unwind_regs (g_env (t_guest th)) = Ret r → xloop_enter hps fuel new_brk translate pair_by_types th cbs = Ret th' → xloop_wf th' (r :: S).
Proof.
  intros [He Hl HS] Hr Hx. destruct (enter_inv _ _ _ _ He Hl Hr Hx) as (a & <- & Hp & _ & He' & _ & Hc & Hf).
  destruct (insert_head_linked _ _ _ _ Hl Hp HS) as [Hl' HS']. constructor; [done|rewrite Hf, Hc; done|rewrite Hf, Hc; done].
Qed.

(** ** A return *)

(** The pointers of the head are set to the live registers. *)
Definition live_head (fs : list activation) (l : list nat) : list activation :=
  match l with
  | id :: _ => match fs !! id with Some a => <[id := act_cfi a (set_locs (a_cfi a) InEnv)]> fs | None => fs end
  | [] => fs
  end.

Lemma relink_head_ok th loc : linked (frames th) loc (CFIhead th) → relink_head th = Ret (with_cfi th (CFIhead th) (live_head (frames th) (CFIhead th))).
Proof.
  unfold relink_head, live_head. destruct (CFIhead th) as [|id l] eqn:E; intros Hl; [by destruct th; cbn in *; subst|].
  destruct Hl as ((a & Ha & _) & _). rewrite (relink_eq _ _ _ a Ha), Ha, E. done.
Qed.

Lemma live_head_linked fs loc l : linked fs loc l → linked (live_head fs l) InEnv l.
Proof. intros Hl. destruct l as [|id l]; [done|]. unfold live_head. destruct (proj1 Hl) as (a & Ha & _). rewrite Ha. by apply linked_relink with loc. Qed.

Lemma live_head_suspended fs l l' S : suspended fs l' S → suspended (live_head fs l) l' S.
Proof. intros HS. unfold live_head. repeat case_match; [done| |done]. by apply suspended_insert. Qed.

Lemma live_head_length fs l : length (live_head fs l) = length fs.
Proof. unfold live_head. repeat case_match; [done| |done]. by rewrite length_insert. Qed.

(** The youngest activation, if it is in the list, is its head. *)
Lemma youngest_head fs loc l : linked fs loc l → pred (length fs) ∈ l → ∃ l', l = pred (length fs) :: l' ∧ Forall (λ j, (j < pred (length fs))%nat) l'.
Proof.
  intros Hl Hin. destruct l as [|id l]; [by apply elem_of_nil in Hin|]. destruct (linked_bound _ _ _ id Hl) as [a Ha%lookup_lt_Some]; [apply elem_of_cons; auto|].
  destruct Hl as (_ & Hf & _). apply elem_of_cons in Hin as [<-|Hin]; [by exists l|]. rewrite Forall_forall in Hf. specialize (Hf _ Hin). lia.
Qed.

Lemma filter_lt id l : Forall (λ j, (j < id)%nat) l → filter (λ i, i ≠ id) (id :: l) = l.
Proof.
  intros Hf. rewrite filter_cons_False by (by intros []). induction Hf as [|j l Hj Hf IH]; [done|]. rewrite filter_cons_True by lia. by rewrite IH.
Qed.

Lemma linked_take fs loc l n : linked fs loc l → Forall (λ j, (j < n)%nat) l → linked (take n fs) loc l.
Proof. intros Hl Hf. eapply linked_ext; [|exact Hl]. intros id Hid. rewrite Forall_forall in Hf. apply lookup_take_lt. by apply Hf. Qed.

Lemma suspended_take fs l n S : suspended fs l S → Forall (λ j, (j < n)%nat) l → suspended (take n fs) l S.
Proof. intros HS Hf. eapply suspended_ext; [|exact HS]. intros id a Hid Ha. exists a. rewrite Forall_forall in Hf. rewrite lookup_take_lt by (by apply Hf). done. Qed.

Lemma leave_inv th th' : env_ok (g_env (t_guest th)) → linked (frames th) InEnv (CFIhead th) → xloop_leave translate th = Ret th' →
  ∃ fs a l, frames th = fs ++ [a] ∧ CFIhead th = length fs :: l ∧ Forall (λ j, (j < length fs)%nat) l ∧
    env_ok (g_env (t_guest th')) ∧ xreg (g_env (t_guest th')) 30 = Ret (u64 (saved_lr a)) ∧ jmp_env th' = saved_jmpbuf a ∧
    CFIhead th' = l ∧ frames th' = live_head fs l.
Proof.
  intros He Hl. unfold xloop_leave. destruct (last (frames th)) as [a|] eqn:Ea; [|done]. cbn [CFIhead with_tls]. destruct (bool_decide _) eqn:Hin; [|done]. apply bool_decide_eq_true in Hin.
  apply last_Some in Ea as [fs Hfs]. rewrite Hfs in Hin |- *. rewrite length_app in Hin |- *. cbn [length] in Hin |- *. rewrite Nat.add_1_r in Hin |- *. cbn [pred] in Hin |- *.
  destruct (youngest_head (frames th) InEnv (CFIhead th) Hl) as (l & Hc & Hf); [rewrite Hfs, length_app, Nat.add_1_r; done|].
  rewrite Hfs, length_app, Nat.add_1_r in Hc, Hf. cbn [pred length] in Hc, Hf. rewrite Hc, filter_lt by done. cbn [mbind outcome_bind].
  assert (linked (frames th) (InFrame (length fs)) l) as Hl2 by (rewrite Hc in Hl; apply Hl). erewrite relink_head_ok by exact Hl2. cbn [mbind outcome_bind].
  cbn [t_guest with_cfi with_jmp with_tls]. destruct (translate _ _ _) as [g|] eqn:Et; [|done]. cbn [mbind outcome_bind]. apply Htr in Et; [|done].
  destruct (put_x _ 30 _) as [th1|] eqn:Ep; [|done]. cbn [mbind outcome_bind]. apply put_x_inv in Ep as (He1 & (Hf1 & Hc1 & Hj1) & _ & Hlr & _); [|done|lia].
  cbn in Hf1, Hc1, Hj1. intros [= <-]. exists fs, a, l. split_and!; try done. cbn [frames with_cfi]. rewrite Hf1, Hfs.
  unfold live_head. destruct l as [|id l]; [by rewrite take_app_length|]. apply Forall_cons in Hf as [Hid _]. rewrite lookup_app_l by done.
  destruct (fs !! id) as [b|] eqn:Eb; [|by rewrite take_app_length]. rewrite insert_app_l by done. rewrite take_app_length'; [done|by rewrite length_insert].
Qed.

Lemma leave_ok th th' S : xloop_wf th S → xloop_leave translate th = Ret th' →
  ∃ s S', S = s :: S' ∧ xloop_wf th' S' ∧ xreg (g_env (t_guest th')) 30 = Ret (u64 s.2).
Proof.
  intros [He Hl HS] Hx. destruct (leave_inv _ _ He Hl Hx) as (fs & a & l & Hfs & Hc & Hf & He' & Hlr & _ & Hc' & Hf').
  rewrite Hfs, Hc in Hl, HS. apply Forall2_cons_inv_l in HS as (s & S' & (b & Hb & <-) & HS' & ->). rewrite lookup_app_r, Nat.sub_diag in Hb by lia. injection Hb as <-.
  exists (saved_regs a), S'. split; [done|]. split; [|exact Hlr].
  assert (∀ j, j ∈ l → fs !! j = (fs ++ [a]) !! j) as Hs by (intros j Hj; rewrite lookup_app_l; [done|]; rewrite Forall_forall in Hf; by apply Hf).
  constructor; [done|rewrite Hf', Hc'; eapply live_head_linked, linked_ext; [exact Hs|apply Hl]|].
  rewrite Hf', Hc'. apply live_head_suspended. eapply suspended_ext; [|exact HS']. intros j b Hj Hb. exists b. by rewrite Hs.
Qed.

(** ** Unwinding *)

Lemma remove_heads_drop n l l' : remove_heads n l = Ret l' → l' = drop n l ∧ (n ≤ length l)%nat.
Proof.
  revert l. induction n as [|n IH]; intros l E; cbn in E; [injection E as <-; split; [done|lia]|]. destruct l as [|i l]; [done|]. apply IH in E as [-> Hn]. cbn. split; [done|lia].
Qed.

Lemma remove_until_drop id l l' : remove_until id l = Ret l' → ∃ n, l' = drop n l ∧ l !! n = Some id.
Proof.
  revert l'. induction l as [|i l IH]; intros l' E; cbn in E; [done|]. case_bool_decide as Hi; [injection E as <-; subst; by exists 0%nat|].
  apply IH in E as (n & -> & Hn). by exists (S n).
Qed.

Lemma suspended_drop fs l S n : suspended fs l S → suspended fs (drop n l) (drop n S).
Proof. apply Forall2_drop. Qed.

(** Three registers at once. *)
Lemma put_regs_ok th r th1 th2 th3 : env_ok (g_env (t_guest th)) → in_u 64 r.1.1 → in_u 64 r.1.2 → in_u 64 r.2 →
  put_x th 30 r.2 = Ret th1 → put_x th1 29 r.1.2 = Ret th2 → put_x th2 31 r.1.1 = Ret th3 →
  env_ok (g_env (t_guest th3)) ∧ same_stack th th3 ∧ unwind_regs (g_env (t_guest th3)) = Ret r.
Proof.
  intros He U1 U2 U3 E1 E2 E3. apply put_x_inv in E1 as (He1 & Hs1 & _ & R1 & _); [|done|lia]. apply put_x_inv in E2 as (He2 & Hs2 & _ & R2 & K2); [|done|lia].
  apply put_x_inv in E3 as (He3 & Hs3 & _ & R3 & K3); [|done|lia]. split; [done|]. split; [by eapply same_stack_trans, same_stack_trans|].
  unfold unwind_regs. rewrite R3. cbn [mbind outcome_bind]. rewrite (K3 29), R2 by lia. cbn [mbind outcome_bind]. rewrite (K3 30), (K2 30), R1 by lia. cbn [mbind outcome_bind].
  rewrite !wrap_small by done. by destruct r as [[? ?] ?].
Qed.

Definition regs_u64 (r : Z * Z * Z) : Prop := in_u 64 r.1.1 ∧ in_u 64 r.1.2 ∧ in_u 64 r.2.

Lemma read_frame_loc th id b k : frames th !! id = Some b → read_loc th (InFrame id k) = Ret (saved_reg b k).
Proof. intros Hb. unfold read_loc, frame_of. by rewrite Hb. Qed.

(** Truncation restores the registers of the guest that was suspended by the
    last call that is dropped. *)
Lemma truncate_ok th S n th' : xloop_wf th S → Forall regs_u64 S → 0 < n → CFIList_Truncate_To_By_Count th n = Ret th' →
  (Z.to_nat n ≤ length S)%nat ∧ xloop_wf th' (drop (Z.to_nat n) S) ∧ CFIhead th' = drop (Z.to_nat n) (CFIhead th) ∧ frames th' = live_head (frames th) (CFIhead th') ∧
  (drop (Z.to_nat n) S = [] ∧ g_env (t_guest th') = g_env (t_guest th) ∨ drop (Z.to_nat n) S ≠ [] ∧ ∃ r, S !! pred (Z.to_nat n) = Some r ∧ unwind_regs (g_env (t_guest th')) = Ret r).
Proof.
  intros [He Hl HS] HU Hn. unfold CFIList_Truncate_To_By_Count. rewrite (proj2 (Z.leb_gt n 0)) by lia. pose proof (Forall2_length _ _ _ HS) as Hlen.
  destruct (remove_heads _ _) as [l|] eqn:Er; [|done]. cbn [mbind outcome_bind]. apply remove_heads_drop in Er as [-> Hle]. set (k := Z.to_nat n) in *.
  pose proof (suspended_drop _ _ _ k HS) as HS'. destruct (linked_drop k _ _ _ Hl) as (loc & Hd & Hloc).
  destruct (drop k (CFIhead th)) as [|id l] eqn:Ed.
  { intros [= <-]. split; [lia|]. apply Forall2_nil_inv_l in HS'. rewrite HS'. split; [constructor; cbn; [done..|constructor]|]. split; [done|]. split; [done|by left]. }
  pose proof Hd as ((a & Ha & Hp) & _ & _). unfold frame_of at 1. cbn [frames with_cfi]. rewrite Ha. cbn [mbind outcome_bind].
  destruct k as [|k'] eqn:Ek; [lia|]. destruct (lookup_lt_is_Some_2 (CFIhead th) k' ltac:(lia)) as [id' Hid']. rewrite Hid' in Hloc. subst loc.
  destruct (Forall2_lookup_l _ _ _ _ _ HS Hid') as (r & Hr & b & Hb & Hbr). destruct Hp as (P1 & P2 & P3).
  pose proof (proj1 (Forall_lookup _ _) HU _ _ Hr) as (U1 & U2 & U3). subst r. unfold saved_regs in U1, U2, U3. cbn in U1, U2, U3.
  rewrite P1, P2, P3. rewrite (read_frame_loc _ _ b) by done. cbn [mbind outcome_bind]. change (saved_reg b 30) with (saved_lr b).
  destruct (put_x _ 30 _) as [th1|] eqn:E1; [|done]. cbn [mbind outcome_bind]. pose proof E1 as E1'. apply put_x_inv in E1' as (He1 & (Hf1 & _ & _) & _); [|done|lia].
  cbn in Hf1. rewrite (read_frame_loc _ _ b) by (by rewrite Hf1). cbn [mbind outcome_bind]. change (saved_reg b 29) with (saved_fp b).
  destruct (put_x _ 29 _) as [th2|] eqn:E2; [|done]. cbn [mbind outcome_bind]. pose proof E2 as E2'. apply put_x_inv in E2' as (He2 & (Hf2 & _ & _) & _); [|done|lia].
  rewrite (read_frame_loc _ _ b) by (by rewrite Hf2, Hf1). cbn [mbind outcome_bind]. change (saved_reg b 31) with (saved_sp b).
  destruct (put_x _ 31 _) as [th3|] eqn:E3; [|done]. cbn [mbind outcome_bind].
  destruct (put_regs_ok (with_cfi th (id :: l) (frames th)) (saved_regs b) _ _ _ He U1 U2 U3 E1 E2 E3) as (He3 & (Hf3 & Hc3 & _) & Hr3). cbn in Hf3, Hc3.
  rewrite (relink_eq _ _ _ a) by (by rewrite Hf3). intros [= <-]. split; [lia|]. split; [|split; [exact Hc3|split; [cbn; rewrite Hc3; cbn; by rewrite Ha, Hf3|right; split; [|exists (saved_regs b); by split]]]].
  2: { intros E. rewrite E in HS'. inversion HS'. }
  constructor; cbn; [done|rewrite Hf3, Hc3; by apply linked_relink with (InFrame id')|rewrite Hf3, Hc3; by apply suspended_insert].
Qed.

Lemma unwound_ok th S id th' : xloop_wf th S → xloop_unwound th id = Ret th' → ∃ n, CFIhead th !! n = Some id ∧ xloop_wf th' (drop n S) ∧ g_env (t_guest th') = g_env (t_guest th) ∧
  CFIhead th' = drop n (CFIhead th) ∧ frames th' = live_head (take (Datatypes.S id) (frames th)) (CFIhead th').
Proof.
  intros [He Hl HS]. unfold xloop_unwound. case_bool_decide as Hid; [|done]. unfold CFIList_Truncate_To. cbn [CFIhead frames with_cfi].
  destruct (remove_until _ _) as [l|] eqn:Er; [|done]. cbn [mbind outcome_bind]. apply remove_until_drop in Er as (n & -> & Hn).
  destruct (linked_drop n _ _ _ Hl) as (loc & Hd & _). pose proof (suspended_drop _ _ _ n HS) as HS'. rewrite (drop_S _ _ _ Hn) in Hd, HS' |- *.
  assert (Forall (λ j, (j < Datatypes.S id)%nat) (id :: drop (Datatypes.S n) (CFIhead th))) as Hlt.
  { constructor; [lia|]. apply Forall_forall. intros j Hj. pose proof (linked_tail_lt _ _ _ _ _ _ Hl Hn Hj). lia. }
  apply (linked_take _ _ _ (Datatypes.S id)) in Hd; [|done]. apply (suspended_take _ _ (Datatypes.S id)) in HS'; [|done].
  pose proof Hd as ((a & Ha & _) & _). rewrite (relink_eq _ _ _ a) by done. intros [= <-]. exists n. split; [done|]. split; [|split; [done|split; [cbn; by rewrite (drop_S _ _ _ Hn)|cbn; by rewrite Ha]]].
  constructor; cbn; [done|by apply linked_relink with loc|by apply suspended_insert].
Qed.

(** ** Threads as traces *)

(** What a thread does to its frames: guest code or the host runs, the host
    calls the guest, the guest returns, the unwinder drops frames, the unwinder
    jumps into a frame.  An event has the registers that are live after it. *)
Inductive xevent :=
  | Run (r : Z * Z * Z)
  | Call (r : Z * Z * Z)
  | Return (r : Z * Z * Z)
  | Truncate (n : Z)
  | Unwound (index : Z).

(** The stack that the list of frames stands for: the registers of the running
    guest, and those of the suspended ones. *)
Definition aloop (e : xevent) (st : (Z * Z * Z) * list (Z * Z * Z)) : option ((Z * Z * Z) * list (Z * Z * Z)) :=
  let '(r, T) := st in
  match e with
  | Run r' => Some (r', T)
  | Call r' => Some (r', r :: T)
  | Return r' => match T with s :: T => if r'.2 =? s.2 then Some (r', T) else None | [] => None end
  | Truncate n =>
      if n <=? 0 then Some (r, T)
      else if Z.of_nat (length T) <? n then None
      else match drop (Z.to_nat n) T, T !! pred (Z.to_nat n) with [], _ | _, None => Some (r, []) | T, Some r => Some (r, T) end
  | Unwound i => if Z.max 0 i <? Z.of_nat (length T) then Some (r, drop (Z.to_nat i) T) else None
  end.

Definition live th (r : Z * Z * Z) : Prop := unwind_regs (g_env (t_guest th)) = Ret r.

Inductive xstep : xevent → thread H → thread H → Prop :=
  | x_run th g v top bottom tls j r : env_ok (g_env g) → unwind_regs (g_env g) = Ret r →
      xstep (Run r) th (mk_thread g v top bottom tls (CFIhead th) (frames th) j)
  | x_call th entry exit_ regs pc th1 cbs th2 r : cpu_xloop_helper th entry exit_ regs pc = Ret th1 →
      xloop_enter hps fuel new_brk translate pair_by_types th1 cbs = Ret th2 → live th2 r → xstep (Call r) th th2
  | x_return th th' r : xloop_leave translate th = Ret th' → live th' r → xstep (Return r) th th'
  | x_truncate th n th' : iqemu_truncate_CFI th n = Ret th' → xstep (Truncate n) th th'
  | x_unwound th i id th' : iqemu_get_jmp_buf th i = Some id → xloop_unwound th id = Ret th' → xstep (Unwound i) th th'.

Inductive xsteps : list xevent → thread H → thread H → Prop :=
  | xs_nil th : xsteps [] th th
  | xs_cons e tr th1 th2 th3 : xstep e th1 th2 → xsteps tr th2 th3 → xsteps (e :: tr) th1 th3.

Fixpoint aloops (tr : list xevent) (st : (Z * Z * Z) * list (Z * Z * Z)) : option ((Z * Z * Z) * list (Z * Z * Z)) :=
  match tr with [] => Some st | e :: tr => st ← aloop e st; aloops tr st end.

Lemma live_total th : env_ok (g_env (t_guest th)) → ∃ r, live th r ∧ regs_u64 r.
Proof.
  intros He. destruct (xreg_defined _ 31 He) as (sp & E1 & U1); [lia|]. destruct (xreg_defined _ 29 He) as (fp & E2 & U2); [lia|]. destruct (xreg_defined _ 30 He) as (lr & E3 & U3); [lia|].
  exists (sp, fp, lr). split; [|by split_and!]. unfold live, unwind_regs. by rewrite E1, E2, E3.
Qed.

Lemma live_u64 th r : env_ok (g_env (t_guest th)) → live th r → regs_u64 r.
Proof. intros He Hr. destruct (live_total th He) as (r' & Hr' & HU). unfold live in *. rewrite Hr in Hr'. by apply Ret_inj in Hr' as ->. Qed.

Lemma live_lr th r v : live th r → xreg (g_env (t_guest th)) 30 = Ret v → r.2 = v.
Proof.
  unfold live, unwind_regs. intros Hr Hv. destruct (xreg _ 31); [|done]. cbn [mbind outcome_bind] in Hr. destruct (xreg _ 29); [|done]. rewrite Hv in Hr. by apply Ret_inj in Hr as <-.
Qed.

Lemma linked_unique fs loc l m n id : linked fs loc l → l !! m = Some id → l !! n = Some id → m = n.
Proof.
  assert (∀ m n, linked fs loc l → l !! m = Some id → l !! n = Some id → ¬ (m < n)%nat) as Hlt.
  { clear m n. intros m n Hl Hm Hn Hlt. assert (id ∈ drop (S m) l) as Hin; [|pose proof (linked_tail_lt _ _ _ _ _ _ Hl Hm Hin); lia].
    apply list_elem_of_lookup. exists (n - S m)%nat. rewrite lookup_drop. rewrite <- Hn. f_equal. lia. }
  intros Hl Hm Hn. pose proof (Hlt m n Hl Hm Hn). pose proof (Hlt n m Hl Hn Hm). lia.
Qed.

(** The state of a thread and the stack it stands for. *)
Definition implements th (st : (Z * Z * Z) * list (Z * Z * Z)) : Prop := live th st.1 ∧ xloop_wf th st.2 ∧ Forall regs_u64 st.2.

Lemma step_refines e th th' st : implements th st → xstep e th th' → ∃ st', aloop e st = Some st' ∧ implements th' st'.
Proof.
  destruct st as [r S]. intros (Hr & Hw & HU) Hx. cbn in Hr, Hw, HU. pose proof (xw_env _ _ Hw) as He. pose proof (Forall2_length _ _ _ (xw_stack _ _ Hw)) as Hlen.
  destruct Hx as [th g v top bottom tls j r' Hg Hr'|th en ex regs pc th1 cbs th2 r' E1 E2 Hr'|th th' r' E Hr'|th n th' E|th i id th' Ei E]; cbn [aloop].
  - eexists. split; [done|]. split; [done|]. split; [|done]. by constructor; cbn; [|apply Hw..].
  - apply helper_inv in E1 as (Hge & (Hf & Hc & _) & _). assert (xloop_wf th1 S) as Hw1 by (destruct Hw; constructor; rewrite ?Hge, ?Hf, ?Hc; done).
    assert (live th1 r) as Hr1 by (unfold live in *; by rewrite Hge). eexists. split; [done|]. split; [done|]. split; [by eapply enter_ok|].
    constructor; [|done]. by eapply live_u64.
  - destruct (leave_ok _ _ _ Hw E) as (s & S' & -> & Hw' & Hlr). apply Forall_cons in HU as [HUs HU]. rewrite (live_lr _ _ _ Hr' Hlr).
    rewrite wrap_small by apply HUs. rewrite Z.eqb_refl. eexists. by split.
  - unfold iqemu_truncate_CFI in E. destruct (Z.leb_spec n 0) as [Hn|Hn].
    { unfold CFIList_Truncate_To_By_Count in E. rewrite (proj2 (Z.leb_le n 0)) in E by lia. apply Ret_inj in E as <-. eexists. by split. }
    destruct (truncate_ok _ _ _ _ Hw HU Hn E) as (Hle & Hw' & _ & _ & Hcase). rewrite (proj2 (Z.ltb_ge _ _)) by lia. pose proof (Forall_drop _ (Z.to_nat n) _ HU) as HU'.
    destruct Hcase as [[Ed Henv]|(Hne & s & Hs & Hr')].
    + rewrite Ed in *. eexists. split; [done|]. split; [by unfold live; rewrite Henv|by split].
    + rewrite Hs. destruct (drop _ S) as [|s' S']; [done|]. eexists. by split.
  - destruct (unwound_ok _ _ _ _ Hw E) as (n & Hn & Hw' & Henv & _ & _). unfold iqemu_get_jmp_buf, cfi_at in Ei.
    rewrite (linked_unique _ _ _ _ _ _ (xw_linked _ _ Hw) Hn Ei) in *. apply lookup_lt_Some in Ei. rewrite (proj2 (Z.ltb_lt _ _)) by lia.
    eexists. split; [done|]. split; [by unfold live; rewrite Henv|]. split; [done|by apply Forall_drop].
Qed.
Lemma steps_refine tr th th' st : implements th st → xsteps tr th th' → ∃ st', aloops tr st = Some st' ∧ implements th' st'.
Proof.
  intros Hi Hx. revert st Hi. induction Hx as [|e tr th1 th2 th3 Hs Hx IH]; intros st Hi; [by exists st|].
  destruct (step_refines _ _ _ _ Hi Hs) as (st1 & Ha & Hi1). destruct (IH _ Hi1) as (st2 & Hb & Hi2). exists st2. cbn. by rewrite Ha.
Qed.

Lemma implements_init th r : env_ok (g_env (t_guest th)) → CFIhead th = [] → live th r → implements th (r, []).
Proof. intros He Hc Hr. split; [done|]. split; [|constructor]. constructor; [done|by rewrite Hc|rewrite Hc; constructor]. Qed.

(** C10.  From a thread without frames on, whatever the host and the guest do, the
    list is the stack: [iqemu_get_arm64_CFI] gives the registers of the running
    guest for the first entry and those that the callers had when they made
    their calls for the others, [iqemu_get_jmp_buf] has as many entries as
    there are calls under way, and a return gives the link register back. *)
Theorem cfi_refines th0 r0 tr th : env_ok (g_env (t_guest th0)) → CFIhead th0 = [] → live th0 r0 → xsteps tr th0 th →
  ∃ r S, aloops tr (r0, []) = Some (r, S) ∧ live th r ∧
    (∀ i, iqemu_get_arm64_CFI th i = Ret (unwind_view r S i)) ∧
    (∀ i, is_Some (iqemu_get_jmp_buf th i) ↔ Z.max 0 i < Z.of_nat (length S)).
Proof.
  intros He Hc Hr Hx. destruct (steps_refine _ _ _ _ (implements_init _ _ He Hc Hr) Hx) as ([r S] & Ha & Hl & Hw & _). cbn in Hl, Hw.
  exists r, S. split; [done|]. split; [done|]. split; [intros i; by apply arm64_view|].
  intros i. unfold iqemu_get_jmp_buf, cfi_at. rewrite lookup_lt_is_Some, (Forall2_length _ _ _ (xw_stack _ _ Hw)). lia.
Qed.

(** ** What a call leaves alone *)

(** The activations up to [n]; the pointers of [n] itself may change. *)
Definition kept (n : nat) (pre : list activation) (a : activation) (fs : list activation) : Prop :=
  take n fs = pre ∧ ∃ e, fs !! n = Some (act_cfi a e).

Lemma kept_insert n pre a fs id b e : (n ≤ id)%nat → fs !! id = Some b → kept n pre a fs → kept n pre a (<[id := act_cfi b e]> fs).
Proof.
  intros Hn Hb [Hp [e' He']]. split; [by rewrite take_insert_ge|]. destruct (decide (id = n)) as [->|Hne].
  - rewrite Hb in He'. injection He' as ->. exists e. apply list_lookup_insert_eq. by eapply lookup_lt_Some.
  - exists e'. by rewrite list_lookup_insert_ne.
Qed.

Lemma kept_app n pre a fs x : kept n pre a fs → kept n pre a (fs ++ [x]).
Proof. intros [Hp [e He]]. pose proof (lookup_lt_Some _ _ _ He). split; [rewrite take_app_le by lia; done|]. exists e. by rewrite lookup_app_l. Qed.

Lemma kept_take n pre a fs m : (n < m)%nat → kept n pre a fs → kept n pre a (take m fs).
Proof. intros Hn [Hp [e He]]. split; [by rewrite take_take, Nat.min_l by lia|]. exists e. by rewrite lookup_take_lt. Qed.

Lemma kept_live_head n pre a fs l : Forall (λ j, (n ≤ j)%nat) (take 1 l) → kept n pre a fs → kept n pre a (live_head fs l).
Proof. intros Hh Hk. unfold live_head. destruct l as [|id l]; [done|]. destruct (fs !! id) as [b|] eqn:Hb; [|done]. inversion Hh. by apply kept_insert. Qed.

Lemma kept_new_locs n pre a fs l id : Forall (λ j, (n ≤ j)%nat) (take 1 l) → kept n pre a fs → kept n pre a (new_locs fs l id).
Proof. intros Hh Hk. unfold new_locs. destruct l as [|i l]; [done|]. destruct (fs !! i) as [b|] eqn:Hb; [|done]. inversion Hh. by apply kept_insert. Qed.

(** The calls under way that are nested in activation [n] are in front of it. *)
Definition nested (n : nat) (l0 l : list nat) : Prop := ∃ up, l = up ++ n :: l0.

Lemma nested_head fs loc n l0 l : linked fs loc l → nested n l0 l → Forall (λ j, (n ≤ j)%nat) (take 1 l).
Proof.
  intros Hl [up ->]. destruct up as [|i up]; cbn; constructor; try done; try lia. destruct Hl as (_ & Hf & _). rewrite Forall_forall in Hf.
  assert (n ∈ up ++ n :: l0) as Hin by (apply elem_of_app; right; apply elem_of_cons; auto). specialize (Hf n Hin). lia.
Qed.

(** What is dropped is in front of [n], if [n] stays. *)
Lemma nested_drop n l0 l k : Forall (λ j, (j < n)%nat) l0 → nested n l0 l → n ∈ drop k l → nested n l0 (drop k l).
Proof.
  intros Hf [up ->] Hin. destruct (decide (k ≤ length up)%nat) as [Hk|Hk]; [rewrite drop_app_le by lia; by eexists|]. exfalso.
  rewrite drop_app_ge in Hin by lia. replace (k - length up)%nat with (S (k - length up - 1)) in Hin by lia. cbn in Hin.
  pose proof (Forall_drop _ (k - length up - 1) _ Hf) as Hd. rewrite Forall_forall in Hd. specialize (Hd n Hin). lia.
Qed.

Definition within (n : nat) (pre : list activation) (a : activation) (l0 : list nat) th : Prop :=
  (∃ S, xloop_wf th S ∧ Forall regs_u64 S) ∧ kept n pre a (frames th) ∧ nested n l0 (CFIhead th).

Lemma step_within e th th' n pre a l0 : Forall (λ j, (j < n)%nat) l0 → within n pre a l0 th → xstep e th th' → n ∈ CFIhead th' → within n pre a l0 th'.
Proof.
  intros Hf ((S & Hw & HU) & Hk & Hn) Hx Hin. pose proof (xw_env _ _ Hw) as He. destruct (live_total th He) as (r & Hr & HUr).
  destruct (step_refines e th th' (r, S)) as ([r' S'] & _ & _ & Hw' & HU'); [done|done|]. split; [by exists S'|]. pose proof (nested_head _ _ _ _ _ (xw_linked _ _ Hw) Hn) as Hh.
  destruct Hx as [th g v top bottom tls j r1 Hg _|th en ex regs pc th1 cbs th2 r1 E1 E2 _|th th' r1 E _|th m th' E|th i id th' _ E].
  - done.
  - apply helper_inv in E1 as (Hge & (Hf1 & Hc1 & _) & _). assert (live th1 r) as Hr1 by (unfold live in *; by rewrite Hge).
    destruct (enter_inv th1 cbs th2 r) as (b & _ & _ & _ & _ & _ & Hc & Hfs); [by rewrite Hge|rewrite Hf1, Hc1; apply Hw|done|done|].
    rewrite Hfs, Hc, Hf1, Hc1. split; [by apply kept_app, kept_new_locs|]. destruct Hn as [up ->]. by exists (length (frames th) :: up).
  - destruct (leave_inv th th' He (xw_linked _ _ Hw) E) as (fs & b & l & Hfs & Hc & Hlt & _ & _ & _ & Hc' & Hf'). rewrite Hc' in Hin.
    rewrite Forall_forall in Hlt. specialize (Hlt n Hin) as Hlt_n. apply (nested_drop _ _ _ 1) in Hn; [|done|by rewrite Hc].
    rewrite Hc in Hn. cbn in Hn. rewrite Hc', Hf'. split; [|done]. apply kept_live_head.
    { eapply nested_head; [|exact Hn]. rewrite <- Hc'. apply Hw'. }
    rewrite Hfs in Hk. apply (kept_take _ _ _ _ (length fs)) in Hk; [|done]. by rewrite take_app_length in Hk.
  - unfold iqemu_truncate_CFI in E. destruct (Z.leb_spec m 0) as [Hm|Hm].
    { unfold CFIList_Truncate_To_By_Count in E. rewrite (proj2 (Z.leb_le m 0)) in E by lia. by apply Ret_inj in E as <-. }
    destruct (truncate_ok _ _ _ _ Hw HU Hm E) as (_ & _ & Hc & Hfs & _). rewrite Hc in Hin. pose proof (nested_drop _ _ _ _ Hf Hn Hin) as Hn'.
    rewrite <- Hc in Hn'. split; [|done]. rewrite Hfs. apply kept_live_head; [|done]. eapply nested_head; [apply Hw'|done].
  - destruct (unwound_ok _ _ _ _ Hw E) as (k & Hid & _ & _ & Hc & Hfs). rewrite Hc in Hin. pose proof (nested_drop _ _ _ _ Hf Hn Hin) as Hn'.
    pose proof (xw_linked _ _ Hw') as Hl'. rewrite Hc in Hl', Hfs |- *. split; [|done]. rewrite Hfs. pose proof (nested_head _ _ _ _ _ Hl' Hn') as Hh'.
    apply kept_live_head; [done|]. apply kept_take; [|done]. rewrite (drop_S _ _ _ Hid) in Hh'. inversion Hh'. lia.
Qed.
(** Steps during which activation [n] stays in the list. *)
Inductive xsteps_in (n : nat) : list xevent → thread H → thread H → Prop :=
  | xi_nil th : xsteps_in n [] th th
  | xi_cons e tr th1 th2 th3 : xstep e th1 th2 → n ∈ CFIhead th2 → xsteps_in n tr th2 th3 → xsteps_in n (e :: tr) th1 th3.

Lemma steps_within tr th th' n pre a l0 : Forall (λ j, (j < n)%nat) l0 → within n pre a l0 th → xsteps_in n tr th th' → within n pre a l0 th'.
Proof. intros Hf Hw Hx. induction Hx as [|e tr th1 th2 th3 Hs Hin Hx IH]; [done|]. by eapply IH, step_within. Qed.

Lemma leave_total th fs a l g : env_ok (g_env (t_guest th)) → linked (frames th) InEnv (CFIhead th) → frames th = fs ++ [a] → CFIhead th = length fs :: l →
  translate (a_exit a) (t_guest th) (unwind_context (a_param a)) = Ret g → ∃ th', xloop_leave translate th = Ret th'.
Proof.
  intros He Hl Hfs Hc Ht. unfold xloop_leave. rewrite Hfs, last_snoc, length_app, Nat.add_1_r. cbn [pred CFIhead with_tls]. rewrite Hc.
  assert (Forall (λ j, (j < length fs)%nat) l) as Hf by (rewrite Hc in Hl; apply Hl). rewrite bool_decide_eq_true_2 by (apply elem_of_cons; auto).
  rewrite filter_lt by done. cbn [mbind outcome_bind]. assert (linked (fs ++ [a]) (InFrame (length fs)) l) as Hl2 by (rewrite Hc, Hfs in Hl; apply Hl).
  erewrite relink_head_ok by (cbn; rewrite Hfs; exact Hl2). cbn [mbind outcome_bind t_guest with_cfi with_jmp with_tls]. rewrite Ht. cbn [mbind outcome_bind].
  match goal with |- context [put_x ?t 30 ?v] => destruct (put_x_ok t 30 v) as (th' & -> & _) end; [exact (Htr _ _ _ _ Ht He)|lia|]. cbn [mbind outcome_bind]. by eexists.
Qed.

(** What a call did to the entry in front is undone by the return. *)
Lemma live_head_new_locs fs l id : linked fs InEnv l → live_head (new_locs fs l id) l = fs.
Proof.
  unfold live_head, new_locs. destruct l as [|h t]; [done|]. intros ((b & Hb & Hp) & _). rewrite Hb.
  rewrite list_lookup_insert_eq by (by eapply lookup_lt_Some). rewrite list_insert_insert_eq. apply list_insert_id.
  rewrite Hb. f_equal. symmetry. exact (act_cfi_same b Hp).
Qed.

Lemma call_within th r S entry exit_ regs pc th1 cbs th2 : implements th (r, S) → cpu_xloop_helper th entry exit_ regs pc = Ret th1 →
  xloop_enter hps fuel new_brk translate pair_by_types th1 cbs = Ret th2 →
  ∃ a, saved_lr a = r.2 ∧ saved_jmpbuf a = jmp_env th ∧ within (length (frames th)) (new_locs (frames th) (CFIhead th) (length (frames th))) a (CFIhead th) th2.
Proof.
  intros (Hr & Hw & HU) Eh Ee. cbn in Hr, Hw, HU. apply helper_inv in Eh as (Hge & (Hf1 & Hc1 & Hj1) & _). assert (live th1 r) as Hr1 by (unfold live in *; by rewrite Hge).
  assert (xloop_wf th1 S) as Hw1 by (destruct Hw; constructor; rewrite ?Hge, ?Hf1, ?Hc1; done). pose proof (live_u64 _ _ (xw_env _ _ Hw1) Hr1) as HUr.
  destruct (enter_inv th1 cbs th2 r) as (a & Ha & _ & Hj & _ & _ & Hc & Hfs); [apply Hw1|apply Hw1|done|done|]. rewrite Hf1, Hc1 in Hfs, Hc. exists a.
  split; [by rewrite <- Ha|]. split; [congruence|]. split; [exists (r :: S); split; [by eapply enter_ok|by constructor]|]. rewrite Hfs, Hc. split; [|by exists []].
  split; [apply take_app_length'; symmetry; apply new_locs_length|]. exists (a_cfi a). rewrite lookup_app_r by (rewrite new_locs_length; lia). rewrite new_locs_length, Nat.sub_diag. by destruct a.
Qed.

(** C11.  A host function that calls guest code gets its own state back: whatever
    is called, unwound or jumped to inside the call, when its activation
    finishes the activations of its callers, the list of frames, the jump
    buffer of the thread and the link register are those of before. *)
Theorem guest_call_transparent th0 tr0 th entry exit_ regs pc th1 cbs th2 tr th3 g :
  env_ok (g_env (t_guest th0)) → CFIhead th0 = [] → xsteps tr0 th0 th →
  cpu_xloop_helper th entry exit_ regs pc = Ret th1 → xloop_enter hps fuel new_brk translate pair_by_types th1 cbs = Ret th2 →
  xsteps_in (length (frames th)) tr th2 th3 → length (frames th3) = S (length (frames th)) →
  (∀ a, last (frames th3) = Some a → translate (a_exit a) (t_guest th3) (unwind_context (a_param a)) = Ret g) →
  ∃ th4, xloop_leave translate th3 = Ret th4 ∧ frames th4 = frames th ∧ CFIhead th4 = CFIhead th ∧ jmp_env th4 = jmp_env th ∧
    xreg (g_env (t_guest th4)) 30 = xreg (g_env (t_guest th)) 30.
Proof.
  intros He0 Hc0 Hx0 Eh Ee Hx Hlen Hg. destruct (live_total th0 He0) as (r0 & Hr0 & _).
  destruct (steps_refine _ _ _ _ (implements_init _ _ He0 Hc0 Hr0) Hx0) as ([r T] & _ & Hi). pose proof Hi as (Hr & Hw & HU). cbn in Hr, Hw, HU.
  destruct (call_within _ _ _ _ _ _ _ _ _ _ Hi Eh Ee) as (a & Hlr & Hj & Hin). pose proof (xw_linked _ _ Hw) as Hl. pose proof (live_u64 _ _ (xw_env _ _ Hw) Hr) as (_ & _ & HUlr).
  assert (Forall (λ j, (j < length (frames th))%nat) (CFIhead th)) as Hlt.
  { apply Forall_forall. intros j Hj'. destruct (linked_bound _ _ _ _ Hl Hj') as [b Hb]. by eapply lookup_lt_Some. }
  destruct (steps_within _ _ _ _ _ _ _ Hlt Hin Hx) as ((S3 & Hw3 & _) & (Hp & e & Ha3) & Hn). set (n := length (frames th)) in *.
  assert (frames th3 = take n (frames th3) ++ [act_cfi a e]) as Hfs3 by (rewrite <- (take_S_r _ _ _ Ha3), <- Hlen; by rewrite firstn_all).
  assert (CFIhead th3 = n :: CFIhead th) as Hc3.
  { destruct Hn as [up Hup]. destruct up as [|i up]; [done|]. pose proof (xw_linked _ _ Hw3) as Hl3. rewrite Hup in Hl3. destruct Hl3 as ((b & Hb%lookup_lt_Some & _) & Hf & _).
    rewrite Forall_forall in Hf. assert (n ∈ up ++ n :: CFIhead th) as Hnin by (apply elem_of_app; right; apply elem_of_cons; auto). specialize (Hf n Hnin). lia. }
  assert (length (take n (frames th3)) = n) as Hn3 by (rewrite length_take; lia).
  destruct (leave_total th3 (take n (frames th3)) (act_cfi a e) (CFIhead th) g) as [th4 E4];
    [apply Hw3|apply Hw3|done|by rewrite Hn3|apply Hg; rewrite Hfs3; apply last_snoc|].
  exists th4. split; [done|]. destruct (leave_inv _ _ (xw_env _ _ Hw3) (xw_linked _ _ Hw3) E4) as (fs & b & l & Hfs & Hc & _ & _ & Hlr4 & Hj4 & Hc4 & Hf4).
  rewrite Hfs3 in Hfs. apply app_inj_tail in Hfs as [<- <-]. rewrite Hc3 in Hc. injection Hc as _ <-. rewrite Hf4, Hp, Hc4, Hlr4, Hj4. cbn [act_cfi saved_lr saved_jmpbuf].
  split; [by apply live_head_new_locs|]. split; [done|]. split; [done|]. rewrite Hlr, wrap_small by done. destruct (xreg_defined _ 30 (xw_env _ _ Hw)) as (v & Hv & _); [lia|].
  by rewrite Hv, (live_lr _ _ _ Hr Hv).
Qed.
End spec.

(** ** The way back *)

Section way_back.
Context {H : Type} {HV : HostVM H} (hps : Z) (fuel : nat) (new_brk : Z) (translate : Z → guest → Z → outcome guest) (pair_by_types : option (list ascii) → Z * Z).
Implicit Type th : thread H.

(** Preparing the registers does not change memory. *)
Lemma put_x_mem th k v th' : put_x th k v = Ret th' → g_mem (t_guest th') = g_mem (t_guest th).
Proof. unfold put_x. destruct (set_xreg _ _ _); [|done]. by intros [= <-]. Qed.

Lemma prepare_env_lr th p th' rsp ra : env_ok (g_env (t_guest th)) → get_word th (unwind_context p + CTX_RSP) = Ret rsp → get_word th rsp = Ret ra →
  prepare_env hps fuel new_brk th p = Ret th' → g_mem (t_guest th') = g_mem (t_guest th) ∧ env_ok (g_env (t_guest th')) ∧ xreg (g_env (t_guest th')) 30 = Ret (u64 ra).
Proof.
  intros He Hrsp Hra. unfold prepare_env. rewrite Hrsp. cbn [mbind outcome_bind]. rewrite Hra. cbn [mbind outcome_bind].
  destruct (put_x th 30 ra) as [th1|] eqn:E1; [|done]. cbn [mbind outcome_bind]. pose proof (put_x_mem _ _ _ _ E1) as Hm1. apply put_x_inv in E1 as (He1 & _ & _ & Hlr & _); [|done|lia].
  destruct (xreg _ 31) as [sp|]; [|done]. cbn [mbind outcome_bind]. destruct (sp =? 0); [|by intros [= <-]].
  destruct (target_mmap _ _ _ _ _ _ _ _ _ _) as [[error v]|]; [|done]. cbn [mbind outcome_bind]. destruct (error =? _); [done|].
  destruct (target_mprotect _ _ _ _ _) as [[r v']|]; [|done]. cbn [mbind outcome_bind]. intros E2. pose proof (put_x_mem _ _ _ _ E2) as Hm2.
  apply put_x_inv in E2 as (He2 & _ & _ & _ & Hk); [|done|lia]. rewrite (Hk 30) by lia. cbn in Hm2. by rewrite Hm2.
Qed.

Context (DEBUG : bool) (objc_get_types_from_zelf_selector : guest → list ascii) (solve_symbol_name : Z → option (list ascii)).

(** C28.  A guest that is called by the host returns to the address that the host
    called from: it is in the link register when the guest starts, and when
    the guest jumps to it, in whatever state, as long as the call is the
    youngest one, it gets the code that leaves the emulator. *)
Theorem guest_return_dispatched th cbs th1 rsp ra : env_ok (g_env (t_guest th)) → linked (frames th) InEnv (CFIhead th) →
  (∀ f g g', translate f g (unwind_context (tls_xloop_param th)) = Ret g' → xreg (g_env g') 30 = xreg (g_env g) 30 ∧
     ∀ a, a ∈ [unwind_context (tls_xloop_param th) + CTX_RSP; rsp] → rd_mem (g_mem g') a 8 = rd_mem (g_mem g) a 8) →
  get_word th (unwind_context (tls_xloop_param th) + CTX_RSP) = Ret rsp → get_word th rsp = Ret ra → in_u 64 ra →
  xloop_enter hps fuel new_brk translate pair_by_types th cbs = Ret th1 →
  xreg (g_env (t_guest th1)) 30 = Ret ra ∧
  ∀ th2 symbols cbs2 hints, CFIhead th2 = CFIhead th1 → frames th2 = frames th1 → have_mmap_lock (t_vm th2) = false → (need_emulation (t_vm th2) ra).1 = false →
    hinted hints (g_pc (t_guest th2)) = None → tb_gen_code DEBUG objc_get_types_from_zelf_selector solve_symbol_name th2 symbols cbs2 hints ra = Ret (XLoopRet, hints).
Proof.
  intros He Hl Ht Hrsp Hra Ura. unfold xloop_enter. destruct (xreg _ 30) as [lr|]; [|done]. destruct (xreg _ 29) as [fp|]; [|done]. destruct (xreg _ 31) as [sp|]; [|done]. cbn [mbind outcome_bind].
  destruct (prepare_env _ _ _ _ _) as [th2|] eqn:E1; [|done]. cbn [mbind outcome_bind]. destruct (prepare_env_lr _ _ _ _ _ He Hrsp Hra E1) as (Hm & He2 & Hlr).
  apply prepare_env_inv in E1 as (_ & Hf2 & Hc2 & _); [|done]. destruct (translation_pair _ _ _ _) as [[en ex] th3] eqn:E2. apply translation_pair_inv in E2 as (Hg3 & Hf3 & Hc3 & _). destruct (_ || _); [done|].
  destruct (translate en _ _) as [g|] eqn:E3; [|done]. cbn [mbind outcome_bind]. destruct (Ht _ _ _ E3) as [Hk Hmem]. rewrite Hg3, Hm in Hmem.
  assert (get_word (with_guest th3 g) (unwind_context (tls_xloop_param th) + CTX_RSP) = Ret rsp) as ->.
  { rewrite <- Hrsp. unfold get_word. cbn [t_guest with_guest]. rewrite Hmem by (apply elem_of_cons; auto). done. }
  cbn [mbind outcome_bind]. assert (get_word (with_guest th3 g) rsp = Ret ra) as ->.
  { rewrite <- Hra. unfold get_word. cbn [t_guest with_guest]. rewrite Hmem by (apply elem_of_cons; right; apply elem_of_cons; auto). done. }
  cbn [mbind outcome_bind]. destruct (get_word (with_guest th3 g) _) as [rbp|]; [|done]. cbn [mbind outcome_bind frames CFIhead jmp_env with_guest]. intros Hi.
  assert (frames th3 = frames th) as Hf by congruence. assert (CFIhead th3 = CFIhead th) as Hc by congruence.
  apply (insert_head_ok (with_guest th3 g)) in Hi; [|cbn; by rewrite Hf, Hc|by split_and!]. cbn [frames CFIhead with_guest] in Hi. subst th1. cbn [t_guest with_cfi with_guest CFIhead frames]. split.
  - rewrite Hk, Hg3, Hlr. by rewrite wrap_small.
  - intros th4 symbols cbs2 hints Hc4 Hf4 Hlock Hem Hhint. unfold tb_gen_code. rewrite Hlock. cbn [negb c_assert mbind outcome_bind]. rewrite Hem, Hhint, Hc4. unfold frame_of. rewrite Hf4, lookup_app_r by (rewrite new_locs_length; lia).
    rewrite new_locs_length, Nat.sub_diag. cbn. by rewrite Z.eqb_refl.
Qed.
End way_back.

(** ** A thread *)

(** The host calls the guest with a context at 4096; its stack pointer, 8192,
    points to the return address 12288. Generated code does nothing here. *)
Definition xw_mem : memory := region 4096 (concat (le_bytes 8 <$> [0; 0; 0; 0; 0; 0; 77; 8192])) (region 8192 (le_bytes 8 12288) (λ _, None)).
Definition xw_guest (sp fp lr : Z) (z : list Z) : guest := mk_guest (mk_env (concat (le_bytes 8 <$> (replicate 29 0 ++ [fp; lr; sp]))) z) 500 xw_mem.
Definition xw_thread (v : vm page_table) (sp fp lr : Z) (z : list Z) (l : list nat) (fs : list activation) : thread page_table :=
  mk_thread (xw_guest sp fp lr z) v 0 0 (mk_param 0 0 0 4096) l fs 5.
Definition xw_translate (f : Z) (g : guest) (ctx : Z) : outcome guest := Ret g.
Definition xw_zregs : list Z := replicate (Z.to_nat (32 * ZREG_SIZE)) 0.
Definition xw_enter (th : thread page_table) : outcome (thread page_table) :=
  th ← cpu_xloop_helper th 9 10 4096 500; xloop_enter TARGET_PAGE_SIZE 1 0 xw_translate (λ _, (1, 2)) th ∅.
Definition xw_act (sp fp lr : Z) (loc : Z → reg_loc) : activation := mk_act lr fp sp (mk_param 9 10 0 4096) 10 5 (mk_cfi 12288 8192 77 (loc 30) (loc 29) (loc 31)).

Lemma xw_env_ok sp fp lr : env_ok (g_env (xw_guest sp fp lr xw_zregs)).
Proof. split_and!; [done|done|..]; solve_bytes_ok. Qed.

(** The first call, then one from inside it. *)
Lemma xw_call_1 v z : xw_enter (xw_thread v 1000 1001 1002 z [] []) = Ret (xw_thread v 1000 1001 12288 z [0%nat] [xw_act 1000 1001 1002 InEnv]).
Proof. vm_compute. reflexivity. Qed.
Lemma xw_call_2 v z : xw_enter (xw_thread v 900 901 902 z [0%nat] [xw_act 1000 1001 1002 InEnv]) =
  Ret (xw_thread v 900 901 12288 z [1%nat; 0%nat] [xw_act 1000 1001 1002 (InFrame 1); xw_act 900 901 902 InEnv]).
Proof. vm_compute. reflexivity. Qed.

Lemma xw_translate_ok f g ctx g' : xw_translate f g ctx = Ret g' → env_ok (g_env g) → env_ok (g_env g').
Proof. by intros [= <-]. Qed.

Lemma xw_live_0 v z l fs : live (xw_thread v 1000 1001 1002 z l fs) (1000, 1001, 1002).
Proof. reflexivity. Qed.
Lemma xw_live_1 v z l fs : live (xw_thread v 1000 1001 12288 z l fs) (1000, 1001, 12288).
Proof. reflexivity. Qed.
Lemma xw_live_2 v z l fs : live (xw_thread v 900 901 902 z l fs) (900, 901, 902).
Proof. reflexivity. Qed.
Lemma xw_live_3 v z l fs : live (xw_thread v 900 901 12288 z l fs) (900, 901, 12288).
Proof. reflexivity. Qed.

Lemma xw_step_call th th' r : xw_enter th = Ret th' → live th' r → xstep TARGET_PAGE_SIZE 1 0 xw_translate (λ _, (1, 2)) (Call r) th th'.
Proof. unfold xw_enter. destruct (cpu_xloop_helper _ _ _ _ _) as [th1|] eqn:E; [|done]. intros Hx Hl. exact (x_call _ _ _ _ _ _ _ _ _ _ _ _ _ _ E Hx Hl). Qed.

Lemma xw_steps v : xsteps TARGET_PAGE_SIZE 1 0 xw_translate (λ _, (1, 2)) [Call (1000, 1001, 12288); Run (900, 901, 902)]
  (xw_thread v 1000 1001 1002 xw_zregs [] []) (xw_thread v 900 901 902 xw_zregs [0%nat] [xw_act 1000 1001 1002 InEnv]).
Proof.
  eapply xs_cons; [apply xw_step_call; [apply xw_call_1|apply xw_live_1]|]. eapply xs_cons; [|apply xs_nil].
  apply (x_run _ _ _ _ _ (xw_thread _ 1000 1001 12288 _ _ _) (xw_guest 900 901 902 xw_zregs)); [apply xw_env_ok|apply (xw_live_2 v xw_zregs [] [])].
Qed.

Lemma cfi_refines_witness : ∃ th, xsteps TARGET_PAGE_SIZE 1 0 xw_translate (λ _, (1, 2)) [Call (1000, 1001, 12288); Run (900, 901, 902); Call (900, 901, 12288)]
    (xw_thread wit_running 1000 1001 1002 xw_zregs [] []) th ∧
  iqemu_get_arm64_CFI th 0 = Ret (Some (900, 901, 12288)) ∧ iqemu_get_arm64_CFI th 1 = Ret (Some (900, 901, 902)) ∧ iqemu_get_arm64_CFI th 2 = Ret None.
Proof.
  exists (xw_thread wit_running 900 901 12288 xw_zregs [1%nat; 0%nat] [xw_act 1000 1001 1002 (InFrame 1); xw_act 900 901 902 InEnv]).
  match goal with |- ?P ∧ _ => assert P as Hx end.
  { eapply xs_cons; [apply xw_step_call; [apply xw_call_1|apply xw_live_1]|]. eapply xs_cons; [|eapply xs_cons; [apply xw_step_call; [apply xw_call_2|apply xw_live_3]|apply xs_nil]].
    apply (x_run _ _ _ _ _ (xw_thread _ 1000 1001 12288 _ _ _) (xw_guest 900 901 902 xw_zregs)); [apply xw_env_ok|apply (xw_live_2 wit_running xw_zregs [] [])]. }
  split; [exact Hx|]. destruct (cfi_refines TARGET_PAGE_SIZE 1 0 xw_translate (λ _, (1, 2)) xw_translate_ok (xw_thread wit_running 1000 1001 1002 xw_zregs [] []) (1000, 1001, 1002) _ _ (xw_env_ok _ _ _) eq_refl (xw_live_0 _ _ _ _) Hx) as (r & S & Ha & _ & Hv & _).
  injection Ha as <- <-. by split_and!; rewrite Hv.
Defined.

Definition xw_inner (sp fp lr : Z) : thread page_table :=
  xw_thread wit_running sp fp lr xw_zregs [1%nat; 0%nat] [xw_act 1000 1001 1002 (InFrame 1); xw_act 900 901 902 InEnv].

Lemma xw_enter_inv th th' : xw_enter th = Ret th' → ∃ th1, cpu_xloop_helper th 9 10 4096 500 = Ret th1 ∧ xloop_enter TARGET_PAGE_SIZE 1 0 xw_translate (λ _, (1, 2)) th1 ∅ = Ret th'.
Proof. unfold xw_enter. destruct (cpu_xloop_helper _ _ _ _ _) as [th1|]; [|done]. intros E. by exists th1. Qed.

Lemma xw_inner_run : xsteps_in TARGET_PAGE_SIZE 1 0 xw_translate (λ _, (1, 2)) 1 [Run (800, 801, 12288)] (xw_inner 900 901 12288) (xw_inner 800 801 12288).
Proof.
  eapply xi_cons; [| |apply xi_nil]; [|apply list_elem_of_here].
  apply (x_run _ _ _ _ _ (xw_inner 900 901 12288) (xw_guest 800 801 12288 xw_zregs)); [apply xw_env_ok|reflexivity].
Qed.

Lemma xw_lr_2 : xreg (g_env (xw_guest 900 901 902 xw_zregs)) 30 = Ret 902.
Proof. reflexivity. Qed.

Lemma guest_call_transparent_witness : ∃ th4, xloop_leave xw_translate (xw_inner 800 801 12288) = Ret th4 ∧
  frames th4 = [xw_act 1000 1001 1002 InEnv] ∧ CFIhead th4 = [0%nat] ∧ xreg (g_env (t_guest th4)) 30 = Ret 902.
Proof.
  destruct (xw_enter_inv _ _ (xw_call_2 wit_running xw_zregs)) as (th1 & E1 & E2).
  destruct (guest_call_transparent TARGET_PAGE_SIZE 1 0 xw_translate (λ _, (1, 2)) xw_translate_ok (xw_thread wit_running 1000 1001 1002 xw_zregs [] []) _ _ _ _ _ _ _ _ _ _ _ (xw_guest 800 801 12288 xw_zregs)
    (xw_env_ok 1000 1001 1002) eq_refl (xw_steps wit_running) E1 E2 xw_inner_run eq_refl (λ _ _, eq_refl)) as (th4 & E4 & Hf & Hc & _ & Hlr).
  exists th4. split; [exact E4|]. split; [exact Hf|]. split; [exact Hc|]. rewrite Hlr. exact xw_lr_2.
Defined.

Definition xw_called (v : vm page_table) (z : list Z) : thread page_table :=
  xw_thread v 1000 1001 12288 z [0%nat] [mk_act 1002 1001 1000 (mk_param 0 0 0 4096) 2 5 (mk_cfi 12288 8192 77 (InEnv 30) (InEnv 29) (InEnv 31))].
Lemma xw_by_pc v z : xloop_enter TARGET_PAGE_SIZE 1 0 xw_translate (λ _, (1, 2)) (xw_thread v 1000 1001 1002 z [] []) ∅ =
  Ret (xw_called v z).
Proof. vm_compute. reflexivity. Qed.

Lemma guest_return_dispatched_witness : ∃ th1, xloop_enter TARGET_PAGE_SIZE 1 0 xw_translate (λ _, (1, 2)) (xw_thread wit_running 1000 1001 1002 xw_zregs [] []) ∅ = Ret th1 ∧
  xreg (g_env (t_guest th1)) 30 = Ret 12288 ∧ tb_gen_code false (λ _, []) (λ _, None) th1 ∅ ∅ None 12288 = Ret (XLoopRet, None).
Proof.
  exists (xw_called wit_running xw_zregs). split; [apply xw_by_pc|].
  destruct (guest_return_dispatched TARGET_PAGE_SIZE 1 0 xw_translate (λ _, (1, 2)) false (λ _, []) (λ _, None) (xw_thread wit_running 1000 1001 1002 xw_zregs [] []) ∅ (xw_called wit_running xw_zregs) 8192 12288
    (xw_env_ok 1000 1001 1002) I) as [Hlr Hd].
  - by intros f g g' [= <-].
  - reflexivity.
  - reflexivity.
  - done.
  - apply xw_by_pc.
  - split; [exact Hlr|]. apply Hd; reflexivity.
Defined.
