(* ===== verification/Signals.v ===== *)
(** * Delivery of signals to the guest

    [host_signal_handler] notes a signal, [process_pending_signals] delivers
    what is noted when the guest is between two instructions, [do_sigaction]
    sets dispositions ([bsd-user/signal.c]).

    The frame on the guest stack is written by [setup_rt_frame], through the
    class [FrameSetup]: a client of these theorems gives an instance. *)

From S2P Require Import Prelude Bytes SigState.

(** ** What delivery needs of the frames *)

(** Guest state [G], with what the stack happens to hold where the code leaves
    a [target_siginfo_t] partly unset. *)
Class FrameSetup (G : Type) := {
  setup_rt_frame : sigstate → G → Z → target_sigaction → target_siginfo → Z → outcome (sigstate * G);
  stack_junk : G → list Z
}.

(** A frame is written, or the guest gets a [SIGSEGV] instead. *)
Class FrameSetupLaws (G : Type) `{FrameSetup G} : Prop := {
  setup_outcome st g sig sa i old : ∃ r g', setup_rt_frame st g sig sa i old = (st' ← r; Ret (st', g')) ∧ (r = Ret st ∨ r = force_sigsegv st sig (stack_junk g))
}.

Section signals.
Context {G : Type} {FS : FrameSetup G}.
(** The signal a debugger, if there is one, wants delivered instead. *)
Context (gdb_handlesig : Z → Z).

(** ** The host's handler *)

Definition host_signal_mask : Z := sigdelset (sigdelset sigfillset SIGSEGV) SIGBUS.

(** [handled] is the result of [cpu_signal_handler], for faults. *)
Definition host_signal_handler (st : sigstate) (host_signum : Z) (i : host_siginfo) (handled : bool) : outcome sigstate :=
  if ((host_signum =? SIGSEGV) || (host_signum =? SIGBUS)) && (0 <? h_code i) && handled then Ret st
  else
    let sig := host_to_target_signal host_signum in
    if (sig <? 1) || (TARGET_NSIG <? sig) then Ret st
    else
      tinfo ← host_to_target_siginfo_noswap i;
      let t := with_sigtab (ts st) (<[Z.to_nat (sig - 1) := mk_sigentry sig tinfo]> (sigtab (ts st))) in
      let st := with_ts st (with_pending t true) in
      Ret (called (called st (H_sigmask host_signal_mask)) H_cpu_exit).

(** ** Dispositions *)

Definition signal_init_one (host_ignored host_default : Z → bool) (st : sigstate) (i : Z) : outcome sigstate :=
  let host_sig := target_to_host_signal i in
  st ← if host_ignored host_sig then set_handler st i TARGET_SIG_IGN
       else if host_default host_sig then set_handler st i TARGET_SIG_DFL else Ret st;
  Ret (if fatal_signal i then called st (H_sigaction host_sig HostSignalHandler false) else st).

Fixpoint init_loop (host_ignored host_default : Z → bool) (st : sigstate) (l : list Z) : outcome sigstate :=
  match l with
  | [] => Ret st
  | i :: l => st ← signal_init_one host_ignored host_default st i; init_loop host_ignored host_default st l
  end.

(** The mask of the host thread is [host_mask]; what the process inherited is
    told by two tests. *)
Definition signal_init (st : sigstate) (host_mask : Z) (host_ignored host_default : Z → bool) : outcome sigstate :=
  init_loop host_ignored host_default (with_ts st (with_mask (ts st) host_mask)) (seqZ 1 TARGET_NSIG).

Definition host_to_target_sigaction (handler flags mask : Z) : target_sigaction :=
  mk_sigaction (u64 handler) (u64 flags) (host_to_target_sigset mask).

Definition target_to_host_sigaction (s : target_sigaction) : Z * Z * Z := (_sa_handler s, sext 32 (sa_flags s), target_to_host_sigset (sa_mask s)).

(** The handler that the host gets for a guest disposition. *)
Definition host_disposition (sig : Z) (k : target_sigaction) : host_handler :=
  if _sa_handler k =? TARGET_SIG_IGN then HostIgnore
  else if _sa_handler k =? TARGET_SIG_DFL then if fatal_signal sig then HostSignalHandler else HostDefault
  else HostSignalHandler.

(** The result, the old disposition, and the new state.  [host_result] is what
    [sigaction] of the host returns. *)
Definition do_sigaction (st : sigstate) (sig : Z) (act : option target_sigaction) (host_result : Z) : outcome (Z * option target_sigaction * sigstate) :=
  if (sig <? 1) || (TARGET_NSIG <? sig) || (sig =? TARGET_SIGKILL) || (sig =? TARGET_SIGSTOP) then Ret (- TARGET_EINVAL, None, st)
  else
    k ← entry_of (sigact_table st) sig;
    match act with
    | None => Ret (0, Some k, st)
    | Some a =>
        let st := mk_sigstate (ts st) (<[Z.to_nat (sig - 1) := a]> (sigact_table st)) (calls st) in
        let host_sig := target_to_host_signal sig in
        if TARGET_NSIG <? host_sig then Ret (0, Some k, st)
        else if negb (host_sig =? SIGSEGV) && negb (host_sig =? SIGBUS) then
          Ret (host_result, Some k, called st (H_sigaction host_sig (host_disposition sig a) (negb (Z.land (sa_flags a) TARGET_SA_RESTART =? 0))))
        else Ret (0, Some k, st)
    end.

(** ** Delivery *)

(** Where a pending signal is kept. *)
Inductive sig_slot := SyncSlot | AsyncSlot (sig : Z).

Definition slot_entry (t : TaskState) (k : sig_slot) : outcome emulated_sigtable :=
  match k with SyncSlot => Ret (sync_signal t) | AsyncSlot sig => entry_of (sigtab t) sig end.

Definition set_slot (t : TaskState) (k : sig_slot) (e : emulated_sigtable) : TaskState :=
  match k with SyncSlot => with_sync t e | AsyncSlot sig => with_sigtab t (<[Z.to_nat (sig - 1) := e]> (sigtab t)) end.

(** [dump_core_and_abort] ends the process. *)
Definition dump_core_and_abort {A} (target_sig : Z) : outcome A := Stop Aborted.

Definition default_action (st : sigstate) (sig : Z) : outcome sigstate :=
  if (sig =? TARGET_SIGTSTP) || (sig =? TARGET_SIGTTIN) || (sig =? TARGET_SIGTTOU) then Ret (called st (H_kill SIGSTOP))
  else if negb (sig =? TARGET_SIGCHLD) && negb (sig =? TARGET_SIGURG) && negb (sig =? TARGET_SIGWINCH) && negb (sig =? TARGET_SIGCONT)
  then dump_core_and_abort sig else Ret st.

Definition blocked_set (t : TaskState) : Z := if in_sigsuspend t then sigsuspend_mask t else signal_mask t.

(** The guest continues in its handler, with more signals blocked. *)
Definition run_handler (st : sigstate) (g : G) (sig : Z) (sa : target_sigaction) (i : target_siginfo) : outcome (sigstate * G) :=
  let set := target_to_host_sigset (sa_mask sa) in
  let set := if Z.land (sa_flags sa) TARGET_SA_NODEFER =? 0 then sigaddset set (target_to_host_signal sig) else set in
  let old := host_to_target_sigset_internal (signal_mask (ts st)) in
  let st := with_ts st (with_suspend (with_mask (ts st) (sigorset (blocked_set (ts st)) set)) false) in
  '(st, g) ← setup_rt_frame st g sig sa i old;
  if Z.land (sa_flags sa) TARGET_SA_RESETHAND =? 0 then Ret (st, g)
  else st ← set_handler st sig TARGET_SIG_DFL; Ret (st, g).

Definition handle_pending_signal (st : sigstate) (g : G) (sig : Z) (k : sig_slot) : outcome (sigstate * G) :=
  e ← slot_entry (ts st) k;
  let st := with_ts st (set_slot (ts st) k (mk_sigentry 0 (info e))) in
  let sig := gdb_handlesig sig in
  if sig =? 0 then Ret (st, g)
  else
    sa ← entry_of (sigact_table st) sig;
    if _sa_handler sa =? TARGET_SIG_DFL then st ← default_action st sig; Ret (st, g)
    else if _sa_handler sa =? TARGET_SIG_IGN then Ret (st, g)
    else if _sa_handler sa =? TARGET_SIG_ERR then dump_core_and_abort sig
    else run_handler st g sig sa (info e).

(** A signal that the guest causes cannot be blocked or ignored. *)
Definition deliver_sync (st : sigstate) (g : G) : outcome (sigstate * G) :=
  let sig := pending (sync_signal (ts st)) in
  if sig =? 0 then Ret (st, g)
  else
    sa ← entry_of (sigact_table st) sig;
    let host_sig := at_index (target_to_host_signal_table tables) sig in
    st ← if sigismember (signal_mask (ts st)) host_sig || (_sa_handler sa =? TARGET_SIG_IGN)
         then set_handler (with_ts st (with_mask (ts st) (sigdelset (signal_mask (ts st)) host_sig))) sig TARGET_SIG_DFL
         else Ret st;
    handle_pending_signal st g sig SyncSlot.

Definition deliverable (t : TaskState) (sig : Z) : bool :=
  match entry_of (sigtab t) sig with
  | Ret e => negb (pending e =? 0) && negb (sigismember (blocked_set t) (at_index (target_to_host_signal_table tables) sig))
  | Stop _ => false
  end.

(** From [restart_scan] on; the first signal that can be delivered is, then
    the scan starts again. *)
Fixpoint scan (fuel : nat) (st : sigstate) (g : G) : outcome (sigstate * G) :=
  match fuel with
  | O => Stop OutOfFuel
  | S fuel =>
      '(st, g) ← deliver_sync st g;
      match List.find (deliverable (ts st)) (seqZ 1 TARGET_NSIG) with
      | Some sig => '(st, g) ← handle_pending_signal st g sig (AsyncSlot sig); scan fuel st g
      | None => Ret (st, g)
      end
  end.

(** Signals of the host that arrive when its mask is lowered. *)
Fixpoint arrive (st : sigstate) (l : list (Z * host_siginfo)) : outcome sigstate :=
  match l with
  | [] => Ret st
  | (n, i) :: l => st ← host_signal_handler st n i false; arrive st l
  end.

(** One round of the outer loop. *)
Definition process_round (fuel : nat) (st : sigstate) (g : G) : outcome (sigstate * G) :=
  let st := called st (H_sigmask sigfillset) in
  '(st, g) ← scan fuel st g;
  let st := with_ts st (with_suspend (with_pending (ts st) false) false) in
  let set := sigdelset (sigdelset (signal_mask (ts st)) SIGSEGV) SIGBUS in
  Ret (called st (H_sigmask set), g).

(** [arrivals] are the host signals at the end of each round. *)
Fixpoint process_pending_signals (fuel : nat) (arrivals : list (list (Z * host_siginfo))) (st : sigstate) (g : G) : outcome (sigstate * G) :=
  if signal_pending (ts st) then
    '(st, g) ← process_round fuel st g;
    match arrivals with
    | [] => Ret (with_ts st (with_suspend (ts st) false), g)
    | l :: arrivals => st ← arrive st l; process_pending_signals fuel arrivals st g
    end
  else Ret (with_ts st (with_suspend (ts st) false), g).
End signals.
