(* ===== verification/SigSpec.v ===== *)
(** * What signal delivery guarantees *)

From S2P Require Import Prelude Bytes SigState Signals.

(** ** Numbers and sets *)

Lemma tables_identity : host_to_target_signal_table tables = seqZ 0 32 ∧ target_to_host_signal_table tables = seqZ 0 33.
Proof. split; vm_compute; reflexivity. Qed.

Lemma at_seqZ n i : 0 ≤ i < n → at_index (seqZ 0 n) i = i.
Proof. intros Hi. unfold at_index. assert (seqZ 0 n !! Z.to_nat i = Some i) as Hl by (apply lookup_seqZ; lia). by rewrite (nth_lookup_Some _ _ _ _ Hl). Qed.

Lemma host_to_target_same s : 0 ≤ s → host_to_target_signal s = s.
Proof.
  intros Hs. unfold host_to_target_signal, HOST_NSIG. destruct (Z.ltb_spec s 1), (Z.leb_spec 32 s); cbn [orb]; try done. rewrite (proj1 tables_identity). apply at_seqZ. lia.
Qed.

Lemma target_to_host_same s : 0 ≤ s → target_to_host_signal s = s.
Proof.
  intros Hs. unfold target_to_host_signal, TARGET_NSIG. destruct (Z.ltb_spec s 1), (Z.ltb_spec 32 s); cbn [orb]; try done. rewrite (proj2 tables_identity). apply at_seqZ. lia.
Qed.

Lemma host_index_same s : 0 ≤ s ≤ 32 → at_index (target_to_host_signal_table tables) s = s.
Proof. intros Hs. rewrite (proj2 tables_identity). apply at_seqZ. lia. Qed.

Lemma land_shiftl1 s k : 0 ≤ k → negb (Z.land s (Z.shiftl 1 k) =? 0) = Z.testbit s k.
Proof.
  intros Hk. rewrite Z.shiftl_1_l. destruct (Z.testbit s k) eqn:E; [apply negb_true_iff, Z.eqb_neq|apply negb_false_iff, Z.eqb_eq].
  - intros Hz. assert (Z.testbit (Z.land s (2 ^ k)) k = true) as Ht by (rewrite Z.land_spec, E, Z.pow2_bits_true by done; done). rewrite Hz, Z.testbit_0_l in Ht. done.
  - apply Z.bits_inj'. intros n Hn. rewrite Z.land_spec, Z.testbit_0_l. destruct (decide (n = k)) as [->|]; [by rewrite E|]. rewrite Z.pow2_bits_false by lia. by rewrite andb_false_r.
Qed.

Lemma sigismember_bit s i : 1 ≤ i ≤ 32 → sigismember s i = Z.testbit s (i - 1).
Proof. intros Hi. unfold sigismember, sigbit, HOST_NSIG. rewrite (proj2 (Z.ltb_ge 32 i)) by lia. apply land_shiftl1. lia. Qed.

Lemma target_sigismember_bit s i : 1 ≤ i ≤ 64 → target_sigismember s i = Z.testbit s (i - 1).
Proof. intros Hi. unfold target_sigismember. rewrite Z.mod_small by lia. apply land_shiftl1. lia. Qed.

Lemma sigaddset_bit s i k : 1 ≤ i ≤ 32 → 0 ≤ k → Z.testbit (sigaddset s i) k = Z.testbit s k || (k =? i - 1).
Proof. intros Hi Hk. unfold sigaddset, sigbit, HOST_NSIG. rewrite (proj2 (Z.ltb_ge 32 i)) by lia. rewrite Z.lor_spec, Z.shiftl_1_l, Z.pow2_bits_eqb by lia. by rewrite (Z.eqb_sym k). Qed.

Lemma target_sigaddset_bit s i k : 1 ≤ i ≤ 64 → 0 ≤ k → Z.testbit (target_sigaddset s i) k = Z.testbit s k || (k =? i - 1).
Proof. intros Hi Hk. unfold target_sigaddset. rewrite Z.mod_small by lia. rewrite Z.lor_spec, Z.shiftl_1_l, Z.pow2_bits_eqb by lia. by rewrite (Z.eqb_sym k). Qed.

Lemma sigdelset_bit s i k : 1 ≤ i ≤ 32 → 0 ≤ k → Z.testbit (sigdelset s i) k = Z.testbit s k && negb (k =? i - 1).
Proof.
  intros Hi Hk. unfold sigdelset, sigbit, HOST_NSIG. rewrite (proj2 (Z.ltb_ge 32 i)) by lia. rewrite Z.land_spec, Z.lnot_spec, Z.shiftl_1_l, Z.pow2_bits_eqb by lia. by rewrite (Z.eqb_sym k).
Qed.

(** A loop that adds the members of [s]. *)
Lemma collect_bits (f : Z → Z → Z) (s : Z) l d k : 0 ≤ k → Forall (λ i, 1 ≤ i ≤ 32) l →
  (∀ d i, 1 ≤ i ≤ 32 → Z.testbit (f d i) k = Z.testbit d k || (Z.testbit s (i - 1) && (k =? i - 1))) →
  Z.testbit (foldl f d l) k = Z.testbit d k || (Z.testbit s k && bool_decide (k + 1 ∈ l)).
Proof.
  intros Hk Hl Hf. revert d. induction Hl as [|i l Hi _ IH]; intros d; cbn [foldl]; [by rewrite bool_decide_false, andb_false_r, orb_false_r by apply not_elem_of_nil|].
  rewrite IH, Hf by done. rewrite <- orb_assoc. f_equal. destruct (Z.eqb_spec k (i - 1)) as [->|Hne].
  - rewrite (bool_decide_true (i - 1 + 1 ∈ i :: l)) by (apply elem_of_cons; left; lia). rewrite !andb_true_r. by destruct (Z.testbit s (i - 1)), (bool_decide _).
  - rewrite andb_false_r. cbn [orb]. f_equal. apply bool_decide_ext. rewrite elem_of_cons. split; [auto|]. intros [?|?]; [lia|done].
Qed.

Lemma signals_range n : n ≤ 32 → Forall (λ i, 1 ≤ i ≤ 32) (seqZ 1 n).
Proof. intros Hn. apply Forall_forall. intros i Hi. apply elem_of_seqZ in Hi. lia. Qed.

Lemma host_to_target_bits s k : 0 ≤ k → Z.testbit (host_to_target_sigset s) k = Z.testbit s k && (k <? 31).
Proof.
  intros Hk. unfold host_to_target_sigset, host_to_target_sigset_internal. rewrite (collect_bits _ s) by (done || (by apply signals_range) ||
    (intros d i Hi; rewrite host_to_target_same by lia; unfold TARGET_NSIG; rewrite (proj2 (Z.ltb_ge i 1)), (proj2 (Z.ltb_ge 32 i)), sigismember_bit by lia;
     cbn [orb]; destruct (Z.testbit s (i - 1)); [by rewrite target_sigaddset_bit by lia|by rewrite orb_false_r])).
  unfold target_sigemptyset. rewrite Z.testbit_0_l. cbn [orb]. f_equal. apply eq_bool_prop_intro. rewrite bool_decide_spec, Is_true_true, Z.ltb_lt, elem_of_seqZ. unfold HOST_NSIG. lia.
Qed.

Lemma target_to_host_bits s k : 0 ≤ k → Z.testbit (target_to_host_sigset s) k = Z.testbit s k && (k <? 31).
Proof.
  intros Hk. unfold target_to_host_sigset, target_to_host_sigset_internal.
  assert (∀ d, foldl (λ d target_sig, let host_sig := target_to_host_signal target_sig in if (host_sig <? 1) || (HOST_NSIG <=? host_sig) then d
      else if target_sigismember s target_sig then sigaddset d host_sig else d) d (seqZ 1 TARGET_NSIG) =
    foldl (λ d i, if target_sigismember s i then sigaddset d i else d) d (seqZ 1 31)) as ->.
  { intros d. change TARGET_NSIG with 32. change (seqZ 1 32) with (seqZ 1 31 ++ [32]). rewrite foldl_app. cbn [foldl]. rewrite (target_to_host_same 32) by done. cbn [Z.ltb Z.leb orb HOST_NSIG].
    revert d. pose proof (signals_range 31 ltac:(done)) as Hr. assert (Forall (λ i, i ≤ 31) (seqZ 1 31)) as Hr2 by (apply Forall_forall; intros i Hi; apply elem_of_seqZ in Hi; lia).
    induction (seqZ 1 31) as [|i l IH]; intros d; [done|]. apply Forall_cons in Hr as [Hi Hr]. apply Forall_cons in Hr2 as [Hi2 Hr2]. cbn [foldl].
    rewrite target_to_host_same by lia. unfold HOST_NSIG. rewrite (proj2 (Z.ltb_ge i 1)), (proj2 (Z.leb_gt 32 i)) by lia. cbn [orb]. by apply IH. }
  rewrite (collect_bits _ s) by (done || (by apply signals_range) ||
    (intros d i Hi; rewrite target_sigismember_bit by lia; destruct (Z.testbit s (i - 1)); [by rewrite sigaddset_bit by lia|by rewrite orb_false_r])).
  rewrite Z.testbit_0_l. cbn [orb]. f_equal. apply eq_bool_prop_intro. rewrite bool_decide_spec, Is_true_true, Z.ltb_lt, elem_of_seqZ. lia.
Qed.

(** ** Well-formed states

    Nothing sets [in_sigsuspend]: there is no [sigsuspend] of the guest. *)

Record sig_wf (st : sigstate) : Prop := mk_sig_wf {
  wf_tab : length (sigtab (ts st)) = 32%nat;
  wf_act : length (sigact_table st) = 32%nat;
  wf_pending : ∀ i e, sigtab (ts st) !! i = Some e → pending e = 0 ∨ pending e = Z.of_nat i + 1;
  wf_sync : 0 ≤ pending (sync_signal (ts st)) ≤ 32;
  wf_suspend : in_sigsuspend (ts st) = false
}.

Lemma entry_of_ok {A} (l : list A) sig : length l = 32%nat → 1 ≤ sig ≤ 32 → ∃ x, entry_of l sig = Ret x ∧ l !! Z.to_nat (sig - 1) = Some x.
Proof.
  intros Hl Hs. unfold entry_of. rewrite (proj2 (Z.ltb_ge sig 1)) by lia. destruct (lookup_lt_is_Some_2 l (Z.to_nat (sig - 1))) as [x Hx]; [lia|]. rewrite Hx. by exists x.
Qed.

Lemma set_handler_ok st sig h : sig_wf st → 1 ≤ sig ≤ 32 → ∃ st', set_handler st sig h = Ret st' ∧ sig_wf st' ∧ ts st' = ts st ∧ calls st' = calls st.
Proof.
  intros [W1 W2 W3 W4 W5] Hs. unfold set_handler. destruct (entry_of_ok (sigact_table st) sig W2 Hs) as (sa & -> & _). cbn [mbind outcome_bind]. eexists. split_and!; [done| |done|done].
  split; cbn; [done|by rewrite length_insert|done|done|done].
Qed.

(** ** One signal *)

Section delivery.
Context {G : Type} {FS : FrameSetup G} {FL : FrameSetupLaws G} (gdb : Z → Z).
Context (Hgdb : ∀ s, 1 ≤ s ≤ 32 → 0 ≤ gdb s ≤ 32).

(** Only the queue of the thread's own signal, the mask and dispositions
    change. *)
Record delivered (st st' : sigstate) : Prop := mk_delivered {
  dl_wf : sig_wf st';
  dl_tab : sigtab (ts st') = sigtab (ts st);
  dl_sync : sync_signal (ts st') = sync_signal (ts st) ∨ pending (sync_signal (ts st')) = TARGET_SIGSEGV
}.

Lemma delivered_refl st : sig_wf st → delivered st st.
Proof. intros W. split; auto. Qed.

Lemma default_action_ok st sig : sig_wf st → (∃ st', default_action st sig = Ret st' ∧ delivered st st' ∧ ts st' = ts st) ∨ default_action st sig = Stop Aborted ∧ fatal_signal sig || (sig =? TARGET_SIGSTOP) = true.
Proof.
  intros W. unfold default_action, dump_core_and_abort, fatal_signal. cbn [existsb]. destruct (sig =? TARGET_SIGTSTP), (sig =? TARGET_SIGTTIN), (sig =? TARGET_SIGTTOU); cbn [orb];
    try (left; eexists; split_and!; [reflexivity| |reflexivity]; destruct W; split; auto; by split).
  destruct (sig =? TARGET_SIGCHLD), (sig =? TARGET_SIGURG), (sig =? TARGET_SIGWINCH), (sig =? TARGET_SIGCONT); cbn [negb andb orb];
    try (left; eexists; split_and!; [reflexivity|by apply delivered_refl|reflexivity]). right. by destruct (sig =? TARGET_SIGSTOP).
Qed.

Lemma force_sigsegv_ok st sig junk : sig_wf st → ∃ st', force_sigsegv st sig junk = Ret st' ∧ delivered st st' ∧ signal_pending (ts st') = true ∧ pending (sync_signal (ts st')) = TARGET_SIGSEGV ∧
  signal_mask (ts st') = signal_mask (ts st).
Proof.
  intros W. unfold force_sigsegv. destruct (Z.eqb_spec sig SIGSEGV) as [->|].
  - destruct (set_handler_ok st SIGSEGV TARGET_SIG_DFL W ltac:(done)) as (st1 & -> & [W1 W2 W3 W4 W5] & Ht & _). cbn [mbind outcome_bind]. eexists. split_and!; [done| |done|done|cbn; by rewrite Ht]. split; [split; done|cbn; by rewrite Ht|by right].
  - cbn [mbind outcome_bind]. destruct W. eexists. split_and!; [done| |done|done|done]. split; [split; done|done|by right].
Qed.

Lemma run_handler_ok st g sig sa i : sig_wf st → 1 ≤ sig ≤ 32 → ∃ st' g', run_handler st g sig sa i = Ret (st', g') ∧ delivered st st' ∧ in_sigsuspend (ts st') = false.
Proof.
  intros [W1 W2 W3 W4 W5] Hs. unfold run_handler. set (old := host_to_target_sigset_internal _). set (st1 := with_ts st _).
  assert (sig_wf st1) as Wf1 by (by split). destruct (setup_outcome st1 g sig sa i old) as (r & g' & -> & Hr).
  assert (∃ st2, r = Ret st2 ∧ delivered st1 st2 ∧ in_sigsuspend (ts st2) = false) as (st2 & -> & D2 & S2).
  { destruct Hr as [->| ->]; [exists st1; split_and!; [done|by apply delivered_refl|done]|].
    unfold force_sigsegv. destruct (Z.eqb_spec sig SIGSEGV) as [->|].
    - destruct (set_handler_ok st1 SIGSEGV TARGET_SIG_DFL Wf1 ltac:(done)) as (st3 & -> & [V1 V2 V3 V4 V5] & Ht & _). cbn [mbind outcome_bind]. eexists. split_and!; [done| |cbn; by rewrite Ht].
      split; [split; done|cbn; by rewrite Ht|by right].
    - cbn [mbind outcome_bind]. eexists. split_and!; [done| |done]. split; [split; done|done|by right]. }
  cbn [mbind outcome_bind]. destruct D2 as [V Ht Hy]. destruct (Z.land (sa_flags sa) TARGET_SA_RESETHAND =? 0).
  - exists st2, g'. split_and!; [done| |done]. by split.
  - destruct (set_handler_ok st2 sig TARGET_SIG_DFL V Hs) as (st3 & -> & V3 & Ht3 & _). cbn [mbind outcome_bind]. exists st3, g'. split_and!; [done| |by rewrite Ht3]. split; rewrite ?Ht3; done.
Qed.

Lemma set_slot_wf st k e : sig_wf st → slot_entry (ts st) k = Ret e → (k = SyncSlot ∨ ∃ sig, k = AsyncSlot sig ∧ 1 ≤ sig ≤ 32) → sig_wf (with_ts st (set_slot (ts st) k (mk_sigentry 0 (info e)))).
Proof.
  intros [W1 W2 W3 W4 W5] He [->|(sig & -> & Hs)]; split; try done; cbn.
  - by rewrite length_insert.
  - intros i e' Hi. destruct (decide (i = Z.to_nat (sig - 1))) as [->|Hne]; [|rewrite list_lookup_insert_ne in Hi by done; by apply W3].
    rewrite list_lookup_insert_eq in Hi by (rewrite W1; lia). injection Hi as <-. by left.
Qed.

Lemma handle_pending_signal_ok st g sig k : sig_wf st → 1 ≤ sig ≤ 32 → (k = SyncSlot ∨ k = AsyncSlot sig) →
  (∃ st' g' e, handle_pending_signal gdb st g sig k = Ret (st', g') ∧ slot_entry (ts st) k = Ret e ∧ delivered (with_ts st (set_slot (ts st) k (mk_sigentry 0 (info e)))) st') ∨
  handle_pending_signal gdb st g sig k = Stop Aborted.
Proof using FL Hgdb.
  intros W Hs Hk. unfold handle_pending_signal. assert (∃ e, slot_entry (ts st) k = Ret e) as [e He].
  { destruct Hk as [->| ->]; [by eexists|]. destruct (entry_of_ok (sigtab (ts st)) sig (wf_tab _ W) Hs) as (e & He & _). by exists e. }
  rewrite He. cbn [mbind outcome_bind]. set (st1 := with_ts st _). assert (sig_wf st1) as W1 by (apply set_slot_wf; [done|done|]; destruct Hk as [->| ->]; eauto).
  pose proof (Hgdb sig Hs) as Hg. destruct (Z.eqb_spec (gdb sig) 0) as [|Hg0]; [left; exists st1, g, e; split_and!; [done|done|by apply delivered_refl]|].
  destruct (entry_of_ok (sigact_table st1) (gdb sig) (wf_act _ W1) ltac:(lia)) as (sa & -> & _). cbn [mbind outcome_bind]. destruct (_sa_handler sa =? TARGET_SIG_DFL).
  - destruct (default_action_ok st1 (gdb sig) W1) as [(st2 & -> & D & _)|[-> _]]; [|by right]. left. by exists st2, g, e.
  - destruct (_sa_handler sa =? TARGET_SIG_IGN); [left; exists st1, g, e; split_and!; [done|done|by apply delivered_refl]|]. destruct (_sa_handler sa =? TARGET_SIG_ERR); [by right|].
    destruct (run_handler_ok st1 g (gdb sig) sa (info e) W1 ltac:(lia)) as (st2 & g2 & -> & D & _). left. by exists st2, g2, e.
Qed.

Lemma deliver_sync_ok st g : sig_wf st → (∃ st' g', deliver_sync gdb st g = Ret (st', g') ∧ sig_wf st' ∧ sigtab (ts st') = sigtab (ts st)) ∨ deliver_sync gdb st g = Stop Aborted.
Proof using FL Hgdb.
  intros W. unfold deliver_sync. pose proof (wf_sync _ W) as Hy. destruct (Z.eqb_spec (pending (sync_signal (ts st))) 0) as [|H0]; [left; by exists st, g|].
  set (sig := pending (sync_signal (ts st))) in *. assert (1 ≤ sig ≤ 32) as Hs by lia. destruct (entry_of_ok (sigact_table st) sig (wf_act _ W) Hs) as (sa & -> & _). cbn [mbind outcome_bind].
  set (host_sig := at_index _ sig). set (st0 := with_ts st (with_mask (ts st) _)).
  assert (∃ st1, (if sigismember (signal_mask (ts st)) host_sig || (_sa_handler sa =? TARGET_SIG_IGN) then set_handler st0 sig TARGET_SIG_DFL else Ret st) = Ret st1 ∧ sig_wf st1 ∧
    sigtab (ts st1) = sigtab (ts st)) as (st1 & -> & W1 & T1).
  { destruct (_ || _); [|by exists st]. assert (sig_wf st0) as W0 by (destruct W; by split). destruct (set_handler_ok st0 sig TARGET_SIG_DFL W0 Hs) as (st1 & -> & V & Ht & _). exists st1. split_and!; [done|done|by rewrite Ht]. }
  cbn [mbind outcome_bind]. destruct (handle_pending_signal_ok st1 g sig SyncSlot W1 Hs ltac:(by left)) as [(st2 & g2 & e & -> & _ & [D1 D2 _])| ->]; [|by right].
  left. exists st2, g2. split_and!; [done|done|by rewrite D2].
Qed.

(** ** The scan ends *)

Definition is_pending (e : emulated_sigtable) : Prop := pending e ≠ 0.
#[export] Instance is_pending_dec e : Decision (is_pending e).
Proof. unfold is_pending. apply _. Defined.

Definition npending (t : TaskState) : nat := length (filter is_pending (sigtab t)).

Lemma npending_slot (l : list emulated_sigtable) n e i : l !! n = Some e → pending e ≠ 0 →
  (length (filter is_pending (<[n := mk_sigentry 0%Z i]> l)) < length (filter is_pending l))%nat.
Proof.
  revert n. induction l as [|x l IH]; intros [|n] Hn He; cbn in Hn; [done|done| |].
  - injection Hn as ->. cbn [insert list_insert]. rewrite filter_cons_False by (intros Hf; by apply Hf). rewrite filter_cons_True by done. cbn. lia.
  - specialize (IH n Hn He). change (<[S n := mk_sigentry 0%Z i]> (x :: l)) with (x :: <[n := mk_sigentry 0%Z i]> l). destruct (decide (is_pending x)) as [Hx|Hx]; [rewrite !filter_cons_True by done|rewrite !filter_cons_False by done]; cbn [length]; lia.
Qed.

Lemma deliverable_pending t sig : deliverable t sig = true → length (sigtab t) = 32%nat → 1 ≤ sig ≤ 32 → ∃ e, entry_of (sigtab t) sig = Ret e ∧ sigtab t !! Z.to_nat (sig - 1) = Some e ∧ pending e ≠ 0.
Proof.
  unfold deliverable. intros Hd Hl Hs. destruct (entry_of_ok (sigtab t) sig Hl Hs) as (e & He & Hn). rewrite He in Hd. apply andb_true_iff in Hd as [Hd _]. apply negb_true_iff, Z.eqb_neq in Hd. by exists e.
Qed.

Lemma scan_ok fuel st g : sig_wf st → (npending (ts st) < fuel)%nat →
  (∃ st' g', scan gdb fuel st g = Ret (st', g') ∧ sig_wf st' ∧ ∀ sig, 1 ≤ sig ≤ 32 → deliverable (ts st') sig = false) ∨ scan gdb fuel st g = Stop Aborted.
Proof using FL Hgdb.
  revert st g. induction fuel as [|fuel IH]; intros st g W Hn; [lia|]. cbn [scan].
  destruct (deliver_sync_ok st g W) as [(st1 & g1 & -> & W1 & T1)| ->]; [|by right]. cbn [mbind outcome_bind].
  destruct (List.find _ _) as [sig|] eqn:Ef.
  - apply find_some in Ef as [Hin Hd]. apply list_elem_of_In, elem_of_seqZ in Hin. unfold TARGET_NSIG in Hin. assert (1 ≤ sig ≤ 32) as Hs by lia.
    destruct (deliverable_pending _ _ Hd (wf_tab _ W1) Hs) as (e & He & Hl & Hp).
    destruct (handle_pending_signal_ok st1 g1 sig (AsyncSlot sig) W1 Hs ltac:(by right)) as [(st2 & g2 & e2 & -> & He2 & [D1 D2 _])| ->]; [|by right]. cbn [mbind outcome_bind].
    apply IH; [done|]. unfold npending in *. rewrite D2. cbn. rewrite <- T1 in Hn. pose proof (npending_slot _ _ _ (info e2) Hl Hp). lia.
  - left. exists st1, g1. split_and!; [done|done|]. intros sig Hs. eapply find_none in Ef; [exact Ef|]. apply list_elem_of_In, elem_of_seqZ. unfold TARGET_NSIG. lia.
Qed.
End delivery.
