(* ===== verification/SigCorrect.v ===== *)
(** * Signals: the guarantees

    Masks, dispositions and the loop that delivers; and two orders of events in
    which a signal is not delivered although it could be. *)

From S2P Require Import Prelude Bytes SigState Signals SigSpec.

(** ** Masks *)

(** What a mask becomes. *)
Definition new_member (how : sig_how) (m set : Z) (i : Z) : bool :=
  match how with
  | SIG_BLOCK => sigismember m i || sigismember set i
  | SIG_UNBLOCK => sigismember m i && negb (sigismember set i)
  | SIG_SETMASK => sigismember set i
  end.

Lemma remove_bits (s : Z) l m k : 0 ≤ k → Forall (λ i, 1 ≤ i ≤ 32) l →
  Z.testbit (foldl (λ m i, if sigismember s i then sigdelset m i else m) m l) k = Z.testbit m k && negb (Z.testbit s k && bool_decide (k + 1 ∈ l)).
Proof.
  intros Hk Hl. revert m. induction Hl as [|i l Hi _ IH]; intros m; cbn [foldl]; [by rewrite bool_decide_false, andb_false_r, andb_true_r by apply not_elem_of_nil|].
  rewrite IH. rewrite sigismember_bit by done. destruct (Z.testbit s (i - 1)) eqn:Es.
  - rewrite sigdelset_bit by done. rewrite <- andb_assoc. f_equal. destruct (Z.eqb_spec k (i - 1)) as [->|Hne].
    + rewrite Es, (bool_decide_true (i - 1 + 1 ∈ i :: l)) by (apply elem_of_cons; left; lia). done.
    + cbn [negb andb]. f_equal. f_equal. apply bool_decide_ext. rewrite elem_of_cons. split; [auto|]. intros [?|?]; [lia|done].
  - f_equal. f_equal. destruct (Z.testbit s k) eqn:Ek; [|done]. cbn [andb]. apply bool_decide_ext. rewrite elem_of_cons. split; [auto|]. intros [Heq|?]; [|done].
    replace k with (i - 1) in Ek by lia. congruence.
Qed.

(** [do_sigprocmask] gives the old mask and changes membership of every
    signal as [how] says, except that [SIGKILL] and [SIGSTOP] are never
    blocked; without a set nothing changes. *)
Theorem do_sigprocmask_correct t how set : (do_sigprocmask t how set).1 = signal_mask t ∧
  match set with
  | None => (do_sigprocmask t how set).2 = t
  | Some set => ∀ i, 1 ≤ i ≤ 32 → sigismember (signal_mask (do_sigprocmask t how (Some set)).2) i =
      new_member how (signal_mask t) set i && negb (i =? SIGKILL) && negb (i =? SIGSTOP)
  end.
Proof.
  split; [by destruct set|]. destruct set as [set|]; [|done]. intros i Hi. unfold do_sigprocmask. cbn [snd signal_mask with_mask].
  set (m := match how with SIG_BLOCK => _ | SIG_UNBLOCK => _ | SIG_SETMASK => _ end). rewrite (sigismember_bit _ i Hi), !sigdelset_bit by (done || lia).
  assert (Z.testbit m (i - 1) = new_member how (signal_mask t) set i) as ->.
  { subst m. unfold new_member. rewrite !sigismember_bit by done. destruct how.
    - unfold sigorset. by rewrite Z.lor_spec.
    - rewrite remove_bits by (lia || by apply signals_range). rewrite bool_decide_true by (apply elem_of_seqZ; unfold HOST_NSIG; lia). by rewrite andb_true_r.
    - done. }
  f_equal; [f_equal|]; f_equal; apply eq_bool_prop_intro; rewrite !Is_true_true, !Z.eqb_eq; unfold SIGKILL, SIGSTOP; lia.
Qed.

(** Sets of signals survive the way to the guest and back, and the other
    way round: only signal 32, which macOS does not have, is lost. *)
Theorem sigset_roundtrip s : 0 ≤ s < 2 ^ 31 → target_to_host_sigset (host_to_target_sigset s) = s ∧ host_to_target_sigset (target_to_host_sigset s) = s.
Proof.
  intros Hs. assert (∀ k, 0 ≤ k → Z.testbit s k && (k <? 31) = Z.testbit s k) as Hb.
  { intros k Hk. destruct (Z.ltb_spec k 31); [by rewrite andb_true_r|]. rewrite andb_false_r. symmetry. destruct (decide (s = 0)) as [->|]; [apply Z.testbit_0_l|].
    apply Z.bits_above_log2; [lia|]. apply Z.log2_lt_pow2; [lia|]. apply Z.lt_le_trans with (2 ^ 31); [lia|]. by apply Z.pow_le_mono_r. }
  split; apply Z.bits_inj'; intros k Hk.
  - rewrite (target_to_host_bits _ k Hk), (host_to_target_bits _ k Hk), (Hb k Hk). by apply Hb.
  - rewrite (host_to_target_bits _ k Hk), (target_to_host_bits _ k Hk), (Hb k Hk). by apply Hb.
Qed.

Lemma sigset_roundtrip_witness : target_to_host_sigset (host_to_target_sigset 0x40000401) = 0x40000401.
Proof. apply (sigset_roundtrip 0x40000401). done. Defined.

(** ** Dispositions *)

(** [do_sigaction] in every case: [SIGKILL], [SIGSTOP] and numbers that
    are no signals are refused and nothing changes; otherwise the old
    disposition is the result and the new one is installed, and the host is
    told to ignore, to default or to call the emulator, except for [SIGSEGV]
    and [SIGBUS], which the emulator keeps. *)
Theorem do_sigaction_correct st sig act hr : sig_wf st →
  if bool_decide (1 ≤ sig ≤ 32 ∧ sig ≠ TARGET_SIGKILL ∧ sig ≠ TARGET_SIGSTOP) then
    ∃ old st', sigact_table st !! Z.to_nat (sig - 1) = Some old ∧ sig_wf st' ∧ ts st' = ts st ∧
      do_sigaction st sig act hr = Ret (if bool_decide (is_Some act ∧ sig ≠ TARGET_SIGSEGV ∧ sig ≠ TARGET_SIGBUS) then hr else 0, Some old, st') ∧
      (∀ s, 1 ≤ s ≤ 32 → sigact_table st' !! Z.to_nat (s - 1) = if bool_decide (s = sig) then Some (default old act) else sigact_table st !! Z.to_nat (s - 1)) ∧
      calls st' = calls st ++ match act with
        | Some a => if bool_decide (sig ≠ TARGET_SIGSEGV ∧ sig ≠ TARGET_SIGBUS)
                    then [H_sigaction sig (host_disposition sig a) (negb (Z.land (sa_flags a) TARGET_SA_RESTART =? 0))] else []
        | None => [] end
  else do_sigaction st sig act hr = Ret (- TARGET_EINVAL, None, st).
Proof.
  intros W. unfold do_sigaction. destruct (bool_decide_reflect (1 ≤ sig ≤ 32 ∧ sig ≠ TARGET_SIGKILL ∧ sig ≠ TARGET_SIGSTOP)) as [(Hs & Hk & Ht)|Hno].
  2: { destruct (Z.ltb_spec sig 1); [done|]. unfold TARGET_NSIG. destruct (Z.ltb_spec 32 sig); [done|]. destruct (Z.eqb_spec sig TARGET_SIGKILL); [done|]. destruct (Z.eqb_spec sig TARGET_SIGSTOP); [done|]. exfalso. apply Hno. lia. }
  unfold TARGET_NSIG. rewrite (proj2 (Z.ltb_ge sig 1)), (proj2 (Z.ltb_ge 32 sig)), (proj2 (Z.eqb_neq sig _) Hk), (proj2 (Z.eqb_neq sig _) Ht) by lia. cbn [orb].
  destruct (entry_of_ok (sigact_table st) sig (wf_act _ W) Hs) as (old & -> & Hold). cbn [mbind outcome_bind]. destruct act as [a|].
  2: { exists old, st. split_and!; try done; [|by rewrite app_nil_r].
    intros s Hs'. destruct (bool_decide_reflect (s = sig)) as [->|]; done. }
  rewrite target_to_host_same by lia. rewrite (proj2 (Z.ltb_ge 32 sig)) by lia. set (st1 := mk_sigstate _ _ _).
  assert (sig_wf st1) as W1 by (destruct W; split; cbn; rewrite ?length_insert; done).
  assert (∀ s, 1 ≤ s ≤ 32 → sigact_table st1 !! Z.to_nat (s - 1) = if bool_decide (s = sig) then Some a else sigact_table st !! Z.to_nat (s - 1)) as Hl.
  { intros s Hs'. cbn. destruct (bool_decide_reflect (s = sig)) as [->|Hne]; [by rewrite list_lookup_insert_eq by (rewrite (wf_act _ W); lia)|]. by rewrite list_lookup_insert_ne by lia. }
  destruct (Z.eqb_spec sig SIGSEGV) as [->|Hn1]; [|destruct (Z.eqb_spec sig SIGBUS) as [->|Hn2]]; cbn [negb andb].
  - exists old, st1. split_and!; try done. cbn. by rewrite app_nil_r.
  - exists old, st1. split_and!; try done. cbn. by rewrite app_nil_r.
  - rewrite !bool_decide_true by done. exists old, (called st1 (H_sigaction sig (host_disposition sig a) (negb (Z.land (sa_flags a) TARGET_SA_RESTART =? 0)))). split_and!; try done. by destruct W1; split.
Qed.

(** ** The loop *)

Section loop.
Context {G : Type} {FS : FrameSetup G} {FL : FrameSetupLaws G} (gdb : Z → Z).

Lemma npending_bound st : sig_wf st → (npending (ts st) < 33)%nat.
Proof. intros W. unfold npending. pose proof (length_filter is_pending (sigtab (ts st))). rewrite (wf_tab _ W) in *. lia. Qed.

(** No signal is pending that the guest does not block. *)
Definition settled (st : sigstate) : Prop :=
  signal_pending (ts st) = false ∧ ∀ sig e, 1 ≤ sig ≤ 32 → entry_of (sigtab (ts st)) sig = Ret e → pending e ≠ 0 → sigismember (signal_mask (ts st)) sig = true.

Lemma process_round_ok st g : (∀ s, 1 ≤ s ≤ 32 → 0 ≤ gdb s ≤ 32) → sig_wf st →
  (∃ st' g', process_round gdb 33 st g = Ret (st', g') ∧ sig_wf st' ∧ settled st') ∨ process_round gdb 33 st g = Stop Aborted.
Proof using FL.
  intros Hgdb W. unfold process_round. set (st0 := called st _). assert (sig_wf st0) as W0 by (destruct W; by split).
  destruct (scan_ok gdb Hgdb 33 st0 g W0 (npending_bound st0 W0)) as [(st1 & g1 & -> & [W1 W2 W3 W4 W5] & Hd)| ->]; [|by right]. cbn [mbind outcome_bind].
  left. eexists _, _. split_and!; [done|by split|]. split; [done|]. cbn. intros sig e Hs He Hp. specialize (Hd sig Hs). unfold deliverable in Hd. rewrite He in Hd.
  apply Z.eqb_neq in Hp. rewrite Hp in Hd. cbn [negb andb] in Hd. apply negb_false_iff in Hd. rewrite host_index_same in Hd by lia. unfold blocked_set in Hd. by rewrite W5 in Hd.
Qed.

Lemma noswap_ok i : ∃ t, host_to_target_siginfo_noswap i = Ret t.
Proof.
  unfold host_to_target_siginfo_noswap, put_field. destruct (h_code i =? SI_USER); [by eexists|]. destruct (_ =? TARGET_SIGCHLD); [by eexists|]. destruct (_ =? TARGET_SIGIO); by eexists.
Qed.

Lemma host_signal_handler_ok st n i b : sig_wf st → ∃ st', host_signal_handler st n i b = Ret st' ∧ sig_wf st' ∧ (signal_pending (ts st') = true ∨ st' = st).
Proof.
  intros W. unfold host_signal_handler. destruct (_ && _ && b); [exists st; auto|]. destruct (Z.ltb_spec (host_to_target_signal n) 1); [exists st; auto|]. unfold TARGET_NSIG. destruct (Z.ltb_spec 32 (host_to_target_signal n)); [exists st; auto|].
  cbn [orb]. destruct (noswap_ok i) as (t & ->). cbn [mbind outcome_bind]. eexists. split_and!; [done| |by left]. destruct W as [W1 W2 W3 W4 W5]. split; cbn; [by rewrite length_insert|done| |done|done].
  intros k e Hk. destruct (decide (k = Z.to_nat (host_to_target_signal n - 1))) as [->|Hne]; [|rewrite list_lookup_insert_ne in Hk by done; by apply W3].
  rewrite list_lookup_insert_eq in Hk by (rewrite W1; lia). injection Hk as <-. right. cbn. lia.
Qed.

Lemma arrive_ok l st : sig_wf st → ∃ st', arrive st l = Ret st' ∧ sig_wf st' ∧ (signal_pending (ts st') = true ∨ st' = st).
Proof.
  revert st. induction l as [|[n i] l IH]; intros st W; [exists st; auto|]. cbn [arrive]. destruct (host_signal_handler_ok st n i false W) as (st1 & -> & W1 & H1). cbn [mbind outcome_bind].
  destruct (IH st1 W1) as (st2 & -> & W2 & H2). exists st2. split_and!; [done|done|]. destruct H2 as [?| ->]; auto.
Qed.

Lemma no_suspend st : in_sigsuspend (ts st) = false → with_ts st (with_suspend (ts st) false) = st.
Proof. destruct st as [[] ? ?]. cbn. by intros ->. Qed.

Lemma process_ok arrivals st g : (∀ s, 1 ≤ s ≤ 32 → 0 ≤ gdb s ≤ 32) → sig_wf st → signal_pending (ts st) = true ∨ settled st →
  (∃ st' g', process_pending_signals gdb 33 arrivals st g = Ret (st', g') ∧ sig_wf st' ∧ settled st') ∨ process_pending_signals gdb 33 arrivals st g = Stop Aborted.
Proof using FL.
  intros Hgdb. revert st g. induction arrivals as [|l arrivals IH]; intros st g W Hp; cbn [process_pending_signals].
  all: destruct (signal_pending (ts st)) eqn:Ep; [|destruct Hp as [?|Hs]; [done|]; left; exists st, g; by rewrite (no_suspend _ (wf_suspend _ W))].
  all: destruct (process_round_ok st g Hgdb W) as [(st1 & g1 & -> & W1 & S1)| ->]; [|by right]; cbn [mbind outcome_bind].
  - left. exists st1, g1. by rewrite (no_suspend _ (wf_suspend _ W1)).
  - destruct (arrive_ok l st1 W1) as (st2 & -> & W2 & H2). cbn [mbind outcome_bind]. apply IH; [done|]. destruct H2 as [?| ->]; auto.
Qed.


(** A blocked signal that arrived is not delivered when it is unblocked:
    [do_sigprocmask] does not set [signal_pending] (the call of
    [block_signals] is compiled out), so the loop has nothing to do and the
    signal waits for another one. *)
Theorem unblocked_signal_waits fuel st g sig e : sig_wf st → settled st → 1 ≤ sig ≤ 32 → entry_of (sigtab (ts st)) sig = Ret e → pending e ≠ 0 →
  let st' := with_ts st (do_sigprocmask (ts st) SIG_UNBLOCK (Some (sigbit sig))).2 in
  sigismember (signal_mask (ts st)) sig = true ∧ deliverable (ts st') sig = true ∧ process_pending_signals gdb fuel [] st' g = Ret (st', g).
Proof using.
  intros W [Hp Hb] Hs He Hpe st'. split_and!; [by apply (Hb sig e)| |].
  - unfold deliverable. subst st'. cbn. rewrite He. apply Z.eqb_neq in Hpe. rewrite Hpe. cbn [negb andb]. apply negb_true_iff. unfold blocked_set. cbn. rewrite (wf_suspend _ W), host_index_same by lia.
    rewrite sigismember_bit by done. rewrite !sigdelset_bit by (done || lia). rewrite remove_bits by (lia || by apply signals_range).
    rewrite bool_decide_true by (apply elem_of_seqZ; unfold HOST_NSIG; lia). unfold sigbit, HOST_NSIG. rewrite (proj2 (Z.ltb_ge 32 sig)) by lia. rewrite Z.shiftl_1_l, Z.pow2_bits_true by lia. cbn [andb negb]. by rewrite andb_false_r.
  - cbn [process_pending_signals]. assert (signal_pending (ts st') = false) as -> by exact Hp. by rewrite (no_suspend st' (wf_suspend _ W)).
Qed.

Lemma scan_S n st g : scan gdb (S n) st g = '(st, g) ← deliver_sync gdb st g;
  match List.find (deliverable (ts st)) (seqZ 1 TARGET_NSIG) with
  | Some sig => '(st, g) ← handle_pending_signal gdb st g sig (AsyncSlot sig); scan gdb n st g
  | None => Ret (st, g)
  end.
Proof. done. Qed.

(** If the frame of a signal that the guest caused cannot be written, the
    [SIGSEGV] queued in its place is not delivered in the same run of the
    loop: the flag that announces it is cleared at the end of the round. *)
Theorem forced_sigsegv_waits st g sa i : sig_wf st → let sig := pending (sync_signal (ts st)) in
  sig ≠ 0 → signal_pending (ts st) = true → gdb sig = sig → sigismember (signal_mask (ts st)) sig = false → entry_of (sigact_table st) sig = Ret sa →
  _sa_handler sa ≠ TARGET_SIG_DFL → _sa_handler sa ≠ TARGET_SIG_IGN → _sa_handler sa ≠ TARGET_SIG_ERR → info (sync_signal (ts st)) = i →
  (∀ e s, entry_of (sigtab (ts st)) s = Ret e → pending e = 0) →
  (∀ st1 old, ∃ g', setup_rt_frame st1 g sig sa i old = (st2 ← force_sigsegv st1 sig (stack_junk g); Ret (st2, g'))) →
  ∃ st' g', process_pending_signals gdb 33 [] st g = Ret (st', g') ∧ signal_pending (ts st') = false ∧ pending (sync_signal (ts st')) = TARGET_SIGSEGV.
Proof using.
  intros W sig H0 Hp Hgdb Hm Hsa Hd Hig Her Hi Htab Hset. pose proof (wf_sync _ W) as Hy. fold sig in Hy. assert (1 ≤ sig ≤ 32) as Hs by lia.
  cbn [process_pending_signals]. rewrite Hp. unfold process_round. rewrite (scan_S 32). unfold deliver_sync. cbn [ts called sigact_table]. fold sig. rewrite (proj2 (Z.eqb_neq sig 0) H0), Hsa. cbn [mbind outcome_bind].
  rewrite host_index_same, Hm, (proj2 (Z.eqb_neq _ _) Hig) by lia. cbn [orb]. unfold handle_pending_signal. cbn [slot_entry mbind outcome_bind ts called]. rewrite Hgdb, (proj2 (Z.eqb_neq sig 0) H0). cbn [sigact_table with_ts called]. rewrite Hsa. cbn [mbind outcome_bind].
  rewrite (proj2 (Z.eqb_neq _ _) Hd), (proj2 (Z.eqb_neq _ _) Hig), (proj2 (Z.eqb_neq _ _) Her). unfold run_handler. set (old := host_to_target_sigset_internal _). set (st1 := with_ts _ _). rewrite Hi.
  destruct (Hset st1 old) as (g' & ->). assert (sig_wf st1) as W1 by (destruct W as [? ? ? ? ?]; by split).
  destruct (force_sigsegv_ok st1 sig (stack_junk g) W1) as (st2 & -> & [D1 D2 _] & Hp2 & Hy2 & _). cbn [mbind outcome_bind].
  assert (∃ st3, (if Z.land (sa_flags sa) TARGET_SA_RESETHAND =? 0 then Ret (st2, g') else st ← set_handler st2 sig TARGET_SIG_DFL; Ret (st, g')) = Ret (st3, g') ∧ ts st3 = ts st2) as (st3 & -> & H3).
  { destruct (Z.land (sa_flags sa) TARGET_SA_RESETHAND =? 0); [by exists st2|]. destruct (set_handler_ok st2 sig TARGET_SIG_DFL D1 Hs) as (st3 & -> & _ & Ht & _). by exists st3. }
  cbn [mbind outcome_bind]. assert (List.find (deliverable (ts st3)) (seqZ 1 TARGET_NSIG) = None) as ->.
  { destruct (List.find _ _) as [x|] eqn:Ef; [|done]. apply find_some in Ef as [_ Hx]. revert Hx. unfold deliverable. rewrite H3, D2. cbn.
    destruct (entry_of (sigtab (ts st)) x) as [e|] eqn:Ee; [|done]. by rewrite (Htab e x Ee). }
  eexists _, _. split_and!; [done|done|]. cbn. by rewrite H3.
Qed.
End loop.

(** ** Runs *)

(** A guest of which only matters whether its stack can be written. *)
#[export] Instance bool_frames : FrameSetup bool := {
  setup_rt_frame st g sig sa i old := st' ← (if g then Ret st else force_sigsegv st sig []); Ret (st', g);
  stack_junk g := []
}.

#[export] Instance bool_frames_laws : FrameSetupLaws bool.
Proof. split. intros st g sig sa i old. exists (if g then Ret st else force_sigsegv st sig []), g. split; [done|]. destruct g; auto. Qed.

Definition idle : emulated_sigtable := mk_sigentry 0 (mk_siginfo 0 0 0 no_fields).
Definition usr1_handler : list target_sigaction := <[29%nat := mk_sigaction 0x1000 0 0]> (replicate 32 (mk_sigaction TARGET_SIG_DFL 0 0)).

(** [SIGUSR1] has a handler and arrives. *)
Definition wit_sig (mask : Z) : sigstate := mk_sigstate (mk_task idle (replicate 32 idle) mask 0 false false 0 0) usr1_handler [].
Definition wit_kill : host_siginfo := mk_host_siginfo TARGET_SIGUSR1 SI_USER 77 501 0 0.
Definition wit_arrived (mask : Z) : sigstate := match host_signal_handler (wit_sig mask) TARGET_SIGUSR1 wit_kill false with Ret st => st | Stop _ => wit_sig mask end.

(** The tables of these states have 32 entries, those pending in their place. *)
Definition wf_check (st : sigstate) : bool :=
  bool_decide (length (sigtab (ts st)) = 32%nat) && bool_decide (length (sigact_table st) = 32%nat) &&
  forallb (λ '(i, e), bool_decide (pending e = 0 ∨ pending e = Z.of_nat i + 1)) (zip (seq 0 32) (sigtab (ts st))) &&
  (0 <=? pending (sync_signal (ts st))) && (pending (sync_signal (ts st)) <=? 32) && negb (in_sigsuspend (ts st)).

Lemma wf_check_ok st : wf_check st = true → sig_wf st.
Proof.
  unfold wf_check. rewrite !andb_true_iff, !bool_decide_eq_true, !Z.leb_le, negb_true_iff. intros (((((H1 & H2) & H3) & H4) & H5) & H6). split; [done|done| |lia|done].
  intros i e Hi. rewrite forallb_forall in H3. assert (bool_decide (pending e = 0 ∨ pending e = Z.of_nat i + 1) = true) as Hb.
  { apply (H3 (i, e)). apply list_elem_of_In, (list_elem_of_lookup_2 _ i). apply lookup_zip_with_Some. exists i, e. split_and!; [done| |done]. apply lookup_seq. apply lookup_lt_Some in Hi. lia. }
  by apply bool_decide_eq_true in Hb.
Qed.

Lemma do_sigaction_correct_witness : ∃ st', do_sigaction (wit_sig 0) TARGET_SIGUSR1 (Some (mk_sigaction TARGET_SIG_IGN 0 0)) 0 = Ret (0, Some (mk_sigaction 0x1000 0 0), st') ∧ sig_wf st'.
Proof.
  assert (sig_wf (wit_sig 0)) as W by (by apply wf_check_ok). pose proof (do_sigaction_correct (wit_sig 0) TARGET_SIGUSR1 (Some (mk_sigaction TARGET_SIG_IGN 0 0)) 0 W) as Hc.
  rewrite bool_decide_true in Hc by done. destruct Hc as (old & st' & Hold & W' & _ & He & _). injection Hold as <-. exists st'. split; [exact He|exact W'].
Defined.

(** The handler runs with [SIGUSR1] blocked. *)
Definition wit_delivered : sigstate := match process_pending_signals (λ s, s) 33 [] (wit_arrived 0) true with Ret (st, _) => st | Stop _ => wit_sig 0 end.

Lemma wit_delivered_eq : process_pending_signals (λ s, s) 33 [] (wit_arrived 0) true = Ret (wit_delivered, true).
Proof. by vm_compute. Qed.


(** It arrives while it is blocked, and is then unblocked. *)
Definition wit_blocked : sigstate := match process_pending_signals (λ s, s) 33 [] (wit_arrived (sigbit TARGET_SIGUSR1)) true with Ret (st, _) => st | Stop _ => wit_sig 0 end.

Lemma wit_blocked_settled : settled wit_blocked.
Proof.
  assert (process_pending_signals (λ s, s) 33 [] (wit_arrived (sigbit TARGET_SIGUSR1)) true = Ret (wit_blocked, true)) as Heq by (by vm_compute).
  destruct (process_ok (λ s, s) [] (wit_arrived (sigbit TARGET_SIGUSR1)) true) as [(st' & g' & He & _ & Hs)|He]; [lia|by apply wf_check_ok|left; by vm_compute| |].
  - rewrite Heq in He. apply Ret_inj, pair_equal_spec in He as [<- _]. exact Hs.
  - rewrite Heq in He. discriminate.
Qed.

Definition wit_entry : emulated_sigtable := mk_sigentry TARGET_SIGUSR1 (mk_siginfo TARGET_SIGUSR1 0 1 (le_bytes 4 77 ++ le_bytes 4 501 ++ replicate 104 0)).

Lemma unblocked_signal_waits_witness :
  let st' := with_ts wit_blocked (do_sigprocmask (ts wit_blocked) SIG_UNBLOCK (Some (sigbit TARGET_SIGUSR1))).2 in
  deliverable (ts st') TARGET_SIGUSR1 = true ∧ process_pending_signals (λ s, s) 33 [] st' true = Ret (st', true).
Proof.
  assert (sig_wf wit_blocked) as W by (by apply wf_check_ok). assert (entry_of (sigtab (ts wit_blocked)) TARGET_SIGUSR1 = Ret wit_entry) as He by (by vm_compute).
  assert (1 ≤ TARGET_SIGUSR1 ≤ 32) as Hs by (unfold TARGET_SIGUSR1; lia). assert (pending wit_entry ≠ 0) as Hp by discriminate.
  exact (proj2 (unblocked_signal_waits (λ s, s) 33 wit_blocked true TARGET_SIGUSR1 wit_entry W wit_blocked_settled Hs He Hp)).
Defined.

(** An illegal instruction whose handler has no stack to run on. *)
Definition wit_sigill : sigstate :=
  mk_sigstate (queue_signal (mk_task idle (replicate 32 idle) 0 0 false false 0 0) TARGET_SIGILL QEMU_SI_FAULT (mk_siginfo TARGET_SIGILL 0 2 no_fields))
    (<[3%nat := mk_sigaction 0x1000 0 0]> (replicate 32 (mk_sigaction TARGET_SIG_DFL 0 0))) [].

Lemma forced_sigsegv_waits_witness : ∃ st' g', process_pending_signals (λ s, s) 33 [] wit_sigill false = Ret (st', g') ∧ signal_pending (ts st') = false ∧ pending (sync_signal (ts st')) = TARGET_SIGSEGV.
Proof.
  apply (forced_sigsegv_waits (λ s, s) wit_sigill false (mk_sigaction 0x1000 0 0) (info (sync_signal (ts wit_sigill)))); try done; [by apply wf_check_ok| |].
  - intros e s. cbn [ts wit_sigill queue_signal with_pending with_sync sigtab]. unfold entry_of. destruct (s <? 1); [done|]. destruct (replicate 32 idle !! _) as [x|] eqn:Ex; [|done]. intros [= <-]. by apply lookup_replicate in Ex as [-> _].
  - intros st1 old. by exists false.
Defined.
