(* ===== verification/Traps.v ===== *)
(** * Traps of the guest

    When translated code stops with an exception, [cpu_xloop]
    ([bsd-user/main.c]) turns it into what the guest's system would do: a
    fault becomes a signal that the guest caused itself, and before the guest
    goes on its signals are delivered.  System calls do nothing: [do_syscall]
    ([bsd-user/signal.c]) is empty. *)

From S2P Require Import Prelude Bytes DyBridge Handlers SigState Signals SigSpec SigCorrect Fault.

(** ** Exceptions *)

Definition EXCP_UDEF : Z := 1.
Definition EXCP_SWI : Z := 2.
Definition EXCP_BKPT : Z := 7.
Definition EXCP_SEMIHOST : Z := 16.
Definition EXCP_INTERRUPT : Z := 0x10000.
Definition EXCP_DEBUG : Z := 0x10002.
Definition EXCP_YIELD : Z := 0x10004.
Definition EXCP_ATOMIC : Z := 0x10005.
Definition TARGET_ILL_ILLOPN : Z := 2.
Definition TARGET_SEGV_MAPERR : Z := 1.
Definition TARGET_TRAP_BRKPT : Z := 1.
Definition TARGET_ERESTARTSYS : Z := 512.
Definition TARGET_QEMU_ESIGRETURN : Z := 513.

Definition do_syscall (g : guest) : Z := 0.

Section traps.
Context {FS : FrameSetup guest} (gdb : Z → Z).
(** [do_arm_semihosting] and [cpu_exec_step_atomic]. *)
Context (do_arm_semihosting : guest → outcome (Z * guest)) (cpu_exec_step_atomic : guest → outcome guest).

Definition trap_set_x0 (g : guest) (v : Z) : outcome guest := env ← set_xreg (g_env g) 0 v; Ret (mk_guest env (g_pc g) (g_mem g)).

(** A signal with the given code; [fields] is what the variable [info] holds
    in its other fields, of which the address may be set. *)
Definition trap_signal (st : sigstate) (fields : list Z) (sig code : Z) (addr : option Z) : outcome (sigstate * list Z) :=
  fields ← match addr with Some a => put_field fields 0 8 a | None => Ret fields end;
  Ret (with_ts st (queue_signal (ts st) sig QEMU_SI_FAULT (mk_siginfo sig 0 code fields)), fields).

(** The switch, but for [EXCP_XLOOP_FINISH]; [vaddress] is
    [env->exception.vaddress]. *)
Definition xloop_trap (trapnr vaddress : Z) (st : sigstate) (g : guest) (fields : list Z) : outcome (sigstate * guest * list Z) :=
  if trapnr =? EXCP_SWI then
    let ret := do_syscall g in
    if ret =? - TARGET_ERESTARTSYS then Ret (st, mk_guest (g_env g) (u64 (g_pc g - 4)) (g_mem g), fields)
    else if ret =? - TARGET_QEMU_ESIGRETURN then Ret (st, g, fields)
    else g ← trap_set_x0 g ret; Ret (st, g, fields)
  else if trapnr =? EXCP_INTERRUPT then Ret (st, g, fields)
  else if trapnr =? EXCP_UDEF then '(st, fields) ← trap_signal st fields TARGET_SIGILL TARGET_ILL_ILLOPN (Some (g_pc g)); Ret (st, g, fields)
  else if (trapnr =? EXCP_PREFETCH_ABORT) || (trapnr =? EXCP_DATA_ABORT) then
    '(st, fields) ← trap_signal st fields TARGET_SIGSEGV TARGET_SEGV_MAPERR (Some vaddress); Ret (st, g, fields)
  else if (trapnr =? EXCP_DEBUG) || (trapnr =? EXCP_BKPT) then
    '(st, fields) ← trap_signal st fields TARGET_SIGTRAP TARGET_TRAP_BRKPT None; Ret (st, g, fields)
  else if trapnr =? EXCP_SEMIHOST then
    '(v, g) ← do_arm_semihosting g;
    g ← trap_set_x0 g v;
    Ret (st, mk_guest (g_env g) (u64 (g_pc g + 4)) (g_mem g), fields)
  else if trapnr =? EXCP_YIELD then Ret (st, g, fields)
  else if trapnr =? EXCP_ATOMIC then g ← cpu_exec_step_atomic g; Ret (st, g, fields)
  else Stop Aborted.

(** One round of the loop after [cpu_exec]; [arrivals] as for
    [process_pending_signals]. *)
Definition xloop_round (fuel : nat) (arrivals : list (list (Z * host_siginfo))) (trapnr vaddress : Z) (st : sigstate) (g : guest) (fields : list Z) : outcome (sigstate * guest * list Z) :=
  '(st, g, fields) ← xloop_trap trapnr vaddress st g fields;
  '(st, g) ← process_pending_signals gdb fuel arrivals st g;
  Ret (st, g, fields).

(** ** Faults reach the guest's handlers *)

(** Signal, code and address that belong to an exception. *)
Definition fault_signal (trapnr pc vaddress : Z) : option (Z * Z * option Z) :=
  if trapnr =? EXCP_UDEF then Some (TARGET_SIGILL, TARGET_ILL_ILLOPN, Some pc)
  else if (trapnr =? EXCP_PREFETCH_ABORT) || (trapnr =? EXCP_DATA_ABORT) then Some (TARGET_SIGSEGV, TARGET_SEGV_MAPERR, Some vaddress)
  else if (trapnr =? EXCP_DEBUG) || (trapnr =? EXCP_BKPT) then Some (TARGET_SIGTRAP, TARGET_TRAP_BRKPT, None)
  else None.

(** The bytes of the address in front of what was there. *)
Definition fault_fields (fields : list Z) (addr : option Z) : list Z := match addr with Some a => le_bytes 8 a ++ drop 8 fields | None => fields end.

Lemma trap_signal_ok st fields sig code addr : length fields = SIFIELDS_SIZE →
  trap_signal st fields sig code addr = Ret (with_ts st (queue_signal (ts st) sig QEMU_SI_FAULT (mk_siginfo sig 0 code (fault_fields fields addr))), fault_fields fields addr).
Proof.
  unfold SIFIELDS_SIZE. intros Hf. unfold trap_signal, fault_fields. destruct addr as [a|]; [|done]. unfold put_field. rewrite wr_ok by (rewrite ?length_le_bytes, ?Hf; cbn; lia). cbn [mbind outcome_bind].
  rewrite length_le_bytes. done.
Qed.

Lemma fault_trap trapnr va st g fields sig code addr : length fields = SIFIELDS_SIZE → fault_signal trapnr (g_pc g) va = Some (sig, code, addr) →
  xloop_trap trapnr va st g fields = Ret (with_ts st (queue_signal (ts st) sig QEMU_SI_FAULT (mk_siginfo sig 0 code (fault_fields fields addr))), g, fault_fields fields addr) ∧
  1 ≤ sig ≤ 32.
Proof.
  intros Hf Hs. unfold fault_signal in Hs. unfold xloop_trap. destruct (Z.eqb_spec trapnr EXCP_UDEF) as [->|].
  { injection Hs as <- <- <-. cbn [Z.eqb EXCP_UDEF EXCP_SWI EXCP_INTERRUPT Pos.eqb]. rewrite trap_signal_ok by done. done. }
  destruct (_ || _) eqn:Ea.
  { injection Hs as <- <- <-. apply orb_true_iff in Ea as [->%Z.eqb_eq| ->%Z.eqb_eq]; cbn [Z.eqb EXCP_PREFETCH_ABORT EXCP_DATA_ABORT EXCP_SWI EXCP_INTERRUPT Pos.eqb orb]; rewrite trap_signal_ok by done; done. }
  destruct (_ || _) eqn:Eb in Hs; [|done]. injection Hs as <- <- <-.
  apply orb_true_iff in Eb as [->%Z.eqb_eq| ->%Z.eqb_eq]; cbn [Z.eqb EXCP_DEBUG EXCP_BKPT EXCP_SWI EXCP_INTERRUPT Pos.eqb orb]; rewrite trap_signal_ok by done; done.
Qed.
(** More blocked signals make none deliverable. *)
Lemma none_deliverable t m : in_sigsuspend t = false → (∀ sig e, 1 ≤ sig ≤ 32 → entry_of (sigtab t) sig = Ret e → pending e ≠ 0 → sigismember m sig = true) →
  ∀ set, signal_mask t = sigorset m set → List.find (deliverable t) (seqZ 1 TARGET_NSIG) = None.
Proof.
  intros Hsus Hm set Hmask. destruct (List.find _ _) as [x|] eqn:Ef; [|done]. apply find_some in Ef as [Hx Hd]. apply list_elem_of_In, elem_of_seqZ in Hx. unfold TARGET_NSIG in Hx. revert Hd. unfold deliverable.
  destruct (entry_of (sigtab t) x) as [e|] eqn:Ee; [|done]. destruct (Z.eqb_spec (pending e) 0) as [|Hp]; [done|]. cbn [negb andb]. rewrite host_index_same by lia. unfold blocked_set. rewrite Hsus, Hmask.
  specialize (Hm x e ltac:(lia) Ee Hp). rewrite sigismember_bit in Hm |- * by lia. unfold sigorset. by rewrite Z.lor_spec, Hm.
Qed.

End traps.

(** ** A fault *)

(** Frames that only set the program counter. *)
#[local] Instance jump_frames : FrameSetup guest := {
  setup_rt_frame st g sig sa i old := Ret (st, mk_guest (g_env g) (_sa_handler sa) (g_mem g));
  stack_junk g := []
}.

Definition tw_handler : target_sigaction := mk_sigaction 0x1000 0 0.
Definition tw_state : sigstate := mk_sigstate (mk_task idle (replicate 32 idle) 0 0 false false 0 0) (<[10%nat := tw_handler]> (replicate 32 (mk_sigaction TARGET_SIG_DFL 0 0))) [].
Definition tw_guest : guest := mk_guest (mk_env [] []) 0x5000 (λ _, None).

Lemma tw_settled : settled tw_state.
Proof.
  split; [done|]. intros sig e _. unfold entry_of. destruct (sig <? 1); [done|]. cbn [tw_state sigtab ts]. destruct (replicate 32 idle !! _) as [x|] eqn:Ex; [|done]. apply lookup_replicate in Ex as [-> _]. by intros [= <-].
Qed.

