(* ===== verification/Loader.v ===== *)
(** * Loading an image

    dyld tells the emulator about every image it loads.  For an image of the
    guest's architecture [loader_exec] ([bsd-user/iosload.c]) reads the load
    commands: the pages of executable segments become guest code
    ([target_mprotect]), the functions that the host will call (the entry
    point, initialisers, terminators, [+load] methods) get their types as
    callbacks, and the host functions that the image is bound to get their
    names.  [solve_symbol_by_header] looks a symbol up in the symbol table.

    The images are bytes in memory, laid out as the host's [mach-o/loader.h]
    and [mach-o/nlist.h] say; [mach_header_64], [segment_command_64],
    [section_64] and [nlist_64] are the structures of [qemu.h]. *)

From stdpp Require Import gmap.
From S2P Require Import CString Prelude Bytes Memory Pages Callbacks.

(** ** Constants *)

Definition LC_SYMTAB : Z := 0x2.
Definition LC_SEGMENT_COMMAND : Z := 0x19.
Definition LC_ROUTINES_64 : Z := 0x1a.
Definition LC_MAIN : Z := 0x80000028.
Definition SECTION_TYPE : Z := 0xff.
Definition S_LAZY_SYMBOL_POINTERS : Z := 0x7.
Definition S_MOD_INIT_FUNC_POINTERS : Z := 0x9.
Definition S_MOD_TERM_FUNC_POINTERS : Z := 0xa.
Definition S_INIT_FUNC_OFFSETS : Z := 0x16.
Definition CPU_TYPE_ARM64 : Z := Z.lor 12 0x01000000.
Definition MH_MAGICS : list Z := [0xfeedface; 0xcefaedfe; 0xfeedfacf; 0xcffaedfe].
Definition MH_EXECUTE : Z := 2.
Definition MACH_HEADER_SIZE : Z := 32.
Definition SEGMENT_SIZE : Z := 72.
Definition SECTION_SIZE : Z := 80.
Definition NLIST_SIZE : Z := 16.
Definition INVALID_SLIDE : Z := 1.
Definition ISA_MASK : Z := 0x0000000ffffffff8.
Definition FAST_DATA_MASK : Z := 0x00007ffffffffff8.
Definition RO_REALIZED : Z := 2 ^ 31.

(** The types the loader gives. *)
Definition load_types : list ascii := chars "v16@0:8".
Definition init_types : list ascii := chars "v36i0r^*4r^*12r^*20r^{ProgramVars=^v^i^^*^^*^*}28".
Definition term_types : list ascii := chars "v0".
Definition main_types : list ascii := chars "i16i0[*]8".

(** ** Reading memory *)

Definition codes (s : string) : list Z := (λ c, Z.of_N (N_of_ascii c)) <$> chars s.

Definition ld8 (m : memory) (a : Z) : outcome Z := le_val <$> rd_mem m a 1.
Definition ld32 (m : memory) (a : Z) : outcome Z := le_val <$> rd_mem m a 4.
Definition ld64 (m : memory) (a : Z) : outcome Z := le_val <$> rd_mem m a 8.

(** [!strcmp(p, s)] *)
Fixpoint str_eq (m : memory) (p : Z) (s : list Z) : outcome bool :=
  b ← ld8 m p;
  match s with
  | [] => Ret (b =? 0)
  | c :: s => if b =? c then str_eq m (p + 1) s else Ret false
  end.

(** [!memcmp(p, bs, n)] *)
Definition mem_eq (m : memory) (p : Z) (bs : list Z) : outcome bool :=
  l ← rd_mem m p (Z.of_nat (length bs)); Ret (bool_decide (l = bs)).

(** ** Looking for a symbol *)

Definition is_image_foreign (m : memory) (header : Z) : outcome bool :=
  cputype ← ld32 m (header + 4); Ret (cputype =? CPU_TYPE_ARM64).

(** The string of the symbol table is read as [strcmp] does it, against the
    wanted name, which has no NUL. *)
Fixpoint find_symbol (m : memory) (name : list Z) (strtab base slide : Z) (n : nat) : outcome (option Z) :=
  match n with
  | O => Ret None
  | S n =>
      n_strx ← ld32 m base;
      eq ← str_eq m (u64 (strtab + n_strx)) name;
      if (eq : bool) then n_value ← ld64 m (base + 8); Ret (Some (u64 (n_value + slide)))
      else find_symbol m name strtab (u64 (base + NLIST_SIZE)) slide n
  end.

(** The first pass over the load commands: [slide] and [fLinkEditBase]. *)
Fixpoint symbol_pass1 (m : memory) (header : Z) (n : nat) (lc slide link : Z) : outcome (Z * Z) :=
  match n with
  | O => Ret (slide, link)
  | S n =>
      cmdsize ← ld32 m (lc + 4);
      cmd ← ld32 m lc;
      '(slide, link) ←
        (if cmd =? LC_SEGMENT_COMMAND then
           text ← str_eq m (lc + 8) (codes "__TEXT");
           if (text : bool) then vmaddr ← ld64 m (lc + 24); Ret (u64 (header - vmaddr), link)
           else
             linkedit ← str_eq m (lc + 8) (codes "__LINKEDIT");
             if (linkedit : bool) then vmaddr ← ld64 m (lc + 24); fileoff ← ld64 m (lc + 40); Ret (slide, u64 (vmaddr + slide - fileoff))
             else Ret (slide, link)
         else Ret (slide, link));
      symbol_pass1 m header n (u64 (lc + cmdsize)) slide link
  end.

(** The second pass: the symbol tables. *)
Fixpoint symbol_pass2 (m : memory) (name : list Z) (n : nat) (lc slide link : Z) : outcome Z :=
  match n with
  | O => Ret 0
  | S n =>
      cmdsize ← ld32 m (lc + 4);
      cmd ← ld32 m lc;
      if cmd =? LC_SYMTAB then
        if link =? 0 then Ret 0
        else
          stroff ← ld32 m (lc + 16);
          symoff ← ld32 m (lc + 8);
          nsyms ← ld32 m (lc + 12);
          r ← find_symbol m name (u64 (link + stroff)) (u64 (link + symoff)) slide (Z.to_nat nsyms);
          match r with Some v => Ret v | None => symbol_pass2 m name n (u64 (lc + cmdsize)) slide link end
      else symbol_pass2 m name n (u64 (lc + cmdsize)) slide link
  end.

Definition solve_symbol_by_header (m : memory) (header : Z) (name : list Z) : outcome Z :=
  magic ← ld32 m header;
  if negb (bool_decide (magic ∈ MH_MAGICS)) then Ret 0
  else
    ncmds ← ld32 m (header + 16);
    '(slide, link) ← symbol_pass1 m header (Z.to_nat ncmds) (header + MACH_HEADER_SIZE) 0 0;
    symbol_pass2 m name (Z.to_nat ncmds) (header + MACH_HEADER_SIZE) slide link.

(** ** Where an image is *)

(** The bases and sizes of the text and of the link edit segment; a segment
    that is not there leaves the first two as they were. *)
Fixpoint address_map (m : memory) (header : Z) (n : nat) (lc slide base size lbase lsize : Z) : outcome (Z * Z * Z * Z) :=
  match n with
  | O => Ret (base, size, lbase, lsize)
  | S n =>
      cmd ← ld32 m lc;
      '(slide, base, size, lbase, lsize) ←
        (if cmd =? LC_SEGMENT_COMMAND then
           text ← str_eq m (lc + 8) (codes "__TEXT");
           if (text : bool) then vmaddr ← ld64 m (lc + 24); vmsize ← ld64 m (lc + 32); Ret (u64 (header - vmaddr), header, vmsize, lbase, lsize)
           else
             linkedit ← str_eq m (lc + 8) (codes "__LINKEDIT");
             if (linkedit : bool) then vmaddr ← ld64 m (lc + 24); vmsize ← ld64 m (lc + 32); Ret (slide, base, size, u64 (vmaddr + slide), vmsize)
             else Ret (slide, base, size, lbase, lsize)
         else Ret (slide, base, size, lbase, lsize));
      cmdsize ← ld32 m (lc + 4);
      address_map m header n (u64 (lc + cmdsize)) slide base size lbase lsize
  end.

(** dyld itself, and what [dladdr] and [vm_region_recurse_64] say. *)
Section where_.
Context (dyld_base dyld_size : Z) (dladdr : Z → option Z) (vm_region : Z → option (Z * Z)).

Definition get_mach_header (address : Z) : option Z :=
  if (dyld_base <=? address) && (address <? u64 (dyld_base + dyld_size)) then Some dyld_base else dladdr address.

Definition get_address_map (m : memory) (address base size : Z) : outcome (bool * (Z * Z * Z * Z)) :=
  match get_mach_header address with
  | Some header =>
      ncmds ← ld32 m (header + 16);
      filetype ← ld32 m (header + 12);
      if negb (Z.land filetype 0xFF =? MH_EXECUTE) then Ret (false, (base, size, 0, 0))
      else r ← address_map m header (Z.to_nat ncmds) (header + MACH_HEADER_SIZE) 0 base size 0 0; Ret (true, r)
  | None =>
      match vm_region address with
      | None => Ret (false, (base, size, 0, 0))
      | Some (vaddr, size) => Ret (true, (vaddr, size, 0, 0))
      end
  end.
End where_.

(** The name that belongs to exactly this address. *)
Definition solve_symbol_name (findMappedRange : Z → Z) (findClosestSymbol : Z → Z → list ascii * Z) (addr : Z) : option (list ascii) :=
  let imageLoader := findMappedRange addr in
  if imageLoader =? 0 then None
  else let '(symbol_name, saddr) := findClosestSymbol imageLoader addr in if saddr =? addr then Some symbol_name else None.

(** ** Functions that the host will call *)

(** The first method with the selector [load] of a list of methods. *)
Fixpoint mark_load (m : memory) (method : Z) (n : nat) (cbs : callback_types) : outcome callback_types :=
  match n with
  | O => Ret cbs
  | S n =>
      sel ← ld64 m method;
      eq ← mem_eq m sel (codes "load" ++ [0]);
      if (eq : bool) then ptr ← ld64 m (method + 16); Ret (tcg_register_callback_as_type cbs ptr load_types)
      else mark_load m (method + 24) n cbs
  end.

Definition mark_list (m : memory) (method_list : Z) (cbs : callback_types) : outcome callback_types :=
  count ← ld32 m (method_list + 4);
  mark_load m (method_list + 8) (Z.to_nat count) cbs.

(** The methods of the class of a class object, before and after the run time
    has realized it. *)
Definition class_methods (m : memory) (cls : Z) : outcome Z :=
  isa ← ld64 m cls;
  data ← ld64 m (Z.land isa ISA_MASK + 32);
  let data := Z.land data FAST_DATA_MASK in
  flags ← ld32 m data;
  ro_data ←
    (if negb (Z.land flags RO_REALIZED =? 0) then
       ro ← ld64 m (data + 8);
       if Z.land ro 1 =? 1 then ld64 m (Z.ldiff ro 1) else Ret ro
     else Ret data);
  ld64 m (u64 (ro_data + 32)).

(** [count] pointers at [entry], each handled with [f]. *)
Fixpoint each_word (m : memory) (entry : Z) (count : nat) (f : Z → callback_types → outcome callback_types) (cbs : callback_types) : outcome callback_types :=
  match count with
  | O => Ret cbs
  | S count => p ← ld64 m entry; cbs ← f p cbs; each_word m (entry + 8) count f cbs
  end.

Definition mark_objc_section (m : memory) (slide sect : Z) (cbs : callback_types) : outcome callback_types :=
  cls ← mem_eq m sect (codes "__objc_nlclslist");
  if (cls : bool) then
    addr ← ld64 m (sect + 32);
    size ← ld64 m (sect + 40);
    each_word m (u64 (addr + slide)) (Z.to_nat (size / 8)) (λ c cbs, l ← class_methods m c; mark_list m l cbs) cbs
  else
    cat ← mem_eq m sect (codes "__objc_nlcatlist");
    if (cat : bool) then
      addr ← ld64 m (sect + 32);
      size ← ld64 m (sect + 40);
      each_word m (u64 (addr + slide)) (Z.to_nat (size / 8)) (λ c cbs, l ← ld64 m (c + 24); mark_list m l cbs) cbs
    else Ret cbs.

(** The sections behind a segment command. *)
Fixpoint each_section {A} (f : Z → A → outcome A) (sect : Z) (n : nat) (x : A) : outcome A :=
  match n with
  | O => Ret x
  | S n => x ← f sect x; each_section f (sect + SECTION_SIZE) n x
  end.

Definition mark_objc_loads (m : memory) (scp slide : Z) (cbs : callback_types) : outcome callback_types :=
  nsects ← ld32 m (scp + 64);
  each_section (mark_objc_section m slide) (scp + SEGMENT_SIZE) (Z.to_nat nsects) cbs.

(** [count] offsets of 32 bits from the header. *)
Fixpoint each_offset (m : memory) (header entry : Z) (count : nat) (cbs : callback_types) : outcome callback_types :=
  match count with
  | O => Ret cbs
  | S count => o ← ld32 m entry; each_offset m header (entry + 4) count (tcg_register_callback_as_type cbs (u64 (header + o)) init_types)
  end.

Definition register_as (types : list ascii) (pc : Z) (cbs : callback_types) : outcome callback_types := Ret (tcg_register_callback_as_type cbs pc types).

Definition mark_section_calls (m : memory) (header slide sect : Z) (cbs : callback_types) : outcome callback_types :=
  flags ← ld32 m (sect + 64);
  let type := Z.land flags SECTION_TYPE in
  if (type =? S_MOD_INIT_FUNC_POINTERS) || (type =? S_INIT_FUNC_OFFSETS) || (type =? S_MOD_TERM_FUNC_POINTERS) then
    addr ← ld64 m (sect + 32);
    size ← ld64 m (sect + 40);
    let entry := u64 (addr + slide) in
    let count := Z.to_nat (size / 8) in
    if type =? S_MOD_INIT_FUNC_POINTERS then each_word m entry count (register_as init_types) cbs
    else if type =? S_INIT_FUNC_OFFSETS then each_offset m header entry count cbs
    else each_word m entry count (register_as term_types) cbs
  else Ret cbs.

Definition mark_all_section_calls (m : memory) (header scp slide : Z) (cbs : callback_types) : outcome callback_types :=
  _ ← c_assert (negb (slide =? INVALID_SLIDE));
  nsects ← ld32 m (scp + 64);
  each_section (mark_section_calls m header slide) (scp + SEGMENT_SIZE) (Z.to_nat nsects) cbs.

(** ** Lazy pointers *)

(** The first lazy pointer of the first such section. *)
Fixpoint lazy_bound (m : memory) (start end_ slide sect : Z) (n : nat) : outcome bool :=
  match n with
  | O => Ret false
  | S n =>
      flags ← ld32 m (sect + 64);
      if Z.land flags SECTION_TYPE =? S_LAZY_SYMBOL_POINTERS then
        addr ← ld64 m (sect + 32);
        element ← ld64 m (u64 (addr + slide));
        Ret (negb ((start <=? element) && (element <? end_)))
      else lazy_bound m start end_ slide (sect + SECTION_SIZE) n
  end.

Definition get_if_lazy_pointers_need_scanning (m : memory) (start end_ scp slide : Z) : outcome bool :=
  _ ← c_assert (negb (slide =? INVALID_SLIDE));
  nsects ← ld32 m (scp + 64);
  lazy_bound m start end_ slide (scp + SEGMENT_SIZE) (Z.to_nat nsects).

(** ** The loader *)

(** What the loader changes: the pages, the types of callbacks, and the names
    of host functions ([addr_to_symbolname]). *)
Record loaded (H : Type) := mk_loaded { l_vm : vm H; l_cbs : callback_types; l_names : gmap Z (list ascii) }.
Arguments mk_loaded {H}. Arguments l_vm {H}. Arguments l_cbs {H}. Arguments l_names {H}.

(** The variables of the loop over the commands. *)
Record cursor := mk_cursor { c_slide : Z; text_start : Z; text_end : Z; forceLazy : bool }.

Section loader.
Context {H : Type} {HV : HostVM H} (hps : Z) (m : memory).
Implicit Type st : loaded H.

Definition with_cbs st (cbs : callback_types) : loaded H := mk_loaded (l_vm st) cbs (l_names st).

(** The result of [target_mprotect] is not used. *)
Definition set_segment_exec_protection st (scp slide : Z) : outcome (loaded H) :=
  flags ← ld32 m (scp + 60);
  if negb (Z.land flags PROT_EXEC =? 0) then
    vmaddr ← ld64 m (scp + 24);
    vmsize ← ld64 m (scp + 32);
    '(_, v) ← target_mprotect hps (l_vm st) (u64 (vmaddr + slide)) vmsize (Z.lor flags PROT_EXEC);
    Ret (mk_loaded v (l_cbs st) (l_names st))
  else Ret st.

(** [__TEXT] gives the slide, the data segments have the lists of classes. *)
Definition segment_by_name st (header scp : Z) (c : cursor) : outcome (loaded H * cursor) :=
  text ← mem_eq m (scp + 8) (codes "__TEXT" ++ [0]);
  if (text : bool) then
    vmaddr ← ld64 m (scp + 24);
    vmsize ← ld64 m (scp + 32);
    Ret (st, mk_cursor (u64 (header - vmaddr)) header (u64 (header + vmsize)) (forceLazy c))
  else
    data ← (data ← mem_eq m (scp + 8) (codes "__DATA" ++ [0]);
            const ← (if (data : bool) then Ret true else mem_eq m (scp + 8) (codes "__DATA_CONST" ++ [0]));
            if (const : bool) then Ret true else mem_eq m (scp + 8) (codes "__DATA_DIRTY" ++ [0]));
    if (data : bool) then
      _ ← c_assert (negb (c_slide c =? INVALID_SLIDE));
      cbs ← mark_objc_loads m scp (c_slide c) (l_cbs st);
      Ret (with_cbs st cbs, c)
    else Ret (st, c).

Definition load_segment st (header scp : Z) (c : cursor) : outcome (loaded H * cursor) :=
  '(st, c) ← segment_by_name st header scp c;
  if c_slide c =? INVALID_SLIDE then Ret (st, c)
  else
    st ← set_segment_exec_protection st scp (c_slide c);
    cbs ← mark_all_section_calls m header scp (c_slide c) (l_cbs st);
    lazy ← (if forceLazy c then Ret true else get_if_lazy_pointers_need_scanning m (text_start c) (text_end c) scp (c_slide c));
    Ret (with_cbs st cbs, mk_cursor (c_slide c) (text_start c) (text_end c) lazy).

Definition load_command st (header lcp : Z) (c : cursor) : outcome (loaded H * cursor) :=
  cmd ← ld32 m lcp;
  if cmd =? LC_SEGMENT_COMMAND then load_segment st header lcp c
  else if cmd =? LC_MAIN then
    _ ← c_assert (negb (c_slide c =? INVALID_SLIDE));
    entryoff ← ld64 m (lcp + 8);
    Ret (with_cbs st (tcg_register_callback_as_type (l_cbs st) (u64 (entryoff + header)) main_types), c)
  else if cmd =? LC_ROUTINES_64 then
    _ ← c_assert (negb (c_slide c =? INVALID_SLIDE));
    init_address ← ld64 m (lcp + 8);
    Ret (with_cbs st (tcg_register_callback_as_type (l_cbs st) (u64 (init_address + c_slide c)) init_types), c)
  else Ret (st, c).

Fixpoint load_commands (n : nat) st (header offset : Z) (c : cursor) : outcome (loaded H * cursor) :=
  match n with
  | O => Ret (st, c)
  | S n =>
      let lcp := u64 (header + offset) in
      cmdsize ← ld32 m (lcp + 4);
      '(st, c) ← load_command st header lcp c;
      load_commands n st header (u64 (offset + cmdsize)) c
  end.

(** What dyld calls for a binding: the address of a pointer and the name it
    is bound to. *)
Fixpoint bind_symbols (binds : list (Z * list ascii)) st : outcome (loaded H) :=
  match binds with
  | [] => Ret st
  | (addr, name) :: binds =>
      target ← ld64 m addr;
      bind_symbols binds (if need_emulation_nolock (l_vm st) target then st else mk_loaded (l_vm st) (l_cbs st) (<[target := name]> (l_names st)))
  end.

(** The bindings and the lazy bindings of an image, in dyld's order. *)
Context (eachBind eachLazyBind : Z → list (Z * list ascii)).

Definition mark_all_bind_symbols st (header : Z) (forceLazy : bool) : outcome (loaded H) :=
  let st := mk_loaded (mmap_lock (l_vm st)) (l_cbs st) (l_names st) in
  st ← bind_symbols (eachBind header) st;
  st ← (if forceLazy then bind_symbols (eachLazyBind header) st else Ret st);
  Ret (mk_loaded (mmap_unlock (l_vm st)) (l_cbs st) (l_names st)).

Definition loader_exec st (header : Z) : outcome (loaded H) :=
  ncmds ← ld32 m (header + 16);
  '(st, c) ← load_commands (Z.to_nat ncmds) st header MACH_HEADER_SIZE (mk_cursor INVALID_SLIDE 0 0 false);
  mark_all_bind_symbols st header (forceLazy c).

(** [image_preload] but for the changes it makes to single known programs. *)
Definition image_preload st (header : Z) : outcome (loaded H) :=
  foreign ← is_image_foreign m header;
  if (foreign : bool) then loader_exec st header else Ret st.
End loader.
