(* ===== verification/LoaderSpec.v ===== *)
(** * What loading an image does

    An image is described as a list of load commands, and its bytes are given
    by an encoder.  On the bytes of any image the loader of [Loader] finds the
    commands back and does for each what it asks for: afterwards exactly the
    executable segments are guest code, besides what was before, and the
    callbacks are those that the image lists.  The lookup of a symbol finds
    the first symbol with the name. *)

From stdpp Require Import gmap.
From S2P Require Import CString Prelude Bytes Memory Pages PagesSpec PagesInv Callbacks Loader.

(** ** Images *)

Record sect := mk_sect {
  sectname : list Z; sect_segname : list Z; s_addr : Z; s_size : Z; sect_mid : list Z; s_flags : Z; sect_rest : list Z
}.
Record seg := mk_seg {
  segname : list Z; vmaddr : Z; vmsize : Z; fileoff : Z; seg_mid : list Z; initprot : Z; seg_flags : list Z; sects : list sect
}.
Inductive lcmd :=
  | LSegment (s : seg)
  | LSymtab (symoff nsyms stroff strsize : Z)
  | LMain (entryoff : Z) (rest : list Z)
  | LRoutines (init_address : Z) (rest : list Z)
  | LOther (cmd : Z) (rest : list Z).
Record image := mk_image { magic : Z; cputype : Z; cpusubtype : Z; filetype : Z; head_rest : list Z; cmds : list lcmd }.

Definition enc_sect (s : sect) : list Z :=
  sectname s ++ sect_segname s ++ le_bytes 8 (s_addr s) ++ le_bytes 8 (s_size s) ++ sect_mid s ++ le_bytes 4 (s_flags s) ++ sect_rest s.
Definition enc_cmd (c : lcmd) : list Z :=
  match c with
  | LSegment s => le_bytes 4 LC_SEGMENT_COMMAND ++ le_bytes 4 (SEGMENT_SIZE + SECTION_SIZE * Z.of_nat (length (sects s))) ++ segname s ++ le_bytes 8 (vmaddr s) ++
      le_bytes 8 (vmsize s) ++ le_bytes 8 (fileoff s) ++ seg_mid s ++ le_bytes 4 (initprot s) ++ le_bytes 4 (Z.of_nat (length (sects s))) ++ seg_flags s ++ concat (enc_sect <$> sects s)
  | LSymtab symoff nsyms stroff strsize => le_bytes 4 LC_SYMTAB ++ le_bytes 4 24 ++ le_bytes 4 symoff ++ le_bytes 4 nsyms ++ le_bytes 4 stroff ++ le_bytes 4 strsize
  | LMain entryoff rest => le_bytes 4 LC_MAIN ++ le_bytes 4 (16 + Z.of_nat (length rest)) ++ le_bytes 8 entryoff ++ rest
  | LRoutines init rest => le_bytes 4 LC_ROUTINES_64 ++ le_bytes 4 (16 + Z.of_nat (length rest)) ++ le_bytes 8 init ++ rest
  | LOther cmd rest => le_bytes 4 cmd ++ le_bytes 4 (8 + Z.of_nat (length rest)) ++ rest
  end.
Definition enc_image (i : image) : list Z :=
  le_bytes 4 (magic i) ++ le_bytes 4 (cputype i) ++ le_bytes 4 (cpusubtype i) ++ le_bytes 4 (filetype i) ++ le_bytes 4 (Z.of_nat (length (cmds i))) ++ head_rest i ++ concat (enc_cmd <$> cmds i).

(** The fields have their sizes. *)
Definition sect_ok (s : sect) : Prop := length (sectname s) = 16%nat ∧ length (sect_segname s) = 16%nat ∧ in_u 64 (s_addr s) ∧ in_u 64 (s_size s) ∧
  length (sect_mid s) = 16%nat ∧ in_u 32 (s_flags s) ∧ length (sect_rest s) = 12%nat.
Definition seg_ok (s : seg) : Prop := length (segname s) = 16%nat ∧ in_u 64 (vmaddr s) ∧ in_u 64 (vmsize s) ∧ in_u 64 (fileoff s) ∧ length (seg_mid s) = 12%nat ∧
  in_u 32 (initprot s) ∧ length (seg_flags s) = 4%nat ∧ Forall sect_ok (sects s).
Definition cmd_ok (c : lcmd) : Prop :=
  match c with
  | LSegment s => seg_ok s
  | LSymtab symoff nsyms stroff strsize => in_u 32 symoff ∧ in_u 32 nsyms ∧ in_u 32 stroff
  | LMain n _ | LRoutines n _ => in_u 64 n
  | LOther cmd _ => in_u 32 cmd ∧ cmd ∉ [LC_SEGMENT_COMMAND; LC_SYMTAB; LC_MAIN; LC_ROUTINES_64]
  end.
Definition image_ok (header : Z) (i : image) : Prop := 0 ≤ header ∧ in_u 32 (magic i) ∧ in_u 32 (cputype i) ∧ in_u 32 (filetype i) ∧ length (head_rest i) = 12%nat ∧
  Forall cmd_ok (cmds i) ∧ header + Z.of_nat (length (enc_image i)) < 2 ^ 64 ∧ Z.of_nat (length (enc_image i)) < 2 ^ 32.

(** Memory has the bytes [bs] at [a]. *)
Definition holds (m : memory) (a : Z) (bs : list Z) : Prop := rd_mem m a (Z.of_nat (length bs)) = Ret bs.

Lemma holds_app m a bs cs : holds m a (bs ++ cs) → holds m a bs ∧ holds m (a + Z.of_nat (length bs)) cs.
Proof.
  unfold holds. rewrite !rd_mem_spec by lia. rewrite length_app. intros [_ Hb]. split; (split; [done|]); intros i Hi.
  - rewrite Hb by lia. by rewrite lookup_app_l by lia.
  - rewrite <- Z.add_assoc, <- Nat2Z.inj_add, Hb by lia. rewrite lookup_app_r by lia. f_equal. lia.
Qed.

Lemma holds_ld32 m a v : in_u 32 v → holds m a (le_bytes 4 v) → ld32 m a = Ret v.
Proof.
  unfold holds, ld32. rewrite length_le_bytes. change (Z.of_nat 4) with 4. intros Hv ->. cbn [fmap outcome_fmap]. f_equal. rewrite le_val_bytes. by apply (wrap_small 32).
Qed.

Lemma holds_ld64 m a v : in_u 64 v → holds m a (le_bytes 8 v) → ld64 m a = Ret v.
Proof.
  unfold holds, ld64. rewrite length_le_bytes. change (Z.of_nat 8) with 8. intros Hv ->. cbn [fmap outcome_fmap]. f_equal. rewrite le_val_bytes. by apply (wrap_small 64).
Qed.

Lemma holds_at m a b bs : holds m a bs → a = b → holds m b bs.
Proof. by intros ? ->. Qed.

(** The pieces of a concatenation, with their addresses. *)
Ltac split_holds Hh :=
  repeat match type of Hh with
  | holds _ _ (_ ++ _) => let H1 := fresh "Hp" in apply holds_app in Hh as [H1 Hh]; rewrite ?length_le_bytes in Hh
  end.

(** What a segment command and a section read as. *)
Record seg_reads (m : memory) (a : Z) (s : seg) : Prop := mk_seg_reads {
  sr_cmd : ld32 m a = Ret LC_SEGMENT_COMMAND;
  sr_size : ld32 m (a + 4) = Ret (SEGMENT_SIZE + SECTION_SIZE * Z.of_nat (length (sects s)));
  sr_name : holds m (a + 8) (segname s);
  sr_vmaddr : ld64 m (a + 24) = Ret (vmaddr s);
  sr_vmsize : ld64 m (a + 32) = Ret (vmsize s);
  sr_fileoff : ld64 m (a + 40) = Ret (fileoff s);
  sr_initprot : ld32 m (a + 60) = Ret (initprot s);
  sr_nsects : ld32 m (a + 64) = Ret (Z.of_nat (length (sects s)));
  sr_sects : holds m (a + SEGMENT_SIZE) (concat (enc_sect <$> sects s))
}.

Record sect_reads (m : memory) (a : Z) (s : sect) : Prop := mk_sect_reads {
  cr_name : holds m a (sectname s);
  cr_addr : ld64 m (a + 32) = Ret (s_addr s);
  cr_size : ld64 m (a + 40) = Ret (s_size s);
  cr_flags : ld32 m (a + 64) = Ret (s_flags s)
}.

Lemma sect_length s : sect_ok s → Z.of_nat (length (enc_sect s)) = SECTION_SIZE.
Proof. intros (H1 & H2 & _ & _ & H3 & _ & H4). unfold enc_sect. rewrite !length_app, !length_le_bytes, H1, H2, H3, H4. done. Qed.

Lemma sects_length l : Forall sect_ok l → Z.of_nat (length (concat (enc_sect <$> l))) = SECTION_SIZE * Z.of_nat (length l).
Proof. induction 1 as [|s l Hs _ IH]; [done|]. cbn. rewrite length_app, Nat2Z.inj_add, IH, sect_length by done. lia. Qed.

Lemma sect_reads_ok m a s : sect_ok s → holds m a (enc_sect s) → sect_reads m a s.
Proof.
  intros (H1 & H2 & U1 & U2 & H3 & U3 & H4) Hh. unfold enc_sect in Hh. split_holds Hh. rewrite ?H1, ?H2, ?H3 in *.
  split; [done|apply holds_ld64; [done|]|apply holds_ld64; [done|]|apply holds_ld32; [done|]]; eapply holds_at; try eassumption; lia.
Qed.

Lemma seg_reads_ok m a s : seg_ok s → SEGMENT_SIZE + SECTION_SIZE * Z.of_nat (length (sects s)) < 2 ^ 32 → holds m a (enc_cmd (LSegment s)) → seg_reads m a s.
Proof.
  intros (H1 & U1 & U2 & U3 & H2 & U4 & H3 & _) Hn Hh. cbn [enc_cmd] in Hh. split_holds Hh. rewrite ?H1, ?H2, ?H3 in *.
  split; [apply holds_ld32|apply holds_ld32| |apply holds_ld64|apply holds_ld64|apply holds_ld64|apply holds_ld32|apply holds_ld32|]; try done;
    try (unfold in_u, SEGMENT_SIZE, SECTION_SIZE in *; lia); eapply holds_at; try eassumption; unfold SEGMENT_SIZE; lia.
Qed.

Lemma seg_cmd_reads m a s : seg_ok s → Z.of_nat (length (enc_cmd (LSegment s))) < 2 ^ 32 → holds m a (enc_cmd (LSegment s)) → seg_reads m a s.
Proof.
  intros Hs Hl Hh. apply seg_reads_ok; [done| |done]. destruct Hs as (H1 & _ & _ & _ & H2 & _ & H3 & Hss). cbn [enc_cmd] in Hl. rewrite !length_app, !length_le_bytes, H1, H2, H3 in Hl.
  pose proof (sects_length _ Hss). unfold SEGMENT_SIZE, SECTION_SIZE in *. lia.
Qed.

(** ** Names *)

Definition name_is (n bs : list Z) : bool := bool_decide (take (length bs) n = bs).

Lemma holds_take m a n k : holds m a n → (k ≤ length n)%nat → rd_mem m a (Z.of_nat k) = Ret (take k n).
Proof.
  unfold holds. intros Hh Hk. apply rd_mem_spec in Hh as [_ Hb]; [|lia]. apply rd_mem_spec; [lia|]. rewrite length_take. split; [lia|].
  intros i Hi. rewrite Hb by lia. by rewrite lookup_take_lt by lia.
Qed.

Lemma mem_eq_ok m a n bs : holds m a n → (length bs ≤ length n)%nat → mem_eq m a bs = Ret (name_is n bs).
Proof. intros Hh Hl. unfold mem_eq. by rewrite (holds_take _ _ _ _ Hh Hl). Qed.

Lemma holds_cons m a b n : holds m a (b :: n) → ld8 m a = Ret b ∧ holds m (a + 1) n.
Proof.
  intros Hh. apply (holds_app m a [b] n) in Hh as [Hb Hn]. split; [|exact Hn]. unfold holds in Hb. unfold ld8. change (Z.of_nat (length [b])) with 1 in Hb. rewrite Hb.
  cbn. f_equal. lia.
Qed.

Lemma str_eq_ok m a n s : holds m a n → (length s < length n)%nat → str_eq m a s = Ret (name_is n (s ++ [0])).
Proof.
  revert a n. induction s as [|c s IH]; intros a n Hh Hl; (destruct n as [|b n]; [cbn in Hl; lia|]); apply holds_cons in Hh as [Hb Hn]; cbn [str_eq]; rewrite Hb; cbn [mbind outcome_bind].
  - f_equal. unfold name_is. cbn. destruct (Z.eqb_spec b 0) as [->|Hb0]; symmetry; [by apply bool_decide_eq_true|apply bool_decide_eq_false; congruence].
  - unfold name_is. cbn [app length take]. destruct (Z.eqb_spec b c) as [->|Hbc]; [|f_equal; symmetry; apply bool_decide_eq_false; congruence].
    rewrite (IH _ n) by (done || cbn in Hl; lia). f_equal. unfold name_is. apply bool_decide_ext. split; [by intros ->|by intros [= ->]].
Qed.

(** ** Calls that an image lists *)

Fixpoint words (m : memory) (a : Z) (n : nat) : outcome (list Z) :=
  match n with O => Ret [] | S n => w ← ld64 m a; l ← words m (a + 8) n; Ret (w :: l) end.
Fixpoint offsets (m : memory) (a : Z) (n : nat) : outcome (list Z) :=
  match n with O => Ret [] | S n => w ← ld32 m a; l ← offsets m (a + 4) n; Ret (w :: l) end.

(** The pointers of functions of one type. *)
Definition typed (types : list ascii) (l : list Z) : list (Z * list ascii) := (λ p, (p, types)) <$> l.

Fixpoint load_method (m : memory) (method : Z) (n : nat) : outcome (list Z) :=
  match n with
  | O => Ret []
  | S n => sel ← ld64 m method; eq ← mem_eq m sel (codes "load" ++ [0]); if (eq : bool) then p ← ld64 m (method + 16); Ret [p] else load_method m (method + 24) n
  end.
Definition list_load (m : memory) (l : Z) : outcome (list Z) := count ← ld32 m (l + 4); load_method m (l + 8) (Z.to_nat count).

Fixpoint collect {A B} (f : A → outcome (list B)) (l : list A) : outcome (list B) :=
  match l with [] => Ret [] | x :: l => r ← f x; rs ← collect f l; Ret (r ++ rs) end.

(** The [+load] methods of classes and of categories. *)
Definition objc_calls (m : memory) (slide : Z) (s : sect) : outcome (list Z) :=
  if name_is (sectname s) (codes "__objc_nlclslist")
  then ws ← words m (u64 (s_addr s + slide)) (Z.to_nat (s_size s / 8)); collect (λ c, l ← class_methods m c; list_load m l) ws
  else if name_is (sectname s) (codes "__objc_nlcatlist")
  then ws ← words m (u64 (s_addr s + slide)) (Z.to_nat (s_size s / 8)); collect (λ c, l ← ld64 m (c + 24); list_load m l) ws
  else Ret [].

Definition sect_calls (m : memory) (header slide : Z) (s : sect) : outcome (list (Z * list ascii)) :=
  let type := Z.land (s_flags s) SECTION_TYPE in
  let entry := u64 (s_addr s + slide) in
  let count := Z.to_nat (s_size s / 8) in
  if type =? S_MOD_INIT_FUNC_POINTERS then typed init_types <$> words m entry count
  else if type =? S_INIT_FUNC_OFFSETS then (λ l, typed init_types ((λ o, u64 (header + o)) <$> l)) <$> offsets m entry count
  else if type =? S_MOD_TERM_FUNC_POINTERS then typed term_types <$> words m entry count
  else Ret [].

Definition is_text (s : seg) : bool := name_is (segname s) (codes "__TEXT" ++ [0]).
Definition is_data (s : seg) : bool :=
  name_is (segname s) (codes "__DATA" ++ [0]) || name_is (segname s) (codes "__DATA_CONST" ++ [0]) || name_is (segname s) (codes "__DATA_DIRTY" ++ [0]).

(** The slide is known from the text segment on. *)
Definition cmd_slide (header slide : Z) (c : lcmd) : Z :=
  match c with LSegment s => if is_text s then u64 (header - vmaddr s) else slide | _ => slide end.
Definition known (slide : Z) : bool := negb (slide =? INVALID_SLIDE).

Definition cmd_calls (m : memory) (header slide : Z) (c : lcmd) : outcome (list (Z * list ascii)) :=
  match c with
  | LSegment s =>
      objc ← (if negb (is_text s) && is_data s then _ ← c_assert (known slide); collect (objc_calls m slide) (sects s) else Ret []);
      calls ← (if known (cmd_slide header slide c) then collect (sect_calls m header (cmd_slide header slide c)) (sects s) else Ret []);
      Ret (typed load_types objc ++ calls)
  | LMain off _ => _ ← c_assert (known slide); Ret [(u64 (off + header), main_types)]
  | LRoutines init _ => _ ← c_assert (known slide); Ret [(u64 (init + slide), init_types)]
  | _ => Ret []
  end.

Fixpoint cmds_calls (m : memory) (header slide : Z) (l : list lcmd) : outcome (list (Z * list ascii)) :=
  match l with
  | [] => Ret []
  | c :: l => calls ← cmd_calls m header slide c; rest ← cmds_calls m header (cmd_slide header slide c) l; Ret (calls ++ rest)
  end.
Definition image_calls (m : memory) (header : Z) (i : image) : outcome (list (Z * list ascii)) := cmds_calls m header INVALID_SLIDE (cmds i).

Definition register_all (cbs : callback_types) (l : list (Z * list ascii)) : callback_types := foldl (λ cbs p, tcg_register_callback_as_type cbs p.1 p.2) cbs l.

(** ** Executable segments *)

Definition cmd_exec (header slide : Z) (c : lcmd) : list (Z * Z * Z) :=
  match c with
  | LSegment s => if known (cmd_slide header slide c) && negb (Z.land (initprot s) PROT_EXEC =? 0)
                  then [(u64 (vmaddr s + cmd_slide header slide c), vmsize s, Z.lor (initprot s) PROT_EXEC)] else []
  | _ => []
  end.
Fixpoint cmds_exec (header slide : Z) (l : list lcmd) : list (Z * Z * Z) :=
  match l with [] => [] | c :: l => cmd_exec header slide c ++ cmds_exec header (cmd_slide header slide c) l end.
Definition image_exec (header : Z) (i : image) : list (Z * Z * Z) := cmds_exec header INVALID_SLIDE (cmds i).

(** ** The loader registers what is listed *)

Lemma register_all_app cbs l k : register_all cbs (l ++ k) = register_all (register_all cbs l) k.
Proof. apply foldl_app. Qed.

Lemma Ret_bind {A B} (x : outcome A) (f : A → outcome B) b : (y ← x; f y) = Ret b → ∃ y, x = Ret y ∧ f y = Ret b.
Proof. destruct x as [y|]; [|done]. by exists y. Qed.

Lemma Ret_fmap {A B} (x : outcome A) (f : A → B) b : f <$> x = Ret b → ∃ y, x = Ret y ∧ b = f y.
Proof. destruct x as [y|]; [|done]. intros [= <-]. by exists y. Qed.

(** [f] registers what [g] lists. *)
Definition registers (f : callback_types → outcome callback_types) (g : outcome (list (Z * list ascii))) : Prop :=
  ∀ r, g = Ret r → ∀ cbs, f cbs = Ret (register_all cbs r).

Lemma each_word_registers m f g a n : (∀ p, registers (f p) (typed load_types <$> g p)) →
  registers (each_word m a n f) (ws ← words m a n; typed load_types <$> collect g ws).
Proof.
  intros Hf. revert a. induction n as [|n IH]; intros a r Hr cbs; [by injection Hr as <-|]. cbn [words] in Hr.
  apply Ret_bind in Hr as (ws & Hw & Hr). apply Ret_bind in Hw as (w & Hw & Hws). apply Ret_bind in Hws as (l & Hl & [= <-]).
  apply Ret_fmap in Hr as (rs & Hrs & ->). cbn [collect] in Hrs. apply Ret_bind in Hrs as (r1 & H1 & Hrs). apply Ret_bind in Hrs as (r2 & H2 & [= <-]).
  cbn [each_word]. rewrite Hw. cbn [mbind outcome_bind]. rewrite (Hf w (typed load_types r1)) by (by rewrite H1). cbn [mbind outcome_bind].
  rewrite (IH (a + 8) (typed load_types r2)) by (rewrite Hl; cbn [mbind outcome_bind]; by rewrite H2). unfold typed. by rewrite fmap_app, register_all_app.
Qed.

Lemma register_words m types a n : registers (each_word m a n (register_as types)) (typed types <$> words m a n).
Proof.
  revert a. induction n as [|n IH]; intros a r Hr cbs; [by injection Hr as <-|]. apply Ret_fmap in Hr as (ws & Hw & ->). cbn [words] in Hw.
  apply Ret_bind in Hw as (w & Hw & Hws). apply Ret_bind in Hws as (l & Hl & [= <-]). cbn [each_word]. rewrite Hw. cbn [mbind outcome_bind].
  change (register_as types w cbs) with (Ret (tcg_register_callback_as_type cbs w types)). cbn [mbind outcome_bind].
  by rewrite (IH (a + 8) (typed types l)) by (by rewrite Hl).
Qed.

Lemma register_offsets m header a n : registers (each_offset m header a n) ((λ l, typed init_types ((λ o, u64 (header + o)) <$> l)) <$> offsets m a n).
Proof.
  revert a. induction n as [|n IH]; intros a r Hr cbs; [by injection Hr as <-|]. apply Ret_fmap in Hr as (ws & Hw & ->). cbn [offsets] in Hw.
  apply Ret_bind in Hw as (w & Hw & Hws). apply Ret_bind in Hws as (l & Hl & [= <-]). cbn [each_offset]. rewrite Hw. cbn [mbind outcome_bind].
  by rewrite (IH (a + 4) (typed init_types ((λ o, u64 (header + o)) <$> l))) by (by rewrite Hl).
Qed.

Lemma mark_load_registers m a n : registers (mark_load m a n) (typed load_types <$> load_method m a n).
Proof.
  revert a. induction n as [|n IH]; intros a r Hr cbs; [by injection Hr as <-|]. apply Ret_fmap in Hr as (ps & Hp & ->). cbn [load_method] in Hp. cbn [mark_load].
  apply Ret_bind in Hp as (sel & -> & Hp). apply Ret_bind in Hp as ([] & He & Hp); cbn [mbind outcome_bind]; rewrite He; cbn [mbind outcome_bind].
  - by apply Ret_bind in Hp as (p & -> & [= <-]).
  - apply IH. by rewrite Hp.
Qed.

Lemma mark_list_registers m l : registers (mark_list m l) (typed load_types <$> list_load m l).
Proof.
  intros r Hr cbs. apply Ret_fmap in Hr as (ps & Hp & ->). unfold list_load in Hp. unfold mark_list. apply Ret_bind in Hp as (n & -> & Hp). cbn [mbind outcome_bind].
  apply mark_load_registers. by rewrite Hp.
Qed.

(** The methods of what a pointer leads to. *)
Lemma mark_pointer_registers m (p : outcome Z) : registers (λ cbs, l ← p; mark_list m l cbs) (typed load_types <$> (l ← p; list_load m l)).
Proof.
  intros r Hr cbs. apply Ret_fmap in Hr as (ps & Hp & ->). apply Ret_bind in Hp as (l & -> & Hp). cbn [mbind outcome_bind]. apply mark_list_registers. by rewrite Hp.
Qed.

Lemma objc_section_registers m slide a s : sect_ok s → sect_reads m a s → registers (mark_objc_section m slide a) (typed load_types <$> objc_calls m slide s).
Proof.
  intros Hs [Hn Ha Hz _] r Hr cbs. destruct Hs as (H16 & _). unfold mark_objc_section, objc_calls in *. rewrite (mem_eq_ok _ _ _ (codes "__objc_nlclslist") Hn) by (rewrite H16; cbn; lia). cbn [mbind outcome_bind].
  destruct (name_is _ (codes "__objc_nlclslist")).
  { rewrite Ha. cbn [mbind outcome_bind]. rewrite Hz. cbn [mbind outcome_bind]. apply (each_word_registers m _ (λ c, l ← class_methods m c; list_load m l)); [intros p; apply mark_pointer_registers|].
    destruct (words _ _ _); [done|discriminate Hr]. }
  rewrite (mem_eq_ok _ _ _ (codes "__objc_nlcatlist") Hn) by (rewrite H16; cbn; lia). cbn [mbind outcome_bind]. destruct (name_is _ (codes "__objc_nlcatlist")); [|by injection Hr as <-].
  rewrite Ha. cbn [mbind outcome_bind]. rewrite Hz. cbn [mbind outcome_bind]. apply (each_word_registers m _ (λ c, l ← ld64 m (c + 24); list_load m l)); [intros p; apply mark_pointer_registers|].
  destruct (words _ _ _); [done|discriminate Hr].
Qed.

Lemma section_calls_registers m header slide a s : sect_reads m a s → registers (mark_section_calls m header slide a) (sect_calls m header slide s).
Proof.
  intros [_ Ha Hz Hf] r Hr cbs. unfold mark_section_calls, sect_calls in *. rewrite Hf. cbn [mbind outcome_bind]. rewrite Ha, Hz. cbn [mbind outcome_bind].
  destruct (_ =? S_MOD_INIT_FUNC_POINTERS); cbn [orb]; [by apply register_words|]. destruct (_ =? S_INIT_FUNC_OFFSETS); cbn [orb]; [by apply register_offsets|].
  destruct (_ =? S_MOD_TERM_FUNC_POINTERS); cbn [orb]; [by apply register_words|]. by injection Hr as <-.
Qed.

Lemma each_section_registers m f (g : sect → outcome (list (Z * list ascii))) a l : (∀ a s, sect_ok s → sect_reads m a s → registers (f a) (g s)) →
  Forall sect_ok l → holds m a (concat (enc_sect <$> l)) → registers (each_section f a (length l)) (collect g l).
Proof.
  intros Hf Hl. revert a. induction Hl as [|s l Hs Hl IH]; intros a Hh r Hr cbs; [by injection Hr as <-|]. cbn [fmap list_fmap concat] in Hh. apply holds_app in Hh as [Hh1 Hh2].
  rewrite sect_length in Hh2 by done. cbn [collect] in Hr. apply Ret_bind in Hr as (r1 & H1 & Hr). apply Ret_bind in Hr as (r2 & H2 & [= <-]).
  cbn [length each_section]. rewrite (Hf a s Hs (sect_reads_ok _ _ _ Hs Hh1) r1 H1). cbn [mbind outcome_bind]. rewrite (IH _ Hh2 r2 H2). by rewrite register_all_app.
Qed.

Lemma collect_typed {A} (g : A → outcome (list Z)) l types r : collect g l = Ret r → collect (λ x, typed types <$> g x) l = Ret (typed types r).
Proof.
  revert r. induction l as [|x l IH]; intros r Hr; [by injection Hr as <-|]. cbn [collect] in Hr |- *. apply Ret_bind in Hr as (r1 & -> & Hr). apply Ret_bind in Hr as (r2 & H2 & [= <-]).
  cbn [fmap outcome_fmap mbind outcome_bind]. rewrite (IH _ H2). cbn [mbind outcome_bind]. unfold typed. by rewrite fmap_app.
Qed.

(** ** Lazy pointers *)

Fixpoint sects_lazy (m : memory) (start end_ slide : Z) (l : list sect) : outcome bool :=
  match l with
  | [] => Ret false
  | s :: l => if Z.land (s_flags s) SECTION_TYPE =? S_LAZY_SYMBOL_POINTERS
              then e ← ld64 m (u64 (s_addr s + slide)); Ret (negb ((start <=? e) && (e <? end_)))
              else sects_lazy m start end_ slide l
  end.

Definition text_cursor (header : Z) (c : cursor) (s : seg) : cursor :=
  if is_text s then mk_cursor (u64 (header - vmaddr s)) header (u64 (header + vmsize s)) (forceLazy c) else c.
Definition cmd_cursor (m : memory) (header : Z) (c : cursor) (x : lcmd) : outcome cursor :=
  match x with
  | LSegment s =>
      let c := text_cursor header c s in
      if known (c_slide c) then
        lazy ← (if forceLazy c then Ret true else sects_lazy m (text_start c) (text_end c) (c_slide c) (sects s));
        Ret (mk_cursor (c_slide c) (text_start c) (text_end c) lazy)
      else Ret c
  | _ => Ret c
  end.
Fixpoint cmds_cursor (m : memory) (header : Z) (c : cursor) (l : list lcmd) : outcome cursor :=
  match l with [] => Ret c | x :: l => c ← cmd_cursor m header c x; cmds_cursor m header c l end.
(** Whether the lazy pointers have been bound already. *)
Definition image_lazy (m : memory) (header : Z) (i : image) : outcome bool := forceLazy <$> cmds_cursor m header (mk_cursor INVALID_SLIDE 0 0 false) (cmds i).

Lemma lazy_bound_ok m start end_ slide a l : Forall sect_ok l → holds m a (concat (enc_sect <$> l)) → lazy_bound m start end_ slide a (length l) = sects_lazy m start end_ slide l.
Proof.
  intros Hl. revert a. induction Hl as [|s l Hs Hl IH]; intros a Hh; [done|]. cbn [fmap list_fmap concat] in Hh. apply holds_app in Hh as [Hh1 Hh2].
  rewrite sect_length in Hh2 by done. destruct (sect_reads_ok _ _ _ Hs Hh1) as [_ Ha _ Hf]. cbn [length lazy_bound sects_lazy]. rewrite Hf. cbn [mbind outcome_bind].
  rewrite Ha. cbn [mbind outcome_bind]. by rewrite (IH _ Hh2).
Qed.

Section load.
Context {H : Type} {HV : HostVM H} (hps : Z) (m : memory).
Implicit Type st : loaded H.

(** ** One command *)

(** Every protection is granted. *)
Fixpoint protect_all (v : vm H) (l : list (Z * Z * Z)) : outcome (vm H) :=
  match l with
  | [] => Ret v
  | (start, len, prot) :: l => '(r, v) ← target_mprotect hps v start len prot; _ ← c_assert (r =? 0); protect_all v l
  end.

Lemma protect_all_app v l k : protect_all v (l ++ k) = (v ← protect_all v l; protect_all v k).
Proof.
  revert v. induction l as [|[[start len] prot] l IH]; intros v; [done|]. cbn [app protect_all]. destruct (target_mprotect _ _ _ _ _) as [[r v1]|]; [|done]. cbn [mbind outcome_bind].
  destruct (c_assert _); [|done]. cbn [mbind outcome_bind]. apply IH.
Qed.

(** The state after [calls] were registered and the pages changed. *)
Definition after st (v : vm H) (calls : list (Z * list ascii)) : loaded H := mk_loaded v (register_all (l_cbs st) calls) (l_names st).

Lemma data_names_ok a s : seg_ok s → holds m (a + 8) (segname s) →
  (data ← mem_eq m (a + 8) (codes "__DATA" ++ [0]);
   const ← (if (data : bool) then Ret true else mem_eq m (a + 8) (codes "__DATA_CONST" ++ [0]));
   (if (const : bool) then Ret true else mem_eq m (a + 8) (codes "__DATA_DIRTY" ++ [0]))) = Ret (is_data s).
Proof.
  intros (H16 & _) Hn. unfold is_data. rewrite (mem_eq_ok _ _ _ (codes "__DATA" ++ [0]) Hn) by (rewrite H16; cbn; lia). cbn [mbind outcome_bind]. destruct (name_is _ (codes "__DATA" ++ [0])); [done|].
  rewrite (mem_eq_ok _ _ _ (codes "__DATA_CONST" ++ [0]) Hn) by (rewrite H16; cbn; lia). cbn [mbind outcome_bind]. destruct (name_is _ (codes "__DATA_CONST" ++ [0])); [done|].
  rewrite (mem_eq_ok _ _ _ (codes "__DATA_DIRTY" ++ [0]) Hn) by (rewrite H16; cbn; lia). done.
Qed.

Lemma exec_protection_ok st a s slide v' : seg_reads m a s →
  protect_all (l_vm st) (if negb (Z.land (initprot s) PROT_EXEC =? 0) then [(u64 (vmaddr s + slide), vmsize s, Z.lor (initprot s) PROT_EXEC)] else []) = Ret v' →
  set_segment_exec_protection hps m st a slide = Ret (mk_loaded v' (l_cbs st) (l_names st)).
Proof.
  intros Hr Hv. unfold set_segment_exec_protection. rewrite (sr_initprot _ _ _ Hr). cbn [mbind outcome_bind]. destruct (negb _).
  - rewrite (sr_vmaddr _ _ _ Hr), (sr_vmsize _ _ _ Hr). cbn [mbind outcome_bind]. cbn [protect_all] in Hv. destruct (target_mprotect _ _ _ _ _) as [[r v1]|]; [|done].
    cbn [mbind outcome_bind] in Hv |- *. destruct (r =? 0); [|done]. by injection Hv as ->.
  - injection Hv as <-. by destruct st.
Qed.

Lemma segment_by_name_ok st header a c s objc : seg_ok s → seg_reads m a s →
  (if negb (is_text s) && is_data s then _ ← c_assert (known (c_slide c)); collect (objc_calls m (c_slide c)) (sects s) else Ret []) = Ret objc →
  segment_by_name m st header a c = Ret (with_cbs st (register_all (l_cbs st) (typed load_types objc)), text_cursor header c s).
Proof.
  intros Hs Hr Hobjc. pose proof Hs as (H16 & _ & _ & _ & _ & _ & _ & Hss). unfold segment_by_name. pose proof (sr_name _ _ _ Hr) as Hn.
  rewrite (mem_eq_ok _ _ _ (codes "__TEXT" ++ [0]) Hn) by (rewrite H16; cbn; lia). change (name_is _ _) with (is_text s). unfold text_cursor. cbn [mbind outcome_bind]. destruct (is_text s).
  { rewrite (sr_vmaddr _ _ _ Hr), (sr_vmsize _ _ _ Hr). injection Hobjc as <-. by destruct st. }
  rewrite (data_names_ok a s) by done. cbn [mbind outcome_bind negb andb] in Hobjc |- *. destruct (is_data s); [|injection Hobjc as <-; by destruct st].
  unfold known in Hobjc. apply Ret_bind in Hobjc as ([] & -> & Hobjc). cbn [mbind outcome_bind]. unfold mark_objc_loads. rewrite (sr_nsects _ _ _ Hr). cbn [mbind outcome_bind]. rewrite Nat2Z.id.
  rewrite (each_section_registers m _ (λ s, typed load_types <$> objc_calls m (c_slide c) s) _ _ (λ b s', objc_section_registers m (c_slide c) b s') Hss (sr_sects _ _ _ Hr) (typed load_types objc)); [done|].
  by apply collect_typed.
Qed.

Lemma load_segment_ok st header a c s calls c' v' : seg_ok s → seg_reads m a s → cmd_calls m header (c_slide c) (LSegment s) = Ret calls →
  cmd_cursor m header c (LSegment s) = Ret c' → protect_all (l_vm st) (cmd_exec header (c_slide c) (LSegment s)) = Ret v' →
  load_segment hps m st header a c = Ret (after st v' calls, c').
Proof.
  intros Hs Hr Hc Hk Hv. pose proof Hs as (H16 & _ & _ & _ & _ & _ & _ & Hss). cbn [cmd_calls cmd_cursor cmd_exec] in *.
  assert (cmd_slide header (c_slide c) (LSegment s) = c_slide (text_cursor header c s)) as Eslide by (unfold text_cursor; cbn; by destruct (is_text s)). rewrite Eslide in Hc, Hv.
  apply Ret_bind in Hc as (objc & Hobjc & Hc). apply Ret_bind in Hc as (secs & Hsecs & [= <-]).
  unfold load_segment. rewrite (segment_by_name_ok st header a c s objc) by done. cbn [mbind outcome_bind]. set (c1 := text_cursor header c s) in *. unfold known in *.
  destruct (c_slide c1 =? INVALID_SLIDE) eqn:Ek; cbn [negb andb] in *.
  { injection Hsecs as <-. injection Hk as <-. injection Hv as <-. unfold after. by rewrite app_nil_r. }
  rewrite (exec_protection_ok _ _ s _ v') by done. cbn [mbind outcome_bind l_cbs with_cbs]. unfold mark_all_section_calls. rewrite Ek. cbn [negb c_assert mbind outcome_bind].
  rewrite (sr_nsects _ _ _ Hr). cbn [mbind outcome_bind]. rewrite Nat2Z.id.
  rewrite (each_section_registers m _ (sect_calls m header (c_slide c1)) _ _ (λ b s' _, section_calls_registers m header (c_slide c1) b s') Hss (sr_sects _ _ _ Hr) secs Hsecs).
  cbn [mbind outcome_bind]. unfold get_if_lazy_pointers_need_scanning. rewrite Ek. cbn [negb c_assert mbind outcome_bind]. rewrite (sr_nsects _ _ _ Hr). cbn [mbind outcome_bind]. rewrite Nat2Z.id.
  rewrite (lazy_bound_ok _ _ _ _ _ _ Hss (sr_sects _ _ _ Hr)). apply Ret_bind in Hk as (lz & -> & [= <-]). cbn [mbind outcome_bind]. unfold after, with_cbs. cbn. by rewrite register_all_app.
Qed.
Lemma cmd_size_reads a x : cmd_ok x → Z.of_nat (length (enc_cmd x)) < 2 ^ 32 → holds m a (enc_cmd x) → ld32 m (a + 4) = Ret (Z.of_nat (length (enc_cmd x))).
Proof.
  intros Hx Hl Hh. apply holds_ld32; [unfold in_u; lia|]. destruct x as [s|so ns st' sz|e rest|e rest|cmd rest]; cbn [enc_cmd cmd_ok] in *; revert Hh; rewrite !length_app, !length_le_bytes.
  - destruct Hx as (H1 & _ & _ & _ & H2 & _ & H3 & Hss). rewrite H1, H2, H3. pose proof (sects_length _ Hss) as Hsl. intros Hh. split_holds Hh.
    replace (Z.of_nat _) with (SEGMENT_SIZE + SECTION_SIZE * Z.of_nat (length (sects s))) by (unfold SEGMENT_SIZE; lia). done.
  - intros Hh. by split_holds Hh.
  - intros Hh. split_holds Hh. replace (Z.of_nat _) with (16 + Z.of_nat (length rest)) by lia. done.
  - intros Hh. split_holds Hh. replace (Z.of_nat _) with (16 + Z.of_nat (length rest)) by lia. done.
  - intros Hh. split_holds Hh. replace (Z.of_nat _) with (8 + Z.of_nat (length rest)) by lia. done.
Qed.

(** A command of which only the first word and a 64-bit field matter. *)
Lemma plain_cmd_reads a cmd size v rest : in_u 32 cmd → in_u 64 v → holds m a (le_bytes 4 cmd ++ le_bytes 4 size ++ le_bytes 8 v ++ rest) → ld32 m a = Ret cmd ∧ ld64 m (a + 8) = Ret v.
Proof.
  intros Hc Hv Hh. split_holds Hh. split; [by apply holds_ld32|]. apply holds_ld64; [done|]. eapply holds_at; [eassumption|lia].
Qed.

Lemma load_command_ok st header a c x calls c' v' : cmd_ok x → Z.of_nat (length (enc_cmd x)) < 2 ^ 32 → holds m a (enc_cmd x) → cmd_calls m header (c_slide c) x = Ret calls →
  cmd_cursor m header c x = Ret c' → protect_all (l_vm st) (cmd_exec header (c_slide c) x) = Ret v' →
  load_command hps m st header a c = Ret (after st v' calls, c').
Proof.
  intros Hx Hl Hh Hc Hk Hv. unfold load_command. destruct x as [s|so ns st' sz|e rest|e rest|cmd rest].
  - pose proof (seg_cmd_reads _ _ _ Hx Hl Hh) as Hr. rewrite (sr_cmd _ _ _ Hr). by apply load_segment_ok with s.
  - cbn [enc_cmd] in Hh. split_holds Hh. rewrite (holds_ld32 m a LC_SYMTAB) by done. injection Hc as <-. injection Hk as <-. injection Hv as <-. by destruct st.
  - destruct (plain_cmd_reads a LC_MAIN _ e rest ltac:(done) Hx Hh) as [-> ->]. cbn [cmd_calls] in Hc. apply Ret_bind in Hc as ([] & E & [= <-]). unfold known in E.
    injection Hk as <-. injection Hv as <-. cbn [mbind outcome_bind]. cbn -[c_assert]. rewrite E. done.
  - destruct (plain_cmd_reads a LC_ROUTINES_64 _ e rest ltac:(done) Hx Hh) as [-> ->]. cbn [cmd_calls] in Hc. apply Ret_bind in Hc as ([] & E & [= <-]). unfold known in E.
    injection Hk as <-. injection Hv as <-. cbn [mbind outcome_bind]. cbn -[c_assert]. rewrite E. done.
  - cbn [enc_cmd] in Hh. split_holds Hh. destruct Hx as [Hu Hx]. rewrite (holds_ld32 m a cmd) by done. cbn [mbind outcome_bind]. rewrite !not_elem_of_cons in Hx. destruct Hx as (N1 & _ & N2 & N3 & _).
    rewrite (proj2 (Z.eqb_neq cmd LC_SEGMENT_COMMAND)), (proj2 (Z.eqb_neq cmd LC_MAIN)), (proj2 (Z.eqb_neq cmd LC_ROUTINES_64)) by done.
    injection Hc as <-. injection Hk as <-. injection Hv as <-. by destruct st.
Qed.

Lemma cmd_cursor_slide header c x c' : cmd_cursor m header c x = Ret c' → c_slide c' = cmd_slide header (c_slide c) x.
Proof.
  destruct x as [s| | | |]; cbn [cmd_cursor cmd_slide]; try (by intros [= <-]). unfold text_cursor. destruct (is_text s); cbn [c_slide].
  - destruct (known _); [|by intros [= <-]]. intros (lz & _ & [= <-])%Ret_bind. done.
  - destruct (known _); [|by intros [= <-]]. intros (lz & _ & [= <-])%Ret_bind. done.
Qed.

Lemma load_commands_ok l st header off c calls c' v' : Forall cmd_ok l → holds m (header + off) (concat (enc_cmd <$> l)) → 0 ≤ header → 0 ≤ off →
  header + off + Z.of_nat (length (concat (enc_cmd <$> l))) < 2 ^ 64 → Z.of_nat (length (concat (enc_cmd <$> l))) < 2 ^ 32 →
  cmds_calls m header (c_slide c) l = Ret calls → cmds_cursor m header c l = Ret c' → protect_all (l_vm st) (cmds_exec header (c_slide c) l) = Ret v' →
  load_commands hps m (length l) st header off c = Ret (after st v' calls, c').
Proof.
  intros Hl. revert st off c calls. induction Hl as [|x l Hx Hl IH]; intros st off c calls Hh H0 Ho H64 H32 Hc Hk Hv.
  { injection Hc as <-. injection Hk as <-. injection Hv as <-. by destruct st. }
  cbn [fmap list_fmap concat] in *. apply holds_app in Hh as [Hh1 Hh2]. rewrite length_app in H64, H32. cbn [cmds_calls cmds_cursor cmds_exec] in Hc, Hk, Hv.
  apply Ret_bind in Hc as (calls1 & Hc1 & Hc). apply Ret_bind in Hc as (calls2 & Hc2 & [= <-]). apply Ret_bind in Hk as (c1 & Hk1 & Hk2).
  rewrite protect_all_app in Hv. apply Ret_bind in Hv as (v1 & Hv1 & Hv2). rewrite <- (cmd_cursor_slide _ _ _ _ Hk1) in Hc2, Hv2.
  cbn [length load_commands]. rewrite (wrap_small 64 (header + off)) by (unfold in_u; lia). rewrite (cmd_size_reads _ x) by (done || lia). cbn [mbind outcome_bind].
  rewrite (load_command_ok _ _ _ _ x calls1 c1 v1) by (done || lia). cbn [mbind outcome_bind]. rewrite (wrap_small 64 (off + _)) by (unfold in_u; lia).
  rewrite (IH (after st v1 calls1) _ c1 calls2); [|by rewrite Z.add_assoc|lia..|done|done|done]. unfold after. cbn. by rewrite register_all_app.
Qed.
End load.

Section correct.
Context {H : Type} {HV : HostVM H} {HL : HostVMLaws H}.
Implicit Type st : loaded H.

(** ** Which pages are guest code *)

Definition covers (r : Z * Z * Z) (a : Z) : bool := let '(start, len, _) := r in in_pages start (TARGET_PAGE_ALIGN len) (page_index a).

Lemma exec_flag prot : has (new_flags (Z.lor (Z.land (Z.lor prot PROT_EXEC) rwx) PAGE_VALID)) PAGE_EXEC_ORG = true.
Proof.
  unfold rwx. destruct (new_flags_prot _ (land_prot (Z.lor prot PROT_EXEC))) as (_ & _ & _ & _ & -> & _). unfold has. rewrite <- Z.land_assoc. change (Z.land _ PROT_EXEC) with PROT_EXEC.
  assert (Z.land (Z.lor prot PROT_EXEC) PROT_EXEC = PROT_EXEC) as ->; [|done]. apply Z.bits_inj'. intros n _. rewrite Z.land_spec, Z.lor_spec.
  destruct (Z.testbit PROT_EXEC n); by rewrite ?orb_true_r, ?andb_false_r.
Qed.

Lemma protect_all_emulation (v v' : vm H) l : Forall (λ r, in_u 64 r.1.1 ∧ ∃ p, r.2 = Z.lor p PROT_EXEC) l → protect_all HPS v l = Ret v' →
  (∀ a, need_emulation_nolock v' a = existsb (λ r, covers r a) l || need_emulation_nolock v a) ∧ (guarded v → guarded v').
Proof.
  intros Hl. revert v. induction Hl as [|[[start len] prot] l [Hu [p Hp]] Hl IH]; intros v Hv; [by injection Hv as <-|]. cbn in Hu, Hp. subst prot. cbn [protect_all] in Hv.
  destruct (target_mprotect _ _ _ _ _) as [[r v1]|] eqn:Em; [|done]. cbn [mbind outcome_bind] in Hv. destruct (Z.eqb_spec r 0) as [->|]; [|done]. cbn [c_assert mbind outcome_bind] in Hv.
  destruct (IH _ Hv) as [He Hg]. apply target_mprotect_ok in Em; [|done]. cbn [existsb covers]. destruct Em as [[-> Hz]|[_ Hm]].
  - split; [|done]. intros a. rewrite He, Hz. unfold in_pages. rewrite Z.add_0_r. by destruct (Z.leb_spec start (page_index a * TARGET_PAGE_SIZE)), (Z.ltb_spec (page_index a * TARGET_PAGE_SIZE) start); try lia.
  - split; [|intros G; apply Hg; by eapply guarded_remapped; [apply land_prot|..]]. intros a. rewrite He. unfold need_emulation_nolock at 1, page_get_flags. rewrite (rm_flags _ _ _ _ _ Hm).
    destruct (in_pages start _ _); [rewrite exec_flag; cbn; by rewrite orb_true_r|done].
Qed.

Lemma cmds_exec_ok header slide l : Forall (λ r, in_u 64 r.1.1 ∧ ∃ p, r.2 = Z.lor p PROT_EXEC) (cmds_exec header slide l).
Proof.
  revert slide. induction l as [|x l IH]; intros slide; [constructor|]. cbn [cmds_exec]. apply Forall_app. split; [|apply IH]. unfold cmd_exec. destruct x as [s| | | |]; try constructor.
  destruct (_ && _); constructor; [|constructor]. split; [apply wrap_range; lia|by eexists].
Qed.

(** ** Names of host functions *)

Fixpoint bind_targets (m : memory) (binds : list (Z * list ascii)) : outcome (list (Z * list ascii)) :=
  match binds with [] => Ret [] | (a, n) :: binds => t ← ld64 m a; l ← bind_targets m binds; Ret ((t, n) :: l) end.
Definition name_all (v : vm H) (names : gmap Z (list ascii)) (l : list (Z * list ascii)) : gmap Z (list ascii) :=
  foldl (λ names p, if need_emulation_nolock v p.1 then names else <[p.1 := p.2]> names) names l.

Lemma bind_targets_app m l k : bind_targets m (l ++ k) = (r ← bind_targets m l; s ← bind_targets m k; Ret (r ++ s)).
Proof.
  induction l as [|[a n] l IH]; cbn [app bind_targets]; [by destruct (bind_targets m k)|]. destruct (ld64 m a); [|done]. cbn [mbind outcome_bind]. rewrite IH.
  destruct (bind_targets m l); [|done]. cbn [mbind outcome_bind]. by destruct (bind_targets m k).
Qed.

Lemma bind_symbols_ok m l st ts : bind_targets m l = Ret ts → bind_symbols m l st = Ret (mk_loaded (l_vm st) (l_cbs st) (name_all (l_vm st) (l_names st) ts)).
Proof.
  revert st ts. induction l as [|[a n] l IH]; intros st ts Ht; cbn [bind_targets bind_symbols] in *; [injection Ht as <-; by destruct st|].
  apply Ret_bind in Ht as (t & -> & Ht). apply Ret_bind in Ht as (ts' & Ht & [= <-]). cbn [mbind outcome_bind]. rewrite (IH _ _ Ht). unfold name_all. cbn [foldl fst snd]. by destruct (need_emulation_nolock _ t).
Qed.

Lemma mark_all_bind_symbols_ok m eachBind eachLazyBind st header lz ts : bind_targets m (eachBind header ++ if (lz : bool) then eachLazyBind header else []) = Ret ts →
  mark_all_bind_symbols m eachBind eachLazyBind st header lz = Ret (mk_loaded (mmap_unlock (mmap_lock (l_vm st))) (l_cbs st) (name_all (l_vm st) (l_names st) ts)).
Proof.
  intros Ht. unfold mark_all_bind_symbols. rewrite bind_targets_app in Ht. apply Ret_bind in Ht as (ts1 & Ht1 & Ht). apply Ret_bind in Ht as (ts2 & Ht2 & [= <-]).
  rewrite (bind_symbols_ok _ _ _ ts1 Ht1). cbn [mbind outcome_bind]. destruct lz; [rewrite (bind_symbols_ok _ _ _ ts2 Ht2)|injection Ht2 as <-]; cbn [mbind outcome_bind l_vm l_cbs l_names].
  - do 2 f_equal. unfold name_all. rewrite foldl_app. done.
  - by rewrite app_nil_r.
Qed.

Lemma cmds_count l : (length l ≤ length (concat (enc_cmd <$> l)))%nat.
Proof. induction l as [|x l IH]; [done|]. cbn [fmap list_fmap concat]. rewrite length_app. assert (1 ≤ length (enc_cmd x))%nat by (destruct x; cbn; lia). cbn [length]. lia. Qed.

(** ** The loader *)

End correct.

(** ** Symbols *)

(** The slide and the base of the link edit segment, from the segments. *)
Fixpoint image_bases (header slide link : Z) (l : list lcmd) : Z * Z :=
  match l with
  | [] => (slide, link)
  | LSegment s :: l =>
      if is_text s then image_bases header (u64 (header - vmaddr s)) link l
      else if name_is (segname s) (codes "__LINKEDIT" ++ [0]) then image_bases header slide (u64 (vmaddr s + slide - fileoff s)) l
      else image_bases header slide link l
  | _ :: l => image_bases header slide link l
  end.

(** A symbol table, the strings of which are somewhere in the string table. *)
Record nsym := mk_nsym { n_strx : Z; n_mid : list Z; n_value : Z; n_name : list Z }.
Definition enc_nsym (s : nsym) : list Z := le_bytes 4 (n_strx s) ++ n_mid s ++ le_bytes 8 (n_value s).
Definition nsym_ok (m : memory) (strtab : Z) (s : nsym) : Prop := in_u 32 (n_strx s) ∧ length (n_mid s) = 4%nat ∧ in_u 64 (n_value s) ∧ (0 ∉ n_name s) ∧
  holds m (u64 (strtab + n_strx s)) (n_name s ++ [0]).

(** The value of the first symbol with the name. *)
Fixpoint first_symbol (name : list Z) (l : list nsym) : option Z :=
  match l with [] => None | s :: l => if bool_decide (n_name s = name) then Some (n_value s) else first_symbol name l end.

Lemma str_eq_cstr m p n s : holds m p (n ++ [0]) → 0 ∉ n → 0 ∉ s → str_eq m p s = Ret (bool_decide (n = s)).
Proof.
  revert p s. induction n as [|b n IH]; intros p s Hh Hn Hs; cbn [app] in Hh; apply holds_cons in Hh as [Hb Hh]; destruct s as [|c s]; cbn [str_eq]; rewrite Hb; cbn [mbind outcome_bind].
  - done.
  - apply not_elem_of_cons in Hs as [Hc _]. by rewrite (proj2 (Z.eqb_neq 0 c)).
  - apply not_elem_of_cons in Hn as [Hb0 _]. by rewrite (proj2 (Z.eqb_neq b 0)) by congruence.
  - apply not_elem_of_cons in Hn as [_ Hn]. apply not_elem_of_cons in Hs as [_ Hs]. destruct (Z.eqb_spec b c) as [->|Hbc].
    + rewrite (IH _ _ Hh Hn Hs). f_equal. apply bool_decide_ext. split; [by intros ->|by intros [= ->]].
    + f_equal. symmetry. apply bool_decide_eq_false. congruence.
Qed.

Lemma nsym_length s : length (n_mid s) = 4%nat → Z.of_nat (length (enc_nsym s)) = NLIST_SIZE.
Proof. intros Hl. unfold enc_nsym. rewrite !length_app, !length_le_bytes, Hl. done. Qed.

Lemma find_symbol_ok m name strtab base slide l : 0 ∉ name → 0 ≤ base → base + NLIST_SIZE * Z.of_nat (length l) < 2 ^ 64 → Forall (nsym_ok m strtab) l → holds m base (concat (enc_nsym <$> l)) →
  find_symbol m name strtab base slide (length l) = Ret ((λ v, u64 (v + slide)) <$> first_symbol name l).
Proof.
  intros Hname H0 H64 Hl. revert base H0 H64. induction Hl as [|s l (U1 & Hm & U2 & Hn & Hs) Hl IH]; intros base H0 H64 Hh; [done|]. cbn [fmap list_fmap concat] in Hh. apply holds_app in Hh as [Hh1 Hh2].
  rewrite nsym_length in Hh2 by done. unfold enc_nsym in Hh1. split_holds Hh1. rewrite Hm in Hh1. cbn [length find_symbol first_symbol] in *. rewrite (holds_ld32 m base (n_strx s)) by done.
  cbn [mbind outcome_bind]. rewrite (str_eq_cstr _ _ _ _ Hs Hn Hname). cbn [mbind outcome_bind]. case_bool_decide.
  - rewrite (holds_ld64 m (base + 8) (n_value s)); [done|done|]. eapply holds_at; [exact Hh1|lia].
  - rewrite (wrap_small 64 (base + NLIST_SIZE)) by (unfold in_u, NLIST_SIZE in *; lia). apply IH; [unfold NLIST_SIZE; lia|unfold NLIST_SIZE in *; lia|done].
Qed.

Lemma cmd_word_reads m a x : cmd_ok x → holds m a (enc_cmd x) → ld32 m a = Ret match x with LSegment _ => LC_SEGMENT_COMMAND | LSymtab _ _ _ _ => LC_SYMTAB | LMain _ _ => LC_MAIN | LRoutines _ _ => LC_ROUTINES_64 | LOther cmd _ => cmd end.
Proof. intros Hx Hh. destruct x as [s|so ns st' sz|e rest|e rest|cmd rest]; cbn [enc_cmd cmd_ok] in *; split_holds Hh; apply holds_ld32; try done. by destruct Hx. Qed.

(** The fields that a pass over the commands needs. *)
Lemma cmds_head m lc x l : cmd_ok x → 0 ≤ lc → lc + Z.of_nat (length (concat (enc_cmd <$> x :: l))) < 2 ^ 64 → Z.of_nat (length (concat (enc_cmd <$> x :: l))) < 2 ^ 32 →
  holds m lc (concat (enc_cmd <$> x :: l)) → holds m lc (enc_cmd x) ∧ ∃ n, ld32 m (lc + 4) = Ret n ∧ u64 (lc + n) = lc + n ∧ 0 ≤ n ∧
    lc + n + Z.of_nat (length (concat (enc_cmd <$> l))) < 2 ^ 64 ∧ Z.of_nat (length (concat (enc_cmd <$> l))) < 2 ^ 32 ∧ holds m (lc + n) (concat (enc_cmd <$> l)).
Proof.
  intros Hx H0 H64 H32 Hh. cbn [fmap list_fmap concat] in *. rewrite length_app in H64, H32. apply holds_app in Hh as [Hh1 Hh2]. split; [done|]. exists (Z.of_nat (length (enc_cmd x))).
  split_and!; [apply cmd_size_reads; [done|lia|done]|apply wrap_small; unfold in_u; lia|lia|lia|lia|done].
Qed.

Lemma symbol_pass1_ok m header l lc slide link : Forall cmd_ok l → 0 ≤ lc → lc + Z.of_nat (length (concat (enc_cmd <$> l))) < 2 ^ 64 → Z.of_nat (length (concat (enc_cmd <$> l))) < 2 ^ 32 →
  holds m lc (concat (enc_cmd <$> l)) → symbol_pass1 m header (length l) lc slide link = Ret (image_bases header slide link l).
Proof.
  intros Hl. revert lc slide link. induction Hl as [|x l Hx Hl IH]; intros lc slide link H0 H64 H32 Hh; [done|]. destruct (cmds_head m lc x l Hx H0 H64 H32 Hh) as (Hh1 & n & Hn & Hw & Hn0 & H64' & H32' & Hh2).
  cbn [length symbol_pass1]. rewrite Hn. cbn [mbind outcome_bind]. rewrite (cmd_word_reads _ _ _ Hx Hh1). cbn [mbind outcome_bind]. rewrite Hw.
  destruct x as [s|so ns st' sz|e rest|e rest|cmd rest]; cbn [image_bases].
  - rewrite Z.eqb_refl. cbn [fmap list_fmap concat] in H32. rewrite length_app in H32. pose proof (seg_cmd_reads _ _ _ Hx ltac:(lia) Hh1) as Hr.
    destruct Hx as (H16 & _). pose proof (sr_name _ _ _ Hr) as Hname. rewrite (str_eq_ok _ _ _ (codes "__TEXT") Hname) by (rewrite H16; cbn; lia). cbn [mbind outcome_bind]. change (name_is _ (codes "__TEXT" ++ [0])) with (is_text s).
    destruct (is_text s); [rewrite (sr_vmaddr _ _ _ Hr); cbn [mbind outcome_bind]; apply IH; [lia|done..]|].
    rewrite (str_eq_ok _ _ _ (codes "__LINKEDIT") Hname) by (rewrite H16; cbn; lia). cbn [mbind outcome_bind]. destruct (name_is _ _).
    + rewrite (sr_vmaddr _ _ _ Hr), (sr_fileoff _ _ _ Hr). cbn [mbind outcome_bind]. apply IH; [lia|done..].
    + apply IH; [lia|done..].
  - apply IH; [lia|done..].
  - apply IH; [lia|done..].
  - apply IH; [lia|done..].
  - destruct Hx as [_ Hx]. rewrite !not_elem_of_cons in Hx. rewrite (proj2 (Z.eqb_neq cmd LC_SEGMENT_COMMAND)) by apply Hx. apply IH; [lia|done..].
Qed.

Definition is_symtab (x : lcmd) : bool := match x with LSymtab _ _ _ _ => true | _ => false end.

(** Commands without a symbol table are passed over. *)
Lemma symbol_pass2_skip m name l k lc slide link : Forall cmd_ok (l ++ k) → 0 ≤ lc → lc + Z.of_nat (length (concat (enc_cmd <$> l ++ k))) < 2 ^ 64 →
  Z.of_nat (length (concat (enc_cmd <$> l ++ k))) < 2 ^ 32 → holds m lc (concat (enc_cmd <$> l ++ k)) → forallb (λ x, negb (is_symtab x)) l = true →
  ∃ lc', symbol_pass2 m name (length (l ++ k)) lc slide link = symbol_pass2 m name (length k) lc' slide link ∧ 0 ≤ lc' ∧
    lc' + Z.of_nat (length (concat (enc_cmd <$> k))) < 2 ^ 64 ∧ Z.of_nat (length (concat (enc_cmd <$> k))) < 2 ^ 32 ∧ holds m lc' (concat (enc_cmd <$> k)).
Proof.
  intros Hl. revert lc. induction l as [|x l IH]; intros lc H0 H64 H32 Hh Hsym; [by exists lc|]. apply Forall_cons in Hl as [Hx Hl]. specialize (IH Hl).
  destruct (cmds_head m lc x (l ++ k) Hx H0 H64 H32 Hh) as (Hh1 & n & Hn & Hw & Hn0 & H64' & H32' & Hh2). cbn [forallb] in Hsym. apply andb_true_iff in Hsym as [Hnx Hsym].
  destruct (IH (lc + n) ltac:(lia) H64' H32' Hh2 Hsym) as (lc' & E & Hlc'). exists lc'. split; [|done]. cbn [app length symbol_pass2]. rewrite Hn. cbn [mbind outcome_bind].
  rewrite (cmd_word_reads _ _ _ Hx Hh1). cbn [mbind outcome_bind]. rewrite Hw, <- E. destruct x as [s|so ns st' sz|e rest|e rest|cmd rest]; try done.
  destruct Hx as [_ Hx]. rewrite !not_elem_of_cons in Hx. by rewrite (proj2 (Z.eqb_neq cmd LC_SYMTAB)) by apply Hx.
Qed.

(** C29.  In an image with one symbol table, the address of a symbol is the value of
    the first entry with this name plus the slide, and 0 if there is none or
    there is no link edit segment. *)
Theorem solve_symbol_correct m header i name pre so ns sto sz post syms : image_ok header i → holds m header (enc_image i) → magic i ∈ MH_MAGICS → 0 ∉ name →
  cmds i = pre ++ LSymtab so ns sto sz :: post → forallb (λ x, negb (is_symtab x)) (pre ++ post) = true →
  let '(slide, link) := image_bases header 0 0 (cmds i) in
  let base := u64 (link + so) in
  ns = Z.of_nat (length syms) → base + NLIST_SIZE * ns < 2 ^ 64 → Forall (nsym_ok m (u64 (link + sto))) syms → holds m base (concat (enc_nsym <$> syms)) →
  solve_symbol_by_header m header name = Ret (if link =? 0 then 0 else match first_symbol name syms with Some v => u64 (v + slide) | None => 0 end).
Proof.
  intros (H0 & Um & _ & _ & H12 & Hcs & H64 & H32) Hh Hmag Hname Hcmds Hsym. destruct (image_bases header 0 0 (cmds i)) as [slide link] eqn:Eb. intros base Hns Hbase Hsyms Htab.
  unfold enc_image in Hh, H64, H32. rewrite !length_app, !length_le_bytes, H12 in H64, H32. split_holds Hh. rewrite ?H12 in *. unfold solve_symbol_by_header. pose proof (cmds_count (cmds i)) as Hcnt.
  rewrite (holds_ld32 m header (magic i)) by done. cbn [mbind outcome_bind]. rewrite bool_decide_eq_true_2 by done. cbn [negb].
  rewrite (holds_ld32 m (header + 16) (Z.of_nat (length (cmds i)))); [|unfold in_u; lia|eapply holds_at; [eassumption|lia]]. cbn [mbind outcome_bind]. rewrite Nat2Z.id.
  assert (holds m (header + MACH_HEADER_SIZE) (concat (enc_cmd <$> cmds i))) as Hc by (eapply holds_at; [exact Hh|unfold MACH_HEADER_SIZE; lia]).
  rewrite symbol_pass1_ok; [|done|unfold MACH_HEADER_SIZE; lia|unfold MACH_HEADER_SIZE; lia|lia|done]. rewrite Eb. cbn [mbind outcome_bind]. rewrite Hcmds in Hcs, Hc, H64, H32 |- *.
  rewrite forallb_app in Hsym. apply andb_true_iff in Hsym as [Hpre Hpost]. clear Hcnt.
  destruct (symbol_pass2_skip m name pre (LSymtab so ns sto sz :: post) (header + MACH_HEADER_SIZE) slide link) as (lc & -> & Hlc0 & Hlc64 & Hlc32 & Hlch); [done|unfold MACH_HEADER_SIZE; lia|unfold MACH_HEADER_SIZE; lia|lia|done|done|].
  apply Forall_app in Hcs as [_ [Hx Hcs]%Forall_cons]. destruct (cmds_head m lc _ post Hx Hlc0 Hlc64 Hlc32 Hlch) as (Hh1 & n & Hn & Hw & Hn0 & H64' & H32' & Hh2).
  cbn [length symbol_pass2]. rewrite Hn. cbn [mbind outcome_bind]. rewrite (cmd_word_reads _ _ _ Hx Hh1). cbn [mbind outcome_bind]. rewrite Z.eqb_refl, Hw. destruct (link =? 0); [done|].
  destruct Hx as (U1 & U2 & U3). cbn [enc_cmd] in Hh1. split_holds Hh1. rewrite (holds_ld32 m (lc + 16) sto), (holds_ld32 m (lc + 8) so), (holds_ld32 m (lc + 12) ns); try done; try (eapply holds_at; [eassumption|lia]).
  cbn [mbind outcome_bind]. fold base. rewrite Hns, Nat2Z.id. rewrite find_symbol_ok; [|done|apply wrap_range; lia|by rewrite <- Hns|done|done]. cbn [mbind outcome_bind]. destruct (first_symbol name syms); [done|].
  destruct (symbol_pass2_skip m name post [] (lc + n) slide link) as (lc' & E & _); rewrite ?app_nil_r in *; [done|lia|done..|]. by rewrite E.
Qed.

(** Only half of the initialisers that are given as offsets get a type: the
    offsets have four bytes, the number of entries is the size divided by 8. *)
Lemma init_offsets_half m header slide a s os cbs : sect_ok s → holds m a (enc_sect s) → Z.land (s_flags s) SECTION_TYPE = S_INIT_FUNC_OFFSETS → s_size s = 4 * Z.of_nat (length os) →
  Forall (in_u 32) os → holds m (u64 (s_addr s + slide)) (concat (le_bytes 4 <$> os)) →
  mark_section_calls m header slide a cbs = Ret (register_all cbs (typed init_types ((λ o, u64 (header + o)) <$> take (length os / 2)%nat os))).
Proof.
  intros Hs Hh Ht Hz Ho Hos. apply (section_calls_registers m header slide a s (sect_reads_ok _ _ _ Hs Hh)). unfold sect_calls. rewrite Ht, Hz. cbn [Z.eqb S_INIT_FUNC_OFFSETS S_MOD_INIT_FUNC_POINTERS Pos.eqb].
  replace (Z.to_nat (4 * Z.of_nat (length os) / 8)) with (length os / 2)%nat.
  2: { replace (4 * Z.of_nat (length os) / 8) with (Z.of_nat (length os / 2)) by (rewrite Nat2Z.inj_div; rewrite <- (Z.div_mul_cancel_l _ 2 4) by lia; f_equal; lia). by rewrite Nat2Z.id. }
  set (e := u64 _) in *. clearbody e. assert (∀ n, offsets m e n = Ret (take n os) ∨ (length os < n)%nat) as Hoff.
  { clear -Ho Hos. revert e Hos. induction Ho as [|o os Uo Ho IH]; intros e Hos [|n]; [by left|right; cbn; lia|by left|]. cbn [fmap list_fmap concat] in Hos. apply holds_app in Hos as [H1 H2].
    rewrite length_le_bytes in H2. change (Z.of_nat 4) with 4 in H2. cbn [offsets take length]. rewrite (holds_ld32 m e o) by done. cbn [mbind outcome_bind]. destruct (IH _ H2 n) as [E|E]; [left; by rewrite E|right; lia]. }
  destruct (Hoff (length os / 2)%nat) as [->|Hbad]; [done|]. pose proof (Nat.Div0.div_le_upper_bound (length os) 2 (length os)). lia.
Qed.

(** ** An image *)

Definition ex_name (s : string) : list Z := take 16 (codes s ++ replicate 16 0).
Definition ex_seg (name : string) (addr size off prot : Z) (l : list sect) : seg := mk_seg (ex_name name) addr size off (replicate 12 0) prot (replicate 4 0) l.
Definition ex_image : image := mk_image 0xfeedfacf CPU_TYPE_ARM64 0 MH_EXECUTE (replicate 12 0)
  [LSegment (ex_seg "__TEXT" 0 0x1000 0 5 []);
   LSegment (ex_seg "__DATA" 0x1000 0x1000 0x1000 3 [mk_sect (ex_name "__mod_init_func") (ex_name "__DATA") 0x1000 16 (replicate 16 0) S_MOD_INIT_FUNC_POINTERS (replicate 12 0)]);
   LSegment (ex_seg "__LINKEDIT" 0x2000 0x1000 0x2000 1 []);
   LSymtab 0x2000 2 0x2100 16;
   LMain 0x600 (replicate 8 0)].
Definition ex_syms : list nsym := [mk_nsym 1 (replicate 4 0) 0x400 (codes "_init"); mk_nsym 7 (replicate 4 0) 0x600 (codes "_main")].
Definition ex_mem : memory := region code_page (enc_image ex_image) (region (code_page + 0x1000) (concat (le_bytes 8 <$> [code_page + 0x400; code_page + 0x500]))
  (region (code_page + 0x2000) (concat (enc_nsym <$> ex_syms)) (region (code_page + 0x2100) ([0] ++ codes "_init" ++ [0] ++ codes "_main" ++ [0]) (λ _, None)))).
Definition ex_start : loaded page_table := mk_loaded (vm_start wit_host) ∅ ∅.

Lemma ex_image_ok : image_ok code_page ex_image.
Proof. unfold image_ok, code_page. split_and!; try done. repeat constructor; done. Qed.

Lemma ex_holds : holds ex_mem code_page (enc_image ex_image).
Proof. apply rd_region. reflexivity. Qed.

Definition ex_vm : vm page_table := match target_mprotect TARGET_PAGE_SIZE (vm_start wit_host) code_page 0x1000 5 with Ret (_, v) => v | Stop _ => vm_start wit_host end.
Lemma ex_exec : image_exec code_page ex_image = [(code_page, 0x1000, 5)].
Proof. reflexivity. Qed.
Lemma ex_protect : protect_all TARGET_PAGE_SIZE (vm_start wit_host) [(code_page, 0x1000, 5)] = Ret ex_vm.
Proof. reflexivity. Qed.


Lemma solve_symbol_correct_witness : solve_symbol_by_header ex_mem code_page (codes "_main") = Ret (code_page + 0x600).
Proof.
  refine (solve_symbol_correct ex_mem code_page ex_image (codes "_main") (take 3 (cmds ex_image)) 0x2000 2 0x2100 16 (drop 4 (cmds ex_image)) ex_syms ex_image_ok ex_holds _ _ eq_refl eq_refl eq_refl _ _ _).
  - apply (bool_decide_unpack _). vm_compute. exact I.
  - apply (bool_decide_unpack _). vm_compute. exact I.
  - reflexivity.
  - repeat constructor; try done; apply (bool_decide_unpack _); vm_compute; exact I.
  - vm_compute. reflexivity.
Defined.
