(* ===== verification/Hooks.v ===== *)
(** * Host functions that the emulator replaces

    Some functions of the host cannot be called for the guest as they are:
    signal handlers and names of functions have to be noted, and questions
    about a thread are about the emulated one ([bsd-user/hooks.c]).  The
    functions [call_...] run instead of the host function that the guest
    jumps to; the functions [my...] are interposed. *)

From stdpp Require Import gmap.
From S2P Require Import CString Prelude Bytes DyBridge Handlers Memory Pages PagesSpec PagesInv Callbacks SigState Signals SigSpec SigCorrect Setjmp XLoop Loader LoaderSpec.

(** ** Signal handlers *)

Definition SIG_DFL : Z := 0.
Definition SIG_IGN : Z := 1.
Definition sa_sigaction_types : list ascii := chars "v24i0^?8^v16".
Definition signal_types : list ascii := chars "v8i0".

(** A [struct sigaction] of the host: handler, flags and mask. *)
Definition read_sigaction (m : memory) (p : Z) : outcome (Z * Z * Z) :=
  handler ← ld64 m p; mask ← ld32 m (p + 8); flags ← ld32 m (p + 12); Ret (handler, sext 32 flags, mask).
Definition write_sigaction (m : memory) (p : Z) (sa : Z * Z * Z) : outcome memory :=
  m ← wr_mem m p (le_bytes 8 sa.1.1); m ← wr_mem m (p + 12) (le_bytes 4 sa.1.2); wr_mem m (p + 8) (le_bytes 4 sa.2).

(** [env->xregs[0] = v; env->pc = env->xregs[30]] *)
Definition hook_return (g : guest) (m : memory) (v : Z) : outcome guest :=
  env ← set_xreg (g_env g) 0 v; lr ← xreg env 30; Ret (mk_guest env lr m).

Section hooks.
Context {H : Type} {HV : HostVM H}.
Implicit Type v : vm H.

(** A handler that is guest code gets the types of a handler. *)
Definition note_handler v (cbs : callback_types) (handler : Z) (types : list ascii) : callback_types :=
  if negb (handler =? SIG_IGN) && negb (handler =? SIG_DFL) && (need_emulation v handler).1 then tcg_register_callback_as_type cbs handler types else cbs.

(** A null pointer, or the action it points to. *)
Definition sigaction_arg (m : memory) (p : Z) : outcome (option target_sigaction) :=
  if p =? 0 then Ret None else '(handler, flags, mask) ← read_sigaction m p; Ret (Some (host_to_target_sigaction handler flags mask)).

(** [host_result] is what [sigaction] of the host returns. *)
Definition call_sigaction v (cbs : callback_types) (st : sigstate) (g : guest) (host_result : Z) : outcome (callback_types * sigstate * guest) :=
  x0 ← xreg (g_env g) 0;
  let signum := sext 32 x0 in
  act ← xreg (g_env g) 1;
  oldact ← xreg (g_env g) 2;
  cbs ← (if act =? 0 then Ret cbs else handler ← ld64 (g_mem g) act; Ret (note_handler v cbs handler sa_sigaction_types));
  pta ← sigaction_arg (g_mem g) act;
  ptoa ← sigaction_arg (g_mem g) oldact;
  '(r, old, st) ← do_sigaction st signum pta host_result;
  let ptoa := match ptoa, old with Some _, Some k => Some k | _, _ => ptoa end in
  m ← match ptoa with Some sa => write_sigaction (g_mem g) oldact (target_to_host_sigaction sa) | None => Ret (g_mem g) end;
  g ← hook_return g m r;
  Ret (cbs, st, g).

(** [host_signal] is [signal] of the host; [SIGBUS] is left alone. *)
Definition call_signal v (cbs : callback_types) (g : guest) (host_signal : Z → Z → Z) : outcome (callback_types * guest) :=
  x0 ← xreg (g_env g) 0;
  let signum := sext 32 x0 in
  handler ← xreg (g_env g) 1;
  if signum =? SIGBUS then g ← hook_return g (g_mem g) 0; Ret (cbs, g)
  else
    g ← hook_return g (g_mem g) (host_signal signum handler);
    Ret (note_handler v cbs handler signal_types, g).

(** ** Names of functions *)

(** The string at [p], of less than [fuel] characters. *)
Fixpoint c_str_at (fuel : nat) (m : memory) (p : Z) : outcome (list ascii) :=
  match fuel with
  | O => Stop OutOfFuel
  | S fuel => b ← ld8 m p; if b =? 0 then Ret [] else s ← c_str_at fuel m (p + 1); Ret (ascii_of_N (Z.to_N b) :: s)
  end.

(** A host function that dyld finds gets its name, with the underscore that
    names have in images, unless it has one. *)
Definition call_dlsym (fuel : nat) (dlsym_internal : Z → Z → Z → Z) v (names : gmap Z (list ascii)) (g : guest) : outcome (gmap Z (list ascii) * guest) :=
  handle ← xreg (g_env g) 0;
  symbol ← xreg (g_env g) 1;
  caller ← xreg (g_env g) 30;
  let result := dlsym_internal handle symbol caller in
  names ← (if negb (result =? 0) && negb (need_emulation_nolock (mmap_lock v) result) then
             match names !! result with
             | Some _ => Ret names
             | None => s ← c_str_at fuel (g_mem g) symbol; Ret (<[result := "_"%char :: s]> names)
             end
           else Ret names);
  g ← hook_return g (g_mem g) result;
  Ret (names, g).

(** ** Mappings *)

(** [vm_remap] of the host, already done: where the pages are now; copies of
    guest code are guest code. *)
Definition myvm_remap (hps : Z) v (r target_address size src_address : Z) : outcome (Z * vm H) :=
  if r =? 0 then
    let '(emul, v) := need_emulation v src_address in
    if (emul : bool) then '(_, v) ← target_mprotect hps v target_address size (Z.lor PROT_READ PROT_EXEC); Ret (r, v)
    else Ret (r, v)
  else Ret (r, v).
End hooks.

(** ** Registers of a thread *)

Definition KERN_SUCCESS : Z := 0.
Definition KERN_INVALID_ARGUMENT : Z := 4.
Definition THREAD_STATE_FLAVOR_LIST : Z := 0.
Definition THREAD_STATE_FLAVOR_LIST_NEW : Z := 128.
Definition ARM_THREAD_STATE : Z := 1.
Definition ARM_VFP_STATE : Z := 2.
Definition ARM_EXCEPTION_STATE : Z := 3.
Definition ARM_DEBUG_STATE : Z := 4.
Definition ARM_THREAD_STATE64 : Z := 6.
Definition ARM_EXCEPTION_STATE64 : Z := 7.
Definition ARM_DEBUG_STATE64 : Z := 15.
Definition ARM_NEON_STATE64 : Z := 17.
Definition ARM_THREAD_STATE64_COUNT : Z := (33 * 8 + 8) / 4.
Definition ARM_UNIFIED_THREAD_STATE_COUNT : Z := (8 + 33 * 8 + 8) / 4.
Definition ARM_NEON_STATE64_COUNT : Z := (32 * 16 + 16) / 4.

(** A [thread_state64_t], from behind the header of a unified state or alone. *)
Definition put_thread_state (m : memory) (p : Z) (g : guest) (cpsr : Z) : outcome memory :=
  m ← wr_mem m p (xregs (g_env g)); m ← wr_mem m (p + 256) (le_bytes 8 (g_pc g)); wr_mem m (p + 264) (le_bytes 4 cpsr).

Fixpoint put_words (m : memory) (p : Z) (l : list Z) : outcome memory :=
  match l with [] => Ret m | w :: l => m ← wr_mem m p (le_bytes 4 w); put_words m (p + 4) l end.

(** The lower 16 bytes of each vector register. *)
Fixpoint put_vectors (m : memory) (p : Z) (env : CPUARMState) (i : Z) (n : nat) : outcome memory :=
  match n with
  | O => Ret m
  | S n => q ← rd (zregs env) (i * ZREG_SIZE) 16; m ← wr_mem m (p + 16 * i) q; put_vectors m p env (i + 1) n
  end.

(** The result, the memory and [*state_count], for a thread that the emulator
    knows, whose registers are those of [g]. The case of the vector registers
    falls through to the error. *)
Definition my_thread_get_state (g : guest) (cpsr fpsr fpcr : Z) (m : memory) (flavor state count : Z) : outcome (Z * memory * Z) :=
  if flavor =? THREAD_STATE_FLAVOR_LIST then
    if count <? 4 then Ret (KERN_INVALID_ARGUMENT, m, count)
    else m ← put_words m state [ARM_THREAD_STATE; ARM_VFP_STATE; ARM_EXCEPTION_STATE; ARM_DEBUG_STATE]; Ret (KERN_SUCCESS, m, 4)
  else if flavor =? THREAD_STATE_FLAVOR_LIST_NEW then
    if count <? 4 then Ret (KERN_INVALID_ARGUMENT, m, count)
    else m ← put_words m state [ARM_THREAD_STATE; ARM_VFP_STATE; ARM_EXCEPTION_STATE64; ARM_DEBUG_STATE64]; Ret (KERN_SUCCESS, m, 4)
  else if flavor =? ARM_THREAD_STATE then
    if count <? ARM_UNIFIED_THREAD_STATE_COUNT then Ret (KERN_INVALID_ARGUMENT, m, count)
    else
      m ← wr_mem m state (replicate (Z.to_nat (4 * ARM_UNIFIED_THREAD_STATE_COUNT)) 0);
      m ← put_words m state [ARM_THREAD_STATE64; ARM_THREAD_STATE64_COUNT];
      m ← put_thread_state m (state + 8) g cpsr;
      Ret (KERN_SUCCESS, m, ARM_UNIFIED_THREAD_STATE_COUNT)
  else if flavor =? ARM_THREAD_STATE64 then
    if count <? ARM_THREAD_STATE64_COUNT then Ret (KERN_INVALID_ARGUMENT, m, count)
    else m ← put_thread_state m state g cpsr; Ret (KERN_SUCCESS, m, ARM_THREAD_STATE64_COUNT)
  else if flavor =? ARM_NEON_STATE64 then
    if count <? ARM_NEON_STATE64_COUNT then Ret (KERN_INVALID_ARGUMENT, m, count)
    else
      m ← wr_mem m (state + 512) (le_bytes 4 fpsr);
      m ← wr_mem m (state + 516) (le_bytes 4 fpcr);
      m ← put_vectors m state (g_env g) 0 32;
      Ret (KERN_INVALID_ARGUMENT, m, ARM_NEON_STATE64_COUNT)
  else Ret (KERN_INVALID_ARGUMENT, m, count).

(** ** [sigaction] *)

Lemma write_sigaction_ok m p h f k : mapped m p 16 = true → ∃ m', write_sigaction m p (h, f, k) = Ret m' ∧
  rd_mem m' p 16 = Ret (le_bytes 8 h ++ le_bytes 4 k ++ le_bytes 4 f) ∧ ∀ x, x < p ∨ p + 16 ≤ x → m' x = m x.
Proof.
  intros Hm. unfold write_sigaction. cbn [fst snd]. destruct (wr_mem_ok m p (le_bytes 8 h)) as (m1 & E1 & _); [eapply mapped_sub; [exact Hm|rewrite ?length_le_bytes; lia..]|]. rewrite E1. cbn [mbind outcome_bind].
  destruct (wr_mem_ok m1 (p + 12) (le_bytes 4 f)) as (m2 & E2 & _); [rewrite (wr_mem_mapped _ _ _ _ _ _ E1); eapply mapped_sub; [exact Hm|rewrite ?length_le_bytes; lia..]|]. rewrite E2. cbn [mbind outcome_bind].
  destruct (wr_mem_ok m2 (p + 8) (le_bytes 4 k)) as (m3 & E3 & _); [rewrite (wr_mem_mapped _ _ _ _ _ _ E2), (wr_mem_mapped _ _ _ _ _ _ E1); eapply mapped_sub; [exact Hm|rewrite ?length_le_bytes; lia..]|].
  exists m3. split; [done|]. split.
  - apply (rd_mem_join m3 p 8 8); [lia|lia| |apply (rd_mem_join m3 (p + 8) 4 4); [lia|lia| |]].
    + rewrite (rd_wr_mem_other _ _ _ _ p 8 E3), (rd_wr_mem_other _ _ _ _ p 8 E2) by (rewrite length_le_bytes; lia). exact (rd_wr_whole _ _ _ _ E1).
    + exact (rd_wr_whole _ _ _ _ E3).
    + rewrite <- Z.add_assoc. rewrite (rd_wr_mem_other _ _ _ _ (p + (8 + 4)) 4 E3) by (rewrite length_le_bytes; lia). exact (rd_wr_whole _ _ _ _ E2).
  - intros x Hx. rewrite (wr_mem_out _ _ _ _ x E3), (wr_mem_out _ _ _ _ x E2), (wr_mem_out _ _ _ _ x E1) by (rewrite length_le_bytes; lia). done.
Qed.

(** The guest is back behind its call, with the result [r]. *)
Definition hook_returned (g g' : guest) (r : Z) : Prop := xreg (g_env g') 0 = Ret (u64 r) ∧ xreg (g_env g) 30 = Ret (g_pc g') ∧ zregs (g_env g') = zregs (g_env g) ∧
  ∀ k, 1 ≤ k < 32 → xreg (g_env g') k = xreg (g_env g) k.

Lemma hook_return_ok g m r : env_ok (g_env g) → ∃ g', hook_return g m r = Ret g' ∧ g_mem g' = m ∧ hook_returned g g' r.
Proof.
  intros He. destruct (set_xreg_ok (g_env g) 0 r (env_ok_xlen _ He) ltac:(lia)) as (env' & Hset & Hz & H0 & Hk). unfold hook_return. rewrite Hset. cbn [mbind outcome_bind].
  assert (∃ pc, xreg (g_env g) 30 = Ret pc) as [pc Hpc] by (unfold xreg; rewrite rd_ok by (pose proof (env_ok_xlen _ He); lia); by eexists).
  rewrite (Hk 30), Hpc by lia. eexists. split; [done|]. split; [done|]. split_and!; cbn [g_env g_pc]; try done. intros k Hk1. apply Hk; lia.
Qed.

Section correct.
Context {H : Type} {HV : HostVM H}.
Implicit Type v : vm H.

End correct.

(** ** [dlsym] *)

Lemma c_str_at_ok m p s fuel : Forall (λ c, c ≠ "000"%char) s → (length s < fuel)%nat → holds m p (((λ c, Z.of_N (N_of_ascii c)) <$> s) ++ [0]) → c_str_at fuel m p = Ret s.
Proof.
  intros Hs. revert p fuel. induction Hs as [|c s Hc Hs IH]; intros p fuel Hf Hh; (destruct fuel as [|fuel]; [lia|]); cbn [fmap list_fmap app] in Hh; apply holds_cons in Hh as [Hb Hh]; cbn [c_str_at]; rewrite Hb; cbn [mbind outcome_bind]; [done|].
  destruct (Z.eqb_spec (Z.of_N (N_of_ascii c)) 0) as [Hz|Hz].
  { exfalso. apply Hc. rewrite <- (ascii_N_embedding c). replace (N_of_ascii c) with 0%N by lia. done. }
  rewrite (IH (p + 1) fuel) by (done || cbn in Hf; lia). cbn [mbind outcome_bind]. by rewrite N2Z.id, ascii_N_embedding.
Qed.

(** C38.  A host function that the guest looked up can be called: the guest gets its
    address, and when it jumps there the code for the function of this name is
    made, as it would be for a function that the image is bound to. *)
Theorem dlsym_then_call {H} {HV : HostVM H} fuel dlsym_internal (v : vm H) names g handle p s caller DEBUG solve_symbol_name cbs : env_ok (g_env g) →
  xreg (g_env g) 0 = Ret handle → xreg (g_env g) 1 = Ret p → xreg (g_env g) 30 = Ret caller → Forall (λ c, c ≠ "000"%char) s → (length s < fuel)%nat →
  holds (g_mem g) p (((λ c, Z.of_N (N_of_ascii c)) <$> s) ++ [0]) →
  let f := dlsym_internal handle p caller in
  f ≠ 0 → need_emulation_nolock v f = false → names !! f = None →
  ∃ names' g', call_dlsym fuel dlsym_internal v names g = Ret (names', g') ∧ hook_returned g g' f ∧ g_mem g' = g_mem g ∧
    (∀ a, a ≠ f → names' !! a = names !! a) ∧
    misc_code DEBUG solve_symbol_name names' cbs f = Ret (TrampolineForName ("_"%char :: s)).
Proof.
  intros He H0 H1 H30 Hs Hf Hh f Hf0 Hem Hn. unfold call_dlsym. rewrite H0. cbn [mbind outcome_bind]. rewrite H1. cbn [mbind outcome_bind]. rewrite H30. cbn [mbind outcome_bind]. fold f.
  change (need_emulation_nolock (mmap_lock v) f) with (need_emulation_nolock v f). rewrite (proj2 (Z.eqb_neq _ _) Hf0), Hem, Hn. cbn [negb andb]. rewrite (c_str_at_ok _ _ s) by done. cbn [mbind outcome_bind].
  destruct (hook_return_ok g (g_mem g) f He) as (g' & -> & Hm & Hg). eexists _, g'. split; [reflexivity|]. split; [exact Hg|]. split; [exact Hm|]. split; [intros a Ha; by rewrite lookup_insert_ne|].
  unfold misc_code. rewrite lookup_insert_eq. by destruct DEBUG.
Qed.

(** ** [thread_get_state] *)

(** What a debugger or crash reporter of the guest gets for a thread: the
    general registers with frame pointer, link register and stack pointer in
    their order, the program counter and the flags; with too little space an
    error, and nothing is written. *)
Theorem thread_get_state_correct g cpsr fpsr fpcr m state count : env_ok (g_env g) → in_u 64 (g_pc g) → in_u 32 cpsr →
  if count <? ARM_THREAD_STATE64_COUNT then my_thread_get_state g cpsr fpsr fpcr m ARM_THREAD_STATE64 state count = Ret (KERN_INVALID_ARGUMENT, m, count)
  else mapped m state (4 * ARM_THREAD_STATE64_COUNT) = true →
    ∃ m', my_thread_get_state g cpsr fpsr fpcr m ARM_THREAD_STATE64 state count = Ret (KERN_SUCCESS, m', ARM_THREAD_STATE64_COUNT) ∧
      (∀ k, 0 ≤ k < 32 → ld64 m' (state + 8 * k) = xreg (g_env g) k) ∧ ld64 m' (state + 256) = Ret (g_pc g) ∧ ld32 m' (state + 264) = Ret cpsr ∧
      ∀ x, x < state ∨ state + 4 * ARM_THREAD_STATE64_COUNT ≤ x → m' x = m x.
Proof.
  intros He Upc Ucp. pose proof (env_ok_xlen _ He) as Hx. unfold my_thread_get_state. cbn [Z.eqb THREAD_STATE_FLAVOR_LIST THREAD_STATE_FLAVOR_LIST_NEW ARM_THREAD_STATE ARM_THREAD_STATE64 Pos.eqb].
  destruct (count <? ARM_THREAD_STATE64_COUNT); [done|]. change ARM_THREAD_STATE64_COUNT with 68. intros Hm. unfold put_thread_state.
  destruct (wr_mem_ok m state (xregs (g_env g))) as (m1 & E1 & _); [eapply mapped_sub; [exact Hm|lia..]|]. rewrite E1. cbn [mbind outcome_bind].
  destruct (wr_mem_ok m1 (state + 256) (le_bytes 8 (g_pc g))) as (m2 & E2 & _); [rewrite (wr_mem_mapped _ _ _ _ _ _ E1); eapply mapped_sub; [exact Hm|rewrite ?length_le_bytes; lia..]|]. rewrite E2. cbn [mbind outcome_bind].
  destruct (wr_mem_ok m2 (state + 264) (le_bytes 4 cpsr)) as (m3 & E3 & _); [rewrite (wr_mem_mapped _ _ _ _ _ _ E2), (wr_mem_mapped _ _ _ _ _ _ E1); eapply mapped_sub; [exact Hm|rewrite ?length_le_bytes; lia..]|]. rewrite E3. cbn [mbind outcome_bind].
  exists m3. split; [reflexivity|]. split_and!.
  - intros k Hk. unfold ld64, xreg. rewrite (rd_wr_mem_other _ _ _ _ _ 8 E3), (rd_wr_mem_other _ _ _ _ _ 8 E2) by (rewrite length_le_bytes; lia).
    rewrite (rd_wr_mem_same _ _ _ _ (8 * k) 8 E1) by lia. rewrite rd_ok by lia. by replace (8 * k) with (k * 8) by lia.
  - unfold ld64. rewrite (rd_wr_mem_other _ _ _ _ _ 8 E3) by (rewrite length_le_bytes; lia). change 8 with (Z.of_nat (length (le_bytes 8 (g_pc g)))). rewrite (rd_wr_whole _ _ _ _ E2). cbn [fmap outcome_fmap]. f_equal. rewrite le_val_bytes. by apply (wrap_small 64).
  - apply holds_ld32; [done|]. exact (rd_wr_whole _ _ _ _ E3).
  - intros x Hx'. rewrite (wr_mem_out _ _ _ _ x E3), (wr_mem_out _ _ _ _ x E2), (wr_mem_out _ _ _ _ x E1) by (rewrite ?length_le_bytes; lia). done.
Qed.

(** ** [vm_remap] *)

(** A copy of guest code is guest code. *)
Lemma remapped_code_emulated {H} {HV : HostVM H} {HL : HostVMLaws H} (v v' : vm H) target size src : in_u 64 target → (need_emulation v src).1 = true →
  target_mprotect TARGET_PAGE_SIZE (need_emulation v src).2 target size (Z.lor PROT_READ PROT_EXEC) = Ret (0, v') →
  myvm_remap TARGET_PAGE_SIZE v 0 target size src = Ret (0, v') ∧
  ∀ a, need_emulation_nolock v' a = covers (target, size, Z.lor PROT_READ PROT_EXEC) a || need_emulation_nolock v a.
Proof.
  intros Ht Hs Hp. unfold myvm_remap. cbn [Z.eqb]. destruct (need_emulation v src) as [emul v1] eqn:En. cbn in Hs, Hp. subst emul. rewrite Hp. split; [done|].
  assert (∀ a, need_emulation_nolock v1 a = need_emulation_nolock v a) as Hv1 by (unfold need_emulation in En; injection En as _ <-; done).
  destruct (protect_all_emulation v1 v' [(target, size, Z.lor PROT_READ PROT_EXEC)]) as [He _].
  - constructor; [|constructor]. split; [done|]. by eexists.
  - cbn [protect_all]. rewrite Hp. done.
  - intros a. rewrite He, Hv1. cbn [existsb]. by rewrite orb_false_r.
Qed.

(** ** Calls *)

Definition hk_guest (l : list Z) (m : memory) : guest := mk_guest (mk_env (concat (le_bytes 8 <$> (l ++ replicate (32 - length l) 77))) (replicate (Z.to_nat (32 * ZREG_SIZE)) 0)) 0x4000 m.

Lemma hk_env_ok l m : (length l ≤ 32)%nat → env_ok (g_env (hk_guest l m)).
Proof.
  intros Hl. split_and!; [|done|solve_bytes_ok..]. cbn [xregs hk_guest g_env]. assert (∀ k : list Z, length (concat (le_bytes 8 <$> k)) = (8 * length k)%nat) as Hk.
  { induction k as [|x k IH]; [done|]. cbn [fmap list_fmap concat]. rewrite length_app, IH, length_le_bytes. cbn [length]. lia. }
  rewrite Hk, length_app, length_replicate. lia.
Qed.

(** [sigaction(SIGUSR1, act, oldact)] with a handler in guest code. *)
Definition hk_mem : memory := region 4096 (le_bytes 8 (code_page + 8) ++ le_bytes 4 0 ++ le_bytes 4 0) (region 8192 (replicate 16 0) (λ _, None)).
Definition hk_action : target_sigaction := mk_sigaction (code_page + 8) 0 0.


(** [dlsym(RTLD_DEFAULT, "foo")] *)
Definition hk_name_mem : memory := region 4096 (codes "foo" ++ [0]) (λ _, None).

Lemma dlsym_then_call_witness : ∃ names' g', call_dlsym 10 (λ _ _ _, 0x7000) wit_running ∅ (hk_guest [0; 4096] hk_name_mem) = Ret (names', g') ∧ xreg (g_env g') 0 = Ret 0x7000 ∧
  misc_code false (λ _, None) names' ∅ 0x7000 = Ret (TrampolineForName (chars "_foo")).
Proof.
  destruct (dlsym_then_call 10 (λ _ _ _, 0x7000) wit_running ∅ (hk_guest [0; 4096] hk_name_mem) 0 4096 (chars "foo") 77 false (λ _, None) ∅) as (names' & g' & E & (H0 & _) & _ & _ & Hc);
    [apply hk_env_ok; cbn; lia|reflexivity|reflexivity|reflexivity|repeat constructor; done|cbn; lia|vm_compute; reflexivity|done|reflexivity|reflexivity|].
  exists names', g'. split; [exact E|]. split; [exact H0|exact Hc].
Defined.

Lemma thread_get_state_correct_witness : ∃ m', my_thread_get_state (hk_guest [1; 2; 3] (λ _, None)) 0x60000000 0 0 (region 4096 (replicate 272 0) (λ _, None)) ARM_THREAD_STATE64 4096 68 = Ret (KERN_SUCCESS, m', 68) ∧
  ld64 m' (4096 + 16) = Ret 3 ∧ ld64 m' (4096 + 256) = Ret 0x4000 ∧ ld32 m' (4096 + 264) = Ret 0x60000000.
Proof.
  destruct (thread_get_state_correct (hk_guest [1; 2; 3] (λ _, None)) 0x60000000 0 0 (region 4096 (replicate 272 0) (λ _, None)) 4096 68) as (m' & E & Hk & Hpc & Hc & _);
    [apply hk_env_ok; cbn; lia|done|done|vm_compute; reflexivity|].
  exists m'. split; [exact E|]. split; [exact (Hk 2 ltac:(lia))|]. split; [exact Hpc|exact Hc].
Defined.
