(* ===== verification/Patch.v ===== *)
(** * Patching host functions

    Where a function of the host cannot be interposed, its first bytes are
    overwritten with a jump ([util/x64hooks.c]): the lookup of lazy bindings
    in dyld and of methods in the Objective-C run time. *)

From S2P Require Import Prelude Bytes Memory Pages X86 Encoder.

Definition PAGE_SIZE : Z := 4096.
Definition PAGE_MASK : Z := 4095.
Definition VM_PROT_ALL : Z := 7.
Definition VM_PROT_COPY : Z := 0x10.

Section patch.
Context {H : Type} {HV : HostVM H}.
Implicit Type h : H.

(** Pages that were made writable are made executable code again, from
    [progress] down to the first one. *)
Fixpoint rollback (fuel : nat) h (start_page progress : Z) : outcome H :=
  match fuel with
  | O => Stop OutOfFuel
  | S fuel =>
      let p := u64 (start_page + progress) in
      if start_page <=? p then rollback fuel (h_mprotect h p PAGE_SIZE (Z.lor PROT_READ PROT_EXEC)).2 start_page (u64 (progress - PAGE_SIZE))
      else Ret h
  end.

Fixpoint writable_pages (fuel : nat) h (start_page end_page progress : Z) : outcome (Z * H) :=
  match fuel with
  | O => Stop OutOfFuel
  | S fuel' =>
      let p := u64 (start_page + progress) in
      if p <=? end_page then
        let '(r, h) := h_mprotect h p PAGE_SIZE (Z.lor PROT_READ (Z.lor PROT_WRITE PROT_EXEC)) in
        let '(r, h) := if r =? 0 then (r, h) else h_mprotect h p PAGE_SIZE (Z.lor VM_PROT_ALL VM_PROT_COPY) in
        if r =? 0 then writable_pages fuel' h start_page end_page (u64 (progress + PAGE_SIZE))
        else h ← rollback fuel h start_page (u64 (progress - PAGE_SIZE)); Ret (r, h)
      else Ret (0, h)
  end.

Definition make_exec_page_writable (fuel : nat) h (start len : Z) : outcome (Z * H) :=
  writable_pages fuel h (Z.ldiff start PAGE_MASK) (Z.ldiff (u64 (start + len)) PAGE_MASK) 0.

(** [mov rax, stub; jmp rax] *)
Definition hook_code (stub : Z) : list Z := [0x48; 0xB8] ++ le_bytes 8 stub ++ [0xFF; 0xE0].

Definition hook_x64_func (fuel : nat) h (m : memory) (target stub : Z) : outcome (Z * memory * H) :=
  '(r, h) ← make_exec_page_writable fuel h target 12;
  if negb (r =? 0) then Ret (r, m, h)
  else m ← wr_mem m target (hook_code stub); Ret (12, m, h).

(** ** The loops end *)

Lemma page_down a : 0 ≤ a → Z.ldiff a PAGE_MASK = a - a mod 4096.
Proof. intros Ha. change PAGE_MASK with (Z.ones 12). rewrite Z.ldiff_ones_r by lia. rewrite Z.shiftl_mul_pow2, Z.shiftr_div_pow2 by lia. change (2 ^ 12) with 4096. pose proof (Z.div_mod a 4096). lia. Qed.

(** From the page [k] of the range on, down to the first. *)
Lemma rollback_ok k fuel h s : (k < fuel)%nat → 4096 ≤ s → s + 4096 * Z.of_nat k < 2 ^ 64 → ∃ h', rollback fuel h s (u64 (4096 * Z.of_nat k - 4096)) = Ret h'.
Proof.
  revert fuel h. induction k as [|k IH]; intros fuel h Hk Hs Hb; (destruct fuel as [|fuel]; [lia|]); cbn [rollback].
  - change (u64 (4096 * Z.of_nat 0 - 4096)) with (2 ^ 64 - 4096). replace (u64 (s + (2 ^ 64 - 4096))) with (s - 4096) by (unfold wrap; apply (Z.mod_unique _ _ 1); lia).
    rewrite (proj2 (Z.leb_gt s (s - 4096))) by lia. by eexists.
  - rewrite (wrap_small 64 (4096 * Z.of_nat (S k) - 4096)) by (unfold in_u; lia). rewrite (wrap_small 64 (s + _)) by (unfold in_u; lia). rewrite (proj2 (Z.leb_le s _)) by lia.
    replace (4096 * Z.of_nat (S k) - 4096 - PAGE_SIZE) with (4096 * Z.of_nat k - 4096) by (unfold PAGE_SIZE; lia). apply IH; lia.
Qed.

(** [n] pages are left, [k] are writable. *)
Lemma writable_pages_ok n k fuel h s : 4096 ≤ s → s + 4096 * Z.of_nat (k + n) < 2 ^ 64 → (k + 2 * n + 1 < fuel)%nat →
  ∃ r h', writable_pages fuel h s (s + 4096 * (Z.of_nat (k + n) - 1)) (4096 * Z.of_nat k) = Ret (r, h').
Proof.
  intros Hs. revert k fuel h. induction n as [|n IH]; intros k fuel h Hb Hf; (destruct fuel as [|fuel]; [lia|]); cbn [writable_pages]; rewrite (wrap_small 64 (s + 4096 * Z.of_nat k)) by (unfold in_u; lia).
  - rewrite (proj2 (Z.leb_gt _ _)) by lia. by eexists _, _.
  - rewrite (proj2 (Z.leb_le _ _)) by lia. destruct (h_mprotect h _ _ _) as [r1 h1]. destruct (if r1 =? 0 then _ else _) as [r2 h2]. destruct (r2 =? 0).
    + rewrite (wrap_small 64 (4096 * Z.of_nat k + PAGE_SIZE)) by (unfold in_u, PAGE_SIZE; lia). replace (4096 * Z.of_nat k + PAGE_SIZE) with (4096 * Z.of_nat (S k)) by (unfold PAGE_SIZE; lia).
      replace (k + S n)%nat with (S k + n)%nat in * by lia. apply IH; lia.
    + destruct (rollback_ok k (S fuel) h2 s) as [h3 E]; [lia|lia|lia|]. unfold PAGE_SIZE. rewrite E. by eexists _, _.
Qed.

Lemma make_exec_page_writable_ok fuel h start len : 4096 ≤ start → 0 ≤ len → start + len < 2 ^ 64 - 4096 → (2 * Z.to_nat (len / 4096 + 2) + 1 < fuel)%nat → ∃ r h', make_exec_page_writable fuel h start len = Ret (r, h').
Proof.
  intros Hs Hl Hb Hf. unfold make_exec_page_writable. rewrite (wrap_small 64 (start + len)) by (unfold in_u; lia). rewrite !page_down by lia.
  pose proof (Z.div_mod start 4096 ltac:(lia)). pose proof (Z.div_mod (start + len) 4096 ltac:(lia)). pose proof (Z.mod_pos_bound start 4096 ltac:(lia)). pose proof (Z.mod_pos_bound (start + len) 4096 ltac:(lia)). pose proof (Z.div_mod len 4096 ltac:(lia)). pose proof (Z.mod_pos_bound len 4096 ltac:(lia)).
  set (n := Z.to_nat ((start + len) / 4096 - start / 4096 + 1)). assert (start / 4096 ≤ (start + len) / 4096) by (apply Z.div_le_mono; lia).
  replace (start + len - (start + len) mod 4096) with (start - start mod 4096 + 4096 * (Z.of_nat (0 + n) - 1)) by lia. apply (writable_pages_ok n 0); lia.
Qed.

(** A host that never refuses a protection. *)
Definition always_granted : Prop := ∀ h p q, (h_mprotect h p PAGE_SIZE q).1 = 0.

Lemma writable_pages_granted fuel h s e progress r h' : always_granted → writable_pages fuel h s e progress = Ret (r, h') → r = 0.
Proof.
  intros Hg. revert h progress. induction fuel as [|fuel IH]; intros h progress; cbn [writable_pages]; [discriminate|]. destruct (_ <=? _); [|by intros [= <- _]].
  pose proof (Hg h (u64 (s + progress)) (Z.lor PROT_READ (Z.lor PROT_WRITE PROT_EXEC))) as E. destruct (h_mprotect _ _ _ _) as [r1 h1]. cbn [fst] in E. subst r1. cbn [Z.eqb]. apply IH.
Qed.

(** ** The patch *)

Lemma hook_mov here stub rest : in_u 64 stub → decode here (0x48 :: 0xB8 :: le_bytes 8 stub ++ rest) = Some (IMovImm TCG_REG_RAX stub, 10).
Proof.
  intros Us. destruct (get_imm 8 stub rest ltac:(lia)) as (y & Hy & Hw). change (Z.to_nat 8) with 8%nat in Hy. change (8 * 8) with 64 in Hw. rewrite (wrap_small 64 stub) in Hw by done.
  set (l := le_bytes 8 stub ++ rest) in *. unfold decode. cbn [Z.eqb Pos.eqb Z.leb Z.compare Pos.compare Pos.compare_cont andb]. unfold opcode.
  change (bit 72 3) with 1. cbn [Z.eqb Pos.eqb Z.leb Z.compare Pos.compare Pos.compare_cont andb wbytes wbits]. rewrite Hy. cbn [mbind option_bind]. unfold done_at, size_to. f_equal. f_equal; [f_equal; exact Hw|].
  unfold l. cbn [length]. rewrite length_app, length_le_bytes. lia.
Qed.

(** C39.  A patched function does nothing but jump to its replacement: it starts
    with the two instructions, which only change RAX.  Its pages are made
    writable before, which fails only if the host refuses; then the function is
    left alone and the result is the error of the host. *)
Theorem hook_redirects h m target stub : 4096 ≤ target → target + 12 < 2 ^ 64 - 4096 → in_u 64 stub → mapped m target 12 = true →
  ∃ r h', make_exec_page_writable 6 h target 12 = Ret (r, h') ∧ (always_granted → r = 0) ∧
    if r =? 0 then
      ∃ m' code, hook_x64_func 6 h m target stub = Ret (12, m', h') ∧ (∀ x, x < target ∨ target + 12 ≤ x → m' x = m x) ∧ rd_mem m' target 12 = Ret code ∧
        ∀ host s, inside target code stub = false → run host target code 2 target s = Ret (stub, set_gpr s TCG_REG_RAX stub)
    else hook_x64_func 6 h m target stub = Ret (r, m, h').
Proof.
  intros Ht Hb Us Hm. unfold hook_x64_func. destruct (make_exec_page_writable_ok 6 h target 12) as (r & h' & Em); [lia|lia|lia|vm_compute; lia|].
  exists r, h'. split; [done|]. split; [intros Hg; exact (writable_pages_granted _ _ _ _ _ _ _ Hg Em)|]. rewrite Em. cbn [mbind outcome_bind].
  destruct (r =? 0); cbn [negb]; [|done]. destruct (wr_mem_ok m target (hook_code stub)) as (m' & E & _ & Hout); [done|]. rewrite E. cbn [mbind outcome_bind].
  exists m', (hook_code stub). split; [done|]. split; [exact Hout|]. split; [exact (rd_wr_whole _ _ _ _ E)|]. intros host s Hi.
  assert (inside target (hook_code stub) target = true) as I0 by (unfold inside; change (length (hook_code stub)) with 12%nat; apply andb_true_iff; rewrite Z.leb_le, Z.ltb_lt; lia).
  assert (inside target (hook_code stub) (target + 10) = true) as I1 by (unfold inside; change (length (hook_code stub)) with 12%nat; apply andb_true_iff; rewrite Z.leb_le, Z.ltb_lt; lia).
  assert (step host target (hook_code stub) target s = Ret (target + 10, set_gpr s TCG_REG_RAX stub)) as S0.
  { unfold step. rewrite Z.sub_diag. change (drop (Z.to_nat 0) (hook_code stub)) with (0x48 :: 0xB8 :: le_bytes 8 stub ++ [0xFF; 0xE0]). by rewrite hook_mov. }
  assert (∀ s, step host target (hook_code stub) (target + 10) s = Ret (gpr s TCG_REG_RAX, s)) as S1.
  { intros s'. unfold step. replace (target + 10 - target) with 10 by lia. done. }
  cbn [run]. rewrite I0, S0. cbn [mbind outcome_bind]. rewrite I1, S1. cbn [mbind outcome_bind gpr set_gpr]. rewrite Z.eqb_refl, wrap_small by done. by rewrite Hi.
Qed.
End patch.

(** ** A patch *)

#[local] Instance all_granted : HostVM unit := {
  h_prot h p := None; h_mprotect h a n q := (0, h); h_mmap h a n q fl fd off := (inr 0, h); h_munmap h a n := (0, h); h_msync h a n fl := 0; h_pread h fd a n off := h
}.

Lemma hook_redirects_witness : ∃ m', hook_x64_func 6 tt (region 0x7ffa (replicate 12 0x90) (λ _, None)) 0x7ffa 0x123456789a = Ret (12, m', tt) ∧ m' 0x7ffb = Some 0xB8.
Proof.
  destruct (hook_redirects tt (region 0x7ffa (replicate 12 0x90) (λ _, None)) 0x7ffa 0x123456789a) as (r & h' & _ & Hr & E); [lia|lia|done|vm_compute; reflexivity|].
  rewrite Hr in E by done. cbn [Z.eqb] in E. destruct E as (m' & code & E & _). destruct h'. exists m'. split; [exact E|]. injection E as <-. reflexivity.
Defined.
